(* ===== verification/_CoqProject ===== *)
-Q . S2P
Prelude.v
FreeQueue.v
Request.v
Hashing.v
Metrics.v
BlockPool.v
KVSpec.v
SingleType.v
Group.v
Coordinator.v
CoordFacts.v
KVManager.v
KVFacts.v
KVSession.v
CoordFindings.v
EncoderCache.v
EncoderFacts.v
EncoderSchedule.v
Heap.v
ReqQueue.v
Offload.v
OffloadFacts.v
OffloadSession.v
Scheduler.v
SchedContract.v
SchedKV.v
SchedFacts.v
SchedPhases.v
SchedWaiting.v
SchedStep.v
SchedServe.v
SchedUpdate.v
SchedFindings.v
SchedSound.v
Engine.v
EngineSession.v
Ngram.v
NgramFacts.v
BlockTable.v
BlockTableFacts.v
ShmRing.v
ShmRingFacts.v
MemPlan.v
MemPlanFacts.v
MemPlanGroups.v
MemPlanPages.v
MemPlanSound.v
Detokenizer.v
DetokFacts.v
OutputProcessor.v
OutputStream.v
BatchUpdate.v
LogitsFacts.v
LogitsFollow.v
InputBatch.v
BatchRows.v
BatchTokens.v
BatchColumns.v
BatchSampling.v
BatchHoles.v
BatchState.v
BatchPhases.v
ReorderBatch.v
ReorderFacts.v
ModelRunner.v
RunnerFacts.v
RunnerStep.v
RunnerTokens.v
RunnerSound.v
RunnerDemo.v
BatchFindings.v
