(* ===== verification/Prelude.v ===== *)
(** * The engine, scheduling, KV-cache and batch core of vLLM (V1), verified

    This library models the Python code that takes requests, decides which of them
    run in a step and which blocks of the GPU's key/value cache they use, and turns
    the sampled tokens into answers.  Names are those of the source;
    paths are below [src/].

    ** The program and the files

    The engine ([vllm/v1/engine/core.py]) turns requests into [Request] objects
    ([vllm/v1/request.py]) that wait in a queue of the scheduler
    ([vllm/v1/core/sched/]); its busy loop schedules, lets the executor run the model
    and hands the sampled tokens back to the scheduler.  For every step the scheduler
    asks the KV-cache manager ([kv_cache_manager.py]) for the longest cached prefix and
    for slots for the new tokens.  The manager hands the call to a coordinator
    ([kv_cache_coordinator.py]), which owns one single-type manager per KV-cache group
    ([single_type_kv_cache_manager.py]); all of them take blocks from and give blocks to
    one pool ([block_pool.py]), whose free blocks are a doubly linked queue
    ([kv_cache_utils.py]).  Full blocks are found again by the hash of their prefix
    ([kv_cache_utils.py], [request.py]).  Multimodal inputs have a cache of their own
    ([encoder_cache_manager.py]), and blocks may be copied to CPU memory
    ([vllm/v1/kv_offload/]).  At start-up the layers are put into groups and memory is
    divided among them ([kv_cache_utils.py]).

    On the worker's side the model runner ([v1/worker/gpu_model_runner.py]) keeps each
    scheduled request in a row of its persistent batch ([gpu_input_batch.py]), with a
    row in the block tables ([block_table.py]), and tells the logits processors
    ([v1/sample/logits_processor/]) which rows have changed; an n-gram proposer drafts
    tokens ([ngram_proposer.py]).  Scheduler and workers of one machine talk through a
    ring of chunks in shared memory ([shm_broadcast.py]).  In the client's process the
    output processor ([v1/engine/output_processor.py]) turns tokens into text
    ([detokenizer.py]) and queues the answers of each request.

    - [Prelude] (this file): Python's exceptions, the state and error monad [M], loops
      [mfor] and [mmapM], floor division, list indexing and slices, dictionaries.
    - [FreeQueue]: [KVCacheBlock] objects in a store and [FreeKVCacheBlockQueue] with its
      pointer updates.
    - [Request]: request state, ordering, status, [check_stop], placeholder ranges.
    - [Hashing]: extra keys, [hash_block_tokens], the incremental request hasher, external
      hashes, [BlockHashListWithBlockSize].
    - [Metrics]: [KVCacheMetricsCollector].
    - [BlockPool]: [BlockHashToBlockMap] and [BlockPool] with events and metrics.
    - [KVSpec]: the spec classes of [kv_cache_interface.py].
    - [SingleType]: the single-type managers and their longest-hit searches; [Group]: their
      theorems.
    - [Coordinator], [CoordFacts], [CoordFindings]: the three coordinators.
    - [KVManager]: [KVCacheManager], [KVCacheBlocks], [CachingMetrics]; [KVFacts] and
      [KVSession]: their theorems.
    - [EncoderCache], [EncoderFacts], [EncoderSchedule]: both encoder cache managers, the
      scheduler functions that use them, the range the model runner gathers.
    - [Heap], [ReqQueue]: Python's [heapq] and the two request queues.
    - [Offload], [OffloadFacts], [OffloadSession]: the CPU offloading manager over a class
      of cache policies, LRU and ARC as its instances, the reuse filter.
    - [Scheduler]: [Scheduler] and [AsyncScheduler] with [schedule],
      [update_from_output], [finish_requests] and what they call, over a class [KVOps]
      of the calls to the KV-cache manager.
    - [SchedContract]: the laws [KVLaws] the scheduler relies on, and the scheduler's
      invariant; [SchedKV]: the modelled KV-cache manager as an instance that keeps the
      laws.
    - [SchedFacts], [SchedPhases], [SchedWaiting], [SchedStep]: from single operations to
      the two loops of [schedule] and the whole call; [SchedServe]: requests come, are
      finished and aborted; [SchedUpdate]: [update_from_output]; [SchedSound]: the two
      theorems for an engine's scheduler; [SchedFindings]: runs of it.
    - [Engine]: [EngineCore] and the loop of [EngineCoreProc] over a class [ExecutorOps];
      [EngineSession]: sessions of calls, with any executor that keeps [ExecutorLaws].
    - [MemPlan]: how layers are grouped, page sizes unified and blocks counted at start-up,
      and the search for the model length; [MemPlanFacts], [MemPlanGroups],
      [MemPlanPages], [MemPlanSound]: their theorems.
    - [Ngram], [NgramFacts]: prompt-lookup drafting against a reference that looks for the
      first earlier occurrence of the longest suffix.
    - [BlockTable], [BlockTableFacts]: the block tables, the kernel that maps tokens to
      slots, and context parallelism.
    - [ShmRing], [ShmRingFacts]: the ring buffer as a step relation of memory accesses, the
      encoding of messages in chunks.
    - [Detokenizer], [DetokFacts]: incremental detokenization over a class of decoders,
      stop strings; [OutputProcessor], [OutputStream]: request states, collectors, parents
      of parallel sampling and the stream a client gets.
    - [BatchUpdate]: the builder of batch updates and the states of the logits processors;
      [LogitsFacts], [LogitsFollow]: that they follow the rows.
    - [InputBatch]: the persistent batch; [BatchRows], [BatchTokens], [BatchColumns],
      [BatchSampling], [BatchHoles]: what each group of its attributes says about the rows
      and what the operations do to it; [BatchState]: all of them together, as [batch_ok];
      [BatchPhases]: removal, addition, [condense], swaps and [refresh_metadata].
    - [ReorderBatch], [ReorderFacts]: splitting the batch into decodes and prefills.
    - [ModelRunner]: [_update_states] and the caching of sampled tokens;
      [RunnerFacts], [RunnerStep], [RunnerTokens]: their steps; [RunnerSound]: the
      theorems, over all reachable states; [RunnerDemo]: a small worker for the
      witnesses; [BatchFindings]: runs of the batch.

    State is passed explicitly.  An operation is a function [M S A]: from a state to an
    answer or an exception, and a new state.  What Python mutates through a reference is
    a store (blocks) or is updated where it is kept (offloaded blocks).  Guards, early
    returns, assertions and the order of effects are those of the source.

    ** What the theorems show

    - Queue and pool: the linked queue refines a deque; over any session reference
      counts are exact, the free queue has exactly the unreferenced blocks, the block
      freed longest ago is evicted first, and a held block is never handed out.
    - Hashing: where only the last multimodal input reaches into a block that generated tokens
      complete, the incremental hasher agrees with hashing from scratch, and, for an
      injective hash function, equal hashes mean equal tokens and equal lists of extra keys up to the
      end of the block.  Those lists do not tell a LoRA name from an equal cache salt.
    - Hits: the searches for full attention and for sliding windows return a prefix that is
      really cached and is the longest their rule allows; the fixed-point search over several groups terminates with
      a length every group serves.  For sliding windows this needs EAGLE off or blocks of the common size; for
      several groups also at most one full-attention spec and no chunked-local group.
      [CoordFindings] and the findings show what happens otherwise.
    - Allocation: the capacity check is exact; when it passes nothing fails and each
      group gets exactly what it needs; sessions of the whole manager leak no block.
    - Encoder cache: the counters are exact; for decoder-only models without the look-ahead of
      EAGLE, what the runner gathers has an entry that the request references (whether the entry was
      computed is not claimed).
    - Queues, stopping, statistics: the queues serve their policies; [check_stop] and the
      repetition check decide what they should; windows have exact aggregates.
    - Offloading: slots are neither shared nor lost, nothing that is read is evicted.
    - Scheduler: with any KV-cache manager that keeps [KVLaws], [schedule] raises
      nothing, stays within the token budget, the number of running requests and the
      longest model length, and keeps the invariant (each request is either waiting or
      running, statuses and queues agree, counters are in range);
      [update_from_output] turns any well-formed answer of the runner into outputs and
      keeps it too.
    - Start-up: every layer is in exactly one group, and layers of different page sizes get the
      least page size that larger blocks can reach; an attention layer is padded exactly when it has the largest
      page and that does not divide the new one, against what a comment and a test demand.  Without an override of
      the number of blocks the tensors fit into the memory and there are at least the blocks counted for
      one request, the null block not counted; the model length found is the largest that fits.
    - Worker: from an empty batch on, every step that the scheduler may ask for ends without
      an error in a batch of exactly the scheduled requests; the rows are dense and show
      their requests in every array; the logits processors (logit bias, minimum tokens,
      min-p) show the rows; sampled tokens reach exactly their row and request;
      reordering ends in sorted regions.  Slots are mapped as the block lists say.
      Drafts are those of the reference.
    - Shared memory: in every interleaving each reader has received a prefix of what was
      published, and from every reachable state the rest can be delivered.
    - Output: a client gets exactly the text and tokens of the reference detokenization,
      once and in order; for requests without a minimum of tokens, stop strings are found exactly
      when they end in new text, and text that was sent stays.
    - Engine: any sequence of added and aborted requests and steps raises nothing and
      keeps the scheduler's invariant (the composition of all the parts above).

    Theorems named as findings evaluate concrete runs in which the code does not do
    what it means to.

    ** Choices

    - Fuel: the hybrid search has fuel [max_cache_hit_length + 1], the hasher one unit
      per token, the queue's traversals one per block, the drafting loop twice the number
      of tokens and one, the search for the model length as many as that length, the
      abortion of requests two levels (parents have children, children have none), the
      loops of [condense] one per row that is empty, the cycles of reordering one per
      row out of place; exhausted fuel is the exception [Diverges], and the theorems
      show it does not occur.
    - Integers are [Z] as in Python; where C types store them ([ctypes] fields of
      offloaded blocks, the group id packed in four bytes) the wrap-around or
      [OverflowError] is written out.  Python floats are exact rationals, or a
      numerator with its denominator.  Arrays of NumPy are lists of fixed length whose
      [int32] or [int64] entries refuse or wrap what does not fit; rounding to [float32] is
      a class.
    - Lists that several objects share and append to (output tokens of the worker's
      requests) live in a heap of references.
    - Tokenizers and the fast decode stream are parameters with the laws of a decoder of
      bytes.
    - The hash functions, clock and random sampler of the metrics, the iteration order
      of Python sets, and the encoder and KV connectors are parameters.
    - Generators ([take_events]) are consumed completely; log output is left out.

    ** Not modelled

    The definitions of the scheduler follow every branch, but its theorems are about
    text requests with prefix caching off: no LoRA, no streaming input, no external KV
    connector, no Mamba alignment, no structured output.  The theorems on
    [allocate_slots] cover the managers of attention layers without external tokens;
    cross-attention and Mamba managers have definitions but only local theorems.  Of the
    engine, start-up, sockets, threads, data parallelism and the forwarding calls
    (profiling, sleep, LoRA) are left out.

    Of the output processor: log probabilities, statistics, tracing and the data of
    pooling outputs.  Of the model runner: positions of M-RoPE and XD-RoPE models,
    pooling models, the GPU drafter, zeroing of blocks, input preparation, the forward pass
    and drafting on the device.  The theorems on the worker are about its last pipeline
    rank without asynchronous scheduling, about new requests whose ids it does not know
    (no streaming updates) and about steps that discard no output tokens; sampled tokens
    are cached for rows without drafts.  The mask of allowed tokens and the thinking budget
    are modelled but not claimed to follow the rows: [BatchFindings] shows that they do not.
    Of the shared-memory queue: sockets for remote readers, time-outs and spinning.

    Attention kernels, layers, quantization, distributed execution, connectors, entry
    points, configuration, tokenizers and parsers are outside the library: numerical code,
    I/O or glue around it. *)

From stdpp Require Export prelude gmap strings list.
From Stdlib Require Export ZArith Lia.
From Stdlib Require Import Strings.Byte.

Local Open Scope Z_scope.

(** * Outcomes of Python code *)

(** The exceptions the modelled code raises.  [Diverges] is not a Python
    exception: it is what a fuel-bounded loop returns when the fuel is used up,
    and the termination theorems show that it is never returned. *)
Inductive exc :=
  | AssertionError
  | ValueError
  | RuntimeError
  | IndexError
  | KeyError
  | TypeError
  | AttributeError
  | OverflowError
  | ZeroDivisionError
  | NotImplementedError
  | StopIteration
  | Diverges.

#[export] Instance exc_eq_dec : EqDecision exc.
Proof. solve_decision. Defined.

Inductive res (A : Type) :=
  | Ok (a : A)
  | Raise (e : exc).
Arguments Ok {A} a.
Arguments Raise {A} e.

#[export] Instance res_ret : MRet res := fun A a => Ok a.
#[export] Instance res_bind : MBind res := fun A B f c =>
  match c with Ok a => f a | Raise e => Raise e end.

Definition res_of_option {A} (e : exc) (o : option A) : res A :=
  match o with Some a => Ok a | None => Raise e end.

(** Stateful Python code: mutations made before an exception is raised stay
    visible, so the state is returned next to the outcome in both cases. *)
Definition M (S A : Type) : Type := S -> res A * S.

#[export] Instance M_ret S : MRet (M S) := fun A a s => (Ok a, s).
#[export] Instance M_bind S : MBind (M S) := fun A B f c s =>
  match c s with
  | (Ok a, s') => f a s'
  | (Raise e, s') => (Raise e, s')
  end.

Definition raise {S A} (e : exc) : M S A := fun s => (Raise e, s).
Definition gets {S A} (f : S -> A) : M S A := fun s => (Ok (f s), s).
Definition modify {S} (f : S -> S) : M S unit := fun s => (Ok tt, f s).
(** [assert b]. *)
Definition assert_ {S} (b : bool) : M S unit :=
  if b then mret tt else raise AssertionError.
Definition lift_res {S A} (r : res A) : M S A := fun s => (r, s).

(** Run code of a sub-object inside the object that holds it. *)
Definition zoom {S T A} (get : S -> T) (put : T -> S -> S) (c : M T A) : M S A :=
  fun s => let '(r, t) := c (get s) in (r, put t s).

(** Two objects used side by side. *)
Definition on_fst {S T A} (c : M S A) : M (S * T) A := zoom fst (fun s p => (s, p.2)) c.
Definition on_snd {S T A} (c : M T A) : M (S * T) A := zoom snd (fun t p => (p.1, t)) c.

(** [for x in l: body(x)]. *)
Fixpoint mfor {S A} (l : list A) (body : A -> M S unit) : M S unit :=
  match l with
  | [] => mret tt
  | x :: l' => body x ;; mfor l' body
  end.

(** [\[body(x) for x in l\]], and [any]/accumulating loops built on it. *)
Fixpoint mmapM {S A B} (l : list A) (body : A -> M S B) : M S (list B) :=
  match l with
  | [] => mret []
  | x :: l' => y ← body x; ys ← mmapM l' body; mret (y :: ys)
  end.

Section monad_laws.
Context {S : Type}.

Lemma bind_ok {A B} (c : M S A) (k : A -> M S B) s a s' :
  c s = (Ok a, s') -> (c ≫= k) s = k a s'.
Proof. unfold mbind, M_bind. by intros ->. Qed.

Lemma bind_raise {A B} (c : M S A) (k : A -> M S B) s e s' :
  c s = (Raise e, s') -> (c ≫= k) s = (Raise e, s').
Proof. unfold mbind, M_bind. by intros ->. Qed.

Lemma bind_ok_inv {A B} (c : M S A) (k : A -> M S B) s b s'' :
  (c ≫= k) s = (Ok b, s'') ->
  exists a s', c s = (Ok a, s') /\ k a s' = (Ok b, s'').
Proof.
  unfold mbind, M_bind. destruct (c s) as [[a|e] s'] eqn:E; [eauto|done].
Qed.

(** The outcome of a concrete run, its final state left as it is. *)
Lemma run_snd {A} (c : M S A) s r : (c s).1 = r -> c s = (r, (c s).2).
Proof. by destruct (c s) as [? ?]; simpl; intros ->. Qed.

Lemma run_eta2 {T U A} (c : M (T * U) A) s : c s = ((c s).1, ((c s).2.1, (c s).2.2)).
Proof. by destruct (c s) as [? [? ?]]. Qed.

(** A loop whose body always succeeds and preserves [I] succeeds and
    preserves [I]; [I] may depend on the items already processed. *)
Lemma mfor_ok {A} (body : A -> M S unit) (I : list A -> S -> Prop) l :
  (forall done x todo s, l = done ++ x :: todo -> I done s ->
     exists s', body x s = (Ok tt, s') /\ I (done ++ [x]) s') ->
  forall s, I [] s -> exists s', mfor l body s = (Ok tt, s') /\ I l s'.
Proof.
  intros Hbody.
  assert (forall todo done s, l = done ++ todo -> I done s ->
            exists s', mfor todo body s = (Ok tt, s') /\ I l s') as H.
  { induction todo as [|x todo IH]; intros done s Hl HI; simpl.
    - exists s. split; [done|]. by rewrite Hl, app_nil_r.
    - destruct (Hbody done x todo s Hl HI) as (s' & Hx & HI').
      rewrite (bind_ok _ _ _ _ _ Hx).
      apply (IH (done ++ [x])); [by rewrite <- app_assoc|done]. }
  intros s HI. by apply (H l [] s).
Qed.

(** The same for a loop that collects the results [ys] of its body. *)
Lemma mmapM_ok {A B} (body : A -> M S B) (I : list A -> list B -> S -> Prop) l :
  (forall done ys s x todo, l = done ++ x :: todo -> I done ys s ->
     exists y s', body x s = (Ok y, s') /\ I (done ++ [x]) (ys ++ [y]) s') ->
  forall s, I [] [] s -> exists ys s', mmapM l body s = (Ok ys, s') /\ I l ys s'.
Proof.
  intros Hbody.
  assert (forall todo done ys s, l = done ++ todo -> I done ys s ->
            exists zs s', mmapM todo body s = (Ok zs, s') /\ I l (ys ++ zs) s') as H.
  { induction todo as [|x todo IH]; intros done ys s Hl HI; simpl.
    - exists [], s. split; [done|]. by rewrite Hl, !app_nil_r.
    - destruct (Hbody done ys s x todo Hl HI) as (y & s1 & Hx & HI').
      destruct (IH (done ++ [x]) (ys ++ [y]) s1) as (zs & s2 & Hzs & HI2); [by rewrite <- app_assoc|done|].
      exists (y :: zs), s2. rewrite (bind_ok _ _ _ _ _ Hx), (bind_ok _ _ _ _ _ Hzs). split; [done|].
      by rewrite <- app_assoc in HI2. }
  intros s HI. by apply (H l [] [] s).
Qed.

Lemma mfor_app {A} (body : A -> M S unit) l1 l2 s s' :
  mfor l1 body s = (Ok tt, s') -> mfor (l1 ++ l2) body s = mfor l2 body s'.
Proof.
  revert s. induction l1 as [|x l1 IH]; intros s H; simpl in *.
  - by injection H as <-.
  - apply bind_ok_inv in H as ([] & s1 & Hx & H).
    rewrite (bind_ok _ _ _ _ _ Hx). by apply IH.
Qed.
End monad_laws.

(** * Python integers *)

(** [vllm/utils/math_utils.py], with Python's floor division. *)
Definition cdiv (a b : Z) : Z := - (a / (- b)).
Definition round_up (x y : Z) : Z := ((x + y - 1) / y) * y.
Definition round_down (x y : Z) : Z := (x / y) * y.

Section arithmetic.
Context (b : Z) (Hb : 0 < b).

Lemma cdiv_bounds a : a <= cdiv a b * b < a + b.
Proof.
  unfold cdiv. pose proof (Z.div_mod a (- b) ltac:(lia)) as H1.
  pose proof (Z.mod_neg_bound a (- b) ltac:(lia)) as H2.
  nia.
Qed.

Lemma cdiv_le_iff a n : cdiv a b <= n <-> a <= n * b.
Proof. pose proof (cdiv_bounds a). split; nia. Qed.

Lemma cdiv_nonneg a : 0 <= a -> 0 <= cdiv a b.
Proof. pose proof (cdiv_bounds a). nia. Qed.

Lemma cdiv_mono a a' : a <= a' -> cdiv a b <= cdiv a' b.
Proof. intros. apply cdiv_le_iff. pose proof (cdiv_bounds a'). lia. Qed.

Lemma cdiv_mul n : cdiv (n * b) b = n.
Proof. pose proof (cdiv_bounds (n * b)). nia. Qed.

Lemma div_le_cdiv a : a / b <= cdiv a b.
Proof.
  pose proof (cdiv_bounds a). pose proof (Z.mul_div_le a b Hb). nia.
Qed.
End arithmetic.

(** * Python sequences *)

(** [l\[i\]] with Python's negative indices; [IndexError] out of range. *)
Definition py_index (len i : Z) : Z := if i <? 0 then i + len else i.

Definition py_get {A} (l : list A) (i : Z) : res A :=
  let j := py_index (Z.of_nat (length l)) i in
  if j <? 0 then Raise IndexError
  else res_of_option IndexError (l !! Z.to_nat j).

(** [l\[i\] = v] *)
Definition py_set {A} (l : list A) (i : Z) (v : A) : res (list A) :=
  let j := py_index (Z.of_nat (length l)) i in
  if (j <? 0) || (Z.of_nat (length l) <=? j) then Raise IndexError
  else Ok (<[Z.to_nat j := v]> l).

(** [l.pop()]: the list without its last element. *)
Definition py_pop {A} (l : list A) : res (list A) :=
  match l with [] => Raise IndexError | _ => Ok (removelast l) end.

(** [l\[a:b\]]: bounds are shifted when negative, then clamped. *)
Definition py_clamp (len i : Z) : Z := Z.max 0 (Z.min len (py_index len i)).

Definition py_slice {A} (l : list A) (a b : Z) : list A :=
  let n := Z.of_nat (length l) in
  let a' := py_clamp n a in
  let b' := py_clamp n b in
  take (Z.to_nat (b' - a')) (drop (Z.to_nat a') l).

Definition py_from {A} (l : list A) (a : Z) : list A :=
  drop (Z.to_nat (py_clamp (Z.of_nat (length l)) a)) l.

Definition py_upto {A} (l : list A) (b : Z) : list A :=
  take (Z.to_nat (py_clamp (Z.of_nat (length l)) b)) l.

Definition zlen {A} (l : list A) : Z := Z.of_nat (length l).

(** [range(a, b)]. *)
Definition py_range (a b : Z) : list Z :=
  (fun i => a + Z.of_nat i) <$> seq 0 (Z.to_nat (b - a)).

#[export] Instance zlen_proper {A} : Proper (Permutation ==> eq) (@zlen A).
Proof. intros l l' H. unfold zlen. by rewrite H. Qed.

Section sequences.
Context {A : Type}.
Implicit Types l : list A.

Lemma zlen_nonneg l : 0 <= zlen l.
Proof. unfold zlen. lia. Qed.

Lemma zlen_app l1 l2 : zlen (l1 ++ l2) = zlen l1 + zlen l2.
Proof. unfold zlen. rewrite length_app. lia. Qed.

Lemma zlen_cons x l : zlen (x :: l) = 1 + zlen l.
Proof. unfold zlen. simpl length. lia. Qed.

Lemma py_slice_nonneg l a b : 0 <= a <= b -> b <= zlen l ->
  py_slice l a b = take (Z.to_nat (b - a)) (drop (Z.to_nat a) l).
Proof.
  unfold py_slice, py_clamp, py_index, zlen. intros H1 H2.
  replace (a <? 0) with false by lia. replace (b <? 0) with false by lia.
  rewrite !Z.min_r, !Z.max_r by lia. done.
Qed.

Lemma zlen_py_slice l a b : 0 <= a <= b -> b <= zlen l ->
  zlen (py_slice l a b) = b - a.
Proof.
  intros H1 H2. rewrite py_slice_nonneg by lia. unfold zlen in *.
  rewrite length_take, length_drop. lia.
Qed.

Lemma py_from_nonneg l a : 0 <= a -> py_from l a = drop (Z.to_nat a) l.
Proof.
  unfold py_from, py_clamp, py_index. intros H. replace (a <? 0) with false by lia.
  destruct (decide (a <= Z.of_nat (length l))).
  - by rewrite Z.min_r, Z.max_r by lia.
  - rewrite Z.min_l, Z.max_r by lia. rewrite Nat2Z.id, drop_all.
    by rewrite drop_ge by lia.
Qed.

Lemma py_upto_nonneg l b : 0 <= b -> py_upto l b = take (Z.to_nat b) l.
Proof.
  unfold py_upto, py_clamp, py_index. intros H. replace (b <? 0) with false by lia.
  destruct (decide (b <= Z.of_nat (length l))).
  - by rewrite Z.min_r, Z.max_r by lia.
  - rewrite Z.min_l, Z.max_r by lia. rewrite Nat2Z.id, firstn_all.
    by rewrite take_ge by lia.
Qed.

Lemma py_get_last l x : last l = Some x -> py_get l (-1) = Ok x.
Proof.
  rewrite last_lookup. unfold py_get, py_index. intros H.
  assert (0 < length l)%nat by (destruct l; [done|simpl; lia]).
  replace (-1 <? 0) with true by done. cbv zeta.
  replace (-1 + Z.of_nat (length l) <? 0) with false by lia.
  replace (Z.to_nat _) with (pred (length l)) by lia. by rewrite H.
Qed.

Lemma py_get_neg l (k : nat) : (1 <= k <= length l)%nat ->
  py_get l (- Z.of_nat k) = res_of_option IndexError (l !! (length l - k)%nat).
Proof.
  intros H. unfold py_get, py_index. replace (- Z.of_nat k <? 0) with true by lia. cbv zeta.
  replace (- Z.of_nat k + Z.of_nat (length l) <? 0) with false by lia.
  by replace (Z.to_nat _) with (length l - k)%nat by lia.
Qed.

Lemma elem_of_py_range a b i : i ∈ py_range a b <-> a <= i < b.
Proof.
  unfold py_range. rewrite list_elem_of_fmap. setoid_rewrite elem_of_seq. split.
  - intros (j & -> & ?). lia.
  - intros ?. exists (Z.to_nat (i - a)). lia.
Qed.

Lemma py_range_cons a b : a < b -> py_range a b = a :: py_range (a + 1) b.
Proof.
  intros H. unfold py_range. replace (Z.to_nat (b - a)) with (S (Z.to_nat (b - (a + 1)))) by lia.
  cbn [seq]. rewrite fmap_cons. f_equal; [lia|]. rewrite <- fmap_S_seq, <- list_fmap_compose.
  apply list_fmap_ext. intros. simpl. lia.
Qed.

Lemma py_range_snoc a b : a <= b -> py_range a (b + 1) = py_range a b ++ [b].
Proof.
  intros H. unfold py_range. replace (Z.to_nat (b + 1 - a)) with (Z.to_nat (b - a) + 1)%nat by lia.
  rewrite seq_app, fmap_app. f_equal. cbn. f_equal. lia.
Qed.

Lemma py_range_nil a b : b <= a -> py_range a b = [].
Proof. intros H. unfold py_range. by replace (Z.to_nat (b - a)) with 0%nat by lia. Qed.

Lemma py_range_app a b c : a <= b <= c -> py_range a c = py_range a b ++ py_range b c.
Proof.
  intros H. assert (exists n : nat, c = b + Z.of_nat n) as [n ->] by (exists (Z.to_nat (c - b)); lia).
  induction n as [|n IH]; [rewrite Z.add_0_r, (py_range_nil b) by lia; by rewrite app_nil_r|].
  replace (b + Z.of_nat (S n)) with (b + Z.of_nat n + 1) by lia.
  rewrite !py_range_snoc, IH by lia. by rewrite app_assoc.
Qed.

Lemma py_set_nonneg l i (x : A) : 0 <= i < zlen l -> py_set l i x = Ok (<[Z.to_nat i := x]> l).
Proof.
  unfold py_set, py_index, zlen. intros H. replace (i <? 0) with false by lia. cbv zeta.
  replace (i <? 0) with false by lia. by replace (_ <=? i) with false by lia.
Qed.

Lemma py_pop_take l n : length l = S n -> py_pop l = Ok (take n l).
Proof.
  intros H. destruct l as [|x l] using rev_ind; [done|]. unfold py_pop. rewrite length_app in H. simpl in H.
  rewrite removelast_last, take_app_length' by lia. by destruct l.
Qed.

Lemma py_get_nonneg l i : 0 <= i ->
  py_get l i = res_of_option IndexError (l !! Z.to_nat i).
Proof.
  unfold py_get, py_index. intros. replace (i <? 0) with false by lia.
  cbv zeta. by replace (i <? 0) with false by lia.
Qed.
End sequences.

(** * NumPy arrays of one dimension *)

(** Stores into an array of C integers: values wrap around silently. *)
Definition wrap (bits z : Z) : Z := (z + 2 ^ (bits - 1)) mod 2 ^ bits - 2 ^ (bits - 1).

Lemma wrap64_id x : 0 <= x < 2 ^ 63 -> wrap 64 x = x.
Proof. intros Hx. unfold wrap. rewrite Z.mod_small by lia. lia. Qed.

Lemma wrap32_id x : 0 <= x < 2 ^ 31 -> wrap 32 x = x.
Proof. intros Hx. unfold wrap. rewrite Z.mod_small by lia. lia. Qed.

(** [a\[i:j\] = values]: the bounds are clamped as for lists; as many values as
    there are places, or a single one that is repeated. *)
Definition np_assign {A} (a : list A) (i j : Z) (values : list A) : res (list A) :=
  let i' := Z.to_nat (py_clamp (zlen a) i) in
  let j' := Nat.max i' (Z.to_nat (py_clamp (zlen a) j)) in
  if (length values =? j' - i')%nat then Ok (take i' a ++ values ++ drop j' a)
  else match values with
  | [v] => Ok (take i' a ++ replicate (j' - i') v ++ drop j' a)
  | _ => Raise ValueError
  end.

Lemma py_clamp_id n i : 0 <= i <= n -> py_clamp n i = i.
Proof. unfold py_clamp, py_index. intros H. replace (i <? 0) with false by lia. lia. Qed.

Lemma np_assign_ok {A} (a : list A) (i : Z) (values : list A) : 0 <= i -> i + zlen values <= zlen a ->
  np_assign a i (i + zlen values) values = Ok (take (Z.to_nat i) a ++ values ++ drop (Z.to_nat i + length values) a).
Proof.
  intros H1 H2. unfold np_assign. pose proof (zlen_nonneg values). rewrite !py_clamp_id by lia.
  replace (Nat.max _ _) with (Z.to_nat i + length values)%nat by (unfold zlen; lia).
  by replace (_ - _)%nat with (length values) by lia; rewrite Nat.eqb_refl.
Qed.

Lemma np_fill_ok {A} (a : list A) (n : Z) (x : A) : 0 <= n <= zlen a ->
  np_assign a 0 n [x] = Ok (replicate (Z.to_nat n) x ++ drop (Z.to_nat n) a).
Proof.
  intros H. unfold np_assign. rewrite !py_clamp_id by lia. cbn [length firstn Z.to_nat]. rewrite Nat.max_0_l, Nat.sub_0_r.
  destruct (Nat.eqb_spec 1 (Z.to_nat n)) as [E|E]; [by rewrite <- E|done].
Qed.

(** Removing by value. *)
Lemma filter_ne_notin {A} `{EqDecision A} (x : A) (l : list A) : x ∉ l -> filter (fun y => y ≠ x) l = l.
Proof.
  induction l as [|y l IH]; [done|]. rewrite not_elem_of_cons. intros [? ?].
  by rewrite filter_cons_True, IH by auto.
Qed.

Lemma filter_none {A} (P : A -> Prop) `{forall x, Decision (P x)} (l : list A) :
  (forall x, x ∈ l -> ~ P x) -> filter P l = [].
Proof.
  induction l as [|x l IH]; intros Hl; [done|].
  rewrite filter_cons_False by (apply Hl; by left). apply IH. intros y Hy. apply Hl. by right.
Qed.

Lemma filter_all {A} (P : A -> Prop) `{forall x, Decision (P x)} (l : list A) :
  (forall x, x ∈ l -> P x) -> filter P l = l.
Proof.
  induction l as [|x l IH]; intros Hl; [done|].
  rewrite filter_cons_True by (apply Hl; by left). f_equal. apply IH. intros y Hy. apply Hl. by right.
Qed.

Lemma filter_ext_in {A} (P Q : A -> Prop) `{forall x, Decision (P x), forall x, Decision (Q x)}
    (l : list A) :
  (forall x, x ∈ l -> P x <-> Q x) -> filter P l = filter Q l.
Proof.
  induction l as [|x l IH]; intros Hl; [done|]. rewrite !filter_cons, IH.
  - assert (P x <-> Q x) by (apply Hl; by left). repeat case_decide; tauto.
  - intros y Hy. apply Hl. by right.
Qed.

(** * Byte strings *)

Abbreviation bytes := (list byte).

#[export] Instance byte_eq_dec : EqDecision byte := Byte.byte_eq_dec.
Lemma byte_of_to_N b : default x00 (Byte.of_N (Byte.to_N b)) = b.
Proof. by rewrite Byte.of_to_N. Qed.
#[export] Instance byte_countable : Countable byte :=
  inj_countable' Byte.to_N (fun n => default x00 (Byte.of_N n)) byte_of_to_N.

Definition byte_of_Z (z : Z) : byte := default x00 (Byte.of_N (Z.to_N (z mod 256))).
Definition Z_of_byte (b : byte) : Z := Z.of_N (Byte.to_N b).

Lemma Z_of_byte_bound b : 0 <= Z_of_byte b < 256.
Proof. unfold Z_of_byte. pose proof (Byte.to_N_bounded b). lia. Qed.

Lemma Z_of_byte_of_Z z : Z_of_byte (byte_of_Z z) = z mod 256.
Proof.
  unfold Z_of_byte, byte_of_Z. pose proof (Z.mod_pos_bound z 256 ltac:(lia)).
  destruct (Byte.of_N (Z.to_N (z mod 256))) as [b|] eqn:E; simpl.
  - apply Byte.to_of_N in E. lia.
  - apply Byte.of_N_None_iff in E. lia.
Qed.

Lemma byte_of_Z_of_byte b : byte_of_Z (Z_of_byte b) = b.
Proof.
  pose proof (Z_of_byte_bound b). unfold byte_of_Z. rewrite Z.mod_small by done.
  unfold Z_of_byte. by rewrite N2Z.id, Byte.of_to_N.
Qed.

(** [int.from_bytes(b, "big")]. *)
Definition int_from_bytes_big (b : bytes) : Z :=
  foldl (fun acc x => 256 * acc + Z_of_byte x) 0 b.

(** [n.to_bytes(len, "big", signed=False)]. *)
Fixpoint to_bytes_big_aux (len : nat) (n : Z) : bytes :=
  match len with
  | O => []
  | S len' => to_bytes_big_aux len' (n / 256) ++ [byte_of_Z n]
  end.

Definition int_to_bytes_big (n : Z) (len : nat) : res bytes :=
  if (0 <=? n) && (n <? 256 ^ Z.of_nat len) then Ok (to_bytes_big_aux len n)
  else Raise OverflowError.

Lemma length_to_bytes_big_aux len n : length (to_bytes_big_aux len n) = len.
Proof.
  revert n. induction len as [|len IH]; intros n; simpl; [done|].
  rewrite length_app, IH. simpl. lia.
Qed.

Lemma int_from_to_bytes_big len n : 0 <= n < 256 ^ Z.of_nat len ->
  int_from_bytes_big (to_bytes_big_aux len n) = n.
Proof.
  revert n. induction len as [|len IH]; intros n Hn.
  - simpl in *. rewrite Z.pow_0_r in Hn. unfold int_from_bytes_big; simpl. lia.
  - simpl. unfold int_from_bytes_big in *. rewrite foldl_app. simpl.
    rewrite Nat2Z.inj_succ, Z.pow_succ_r in Hn by lia.
    rewrite IH by (split; [apply Z.div_pos; lia|apply Z.div_lt_upper_bound; lia]).
    rewrite Z_of_byte_of_Z. pose proof (Z.div_mod n 256). lia.
Qed.

(** * Insertion-ordered dictionaries *)

(** Python's [dict] and [OrderedDict] where the iteration order is observable:
    an association list without duplicate keys. *)
Module Dict.
Section dict.
Context {K V : Type} `{EqDecision K}.
Implicit Types d : list (K * V).

Definition keys d : list K := d.*1.
Definition values d : list V := d.*2.

Fixpoint get (k : K) d : option V :=
  match d with
  | [] => None
  | (k', v) :: d' => if decide (k = k') then Some v else get k d'
  end.

Definition mem (k : K) d : bool := bool_decide (k ∈ keys d).

(** [d\[k\] = v]: the position of an existing key is kept. *)
Fixpoint set (k : K) (v : V) d : list (K * V) :=
  match d with
  | [] => [(k, v)]
  | (k', v') :: d' => if decide (k = k') then (k, v) :: d' else (k', v') :: set k v d'
  end.

Fixpoint del (k : K) d : list (K * V) :=
  match d with
  | [] => []
  | (k', v') :: d' => if decide (k = k') then d' else (k', v') :: del k d'
  end.

(** [d.move_to_end(k)], used on present keys. *)
Definition move_to_end (k : K) d : list (K * V) :=
  match get k d with Some v => del k d ++ [(k, v)] | None => d end.

Lemma get_None k d : get k d = None <-> k ∉ keys d.
Proof.
  induction d as [|[k' v'] d IH]; simpl; [by split; [set_solver|]|].
  case_decide; subst; rewrite elem_of_cons; [naive_solver|].
  rewrite IH. naive_solver.
Qed.

Lemma get_Some_elem k v d : get k d = Some v -> (k, v) ∈ d.
Proof.
  induction d as [|[k' v'] d IH]; simpl; [done|].
  case_decide; intros; simplify_eq; rewrite elem_of_cons; auto.
Qed.

Lemma elem_get k v d : NoDup (keys d) -> (k, v) ∈ d -> get k d = Some v.
Proof.
  induction d as [|[k' v'] d IH]; simpl; [by rewrite elem_of_nil|].
  rewrite NoDup_cons, elem_of_cons. intros [Hk Hd] [?|Hin]; simplify_eq.
  - by rewrite decide_True.
  - rewrite decide_False; [auto|]. intros ->. destruct Hk.
    apply list_elem_of_fmap. by exists (k', v).
Qed.

Lemma mem_get k d : mem k d = true <-> is_Some (get k d).
Proof.
  unfold mem. rewrite bool_decide_eq_true, <- not_eq_None_Some, get_None.
  split; [intros H1 H2; by apply H2|intros H; by apply dec_stable].
Qed.

Lemma elem_keys k d : k ∈ keys d <-> is_Some (get k d).
Proof. rewrite <- mem_get. unfold mem. by rewrite bool_decide_eq_true. Qed.

Lemma get_set k k' v d :
  get k (set k' v d) = if decide (k = k') then Some v else get k d.
Proof.
  induction d as [|[k1 v1] d IH]; simpl; [done|].
  repeat (case_decide; simpl; simplify_eq; try done).
Qed.

Lemma keys_set_new k v d : k ∉ keys d -> set k v d = d ++ [(k, v)].
Proof.
  induction d as [|[k1 v1] d IH]; simpl; [done|].
  rewrite not_elem_of_cons. intros [? ?]. rewrite decide_False by done.
  f_equal; auto.
Qed.

Lemma keys_set_old k v d : k ∈ keys d -> keys (set k v d) = keys d.
Proof.
  induction d as [|[k1 v1] d IH]; simpl; [by rewrite elem_of_nil|].
  rewrite elem_of_cons. intros H. case_decide; simpl; [by subst|].
  f_equal. apply IH. naive_solver.
Qed.

Lemma elem_keys_set k k' v d : k' ∈ keys (set k v d) <-> k' = k \/ k' ∈ keys d.
Proof.
  destruct (decide (k ∈ keys d)) as [Hk|Hk].
  - rewrite keys_set_old by done. naive_solver.
  - rewrite keys_set_new by done. unfold keys. rewrite fmap_app. set_solver.
Qed.

Lemma NoDup_set k v d : NoDup (keys d) -> NoDup (keys (set k v d)).
Proof.
  destruct (decide (k ∈ keys d)) as [Hk|Hk].
  - by rewrite keys_set_old.
  - rewrite keys_set_new by done. unfold keys in *. rewrite fmap_app. simpl.
    intros. apply NoDup_app. split_and!; [done|set_solver|apply NoDup_singleton].
Qed.

Lemma keys_del k d : NoDup (keys d) -> keys (del k d) = filter (fun k' => k' ≠ k) (keys d).
Proof.
  induction d as [|[k1 v1] d IH]; simpl; [done|]. rewrite NoDup_cons. intros [H1 H2].
  rewrite filter_cons. repeat case_decide; simplify_eq.
  - revert H1. generalize (keys d). clear. intros l Hl.
    induction l as [|x l IH]; [done|]. rewrite not_elem_of_cons in Hl.
    rewrite filter_cons_True by naive_solver. f_equal. naive_solver.
  - simpl. f_equal. auto.
Qed.

Lemma elem_keys_del k k' d : NoDup (keys d) ->
  k' ∈ keys (del k d) <-> k' ≠ k /\ k' ∈ keys d.
Proof. intros. rewrite keys_del by done. by rewrite list_elem_of_filter. Qed.

Lemma NoDup_del k d : NoDup (keys d) -> NoDup (keys (del k d)).
Proof. intros. rewrite keys_del by done. by apply NoDup_filter. Qed.

Lemma get_del k k' d : NoDup (keys d) ->
  get k (del k' d) = if decide (k = k') then None else get k d.
Proof.
  induction d as [|[k1 v1] d IH]; simpl; [by case_decide|]. rewrite NoDup_cons.
  intros [H1 H2]. repeat (case_decide; simpl; simplify_eq; auto).
  by apply get_None.
Qed.

Lemma del_notin k d : k ∉ keys d -> del k d = d.
Proof.
  induction d as [|[k1 v1] d IH]; simpl; [done|].
  rewrite not_elem_of_cons. intros [??]. rewrite decide_False by done. f_equal; auto.
Qed.

Lemma length_del k d : k ∈ keys d -> length d = S (length (del k d)).
Proof.
  induction d as [|[k1 v1] d IH]; simpl; [by rewrite elem_of_nil|].
  rewrite elem_of_cons. intros H. case_decide; simpl; [done|].
  f_equal. apply IH. naive_solver.
Qed.

Lemma del_perm k v d : get k d = Some v -> d ≡ₚ (k, v) :: del k d.
Proof.
  induction d as [|[k' v'] d IH]; cbn [get del]; [done|]. case_decide; [by intros [= ->]; subst|].
  intros Hg. rewrite (IH Hg) at 1. apply Permutation_swap.
Qed.

Lemma set_perm k v v' d : get k d = Some v -> set k v' d ≡ₚ (k, v') :: del k d.
Proof.
  induction d as [|[k1 v1] d IH]; cbn [get set del]; [done|]. case_decide; [by subst|].
  intros Hg. rewrite (IH Hg). apply Permutation_swap.
Qed.

Lemma move_to_end_perm k d : move_to_end k d ≡ₚ d.
Proof.
  unfold move_to_end. destruct (get k d) as [v|] eqn:Hg; [|done]. rewrite (del_perm _ _ _ Hg) at 2.
  by rewrite Permutation_app_comm.
Qed.

Lemma elem_del x k d : x ∈ del k d -> x ∈ d.
Proof.
  induction d as [|[k1 v1] d IH]; simpl; [done|].
  case_decide; rewrite ?elem_of_cons; naive_solver.
Qed.
End dict.
End Dict.

(** * Automation *)

(** Step through the binds of a computation whose heads are known to succeed. *)
Ltac mstep :=
  first
    [ progress cbn [id mret mbind M_ret M_bind gets modify lift_res raise assert_]
    | erewrite bind_ok by (first [eassumption | reflexivity])
    | erewrite bind_raise by (first [eassumption | reflexivity]) ].
Ltac msteps := repeat mstep.

(** Turn the boolean tests of the code into propositions. *)
Ltac breflect :=
  repeat match goal with
  | H : _ && _ = true |- _ => apply andb_true_iff in H as [? ?]
  | H : _ || _ = false |- _ => apply orb_false_iff in H as [? ?]
  | H : negb _ = true |- _ => apply negb_true_iff in H
  | H : negb _ = false |- _ => apply negb_false_iff in H
  | H : bool_decide _ = true |- _ => apply bool_decide_eq_true in H
  | H : bool_decide _ = false |- _ => apply bool_decide_eq_false in H
  end.
