(* ===== verification/FreeQueue.v ===== *)
(** The free-block queue of [v1/core/kv_cache_utils.py]: [KVCacheBlock] and
    [FreeKVCacheBlockQueue], a doubly linked list threaded through the block
    objects themselves.

    Block objects live in a store indexed by references, so that the aliasing of
    the code (the same object reached through the pool, through a neighbour's
    link and through a request's block list) is the aliasing of the model.  The
    two sentinel objects of the queue have references of their own. *)

From S2P Require Import Prelude.
Local Open Scope Z_scope.

(** A reference to a [KVCacheBlock] object: the block object created for
    [block_id = b], or one of the two sentinels of the queue. *)
Inductive ref := RBlk (b : nat) | RHead | RTail.

#[export] Instance ref_eq_dec : EqDecision ref.
Proof. solve_decision. Defined.

Definition is_blk (r : ref) : Prop := match r with RBlk _ => True | _ => False end.
#[export] Instance is_blk_dec r : Decision (is_blk r).
Proof. destruct r; apply _. Defined.

Record KVCacheBlock := mkKVCacheBlock {
  block_id : Z;
  ref_cnt : Z;
  block_hash : option bytes;
  prev_free_block : option ref;
  next_free_block : option ref;
  is_null : bool;
}.

(** [KVCacheBlock(block_id=i)]. *)
Definition new_KVCacheBlock (i : Z) : KVCacheBlock :=
  {| block_id := i; ref_cnt := 0; block_hash := None; prev_free_block := None;
     next_free_block := None; is_null := false |}.

Definition store := ref -> KVCacheBlock.

(** In-place mutation of one object. *)
Definition update (r : ref) (f : KVCacheBlock -> KVCacheBlock) (o : store) : store :=
  fun r' => if decide (r' = r) then f (o r) else o r'.

Definition set_prev (r : ref) (p : option ref) : store -> store :=
  update r (fun b => {| b with prev_free_block := p |}).
Definition set_next (r : ref) (n : option ref) : store -> store :=
  update r (fun b => {| b with next_free_block := n |}).
Definition set_ref_cnt (r : ref) (c : Z) : store -> store :=
  update r (fun b => {| b with ref_cnt := c |}).
Definition set_is_null (r : ref) (v : bool) : store -> store :=
  update r (fun b => {| b with is_null := v |}).
(** [block.reset_hash()]. *)
Definition reset_hash (r : ref) : store -> store :=
  update r (fun b => {| b with block_hash := None |}).

(** The setter of the [block_hash] property: it asserts that no hash is set. *)
Definition set_block_hash (r : ref) (h : bytes) : M store unit :=
  cur ← gets (fun o => block_hash (o r));
  assert_ (bool_decide (cur = None)) ;;
  modify (update r (fun b => {| b with block_hash := Some h |})).

Record FreeKVCacheBlockQueue := mkQueue {
  objs : store;
  num_free_blocks : Z;
}.

Module Queue.

Abbreviation Q := FreeKVCacheBlockQueue.

Definition nxt (r : ref) (q : Q) : option ref := next_free_block (objs q r).
Definition prv (r : ref) (q : Q) : option ref := prev_free_block (objs q r).

Definition write_prev (r : ref) (p : option ref) : M Q unit :=
  modify (fun q => {| q with objs := set_prev r p (objs q) |}).
Definition write_next (r : ref) (n : option ref) : M Q unit :=
  modify (fun q => {| q with objs := set_next r n (objs q) |}).
Definition add_free (d : Z) : M Q unit :=
  modify (fun q => {| q with num_free_blocks := num_free_blocks q + d |}).

(** The loop of [__init__] over consecutive blocks; its indices are in range. *)
Definition link_neighbours (blocks : list ref) (n i : nat) : M Q unit :=
  let at_ j := default RHead (blocks !! j) in
  (if (0 <? i)%nat then write_prev (at_ i) (Some (at_ (i - 1)%nat)) else mret tt) ;;
  (if (i <? n - 1)%nat then write_next (at_ i) (Some (at_ (i + 1)%nat)) else mret tt).

Definition init_links (blocks : list ref) (n : nat) : M Q unit :=
  mfor (seq 0 n) (link_neighbours blocks n).

(** [FreeKVCacheBlockQueue.__init__] *)
Definition init (blocks : list ref) : M Q unit :=
  modify (fun q => {| q with num_free_blocks := zlen blocks |}) ;;
  init_links blocks (length blocks) ;;
  modify (fun q => {| q with objs :=
    update RTail (fun _ => new_KVCacheBlock (-1))
      (update RHead (fun _ => new_KVCacheBlock (-1)) (objs q)) |}) ;;
  n ← gets num_free_blocks;
  if 0 <? n then
    first ← lift_res (py_get blocks 0);
    last ← lift_res (py_get blocks (-1));
    write_next RHead (Some first) ;;
    write_prev first (Some RHead) ;;
    write_prev RTail (Some last) ;;
    write_next last (Some RTail)
  else
    write_next RHead (Some RTail) ;;
    write_prev RTail (Some RHead).

Definition popleft : M Q ref :=
  h ← gets (nxt RHead);
  match h with
  | None => n ← gets num_free_blocks; assert_ (n =? 0) ;; raise ValueError
  | Some first_block =>
      if decide (first_block = RTail) then
        n ← gets num_free_blocks; assert_ (n =? 0) ;; raise ValueError
      else
        s ← gets (nxt first_block);
        match s with
        | None => raise RuntimeError
        | Some second =>
            write_next RHead (Some second) ;;
            write_prev second (Some RHead) ;;
            write_prev first_block None ;;
            write_next first_block None ;;
            add_free (-1) ;;
            mret first_block
        end
  end.

(** The loop of [popleft_n]: [curr] is [curr_block], [ret] the result so far. *)
Fixpoint popleft_loop (n : nat) (curr : option ref) (ret : list ref)
  : M Q (option ref * list ref) :=
  match n with
  | O => mret (curr, ret)
  | S n' =>
      match curr with
      | None => raise AssertionError
      | Some last_block =>
          next ← gets (nxt last_block);
          write_prev last_block None ;;
          write_next last_block None ;;
          popleft_loop n' next (ret ++ [last_block])
      end
  end.

Definition popleft_n (n : Z) : M Q (list ref) :=
  if n =? 0 then mret []
  else
    free ← gets num_free_blocks;
    assert_ (n <=? free) ;;
    add_free (- n) ;;
    curr0 ← gets (nxt RHead);
    cr ← popleft_loop (Z.to_nat n) curr0 [];
    let '(curr, ret) := cr in
    (match curr with
     | Some c => write_next RHead (Some c) ;; write_prev c (Some RHead)
     | None => mret tt
     end) ;;
    mret ret.

Definition remove (block : ref) : M Q unit :=
  p ← gets (prv block);
  n ← gets (nxt block);
  match p, n with
  | Some p, Some n =>
      write_next p (Some n) ;;
      write_prev n (Some p) ;;
      write_prev block None ;;
      write_next block None ;;
      add_free (-1)
  | _, _ => raise RuntimeError
  end.

Definition append (block : ref) : M Q unit :=
  t ← gets (prv RTail);
  match t with
  | None => raise RuntimeError
  | Some last_block =>
      write_next last_block (Some block) ;;
      write_prev block (Some last_block) ;;
      write_next block (Some RTail) ;;
      write_prev RTail (Some block) ;;
      add_free 1
  end.

(** The loop of [append_n]; returns the final [last_block]. *)
Fixpoint append_loop (blocks : list ref) (last_block : ref) : M Q ref :=
  match blocks with
  | [] => mret last_block
  | block :: rest =>
      write_prev block (Some last_block) ;;
      write_next last_block (Some block) ;;
      append_loop rest block
  end.

Definition append_n (blocks : list ref) : M Q unit :=
  match blocks with
  | [] => mret tt
  | _ =>
      t ← gets (prv RTail);
      match t with
      | None => raise AssertionError
      | Some last_block =>
          last ← append_loop blocks last_block;
          write_next last (Some RTail) ;;
          write_prev RTail (Some last) ;;
          add_free (zlen blocks)
      end
  end.

(** The [while] loop of [get_all_free_blocks], on fuel. *)
Fixpoint all_free_loop (fuel : nat) (curr : ref) (ret : list ref) (q : Q)
  : res (list ref) :=
  match fuel with
  | O => Raise Diverges
  | S fuel' =>
      match nxt curr q with
      | None => Ok ret
      | Some n => all_free_loop fuel' n (ret ++ [curr]) q
      end
  end.

Definition get_all_free_blocks (fuel : nat) (q : Q) : res (list ref) :=
  match nxt RHead q with
  | None => Raise RuntimeError
  | Some c => all_free_loop fuel c [] q
  end.

(** ** Representation *)

(** Consecutive objects of [L] are linked in both directions. *)
Fixpoint linked (o : store) (L : list ref) : Prop :=
  match L with
  | a :: (b :: _) as L' =>
      next_free_block (o a) = Some b /\ prev_free_block (o b) = Some a /\ linked o L'
  | _ => True
  end.

(** The sentinels around the free list [l]. *)
Definition ring (l : list ref) : list ref := RHead :: l ++ [RTail].
#[global] Arguments ring : simpl never.

(** The queue [q] represents the free list [l], oldest block first. *)
Record rep (q : Q) (l : list ref) : Prop := {
  rep_seg : linked (objs q) (ring l);
  rep_nodup : NoDup l;
  rep_blk : Forall is_blk l;
  rep_num : num_free_blocks q = zlen l;
  rep_tail : nxt RTail q = None;
  rep_out : forall r, is_blk r -> r ∉ l -> prv r q = None /\ nxt r q = None;
}.

(** The data fields of the blocks, everything but the two links. *)
Definition data (b : KVCacheBlock) : Z * Z * option bytes * bool :=
  (block_id b, ref_cnt b, block_hash b, is_null b).

(** The queue operations only touch links: the frame condition. *)
Definition same_data (q q' : Q) : Prop :=
  forall r, is_blk r -> data (objs q' r) = data (objs q r).

#[export] Instance same_data_refl : Reflexive same_data.
Proof. by intros q r. Qed.
#[export] Instance same_data_trans : Transitive same_data.
Proof. intros q1 q2 q3 H1 H2 r Hr. by rewrite H2, H1. Qed.

(** *** Links *)

Lemma next_set_next r n o r' :
  next_free_block (set_next r n o r') = if decide (r' = r) then n else next_free_block (o r').
Proof. unfold set_next, update. by case_decide. Qed.
Lemma prev_set_next r n o r' :
  prev_free_block (set_next r n o r') = prev_free_block (o r').
Proof. unfold set_next, update. case_decide; by subst. Qed.
Lemma prev_set_prev r n o r' :
  prev_free_block (set_prev r n o r') = if decide (r' = r) then n else prev_free_block (o r').
Proof. unfold set_prev, update. by case_decide. Qed.
Lemma next_set_prev r n o r' :
  next_free_block (set_prev r n o r') = next_free_block (o r').
Proof. unfold set_prev, update. case_decide; by subst. Qed.
Lemma data_set_next r n o r' : data (set_next r n o r') = data (o r').
Proof. unfold set_next, update. case_decide; by subst. Qed.
Lemma data_set_prev r n o r' : data (set_prev r n o r') = data (o r').
Proof. unfold set_prev, update. case_decide; by subst. Qed.

(** Case analysis on which object a link update hits. *)
Ltac links :=
  repeat first
    [ rewrite next_set_next | rewrite prev_set_next
    | rewrite prev_set_prev | rewrite next_set_prev
    | rewrite data_set_next | rewrite data_set_prev
    | case_decide ]; subst.

Lemma linked_pair o L1 a b L2 :
  linked o (L1 ++ a :: b :: L2) <->
  linked o (L1 ++ [a]) /\ next_free_block (o a) = Some b
  /\ prev_free_block (o b) = Some a /\ linked o (b :: L2).
Proof.
  induction L1 as [|x [|y L1] IH]; cbn [app linked] in *; [tauto|tauto|].
  rewrite IH. tauto.
Qed.

Lemma linked_drop o L1 L2 : linked o (L1 ++ L2) -> linked o L2.
Proof.
  induction L1 as [|x L1 IH]; [done|]. intros H. apply IH. cbn [app] in H.
  destruct (L1 ++ L2) as [|y L]; [done|]. apply H.
Qed.

(** A segment only depends on the [next] links of all its objects but the last
    and on the [prev] links of all but the first. *)
Lemma linked_frame_l o o' L a :
  (forall r, r ∈ L -> next_free_block (o' r) = next_free_block (o r)) ->
  (forall r, r = a \/ r ∈ L -> prev_free_block (o' r) = prev_free_block (o r)) ->
  linked o (L ++ [a]) -> linked o' (L ++ [a]).
Proof.
  induction L as [|x [|y L] IH]; intros Hn Hp; cbn [app linked] in *; [done| |].
  - rewrite Hn, Hp by set_solver. done.
  - rewrite Hn, Hp by set_solver. intros (?&?&?). split_and!; [done..|].
    apply IH; [intros; apply Hn; set_solver|intros; apply Hp; set_solver|done].
Qed.

Lemma linked_frame_r o o' a L :
  (forall r, r = a \/ r ∈ L -> next_free_block (o' r) = next_free_block (o r)) ->
  (forall r, r ∈ L -> prev_free_block (o' r) = prev_free_block (o r)) ->
  linked o (a :: L) -> linked o' (a :: L).
Proof.
  revert a. induction L as [|y L IH]; intros a Hn Hp; cbn [linked]; [done|].
  rewrite Hn, Hp by set_solver. intros (?&?&?). split_and!; [done..|].
  apply IH; [intros; apply Hn; set_solver|intros; apply Hp; set_solver|done].
Qed.

Lemma ring_app l1 b l2 :
  exists L1 p n L2, ring (l1 ++ b :: l2) = L1 ++ p :: b :: n :: L2
    /\ ring (l1 ++ l2) = L1 ++ p :: n :: L2.
Proof.
  destruct l1 as [|p L1 _] using rev_ind.
  - destruct l2 as [|n l2]; [by exists [], RHead, RTail, []|].
    by exists [], RHead, n, (l2 ++ [RTail]).
  - destruct l2 as [|n l2].
    + exists (RHead :: L1), p, RTail, []. unfold ring. by rewrite app_nil_r, <- !app_assoc.
    + exists (RHead :: L1), p, n, (l2 ++ [RTail]). unfold ring. by rewrite <- !app_assoc.
Qed.

Lemma ring_snoc l : exists L p, ring l = L ++ [p; RTail] /\ RHead :: l = L ++ [p].
Proof.
  destruct l as [|p l _] using rev_ind; [by exists [], RHead|].
  exists (RHead :: l), p. unfold ring. by rewrite <- app_assoc.
Qed.

Lemma ring_nodup l : NoDup l -> Forall is_blk l -> NoDup (ring l).
Proof.
  intros Hl Hb. pose proof (proj1 (Forall_forall _ _) Hb) as Hb'.
  unfold ring. rewrite NoDup_cons, NoDup_app, elem_of_app, list_elem_of_singleton.
  split_and!; [|done| |apply NoDup_singleton].
  - intros [H|H]; [by apply Hb' in H|done].
  - intros x H ->%list_elem_of_singleton. by apply Hb' in H.
Qed.

Section rep_facts.
Context {q : Q} {l : list ref} (Hrep : rep q l).

Lemma rep_is_blk r : r ∈ l -> is_blk r.
Proof. apply (proj1 (Forall_forall _ _) (rep_blk _ _ Hrep)). Qed.

Lemma rep_ring_nodup : NoDup (ring l).
Proof. apply ring_nodup; [apply (rep_nodup _ _ Hrep)|apply (rep_blk _ _ Hrep)]. Qed.

Lemma rep_first : nxt RHead q = Some (hd RTail l).
Proof.
  pose proof (rep_seg _ _ Hrep) as H. unfold ring in H. destruct l; cbn [app linked] in H; apply H.
Qed.

Lemma rep_in_tail_prev : is_Some (prv RTail q).
Proof.
  pose proof (rep_seg _ _ Hrep) as H. destruct (ring_snoc l) as (L & p & E & _).
  rewrite E, linked_pair in H. exists p. apply H.
Qed.

Lemma rep_in_next r : r ∈ l -> is_Some (nxt r q) /\ is_Some (prv r q).
Proof.
  intros (l1 & l2 & ->)%list_elem_of_split. pose proof (rep_seg _ _ Hrep) as H.
  destruct (ring_app l1 r l2) as (L1 & p & n & L2 & E & _). rewrite E in H.
  rewrite linked_pair in H. destruct H as (_ & H1 & H2 & H3 & _).
  unfold nxt, prv. rewrite H2, H3. eauto.
Qed.
End rep_facts.

(** Unlinking an object from the middle of a doubly linked sequence. *)
Lemma linked_unlink o L1 p b n L2 :
  NoDup (L1 ++ p :: b :: n :: L2) -> linked o (L1 ++ p :: b :: n :: L2) ->
  linked (set_prev n (Some p) (set_next p (Some n) o)) (L1 ++ p :: n :: L2).
Proof.
  rewrite linked_pair. intros Hnd (H1 & H2 & H3 & H4 & H5 & H6).
  assert (p ∉ L1 /\ n ∉ L1 /\ p ≠ n /\ p ∉ L2 /\ n ∉ L2) as (D1 & D2 & D3 & D4 & D5).
  { apply NoDup_app in Hnd as (_ & Hd & Hnd). rewrite !NoDup_cons in Hnd.
    split_and!; try (intros X; apply (Hd _ X)); set_solver. }
  rewrite linked_pair. clear Hnd. split_and!; [|links; congruence..|].
  - eapply linked_frame_l, H1; intros r Hr; links; try done; destruct Hr; congruence.
  - eapply linked_frame_r, H6; intros r Hr; links; try done; destruct Hr; congruence.
Qed.

Lemma linked_ext o o' L :
  (forall r, r ∈ L -> next_free_block (o' r) = next_free_block (o r)
                     /\ prev_free_block (o' r) = prev_free_block (o r)) ->
  linked o L -> linked o' L.
Proof.
  induction L as [|x [|y L] IH]; intros Hn; cbn [linked] in *; [done..|].
  rewrite (proj1 (Hn x ltac:(set_solver))), (proj2 (Hn y ltac:(set_solver))).
  intros (?&?&?). split_and!; [done..|]. apply IH; [|done]. intros. apply Hn. set_solver.
Qed.

Lemma not_in_ring r l : is_blk r -> r ∉ l -> r ∉ ring l.
Proof. unfold ring. intros ? ?. destruct r; set_solver. Qed.

(** *** The operations *)

Lemma remove_rep q l1 b l2 : rep q (l1 ++ b :: l2) ->
  exists q', remove b q = (Ok tt, q') /\ rep q' (l1 ++ l2) /\ same_data q q'.
Proof.
  intros H. pose proof (rep_seg _ _ H) as Hs. pose proof (rep_ring_nodup H) as Hnd.
  pose proof (rep_out _ _ H) as Hout. pose proof (rep_tail _ _ H) as Ht.
  assert (is_blk b) as Hb by (apply (rep_is_blk H); set_solver).
  assert (b ∉ l1 ++ l2) as Hbl.
  { pose proof (rep_nodup _ _ H) as Hl. rewrite NoDup_app, NoDup_cons in Hl. set_solver. }
  pose proof (not_in_ring _ _ Hb Hbl) as Hbr.
  destruct (ring_app l1 b l2) as (L1 & p & n & L2 & E1 & E2).
  rewrite E1 in Hs, Hnd. pose proof (linked_unlink _ _ _ _ _ _ Hnd Hs) as Hs'.
  rewrite linked_pair in Hs. destruct Hs as (_ & H1 & H2 & H3 & H4 & _).
  assert (p ≠ RTail /\ p ∈ ring (l1 ++ l2) /\ n ∈ ring (l1 ++ l2)) as (Hpt & Hpi & Hni).
  { rewrite E2. split_and!; [unfold nxt in Ht; congruence|set_solver..]. }
  unfold remove, prv, nxt in *. msteps. rewrite H2, H3. msteps.
  eexists. split; [reflexivity|]. split; [|by intros r Hr; simpl; links].
  split; unfold nxt, prv; cbn [objs num_free_blocks].
  - rewrite E2. eapply linked_ext, Hs'. rewrite <- E2. intros r Hr. by links.
  - eapply NoDup_app in Hnd. pose proof (rep_nodup _ _ H) as Hl.
    rewrite NoDup_app, NoDup_cons in *. set_solver.
  - pose proof (rep_blk _ _ H) as Hl. rewrite Forall_app, Forall_cons in *. tauto.
  - rewrite (rep_num _ _ H), !zlen_app, zlen_cons. lia.
  - links; try done.
  - intros r Hr Hrl. pose proof (not_in_ring _ _ Hr Hrl) as Hrr.
    destruct (decide (r = b)) as [->|Hne]; [by links|].
    destruct (Hout r Hr ltac:(set_solver)). by links.
Qed.

Lemma remove_not_free q l b : rep q l -> is_blk b -> b ∉ l ->
  remove b q = (Raise RuntimeError, q).
Proof.
  intros H Hb Hl. destruct (rep_out _ _ H _ Hb Hl) as [Hp _].
  unfold remove. msteps. by rewrite Hp.
Qed.

Lemma popleft_nil q : rep q [] -> popleft q = (Raise ValueError, q).
Proof.
  intros H. unfold popleft. msteps. rewrite (rep_first H). simpl. msteps.
  by rewrite (rep_num _ _ H).
Qed.

(** [popleft] unlinks the first block, as [remove] does. *)
Lemma popleft_rep q b l : rep q (b :: l) ->
  exists q', popleft q = (Ok b, q') /\ rep q' l /\ same_data q q'.
Proof.
  intros H. destruct (remove_rep q [] b l H) as (q' & Hr & Hq' & Hd).
  exists q'. split; [|done]. pose proof (rep_seg _ _ H) as Hs.
  unfold ring in Hs. cbn [app linked] in Hs.
  destruct Hs as (H1 & H2 & _).
  destruct (rep_in_next H b ltac:(set_solver)) as [[n Hn] _].
  pose proof (rep_is_blk H b ltac:(set_solver)).
  unfold popleft, remove, prv in *. revert Hr. msteps. unfold nxt in *. rewrite H1, H2, Hn.
  msteps. rewrite decide_False by (by intros ->). msteps. rewrite Hn.
  msteps. by intros [= <-].
Qed.

(** The popping loop: it clears the links of the popped blocks, leaves the
    others alone and stops on the successor of the last popped block. *)
Lemma popleft_loop_run l1 x L2 acc q :
  NoDup (l1 ++ x :: L2) -> linked (objs q) (l1 ++ x :: L2) ->
  exists q', popleft_loop (length l1) (Some (hd x l1)) acc q
             = (Ok (Some x, acc ++ l1), q')
    /\ (forall r, r ∈ l1 -> nxt r q' = None /\ prv r q' = None)
    /\ (forall r, r ∉ l1 -> objs q' r = objs q r)
    /\ (forall r, data (objs q' r) = data (objs q r))
    /\ num_free_blocks q' = num_free_blocks q.
Proof.
  revert acc q. induction l1 as [|y l1 IH]; intros acc q Hnd Hl; cbn [app length popleft_loop hd].
  - exists q. rewrite app_nil_r. split; [done|]. set_solver.
  - set (q1 := {| objs := set_next y None (set_prev y None (objs q));
                  num_free_blocks := num_free_blocks q |}).
    cbn [app] in Hnd. apply NoDup_cons in Hnd as [Hy Hnd].
    assert (nxt y q = Some (hd x l1)) as Hn by (unfold nxt; destruct l1; apply Hl).
    assert (linked (objs q1) (l1 ++ x :: L2)) as Hl1.
    { assert (linked (objs q) (l1 ++ x :: L2)) as Hl' by (destruct l1; apply Hl).
      eapply linked_ext, Hl'. intros r Hr. cbn [objs q1].
      assert (r ≠ y) by (by intros ->). by links. }
    destruct (IH (acc ++ [y]) q1 Hnd Hl1) as (q' & Hrun & Hc & Hf & Hd & Hnum).
    exists q'. msteps. rewrite Hn. change (popleft_loop _ _ _ _) with
      (popleft_loop (length l1) (Some (hd x l1)) (acc ++ [y]) q1). rewrite Hrun.
    split_and!.
    + by rewrite <- app_assoc.
    + intros r [->|Hr]%elem_of_cons; [|by apply Hc].
      unfold nxt, prv. rewrite Hf by set_solver. simpl. by links.
    + intros r [Hr1 Hr2]%not_elem_of_cons. rewrite Hf by done. simpl.
      unfold set_next, set_prev, update. by rewrite !decide_False by done.
    + intros r. rewrite Hd. simpl. by links.
    + by rewrite Hnum.
Qed.

Lemma popleft_n_rep q l1 l2 : rep q (l1 ++ l2) ->
  exists q', popleft_n (zlen l1) q = (Ok l1, q') /\ rep q' l2 /\ same_data q q'.
Proof.
  intros H. unfold popleft_n.
  destruct l1 as [|b l1]; [exists q; done|].
  rewrite zlen_cons. replace (1 + zlen l1 =? 0) with false by (pose proof (zlen_nonneg l1); lia).
  set (L1 := b :: l1) in *. set (x := hd RTail l2). set (L2 := tail (l2 ++ [RTail])).
  assert (ring (L1 ++ l2) = RHead :: L1 ++ x :: L2) as E.
  { unfold ring, x, L2. rewrite <- app_assoc. by destruct l2. }
  pose proof (rep_ring_nodup H) as Hnd. pose proof (rep_seg _ _ H) as Hs. rewrite E in Hnd, Hs.
  apply NoDup_cons in Hnd as [Hh Hnd].
  set (q1 := {| objs := objs q; num_free_blocks := num_free_blocks q + - (1 + zlen l1) |}).
  destruct (popleft_loop_run L1 x L2 [] q1 Hnd) as (q2 & Hrun & Hc & Hf & Hd & Hn).
  { apply Hs. }
  pose proof (rep_num _ _ H) as Hnum. unfold L1 in Hnum.
  rewrite zlen_app, zlen_cons in Hnum. pose proof (zlen_nonneg l2).
  msteps. replace (1 + zlen l1 <=? num_free_blocks q) with true by lia. msteps.
  change (nxt RHead _) with (nxt RHead q). rewrite (rep_first H).
  change (hd RTail (L1 ++ l2)) with (hd x L1).
  replace (Z.to_nat (1 + zlen l1)) with (length L1) by (unfold L1, zlen; simpl; lia).
  rewrite (bind_ok _ _ _ _ _ Hrun). msteps.
  eexists. split; [reflexivity|].
  assert (forall r, r ∈ L1 -> is_blk r) as HL1 by (intros; apply (rep_is_blk H); set_solver).
  assert (forall r, r = x \/ r ∈ L2 -> r ∉ L1) as Hdis.
  { apply NoDup_app in Hnd as (_ & Hdis & _). intros r Hr Hr'. apply (Hdis r); set_solver. }
  apply NoDup_app in Hnd as (Hnd1 & _ & [Hx Hnd2]%NoDup_cons).
  rewrite elem_of_app, elem_of_cons in Hh.
  assert (ring l2 = RHead :: x :: L2) as E2 by (unfold ring, x, L2; by destruct l2).
  pose proof (rep_nodup _ _ H) as Hl. pose proof (rep_blk _ _ H) as Hb.
  rewrite NoDup_app in Hl. rewrite Forall_app in Hb.
  split; [split|]; unfold nxt, prv; cbn [objs num_free_blocks].
  - rewrite E2. cbn [linked]. split_and!; [links; congruence..|].
    eapply linked_frame_r with (o := objs q).
    + intros r Hr. rewrite next_set_prev, next_set_next, decide_False by naive_solver.
      by rewrite Hf by auto.
    + intros r Hr. rewrite prev_set_prev, decide_False, prev_set_next by naive_solver.
      by rewrite Hf by auto.
    + apply (linked_drop _ (RHead :: L1)), Hs.
  - tauto.
  - tauto.
  - rewrite Hn. cbn [q1 num_free_blocks]. lia.
  - links; [congruence|]. rewrite Hf by (intros Ht%HL1; done). apply (rep_tail _ _ H).
  - intros r Hr Hrl. pose proof (not_in_ring _ _ Hr Hrl) as Hrr.
    rewrite E2, !not_elem_of_cons in Hrr. destruct Hrr as (? & ? & _).
    rewrite prev_set_prev, prev_set_next, next_set_prev, next_set_next, !decide_False by done.
    destruct (decide (r ∈ L1)) as [Hi|Hi]; [destruct (Hc r Hi); auto|].
    rewrite Hf by done. apply (rep_out _ _ H r Hr). set_solver.
  - intros r Hr. cbn [objs]. rewrite data_set_prev, data_set_next. apply Hd.
Qed.

Lemma popleft_n_too_many q l n : rep q l -> zlen l < n ->
  popleft_n n q = (Raise AssertionError, q).
Proof.
  intros H Hn. pose proof (zlen_nonneg l). unfold popleft_n.
  replace (n =? 0) with false by lia. msteps. rewrite (rep_num _ _ H).
  by replace (n <=? zlen l) with false by lia.
Qed.

(** The linking loop of [append_n]: the objects of [L ++ bs] become linked. *)
Lemma append_loop_run bs L p q :
  linked (objs q) (L ++ [p]) -> NoDup (L ++ p :: bs) ->
  exists q', append_loop bs p q = (Ok (List.last bs p), q')
    /\ linked (objs q') (L ++ p :: bs)
    /\ (forall r, r ∉ p :: bs -> nxt r q' = nxt r q)
    /\ (forall r, r ∉ bs -> prv r q' = prv r q)
    /\ (forall r, data (objs q' r) = data (objs q r))
    /\ num_free_blocks q' = num_free_blocks q.
Proof.
  revert L p q. induction bs as [|b bs IH]; intros L p q Hl Hnd; cbn [append_loop].
  - by exists q.
  - set (q1 := {| objs := set_next p (Some b) (set_prev b (Some p) (objs q));
                  num_free_blocks := num_free_blocks q |}).
    assert (p ∉ L /\ b ∉ L /\ p ≠ b) as (Hp & Hb & Hpb).
    { apply NoDup_app in Hnd as (_ & Hd & Hnd). rewrite !NoDup_cons in Hnd.
      split_and!; try (intros X; apply (Hd _ X)); set_solver. }
    assert (linked (objs q1) ((L ++ [p]) ++ [b])) as Hl1.
    { rewrite <- app_assoc. cbn [app]. rewrite linked_pair. cbn [linked].
      split_and!; try done; [|cbn; links; congruence..].
      eapply linked_frame_l, Hl; intros r Hr; cbn; links; try done; destruct Hr; congruence. }
    destruct (IH (L ++ [p]) b q1) as (q' & Hrun & Hq & Hn & Hv & Hd & Hnum);
      [done|by rewrite <- app_assoc|].
    exists q'. msteps. rewrite <- app_assoc in Hq. split_and!; try done.
    + change (append_loop bs b q1 = (Ok (List.last (b :: bs) p), q')). rewrite Hrun.
      destruct bs as [|z bs _] using rev_ind; [done|]. 
      by rewrite app_comm_cons, !List.last_last.
    + intros r Hr. rewrite !not_elem_of_cons in Hr. rewrite Hn by set_solver.
      unfold nxt. cbn. links; naive_solver.
    + intros r Hr. rewrite !not_elem_of_cons in Hr. rewrite Hv by naive_solver.
      unfold prv. cbn. links; naive_solver.
    + intros r. rewrite Hd. cbn. by rewrite data_set_next, data_set_prev.
Qed.

(** The ring of [l ++ bs], seen from the block [p] the new blocks go after. *)
Lemma ring_grow l bs : exists L p L3,
  RHead :: l = L ++ [p] /\ ring l = L ++ [p; RTail]
  /\ L ++ p :: bs = L3 ++ [List.last bs p] /\ ring (l ++ bs) = L3 ++ [List.last bs p; RTail].
Proof.
  destruct (ring_snoc l) as (L & p & E1 & E2).
  assert (ring (l ++ bs) = (L ++ p :: bs) ++ [RTail]) as E.
  { unfold ring. rewrite !app_comm_cons, E2, <- !app_assoc. done. }
  destruct bs as [|z bs _] using rev_ind.
  - exists L, p, L. split_and!; [done..|]. by rewrite E, <- app_assoc.
  - exists L, p, (L ++ p :: bs). rewrite List.last_last. split_and!; [done..| |].
    + by rewrite <- app_assoc.
    + by rewrite E, <- !app_assoc, <- app_comm_cons, <- app_assoc.
Qed.

(** Closing the ring after the last appended block. *)
Lemma linked_close o L x :
  NoDup (L ++ [x; RTail]) -> linked o (L ++ [x]) ->
  linked (set_prev RTail (Some x) (set_next x (Some RTail) o)) (L ++ [x; RTail]).
Proof.
  intros Hnd Hl. apply NoDup_app in Hnd as (_ & Hd & Hnd).
  assert (x ∉ L /\ RTail ∉ L /\ RTail ≠ x) as (Hx & Ht & Hxt).
  { rewrite NoDup_cons in Hnd. split_and!; try (intros X; apply (Hd _ X)); set_solver. }
  rewrite linked_pair. split_and!; [|links; congruence..|done].
  eapply linked_frame_l, Hl; intros r Hr; links; try done; destruct Hr; congruence.
Qed.

Lemma append_n_rep q l bs : rep q l -> NoDup (l ++ bs) -> Forall is_blk bs ->
  exists q', append_n bs q = (Ok tt, q') /\ rep q' (l ++ bs) /\ same_data q q'.
Proof.
  intros H Hnd Hblk. destruct bs as [|b bs']; [exists q; by rewrite app_nil_r|].
  unfold append_n. set (bs := b :: bs') in *.
  assert (Forall is_blk (l ++ bs)) as Hblk' by (apply Forall_app; split; [apply (rep_blk _ _ H)|done]).
  pose proof (ring_nodup _ Hnd Hblk') as Hring.
  destruct (ring_grow l bs) as (L & p & L3 & E1 & E2 & E3 & E4).
  pose proof (rep_seg _ _ H) as Hs. rewrite E2, linked_pair in Hs.
  destruct Hs as (Hs & Hpn & Htp & _). rewrite E4 in Hring.
  assert (NoDup (L ++ p :: bs)) as HndL.
  { rewrite E3. change [List.last bs p; RTail] with ([List.last bs p] ++ [RTail]) in Hring.
    rewrite app_assoc in Hring. by apply NoDup_app in Hring as [? _]. }
  destruct (append_loop_run bs L p q Hs HndL) as (q1 & Hrun & Hq & Hn & Hv & Hd & Hnum).
  rewrite E3 in Hq. set (last := List.last bs p) in *.
  assert (forall r, r ∈ p :: bs \/ r = last -> r ∈ ring (l ++ bs) /\ r ≠ RTail) as Hin.
  { intros r Hr. assert (r ∈ L3 ++ [last]) as Hr'.
    { destruct Hr as [Hr| ->]; [rewrite <- E3|]; apply elem_of_app; right; [done|by left]. }
    change [last; RTail] with ([last] ++ [RTail]) in E4, Hring. rewrite app_assoc in E4, Hring.
    rewrite E4. split; [by apply elem_of_app; left|]. intros ->.
    apply NoDup_app in Hring as (_ & Hdis & _). apply (Hdis RTail Hr'). by left. }
  exists {| objs := set_prev RTail (Some last) (set_next last (Some RTail) (objs q1));
            num_free_blocks := num_free_blocks q1 + zlen bs |}.
  split.
  { msteps. change (prv RTail q) with (prev_free_block (objs q RTail)). rewrite Htp.
    rewrite (bind_ok _ _ _ _ _ Hrun). by msteps. }
  split; [split|]; unfold nxt, prv in *; cbn [objs num_free_blocks].
  - rewrite E4. by apply linked_close.
  - done.
  - done.
  - by rewrite Hnum, (rep_num _ _ H), zlen_app.
  - rewrite next_set_prev, next_set_next, decide_False
      by (intros X; by apply (Hin RTail (or_intror X))).
    rewrite Hn by (intros X; by apply (Hin RTail (or_introl X))).
    apply (rep_tail _ _ H).
  - intros r Hr Hrl. pose proof (not_in_ring _ _ Hr Hrl) as Hrr.
    assert (r ∉ p :: bs /\ r ≠ last /\ r ≠ RTail) as (? & ? & ?).
    { split_and!; [intros X; by apply Hrr, (Hin r (or_introl X))
                  |intros X; by apply Hrr, (Hin r (or_intror X))|by intros ->]. }
    rewrite prev_set_prev, prev_set_next, next_set_prev, next_set_next, !decide_False by done.
    rewrite Hn, Hv by set_solver. apply (rep_out _ _ H); set_solver.
  - intros r Hr. cbn [objs]. rewrite data_set_prev, data_set_next. apply Hd.
Qed.

(** [rep] only depends on the objects, not on how they were written. *)
Lemma rep_ext q q' l : (forall r, objs q' r = objs q r) ->
  num_free_blocks q' = num_free_blocks q -> rep q l -> rep q' l.
Proof.
  intros Ho Hn [H1 H2 H3 H4 H5 H6]. split; unfold nxt, prv in *; try done.
  - eapply linked_ext, H1. intros r _. by rewrite Ho.
  - by rewrite Hn.
  - by rewrite Ho.
  - intros r. rewrite Ho. apply H6.
Qed.

(** [rep] reads nothing of the blocks but their links. *)
Lemma rep_same_links q q' l : (forall r, prv r q' = prv r q) -> (forall r, nxt r q' = nxt r q) ->
  num_free_blocks q' = num_free_blocks q -> rep q l -> rep q' l.
Proof.
  intros Hp Hn Hnum [H1 H2 H3 H4 H5 H6]. split; try done.
  - eapply linked_ext, H1. intros r _. split; [apply Hn|apply Hp].
  - by rewrite Hnum.
  - by rewrite Hn.
  - intros r. rewrite Hp, Hn. apply H6.
Qed.

Lemma append_rep q l b : rep q l -> is_blk b -> b ∉ l ->
  exists q', append b q = (Ok tt, q') /\ rep q' (l ++ [b]) /\ same_data q q'.
Proof.
  intros H Hb Hl. destruct (append_n_rep q l [b] H) as (q' & Hrun & Hrep & Hd).
  { apply NoDup_app. split_and!; [apply (rep_nodup _ _ H)|set_solver|apply NoDup_singleton]. }
  { by constructor. }
  unfold append, append_n in *. pose proof (rep_in_tail_prev H) as [p Hp].
  revert Hrun. msteps. rewrite Hp. msteps. cbn [append_loop]. msteps. intros [= <-].
  eexists. split; [reflexivity|]. split.
  - eapply rep_ext, Hrep; [|done]. intros r. cbn [objs].
    unfold set_next, set_prev, update. repeat case_decide; subst; done || congruence.
  - intros r Hr. cbn [objs]. by rewrite ?data_set_prev, ?data_set_next, ?data_set_prev, ?data_set_next.
Qed.

Lemma all_free_loop_run q L acc fuel r :
  linked (objs q) (r :: L ++ [RTail]) -> nxt RTail q = None -> (length L + 2 <= fuel)%nat ->
  all_free_loop fuel r acc q = Ok (acc ++ r :: L).
Proof.
  revert fuel r acc. induction L as [|x L IH]; intros fuel r acc Hl Ht Hf;
    destruct fuel as [|fuel]; simpl in Hf; try lia; cbn [all_free_loop app] in *.
  - destruct Hl as (H1 & _). unfold nxt at 1. rewrite H1.
    destruct fuel; [lia|]. simpl. by rewrite Ht.
  - destruct Hl as (H1 & _ & Hl). unfold nxt at 1. rewrite H1.
    rewrite IH by (done || lia). by rewrite <- app_assoc.
Qed.

(** The traversal returns the whole free list; one unit of fuel per block and
    one for the tail sentinel are enough. *)
Lemma get_all_free_blocks_rep q l fuel : rep q l -> (length l < fuel)%nat ->
  get_all_free_blocks fuel q = Ok l.
Proof.
  intros H Hf. unfold get_all_free_blocks. rewrite (rep_first H).
  pose proof (rep_seg _ _ H) as Hs. pose proof (rep_tail _ _ H) as Ht.
  destruct l as [|b l]; simpl in *.
  - destruct fuel; [lia|]. simpl. by rewrite Ht.
  - unfold ring in Hs. rewrite (all_free_loop_run q l); [done| |done|lia].
    apply (linked_drop _ [RHead]), Hs.
Qed.

(** *** Construction *)

Lemma linked_lookup o L :
  (forall j a b, L !! j = Some a -> L !! S j = Some b ->
     next_free_block (o a) = Some b /\ prev_free_block (o b) = Some a) ->
  linked o L.
Proof.
  induction L as [|x [|y L] IH]; intros H; cbn [linked]; [done..|].
  destruct (H 0%nat x y) as [??]; [done..|]. split_and!; [done..|].
  apply IH. intros j a b. apply (H (S j)).
Qed.

(** State of the construction loop after the first [k] blocks. *)
Definition init_upto (bs : list ref) (q q' : Q) (k : nat) : Prop :=
  (forall j b, bs !! j = Some b ->
     prv b q' = (if decide (j < k)%nat then if decide (j = 0)%nat then None else bs !! (j - 1)%nat
                 else None)
     /\ nxt b q' = (if decide (j < k)%nat then bs !! S j else None))
  /\ (forall r, r ∉ bs -> objs q' r = objs q r)
  /\ same_data q q' /\ num_free_blocks q' = num_free_blocks q.

(** One iteration: it links block [k] to its neighbours. *)
Lemma init_step bs q q1 k b (po no : option ref) q2 :
  NoDup bs -> bs !! k = Some b -> init_upto bs q q1 k ->
  po = (if decide (k = 0)%nat then None else bs !! (k - 1)%nat) -> no = bs !! S k ->
  (forall r, prv r q2 = if decide (r = b) then po else prv r q1) ->
  (forall r, nxt r q2 = if decide (r = b) then no else nxt r q1) ->
  (forall r, r ∉ bs -> objs q2 r = objs q1 r) -> same_data q1 q2 ->
  num_free_blocks q2 = num_free_blocks q1 ->
  init_upto bs q q2 (S k).
Proof.
  intros Hnd Hb (H1 & H2 & H3 & H4) -> -> Hp Hn Ho Hd Hnum. split_and!.
  - intros j b' Hb'. rewrite Hp, Hn. destruct (decide (b' = b)) as [->|Hne].
    + assert (j = k) as -> by (by eapply NoDup_lookup). by rewrite !(decide_True (P := (k < S k)%nat)) by lia.
    + assert (j ≠ k) by (intros ->; congruence). destruct (H1 j b' Hb') as [-> ->].
      destruct (decide (j < k)%nat); [by rewrite !(decide_True (P := (j < S k)%nat)) by lia|].
      by rewrite !(decide_False (P := (j < S k)%nat)) by lia.
  - intros r Hr. by rewrite Ho, H2.
  - by etrans.
  - by rewrite Hnum.
Qed.

Lemma link_neighbours_run bs q q1 k : NoDup bs -> (k < length bs)%nat ->
  init_upto bs q q1 k ->
  exists q2, link_neighbours bs (length bs) k q1 = (Ok tt, q2) /\ init_upto bs q q2 (S k).
Proof.
  intros Hnd Hk Hq. destruct (lookup_lt_is_Some_2 bs k Hk) as [b Hb].
  assert (prv b q1 = None /\ nxt b q1 = None) as [Hpb Hnb].
  { destruct Hq as (H1 & _). destruct (H1 k b Hb) as [-> ->].
    by rewrite !(decide_False (P := (k < k)%nat)) by lia. }
  assert (forall r, r ∉ bs -> r ≠ b) as Hout
    by (intros r Hr ->; apply Hr; by eapply list_elem_of_lookup_2).
  set (po := if decide (k = 0)%nat then None else bs !! (k - 1)%nat).
  set (no := bs !! S k).
  set (q2 := {| objs := update b (fun x => {| x with prev_free_block := po;
                  next_free_block := no |}) (objs q1); num_free_blocks := num_free_blocks q1 |}).
  assert (exists q3, link_neighbours bs (length bs) k q1 = (Ok tt, q3)
            /\ (forall r, objs q3 r = objs q2 r) /\ num_free_blocks q3 = num_free_blocks q1)
    as (q3 & Hrun & Hq3 & Hnum).
  { unfold link_neighbours. rewrite Hb, Nat.add_1_r. cbn [default from_option id].
    assert (no = if (k <? length bs - 1)%nat then Some (default RHead (bs !! S k)) else None) as En.
    { unfold no. destruct (Nat.ltb_spec k (length bs - 1)); [|apply lookup_ge_None_2; lia].
      destruct (lookup_lt_is_Some_2 bs (S k)) as [x ->]; [lia|done]. }
    assert (po = if (0 <? k)%nat then Some (default RHead (bs !! (k - 1)%nat)) else None) as Ep.
    { unfold po. destruct (Nat.ltb_spec 0 k); [|by rewrite decide_True by lia].
      rewrite decide_False by lia.
      destruct (lookup_lt_is_Some_2 bs (k - 1)%nat) as [x ->]; [lia|done]. }
    unfold nxt, prv in *.
    destruct (0 <? k)%nat, (k <? length bs - 1)%nat; msteps; eexists; (split; [reflexivity|]);
      (split; [|done]); intros r; cbn [objs q2]; rewrite En, Ep;
      unfold set_next, set_prev, update; repeat case_decide; subst; try done;
      destruct (objs q1 b); simpl in *; congruence. }
  exists q3. split; [done|]. 
  apply (init_step bs q q1 k b po no); try done; unfold prv, nxt, same_data; setoid_rewrite Hq3;
    cbn [q2 objs]; unfold update; intros r; intros; case_decide; subst; try done;
    by destruct (Hout b).
Qed.

Lemma init_links_run bs q : NoDup bs ->
  (forall b, b ∈ bs -> prv b q = None /\ nxt b q = None) ->
  exists q', init_links bs (length bs) q = (Ok tt, q') /\ init_upto bs q q' (length bs).
Proof.
  intros Hnd Hfresh.
  destruct (mfor_ok (link_neighbours bs (length bs)) (fun done q' => init_upto bs q q' (length done))
              (seq 0 (length bs))) with (s := q) as (q' & Hrun & Hq').
  - intros done i todo q1 Hi Hq1. rewrite length_app, Nat.add_1_r.
    assert (seq 0 (length bs) !! length done = Some i) as X
      by (rewrite Hi, lookup_app_r, Nat.sub_diag by lia; done).
    apply lookup_seq in X as [-> ?]. by apply link_neighbours_run.
  - split_and!; try done. intros j b Hb.
    rewrite !(decide_False (P := (j < 0)%nat)) by lia. 
    apply Hfresh. by eapply list_elem_of_lookup_2.
  - exists q'. split; [done|]. by rewrite length_seq in Hq'.
Qed.

Lemma init_linked bs q q' : init_upto bs q q' (length bs) -> linked (objs q') bs.
Proof.
  intros (H & _). apply linked_lookup. intros j a b Ha Hb.
  pose proof (lookup_lt_Some _ _ _ Hb). destruct (H j a Ha) as [_ Hn].
  destruct (H (S j) b Hb) as [Hp _]. unfold nxt, prv in *.
  rewrite Hn, Hp, !decide_True, decide_False by lia.
  split; [done|]. replace (S j - 1)%nat with j by lia. done.
Qed.

(** Attaching the sentinels to a non-empty linked sequence. *)
Lemma linked_sentinels o bs b x :
  NoDup (ring bs) -> linked o bs -> bs !! 0%nat = Some b -> last bs = Some x ->
  linked (set_next x (Some RTail) (set_prev RTail (Some x)
           (set_prev b (Some RHead) (set_next RHead (Some b) o)))) (ring bs).
Proof.
  intros Hnd Hl Hb Hx. destruct bs as [|b' bs]; [done|]. injection Hb as ->.
  apply last_Some in Hx as [L HL]. unfold ring in *. rewrite HL in *.
  rewrite <- app_assoc in *. cbn [app] in *.
  assert (linked (set_prev b (Some RHead) (set_next RHead (Some b) o)) ((RHead :: L) ++ [x])) as H1.
  { cbn [app]. rewrite <- HL in *.
    assert (RHead ∉ b :: bs /\ b ∉ bs) as [Hh Hbb].
    { apply NoDup_cons in Hnd as [Hh Hnd]. change [x; RTail] with ([x] ++ [RTail]) in *.
      rewrite app_assoc, <- HL in *. apply NoDup_app in Hnd as [Hnd _].
      apply NoDup_cons in Hnd as [? _]. split; [set_solver|done]. }
    cbn [linked]. split_and!; [links; set_solver..|].
    eapply linked_frame_r, Hl; intros r Hr; links; try done; set_solver. }
  eapply linked_ext; [|eapply (linked_close _ (RHead :: L) x); [done|exact H1]].
  intros r _. by links.
Qed.

Lemma rep_attach o bs b x : NoDup bs -> Forall is_blk bs -> linked o bs ->
  bs !! 0%nat = Some b -> last bs = Some x ->
  next_free_block (o RTail) = None ->
  (forall r, is_blk r -> r ∉ bs -> prev_free_block (o r) = None /\ next_free_block (o r) = None) ->
  rep {| objs := set_next x (Some RTail) (set_prev RTail (Some x)
                  (set_prev b (Some RHead) (set_next RHead (Some b) o)));
         num_free_blocks := zlen bs |} bs.
Proof.
  intros Hnd Hb Hl Hb0 Hx Ht Hf.
  assert (x ∈ bs) as Hxin by (apply last_Some in Hx as [L ->]; set_solver).
  assert (b ∈ bs) as Hbin by by eapply list_elem_of_lookup_2.
  assert (is_blk x) as Hxb by by apply (proj1 (Forall_forall _ _) Hb).
  split; unfold nxt, prv; cbn [objs num_free_blocks]; try done.
  - by apply linked_sentinels; [apply ring_nodup|..].
  - rewrite next_set_next, decide_False by (by intros <-).
    rewrite next_set_prev, next_set_prev, next_set_next. by rewrite decide_False.
  - intros r Hr Hrb. assert (r ≠ x /\ r ≠ b /\ r ≠ RTail /\ r ≠ RHead) as (?&?&?&?).
    { split_and!; by intros ->. }
    links; try done. by apply Hf.
Qed.

Lemma init_rep q bs : NoDup bs -> Forall is_blk bs ->
  (forall r, is_blk r -> prv r q = None /\ nxt r q = None) ->
  exists q', init bs q = (Ok tt, q') /\ rep q' bs /\ same_data q q'.
Proof.
  intros Hnd Hb Hfresh. pose proof (proj1 (Forall_forall _ _) Hb) as Hb'.
  destruct (init_links_run bs {| objs := objs q; num_free_blocks := zlen bs |} Hnd)
    as (q1 & Hrun & Hq1); [intros; by apply Hfresh, Hb'|].
  pose proof (init_linked _ _ _ Hq1) as Hl. destruct Hq1 as (_ & Hout & Hd & Hnum).
  cbn [num_free_blocks] in Hnum.
  set (o1 := update RTail (fun _ => new_KVCacheBlock (-1))
              (update RHead (fun _ => new_KVCacheBlock (-1)) (objs q1))).
  assert (forall r, is_blk r -> o1 r = objs q1 r) as Ho1 by (intros [] Hr; by try destruct Hr).
  assert (forall r, is_blk r -> r ∉ bs -> prev_free_block (o1 r) = None /\ next_free_block (o1 r) = None)
    as Hf1 by (intros r Hr Hrb; rewrite Ho1, Hout by done; by apply Hfresh).
  assert (forall r, is_blk r -> data (o1 r) = data (objs q r)) as Hd1
    by (intros r Hr; rewrite Ho1 by done; by apply Hd).
  unfold init. msteps. cbn [num_free_blocks]. rewrite Hnum.
  destruct bs as [|b bs'].
  - msteps. eexists. split; [reflexivity|].
    split; [split|]; unfold nxt, prv; cbn [objs num_free_blocks]; fold o1; try done.
    + intros r Hr Hrb. assert (r ≠ RHead /\ r ≠ RTail) as [??] by (split; by intros ->). links; try done. by apply Hf1.
    + intros r Hr. cbn [objs]. rewrite data_set_prev, data_set_next. by apply Hd1.
  - replace (0 <? zlen (b :: bs')) with true
      by (rewrite zlen_cons; pose proof (zlen_nonneg bs'); lia).
    destruct (last (b :: bs')) as [x|] eqn:Hx; [|by apply last_None in Hx].
    rewrite (py_get_last _ _ Hx). msteps. eexists. split; [reflexivity|].
    split; [|intros r Hr; cbn [objs]; rewrite data_set_next, !data_set_prev, data_set_next; by apply Hd1].
    cbn [objs num_free_blocks]. apply (rep_attach o1); try done.
    eapply linked_ext, Hl. intros r Hr. by rewrite Ho1 by auto.
Qed.

(** ** Refinement of an abstract deque *)

(** A client's call on the queue, and its execution by the code. *)
Inductive op :=
  | OpPopleft
  | OpPopleftN (n : Z)
  | OpRemove (b : ref)
  | OpAppend (b : ref)
  | OpAppendN (bs : list ref)
  | OpGetAll.

Definition run_op (c : op) : M Q (list ref) :=
  match c with
  | OpPopleft => b ← popleft; mret [b]
  | OpPopleftN n => popleft_n n
  | OpRemove b => remove b ;; mret []
  | OpAppend b => append b ;; mret []
  | OpAppendN bs => append_n bs ;; mret []
  | OpGetAll =>
      n ← gets num_free_blocks;
      q ← gets id;
      lift_res (get_all_free_blocks (S (Z.to_nat n)) q)
  end.

(** What the call does to the list of free blocks. *)
Definition spec_op (c : op) (l : list ref) : res (list ref) * list ref :=
  match c with
  | OpPopleft =>
      match l with [] => (Raise ValueError, l) | b :: l' => (Ok [b], l') end
  | OpPopleftN n =>
      if n <=? zlen l then (Ok (take (Z.to_nat n) l), drop (Z.to_nat n) l)
      else (Raise AssertionError, l)
  | OpRemove b =>
      if decide (b ∈ l) then (Ok [], filter (fun x => x ≠ b) l) else (Raise RuntimeError, l)
  | OpAppend b => (Ok [], l ++ [b])
  | OpAppendN bs => (Ok [], l ++ bs)
  | OpGetAll => (Ok l, l)
  end.

(** The caller's side of the contract: counts are not negative, the objects are
    blocks, and a block that is put back is not in the queue. *)
Definition legal (c : op) (l : list ref) : Prop :=
  match c with
  | OpPopleftN n => 0 <= n
  | OpRemove b => is_blk b
  | OpAppend b => is_blk b /\ b ∉ l
  | OpAppendN bs => Forall is_blk bs /\ NoDup (l ++ bs)
  | _ => True
  end.

(** A session of calls; a call that raises leaves the queue usable. *)
Fixpoint run_ops (cs : list op) (q : Q) : list (res (list ref)) * Q :=
  match cs with
  | [] => ([], q)
  | c :: cs' =>
      let '(r, q1) := run_op c q in
      let '(rs, q2) := run_ops cs' q1 in (r :: rs, q2)
  end.

Fixpoint spec_ops (cs : list op) (l : list ref) : list (res (list ref)) * list ref :=
  match cs with
  | [] => ([], l)
  | c :: cs' =>
      let '(r, l1) := spec_op c l in
      let '(rs, l2) := spec_ops cs' l1 in (r :: rs, l2)
  end.

Fixpoint legal_ops (cs : list op) (l : list ref) : Prop :=
  match cs with
  | [] => True
  | c :: cs' => legal c l /\ legal_ops cs' (spec_op c l).2
  end.

Lemma filter_ne_split (l1 l2 : list ref) b : NoDup (l1 ++ b :: l2) ->
  filter (fun x => x ≠ b) (l1 ++ b :: l2) = l1 ++ l2.
Proof.
  intros (_ & H1 & H2)%NoDup_app. apply NoDup_cons in H2 as [H2 _].
  rewrite filter_app, filter_cons_False by auto.
  rewrite !filter_ne_notin; [done|done|]. intros H. apply (H1 b H). by left.
Qed.

(** One call of the code simulates one step of the specification. *)
Lemma run_op_refines q l c : rep q l -> legal c l ->
  exists q', run_op c q = ((spec_op c l).1, q') /\ rep q' (spec_op c l).2 /\ same_data q q'.
Proof.
  intros H Hl. destruct c as [|n|b|b|bs|]; cbn [run_op spec_op legal] in *.
  - destruct l as [|b l].
    + exists q. by rewrite (bind_raise _ _ _ _ _ (popleft_nil _ H)).
    + destruct (popleft_rep _ _ _ H) as (q' & Hr & ? & ?). exists q'.
      by rewrite (bind_ok _ _ _ _ _ Hr).
  - destruct (Z.leb_spec n (zlen l)) as [Hn|Hn].
    + rewrite <- (take_drop (Z.to_nat n) l) in H. apply popleft_n_rep in H as (q' & Hr & ? & ?).
      exists q'. split; [|done]. cbn [fst].
      replace (zlen (take (Z.to_nat n) l)) with n in Hr; [done|].
      unfold zlen in *. rewrite length_take. lia.
    + exists q. by rewrite (popleft_n_too_many _ _ _ H Hn).
  - case_decide as Hin.
    + apply list_elem_of_split in Hin as (l1 & l2 & ->).
      destruct (remove_rep _ _ _ _ H) as (q' & Hr & ? & ?). exists q'.
      rewrite (bind_ok _ _ _ _ _ Hr). cbn [fst snd].
      by rewrite filter_ne_split by apply (rep_nodup _ _ H).
    + exists q. by rewrite (bind_raise _ _ _ _ _ (remove_not_free _ _ _ H Hl Hin)).
  - destruct Hl as [? ?]. destruct (append_rep _ _ b H) as (q' & Hr & ? & ?); [done..|].
    exists q'. by rewrite (bind_ok _ _ _ _ _ Hr).
  - destruct Hl as [? ?]. destruct (append_n_rep _ _ bs H) as (q' & Hr & ? & ?); [done..|].
    exists q'. by rewrite (bind_ok _ _ _ _ _ Hr).
  - exists q. msteps. rewrite (get_all_free_blocks_rep _ l); [done|done|].
    rewrite (rep_num _ _ H). unfold zlen. lia.
Qed.

Lemma run_ops_refines cs : forall q l, rep q l -> legal_ops cs l ->
  exists q', run_ops cs q = ((spec_ops cs l).1, q') /\ rep q' (spec_ops cs l).2 /\ same_data q q'.
Proof.
  induction cs as [|c cs IH]; intros q l H Hl; cbn [run_ops spec_ops legal_ops] in *; [by exists q|].
  destruct Hl as [Hc Hcs]. destruct (run_op_refines _ _ _ H Hc) as (q1 & E1 & H1 & D1).
  rewrite E1. destruct (spec_op c l) as [r l1]. cbn [fst snd] in *.
  destruct (IH q1 l1 H1 Hcs) as (q2 & E2 & H2 & D2). rewrite E2.
  destruct (spec_ops cs l1) as [rs l2]. exists q2. split; [done|]. split; [done|]. by etrans.
Qed.

(** C17: [FreeKVCacheBlockQueue] implements a deque.  Built over distinct fresh
    block objects, the linked queue answers every legal sequence of [popleft],
    [popleft_n], [remove], [append], [append_n] and [get_all_free_blocks] calls as
    a plain list of the free blocks does, oldest first, with the exceptions of an
    empty queue, of a count larger than the queue and of a block that is not free;
    at the end the links again represent the list ([num_free_blocks] is its
    length, blocks outside have no links) and no data field of a block changed. *)
Theorem queue_refines_deque (q : Q) (blocks : list ref) (cs : list op)
  (Hnd : NoDup blocks) (Hblk : Forall is_blk blocks)
  (Hfresh : forall r, is_blk r -> prv r q = None /\ nxt r q = None)
  (Hlegal : legal_ops cs blocks) :
  exists q0 q', init blocks q = (Ok tt, q0)
    /\ run_ops cs q0 = ((spec_ops cs blocks).1, q')
    /\ rep q' (spec_ops cs blocks).2 /\ same_data q q'.
Proof.
  destruct (init_rep q blocks Hnd Hblk Hfresh) as (q0 & E0 & H0 & D0).
  destruct (run_ops_refines cs q0 blocks H0 Hlegal) as (q' & E & H' & D).
  exists q0, q'. split_and!; [done..|]. by etrans.
Qed.

Definition demo_store : store :=
  fun r => match r with RBlk b => new_KVCacheBlock (Z.of_nat b) | _ => new_KVCacheBlock (-1) end.

Definition demo_ops : list op :=
  [OpPopleftN 2; OpRemove (RBlk 3); OpAppendN [RBlk 1; RBlk 0]; OpPopleft; OpPopleftN 9;
   OpAppend (RBlk 3); OpRemove (RBlk 2); OpGetAll].

Lemma queue_refines_deque_witness :
  exists q0 q', init (RBlk <$> seq 0 5) (mkQueue demo_store 0) = (Ok tt, q0)
    /\ run_ops demo_ops q0 =
       ([Ok [RBlk 0; RBlk 1]; Ok []; Ok []; Ok [RBlk 2]; Raise AssertionError; Ok [];
         Raise RuntimeError; Ok [RBlk 4; RBlk 1; RBlk 0; RBlk 3]], q').
Proof.
  destruct (queue_refines_deque (mkQueue demo_store 0) (RBlk <$> seq 0 5) demo_ops)
    as (q0 & q' & E0 & E & _).
  - by apply (bool_decide_unpack _).
  - by apply (bool_decide_unpack _).
  - intros [] H; [done|destruct H..].
  - cbn. split_and!; try done; try lia; by apply (bool_decide_unpack _).
  - exists q0, q'. by split.
Defined.

End Queue.
