(* ===== verification/Request.v ===== *)
(** Requests: [v1/request.py], the placeholder ranges of [multimodal/inputs.py]
    a request carries, and the stop conditions of [v1/core/sched/utils.py].

    Times ([arrival_time]) are integers: the code only compares them.  [oid] is
    Python's [id(self)].  The fields that no modelled operation reads
    (trace headers, KV-transfer parameters, event timestamps) are left out. *)

From S2P Require Import Prelude.
Local Open Scope Z_scope.

(** ** Data carried by a request *)

Record LoRARequest := { lora_name : string; lora_int_id : Z }.

Record PlaceholderRange := {
  pr_offset : Z;
  pr_length : Z;
  is_embed : option (list bool);
}.

(** [embeds_cumsum]: the inclusive prefix sums of the mask. *)
Definition cumsum (l : list bool) : list Z :=
  (fix go (acc : Z) (l : list bool) : list Z :=
     match l with
     | [] => []
     | b :: l' => let acc' := acc + Z.b2z b in acc' :: go acc' l'
     end) 0 l.

Definition embeds_cumsum (p : PlaceholderRange) : option (list Z) := cumsum <$> is_embed p.

Definition get_num_embeds (p : PlaceholderRange) : res Z :=
  match embeds_cumsum p with
  | None => Ok (pr_length p)
  | Some c => py_get c (-1)
  end.

(** Tensor indexing has Python's negative indices, so [end_idx = 0] reads the
    last entry of [embeds_cumsum]. *)
Definition get_embeds_indices_in_range (p : PlaceholderRange) (start_idx end_idx : Z)
  : res (Z * Z) :=
  match embeds_cumsum p with
  | None => Ok (start_idx, end_idx)
  | Some c =>
      s ← (if 0 <? start_idx then py_get c (start_idx - 1) else Ok 0);
      e ← py_get c (end_idx - 1);
      Ok (s, e)
  end.

Record MultiModalFeatureSpec := {
  identifier : string;
  mm_position : PlaceholderRange;
}.

Record RepetitionDetectionParams := {
  max_pattern_size : Z;
  min_pattern_size : Z;
  min_count : Z;
}.

Record SamplingParams := {
  sp_max_tokens : option Z;
  min_tokens : Z;
  eos_token_id : option Z;
  stop_token_ids : option (list Z);
  repetition_detection : option RepetitionDetectionParams;
  sp_skip_reading_prefix_cache : option bool;
  (** whether [StructuredOutputRequest.from_sampling_params] gives a request *)
  has_structured_outputs : bool;
}.

Record PoolingParams := { pp_task : option string; pp_skip_reading_prefix_cache : option bool }.

(** ** Status *)

Inductive RequestStatus :=
  | WAITING
  | WAITING_FOR_STRUCTURED_OUTPUT_GRAMMAR
  | WAITING_FOR_REMOTE_KVS
  | WAITING_FOR_STREAMING_REQ
  | RUNNING
  | PREEMPTED
  | FINISHED_STOPPED
  | FINISHED_LENGTH_CAPPED
  | FINISHED_ABORTED
  | FINISHED_IGNORED
  | FINISHED_ERROR
  | FINISHED_REPETITION.

#[export] Instance RequestStatus_eq_dec : EqDecision RequestStatus.
Proof. solve_decision. Defined.

(** [enum.auto()] numbers the members from 1 in declaration order. *)
Definition status_value (s : RequestStatus) : Z :=
  match s with
  | WAITING => 1
  | WAITING_FOR_STRUCTURED_OUTPUT_GRAMMAR => 2
  | WAITING_FOR_REMOTE_KVS => 3
  | WAITING_FOR_STREAMING_REQ => 4
  | RUNNING => 5
  | PREEMPTED => 6
  | FINISHED_STOPPED => 7
  | FINISHED_LENGTH_CAPPED => 8
  | FINISHED_ABORTED => 9
  | FINISHED_IGNORED => 10
  | FINISHED_ERROR => 11
  | FINISHED_REPETITION => 12
  end.

Definition status_is_finished (s : RequestStatus) : bool :=
  status_value PREEMPTED <? status_value s.

Inductive FinishReason := STOP | LENGTH | ABORT | ERROR | REPETITION.

(** [_FINISHED_REASON_MAP.get]. *)
Definition status_get_finished_reason (s : RequestStatus) : option FinishReason :=
  match s with
  | FINISHED_STOPPED => Some STOP
  | FINISHED_LENGTH_CAPPED => Some LENGTH
  | FINISHED_ABORTED => Some ABORT
  | FINISHED_IGNORED => Some LENGTH
  | FINISHED_ERROR => Some ERROR
  | WAITING_FOR_STREAMING_REQ => Some STOP
  | FINISHED_REPETITION => Some REPETITION
  | _ => None
  end.

(** ** The request object *)

(** The next part of a streaming session; [None] in a queue ends the session. *)
Record StreamingUpdate := {
  su_mm_features : option (list MultiModalFeatureSpec);
  su_prompt_token_ids : option (list Z);
  su_max_tokens : Z;
  su_arrival_time : Z;
  su_sampling_params : option SamplingParams;
}.

Record Request := mkRequest {
  request_id : string;
  oid : Z;
  client_index : Z;
  priority : Z;
  arrival_time : Z;
  sampling_params : option SamplingParams;
  pooling_params : option PoolingParams;
  lora_request : option LoRARequest;
  structured_output_request : bool;
  status : RequestStatus;
  stop_reason : option (Z + string);
  max_tokens : Z;
  prompt_token_ids : option (list Z);
  (** one raw row of bytes per token *)
  prompt_embeds : option (list bytes);
  prompt_embeds_per_block_hashes : gmap (Z * Z) bytes;
  num_prompt_tokens : Z;
  output_token_ids : list Z;
  all_token_ids : list Z;
  num_output_placeholders : Z;
  discard_latest_async_tokens : bool;
  spec_token_ids : list Z;
  num_computed_tokens : Z;
  cache_salt : option string;
  mm_features : list MultiModalFeatureSpec;
  num_cached_tokens : Z;
  is_prefill_chunk : bool;
  num_preemptions : Z;
  num_external_computed_tokens : Z;
  block_hashes : list bytes;
  (** [_block_hasher]: the block size it was built for *)
  block_hasher : option Z;
  skip_reading_prefix_cache : bool;
  resumable : bool;
  streaming_queue : option (list (option StreamingUpdate));
}.

Definition num_tokens (r : Request) : Z := zlen (all_token_ids r).
Definition num_tokens_with_spec (r : Request) : Z :=
  zlen (all_token_ids r) + zlen (spec_token_ids r).
Definition num_output_tokens (r : Request) : Z := zlen (output_token_ids r).
Definition num_encoder_inputs (r : Request) : Z := zlen (mm_features r).
Definition has_encoder_inputs (r : Request) : bool := 0 <? num_encoder_inputs r.
Definition use_structured_output (r : Request) : bool := structured_output_request r.
Definition is_finished (r : Request) : bool := status_is_finished (status r).
Definition get_finished_reason (r : Request) : option FinishReason :=
  status_get_finished_reason (status r).

Definition get_skip_reading_prefix_cache (sp : option SamplingParams) (pp : option PoolingParams)
  : bool :=
  match sp ≫= sp_skip_reading_prefix_cache with
  | Some b => b
  | None =>
      match pp ≫= pp_skip_reading_prefix_cache with
      | Some b => b
      | None => false
      end
  end.

Definition get_num_encoder_embeds (r : Request) (input_id : Z) : res Z :=
  if input_id <? zlen (mm_features r) then
    f ← py_get (mm_features r) input_id;
    get_num_embeds (mm_position f)
  else Raise AssertionError.

(** [utils/__init__.py]. *)
Definition length_from_prompt_token_ids_or_embeds
    (token_ids : option (list Z)) (embeds : option (list bytes)) : res Z :=
  match token_ids, embeds with
  | None, None => Raise ValueError
  | None, Some e => Ok (zlen e)
  | Some t, None => Ok (zlen t)
  | Some t, Some e => if zlen e =? zlen t then Ok (zlen t) else Raise ValueError
  end.

(** [Request.__init__] up to the call of [update_block_hashes] (which
    [Hashing.request_init] makes on the result). *)
Definition request_init_base
    (request_id : string) (oid : Z) (prompt_token_ids : option (list Z))
    (sampling_params : option SamplingParams) (pooling_params : option PoolingParams)
    (client_index arrival_time : Z) (prompt_embeds : option (list bytes))
    (mm_features : option (list MultiModalFeatureSpec)) (lora_request : option LoRARequest)
    (cache_salt : option string) (priority : Z) (block_hasher : option Z) (resumable : bool)
  : res Request :=
  let structured :=
    match sampling_params with Some sp => has_structured_outputs sp | None => false end in
  '(max_tokens, status) ←
    (match pooling_params, sampling_params with
     | Some _, _ => Ok (1, WAITING)
     | None, Some sp =>
         match sp_max_tokens sp with
         | None => Raise AssertionError
         | Some mt => Ok (mt, if structured then WAITING_FOR_STRUCTURED_OUTPUT_GRAMMAR else WAITING)
         end
     | None, None => Raise ValueError
     end);
  num_prompt_tokens ← length_from_prompt_token_ids_or_embeds prompt_token_ids prompt_embeds;
  Ok {| request_id := request_id; oid := oid; client_index := client_index;
        priority := priority; arrival_time := arrival_time;
        sampling_params := sampling_params; pooling_params := pooling_params;
        lora_request := lora_request; structured_output_request := structured;
        status := status; stop_reason := None; max_tokens := max_tokens;
        prompt_token_ids := prompt_token_ids; prompt_embeds := prompt_embeds;
        prompt_embeds_per_block_hashes := ∅; num_prompt_tokens := num_prompt_tokens;
        output_token_ids := [];
        all_token_ids :=
          match prompt_token_ids with
          | Some t => t
          | None => replicate (Z.to_nat num_prompt_tokens) 0
          end;
        num_output_placeholders := 0; discard_latest_async_tokens := false;
        spec_token_ids := []; num_computed_tokens := 0; cache_salt := cache_salt;
        mm_features := default [] mm_features; num_cached_tokens := -1;
        is_prefill_chunk := false; num_preemptions := 0;
        num_external_computed_tokens := 0; block_hashes := [];
        block_hasher := block_hasher;
        skip_reading_prefix_cache :=
          get_skip_reading_prefix_cache sampling_params pooling_params;
        resumable := resumable; streaming_queue := None |}.

(** [StreamingUpdate.from_request] *)
Definition streaming_update_from_request (r : Request) : option StreamingUpdate :=
  if resumable r then
    Some {| su_mm_features := Some (mm_features r); su_prompt_token_ids := prompt_token_ids r; su_max_tokens := max_tokens r;
            su_arrival_time := arrival_time r; su_sampling_params := sampling_params r |}
  else None.

(** [Request.__lt__]. *)
Definition request_lt (a b : Request) : bool :=
  if negb (priority a =? priority b) then priority a <? priority b
  else if negb (arrival_time a =? arrival_time b) then arrival_time a <? arrival_time b
  else if negb (String.eqb (request_id a) (request_id b))
       then String.ltb (request_id a) (request_id b)
  else oid a <? oid b.

(** ** Stop conditions *)

(** The inner loop of [_has_repeating_pattern] over [m]. *)
Fixpoint pattern_column (token_ids : list Z) (pattern_len n target : Z) (ms : list Z) : res bool :=
  match ms with
  | [] => Ok true
  | m :: ms' =>
      t ← py_get token_ids (- (pattern_len * m + n));
      if negb (t =? target) then Ok false else pattern_column token_ids pattern_len n target ms'
  end.

Fixpoint pattern_columns (token_ids : list Z) (pattern_len count : Z) (ns : list Z) : res bool :=
  match ns with
  | [] => Ok true
  | n :: ns' =>
      target ← py_get token_ids (- n);
      ok ← pattern_column token_ids pattern_len n target (py_range 1 count);
      if ok : bool then pattern_columns token_ids pattern_len count ns' else Ok false
  end.

Definition has_repeating_pattern (token_ids : list Z) (pattern_len repetition_min_count : Z)
  : res bool :=
  pattern_columns token_ids pattern_len repetition_min_count (py_range 1 (pattern_len + 1)).

Fixpoint repetition_loop (token_ids : list Z) (min_count : Z) (lens : list Z) : res bool :=
  match lens with
  | [] => Ok false
  | pattern_len :: lens' =>
      if zlen token_ids <? pattern_len * min_count then Ok false
      else
        found ← has_repeating_pattern token_ids pattern_len min_count;
        if found : bool then Ok true else repetition_loop token_ids min_count lens'
  end.

Definition check_sequence_repetition (token_ids : list Z) (params : RepetitionDetectionParams)
  : res bool :=
  let max_pattern := max_pattern_size params in
  let min_pattern := if min_pattern_size params <=? 0 then 1 else min_pattern_size params in
  if (max_pattern <=? 0) || (min_count params <? 2) || (max_pattern <? min_pattern)
  then Ok false
  else repetition_loop token_ids (min_count params) (py_range min_pattern (max_pattern + 1)).

Definition set_status (s : RequestStatus) (r : Request) : Request := {| r with status := s |}.
Definition set_stop_reason (s : Z + string) (r : Request) : Request :=
  {| r with stop_reason := Some s |}.

Definition check_stop (max_model_len : Z) : M Request bool :=
  r ← gets id;
  assert_ (match pooling_params r with None => true | Some _ => false end) ;;
  match sampling_params r with
  | None => raise AssertionError
  | Some sp =>
      if num_output_tokens r <? min_tokens sp then mret false
      else
        last_token_id ← lift_res (py_get (output_token_ids r) (-1));
        if bool_decide (Some last_token_id = eos_token_id sp) then
          modify (set_status FINISHED_STOPPED) ;; mret true
        else if bool_decide (last_token_id ∈ default [] (stop_token_ids sp)) then
          modify (set_status FINISHED_STOPPED) ;;
          modify (set_stop_reason (inl last_token_id)) ;; mret true
        else if (max_model_len <=? num_tokens r) || (max_tokens r <=? num_output_tokens r) then
          modify (set_status FINISHED_LENGTH_CAPPED) ;; mret true
        else
          match repetition_detection sp with
          | None => mret false
          | Some params =>
              rep ← lift_res (check_sequence_repetition (output_token_ids r) params);
              if rep : bool then
                modify (set_status FINISHED_REPETITION) ;;
                modify (set_stop_reason (inr "repetition_detected"%string)) ;; mret true
              else mret false
          end
  end.

(** ** Correctness of the repetition check *)

(** The last [count] blocks of [p] tokens of [l] are all equal. *)
Definition periodic_tail (l : list Z) (p count : nat) : Prop :=
  exists pre pat, List.length pat = p /\ l = pre ++ concat (replicate count pat).

Lemma length_concat_replicate {A} (pat : list A) c :
  List.length (concat (replicate c pat)) = (c * List.length pat)%nat.
Proof. induction c as [|c IH]; simpl; [done|]. by rewrite length_app, IH. Qed.

Lemma lookup_concat_replicate {A} (pat : list A) c m i :
  (m < c)%nat -> (i < List.length pat)%nat ->
  concat (replicate c pat) !! (m * List.length pat + i)%nat = pat !! i.
Proof.
  revert m. induction c as [|c IH]; intros m Hm Hi; [lia|]. simpl.
  destruct m as [|m]; simpl.
  - by rewrite lookup_app_l.
  - rewrite lookup_app_r by lia. rewrite <- (IH m) by lia. f_equal. lia.
Qed.

(** What the two nested loops compare. *)
Definition columns_equal (l : list Z) (p c : nat) : Prop :=
  forall n m, (1 <= n <= p)%nat -> (1 <= m < c)%nat ->
    l !! (List.length l - (p * m + n))%nat = l !! (List.length l - n)%nat.

Lemma periodic_tail_columns l p c : (1 <= c)%nat -> (p * c <= List.length l)%nat ->
  periodic_tail l p c <-> columns_equal l p c.
Proof.
  intros Hc Hlen. split.
  - intros (pre & pat & <- & ->) n m Hn Hm. set (p := List.length pat) in *.
    rewrite length_app, length_concat_replicate. fold p.
    assert (forall k, (k < c)%nat -> (pre ++ concat (replicate c pat))
              !! (List.length pre + c * p - (p * k + n))%nat = pat !! (p - n)%nat) as H.
    { intros k Hk. rewrite lookup_app_r by nia.
      rewrite <- (lookup_concat_replicate pat c (c - 1 - k)) by (fold p; lia). fold p.
      f_equal. nia. }
    rewrite H by lia. specialize (H 0%nat). rewrite Nat.mul_0_r, Nat.add_0_l in H.
    by rewrite H by lia.
  - intros Hcol. set (L := List.length l) in *.
    assert (p <= L)%nat as Hp by nia.
    exists (take (L - p * c) l), (drop (L - p) l). split; [rewrite length_drop; fold L; lia|].
    rewrite <- (take_drop (L - p * c) l) at 1. f_equal.
    assert (forall k, (k <= c)%nat -> drop (L - p * k) l = concat (replicate k (drop (L - p) l))) as H.
    { induction k as [|k IH]; intros Hk; simpl.
      - rewrite Nat.mul_0_r, Nat.sub_0_r. apply drop_ge. fold L. lia.
      - rewrite <- IH by lia. rewrite <- (take_drop p (drop (L - p * S k) l)), drop_drop.
        replace (L - p * S k + p)%nat with (L - p * k)%nat by nia. f_equal.
        apply list_eq_same_length with (n := p); [rewrite length_drop; fold L; lia| |].
        { rewrite length_take, length_drop. fold L. nia. }
        intros i x y Hi. rewrite lookup_take_lt, !lookup_drop by done. intros Hx Hy.
        destruct k as [|k].
        + rewrite Nat.mul_1_r in Hx. congruence.
        + pose proof (Hcol (p - i)%nat (S k) ltac:(lia) ltac:(lia)) as E. fold L in E.
          replace (L - (p * S k + (p - i)))%nat with (L - p * S (S k) + i)%nat in E by nia.
          replace (L - (p - i))%nat with (L - p + i)%nat in E by lia. congruence. }
    apply H. lia.
Qed.

Section pattern.
Context (l : list Z) (p c : nat).
Context (Hp : (1 <= p)%nat) (Hc : (1 <= c)%nat) (Hlen : (p * c <= List.length l)%nat).

Lemma py_get_tail k : (1 <= k <= List.length l)%nat ->
  exists t, py_get l (- Z.of_nat k) = Ok t /\ l !! (List.length l - k)%nat = Some t.
Proof.
  intros Hk. rewrite py_get_neg by done.
  destruct (lookup_lt_is_Some_2 l (List.length l - k)) as [t Ht]; [lia|].
  exists t. by rewrite Ht.
Qed.

Lemma pattern_column_spec n target k : (1 <= n <= p)%nat -> (1 <= k)%nat ->
  exists b, pattern_column l (Z.of_nat p) (Z.of_nat n) target (py_range (Z.of_nat k) (Z.of_nat c)) = Ok b
    /\ (b = true <-> forall m, (k <= m < c)%nat -> l !! (List.length l - (p * m + n))%nat = Some target).
Proof.
  intros Hn. remember (c - k)%nat as d eqn:Hd. revert k Hd.
  induction d as [|d IH]; intros k Hd Hk.
  - rewrite py_range_nil by lia. exists true. split; [done|]. split; [|done]. lia.
  - rewrite py_range_cons by lia. cbn [pattern_column].
    replace (- (Z.of_nat p * Z.of_nat k + Z.of_nat n)) with (- Z.of_nat (p * k + n)) by lia.
    destruct (py_get_tail (p * k + n)) as (t & -> & Ht); [nia|]. cbn [mbind res_bind].
    destruct (Z.eqb_spec t target) as [->|Hne]; cbn [negb].
    + replace (Z.of_nat k + 1) with (Z.of_nat (S k)) by lia.
      destruct (IH (S k)) as (b & -> & Hb); [lia..|]. exists b. split; [done|].
      rewrite Hb. split; intros H m Hm; [|apply H; lia].
      destruct (decide (m = k)) as [->|]; [done|apply H; lia].
    + exists false. split; [done|]. split; [done|]. intros H. specialize (H k ltac:(lia)). congruence.
Qed.

Lemma pattern_columns_spec k : (1 <= k)%nat ->
  exists b, pattern_columns l (Z.of_nat p) (Z.of_nat c) (py_range (Z.of_nat k) (Z.of_nat p + 1)) = Ok b
    /\ (b = true <-> forall n m, (k <= n <= p)%nat -> (1 <= m < c)%nat ->
          l !! (List.length l - (p * m + n))%nat = l !! (List.length l - n)%nat).
Proof.
  remember (p + 1 - k)%nat as d eqn:Hd. revert k Hd.
  induction d as [|d IH]; intros k Hd Hk.
  - rewrite py_range_nil by lia. exists true. split; [done|]. split; [|done]. lia.
  - rewrite py_range_cons by lia. cbn [pattern_columns].
    destruct (py_get_tail k) as (t & -> & Ht); [nia|]. cbn [mbind res_bind].
    destruct (pattern_column_spec k t 1) as (b1 & E1 & Hb1); [lia..|].
    change (py_range 1 _) with (py_range (Z.of_nat 1) (Z.of_nat c)).
    rewrite E1. cbn [mbind res_bind]. destruct b1.
    + replace (Z.of_nat k + 1) with (Z.of_nat (S k)) by lia.
      destruct (IH (S k)) as (b & -> & Hb); [lia..|]. exists b. split; [done|].
      rewrite Hb. split; intros H n m Hn Hm; [|apply H; lia].
      destruct (decide (n = k)) as [->|]; [|apply H; lia].
      rewrite Ht. by apply Hb1.
    + exists false. split; [done|]. split; [done|]. intros H.
      apply Hb1. intros m Hm. by rewrite H, Ht by lia.
Qed.

Lemma has_repeating_pattern_spec :
  exists b, has_repeating_pattern l (Z.of_nat p) (Z.of_nat c) = Ok b
    /\ (b = true <-> periodic_tail l p c).
Proof.
  destruct (pattern_columns_spec 1) as (b & E & Hb); [lia|]. exists b. split; [done|].
  rewrite periodic_tail_columns by done. apply Hb.
Qed.
End pattern.

Lemma repetition_loop_spec l c lo hi : (2 <= c)%nat -> 1 <= lo ->
  exists b, repetition_loop l (Z.of_nat c) (py_range lo (hi + 1)) = Ok b
    /\ (b = true <-> exists p : nat, lo <= Z.of_nat p <= hi
          /\ (p * c <= List.length l)%nat /\ periodic_tail l p c).
Proof.
  intros Hc. remember (Z.to_nat (hi + 1 - lo)) as d eqn:Hd. revert lo Hd.
  induction d as [|d IH]; intros lo Hd Hlo.
  - rewrite py_range_nil by lia. exists false. split; [done|]. split; [done|].
    intros (p & ? & _). lia.
  - rewrite py_range_cons by lia. cbn [repetition_loop]. unfold zlen.
    destruct (Z.ltb_spec (Z.of_nat (List.length l)) (lo * Z.of_nat c)) as [Hlt|Hge].
    + exists false. split; [done|]. split; [done|]. intros (p & ? & ? & _). nia.
    + destruct (has_repeating_pattern_spec l (Z.to_nat lo) c) as (b1 & E1 & Hb1); [lia..|nia|].
      rewrite Z2Nat.id in E1 by lia. rewrite E1. cbn [mbind res_bind]. destruct b1.
      * exists true. split; [done|]. split; [|done]. intros _. exists (Z.to_nat lo).
        split_and!; [lia..|nia|by apply Hb1].
      * destruct (IH (lo + 1)) as (b & -> & Hb); [lia..|]. exists b. split; [done|].
        rewrite Hb. split; intros (p & ? & ? & Hper).
        -- exists p. split_and!; [lia..|done].
        -- exists p. destruct (decide (Z.of_nat p = lo)) as [<-|]; [|split_and!; [lia..|done]].
           rewrite Nat2Z.id in Hb1. exfalso. by apply Hb1 in Hper.
Qed.

Lemma check_sequence_repetition_spec l params :
  exists b, check_sequence_repetition l params = Ok b
    /\ (b = true <-> 2 <= min_count params /\ exists p : nat,
          Z.max 1 (min_pattern_size params) <= Z.of_nat p <= max_pattern_size params
          /\ Z.of_nat p * min_count params <= zlen l
          /\ periodic_tail l p (Z.to_nat (min_count params))).
Proof.
  unfold check_sequence_repetition.
  set (lo := if min_pattern_size params <=? 0 then 1 else min_pattern_size params).
  assert (lo = Z.max 1 (min_pattern_size params)) as Hlo
    by (unfold lo; destruct (Z.leb_spec (min_pattern_size params) 0); lia).
  destruct (_ || _ || _) eqn:E.
  - exists false. split; [done|]. split; [done|]. intros (? & p & ? & _). lia.
  - breflect. destruct (repetition_loop_spec l (Z.to_nat (min_count params)) lo (max_pattern_size params))
      as (b & Eb & Hb); [lia..|].
    rewrite Z2Nat.id in Eb by lia. exists b. split; [done|]. rewrite Hb, <- Hlo. unfold zlen.
    split; [intros (p & ?)|intros (? & p & ?)]; repeat split; [lia|exists p|exists p]; intuition nia.
Qed.

(** ** Order of requests *)

Lemma ascii_compare_trans (a b c : Ascii.ascii) :
  Ascii.compare a b = Lt -> Ascii.compare b c = Lt -> Ascii.compare a c = Lt.
Proof. unfold Ascii.compare. rewrite !N.compare_lt_iff. lia. Qed.

Lemma ascii_compare_eq (a b : Ascii.ascii) : Ascii.compare a b = Eq -> a = b.
Proof. apply Ascii.compare_eq_iff. Qed.

Lemma string_compare_refl s : String.compare s s = Eq.
Proof.
  induction s as [|a s IH]; simpl; [done|].
  unfold Ascii.compare. by rewrite N.compare_refl.
Qed.

Lemma string_compare_trans s1 s2 s3 :
  String.compare s1 s2 = Lt -> String.compare s2 s3 = Lt -> String.compare s1 s3 = Lt.
Proof.
  revert s2 s3. induction s1 as [|a s1 IH]; intros [|b s2] [|c s3]; simpl; try done.
  destruct (Ascii.compare a b) eqn:E1; try done; destruct (Ascii.compare b c) eqn:E2; try done.
  - apply ascii_compare_eq in E1 as ->. rewrite E2. apply IH.
  - apply ascii_compare_eq in E1 as ->. by rewrite E2.
  - apply ascii_compare_eq in E2 as ->. by rewrite E1.
  - by rewrite (ascii_compare_trans _ _ _ E1 E2).
Qed.

Lemma string_ltb_trans s1 s2 s3 :
  String.ltb s1 s2 = true -> String.ltb s2 s3 = true -> String.ltb s1 s3 = true.
Proof.
  unfold String.ltb. destruct (String.compare s1 s2) eqn:E1; try done.
  destruct (String.compare s2 s3) eqn:E2; try done.
  by rewrite (string_compare_trans _ _ _ E1 E2).
Qed.

Lemma string_ltb_irrefl s : String.ltb s s = false.
Proof. unfold String.ltb. by rewrite string_compare_refl. Qed.

Lemma string_ltb_total s1 s2 : String.ltb s1 s2 = true \/ s1 = s2 \/ String.ltb s2 s1 = true.
Proof.
  unfold String.ltb. rewrite (String.compare_antisym s2 s1).
  destruct (String.compare s1 s2) eqn:E; simpl; auto.
  right; left. by apply String.compare_eq_iff.
Qed.

Lemma request_lt_spec a b : request_lt a b = true <->
  priority a < priority b \/ (priority a = priority b /\
    (arrival_time a < arrival_time b \/ (arrival_time a = arrival_time b /\
      (String.ltb (request_id a) (request_id b) = true \/
        (request_id a = request_id b /\ oid a < oid b))))).
Proof.
  unfold request_lt.
  destruct (Z.eqb_spec (priority a) (priority b)) as [Hp|Hp]; cbn [negb]; [|lia].
  destruct (Z.eqb_spec (arrival_time a) (arrival_time b)) as [Ht|Ht]; cbn [negb]; [|lia].
  destruct (String.eqb_spec (request_id a) (request_id b)) as [Hi|Hi]; cbn [negb].
  - rewrite Hi, string_ltb_irrefl, Z.ltb_lt. intuition lia.
  - intuition lia.
Qed.

Lemma request_lt_irrefl a : request_lt a a = false.
Proof. apply not_true_is_false. rewrite request_lt_spec, string_ltb_irrefl. intuition lia. Qed.

Lemma request_lt_trans a b c : request_lt a b = true -> request_lt b c = true -> request_lt a c = true.
Proof.
  rewrite !request_lt_spec.
  intros [|[? [|[? [|[Ei ?]]]]]] [|[? [|[? [|[Ej ?]]]]]]; try lia;
    right; (split; [lia|]); right; (split; [lia|]);
    first [left; by eapply string_ltb_trans | left; by rewrite <- Ej | left; by rewrite Ei
          |right; split; [congruence|lia]].
Qed.

Lemma request_lt_total a b : oid a <> oid b -> request_lt a b = true \/ request_lt b a = true.
Proof.
  intros Ho. rewrite !request_lt_spec.
  destruct (string_ltb_total (request_id a) (request_id b)) as [|[|]];
    destruct (Z.lt_trichotomy (priority a) (priority b)) as [|[|]];
    destruct (Z.lt_trichotomy (arrival_time a) (arrival_time b)) as [|[|]];
    destruct (Z.lt_trichotomy (oid a) (oid b)) as [|[|]]; intuition (lia || congruence).
Qed.

(** Requests of which neither precedes the other agree on all that is compared. *)
Lemma request_lt_cases a b : request_lt a b = true \/ request_lt b a = true
  \/ (priority a = priority b /\ arrival_time a = arrival_time b /\ request_id a = request_id b /\ oid a = oid b).
Proof.
  destruct (decide (oid a = oid b)) as [Ho|Ho]; [|by destruct (request_lt_total a b Ho); auto].
  rewrite !request_lt_spec.
  destruct (string_ltb_total (request_id a) (request_id b)) as [|[|]];
    destruct (Z.lt_trichotomy (priority a) (priority b)) as [|[|]];
    destruct (Z.lt_trichotomy (arrival_time a) (arrival_time b)) as [|[|]]; intuition (lia || congruence).
Qed.

(** ** Properties *)

(** [check_sequence_repetition] never raises, and it returns [True] exactly
    when repetition detection is enabled ([min_count >= 2]) and some pattern
    length between the bounds (a lower bound of 0 counts as 1) is repeated
    [min_count] times at the end of the tokens. *)
Theorem check_sequence_repetition_correct l params :
  exists b, check_sequence_repetition l params = Ok b
    /\ (b = true <-> 2 <= min_count params /\ exists p : nat,
          Z.max 1 (min_pattern_size params) <= Z.of_nat p <= max_pattern_size params
          /\ Z.of_nat p * min_count params <= zlen l
          /\ periodic_tail l p (Z.to_nat (min_count params))).
Proof. apply check_sequence_repetition_spec. Qed.

(** [Request.__lt__] is a strict total order on request objects: irreflexive,
    transitive, and any two objects with different identities are comparable, so
    the priority queue has a well-defined minimum. *)
Theorem request_lt_strict_total :
  (forall a, request_lt a a = false)
  /\ (forall a b c, request_lt a b = true -> request_lt b c = true -> request_lt a c = true)
  /\ (forall a b, oid a <> oid b -> request_lt a b = true \/ request_lt b a = true).
Proof. split; [exact request_lt_irrefl|]. split; [exact request_lt_trans|exact request_lt_total]. Qed.

(** [r'] is [r] except for the two fields that a stop sets. *)
Definition same_but_status (r r' : Request) : Prop :=
  r' = {| r with status := status r'; stop_reason := stop_reason r' |}.

(** A run that stops: what remains to be shown about its outcome. *)
Lemma stop_outcome (r r' : Request) (P : Prop) (Q : Request -> Prop) :
  P -> same_but_status r r' -> is_finished r' = true -> Q r' ->
  exists b r'', (Ok true, r') = (Ok b, r'') /\ (b = true <-> P) /\ (b = false -> r'' = r)
    /\ (b = true -> same_but_status r r'' /\ is_finished r'' = true /\ Q r'').
Proof. intros. exists true, r'. by split_and!. Qed.

(** C35: [check_stop] on a generation request with at least one output token never
    raises; it stops exactly when [min_tokens] is reached and one of the five
    stop conditions holds, it then leaves the request in a finished status whose
    finish reason is STOP for an EOS or stop token, LENGTH at a length cap and
    REPETITION otherwise, and it changes nothing but the status and the stop
    reason (nothing at all when it does not stop). *)
Theorem check_stop_correct (max_model_len : Z) (r : Request) (sp : SamplingParams) (t : Z)
  (Hsp : sampling_params r = Some sp) (Hpp : pooling_params r = None)
  (Ht : last (output_token_ids r) = Some t) :
  let stops := Some t = eos_token_id sp \/ t ∈ default [] (stop_token_ids sp) in
  let capped := max_model_len <= num_tokens r \/ max_tokens r <= num_output_tokens r in
  let repeats := exists ps, repetition_detection sp = Some ps
                   /\ check_sequence_repetition (output_token_ids r) ps = Ok true in
  exists b r', check_stop max_model_len r = (Ok b, r')
    /\ (b = true <-> min_tokens sp <= num_output_tokens r /\ (stops \/ capped \/ repeats))
    /\ (b = false -> r' = r)
    /\ (b = true ->
          same_but_status r r' /\ is_finished r' = true
          /\ (get_finished_reason r' = Some STOP <-> stops)
          /\ (get_finished_reason r' = Some LENGTH <-> ~ stops /\ capped)
          /\ (get_finished_reason r' = Some REPETITION <-> ~ stops /\ ~ capped)).
Proof.
  intros stops capped repeats.
  assert (stops <-> Some t = eos_token_id sp \/ t ∈ default [] (stop_token_ids sp)) as Es by done.
  assert (capped <-> max_model_len <= num_tokens r \/ max_tokens r <= num_output_tokens r) as Ec by done.
  assert (repeats <-> exists ps, repetition_detection sp = Some ps
            /\ check_sequence_repetition (output_token_ids r) ps = Ok true) as Er by done.
  clearbody stops capped repeats. unfold check_stop. msteps. rewrite Hpp, Hsp. msteps.
  destruct (Z.ltb_spec (num_output_tokens r) (min_tokens sp)) as [Hmin|Hmin].
  { msteps. exists false, r. split; [reflexivity|]. split; [split; [done|lia]|]. done. }
  rewrite (py_get_last _ _ Ht). msteps.
  case_bool_decide as Heos.
  { msteps. apply (stop_outcome _ _ _ (fun r' => _)); [tauto|done..|]. unfold get_finished_reason; simpl.
    split_and!; split; intuition done. }
  case_bool_decide as Hstop.
  { msteps. apply (stop_outcome _ _ _ (fun r' => _)); [tauto|done..|]. unfold get_finished_reason; simpl.
    split_and!; split; intuition done. }
  assert (~ stops) as Hns by tauto.
  destruct (_ || _) eqn:Hcap.
  { assert capped by (apply Ec; lia). msteps. apply (stop_outcome _ _ _ (fun r' => _)); [tauto|done..|].
    unfold get_finished_reason; simpl. split_and!; split; intuition done. }
  assert (~ capped) as Hnc by (rewrite Ec; lia).
  destruct (repetition_detection sp) as [ps|] eqn:Hrd.
  2: { msteps. exists false, r. split; [reflexivity|]. split; [|done]. split; [done|].
       intros (_ & [|[|H]]); [done..|]. apply Er in H as (ps & ? & _). done. }
  destruct (check_sequence_repetition_spec (output_token_ids r) ps) as (b & Hb & _).
  rewrite Hb. msteps. destruct b; msteps.
  - assert repeats by (apply Er; eauto). apply (stop_outcome _ _ _ (fun r' => _)); [tauto|done..|].
    unfold get_finished_reason; simpl. split_and!; split; intuition done.
  - exists false, r. split; [reflexivity|]. split; [|done]. split; [done|].
    intros (_ & [|[|H]]); [done..|]. apply Er in H as (ps' & [= ->] & ?). congruence.
Qed.

Definition demo_sampling : SamplingParams :=
  {| sp_max_tokens := Some 8; min_tokens := 1; eos_token_id := Some 2; stop_token_ids := Some [7];
     repetition_detection := Some {| max_pattern_size := 2; min_pattern_size := 0; min_count := 3 |};
     sp_skip_reading_prefix_cache := None; has_structured_outputs := false |}.

(** A request of 3 prompt tokens that has generated [out]. *)
Definition demo_request (out : list Z) : Request :=
  match request_init_base "r0" 0 (Some [11; 12; 13]) (Some demo_sampling) None 0 0 None None None
          None 0 None false with
  | Ok r => {| r with output_token_ids := out; all_token_ids := [11; 12; 13] ++ out |}
  | Raise _ => mkRequest "" 0 0 0 0 None None None false WAITING None 0 None None ∅ 0 [] [] 0 false []
                 0 None [] 0 false 0 0 [] None false false None
  end.

Lemma check_stop_correct_witness :
  exists b r', check_stop 100 (demo_request [4; 5; 4; 5; 4; 5]) = (Ok b, r') /\ b = true
    /\ get_finished_reason r' = Some REPETITION.
Proof.
  destruct (check_stop_correct 100 (demo_request [4; 5; 4; 5; 4; 5]) demo_sampling 5
              eq_refl eq_refl eq_refl) as (b & r' & Hrun & Hb & _ & Hr).
  exists b, r'. vm_compute in Hrun. injection Hrun as <- <-. split_and!; reflexivity.
Defined.
