(* ===== verification/Hashing.v ===== *)
(** Block hashes: the prefix-cache keys of [v1/core/kv_cache_utils.py] and the
    methods of [v1/request.py] that keep a request's [block_hashes] up to date.

    The hash function ([caching_hash_fn]), SHA-256 and the process-wide
    [NONE_HASH] are parameters: nothing but being functions is assumed of them,
    except where a theorem says so. *)

From S2P Require Import Prelude Request.
From Stdlib Require Import Strings.Byte.
Local Open Scope Z_scope.

(** ** Packing a hash with its KV-cache group *)

Definition make_block_hash_with_group_id (block_hash : bytes) (group_id : Z) : res bytes :=
  b ← int_to_bytes_big group_id 4;
  Ok (block_hash ++ b).

Definition get_block_hash (key : bytes) : bytes := py_upto key (-4).
Definition get_group_id (key : bytes) : Z := int_from_bytes_big (py_from key (-4)).

(** [ExternalBlockHash]: bytes or int. *)
Definition ExternalBlockHash : Type := bytes + Z.

(** The flag is [envs.VLLM_KV_EVENTS_USE_INT_BLOCK_HASHES]. *)
Definition maybe_convert_block_hash (use_int : bool) (hash_bytes : bytes) : ExternalBlockHash :=
  if negb use_int then inl hash_bytes
  else inr (Z.land (int_from_bytes_big hash_bytes) (Z.shiftl 1 64 - 1)).

(** ** Extra keys *)

(** The Python values that occur as extra keys: a LoRA name or a cache salt, a
    multimodal identifier with its relative offset, a hash of prompt embeddings. *)
Inductive extra_key :=
  | KStr (s : string)
  | KMM (mm_hash : string) (start_offset : Z)
  | KBytes (b : bytes).

#[export] Instance extra_key_eq_dec : EqDecision extra_key.
Proof. solve_decision. Defined.
#[export, refine] Instance extra_key_countable : Countable extra_key :=
  inj_countable'
    (fun k => match k with KStr s => inl s | KMM s o => inr (inl (s, o)) | KBytes b => inr (inr b) end)
    (fun x => match x with inl s => KStr s | inr (inl (s, o)) => KMM s o | inr (inr b) => KBytes b end) _.
Proof. by intros []. Defined.

Definition need_extra_keys (request : Request) : bool :=
  negb (bool_decide (mm_features request = []))
  || bool_decide (is_Some (lora_request request))
  || bool_decide (is_Some (cache_salt request)).

(** The [while] loop of [_gen_mm_extra_hash_keys]; [feats] is what is left of
    [mm_features] from [curr_mm_idx] on. *)
Fixpoint mm_keys_loop (start_token_idx end_token_idx : Z) (feats : list MultiModalFeatureSpec)
    (curr_mm_idx : Z) : list extra_key * Z :=
  match feats with
  | [] => ([], curr_mm_idx)
  | mm_feature :: rest =>
      let offset := pr_offset (mm_position mm_feature) in
      let length := pr_length (mm_position mm_feature) in
      if offset <? end_token_idx then
        if offset + length <=? start_token_idx then
          mm_keys_loop start_token_idx end_token_idx rest (curr_mm_idx + 1)
        else
          let key := KMM (identifier mm_feature) (offset - start_token_idx) in
          if offset + length <=? end_token_idx then
            let '(keys, idx) := mm_keys_loop start_token_idx end_token_idx rest (curr_mm_idx + 1) in
            (key :: keys, idx)
          else ([key], curr_mm_idx)
      else ([], curr_mm_idx)
  end.

Definition gen_mm_extra_hash_keys (request : Request) (start_token_idx end_token_idx start_mm_idx : Z)
  : res (list extra_key * Z) :=
  let feats := mm_features request in
  match last feats with
  | None => Ok ([], start_mm_idx)
  | Some last_feature =>
      let last_pos := mm_position last_feature in
      if pr_offset last_pos + pr_length last_pos <=? start_token_idx then Ok ([], start_mm_idx)
      else
        start ← (if start_mm_idx <? 0 then
                   if - start_mm_idx <=? zlen feats then Ok (zlen feats + start_mm_idx)
                   else Raise AssertionError
                 else Ok start_mm_idx);
        Ok (mm_keys_loop start_token_idx end_token_idx (drop (Z.to_nat start) feats) start)
  end.

Definition gen_lora_extra_hash_keys (request : Request) : list extra_key :=
  match lora_request request with
  | None => []
  | Some l => [KStr (lora_name l)]
  end.

Section hashing.
Context (hash_function : bytes * list Z * option (list extra_key) -> bytes).
Context (sha256 : bytes -> bytes) (NONE_HASH : bytes).

(** The hash of a range of prompt embeddings is cached on the request. *)
Definition gen_prompt_embeds_extra_hash_keys (start_token_idx end_token_idx : Z)
  : M Request (list extra_key) :=
  request ← gets id;
  match prompt_embeds request with
  | None => mret []
  | Some embeds =>
      let block_range := (start_token_idx, end_token_idx) in
      match prompt_embeds_per_block_hashes request !! block_range with
      | Some embeds_hash => mret [KBytes embeds_hash]
      | None =>
          let embeds_hash := sha256 (concat (py_slice embeds start_token_idx end_token_idx)) in
          modify (fun r => {| r with prompt_embeds_per_block_hashes :=
            <[block_range := embeds_hash]> (prompt_embeds_per_block_hashes r) |}) ;;
          mret [KBytes embeds_hash]
      end
  end.

Definition generate_block_hash_extra_keys (start_token_idx end_token_idx start_mm_idx : Z)
  : M Request (option (list extra_key) * Z) :=
  request ← gets id;
  mm ← lift_res (gen_mm_extra_hash_keys request start_token_idx end_token_idx start_mm_idx);
  let '(mm_extra_keys, new_start_mm_idx) := mm in
  let lora_extra_keys := gen_lora_extra_hash_keys request in
  let cache_salt_keys :=
    match cache_salt request with
    | Some salt => if (start_token_idx =? 0) && negb (String.eqb salt "") then [KStr salt] else []
    | None => []
    end in
  prompt_embeds_keys ← gen_prompt_embeds_extra_hash_keys start_token_idx end_token_idx;
  let extra_keys := lora_extra_keys ++ mm_extra_keys ++ cache_salt_keys ++ prompt_embeds_keys in
  match extra_keys with
  | [] => mret (None, new_start_mm_idx)
  | _ => mret (Some extra_keys, new_start_mm_idx)
  end.

(** [None] and the empty byte string are both false. *)
Definition hash_block_tokens (parent_block_hash : option bytes) (curr_block_token_ids : list Z)
    (extra_keys : option (list extra_key)) : bytes :=
  let parent :=
    match parent_block_hash with
    | None | Some [] => NONE_HASH
    | Some h => h
    end in
  hash_function (parent, curr_block_token_ids, extra_keys).

(** The [while True] loop of [request_block_hasher], on fuel. *)
Fixpoint hasher_loop (fuel : nat) (block_size num_tokens start_token_idx curr_mm_idx : Z)
    (prev_block_hash_value : option bytes) (new_block_hashes : list bytes)
  : M Request (list bytes) :=
  match fuel with
  | O => raise Diverges
  | S fuel' =>
      let end_token_idx := start_token_idx + block_size in
      if num_tokens <? end_token_idx then mret new_block_hashes
      else
        ek ← generate_block_hash_extra_keys start_token_idx end_token_idx curr_mm_idx;
        let '(extra_keys, curr_mm_idx') := ek in
        request ← gets id;
        let block_tokens := py_slice (all_token_ids request) start_token_idx end_token_idx in
        let block_hash := hash_block_tokens prev_block_hash_value block_tokens extra_keys in
        hasher_loop fuel' block_size num_tokens end_token_idx curr_mm_idx' (Some block_hash)
          (new_block_hashes ++ [block_hash])
  end.

(** [get_request_block_hasher(block_size, caching_hash_fn)(request)].  One unit of
    fuel per token is enough when [block_size] is positive. *)
Definition request_block_hasher (block_size : Z) : M Request (list bytes) :=
  request ← gets id;
  let start_token_idx := zlen (block_hashes request) * block_size in
  let num_tokens := num_tokens request in
  if num_tokens <? start_token_idx + block_size then mret []
  else
    let curr_mm_idx := if 0 <? start_token_idx then -1 else 0 in
    let prev_block_hash_value := last (block_hashes request) in
    hasher_loop (S (Z.to_nat num_tokens)) block_size num_tokens start_token_idx curr_mm_idx
      prev_block_hash_value [].

(** [Request.update_block_hashes] *)
Definition update_block_hashes : M Request unit :=
  request ← gets id;
  match block_hasher request with
  | None => mret tt
  | Some block_size =>
      new ← request_block_hasher block_size;
      modify (fun r => {| r with block_hashes := block_hashes r ++ new |})
  end.

(** [Request.append_output_token_ids]; a single id is a list of one. *)
Definition append_output_token_ids (token_ids : list Z) : M Request unit :=
  modify (fun r => {| r with output_token_ids := output_token_ids r ++ token_ids;
                             all_token_ids := all_token_ids r ++ token_ids |}) ;;
  update_block_hashes.

(** [Request.__init__]: [base] is [request_init_base] of the arguments. *)
Definition request_init (base : res Request) : res Request :=
  r ← base;
  match update_block_hashes r with
  | (Ok _, r') => Ok r'
  | (Raise e, _) => Raise e
  end.

End hashing.

(** ** Hashes at a coarser block size *)

(** [BlockHashList]: a plain list, or the view of [BlockHashListWithBlockSize]. *)
Inductive BlockHashList :=
  | Hashes (block_hashes : list bytes)
  | HashesWithBlockSize (block_hashes : list bytes) (scale_factor : Z).

(** [BlockHashListWithBlockSize.__init__] *)
Definition with_block_size (block_hashes : list bytes) (hash_block_size target_block_size : Z)
  : res BlockHashList :=
  if hash_block_size =? 0 then Raise ZeroDivisionError
  else if target_block_size mod hash_block_size =? 0
       then Ok (HashesWithBlockSize block_hashes (target_block_size / hash_block_size))
       else Raise AssertionError.

Definition bhl_len (l : BlockHashList) : Z :=
  match l with
  | Hashes hs => zlen hs
  | HashesWithBlockSize hs scale_factor => zlen hs / scale_factor
  end.

(** [for i in range(base + 1, end): merged_hash += self.block_hashes\[i\]] *)
Fixpoint merge_hashes (hs : list bytes) (is_ : list Z) (merged_hash : bytes) : res bytes :=
  match is_ with
  | [] => Ok merged_hash
  | i :: is' => h ← py_get hs i; merge_hashes hs is' (merged_hash ++ h)
  end.

(** [_get_value_at] *)
Definition get_value_at (hs : list bytes) (scale_factor idx : Z) : res bytes :=
  let base := idx * scale_factor in
  let end_ := base + scale_factor in
  merged_hash ← py_get hs base;
  merge_hashes hs (py_range (base + 1) end_) merged_hash.

Definition bhl_get (l : BlockHashList) (idx : Z) : res bytes :=
  match l with
  | Hashes hs => py_get hs idx
  | HashesWithBlockSize hs scale_factor => get_value_at hs scale_factor idx
  end.

Fixpoint values_at (hs : list bytes) (scale_factor : Z) (is_ : list Z) : res (list bytes) :=
  match is_ with
  | [] => Ok []
  | i :: is' => v ← get_value_at hs scale_factor i; vs ← values_at hs scale_factor is'; Ok (v :: vs)
  end.

(** [l\[start:stop\]]; [slice.indices] clamps as a list slice does. *)
Definition bhl_slice (l : BlockHashList) (start stop : Z) : res (list bytes) :=
  match l with
  | Hashes hs => Ok (py_slice hs start stop)
  | HashesWithBlockSize hs scale_factor =>
      let n := bhl_len l in
      values_at hs scale_factor (py_range (py_clamp n start) (py_clamp n stop))
  end.

(** [list(l)], what a [for] loop over the list sees. *)
Definition bhl_list (l : BlockHashList) : res (list bytes) :=
  match l with
  | Hashes hs => Ok hs
  | HashesWithBlockSize hs scale_factor => values_at hs scale_factor (py_range 0 (bhl_len l))
  end.

(** ** Pack and unpack *)

Lemma get_block_hash_app h k : length k = 4%nat -> get_block_hash (h ++ k) = h.
Proof.
  intros Hk. unfold get_block_hash, py_upto, py_clamp, py_index. rewrite length_app, Hk.
  replace (-4 <? 0) with true by done. rewrite Z.min_r, Z.max_r by lia.
  replace (Z.to_nat _) with (length h) by lia. by rewrite take_app_length.
Qed.

Lemma get_group_id_app h k : length k = 4%nat -> get_group_id (h ++ k) = int_from_bytes_big k.
Proof.
  intros Hk. unfold get_group_id, py_from, py_clamp, py_index. rewrite length_app, Hk.
  replace (-4 <? 0) with true by done. rewrite Z.min_r, Z.max_r by lia.
  replace (Z.to_nat _) with (length h) by lia. by rewrite drop_app_length.
Qed.

Lemma make_block_hash_with_group_id_ok h g : 0 <= g < 2 ^ 32 ->
  exists key, make_block_hash_with_group_id h g = Ok key
    /\ get_block_hash key = h /\ get_group_id key = g.
Proof.
  intros Hg. unfold make_block_hash_with_group_id, int_to_bytes_big.
  replace ((0 <=? g) && (g <? 256 ^ Z.of_nat 4)) with true
    by (change (256 ^ Z.of_nat 4) with (2 ^ 32); lia).
  exists (h ++ to_bytes_big_aux 4 g). split; [done|].
  rewrite get_block_hash_app, get_group_id_app by apply length_to_bytes_big_aux.
  split; [done|]. by apply int_from_to_bytes_big.
Qed.

Lemma make_block_hash_with_group_id_inj h h' g g' key :
  make_block_hash_with_group_id h g = Ok key -> make_block_hash_with_group_id h' g' = Ok key ->
  h = h' /\ g = g'.
Proof.
  assert (forall h g key, make_block_hash_with_group_id h g = Ok key ->
            get_block_hash key = h /\ get_group_id key = g) as H.
  { intros h0 g0 k0 E. destruct (decide (0 <= g0 < 2 ^ 32)) as [Hg|Hg].
    - destruct (make_block_hash_with_group_id_ok h0 g0 Hg) as (k & Ek & ? & ?).
      rewrite Ek in E. by injection E as <-.
    - unfold make_block_hash_with_group_id, int_to_bytes_big in E.
      replace ((0 <=? g0) && (g0 <? 256 ^ Z.of_nat 4)) with false in E; [done|].
      change (256 ^ Z.of_nat 4) with (2 ^ 32). lia. }
  intros [? ?]%H [? ?]%H. by subst.
Qed.

(** ** Reference definition of a request's block hashes *)

Definition mm_end (f : MultiModalFeatureSpec) : Z :=
  pr_offset (mm_position f) + pr_length (mm_position f).
Definition mm_start (f : MultiModalFeatureSpec) : Z := pr_offset (mm_position f).

(** Inputs are in prompt order, not empty and do not overlap. *)
Fixpoint mm_sorted (feats : list MultiModalFeatureSpec) : Prop :=
  match feats with
  | [] => True
  | f :: rest => mm_start f < mm_end f /\ Forall (fun g => mm_end f <= mm_start g) rest
                 /\ mm_sorted rest
  end.

(** The inputs that have a token in [\[a, b)]. *)
Definition mm_overlapping (a b : Z) (feats : list MultiModalFeatureSpec) : list extra_key :=
  (fun f => KMM (identifier f) (mm_start f - a)) <$>
    filter (fun f => mm_start f < b /\ a < mm_end f) feats.

Section reference.
Context (hash_function : bytes * list Z * option (list extra_key) -> bytes).
Context (sha256 : bytes -> bytes) (NONE_HASH : bytes).

Definition block_extra_keys (r : Request) (a b : Z) : option (list extra_key) :=
  match gen_lora_extra_hash_keys r ++ mm_overlapping a b (mm_features r)
        ++ (match cache_salt r with
            | Some salt => if (a =? 0) && negb (String.eqb salt "") then [KStr salt] else []
            | None => []
            end)
        ++ (match prompt_embeds r with
            | Some e => [KBytes (sha256 (concat (py_slice e a b)))]
            | None => []
            end) with
  | [] => None
  | keys => Some keys
  end.

(** What the hash of block [k] covers besides its prefix. *)
Definition block_content (r : Request) (bs : Z) (k : nat) : list Z * option (list extra_key) :=
  let a := Z.of_nat k * bs in
  (py_slice (all_token_ids r) a (a + bs), block_extra_keys r a (a + bs)).

Fixpoint chain (prev : option bytes) (contents : list (list Z * option (list extra_key)))
  : list bytes :=
  match contents with
  | [] => []
  | (tokens, keys) :: rest =>
      let h := hash_block_tokens hash_function NONE_HASH prev tokens keys in
      h :: chain (Some h) rest
  end.

(** The hashes of the first [n] blocks, computed from nothing. *)
Definition reference_hashes (r : Request) (bs : Z) (n : nat) : list bytes :=
  chain None (block_content r bs <$> seq 0 n).

Lemma chain_app prev l1 l2 :
  chain prev (l1 ++ l2) = chain prev l1
    ++ chain (match last (chain prev l1) with Some h => Some h | None => prev end) l2.
Proof.
  revert prev. induction l1 as [|[t e] l1 IH]; intros prev; [done|].
  cbn [app chain]. rewrite IH. f_equal. f_equal. f_equal.
  rewrite last_cons. by repeat case_match; simplify_eq.
Qed.

Lemma length_chain prev l : length (chain prev l) = length l.
Proof. revert prev. induction l as [|[t e] l IH]; intros prev; simpl; [done|]. by rewrite IH. Qed.

Lemma reference_hashes_S r bs n :
  reference_hashes r bs (S n) = reference_hashes r bs n
    ++ [hash_block_tokens hash_function NONE_HASH (last (reference_hashes r bs n))
          (block_content r bs n).1 (block_content r bs n).2].
Proof.
  unfold reference_hashes. rewrite seq_S, fmap_app, chain_app. f_equal. cbn [fmap list_fmap chain].
  destruct (block_content r bs (0 + n)) as [t e] eqn:E. cbn [plus] in E. rewrite E. cbn [fst snd].
  by destruct (last _).
Qed.

Lemma length_reference_hashes r bs n : length (reference_hashes r bs n) = n.
Proof. unfold reference_hashes. by rewrite length_chain, length_fmap, length_seq. Qed.

End reference.

(** ** The multimodal keys of a block *)

Lemma mm_overlapping_drop a b c feats :
  Forall (fun f => mm_end f <= a) (take c feats) ->
  mm_overlapping a b (drop c feats) = mm_overlapping a b feats.
Proof.
  intros H. unfold mm_overlapping. rewrite <- (take_drop c feats) at 2.
  rewrite filter_app, (filter_none _ (take c feats)); [done|].
  intros f Hf. rewrite Forall_forall in H. specialize (H f Hf). lia.
Qed.

Lemma mm_sorted_drop c feats : mm_sorted feats -> mm_sorted (drop c feats).
Proof.
  revert c. induction feats as [|f feats IH]; intros [|c]; simpl; try done.
  intros (_ & _ & H). by apply IH.
Qed.

(** The loop collects the overlapping inputs and stops at the first one that
    reaches beyond the block. *)
Lemma mm_keys_loop_spec a b feats i : a < b -> mm_sorted feats ->
  exists n, mm_keys_loop a b feats i = (mm_overlapping a b feats, i + Z.of_nat n)
    /\ (n <= length feats)%nat /\ Forall (fun f => mm_end f <= b) (take n feats).
Proof.
  intros Hab. revert i. induction feats as [|f feats IH]; intros i Hs; simpl.
  { exists 0%nat. rewrite Z.add_0_r. by split_and!. }
  destruct Hs as (Hf & Hlt & Hs). 
  change (pr_offset (mm_position f) + pr_length (mm_position f)) with (mm_end f).
  change (pr_offset (mm_position f)) with (mm_start f).
  assert (forall c, c <= mm_end f -> filter (fun g => mm_start g < c /\ a < mm_end g) feats = []) as Hnone.
  { intros c Hc. apply filter_none. intros g Hg. rewrite Forall_forall in Hlt.
    specialize (Hlt g Hg). simpl in Hlt. lia. }
  unfold mm_overlapping in *.
  destruct (Z.ltb_spec (mm_start f) b) as [Hb|Hb].
  - destruct (IH (i + 1) Hs) as (n & En & Hn & Hend).
    destruct (Z.leb_spec (mm_end f) a) as [Ha|Ha].
    + rewrite filter_cons_False by lia. exists (S n). rewrite En.
      replace (i + 1 + Z.of_nat n) with (i + Z.of_nat (S n)) by lia.
      split_and!; [done|lia|]. constructor; [lia|done].
    + rewrite filter_cons_True by lia. cbn [fmap list_fmap].
      destruct (Z.leb_spec (mm_end f) b) as [He|He].
      * rewrite En. exists (S n). replace (i + 1 + Z.of_nat n) with (i + Z.of_nat (S n)) by lia.
        split_and!; [done|lia|]. by constructor.
      * exists 0%nat. rewrite Hnone by lia. rewrite Z.add_0_r. split_and!; [done|lia|constructor].
  - rewrite filter_cons_False by lia. exists 0%nat. rewrite Z.add_0_r.
    rewrite filter_none; [split_and!; [done|lia|constructor]|].
    intros g Hg. rewrite Forall_forall in Hlt. specialize (Hlt g Hg). simpl in Hlt. lia.
Qed.

(** [curr_mm_idx], with [-1] for the last input, skips only inputs that end
    before [start]. *)
Definition mm_idx_ok (feats : list MultiModalFeatureSpec) (idx start : Z) : Prop :=
  -1 <= idx /\
  Forall (fun f => mm_end f <= start)
    (take (Z.to_nat (if idx <? 0 then zlen feats + idx else idx)) feats).

Lemma mm_sorted_last feats l : mm_sorted (feats ++ [l]) ->
  Forall (fun f => mm_end f <= mm_end l) (feats ++ [l]).
Proof.
  induction feats as [|g feats IH]; simpl; [by constructor|]. intros (Hg & Hlt & Hs).
  constructor; [|by apply IH]. apply Forall_app in Hlt as [_ Hlt]. apply Forall_cons in Hlt as [Hlt _].
  assert (mm_sorted [l]) as (? & _); [|lia].
  replace [l] with (drop (length feats) (feats ++ [l])) by by rewrite drop_app_length.
  by apply mm_sorted_drop.
Qed.

Lemma gen_mm_extra_hash_keys_spec r a b idx : a < b -> mm_sorted (mm_features r) ->
  mm_idx_ok (mm_features r) idx a ->
  exists idx', gen_mm_extra_hash_keys r a b idx = Ok (mm_overlapping a b (mm_features r), idx')
    /\ mm_idx_ok (mm_features r) idx' b.
Proof.
  intros Hab Hs [Hi Hidx]. unfold gen_mm_extra_hash_keys. set (feats := mm_features r) in *.
  destruct (last feats) as [l|] eqn:Hl.
  2: { apply last_None in Hl. rewrite Hl in *. exists idx. split; [done|]. split; [done|].
       by rewrite take_nil. }
  pose proof Hl as (feats' & Efeats)%last_Some. 
  change (pr_offset (mm_position l) + pr_length (mm_position l)) with (mm_end l).
  destruct (Z.leb_spec (mm_end l) a) as [Ha|Ha].
  { exists idx. assert (Forall (fun f => mm_end f <= a) feats) as Hall.
    { rewrite Efeats in *. eapply Forall_impl; [by apply mm_sorted_last|]. simpl. lia. }
    split.
    - f_equal. f_equal. unfold mm_overlapping. rewrite filter_none; [done|].
      intros f Hf. rewrite Forall_forall in Hall. specialize (Hall f Hf). simpl in Hall. lia.
    - split; [done|]. apply Forall_take. eapply Forall_impl; [exact Hall|]. simpl. lia. }
  set (c := if idx <? 0 then zlen feats + idx else idx) in *.
  assert (0 < zlen feats) by (rewrite Efeats, zlen_app, zlen_cons; pose proof (zlen_nonneg feats'); unfold zlen; simpl; lia).
  assert ((if idx <? 0 then if - idx <=? zlen feats then Ok (zlen feats + idx) else Raise AssertionError
           else Ok idx) = Ok c) as ->.
  { unfold c. destruct (Z.ltb_spec idx 0); [|done]. by replace (- idx <=? zlen feats) with true by lia. }
  assert (0 <= c) by (unfold c; destruct (Z.ltb_spec idx 0); lia).
  cbn [mbind res_bind].
  destruct (mm_keys_loop_spec a b (drop (Z.to_nat c) feats) c Hab) as (n & -> & Hn & Hend);
    [by apply mm_sorted_drop|].
  rewrite mm_overlapping_drop by done. eexists. split; [done|]. split; [lia|].
  replace (c + Z.of_nat n <? 0) with false by lia.
  replace (Z.to_nat (c + Z.of_nat n)) with (Z.to_nat c + n)%nat by lia.
  replace (take (Z.to_nat c + n) feats) with (take (Z.to_nat c) feats ++ take n (drop (Z.to_nat c) feats)).
  - apply Forall_app. split; [|done]. eapply Forall_impl; [exact Hidx|]. simpl. lia.
  - rewrite take_take_drop. done.
Qed.

(** ** Incremental hashing computes the reference hashes *)

Section incremental.
Context (hash_function : bytes * list Z * option (list extra_key) -> bytes).
Context (sha256 : bytes -> bytes) (NONE_HASH : bytes).

Abbreviation reference := (reference_hashes hash_function sha256 NONE_HASH).
Abbreviation hasher := (request_block_hasher hash_function sha256 NONE_HASH).
Abbreviation append_tokens := (append_output_token_ids hash_function sha256 NONE_HASH).

(** Only the cache of prompt-embedding hashes may differ. *)
Definition same_but_cache (r r' : Request) : Prop :=
  r' = {| r with prompt_embeds_per_block_hashes := prompt_embeds_per_block_hashes r' |}.

Lemma same_but_cache_refl r : same_but_cache r r.
Proof. by destruct r. Qed.

(** The cached hashes are those of the ranges they are filed under. *)
Definition embeds_cache_ok (r : Request) : Prop :=
  forall a b h, prompt_embeds_per_block_hashes r !! (a, b) = Some h ->
    exists e, prompt_embeds r = Some e /\ h = sha256 (concat (py_slice e a b)).

Lemma gen_prompt_embeds_spec r a b : embeds_cache_ok r ->
  exists r', gen_prompt_embeds_extra_hash_keys sha256 a b r
      = (Ok (match prompt_embeds r with
             | Some e => [KBytes (sha256 (concat (py_slice e a b)))]
             | None => []
             end), r')
    /\ same_but_cache r r' /\ embeds_cache_ok r'.
Proof.
  intros Hc. unfold gen_prompt_embeds_extra_hash_keys. msteps.
  destruct (prompt_embeds r) as [e|] eqn:He; [|exists r; by (split; [done|split; [apply same_but_cache_refl|done]])].
  destruct (prompt_embeds_per_block_hashes r !! (a, b)) as [h|] eqn:Hh.
  - apply Hc in Hh as (e' & He' & ->). rewrite He in He'. injection He' as <-.
    exists r. by (split; [done|split; [apply same_but_cache_refl|done]]).
  - msteps. eexists. split_and!; [reflexivity|done|].
    intros a' b' h. cbn. destruct (decide ((a', b') = (a, b))) as [[= -> ->]|Hne].
    + rewrite lookup_insert_eq. intros [= <-]. by exists e.
    + rewrite lookup_insert_ne by done. apply Hc.
Qed.

Lemma generate_block_hash_extra_keys_spec r a b idx : a < b ->
  mm_sorted (mm_features r) -> mm_idx_ok (mm_features r) idx a -> embeds_cache_ok r ->
  exists idx' r', generate_block_hash_extra_keys sha256 a b idx r
      = (Ok (block_extra_keys sha256 r a b, idx'), r')
    /\ mm_idx_ok (mm_features r) idx' b /\ same_but_cache r r' /\ embeds_cache_ok r'.
Proof.
  intros Hab Hs Hidx Hc. unfold generate_block_hash_extra_keys. msteps.
  destruct (gen_mm_extra_hash_keys_spec r a b idx Hab Hs Hidx) as (idx' & -> & Hidx'). msteps.
  destruct (gen_prompt_embeds_spec r a b Hc) as (r' & Hrun & Hr' & Hc').
  rewrite (bind_ok _ _ _ _ _ Hrun). exists idx', r'. split; [|done].
  unfold block_extra_keys. by destruct (gen_lora_extra_hash_keys r ++ _).
Qed.

(** What a step of the loop leaves unchanged. *)
Lemma block_content_same r r' bs k : same_but_cache r r' ->
  block_content sha256 r' bs k = block_content sha256 r bs k.
Proof. by intros ->. Qed.
Lemma reference_same r r' bs n : same_but_cache r r' -> reference r' bs n = reference r bs n.
Proof. by intros ->. Qed.
Lemma same_but_cache_trans r1 r2 r3 :
  same_but_cache r1 r2 -> same_but_cache r2 r3 -> same_but_cache r1 r3.
Proof. unfold same_but_cache. by intros -> ->. Qed.

Lemma hasher_loop_spec bs n : 0 < bs -> forall fuel d k r idx acc,
  num_tokens r = n -> (k + d)%nat = Z.to_nat (n / bs) -> (d < fuel)%nat ->
  mm_sorted (mm_features r) -> mm_idx_ok (mm_features r) idx (Z.of_nat k * bs) -> embeds_cache_ok r ->
  exists r', hasher_loop hash_function sha256 NONE_HASH fuel bs n (Z.of_nat k * bs) idx
        (last (reference r bs k)) acc r
      = (Ok (acc ++ drop k (reference r bs (k + d))), r')
    /\ same_but_cache r r' /\ embeds_cache_ok r'.
Proof.
  intros Hbs fuel. induction fuel as [|fuel IH]; intros d k r idx acc Hn Hd Hf Hs Hidx Hc; [lia|].
  pose proof (zlen_nonneg (all_token_ids r)) as Hpos. fold (num_tokens r) in Hpos. rewrite Hn in Hpos.
  pose proof (Z.div_mod n bs ltac:(lia)) as Hdm. pose proof (Z.mod_pos_bound n bs Hbs) as Hmod.
  assert (0 <= n / bs) by (apply Z.div_pos; lia). cbn [hasher_loop].
  destruct d as [|d].
  - replace (n <? Z.of_nat k * bs + bs) with true by nia. exists r.
    rewrite drop_ge, app_nil_r by (rewrite length_reference_hashes; lia).
    by (split; [done|split; [apply same_but_cache_refl|done]]).
  - replace (n <? Z.of_nat k * bs + bs) with false by nia.
    destruct (generate_block_hash_extra_keys_spec r (Z.of_nat k * bs) (Z.of_nat k * bs + bs) idx)
      as (idx' & r1 & E1 & Hidx1 & Hr1 & Hc1); [lia|done..|].
    rewrite (bind_ok _ _ _ _ _ E1). msteps.
    set (h := hash_block_tokens _ _ _ _ _).
    assert (reference r bs (S k) = reference r bs k ++ [h]) as HS.
    { rewrite reference_hashes_S. unfold block_content. cbn [fst snd]. unfold h.
      by replace (all_token_ids r1) with (all_token_ids r) by by rewrite Hr1. }
    replace (Z.of_nat k * bs + bs) with (Z.of_nat (S k) * bs) in * by lia.
    destruct (IH d (S k) r1 idx' (acc ++ [h])) as (r2 & E2 & Hr2 & Hc2);
      [by rewrite Hr1|lia|lia|by rewrite Hr1|by rewrite Hr1|done|].
    replace (last (reference r1 bs (S k))) with (Some h) in E2
      by (rewrite (reference_same _ _ _ _ Hr1), HS; by rewrite last_snoc).
    exists r2. rewrite E2. split; [|split; [by eapply same_but_cache_trans|done]].
    rewrite (reference_same _ _ _ _ Hr1). f_equal. f_equal.
    rewrite <- app_assoc. f_equal. replace (k + S d)%nat with (S k + d)%nat by lia.
    assert (exists l, reference r bs (S k + d) = reference r bs (S k) ++ l) as [l ->].
    { unfold reference_hashes. rewrite seq_app, fmap_app, chain_app. eauto. }
    rewrite HS. rewrite drop_app_length' by (rewrite length_app, length_reference_hashes; simpl; lia).
    rewrite <- app_assoc. by rewrite drop_app_length' by (by rewrite length_reference_hashes).
Qed.

(** Inputs other than the last one do not reach into a block that is completed
    by generated tokens, unless it is the first block. *)
Definition mm_tail_ok (bs : Z) (r : Request) : Prop :=
  Forall (fun f => mm_end f <= Z.max bs (num_prompt_tokens r / bs * bs))
    (take (length (mm_features r) - 1) (mm_features r)).

(** What the hash of a block depends on besides the tokens. *)
Definition hash_inputs (r : Request) :=
  (lora_request r, cache_salt r, mm_features r, prompt_embeds r, num_prompt_tokens r).

Lemma reference_ext r r' bs n : hash_inputs r' = hash_inputs r -> all_token_ids r' = all_token_ids r ->
  reference r' bs n = reference r bs n.
Proof.
  intros [= E1 E2 E3 E4 _] E. unfold reference_hashes, block_content, block_extra_keys,
    gen_lora_extra_hash_keys. by rewrite E1, E2, E3, E4, E.
Qed.

(** The state of a request between calls. *)
Record hashed (bs : Z) (r : Request) : Prop := {
  hashed_hasher : block_hasher r = Some bs;
  hashed_prompt : num_prompt_tokens r <= num_tokens r;
  hashed_sorted : mm_sorted (mm_features r);
  hashed_tail : mm_tail_ok bs r;
  hashed_cache : embeds_cache_ok r;
  hashed_hashes : block_hashes r = reference r bs (Z.to_nat (num_tokens r / bs));
}.

Lemma mm_idx_ok_last bs r k : 0 < bs -> mm_tail_ok bs r ->
  (k = 0 \/ (1 <= k /\ num_prompt_tokens r / bs <= k)) ->
  mm_idx_ok (mm_features r) (if 0 <? k * bs then -1 else 0) (k * bs).
Proof.
  intros Hbs Ht Hk. destruct Hk as [->|[Hk1 Hk2]].
  - rewrite Z.mul_0_l. split; [done|]. constructor.
  - replace (0 <? k * bs) with true by nia. split; [done|]. cbn.
    replace (Z.to_nat (zlen (mm_features r) + -1)) with (length (mm_features r) - 1)%nat
      by (unfold zlen; lia).
    eapply Forall_impl; [exact Ht|]. simpl. intros f Hf. nia.
Qed.

(** [update_block_hashes] from a request whose first [k] blocks are hashed. *)
Lemma update_block_hashes_spec bs r (k : nat) : 0 < bs ->
  block_hasher r = Some bs -> mm_sorted (mm_features r) -> mm_tail_ok bs r -> embeds_cache_ok r ->
  (Z.of_nat k = 0 \/ (1 <= Z.of_nat k /\ num_prompt_tokens r / bs <= Z.of_nat k)) ->
  Z.of_nat k <= num_tokens r / bs -> block_hashes r = reference r bs k ->
  exists r', update_block_hashes hash_function sha256 NONE_HASH r = (Ok tt, r')
    /\ r' = {| r with block_hashes := reference r bs (Z.to_nat (num_tokens r / bs));
                      prompt_embeds_per_block_hashes := prompt_embeds_per_block_hashes r' |}
    /\ embeds_cache_ok r'.
Proof.
  intros Hbs Hh Hs Ht Hc Hk Hkn Hbh. unfold update_block_hashes. msteps. rewrite Hh.
  pose proof (Z.div_mod (num_tokens r) bs ltac:(lia)) as Hdm.
  pose proof (Z.mod_pos_bound (num_tokens r) bs Hbs) as Hmod.
  assert (zlen (block_hashes r) = Z.of_nat k) as Hlen
    by (unfold zlen; by rewrite Hbh, length_reference_hashes).
  assert (exists r', request_block_hasher hash_function sha256 NONE_HASH bs r
            = (Ok (drop k (reference r bs (Z.to_nat (num_tokens r / bs)))), r')
            /\ same_but_cache r r' /\ embeds_cache_ok r') as (r1 & E1 & Hr1 & Hc1).
  { unfold request_block_hasher. msteps. rewrite Hlen.
    destruct (Z.ltb_spec (num_tokens r) (Z.of_nat k * bs + bs)) as [Hlt|Hge].
    - exists r. rewrite drop_ge by (rewrite length_reference_hashes; nia).
      split; [done|]. split; [apply same_but_cache_refl|done].
    - destruct (hasher_loop_spec bs (num_tokens r) Hbs (S (Z.to_nat (num_tokens r)))
                  (Z.to_nat (num_tokens r / bs) - k) k r (if 0 <? Z.of_nat k * bs then -1 else 0) [])
        as (r1 & E1 & Hr1 & Hc1); [done|lia|nia|done|by eapply mm_idx_ok_last|done|].
      exists r1. split; [|done]. rewrite Hbh, E1.
      by replace (k + (Z.to_nat (num_tokens r / bs) - k))%nat
        with (Z.to_nat (num_tokens r / bs)) by lia. }
  rewrite (bind_ok _ _ _ _ _ E1). msteps. eexists. split; [reflexivity|]. split; [|exact Hc1].
  rewrite Hr1. cbn. rewrite Hbh. f_equal; [|done].
  assert (Z.to_nat (num_tokens r / bs) = k + (Z.to_nat (num_tokens r / bs) - k))%nat as -> by lia.
  unfold reference_hashes. rewrite seq_app, fmap_app, chain_app.
  rewrite drop_app_length' by (by rewrite length_chain, length_fmap, length_seq). done.
Qed.

Lemma reference_append r bs toks (n : nat) : 0 < bs -> Z.of_nat n <= num_tokens r / bs ->
  reference {| r with all_token_ids := all_token_ids r ++ toks |} bs n = reference r bs n.
Proof.
  intros Hbs Hn. unfold reference_hashes. f_equal. apply list_fmap_ext.
  intros i k Hk. apply lookup_seq in Hk as [-> Hi]. unfold block_content. f_equal.
  pose proof (Z.mul_div_le (num_tokens r) bs Hbs). cbn [all_token_ids].
  unfold num_tokens in *. rewrite !py_slice_nonneg
    by (rewrite ?zlen_app; pose proof (zlen_nonneg toks); nia).
  unfold zlen in *. rewrite drop_app_le by nia. apply take_app_le. rewrite length_drop. nia.
Qed.

Lemma append_output_token_ids_spec bs r toks : 0 < bs -> hashed bs r ->
  exists r', append_tokens toks r = (Ok tt, r') /\ hashed bs r'
    /\ all_token_ids r' = all_token_ids r ++ toks
    /\ hash_inputs r' = hash_inputs r.
Proof.
  intros Hbs [Hh Hp Hs Ht Hc Hbh]. unfold append_output_token_ids. msteps.
  set (r1 := {| r with output_token_ids := output_token_ids r ++ toks;
                       all_token_ids := all_token_ids r ++ toks |}).
  assert (num_tokens r1 = num_tokens r + zlen toks) as Hn1 by (unfold num_tokens; cbn; by rewrite zlen_app).
  pose proof (zlen_nonneg toks). pose proof (zlen_nonneg (all_token_ids r)) as Hpos.
  fold (num_tokens r) in Hpos.
  assert (num_tokens r / bs <= num_tokens r1 / bs) by (apply Z.div_le_mono; lia).
  assert (0 <= num_tokens r / bs) by (apply Z.div_pos; lia).
  assert (num_prompt_tokens r / bs <= num_tokens r / bs) by (apply Z.div_le_mono; lia).
  destruct (update_block_hashes_spec bs r1 (Z.to_nat (num_tokens r / bs)) Hbs)
    as (r' & E & Hr' & Hc'); try done.
  { cbn. lia. } { lia. }
  { cbn [block_hashes r1]. rewrite Hbh. symmetry. apply (reference_append r bs toks); lia. }
  assert (num_tokens r' = num_tokens r1) as Hn' by by rewrite Hr'.
  exists r'. split; [done|]. split; [split|split]; try by rewrite Hr'.
  - rewrite Hn'. rewrite Hr'. cbn. lia.
  - done.
Qed.

(** A request as [request_init_base] builds it, before its first hashing. *)
Record unhashed (bs : Z) (r : Request) : Prop := {
  unhashed_hasher : block_hasher r = Some bs;
  unhashed_prompt : num_prompt_tokens r <= num_tokens r;
  unhashed_sorted : mm_sorted (mm_features r);
  unhashed_tail : mm_tail_ok bs r;
  unhashed_cache : prompt_embeds_per_block_hashes r = ∅;
  unhashed_hashes : block_hashes r = [];
}.

Lemma request_init_spec bs r : 0 < bs -> unhashed bs r ->
  exists r', request_init hash_function sha256 NONE_HASH (Ok r) = Ok r' /\ hashed bs r'
    /\ all_token_ids r' = all_token_ids r /\ hash_inputs r' = hash_inputs r.
Proof.
  intros Hbs [Hh Hp Hs Ht Hc Hbh].
  pose proof (zlen_nonneg (all_token_ids r)). fold (num_tokens r) in *.
  assert (0 <= num_tokens r / bs) by (apply Z.div_pos; lia).
  destruct (update_block_hashes_spec bs r 0 Hbs) as (r' & E & Hr' & Hc'); try done; [|by left|].
  { intros a b h. by rewrite Hc, lookup_empty. }
  exists r'. cbn. rewrite E. assert (num_tokens r' = num_tokens r) as Hn by by rewrite Hr'.
  split; [done|]. split; [split|split]; try by rewrite Hr'.
  - done.
Qed.

Lemma append_chunks_spec bs chunks : 0 < bs -> forall r, hashed bs r ->
  exists r', mfor chunks append_tokens r = (Ok tt, r') /\ hashed bs r'
    /\ all_token_ids r' = all_token_ids r ++ concat chunks /\ hash_inputs r' = hash_inputs r.
Proof.
  intros Hbs. induction chunks as [|c chunks IH]; intros r Hr; cbn [mfor concat].
  - exists r. by rewrite app_nil_r.
  - destruct (append_output_token_ids_spec bs r c Hbs Hr) as (r1 & E1 & H1 & Ha1 & Hi1).
    rewrite (bind_ok _ _ _ _ _ E1). destruct (IH r1 H1) as (r2 & E2 & H2 & Ha2 & Hi2).
    exists r2. split_and!; [done|done| |congruence]. by rewrite Ha2, Ha1, app_assoc.
Qed.

(** C23: Incremental hashing agrees with hashing from scratch.  A request is
    built over its prompt and then generates tokens in any number of chunks; at
    the end its [block_hashes] are those of a fresh request built over all the
    tokens at once, one per full block.  No call raises, and no loop runs out of
    fuel.  The multimodal inputs must be in order, not overlapping, and only the
    last one may reach into a block, after the first, that generated tokens complete (see
    [partial_block_ignores_earlier_input] for what happens otherwise). *)
Theorem incremental_hashes_match_scratch (bs : Z) (r0 : Request) (chunks : list (list Z))
  (Hbs : 0 < bs) (Hr0 : unhashed bs r0) :
  exists r1 r2 r3,
    request_init hash_function sha256 NONE_HASH (Ok r0) = Ok r1
    /\ mfor chunks append_tokens r1 = (Ok tt, r2)
    /\ all_token_ids r2 = all_token_ids r0 ++ concat chunks
    /\ request_init hash_function sha256 NONE_HASH (Ok {| r0 with all_token_ids := all_token_ids r2 |}) = Ok r3
    /\ block_hashes r2 = block_hashes r3
    /\ zlen (block_hashes r2) = num_tokens r2 / bs.
Proof.
  destruct (request_init_spec bs r0 Hbs Hr0) as (r1 & E1 & H1 & Ha1 & Hi1).
  destruct (append_chunks_spec bs chunks Hbs r1 H1) as (r2 & E2 & H2 & Ha2 & Hi2).
  assert (num_tokens r0 <= num_tokens r2).
  { unfold num_tokens. rewrite Ha2, Ha1, zlen_app. pose proof (zlen_nonneg (concat chunks)). lia. }
  destruct (request_init_spec bs {| r0 with all_token_ids := all_token_ids r2 |} Hbs)
    as (r3 & E3 & H3 & Ha3 & Hi3).
  { destruct Hr0. split; try done. change (num_tokens {| r0 with all_token_ids := _ |}) with (num_tokens r2).
    cbn. lia. }
  exists r1, r2, r3. rewrite (hashed_hashes _ _ H2), (hashed_hashes _ _ H3).
  assert (num_tokens r3 = num_tokens r2) as -> by (unfold num_tokens; by rewrite Ha3).
  split_and!; try done.
  - by rewrite Ha2, Ha1.
  - apply reference_ext; [|by rewrite Ha3]. rewrite Hi2, Hi1, Hi3. done.
  - unfold zlen. rewrite length_reference_hashes. pose proof (Z.div_pos (num_tokens r2) bs).
    pose proof (zlen_nonneg (all_token_ids r2)). fold (num_tokens r2) in *. lia.
Qed.

End incremental.

(** ** Equal hashes mean equal content *)

Section injective.
Context (hash_function : bytes * list Z * option (list extra_key) -> bytes).
Context (sha256 : bytes -> bytes) (NONE_HASH : bytes).
Context (Hinj : Inj (=) (=) hash_function).
Context (Hnone : forall x, hash_function x <> NONE_HASH) (Hne : forall x, hash_function x <> []).

Abbreviation reference := (reference_hashes hash_function sha256 NONE_HASH).

Lemma reference_prefix r bs m n : (m <= n)%nat -> take m (reference r bs n) = reference r bs m.
Proof.
  intros Hm. replace n with (m + (n - m))%nat by lia.
  unfold reference_hashes. rewrite seq_app, fmap_app, chain_app.
  by rewrite take_app_length' by (by rewrite length_chain, length_fmap, length_seq).
Qed.

Lemma reference_lookup r bs n i h : reference r bs n !! i = Some h ->
  h = hash_block_tokens hash_function NONE_HASH (last (reference r bs i))
        (block_content sha256 r bs i).1 (block_content sha256 r bs i).2.
Proof.
  intros Hi. pose proof (lookup_lt_Some _ _ _ Hi) as Hlt. rewrite length_reference_hashes in Hlt.
  rewrite <- (lookup_take_lt _ (S i)), (reference_prefix r bs (S i) n) in Hi by lia.
  rewrite reference_hashes_S, lookup_app_r in Hi by (by rewrite length_reference_hashes).
  rewrite length_reference_hashes, Nat.sub_diag in Hi. by injection Hi as <-.
Qed.

Lemma reference_last r bs n i : (S i <= n)%nat ->
  last (reference r bs (S i)) = reference r bs n !! i.
Proof.
  intros Hi. rewrite last_lookup, length_reference_hashes. cbn [pred].
  rewrite <- (reference_prefix r bs (S i) n Hi), lookup_take_lt by lia. done.
Qed.

(** Blocks with the same hash sit at the same position and have the same content
    and the same prefix. *)
Lemma reference_inj r1 r2 bs n1 n2 i j h :
  reference r1 bs n1 !! i = Some h -> reference r2 bs n2 !! j = Some h ->
  i = j /\ forall k, (k <= i)%nat -> block_content sha256 r1 bs k = block_content sha256 r2 bs k.
Proof.
  revert j h. induction i as [|i IH]; intros j h H1 H2;
    pose proof (reference_lookup _ _ _ _ _ H1) as E1; pose proof (reference_lookup _ _ _ _ _ H2) as E2;
    apply lookup_lt_Some in H1, H2; rewrite length_reference_hashes in H1, H2;
    unfold hash_block_tokens in E1, E2; rewrite E1 in E2; apply Hinj in E2; clear E1 h;
    (destruct j as [|j]; [|rewrite (reference_last r2 bs n2 j) in E2 by lia;
      destruct (lookup_lt_is_Some_2 (reference r2 bs n2) j) as [h2 Hh2];
        [rewrite length_reference_hashes; lia|];
      pose proof (reference_lookup _ _ _ _ _ Hh2) as E; unfold hash_block_tokens in E;
      destruct h2 as [|b2 h2]; [by edestruct Hne|]; rewrite Hh2 in E2]).
  - split; [done|]. intros k Hk. replace k with 0%nat by lia.
    cbn in E2. injection E2 as Ea Eb. apply injective_projections; [exact Ea|exact Eb].
  - exfalso. cbn in E2. injection E2 as Ea _ _. rewrite E in Ea. by eapply Hnone.
  - exfalso.
    rewrite (reference_last r1 bs n1 i) in E2 by lia.
    destruct (lookup_lt_is_Some_2 (reference r1 bs n1) i) as [h1 Hh1]; [rewrite length_reference_hashes; lia|].
    pose proof (reference_lookup _ _ _ _ _ Hh1) as E. unfold hash_block_tokens in E.
    destruct h1 as [|b1 h1]; [by edestruct Hne|]. rewrite Hh1 in E2. cbn in E2.
    injection E2 as Ea _ _. rewrite E in Ea. by eapply Hnone.
  - rewrite (reference_last r1 bs n1 i) in E2 by lia.
    destruct (lookup_lt_is_Some_2 (reference r1 bs n1) i) as [h1 Hh1]; [rewrite length_reference_hashes; lia|].
    destruct h1 as [|b1 h1].
    { pose proof (reference_lookup _ _ _ _ _ Hh1) as E'. by edestruct Hne. }
    rewrite Hh1 in E2. injection E2 as <- <- Ea Eb.
    destruct (IH j (b1 :: h1) Hh1 Hh2) as [<- Hk]. split; [done|]. intros k Hk'.
    destruct (decide (k = S i)) as [->|]; [|apply Hk; lia].
    apply injective_projections; [exact Ea|exact Eb].
Qed.

End injective.

(** ** Lists of hashes at a coarser block size *)

Lemma merge_hashes_spec hs (a n : nat) acc : (a + n <= length hs)%nat ->
  merge_hashes hs (py_range (Z.of_nat a) (Z.of_nat (a + n))) acc
  = Ok (acc ++ concat (take n (drop a hs))).
Proof.
  revert a acc. induction n as [|n IH]; intros a acc Hn.
  - rewrite py_range_nil by lia. simpl. by rewrite app_nil_r.
  - rewrite py_range_cons by lia. cbn [merge_hashes]. rewrite py_get_nonneg, Nat2Z.id by lia.
    destruct (lookup_lt_is_Some_2 hs a) as [h Hh]; [lia|]. rewrite Hh. cbn [mbind res_bind res_of_option].
    replace (Z.of_nat a + 1) with (Z.of_nat (S a)) by lia.
    replace (a + S n)%nat with (S a + n)%nat by lia. rewrite IH by lia.
    rewrite (drop_S _ _ _ Hh). cbn [take concat]. by rewrite app_assoc.
Qed.

(** The merged hash of block [i]: the hashes of the [s] small blocks it covers. *)
Definition merged (hs : list bytes) (s i : nat) : bytes := concat (take s (drop (i * s) hs)).

Lemma get_value_at_spec hs (s i : nat) : (1 <= s)%nat -> (S i * s <= length hs)%nat ->
  get_value_at hs (Z.of_nat s) (Z.of_nat i) = Ok (merged hs s i).
Proof.
  intros Hs Hi. unfold get_value_at, merged. rewrite py_get_nonneg by lia.
  replace (Z.to_nat (Z.of_nat i * Z.of_nat s)) with (i * s)%nat by lia.
  destruct (lookup_lt_is_Some_2 hs (i * s)) as [h Hh]; [lia|].
  rewrite Hh. cbn [mbind res_bind res_of_option].
  replace (Z.of_nat i * Z.of_nat s + 1) with (Z.of_nat (S (i * s))) by lia.
  replace (Z.of_nat i * Z.of_nat s + Z.of_nat s) with (Z.of_nat (S (i * s) + (s - 1))) by lia.
  rewrite merge_hashes_spec by lia. rewrite (drop_S _ _ _ Hh).
  destruct s as [|s]; [lia|]. cbn [take concat]. by replace (S s - 1)%nat with s by lia.
Qed.

Lemma values_at_spec hs (s a n : nat) : (1 <= s)%nat -> ((a + n) * s <= length hs)%nat ->
  values_at hs (Z.of_nat s) (py_range (Z.of_nat a) (Z.of_nat (a + n))) = Ok (merged hs s <$> seq a n).
Proof.
  intros Hs. revert a. induction n as [|n IH]; intros a Hn.
  - by rewrite py_range_nil by lia.
  - rewrite py_range_cons by lia. cbn [values_at]. rewrite get_value_at_spec by lia.
    replace (Z.of_nat a + 1) with (Z.of_nat (S a)) by lia.
    replace (a + S n)%nat with (S a + n)%nat by lia. cbn [mbind res_bind].
    rewrite IH by lia. done.
Qed.

Lemma with_block_size_spec hs (hbs s : nat) : (1 <= hbs)%nat ->
  with_block_size hs (Z.of_nat hbs) (Z.of_nat (s * hbs)) = Ok (HashesWithBlockSize hs (Z.of_nat s)).
Proof.
  intros Hh. unfold with_block_size. replace (Z.of_nat hbs =? 0) with false by lia.
  rewrite Nat2Z.inj_mul, Z.mod_mul, Z.div_mul by lia. done.
Qed.

(** ** Properties *)

(** [make_block_hash_with_group_id] packs a hash of any length with a group id
    of four bytes, [get_block_hash] and [get_group_id] recover both, and a group
    id that is negative or does not fit raises [OverflowError]; so two keys are
    equal only when hash and group are. *)
Theorem block_hash_with_group_id_roundtrip :
  (forall h g, 0 <= g < 2 ^ 32 -> exists key, make_block_hash_with_group_id h g = Ok key
     /\ get_block_hash key = h /\ get_group_id key = g)
  /\ (forall h g, ~ 0 <= g < 2 ^ 32 -> make_block_hash_with_group_id h g = Raise OverflowError)
  /\ (forall h h' g g' key, make_block_hash_with_group_id h g = Ok key ->
        make_block_hash_with_group_id h' g' = Ok key -> h = h' /\ g = g').
Proof.
  split_and!.
  - apply make_block_hash_with_group_id_ok.
  - intros h g Hg. unfold make_block_hash_with_group_id, int_to_bytes_big.
    replace ((0 <=? g) && (g <? 256 ^ Z.of_nat 4)) with false; [done|].
    change (256 ^ Z.of_nat 4) with (2 ^ 32). lia.
  - intros h h' g g' key. apply make_block_hash_with_group_id_inj.
Qed.

(** Lists that agree block by block have the same prefix. *)
Lemma same_blocks_same_prefix (bs : Z) (l1 l2 : list Z) (n : nat) : 0 < bs -> Z.of_nat n <= zlen l1 / bs -> Z.of_nat n <= zlen l2 / bs ->
  (forall k : nat, (k < n)%nat -> py_slice l1 (Z.of_nat k * bs) (Z.of_nat k * bs + bs) = py_slice l2 (Z.of_nat k * bs) (Z.of_nat k * bs + bs)) ->
  take (Z.to_nat (Z.of_nat n * bs)) l1 = take (Z.to_nat (Z.of_nat n * bs)) l2.
Proof.
  intros Hbs H1 H2 Hk. pose proof (Z.mul_div_le (zlen l1) bs Hbs). pose proof (Z.mul_div_le (zlen l2) bs Hbs).
  induction n as [|n IH]; [done|]. specialize (IH ltac:(lia) ltac:(lia) ltac:(intros k ?; apply Hk; lia)).
  specialize (Hk n ltac:(lia)). rewrite !py_slice_nonneg in Hk by nia.
  replace (Z.to_nat (Z.of_nat (S n) * bs)) with (Z.to_nat (Z.of_nat n * bs) + Z.to_nat bs)%nat by lia.
  rewrite <- !take_take_drop, IH. f_equal.
  by replace (Z.to_nat (Z.of_nat n * bs + bs - Z.of_nat n * bs)) with (Z.to_nat bs) in Hk by lia.
Qed.

(** C22: A block hash identifies the content of the block and of everything before
    it.  If the hash function is injective, never returns the seed [NONE_HASH]
    and never returns an empty hash, then two requests, each built over its prompt and
    then extended by any chunks of generated tokens, that have the same hash
    among their [block_hashes] have it at the same position, agree on all tokens
    up to the end of that block, and on the lists of extra keys of every block up to
    it.  The multimodal inputs of each request must be in order, not overlapping, and only the last
    one may reach into a block, after the first, that generated tokens complete
    ([partial_block_ignores_earlier_input]).  The lists of extra keys hold the LoRA name, the
    multimodal inputs with their positions, the salt and the prompt embeddings, but a LoRA name and an equal
    salt are the same key ([lora_name_collides_with_cache_salt]). *)
Theorem equal_block_hash_equal_prefix hash_function sha256 NONE_HASH
  (Hinj : Inj (=) (=) hash_function) (Hnone : forall x, hash_function x <> NONE_HASH)
  (Hne : forall x, hash_function x <> []) (bs : Z) (r1 r2 x1 x2 r1' r2' : Request) (chunks1 chunks2 : list (list Z))
  (i j : nat) (h : bytes) (Hbs : 0 < bs) (Hr1 : unhashed bs r1) (Hr2 : unhashed bs r2)
  (Hi1 : request_init hash_function sha256 NONE_HASH (Ok r1) = Ok x1)
  (Hi2 : request_init hash_function sha256 NONE_HASH (Ok r2) = Ok x2)
  (Hc1 : mfor chunks1 (append_output_token_ids hash_function sha256 NONE_HASH) x1 = (Ok tt, r1'))
  (Hc2 : mfor chunks2 (append_output_token_ids hash_function sha256 NONE_HASH) x2 = (Ok tt, r2'))
  (H1 : block_hashes r1' !! i = Some h) (H2 : block_hashes r2' !! j = Some h) :
  i = j
  /\ take (Z.to_nat ((Z.of_nat i + 1) * bs)) (all_token_ids r1 ++ concat chunks1)
     = take (Z.to_nat ((Z.of_nat i + 1) * bs)) (all_token_ids r2 ++ concat chunks2)
  /\ forall k, 0 <= k <= Z.of_nat i ->
       block_extra_keys sha256 r1' (k * bs) (k * bs + bs) = block_extra_keys sha256 r2' (k * bs) (k * bs + bs).
Proof.
  assert (forall r x r' cs, unhashed bs r -> request_init hash_function sha256 NONE_HASH (Ok r) = Ok x ->
    mfor cs (append_output_token_ids hash_function sha256 NONE_HASH) x = (Ok tt, r') ->
    hashed hash_function sha256 NONE_HASH bs r' /\ all_token_ids r' = all_token_ids r ++ concat cs) as Hbuilt.
  { intros r x r' cs Hr Hi Hc. destruct (request_init_spec hash_function sha256 NONE_HASH bs r Hbs Hr) as (y & Ey & Hy & Ty & _).
    rewrite Hi in Ey. injection Ey as <-. destruct (append_chunks_spec hash_function sha256 NONE_HASH bs cs Hbs x Hy) as (z & Ez & Hz & Tz & _).
    rewrite Hc in Ez. injection Ez as <-. split; [done|]. by rewrite Tz, Ty. }
  destruct (Hbuilt _ _ _ _ Hr1 Hi1 Hc1) as [X1 T1]. destruct (Hbuilt _ _ _ _ Hr2 Hi2 Hc2) as [X2 T2].
  rewrite (hashed_hashes _ _ _ _ _ X1) in H1. rewrite (hashed_hashes _ _ _ _ _ X2) in H2. rewrite <- T1, <- T2.
  pose proof (lookup_lt_Some _ _ _ H1) as L1. pose proof (lookup_lt_Some _ _ _ H2) as L2.
  rewrite length_reference_hashes in L1, L2. unfold num_tokens in L1, L2.
  destruct (reference_inj _ _ _ Hinj Hnone Hne _ _ _ _ _ _ _ _ H1 H2) as [<- Hk].
  split; [done|]. split.
  - replace (Z.of_nat i + 1) with (Z.of_nat (S i)) by lia. apply (same_blocks_same_prefix bs _ _ (S i)); [done|lia|lia|].
    intros k Hki. specialize (Hk k ltac:(lia)). by apply (f_equal fst) in Hk.
  - intros k Hki. specialize (Hk (Z.to_nat k) ltac:(lia)). apply (f_equal snd) in Hk.
    cbn [snd block_content] in Hk. by rewrite Z2Nat.id in Hk by lia.
Qed.

(** C34: The view of a hash list at a block size [s] times the hash block size has
    one hash per complete large block; item [i] is the concatenation of the
    hashes of the [s] small blocks it covers, [l\[a:b\]] is the items [a..b-1] and
    iteration visits all of them; a target size that is not a multiple is
    refused with an [AssertionError]. *)
Theorem block_hash_list_with_block_size_correct (hs : list bytes) (hbs s : nat) :
  (1 <= hbs)%nat -> (1 <= s)%nat ->
  exists l, with_block_size hs (Z.of_nat hbs) (Z.of_nat (s * hbs)) = Ok l
    /\ bhl_len l = Z.of_nat (length hs / s)
    /\ (forall i : nat, (i < length hs / s)%nat -> bhl_get l (Z.of_nat i) = Ok (merged hs s i))
    /\ bhl_list l = Ok (merged hs s <$> seq 0 (length hs / s))
    /\ (forall a b : nat, (a <= b <= length hs / s)%nat ->
          bhl_slice l (Z.of_nat a) (Z.of_nat b) = Ok (merged hs s <$> seq a (b - a)))
    /\ (forall t, t mod Z.of_nat hbs <> 0 -> with_block_size hs (Z.of_nat hbs) t = Raise AssertionError).
Proof.
  intros Hh Hs. exists (HashesWithBlockSize hs (Z.of_nat s)).
  assert (zlen hs / Z.of_nat s = Z.of_nat (length hs / s)) as Hlen
    by (unfold zlen; by rewrite Nat2Z.inj_div).
  pose proof (Nat.Div0.mul_div_le (length hs) s) as Hdiv.
  split; [by apply with_block_size_spec|]. cbn [bhl_len bhl_get bhl_list bhl_slice]. rewrite Hlen.
  split_and!.
  - done.
  - intros i Hi. apply get_value_at_spec; nia.
  - change 0 with (Z.of_nat 0). rewrite <- (Nat.add_0_l (length hs / s)) at 1.
    apply values_at_spec; nia.
  - intros a b Hab. unfold py_clamp, py_index.
    replace (Z.of_nat a <? 0) with false by lia. replace (Z.of_nat b <? 0) with false by lia.
    rewrite !Z.min_r, !Z.max_r by lia. replace b with (a + (b - a))%nat at 1 by lia.
    apply values_at_spec; nia.
  - intros t Ht. unfold with_block_size. replace (Z.of_nat hbs =? 0) with false by lia.
    by replace (t mod Z.of_nat hbs =? 0) with false by lia.
Qed.

(** ** Two collisions that do not come from the hash function *)

(** A request over [prompt] with the given inputs, adapter and salt. *)
Definition sample_request (prompt : list Z) (feats : list MultiModalFeatureSpec)
    (lora : option LoRARequest) (salt : option string) (bs : Z) : res Request :=
  request_init_base "r" 0 (Some prompt)
    (Some {| sp_max_tokens := Some 16; min_tokens := 0; eos_token_id := None; stop_token_ids := None;
             repetition_detection := None; sp_skip_reading_prefix_cache := None;
             has_structured_outputs := false |})
    None 0 0 None (Some feats) lora salt 0 (Some bs) false.

(** The hashes after building the request and generating [out]. *)
Definition hashes_after hash_function sha256 NONE_HASH (r : res Request) (out : list Z)
  : res (list bytes) :=
  match request_init hash_function sha256 NONE_HASH r with
  | Ok r1 =>
      match append_output_token_ids hash_function sha256 NONE_HASH out r1 with
      | (Ok _, r2) => Ok (block_hashes r2)
      | (Raise e, _) => Raise e
      end
  | Raise e => Raise e
  end.

Definition image (id : string) (offset : Z) : MultiModalFeatureSpec :=
  {| identifier := id; mm_position := {| pr_offset := offset; pr_length := 1; is_embed := None |} |}.

(** When two multimodal inputs lie in a block that generated tokens complete,
    the hash of the block does not depend on the first input: prompts with
    different first images get the same block hashes whatever the hash function,
    while the same tokens hashed from scratch include both images as extra
    keys. *)
Theorem partial_block_ignores_earlier_input hash_function sha256 NONE_HASH (id1 id2 id3 : string) :
  let request id := sample_request [1; 2; 3; 4; 0; 0; 5] [image id 4; image id3 5] None None 4 in
  hashes_after hash_function sha256 NONE_HASH (request id1) [6]
  = hashes_after hash_function sha256 NONE_HASH (request id2) [6]
  /\ exists r, request id1 = Ok r
       /\ block_extra_keys sha256 r 4 8 = Some [KMM id1 0; KMM id3 1].
Proof. split; [reflexivity|]. eexists. split; reflexivity. Qed.

(** A LoRA adapter name and a cache salt are hashed alike: a one-block prompt
    under an adapter called [s] and the same prompt under no adapter but with the
    cache salt [s] get the same block hash, whatever the hash function. *)
Theorem lora_name_collides_with_cache_salt hash_function sha256 NONE_HASH (a : Ascii.ascii) (s : string) id :
  let name := String a s in
  hashes_after hash_function sha256 NONE_HASH
    (sample_request [1; 2; 3; 4] [] (Some {| lora_name := name; lora_int_id := id |}) None 4) []
  = hashes_after hash_function sha256 NONE_HASH (sample_request [1; 2; 3; 4] [] None (Some name) 4) [].
Proof. reflexivity. Qed.

(** ** Concrete instances *)

Fixpoint bits_of_positive (p : positive) : bytes :=
  match p with
  | xI p => x01 :: bits_of_positive p
  | xO p => x00 :: bits_of_positive p
  | xH => []
  end.

#[export] Instance bits_of_positive_inj : Inj (=) (=) bits_of_positive.
Proof. intros p. induction p; intros [] H; simpl in H; simplify_eq; f_equal; auto. Qed.

(** An injective stand-in for the hash function: the serialised input itself. *)
Definition demo_hash (x : bytes * list Z * option (list extra_key)) : bytes :=
  x01 :: bits_of_positive (encode x).

#[export] Instance demo_hash_inj : Inj (=) (=) demo_hash.
Proof. intros x y [= H]. by apply bits_of_positive_inj, encode_inj in H. Qed.

Definition demo_sha256 (b : bytes) : bytes := x02 :: b.

Definition demo_base (prompt : list Z) : Request :=
  match sample_request prompt [image "cat" 1; image "dog" 5] None (Some "salt"%string) 2 with
  | Ok r => r
  | Raise _ => demo_request []
  end.

Lemma demo_unhashed prompt : 6 <= zlen prompt -> unhashed 2 (demo_base prompt).
Proof.
  intros H. split; [done|unfold num_tokens; cbn; lia|..|done|done].
  - cbn. split_and!; [done|by repeat constructor|done|constructor|done].
  - unfold mm_tail_ok. cbn. constructor; [|constructor].
    assert (3 <= zlen prompt / 2) by (apply Z.div_le_lower_bound; lia). unfold mm_end. cbn. lia.
Qed.

Lemma incremental_hashes_match_scratch_witness :
  let chunks := [ [8]; [9; 9] ] in
  exists r1 r2 r3,
    request_init demo_hash demo_sha256 [x00] (Ok (demo_base [1; 0; 2; 3; 4; 0; 5])) = Ok r1
    /\ mfor chunks (append_output_token_ids demo_hash demo_sha256 [x00]) r1 = (Ok tt, r2)
    /\ request_init demo_hash demo_sha256 [x00]
         (Ok {| (demo_base [1; 0; 2; 3; 4; 0; 5]) with all_token_ids := all_token_ids r2 |}) = Ok r3
    /\ block_hashes r2 = block_hashes r3 /\ zlen (block_hashes r2) = 5.
Proof.
  destruct (incremental_hashes_match_scratch demo_hash demo_sha256 [x00] 2
              (demo_base [1; 0; 2; 3; 4; 0; 5]) [ [8]; [9; 9] ])
    as (r1 & r2 & r3 & E1 & E2 & E3 & E4 & E5 & E6); [lia|by apply demo_unhashed|].
  exists r1, r2, r3. split_and!; try done.
  rewrite E6. unfold num_tokens. rewrite E3. reflexivity.
Defined.

(** The two requests share the first block: the hypotheses hold at [i = j = 0]. *)
(** A request without multimodal inputs: over its prompt, built, and after generating some chunks. *)
Definition demo_text (prompt : list Z) : Request :=
  match sample_request prompt [] None (Some "salt"%string) 2 with Ok r => r | Raise _ => demo_request [] end.
Definition demo_built (prompt : list Z) : Request :=
  match request_init demo_hash demo_sha256 [x00] (Ok (demo_text prompt)) with Ok r => r | Raise _ => demo_request [] end.
Definition demo_grown (prompt : list Z) (chunks : list (list Z)) : Request :=
  (mfor chunks (append_output_token_ids demo_hash demo_sha256 [x00]) (demo_built prompt)).2.

Lemma demo_text_unhashed prompt : unhashed 2 (demo_text prompt).
Proof. split; try done. constructor. Qed.

(** A request that generated three tokens in two steps, and one whose prompt has the first two
    of them: the hashes of their second blocks are equal. *)
Lemma equal_block_hash_equal_prefix_witness :
  let r1 := demo_grown [1] [ [2]; [3; 4] ] in
  let r2 := demo_grown [1; 2; 3] [ [4] ] in
  exists h, block_hashes r1 !! 1%nat = Some h /\ block_hashes r2 !! 1%nat = Some h
    /\ take 4 ([1] ++ [2; 3; 4]) = take 4 ([1; 2; 3] ++ [4]).
Proof.
  intros r1 r2. set (h := default [] (block_hashes r1 !! 1%nat)).
  assert (block_hashes r1 !! 1%nat = Some h) as H1 by (vm_compute; reflexivity).
  assert (block_hashes r2 !! 1%nat = Some h) as H2 by (vm_compute; reflexivity).
  exists h. split; [exact H1|]. split; [exact H2|].
  destruct (equal_block_hash_equal_prefix demo_hash demo_sha256 [x00] demo_hash_inj
           ltac:(intros x; done) ltac:(intros x; done) 2
           (demo_text [1]) (demo_text [1; 2; 3]) (demo_built [1]) (demo_built [1; 2; 3])
           r1 r2 [ [2]; [3; 4] ] [ [4] ] 1%nat 1%nat h
           ltac:(lia) (demo_text_unhashed [1]) (demo_text_unhashed [1; 2; 3]))
    as (_ & Htake & _); [vm_compute; reflexivity..|exact H1|exact H2|exact Htake].
Defined.

Lemma block_hash_list_with_block_size_correct_witness :
  exists l, with_block_size [ [x01]; [x02]; [x03]; [x04]; [x05] ] 16 32 = Ok l
    /\ bhl_list l = Ok [ [x01; x02]; [x03; x04] ].
Proof.
  destruct (block_hash_list_with_block_size_correct [ [x01]; [x02]; [x03]; [x04]; [x05] ] 16 2
              ltac:(lia) ltac:(lia)) as (l & E & _ & _ & El & _).
  exists l. split; [exact E|]. rewrite El. reflexivity.
Defined.
