(* ===== verification/Metrics.v ===== *)
(** Residency metrics of KV-cache blocks: [v1/core/kv_cache_metrics.py].

    The clock ([time.monotonic_ns]) and the random source are the environment:
    each reading is numbered, and the collector's state counts the readings.
    Times and durations are in nanoseconds (the code reports them divided by
    1e9). *)

From S2P Require Import Prelude.
From Stdlib Require Import QArith.
Local Open Scope Z_scope.

(** What the code gets from outside: the clock, the random source, SHA-256 and
    the environment variable that selects integer hashes in events. *)
Class Env := {
  monotonic_ns : nat -> Z;
  random_random : nat -> Q;
  sha256_digest : bytes -> bytes;
  use_int_block_hashes : bool;
}.

Record BlockMetricsState := {
  birth_time_ns : Z;
  last_access_ns : Z;
  access_history : list Z;
}.

Record KVCacheEvictionEvent := {
  lifetime_ns : Z;
  idle_ns : Z;
  reuse_gaps_ns : list Z;
}.

Record KVCacheMetricsCollector := {
  sample_rate : Q;
  block_metrics : gmap Z BlockMetricsState;
  eviction_events : list KVCacheEvictionEvent;
  (** readings of the clock and of the random source so far *)
  ticks : nat;
  draws : nat;
}.

Section metrics.
Context {E : Env}.

Abbreviation MC := (M KVCacheMetricsCollector).

Definition now : MC Z := fun m =>
  (Ok (monotonic_ns (ticks m)), {| m with ticks := S (ticks m) |}).

(** [BlockMetricsState()] *)
Definition new_BlockMetricsState : MC BlockMetricsState :=
  now_ns ← now;
  mret {| birth_time_ns := now_ns; last_access_ns := now_ns; access_history := [] |}.

(** [deque(maxlen=4).append] *)
Definition history_append (h : list Z) (x : Z) : list Z :=
  drop (length h + 1 - 4) (h ++ [x]).

Definition record_access (s : BlockMetricsState) : MC BlockMetricsState :=
  now_ns ← now;
  mret {| s with last_access_ns := now_ns; access_history := history_append (access_history s) now_ns |}.

Definition get_lifetime (s : BlockMetricsState) : MC Z :=
  now_ns ← now; mret (now_ns - birth_time_ns s).

Definition get_idle_time (s : BlockMetricsState) : MC Z :=
  now_ns ← now; mret (now_ns - last_access_ns s).

Fixpoint gaps (h : list Z) : list Z :=
  match h with
  | a :: (b :: _) as h' => (b - a) :: gaps h'
  | _ => []
  end.

Definition get_reuse_gaps (s : BlockMetricsState) : list Z :=
  if zlen (access_history s) <? 2 then [] else gaps (access_history s).

(** [KVCacheMetricsCollector.__init__] *)
Definition metrics_init (rate : Q) : res KVCacheMetricsCollector :=
  if negb (Qle_bool rate 0) && Qle_bool rate 1 then
    Ok {| sample_rate := rate; block_metrics := ∅; eviction_events := []; ticks := 0; draws := 0 |}
  else Raise AssertionError.

Definition should_sample_block : MC bool := fun m =>
  (Ok (negb (Qle_bool (sample_rate m) (random_random (draws m)))), {| m with draws := S (draws m) |}).

Definition on_block_allocated (block_id : Z) : MC unit :=
  sample ← should_sample_block;
  if sample : bool then
    s ← new_BlockMetricsState;
    modify (fun m => {| m with block_metrics := <[block_id := s]> (block_metrics m) |})
  else mret tt.

Definition on_block_accessed (block_id : Z) : MC unit :=
  m ← gets id;
  match block_metrics m !! block_id with
  | Some s =>
      s' ← record_access s;
      modify (fun m => {| m with block_metrics := <[block_id := s']> (block_metrics m) |})
  | None => mret tt
  end.

Definition on_block_evicted (block_id : Z) : MC unit :=
  m ← gets id;
  modify (fun m => {| m with block_metrics := delete block_id (block_metrics m) |}) ;;
  match block_metrics m !! block_id with
  | None => mret tt
  | Some s =>
      lifetime ← get_lifetime s;
      idle_time ← get_idle_time s;
      modify (fun m => {| m with eviction_events := eviction_events m ++
        [{| lifetime_ns := lifetime; idle_ns := idle_time; reuse_gaps_ns := get_reuse_gaps s |}] |})
  end.

Definition metrics_reset : MC unit :=
  modify (fun m => {| m with block_metrics := ∅; eviction_events := [] |}).

Definition drain_events : MC (list KVCacheEvictionEvent) :=
  events ← gets eviction_events;
  modify (fun m => {| m with eviction_events := [] |}) ;;
  mret events.

(** ** The collector never fails *)

Lemma on_block_allocated_ok b m : exists m', on_block_allocated b m = (Ok tt, m').
Proof.
  unfold on_block_allocated. erewrite bind_ok by reflexivity.
  destruct (negb _); [|by eexists]. by eexists.
Qed.
Lemma on_block_accessed_ok b m : exists m', on_block_accessed b m = (Ok tt, m').
Proof. unfold on_block_accessed. msteps. destruct (block_metrics m !! b); by eexists. Qed.
Lemma on_block_evicted_ok b m : exists m', on_block_evicted b m = (Ok tt, m').
Proof. unfold on_block_evicted. msteps. destruct (block_metrics m !! b); by eexists. Qed.

(** ** Durations *)

Context (Hclock : forall i j : nat, (i <= j)%nat -> monotonic_ns i <= monotonic_ns j).

(** A tracked block: at most four accesses, in order, none before birth or after
    the last reading of the clock. *)
Record state_ok (t : nat) (s : BlockMetricsState) : Prop := {
  so_len : (length (access_history s) <= 4)%nat;
  so_birth : birth_time_ns s <= last_access_ns s;
  so_last : forall t', (t <= t')%nat -> last_access_ns s <= monotonic_ns t';
  so_hist : Forall (fun g => 0 <= g) (gaps (access_history s));
  so_tail : forall x, last (access_history s) = Some x -> x = last_access_ns s;
}.

Definition event_ok (e : KVCacheEvictionEvent) : Prop :=
  0 <= idle_ns e /\ 0 <= lifetime_ns e /\ Forall (fun g => 0 <= g) (reuse_gaps_ns e)
  /\ (length (reuse_gaps_ns e) <= 3)%nat.

Record metrics_ok (m : KVCacheMetricsCollector) : Prop := {
  mo_states : map_Forall (fun _ s => state_ok (ticks m) s) (block_metrics m);
  mo_events : Forall event_ok (eviction_events m);
}.

Lemma gaps_snoc h x : Forall (fun g => 0 <= g) (gaps h) -> (forall y, last h = Some y -> y <= x) ->
  Forall (fun g => 0 <= g) (gaps (h ++ [x])).
Proof.
  induction h as [|a [|b h] IH]; intros Hg Hx; cbn [app gaps] in *; [constructor| |].
  - constructor; [|constructor]. specialize (Hx a eq_refl). lia.
  - apply Forall_cons in Hg as [? Hg]. constructor; [done|]. apply IH; [done|].
    intros y Hy. apply Hx. by rewrite last_cons, Hy.
Qed.

Lemma gaps_drop n h : Forall (fun g => 0 <= g) (gaps h) -> Forall (fun g => 0 <= g) (gaps (drop n h)).
Proof.
  revert h. induction n as [|n IH]; intros [|a [|b h]] Hg; try done; cbn [drop].
  - by destruct n.
  - apply IH. by apply Forall_cons in Hg as [_ ?].
Qed.

Lemma length_gaps h : length (gaps h) = (length h - 1)%nat.
Proof. induction h as [|a [|b h] IH]; cbn [gaps length] in *; lia. Qed.

Lemma last_drop_snoc n (h : list Z) x : (n <= length h)%nat -> last (drop n (h ++ [x])) = Some x.
Proof. intros. rewrite drop_app_le by done. apply last_snoc. Qed.

Lemma state_ok_mono t t' s : (t <= t')%nat -> state_ok t s -> state_ok t' s.
Proof. intros Ht []. split; try done. intros t'' ?. apply so_last0. lia. Qed.

Lemma record_access_ok t s : state_ok t s ->
  state_ok (S t) {| s with last_access_ns := monotonic_ns t;
                           access_history := history_append (access_history s) (monotonic_ns t) |}.
Proof.
  intros [Hl Hb Ht Hh Hx]. unfold history_append. split; cbn.
  - rewrite length_drop, length_app. simpl. lia.
  - specialize (Ht t). lia.
  - intros t' ?. apply Hclock. lia.
  - apply gaps_drop, gaps_snoc; [done|]. intros y Hy. rewrite (Hx y Hy). apply Ht. lia.
  - intros x. rewrite last_drop_snoc by lia. congruence.
Qed.

Lemma new_state_ok t : state_ok (S t)
  {| birth_time_ns := monotonic_ns t; last_access_ns := monotonic_ns t; access_history := [] |}.
Proof. split; cbn; try done; try lia. intros t' ?. apply Hclock. lia. Qed.

(** A caller's use of the collector. *)
Inductive metrics_op := Allocated (b : Z) | Accessed (b : Z) | Evicted (b : Z) | ResetAll | Drain.

Definition run_metrics_op (o : metrics_op) : MC unit :=
  match o with
  | Allocated b => on_block_allocated b
  | Accessed b => on_block_accessed b
  | Evicted b => on_block_evicted b
  | ResetAll => metrics_reset
  | Drain => drain_events ;; mret tt
  end.

Lemma run_metrics_op_ok o m : metrics_ok m ->
  exists m', run_metrics_op o m = (Ok tt, m') /\ metrics_ok m'.
Proof.
  intros [Hs He].
  assert (forall t, (ticks m <= t)%nat -> map_Forall (fun _ s => state_ok t s) (block_metrics m)) as Hs'.
  { intros t Ht b s Hb. eapply state_ok_mono, Hs, Hb. done. }
  destruct o as [b|b|b| |]; cbn [run_metrics_op].
  - unfold on_block_allocated. erewrite bind_ok by reflexivity.
    destruct (negb _); eexists; (split; [reflexivity|]); split; cbn; try done.
    apply map_Forall_insert_2; [apply new_state_ok|]. apply Hs'. lia.
  - unfold on_block_accessed. msteps. destruct (block_metrics m !! b) as [s|] eqn:Hb.
    + eexists. split; [reflexivity|]. split; cbn; [|done].
      apply map_Forall_insert_2; [apply record_access_ok; by eapply Hs|]. apply Hs'. lia.
    + by exists m.
  - unfold on_block_evicted. msteps. destruct (block_metrics m !! b) as [s|] eqn:Hb.
    + eexists. split; [reflexivity|]. split; cbn.
      * apply map_Forall_delete, Hs'. lia.
      * apply Forall_app. split; [done|]. constructor; [|constructor].
        destruct (Hs b s Hb) as [Hl Hbi Ht Hh Hx].
        pose proof (Ht (S (ticks m)) ltac:(lia)) as H1. pose proof (Hclock (ticks m) (S (ticks m)) ltac:(lia)).
        pose proof (Ht (ticks m) ltac:(lia)).
        unfold event_ok; cbn. unfold get_reuse_gaps, zlen.
        destruct (Z.ltb_spec (Z.of_nat (length (access_history s))) 2); cbn;
          split_and!; try done; try lia. rewrite length_gaps. lia.
    + eexists. split; [reflexivity|]. split; cbn; [|done]. by apply map_Forall_delete.
  - eexists. split; [reflexivity|]. split; [apply map_Forall_empty|constructor].
  - eexists. split; [reflexivity|]. split; [done|constructor].
Qed.
End metrics.

(** ** Properties *)

Fixpoint run_metrics_ops {E : Env} (ops : list metrics_op) : M KVCacheMetricsCollector unit :=
  match ops with
  | [] => mret tt
  | o :: ops' => run_metrics_op o ;; run_metrics_ops ops'
  end.

Lemma run_metrics_ops_ok {E : Env}
  (Hclock : forall i j : nat, (i <= j)%nat -> monotonic_ns i <= monotonic_ns j) ops :
  forall m, metrics_ok m -> exists m', run_metrics_ops ops m = (Ok tt, m') /\ metrics_ok m'.
Proof.
  induction ops as [|o ops IH]; intros m Hm; cbn [run_metrics_ops]; [by exists m|].
  destruct (run_metrics_op_ok Hclock o m Hm) as (m1 & E1 & H1).
  rewrite (bind_ok _ _ _ _ _ E1). by apply IH.
Qed.

(** With a clock that never goes back, every eviction event a collector
    reports has a non-negative lifetime, a non-negative idle time and at most
    three reuse gaps, none negative, after any sequence of allocations, accesses,
    evictions, resets and drains, whatever the random source samples; and no
    call raises. *)
Theorem eviction_events_well_formed {E : Env} (rate : Q) (ops : list metrics_op)
  (Hclock : forall i j : nat, (i <= j)%nat -> monotonic_ns i <= monotonic_ns j)
  (Hrate : negb (Qle_bool rate 0) && Qle_bool rate 1 = true) :
  exists m0 m, metrics_init rate = Ok m0 /\ run_metrics_ops ops m0 = (Ok tt, m)
    /\ Forall event_ok (eviction_events m).
Proof.
  unfold metrics_init. rewrite Hrate. eexists.
  match goal with |- exists m, Ok ?m0 = _ /\ _ =>
    destruct (run_metrics_ops_ok Hclock ops m0) as (m & Em & Hm) end.
  { split; [apply map_Forall_empty|constructor]. }
  exists m. split_and!; [done|exact Em|by destruct Hm].
Qed.

#[export] Instance demo_env : Env := {|
  monotonic_ns n := 10 * Z.of_nat n;
  random_random n := if Nat.even n then 0%Q else 1%Q;
  sha256_digest b := b;
  use_int_block_hashes := false;
|}.

Lemma eviction_events_well_formed_witness :
  exists m0 m, metrics_init (1 # 2) = Ok m0
    /\ run_metrics_ops [Allocated 1; Allocated 2; Accessed 1; Accessed 1; Evicted 1; Evicted 2] m0 = (Ok tt, m)
    /\ Forall event_ok (eviction_events m) /\ length (eviction_events m) = 1%nat.
Proof.
  destruct (eviction_events_well_formed (1 # 2)
              [Allocated 1; Allocated 2; Accessed 1; Accessed 1; Evicted 1; Evicted 2])
    as (m0 & m & E0 & E1 & H); [intros; simpl; lia|reflexivity|].
  exists m0, m. split_and!; [done|done|done|].
  vm_compute in E0. injection E0 as <-. vm_compute in E1. injection E1 as <-. reflexivity.
Defined.
