(* ===== verification/BlockPool.v ===== *)
(** The pool of KV-cache blocks: [v1/core/block_pool.py].

    The pool owns the block objects (the store inside its free queue), the free
    queue, the map from hash keys to cached blocks, the KV-cache events and the
    optional metrics collector.  Block lists of callers hold references to the
    same objects. *)

From S2P Require Import Prelude FreeQueue Request Hashing Metrics.
From Stdlib Require Import Strings.Byte.
Local Open Scope Z_scope.

(** ** Events *)

Definition MEDIUM_GPU : string := "GPU".

Inductive KVCacheEvent :=
  | BlockStored (ev_block_hashes : list ExternalBlockHash)
      (parent_block_hash : option ExternalBlockHash) (token_ids : list Z) (block_size : Z)
      (lora_id : option Z) (medium : option string) (ev_lora_name : option string)
      (extra_keys : option (list (option (list extra_key))))
  | BlockRemoved (ev_block_hashes : list ExternalBlockHash) (medium : option string)
  | AllBlocksCleared.

(** ** [BlockHashToBlockMap] *)

(** One block, or a [dict] of several blocks by id. *)
Inductive KVCacheBlocks :=
  | OneBlock (b : ref)
  | BlockDict (d : list (Z * ref)).

Abbreviation BlockHashToBlockMap := (gmap bytes KVCacheBlocks).

Module BlockMap.
(** [next(iter(d.values()))] on an empty dict would raise [StopIteration]. *)
Definition get_one_block (key : bytes) (cache : BlockHashToBlockMap) : res (option ref) :=
  match cache !! key with
  | None => Ok None
  | Some (OneBlock b) => Ok (Some b)
  | Some (BlockDict d) =>
      match Dict.values d with
      | [] => Raise StopIteration
      | b :: _ => Ok (Some b)
      end
  end.

(** [id] reads [block_id] of an object. *)
Definition insert (id : ref -> Z) (key : bytes) (block : ref) (cache : BlockHashToBlockMap)
  : BlockHashToBlockMap :=
  match cache !! key with
  | None => <[key := OneBlock block]> cache
  | Some (OneBlock b) =>
      <[key := BlockDict (Dict.set (id block) block (Dict.set (id b) b []))]> cache
  | Some (BlockDict d) => <[key := BlockDict (Dict.set (id block) block d)]> cache
  end.

Definition pop (id : ref -> Z) (key : bytes) (block_id : Z) (cache : BlockHashToBlockMap)
  : option ref * BlockHashToBlockMap :=
  match cache !! key with
  | None => (None, cache)
  | Some (OneBlock b) => if id b =? block_id then (Some b, delete key cache) else (None, cache)
  | Some (BlockDict d) =>
      let d' := Dict.del block_id d in
      (Dict.get block_id d,
       if 0 <? zlen d' then <[key := BlockDict d']> cache else delete key cache)
  end.

Definition len (cache : BlockHashToBlockMap) : Z := Z.of_nat (size cache).
End BlockMap.

(** ** The pool *)

Record BlockPool := {
  num_gpu_blocks : Z;
  enable_caching : bool;
  hash_block_size : Z;
  blocks : list ref;
  free_block_queue : FreeKVCacheBlockQueue;
  cached_block_hash_to_block : BlockHashToBlockMap;
  null_block : ref;
  enable_kv_cache_events : bool;
  kv_event_queue : list KVCacheEvent;
  metrics_collector : option KVCacheMetricsCollector;
}.

Module Pool.

(** The object behind a reference. *)
Definition obj (p : BlockPool) (r : ref) : KVCacheBlock := objs (free_block_queue p) r.

Definition on_queue {A} : M FreeKVCacheBlockQueue A -> M BlockPool A :=
  zoom free_block_queue (fun q p => {| p with free_block_queue := q |}).
Definition on_store {A} (c : M store A) : M BlockPool A :=
  on_queue (zoom objs (fun o q => {| q with objs := o |}) c).
(** [if self.metrics_collector: ...] *)
Definition on_metrics (c : M KVCacheMetricsCollector unit) : M BlockPool unit := fun p =>
  match metrics_collector p with
  | None => (Ok tt, p)
  | Some m => let '(r, m') := c m in (r, {| p with metrics_collector := Some m' |})
  end.
Definition add_event (e : KVCacheEvent) : M BlockPool unit :=
  modify (fun p => {| p with kv_event_queue := kv_event_queue p ++ [e] |}).
Definition set_cache (f : BlockHashToBlockMap -> BlockHashToBlockMap) : M BlockPool unit :=
  modify (fun p => {| p with cached_block_hash_to_block := f (cached_block_hash_to_block p) |}).

(** The objects that [\[KVCacheBlock(idx) for idx in range(n)\]] creates. *)
Definition fresh_store : store := fun r =>
  match r with RBlk b => new_KVCacheBlock (Z.of_nat b) | _ => new_KVCacheBlock (-1) end.

(** [BlockPool.__init__] *)
Definition init (num_gpu_blocks : Z) (enable_caching : bool) (hash_block_size : Z)
    (enable_kv_cache_events : bool) (metrics_collector : option KVCacheMetricsCollector)
  : res BlockPool :=
  if 0 <? num_gpu_blocks then
    let blocks := RBlk <$> seq 0 (Z.to_nat num_gpu_blocks) in
    let q := {| objs := fresh_store; num_free_blocks := 0 |} in
    match (Queue.init blocks ;; Queue.popleft) q with
    | (Raise e, _) => Raise e
    | (Ok null, q') =>
        Ok {| num_gpu_blocks := num_gpu_blocks; enable_caching := enable_caching;
              hash_block_size := hash_block_size; blocks := blocks;
              free_block_queue := {| q' with objs := set_is_null null true (objs q') |};
              cached_block_hash_to_block := ∅; null_block := null;
              enable_kv_cache_events := enable_kv_cache_events; kv_event_queue := [];
              metrics_collector := metrics_collector |}
    end
  else Raise AssertionError.

Definition get_num_free_blocks (p : BlockPool) : Z := num_free_blocks (free_block_queue p).

Section pool.
Context {E : Env}.

Definition convert : bytes -> ExternalBlockHash := maybe_convert_block_hash use_int_block_hashes.

(** A miss for one group is a miss for the block. *)
Fixpoint get_cached_block (block_hash : bytes) (kv_cache_group_ids : list Z) (p : BlockPool)
  : res (option (list ref)) :=
  match kv_cache_group_ids with
  | [] => Ok (Some [])
  | group_id :: rest =>
      key ← make_block_hash_with_group_id block_hash group_id;
      block ← BlockMap.get_one_block key (cached_block_hash_to_block p);
      match block with
      | None => Ok None
      | Some b => bs ← get_cached_block block_hash rest p; Ok (option_map (cons b) bs)
      end
  end.

(** The first loop of [cache_full_blocks]; [new_hashes] is [None] without events. *)
Fixpoint cache_loop (kv_cache_group_id : Z) (new_block_hashes : list bytes) (i : Z)
    (new_full_blocks : list ref) (new_hashes : option (list ExternalBlockHash))
  : M BlockPool (option (list ExternalBlockHash)) :=
  match new_full_blocks with
  | [] => mret new_hashes
  | blk :: rest =>
      b ← gets (fun p => obj p blk);
      if is_null b then cache_loop kv_cache_group_id new_block_hashes (i + 1) rest new_hashes
      else
        assert_ (bool_decide (block_hash b = None)) ;;
        block_hash ← lift_res (py_get new_block_hashes i);
        key ← lift_res (make_block_hash_with_group_id block_hash kv_cache_group_id);
        on_store (set_block_hash blk key) ;;
        id ← gets (fun p r => block_id (obj p r));
        set_cache (BlockMap.insert id key blk) ;;
        cache_loop kv_cache_group_id new_block_hashes (i + 1) rest
          ((fun l => l ++ [convert block_hash]) <$> new_hashes)
  end.

(** The loop that collects the extra keys for the event. *)
Fixpoint extra_keys_loop (blocks : list ref) (block_size : Z) (is_ : list Z) (curr_mm_idx : Z)
    (acc : list (option (list extra_key)))
  : M (BlockPool * Request) (list (option (list extra_key))) :=
  match is_ with
  | [] => mret acc
  | i :: rest =>
      blk ← lift_res (py_get blocks i);
      b ← gets (fun s => obj s.1 blk);
      if is_null b then extra_keys_loop blocks block_size rest curr_mm_idx acc
      else
        let block_start := i * block_size in
        let block_end := block_start + block_size in
        ek ← on_snd (generate_block_hash_extra_keys sha256_digest block_start block_end curr_mm_idx);
        let '(extra_keys, curr_mm_idx') := ek in
        extra_keys_loop blocks block_size rest curr_mm_idx' (acc ++ [extra_keys])
  end.

(** The hashes of the request at the granularity of the group's blocks. *)
Definition hashes_for (request : Request) (hash_block_size block_size : Z) : res BlockHashList :=
  if block_size =? hash_block_size then Ok (Hashes (block_hashes request))
  else if hash_block_size =? 0 then Raise ZeroDivisionError
  else if block_size mod hash_block_size =? 0
       then with_block_size (block_hashes request) hash_block_size block_size
       else Raise AssertionError.

Definition cache_full_blocks (blocks : list ref) (num_cached_blocks num_full_blocks block_size
    kv_cache_group_id : Z) : M (BlockPool * Request) unit :=
  if num_full_blocks <=? num_cached_blocks then mret tt
  else
    let new_full_blocks := py_slice blocks num_cached_blocks num_full_blocks in
    request ← gets snd;
    assert_ (num_full_blocks <=? zlen (block_hashes request)) ;;
    hbs ← gets (fun s => hash_block_size s.1);
    block_hashes ← lift_res (hashes_for request hbs block_size);
    new_block_hashes ← lift_res (bhl_slice block_hashes num_cached_blocks (bhl_len block_hashes));
    events ← gets (fun s => enable_kv_cache_events s.1);
    new_hashes ← on_fst (cache_loop kv_cache_group_id new_block_hashes 0 new_full_blocks
                           (if events : bool then Some [] else None));
    if events : bool then
      parent_block_hash ←
        (if num_cached_blocks =? 0 then mret None
         else h ← lift_res (bhl_get block_hashes (num_cached_blocks - 1)); mret (Some (convert h)));
      let start_token_idx := num_cached_blocks * block_size in
      let end_token_idx := num_full_blocks * block_size in
      extra_keys_list ← extra_keys_loop blocks block_size (py_range num_cached_blocks num_full_blocks) 0 [];
      on_fst (add_event (BlockStored (default [] new_hashes) parent_block_hash
        (py_slice (all_token_ids request) start_token_idx end_token_idx) block_size
        (lora_int_id <$> lora_request request) (Some MEDIUM_GPU) (lora_name <$> lora_request request)
        (match extra_keys_list with [] => None | l => Some l end)))
    else mret tt.

Definition maybe_evict_cached_block (block : ref) : M BlockPool bool :=
  b ← gets (fun p => obj p block);
  on_metrics (on_block_evicted (block_id b)) ;;
  match block_hash b with
  | None => mret false
  | Some key =>
      p ← gets id;
      let '(popped, cache) :=
        BlockMap.pop (fun r => block_id (obj p r)) key (block_id b) (cached_block_hash_to_block p) in
      set_cache (fun _ => cache) ;;
      match popped with
      | None => mret false
      | Some _ =>
          on_store (modify (reset_hash block)) ;;
          (if enable_kv_cache_events p
           then add_event (BlockRemoved [convert (get_block_hash key)] (Some MEDIUM_GPU))
           else mret tt) ;;
          mret true
      end
  end.

(** The common body of the two loops of [get_new_blocks]. *)
Definition take_block (block : ref) : M BlockPool unit :=
  c ← gets (fun p => ref_cnt (obj p block));
  assert_ (c =? 0) ;;
  on_store (modify (set_ref_cnt block (c + 1))) ;;
  id ← gets (fun p => block_id (obj p block));
  on_metrics (on_block_allocated id).

Definition get_new_blocks (num_blocks : Z) : M BlockPool (list ref) :=
  free ← gets get_num_free_blocks;
  if free <? num_blocks then raise ValueError
  else
    ret ← on_queue (Queue.popleft_n num_blocks);
    caching ← gets enable_caching;
    (if caching : bool
     then mfor ret (fun block => maybe_evict_cached_block block ;; take_block block)
     else mfor ret take_block) ;;
    mret ret.

Definition touch_block (block : ref) : M BlockPool unit :=
  b ← gets (fun p => obj p block);
  (if (ref_cnt b =? 0) && negb (is_null b) then on_queue (Queue.remove block) else mret tt) ;;
  c ← gets (fun p => ref_cnt (obj p block));
  on_store (modify (set_ref_cnt block (c + 1))) ;;
  on_metrics (on_block_accessed (block_id b)).

Definition touch (blocks : list ref) : M BlockPool unit := mfor blocks touch_block.

Definition decr_ref (block : ref) : M BlockPool unit :=
  c ← gets (fun p => ref_cnt (obj p block));
  on_store (modify (set_ref_cnt block (c - 1))).

Definition free_blocks (ordered_blocks : list ref) : M BlockPool unit :=
  mfor ordered_blocks decr_ref ;;
  p ← gets id;
  on_queue (Queue.append_n
    (filter (fun r => ref_cnt (obj p r) = 0 /\ is_null (obj p r) = false) ordered_blocks)).

Definition evict_blocks (block_ids : list Z) : M BlockPool unit :=
  mfor block_ids (fun block_id =>
    bs ← gets blocks;
    assert_ (block_id <? zlen bs) ;;
    block ← lift_res (py_get bs block_id);
    maybe_evict_cached_block block ;; mret tt).

Definition reset_prefix_cache : M BlockPool bool :=
  p ← gets id;
  let num_used_blocks := num_gpu_blocks p - get_num_free_blocks p in
  if negb (num_used_blocks =? 1) then mret false
  else
    set_cache (fun _ => ∅) ;;
    mfor (blocks p) (fun block => on_store (modify (reset_hash block))) ;;
    on_metrics metrics_reset ;;
    (if enable_kv_cache_events p then add_event AllBlocksCleared else mret tt) ;;
    mret true.

(** [get_usage] as the exact quotient: [(used, total)]. *)
Definition get_usage (p : BlockPool) : Z * Z :=
  let total_gpu_blocks := num_gpu_blocks p - 1 in
  if total_gpu_blocks =? 0 then (0, 1)
  else (total_gpu_blocks - get_num_free_blocks p, total_gpu_blocks).

Definition take_events : M BlockPool (list KVCacheEvent) :=
  p ← gets id;
  if negb (enable_kv_cache_events p) then mret []
  else
    modify (fun p => {| p with kv_event_queue := [] |}) ;;
    mret (kv_event_queue p).

End pool.
End Pool.

(** ** The map as a relation *)

Module BlockMapFacts.
Section facts.
Context (id : ref -> Z) (Hid : forall r r', is_blk r -> is_blk r' -> id r = id r' -> r = r').

(** The cached blocks of a key, the one [get_one_block] returns first. *)
Definition lookup_blocks (cache : BlockHashToBlockMap) (key : bytes) : list ref :=
  match cache !! key with
  | None => []
  | Some (OneBlock b) => [b]
  | Some (BlockDict d) => Dict.values d
  end.

Definition wf_entry (e : KVCacheBlocks) : Prop :=
  match e with
  | OneBlock b => is_blk b
  | BlockDict d => d <> [] /\ NoDup (Dict.keys d) /\ Forall (fun x => x.1 = id x.2 /\ is_blk x.2) d
  end.

Definition wf_cache (cache : BlockHashToBlockMap) : Prop := map_Forall (fun _ => wf_entry) cache.

Lemma wf_cache_empty : wf_cache ∅.
Proof. unfold wf_cache. apply map_Forall_empty. Qed.

Lemma lookup_blocks_empty key : lookup_blocks ∅ key = [].
Proof. unfold lookup_blocks. by rewrite lookup_empty. Qed.

Lemma lookup_blocks_insert cache key e key' :
  lookup_blocks (<[key := e]> cache) key'
  = if decide (key' = key) then match e with OneBlock b => [b] | BlockDict d => Dict.values d end
    else lookup_blocks cache key'.
Proof.
  unfold lookup_blocks. case_decide as H; [subst; by rewrite lookup_insert_eq|].
  by rewrite lookup_insert_ne.
Qed.

Lemma lookup_blocks_delete cache key key' :
  lookup_blocks (delete key cache) key' = if decide (key' = key) then [] else lookup_blocks cache key'.
Proof.
  unfold lookup_blocks. case_decide as H; [subst; by rewrite lookup_delete_eq|].
  by rewrite lookup_delete_ne.
Qed.

Lemma wf_lookup cache key : wf_cache cache -> Forall is_blk (lookup_blocks cache key).
Proof.
  intros H. unfold lookup_blocks. destruct (cache !! key) as [e|] eqn:He; [|constructor].
  apply H in He. destruct e as [b|d]; [by constructor|]. destruct He as (_ & _ & Hd).
  unfold Dict.values. apply Forall_fmap. eapply Forall_impl; [exact Hd|]. by intros ? [].
Qed.

Lemma get_one_block_spec cache key : wf_cache cache ->
  BlockMap.get_one_block key cache = Ok (head (lookup_blocks cache key)).
Proof.
  intros H. unfold BlockMap.get_one_block, lookup_blocks.
  destruct (cache !! key) as [[b|d]|] eqn:He; try done.
  apply H in He as (Hne & _). by destruct d as [|[]].
Qed.

(** The ids of a dict entry determine the blocks. *)
Lemma dict_key_elem d r : Forall (fun x => x.1 = id x.2 /\ is_blk x.2) d -> is_blk r ->
  id r ∈ Dict.keys d <-> r ∈ Dict.values d.
Proof.
  rewrite Forall_forall. intros Hd Hr. unfold Dict.keys, Dict.values.
  rewrite !list_elem_of_fmap. split.
  - intros ([i r'] & E & Hin). destruct (Hd _ Hin) as [Hi Hb]. simpl in *.
    exists (i, r'). split; [|done]. simpl. apply Hid; congruence.
  - intros ([i r'] & -> & Hin). destruct (Hd _ Hin) as [Hi _]. exists (i, r'). by simpl in *.
Qed.

Lemma insert_spec cache key r : wf_cache cache -> is_blk r -> r ∉ lookup_blocks cache key ->
  wf_cache (BlockMap.insert id key r cache)
  /\ forall key', lookup_blocks (BlockMap.insert id key r cache) key'
       = if decide (key' = key) then lookup_blocks cache key ++ [r] else lookup_blocks cache key'.
Proof.
  intros H Hr Hout. unfold BlockMap.insert.
  pose proof (wf_lookup cache key H) as Hb. unfold lookup_blocks in Hout, Hb.
  destruct (cache !! key) as [[b|d]|] eqn:He.
  - apply not_elem_of_cons in Hout as [Hne _]. apply Forall_cons in Hb as [Hb _].
    assert (id r ≠ id b) as Hi by (intros E; by apply Hne, Hid).
    cbn [Dict.set]. rewrite decide_False by done. split.
    + apply map_Forall_insert_2; [|done]. split_and!; [done| |by repeat constructor].
      cbn. apply NoDup_cons. split; [set_solver|apply NoDup_singleton].
    + intros key'. rewrite lookup_blocks_insert. case_decide; [|done]. subst.
      unfold lookup_blocks. by rewrite He.
  - destruct (H _ _ He) as (Hne & Hnd & Hd).
    assert (id r ∉ Dict.keys d) as Hk by by rewrite dict_key_elem.
    rewrite Dict.keys_set_new by done. split.
    + apply map_Forall_insert_2; [|done]. split_and!; [by destruct d| |].
      * unfold Dict.keys in *. rewrite fmap_app. apply NoDup_app.
        split_and!; [done|set_solver|apply NoDup_singleton].
      * apply Forall_app. split; [done|]. by repeat constructor.
    + intros key'. rewrite lookup_blocks_insert. case_decide; [|done]. subst.
      unfold lookup_blocks, Dict.values. rewrite He. by rewrite fmap_app.
  - split.
    + by apply map_Forall_insert_2.
    + intros key'. rewrite lookup_blocks_insert. case_decide; [|done]. subst.
      unfold lookup_blocks. by rewrite He.
Qed.

Lemma dict_values_del d r : Forall (fun x => x.1 = id x.2 /\ is_blk x.2) d -> is_blk r ->
  NoDup (Dict.keys d) -> Dict.values (Dict.del (id r) d) = filter (fun x => x ≠ r) (Dict.values d).
Proof.
  intros Hd Hr. induction Hd as [|[i r'] d [Hi Hb] Hd IH]; [done|]. simpl in *.
  rewrite NoDup_cons. intros [Hnin Hnd]. subst i.
  change (Dict.values ((id r', r') :: d)) with (r' :: Dict.values d).
  case_decide as E.
  - apply Hid in E as <-; [|done..]. rewrite filter_cons_False by auto.
    rewrite dict_key_elem in Hnin by done. by rewrite filter_ne_notin.
  - change (Dict.values ((?i, ?b) :: ?l)) with (b :: Dict.values l).
    rewrite filter_cons_True by (intros ->; done). f_equal. by apply IH.
Qed.

(** A block is popped from its key, and the key disappears with its last block. *)
Lemma pop_spec cache key r : wf_cache cache -> is_blk r -> r ∈ lookup_blocks cache key ->
  exists cache', BlockMap.pop id key (id r) cache = (Some r, cache') /\ wf_cache cache'
    /\ forall key', lookup_blocks cache' key'
         = if decide (key' = key) then filter (fun x => x ≠ r) (lookup_blocks cache key)
           else lookup_blocks cache key'.
Proof.
  intros H Hr Hin. unfold BlockMap.pop. unfold lookup_blocks in Hin.
  destruct (cache !! key) as [[b|d]|] eqn:He; [| |by apply not_elem_of_nil in Hin].
  - apply list_elem_of_singleton in Hin as <-. rewrite Z.eqb_refl.
    eexists. split_and!; [done|by apply map_Forall_delete|].
    intros key'. rewrite lookup_blocks_delete. case_decide; [|done]. subst.
    unfold lookup_blocks. rewrite He. by rewrite filter_cons_False by auto.
  - destruct (H _ _ He) as (Hne & Hnd & Hd). pose proof (proj2 (dict_key_elem d r Hd Hr) Hin) as Hk.
    pose proof (dict_values_del d r Hd Hr Hnd) as Hvals.
    eexists. split_and!.
    + f_equal. apply list_elem_of_fmap in Hin as ([i r'] & -> & Hin). simpl in *.
      rewrite Forall_forall in Hd. destruct (Hd _ Hin) as [Hi _]. simpl in Hi. subst i.
      by apply Dict.elem_get.
    + assert (Forall (fun x => x.1 = id x.2 /\ is_blk x.2) (Dict.del (id r) d)).
      { rewrite Forall_forall in *. intros x Hx. apply Hd. by eapply Dict.elem_del. }
      case_match eqn:Hlen; [|by apply map_Forall_delete].
      apply map_Forall_insert_2; [|done]. split_and!; [|by apply Dict.NoDup_del|done].
      intros E. by rewrite E in Hlen.
    + intros key'. case_match eqn:Hlen.
      * rewrite lookup_blocks_insert. case_decide; [|done]. subst.
        rewrite Hvals. unfold lookup_blocks. by rewrite He.
      * rewrite lookup_blocks_delete. case_decide; [|done]. subst.
        unfold lookup_blocks at 1. rewrite He, <- Hvals.
        destruct (Dict.del (id r) d) eqn:E; [done|]. rewrite zlen_cons in Hlen.
        pose proof (zlen_nonneg l). lia.
Qed.
End facts.
End BlockMapFacts.

(** ** Invariant of the pool *)

Module PoolFacts.
Import Pool BlockMapFacts.

(** The id of a block object never changes. *)
Definition rid (r : ref) : Z := match r with RBlk b => Z.of_nat b | _ => -1 end.

Lemma rid_inj r r' : is_blk r -> is_blk r' -> rid r = rid r' -> r = r'.
Proof. destruct r, r'; simpl; try done. intros _ _ H. f_equal. lia. Qed.

Definition refc (p : BlockPool) (r : ref) : Z := ref_cnt (obj p r).
Definition keyof (p : BlockPool) (r : ref) : option bytes := block_hash (obj p r).

(** The blocks that can be handed out: all but the null block. *)
Definition usable (p : BlockPool) (r : ref) : Prop := r ∈ blocks p /\ r <> RBlk 0.

Definition config (p : BlockPool) :=
  (num_gpu_blocks p, enable_caching p, hash_block_size p, blocks p, null_block p, enable_kv_cache_events p).

(** The state without reference counts: [free] is the free queue, oldest first;
    the cached blocks of a key are the blocks that carry it. *)
Record pool_core (p : BlockPool) (free : list ref) : Prop := {
  pc_num : 0 < num_gpu_blocks p;
  pc_blocks : blocks p = RBlk <$> seq 0 (Z.to_nat (num_gpu_blocks p));
  pc_null : null_block p = RBlk 0;
  pc_queue : Queue.rep (free_block_queue p) free;
  pc_id : forall r, is_blk r -> block_id (obj p r) = rid r;
  pc_is_null : forall r, is_blk r -> is_null (obj p r) = bool_decide (r = RBlk 0);
  pc_wf : wf_cache rid (cached_block_hash_to_block p);
  pc_cached : forall key r, r ∈ lookup_blocks (cached_block_hash_to_block p) key
                <-> is_blk r /\ keyof p r = Some key;
  pc_keyed : forall r key, is_blk r -> keyof p r = Some key -> usable p r /\ enable_caching p = true;
}.

(** Together with the counts: exactly the usable blocks without a reference are
    free. *)
Record pool_ok (p : BlockPool) (free : list ref) : Prop := {
  po_core : pool_core p free;
  po_refs : forall r, usable p r -> 0 <= refc p r;
  po_free : forall r, r ∈ free <-> usable p r /\ refc p r = 0;
}.

Definition core_view (p : BlockPool) :=
  (config p, free_block_queue p, cached_block_hash_to_block p).

Lemma core_view_obj p p' r : core_view p' = core_view p -> obj p' r = obj p r.
Proof. unfold core_view, obj. by intros [= _ _ _ _ _ _ -> _]. Qed.

Lemma core_view_config p p' : core_view p' = core_view p -> config p' = config p.
Proof. apply (f_equal (fun v => v.1.1)). Qed.

Lemma pool_core_view p p' free : core_view p' = core_view p -> pool_core p free -> pool_core p' free.
Proof.
  intros Hv []. pose proof (fun r => core_view_obj p p' r Hv) as Ho.
  injection Hv as E1 E2 E3 E4 E5 E6 E7 E8.
  split; unfold keyof, usable in *; rewrite ?E1, ?E2, ?E4, ?E5, ?E7, ?E8; try done;
    setoid_rewrite Ho; done.
Qed.

Lemma usable_blk p free r : pool_core p free -> usable p r -> is_blk r.
Proof. intros Hc [Hr _]. rewrite (pc_blocks _ _ Hc) in Hr. by apply list_elem_of_fmap in Hr as (b & -> & _). Qed.

Lemma usable_config p p' r : config p' = config p -> usable p' r <-> usable p r.
Proof. unfold usable. by intros [= _ _ _ -> _ _]. Qed.

Lemma on_metrics_ok c p : (forall m, exists m', c m = (Ok tt, m')) ->
  exists p', on_metrics c p = (Ok tt, p') /\ core_view p' = core_view p.
Proof.
  intros Hc. unfold on_metrics. destruct (metrics_collector p) as [m|]; [|by exists p].
  destruct (Hc m) as [m' ->]. by eexists.
Qed.

(** Changing data of one block, links untouched. *)
Definition with_obj (f : store -> store) (p : BlockPool) : BlockPool :=
  {| p with free_block_queue :=
       {| objs := f (objs (free_block_queue p)); num_free_blocks := num_free_blocks (free_block_queue p) |} |}.

Lemma on_store_modify f p : on_store (modify f) p = (Ok tt, with_obj f p).
Proof. reflexivity. Qed.

Lemma set_cache_ok f p : set_cache f p
  = (Ok tt, {| p with cached_block_hash_to_block := f (cached_block_hash_to_block p) |}).
Proof. reflexivity. Qed.

Lemma with_obj_rep r f p free :
  (forall b, prev_free_block (f b) = prev_free_block b /\ next_free_block (f b) = next_free_block b) ->
  Queue.rep (free_block_queue p) free ->
  Queue.rep (free_block_queue (with_obj (update r f) p)) free.
Proof.
  intros Hf. apply Queue.rep_same_links; [| |done]; intros r'; unfold Queue.prv, Queue.nxt; cbn;
    unfold update; case_decide; subst; try done; apply Hf.
Qed.

Lemma obj_with_obj r f p r' :
  obj (with_obj (update r f) p) r' = if decide (r' = r) then f (obj p r) else obj p r'.
Proof. reflexivity. Qed.

(** Setting a count keeps the core. *)
Lemma set_ref_cnt_core p free r c : pool_core p free ->
  pool_core (with_obj (set_ref_cnt r c) p) free.
Proof.
  intros []. unfold set_ref_cnt. split; try done.
  - by apply with_obj_rep.
  - intros r' Hr'. rewrite obj_with_obj. case_decide; subst; by apply pc_id0.
  - intros r' Hr'. rewrite obj_with_obj. case_decide; subst; by apply pc_is_null0.
  - intros key r'. change (cached_block_hash_to_block (with_obj _ p)) with (cached_block_hash_to_block p).
    rewrite pc_cached0. unfold keyof. rewrite obj_with_obj. by case_decide; subst.
  - intros r' key Hr'. unfold keyof. rewrite obj_with_obj. case_decide; subst; by apply pc_keyed0.
Qed.

Lemma refc_set_ref_cnt p r c r' :
  refc (with_obj (set_ref_cnt r c) p) r' = if decide (r' = r) then c else refc p r'.
Proof. unfold refc, set_ref_cnt. rewrite obj_with_obj. by case_decide. Qed.
Lemma keyof_set_ref_cnt p r c r' : keyof (with_obj (set_ref_cnt r c) p) r' = keyof p r'.
Proof. unfold keyof, set_ref_cnt. rewrite obj_with_obj. by case_decide; subst. Qed.

Lemma insert_ext id id' key r cache : (forall r, is_blk r -> id r = id' r) -> is_blk r ->
  wf_cache rid cache -> BlockMap.insert id key r cache = BlockMap.insert id' key r cache.
Proof.
  intros Hid Hr Hwf. unfold BlockMap.insert. destruct (cache !! key) as [[b|d]|] eqn:He; try done.
  - apply Hwf in He. by rewrite !Hid.
  - by rewrite Hid.
Qed.
Lemma pop_ext id id' key i cache : (forall r, is_blk r -> id r = id' r) ->
  wf_cache rid cache -> BlockMap.pop id key i cache = BlockMap.pop id' key i cache.
Proof.
  intros Hid Hwf. unfold BlockMap.pop. destruct (cache !! key) as [[b|d]|] eqn:He; try done.
  apply Hwf in He. by rewrite Hid.
Qed.

Section facts.
Context {E : Env}.

(** *** Eviction from the prefix cache *)

Lemma evict_spec p free r : pool_core p free -> is_blk r ->
  exists b p', maybe_evict_cached_block r p = (Ok b, p') /\ pool_core p' free /\ config p' = config p
    /\ (forall r', refc p' r' = refc p r')
    /\ (forall r', keyof p' r' = if decide (r' = r) then None else keyof p r').
Proof.
  intros Hc Hr. unfold maybe_evict_cached_block. msteps.
  destruct (on_metrics_ok (on_block_evicted (block_id (obj p r))) p (on_block_evicted_ok _))
    as (p1 & E1 & V1).
  rewrite (bind_ok _ _ _ _ _ E1). pose proof (pool_core_view _ _ _ V1 Hc) as Hc1.
  pose proof (fun r => core_view_obj p p1 r V1) as Ho.
  assert (config p1 = config p) as Hcf by by apply core_view_config.
  destruct (block_hash (obj p r)) as [key|] eqn:Hkey.
  2: { exists false, p1. unfold refc, keyof. setoid_rewrite Ho. split_and!; try done.
       intros r'. by case_decide; subst. }
  msteps. rewrite (pop_ext _ rid) by (apply (pc_id _ _ Hc1) || apply (pc_wf _ _ Hc1)).
  rewrite (pc_id _ _ Hc r Hr).
  destruct (pop_spec rid rid_inj (cached_block_hash_to_block p1) key r (pc_wf _ _ Hc1) Hr)
    as (cache' & -> & Hwf & Hl).
  { apply (pc_cached _ _ Hc1). unfold keyof. by rewrite Ho. }
  set (p2 := with_obj (reset_hash r) {| p1 with cached_block_hash_to_block := cache' |}).
  assert (pool_core p2 free /\ config p2 = config p
          /\ (forall r', refc p2 r' = refc p r')
          /\ (forall r', keyof p2 r' = if decide (r' = r) then None else keyof p r')) as (H1 & H2 & H3 & H4).
  { assert (forall r', keyof p2 r' = if decide (r' = r) then None else keyof p r') as Hk.
    { intros r'. unfold keyof, p2, reset_hash. rewrite obj_with_obj. case_decide; [done|].
      by rewrite <- Ho. }
    split_and!; [|done| |done].
    - destruct Hc1. unfold p2, reset_hash. split; try done.
      + by apply with_obj_rep.
      + intros r' Hr'. rewrite obj_with_obj. case_decide; subst; by apply pc_id0.
      + intros r' Hr'. rewrite obj_with_obj. case_decide; subst; by apply pc_is_null0.
      + intros key' r'. fold (reset_hash r) p2. rewrite Hk.
        change (cached_block_hash_to_block p2) with cache'. rewrite Hl.
        case_decide as Ek; [subst key'; rewrite list_elem_of_filter|]; rewrite (pc_cached0 _ r');
          unfold keyof; rewrite Ho; case_decide as Er; try (subst r'; rewrite Hkey); intuition congruence.
      + intros r' key' Hr'. fold (reset_hash r) p2. rewrite Hk. case_decide; [done|].
        intros Hk'. apply (pc_keyed0 r' key' Hr'). unfold keyof in *. by rewrite Ho.
    - intros r'. unfold refc, p2, reset_hash. rewrite obj_with_obj, <- Ho. by case_decide; subst. }
  rewrite (bind_ok _ _ _ _ _ (set_cache_ok _ _)), (bind_ok _ _ _ _ _ (on_store_modify _ _)). fold p2.
  destruct (enable_kv_cache_events p1); msteps.
  - exists true. eexists. split; [reflexivity|]. split; [by eapply pool_core_view, H1|]. done.
  - exists true, p2. done.
Qed.

Lemma take_block_spec p free r : pool_core p free -> refc p r = 0 ->
  exists p', take_block r p = (Ok tt, p') /\ pool_core p' free /\ config p' = config p
    /\ (forall r', refc p' r' = if decide (r' = r) then 1 else refc p r')
    /\ (forall r', keyof p' r' = keyof p r').
Proof.
  intros Hc H0. unfold take_block. msteps. unfold refc in H0. rewrite H0. cbn [Z.eqb assert_]. msteps.
  destruct (on_metrics_ok (on_block_allocated (block_id (obj (with_obj (set_ref_cnt r (0 + 1)) p) r)))
              (with_obj (set_ref_cnt r (0 + 1)) p) (on_block_allocated_ok _)) as (p1 & E1 & V1).
  exists p1. split; [done|]. split; [by eapply pool_core_view, set_ref_cnt_core|].
  split; [by apply core_view_config in V1|].
  pose proof (fun r => core_view_obj _ _ r V1) as Ho. unfold refc, keyof. setoid_rewrite Ho.
  split; intros r'; [apply refc_set_ref_cnt|apply keyof_set_ref_cnt].
Qed.

(** *** Queue operations *)

Definition with_queue (q : FreeKVCacheBlockQueue) (p : BlockPool) : BlockPool :=
  {| p with free_block_queue := q |}.

Lemma on_queue_ok {A} (c : M FreeKVCacheBlockQueue A) p a q :
  c (free_block_queue p) = (a, q) -> on_queue c p = (a, with_queue q p).
Proof. unfold on_queue, zoom. by intros ->. Qed.

Lemma with_queue_data q p r : Queue.same_data (free_block_queue p) q -> is_blk r ->
  refc (with_queue q p) r = refc p r /\ keyof (with_queue q p) r = keyof p r
  /\ block_id (obj (with_queue q p) r) = block_id (obj p r)
  /\ is_null (obj (with_queue q p) r) = is_null (obj p r).
Proof.
  intros Hd Hr. specialize (Hd r Hr). unfold Queue.data in Hd. unfold refc, keyof, obj. cbn.
  by injection Hd.
Qed.

Lemma with_queue_core p q free free' : Queue.same_data (free_block_queue p) q ->
  Queue.rep q free' -> pool_core p free -> pool_core (with_queue q p) free'.
Proof.
  intros Hd Hrep []. split; try done.
  - intros r Hr. destruct (with_queue_data q p r Hd Hr) as (_ & _ & -> & _). by apply pc_id0.
  - intros r Hr. destruct (with_queue_data q p r Hd Hr) as (_ & _ & _ & ->). by apply pc_is_null0.
  - intros key r. change (cached_block_hash_to_block (with_queue q p)) with (cached_block_hash_to_block p).
    rewrite pc_cached0. split; intros [Hr Hk]; destruct (with_queue_data q p r Hd Hr) as (_ & E1 & _);
      (split; [done|congruence]).
  - intros r key Hr. destruct (with_queue_data q p r Hd Hr) as (_ & -> & _). by apply pc_keyed0.
Qed.

(** *** Allocation *)

(** State of the loops of [get_new_blocks] after the blocks in [done]. *)
Definition allocated (p p' : BlockPool) (free done : list ref) : Prop :=
  pool_core p' free /\ config p' = config p
  /\ forall r, is_blk r ->
       refc p' r = (if decide (r ∈ done) then 1 else refc p r)
       /\ keyof p' r = (if decide (r ∈ done) then None else keyof p r).

Lemma allocated_step p p1 p2 free done b :
  allocated p p1 free done -> pool_core p2 free -> config p2 = config p1 ->
  (forall r, is_blk r -> refc p2 r = if decide (r = b) then 1 else refc p1 r) ->
  (forall r, is_blk r -> keyof p2 r = if decide (r = b) then None else keyof p1 r) ->
  allocated p p2 free (done ++ [b]).
Proof.
  intros (H1 & H2 & H3) Hc Hcf Hr Hk. split_and!; [done|congruence|].
  intros r Hb. rewrite Hr, Hk by done. destruct (H3 r Hb) as [-> ->].
  split; repeat case_decide; try done; set_solver.
Qed.

Lemma take_loop_spec p p0 free l : NoDup l -> Forall is_blk l -> (forall b, b ∈ l -> refc p b = 0) ->
  allocated p p0 free [] ->
  exists p', (if enable_caching p0
              then mfor l (fun block => maybe_evict_cached_block block ;; take_block block)
              else mfor l take_block) p0 = (Ok tt, p')
    /\ allocated p p' free l.
Proof.
  intros Hnd Hblk Href H0. pose proof (proj1 (Forall_forall _ _) Hblk) as Hblk'.
  assert (forall done b todo, l = done ++ b :: todo -> b ∉ done /\ is_blk b /\ refc p b = 0) as Hl.
  { intros done b todo ->. split_and!; [|apply Hblk'; set_solver|apply Href; set_solver].
    apply NoDup_app in Hnd as (_ & H & _). intros Hb. apply (H b Hb). by left. }
  destruct (enable_caching p0) eqn:Hen.
  - apply (mfor_ok _ (fun done p1 => allocated p p1 free done)); [|done].
    intros done b todo p1 E1 H1. destruct (Hl _ _ _ E1) as (Hb & Hbb & Hr0).
    pose proof H1 as (Hc1 & Hcf1 & Hd1).
    destruct (evict_spec p1 free b Hc1 Hbb) as (e & p2 & R2 & Hc2 & Hcf2 & Hr2 & Hk2).
    destruct (take_block_spec p2 free b Hc2) as (p3 & R3 & Hc3 & Hcf3 & Hr3 & Hk3).
    { rewrite Hr2. destruct (Hd1 b Hbb) as [-> _]. by rewrite decide_False. }
    exists p3. split; [by rewrite (bind_ok _ _ _ _ _ R2)|].
    apply (allocated_step p p1); try done; [congruence|..]; intros r Hr.
    + by rewrite Hr3, Hr2.
    + by rewrite Hk3, Hk2.
  - apply (mfor_ok _ (fun done p1 => allocated p p1 free done)); [|done].
    intros done b todo p1 E1 H1. destruct (Hl _ _ _ E1) as (Hb & Hbb & Hr0).
    pose proof H1 as (Hc1 & Hcf1 & Hd1).
    destruct (take_block_spec p1 free b Hc1) as (p3 & R3 & Hc3 & Hcf3 & Hr3 & Hk3).
    { destruct (Hd1 b Hbb) as [-> _]. by rewrite decide_False. }
    exists p3. split; [done|]. apply (allocated_step p p1); try done; intros r Hr.
    rewrite Hk3. case_decide as Hrb; [subst r|done].
    destruct (keyof p1 b) as [key|] eqn:Ek; [|done].
    apply (pc_keyed _ _ Hc1) in Ek as [_ Hen1]; [|done].
    destruct H0 as (_ & Hcf0 & _). rewrite <- Hcf0 in Hcf1. unfold config in Hcf1.
    injection Hcf1. intros. congruence.
Qed.

Lemma get_new_blocks_spec p free (n : nat) : pool_ok p free -> (n <= length free)%nat ->
  exists p', get_new_blocks (Z.of_nat n) p = (Ok (take n free), p') /\ pool_ok p' (drop n free)
    /\ allocated p p' (drop n free) (take n free).
Proof.
  intros [Hc Href Hfree] Hn. 
  pose proof (take_drop n free) as Hfl. assert (zlen (take n free) = Z.of_nat n) as Hl1
    by (unfold zlen; rewrite length_take; lia).
  set (l1 := take n free) in *. set (l2 := drop n free) in *. clearbody l1 l2. symmetry in Hfl.
  pose proof (pc_queue _ _ Hc) as Hq. pose proof Hq as Hq0. rewrite Hfl in Hq0.
  destruct (Queue.popleft_n_rep _ _ _ Hq0) as (q & Rq & Hrep & Hd).
  rewrite Hl1 in Rq.
  unfold get_new_blocks. msteps. unfold get_num_free_blocks. rewrite (Queue.rep_num _ _ Hq).
  replace (zlen free <? Z.of_nat n) with false by (unfold zlen; lia).
  rewrite (bind_ok _ _ _ _ _ (on_queue_ok _ _ _ _ Rq)).
  pose proof (with_queue_core _ _ _ _ Hd Hrep Hc) as Hc1.
  pose proof (Queue.rep_nodup _ _ Hq0) as Hnd. pose proof (Queue.rep_blk _ _ Hq0) as Hblk.
  apply NoDup_app in Hnd as (Hnd1 & Hdis & Hnd2).
  apply Forall_app in Hblk as [Hblk1 Hblk2].
  assert (forall r, r ∈ l1 -> r ∈ free) as Hsub1 by (intros r Hr; rewrite Hfl; set_solver).
  assert (allocated p (with_queue q p) l2 []) as H0.
  { split_and!; [done|done|]. intros r Hr.
    destruct (with_queue_data q p r Hd Hr) as (-> & -> & _). by rewrite !decide_False by set_solver. }
  destruct (take_loop_spec p (with_queue q p) l2 l1) as (p' & R' & H'); [done|done| |done|].
  { intros b Hb. by apply Hfree, Hsub1. }
  msteps. exists p'. split; [done|]. split; [|done].
  destruct H' as (Hc' & Hcf' & Hd').
  assert (forall r, usable p' r <-> usable p r) as Hu by (intros; by apply usable_config).
  split; [done|..].
  - intros r Hr. pose proof (usable_blk _ _ _ Hc' Hr) as Hb. destruct (Hd' r Hb) as [-> _].
    case_decide; [lia|]. by apply Href, Hu.
  - intros r. rewrite Hu. split.
    + intros Hr. assert (r ∈ free) as Hf by (rewrite Hfl; set_solver).
      apply Hfree in Hf as [Hur H0r]. split; [done|].
      destruct (Hd' r (usable_blk _ _ _ Hc Hur)) as [-> _]. rewrite decide_False; [done|].
      intros Hr1. by apply (Hdis r Hr1).
    + intros [Hur Hr]. destruct (Hd' r (usable_blk _ _ _ Hc Hur)) as [Er _]. rewrite Er in Hr.
      case_decide as Hin; [done|]. assert (r ∈ free) as Hf by by apply Hfree.
      rewrite Hfl in Hf. set_solver.
Qed.

Lemma get_new_blocks_too_many p free n : pool_ok p free -> zlen free < n ->
  get_new_blocks n p = (Raise ValueError, p).
Proof.
  intros [Hc _ _] Hn. unfold get_new_blocks. msteps. unfold get_num_free_blocks.
  rewrite (Queue.rep_num _ _ (pc_queue _ _ Hc)). by replace (zlen free <? n) with true by lia.
Qed.

(** The null block may occur any number of times in a block list. *)
Definition nonnull (l : list ref) : list ref := filter (fun r => r <> RBlk 0) l.

Lemma elem_of_nonnull r l : r ∈ nonnull l <-> r <> RBlk 0 /\ r ∈ l.
Proof. unfold nonnull. by rewrite list_elem_of_filter. Qed.

Lemma nonnull_app l1 l2 : nonnull (l1 ++ l2) = nonnull l1 ++ nonnull l2.
Proof. apply filter_app. Qed.

(** No block but the null block comes twice: [b] is new at its position. *)
Lemma nonnull_fresh done b todo : NoDup (nonnull (done ++ b :: todo)) -> b <> RBlk 0 -> b ∉ done.
Proof.
  rewrite nonnull_app. intros (_ & H & _)%NoDup_app Hb Hin.
  apply (H b); apply elem_of_nonnull; (split; [done|]); [done|by left].
Qed.

(** *** Touching *)

(** Taking one more reference to the blocks of [l]; the count of the null block
    is not maintained. *)
Definition touched (p p' : BlockPool) (free l : list ref) : Prop :=
  pool_ok p' (filter (fun r => r ∉ l) free) /\ config p' = config p
  /\ forall r, is_blk r -> keyof p' r = keyof p r
       /\ (r <> RBlk 0 -> refc p' r = refc p r + (if decide (r ∈ l) then 1 else 0)).

Lemma touch_block_spec p free r : pool_ok p free -> r ∈ blocks p ->
  exists p', touch_block r p = (Ok tt, p') /\ touched p p' free [r].
Proof.
  intros [Hc Href Hfree] Hin. pose proof (pc_queue _ _ Hc) as Hq.
  assert (is_blk r) as Hb.
  { rewrite (pc_blocks _ _ Hc) in Hin. by apply list_elem_of_fmap in Hin as (b & -> & _). }
  set (free' := filter (fun x => x ∉ [r]) free).
  assert (exists q, Queue.same_data (free_block_queue p) q /\ Queue.rep q free'
            /\ (if (ref_cnt (obj p r) =? 0) && negb (is_null (obj p r))
                then on_queue (Queue.remove r) else mret tt) p = (Ok tt, with_queue q p))
    as (q & Hd & Hrep & Rq).
  { rewrite (pc_is_null _ _ Hc r Hb). change (ref_cnt (obj p r)) with (refc p r).
    destruct (decide (r ∈ free)) as [Hf|Hf].
    - pose proof Hf as [[_ Hne] H0]%Hfree. rewrite H0, bool_decide_eq_false_2 by done. cbn [Z.eqb andb negb].
      apply list_elem_of_split in Hf as (l1 & l2 & Efree). rewrite Efree in Hq.
      destruct (Queue.remove_rep _ _ _ _ Hq) as (q & Rq & Hrep & Hd). exists q.
      split_and!; [done| |by apply on_queue_ok]. unfold free'. rewrite Efree.
      rewrite (list_filter_iff _ (fun x => x ≠ r)) by (intros; by rewrite list_elem_of_singleton).
      by rewrite Queue.filter_ne_split by apply (Queue.rep_nodup _ _ Hq).
    - exists (free_block_queue p). assert (free' = free) as ->.
      { unfold free'. apply filter_all. intros x Hx ->%list_elem_of_singleton. done. }
      split_and!; [done|done|]. replace ((refc p r =? 0) && negb (bool_decide (r = RBlk 0))) with false.
      { unfold mret, M_ret. by destruct p. }
      case_bool_decide as Hn; cbn [negb]; [by rewrite andb_false_r|]. rewrite andb_true_r.
      destruct (Z.eqb_spec (refc p r) 0); [|done]. exfalso. by apply Hf, Hfree. }
  pose proof (with_queue_core _ _ _ _ Hd Hrep Hc) as Hc1.
  unfold touch_block. msteps.
  set (p1 := with_obj (set_ref_cnt r (refc (with_queue q p) r + 1)) (with_queue q p)).
  destruct (on_metrics_ok (on_block_accessed (block_id (obj p r))) p1 (on_block_accessed_ok _)) as (p2 & E2 & V2).
  exists p2. split; [done|]. pose proof (fun x => core_view_obj _ _ x V2) as Ho.
  assert (config p2 = config p) as Hcf by (by apply core_view_config in V2).
  assert (pool_core p2 free') as Hc2 by (eapply pool_core_view, set_ref_cnt_core, Hc1; done).
  assert (forall x, is_blk x -> refc p2 x = refc p x + (if decide (x ∈ [r]) then 1 else 0)) as Hr2.
  { intros x Hx. destruct (with_queue_data q p x Hd Hx) as (Ex & _).
    unfold refc at 1. rewrite Ho. fold (refc p1 x). unfold p1. rewrite refc_set_ref_cnt.
    destruct (decide (x = r)) as [->|Hne].
    - rewrite decide_True by by left. by rewrite <- Ex.
    - rewrite decide_False by (by intros ->%list_elem_of_singleton). lia. }
  split_and!; [split|done|].
  - done.
  - intros x Hx. rewrite (usable_config _ _ _ Hcf) in Hx. rewrite Hr2 by exact (usable_blk _ _ _ Hc Hx).
    specialize (Href x Hx). case_decide; lia.
  - intros x. rewrite (usable_config _ _ _ Hcf). unfold free'. rewrite list_elem_of_filter, Hfree.
    split.
    + intros (Hx & Hu & H0). split; [done|]. rewrite Hr2 by exact (usable_blk _ _ _ Hc Hu).
      rewrite decide_False by done. lia.
    + intros [Hu H0]. rewrite Hr2 in H0 by exact (usable_blk _ _ _ Hc Hu). specialize (Href x Hu).
      case_decide; [lia|]. split_and!; [done|done|lia].
  - intros x Hx. split; [|by intros; apply Hr2]. unfold keyof at 1. rewrite Ho. fold (keyof p1 x).
    unfold p1. rewrite keyof_set_ref_cnt. by apply with_queue_data.
Qed.

Lemma touch_spec p free l : pool_ok p free -> NoDup (nonnull l) -> (forall r, r ∈ l -> r ∈ blocks p) ->
  exists p', touch l p = (Ok tt, p') /\ touched p p' free l.
Proof.
  intros Hp Hnd Hl. unfold touch.
  apply (mfor_ok touch_block (fun done p1 => touched p p1 free done) l).
  - intros done b todo p1 -> (Hp1 & Hcf1 & Hd1).
    destruct (touch_block_spec p1 _ b Hp1) as (p2 & R2 & Hp2 & Hcf2 & Hd2).
    { assert (blocks p1 = blocks p) as -> by (unfold config in Hcf1; by injection Hcf1).
      apply Hl. set_solver. }
    exists p2. split; [done|]. split_and!.
    + rewrite list_filter_filter in Hp2. erewrite list_filter_iff; [exact Hp2|].
      intros x. cbn. rewrite elem_of_app. tauto.
    + congruence.
    + intros r Hr. destruct (Hd1 r Hr) as [K1 R1], (Hd2 r Hr) as [K2 R2'].
      split; [congruence|]. intros Hne. rewrite R2', R1 by done.
      destruct (decide (r = b)) as [->|Hrb].
      * pose proof (nonnull_fresh _ _ _ Hnd Hne). rewrite (decide_False (P := b ∈ done)) by done.
        rewrite !decide_True by set_solver. lia.
      * rewrite (decide_False (P := r ∈ [b])) by set_solver.
        destruct (decide (r ∈ done)); [rewrite decide_True by set_solver|rewrite decide_False by set_solver]; lia.
  - split_and!; [|done|].
    + rewrite filter_all; [done|]. intros x _. apply not_elem_of_nil.
    + intros r Hr. split; [done|]. intros _. rewrite decide_False by apply not_elem_of_nil. lia.
Qed.

(** *** Freeing *)

Lemma decr_loop_spec p free l : pool_core p free -> NoDup (nonnull l) ->
  exists p', mfor l decr_ref p = (Ok tt, p') /\ pool_core p' free /\ config p' = config p
    /\ forall r, keyof p' r = keyof p r
         /\ (r <> RBlk 0 -> refc p' r = refc p r - (if decide (r ∈ l) then 1 else 0)).
Proof.
  intros Hp Hnd.
  apply (mfor_ok decr_ref (fun done p' => pool_core p' free /\ config p' = config p
    /\ forall r, keyof p' r = keyof p r
         /\ (r <> RBlk 0 -> refc p' r = refc p r - (if decide (r ∈ done) then 1 else 0))) l).
  - intros done b todo p1 -> (Hc1 & Hcf1 & Hd1).
    exists (with_obj (set_ref_cnt b (refc p1 b - 1)) p1). split; [done|].
    split_and!; [by apply set_ref_cnt_core|done|].
    intros r. destruct (Hd1 r) as [K1 R1]. rewrite keyof_set_ref_cnt, refc_set_ref_cnt.
    split; [done|]. intros Hne. destruct (decide (r = b)) as [->|Hrb].
    + pose proof (nonnull_fresh _ _ _ Hnd Hne). rewrite R1 by done.
      rewrite decide_False by done. rewrite decide_True by set_solver. lia.
    + rewrite R1 by done.
      destruct (decide (r ∈ done)); [rewrite decide_True by set_solver|rewrite decide_False by set_solver]; lia.
  - split_and!; [done|done|]. intros r. rewrite decide_False by apply not_elem_of_nil.
    split; [done|lia].
Qed.

(** Dropping one reference to each block of [l]: blocks whose last reference goes
    are appended to the free queue in the order given. *)
Definition freed (p p' : BlockPool) (free l : list ref) : Prop :=
  pool_ok p' (free ++ filter (fun r => r <> RBlk 0 /\ refc p r = 1) l) /\ config p' = config p
  /\ forall r, is_blk r -> keyof p' r = keyof p r
       /\ (r <> RBlk 0 -> refc p' r = refc p r - (if decide (r ∈ l) then 1 else 0)).

Lemma free_blocks_spec p free l : pool_ok p free -> NoDup (nonnull l) ->
  (forall r, r ∈ l -> r = RBlk 0 \/ (usable p r /\ 1 <= refc p r)) ->
  exists p', free_blocks l p = (Ok tt, p') /\ freed p p' free l.
Proof.
  intros [Hc Href Hfree] Hnd Hl. unfold free_blocks.
  destruct (decr_loop_spec p free l Hc Hnd) as (p1 & R1 & Hc1 & Hcf1 & Hd1).
  rewrite (bind_ok _ _ _ _ _ R1). msteps.
  assert (forall r, r ∈ l -> is_blk r) as Hblk.
  { intros r Hr. destruct (Hl r Hr) as [->|[Hu _]]; [done|exact (usable_blk _ _ _ Hc Hu)]. }
  set (back := filter (fun r => r <> RBlk 0 /\ refc p r = 1) l).
  assert (filter (fun r => ref_cnt (obj p1 r) = 0 /\ is_null (obj p1 r) = false) l = back) as ->.
  { apply filter_ext_in. intros r Hr. change (ref_cnt (obj p1 r)) with (refc p1 r).
    rewrite (pc_is_null _ _ Hc1) by auto. rewrite bool_decide_eq_false.
    destruct (decide (r = RBlk 0)) as [|Hne]; [tauto|].
    destruct (Hd1 r) as [_ Er]. rewrite Er, decide_True by done. intuition lia. }
  assert (forall r, r ∈ back -> r ∈ l /\ r <> RBlk 0 /\ refc p r = 1) as Hback
    by (intros r Hr; apply list_elem_of_filter in Hr; tauto).
  assert (forall r, r ∈ back -> usable p r) as Hbu.
  { intros r Hr. destruct (Hback r Hr) as (Hr1 & Hne & _). by destruct (Hl r Hr1) as [->|[? _]]. }
  destruct (Queue.append_n_rep _ _ back (pc_queue _ _ Hc1)) as (q & Rq & Hrep & Hd).
  { apply NoDup_app. split_and!; [apply (Queue.rep_nodup _ _ (pc_queue _ _ Hc))| |].
    2: { assert (back = filter (fun r => refc p r = 1) (nonnull l)) as ->; [|by apply NoDup_filter].
         unfold back, nonnull. rewrite list_filter_filter. apply list_filter_iff. intros. tauto. }
    intros r Hf Hr. apply Hfree in Hf as [_ H0]. destruct (Hback r Hr) as (_ & _ & ?). lia. }
  { rewrite Forall_forall. intros r Hr. apply Hblk. by apply Hback. }
  exists (with_queue q p1). split; [by apply on_queue_ok|].
  pose proof (with_queue_core _ _ _ _ Hd Hrep Hc1) as Hc2.
  assert (forall r, is_blk r -> keyof (with_queue q p1) r = keyof p r
            /\ (r <> RBlk 0 -> refc (with_queue q p1) r = refc p r - (if decide (r ∈ l) then 1 else 0))) as Hdata.
  { intros r Hr. destruct (with_queue_data q p1 r Hd Hr) as (-> & -> & _). apply Hd1. }
  assert (forall r, usable p r -> refc (with_queue q p1) r = refc p r - (if decide (r ∈ l) then 1 else 0)) as Hrefc.
  { intros r Hu. apply Hdata; [exact (usable_blk _ _ _ Hc Hu)|apply Hu]. }
  split_and!; [split|done|done].
  - done.
  - intros r Hr. apply (usable_config p) in Hr; [|done]. pose proof (usable_blk _ _ _ Hc Hr) as Hb.
    rewrite (Hrefc r Hr). specialize (Href r Hr). case_decide as Hin; [|lia].
    destruct (Hl r Hin) as [->|[_ ?]]; [by destruct Hr|lia].
  - intros r. rewrite (usable_config p) by done. rewrite elem_of_app, Hfree. split.
    + intros [[Hu H0]|Hr].
      * split; [done|]. rewrite (Hrefc r Hu).
        rewrite decide_False; [lia|]. intros Hin. destruct (Hl r Hin) as [->|[_ ?]]; [by destruct Hu|lia].
      * split; [by apply Hbu|]. destruct (Hback r Hr) as (Hin & _ & H1).
        rewrite (Hrefc r (Hbu r Hr)). rewrite decide_True by done. lia.
    + intros [Hu H0]. rewrite (Hrefc r Hu) in H0.
      case_decide as Hin; [|left; split; [done|lia]]. right. apply list_elem_of_filter.
      split; [|done]. split; [by destruct Hu|lia].
Qed.

(** *** Looking up *)

(** Every returned block carries the hash for its group; a miss means that some
    group has no block with the hash. *)
Lemma get_cached_block_spec p free h gids : pool_core p free ->
  Forall (fun g => 0 <= g < 2 ^ 32) gids ->
  exists o, get_cached_block h gids p = Ok o
    /\ match o with
       | Some bs => Forall2 (fun g b => usable p b /\ exists key,
                       make_block_hash_with_group_id h g = Ok key /\ keyof p b = Some key) gids bs
       | None => exists g key, g ∈ gids /\ make_block_hash_with_group_id h g = Ok key
                  /\ forall b, is_blk b -> keyof p b <> Some key
       end.
Proof.
  intros Hc Hg. induction Hg as [|g gids Hg _ IH]; cbn [get_cached_block]; [eexists; split; [done|constructor]|].
  destruct (make_block_hash_with_group_id_ok h g Hg) as (key & Ek & _). rewrite Ek. cbn [mbind res_bind].
  rewrite (get_one_block_spec rid) by apply (pc_wf _ _ Hc). cbn [mbind res_bind].
  destruct (lookup_blocks (cached_block_hash_to_block p) key) as [|b l] eqn:El; cbn [head].
  - exists None. split; [done|]. exists g, key. split_and!; [by left|done|].
    intros b Hb Hkb. assert (b ∈ lookup_blocks (cached_block_hash_to_block p) key) as Hin
      by by apply (pc_cached _ _ Hc). rewrite El in Hin. by apply not_elem_of_nil in Hin.
  - destruct IH as (o & -> & Ho). cbn [mbind res_bind].
    assert (is_blk b /\ keyof p b = Some key) as [Hb Hkb]
      by (apply (pc_cached _ _ Hc); rewrite El; by left).
    destruct o as [bs|]; cbn [option_map]; eexists; (split; [done|]).
    + constructor; [|done]. split; [by destruct (pc_keyed _ _ Hc b key Hb Hkb)|]. by exists key.
    + destruct Ho as (g' & key' & ? & ? & ?). exists g', key'. split_and!; [by right|done..].
Qed.

(** *** Caching full blocks *)

Lemma cache_block_core p free r key : pool_core p free -> enable_caching p = true -> usable p r ->
  keyof p r = None ->
  let p' := {| (with_obj (update r (fun b => {| b with block_hash := Some key |})) p)
               with cached_block_hash_to_block := BlockMap.insert rid key r (cached_block_hash_to_block p) |} in
  pool_core p' free /\ (forall r', refc p' r' = refc p r')
  /\ (forall r', keyof p' r' = if decide (r' = r) then Some key else keyof p r').
Proof.
  intros Hc Hen Hu Hk p'. pose proof (usable_blk _ _ _ Hc Hu) as Hb.
  assert (forall r', keyof p' r' = if decide (r' = r) then Some key else keyof p r') as Hk'
    by (intros r'; unfold keyof, p', obj; cbn; unfold update; by case_decide).
  destruct (insert_spec rid rid_inj (cached_block_hash_to_block p) key r (pc_wf _ _ Hc) Hb) as [Hwf Hl].
  { intros Hin. apply (pc_cached _ _ Hc) in Hin as [_ Hin]. congruence. }
  split_and!; [|intros r'; unfold refc, p', obj; cbn; unfold update; by case_decide; subst|done].
  destruct Hc. split; try done.
  - by apply with_obj_rep.
  - intros r' Hr'. unfold p', obj; cbn. unfold update. case_decide; subst; by apply pc_id0.
  - intros r' Hr'. unfold p', obj; cbn. unfold update. case_decide; subst; by apply pc_is_null0.
  - intros key' r'. rewrite Hk'. change (cached_block_hash_to_block p')
      with (BlockMap.insert rid key r (cached_block_hash_to_block p)). rewrite Hl.
    case_decide as Ek; [subst key'; rewrite elem_of_app, list_elem_of_singleton|];
      rewrite pc_cached0; case_decide as Er; try subst r'; rewrite ?Hk; intuition congruence.
  - intros r' key' Hr'. rewrite Hk'. case_decide; [by subst|]. by apply pc_keyed0.
Qed.

(** What caching does to the blocks of a slice, hashed by [hs] from index [i] on. *)
Definition cached_slice (p p' : BlockPool) (gid : Z) (hs : list bytes) (i : nat) (blks : list ref) : Prop :=
  config p' = config p
  /\ (forall r, refc p' r = refc p r)
  /\ (forall r, is_blk r -> r ∉ blks \/ r = RBlk 0 -> keyof p' r = keyof p r)
  /\ (forall j r, blks !! j = Some r -> r <> RBlk 0 -> exists h key,
        hs !! (i + j)%nat = Some h /\ make_block_hash_with_group_id h gid = Ok key
        /\ keyof p' r = Some key).

(** Blocks that can be cached: null blocks, or referenced blocks without a hash. *)
Definition cacheable (p : BlockPool) (blks : list ref) : Prop :=
  (forall r, r ∈ blks -> r = RBlk 0 \/ (usable p r /\ keyof p r = None))
  /\ NoDup (filter (fun r => r <> RBlk 0) blks).

Lemma cache_loop_spec free gid hs blks : 0 <= gid < 2 ^ 32 -> forall p (i : nat) acc,
  pool_core p free -> enable_caching p = true -> cacheable p blks ->
  (i + length blks <= length hs)%nat ->
  exists out p', cache_loop gid hs (Z.of_nat i) blks acc p = (Ok out, p')
    /\ pool_core p' free /\ cached_slice p p' gid hs i blks.
Proof.
  intros Hg. induction blks as [|r blks IH]; intros p i acc Hc Hen [Hcb Hnd] Hi; cbn [cache_loop length] in *.
  { exists acc, p. by do 5 (split; [done|]). }
  replace (Z.of_nat i + 1) with (Z.of_nat (S i)) by lia. msteps.
  destruct (Hcb r) as [->|[Hu Hk]]; [by left| |].
  - rewrite (pc_is_null _ _ Hc) by done. cbn [bool_decide decide_rel ref_eq_dec].
    rewrite bool_decide_eq_true_2 by done.
    destruct (IH p (S i) acc Hc Hen) as (out & p' & E1 & Hc' & H1 & H2 & H3 & H4); [|lia|].
    { split; [intros; apply Hcb; by right|]. by rewrite filter_cons_False in Hnd by auto. }
    exists out, p'. do 4 (split; [done|]). split.
    + intros r Hr [Hn|Hn]; apply H3; [done|left; set_solver|done|by right].
    + intros [|j] r Hj Hne; [by injection Hj as <-|]. destruct (H4 j r Hj Hne) as (h & key & ? & ? & ?).
      exists h, key. by replace (i + S j)%nat with (S i + j)%nat by lia.
  - pose proof (usable_blk _ _ _ Hc Hu) as Hb. pose proof Hu as [Hin Hne].
    rewrite filter_cons_True in Hnd by done. apply NoDup_cons in Hnd as [Hr Hnd].
    assert (r ∉ blks) as Hr' by (intros H; apply Hr, list_elem_of_filter; done).
    rewrite (pc_is_null _ _ Hc) by done.
    rewrite bool_decide_eq_false_2 by done.
    change (block_hash (obj p r)) with (keyof p r). rewrite Hk, bool_decide_eq_true_2 by done. msteps.
    rewrite py_get_nonneg, Nat2Z.id by lia.
    destruct (lookup_lt_is_Some_2 hs i) as [h Hh]; [lia|]. rewrite Hh. cbn [res_of_option]. msteps.
    destruct (make_block_hash_with_group_id_ok h gid Hg) as (key & Ekey & _). rewrite Ekey. msteps.
    destruct (cache_block_core p free r key Hc Hen) as (Hc1 & Hr1 & Hk1); [done|done|].
    set (p1 := {| (with_obj _ p) with cached_block_hash_to_block := _ |}) in *.
    assert (on_store (set_block_hash r key) p
            = (Ok tt, with_obj (update r (fun b => {| b with block_hash := Some key |})) p)) as E1.
    { unfold on_store, set_block_hash. unfold on_queue, zoom. msteps.
      change (block_hash (objs (free_block_queue p) r)) with (keyof p r). rewrite Hk. msteps. done. }
    rewrite (bind_ok _ _ _ _ _ E1). msteps.
    rewrite (insert_ext _ rid); [|intros x Hx; unfold obj; cbn; unfold update;
      case_decide; subst; by apply (pc_id _ _ Hc)|done|apply (pc_wf _ _ Hc)].
    fold p1.
    destruct (IH p1 (S i) ((fun l => l ++ [convert h]) <$> acc) Hc1 Hen) as (out & p' & E2 & Hc' & H1 & H2 & H3 & H4).
    { split; [|done]. intros x Hx. destruct (Hcb x) as [->|[Hux Hkx]]; [by right|by left|right].
      split; [done|]. rewrite Hk1. rewrite decide_False; [done|congruence]. }
    { lia. }
    exists out, p'. do 2 (split; [done|]). split; [|split; [|split]].
    + by rewrite H1.
    + intros x. by rewrite H2, Hr1.
    + intros x Hx Hn. assert (x ≠ r) by (destruct Hn as [Hn| ->]; [set_solver|congruence]).
      rewrite H3, Hk1, decide_False; [done|done|done|]. destruct Hn; [left; set_solver|by right].
    + intros [|j] x Hj Hxne.
      * injection Hj as <-. exists h, key. rewrite Nat.add_0_r. split_and!; [done|done|].
        rewrite H3, Hk1, decide_True; [done|done|done|by left].
      * destruct (H4 j x Hj Hxne) as (h' & key' & ? & ? & ?). exists h', key'.
        by replace (i + S j)%nat with (S i + j)%nat by lia.
Qed.

(** The hashes of a request at the granularity of a group's blocks. *)
Definition group_hashes (request : Request) (hbs bs : Z) : list bytes :=
  if bs =? hbs then block_hashes request
  else let s := Z.to_nat (bs / hbs) in
       merged (block_hashes request) s <$> seq 0 (length (block_hashes request) / s).

(** Block sizes the configuration allows: multiples of the hash block size. *)
Definition group_size_ok (hbs bs : Z) : Prop := 0 < hbs /\ 0 < bs /\ bs mod hbs = 0.

Lemma hashes_for_spec request hbs bs : group_size_ok hbs bs ->
  exists l, hashes_for request hbs bs = Ok l
    /\ bhl_len l = zlen (group_hashes request hbs bs)
    /\ zlen (group_hashes request hbs bs) <= zlen (block_hashes request)
    /\ (forall a b : nat, (a <= b <= length (group_hashes request hbs bs))%nat ->
          bhl_slice l (Z.of_nat a) (Z.of_nat b) = Ok (take (b - a) (drop a (group_hashes request hbs bs))))
    /\ (forall (i : nat) h, group_hashes request hbs bs !! i = Some h -> bhl_get l (Z.of_nat i) = Ok h).
Proof.
  intros (Hh & Hb & Hm). unfold hashes_for, group_hashes.
  destruct (Z.eqb_spec bs hbs) as [->|Hne].
  - exists (Hashes (block_hashes request)). split_and!; [done|done|lia| |].
    + intros a b Hab. cbn. rewrite py_slice_nonneg by (unfold zlen; lia).
      f_equal. f_equal; [lia|]. f_equal. lia.
    + intros i h Hi. cbn. rewrite py_get_nonneg, Nat2Z.id by lia. by rewrite Hi.
  - replace (hbs =? 0) with false by lia. rewrite Hm. cbn [Z.eqb].
    set (s := Z.to_nat (bs / hbs)). set (hs := block_hashes request).
    assert (bs = Z.of_nat s * hbs) as Ebs.
    { unfold s. pose proof (Z.div_mod bs hbs ltac:(lia)). rewrite Z2Nat.id by (apply Z.div_pos; lia). lia. }
    assert (1 <= s)%nat as Hs by nia.
    exists (HashesWithBlockSize hs (Z.of_nat s)). pose proof (Nat.Div0.mul_div_le (length hs) s) as Hdiv.
    assert (zlen (merged hs s <$> seq 0 (length hs / s)) = Z.of_nat (length hs / s)) as Hlen
      by (unfold zlen; by rewrite length_fmap, length_seq).
    split_and!.
    + replace bs with (Z.of_nat (s * Z.to_nat hbs)) by lia.
      replace hbs with (Z.of_nat (Z.to_nat hbs)) at 1 by lia. apply with_block_size_spec. lia.
    + rewrite Hlen. cbn. unfold zlen. by rewrite Nat2Z.inj_div.
    + rewrite Hlen. unfold zlen. nia.
    + intros a b Hab. rewrite length_fmap, length_seq in Hab. cbn [bhl_slice bhl_len].
      assert (zlen hs / Z.of_nat s = Z.of_nat (length hs / s)) as -> by (unfold zlen; by rewrite Nat2Z.inj_div).
      unfold py_clamp, py_index. replace (Z.of_nat a <? 0) with false by lia.
      replace (Z.of_nat b <? 0) with false by lia. rewrite !Z.min_r, !Z.max_r by lia.
      replace b with (a + (b - a))%nat at 1 by lia. rewrite values_at_spec by nia.
      rewrite <- fmap_drop, <- fmap_take, drop_seq, take_seq. do 2 f_equal. f_equal; lia.
    + intros i h Hi. apply list_lookup_fmap_Some in Hi as (j & -> & Hj). apply lookup_seq in Hj as [-> Hj].
      apply get_value_at_spec; nia.
Qed.

(** From a non-negative index on, the extra keys can always be computed. *)
Lemma mm_keys_loop_idx a b feats i : 0 <= i -> exists keys i', mm_keys_loop a b feats i = (keys, i') /\ 0 <= i'.
Proof.
  revert i. induction feats as [|f feats IH]; intros i Hi; cbn [mm_keys_loop]; [by eexists _, _|].
  destruct (IH (i + 1)) as (keys & i' & E1 & Hi'); [lia|].
  repeat case_match; simplify_eq; eexists _, _; (split; [done|lia]).
Qed.

Lemma extra_keys_ok (r : Request) a b idx : 0 <= idx ->
  exists keys idx' r', generate_block_hash_extra_keys sha256_digest a b idx r = (Ok (keys, idx'), r')
    /\ 0 <= idx' /\ same_but_cache r r'.
Proof.
  intros Hi. unfold generate_block_hash_extra_keys. msteps.
  assert (exists keys idx', gen_mm_extra_hash_keys r a b idx = Ok (keys, idx') /\ 0 <= idx') as (keys & idx' & -> & Hi').
  { unfold gen_mm_extra_hash_keys. destruct (last (mm_features r)) as [l|]; [|by eexists _, _].
    case_match; [by eexists _, _|]. replace (idx <? 0) with false by lia. cbn [mbind res_bind].
    destruct (mm_keys_loop_idx a b (drop (Z.to_nat idx) (mm_features r)) idx Hi) as (k & i' & -> & ?).
    by eexists _, _. }
  msteps.
  assert (exists ks r', gen_prompt_embeds_extra_hash_keys sha256_digest a b r = (Ok ks, r') /\ same_but_cache r r')
    as (ks & r' & E1 & Hr').
  { unfold gen_prompt_embeds_extra_hash_keys. msteps. destruct (prompt_embeds r); [|exists [], r; split; [done|apply same_but_cache_refl]].
    case_match; [eexists _, r; split; [done|apply same_but_cache_refl]|]. by eexists _, _. }
  rewrite (bind_ok _ _ _ _ _ E1). exists (match gen_lora_extra_hash_keys r ++ keys ++
      match cache_salt r with
      | Some salt => if (a =? 0) && negb (String.eqb salt "") then [KStr salt] else []
      | None => []
      end ++ ks with [] => None | l => Some l end), idx', r'.
  split; [|done]. by destruct (gen_lora_extra_hash_keys r ++ _).
Qed.

Lemma extra_keys_loop_ok blks bs (p : BlockPool) (a n : nat) : (a + n <= length blks)%nat ->
  forall r idx acc, 0 <= idx ->
  exists keys r', extra_keys_loop blks bs (py_range (Z.of_nat a) (Z.of_nat (a + n))) idx acc (p, r)
      = (Ok keys, (p, r')) /\ same_but_cache r r'.
Proof.
  revert a. induction n as [|n IH]; intros a Ha r idx acc Hi.
  - rewrite py_range_nil by lia. exists acc, r. split; [done|apply same_but_cache_refl].
  - rewrite py_range_cons by lia. cbn [extra_keys_loop]. rewrite py_get_nonneg, Nat2Z.id by lia.
    destruct (lookup_lt_is_Some_2 blks a) as [b Hb]; [lia|]. rewrite Hb. cbn [res_of_option]. msteps.
    replace (Z.of_nat a + 1) with (Z.of_nat (S a)) by lia. replace (a + S n)%nat with (S a + n)%nat by lia.
    cbn [fst]. destruct (is_null (obj p b)); [apply IH; [lia|done]|].
    destruct (extra_keys_ok r (Z.of_nat a * bs) (Z.of_nat a * bs + bs) idx Hi) as (k & idx' & r1 & E1 & Hi' & Hr1).
    assert (on_snd (generate_block_hash_extra_keys sha256_digest (Z.of_nat a * bs) (Z.of_nat a * bs + bs) idx)
              (p, r) = (Ok (k, idx'), (p, r1))) as E2 by (unfold on_snd, zoom; cbn [snd fst]; by rewrite E1).
    rewrite (bind_ok _ _ _ _ _ E2).
    destruct (IH (S a) ltac:(lia) r1 idx' (acc ++ [k]) Hi') as (keys & r2 & E3 & Hr2).
    exists keys, r2. split; [done|]. by eapply same_but_cache_trans.
Qed.

(** [cache_full_blocks] gives block [i] of the slice the [i]-th hash of the
    request for the group; null blocks are skipped; the free queue, the counts
    and all other blocks stay as they are. *)
Lemma cache_full_blocks_spec p free request blks (nc nf : nat) bs gid :
  pool_ok p free -> enable_caching p = true -> 0 <= gid < 2 ^ 32 ->
  group_size_ok (hash_block_size p) bs ->
  (nf <= length blks)%nat -> (nf <= length (group_hashes request (hash_block_size p) bs))%nat ->
  cacheable p (take (nf - nc) (drop nc blks)) ->
  exists p' request',
    cache_full_blocks blks (Z.of_nat nc) (Z.of_nat nf) bs gid (p, request) = (Ok tt, (p', request'))
    /\ pool_ok p' free /\ same_but_cache request request'
    /\ cached_slice p p' gid (group_hashes request (hash_block_size p) bs) nc
         (take (nf - nc) (drop nc blks)).
Proof.
  intros [Hc Href Hfree] Hen Hg Hsize Hblks Hhs Hcb. unfold cache_full_blocks.
  destruct (Z.leb_spec (Z.of_nat nf) (Z.of_nat nc)) as [Hle|Hlt].
  { exists p, request. split; [done|]. split; [done|]. split; [apply same_but_cache_refl|].
    replace (nf - nc)%nat with 0%nat by lia. by do 3 (split; [done|]). }
  msteps. set (G := group_hashes request (hash_block_size p) bs) in *.
  destruct (hashes_for_spec request (hash_block_size p) bs Hsize) as (l & El & Hlen & Hle & Hsl & Hget).
  fold G in Hlen, Hle, Hsl, Hget. cbn [fst snd].
  replace (Z.of_nat nf <=? zlen (block_hashes request)) with true by (unfold zlen in *; lia). msteps.
  cbn [fst snd]. rewrite El. msteps. cbn [fst snd]. rewrite Hlen. unfold zlen at 1. rewrite Hsl by lia. msteps.
  replace (py_slice blks (Z.of_nat nc) (Z.of_nat nf)) with (take (nf - nc) (drop nc blks)).
  2: { rewrite py_slice_nonneg by (unfold zlen; lia). f_equal; [lia|]. f_equal. lia. }
  rewrite (take_ge (drop nc G)) by (rewrite length_drop; lia).
  set (hashes0 := if enable_kv_cache_events p then Some (@nil ExternalBlockHash) else None).
  destruct (cache_loop_spec free gid (drop nc G) (take (nf - nc) (drop nc blks)) Hg p 0 hashes0 Hc Hen Hcb)
    as (out & p1 & E1 & Hc1 & Hcs).
  { rewrite length_take, !length_drop. lia. }
  change (Z.of_nat 0) with 0 in E1.
  assert (on_fst (cache_loop gid (drop nc G) 0 (take (nf - nc) (drop nc blks)) hashes0) (p, request)
          = (Ok out, (p1, request))) as E2 by (unfold on_fst, zoom; cbn [fst snd]; by rewrite E1).
  rewrite (bind_ok _ _ _ _ _ E2).
  assert (forall p', core_view p' = core_view p1 -> pool_ok p' free
          /\ cached_slice p p' gid G nc (take (nf - nc) (drop nc blks))) as Hfinal.
  { intros p' V. destruct Hcs as (S1 & S2 & S3 & S4). pose proof (fun r => core_view_obj _ _ r V) as Ho.
    pose proof (core_view_config _ _ V) as Hcf.
    assert (config p' = config p) as Hcf' by congruence.
    assert (forall r, refc p' r = refc p r) as Hr' by (intros r; unfold refc at 1; rewrite Ho; apply S2).
    split; [split|split; [done|split; [done|split]]].
    - by eapply pool_core_view.
    - intros r Hr. rewrite Hr'. by apply Href, (usable_config p p' r Hcf').
    - intros r. rewrite Hr', (usable_config p) by done. apply Hfree.
    - intros r Hr Hn. unfold keyof at 1. rewrite Ho. by apply S3.
    - intros j r Hj Hne. destruct (S4 j r Hj Hne) as (h & key & H1 & H2 & H3). exists h, key.
      rewrite lookup_drop in H1. unfold keyof. rewrite Ho. by split_and!. }
  cbn [fst]. destruct (enable_kv_cache_events p) eqn:Hev; [|msteps; exists p1, request; split; [done|];
    destruct (Hfinal p1 eq_refl); split; [done|]; split; [apply same_but_cache_refl|done]].
  destruct (extra_keys_loop_ok blks bs p1 nc (nf - nc) ltac:(lia) request 0 [] ltac:(lia)) as (ks & r' & E3 & Hr').
  replace (nc + (nf - nc))%nat with nf in E3 by lia.
  assert (exists parent, (if Z.of_nat nc =? 0 then mret None
          else h ← lift_res (bhl_get l (Z.of_nat nc - 1)); mret (Some (convert h))) (p1, request)
          = (Ok parent, (p1, request))) as (parent & E4).
  { destruct (Z.eqb_spec (Z.of_nat nc) 0); [by eexists|].
    destruct (lookup_lt_is_Some_2 G (nc - 1)) as [h Hh]; [lia|].
    replace (Z.of_nat nc - 1) with (Z.of_nat (nc - 1)) by lia. rewrite (Hget _ _ Hh). by eexists. }
  rewrite (bind_ok _ _ _ _ _ E4), (bind_ok _ _ _ _ _ E3).
  eexists _, r'. split; [reflexivity|]. cbn [fst snd].
  match goal with |- pool_ok ?p' _ /\ _ => destruct (Hfinal p' eq_refl) as [??] end. done.
Qed.

(** *** Evicting by id and resetting *)

Lemma blocks_lookup p free (i : nat) : pool_core p free -> (i < Z.to_nat (num_gpu_blocks p))%nat ->
  blocks p !! i = Some (RBlk i).
Proof.
  intros Hc Hi. rewrite (pc_blocks _ _ Hc), list_lookup_fmap.
  by rewrite (lookup_seq_lt 0 _ i Hi).
Qed.

Lemma pool_ok_view p p' free : pool_core p' free -> config p' = config p ->
  (forall r, refc p' r = refc p r) -> pool_ok p free -> pool_ok p' free.
Proof.
  intros Hc Hcf Hr [_ Href Hfree]. split; [done|..].
  - intros r. rewrite Hr, (usable_config p) by done. apply Href.
  - intros r. rewrite Hr, (usable_config p) by done. apply Hfree.
Qed.

Lemma evict_blocks_spec p free ids : pool_ok p free -> Forall (fun i => 0 <= i < num_gpu_blocks p) ids ->
  exists p', evict_blocks ids p = (Ok tt, p') /\ pool_ok p' free /\ config p' = config p
    /\ (forall r, refc p' r = refc p r)
    /\ (forall r, keyof p' r = if decide (is_blk r /\ rid r ∈ ids) then None else keyof p r).
Proof.
  intros Hp Hids. rewrite Forall_forall in Hids.
  apply (mfor_ok _ (fun done p' => pool_ok p' free /\ config p' = config p
    /\ (forall r, refc p' r = refc p r)
    /\ (forall r, keyof p' r = if decide (is_blk r /\ rid r ∈ done) then None else keyof p r)) ids).
  - intros done i todo p1 Hl (Hp1 & Hcf1 & Hr1 & Hk1).
    assert (num_gpu_blocks p1 = num_gpu_blocks p) as Hn by (unfold config in Hcf1; by injection Hcf1).
    assert (0 <= i < num_gpu_blocks p1) as Hi by (rewrite Hn; apply Hids; rewrite Hl; set_solver).
    pose proof (po_core _ _ Hp1) as Hc1. msteps.
    assert (zlen (blocks p1) = num_gpu_blocks p1) as ->.
    { unfold zlen. rewrite (pc_blocks _ _ Hc1), length_fmap, length_seq. lia. }
    replace (i <? num_gpu_blocks p1) with true by lia. msteps.
    rewrite py_get_nonneg, (blocks_lookup _ _ _ Hc1) by lia. cbn [res_of_option]. msteps.
    destruct (evict_spec p1 free (RBlk (Z.to_nat i)) Hc1 I) as (b & p2 & R2 & Hc2 & Hcf2 & Hr2 & Hk2).
    rewrite (bind_ok _ _ _ _ _ R2). exists p2. split; [done|]. split_and!.
    + by apply (pool_ok_view p1).
    + congruence.
    + intros r. by rewrite Hr2, Hr1.
    + intros r. rewrite Hk2, Hk1. destruct (decide (r = RBlk (Z.to_nat i))) as [->|Hne].
      * rewrite decide_True; [done|]. split; [done|]. cbn. rewrite Z2Nat.id by lia. set_solver.
      * destruct (decide (is_blk r /\ rid r ∈ done)) as [[Hb Hd]|Hd].
        -- rewrite decide_True; [done|]. split; [done|]. apply elem_of_app. by left.
        -- rewrite decide_False; [done|]. intros [Hb [Hin|Hin]%elem_of_app]; [by apply Hd|].
           apply list_elem_of_singleton in Hin. destruct r as [b'| |]; [|by destruct Hb..].
           apply Hne. f_equal. cbn in Hin. lia.
  - split_and!; try done. intros r. rewrite decide_False; [done|]. intros [_ H]. by apply not_elem_of_nil in H.
Qed.

(** The usable blocks, in order. *)
Lemma usable_list p free r : pool_core p free ->
  usable p r <-> r ∈ RBlk <$> seq 1 (Z.to_nat (num_gpu_blocks p) - 1).
Proof.
  intros Hc. unfold usable. rewrite (pc_blocks _ _ Hc), !list_elem_of_fmap.
  setoid_rewrite elem_of_seq. pose proof (pc_num _ _ Hc). split.
  - intros ((b & -> & Hb) & Hne). exists b. split; [done|]. assert (b ≠ 0%nat) by congruence. lia.
  - intros (b & -> & Hb). split; [exists b; split; [done|lia]|]. intros [= ->]. lia.
Qed.

(** The pool is idle exactly when its free queue has every usable block. *)
Lemma all_free_iff p free : pool_ok p free ->
  num_gpu_blocks p - zlen free = 1 <-> forall r, usable p r -> refc p r = 0.
Proof.
  intros [Hc Href Hfree]. pose proof (pc_num _ _ Hc) as Hn.
  set (U := RBlk <$> seq 1 (Z.to_nat (num_gpu_blocks p) - 1)).
  assert (NoDup U) as HU by (apply NoDup_fmap_2; [by intros ?? [= ->]|apply NoDup_seq]).
  assert (zlen U = num_gpu_blocks p - 1) as HlU
    by (unfold zlen, U; rewrite length_fmap, length_seq; lia).
  pose proof (Queue.rep_nodup _ _ (pc_queue _ _ Hc)) as Hnd.
  assert (free ⊆+ U) as Hsub.
  { apply NoDup_submseteq; [done|]. intros r Hr. by apply (usable_list p free r Hc), Hfree. }
  split.
  - intros Hlen r Hr. assert (free ≡ₚ U) as HP.
    { apply submseteq_length_Permutation; [done|]. unfold zlen in *. lia. }
    apply (usable_list p free r Hc) in Hr. fold U in Hr. rewrite <- HP in Hr. by apply Hfree.
  - intros H0. assert (U ⊆+ free) as Hsub'.
    { apply NoDup_submseteq; [done|]. intros r Hr. apply (usable_list p free r Hc) in Hr.
      apply Hfree. by split; [|apply H0]. }
    apply submseteq_length in Hsub, Hsub'. unfold zlen in *. lia.
Qed.

Lemma reset_loop_spec p l : exists p', mfor l (fun block => on_store (modify (reset_hash block))) p = (Ok tt, p')
  /\ config p' = config p /\ cached_block_hash_to_block p' = cached_block_hash_to_block p
  /\ num_free_blocks (free_block_queue p') = num_free_blocks (free_block_queue p)
  /\ forall r, prev_free_block (obj p' r) = prev_free_block (obj p r)
        /\ next_free_block (obj p' r) = next_free_block (obj p r)
        /\ block_id (obj p' r) = block_id (obj p r) /\ is_null (obj p' r) = is_null (obj p r)
        /\ refc p' r = refc p r /\ keyof p' r = if decide (r ∈ l) then None else keyof p r.
Proof.
  apply (mfor_ok _ (fun done p' => config p' = config p
    /\ cached_block_hash_to_block p' = cached_block_hash_to_block p
    /\ num_free_blocks (free_block_queue p') = num_free_blocks (free_block_queue p)
    /\ forall r, prev_free_block (obj p' r) = prev_free_block (obj p r)
        /\ next_free_block (obj p' r) = next_free_block (obj p r)
        /\ block_id (obj p' r) = block_id (obj p r) /\ is_null (obj p' r) = is_null (obj p r)
        /\ refc p' r = refc p r /\ keyof p' r = if decide (r ∈ done) then None else keyof p r) l).
  - intros done b todo p1 _ (H1 & H2 & H3 & H4). exists (with_obj (reset_hash b) p1).
    split; [done|]. do 3 (split; [done|]). intros r. destruct (H4 r) as (E1 & E2 & E3 & E4 & E5 & E6).
    unfold refc, keyof, reset_hash in *. rewrite obj_with_obj.
    destruct (decide (r = b)) as [->|Hne]; cbn.
    + rewrite decide_True by set_solver. by split_and!.
    + split_and!; try done. rewrite E6.
      by destruct (decide (r ∈ done)); [rewrite decide_True by set_solver|rewrite decide_False by set_solver].
  - by split_and!.
Qed.

Lemma reset_prefix_cache_spec p free : pool_ok p free ->
  exists b p', reset_prefix_cache p = (Ok b, p')
    /\ (b = true <-> forall r, usable p r -> refc p r = 0)
    /\ (b = false -> p' = p)
    /\ (b = true -> pool_ok p' free /\ config p' = config p /\ cached_block_hash_to_block p' = ∅
                    /\ (forall r, refc p' r = refc p r) /\ forall r, is_blk r -> keyof p' r = None).
Proof.
  intros Hp. pose proof (all_free_iff p free Hp) as Hiff. pose proof Hp as [Hc Href Hfree].
  unfold reset_prefix_cache. msteps. unfold get_num_free_blocks.
  rewrite (Queue.rep_num _ _ (pc_queue _ _ Hc)).
  destruct (Z.eqb_spec (num_gpu_blocks p - zlen free) 1) as [Heq|Hne]; cbn [negb].
  2: { exists false, p. split; [done|]. split; [|done]. split; [done|]. intros H. by apply Hiff in H. }
  rewrite (bind_ok _ _ _ _ _ (set_cache_ok _ _)).
  set (p0 := {| p with cached_block_hash_to_block := ∅ |}).
  destruct (reset_loop_spec p0 (blocks p)) as (p1 & R1 & Hcf1 & Hca1 & Hn1 & Hd1).
  rewrite (bind_ok _ _ _ _ _ R1).
  destruct (on_metrics_ok metrics_reset p1) as (p2 & R2 & V2); [intros m; by eexists|].
  rewrite (bind_ok _ _ _ _ _ R2).
  assert (forall r, is_blk r -> keyof p1 r = None) as Hk1.
  { intros r Hr. destruct (Hd1 r) as (_ & _ & _ & _ & _ & ->). case_decide as Hin; [done|].
    change (keyof p0 r) with (keyof p r). destruct (keyof p r) as [key|] eqn:Ek; [|done].
    apply (pc_keyed _ _ Hc) in Ek as [[Hin' _] _]; done. }
  assert (pool_core p1 free) as Hc1.
  { unfold config in Hcf1. injection Hcf1 as C1 C2 C3 C4 C5 C6. destruct Hc.
    split; rewrite ?C1, ?C2, ?C4, ?C5, ?Hca1; try done.
    - eapply Queue.rep_same_links; [..|done|exact pc_queue0]; intros r; apply Hd1.
    - intros r Hr. destruct (Hd1 r) as (_ & _ & -> & _). by apply pc_id0.
    - intros r Hr. destruct (Hd1 r) as (_ & _ & _ & -> & _). by apply pc_is_null0.
    - intros key r. change (cached_block_hash_to_block p0) with (∅ : BlockHashToBlockMap).
      rewrite lookup_blocks_empty. split; [intros H; by apply not_elem_of_nil in H|].
      intros [Hr Hk]. by rewrite Hk1 in Hk.
    - intros r key Hr Hk. by rewrite Hk1 in Hk. }
  assert (forall p3, core_view p3 = core_view p1 -> pool_ok p3 free /\ config p3 = config p
      /\ cached_block_hash_to_block p3 = ∅ /\ (forall r, refc p3 r = refc p r)
      /\ forall r, is_blk r -> keyof p3 r = None) as Hfin.
  { intros p3 V. pose proof (fun r => core_view_obj _ _ r V) as Ho.
    pose proof (core_view_config _ _ V) as Hcf.
    assert (forall r, refc p3 r = refc p r) as Hr3.
    { intros r. unfold refc at 1. rewrite Ho. apply Hd1. }
    split; [apply (pool_ok_view p); [by eapply pool_core_view|by rewrite Hcf|done|done]|].
    split; [by rewrite Hcf|]. split; [|split; [done|]].
    - assert (cached_block_hash_to_block p3 = cached_block_hash_to_block p1) as -> by (by injection V).
      by rewrite Hca1.
    - intros r Hr. unfold keyof. rewrite Ho. by apply Hk1. }
  assert (forall r, usable p r -> refc p r = 0) as H0 by by apply Hiff.
  destruct (enable_kv_cache_events p); msteps; eexists true, _; (split; [reflexivity|]);
    (split; [done|]); (split; [done|]); intros _; apply Hfin; done.
Qed.

(** *** A new pool *)

Lemma init_spec n en hbs ev mc : 0 < n ->
  exists p, init n en hbs ev mc = Ok p /\ pool_ok p (RBlk <$> seq 1 (Z.to_nat n - 1))
    /\ config p = (n, en, hbs, RBlk <$> seq 0 (Z.to_nat n), RBlk 0, ev)
    /\ (forall r, is_blk r -> refc p r = 0 /\ keyof p r = None).
Proof.
  intros Hn. unfold init. replace (0 <? n) with true by lia.
  set (bs := RBlk <$> seq 0 (Z.to_nat n)). set (q0 := {| objs := fresh_store; num_free_blocks := 0 |}).
  assert (NoDup bs) as Hnd by (apply NoDup_fmap_2; [by intros ?? [= ->]|apply NoDup_seq]).
  assert (Forall is_blk bs) as Hblk by (apply Forall_fmap, Forall_forall; done).
  destruct (Queue.init_rep q0 bs Hnd Hblk) as (q1 & R1 & Hrep1 & Hd1).
  { intros [] Hr; by destruct Hr. }
  assert (bs = RBlk 0 :: (RBlk <$> seq 1 (Z.to_nat n - 1))) as Ebs.
  { unfold bs. destruct (Z.to_nat n) as [|k] eqn:Ek; [lia|]. cbn. by rewrite Nat.sub_0_r. }
  rewrite Ebs in Hrep1. destruct (Queue.popleft_rep _ _ _ Hrep1) as (q2 & R2 & Hrep2 & Hd2).
  rewrite (bind_ok _ _ _ _ _ R1), R2.
  set (free := RBlk <$> seq 1 (Z.to_nat n - 1)) in *. eexists. split; [reflexivity|].
  set (p := {| num_gpu_blocks := n; enable_caching := en |}).
  assert (forall r, is_blk r -> refc p r = 0 /\ keyof p r = None /\ block_id (obj p r) = rid r
           /\ is_null (obj p r) = bool_decide (r = RBlk 0)) as Hdata.
  { intros r Hr. assert (Queue.data (objs q2 r) = Queue.data (fresh_store r)) as E1
      by (rewrite (Hd2 r Hr); apply Hd1, Hr).
    unfold Queue.data in E1. injection E1 as E1 E2 E3 E4.
    unfold refc, keyof, p, obj; cbn. unfold set_is_null, update. rewrite bool_decide_decide.
    destruct r as [b| |]; [|by destruct Hr..].
    case_decide as Hb; cbn; rewrite ?E1, ?E2, ?E3, ?E4.
    - injection Hb as ->. destruct (objs q2 (RBlk 0)); cbn in *; by subst.
    - by split_and!. }
  assert (forall r, usable p r <-> r ∈ free) as Hu.
  { intros r. unfold usable. cbn. fold bs. rewrite Ebs, elem_of_cons. split; [tauto|].
    intros Hr. split; [by right|]. intros ->. apply list_elem_of_fmap in Hr as (b & [= <-] & Hb).
    apply elem_of_seq in Hb. lia. }
  split; [split; [split|..]|split].
  - done.
  - done.
  - done.
  - eapply Queue.rep_same_links; [..|exact Hrep2]; [..|done]; intros r; unfold Queue.prv, Queue.nxt; cbn;
      unfold set_is_null, update; by case_decide; subst.
  - intros r Hr. by apply Hdata.
  - intros r Hr. by apply Hdata.
  - apply wf_cache_empty.
  - intros key r. change (cached_block_hash_to_block p) with (∅ : BlockHashToBlockMap).
    rewrite lookup_blocks_empty. split; [intros H; by apply not_elem_of_nil in H|].
    intros [Hr Hk]. destruct (Hdata r Hr) as (_ & E1 & _). congruence.
  - intros r key Hr Hk. destruct (Hdata r Hr) as (_ & E1 & _). congruence.
  - intros r Hr. apply Hu, (Queue.rep_is_blk Hrep2) in Hr. by rewrite (proj1 (Hdata r Hr)).
  - intros r. rewrite Hu. split; [|tauto]. intros Hr. split; [done|].
    apply Hdata. by apply (Queue.rep_is_blk Hrep2).
  - done.
  - intros r Hr. destruct (Hdata r Hr) as (? & ? & _). done.
Qed.

End facts.
End PoolFacts.

(** ** Sessions of calls *)

Module PoolSession.
Import Pool PoolFacts BlockMapFacts.

Section session.
Context {E : Env}.

Definition count_ref (r : ref) (l : list ref) : Z := zlen (filter (fun x => x = r) l).

Lemma count_ref_app r l1 l2 : count_ref r (l1 ++ l2) = count_ref r l1 + count_ref r l2.
Proof. unfold count_ref. by rewrite filter_app, zlen_app. Qed.

Lemma count_ref_perm r l1 l2 : l1 ≡ₚ l2 -> count_ref r l1 = count_ref r l2.
Proof. unfold count_ref, zlen. by intros ->. Qed.

Lemma count_ref_notin r l : r ∉ l -> count_ref r l = 0.
Proof. intros H. unfold count_ref. rewrite filter_none; [done|]. by intros x Hx ->. Qed.

Lemma count_ref_in r l : r ∈ l -> 1 <= count_ref r l.
Proof.
  intros H. unfold count_ref. assert (r ∈ filter (fun x => x = r) l) as Hin by by apply list_elem_of_filter.
  destruct (filter (fun x => x = r) l) as [|x l']; [by apply not_elem_of_nil in Hin|].
  rewrite zlen_cons. pose proof (zlen_nonneg l'). lia.
Qed.

Lemma count_ref_nodup r l : NoDup l -> count_ref r l = if decide (r ∈ l) then 1 else 0.
Proof.
  induction 1 as [|x l Hx Hl IH]; [by rewrite decide_False by apply not_elem_of_nil|].
  change (x :: l) with ([x] ++ l). rewrite count_ref_app, IH. destruct (decide (x = r)) as [->|Hne].
  - unfold count_ref. rewrite filter_singleton_True by done. rewrite (decide_False (P := r ∈ l)) by done.
    by rewrite decide_True by set_solver.
  - rewrite (count_ref_notin r [x]) by set_solver.
    destruct (decide (r ∈ l)); [by rewrite decide_True by set_solver|by rewrite decide_False by set_solver].
Qed.

(** One call on the pool by callers that together hold the references [held]
    (one occurrence per reference; the null block does not count).  Callers free
    only what they hold, touch blocks of the pool, and cache blocks that have no
    hash yet; allocation may ask for any number of blocks. *)
Inductive pool_step : BlockPool * list ref -> BlockPool * list ref -> Prop :=
  | step_alloc p held n r p' :
      0 <= n -> get_new_blocks n p = (r, p') ->
      pool_step (p, held) (p', match r with Ok l => l ++ held | Raise _ => held end)
  | step_touch p held l r p' :
      NoDup (nonnull l) -> (forall b, b ∈ l -> b ∈ blocks p) -> touch l p = (r, p') ->
      pool_step (p, held) (p', nonnull l ++ held)
  | step_free p held l rest r p' :
      NoDup (nonnull l) -> held ≡ₚ nonnull l ++ rest -> (forall b, b ∈ l -> b ∈ blocks p) ->
      free_blocks l p = (r, p') ->
      pool_step (p, held) (p', rest)
  | step_cache p held request blks (nc nf : nat) bs gid r p' request' :
      enable_caching p = true -> 0 <= gid < 2 ^ 32 -> group_size_ok (hash_block_size p) bs ->
      (nf <= length blks)%nat -> (nf <= length (group_hashes request (hash_block_size p) bs))%nat ->
      cacheable p (take (nf - nc) (drop nc blks)) ->
      cache_full_blocks blks (Z.of_nat nc) (Z.of_nat nf) bs gid (p, request) = (r, (p', request')) ->
      pool_step (p, held) (p', held)
  | step_evict p held ids r p' :
      Forall (fun i => 0 <= i < num_gpu_blocks p) ids -> evict_blocks ids p = (r, p') ->
      pool_step (p, held) (p', held)
  | step_reset p held r p' :
      reset_prefix_cache p = (r, p') -> pool_step (p, held) (p', held).

(** The counts are the numbers of references held. *)
Definition session_ok (s : BlockPool * list ref) : Prop :=
  exists free, pool_ok s.1 free /\ (forall r, usable s.1 r -> refc s.1 r = count_ref r s.2)
    /\ (forall r, r ∈ s.2 -> usable s.1 r).

Lemma session_intro p held free : pool_ok p free ->
  (forall r, usable p r -> refc p r = count_ref r held) -> (forall r, r ∈ held -> usable p r) ->
  session_ok (p, held).
Proof. intros. by exists free. Qed.

(** Calls that change neither the counts nor the holders. *)
Lemma session_same p p' held free : pool_ok p' free -> config p' = config p ->
  (forall r, refc p' r = refc p r) -> (forall r, usable p r -> refc p r = count_ref r held) ->
  (forall r, r ∈ held -> usable p r) -> session_ok (p', held).
Proof.
  intros Hp Hcf Hr Hc Hh. apply (session_intro _ _ free); [done|..]; intros r.
  - rewrite (usable_config p) by done. rewrite Hr. apply Hc.
  - rewrite (usable_config p) by done. apply Hh.
Qed.

Lemma touched_count p p' free l r : touched p p' free l -> NoDup (nonnull l) -> usable p r -> is_blk r ->
  refc p' r = count_ref r (nonnull l) + refc p r.
Proof.
  intros (_ & _ & H) Hnd [Hin Hne] Hb. destruct (H r Hb) as [_ Hr]. rewrite Hr by done.
  rewrite count_ref_nodup by done.
  destruct (decide (r ∈ l)); [rewrite decide_True by by apply elem_of_nonnull
                             |rewrite decide_False by by intros [_ ?]%elem_of_nonnull]; lia.
Qed.

Lemma pool_step_ok s s' : session_ok s -> pool_step s s' -> session_ok s'.
Proof.
  intros (free & Hp & Hcount & Hheld) Hstep. pose proof (po_core _ _ Hp) as Hc.
  destruct Hstep as [p held n r p' Hn Hrun|p held l r p' Hnd Hl Hrun|p held l rest r p' Hnd Hrest Hl Hrun
    |p held request blks nc nf bs gid r p' request' Hen Hg Hs H1 H2 H3 Hrun|p held ids r p' Hids Hrun
    |p held r p' Hrun]; cbn [fst snd] in *.
  - destruct (decide (n <= zlen free)) as [Hle|Hgt].
    + destruct (get_new_blocks_spec p free (Z.to_nat n) Hp) as (p1 & R1 & Hp1 & _ & Hcf & Hd);
        [unfold zlen in *; lia|].
      rewrite Z2Nat.id in R1 by lia. rewrite R1 in Hrun. injection Hrun as <- <-.
      set (l := take (Z.to_nat n) free) in *.
      assert (forall r, r ∈ l -> usable p r /\ refc p r = 0) as Hin.
      { intros r Hr. apply (po_free _ _ Hp). rewrite <- (take_drop (Z.to_nat n) free).
        apply elem_of_app. by left. }
      apply (session_intro _ _ (drop (Z.to_nat n) free)); [done| |].
      2: { intros r. rewrite elem_of_app, (usable_config p) by done. intros [Hr|Hr]; [by apply Hin|by apply Hheld]. }
      intros r Hr. rewrite (usable_config p) in Hr by done.
      destruct (Hd r (usable_blk _ _ _ Hc Hr)) as [-> _]. rewrite count_ref_app, <- Hcount by done.
      assert (NoDup l) as Hndl.
      { pose proof (Queue.rep_nodup _ _ (pc_queue _ _ Hc)) as Hndf.
        rewrite <- (take_drop (Z.to_nat n) free) in Hndf. by apply NoDup_app in Hndf as [? _]. }
      rewrite count_ref_nodup by done. case_decide as Hd'; [|lia]. destruct (Hin r Hd') as [_ ->]. lia.
    + rewrite (get_new_blocks_too_many p free n Hp) in Hrun by lia. injection Hrun as <- <-.
      by apply (session_intro _ _ free).
  - destruct (touch_spec p free l Hp Hnd Hl) as (p1 & R1 & Ht). pose proof Ht as (Hp1 & Hcf & Hd).
    rewrite R1 in Hrun. injection Hrun as <- <-. apply (session_intro _ _ (filter (fun r => r ∉ l) free)); [done|..].
    + intros r Hr. rewrite (usable_config p) in Hr by done.
      rewrite (touched_count _ _ _ _ r Ht Hnd Hr (usable_blk _ _ _ Hc Hr)), count_ref_app. by rewrite Hcount.
    + intros r. rewrite elem_of_app, (usable_config p) by done. intros [Hr|Hr]; [|by apply Hheld].
      apply elem_of_nonnull in Hr as [Hne Hr]. split; [by apply Hl|done].
  - assert (forall b, b ∈ l -> b = RBlk 0 \/ usable p b /\ 1 <= refc p b) as Hl'.
    { intros b Hb. destruct (decide (b = RBlk 0)) as [|Hne]; [by left|right].
      assert (b ∈ held) as Hbh by (rewrite Hrest; apply elem_of_app; left; by apply elem_of_nonnull).
      pose proof (Hheld b Hbh) as Hu. split; [done|]. rewrite Hcount by done. by apply count_ref_in. }
    destruct (free_blocks_spec p free l Hp Hnd Hl') as (p1 & R1 & Hp1 & Hcf & Hd).
    rewrite R1 in Hrun. injection Hrun as <- <-. eapply session_intro; [exact Hp1|..].
    + intros r Hr. rewrite (usable_config p) in Hr by done.
      destruct (Hd r (usable_blk _ _ _ Hc Hr)) as [_ Er]. rewrite Er by apply Hr.
      rewrite (Hcount r Hr), (count_ref_perm r _ _ Hrest), count_ref_app, count_ref_nodup by done.
      destruct Hr as [_ Hne].
      destruct (decide (r ∈ l)); [rewrite decide_True by by apply elem_of_nonnull
                                 |rewrite decide_False by by intros [_ ?]%elem_of_nonnull]; lia.
    + intros r Hr. rewrite (usable_config p) by done. apply Hheld. rewrite Hrest. apply elem_of_app. by right.
  - destruct (cache_full_blocks_spec p free request blks nc nf bs gid Hp Hen Hg Hs H1 H2 H3)
      as (p1 & rq & R1 & Hp1 & _ & Hcf & Hr1 & _).
    rewrite R1 in Hrun. injection Hrun as <- <- <-. by apply (session_same p _ _ free).
  - destruct (evict_blocks_spec p free ids Hp Hids) as (p1 & R1 & Hp1 & Hcf & Hr1 & _).
    rewrite R1 in Hrun. injection Hrun as <- <-. by apply (session_same p _ _ free).
  - destruct (reset_prefix_cache_spec p free Hp) as (b & p1 & R1 & _ & Hf & Ht).
    rewrite R1 in Hrun. injection Hrun as <- <-. destruct b; [|rewrite Hf by done; by apply (session_intro _ _ free)].
    destruct (Ht eq_refl) as (Hp1 & Hcf & _ & Hr1 & _). by apply (session_same p _ _ free).
Qed.

Lemma pool_steps_ok s s' : rtc pool_step s s' -> session_ok s -> session_ok s'.
Proof. induction 1; eauto using pool_step_ok. Qed.

Lemma init_session_ok n en hbs ev mc p0 : init n en hbs ev mc = Ok p0 -> session_ok (p0, []).
Proof.
  intros H0. assert (0 < n) as Hn by (unfold init in H0; destruct (Z.ltb_spec 0 n); [done|discriminate]).
  destruct (init_spec n en hbs ev mc Hn) as (p & Ep & Hp & _ & Hd). rewrite Ep in H0. injection H0 as <-.
  exists (RBlk <$> seq 1 (Z.to_nat n - 1)). split; [done|]. split; [|intros r Hr; by apply not_elem_of_nil in Hr].
  intros r Hr. apply Hd. exact (usable_blk _ _ _ (po_core _ _ Hp) Hr).
Qed.

End session.

(** ** Properties *)

(** C18: No block is handed out twice.  From a new pool, after any sequence of
    allocations, touches, frees, caching, evictions and resets by callers that
    free only what they hold: each block's [ref_cnt] is the number of references
    held to it, the free queue lists exactly the unreferenced blocks once each
    ([num_free_blocks] of them, never the null block), allocation of up to that
    many blocks succeeds and returns the blocks freed longest ago, and asking
    for more raises [ValueError] and changes nothing. *)
Theorem pool_never_hands_out_held_block {E : Env} n en hbs ev mc p0 p held
  (H0 : init n en hbs ev mc = Ok p0) (Hsteps : rtc pool_step (p0, []) (p, held)) :
  exists free,
    Queue.get_all_free_blocks (S (Z.to_nat (get_num_free_blocks p))) (free_block_queue p) = Ok free
    /\ NoDup free /\ zlen free = get_num_free_blocks p
    /\ (forall r, r ∈ free <-> usable p r /\ r ∉ held)
    /\ (forall r, usable p r -> refc p r = count_ref r held)
    /\ (forall k : nat, (k <= length free)%nat ->
          exists p', get_new_blocks (Z.of_nat k) p = (Ok (take k free), p'))
    /\ (forall k, get_num_free_blocks p < k -> get_new_blocks k p = (Raise ValueError, p)).
Proof.
  destruct (pool_steps_ok _ _ Hsteps (init_session_ok _ _ _ _ _ _ H0)) as (free & Hp & Hcount & Hheld).
  cbn [fst snd] in *. pose proof (pc_queue _ _ (po_core _ _ Hp)) as Hq.
  pose proof (Queue.rep_num _ _ Hq) as Hnum.
  exists free. unfold get_num_free_blocks. rewrite Hnum. split_and!.
  - apply Queue.get_all_free_blocks_rep; [done|]. unfold zlen. lia.
  - apply (Queue.rep_nodup _ _ Hq).
  - done.
  - intros r. rewrite (po_free _ _ Hp). split; intros [Hu Hr]; (split; [done|]).
    + intros Hin. pose proof (count_ref_in _ _ Hin). rewrite Hcount in Hr by done. lia.
    + rewrite Hcount by done. by apply count_ref_notin.
  - done.
  - intros k Hk. destruct (get_new_blocks_spec p free k Hp Hk) as (p' & E1 & _). by exists p'.
  - intros k Hk. by apply (get_new_blocks_too_many p free).
Qed.

(** [get_new_blocks] takes the blocks that were freed longest ago, in order:
    each gets a count of one and loses its hash, so no later lookup can return its
    stale content, while the count and the hash of every other block stay; all
    invariants of the pool hold afterwards. *)
Theorem get_new_blocks_evicts_oldest {E : Env} p free (k : nat)
  (Hp : pool_ok p free) (Hk : (k <= length free)%nat) :
  exists p', get_new_blocks (Z.of_nat k) p = (Ok (take k free), p')
    /\ pool_ok p' (drop k free)
    /\ (forall r, is_blk r -> refc p' r = (if decide (r ∈ take k free) then 1 else refc p r)
                             /\ keyof p' r = (if decide (r ∈ take k free) then None else keyof p r))
    /\ (forall h g bs, 0 <= g < 2 ^ 32 -> get_cached_block h [g] p' = Ok (Some bs) ->
          forall r, r ∈ bs -> r ∉ take k free).
Proof.
  destruct (get_new_blocks_spec p free k Hp Hk) as (p' & E1 & Hp' & _ & _ & Hd).
  exists p'. do 3 (split; [done|]). intros h g bs Hg Hcb r Hr Hin.
  destruct (get_cached_block_spec p' _ h [g] (po_core _ _ Hp')) as (o & Eo & Ho); [by constructor|].
  rewrite Hcb in Eo. injection Eo as <-. apply list_elem_of_lookup in Hr as [i Hr].
  destruct (Forall2_lookup_r _ _ _ _ _ Ho Hr) as (g' & _ & Hu & key & _ & Hkey).
  destruct (Hd r (usable_blk _ _ _ (po_core _ _ Hp') Hu)) as [_ Hd2].
  rewrite Hd2, decide_True in Hkey by done. discriminate.
Qed.

(** C33: Caching makes full blocks findable.  [cache_full_blocks] succeeds, leaves
    the free queue and all counts alone, and afterwards a lookup of the [i]-th
    hash of the request for the group returns a block that carries it; block [i]
    itself carries it unless it is a null block.  Hashes cached before are still
    found. *)
Theorem cache_full_blocks_findable {E : Env} p free request blks (nc nf : nat) bs gid
  (Hp : pool_ok p free) (Hen : enable_caching p = true) (Hg : 0 <= gid < 2 ^ 32)
  (Hs : group_size_ok (hash_block_size p) bs) (Hblks : (nf <= length blks)%nat)
  (Hhs : (nf <= length (group_hashes request (hash_block_size p) bs))%nat)
  (Hcb : cacheable p (take (nf - nc) (drop nc blks))) :
  exists p' request',
    cache_full_blocks blks (Z.of_nat nc) (Z.of_nat nf) bs gid (p, request) = (Ok tt, (p', request'))
    /\ pool_ok p' free /\ (forall r, refc p' r = refc p r)
    /\ (forall i r h, (nc <= i < nf)%nat -> blks !! i = Some r -> r <> RBlk 0 ->
          group_hashes request (hash_block_size p) bs !! i = Some h ->
          exists key r', make_block_hash_with_group_id h gid = Ok key /\ keyof p' r = Some key
            /\ get_cached_block h [gid] p' = Ok (Some [r']) /\ keyof p' r' = Some key)
    /\ (forall h g r, 0 <= g < 2 ^ 32 -> get_cached_block h [g] p = Ok (Some [r]) ->
          exists r', get_cached_block h [g] p' = Ok (Some [r'])).
Proof.
  destruct (cache_full_blocks_spec p free request blks nc nf bs gid Hp Hen Hg Hs Hblks Hhs Hcb)
    as (p' & rq & E1 & Hp' & _ & Hcf & Hr & Hkeep & Hset).
  pose proof (po_core _ _ Hp') as Hc'.
  assert (forall h g r key, 0 <= g < 2 ^ 32 -> make_block_hash_with_group_id h g = Ok key ->
      is_blk r -> keyof p' r = Some key ->
      exists r', get_cached_block h [g] p' = Ok (Some [r']) /\ keyof p' r' = Some key) as Hfind.
  { intros h g r key Hg' Ekey Hb Hkr.
    destruct (get_cached_block_spec p' _ h [g] Hc') as (o & Eo & Ho); [by constructor|]. rewrite Eo.
    destruct o as [l|].
    - apply Forall2_cons_inv_l in Ho as (r' & l' & (Hu & key' & Ek' & Hk') & ->%Forall2_nil_inv_l & ->).
      exists r'. split; [done|]. congruence.
    - destruct Ho as (g' & key' & ->%list_elem_of_singleton & Ek' & Hno). exfalso. apply (Hno r Hb). congruence. }
  exists p', rq. do 3 (split; [done|]). split.
  - intros i r h Hi Hbi Hne Hh.
    destruct (Hset (i - nc)%nat r) as (h' & key & Hh' & Ekey & Hkr); [|done|].
    { rewrite lookup_take_lt, lookup_drop by lia. by replace (nc + (i - nc))%nat with i by lia. }
    replace (nc + (i - nc))%nat with i in Hh' by lia. assert (h' = h) as -> by congruence.
    assert (is_blk r) as Hb.
    { assert (r ∈ take (nf - nc) (drop nc blks)) as Hin.
      { apply list_elem_of_lookup. exists (i - nc)%nat. rewrite lookup_take_lt, lookup_drop by lia.
        by replace (nc + (i - nc))%nat with i by lia. }
      destruct (proj1 Hcb r Hin) as [->|[Hu _]]; [done|]. exact (usable_blk _ _ _ (po_core _ _ Hp) Hu). }
    destruct (Hfind h gid r key Hg Ekey Hb Hkr) as (r' & ? & ?). by exists key, r'.
  - intros h g r Hg' Hl.
    destruct (get_cached_block_spec p _ h [g] (po_core _ _ Hp)) as (o & Eo & Ho); [by constructor|].
    rewrite Hl in Eo. injection Eo as <-.
    apply Forall2_cons_inv_l in Ho as (r' & l' & (Hu & key & Ekey & Hkr) & _ & [= <- <-]).
    assert (keyof p' r = Some key) as Hk'.
    { rewrite Hkeep; [done|exact (usable_blk _ _ _ (po_core _ _ Hp) Hu)|].
      destruct (decide (r ∈ take (nf - nc) (drop nc blks))) as [Hin|]; [|by left]. right.
      destruct (proj1 Hcb r Hin) as [|[_ Hnone]]; [done|congruence]. }
    destruct (Hfind h g r key Hg' Ekey (usable_blk _ _ _ (po_core _ _ Hp) Hu) Hk') as (r1 & ? & _).
    by exists r1.
Qed.

(** [reset_prefix_cache] succeeds exactly when no block but the null block is
    referenced; then no hash is found any more, and the free queue and the counts
    are as before; otherwise it returns [False] and changes nothing. *)
Theorem reset_prefix_cache_correct {E : Env} p free (Hp : pool_ok p free) :
  exists b p', reset_prefix_cache p = (Ok b, p')
    /\ (b = true <-> forall r, usable p r -> refc p r = 0)
    /\ (b = false -> p' = p)
    /\ (b = true -> pool_ok p' free /\ (forall r, refc p' r = refc p r)
          /\ forall h g, 0 <= g < 2 ^ 32 -> get_cached_block h [g] p' = Ok None).
Proof.
  destruct (reset_prefix_cache_spec p free Hp) as (b & p' & E1 & Hb & Hf & Ht).
  exists b, p'. do 3 (split; [done|]). intros Hbt. destruct (Ht Hbt) as (Hp' & _ & _ & Hr & Hk).
  do 2 (split; [done|]). intros h g Hg.
  destruct (get_cached_block_spec p' free h [g] (po_core _ _ Hp')) as (o & Eo & Ho); [by constructor|].
  destruct o as [l|]; [|done]. exfalso.
  apply Forall2_cons_inv_l in Ho as (r & l' & (Hu & key & _ & Hkr) & _).
  rewrite Hk in Hkr; [done|exact (usable_blk _ _ _ (po_core _ _ Hp') Hu)].
Qed.

(** ** Concrete runs *)

(** A pool of four usable blocks and the null block. *)
Definition demo_pool : BlockPool :=
  match init 5 true 2 false None with
  | Ok p => p
  | Raise _ => {| num_gpu_blocks := 0; enable_caching := false; hash_block_size := 0; blocks := [];
                  free_block_queue := mkQueue fresh_store 0; cached_block_hash_to_block := ∅;
                  null_block := RHead; enable_kv_cache_events := false; kv_event_queue := [];
                  metrics_collector := None |}
  end.

Lemma demo_pool_init : init 5 true 2 false None = Ok demo_pool.
Proof. unfold demo_pool. by destruct (init_spec 5 true 2 false None ltac:(lia)) as (p & -> & _). Qed.

Lemma demo_pool_ok : pool_ok demo_pool [RBlk 1; RBlk 2; RBlk 3; RBlk 4].
Proof.
  destruct (init_spec 5 true 2 false None ltac:(lia)) as (p & Ep & Hp & _).
  rewrite demo_pool_init in Ep. by injection Ep as ->.
Qed.

(** A request with the hashes of two blocks. *)
Definition demo_hashes : Request :=
  {| (demo_request []) with block_hashes := [ [x01; x11]; [x02; x22] ] |}.

Lemma pool_never_hands_out_held_block_witness :
  let p1 := (get_new_blocks 3 demo_pool).2 in
  let p2 := (free_blocks [RBlk 3; RBlk 2] p1).2 in
  rtc pool_step (demo_pool, []) (p2, [RBlk 1])
  /\ exists free, Queue.get_all_free_blocks (S (Z.to_nat (get_num_free_blocks p2))) (free_block_queue p2) = Ok free
       /\ (forall r, r ∈ free <-> usable p2 r /\ r ∉ [RBlk 1]) /\ free = [RBlk 4; RBlk 3; RBlk 2].
Proof.
  intros p1 p2.
  assert ((get_new_blocks 3 demo_pool).1 = Ok [RBlk 1; RBlk 2; RBlk 3]) as R1 by (vm_compute; reflexivity).
  assert ((free_blocks [RBlk 3; RBlk 2] p1).1 = Ok tt) as R2 by (vm_compute; reflexivity).
  assert (blocks p1 = RBlk <$> seq 0 5) as B1 by (vm_compute; reflexivity).
  assert (rtc pool_step (demo_pool, []) (p2, [RBlk 1])) as Hsteps.
  { eapply rtc_l; [exact (step_alloc _ [] 3 _ p1 ltac:(lia) (run_snd _ _ _ R1))|].
    apply rtc_once. refine (step_free _ _ [RBlk 3; RBlk 2] [RBlk 1] _ _ _ _ _ (run_snd _ _ _ R2)).
    - by apply (bool_decide_unpack _).
    - by apply (bool_decide_unpack _).
    - rewrite B1. apply (proj1 (Forall_forall _ _)). by apply (bool_decide_unpack _). }
  split; [done|].
  destruct (pool_never_hands_out_held_block 5 true 2 false None _ _ _ demo_pool_init Hsteps)
    as (free & H1 & _ & _ & H2 & _).
  exists free. split_and!; [done|done|].
  assert (Queue.get_all_free_blocks (S (Z.to_nat (get_num_free_blocks p2))) (free_block_queue p2)
          = Ok [RBlk 4; RBlk 3; RBlk 2]) as H3 by (vm_compute; reflexivity).
  rewrite H1 in H3. by injection H3.
Defined.

Lemma get_new_blocks_evicts_oldest_witness :
  exists p', get_new_blocks 2 demo_pool = (Ok [RBlk 1; RBlk 2], p') /\ pool_ok p' [RBlk 3; RBlk 4].
Proof.
  destruct (get_new_blocks_evicts_oldest _ _ 2 demo_pool_ok ltac:(simpl; lia)) as (p' & E1 & Hp' & _).
  by exists p'.
Defined.

Lemma cache_full_blocks_findable_witness :
  exists p1 p' request', get_new_blocks 2 demo_pool = (Ok [RBlk 1; RBlk 2], p1)
    /\ cache_full_blocks [RBlk 1; RBlk 2] 0 2 2 0 (p1, demo_hashes) = (Ok tt, (p', request'))
    /\ exists r', get_cached_block [x02; x22] [0] p' = Ok (Some [r']).
Proof.
  destruct (get_new_blocks_spec _ _ 2 demo_pool_ok ltac:(simpl; lia)) as (p1 & E1 & Hp1 & _ & Hcf & Hd).
  unfold config in Hcf. injection Hcf as _ C1 C2 C3 _ _.
  destruct (cache_full_blocks_findable p1 _ demo_hashes [RBlk 1; RBlk 2] 0 2 2 0 Hp1)
    as (p' & rq & E2 & _ & _ & Hfind & _).
  - rewrite C1. by vm_compute.
  - lia.
  - rewrite C2. by vm_compute.
  - simpl; lia.
  - rewrite C2. cbn. lia.
  - split; [|by apply (bool_decide_unpack _)]. intros r Hr. right.
    assert (is_blk r /\ r <> RBlk 0 /\ r ∈ blocks demo_pool) as (Hb & Hne & Hin).
    { assert (blocks demo_pool = RBlk <$> seq 0 5) as -> by by vm_compute. cbn in *. set_solver. }
    split; [split; [by rewrite C3|done]|]. destruct (Hd r Hb) as [_ ->]. by rewrite decide_True.
  - exists p1, p', rq. do 2 (split; [done|]).
    destruct (Hfind 1%nat (RBlk 2) [x02; x22]) as (key & r' & _ & _ & H & _); [lia|done|done| |by exists r'].
    rewrite C2. by vm_compute.
Defined.

Lemma reset_prefix_cache_correct_witness :
  exists b p', reset_prefix_cache demo_pool = (Ok b, p')
    /\ b = true /\ get_cached_block [x01] [0] p' = Ok None.
Proof.
  destruct (reset_prefix_cache_correct _ _ demo_pool_ok) as (b & p' & E1 & Hb & _ & Ht).
  assert (b = true) as ->.
  { apply Hb. intros r Hr. apply (po_free _ _ demo_pool_ok). apply (usable_list _ _ _ (po_core _ _ demo_pool_ok)) in Hr.
    exact Hr. }
  exists true, p'. split_and!; [done|done|]. by apply Ht.
Defined.

End PoolSession.
