(* ===== verification/KVSpec.v ===== *)
(** KV-cache specifications of layers: [v1/kv_cache_interface.py].

    A [torch.dtype] is its name and element size.  [VllmConfig] keeps the fields
    of the configuration that the modelled code reads. *)

From S2P Require Import Prelude.
Local Open Scope Z_scope.

Inductive KVQuantMode := QUANT_NONE | FP8_PER_TENSOR | INT8_PER_TOKEN_HEAD | FP8_PER_TOKEN_HEAD.

#[export] Instance KVQuantMode_eq_dec : EqDecision KVQuantMode.
Proof. solve_decision. Defined.

Definition quant_value (m : KVQuantMode) : Z :=
  match m with
  | QUANT_NONE => 0 | FP8_PER_TENSOR => 1 | INT8_PER_TOKEN_HEAD => 2 | FP8_PER_TOKEN_HEAD => 3
  end.

Definition is_per_token_head (m : KVQuantMode) : bool := 2 <=? quant_value m.

Definition get_kv_quant_mode (kv_cache_dtype : string) : KVQuantMode :=
  if String.eqb kv_cache_dtype "int8_per_token_head" then INT8_PER_TOKEN_HEAD
  else if String.eqb kv_cache_dtype "fp8_per_token_head" then FP8_PER_TOKEN_HEAD
  else if String.prefix "fp8" kv_cache_dtype then FP8_PER_TENSOR
  else QUANT_NONE.

Definition is_quantized_kv_cache (kv_cache_dtype : string) : bool :=
  negb (bool_decide (get_kv_quant_mode kv_cache_dtype = QUANT_NONE)).

Definition kv_cache_uses_per_token_head_scales (kv_cache_dtype : string) : bool :=
  is_per_token_head (get_kv_quant_mode kv_cache_dtype).

Record dtype := { dtype_name : string; element_size : Z }.
#[export] Instance dtype_eq_dec : EqDecision dtype.
Proof. solve_decision. Defined.

Record VllmConfig := {
  max_model_len : Z;
  decode_context_parallel_size : Z;
  prefill_context_parallel_size : Z;
  max_num_batched_tokens : Z;
  max_num_encoder_input_tokens : Z;
  config_mamba_cache_mode : string;
  num_gpu_blocks_override : option Z;
  max_num_seqs : Z;
  disable_hybrid_kv_cache_manager : bool;
  pipeline_parallel_size : Z;
  (** [original_max_model_len == -1]: the user asked for the length to be fitted *)
  auto_fit_max_model_len : bool;
  (** [speculative_config is not None], and [get_total_num_hidden_layers()] *)
  has_speculative_config : bool;
  total_num_hidden_layers : Z;
}.

(** The fields of [AttentionSpec]. *)
Record AttentionSpec := {
  a_block_size : Z;
  num_kv_heads : Z;
  head_size : Z;
  a_dtype : dtype;
  kv_quant_mode : KVQuantMode;
  a_page_size_padded : option Z;
}.
#[export] Instance AttentionSpec_eq_dec : EqDecision AttentionSpec.
Proof. solve_decision. Defined.

Inductive KVCacheSpec :=
  | FullAttentionSpec (a : AttentionSpec) (head_size_v : Z)
      (sliding_window attention_chunk_size : option Z)
  | MLAAttentionSpec (a : AttentionSpec) (head_size_v : Z)
      (sliding_window attention_chunk_size : option Z) (cache_dtype_str : option string)
  | SinkFullAttentionSpec (a : AttentionSpec) (head_size_v : Z)
      (sliding_window attention_chunk_size : option Z) (sink_len : option Z)
  | ChunkedLocalAttentionSpec (a : AttentionSpec) (attention_chunk_size : Z)
  | SlidingWindowSpec (a : AttentionSpec) (sliding_window : Z)
  | MambaSpec (block_size : Z) (shapes : list (list Z)) (dtypes : list dtype)
      (page_size_padded : option Z) (mamba_type mamba_cache_mode : string)
      (num_speculative_blocks : Z)
  | EncoderOnlyAttentionSpec (a : AttentionSpec)
  | CrossAttentionSpec (a : AttentionSpec).

#[export] Instance KVCacheSpec_eq_dec : EqDecision KVCacheSpec.
Proof. solve_decision. Defined.

(** The attention fields of an attention spec. *)
Definition attention (s : KVCacheSpec) : option AttentionSpec :=
  match s with
  | FullAttentionSpec a _ _ _ | MLAAttentionSpec a _ _ _ _ | SinkFullAttentionSpec a _ _ _ _
  | ChunkedLocalAttentionSpec a _ | SlidingWindowSpec a _ | EncoderOnlyAttentionSpec a
  | CrossAttentionSpec a => Some a
  | MambaSpec _ _ _ _ _ _ _ => None
  end.

Definition spec_block_size (s : KVCacheSpec) : Z :=
  match s with
  | MambaSpec bs _ _ _ _ _ _ => bs
  | FullAttentionSpec a _ _ _ | MLAAttentionSpec a _ _ _ _ | SinkFullAttentionSpec a _ _ _ _
  | ChunkedLocalAttentionSpec a _ | SlidingWindowSpec a _ | EncoderOnlyAttentionSpec a
  | CrossAttentionSpec a => a_block_size a
  end.

(** [real_page_size_bytes], with the overrides of the subclasses. *)
Definition real_page_size_bytes (s : KVCacheSpec) : Z :=
  match s with
  | FullAttentionSpec a v _ _ | SinkFullAttentionSpec a v _ _ _ =>
      a_block_size a * num_kv_heads a * (head_size a + v) * element_size (a_dtype a)
  | MLAAttentionSpec a _ _ _ c =>
      if bool_decide (c = Some "fp8_ds_mla"%string) then a_block_size a * 656
      else a_block_size a * num_kv_heads a * head_size a * element_size (a_dtype a)
  | ChunkedLocalAttentionSpec a _ | SlidingWindowSpec a _ | EncoderOnlyAttentionSpec a
  | CrossAttentionSpec a =>
      2 * a_block_size a * num_kv_heads a * head_size a * element_size (a_dtype a)
  | MambaSpec _ _ _ _ _ _ _ => 0
  end.

(** [get_dtype_size(torch.float32)] *)
Definition float32_size : Z := 4.

Definition attention_page_size_bytes (real_page_size : Z) (a : AttentionSpec) : res Z :=
  let real_page_size :=
    if is_per_token_head (kv_quant_mode a)
    then real_page_size + 2 * a_block_size a * num_kv_heads a * float32_size
    else real_page_size in
  match a_page_size_padded a with
  | Some padded => if real_page_size <=? padded then Ok padded else Raise AssertionError
  | None => Ok real_page_size
  end.

Definition prod (l : list Z) : Z := foldl Z.mul 1 l.
Definition sum (l : list Z) : Z := foldl Z.add 0 l.

Definition page_size_bytes (s : KVCacheSpec) : res Z :=
  match s with
  | MambaSpec _ shapes dtypes padded _ _ _ =>
      let page_size := sum (zip_with (fun shape d => prod shape * element_size d) shapes dtypes) in
      match padded with
      | Some padded => if page_size <=? padded then Ok padded else Raise AssertionError
      | None => Ok page_size
      end
  | FullAttentionSpec a _ _ _ | MLAAttentionSpec a _ _ _ _ | SinkFullAttentionSpec a _ _ _ _
  | ChunkedLocalAttentionSpec a _ | SlidingWindowSpec a _ | EncoderOnlyAttentionSpec a
  | CrossAttentionSpec a => attention_page_size_bytes (real_page_size_bytes s) a
  end.

Definition max_memory_usage_bytes (s : KVCacheSpec) (c : VllmConfig) : res Z :=
  match s with
  | FullAttentionSpec a _ _ _ | MLAAttentionSpec a _ _ _ _ | SinkFullAttentionSpec a _ _ _ _ =>
      let world := decode_context_parallel_size c * prefill_context_parallel_size c in
      let len := if 1 <? world then cdiv (max_model_len c) world else max_model_len c in
      page ← page_size_bytes s;
      Ok (cdiv len (a_block_size a) * page)
  | ChunkedLocalAttentionSpec a attention_chunk_size =>
      let num_tokens := Z.min (attention_chunk_size + max_num_batched_tokens c) (max_model_len c) in
      page ← page_size_bytes s;
      Ok (cdiv num_tokens (a_block_size a) * page)
  | SlidingWindowSpec a sliding_window =>
      if decode_context_parallel_size c =? 1 then
        let num_tokens := Z.min (sliding_window - 1 + max_num_batched_tokens c) (max_model_len c) in
        page ← page_size_bytes s;
        Ok ((cdiv num_tokens (a_block_size a) + 1) * page)
      else Raise AssertionError
  | MambaSpec block_size _ _ _ _ _ num_speculative_blocks =>
      page ← page_size_bytes s;
      if String.eqb (config_mamba_cache_mode c) "all" then
        Ok (cdiv (max_model_len c) block_size * page)
      else if String.eqb (config_mamba_cache_mode c) "align" then
        Ok (page * (2 + num_speculative_blocks))
      else Ok (page * (1 + num_speculative_blocks))
  | EncoderOnlyAttentionSpec _ => Ok 0
  | CrossAttentionSpec a =>
      page ← page_size_bytes s;
      Ok (cdiv (max_num_encoder_input_tokens c) (a_block_size a) * page)
  end.

Definition copy_with_new_block_size (s : KVCacheSpec) (block_size : Z) : KVCacheSpec :=
  let upd a := {| a with a_block_size := block_size |} in
  match s with
  | FullAttentionSpec a v w c => FullAttentionSpec (upd a) v w c
  | MLAAttentionSpec a v w c d => MLAAttentionSpec (upd a) v w c d
  | SinkFullAttentionSpec a v w c k => SinkFullAttentionSpec (upd a) v w c k
  | ChunkedLocalAttentionSpec a c => ChunkedLocalAttentionSpec (upd a) c
  | SlidingWindowSpec a w => SlidingWindowSpec (upd a) w
  | MambaSpec _ sh d p t m k => MambaSpec block_size sh d p t m k
  | EncoderOnlyAttentionSpec a => EncoderOnlyAttentionSpec (upd a)
  | CrossAttentionSpec a => CrossAttentionSpec (upd a)
  end.

(** ** Merging the specs of one group *)

(** [isinstance(s, FullAttentionSpec)]: the class and its two subclasses; their
    common fields. *)
Definition full_fields (s : KVCacheSpec) : option (AttentionSpec * Z * option Z * option Z) :=
  match s with
  | FullAttentionSpec a v w c | MLAAttentionSpec a v w c _ | SinkFullAttentionSpec a v w c _ =>
      Some (a, v, w, c)
  | _ => None
  end.
Definition is_full (s : KVCacheSpec) : bool := bool_decide (is_Some (full_fields s)).
Definition is_mla (s : KVCacheSpec) : bool :=
  match s with MLAAttentionSpec _ _ _ _ _ => true | _ => false end.

(** The elements of [set(x for x in l if x is not None)]. *)
Definition some_values (l : list (option Z)) : list Z := remove_dups (omap id l).

Definition merge_window_sizes (window_sizes : list Z) : res (option Z) :=
  match window_sizes with
  | [] => Ok None
  | [w] => Ok (Some w)
  | _ => Raise ValueError
  end.

(** The body shared by [FullAttentionSpec.merge] and [SinkFullAttentionSpec.merge];
    [make] builds the merged object from the fields of [specs\[0\]]. *)
Definition merge_full (make : option Z -> option Z -> KVCacheSpec) (a0 : AttentionSpec)
    (specs : list KVCacheSpec) : res KVCacheSpec :=
  if negb (forallb is_full specs) then Raise AssertionError
  else
    let fs := omap full_fields specs in
    let sliding_window := some_values ((fun f => f.1.2) <$> fs) in
    let attention_chunk_size := some_values (snd <$> fs) in
    if existsb is_mla specs then Raise AssertionError
    else
      w ← merge_window_sizes sliding_window;
      c ← merge_window_sizes attention_chunk_size;
      if negb (forallb (fun f => bool_decide (f.1.1.1 = a0)) fs) then Raise AssertionError
      else if bool_decide (is_Some w) && bool_decide (is_Some c) then Raise AssertionError
      else Ok (make w c).

Definition cache_dtype_strs (specs : list KVCacheSpec) : list (option string) :=
  remove_dups (omap (fun s => match s with
                              | MLAAttentionSpec _ _ _ _ d => Some d
                              | _ => None
                              end) specs).

(** [specs\[0\].merge(specs)] *)
Definition merge (specs : list KVCacheSpec) : res KVCacheSpec :=
  match specs with
  | [] => Raise IndexError
  | FullAttentionSpec a v _ _ :: _ => merge_full (FullAttentionSpec a v) a specs
  | SinkFullAttentionSpec a v _ _ k :: _ =>
      merge_full (fun w c => SinkFullAttentionSpec a v w c k) a specs
  | MLAAttentionSpec a _ _ _ _ :: _ =>
      if negb (forallb is_mla specs) then Raise AssertionError
      else
        match cache_dtype_strs specs with
        | [d] => Ok (MLAAttentionSpec a (head_size a) None None d)
        | _ => Raise AssertionError
        end
  | s0 :: rest => if forallb (fun s => bool_decide (s = s0)) rest then Ok s0 else Raise AssertionError
  end.

(** ** Groups *)

(** The spec of a group: one spec for all its layers, or one per layer. *)
Inductive GroupSpec :=
  | OneSpec (s : KVCacheSpec)
  | UniformTypeKVCacheSpecs (block_size : Z) (kv_cache_specs : list (string * KVCacheSpec)).

Fixpoint sum_res (l : list (res Z)) : res Z :=
  match l with
  | [] => Ok 0
  | r :: l' => x ← r; y ← sum_res l'; Ok (x + y)
  end.

Definition group_page_size_bytes (g : GroupSpec) : res Z :=
  match g with
  | OneSpec s => page_size_bytes s
  | UniformTypeKVCacheSpecs _ specs => sum_res ((fun x => page_size_bytes x.2) <$> specs)
  end.

(** [max(...)] of a non-empty sequence. *)
Fixpoint max_res (l : list (res Z)) : res Z :=
  match l with
  | [] => Raise ValueError
  | [r] => r
  | r :: l' => x ← r; y ← max_res l'; Ok (Z.max x y)
  end.

Definition num_pages (c : VllmConfig) (s : KVCacheSpec) : res Z :=
  mem ← max_memory_usage_bytes s c;
  page ← page_size_bytes s;
  if page =? 0 then Raise ZeroDivisionError else Ok (cdiv mem page).

Definition group_max_memory_usage_bytes (g : GroupSpec) (c : VllmConfig) : res Z :=
  match g with
  | OneSpec s => max_memory_usage_bytes s c
  | UniformTypeKVCacheSpecs _ specs =>
      max_num_pages ← max_res ((fun x => num_pages c x.2) <$> specs);
      page ← group_page_size_bytes g;
      Ok (max_num_pages * page)
  end.

Definition group_block_size (g : GroupSpec) : Z :=
  match g with OneSpec s => spec_block_size s | UniformTypeKVCacheSpecs bs _ => bs end.

Definition is_uniform_type (kv_cache_specs : list (string * KVCacheSpec)) : res bool :=
  let specs := kv_cache_specs.*2 in
  if 1 <? zlen (remove_dups (spec_block_size <$> specs)) then Ok false
  else
    match specs with
    | [] => Raise StopIteration
    | one_spec :: _ =>
        match one_spec with
        | FullAttentionSpec _ _ _ _ | MLAAttentionSpec _ _ _ _ _ | SinkFullAttentionSpec _ _ _ _ _ =>
            Ok (forallb is_full specs)
        | CrossAttentionSpec _ =>
            Ok (forallb (fun s => match s with CrossAttentionSpec _ => true | _ => false end) specs)
        | SlidingWindowSpec _ w =>
            Ok (forallb (fun s => match s with SlidingWindowSpec _ w' => w' =? w | _ => false end) specs)
        | ChunkedLocalAttentionSpec _ c =>
            Ok (forallb (fun s => match s with ChunkedLocalAttentionSpec _ c' => c' =? c | _ => false end) specs)
        | MambaSpec _ _ _ _ _ _ k =>
            Ok (forallb (fun s => match s with MambaSpec _ _ _ _ _ _ k' => k' =? k | _ => false end) specs)
        | EncoderOnlyAttentionSpec _ => Raise NotImplementedError
        end
    end.

Definition from_specs (kv_cache_specs : list (string * KVCacheSpec)) : res (option GroupSpec) :=
  uniform ← is_uniform_type kv_cache_specs;
  if uniform : bool then
    match kv_cache_specs with
    | [] => Raise StopIteration
    | (_, s) :: _ => Ok (Some (UniformTypeKVCacheSpecs (spec_block_size s) kv_cache_specs))
    end
  else Ok None.

Record KVCacheTensor := { kt_size : Z; shared_by : list string }.
Record KVCacheGroupSpec := { layer_names : list string; kv_cache_spec : GroupSpec }.
Record KVCacheConfig := {
  num_blocks : Z;
  kv_cache_tensors : list KVCacheTensor;
  kv_cache_groups : list KVCacheGroupSpec;
}.

Definition is_mamba (s : KVCacheSpec) : bool :=
  match s with MambaSpec _ _ _ _ _ _ _ => true | _ => false end.
Definition has_mamba_layers (c : KVCacheConfig) : bool :=
  existsb (fun g => match kv_cache_spec g with OneSpec s => is_mamba s | _ => false end)
    (kv_cache_groups c).
Definition needs_kv_cache_zeroing (c : KVCacheConfig) : bool := has_mamba_layers c.

(** ** A merged spec stands for every layer of its group *)

Lemma omap_full specs : forallb is_full specs = true ->
  forall s, s ∈ specs -> exists f, full_fields s = Some f /\ f ∈ omap full_fields specs.
Proof.
  intros H s Hs. rewrite forallb_forall in H.
  assert (is_full s = true) as Hf by (apply H; by apply list_elem_of_In).
  apply bool_decide_eq_true in Hf as [f Hf]. exists f. split; [done|].
  apply list_elem_of_omap. by exists s.
Qed.

Lemma merge_full_spec make a0 specs s : merge_full make a0 specs = Ok s ->
  exists w c, s = make w c /\ forallb is_full specs = true /\ existsb is_mla specs = false
    /\ forall s' f, s' ∈ specs -> full_fields s' = Some f -> f.1.1.1 = a0.
Proof.
  unfold merge_full. destruct (forallb is_full specs) eqn:Hfull; [|done]. cbn [negb].
  destruct (existsb is_mla specs); [done|].
  case_eq (merge_window_sizes (some_values ((fun f => f.1.2) <$> omap full_fields specs))); [intros w _|done].
  destruct (merge_window_sizes _) as [c|]; cbn [mbind res_bind]; [|done].
  destruct (forallb (fun f => bool_decide _) _) eqn:Hall; [|done]. cbn [negb].
  destruct (_ && _); [done|]. intros [= <-]. exists w, c. split_and!; [done..|].
  intros s' f Hs' Hf. destruct (omap_full specs Hfull s' Hs') as (f' & Hf' & Hin).
  rewrite Hf in Hf'. injection Hf' as <-. rewrite forallb_forall in Hall.
  specialize (Hall f). rewrite <- list_elem_of_In in Hall. by apply Hall, bool_decide_eq_true in Hin.
Qed.

(** A merged spec represents its group: when [merge] of a group's specs
    succeeds and the group is not an MLA group, the result has the attention
    fields (block size, heads, head size, dtype, quantisation, padding) of every
    spec of the group, so every layer of the group has the same block size. *)
Theorem merge_represents_group (specs : list KVCacheSpec) (m : KVCacheSpec)
  (Hm : merge specs = Ok m) (Hmla : existsb is_mla specs = false) :
  forall s, s ∈ specs -> attention s = attention m /\ spec_block_size s = spec_block_size m.
Proof.
  assert (forall make a0, (forall w c, attention (make w c) = Some a0 /\ spec_block_size (make w c) = a_block_size a0) ->
    merge_full make a0 specs = Ok m ->
    forall s, s ∈ specs -> attention s = attention m /\ spec_block_size s = spec_block_size m) as Hfull.
  { intros make a0 Hmake H s Hs. destruct (merge_full_spec _ _ _ _ H) as (w & c & -> & Hf & _ & Ha).
    destruct (Hmake w c) as [-> ->]. destruct (omap_full specs Hf s Hs) as (f & Ef & _).
    specialize (Ha s f Hs Ef). destruct s; simplify_eq/=; done. }
  intros s Hs. destruct specs as [|s0 rest]; [done|].
  destruct s0 as [a v w c| |a v w c k| | | | |]; cbn [merge] in Hm;
    try (eapply Hfull; [|exact Hm|exact Hs]; done); [by destruct a|..];
    (destruct (forallb _ rest) eqn:Hall; [|done]; injection Hm as <-;
     apply elem_of_cons in Hs as [->|Hs]; [done|]; rewrite forallb_forall in Hall;
     specialize (Hall s); rewrite <- list_elem_of_In in Hall; by apply Hall, bool_decide_eq_true in Hs as ->).
Qed.

Definition demo_attention : AttentionSpec :=
  {| a_block_size := 16; num_kv_heads := 2; head_size := 64;
     a_dtype := {| dtype_name := "bfloat16"; element_size := 2 |}; kv_quant_mode := QUANT_NONE;
     a_page_size_padded := None |}.

Lemma merge_represents_group_witness :
  let specs := [FullAttentionSpec demo_attention 64 None None; FullAttentionSpec demo_attention 64 (Some 128) None] in
  merge specs = Ok (FullAttentionSpec demo_attention 64 (Some 128) None)
  /\ spec_block_size (FullAttentionSpec demo_attention 64 None None) = 16.
Proof.
  intros specs. split; [reflexivity|].
  apply (merge_represents_group specs (FullAttentionSpec demo_attention 64 (Some 128) None) eq_refl eq_refl).
  by left.
Defined.
