(* ===== verification/SingleType.v ===== *)
(** The managers of one KV-cache group:
    [v1/core/single_type_kv_cache_manager.py].

    A manager shares the block pool with the managers of the other groups, so
    its methods run on the pair of the pool and its own state.  The subclass is
    determined by the spec, and overridden methods dispatch on it.  Block sizes,
    window sizes and world sizes are positive, as the configuration requires. *)

From S2P Require Import Prelude FreeQueue Request Hashing Metrics BlockPool KVSpec.
Local Open Scope Z_scope.

Inductive manager_class :=
  | FullAttentionManager
  | SlidingWindowManager
  | ChunkedLocalAttentionManager
  | MambaManager
  | CrossAttentionManager
  | SinkFullAttentionManager.

#[export] Instance manager_class_eq_dec : EqDecision manager_class.
Proof. solve_decision. Defined.

(** [spec_manager_map] *)
Definition spec_manager_map (s : KVCacheSpec) : res manager_class :=
  match s with
  | FullAttentionSpec _ _ _ _ => Ok FullAttentionManager
  | MLAAttentionSpec _ _ _ _ _ => Ok FullAttentionManager
  | SlidingWindowSpec _ _ => Ok SlidingWindowManager
  | ChunkedLocalAttentionSpec _ _ => Ok ChunkedLocalAttentionManager
  | MambaSpec _ _ _ _ _ _ _ => Ok MambaManager
  | CrossAttentionSpec _ => Ok CrossAttentionManager
  | SinkFullAttentionSpec _ _ _ _ _ => Ok SinkFullAttentionManager
  | EncoderOnlyAttentionSpec _ => Raise KeyError
  end.

Record Manager := mkManager {
  mgr_class : manager_class;
  mgr_spec : KVCacheSpec;
  mgr_block_size : Z;
  mgr_enable_caching : bool;
  new_block_ids : list Z;
  req_to_blocks : gmap string (list ref);
  num_cached_block : gmap string Z;
  kv_cache_group_id : Z;
  mgr_null_block : ref;
  (** fields of [MambaManager] *)
  cached_blocks_this_step : gset bytes;
  last_state_block_idx : gmap string Z;
  allocated_block_reqs : gset string;
  (** field of [SinkFullAttentionManager] *)
  sink_blocks : list ref;
}.

Module Manager.
Section manager.
Context {E : Env}.

Abbreviation MM := (M (BlockPool * Manager)).

Definition on_pool {A} : M BlockPool A -> MM A := on_fst.
Definition set_mgr (f : Manager -> Manager) : MM unit := modify (fun s => (s.1, f s.2)).

(** [kv_cache_spec.block_size], scaled by context parallelism. *)
Definition scaled_block_size (spec : KVCacheSpec) (dcp_world_size pcp_world_size : Z) : Z :=
  if 1 <? dcp_world_size * pcp_world_size
  then spec_block_size spec * (dcp_world_size * pcp_world_size) else spec_block_size spec.

(** [get_manager_for_kv_cache_spec]: the base constructor, and the one of
    [SinkFullAttentionManager], which takes its sink blocks from the free queue. *)
Definition init (spec : KVCacheSpec) (enable_caching : bool) (gid dcp_world_size pcp_world_size : Z)
  : M BlockPool Manager :=
  cls ← lift_res (spec_manager_map spec);
  null ← gets null_block;
  let bs := scaled_block_size spec dcp_world_size pcp_world_size in
  let m := {| mgr_class := cls; mgr_spec := spec; mgr_block_size := bs;
              mgr_enable_caching := enable_caching; new_block_ids := []; req_to_blocks := ∅;
              num_cached_block := ∅; kv_cache_group_id := gid; mgr_null_block := null;
              cached_blocks_this_step := ∅; last_state_block_idx := ∅; allocated_block_reqs := ∅;
              sink_blocks := [] |} in
  match spec with
  | SinkFullAttentionSpec _ _ _ _ sink_len =>
      match sink_len with
      | None => raise AssertionError
      | Some sink_len =>
          assert_ ((0 <? sink_len) && (sink_len mod bs =? 0)) ;;
          sinks ← Pool.on_queue (Queue.popleft_n (sink_len / bs));
          mret {| m with sink_blocks := sinks |}
      end
  | _ => mret m
  end.

(** [self.req_to_blocks.get(request_id, ())] *)
Definition blocks_of (request_id : string) (m : Manager) : list ref :=
  default [] (req_to_blocks m !! request_id).

(** [self.req_to_blocks\[request_id\]] on the [defaultdict]: a missing entry is
    created. *)
Definition access (request_id : string) : MM (list ref) :=
  s ← gets id;
  match req_to_blocks s.2 !! request_id with
  | Some l => mret l
  | None =>
      set_mgr (fun m => {| m with req_to_blocks := <[request_id := []]> (req_to_blocks m) |}) ;;
      mret []
  end.

(** In-place changes of the list of a request. *)
Definition store_blocks (request_id : string) (l : list ref) : MM unit :=
  set_mgr (fun m => {| m with req_to_blocks := <[request_id := l]> (req_to_blocks m) |}).
Definition extend (request_id : string) (l : list ref) : MM unit :=
  set_mgr (fun m => {| m with req_to_blocks :=
    <[request_id := blocks_of request_id m ++ l]> (req_to_blocks m) |}).

Definition is_plain_full (m : Manager) : bool :=
  match mgr_spec m with FullAttentionSpec _ _ _ _ => true | _ => false end.

(** [self.new_block_ids.extend(b.block_id for b in blocks)], for full attention. *)
Definition record_new_ids (new_blocks : list ref) : MM unit :=
  s ← gets id;
  if is_plain_full s.2 then
    set_mgr (fun m => {| m with new_block_ids :=
      new_block_ids m ++ ((fun b => block_id (Pool.obj s.1 b)) <$> new_blocks) |})
  else mret tt.

Definition mamba_align (m : Manager) : bool :=
  match mgr_spec m with MambaSpec _ _ _ _ _ mode _ => String.eqb mode "align" | _ => false end.
Definition num_spec_blocks (m : Manager) : Z :=
  match mgr_spec m with MambaSpec _ _ _ _ _ _ k => k | _ => 0 end.

(** *** Skipped tokens *)

Definition get_num_skipped_tokens (m : Manager) (num_computed_tokens : Z) : Z :=
  match mgr_spec m with
  | SlidingWindowSpec _ sliding_window => Z.max 0 (num_computed_tokens - sliding_window + 1)
  | ChunkedLocalAttentionSpec _ attention_chunk_size =>
      num_computed_tokens / attention_chunk_size * attention_chunk_size
  | MambaSpec _ _ _ _ _ _ _ => num_computed_tokens - 1
  | _ => 0
  end.

(** *** Capacity check *)

Definition get_num_evictable_blocks (p : BlockPool) (blocks : list ref) : Z :=
  zlen (filter (fun b => ref_cnt (Pool.obj p b) = 0 /\ is_null (Pool.obj p b) = false) blocks).

Definition base_get_num_blocks_to_allocate (request_id : string) (num_tokens : Z)
    (new_computed_blocks : list ref) (total_computed_tokens : Z) : MM Z :=
  s ← gets id;
  let m := s.2 in
  let num_required_blocks := cdiv num_tokens (mgr_block_size m) in
  let num_req_blocks := zlen (blocks_of request_id m) in
  match num_cached_block m !! request_id with
  | Some _ =>
      assert_ (zlen new_computed_blocks =? 0) ;;
      mret (Z.max (num_required_blocks - num_req_blocks) 0)
  | None =>
      let num_skipped_tokens := get_num_skipped_tokens m total_computed_tokens in
      let num_local_computed_blocks := zlen new_computed_blocks + num_req_blocks in
      let num_skipped_blocks := num_skipped_tokens / mgr_block_size m in
      let num_new_blocks :=
        Z.max (num_required_blocks - Z.max num_skipped_blocks num_local_computed_blocks) 0 in
      let num_skipped_new_computed_blocks := Z.max 0 (num_skipped_blocks - num_req_blocks) in
      let num_evictable_blocks :=
        get_num_evictable_blocks s.1 (py_from new_computed_blocks num_skipped_new_computed_blocks) in
      mret (num_new_blocks + num_evictable_blocks)
  end.

(** [new_computed_blocks\[-1\].block_hash in self.cached_blocks_this_step] *)
Definition cached_this_step (s : BlockPool * Manager) (new_computed_blocks : list ref) : bool :=
  match last new_computed_blocks with
  | None => false
  | Some b =>
      match block_hash (Pool.obj s.1 b) with
      | Some h => bool_decide (h ∈ cached_blocks_this_step s.2)
      | None => false
      end
  end.

Definition get_num_blocks_to_allocate (request_id : string) (num_tokens : Z)
    (new_computed_blocks : list ref) (total_computed_tokens num_tokens_main_model : Z) : MM Z :=
  s ← gets id;
  let m := s.2 in
  match mgr_class m with
  | MambaManager =>
      if cached_this_step s new_computed_blocks then mret (num_gpu_blocks s.1 + 1)
      else if negb (mamba_align m) then
        let num_tokens :=
          if 0 <? num_spec_blocks m
          then num_tokens + spec_block_size (mgr_spec m) * num_spec_blocks m else num_tokens in
        base_get_num_blocks_to_allocate request_id num_tokens new_computed_blocks total_computed_tokens
      else
        let num_required_blocks := cdiv num_tokens_main_model (mgr_block_size m) + num_spec_blocks m in
        req_blocks ← access request_id;
        let num_new_blocks := num_required_blocks - zlen new_computed_blocks - zlen req_blocks in
        let num_new_blocks :=
          if 0 <? num_new_blocks then
            if bool_decide (request_id ∈ allocated_block_reqs m) then 1 else 1 + num_spec_blocks m
          else num_new_blocks in
        mret (num_new_blocks + get_num_evictable_blocks s.1 new_computed_blocks)
  | _ => base_get_num_blocks_to_allocate request_id num_tokens new_computed_blocks total_computed_tokens
  end.

(** *** Allocation *)

(** The part of [allocate_new_computed_blocks] for a request without blocks. *)
Definition adopt_computed_blocks (request_id : string) (new_computed_blocks : list ref)
    (num_local_computed_tokens num_external_computed_tokens : Z) : MM unit :=
  m ← gets snd;
  req_blocks ← access request_id;
  assert_ (zlen req_blocks =? 0) ;;
  let bs := mgr_block_size m in
  let num_total_computed_tokens := num_local_computed_tokens + num_external_computed_tokens in
  let num_skipped_tokens := get_num_skipped_tokens m num_total_computed_tokens in
  let num_skipped_blocks := num_skipped_tokens / bs in
  let '(new_computed_blocks, num_external_computed_tokens) :=
    if 0 <? num_skipped_blocks then
      (py_from new_computed_blocks num_skipped_blocks,
       Z.min (num_total_computed_tokens - num_skipped_tokens) num_external_computed_tokens)
    else (new_computed_blocks, num_external_computed_tokens) in
  (if mgr_enable_caching m then on_pool (Pool.touch new_computed_blocks)
   else assert_ (zlen new_computed_blocks =? 0)) ;;
  extend request_id (replicate (Z.to_nat num_skipped_blocks) (mgr_null_block m)) ;;
  extend request_id new_computed_blocks ;;
  set_mgr (fun m => {| m with num_cached_block :=
    <[request_id := zlen (blocks_of request_id m)]> (num_cached_block m) |}) ;;
  if 0 <? num_external_computed_tokens then
    n ← gets (fun s => zlen (blocks_of request_id s.2));
    allocated_blocks ← on_pool (Pool.get_new_blocks (cdiv num_total_computed_tokens bs - n));
    extend request_id allocated_blocks ;;
    record_new_ids allocated_blocks
  else mret tt.

Definition allocate_new_computed_blocks (request_id : string) (new_computed_blocks : list ref)
    (num_local_computed_tokens num_external_computed_tokens : Z) : MM unit :=
  m ← gets snd;
  match mgr_class m with
  | CrossAttentionManager => assert_ (zlen new_computed_blocks =? 0)
  | _ =>
      match num_cached_block m !! request_id with
      | Some _ => assert_ (zlen new_computed_blocks =? 0)
      | None =>
          adopt_computed_blocks request_id new_computed_blocks
            num_local_computed_tokens num_external_computed_tokens
      end
  end.

Definition base_allocate_new_blocks (request_id : string) (num_tokens : Z) : MM (list ref) :=
  bs ← gets (fun s => mgr_block_size s.2);
  req_blocks ← access request_id;
  let num_new_blocks := cdiv num_tokens bs - zlen req_blocks in
  if num_new_blocks <=? 0 then mret []
  else
    new_blocks ← on_pool (Pool.get_new_blocks num_new_blocks);
    extend request_id new_blocks ;;
    record_new_ids new_blocks ;;
    mret new_blocks.

(** The loop that moves the speculative blocks of the previous step to the end. *)
Fixpoint reuse_loop (null : ref) (num_skipped_blocks : Z) (idxs : list Z) (req_blocks : list ref)
  : res (list ref) :=
  match idxs with
  | [] => Ok req_blocks
  | i :: rest =>
      if i <? num_skipped_blocks then
        b ← py_get req_blocks i;
        l ← py_set (req_blocks ++ [b]) i null;
        reuse_loop null num_skipped_blocks rest l
      else Ok req_blocks
  end.

Definition set_last_state (request_id : string) (i : Z) : MM unit :=
  set_mgr (fun m => {| m with last_state_block_idx := <[request_id := i]> (last_state_block_idx m) |}).

Definition mamba_allocate_aligned (request_id : string) (num_tokens_main_model : Z) : MM (list ref) :=
  req_blocks ← access request_id;
  s ← gets id;
  let m := s.2 in
  let nspec := num_spec_blocks m in
  let num_required_blocks := cdiv num_tokens_main_model (mgr_block_size m) + nspec in
  let prev_block_len := zlen req_blocks in
  if num_required_blocks =? prev_block_len then mret []
  else
    assert_ (prev_block_len <? num_required_blocks) ;;
    let blocks_allocated := bool_decide (request_id ∈ allocated_block_reqs m) in
    (if blocks_allocated then set_last_state request_id (prev_block_len - 1 - nspec)
     else if 0 <? prev_block_len then set_last_state request_id (prev_block_len - 1)
     else mret tt) ;;
    let num_skipped_blocks := num_required_blocks - nspec - 1 in
    (if prev_block_len <? num_skipped_blocks
     then extend request_id (replicate (Z.to_nat (num_skipped_blocks - prev_block_len)) (mgr_null_block m))
     else mret tt) ;;
    (if blocks_allocated then
       l ← gets (fun s => blocks_of request_id s.2);
       l' ← lift_res (reuse_loop (mgr_null_block m) num_skipped_blocks
                        (py_range (prev_block_len - nspec) prev_block_len) l);
       store_blocks request_id l'
     else mret tt) ;;
    n ← gets (fun s => zlen (blocks_of request_id s.2));
    let num_new_blocks := num_required_blocks - n in
    assert_ (if blocks_allocated then num_new_blocks <=? 1 else num_new_blocks <=? nspec + 1) ;;
    new_blocks ← on_pool (Pool.get_new_blocks num_new_blocks);
    extend request_id new_blocks ;;
    set_mgr (fun m => {| m with allocated_block_reqs := {[request_id]} ∪ allocated_block_reqs m |}) ;;
    gets (fun s => py_from (blocks_of request_id s.2) prev_block_len).

Definition allocate_new_blocks (request_id : string) (num_tokens num_tokens_main_model : Z)
  : MM (list ref) :=
  m ← gets snd;
  match mgr_class m with
  | MambaManager =>
      if negb (mamba_align m) then
        base_allocate_new_blocks request_id
          (if 0 <? num_spec_blocks m then num_tokens + mgr_block_size m * num_spec_blocks m
           else num_tokens)
      else mamba_allocate_aligned request_id num_tokens_main_model
  | _ => base_allocate_new_blocks request_id num_tokens
  end.

Definition take_new_block_ids : MM (list Z) :=
  ids ← gets (fun s => new_block_ids s.2);
  set_mgr (fun m => {| m with new_block_ids := [] |}) ;;
  mret ids.

(** *** Caching *)

Abbreviation MR := (M (BlockPool * Manager * Request)).

Definition on_mgr {A} : MM A -> MR A := on_fst.
Definition on_pool_request {A} : M (BlockPool * Request) A -> MR A :=
  zoom (fun s => (s.1.1, s.2)) (fun t s => ((t.1, s.1.2), t.2)).

Definition base_cache_blocks (num_tokens : Z) : MR unit :=
  s ← gets id;
  let m := s.1.2 in
  let rid := request_id s.2 in
  let num_cached_blocks := default 0 (num_cached_block m !! rid) in
  let num_full_blocks := num_tokens / mgr_block_size m in
  if num_full_blocks <=? num_cached_blocks then mret tt
  else
    blocks ← on_mgr (access rid);
    on_pool_request (Pool.cache_full_blocks blocks num_cached_blocks num_full_blocks
                       (mgr_block_size m) (kv_cache_group_id m)) ;;
    on_mgr (set_mgr (fun m => {| m with num_cached_block :=
      <[rid := num_full_blocks]> (num_cached_block m) |})).

(** The loop that remembers the hashes cached in this step. *)
Definition remember_cached (b : ref) : MM unit :=
  s ← gets id;
  let blk := Pool.obj s.1 b in
  if is_null blk then mret tt
  else
    match block_hash blk with
    | None => raise AssertionError
    | Some h => set_mgr (fun m => {| m with cached_blocks_this_step := {[h]} ∪ cached_blocks_this_step m |})
    end.

Definition cache_blocks (num_tokens : Z) : MR unit :=
  s ← gets id;
  let m := s.1.2 in
  let rid := request_id s.2 in
  match mgr_class m with
  | CrossAttentionManager => raise ValueError
  | MambaManager =>
      let num_cached_blocks_before := default 0 (num_cached_block m !! rid) in
      base_cache_blocks num_tokens ;;
      num_cached_blocks_after ← gets (fun s => default 0 (num_cached_block s.1.2 !! rid));
      if num_cached_blocks_before <? num_cached_blocks_after then
        blocks ← on_mgr (access rid);
        on_mgr (mfor (py_slice blocks num_cached_blocks_before num_cached_blocks_after) remember_cached)
      else mret tt
  | _ => base_cache_blocks num_tokens
  end.

Definition new_step_starts : MM unit :=
  set_mgr (fun m => match mgr_class m with
                    | MambaManager => {| m with cached_blocks_this_step := ∅ |}
                    | _ => m
                    end).

(** *** Freeing *)

Definition free (request_id : string) : MM unit :=
  m ← gets snd;
  (if mamba_align m then
     set_mgr (fun m => {| m with allocated_block_reqs := allocated_block_reqs m ∖ {[request_id]};
                                 last_state_block_idx := delete request_id (last_state_block_idx m) |})
   else mret tt) ;;
  let req_blocks := blocks_of request_id m in
  set_mgr (fun m => {| m with req_to_blocks := delete request_id (req_to_blocks m) |}) ;;
  on_pool (Pool.free_blocks (reverse req_blocks)) ;;
  set_mgr (fun m => {| m with num_cached_block := delete request_id (num_cached_block m) |}).

(** [for i in range(n - 1, -1, -1)] of [remove_skipped_blocks]; [n] counts down. *)
Fixpoint skip_loop (null : ref) (n : nat) (blocks removed_blocks : list ref) : list ref * list ref :=
  match n with
  | O => (blocks, removed_blocks)
  | S i =>
      match blocks !! i with
      | None => (blocks, removed_blocks)
      | Some b =>
          if decide (b = null) then (blocks, removed_blocks)
          else skip_loop null i (<[i := null]> blocks) (removed_blocks ++ [b])
      end
  end.

Definition base_remove_skipped_blocks (request_id : string) (total_computed_tokens : Z) : MM unit :=
  m ← gets snd;
  let num_skipped_tokens := get_num_skipped_tokens m total_computed_tokens in
  if num_skipped_tokens <=? 0 then mret tt
  else
    blocks ← access request_id;
    let num_skipped_blocks := Z.min (num_skipped_tokens / mgr_block_size m) (zlen blocks) in
    let '(blocks', removed_blocks) :=
      skip_loop (mgr_null_block m) (Z.to_nat num_skipped_blocks) blocks [] in
    store_blocks request_id blocks' ;;
    on_pool (Pool.free_blocks removed_blocks).

Definition remove_skipped_blocks (request_id : string) (num_computed_tokens : Z) : MM unit :=
  m ← gets snd;
  match mgr_class m with
  | MambaManager =>
      let num_computed_tokens := Z.max 0 (num_computed_tokens - num_spec_blocks m) in
      base_remove_skipped_blocks request_id num_computed_tokens ;;
      if mamba_align m then
        match last_state_block_idx m !! request_id with
        | Some idx =>
            if idx <? cdiv num_computed_tokens (mgr_block_size m) - 1 then
              blocks ← access request_id;
              b ← lift_res (py_get blocks idx);
              if decide (b = mgr_null_block m) then mret tt
              else
                on_pool (Pool.free_blocks [b]) ;;
                blocks' ← lift_res (py_set blocks idx (mgr_null_block m));
                store_blocks request_id blocks'
            else mret tt
        | None => mret tt
        end
      else mret tt
  | _ => base_remove_skipped_blocks request_id num_computed_tokens
  end.

(** *** Common prefix *)

Fixpoint common_prefix (p : BlockPool) (num_reqs : Z) (blocks : list ref) : Z :=
  match blocks with
  | [] => 0
  | b :: rest => if ref_cnt (Pool.obj p b) =? num_reqs then 1 + common_prefix p num_reqs rest else 0
  end.

Definition get_num_common_prefix_blocks (running_request_id : string) : MM Z :=
  m ← gets snd;
  match mgr_class m with
  | FullAttentionManager | SinkFullAttentionManager =>
      blocks ← access running_request_id;
      s ← gets id;
      mret (common_prefix s.1 (Z.of_nat (size (req_to_blocks s.2))) blocks)
  | _ => mret 0
  end.

End manager.
End Manager.

(** ** Longest cache hit *)

Module Hit.

(** [for computed, cached in zip(computed_blocks, cached_block): computed.append(cached)] *)
Fixpoint append_each (computed_blocks : list (list ref)) (cached_block : list ref) : list (list ref) :=
  match computed_blocks, cached_block with
  | c :: cs, b :: bs => (c ++ [b]) :: append_each cs bs
  | cs, _ => cs
  end.

(** [computed\[i\] = cached] for each column. *)
Fixpoint set_each (i : Z) (computed_blocks : list (list ref)) (cached_block : list ref)
  : res (list (list ref)) :=
  match computed_blocks, cached_block with
  | c :: cs, b :: bs => c' ← py_set c i b; cs' ← set_each i cs bs; Ok (c' :: cs')
  | cs, _ => Ok cs
  end.

Fixpoint pop_each (computed_blocks : list (list ref)) : res (list (list ref)) :=
  match computed_blocks with
  | [] => Ok []
  | c :: cs => c' ← py_pop c; cs' ← pop_each cs; Ok (c' :: cs')
  end.

(** A hit is a non-empty list of blocks: no groups means no hit. *)
Definition hit {A} (o : option (list A)) : option (list A) :=
  match o with Some (b :: bs) => Some (b :: bs) | _ => None end.

(** [while block_size != alignment_tokens and len(computed_blocks\[0\]) *
    block_size % alignment_tokens != 0: pop]; one unit of fuel per block. *)
Fixpoint align_loop (fuel : nat) (block_size alignment_tokens : Z) (computed_blocks : list (list ref))
  : res (list (list ref)) :=
  if block_size =? alignment_tokens then Ok computed_blocks
  else
    c ← py_get computed_blocks 0;
    if alignment_tokens =? 0 then Raise ZeroDivisionError
    else if zlen c * block_size mod alignment_tokens =? 0 then Ok computed_blocks
    else
      match fuel with
      | O => Raise Diverges
      | S fuel' => cs ← pop_each computed_blocks; align_loop fuel' block_size alignment_tokens cs
      end.

Definition align (block_size alignment_tokens : Z) (computed_blocks : list (list ref))
  : res (list (list ref)) :=
  align_loop (match computed_blocks with c :: _ => length c | [] => 0 end)
    block_size alignment_tokens computed_blocks.

(** [if use_eagle and computed_blocks\[0\]: drop the last block] *)
Definition eagle_pop (use_eagle : bool) (computed_blocks : list (list ref)) : res (list (list ref)) :=
  if use_eagle then
    c ← py_get computed_blocks 0;
    if 0 <? zlen c then pop_each computed_blocks else Ok computed_blocks
  else Ok computed_blocks.

(** [(i + 1) * block_size % alignment_tokens != 0] *)
Definition unaligned (block_size alignment_tokens i : Z) : res bool :=
  if block_size =? alignment_tokens then Ok false
  else if alignment_tokens =? 0 then Raise ZeroDivisionError
  else Ok (negb ((i + 1) * block_size mod alignment_tokens =? 0)).

Section hit.
Context (block_hashes : BlockHashList) (gids : list Z) (p : BlockPool).

Definition lookup (i : Z) : res (option (list ref)) :=
  h ← bhl_get block_hashes i;
  o ← Pool.get_cached_block h gids p;
  Ok (hit o).

(** *** Full attention *)

Fixpoint full_loop (is_ : list Z) (computed_blocks : list (list ref)) : res (list (list ref)) :=
  match is_ with
  | [] => Ok computed_blocks
  | i :: rest =>
      o ← lookup i;
      match o with
      | Some cached_block => full_loop rest (append_each computed_blocks cached_block)
      | None => Ok computed_blocks
      end
  end.

Definition full_find_longest_cache_hit (max_length : Z) (spec : KVCacheSpec) (use_eagle : bool)
    (alignment_tokens dcp_world_size pcp_world_size : Z) : res (list (list ref)) :=
  if negb (is_full spec || match spec with ChunkedLocalAttentionSpec _ _ => true | _ => false end)
  then Raise AssertionError
  else
    let block_size := Manager.scaled_block_size spec dcp_world_size pcp_world_size in
    let max_num_blocks := max_length / block_size in
    if max_num_blocks <? 0 then Raise ValueError
    else
      computed_blocks ← full_loop (py_range 0 (Z.min max_num_blocks (bhl_len block_hashes)))
                          (replicate (length gids) []);
      computed_blocks ← eagle_pop use_eagle computed_blocks;
      align block_size alignment_tokens computed_blocks.

(** *** Sliding window *)

(** The right-to-left search; the result says whether a match was found, with the
    columns (already trimmed if so) and the length of the current run. *)
Fixpoint window_loop (block_size alignment_tokens contiguous_blocks : Z) (is_ : list Z)
    (computed_blocks : list (list ref)) (num_contiguous_blocks : Z)
  : res (bool * list (list ref) * Z) :=
  match is_ with
  | [] => Ok (false, computed_blocks, num_contiguous_blocks)
  | i :: rest =>
      o ← lookup i;
      match o with
      | None => window_loop block_size alignment_tokens contiguous_blocks rest computed_blocks 0
      | Some cached_block =>
          skip ← (if num_contiguous_blocks =? 0 then unaligned block_size alignment_tokens i else Ok false);
          if skip : bool
          then window_loop block_size alignment_tokens contiguous_blocks rest computed_blocks num_contiguous_blocks
          else
            computed_blocks ← set_each i computed_blocks cached_block;
            let num_contiguous_blocks := num_contiguous_blocks + 1 in
            if contiguous_blocks <=? num_contiguous_blocks then
              Ok (true, (fun c => py_upto c (i + num_contiguous_blocks)) <$> computed_blocks, num_contiguous_blocks)
            else window_loop block_size alignment_tokens contiguous_blocks rest computed_blocks num_contiguous_blocks
      end
  end.

Definition window_find_longest_cache_hit (max_length : Z) (spec : KVCacheSpec) (use_eagle : bool)
    (alignment_tokens dcp_world_size pcp_world_size : Z) : res (list (list ref)) :=
  match spec with
  | SlidingWindowSpec a sliding_window =>
      if negb ((dcp_world_size =? 1) && (pcp_world_size =? 1)) then Raise AssertionError
      else
        let block_size := a_block_size a in
        let contiguous := cdiv (sliding_window - 1) block_size + (if use_eagle then 1 else 0) in
        let max_num_blocks := max_length / block_size in
        let computed_blocks := replicate (length gids) (replicate (Z.to_nat max_num_blocks) (null_block p)) in
        '(match_found, computed_blocks, num_contiguous_blocks) ←
          window_loop block_size alignment_tokens contiguous (reverse (py_range 0 max_num_blocks))
            computed_blocks 0;
        computed_blocks ←
          (if match_found : bool then Ok computed_blocks
           else align block_size alignment_tokens
                  ((fun c => py_upto c num_contiguous_blocks) <$> computed_blocks));
        if use_eagle then
          c ← py_get computed_blocks 0;
          if 0 <? zlen c then
            computed_blocks ← pop_each computed_blocks;
            align block_size alignment_tokens computed_blocks
          else Ok computed_blocks
        else Ok computed_blocks
  | _ => Raise AssertionError
  end.

(** *** Chunked local attention *)

Definition chunked_find_longest_cache_hit (max_length : Z) (spec : KVCacheSpec) (use_eagle : bool)
    (alignment_tokens dcp_world_size pcp_world_size : Z) : res (list (list ref)) :=
  match spec with
  | ChunkedLocalAttentionSpec a attention_chunk_size =>
      if negb (negb use_eagle && (dcp_world_size =? 1) && (pcp_world_size =? 1)
               && (a_block_size a =? alignment_tokens)) then Raise AssertionError
      else
        let block_size := a_block_size a in
        let max_num_blocks := max_length / block_size in
        let local_attention_start_idx :=
          if 0 <? max_length then max_length / attention_chunk_size * attention_chunk_size else 0 in
        let start_block := local_attention_start_idx / block_size in
        full_loop (py_range start_block max_num_blocks)
          (replicate (length gids) (replicate (Z.to_nat start_block) (null_block p)))
  | _ => Raise AssertionError
  end.

(** *** Mamba *)

Fixpoint mamba_loop (block_size alignment_tokens : Z) (is_ : list Z) (computed_blocks : list (list ref))
  : res (list (list ref)) :=
  match is_ with
  | [] => Ok computed_blocks
  | i :: rest =>
      o ← lookup i;
      match o with
      | None => mamba_loop block_size alignment_tokens rest computed_blocks
      | Some cached_block =>
          skip ← unaligned block_size alignment_tokens i;
          if skip : bool then mamba_loop block_size alignment_tokens rest computed_blocks
          else Ok (append_each ((fun c => c ++ replicate (Z.to_nat i) (null_block p)) <$> computed_blocks)
                     cached_block)
      end
  end.

Definition mamba_find_longest_cache_hit (max_length : Z) (spec : KVCacheSpec) (use_eagle : bool)
    (alignment_tokens dcp_world_size pcp_world_size : Z) : res (list (list ref)) :=
  match spec with
  | MambaSpec block_size _ _ _ _ _ _ =>
      if negb ((dcp_world_size =? 1) && (pcp_world_size =? 1)) then Raise AssertionError
      else
        mamba_loop block_size alignment_tokens (reverse (py_range 0 (max_length / block_size)))
          (replicate (length gids) [])
  | _ => Raise AssertionError
  end.

(** The class method of the manager class. *)
Definition find_longest_cache_hit (cls : manager_class) (max_length : Z) (spec : KVCacheSpec)
    (use_eagle : bool) (alignment_tokens dcp_world_size pcp_world_size : Z) : res (list (list ref)) :=
  match cls with
  | FullAttentionManager | SinkFullAttentionManager =>
      full_find_longest_cache_hit max_length spec use_eagle alignment_tokens dcp_world_size pcp_world_size
  | SlidingWindowManager =>
      window_find_longest_cache_hit max_length spec use_eagle alignment_tokens dcp_world_size pcp_world_size
  | ChunkedLocalAttentionManager =>
      chunked_find_longest_cache_hit max_length spec use_eagle alignment_tokens dcp_world_size pcp_world_size
  | MambaManager =>
      mamba_find_longest_cache_hit max_length spec use_eagle alignment_tokens dcp_world_size pcp_world_size
  | CrossAttentionManager =>
      match spec with
      | CrossAttentionSpec _ => Raise NotImplementedError
      | _ => Raise AssertionError
      end
  end.

End hit.
End Hit.

(** ** Correctness of the lookups *)

Module HitFacts.
Import Hit PoolFacts.

(** [l] reads as the list of hashes [hs]. *)
Definition bhl_reads (l : BlockHashList) (hs : list bytes) : Prop :=
  bhl_len l = zlen hs
  /\ forall (i : nat) h, hs !! i = Some h -> bhl_get l (Z.of_nat i) = Ok h.

Section facts.
Context {E : Env}.
Context (l : BlockHashList) (hs : list bytes) (Hl : bhl_reads l hs).
Context (gids : list Z) (Hgids : Forall (fun g => 0 <= g < 2 ^ 32) gids) (Hne : gids <> []).
Context (p : BlockPool) (free : list ref) (Hp : pool_core p free).

(** Block [b] is a cached block of group [g] for the [i]-th hash. *)
Definition hit_block (i : nat) (g : Z) (b : ref) : Prop :=
  usable p b /\ exists h key, hs !! i = Some h /\ make_block_hash_with_group_id h g = Ok key
                              /\ keyof p b = Some key.

(** All groups have a cached block for the [i]-th hash. *)
Definition cached (i : nat) : Prop := forall g, g ∈ gids -> exists b, hit_block i g b.

Lemma lookup_spec (i : nat) : (i < length hs)%nat ->
  exists o, lookup l gids p (Z.of_nat i) = Ok o
    /\ match o with
       | Some bs => Forall2 (hit_block i) gids bs /\ cached i
       | None => ~ cached i
       end.
Proof.
  intros Hi. destruct (lookup_lt_is_Some_2 hs i Hi) as [h Hh]. unfold lookup.
  rewrite (proj2 Hl i h Hh). cbn [mbind res_bind].
  destruct (get_cached_block_spec p free h gids Hp Hgids) as (o & -> & Ho). cbn [mbind res_bind].
  destruct o as [bs|]; cbn [hit].
  - assert (Forall2 (hit_block i) gids bs) as Hbs.
    { eapply Forall2_impl; [exact Ho|]. intros g b (Hu & key & Ek & Hk). split; [done|]. by exists h, key. }
    assert (cached i) as Hc.
    { intros g Hg. apply list_elem_of_lookup in Hg as [j Hj].
      destruct (Forall2_lookup_l _ _ _ _ _ Hbs Hj) as (b & _ & Hb). by exists b. }
    destruct bs as [|b bs]; [by apply Forall2_nil_inv_r in Hbs|]. by exists (Some (b :: bs)).
  - exists None. split; [done|]. intros Hc. destruct Ho as (g & key & Hg & Ek & Hno).
    destruct (Hc g Hg) as (b & Hu & h' & key' & Hh' & Ek' & Hk').
    apply (Hno b (usable_blk _ _ _ Hp Hu)). congruence.
Qed.

(** One column per group, [n] blocks long, with [P] of each entry. *)
Definition columns (P : nat -> Z -> ref -> Prop) (n : nat) (cols : list (list ref)) : Prop :=
  Forall2 (fun g c => length c = n /\ forall i b, c !! i = Some b -> P i g b) gids cols.

Lemma columns_impl (P Q : nat -> Z -> ref -> Prop) n cols : columns P n cols ->
  (forall i g b, (i < n)%nat -> P i g b -> Q i g b) -> columns Q n cols.
Proof.
  intros Hc HPQ. eapply Forall2_impl; [exact Hc|]. intros g c [Hn Hc']. split; [done|].
  intros i b Hi. apply HPQ; [|by apply Hc']. rewrite <- Hn. by eapply lookup_lt_Some.
Qed.

Lemma columns_take (P : nat -> Z -> ref -> Prop) n m cols : columns P n cols -> (m <= n)%nat ->
  columns P m (take m <$> cols).
Proof.
  intros Hc Hm. apply Forall2_fmap_r. eapply Forall2_impl; [exact Hc|]. intros g c [Hn Hc'].
  split; [rewrite length_take; lia|]. intros i b Hi. apply lookup_take_Some in Hi as [Hi _]. by apply Hc'.
Qed.

Lemma columns_replicate (P : nat -> Z -> ref -> Prop) n b :
  (forall i g, (i < n)%nat -> g ∈ gids -> P i g b) -> columns P n (replicate (length gids) (replicate n b)).
Proof.
  intros HP. unfold columns. clear Hgids Hne. induction gids as [|g gs IH]; [constructor|].
  constructor; [|apply IH; intros; apply HP; [done|by right]].
  split; [apply length_replicate|]. intros i b' Hi. apply lookup_replicate in Hi as [-> Hi].
  apply HP; [done|by left].
Qed.

Lemma columns_first (P : nat -> Z -> ref -> Prop) n cols : columns P n cols ->
  exists c, py_get cols 0 = Ok c /\ length c = n.
Proof.
  intros Hc. unfold columns in Hc. destruct gids as [|g gs]; [done|].
  apply Forall2_cons_inv_l in Hc as (c & cs & [Hn _] & _ & ->). by exists c.
Qed.

Lemma columns_first_length (P : nat -> Z -> ref -> Prop) n cols : columns P n cols ->
  (match cols with c :: _ => length c | [] => 0 end)%nat = n.
Proof.
  intros Hc. unfold columns in Hc. destruct gids as [|g gs]; [done|].
  by apply Forall2_cons_inv_l in Hc as (c & cs & [Hn _] & _ & ->).
Qed.

Lemma append_each_spec (P : nat -> Z -> ref -> Prop) n cols bs :
  columns P n cols -> Forall2 (P n) gids bs -> columns P (S n) (append_each cols bs).
Proof.
  unfold columns. clear Hgids Hne. intros Hc. revert bs.
  induction Hc as [|g c gs cs [Hn Hc] _ IH]; intros bs Hbs.
  - by apply Forall2_nil_inv_l in Hbs as ->.
  - apply Forall2_cons_inv_l in Hbs as (b & bs' & Hb & Hbs & ->). cbn [append_each].
    constructor; [|by apply IH]. split; [rewrite length_app; simpl; lia|].
    intros i b' Hi. apply lookup_app_Some in Hi as [Hi|[Hi1 Hi2]]; [by apply Hc|].
    apply list_lookup_singleton_Some in Hi2 as [Hi2 <-]. by replace i with n by lia.
Qed.

Lemma set_each_spec (P Q : nat -> Z -> ref -> Prop) n (i : nat) cols bs :
  columns P n cols -> (i < n)%nat -> Forall2 (Q i) gids bs ->
  (forall j g b, j <> i -> P j g b -> Q j g b) ->
  exists cols', set_each (Z.of_nat i) cols bs = Ok cols' /\ columns Q n cols'.
Proof.
  unfold columns. clear Hgids Hne. intros Hc Hi. revert bs.
  induction Hc as [|g c gs cs [Hn Hc] _ IH]; intros bs Hbs HPQ.
  - apply Forall2_nil_inv_l in Hbs as ->. by exists [].
  - apply Forall2_cons_inv_l in Hbs as (b & bs' & Hb & Hbs & ->). cbn [set_each].
    rewrite py_set_nonneg, Nat2Z.id by (unfold zlen; lia). cbn [mbind res_bind].
    destruct (IH bs' Hbs HPQ) as (cols' & -> & Hcols'). cbn [mbind res_bind].
    eexists. split; [done|]. constructor; [|done]. split; [by rewrite length_insert|].
    intros j b' Hj. destruct (decide (j = i)) as [->|Hji].
    + rewrite list_lookup_insert_eq in Hj by lia. by injection Hj as <-.
    + rewrite list_lookup_insert_ne in Hj by done. apply HPQ; [done|]. by apply Hc.
Qed.

Lemma pop_each_spec (P : nat -> Z -> ref -> Prop) n cols : columns P (S n) cols ->
  pop_each cols = Ok (take n <$> cols).
Proof.
  unfold columns. clear Hgids Hne. induction 1 as [|g c gs cs [Hn Hc] _ IH]; [done|].
  cbn [pop_each]. rewrite (py_pop_take c n Hn). cbn [mbind res_bind]. rewrite IH. done.
Qed.

(** *** Alignment *)

Definition aligned (bs al : Z) (n : nat) : Prop := bs = al \/ Z.of_nat n * bs mod al = 0.

(** The longest aligned prefix. *)
Lemma columns_take_id (P : nat -> Z -> ref -> Prop) n cols : columns P n cols -> take n <$> cols = cols.
Proof.
  unfold columns. clear Hgids Hne. induction 1 as [|g c gs cs [Hn _] _ IH]; [done|].
  rewrite fmap_cons, IH. f_equal. apply take_ge. lia.
Qed.

Lemma align_loop_spec (P : nat -> Z -> ref -> Prop) bs al n fuel cols : 0 < al ->
  columns P n cols -> (n <= fuel)%nat ->
  exists m, align_loop fuel bs al cols = Ok (take m <$> cols) /\ (m <= n)%nat /\ aligned bs al m
    /\ forall k, (m < k <= n)%nat -> ~ aligned bs al k.
Proof.
  intros Hal. revert n cols. induction fuel as [|fuel IH]; intros n cols Hc Hf;
    pose proof (columns_take_id P n cols Hc) as Hid; cbn [align_loop];
    (destruct (Z.eqb_spec bs al) as [->|Hne'];
      [exists n; rewrite Hid; split_and!; [done|done|by left|lia]|]);
    destruct (columns_first P n cols Hc) as (c & -> & Hlen); cbn [mbind res_bind];
    replace (al =? 0) with false by lia; unfold zlen; rewrite Hlen;
    (destruct (Z.eqb_spec (Z.of_nat n * bs mod al) 0) as [H0|H0];
      [exists n; rewrite Hid; split_and!; [done|done|by right|lia]|]).
  - exfalso. apply H0. replace n with 0%nat by lia. by rewrite Z.mul_0_l, Z.mod_0_l by lia.
  - destruct n as [|n]; [exfalso; apply H0; by rewrite Z.mul_0_l, Z.mod_0_l by lia|].
    rewrite (pop_each_spec P n cols Hc). cbn [mbind res_bind].
    destruct (IH n (take n <$> cols)) as (m & -> & Hm & Ha & Hmax);
      [by apply (columns_take P (S n)); [|lia]|lia|].
    exists m. split; [|split_and!; [lia|done|]].
    + f_equal. rewrite <- list_fmap_compose. apply list_fmap_ext. intros _ c' _. cbn.
      rewrite take_take. f_equal. lia.
    + intros k Hk. destruct (decide (k = S n)) as [->|]; [|apply Hmax; lia]. intros [?|?]; done.
Qed.

Lemma align_spec (P : nat -> Z -> ref -> Prop) bs al n cols : 0 < al -> columns P n cols ->
  exists m, align bs al cols = Ok (take m <$> cols) /\ (m <= n)%nat /\ aligned bs al m
    /\ (forall k, (m < k <= n)%nat -> ~ aligned bs al k) /\ columns P m (take m <$> cols).
Proof.
  intros Hal Hc. unfold align. rewrite (columns_first_length P n cols Hc).
  destruct (align_loop_spec P bs al n n cols Hal Hc) as (m & -> & Hm & Ha & Hmax); [lia|].
  exists m. split_and!; try done. by apply (columns_take P n).
Qed.

Lemma eagle_pop_spec (P : nat -> Z -> ref -> Prop) n eagle cols : columns P n cols ->
  let n' := (if eagle : bool then pred n else n) in
  exists cols', eagle_pop eagle cols = Ok cols' /\ columns P n' cols'.
Proof.
  intros Hc. cbv zeta. unfold eagle_pop. destruct eagle; [|by exists cols].
  destruct (columns_first P n cols Hc) as (c & -> & Hlen). cbn [mbind res_bind]. unfold zlen. rewrite Hlen.
  destruct n as [|n]; [by exists cols|]. destruct (Z.ltb_spec 0 (Z.of_nat (S n))); [|lia].
  rewrite (pop_each_spec P n cols Hc). eexists. split; [done|].
  apply (columns_take P (S n) n); [done|lia].
Qed.

(** *** Full attention *)

(** From block [k] to [k + d]: the loop stops at the first miss. *)
Lemma full_loop_spec (P : nat -> Z -> ref -> Prop) d : forall k cols,
  (k + d <= length hs)%nat -> columns P k cols ->
  (forall i g b, (k <= i)%nat -> hit_block i g b -> P i g b) ->
  exists n cols', full_loop l gids p (py_range (Z.of_nat k) (Z.of_nat (k + d))) cols = Ok cols'
    /\ columns P n cols' /\ (k <= n <= k + d)%nat /\ (forall i, (k <= i < n)%nat -> cached i)
    /\ (n = (k + d)%nat \/ ~ cached n).
Proof.
  induction d as [|d IH]; intros k cols Hk Hc HP.
  - rewrite py_range_nil by lia. exists k, cols. split_and!; [done|done|lia|lia|lia|left; lia].
  - rewrite py_range_cons by lia. cbn [full_loop].
    destruct (lookup_spec k) as (o & -> & Ho); [lia|]. cbn [mbind res_bind].
    destruct o as [bs|].
    + destruct Ho as [Hbs Hck].
      replace (Z.of_nat k + 1) with (Z.of_nat (S k)) by lia. replace (k + S d)%nat with (S k + d)%nat by lia.
      destruct (IH (S k) (append_each cols bs)) as (n & cols' & -> & Hc' & Hn & Hall & Hend); [lia| | |].
      * apply append_each_spec; [done|]. eapply Forall2_impl; [exact Hbs|]. intros. by apply HP.
      * intros. apply HP; [lia|done].
      * exists n, cols'. split_and!; try done; [lia|lia|].
        intros i Hi. destruct (decide (i = k)) as [->|]; [done|apply Hall; lia].
    + exists k, cols. split_and!; [done|done|lia|lia|lia|by right].
Qed.

Lemma columns_nil (P : nat -> Z -> ref -> Prop) : columns P 0 (replicate (length gids) []).
Proof. apply (columns_replicate P 0 (RBlk 0)). lia. Qed.

Lemma full_find_spec max_length spec eagle al dcp pcp :
  (is_full spec || match spec with ChunkedLocalAttentionSpec _ _ => true | _ => false end) = true ->
  let bs := Manager.scaled_block_size spec dcp pcp in
  0 < bs -> 0 < al -> 0 <= max_length ->
  exists n m cols, full_find_longest_cache_hit l gids p max_length spec eagle al dcp pcp = Ok cols
    /\ columns hit_block m cols
    /\ (Z.of_nat n <= max_length / bs)%Z /\ (n <= length hs)%nat
    /\ (forall i, (i < n)%nat -> cached i)
    /\ (Z.of_nat n = max_length / bs \/ n = length hs \/ ~ cached n)
    /\ let n' := (if eagle : bool then pred n else n) in
       (m <= n')%nat /\ aligned bs al m /\ forall k, (m < k <= n')%nat -> ~ aligned bs al k.
Proof.
  intros Hspec bs Hbs Hal Hmax. unfold full_find_longest_cache_hit. rewrite Hspec. cbn [negb]. fold bs.
  assert (0 <= max_length / bs) by (apply Z.div_pos; lia).
  replace (max_length / bs <? 0) with false by lia. rewrite (proj1 Hl).
  set (d := Z.to_nat (Z.min (max_length / bs) (zlen hs))).
  assert (d <= length hs)%nat by (unfold d, zlen; lia).
  replace (Z.min (max_length / bs) (zlen hs)) with (Z.of_nat (0 + d)) by (unfold d, zlen; lia).
  destruct (full_loop_spec hit_block d 0 (replicate (length gids) [])) as (n & cols & E1 & Hc & Hn & Hall & Hend);
    [lia|apply columns_nil|done|].
  change (Z.of_nat 0) with 0 in E1. rewrite E1. cbn [mbind res_bind].
  destruct (eagle_pop_spec hit_block n eagle cols Hc) as (cols1 & -> & Hc1). cbn [mbind res_bind].
  destruct (align_spec hit_block bs al _ cols1 Hal Hc1) as (m & -> & Hm & Ha & Hmx & Hc2).
  exists n, m, (take m <$> cols1). split_and!; try done; [unfold d, zlen in *; lia|lia|intros; apply Hall; lia|].
  destruct Hend as [->|]; [|by right; right]. unfold d, zlen in *. lia.
Qed.

(** *** Sliding window *)

(** A prefix of [n] blocks on which a window of [w] blocks can continue. *)
Definition window_hit (bs al : Z) (w n : nat) : Prop :=
  aligned bs al n /\ forall i, (n - w <= i < n)%nat -> cached i.

(** Entry of a column: a cached block, or the null block before the window. *)
Definition hit_or_null (i : nat) (g : Z) (b : ref) : Prop := hit_block i g b \/ b = null_block p.

Definition window_entry (lo hi i : nat) (g : Z) (b : ref) : Prop :=
  hit_or_null i g b /\ ((lo <= i < hi)%nat -> hit_block i g b).

Lemma unaligned_spec bs al (k : nat) : 0 < al ->
  exists b, unaligned bs al (Z.of_nat k) = Ok b /\ (b = false <-> aligned bs al (S k)).
Proof.
  intros Hal. unfold unaligned, aligned. replace (al =? 0) with false by lia.
  replace (Z.of_nat (S k)) with (Z.of_nat k + 1) by lia.
  destruct (Z.eqb_spec bs al); [exists false; split; [done|tauto]|].
  destruct (Z.eqb_spec ((Z.of_nat k + 1) * bs mod al) 0); eexists; (split; [done|]); cbn [negb]; split; auto;
    [done|by intros [?|?]].
Qed.

Lemma window_loop_spec bs al (w N : nat) k : forall cols (r : nat),
  0 < al -> (0 < w)%nat -> (k <= N <= length hs)%nat ->
  columns (window_entry k (k + r)) N cols -> (k + r <= N)%nat -> (r < w)%nat ->
  (forall i, (k <= i < k + r)%nat -> cached i) -> (0 < r -> aligned bs al (k + r))%nat ->
  (forall m, (k + r < m <= N)%nat -> ~ window_hit bs al w m) ->
  exists (found : bool) (m : nat) cols',
    window_loop l gids p bs al (Z.of_nat w) (reverse (py_range 0 (Z.of_nat k))) cols (Z.of_nat r)
      = Ok (found, cols', if found then Z.of_nat w else Z.of_nat m)
    /\ (m <= N)%nat /\ window_hit bs al w m /\ (forall m', (m < m' <= N)%nat -> ~ window_hit bs al w m')
    /\ columns (window_entry (m - w) m) (if found then m else N) cols'.
Proof.
  induction k as [|k IH]; intros cols r Hal Hw HN Hc Hr Hrw Hcached Haln Hmax.
  - exists false, r, cols. split_and!; [done|lia|split|exact Hmax|].
    + destruct r; [right; by rewrite Z.mul_0_l, Z.mod_0_l by lia|apply Haln; lia].
    + intros i Hi. apply Hcached. lia.
    + replace (r - w)%nat with 0%nat by lia. done.
  - replace (Z.of_nat (S k)) with (Z.of_nat k + 1) by lia. rewrite py_range_snoc, reverse_snoc by lia.
    cbn [window_loop]. destruct (lookup_spec k) as (o & -> & Ho); [lia|]. cbn [mbind res_bind].
    destruct o as [bks|].
    2:{ apply (IH cols 0%nat); try lia.
        - eapply columns_impl; [exact Hc|]. intros i g b _ [? _]. split; [done|lia].
        - intros m Hm [Hma Hmc]. destruct (decide (S k + r < m)%nat); [by apply (Hmax m); [lia|split]|].
          apply Ho, Hmc. lia. }
    destruct Ho as [Hbks Hck].
    destruct (unaligned_spec bs al k Hal) as (u & Hu & Hu').
    assert (exists skip : bool, (if Z.of_nat r =? 0 then unaligned bs al (Z.of_nat k) else Ok false) = Ok skip
              /\ if skip then r = 0%nat /\ ~ aligned bs al (S k) else aligned bs al (S k + r)) as (skip & -> & Hskip).
    { destruct (Z.eqb_spec (Z.of_nat r) 0) as [Hr0|Hr0].
      - exists u. split; [done|]. destruct u; [split; [lia|]|].
        + intros Ha. by apply Hu' in Ha.
        + replace (S k + r)%nat with (S k) by lia. by apply Hu'.
      - exists false. split; [done|]. apply Haln. lia. }
    cbn [mbind res_bind]. destruct skip.
    { destruct Hskip as [-> Hna]. apply (IH cols 0%nat); try lia.
      - eapply columns_impl; [exact Hc|]. intros i g b _ [? _]. split; [done|lia].
      - intros m Hm Hwm. destruct (decide (m = S k)) as [->|]; [by destruct Hwm|]. apply (Hmax m); [lia|done]. }
    destruct (set_each_spec (window_entry (S k) (S k + r)) (window_entry k (S k + r)) N k cols bks)
      as (cols' & -> & Hc').
    { done. } { lia. }
    { eapply Forall2_impl; [exact Hbks|]. intros g b Hb. split; [by left|done]. }
    { intros j g b Hj [H1 H2]. split; [done|]. intros. apply H2. lia. }
    cbn [mbind res_bind]. replace (Z.of_nat r + 1) with (Z.of_nat (S r)) by lia.
    assert (forall i, (k <= i < S k + r)%nat -> cached i) as Hcached'.
    { intros i Hi. destruct (decide (i = k)) as [->|]; [done|]. apply Hcached. lia. }
    destruct (Z.leb_spec (Z.of_nat w) (Z.of_nat (S r))) as [Hfin|Hgo].
    + exists true, (S k + r)%nat, (take (S k + r)%nat <$> cols').
      replace (S r) with w by lia. split_and!; [|lia|split; [done|]|done|].
      * do 3 f_equal. apply list_fmap_ext. intros _ c _. rewrite py_upto_nonneg by lia. f_equal. lia.
      * intros i Hi. apply Hcached'. lia.
      * replace (S k + r - w)%nat with k by lia. by apply (columns_take _ N).
    + replace (S k + r)%nat with (k + S r)%nat in * by lia.
      apply (IH cols' (S r)); try lia; [done|done|by intros _|done].
Qed.

(** The aligned prefix of the columns once the window is known; with [use_eagle]
    the last block is dropped. *)
Lemma window_find_spec max_length a sliding_window eagle al :
  let bs := a_block_size a in
  let w := Z.to_nat (cdiv (sliding_window - 1) bs) in
  let w' := if eagle : bool then S w else w in
  let N := Z.to_nat (max_length / bs) in
  0 < bs -> 0 < al -> 1 < sliding_window -> 0 <= max_length -> max_length / bs <= zlen hs ->
  exists m n cols,
    window_find_longest_cache_hit l gids p max_length (SlidingWindowSpec a sliding_window) eagle al 1 1 = Ok cols
    /\ (m <= N)%nat /\ window_hit bs al w' m /\ (forall m', (m < m' <= N)%nat -> ~ window_hit bs al w' m')
    /\ columns (window_entry (m - w') m) n cols
    /\ let m1 := (if eagle : bool then pred m else m) in
       (n <= m1)%nat /\ aligned bs al n /\ forall k, (n < k <= m1)%nat -> ~ aligned bs al k.
Proof.
  intros bs w w' N Hbs Hal Hsw Hml Hlen. unfold window_find_longest_cache_hit. cbn [Z.eqb Pos.eqb andb negb].
  assert (0 <= max_length / bs) as HN0 by (apply Z.div_pos; lia).
  assert (0 < cdiv (sliding_window - 1) bs) as Hcd by (pose proof (cdiv_bounds bs Hbs (sliding_window - 1)); nia).
  fold bs. replace (cdiv (sliding_window - 1) bs + (if eagle then 1 else 0)) with (Z.of_nat w')
    by (unfold w', w; destruct eagle; lia).
  replace (max_length / bs) with (Z.of_nat N) by (unfold N; lia). rewrite Nat2Z.id.
  destruct (window_loop_spec bs al w' N N (replicate (length gids) (replicate N (null_block p))) 0)
    as (found & m & cols & E1 & Hm & Hwm & Hmax & Hc); try lia.
  { unfold w', w. destruct eagle; lia. }
  { unfold N, zlen in *. lia. }
  { apply columns_replicate. intros i g Hi Hg. split; [by right|lia]. }
  { unfold w', w. destruct eagle; lia. }
  change (Z.of_nat 0) with 0 in E1. rewrite E1. cbn [mbind res_bind].
  assert (exists cols1, (if found then Ok cols
              else align bs al ((fun c => py_upto c (if found then Z.of_nat w' else Z.of_nat m)) <$> cols)) = Ok cols1
            /\ columns (window_entry (m - w') m) m cols1) as (cols1 & -> & Hc1).
  { destruct found; [by exists cols|].
    replace ((fun c => py_upto c (Z.of_nat m)) <$> cols) with (take m <$> cols)
      by (apply list_fmap_ext; intros; by rewrite py_upto_nonneg, Nat2Z.id by lia).
    pose proof (columns_take _ N m cols Hc Hm) as Hct.
    destruct (align_spec _ bs al m _ Hal Hct) as (m2 & -> & Hm2 & Ha2 & Hmx2 & Hc2).
    replace m2 with m in *; [eauto|].
    destruct (decide (m2 = m)) as [|Hne']; [done|]. exfalso. apply (Hmx2 m); [lia|]. by destruct Hwm. }
  cbn [mbind res_bind]. exists m. destruct eagle.
  - destruct (columns_first _ m cols1 Hc1) as (c & -> & Hlc). cbn [mbind res_bind]. unfold zlen at 1. rewrite Hlc.
    destruct m as [|m].
    + exists 0%nat, cols1. split_and!; try done; [right; by rewrite Z.mul_0_l, Z.mod_0_l by lia|lia].
    + destruct (Z.ltb_spec 0 (Z.of_nat (S m))); [|lia]. rewrite (pop_each_spec _ m cols1 Hc1).
      cbn [mbind res_bind].
      assert (columns (window_entry (S m - w') (S m)) m (take m <$> cols1)) as Hc3 by (apply (columns_take _ (S m)); [done|lia]).
      destruct (align_spec _ bs al m _ Hal Hc3) as (n & -> & Hn & Ha & Hmx & Hc2).
      exists n, (take n <$> (take m <$> cols1)). split_and!; try done.
  - exists m, cols1. split_and!; try done; [by destruct Hwm|lia].
Qed.

(** Without EAGLE, or when no re-alignment follows EAGLE's pop, the window of the
    answer is cached. *)
Lemma window_find_exact max_length a sliding_window eagle al :
  let bs := a_block_size a in
  let w := Z.to_nat (cdiv (sliding_window - 1) bs) in
  0 < bs -> 0 < al -> 1 < sliding_window -> 0 <= max_length -> max_length / bs <= zlen hs ->
  eagle = false \/ bs = al ->
  exists n cols,
    window_find_longest_cache_hit l gids p max_length (SlidingWindowSpec a sliding_window) eagle al 1 1 = Ok cols
    /\ Z.of_nat n <= max_length / bs /\ window_hit bs al w n
    /\ columns (window_entry (n - w) n) n cols
    /\ (eagle = false -> forall n', (n < n')%nat -> Z.of_nat n' <= max_length / bs -> ~ window_hit bs al w n')
    /\ (eagle = true -> forall n', (S n < n')%nat -> Z.of_nat n' <= max_length / bs -> ~ window_hit bs al (S w) n').
Proof.
  intros bs w Hbs Hal Hsw Hmax Hlen Heagle.
  destruct (window_find_spec max_length a sliding_window eagle al Hbs Hal Hsw Hmax Hlen)
    as (m & n & cols & R1 & Hm & Hw & Hmaxm & Hc & Hn & Ha & Hlong). fold bs w in Hw, Hmaxm, Hc, Hn, Ha, Hlong, Hm.
  assert (n = if eagle then pred m else m) as ->.
  { destruct eagle.
    - destruct Heagle as [|Hba]; [done|]. destruct (decide (n = pred m)) as [|Hne']; [done|].
      exfalso. apply (Hlong (pred m)); [lia|by left].
    - destruct (decide (n = m)) as [|Hne']; [done|]. exfalso. apply (Hlong m); [lia|by destruct Hw]. }
  assert (0 <= max_length / bs) by (apply Z.div_pos; lia).
  exists (if eagle then pred m else m), cols. split; [done|]. destruct eagle.
  - split; [lia|]. split; [split; [done|]|split; [|split; [done|]]].
    + intros i Hi. apply Hw. lia.
    + eapply columns_impl; [exact Hc|]. intros i g b _ [H1 H2]. split; [done|]. intros. apply H2. lia.
    + intros _ n' Hn' Hle. apply Hmaxm. lia.
  - split; [lia|]. do 2 (split; [done|]). split; [|done]. intros _ n' Hn' Hle. apply Hmaxm. lia.
Qed.

(** *** Mamba *)

(** A column of [n] blocks of which only the last one is used. *)
Definition last_entry (n i : nat) (g : Z) (b : ref) : Prop :=
  if decide (S i = n) then hit_block i g b else b = null_block p.

Lemma append_each_nulls (n : nat) bs : Forall2 (hit_block n) gids bs ->
  columns (last_entry (S n)) (S n)
    (append_each ((fun c => c ++ replicate (Z.to_nat (Z.of_nat n)) (null_block p)) <$> replicate (length gids) []) bs).
Proof.
  intros Hbs. rewrite fmap_replicate, Nat2Z.id. cbn [app].
  apply (append_each_spec (last_entry (S n)) n).
  - apply columns_replicate. intros i g Hi _. unfold last_entry. by rewrite decide_False by lia.
  - eapply Forall2_impl; [exact Hbs|]. intros g b Hb. unfold last_entry. by rewrite decide_True.
Qed.

Lemma mamba_loop_spec bs al k : 0 < al -> (k <= length hs)%nat ->
  exists n cols, mamba_loop l gids p bs al (reverse (py_range 0 (Z.of_nat k))) (replicate (length gids) []) = Ok cols
    /\ (n <= k)%nat /\ columns (last_entry n) n cols /\ aligned bs al n
    /\ forall i, (n <= i < k)%nat -> aligned bs al (S i) -> ~ cached i.
Proof.
  intros Hal. induction k as [|k IH]; intros Hk.
  - exists 0%nat, (replicate (length gids) []). split; [done|]. split; [done|]. split; [apply columns_nil|].
    split; [right; by rewrite Z.mul_0_l, Z.mod_0_l by lia|lia].
  - replace (Z.of_nat (S k)) with (Z.of_nat k + 1) by lia. rewrite py_range_snoc, reverse_snoc by lia.
    cbn [mamba_loop]. destruct (lookup_spec k) as (o & -> & Ho); [lia|]. cbn [mbind res_bind].
    destruct (IH ltac:(lia)) as (n & cols & R1 & Hn & Hc & Ha & Hmax).
    destruct o as [bks|].
    2:{ exists n, cols. split_and!; try done; [lia|]. intros i Hi Hai. destruct (decide (i = k)) as [->|]; [done|].
        apply Hmax; [lia|done]. }
    destruct Ho as [Hbks _]. destruct (unaligned_spec bs al k Hal) as (u & -> & Hu). cbn [mbind res_bind].
    destruct u.
    + exists n, cols. split_and!; try done; [lia|]. intros i Hi Hai. destruct (decide (i = k)) as [->|].
      * by apply Hu in Hai.
      * apply Hmax; [lia|done].
    + eexists (S k), _. split; [done|]. split; [done|]. split; [by apply append_each_nulls|].
      split; [by apply Hu|lia].
Qed.

Lemma mamba_find_spec max_length bs shapes dtypes pad ty mode nspec eagle al : 0 < bs -> 0 < al -> 0 <= max_length ->
  max_length / bs <= zlen hs ->
  exists n cols,
    mamba_find_longest_cache_hit l gids p max_length (MambaSpec bs shapes dtypes pad ty mode nspec) eagle al 1 1 = Ok cols
    /\ Z.of_nat n <= max_length / bs /\ columns (last_entry n) n cols /\ aligned bs al n
    /\ forall i, (n <= i)%nat -> Z.of_nat i < max_length / bs -> aligned bs al (S i) -> ~ cached i.
Proof.
  intros Hbs Hal Hmax Hlen. assert (0 <= max_length / bs) by (apply Z.div_pos; lia).
  unfold mamba_find_longest_cache_hit. cbn [Z.eqb Pos.eqb andb negb].
  destruct (mamba_loop_spec bs al (Z.to_nat (max_length / bs)) Hal) as (n & cols & R1 & Hn & Hc & Ha & Hm);
    [unfold zlen in *; lia|].
  rewrite Z2Nat.id in R1 by lia. exists n, cols. split_and!; try done; [lia|].
  intros i Hi Hi2. apply Hm. lia.
Qed.

End facts.
End HitFacts.
