(* ===== verification/Group.v ===== *)
(** Reference accounting and capacity of one KV-cache group.

    The operations of a manager of [SingleType] are sessions on the shared block
    pool: the references its requests hold, together with those held by others,
    are the counts of the pool. *)

From Stdlib Require Import Strings.Byte.
From S2P Require Import Prelude FreeQueue Request Hashing Metrics BlockPool KVSpec SingleType.
Local Open Scope Z_scope.

(** ** The pool and the references held to its blocks *)

Module Session.
Import Pool PoolFacts PoolSession.

Section session.
Context {E : Env}.

(** The counts are the references in [held]; [free] is the free queue. *)
Record ses (p : BlockPool) (held free : list ref) : Prop := {
  s_pool : pool_ok p free;
  s_count : forall r, usable p r -> refc p r = count_ref r held;
  s_held : forall r, r ∈ held -> usable p r;
}.

Lemma ses_session p held : session_ok (p, held) <-> exists free, ses p held free.
Proof. split; [intros (free & ? & ? & ?)|intros (free & [])]; by exists free. Qed.

Lemma ses_of_session p held free : session_ok (p, held) -> pool_ok p free -> ses p held free.
Proof. intros (free2 & _ & Hc & Hh) Hp. by split. Qed.

Lemma ses_of_step p held free p' held' free' : ses p held free -> pool_step (p, held) (p', held') ->
  pool_ok p' free' -> ses p' held' free'.
Proof.
  intros [H1 H2 H3] Hs Hp'. assert (session_ok (p', held')) as (free2 & _ & Hc & Hh).
  { eapply pool_step_ok; [|exact Hs]. by exists free. }
  by split.
Qed.

Lemma ses_perm p held held' free : held ≡ₚ held' -> ses p held free -> ses p held' free.
Proof.
  intros HP [H1 H2 H3]. split; [done|..].
  - intros r Hr. rewrite <- (count_ref_perm r _ _ HP). by apply H2.
  - intros r Hr. apply H3. by rewrite HP.
Qed.

Lemma ses_free p held free r : ses p held free -> r ∈ free <-> usable p r /\ r ∉ held.
Proof.
  intros [H1 H2 H3]. rewrite (po_free _ _ H1). split; intros [Hu Hr]; (split; [done|]); rewrite H2 in * by done.
  - intros Hin. pose proof (count_ref_in _ _ Hin). lia.
  - by apply count_ref_notin.
Qed.

Lemma ses_num_free p held free : ses p held free -> get_num_free_blocks p = zlen free.
Proof. intros [H _ _]. apply (Queue.rep_num _ _ (pc_queue _ _ (po_core _ _ H))). Qed.

Lemma ses_nodup p held free : ses p held free -> NoDup free.
Proof. intros [H _ _]. apply (Queue.rep_nodup _ _ (pc_queue _ _ (po_core _ _ H))). Qed.

Lemma nonnull_usable p held free l : ses p held free -> (forall r, r ∈ l -> usable p r) -> nonnull l = l.
Proof. intros _ Hl. apply filter_all. intros r Hr. by apply Hl. Qed.

Lemma ses_alloc p held free n : ses p held free -> 0 <= n <= zlen free ->
  exists p', get_new_blocks n p = (Ok (take (Z.to_nat n) free), p')
    /\ ses p' (take (Z.to_nat n) free ++ held) (drop (Z.to_nat n) free) /\ config p' = config p
    /\ forall r, is_blk r -> refc p' r = (if decide (r ∈ take (Z.to_nat n) free) then 1 else refc p r)
                           /\ keyof p' r = (if decide (r ∈ take (Z.to_nat n) free) then None else keyof p r).
Proof.
  intros Hs Hn.
  destruct (get_new_blocks_spec p free (Z.to_nat n) (s_pool _ _ _ Hs)) as (p' & R1 & Hp' & _ & Hcf & Hd);
    [unfold zlen in *; lia|].
  rewrite Z2Nat.id in R1 by lia. exists p'. split; [done|]. split; [|split; [done|]].
  - eapply ses_of_step; [exact Hs| |done]. exact (step_alloc p held n _ p' ltac:(lia) R1).
  - intros r Hr. apply Hd, Hr.
Qed.

Lemma ses_alloc_fails p held free n : ses p held free -> zlen free < n ->
  get_new_blocks n p = (Raise ValueError, p).
Proof. intros [H _ _] Hn. by apply (get_new_blocks_too_many p free). Qed.

Lemma ses_touch p held free l : ses p held free -> NoDup (nonnull l) -> (forall r, r ∈ l -> r ∈ blocks p) ->
  exists p', touch l p = (Ok tt, p') /\ ses p' (nonnull l ++ held) (filter (fun r => r ∉ l) free)
    /\ config p' = config p
    /\ forall r, is_blk r -> keyof p' r = keyof p r
         /\ (r <> RBlk 0 -> refc p' r = refc p r + (if decide (r ∈ l) then 1 else 0)).
Proof.
  intros Hs Hnd Hl. destruct (touch_spec p free l (s_pool _ _ _ Hs) Hnd Hl) as (p' & R1 & Hp' & Hcf & Hd).
  exists p'. split; [done|]. split; [|split; [done|]].
  - eapply ses_of_step; [exact Hs| |done]. by eapply step_touch.
  - intros r Hr. by apply Hd.
Qed.

Lemma ses_release p held rest free l : ses p held free -> NoDup (nonnull l) -> held ≡ₚ nonnull l ++ rest ->
  (forall r, r ∈ l -> r ∈ blocks p) ->
  exists p' back, free_blocks l p = (Ok tt, p') /\ ses p' rest (free ++ back)
    /\ (forall r, r ∈ back <-> r ∈ nonnull l /\ r ∉ rest)
    /\ config p' = config p
    /\ forall r, is_blk r -> keyof p' r = keyof p r
         /\ (r <> RBlk 0 -> refc p' r = refc p r - (if decide (r ∈ l) then 1 else 0)).
Proof.
  intros Hs Hnd HP Hl. pose proof Hs as [H1 H2 H3].
  assert (forall r, r ∈ nonnull l -> usable p r) as Hu.
  { intros r Hr. apply H3. rewrite HP. apply elem_of_app. by left. }
  assert (forall r, r ∈ nonnull l -> refc p r = 1 + count_ref r rest) as Hrc.
  { intros r Hr. rewrite H2 by by apply Hu. rewrite (count_ref_perm r _ _ HP), count_ref_app, count_ref_nodup by done.
    by rewrite decide_True. }
  destruct (free_blocks_spec p free l H1 Hnd) as (p' & R1 & Hp' & Hcf & Hd).
  { intros r Hr. destruct (decide (r = RBlk 0)) as [|Hne]; [by left|right].
    assert (r ∈ nonnull l) as Hr' by by apply elem_of_nonnull.
    split; [by apply Hu|]. rewrite Hrc by done. unfold count_ref. pose proof (zlen_nonneg (filter (fun x => x = r) rest)). lia. }
  eexists p', _. split; [done|]. split; [|split; [|split; [done|]]].
  - eapply ses_of_step; [exact Hs| |exact Hp']. by eapply step_free.
  - intros r. rewrite list_elem_of_filter, elem_of_nonnull. split.
    + intros ((Hne & Hr1) & Hr). split; [done|]. intros Hin. rewrite Hrc in Hr1 by by apply elem_of_nonnull.
      pose proof (count_ref_in _ _ Hin). lia.
    + intros ((Hne & Hr) & Hin). split; [|done]. split; [done|]. rewrite Hrc by by apply elem_of_nonnull.
      rewrite count_ref_notin by done. lia.
  - intros r Hr. by apply Hd.
Qed.

End session.
End Session.

(** ** The invariant of a manager *)

Module Accounting.
Import Pool PoolFacts PoolSession Session Manager.

(** Everything but the lists of blocks and the counters. *)
Definition mgr_config (m : Manager) :=
  (mgr_class m, mgr_spec m, mgr_block_size m, mgr_enable_caching m, kv_cache_group_id m, mgr_null_block m).

Definition with_blocks (rid : string) (l : list ref) (m : Manager) : Manager :=
  {| m with req_to_blocks := <[rid := l]> (req_to_blocks m) |}.

(** The references held by the requests of the group. *)
Definition held_in (reqs : gmap string (list ref)) : list ref := concat (map_to_list reqs).*2.

Definition group_held (m : Manager) : list ref := nonnull (held_in (req_to_blocks m)).

Lemma held_in_insert reqs rid l : held_in (<[rid := l]> reqs) ≡ₚ l ++ held_in (delete rid reqs).
Proof.
  unfold held_in. rewrite <- insert_delete_eq.
  rewrite map_to_list_insert by apply lookup_delete_eq. done.
Qed.

Lemma held_in_delete reqs rid : held_in reqs ≡ₚ default [] (reqs !! rid) ++ held_in (delete rid reqs).
Proof.
  destruct (reqs !! rid) as [l|] eqn:El; cbn [default].
  - rewrite <- (insert_id reqs rid l El) at 1. apply held_in_insert.
  - by rewrite delete_id.
Qed.

Lemma elem_of_held_in r m : r ∈ held_in (req_to_blocks m) -> exists rid, r ∈ blocks_of rid m.
Proof.
  unfold held_in. rewrite list_elem_of_In, in_concat. intros (l & Hl & Hr).
  apply list_elem_of_In in Hl, Hr. apply list_elem_of_fmap in Hl as ([rid l'] & -> & Hl).
  apply elem_of_map_to_list in Hl. exists rid. unfold blocks_of. by rewrite Hl.
Qed.

Lemma nonnull_perm l l' : l ≡ₚ l' -> nonnull l ≡ₚ nonnull l'.
Proof. unfold nonnull. by intros ->. Qed.

Lemma group_held_blocks rid m :
  group_held m ≡ₚ nonnull (blocks_of rid m) ++ nonnull (held_in (delete rid (req_to_blocks m))).
Proof. unfold group_held, blocks_of. rewrite <- nonnull_app. apply nonnull_perm, held_in_delete. Qed.

Lemma group_held_with rid l m :
  group_held (with_blocks rid l m) ≡ₚ nonnull l ++ nonnull (held_in (delete rid (req_to_blocks m))).
Proof. unfold group_held, with_blocks. cbn. rewrite <- nonnull_app. apply nonnull_perm, held_in_insert. Qed.

(** [other]: the references held by the other groups. *)
Record group_ok (p : BlockPool) (m : Manager) (other free : list ref) : Prop := {
  g_null : mgr_null_block m = RBlk 0;
  g_size : 0 < mgr_block_size m;
  g_ses : ses p (group_held m ++ other) free;
  g_in : forall rid l r, req_to_blocks m !! rid = Some l -> r ∈ l -> r ∈ blocks p;
  g_nodup : forall rid l, req_to_blocks m !! rid = Some l -> NoDup (nonnull l);
}.

Section facts.
Context {E : Env}.

Lemma blocks_of_in p m other free rid : group_ok p m other free ->
  (forall r, r ∈ blocks_of rid m -> r ∈ blocks p) /\ NoDup (nonnull (blocks_of rid m)).
Proof.
  intros []. unfold blocks_of. destruct (req_to_blocks m !! rid) as [l|] eqn:El; cbn [default].
  - split; [intros r; by eapply g_in0|by eapply g_nodup0].
  - split; [intros r Hr; by apply not_elem_of_nil in Hr|constructor].
Qed.

Lemma null_in p m other free : group_ok p m other free -> RBlk 0 ∈ blocks p.
Proof.
  intros Hg. pose proof (po_core _ _ (s_pool _ _ _ (g_ses _ _ _ _ Hg))) as Hc.
  rewrite (pc_blocks _ _ Hc). pose proof (pc_num _ _ Hc).
  apply list_elem_of_fmap. exists 0%nat. split; [done|]. apply elem_of_seq. lia.
Qed.

(** Replacing the list of a request. *)
Lemma group_ok_replace p p' m m' other free free' rid l :
  group_ok p m other free -> mgr_config m' = mgr_config m ->
  req_to_blocks m' = <[rid := l]> (req_to_blocks m) -> config p' = config p ->
  ses p' (nonnull l ++ nonnull (held_in (delete rid (req_to_blocks m))) ++ other) free' ->
  (forall r, r ∈ l -> r ∈ blocks p) -> NoDup (nonnull l) ->
  group_ok p' m' other free'.
Proof.
  intros [] Hcf Hreq Hcp Hs Hl Hnd. unfold mgr_config in Hcf. injection Hcf as _ _ Hb _ _ Hn.
  assert (blocks p' = blocks p) as Hbl by (unfold config in Hcp; by injection Hcp).
  split; [congruence|congruence|..].
  - eapply ses_perm; [|exact Hs]. rewrite app_assoc. f_equiv.
    unfold group_held. rewrite Hreq, <- nonnull_app. symmetry. apply nonnull_perm, held_in_insert.
  - intros rid' l' r. rewrite Hreq, Hbl, lookup_insert. case_decide; [intros [= <-]; by apply Hl|by apply g_in0].
  - intros rid' l'. rewrite Hreq, lookup_insert. case_decide; [by intros [= <-]|by apply g_nodup0].
Qed.

Lemma group_ok_view p m m' other free : group_ok p m other free -> mgr_config m' = mgr_config m ->
  req_to_blocks m' = req_to_blocks m -> group_ok p m' other free.
Proof.
  intros [] Hcf Hreq. unfold mgr_config in Hcf. injection Hcf as _ _ Hb _ _ Hn.
  split; rewrite ?Hreq; try congruence; [|done|done]. unfold group_held. by rewrite Hreq.
Qed.

(** The session of [p] with the references of [rid] first. *)
Lemma group_ses p m other free rid : group_ok p m other free ->
  ses p (nonnull (blocks_of rid m) ++ nonnull (held_in (delete rid (req_to_blocks m))) ++ other) free.
Proof. intros []. eapply ses_perm; [|exact g_ses0]. rewrite app_assoc. f_equiv. apply group_held_blocks. Qed.

(** *** Primitive steps *)

Lemma with_blocks_same rid l m : req_to_blocks m !! rid = Some l -> with_blocks rid l m = m.
Proof. intros H. unfold with_blocks. rewrite insert_id by done. by destruct m. Qed.

Lemma access_ok rid p m : access rid (p, m) = (Ok (blocks_of rid m), (p, with_blocks rid (blocks_of rid m) m)).
Proof.
  unfold access, blocks_of. msteps. destruct (req_to_blocks m !! rid) as [l|] eqn:El; cbn [default].
  - cbn [snd]. rewrite El. by rewrite with_blocks_same.
  - cbn [snd]. by rewrite El.
Qed.

Lemma with_blocks_twice rid l l' m : with_blocks rid l' (with_blocks rid l m) = with_blocks rid l' m.
Proof. unfold with_blocks. cbn. by rewrite insert_insert_eq. Qed.

Lemma blocks_of_with rid l m : blocks_of rid (with_blocks rid l m) = l.
Proof. unfold blocks_of, with_blocks. cbn. by rewrite lookup_insert_eq. Qed.

Lemma extend_ok rid l l' p m : extend rid l' (p, with_blocks rid l m) = (Ok tt, (p, with_blocks rid (l ++ l') m)).
Proof.
  unfold extend, set_mgr, modify. cbn [fst snd]. do 2 f_equal. rewrite blocks_of_with.
  unfold with_blocks. cbn. by rewrite insert_insert_eq.
Qed.

Lemma store_blocks_ok rid l l' p m : store_blocks rid l' (p, with_blocks rid l m) = (Ok tt, (p, with_blocks rid l' m)).
Proof.
  unfold store_blocks, set_mgr, modify. cbn [fst snd]. do 2 f_equal. unfold with_blocks. cbn. by rewrite insert_insert_eq.
Qed.

Lemma record_new_ids_ok l p m : exists ids, record_new_ids l (p, m) = (Ok tt, (p, {| m with new_block_ids := ids |})).
Proof.
  unfold record_new_ids. msteps. cbn [fst snd]. destruct (is_plain_full m); [by eexists|].
  exists (new_block_ids m). by destruct m.
Qed.

Lemma on_pool_ok {A} (c : M BlockPool A) p m a p' : c p = (a, p') -> on_pool c (p, m) = (a, (p', m)).
Proof. unfold on_pool, on_fst, zoom. cbn. by intros ->. Qed.

(** *** Allocation *)

Lemma nonnull_id l : (forall r, r ∈ l -> r <> RBlk 0) -> nonnull l = l.
Proof. apply filter_all. Qed.

(** A block of a request that is not cached yet: no hash, and one reference. *)
Definition fresh (p : BlockPool) (r : ref) : Prop := keyof p r = None /\ refc p r = 1.

(** Fresh blocks outside [l] stay fresh. *)
Definition undisturbed (p p' : BlockPool) (l : list ref) : Prop :=
  forall r, usable p r -> r ∉ l -> fresh p r -> fresh p' r.

Lemma undisturbed_trans p p1 p2 l : config p1 = config p -> undisturbed p p1 l -> undisturbed p1 p2 l -> undisturbed p p2 l.
Proof. intros Hcf H1 H2 r Hu Hr Hf. apply H2; [by apply (usable_config p)|done|]. by apply H1. Qed.

(** Taking [k] new blocks for a request that has [l0]. *)
Lemma grow_ok rid l0 k p m other free : group_ok p (with_blocks rid l0 m) other free -> 0 <= k <= zlen free ->
  exists p', get_new_blocks k p = (Ok (take (Z.to_nat k) free), p')
    /\ group_ok p' (with_blocks rid (l0 ++ take (Z.to_nat k) free) m) other (drop (Z.to_nat k) free)
    /\ config p' = config p /\ undisturbed p p' [] /\ Forall (fresh p') (take (Z.to_nat k) free).
Proof.
  intros Hg Hk. set (m0 := with_blocks rid l0 m) in *. pose proof (group_ses _ _ _ _ rid Hg) as Hs.
  unfold m0 in Hs at 1. rewrite blocks_of_with in Hs.
  destruct (ses_alloc _ _ _ k Hs Hk) as (p' & R1 & Hs' & Hcf & Hd).
  set (new := take (Z.to_nat k) free) in *.
  assert (forall r, r ∈ new -> is_blk r) as Hblk.
  { intros r Hr. assert (r ∈ free) as Hf by (rewrite <- (take_drop (Z.to_nat k) free); apply elem_of_app; by left).
    apply (ses_free _ _ _ r Hs) in Hf as [Hu _]. exact (usable_blk _ _ _ (po_core _ _ (s_pool _ _ _ Hs)) Hu). }
  assert (forall r, r ∈ new -> usable p r /\ r ∉ nonnull l0) as Hnew.
  { intros r Hr. assert (r ∈ free) as Hf.
    { rewrite <- (take_drop (Z.to_nat k) free). apply elem_of_app. by left. }
    apply (ses_free _ _ _ r Hs) in Hf as [? Hf]. split; [done|]. set_solver. }
  assert (nonnull new = new) as Hnn by (apply nonnull_id; intros r Hr; apply Hnew, Hr).
  destruct (blocks_of_in p m0 other free rid Hg) as [Hin Hnd]. unfold m0 in Hin, Hnd.
  rewrite blocks_of_with in Hin, Hnd.
  exists p'. split; [done|]. split; [|split; [done|split]].
  2: { intros r Hu _ [H1 H2]. destruct (Hd r (usable_blk _ _ _ (po_core _ _ (s_pool _ _ _ Hs)) Hu)) as [E1 E2].
       unfold fresh. rewrite E1, E2. by case_decide. }
  2: { apply Forall_forall. intros r Hr. destruct (Hd r (Hblk r Hr)) as [E1 E2]. unfold fresh.
       by rewrite E1, E2, !decide_True by done. }
  apply (group_ok_replace p p' m0 _ other free _ rid (l0 ++ new)); try done.
  - unfold m0, with_blocks. cbn. by rewrite insert_insert_eq.
  - eapply ses_perm; [|exact Hs']. rewrite nonnull_app, Hnn. by rewrite <- !app_assoc, Permutation_app_swap_app.
  - intros r [Hr|Hr]%elem_of_app; [by apply Hin|]. by apply Hnew.
  - rewrite nonnull_app, Hnn. apply NoDup_app. split; [done|]. split.
    + intros r Hr Hr'. by destruct (Hnew r Hr').
    + pose proof (ses_nodup _ _ _ Hs) as Hndf. rewrite <- (take_drop (Z.to_nat k) free) in Hndf.
      by apply NoDup_app in Hndf as [? _].
Qed.

Lemma with_blocks_ok p m other free rid : group_ok p m other free ->
  group_ok p (with_blocks rid (blocks_of rid m) m) other free.
Proof.
  intros Hg. destruct (blocks_of_in _ _ _ _ rid Hg) as [Hin Hnd].
  apply (group_ok_replace p p m _ other free free rid (blocks_of rid m)); try done. by apply group_ses.
Qed.

Lemma take_nonpos {A} (k : Z) (l : list A) : k <= 0 -> take (Z.to_nat k) l = [] /\ drop (Z.to_nat k) l = l.
Proof. intros. by replace (Z.to_nat k) with 0%nat by lia. Qed.

(** The result of an operation that gives [rid] the list [l]. *)
Record updated (p p' : BlockPool) (m m' : Manager) (other free' : list ref) (rid : string) (l : list ref)
  : Prop := {
  u_ok : group_ok p' m' other free';
  u_config : mgr_config m' = mgr_config m;
  u_blocks : req_to_blocks m' = <[rid := l]> (req_to_blocks m);
  u_pool : config p' = config p;
}.

Lemma base_allocate_ok rid n p m other free : group_ok p m other free ->
  let k := cdiv n (mgr_block_size m) - zlen (blocks_of rid m) in
  k <= zlen free ->
  exists p' m', base_allocate_new_blocks rid n (p, m) = (Ok (take (Z.to_nat k) free), (p', m'))
    /\ updated p p' m m' other (drop (Z.to_nat k) free) rid (blocks_of rid m ++ take (Z.to_nat k) free)
    /\ num_cached_block m' = num_cached_block m /\ undisturbed p p' [] /\ Forall (fresh p') (take (Z.to_nat k) free).
Proof.
  intros Hg k Hk. unfold base_allocate_new_blocks. msteps. cbn [fst snd].
  rewrite (bind_ok _ _ _ _ _ (access_ok rid p m)). fold k.
  pose proof (with_blocks_ok _ _ _ _ rid Hg) as Hg0.
  destruct (Z.leb_spec k 0) as [Hle|Hgt].
  - destruct (take_nonpos k free Hle) as [-> ->]. rewrite app_nil_r.
    eexists _, _. split; [reflexivity|]. split; [by split|]. split; [done|]. split; [by intros r|by constructor].
  - destruct (grow_ok rid (blocks_of rid m) k p m other free Hg0) as (p' & R1 & Hg' & Hcf & Hun & Hfr); [lia|].
    rewrite (bind_ok _ _ _ _ _ (on_pool_ok _ _ _ _ _ R1)).
    rewrite (bind_ok _ _ _ _ _ (extend_ok _ _ _ _ _)).
    destruct (record_new_ids_ok (take (Z.to_nat k) free) p'
      (with_blocks rid (blocks_of rid m ++ take (Z.to_nat k) free) m)) as [ids Eids].
    rewrite (bind_ok _ _ _ _ _ Eids).
    eexists _, _. split; [reflexivity|]. split; [|done]. split; try done.
    by apply (group_ok_view _ _ _ _ _ Hg').
Qed.

Lemma base_allocate_fails rid n p m other free : group_ok p m other free ->
  zlen free < cdiv n (mgr_block_size m) - zlen (blocks_of rid m) ->
  base_allocate_new_blocks rid n (p, m) = (Raise ValueError, (p, with_blocks rid (blocks_of rid m) m)).
Proof.
  intros Hg Hk. unfold base_allocate_new_blocks. msteps. cbn [fst snd].
  rewrite (bind_ok _ _ _ _ _ (access_ok rid p m)).
  pose proof (zlen_nonneg free). destruct (Z.leb_spec (cdiv n (mgr_block_size m) - zlen (blocks_of rid m)) 0); [lia|].
  apply bind_raise, on_pool_ok. by apply (ses_alloc_fails p (group_held m ++ other) free); [apply Hg|].
Qed.

(** *** Adopting cached blocks *)

(** The blocks of [l] that sit in the free queue. *)
Lemma evictable_free p held free l : ses p held free -> NoDup (nonnull l) -> (forall r, r ∈ l -> r ∈ blocks p) ->
  zlen free = zlen (filter (fun r => r ∉ l) free) + get_num_evictable_blocks p l.
Proof.
  intros Hs Hnd Hl. pose proof (po_core _ _ (s_pool _ _ _ Hs)) as Hc.
  assert (filter (fun r => r ∈ l) free ≡ₚ filter (fun b => ref_cnt (obj p b) = 0 /\ is_null (obj p b) = false) l) as HP.
  { assert (forall r, r ∈ l -> is_null (obj p r) = false <-> r <> RBlk 0) as Hnull.
    { intros r Hr. assert (is_blk r) as Hb.
      { specialize (Hl r Hr). rewrite (pc_blocks _ _ Hc) in Hl. by apply list_elem_of_fmap in Hl as (b & -> & _). }
      rewrite (pc_is_null _ _ Hc r Hb). apply bool_decide_eq_false. }
    apply NoDup_Permutation.
    - apply NoDup_filter, (ses_nodup _ _ _ Hs).
    - rewrite (filter_ext_in _ (fun b => ref_cnt (obj p b) = 0 /\ b <> RBlk 0)) by (intros r Hr; rewrite Hnull by done; tauto).
      rewrite <- list_filter_filter. unfold nonnull in Hnd. by apply NoDup_filter.
    - intros r. rewrite !list_elem_of_filter, (po_free _ _ (s_pool _ _ _ Hs)). unfold refc, usable. split.
      + intros (Hr & (Hb & Hne) & H0). rewrite Hnull by done. done.
      + intros ((H0 & Hne) & Hr). rewrite Hnull in Hne by done. auto. }
  unfold get_num_evictable_blocks, zlen. rewrite <- HP. clear.
  induction free as [|r free IH]; [done|]. rewrite !filter_cons. cbn [length].
  destruct (decide (r ∈ l)); [rewrite decide_False by tauto|rewrite decide_True by done]; simpl length; lia.
Qed.

Definition plain_manager (m : Manager) : Prop :=
  mgr_class m <> MambaManager /\ mgr_class m <> CrossAttentionManager
  /\ match mgr_spec m with
     | SlidingWindowSpec _ w => 0 < w
     | ChunkedLocalAttentionSpec _ c => 0 < c
     | MambaSpec _ _ _ _ _ _ _ => False
     | _ => True
     end.

Lemma skipped_bounds m t : plain_manager m -> 0 <= t -> 0 <= get_num_skipped_tokens m t <= t.
Proof.
  intros (_ & _ & Hs) Ht. unfold get_num_skipped_tokens. destruct (mgr_spec m); try lia; try done.
  pose proof (Z.mul_div_le t attention_chunk_size Hs). pose proof (Z.div_pos t attention_chunk_size Ht Hs). nia.
Qed.

(** A block other than the null block has one position. *)
Lemma nonnull_inj l i j r : NoDup (nonnull l) -> r <> RBlk 0 -> l !! i = Some r -> l !! j = Some r -> i = j.
Proof.
  revert i j. induction l as [|x l IH]; intros i j Hnd Hr Hi Hj; [done|].
  unfold nonnull in Hnd. rewrite filter_cons in Hnd. fold (nonnull l) in Hnd.
  assert (forall k, (x :: l) !! S k = Some r -> x <> r) as Hx.
  { intros k Hk ->. rewrite decide_True in Hnd by done. apply NoDup_cons in Hnd as [Hn _]. apply Hn.
    apply elem_of_nonnull. split; [done|]. by eapply (list_elem_of_lookup_2 _ k). }
  destruct i as [|i], j as [|j]; [done| | |].
  - injection Hi as ->. by destruct (Hx j Hj).
  - injection Hj as ->. by destruct (Hx i Hi).
  - f_equal. apply IH; [|done|done|done]. case_decide; [by apply NoDup_cons in Hnd as [_ ?]|done].
Qed.

Lemma nonnull_replicate n l : nonnull (replicate n (RBlk 0) ++ l) = nonnull l.
Proof. induction n as [|n IH]; [done|]. by rewrite <- IH. Qed.

(** A new request adopts [kept]: one more reference to each. *)
Lemma adopt_ok rid kept n p m other free : group_ok p m other free -> blocks_of rid m = [] ->
  mgr_enable_caching m = true \/ kept = [] ->
  (forall r, r ∈ kept -> r ∈ blocks p) -> NoDup (nonnull kept) ->
  exists p' free', (if mgr_enable_caching m then on_pool (touch kept) else assert_ (zlen kept =? 0)) (p, with_blocks rid [] m)
      = (Ok tt, (p', with_blocks rid [] m))
    /\ group_ok p' (with_blocks rid (replicate n (RBlk 0) ++ kept) m) other free'
    /\ zlen free' = zlen free - get_num_evictable_blocks p kept /\ config p' = config p
    /\ (forall r, is_blk r -> keyof p' r = keyof p r /\ (r <> RBlk 0 -> refc p' r = refc p r + (if decide (r ∈ kept) then 1 else 0))).
Proof.
  intros Hg Hnil Hen Hin Hnd. pose proof (group_ses _ _ _ _ rid Hg) as Hs. rewrite Hnil in Hs.
  pose proof (evictable_free p _ free kept Hs Hnd Hin) as Hfree.
  assert (forall q m', group_ok q m' other free -> blocks q = blocks p -> forall r, r ∈ replicate n (RBlk 0) ++ kept -> r ∈ blocks q) as Hin'.
  { intros q m' Hq -> r [Hr|Hr]%elem_of_app; [|by apply Hin]. apply elem_of_replicate in Hr as [-> _].
    by eapply null_in. }
  destruct (mgr_enable_caching m) eqn:Hcm.
  - destruct (ses_touch _ _ _ kept Hs Hnd Hin) as (p' & R1 & Hs' & Hcf & Hd).
    exists p', (filter (fun r => r ∉ kept) free). split; [by apply on_pool_ok|]. split; [|split; [lia|done]].
    apply (group_ok_replace p p' m _ other free _ rid (replicate n (RBlk 0) ++ kept)); try done.
    + by rewrite nonnull_replicate.
    + intros r Hr. by apply (Hin' p m).
    + by rewrite nonnull_replicate.
  - destruct Hen as [| ->]; [done|]. exists p, free. split; [done|].
    split; [|split; [by unfold get_num_evictable_blocks, zlen; rewrite Z.sub_0_r|split; [done|]]].
    2: { intros r _. split; [done|]. intros _. rewrite decide_False by apply not_elem_of_nil. lia. }
    apply (group_ok_replace p p m _ other free _ rid (replicate n (RBlk 0) ++ [])); try done.
    + rewrite nonnull_replicate. exact Hs.
    + intros r Hr. by apply (Hin' p m).
    + by rewrite nonnull_replicate.
Qed.

(** The blocks that a new request needs beyond the adopted ones for its external
    tokens. *)
Definition num_external_blocks (m : Manager) (kept : list ref) (total ext : Z) : Z :=
  let skipped := get_num_skipped_tokens m total in
  let sk := skipped / mgr_block_size m in
  if 0 <? (if 0 <? sk then Z.min (total - skipped) ext else ext)
  then cdiv total (mgr_block_size m) - (sk + zlen kept) else 0.

Lemma num_external_blocks_nonneg m newc total ext : plain_manager m -> 0 < mgr_block_size m ->
  0 <= total -> zlen newc * mgr_block_size m <= total ->
  let sk := get_num_skipped_tokens m total / mgr_block_size m in
  0 <= num_external_blocks m (drop (Z.to_nat sk) newc) total ext
  /\ num_external_blocks m (drop (Z.to_nat sk) newc) total ext <= cdiv total (mgr_block_size m) - Z.max sk (zlen newc)
  /\ 0 <= sk <= cdiv total (mgr_block_size m) /\ sk + zlen (drop (Z.to_nat sk) newc) = Z.max sk (zlen newc).
Proof.
  intros Hm Hbs Ht Hnew sk. pose proof (skipped_bounds m total Hm Ht) as Hsk.
  assert (0 <= sk) as Hsk0 by (apply Z.div_pos; lia).
  assert (sk <= cdiv total (mgr_block_size m)) as Hsk1.
  { pose proof (cdiv_bounds _ Hbs total). pose proof (Z.mul_div_le (get_num_skipped_tokens m total) _ Hbs).
    fold sk in H0. nia. }
  assert (zlen newc <= cdiv total (mgr_block_size m)) by (pose proof (cdiv_bounds _ Hbs total); nia).
  assert (sk + zlen (drop (Z.to_nat sk) newc) = Z.max sk (zlen newc)) as Hlen by (unfold zlen; rewrite length_drop; lia).
  unfold num_external_blocks. fold sk. rewrite Hlen. split_and!; try done; destruct (_ <? _); lia.
Qed.

Lemma computed_ok rid newc local ext p m other free : group_ok p m other free -> plain_manager m ->
  num_cached_block m !! rid = None -> blocks_of rid m = [] ->
  mgr_enable_caching m = true \/ newc = [] ->
  (forall r, r ∈ newc -> r ∈ blocks p) -> NoDup (nonnull newc) ->
  0 <= local + ext -> zlen newc * mgr_block_size m <= local + ext ->
  let sk := get_num_skipped_tokens m (local + ext) / mgr_block_size m in
  let kept := drop (Z.to_nat sk) newc in
  let k := num_external_blocks m kept (local + ext) ext in
  get_num_evictable_blocks p kept + k <= zlen free ->
  exists p' m' free' extb, allocate_new_computed_blocks rid newc local ext (p, m) = (Ok tt, (p', m'))
    /\ updated p p' m m' other free' rid ((replicate (Z.to_nat sk) (RBlk 0) ++ kept) ++ extb)
    /\ zlen extb = k /\ zlen free' = zlen free - get_num_evictable_blocks p kept - k
    /\ num_cached_block m' = <[rid := sk + zlen kept]> (num_cached_block m)
    /\ ((forall r, r ∈ kept -> r = RBlk 0 \/ keyof p r <> None) -> undisturbed p p' []) /\ Forall (fresh p') extb
    /\ (ext <= 0 -> forall r, is_blk r -> keyof p' r = keyof p r
          /\ (r <> RBlk 0 -> refc p' r = refc p r + (if decide (r ∈ kept) then 1 else 0))).
Proof.
  intros Hg Hm Hnc Hnil Hen Hin Hnd Ht Hlen sk kept k Hk.
  pose proof (g_size _ _ _ _ Hg) as Hbs.
  destruct (num_external_blocks_nonneg m newc _ ext Hm Hbs Ht Hlen) as (Hk0 & Hk1 & Hsk & Hlk). fold sk kept k in Hk0, Hk1, Hsk, Hlk.
  assert (allocate_new_computed_blocks rid newc local ext (p, m) = adopt_computed_blocks rid newc local ext (p, m)) as ->.
  { unfold allocate_new_computed_blocks. msteps. cbn [snd]. rewrite Hnc.
    destruct Hm as (H1 & H2 & _). by destruct (mgr_class m). }
  unfold adopt_computed_blocks. msteps. cbn [snd]. rewrite (bind_ok _ _ _ _ _ (access_ok rid p m)), Hnil.
  cbn [zlen length Z.of_nat Z.eqb assert_]. msteps. fold sk.
  set (ext' := if 0 <? sk then Z.min (local + ext - get_num_skipped_tokens m (local + ext)) ext else ext).
  replace (if 0 <? sk then _ else _) with (kept, ext').
  2: { unfold ext', kept. destruct (Z.ltb_spec 0 sk).
       - by rewrite py_from_nonneg by lia.
       - by replace (Z.to_nat sk) with 0%nat by lia. }
  destruct (adopt_ok rid kept (Z.to_nat sk) p m other free Hg Hnil) as (p1 & free1 & R1 & Hg1 & Hf1 & Hcf1 & Hd1).
  { destruct Hen as [| ->]; [by left|right]. unfold kept. by rewrite drop_nil. }
  { intros r Hr. apply Hin. by apply subseteq_drop in Hr. }
  { unfold kept. rewrite <- (take_drop (Z.to_nat sk) newc), nonnull_app in Hnd. by apply NoDup_app in Hnd as (_ & _ & ?). }
  assert ((forall r, r ∈ kept -> r = RBlk 0 \/ keyof p r <> None) -> undisturbed p p1 []) as Hun1.
  { intros Hhit r Hu _ [H1 H2]. pose proof (po_core _ _ (s_pool _ _ _ (g_ses _ _ _ _ Hg))) as Hc.
    destruct (Hd1 r (usable_blk _ _ _ Hc Hu)) as [E1 E2]. destruct Hu as [_ Hne]. unfold fresh.
    rewrite E1, E2 by done. rewrite decide_False; [split; [done|lia]|]. intros Hr. by destruct (Hhit r Hr). }
  rewrite (bind_ok _ _ _ _ _ R1), (g_null _ _ _ _ Hg).
  rewrite (bind_ok _ _ _ _ _ (extend_ok _ _ _ _ _)), (bind_ok _ _ _ _ _ (extend_ok _ _ _ _ _)).
  cbn [app]. set (l1 := replicate (Z.to_nat sk) (RBlk 0) ++ kept) in *.
  assert (zlen l1 = sk + zlen kept) as Hl1 by (unfold l1, zlen; rewrite length_app, length_replicate; lia).
  unfold set_mgr at 1. msteps. cbn [fst snd]. rewrite blocks_of_with, Hl1.
  set (m1 := {| m with num_cached_block := <[rid := sk + zlen kept]> (num_cached_block m) |}).
  change ({| (with_blocks rid l1 m) with num_cached_block := _ |}) with (with_blocks rid l1 m1).
  assert (group_ok p1 (with_blocks rid l1 m1) other free1) as Hg1' by by apply (group_ok_view _ _ _ _ _ Hg1).
  assert (k = if 0 <? ext' then cdiv (local + ext) (mgr_block_size m) - zlen l1 else 0) as Ek by by rewrite Hl1.
  assert (ext' <= ext) as Hext' by (unfold ext'; destruct (0 <? sk); lia).
  destruct (Z.ltb_spec 0 ext').
  - msteps. cbn [fst snd]. rewrite blocks_of_with, <- Ek.
    destruct (grow_ok rid l1 k p1 m1 other free1 Hg1') as (p2 & R2 & Hg2 & Hcf2 & Hun2 & Hfr2); [lia|].
    rewrite (bind_ok _ _ _ _ _ (on_pool_ok _ _ _ _ _ R2)), (bind_ok _ _ _ _ _ (extend_ok _ _ _ _ _)).
    destruct (record_new_ids_ok (take (Z.to_nat k) free1) p2 (with_blocks rid (l1 ++ take (Z.to_nat k) free1) m1)) as [ids ->].
    eexists _, _, _, _. split; [reflexivity|]. split; [|split; [|split; [|split; [done|]]]].
    + split; [by apply (group_ok_view _ _ _ _ _ Hg2)|done|done|congruence].
    + unfold zlen in *. rewrite length_take. lia.
    + unfold zlen in *. rewrite length_drop. lia.
    + split; [|split; [done|lia]]. intros Hhit. apply (undisturbed_trans p p1 p2); [done|by apply Hun1|done].
  - rewrite Ek. eexists _, _, _, []. split; [reflexivity|]. rewrite app_nil_r.
    split; [by split|]. split; [done|]. split; [lia|]. split; [done|]. split; [exact Hun1|]. split; [by constructor|]. intros _. exact Hd1.
Qed.

(** *** Releasing blocks *)

(** Freeing the blocks of [removed], of which [rid] keeps the list [l'] (or
    nothing at all). *)
Lemma release_ok rid removed l' p m other free : group_ok p m other free ->
  nonnull (blocks_of rid m) ≡ₚ nonnull removed ++ nonnull l' ->
  (forall r, r ∈ removed -> r ∈ blocks_of rid m) -> (forall r, r ∈ l' -> r ∈ blocks p) ->
  exists p' back, free_blocks removed p = (Ok tt, p')
    /\ ses p' (nonnull l' ++ nonnull (held_in (delete rid (req_to_blocks m))) ++ other) (free ++ back)
    /\ NoDup (nonnull l') /\ config p' = config p
    /\ (forall r, is_blk r -> keyof p' r = keyof p r
          /\ (r <> RBlk 0 -> refc p' r = refc p r - (if decide (r ∈ removed) then 1 else 0))).
Proof.
  intros Hg HP Hsub Hl'. pose proof (group_ses _ _ _ _ rid Hg) as Hs.
  destruct (blocks_of_in _ _ _ _ rid Hg) as [Hin Hnd]. rewrite HP in Hnd. apply NoDup_app in Hnd as (Hnd1 & _ & Hnd2).
  destruct (ses_release _ _ (nonnull l' ++ nonnull (held_in (delete rid (req_to_blocks m))) ++ other) _ removed Hs Hnd1)
    as (p' & back & R1 & Hs' & _ & Hcf & Hd).
  { rewrite HP. by rewrite <- app_assoc. }
  { intros r Hr. by apply Hin, Hsub. }
  by exists p', back.
Qed.

Lemma undisturbed_release p p' m other free (removed l : list ref) : group_ok p m other free ->
  (forall r, is_blk r -> keyof p' r = keyof p r
     /\ (r <> RBlk 0 -> refc p' r = refc p r - (if decide (r ∈ removed) then 1 else 0))) ->
  (forall r, r <> RBlk 0 -> r ∉ l -> r ∉ removed) -> undisturbed p p' l.
Proof.
  intros Hg Hd Hl r Hu Hr [H1 H2]. pose proof (po_core _ _ (s_pool _ _ _ (g_ses _ _ _ _ Hg))) as Hc.
  destruct (Hd r (usable_blk _ _ _ Hc Hu)) as [E1 E2]. destruct Hu as [_ Hne]. unfold fresh.
  rewrite E1, E2 by done. rewrite decide_False by by apply Hl. split; [done|lia].
Qed.

Lemma nonnull_reverse l : nonnull (reverse l) ≡ₚ nonnull l.
Proof. apply nonnull_perm. by rewrite reverse_Permutation. Qed.

Lemma free_ok rid p m other free0 : group_ok p m other free0 ->
  exists p' m' back, free rid (p, m) = (Ok tt, (p', m')) /\ group_ok p' m' other (free0 ++ back)
    /\ mgr_config m' = mgr_config m /\ config p' = config p
    /\ req_to_blocks m' = delete rid (req_to_blocks m) /\ num_cached_block m' = delete rid (num_cached_block m)
    /\ undisturbed p p' (blocks_of rid m).
Proof.
  intros Hg. unfold free. msteps. cbn [snd].
  destruct (release_ok rid (reverse (blocks_of rid m)) [] p m other free0 Hg) as (p' & back & R1 & Hs' & _ & Hcf & Hd).
  { by rewrite nonnull_reverse, app_nil_r. }
  { intros r Hr. by rewrite elem_of_reverse in Hr. }
  { intros r Hr. by apply not_elem_of_nil in Hr. }
  set (m1 := if mamba_align m then {| m with allocated_block_reqs := allocated_block_reqs m ∖ {[rid]};
                                             last_state_block_idx := delete rid (last_state_block_idx m) |} else m).
  assert (mgr_config m1 = mgr_config m /\ req_to_blocks m1 = req_to_blocks m /\ num_cached_block m1 = num_cached_block m)
    as (E1 & E2 & E3) by (unfold m1; by destruct (mamba_align m)).
  rewrite (bind_ok _ _ _ tt (p, m1)) by (unfold m1; by destruct (mamba_align m)).
  unfold set_mgr. msteps. cbn [fst snd].
  rewrite (bind_ok _ _ _ _ _ (on_pool_ok _ _ _ _ _ R1)). msteps.
  eexists _, _, back. split; [reflexivity|]. cbn [fst snd].
  split; [|cbn; rewrite E2, E3; do 4 (split; [done|])].
  2: { refine (undisturbed_release p p' m other free0 _ _ Hg Hd _). intros r _ Hr. by rewrite elem_of_reverse. }
  destruct Hg. pose proof E1 as Hc. unfold mgr_config in Hc. injection Hc as _ _ Hb _ _ Hn.
  assert (blocks p' = blocks p) as Hbl by (unfold config in Hcf; by injection Hcf).
  split; cbn; rewrite ?Hb, ?Hn, ?E2, ?Hbl; try done.
  - intros rid' l r. rewrite lookup_delete. case_decide; [done|]. by apply g_in0.
  - intros rid' l. rewrite lookup_delete. case_decide; [done|]. by apply g_nodup0.
Qed.

(** *** Blocks outside the window *)

Lemma skip_loop_spec null n blocks : (n <= length blocks)%nat -> forall acc,
  exists j, (j <= n)%nat
    /\ skip_loop null n blocks acc
       = (take j blocks ++ replicate (n - j) null ++ drop n blocks, acc ++ reverse (take (n - j) (drop j blocks)))
    /\ (j = 0%nat \/ blocks !! pred j = Some null).
Proof.
  revert blocks. induction n as [|n IH]; intros blocks Hn acc; cbn [skip_loop].
  - exists 0%nat. split; [done|]. split; [|by left]. rewrite drop_0. cbn. by rewrite app_nil_r.
  - destruct (lookup_lt_is_Some_2 blocks n ltac:(lia)) as [b Hb]. rewrite Hb.
    destruct (decide (b = null)) as [->|Hne].
    + exists (S n). split; [done|]. split; [|by right]. replace (S n - S n)%nat with 0%nat by lia.
      cbn [replicate take reverse app]. rewrite take_drop. by rewrite app_nil_r.
    + destruct (IH (<[n := null]> blocks) ltac:(rewrite length_insert; lia) (acc ++ [b])) as (j & Hj & -> & Hjn).
      exists j. split; [lia|]. split.
      * rewrite take_insert_ge by lia. replace (S n - j)%nat with (S (n - j)) by lia. f_equal.
        -- f_equal. rewrite replicate_S_end, <- app_assoc. f_equal. cbn [app].
           rewrite drop_insert_ge, Nat.sub_diag by lia. by rewrite (drop_S _ b n Hb).
        -- rewrite <- app_assoc. f_equal. rewrite drop_insert_ge by lia.
           rewrite (take_S_r (drop j blocks) (n - j) b) by (rewrite lookup_drop; by replace (j + (n - j))%nat with n by lia).
           rewrite take_insert_ge by lia. by rewrite reverse_snoc.
      * destruct Hjn as [->|Hjn]; [by left|]. destruct j; [by left|right]. cbn [pred] in *.
        by rewrite list_lookup_insert_ne in Hjn by lia.
Qed.

(** The list of a request after [remove_skipped_blocks], [n] blocks being outside
    the window: from the last null block [j] on, they are null. *)
Definition skipped_list (n j : nat) (blocks : list ref) : list ref :=
  take j blocks ++ replicate (n - j) (RBlk 0) ++ drop n blocks.

Lemma remove_skipped_ok rid t p m other free : group_ok p m other free -> plain_manager m -> 0 <= t ->
  let n := Z.to_nat (Z.min (get_num_skipped_tokens m t / mgr_block_size m) (zlen (blocks_of rid m))) in
  exists p' m' j back, remove_skipped_blocks rid t (p, m) = (Ok tt, (p', m'))
    /\ group_ok p' m' other (free ++ back) /\ mgr_config m' = mgr_config m /\ config p' = config p
    /\ blocks_of rid m' = skipped_list n j (blocks_of rid m) /\ (j <= n)%nat
    /\ (j = 0%nat \/ blocks_of rid m !! pred j = Some (RBlk 0))
    /\ (forall rid', rid' <> rid -> req_to_blocks m' !! rid' = req_to_blocks m !! rid')
    /\ num_cached_block m' = num_cached_block m
    /\ (forall r, usable p r -> fresh p r -> r ∈ blocks_of rid m' \/ r ∉ blocks_of rid m -> fresh p' r).
Proof.
  intros Hg Hm Ht n. pose proof (g_size _ _ _ _ Hg) as Hbs. pose proof (skipped_bounds m t Hm Ht) as Hsk.
  assert (remove_skipped_blocks rid t (p, m) = base_remove_skipped_blocks rid t (p, m)) as ->.
  { unfold remove_skipped_blocks. msteps. cbn [snd]. destruct Hm as (H1 & _). by destruct (mgr_class m). }
  unfold base_remove_skipped_blocks. msteps. cbn [snd].
  destruct (Z.leb_spec (get_num_skipped_tokens m t) 0) as [Hle|Hgt].
  { assert (n = 0)%nat as En.
    { unfold n. replace (get_num_skipped_tokens m t) with 0 by lia. rewrite Z.div_0_l by lia. lia. }
    exists p, m, 0%nat, []. rewrite app_nil_r, En. unfold skipped_list.
    do 9 (split; [done || by left|]). done. }
  rewrite (bind_ok _ _ _ _ _ (access_ok rid p m)). fold n.
  destruct (blocks_of_in _ _ _ _ rid Hg) as [Hin Hnd].
  assert (n <= length (blocks_of rid m))%nat as Hn.
  { unfold n, zlen. lia. }
  rewrite (g_null _ _ _ _ Hg).
  destruct (skip_loop_spec (RBlk 0) n (blocks_of rid m) Hn []) as (j & Hj & -> & Hjn).
  cbn [app]. fold (skipped_list n j (blocks_of rid m)).
  rewrite (bind_ok _ _ _ _ _ (store_blocks_ok _ _ _ _ _)).
  set (removed := take (n - j) (drop j (blocks_of rid m))).
  assert (blocks_of rid m = take j (blocks_of rid m) ++ removed ++ drop n (blocks_of rid m)) as Hsplit.
  { unfold removed. rewrite <- (take_drop j (blocks_of rid m)) at 1. f_equal.
    rewrite <- (take_drop (n - j) (drop j (blocks_of rid m))) at 1. f_equal. rewrite drop_drop. f_equal. lia. }
  assert (forall r, r ∈ skipped_list n j (blocks_of rid m) -> r ∈ blocks p) as Hsl.
  { intros r Hr. unfold skipped_list in Hr. rewrite !elem_of_app in Hr. destruct Hr as [Hr|[Hr|Hr]].
    - apply Hin. by apply subseteq_take in Hr.
    - apply elem_of_replicate in Hr as [-> _]. by eapply null_in.
    - apply Hin. by apply subseteq_drop in Hr. }
  assert (nonnull (blocks_of rid m) ≡ₚ nonnull (reverse removed) ++ nonnull (skipped_list n j (blocks_of rid m))) as HP.
  { rewrite nonnull_reverse. unfold skipped_list. rewrite nonnull_app, nonnull_replicate.
    rewrite Hsplit at 1. rewrite !nonnull_app. apply Permutation_app_swap_app. }
  destruct (release_ok rid (reverse removed) (skipped_list n j (blocks_of rid m)) p m other free Hg HP)
    as (p' & back & R1 & Hs' & Hnd' & Hcf & Hd).
  { intros r Hr. rewrite elem_of_reverse in Hr. rewrite Hsplit. set_solver. }
  { exact Hsl. }
  rewrite (on_pool_ok _ _ _ _ _ R1).
  exists p', (with_blocks rid (skipped_list n j (blocks_of rid m)) m), j, back.
  split; [done|]. split.
  - eapply (group_ok_replace p p' m _ other free _ rid (skipped_list n j (blocks_of rid m))); try done.
  - do 2 (split; [done|]). split; [by rewrite blocks_of_with|]. do 2 (split; [done|]). split; [|split; [done|]].
    { intros rid' Hr. unfold with_blocks. cbn. by rewrite lookup_insert_ne by done. }
    rewrite blocks_of_with. intros r Hu Hf Hr.
    apply (undisturbed_release p p' m other free (reverse removed) (reverse removed) Hg Hd); [done|done| |done].
    pose proof Hu as [_ Hne]. intros Hrem. rewrite HP in Hnd. apply NoDup_app in Hnd as (_ & Hdis & _).
    destruct Hr as [Hr|Hr].
    + apply (Hdis r); by apply elem_of_nonnull.
    + apply Hr. rewrite elem_of_reverse in Hrem. rewrite Hsplit. set_solver.
Qed.

(** *** Caching *)

(** What [cache_blocks] relies on: the blocks up to [num_tokens] are there and
    those beyond [num_cached_block] have no hash yet. *)
Definition can_cache (p : BlockPool) (m : Manager) (request : Request) (num_tokens : Z) : Prop :=
  let blks := blocks_of (request_id request) m in
  let nf := num_tokens / mgr_block_size m in
  let nc := default 0 (num_cached_block m !! request_id request) in
  enable_caching p = true /\ 0 <= kv_cache_group_id m < 2 ^ 32
  /\ group_size_ok (hash_block_size p) (mgr_block_size m) /\ 0 <= nc
  /\ nf <= zlen blks /\ nf <= zlen (group_hashes request (hash_block_size p) (mgr_block_size m))
  /\ cacheable p (take (Z.to_nat nf - Z.to_nat nc) (drop (Z.to_nat nc) blks)).

Definition cached_part (m : Manager) (request : Request) (num_tokens : Z) : list ref :=
  let nf := Z.to_nat (num_tokens / mgr_block_size m) in
  let nc := Z.to_nat (default 0 (num_cached_block m !! request_id request)) in
  take (nf - nc) (drop nc (blocks_of (request_id request) m)).

Lemma cache_blocks_ok request num_tokens p m other free : group_ok p m other free -> plain_manager m ->
  can_cache p m request num_tokens ->
  exists p' m' request', cache_blocks num_tokens (p, m, request) = (Ok tt, (p', m', request'))
    /\ group_ok p' m' other free /\ mgr_config m' = mgr_config m /\ config p' = config p
    /\ blocks_of (request_id request) m' = blocks_of (request_id request) m
    /\ (forall rid', rid' <> request_id request -> req_to_blocks m' !! rid' = req_to_blocks m !! rid')
    /\ default 0 (num_cached_block m' !! request_id request)
       = Z.max (default 0 (num_cached_block m !! request_id request)) (num_tokens / mgr_block_size m)
    /\ (forall rid', rid' <> request_id request -> num_cached_block m' !! rid' = num_cached_block m !! rid')
    /\ same_but_cache request request'
    /\ forall r, is_blk r -> refc p' r = refc p r
         /\ (r ∉ cached_part m request num_tokens \/ r = RBlk 0 -> keyof p' r = keyof p r).
Proof.
  intros Hg Hm (Hen & Hgid & Hsz & Hnc & Hnf & Hnh & Hcb). set (rid := request_id request) in *.
  assert (cache_blocks num_tokens (p, m, request) = base_cache_blocks num_tokens (p, m, request)) as ->.
  { unfold cache_blocks. msteps. cbn [fst snd]. destruct Hm as (H1 & H2 & _). by destruct (mgr_class m). }
  unfold base_cache_blocks. msteps. cbn [fst snd]. fold rid.
  set (nc := default 0 (num_cached_block m !! rid)) in *. set (nf := num_tokens / mgr_block_size m) in *.
  destruct (Z.leb_spec nf nc) as [Hle|Hgt].
  { exists p, m, request. do 6 (split; [done|]). fold nc. split; [lia|]. split; [done|]. split; [apply same_but_cache_refl|done]. }
  rewrite (bind_ok _ _ _ (blocks_of rid m) (p, with_blocks rid (blocks_of rid m) m, request))
    by (unfold on_mgr, on_fst, zoom; cbn [fst snd]; by rewrite access_ok).
  destruct (cache_full_blocks_spec p free request (blocks_of rid m) (Z.to_nat nc) (Z.to_nat nf)
    (mgr_block_size m) (kv_cache_group_id m) (s_pool _ _ _ (g_ses _ _ _ _ Hg)) Hen Hgid Hsz)
    as (p' & rq & R1 & Hp' & Hsame & Hcs).
  { unfold zlen in *. lia. }
  { unfold zlen in *. lia. }
  { done. }
  rewrite !Z2Nat.id in R1 by lia.
  rewrite (bind_ok _ _ _ tt (p', with_blocks rid (blocks_of rid m) m, rq))
    by (unfold on_pool_request, zoom; cbn [fst snd]; by rewrite R1).
  eexists _, _, _. split; [reflexivity|]. cbn [fst snd].
  pose proof Hcs as (Hcf & Hrc & Hkc & _).
  split; [|split; [done|split; [done|split; [by apply blocks_of_with|split; [|split; [|split; [|split; [done|]]]]]]]].
  - apply (group_ok_view _ (with_blocks rid (blocks_of rid m) m)); [|done|done].
    pose proof (group_ses _ _ _ _ rid Hg) as Hs. destruct (blocks_of_in _ _ _ _ rid Hg) as [Hin Hnd].
    apply (group_ok_replace p p' m _ other free free rid (blocks_of rid m)); try done.
    eapply ses_of_step; [exact Hs| |exact Hp'].
    eapply (step_cache _ _ request (blocks_of rid m) (Z.to_nat nc) (Z.to_nat nf) _ _ _ _ rq);
      [exact Hen|exact Hgid|exact Hsz|unfold zlen in *; lia|unfold zlen in *; lia|done|].
    rewrite !Z2Nat.id by lia. exact R1.
  - intros rid' Hr. cbn. by rewrite lookup_insert_ne.
  - cbn. rewrite lookup_insert_eq. cbn. lia.
  - intros rid' Hr. cbn. by rewrite lookup_insert_ne.
  - intros r Hr. split; [by apply Hrc|]. intros Hs. by apply Hkc.
Qed.

(** *** The capacity check *)

Lemma get_num_blocks_plain rid n newc total main m p : plain_manager m ->
  get_num_blocks_to_allocate rid n newc total main (p, m) = base_get_num_blocks_to_allocate rid n newc total (p, m).
Proof.
  intros (H1 & _). unfold get_num_blocks_to_allocate. msteps. cbn [fst snd]. by destruct (mgr_class m).
Qed.

Lemma allocate_plain rid n main m p : plain_manager m ->
  allocate_new_blocks rid n main (p, m) = base_allocate_new_blocks rid n (p, m).
Proof. intros (H1 & _). unfold allocate_new_blocks. msteps. cbn [fst snd]. by destruct (mgr_class m). Qed.

Lemma plain_config m m' : mgr_config m' = mgr_config m -> plain_manager m -> plain_manager m'.
Proof. unfold mgr_config, plain_manager. intros H. injection H. intros _ _ _ _ -> ->. done. Qed.

Lemma evictable_drop p (k : Z) l : get_num_evictable_blocks p (py_from l (Z.max 0 k)) = get_num_evictable_blocks p (drop (Z.to_nat k) l).
Proof. rewrite py_from_nonneg by lia. do 2 f_equal. lia. Qed.

(** A request that is not running yet; it may have cached blocks. *)
Definition adoptable (p : BlockPool) (m : Manager) (rid : string) (newc : list ref) (total : Z) : Prop :=
  num_cached_block m !! rid = None /\ blocks_of rid m = []
  /\ (mgr_enable_caching m = true \/ newc = [])
  /\ (forall r, r ∈ newc -> r ∈ blocks p) /\ NoDup (nonnull newc)
  /\ zlen newc * mgr_block_size m <= total.

(** A running request takes no cached blocks. *)
Definition running (m : Manager) (rid : string) (newc : list ref) : Prop :=
  (exists n, num_cached_block m !! rid = Some n) /\ newc = [].

Lemma allocate_running rid p m other free n : group_ok p m other free -> plain_manager m ->
  running m rid [] -> forall local ext main newc k, newc = [] ->
  k = Z.max (cdiv n (mgr_block_size m) - zlen (blocks_of rid m)) 0 -> k <= zlen free ->
  exists p' m' free' new,
    (allocate_new_computed_blocks rid newc local ext ;; allocate_new_blocks rid n main) (p, m) = (Ok new, (p', m'))
    /\ updated p p' m m' other free' rid (blocks_of rid m ++ new) /\ zlen free' = zlen free - k
    /\ cdiv n (mgr_block_size m) <= zlen (blocks_of rid m ++ new).
Proof.
  intros Hg Hm ([nc Hnc] & _) local ext main newc k -> Hk Hle.
  rewrite (bind_ok _ _ _ tt (p, m)).
  2: { unfold allocate_new_computed_blocks. msteps. cbn [snd]. rewrite Hnc. destruct Hm as (? & ? & _). by destruct (mgr_class m). }
  rewrite allocate_plain by done.
  destruct (base_allocate_ok rid n p m other free Hg) as (p' & m' & -> & Hu & _); [lia|].
  eexists _, _, _, _. split; [reflexivity|]. split; [exact Hu|].
  rewrite zlen_app. unfold zlen in *. rewrite length_take, length_drop. lia.
Qed.

Lemma allocate_new_request rid newc local ext p m other free n main : group_ok p m other free -> plain_manager m ->
  0 <= local + ext -> adoptable p m rid newc (local + ext) -> local + ext <= n ->
  let sk := get_num_skipped_tokens m (local + ext) / mgr_block_size m in
  let k := Z.max (cdiv n (mgr_block_size m) - Z.max sk (zlen newc)) 0
           + get_num_evictable_blocks p (drop (Z.to_nat sk) newc) in
  k <= zlen free ->
  exists p' m' free' new l,
    (allocate_new_computed_blocks rid newc local ext ;; allocate_new_blocks rid n main) (p, m) = (Ok new, (p', m'))
    /\ updated p p' m m' other free' rid l /\ zlen free' = zlen free - k
    /\ cdiv n (mgr_block_size m) <= zlen l
    /\ (replicate (Z.to_nat sk) (RBlk 0) ++ drop (Z.to_nat sk) newc) `prefix_of` l.
Proof.
  intros Hg Hm Ht (Hnc & Hnil & Hen & Hin & Hnd & Hlen) Hn sk k Hk.
  pose proof (g_size _ _ _ _ Hg) as Hbs.
  destruct (num_external_blocks_nonneg m newc _ ext Hm Hbs Ht Hlen) as (Hk0 & Hk1 & Hsk & Hlk). fold sk in Hk0, Hk1, Hsk, Hlk.
  pose proof (cdiv_mono _ Hbs _ _ Hn) as Hmono.
  pose proof (computed_ok rid newc local ext p m other free Hg Hm Hnc Hnil Hen Hin Hnd Ht Hlen) as HC.
  cbv zeta in HC. fold sk in HC.
  destruct HC as (p1 & m1 & free1 & extb & R1 & Hu1 & Hext & Hf1 & _); [lia|].
  rewrite (bind_ok _ _ _ _ _ R1). pose proof Hu1 as [Hg1 Hcf1 Hb1 Hcp1].
  rewrite allocate_plain by (by apply (plain_config m)).
  set (l1 := (replicate (Z.to_nat sk) (RBlk 0) ++ drop (Z.to_nat sk) newc) ++ extb) in *.
  assert (blocks_of rid m1 = l1) as Hbo by (unfold blocks_of; by rewrite Hb1, lookup_insert_eq).
  assert (mgr_block_size m1 = mgr_block_size m) as Hbsm by (unfold mgr_config in Hcf1; by injection Hcf1).
  assert (zlen l1 = Z.max sk (zlen newc) + num_external_blocks m (drop (Z.to_nat sk) newc) (local + ext) ext) as Hl1.
  { unfold l1. rewrite !zlen_app, Hext. unfold zlen at 1. rewrite length_replicate. lia. }
  pose proof (zlen_nonneg newc).
  destruct (base_allocate_ok rid n p1 m1 other free1 Hg1) as (p2 & m2 & R2 & Hu2 & _);
    rewrite Hbo, Hbsm in *; [lia|]. rewrite R2.
  set (k2 := cdiv n (mgr_block_size m) - zlen l1) in *.
  exists p2, m2, (drop (Z.to_nat k2) free1), (take (Z.to_nat k2) free1), (l1 ++ take (Z.to_nat k2) free1).
  split; [reflexivity|]. split; [|split; [|split]].
  - destruct Hu2 as [Hg2 Hcf2 Hb2 Hcp2]. split; [done|congruence| |congruence].
    by rewrite Hb2, Hb1, insert_insert_eq.
  - unfold zlen in *. rewrite length_drop. lia.
  - rewrite zlen_app. unfold zlen in *. rewrite length_take. lia.
  - unfold l1. rewrite <- app_assoc. by eexists.
Qed.

End facts.
End Accounting.

(** ** Sessions of one group *)

Module GroupSession.
Import Pool PoolFacts PoolSession Session Accounting Manager.

Section session.
Context {E : Env}.

(** One call of the owner of the manager, which asks for a number of tokens only
    when [get_num_blocks_to_allocate] allows it. *)
Inductive group_step : BlockPool * Manager -> BlockPool * Manager -> Prop :=
  | step_allocate p m rid newc local ext n main k s r p' m' :
      running m rid newc \/ adoptable p m rid newc (local + ext) -> 0 <= local + ext <= n ->
      get_num_blocks_to_allocate rid n newc (local + ext) main (p, m) = (Ok k, s) ->
      k <= get_num_free_blocks p ->
      (allocate_new_computed_blocks rid newc local ext ;; allocate_new_blocks rid n main) (p, m) = (r, (p', m')) ->
      group_step (p, m) (p', m')
  | step_cache_blocks p m request n r p' m' request' :
      can_cache p m request n -> cache_blocks n (p, m, request) = (r, (p', m', request')) ->
      group_step (p, m) (p', m')
  | step_remove_skipped p m rid t r p' m' :
      0 <= t -> remove_skipped_blocks rid t (p, m) = (r, (p', m')) -> group_step (p, m) (p', m')
  | step_free_request p m rid r p' m' :
      free rid (p, m) = (r, (p', m')) -> group_step (p, m) (p', m').

Lemma base_check_running rid n newc total p m : running m rid newc ->
  base_get_num_blocks_to_allocate rid n newc total (p, m)
    = (Ok (Z.max (cdiv n (mgr_block_size m) - zlen (blocks_of rid m)) 0), (p, m)).
Proof. intros [[nc Hnc] ->]. unfold base_get_num_blocks_to_allocate. msteps. cbn [snd fst]. by rewrite Hnc. Qed.

Lemma base_check_new rid n newc total p m : adoptable p m rid newc total ->
  let sk := get_num_skipped_tokens m total / mgr_block_size m in
  base_get_num_blocks_to_allocate rid n newc total (p, m)
    = (Ok (Z.max (cdiv n (mgr_block_size m) - Z.max sk (zlen newc)) 0
           + get_num_evictable_blocks p (drop (Z.to_nat sk) newc)), (p, m)).
Proof.
  intros (Hnc & Hnil & _) sk. unfold base_get_num_blocks_to_allocate. msteps. cbn [snd fst]. rewrite Hnc, Hnil.
  fold sk. replace (zlen newc + zlen (@nil ref)) with (zlen newc) by (unfold zlen; cbn; lia).
  unfold zlen at 3. cbn [length Z.of_nat]. rewrite Z.sub_0_r, evictable_drop. done.
Qed.

(** The check is exact, and when it passes the allocation succeeds. *)
Lemma allocate_checked rid newc local ext n main p m other free : group_ok p m other free -> plain_manager m ->
  running m rid newc \/ adoptable p m rid newc (local + ext) -> 0 <= local + ext <= n ->
  exists k, get_num_blocks_to_allocate rid n newc (local + ext) main (p, m) = (Ok k, (p, m))
    /\ (k <= zlen free -> exists p' m' free' new l,
          (allocate_new_computed_blocks rid newc local ext ;; allocate_new_blocks rid n main) (p, m) = (Ok new, (p', m'))
          /\ updated p p' m m' other free' rid l /\ zlen free' = zlen free - k
          /\ cdiv n (mgr_block_size m) <= zlen l
          /\ (running m rid newc -> l = blocks_of rid m ++ new)).
Proof.
  intros Hg Hm Hcase Ht. rewrite get_num_blocks_plain by done. destruct Hcase as [Hr|Ha].
  - rewrite base_check_running by done. eexists. split; [done|]. intros Hk. pose proof Hr as [_ ->].
    destruct (allocate_running rid p m other free n Hg Hm Hr local ext main [] _ eq_refl eq_refl Hk)
      as (p' & m' & free' & new & H1 & H2 & H3 & H4).
    by exists p', m', free', new, (blocks_of rid m ++ new).
  - rewrite (base_check_new _ _ _ _ _ _ Ha). eexists. split; [done|]. intros Hk.
    destruct (allocate_new_request rid newc local ext p m other free n main Hg Hm ltac:(lia) Ha ltac:(lia) Hk)
      as (p' & m' & free' & new & l & H1 & H2 & H3 & H4 & _).
    exists p', m', free', new, l. do 4 (split; [done|]). intros [[nc Hnc] _]. destruct Ha as [Hnc' _]. congruence.
Qed.

Lemma group_step_ok s s' other : group_step s s' -> plain_manager s.2 -> (exists free, group_ok s.1 s.2 other free) ->
  plain_manager s'.2 /\ exists free, group_ok s'.1 s'.2 other free.
Proof.
  intros Hstep Hm [fr Hg].
  destruct Hstep as [p m rid newc local ext n main k s r p' m' Hcase Ht Hk Hle Hrun
    |p m request n r p' m' request' Hc Hrun|p m rid t r p' m' Ht Hrun|p m rid r p' m' Hrun]; cbn [fst snd] in *.
  - destruct (allocate_checked rid newc local ext n main p m other fr Hg Hm Hcase Ht) as (k' & Hk' & Hok).
    rewrite Hk in Hk'. injection Hk' as <- _. rewrite (ses_num_free _ _ _ (g_ses _ _ _ _ Hg)) in Hle.
    destruct (Hok Hle) as (p1 & m1 & fr1 & new & l & R1 & [Hg1 Hcf1 _ _] & _).
    rewrite R1 in Hrun. injection Hrun as <- <- <-. split; [by eapply plain_config|by eexists].
  - destruct (cache_blocks_ok request n p m other fr Hg Hm Hc) as (p1 & m1 & rq1 & R1 & Hg1 & Hcf1 & _).
    rewrite R1 in Hrun. injection Hrun as <- <- <- <-. split; [by eapply plain_config|by eexists].
  - destruct (remove_skipped_ok rid t p m other fr Hg Hm Ht) as (p1 & m1 & j & back & R1 & Hg1 & Hcf1 & _).
    rewrite R1 in Hrun. injection Hrun as <- <- <-. split; [by eapply plain_config|by eexists].
  - destruct (free_ok rid p m other fr Hg) as (p1 & m1 & back & R1 & Hg1 & Hcf1 & _).
    rewrite R1 in Hrun. injection Hrun as <- <- <-. split; [by eapply plain_config|by eexists].
Qed.

Lemma group_steps_ok s s' other : rtc group_step s s' -> plain_manager s.2 -> (exists free, group_ok s.1 s.2 other free) ->
  plain_manager s'.2 /\ exists free, group_ok s'.1 s'.2 other free.
Proof.
  induction 1 as [|s s1 s2 H1 _ IH]; [done|]. intros Hm Hg.
  destruct (group_step_ok _ _ other H1 Hm Hg) as [Hm1 Hg1]. by apply IH.
Qed.

(** A new manager of a class without special constructor on a fresh pool. *)
Lemma init_group_ok p fr spec en gid dcp pcp p' m : ses p [] fr ->
  match spec with SinkFullAttentionSpec _ _ _ _ _ => False | _ => True end ->
  0 < scaled_block_size spec dcp pcp -> init spec en gid dcp pcp p = (Ok m, p') ->
  p' = p /\ group_ok p m [] fr.
Proof.
  intros Hs Hspec Hbs Hrun. unfold init in Hrun.
  assert (null_block p = RBlk 0) as Hnull by apply (pc_null _ _ (po_core _ _ (s_pool _ _ _ Hs))).
  assert (exists cls, spec_manager_map spec = Ok cls) as [cls Hcls].
  { destruct (spec_manager_map spec) as [cls|e] eqn:Ec; [by eexists|].
    by rewrite (bind_raise _ _ _ e p) in Hrun by by unfold lift_res. }
  rewrite (bind_ok _ _ _ cls p) in Hrun by (unfold lift_res; by rewrite Hcls).
  rewrite (bind_ok _ _ _ (null_block p) p) in Hrun by done.
  assert (forall m0 : Manager, mgr_null_block m0 = null_block p -> mgr_block_size m0 = scaled_block_size spec dcp pcp ->
    req_to_blocks m0 = ∅ -> group_ok p m0 [] fr) as Hok.
  { intros m0 H1 H2 H3. split; [congruence|by rewrite H2|..].
    - unfold group_held, held_in. by rewrite H3, map_to_list_empty.
    - intros rid l r. by rewrite H3, lookup_empty.
    - intros rid l. by rewrite H3, lookup_empty. }
  destruct spec; try done; injection Hrun as <- <-; (split; [done|]); by apply Hok.
Qed.

End session.

(** ** Properties *)

(** C21: The capacity check of [allocate_slots] is exact for every manager but
    Mamba's and cross attention's.  For a running request, or a new one that
    adopts cached blocks and externally computed tokens,
    [get_num_blocks_to_allocate] changes nothing; when the number it returns is at
    most the number of free blocks, adopting and allocating raise no error, the
    request then has blocks for [num_tokens] tokens, no other request's blocks
    change, the reference counts stay exact, and the free queue has become
    shorter by just that number. *)
Theorem capacity_check_exact {E : Env} rid newc local ext n main p m other free0
  (Hg : group_ok p m other free0) (Hm : plain_manager m)
  (Hcase : running m rid newc \/ adoptable p m rid newc (local + ext)) (Ht : 0 <= local + ext <= n) :
  exists k, get_num_blocks_to_allocate rid n newc (local + ext) main (p, m) = (Ok k, (p, m))
    /\ (k <= get_num_free_blocks p -> exists p' m' free' new,
          (allocate_new_computed_blocks rid newc local ext ;; allocate_new_blocks rid n main) (p, m) = (Ok new, (p', m'))
          /\ group_ok p' m' other free'
          /\ get_num_free_blocks p' = get_num_free_blocks p - k
          /\ cdiv n (mgr_block_size m) <= zlen (blocks_of rid m')
          /\ (running m rid newc -> blocks_of rid m' = blocks_of rid m ++ new)
          /\ forall rid', rid' <> rid -> blocks_of rid' m' = blocks_of rid' m).
Proof.
  rewrite (ses_num_free _ _ _ (g_ses _ _ _ _ Hg)).
  destruct (allocate_checked rid newc local ext n main p m other free0 Hg Hm Hcase Ht) as (k & Hk & Hok).
  exists k. split; [done|]. intros Hle.
  destruct (Hok Hle) as (p' & m' & free' & new & l & R1 & [Hg1 Hcf1 Hb1 _] & Hf & Hl & Hrunning).
  assert (blocks_of rid m' = l) as Hbl by (unfold blocks_of; by rewrite Hb1, lookup_insert_eq).
  exists p', m', free', new. rewrite (ses_num_free _ _ _ (g_ses _ _ _ _ Hg1)), Hbl. do 5 (split; [done|]).
  intros rid' Hr. unfold blocks_of. by rewrite Hb1, lookup_insert_ne.
Qed.

(** C31: Reference counts are exact over the life of a group.  From a new manager
    on a fresh pool, after any sequence of checked allocations, caching, removals
    of blocks outside the window and frees: the count of each block is the number
    of request lists that hold it, no list holds a block twice (the null block
    apart), and the free queue has exactly the blocks that no request holds. *)
Theorem group_session_counts_exact {E : Env} p0 free0 spec en gid dcp pcp m0 p m
  (H0 : ses p0 [] free0) (Hbs : 0 < scaled_block_size spec dcp pcp)
  (Hspec : match spec with SinkFullAttentionSpec _ _ _ _ _ => False | _ => True end)
  (Hinit : init spec en gid dcp pcp p0 = (Ok m0, p0)) (Hplain : plain_manager m0)
  (Hsteps : rtc group_step (p0, m0) (p, m)) :
  exists free', ses p (group_held m) free'
    /\ (forall r, usable p r -> refc p r = count_ref r (held_in (req_to_blocks m)))
    /\ (forall rid, NoDup (nonnull (blocks_of rid m)))
    /\ (forall r, r ∈ free' <-> usable p r /\ forall rid, r ∉ blocks_of rid m).
Proof.
  destruct (init_group_ok p0 free0 spec en gid dcp pcp p0 m0 H0 Hspec Hbs Hinit) as [_ Hg0].
  destruct (group_steps_ok _ _ [] Hsteps Hplain (ex_intro _ free0 Hg0)) as [_ [free' Hg]]. cbn [fst snd] in Hg.
  pose proof (g_ses _ _ _ _ Hg) as Hs. rewrite app_nil_r in Hs. exists free'.
  assert (forall r, r <> RBlk 0 -> r ∈ held_in (req_to_blocks m) <-> r ∈ group_held m) as Hnn.
  { intros r Hr. unfold group_held. rewrite elem_of_nonnull. tauto. }
  split; [done|]. split; [|split].
  - intros r Hr. rewrite (s_count _ _ _ Hs) by done. unfold count_ref, group_held, nonnull.
    rewrite list_filter_filter. f_equal. apply list_filter_iff. intros x. destruct Hr as [_ Hr].
    split; [tauto|]. by intros ->.
  - intros rid. by eapply blocks_of_in.
  - intros r. rewrite (ses_free _ _ _ r Hs). split; intros [Hu Hr]; (split; [done|]).
    + intros rid Hin. apply Hr. apply Hnn; [apply Hu|]. rewrite (held_in_delete _ rid). apply elem_of_app. by left.
    + rewrite <- Hnn by apply Hu. intros [rid Hin]%elem_of_held_in. by apply (Hr rid).
Qed.

(** C32: Leaving the window.  [remove_skipped_blocks] never fails; it keeps every
    block that holds a token still needed, and when the null blocks of the request
    come first, as they do in a session, all blocks before the window become null;
    other requests keep their blocks, and the counts stay exact, so a block given
    up is free unless someone else holds it. *)
Theorem remove_skipped_keeps_window {E : Env} rid t p m other free0
  (Hg : group_ok p m other free0) (Hm : plain_manager m) (Ht : 0 <= t) :
  exists p' m' back, remove_skipped_blocks rid t (p, m) = (Ok tt, (p', m'))
    /\ group_ok p' m' other (free0 ++ back)
    /\ length (blocks_of rid m') = length (blocks_of rid m)
    /\ (forall i, get_num_skipped_tokens m t < (Z.of_nat i + 1) * mgr_block_size m ->
          blocks_of rid m' !! i = blocks_of rid m !! i)
    /\ ((forall i j, (i <= j)%nat -> blocks_of rid m !! j = Some (RBlk 0) -> blocks_of rid m !! i = Some (RBlk 0)) ->
        forall i b, (Z.of_nat i + 1) * mgr_block_size m <= get_num_skipped_tokens m t ->
          blocks_of rid m' !! i = Some b -> b = RBlk 0)
    /\ forall rid', rid' <> rid -> blocks_of rid' m' = blocks_of rid' m.
Proof.
  pose proof (g_size _ _ _ _ Hg) as Hbs. pose proof (skipped_bounds m t Hm Ht) as [Hsk _].
  destruct (remove_skipped_ok rid t p m other free0 Hg Hm Ht)
    as (p' & m' & j & back & R1 & Hg' & _ & _ & Hl & Hj & Hjn & Hrest & _).
  set (sk := get_num_skipped_tokens m t) in *. set (l := blocks_of rid m) in *.
  set (n := Z.to_nat (Z.min (sk / mgr_block_size m) (zlen l))) in *.
  assert (0 <= sk / mgr_block_size m) by (apply Z.div_pos; lia).
  pose proof (Z.mul_div_le sk _ Hbs). pose proof (Z.mul_succ_div_gt sk _ Hbs).
  assert (n <= length l)%nat as Hn by (unfold n, zlen; lia).
  assert (length (take j l) = j) as Htj by (rewrite length_take; lia).
  exists p', m', back. do 2 (split; [done|]). rewrite Hl. unfold skipped_list. split; [|split; [|split]].
  - rewrite !length_app, Htj, length_replicate, length_drop. lia.
  - intros i Hi. assert (n <= i)%nat as Hni.
    { assert (sk / mgr_block_size m < Z.of_nat i + 1) by nia. unfold n. lia. }
    rewrite lookup_app_r, lookup_app_r, length_replicate, Htj, lookup_drop by (rewrite ?length_replicate, ?Htj; lia).
    f_equal. lia.
  - intros Hpre i b Hi. destruct (decide (i < n)%nat) as [Hin|Hin].
    + destruct (decide (i < j)%nat) as [Hij|Hij].
      * rewrite lookup_app_l, lookup_take_lt by lia. destruct Hjn as [->|Hjn]; [lia|].
        rewrite (Hpre i (pred j)) by (done || lia). by intros [= <-].
      * rewrite lookup_app_r, lookup_app_l by (rewrite ?length_replicate; lia).
        by intros [-> _]%lookup_replicate.
    + assert (length l <= i)%nat as Hge.
      { assert (Z.of_nat i + 1 <= sk / mgr_block_size m) by (apply Z.div_le_lower_bound; lia).
        unfold n, zlen in *. lia. }
      intros Hlk%lookup_lt_Some. rewrite !length_app, Htj, length_replicate, length_drop in Hlk. lia.
  - intros rid' Hr. unfold blocks_of. by rewrite Hrest.
Qed.

(** ** Concrete runs *)

Definition demo_full : KVCacheSpec :=
  FullAttentionSpec {| demo_attention with a_block_size := 2 |} 64 None None.
Definition demo_window : KVCacheSpec := SlidingWindowSpec {| demo_attention with a_block_size := 2 |} 3.

Definition demo_manager (cls : manager_class) (spec : KVCacheSpec) : Manager :=
  {| mgr_class := cls; mgr_spec := spec; mgr_block_size := 2; mgr_enable_caching := true; new_block_ids := [];
     req_to_blocks := ∅; num_cached_block := ∅; kv_cache_group_id := 0; mgr_null_block := RBlk 0;
     cached_blocks_this_step := ∅; last_state_block_idx := ∅; allocated_block_reqs := ∅; sink_blocks := [] |}.

Lemma demo_ses : ses demo_pool [] [RBlk 1; RBlk 2; RBlk 3; RBlk 4].
Proof. exact (ses_of_session _ _ _ (init_session_ok 5 true 2 false None demo_pool demo_pool_init) demo_pool_ok). Qed.

Lemma demo_group_ok cls spec : group_ok demo_pool (demo_manager cls spec) [] [RBlk 1; RBlk 2; RBlk 3; RBlk 4].
Proof.
  split; [done|done|exact demo_ses|..].
  - intros rid l r. cbn [demo_manager req_to_blocks]. by rewrite lookup_empty.
  - intros rid l. cbn [demo_manager req_to_blocks]. by rewrite lookup_empty.
Qed.

Lemma demo_init : init demo_full true 0 1 1 demo_pool = (Ok (demo_manager FullAttentionManager demo_full), demo_pool).
Proof.
  assert (null_block demo_pool = RBlk 0) as H by by vm_compute.
  unfold init. cbn [spec_manager_map demo_full]. unfold lift_res. msteps. by rewrite H.
Qed.

Lemma demo_adoptable cls spec n : 0 <= n -> adoptable demo_pool (demo_manager cls spec) "r" [] n.
Proof.
  intros Hn. split; [done|]. split; [done|]. split; [by right|].
  split; [intros r Hr; by apply not_elem_of_nil in Hr|]. split; [constructor|].
  unfold zlen. cbn [length demo_manager mgr_block_size]. lia.
Qed.

Lemma demo_plain_full : plain_manager (demo_manager FullAttentionManager demo_full).
Proof. done. Qed.

(** Five tokens need three blocks. *)
Lemma capacity_check_exact_witness :
  exists k p' m' free' new,
    get_num_blocks_to_allocate "r" 5 [] 0 5 (demo_pool, demo_manager FullAttentionManager demo_full)
      = (Ok k, (demo_pool, demo_manager FullAttentionManager demo_full))
    /\ k = 3 /\ (allocate_new_computed_blocks "r" [] 0 0 ;; allocate_new_blocks "r" 5 5)
         (demo_pool, demo_manager FullAttentionManager demo_full) = (Ok new, (p', m'))
    /\ group_ok p' m' [] free' /\ get_num_free_blocks p' = 1 /\ 3 <= zlen (blocks_of "r" m').
Proof.
  destruct (capacity_check_exact "r" [] 0 0 5 5 _ _ [] _ (demo_group_ok FullAttentionManager demo_full)
    demo_plain_full (or_intror (demo_adoptable _ _ 0 ltac:(lia))) ltac:(lia)) as (k & Hk & Hok).
  assert ((get_num_blocks_to_allocate "r" 5 [] (0 + 0) 5 (demo_pool, demo_manager FullAttentionManager demo_full)).1 = Ok 3)
    as Hk' by (vm_compute; reflexivity).
  rewrite Hk in Hk'. injection Hk' as ->.
  assert (get_num_free_blocks demo_pool = 4) as Hf by (vm_compute; reflexivity).
  destruct Hok as (p' & m' & free' & new & H1 & H2 & H3 & H4 & _); [lia|].
  exists 3, p', m', free', new. split; [exact Hk|]. split; [done|]. split; [exact H1|]. split; [exact H2|].
  split; [lia|exact H4].
Defined.

(** Allocate for five tokens, then free. *)
Lemma group_session_counts_exact_witness :
  exists p m free', rtc group_step (demo_pool, demo_manager FullAttentionManager demo_full) (p, m)
    /\ ses p (group_held m) free' /\ blocks_of "r" m = [RBlk 1; RBlk 2; RBlk 3]
    /\ (RBlk 1 ∉ free').
Proof.
  set (c := (allocate_new_computed_blocks "r" [] 0 0 ;; allocate_new_blocks "r" 5 5) : M (BlockPool * Manager) (list ref)).
  set (s0 := (demo_pool, demo_manager FullAttentionManager demo_full)).
  assert ((get_num_blocks_to_allocate "r" 5 [] (0 + 0) 5 s0).1 = Ok 3) as Hk by (vm_compute; reflexivity).
  assert ((c s0).1 = Ok [RBlk 1; RBlk 2; RBlk 3]) as Hc by (vm_compute; reflexivity).
  assert (blocks_of "r" (c s0).2.2 = [RBlk 1; RBlk 2; RBlk 3]) as Hb by (vm_compute; reflexivity).
  assert (get_num_free_blocks demo_pool = 4) as Hf by (vm_compute; reflexivity).
  assert (rtc group_step s0 ((c s0).2.1, (c s0).2.2)) as Hsteps.
  { apply rtc_once.
    apply (step_allocate _ _ "r" [] 0 0 5 5 3 (get_num_blocks_to_allocate "r" 5 [] (0 + 0) 5 s0).2 (c s0).1).
    - right. by apply demo_adoptable.
    - lia.
    - apply run_snd. exact Hk.
    - rewrite Hf. lia.
    - exact (run_eta2 c s0). }
  destruct (group_session_counts_exact demo_pool _ demo_full true 0 1 1 _ _ _ demo_ses ltac:(reflexivity) I demo_init
    demo_plain_full Hsteps) as (free' & Hs & _ & _ & Hfree).
  exists (c s0).2.1, (c s0).2.2, free'. split; [exact Hsteps|]. split; [exact Hs|]. split; [exact Hb|].
  rewrite Hfree. intros [_ Hno]. apply (Hno "r"). rewrite Hb. by left.
Defined.

(** With a window of three tokens, four tokens computed leave one block behind. *)
Lemma remove_skipped_keeps_window_witness :
  let m0 := demo_manager SlidingWindowManager demo_window in
  exists p m free0, group_ok p m [] free0 /\ blocks_of "r" m = [RBlk 1; RBlk 2]
    /\ exists p' m' back, remove_skipped_blocks "r" 4 (p, m) = (Ok tt, (p', m'))
       /\ group_ok p' m' [] (free0 ++ back) /\ blocks_of "r" m' !! 1%nat = Some (RBlk 2)
       /\ forall b, blocks_of "r" m' !! 0%nat = Some b -> b = RBlk 0.
Proof.
  intros m0. assert (plain_manager m0) as Hm0 by done.
  destruct (allocate_checked "r" [] 0 0 4 4 _ m0 [] _ (demo_group_ok SlidingWindowManager demo_window) Hm0
    (or_intror (demo_adoptable _ _ 0 ltac:(lia))) ltac:(lia)) as (k & Hk & Hok).
  assert ((get_num_blocks_to_allocate "r" 4 [] (0 + 0) 4 (demo_pool, m0)).1 = Ok 2) as Hk' by (vm_compute; reflexivity).
  rewrite Hk in Hk'. injection Hk' as ->.
  destruct Hok as (p & m & free0 & new & l & R1 & [Hg1 Hcf Hb _] & _); [by vm_compute|].
  assert (blocks_of "r" ((allocate_new_computed_blocks "r" [] 0 0 ;; allocate_new_blocks "r" 4 4) (demo_pool, m0)).2.2
          = [RBlk 1; RBlk 2]) as Hbl by (vm_compute; reflexivity).
  rewrite R1 in Hbl. cbn [snd] in Hbl.
  exists p, m, free0. split; [exact Hg1|]. split; [exact Hbl|].
  pose proof (plain_config _ _ Hcf Hm0) as Hm.
  destruct (remove_skipped_keeps_window "r" 4 p m [] free0 Hg1 Hm ltac:(lia))
    as (p' & m' & back & R2 & Hg2 & _ & Hkeep & Hnull & _).
  assert (mgr_block_size m = 2 /\ get_num_skipped_tokens m 4 = 2) as [E1 E2].
  { unfold mgr_config in Hcf. injection Hcf as _ Hsp Hbs _ _ _. unfold get_num_skipped_tokens. by rewrite Hsp, Hbs. }
  rewrite E1, E2 in *. rewrite Hbl in *.
  exists p', m', back. split; [exact R2|]. split; [exact Hg2|]. split.
  - rewrite Hkeep by lia. done.
  - intros b. apply Hnull; [|lia]. intros i j Hij Hj. exfalso.
    destruct j as [|[|j]]; cbn in Hj; try discriminate.
Defined.

End GroupSession.

(** ** The longest cache hit *)

Module GroupHits.
Import Pool PoolFacts PoolSession Session Accounting GroupSession Hit HitFacts.

(** [n] is the number of leading blocks, at most [N], that all groups have cached. *)
Definition leading_hits (hs : list bytes) (gids : list Z) (p : BlockPool) (N : Z) (n : nat) : Prop :=
  Z.of_nat n <= Z.min N (zlen hs) /\ (forall i, (i < n)%nat -> cached hs gids p i)
  /\ (Z.of_nat n = Z.min N (zlen hs) \/ ~ cached hs gids p n).

(** [m] is the longest aligned length that is at most [n]. *)
Definition longest_aligned (bs al : Z) (n m : nat) : Prop :=
  (m <= n)%nat /\ aligned bs al m /\ forall k, (m < k <= n)%nat -> ~ aligned bs al k.

(** C30: The lookup of full attention (also used for MLA and sink attention) returns
    exactly the longest cached prefix: as many leading blocks as all groups have
    cached, one less with EAGLE, cut to the alignment; and the columns hold, for
    each group, a cached block with the hash of that position. *)
Theorem full_attention_hit_longest {E : Env} l hs gids p free max_length spec eagle al dcp pcp
  (Hl : bhl_reads l hs) (Hgids : Forall (fun g => 0 <= g < 2 ^ 32) gids) (Hne : gids <> []) (Hp : pool_core p free)
  (Hspec : is_full spec = true) (Hbs : 0 < Manager.scaled_block_size spec dcp pcp) (Hal : 0 < al) (Hmax : 0 <= max_length) :
  let bs := Manager.scaled_block_size spec dcp pcp in
  exists n m cols, full_find_longest_cache_hit l gids p max_length spec eagle al dcp pcp = Ok cols
    /\ leading_hits hs gids p (max_length / bs) n
    /\ longest_aligned bs al (if eagle : bool then pred n else n) m
    /\ columns gids (hit_block hs p) m cols.
Proof.
  intros bs. destruct (full_find_spec l hs Hl gids Hgids Hne p free Hp max_length spec eagle al dcp pcp)
    as (n & m & cols & R1 & Hc & H1 & H2 & H3 & H4 & H5); [by rewrite Hspec|done..|]. fold bs in H1, H4, H5.
  exists n, m, cols. split; [done|]. split; [|by split].
  unfold leading_hits, zlen. split; [lia|]. split; [done|]. destruct H4 as [H4|[->|H4]]; [left; lia|left; lia|by right].
Qed.

(** C29: The lookup of sliding-window attention, without EAGLE or when the block
    size is the alignment.  The prefix it returns is aligned, every block of the
    window before its end is a cached block with the hash of its position, blocks
    before the window are cached or null, and without EAGLE no longer aligned prefix
    has its window cached (with EAGLE: none that is longer by more than the block
    that EAGLE drops has its window and one block more cached). *)
Theorem sliding_window_hit_correct {E : Env} l hs gids p free max_length a sliding_window eagle al
  (Hl : bhl_reads l hs) (Hgids : Forall (fun g => 0 <= g < 2 ^ 32) gids) (Hne : gids <> []) (Hp : pool_core p free)
  (Hbs : 0 < a_block_size a) (Hal : 0 < al) (Hsw : 1 < sliding_window) (Hmax : 0 <= max_length)
  (Hlen : max_length / a_block_size a <= zlen hs) (Heagle : eagle = false \/ a_block_size a = al) :
  let bs := a_block_size a in
  let w := Z.to_nat (cdiv (sliding_window - 1) bs) in
  exists n cols,
    window_find_longest_cache_hit l gids p max_length (SlidingWindowSpec a sliding_window) eagle al 1 1 = Ok cols
    /\ Z.of_nat n <= max_length / bs /\ window_hit hs gids p bs al w n
    /\ columns gids (window_entry hs p (n - w) n) n cols
    /\ (eagle = false -> forall n', (n < n')%nat -> Z.of_nat n' <= max_length / bs -> ~ window_hit hs gids p bs al w n')
    /\ (eagle = true -> forall n', (S n < n')%nat -> Z.of_nat n' <= max_length / bs -> ~ window_hit hs gids p bs al (S w) n').
Proof.
  intros bs w.
  exact (window_find_exact l hs Hl gids Hgids Hne p free Hp max_length a sliding_window eagle al Hbs Hal Hsw Hmax Hlen Heagle).
Qed.

(** The lookup of Mamba layers returns the longest aligned prefix whose last
    block all groups have cached: only that block is used, all before are null. *)
Theorem mamba_hit_correct {E : Env} l hs gids p free max_length bs shapes dtypes pad ty mode nspec eagle al
  (Hl : bhl_reads l hs) (Hgids : Forall (fun g => 0 <= g < 2 ^ 32) gids) (Hne : gids <> []) (Hp : pool_core p free)
  (Hbs : 0 < bs) (Hal : 0 < al) (Hmax : 0 <= max_length) (Hlen : max_length / bs <= zlen hs) :
  exists n cols,
    mamba_find_longest_cache_hit l gids p max_length (MambaSpec bs shapes dtypes pad ty mode nspec) eagle al 1 1 = Ok cols
    /\ Z.of_nat n <= max_length / bs /\ aligned bs al n
    /\ columns gids (fun i g b => if decide (S i = n) then hit_block hs p i g b else b = null_block p) n cols
    /\ forall i, (n <= i)%nat -> Z.of_nat i < max_length / bs -> aligned bs al (S i) -> ~ cached hs gids p i.
Proof.
  destruct (mamba_find_spec l hs Hl gids Hgids Hne p free Hp max_length bs shapes dtypes pad ty mode nspec eagle al
    Hbs Hal Hmax Hlen) as (n & cols & R1 & H1 & H2 & H3 & H4).
  by exists n, cols.
Qed.

(** *** A pool with cached blocks *)

Definition demo_pool1 : BlockPool :=
  match init 5 true 1 false None with Ok p => p | Raise _ => demo_pool end.

(** Four hashes, of which the blocks 2, 3 and 4 get the last three. *)
Definition four_hashes : Request :=
  {| (demo_request []) with block_hashes := [ [x01]; [x02]; [x03]; [x04] ] |}.

Definition cached_from (n : Z) : BlockPool :=
  (cache_full_blocks [RBlk 1; RBlk 2; RBlk 3; RBlk 4] n 4 1 0 ((get_new_blocks 4 demo_pool1).2, four_hashes)).2.1.

Lemma cached_from_core (n : nat) : (n <= 4)%nat -> pool_core (cached_from (Z.of_nat n)) [].
Proof.
  intros Hn. assert (init 5 true 1 false None = Ok demo_pool1) as Hinit
    by (unfold demo_pool1; by destruct (init_spec 5 true 1 false None ltac:(lia)) as (? & -> & _)).
  destruct (init_spec 5 true 1 false None ltac:(lia)) as (p & Ep & Hp & Hcf & Hd). rewrite Hinit in Ep.
  injection Ep as <-. set (q := demo_pool1) in *. unfold cached_from. fold q. clearbody q.
  change 4 with (Z.of_nat 4).
  destruct (get_new_blocks_spec q _ 4 Hp) as (p1 & E1 & Hp1 & _ & Hcf1 & Hd1); [rewrite length_fmap, length_seq; lia|]. rewrite E1. cbn [snd].
  rewrite Hcf in Hcf1. unfold config in Hcf1. injection Hcf1 as C0 C1 C2 C3 C4 C5.
  destruct (cache_full_blocks_spec p1 _ four_hashes [RBlk 1; RBlk 2; RBlk 3; RBlk 4] n 4 1 0 Hp1 C1 ltac:(lia))
    as (p2 & rq & -> & Hp2 & _).
  - by rewrite C2.
  - cbn; lia.
  - rewrite C2. cbn. lia.
  - assert (forall r, r ∈ [RBlk 1; RBlk 2; RBlk 3; RBlk 4] -> usable p1 r /\ keyof p1 r = None) as Hu.
    { intros r Hr. assert (is_blk r /\ r <> RBlk 0 /\ r ∈ RBlk <$> seq 0 5) as (Hb & Hne & Hin) by (cbn; set_solver).
      split; [split; [by rewrite C3|done]|]. destruct (Hd1 r Hb) as [_ ->]. by rewrite decide_True. }
    split.
    + intros r Hr. right. apply Hu. apply subseteq_take in Hr. by apply subseteq_drop in Hr.
    + apply NoDup_filter. apply (sublist_NoDup _ [RBlk 1; RBlk 2; RBlk 3; RBlk 4]).
      * by apply (bool_decide_unpack _).
      * etransitivity; [apply sublist_take|apply sublist_drop].
  - exact (po_core _ _ Hp2).
Qed.

Definition one_block (sliding : bool) : KVCacheSpec :=
  if sliding then SlidingWindowSpec {| demo_attention with a_block_size := 1 |} 3
  else FullAttentionSpec {| demo_attention with a_block_size := 1 |} 64 None None.

Definition four : BlockHashList := Hashes (block_hashes four_hashes).

(** A re-alignment after EAGLE's pop can leave the window without its blocks.
    With blocks of one token, an alignment of two and a window of three, when the
    last three of four blocks are cached, the lookup answers two tokens, the first
    of them in the null block: yet after two computed tokens the window of the
    next token still needs token 0 ([get_num_skipped_tokens] is 0). *)
Theorem eagle_realign_leaves_null_in_window :
  window_find_longest_cache_hit four [0] (cached_from 1) 4 (one_block true) true 2 1 1
    = Ok [ [RBlk 0; RBlk 2] ]
  /\ null_block (cached_from 1) = RBlk 0
  /\ Manager.get_num_skipped_tokens (demo_manager SlidingWindowManager (one_block true)) 2 = 0.
Proof. split; [vm_compute; reflexivity|]. split; vm_compute; reflexivity. Qed.

Lemma four_reads : bhl_reads four [ [x01]; [x02]; [x03]; [x04] ].
Proof.
  split; [done|]. intros i h Hi. do 4 (destruct i as [|i]; [injection Hi as <-; done|]). done.
Qed.

Lemma full_attention_hit_longest_witness :
  exists n m cols, full_find_longest_cache_hit four [0] (cached_from 0) 3 (one_block false) true 1 1 1 = Ok cols
    /\ leading_hits [ [x01]; [x02]; [x03]; [x04] ] [0] (cached_from 0) 3 n /\ longest_aligned 1 1 (pred n) m
    /\ cols = [ [RBlk 1; RBlk 2] ].
Proof.
  destruct (full_attention_hit_longest four _ [0] (cached_from 0) [] 3 (one_block false) true 1 1 1 four_reads
    ltac:(by repeat constructor) ltac:(done) (cached_from_core 0 ltac:(lia)) eq_refl eq_refl eq_refl ltac:(lia))
    as (n & m & cols & R1 & H1 & H2 & _).
  exists n, m, cols. split; [exact R1|]. split; [exact H1|]. split; [exact H2|].
  assert (full_find_longest_cache_hit four [0] (cached_from 0) 3 (one_block false) true 1 1 1 = Ok [ [RBlk 1; RBlk 2] ])
    as R2 by (vm_compute; reflexivity).
  rewrite R1 in R2. by injection R2.
Defined.

Lemma sliding_window_hit_correct_witness :
  exists n cols, window_find_longest_cache_hit four [0] (cached_from 1) 4 (one_block true) false 2 1 1 = Ok cols
    /\ Z.of_nat n <= 4 /\ cols = [ [RBlk 0; RBlk 0; RBlk 3; RBlk 4] ]
    /\ cached [ [x01]; [x02]; [x03]; [x04] ] [0] (cached_from 1) (pred n).
Proof.
  destruct (sliding_window_hit_correct four [ [x01]; [x02]; [x03]; [x04] ] [0] (cached_from 1) [] 4
      {| demo_attention with a_block_size := 1 |} 3 false 2 four_reads
      ltac:(by repeat constructor) ltac:(done) (cached_from_core 1 ltac:(lia)) eq_refl eq_refl eq_refl ltac:(lia) ltac:(done)
      (or_introl eq_refl)) as (n & cols & R1 & Hn & Hw & Hc & _).
  exists n, cols. split; [exact R1|]. split; [exact Hn|].
  assert (window_find_longest_cache_hit four [0] (cached_from 1) 4 (one_block true) false 2 1 1
          = Ok [ [RBlk 0; RBlk 0; RBlk 3; RBlk 4] ]) as R2 by (vm_compute; reflexivity).
  assert (cols = [ [RBlk 0; RBlk 0; RBlk 3; RBlk 4] ]) as -> by (assert (Ok cols = Ok [ [RBlk 0; RBlk 0; RBlk 3; RBlk 4] ]) as R3
    by (rewrite <- R1; exact R2); by injection R3).
  split; [done|]. assert (n = 4%nat) as ->.
  { apply Forall2_cons_inv_l in Hc as (c & cs & [Hlen _] & _ & [= <- <-]). by rewrite <- Hlen. }
  apply (proj2 Hw). vm_compute. lia.
Defined.

Lemma mamba_hit_correct_witness :
  exists n cols, mamba_find_longest_cache_hit four [0] (cached_from 1) 3
      (MambaSpec 1 [] [] None "mamba2" "align" 0) false 2 1 1 = Ok cols
    /\ Z.of_nat n <= 3 /\ cols = [ [RBlk 0; RBlk 2] ]
    /\ ~ (aligned 1 2 3 /\ cached [ [x01]; [x02]; [x03]; [x04] ] [0] (cached_from 1) 2).
Proof.
  destruct (mamba_hit_correct four [ [x01]; [x02]; [x03]; [x04] ] [0] (cached_from 1) [] 3 1 [] [] None "mamba2" "align" 0
      false 2 four_reads ltac:(by repeat constructor) ltac:(done) (cached_from_core 1 ltac:(lia)) ltac:(lia) ltac:(lia)
      ltac:(lia) ltac:(done)) as (n & cols & R1 & Hn & _ & Hc & Hmax).
  exists n, cols. split; [exact R1|]. split; [exact Hn|].
  assert (cols = [ [RBlk 0; RBlk 2] ]) as ->.
  { assert (mamba_find_longest_cache_hit four [0] (cached_from 1) 3 (MambaSpec 1 [] [] None "mamba2" "align" 0) false 2 1 1
            = Ok [ [RBlk 0; RBlk 2] ]) as R2 by (vm_compute; reflexivity).
    rewrite R1 in R2. by injection R2. }
  split; [done|]. intros [Ha Hca].
  assert (n = 2%nat) as ->.
  { apply Forall2_cons_inv_l in Hc as (c & cs & [Hlen _] & _ & [= <- <-]). by rewrite <- Hlen. }
  refine (Hmax 2%nat _ _ Ha Hca); [lia|by vm_compute].
Defined.

End GroupHits.
