(* ===== verification/Coordinator.v ===== *)
(** The coordinators of several KV-cache groups: [v1/core/kv_cache_coordinator.py].

    A coordinator owns the block pool and one manager per group; the shared
    operations run the managers in order on the pool.  The three subclasses differ
    in [find_longest_cache_hit]. *)

From Stdlib Require Import Strings.Byte.
From S2P Require Import Prelude FreeQueue Request Hashing Metrics BlockPool KVSpec SingleType.
Local Open Scope Z_scope.

Inductive coordinator_class :=
  | KVCacheCoordinatorNoPrefixCache
  | UnitaryKVCacheCoordinator
  | HybridKVCacheCoordinator.

(** An entry of [attention_groups]: the spec, the group ids, the manager class. *)
Abbreviation attention_group := (KVCacheSpec * list Z * manager_class)%type.

Record Coordinator := {
  co_class : coordinator_class;
  co_specs : list KVCacheSpec;
  co_enable_caching : bool;
  co_use_eagle : bool;
  co_pool : BlockPool;
  managers : list Manager;
  (** fields of [UnitaryKVCacheCoordinator] *)
  co_block_size : Z;
  co_dcp_world_size : Z;
  co_pcp_world_size : Z;
  (** fields of [HybridKVCacheCoordinator] *)
  co_hash_block_size : Z;
  attention_groups : list attention_group;
  lcm_block_size : Z;
}.

Module Coordinator.

(** A group whose spec is not of one of the classes of [spec_manager_map]. *)
Definition one_spec (g : GroupSpec) : res KVCacheSpec :=
  match g with OneSpec s => Ok s | UniformTypeKVCacheSpecs _ _ => Raise KeyError end.

(** [verify_and_split_kv_cache_groups]: the loop that finds a group with the same spec. *)
Fixpoint add_to_group (spec : KVCacheSpec) (i : Z) (cls : manager_class) (groups : list attention_group)
  : res (list attention_group) :=
  match groups with
  | [] => Ok [ (spec, [i], cls) ]
  | (existing_spec, group_ids, existing_cls) :: rest =>
      if bool_decide (existing_spec = spec) then
        if bool_decide (cls = existing_cls) then Ok ((existing_spec, group_ids ++ [i], existing_cls) :: rest)
        else Raise AssertionError
      else
        rest' ← add_to_group spec i cls rest;
        Ok ((existing_spec, group_ids, existing_cls) :: rest')
  end.

Fixpoint split_groups (i : Z) (groups : list (KVCacheSpec * manager_class)) (acc : list attention_group)
  : res (list attention_group) :=
  match groups with
  | [] => Ok acc
  | (spec, cls) :: rest => acc' ← add_to_group spec i cls acc; split_groups (i + 1) rest acc'
  end.

(** [sorted(..., key=lambda x: not isinstance(x\[0\], FullAttentionSpec))]: stable. *)
Definition full_first (groups : list attention_group) : list attention_group :=
  filter (fun g => is_full g.1.1 = true) groups ++ filter (fun g => is_full g.1.1 = false) groups.

(** [math.lcm( *block_sizes)] *)
Definition lcm_all (l : list Z) : Z := foldr Z.lcm 1 l.

Definition verify_and_split_kv_cache_groups (groups : list (KVCacheSpec * manager_class))
  : res (list attention_group * Z) :=
  attention_groups ← split_groups 0 groups [];
  if zlen attention_groups <=? 1 then Raise AssertionError
  else Ok (full_first attention_groups, lcm_all ((fun g => spec_block_size g.1.1) <$> attention_groups)).

Section coordinator.
Context {E : Env}.

(** [get_kv_cache_coordinator], with the constructors. *)
Fixpoint init_managers (specs : list KVCacheSpec) (enable_caching : bool) (i dcp pcp : Z)
  : M BlockPool (list Manager) :=
  match specs with
  | [] => mret []
  | s :: rest =>
      m ← Manager.init s enable_caching i dcp pcp;
      ms ← init_managers rest enable_caching (i + 1) dcp pcp;
      mret (m :: ms)
  end.

Definition init (config : KVCacheConfig) (use_eagle enable_caching enable_kv_cache_events : bool)
    (dcp_world_size pcp_world_size hash_block_size : Z) (metrics_collector : option KVCacheMetricsCollector)
  : res Coordinator :=
  let groups := kv_cache_groups config in
  let cls := if negb enable_caching then KVCacheCoordinatorNoPrefixCache
             else if zlen groups =? 1 then UnitaryKVCacheCoordinator else HybridKVCacheCoordinator in
  pool ← Pool.init (num_blocks config) enable_caching hash_block_size enable_kv_cache_events metrics_collector;
  specs ← mapM (fun g => one_spec (kv_cache_spec g)) groups;
  match init_managers specs enable_caching 0 dcp_world_size pcp_world_size pool with
  | (Raise e, _) => Raise e
  | (Ok ms, pool) =>
      let c := {| co_class := cls; co_specs := specs; co_enable_caching := enable_caching;
                  co_use_eagle := use_eagle; co_pool := pool; managers := ms; co_block_size := 0;
                  co_dcp_world_size := dcp_world_size; co_pcp_world_size := pcp_world_size;
                  co_hash_block_size := hash_block_size; attention_groups := []; lcm_block_size := 0 |} in
      match cls with
      | KVCacheCoordinatorNoPrefixCache => Ok c
      | UnitaryKVCacheCoordinator =>
          match specs with
          | [] => Raise IndexError
          | spec :: _ =>
              let bs := spec_block_size spec in
              let bs := if 1 <? dcp_world_size then bs * dcp_world_size else bs in
              let bs := if 1 <? pcp_world_size then bs * pcp_world_size else bs in
              if enable_caching && negb (hash_block_size =? bs) then Raise AssertionError
              else Ok {| c with co_block_size := bs |}
          end
      | HybridKVCacheCoordinator =>
          if hash_block_size =? 0 then (match specs with [] => Raise AssertionError | _ => Raise ZeroDivisionError end)
          else if negb (forallb (fun s => spec_block_size s mod hash_block_size =? 0) specs) then Raise AssertionError
          else if negb ((dcp_world_size =? 1) && (pcp_world_size =? 1)) then Raise AssertionError
          else
            '(groups, lcm) ← verify_and_split_kv_cache_groups (zip specs (mgr_class <$> ms));
            Ok {| c with attention_groups := groups; lcm_block_size := lcm |}
      end
  end.

(** ** Shared operations *)

Abbreviation CM := (M Coordinator).

(** Run a method of the [i]-th manager on the shared pool. *)
Definition on_manager {A} (i : nat) (f : M (BlockPool * Manager) A) : CM A := fun c =>
  match managers c !! i with
  | None => (Raise IndexError, c)
  | Some m =>
      let '(r, (p, m')) := f (co_pool c, m) in
      (r, {| c with co_pool := p; managers := <[i := m']> (managers c) |})
  end.

(** [for i, manager in enumerate(self.single_type_managers)], with the results. *)
Definition each_manager {A} (f : nat -> Manager -> M (BlockPool * Manager) A) : CM (list A) :=
  n ← gets (fun c => length (managers c));
  mmapM (seq 0 n) (fun i => on_manager i (m ← gets snd; f i m)).

Definition nth_blocks (i : nat) (new_computed_blocks : list (list ref)) : res (list ref) :=
  py_get new_computed_blocks (Z.of_nat i).

Definition is_cross (m : Manager) : bool := bool_decide (mgr_class m = CrossAttentionManager).

Definition get_num_blocks_to_allocate (request_id : string) (num_tokens : Z)
    (new_computed_blocks : list (list ref)) (num_encoder_tokens total_computed_tokens num_tokens_main_model : Z)
  : CM Z :=
  l ← each_manager (fun i m =>
        if is_cross m then
          Manager.get_num_blocks_to_allocate request_id num_encoder_tokens [] 0 num_encoder_tokens
        else
          blocks ← lift_res (nth_blocks i new_computed_blocks);
          Manager.get_num_blocks_to_allocate request_id num_tokens blocks total_computed_tokens num_tokens_main_model);
  mret (foldl Z.add 0 l).

Definition allocate_new_computed_blocks (request_id : string) (new_computed_blocks : list (list ref))
    (num_local_computed_tokens num_external_computed_tokens : Z) : CM unit :=
  each_manager (fun i _ =>
    blocks ← lift_res (nth_blocks i new_computed_blocks);
    Manager.allocate_new_computed_blocks request_id blocks num_local_computed_tokens num_external_computed_tokens) ;;
  mret tt.

Definition allocate_new_blocks (request_id : string) (num_tokens num_tokens_main_model num_encoder_tokens : Z)
  : CM (list (list ref)) :=
  each_manager (fun _ m =>
    Manager.allocate_new_blocks request_id (if is_cross m then num_encoder_tokens else num_tokens)
      num_tokens_main_model).

Definition free (request_id : string) : CM unit :=
  each_manager (fun _ _ => Manager.free request_id) ;; mret tt.

Definition remove_skipped_blocks (request_id : string) (total_computed_tokens : Z) : CM unit :=
  each_manager (fun _ _ => Manager.remove_skipped_blocks request_id total_computed_tokens) ;; mret tt.

Definition get_num_common_prefix_blocks (running_request_id : string) : CM (list Z) :=
  cls ← gets co_class;
  match cls with
  | KVCacheCoordinatorNoPrefixCache => gets (fun c => replicate (length (managers c)) 0)
  | _ => each_manager (fun _ _ => Manager.get_num_common_prefix_blocks running_request_id)
  end.

Definition get_blocks (request_id : string) (c : Coordinator) : list (list ref) :=
  Manager.blocks_of request_id <$> managers c.

Definition new_step_starts : CM unit := each_manager (fun _ _ => Manager.new_step_starts) ;; mret tt.

(** Caching also runs on the request, whose cached embedding hashes it may extend. *)
Definition on_manager_request (i : nat) (f : M (BlockPool * Manager * Request) unit)
  : M (Coordinator * Request) unit := fun s =>
  match managers s.1 !! i with
  | None => (Raise IndexError, s)
  | Some m =>
      let '(r, (p, m', request)) := f (co_pool s.1, m, s.2) in
      (r, ({| (s.1) with co_pool := p; managers := <[i := m']> (managers s.1) |}, request))
  end.

Definition cache_blocks (num_computed_tokens : Z) : M (Coordinator * Request) unit :=
  n ← gets (fun s => length (managers s.1));
  mfor (seq 0 n) (fun i => on_manager_request i (Manager.cache_blocks num_computed_tokens)).

(** ** The longest hit over all groups *)

(** [_get_block_hashes] *)
Definition group_block_hashes (c : Coordinator) (spec : KVCacheSpec) (block_hashes : list bytes) : res BlockHashList :=
  if spec_block_size spec =? co_hash_block_size c then Ok (Hashes block_hashes)
  else with_block_size block_hashes (co_hash_block_size c) (spec_block_size spec).

(** [for group_id, blocks in zip(group_ids, hit_blocks): hit_blocks_by_group\[group_id\] = blocks] *)
Fixpoint store_hits (group_ids : list Z) (hit_blocks : list (list ref)) (by_group : list (option (list ref)))
  : res (list (option (list ref))) :=
  match group_ids, hit_blocks with
  | g :: gs, b :: bs => by_group' ← py_set by_group g (Some b); store_hits gs bs by_group'
  | _, _ => Ok by_group
  end.

Section hybrid.
(** The lookup of one attention group, up to a length. *)
Context (find : attention_group -> Z -> res (list (list ref))).

(** One pass over the attention groups. *)
Fixpoint hybrid_pass (groups : list attention_group) (curr_hit_length : Z) (by_group : list (option (list ref)))
  : res (Z * list (option (list ref))) :=
  match groups with
  | [] => Ok (curr_hit_length, by_group)
  | (spec, group_ids, cls) :: rest =>
      g0 ← py_get group_ids 0;
      cached_blocks ← py_get by_group g0;
      if is_full spec && bool_decide (is_Some cached_blocks) then
        let num_blocks := curr_hit_length / spec_block_size spec in
        hybrid_pass rest (num_blocks * spec_block_size spec) by_group
      else
        hit_blocks ← find (spec, group_ids, cls) curr_hit_length;
        b0 ← py_get hit_blocks 0;
        by_group' ← store_hits group_ids hit_blocks by_group;
        hybrid_pass rest (zlen b0 * spec_block_size spec) by_group'
  end.

(** [while True]: a pass that shortens the hit starts another one. *)
Fixpoint hybrid_loop (fuel : nat) (is_simple_hybrid : bool) (groups : list attention_group) (hit_length : Z)
    (by_group : list (option (list ref))) : res (Z * list (option (list ref))) :=
  match fuel with
  | O => Raise Diverges
  | S fuel' =>
      '(curr_hit_length, by_group) ← hybrid_pass groups hit_length by_group;
      if hit_length <=? curr_hit_length then Ok (hit_length, by_group)
      else if is_simple_hybrid then Ok (curr_hit_length, by_group)
      else hybrid_loop fuel' is_simple_hybrid groups curr_hit_length by_group
  end.

(** [del blks\[num_blocks:\]] *)
Fixpoint truncate_hits (group_ids : list Z) (num_blocks : Z) (by_group : list (option (list ref)))
  : res (list (option (list ref))) :=
  match group_ids with
  | [] => Ok by_group
  | g :: gs =>
      o ← py_get by_group g;
      by_group' ← match o with
                  | Some blks => py_set by_group g (Some (py_upto blks num_blocks))
                  | None => Ok by_group
                  end;
      truncate_hits gs num_blocks by_group'
  end.

Definition hybrid_find (groups : list attention_group) (num_groups : nat) (max_cache_hit_length : Z)
  : res (list (list ref) * Z) :=
  match groups with
  | [] => Raise IndexError
  | (spec, group_ids, _) :: _ =>
      let is_simple_hybrid := (zlen groups =? 2) && is_full spec in
      '(hit_length, by_group) ← hybrid_loop (S (Z.to_nat max_cache_hit_length)) is_simple_hybrid groups
                                  max_cache_hit_length (replicate num_groups None);
      by_group' ← (if is_full spec then truncate_hits group_ids (hit_length / spec_block_size spec) by_group
                   else Ok by_group);
      Ok (fmap (M := list) (default []) by_group', hit_length)
  end.
End hybrid.

(** The lookup of one attention group of the hybrid coordinator. *)
Definition find_in_group (c : Coordinator) (block_hashes : list bytes) (g : attention_group) (max_length : Z)
  : res (list (list ref)) :=
  let '(spec, group_ids, cls) := g in
  l ← group_block_hashes c spec block_hashes;
  Hit.find_longest_cache_hit l group_ids (co_pool c) cls max_length spec (co_use_eagle c) (lcm_block_size c) 1 1.

Definition find_longest_cache_hit (c : Coordinator) (block_hashes : list bytes) (max_cache_hit_length : Z)
  : res (list (list ref) * Z) :=
  match co_class c with
  | KVCacheCoordinatorNoPrefixCache => Ok (replicate (length (managers c)) [], 0)
  | UnitaryKVCacheCoordinator =>
      match managers c, co_specs c with
      | m :: _, spec :: _ =>
          hit_blocks ← Hit.find_longest_cache_hit (Hashes block_hashes) [0] (co_pool c) (mgr_class m)
                         max_cache_hit_length spec (co_use_eagle c) (co_block_size c)
                         (co_dcp_world_size c) (co_pcp_world_size c);
          b0 ← py_get hit_blocks 0;
          Ok (hit_blocks, zlen b0 * co_block_size c)
      | _, _ => Raise IndexError
      end
  | HybridKVCacheCoordinator =>
      hybrid_find (find_in_group c block_hashes) (attention_groups c) (length (managers c)) max_cache_hit_length
  end.

End coordinator.
End Coordinator.

(** ** The fixed point of the hybrid coordinator *)

Module Hybrid.
Import Coordinator HitFacts.

Definition g_block_size (g : attention_group) : Z := spec_block_size g.1.1.
Definition g_ids (g : attention_group) : list Z := g.1.2.
Definition g_full (g : attention_group) : bool := is_full g.1.1.

(** What the coordinator relies on for the lookup of an attention group: up to
    [limit] tokens it answers columns of equal length, not longer than asked and
    aligned; [good] is what the group guarantees of its columns.  A prefix of a hit
    of full attention is a hit. *)
Class GroupLookup (find : attention_group -> Z -> res (list (list ref))) (al limit : Z)
    (good : nat -> list (list ref) -> Prop) (g : attention_group) : Prop := {
  gl_size : 0 < g_block_size g /\ (g_block_size g | al);
  gl_find max : 0 <= max <= limit ->
    exists n cols, find g max = Ok cols /\ Z.of_nat n * g_block_size g <= max /\ aligned (g_block_size g) al n
      /\ length cols = length (g_ids g) /\ Forall (fun c => length c = n) cols /\ good n cols;
  gl_take n m cols : g_full g = true -> good n cols -> (m <= n)%nat -> good m (take m <$> cols);
}.

Section hybrid.
Context (find : attention_group -> Z -> res (list (list ref))) (al limit : Z) (Hal : 0 < al).
Context (good : attention_group -> nat -> list (list ref) -> Prop).
Context (num : nat).

Definition ids_ok (g : attention_group) : Prop :=
  g_ids g <> [] /\ NoDup (g_ids g) /\ Forall (fun i => 0 <= i < Z.of_nat num) (g_ids g).

(** The columns of [g] stored for its groups, [n] blocks long. *)
Definition stored (by_group : list (option (list ref))) (g : attention_group) (n : nat) : Prop :=
  exists cols, good g n cols /\ length cols = length (g_ids g) /\ Forall (fun c => length c = n) cols
    /\ Forall2 (fun i c => by_group !! Z.to_nat i = Some (Some c)) (g_ids g) cols.

Lemma store_hits_spec ids cols by_group : NoDup ids -> Forall (fun i => 0 <= i < zlen by_group) ids ->
  length cols = length ids ->
  exists by', store_hits ids cols by_group = Ok by' /\ length by' = length by_group
    /\ Forall2 (fun i c => by' !! Z.to_nat i = Some (Some c)) ids cols
    /\ (forall i, 0 <= i -> i ∉ ids -> by' !! Z.to_nat i = by_group !! Z.to_nat i).
Proof.
  revert cols by_group. induction ids as [|i ids IH]; intros [|c cols] by_group Hnd Hb Hl; try discriminate.
  - by exists by_group.
  - apply NoDup_cons in Hnd as [Hi Hnd]. apply Forall_cons in Hb as [Hbi Hb]. cbn [store_hits].
    rewrite py_set_nonneg by done. cbn [mbind res_bind].
    destruct (IH cols (<[Z.to_nat i := Some c]> by_group)) as (by' & -> & Hlen & Hst & Hrest).
    { done. } { unfold zlen. by rewrite length_insert. } { by injection Hl. }
    exists by'. rewrite length_insert in Hlen. do 2 (split; [done|]). split.
    + constructor; [|done]. rewrite Hrest by (lia || done). apply list_lookup_insert_eq. unfold zlen in *. lia.
    + intros i' H0 Hni. apply not_elem_of_cons in Hni as [Hne Hni]. rewrite Hrest by done.
      apply list_lookup_insert_ne. lia.
Qed.

Lemma stored_other by_group by' g n : ids_ok g -> stored by_group g n ->
  (forall i, i ∈ g_ids g -> by' !! Z.to_nat i = by_group !! Z.to_nat i) -> stored by' g n.
Proof.
  intros (_ & _ & Hb) (cols & H1 & H2 & H3 & H4) Hsame. exists cols. do 3 (split; [done|]).
  apply Forall2_same_length_lookup. split; [done|]. intros j i c Hi Hc. rewrite Hsame by by eapply list_elem_of_lookup_2.
  rewrite Forall2_lookup in H4. specialize (H4 j). rewrite Hi, Hc in H4. by inversion H4.
Qed.

Lemma elem_of_concat_fmap i g (gs : list attention_group) : g ∈ gs -> i ∈ g_ids g -> i ∈ concat (g_ids <$> gs).
Proof.
  intros Hg Hi. apply list_elem_of_In, in_concat. exists (g_ids g). rewrite <- !list_elem_of_In.
  split; [|done]. by apply list_elem_of_fmap_2.
Qed.

(** The answer for one group that is looked up. *)
Lemma lookup_step g h by_group : GroupLookup find al limit (good g) g -> ids_ok g -> length by_group = num ->
  0 <= h <= limit ->
  exists n cols b0 by', find g h = Ok cols /\ py_get cols 0 = Ok b0 /\ zlen b0 = Z.of_nat n
    /\ store_hits (g_ids g) cols by_group = Ok by' /\ length by' = num
    /\ stored by' g n /\ Z.of_nat n * g_block_size g <= h /\ (al | Z.of_nat n * g_block_size g)
    /\ (forall i, 0 <= i -> i ∉ g_ids g -> by' !! Z.to_nat i = by_group !! Z.to_nat i).
Proof.
  intros HL Hid Hlen Hh. pose proof Hid as (Hne & Hnd & Hb).
  destruct (gl_find h Hh) as (n & cols & R1 & Hn & Ha & Hl & Hc & Hg).
  destruct (store_hits_spec (g_ids g) cols by_group Hnd) as (by' & R2 & Hl' & Hst & Hrest); [|done|].
  { unfold zlen. by rewrite Hlen. }
  assert (exists b0, cols !! 0%nat = Some b0) as [b0 Hb0].
  { apply lookup_lt_is_Some. rewrite Hl. destruct (g_ids g); [done|simpl; lia]. }
  exists n, cols, b0, by'. split; [done|]. split; [rewrite py_get_nonneg by lia; by change (Z.to_nat 0) with 0%nat; rewrite Hb0|].
  split. { rewrite Forall_forall in Hc. unfold zlen. rewrite Hc; [done|]. by eapply list_elem_of_lookup_2. }
  do 2 (split; [done || congruence|]). split; [by exists cols|]. split; [done|]. split; [|done].
  destruct Ha as [Ha|Ha]; [rewrite <- Ha; by exists (Z.of_nat n)|]. by apply Z.mod_divide in Ha; [|lia].
Qed.

Lemma g_triple g : g = (g.1.1, g_ids g, g.2).
Proof. by destruct g as [[? ?] ?]. Qed.

(** A pass over groups without full attention. *)
Lemma pass_others gs : forall h by_group,
  Forall (fun g => GroupLookup find al limit (good g) g /\ ids_ok g /\ g_full g = false) gs ->
  NoDup (concat (g_ids <$> gs)) -> length by_group = num -> 0 <= h <= limit ->
  exists h' by', hybrid_pass find gs h by_group = Ok (h', by') /\ 0 <= h' <= h /\ length by' = num
    /\ (gs <> [] -> (al | h'))
    /\ (forall g, g ∈ gs -> exists n, stored by' g n /\ h' <= Z.of_nat n * g_block_size g <= h
          /\ (gs = [g] -> h' = Z.of_nat n * g_block_size g))
    /\ (forall i, 0 <= i -> i ∉ concat (g_ids <$> gs) -> by' !! Z.to_nat i = by_group !! Z.to_nat i).
Proof.
  induction gs as [|g gs IH]; intros h by_group Hgs Hnd Hlen Hh.
  - exists h, by_group. split_and!; try done; try lia. intros g Hg. by apply not_elem_of_nil in Hg.
  - apply Forall_cons in Hgs as [(HL & Hid & Hfull) Hgs]. cbn [fmap list_fmap concat] in Hnd.
    apply NoDup_app in Hnd as (_ & Hdis & Hnd).
    destruct (lookup_step g h by_group HL Hid Hlen Hh) as (n & cols & b0 & by1 & R1 & R2 & R3 & R4 & Hl1 & Hst & Hn & Hd & Hrest).
    pose proof (proj1 gl_size) as Hpos.
    assert (0 <= Z.of_nat n * g_block_size g) as Hn0 by nia.
    destruct (IH (Z.of_nat n * g_block_size g) by1 Hgs Hnd Hl1 ltac:(lia)) as (h' & by' & R5 & Hh' & Hl' & Hdv & Hall & Hr').
    exists h', by'. split.
    { rewrite (g_triple g) at 1. cbn [hybrid_pass]. destruct Hid as (Hne & _ & Hb).
      assert (exists i0 ids, g_ids g = i0 :: ids) as (i0 & ids & Eids) by (destruct (g_ids g); [done|by eexists _, _]).
      rewrite Eids in Hb |- *. apply Forall_cons in Hb as [Hb0 _].
      change (py_get (i0 :: ids) 0) with (Ok i0). cbn [mbind res_bind].
      rewrite py_get_nonneg by lia.
      destruct (lookup_lt_is_Some_2 by_group (Z.to_nat i0) ltac:(lia)) as [o Ho]. rewrite Ho.
      cbn [res_of_option mbind res_bind]. change (is_full g.1.1) with (g_full g). rewrite Hfull. cbn [andb].
      rewrite <- Eids, <- (g_triple g), R1. cbn [mbind res_bind]. rewrite R2. cbn [mbind res_bind].
      rewrite R4. cbn [mbind res_bind]. rewrite R3. exact R5. }
    split; [lia|]. split; [done|]. split; [|split].
    + intros _. destruct gs as [|g2 gs]; [|by apply Hdv]. cbn [hybrid_pass] in R5. by injection R5 as <- <-.
    + intros g' [->|Hg']%elem_of_cons.
      * exists n. split; [|split; [lia|intros [= ->]; cbn [hybrid_pass] in R5; by injection R5 as <- <-]].
        apply (stored_other by1); [done|done|]. intros i Hi. apply Hr'; [|by apply Hdis]. destruct Hid as (_ & _ & Hb). rewrite Forall_forall in Hb.
        by apply Hb in Hi as [? _].
      * destruct (Hall g' Hg') as (n' & ? & ? & _). exists n'. split; [done|split; [lia|]].
        intros [= -> ->]. by apply not_elem_of_nil in Hg'.
    + cbn [fmap list_fmap concat]. intros i Hi Hni. rewrite elem_of_app in Hni. rewrite Hr' by tauto. apply Hrest; tauto.
Qed.

(** *** With full attention first *)

Context (F : option attention_group) (Os : list attention_group).
Context (HF : match F with
              | Some g => GroupLookup find al limit (good g) g /\ ids_ok g /\ g_full g = true
              | None => True
              end).
Context (HOs : Forall (fun g => GroupLookup find al limit (good g) g /\ ids_ok g /\ g_full g = false) Os).
Context (Hne : Os <> []).

Definition all_groups : list attention_group :=
  match F with Some g => g :: Os | None => Os end.

Context (Hnd : NoDup (concat (g_ids <$> all_groups))).

(** Full attention is not looked up yet, or its hit reaches [h]. *)
Definition full_none (by_group : list (option (list ref))) : Prop :=
  match F with Some g => forall i, i ∈ g_ids g -> by_group !! Z.to_nat i = Some None | None => True end.
Definition full_stored (h : Z) (by_group : list (option (list ref))) : Prop :=
  match F with
  | Some g => exists n, stored by_group g n /\ h <= Z.of_nat n * g_block_size g
  | None => True
  end.
Definition others_stored (h h' : Z) (by_group : list (option (list ref))) : Prop :=
  forall g, g ∈ Os -> exists n, stored by_group g n /\ h' <= Z.of_nat n * g_block_size g <= h
    /\ (Os = [g] -> h' = Z.of_nat n * g_block_size g).

Lemma stored_after by' by_group g n (ids : list Z) : ids_ok g -> stored by_group g n ->
  (forall i, i ∈ g_ids g -> i ∉ ids) -> (forall i, 0 <= i -> i ∉ ids -> by' !! Z.to_nat i = by_group !! Z.to_nat i) ->
  stored by' g n.
Proof.
  intros Hid Hst Hdis Hrest. apply (stored_other by_group); [done|done|]. intros i Hi. apply Hrest; [|by apply Hdis].
  destruct Hid as (_ & _ & Hb). rewrite Forall_forall in Hb. by apply Hb in Hi as [? _].
Qed.

Lemma pass_spec h by_group : length by_group = num -> 0 <= h <= limit ->
  full_none by_group \/ full_stored h by_group ->
  exists h' by', hybrid_pass find all_groups h by_group = Ok (h', by') /\ 0 <= h' <= h /\ length by' = num
    /\ (al | h') /\ others_stored h h' by' /\ full_stored h' by'.
Proof.
  intros Hlen Hh Hfull. unfold all_groups, full_none, full_stored in *. destruct F as [g|].
  2: { destruct (pass_others Os h by_group HOs Hnd Hlen Hh) as (h' & by' & R1 & H1 & H2 & H3 & H4 & _).
       exists h', by'. split_and!; try done; try lia. by apply H3. }
  destruct HF as (HL & Hid & Hf). cbn [fmap list_fmap concat] in Hnd.
  pose proof Hnd as (_ & Hdis & HndO)%NoDup_app. pose proof (proj1 gl_size) as Hpos.
  pose proof Hid as (Hn0 & _ & Hb).
  assert (exists i0 ids, g_ids g = i0 :: ids) as (i0 & ids & Eids) by (destruct (g_ids g); [done|by eexists _, _]).
  assert (i0 ∈ g_ids g) as Hi0 by (rewrite Eids; by left).
  assert (0 <= i0 < Z.of_nat num) as Hb0 by (rewrite Forall_forall in Hb; by apply Hb).
  assert (exists (o : option (list ref)) n h1 by1, by_group !! Z.to_nat i0 = Some o
    /\ (match o with
        | Some _ => by1 = by_group /\ h1 = h / g_block_size g * g_block_size g
        | None => exists cols b0, find g h = Ok cols /\ py_get cols 0 = Ok b0 /\ zlen b0 * g_block_size g = h1
                    /\ store_hits (g_ids g) cols by_group = Ok by1
        end)
    /\ length by1 = num /\ 0 <= h1 <= h /\ stored by1 g n /\ h1 <= Z.of_nat n * g_block_size g)
    as (o & n & h1 & by1 & Ho & Hcase & Hl1 & Hh1 & Hst1 & Hn1).
  { destruct Hfull as [Hnone|(n & Hst & Hn)].
    - destruct (lookup_step g h by_group HL Hid Hlen Hh) as (n & cols & b0 & by1 & R1 & R2 & R3 & R4 & Hl1 & Hst & Hn & Hd & _).
      exists None, n, (Z.of_nat n * g_block_size g), by1. split; [by apply Hnone|].
      split; [exists cols, b0; by rewrite R3|]. split_and!; try done; try lia; nia.
    - pose proof Hst as (cols & _ & Hlc & _ & H4).
      destruct cols as [|c cols]; [by rewrite Eids in Hlc|]. rewrite Eids in H4. apply Forall2_cons in H4 as [Hc _].
      exists (Some c), n, (h / g_block_size g * g_block_size g), by_group. split; [done|]. split; [done|]. split; [done|].
      pose proof (Z.mul_div_le h _ Hpos). pose proof (Z.div_pos h _ (proj1 Hh) Hpos). split; [nia|]. split; [done|lia]. }
  destruct (pass_others Os h1 by1 HOs HndO Hl1 ltac:(lia)) as (h' & by' & R5 & H1 & H2 & H3 & H4 & H5).
  exists h', by'. split.
  { rewrite (g_triple g) at 1. cbn [hybrid_pass]. rewrite Eids.
    change (py_get (i0 :: ids) 0) with (Ok i0). cbn [mbind res_bind].
    rewrite py_get_nonneg, Ho by lia. cbn [res_of_option mbind res_bind].
    change (is_full g.1.1) with (g_full g). rewrite Hf. cbn [andb]. destruct o as [c|].
    - rewrite bool_decide_eq_true_2 by by eexists. destruct Hcase as [-> ->]. exact R5.
    - rewrite bool_decide_eq_false_2 by by intros []. destruct Hcase as (cols & b0 & R1 & R2 & R3 & R4).
      rewrite <- Eids, <- (g_triple g), R1. cbn [mbind res_bind]. rewrite R2. cbn [mbind res_bind].
      rewrite R4. cbn [mbind res_bind]. change (spec_block_size g.1.1) with (g_block_size g). rewrite R3. exact R5. }
  split; [lia|]. split; [done|]. split; [by apply H3|]. split.
  - intros g' Hg'. destruct (H4 g' Hg') as (n' & Hs' & Hb' & He'). exists n'. split; [done|split; [lia|done]].
  - exists n. split; [|lia]. by eapply stored_after.
Qed.

(** The loop reaches a length that all groups share, within the fuel. *)
Lemma loop_spec simple fuel : forall h by_group, (Z.to_nat h < fuel)%nat ->
  length by_group = num -> 0 <= h <= limit -> full_none by_group \/ full_stored h by_group ->
  (simple = true -> exists g, Os = [g]) ->
  exists hit by', hybrid_loop find fuel simple all_groups h by_group = Ok (hit, by') /\ 0 <= hit <= h
    /\ length by' = num /\ (al | hit) /\ others_stored hit hit by' /\ full_stored hit by'.
Proof.
  induction fuel as [|fuel IH]; intros h by_group Hfuel Hlen Hh Hfull Hsimple; [lia|]. cbn [hybrid_loop].
  destruct (pass_spec h by_group Hlen Hh Hfull) as (h' & by' & -> & Hh' & Hl' & Hdv & Hoth & Hfst). cbn [mbind res_bind].
  destruct (Z.leb_spec h h') as [Hle|Hlt].
  - assert (h' = h) as -> by lia. by exists h, by'.
  - destruct simple.
    + destruct (Hsimple eq_refl) as [g HO]. exists h', by'. split_and!; try done; try lia.
      intros g' Hg'. destruct (Hoth g' Hg') as (n & Hs & Hb & He). exists n. split; [done|].
      rewrite HO in Hg'. apply list_elem_of_singleton in Hg' as ->. specialize (He HO). split; [lia|done].
    + destruct (IH h' by') as (hit & by2 & R1 & H1 & H2); [lia|done|lia|by right|done|].
      exists hit, by2. split; [done|]. split; [lia|done].
Qed.

Lemma truncate_spec ids cols (k : nat) by_group : NoDup ids -> Forall (fun i => 0 <= i) ids ->
  Forall2 (fun i c => by_group !! Z.to_nat i = Some (Some c)) ids cols ->
  exists by', truncate_hits ids (Z.of_nat k) by_group = Ok by'
    /\ length by' = length by_group
    /\ Forall2 (fun i c => by' !! Z.to_nat i = Some (Some c)) ids (take k <$> cols)
    /\ (forall i, 0 <= i -> i ∉ ids -> by' !! Z.to_nat i = by_group !! Z.to_nat i).
Proof.
  intros Hnd0 Hb Hst. revert by_group Hst. revert cols.
  induction ids as [|i ids IH]; intros cols by_group Hst.
  - apply Forall2_nil_inv_l in Hst as ->. by exists by_group.
  - apply Forall2_cons_inv_l in Hst as (c & cols' & Hc & Hst & ->). apply NoDup_cons in Hnd0 as [Hi Hnd0].
    apply Forall_cons in Hb as [Hi0 Hb]. cbn [truncate_hits]. rewrite py_get_nonneg, Hc by lia.
    cbn [res_of_option mbind res_bind]. pose proof (lookup_lt_Some _ _ _ Hc).
    rewrite py_set_nonneg by (unfold zlen; lia). cbn [mbind res_bind].
    rewrite py_upto_nonneg, Nat2Z.id by lia.
    assert (forall j, 0 <= j -> j <> i -> <[Z.to_nat i := Some (take k c)]> by_group !! Z.to_nat j = by_group !! Z.to_nat j) as Hne'.
    { intros j Hj0 Hj. apply list_lookup_insert_ne. lia. }
    destruct (IH Hnd0 Hb cols' (<[Z.to_nat i := Some (take k c)]> by_group)) as (by' & -> & Hlen' & H1 & H2).
    { apply Forall2_same_length_lookup. split; [by eapply Forall2_length|]. intros j i' c' Hj Hc'.
      rewrite Forall2_lookup in Hst. specialize (Hst j). rewrite Hj, Hc' in Hst. inversion Hst; subst.
      apply list_elem_of_lookup_2 in Hj. rewrite Forall_forall in Hb. rewrite Hne'; [done|by apply Hb|by intros ->]. }
    exists by'. split; [done|]. split; [by rewrite Hlen', length_insert|]. split.
    + rewrite fmap_cons. constructor; [|done]. rewrite H2 by done. by apply list_lookup_insert_eq.
    + intros j Hj0 Hj. apply not_elem_of_cons in Hj as [Hji Hj]. rewrite H2 by done. by apply Hne'.
Qed.

(** The columns of [g] in the answer. *)
Definition answered (blocks : list (list ref)) (hit : Z) (g : attention_group) : Prop :=
  exists (n : nat) cols, Z.of_nat n * g_block_size g = hit /\ good g n cols
    /\ Forall2 (fun i c => blocks !! Z.to_nat i = Some c /\ length c = n) (g_ids g) cols.

Lemma answered_of by_group g n hit : stored by_group g n -> Z.of_nat n * g_block_size g = hit ->
  answered (default [] <$> by_group) hit g.
Proof.
  intros (cols & Hg & Hl & Hc & Hst) Hn. exists n, cols. do 2 (split; [done|]).
  apply Forall2_same_length_lookup. split; [done|]. intros j i c Hi Hcj.
  rewrite Forall2_lookup in Hst. specialize (Hst j). rewrite Hi, Hcj in Hst. inversion Hst as [? ? Hs| ]; subst.
  rewrite list_lookup_fmap, Hs. split; [done|]. rewrite Forall_forall in Hc. apply Hc. by eapply list_elem_of_lookup_2.
Qed.

Lemma hybrid_find_eq g0 rest groups max : groups = g0 :: rest ->
  hybrid_find find groups num max =
    '(hit_length, by_group) ← hybrid_loop find (S (Z.to_nat max)) ((zlen groups =? 2) && g_full g0) groups max
                                (replicate num None);
    by_group' ← (if g_full g0 then truncate_hits (g_ids g0) (hit_length / g_block_size g0) by_group else Ok by_group);
    Ok (fmap (M := list) (default []) by_group', hit_length).
Proof. intros ->. by destruct g0 as [ [? ?] ?]. Qed.

Lemma hybrid_find_spec max : 0 <= max <= limit ->
  exists blocks hit, hybrid_find find all_groups num max = Ok (blocks, hit) /\ 0 <= hit <= max /\ (al | hit)
    /\ length blocks = num /\ forall g, g ∈ all_groups -> answered blocks hit g.
Proof.
  intros Hmax. assert (exists g0 rest, all_groups = g0 :: rest /\ g_full g0 = bool_decide (is_Some F)
    /\ (F = Some g0 \/ F = None) /\ ((zlen all_groups =? 2) && g_full g0 = true -> exists g, Os = [g])) as (g0 & rest & Eall & Hg0 & HF0 & Hsimple).
  { unfold all_groups. destruct F as [g|].
    - exists g, Os. destruct HF as (_ & _ & ->). split_and!; [done|done|by left|]. intros Hs. breflect.
      destruct Os as [|o [|o' os]]; [done|by exists o|]. unfold zlen in *. cbn [length] in *. apply Z.eqb_eq in H. lia.
    - destruct Os as [|o os]; [done|]. apply Forall_cons in HOs as [(_ & _ & Hf) _]. exists o, os. rewrite Hf.
      split_and!; [done|done|by right|]. rewrite andb_false_r. done. }
  set (simple := (zlen all_groups =? 2) && g_full g0) in *.
  destruct (loop_spec simple (S (Z.to_nat max)) max (replicate num None)) as (hit & by1 & R1 & Hhit & Hl1 & Hdv & Hoth & Hfst).
  { lia. } { apply length_replicate. } { done. }
  { left. unfold full_none. destruct F as [g|]; [|done]. destruct HF as (_ & (_ & _ & Hb) & _). intros i Hi.
    rewrite Forall_forall in Hb. apply Hb in Hi. apply lookup_replicate. split; [done|lia]. }
  { exact Hsimple. }
  assert (hybrid_find find all_groups num max =
    by_group' ← (if g_full g0 then truncate_hits (g_ids g0) (hit / g_block_size g0) by1 else Ok by1);
    Ok (fmap (M := list) (default []) by_group', hit)) as ->.
  { rewrite (hybrid_find_eq g0 rest) by done. fold simple. by rewrite R1. }
  rewrite Hg0. destruct HF0 as [EF|EF].
  - rewrite bool_decide_eq_true_2 by (rewrite EF; by eexists). unfold full_stored in Hfst. rewrite EF in Hfst, HF.
    destruct Hfst as (n & (cols & Hgd & Hlc & Hc & Hst) & Hn). destruct HF as (HL & Hid & Hf).
    destruct gl_size as [Hpos Hdiv]. assert (g_block_size g0 | hit) as [q Hq] by by etransitivity.
    assert (0 <= q) as Hq0 by nia. rewrite Hq, Z.div_mul by lia. replace q with (Z.of_nat (Z.to_nat q)) by lia.
    pose proof Hid as (_ & Hnd0 & Hb).
    destruct (truncate_spec (g_ids g0) cols (Z.to_nat q) by1 Hnd0) as (by2 & -> & Hl2 & Hst2 & Hrest); [|done|].
    { eapply Forall_impl; [exact Hb|]. intros i Hi. cbn in *. lia. }
    cbn [mbind res_bind]. rewrite Hl1 in Hl2.
    eexists _, hit. split; [by rewrite Z2Nat.id, <- Hq by lia|]. split; [lia|]. split; [done|]. split; [by rewrite length_fmap|].
    assert (forall i, i ∈ g_ids g0 -> i ∉ concat (g_ids <$> Os)) as Hdis.
    { pose proof Hnd as Hnd1. unfold all_groups in Hnd1. rewrite EF in Hnd1. cbn in Hnd1. by apply NoDup_app in Hnd1 as (_ & ? & _). }
    assert (Z.to_nat q <= n)%nat as Hqn by (assert (q <= Z.of_nat n) by nia; lia).
    intros g. unfold all_groups. rewrite EF. intros [->|Hg]%elem_of_cons.
    + apply (answered_of _ _ (Z.to_nat q)); [|lia]. exists (take (Z.to_nat q) <$> cols).
      split; [eapply (gl_take n); [exact Hf|exact Hgd|exact Hqn]|]. split; [by rewrite length_fmap|]. split; [|done].
      apply Forall_fmap. eapply Forall_impl; [exact Hc|]. intros c Hcl. cbn in *. rewrite length_take. lia.
    + destruct (Hoth g Hg) as (n' & Hs & Hb' & _). apply (answered_of _ _ n'); [|lia].
      rewrite Forall_forall in HOs. destruct (HOs g Hg) as (_ & Hidg & _).
      eapply (stored_after _ by1 g n' (g_ids g0)); [done|done| |done]. intros i Hi Hi0. apply (Hdis i Hi0).
      by eapply elem_of_concat_fmap.
  - rewrite bool_decide_eq_false_2 by (rewrite EF; by intros []). cbn [mbind res_bind].
    eexists _, hit. split; [done|]. split; [lia|]. split; [done|]. split; [by rewrite length_fmap|].
    intros g. unfold all_groups. rewrite EF. intros Hg.
    destruct (Hoth g Hg) as (n & Hs & Hb & _). by apply (answered_of _ _ n); [|lia].
Qed.

End hybrid.
End Hybrid.

(** ** Splitting the groups *)

Module Split.
Import Coordinator Hybrid.

Definition all_ids (groups : list attention_group) : list Z := concat (g_ids <$> groups).

Lemma add_to_group_spec spec i cls acc acc' : add_to_group spec i cls acc = Ok acc' ->
  all_ids acc' ≡ₚ i :: all_ids acc
  /\ (forall g, g ∈ acc' -> g ∈ acc \/ exists ids, g = (spec, ids ++ [i], cls)
        /\ (ids = [] \/ (spec, ids, cls) ∈ acc)).
Proof.
  revert acc'. induction acc as [|[ [s0 ids0] c0] acc IH]; intros acc'; cbn [add_to_group].
  - intros [= <-]. split; [done|]. intros g ->%list_elem_of_singleton. right. exists []. split; [done|by left].
  - case_bool_decide as Hs.
    + case_bool_decide as Hc; [|done]. intros [= <-]. subst s0 c0. split.
      * unfold all_ids. cbn [fmap list_fmap concat g_ids fst snd]. rewrite <- app_assoc. symmetry. apply Permutation_middle.
      * intros g [->|Hg]%elem_of_cons; [|left; by right]. right. exists ids0. split; [done|right; by left].
    + destruct (add_to_group spec i cls acc) as [rest|] eqn:E; cbn [mbind res_bind]; [|done]. intros [= <-].
      destruct (IH rest eq_refl) as [IH1 IH2]. split.
      * unfold all_ids in *. cbn [fmap list_fmap concat g_ids fst snd]. fold g_ids. rewrite IH1. symmetry. apply Permutation_middle.
      * intros g [->|Hg]%elem_of_cons; [left; by left|]. destruct (IH2 g Hg) as [?|(ids & -> & [->|?])].
        -- left; by right.
        -- right. exists []. split; [done|by left].
        -- right. exists ids. split; [done|right; by right].
Qed.

Lemma concat_perm {A} (l l' : list (list A)) : l ≡ₚ l' -> concat l ≡ₚ concat l'.
Proof.
  induction 1 as [|x l l' _ IH|x y l|l l' l'' _ IH1 _ IH2]; cbn; [done|by rewrite IH| |by etransitivity].
  by rewrite !app_assoc, (Permutation_app_comm y x).
Qed.

(** Each group lists managers with its spec and class. *)
Definition group_of (groups : list (KVCacheSpec * manager_class)) (g : attention_group) : Prop :=
  g_ids g <> [] /\ forall j, j ∈ g_ids g -> 0 <= j /\ groups !! Z.to_nat j = Some (g.1.1, g.2).

Lemma split_groups_spec all rest : forall done_ acc out, all = done_ ++ rest ->
  all_ids acc ≡ₚ py_range 0 (zlen done_) -> Forall (group_of all) acc ->
  split_groups (zlen done_) rest acc = Ok out ->
  all_ids out ≡ₚ py_range 0 (zlen all) /\ Forall (group_of all) out.
Proof.
  induction rest as [|[spec cls] rest IH]; intros done_ acc out Hall Hids Hacc; cbn [split_groups].
  - intros [= <-]. rewrite app_nil_r in Hall. by subst.
  - destruct (add_to_group spec (zlen done_) cls acc) as [acc'|] eqn:E; cbn [mbind res_bind]; [|done].
    destruct (add_to_group_spec _ _ _ _ _ E) as [H1 H2]. intros Hrun.
    assert (zlen (done_ ++ [(spec, cls)]) = zlen done_ + 1) as Hlen by (rewrite zlen_app; done).
    rewrite <- Hlen in Hrun. refine (IH (done_ ++ [(spec, cls)]) acc' out _ _ _ Hrun).
    + by rewrite <- app_assoc.
    + rewrite Hlen, py_range_snoc by apply zlen_nonneg. rewrite H1, Hids. by rewrite Permutation_app_comm.
    + apply Forall_forall. intros g Hg. rewrite Forall_forall in Hacc. destruct (H2 g Hg) as [?|(ids & -> & Hids')]; [by apply Hacc|].
      split; [cbn; by destruct ids|]. cbn. intros j [Hj|Hj]%elem_of_app.
      * destruct Hids' as [->|Hin]; [by apply not_elem_of_nil in Hj|]. by apply (Hacc _ Hin).
      * apply list_elem_of_singleton in Hj as ->. split; [apply zlen_nonneg|].
        unfold zlen. rewrite Nat2Z.id, Hall, lookup_app_r, Nat.sub_diag by lia. done.
Qed.

Lemma full_first_perm groups : full_first groups ≡ₚ groups.
Proof.
  unfold full_first. induction groups as [|g groups IH]; [done|].
  destruct (is_full g.1.1) eqn:Hf.
  - rewrite filter_cons_True, filter_cons_False by congruence. cbn [app]. by constructor.
  - rewrite filter_cons_False, filter_cons_True by congruence. rewrite <- Permutation_middle. by constructor.
Qed.

Lemma lcm_all_divide l x : x ∈ l -> (x | lcm_all l).
Proof.
  induction l as [|y l IH]; [by intros ?%not_elem_of_nil|]. intros [->|Hx]%elem_of_cons; cbn.
  - apply Z.divide_lcm_l.
  - etransitivity; [by apply IH|apply Z.divide_lcm_r].
Qed.

Lemma lcm_all_pos l : Forall (fun x => 0 < x) l -> 0 < lcm_all l.
Proof.
  induction 1 as [|x l Hx Hl IH]; [done|]. change (0 < Z.lcm x (lcm_all l)).
  pose proof (Z.lcm_nonneg x (lcm_all l)). assert (Z.lcm x (lcm_all l) <> 0); [|lia]. rewrite Z.lcm_eq_0. lia.
Qed.

Lemma verify_and_split_spec groups out lcm : verify_and_split_kv_cache_groups groups = Ok (out, lcm) ->
  all_ids out ≡ₚ py_range 0 (zlen groups) /\ Forall (group_of groups) out /\ 1 < zlen out
  /\ (forall g, g ∈ out -> (g_block_size g | lcm))
  /\ (Forall (fun x => 0 < spec_block_size x.1) groups -> 0 < lcm)
  /\ out = filter (fun g => g_full g = true) out ++ filter (fun g => g_full g = false) out.
Proof.
  unfold verify_and_split_kv_cache_groups.
  destruct (split_groups 0 groups []) as [ag|] eqn:E; cbn [mbind res_bind]; [|done].
  destruct (Z.leb_spec (zlen ag) 1) as [|Hlen]; [done|]. intros [= <- <-].
  destruct (split_groups_spec groups groups [] [] ag eq_refl) as [H1 H2]; [done|constructor|done|].
  pose proof (full_first_perm ag) as HP.
  split_and!.
  - rewrite <- H1. unfold all_ids. apply concat_perm. by rewrite HP.
  - by rewrite HP.
  - unfold zlen in *. by rewrite HP.
  - intros g Hg. rewrite HP in Hg. apply lcm_all_divide. by apply list_elem_of_fmap_2 with (f := fun g => spec_block_size g.1.1).
  - intros Hpos. apply lcm_all_pos. apply Forall_fmap. eapply Forall_impl; [exact H2|]. intros g [Hne Hg]. cbn.
    destruct (g_ids g) as [|j ids]; [done|]. destruct (Hg j) as [_ Hj]; [by left|]. rewrite Forall_forall in Hpos.
    apply (Hpos (g.1.1, g.2)). by eapply list_elem_of_lookup_2.
  - unfold full_first, g_full. rewrite !filter_app, !list_filter_filter. f_equal.
    + rewrite (filter_none (fun a => is_full a.1.1 = true /\ is_full a.1.1 = false)) by (intros ? _ [H H']; congruence).
      rewrite app_nil_r. apply list_filter_iff. tauto.
    + rewrite (filter_none (fun a => is_full a.1.1 = false /\ is_full a.1.1 = true)) by (intros ? _ [H H']; congruence).
      cbn [app]. apply list_filter_iff. tauto.
Qed.

End Split.

(** ** The hit of a hybrid model *)

Module HybridHit.
Import Coordinator Hybrid Split HitFacts PoolFacts.

Section hit.
Context {E : Env}.
Context (c : Coordinator) (request : Request) (free0 : list ref) (max : Z).

Abbreviation hs_of g := (group_hashes request (co_hash_block_size c) (g_block_size g)).

(** Sliding windows need EAGLE off or blocks of the common size
    (see [eagle_realign_leaves_null_in_window]). *)
Definition supported (s : KVCacheSpec) : Prop :=
  match s with
  | SlidingWindowSpec a w => 1 < w /\ (co_use_eagle c = false \/ a_block_size a = lcm_block_size c)
  | MambaSpec _ _ _ _ _ _ _ => True
  | _ => is_full s = true
  end.

(** What the hit of [n] blocks has for the group. *)
Definition group_hit (g : attention_group) (n : nat) (cols : list (list ref)) : Prop :=
  match g.1.1 with
  | SlidingWindowSpec a sw =>
      let w := Z.to_nat (cdiv (sw - 1) (a_block_size a)) in
      window_hit (hs_of g) (g_ids g) (co_pool c) (a_block_size a) (lcm_block_size c) w n
      /\ columns (g_ids g) (window_entry (hs_of g) (co_pool c) (n - w) n) n cols
  | MambaSpec _ _ _ _ _ _ _ => columns (g_ids g) (last_entry (hs_of g) (co_pool c) n) n cols
  | _ => columns (g_ids g) (hit_block (hs_of g) (co_pool c)) n cols
  end.

Lemma group_block_hashes_reads spec : group_size_ok (co_hash_block_size c) (spec_block_size spec) ->
  exists l, group_block_hashes c spec (block_hashes request) = Ok l
    /\ bhl_reads l (group_hashes request (co_hash_block_size c) (spec_block_size spec)).
Proof.
  intros Hs. destruct (hashes_for_spec request _ _ Hs) as (l & El & Hlen & _ & _ & Hget). exists l. split; [|by split].
  rewrite <- El. unfold group_block_hashes, Pool.hashes_for, with_block_size. destruct Hs as (H1 & _ & H3).
  destruct (_ =? _); [done|]. replace (co_hash_block_size c =? 0) with false by lia. by rewrite H3.
Qed.

Lemma enough_hashes bs : group_size_ok (co_hash_block_size c) bs -> 0 <= max ->
  max / co_hash_block_size c <= zlen (block_hashes request) ->
  max / bs <= zlen (group_hashes request (co_hash_block_size c) bs).
Proof.
  intros (H1 & H2 & H3) H0 Hlen. unfold group_hashes. destruct (Z.eqb_spec bs (co_hash_block_size c)) as [->|]; [done|].
  unfold zlen. rewrite length_fmap, length_seq, Nat2Z.inj_div.
  set (h := co_hash_block_size c) in *. pose proof (Z.div_mod bs h ltac:(lia)) as Hd. rewrite H3, Z.add_0_r in Hd.
  assert (0 < bs / h) by nia. rewrite Z2Nat.id by lia.
  assert (max / bs = max / h / (bs / h)) as -> by (rewrite Z.div_div by lia; by rewrite <- Hd).
  apply Z.div_le_mono; [lia|]. exact Hlen.
Qed.

Lemma columns_shape gids P n cols : columns gids P n cols -> length cols = length gids /\ Forall (fun col => length col = n) cols.
Proof.
  unfold columns. induction 1 as [|g col gs cs [Hn _] _ [IH1 IH2]]; [done|]. split; [cbn; lia|by constructor].
Qed.

Context (Hp : pool_core (co_pool c) free0).
Context (Hlen : max / co_hash_block_size c <= zlen (block_hashes request)).
Context (Hlcm : 0 < lcm_block_size c).

(** The answers of the three searches, up to [n] tokens. *)
Section lookups.
Context (g : attention_group) (Hsz : group_size_ok (co_hash_block_size c) (g_block_size g)).
Context (Hne : g_ids g <> []) (Hids : Forall (fun i => 0 <= i < 2 ^ 32) (g_ids g)).
Context (Hsup : supported g.1.1) (Hcls : spec_manager_map g.1.1 = Ok g.2).
Context (l : BlockHashList) (Hl : bhl_reads l (hs_of g)) (n : Z) (Hn : 0 <= n <= max).

Definition lookup_answer : Prop :=
  exists m cols, Hit.find_longest_cache_hit l (g_ids g) (co_pool c) g.2 n g.1.1 (co_use_eagle c) (lcm_block_size c) 1 1 = Ok cols
    /\ Z.of_nat m * g_block_size g <= n /\ aligned (g_block_size g) (lcm_block_size c) m
    /\ length cols = length (g_ids g) /\ Forall (fun col => length col = m) cols /\ group_hit g m cols.

Lemma answer_intro P m cols :
  Hit.find_longest_cache_hit l (g_ids g) (co_pool c) g.2 n g.1.1 (co_use_eagle c) (lcm_block_size c) 1 1 = Ok cols ->
  Z.of_nat m <= n / g_block_size g -> aligned (g_block_size g) (lcm_block_size c) m ->
  columns (g_ids g) P m cols -> group_hit g m cols -> lookup_answer.
Proof.
  intros R1 Hm Ha Hc Hg. exists m, cols. split; [done|]. pose proof Hsz as (_ & Hbs & _).
  split; [pose proof (Z.mul_div_le n _ Hbs); nia|]. split; [done|]. by destruct (columns_shape _ _ _ _ Hc).
Qed.

Lemma answer_full : is_full g.1.1 = true -> lookup_answer.
Proof.
  intros Hf. pose proof Hsz as (_ & Hbs & _).
  destruct (full_find_spec l _ Hl (g_ids g) Hids Hne _ _ Hp n g.1.1 (co_use_eagle c) (lcm_block_size c) 1 1)
    as (k & m & cols & R1 & Hc & Hk & _ & _ & _ & Hm & Ha & _); [by rewrite Hf|done|done|lia|].
  change (Manager.scaled_block_size g.1.1 1 1) with (g_block_size g) in Hk, Ha.
  apply (answer_intro (hit_block (hs_of g) (co_pool c)) m cols); try done.
  - rewrite <- R1. destruct (g.1.1), (g.2); try done.
  - destruct (co_use_eagle c); lia.
  - unfold group_hit. by destruct (g.1.1).
Qed.

Lemma answer_bound : n / g_block_size g <= zlen (hs_of g).
Proof.
  pose proof Hsz as (_ & Hbs & _). etransitivity; [|apply (enough_hashes _ Hsz); [lia|done]]. by apply Z.div_le_mono; lia.
Qed.

Lemma answer_window a sw : g.1.1 = SlidingWindowSpec a sw -> lookup_answer.
Proof.
  intros Hs. pose proof Hsz as (_ & Hbs & _). pose proof answer_bound as Hb.
  assert (g_block_size g = a_block_size a) as Ebs by (unfold g_block_size; by rewrite Hs).
  rewrite Hs in Hcls, Hsup. destruct Hsup as [Hsw He]. injection Hcls as Ec.
  destruct (window_find_exact l _ Hl (g_ids g) Hids Hne _ _ Hp n a sw (co_use_eagle c) (lcm_block_size c))
    as (m & cols & R1 & Hm & Hw & Hc & _); rewrite <- ?Ebs; try done; [lia|by rewrite Ebs|].
  eapply (answer_intro _ m cols); try done; try by rewrite ?Ebs.
  - rewrite <- R1. by rewrite Hs, <- Ec.
  - rewrite Ebs. by destruct Hw.
  - unfold group_hit. rewrite Hs. by split.
Qed.

Lemma answer_mamba : is_mamba g.1.1 = true -> lookup_answer.
Proof.
  intros Hs. pose proof Hsz as (_ & Hbs & _). pose proof answer_bound as Hb.
  destruct (g.1.1) as [| | | | |bs sh dt pad ty mode ns| |] eqn:Eg; try done. injection Hcls as Ec.
  assert (g_block_size g = bs) as Ebs by (unfold g_block_size; by rewrite Eg).
  destruct (mamba_find_spec l _ Hl (g_ids g) Hids Hne _ _ Hp n bs sh dt pad ty mode ns (co_use_eagle c) (lcm_block_size c))
    as (m & cols & R1 & Hm & Hc & Ha & _); rewrite <- ?Ebs; try done; [lia|].
  eapply (answer_intro _ m cols); try done; try by rewrite ?Ebs.
  - rewrite <- R1. by rewrite Eg, <- Ec.
  - unfold group_hit. by rewrite Eg.
Qed.

Lemma answer_any : lookup_answer.
Proof.
  destruct (is_full g.1.1) eqn:Hf; [by apply answer_full|]. destruct (is_mamba g.1.1) eqn:Hm; [by apply answer_mamba|].
  assert (exists a sw, g.1.1 = SlidingWindowSpec a sw) as (a & sw & Es); [|exact (answer_window a sw Es)].
  pose proof Hsup as Hs. destruct (g.1.1); cbn in Hs, Hf, Hm; try congruence. by eexists _, _.
Qed.
End lookups.

#[export] Instance group_lookup g : group_size_ok (co_hash_block_size c) (g_block_size g) ->
  (g_block_size g | lcm_block_size c) -> supported g.1.1 -> spec_manager_map g.1.1 = Ok g.2 ->
  g_ids g <> [] -> Forall (fun i => 0 <= i < 2 ^ 32) (g_ids g) ->
  GroupLookup (find_in_group c (block_hashes request)) (lcm_block_size c) max (group_hit g) g.
Proof.
  intros Hsz Hdiv Hsup Hcls Hne Hids. destruct (group_block_hashes_reads g.1.1 Hsz) as (l & El & Hl). split.
  - by destruct Hsz as (_ & ? & _).
  - intros n Hn. destruct (answer_any g Hsz Hne Hids Hsup Hcls l Hl n Hn) as (m & cols & R1 & H).
    exists m, cols. split; [|done]. rewrite <- R1. unfold find_in_group. rewrite (g_triple g) at 1. by rewrite El.
  - intros n m cols Hf Hg Hm. unfold group_hit, g_full in *. destruct (g.1.1); try done; by eapply columns_take.
Qed.

End hit.
(** C16: The fixed point of the hybrid coordinator.  With at most one
    full-attention spec, any sliding-window groups without EAGLE or with blocks of the common
    size, any Mamba groups and no chunked-local groups, the loop ends, and the groups agree on one hit length: it is at most the length asked
    for, a multiple of the common block size, every group gets exactly the blocks
    of that length, and they are what the group needs there (for full attention
    cached blocks throughout, for a sliding window a cached window, for Mamba a
    cached last block). *)
Theorem hybrid_hit_consistent {E : Env} c request free0 max groups
  (Hc : co_class c = HybridKVCacheCoordinator) (Hp : pool_core (co_pool c) free0) (Hmax : 0 <= max)
  (Hlen : max / co_hash_block_size c <= zlen (block_hashes request))
  (Hsplit : verify_and_split_kv_cache_groups groups = Ok (attention_groups c, lcm_block_size c))
  (Hgroups : Forall (fun x => spec_manager_map x.1 = Ok x.2
               /\ group_size_ok (co_hash_block_size c) (spec_block_size x.1) /\ supported c x.1) groups)
  (Hnum : length groups = length (managers c)) (Hids : zlen groups <= 2 ^ 32)
  (Hone : (length (filter (fun g => g_full g = true) (attention_groups c)) <= 1)%nat) :
  exists blocks hit, find_longest_cache_hit c (block_hashes request) max = Ok (blocks, hit)
    /\ 0 <= hit <= max /\ (lcm_block_size c | hit) /\ length blocks = length (managers c)
    /\ forall g, g ∈ attention_groups c -> exists n cols,
         Z.of_nat n * g_block_size g = hit /\ group_hit c request g n cols
         /\ Forall2 (fun i col => blocks !! Z.to_nat i = Some col /\ length col = n) (g_ids g) cols.
Proof.
  destruct (verify_and_split_spec groups _ _ Hsplit) as (Hperm & Hof & Hmany & Hdiv & Hpos & Hpart).
  rewrite Forall_forall in Hgroups. pose proof (proj1 (Forall_forall _ _) Hof) as Hof'. clear Hof. rename Hof' into Hof.
  assert (0 < lcm_block_size c) as Hlcm.
  { apply Hpos. apply Forall_forall. intros x Hx. apply Hgroups in Hx as (_ & (_ & ? & _) & _). done. }
  assert (NoDup (all_ids (attention_groups c))) as Hnd.
  { rewrite Hperm. apply NoDup_fmap_2; [intros ???; lia|apply NoDup_seq]. }
  assert (forall g i, g ∈ attention_groups c -> i ∈ g_ids g -> 0 <= i < zlen groups) as Hrange.
  { intros g i Hg Hi. apply elem_of_py_range. rewrite <- Hperm. by eapply elem_of_concat_fmap. }
  assert (forall g, g ∈ attention_groups c ->
    GroupLookup (find_in_group c (block_hashes request)) (lcm_block_size c) max (group_hit c request g) g
    /\ ids_ok (length (managers c)) g) as Hlookup.
  { intros g Hg. destruct (Hof g Hg) as [Hne Hmem].
    assert ((g.1.1, g.2) ∈ groups) as Hin.
    { destruct (g_ids g) as [|j ids]; [done|]. destruct (Hmem j) as [_ Hj]; [by left|]. by eapply list_elem_of_lookup_2. }
    apply Hgroups in Hin as (H1 & H2 & H3). split.
    - apply (group_lookup c request free0 max); try done; [by apply Hdiv|]. apply Forall_forall. intros i Hi.
      specialize (Hrange g i Hg Hi). lia.
    - split; [done|]. split.
      + apply list_elem_of_split in Hg as (l1 & l2 & Hsp). unfold all_ids in Hnd.
        rewrite Hsp, fmap_app, fmap_cons, concat_app in Hnd. cbn [concat] in Hnd.
        apply NoDup_app in Hnd as (_ & _ & Hnd). by apply NoDup_app in Hnd as [? _].
      + apply Forall_forall. intros i Hi. specialize (Hrange g i Hg Hi). unfold zlen in Hrange. lia. }
  set (Os := filter (fun g => g_full g = false) (attention_groups c)) in *.
  assert (Forall (fun g => GroupLookup (find_in_group c (block_hashes request)) (lcm_block_size c) max
            (group_hit c request g) g /\ ids_ok (length (managers c)) g /\ g_full g = false) Os) as HOs.
  { apply Forall_forall. intros g Hg. apply list_elem_of_filter in Hg as [Hf Hg]. by destruct (Hlookup g Hg). }
  assert (exists F, attention_groups c = all_groups F Os /\ match F with
            | Some g => GroupLookup (find_in_group c (block_hashes request)) (lcm_block_size c) max
                          (group_hit c request g) g /\ ids_ok (length (managers c)) g /\ g_full g = true
            | None => True end) as (F & Eall & HF).
  { destruct (filter (fun g => g_full g = true) (attention_groups c)) as [|g [|g' gs]] eqn:Ef; cbn in Hone; [| |lia].
    - exists None. by rewrite Hpart at 1.
    - assert (g ∈ [g]) as Hg by by left. rewrite <- Ef in Hg. apply list_elem_of_filter in Hg as [Hf Hg].
      exists (Some g). split; [by rewrite Hpart at 1|]. by destruct (Hlookup g Hg). }
  assert (Os <> []) as HneO.
  { intros HO. rewrite HO, app_nil_r in Hpart. rewrite <- Hpart in Hone. unfold zlen in Hmany. lia. }
  rewrite Eall in Hnd.
  destruct (hybrid_find_spec _ _ _ Hlcm _ _ F Os HF HOs HneO Hnd max ltac:(lia)) as (blocks & hit & R1 & H1 & H2 & H3 & H4).
  exists blocks, hit. unfold find_longest_cache_hit. rewrite Hc, Eall, R1. split_and!; try done; lia.
Qed.

(** ** Concrete hybrid models *)

Definition one_token : AttentionSpec := {| demo_attention with a_block_size := 1 |}.
Definition full_one : KVCacheSpec := FullAttentionSpec one_token 64 None None.
Definition full_other : KVCacheSpec := FullAttentionSpec {| one_token with head_size := 128 |} 128 None None.
Definition window_two : KVCacheSpec := SlidingWindowSpec one_token 2.

Definition config_of (n : Z) (specs : list KVCacheSpec) : KVCacheConfig :=
  {| num_blocks := n; kv_cache_tensors := [];
     kv_cache_groups := (fun s => {| layer_names := []; kv_cache_spec := OneSpec s |}) <$> specs |}.

Definition demo_coordinator (n : Z) (specs : list KVCacheSpec) : Coordinator :=
  match init (config_of n specs) false true false 1 1 1 None with
  | Ok c => c
  | Raise _ => {| co_class := KVCacheCoordinatorNoPrefixCache; co_specs := []; co_enable_caching := false;
                  co_use_eagle := false; co_pool := PoolSession.demo_pool; managers := []; co_block_size := 0;
                  co_dcp_world_size := 1; co_pcp_world_size := 1; co_hash_block_size := 0;
                  attention_groups := []; lcm_block_size := 0 |}
  end.

(** Two tokens, hashed one by one. *)
Definition two_hashes : Request := {| (demo_request []) with block_hashes := [ [x01]; [x02] ] |}.

(** The blocks 1 and 2 cached for group 0, the blocks 3 and 4 for group 1. *)
Definition two_groups_pool (p : BlockPool) : BlockPool :=
  let p1 := (Pool.get_new_blocks 4 p).2 in
  let p2 := (Pool.cache_full_blocks [RBlk 1; RBlk 2] 0 2 1 0 (p1, two_hashes)).2.1 in
  (Pool.cache_full_blocks [RBlk 3; RBlk 4] 0 2 1 1 (p2, two_hashes)).2.1.

Lemma cache_two p free gid r1 r2 : pool_ok p free -> enable_caching p = true -> hash_block_size p = 1 ->
  0 <= gid < 2 ^ 32 -> r1 <> r2 -> (forall r, r ∈ [r1; r2] -> usable p r /\ keyof p r = None) ->
  exists p' rq, Pool.cache_full_blocks [r1; r2] 0 2 1 gid (p, two_hashes) = (Ok tt, (p', rq))
    /\ pool_ok p' free /\ config p' = config p
    /\ forall r, is_blk r -> r ∉ [r1; r2] -> keyof p' r = keyof p r.
Proof.
  intros Hp Hen Hhs Hg Hne Hu.
  destruct (cache_full_blocks_spec p free two_hashes [r1; r2] 0 2 1 gid Hp Hen Hg)
    as (p' & rq & R1 & Hp' & _ & (Hcf & _ & Hk & _)); [by rewrite Hhs|done|by rewrite Hhs| |].
  - cbn [take drop Nat.sub]. split; [intros r Hr; right; by apply Hu|].
    apply NoDup_filter, NoDup_cons. split; [by rewrite list_elem_of_singleton|apply NoDup_singleton].
  - exists p', rq. split; [exact R1|]. do 2 (split; [done|]). intros r Hb Hr. apply Hk; [done|by left].
Qed.

Lemma two_groups_pool_core p : Pool.init 5 true 1 false None = Ok p -> pool_core (two_groups_pool p) [].
Proof.
  intros Hinit. destruct (init_spec 5 true 1 false None ltac:(lia)) as (q & Eq & Hp & Hcf & Hd).
  rewrite Hinit in Eq. injection Eq as <-.
  destruct (get_new_blocks_spec p _ 4 Hp) as (p1 & E1 & Hp1 & _ & Hcf1 & Hd1); [rewrite length_fmap, length_seq; lia|].
  change (Z.of_nat 4) with 4 in E1.
  rewrite Hcf in Hcf1. unfold config in Hcf1. injection Hcf1 as C0 C1 C2 C3 C4 C5.
  assert (forall r, r ∈ [RBlk 1; RBlk 2; RBlk 3; RBlk 4] -> is_blk r /\ usable p1 r /\ keyof p1 r = None) as Hu.
  { intros r Hr. assert (is_blk r /\ r <> RBlk 0 /\ r ∈ RBlk <$> seq 0 5) as (Hb & Hne & Hin) by (cbn; set_solver).
    split; [done|]. split; [split; [by rewrite C3|done]|]. destruct (Hd1 r Hb) as [_ ->]. by rewrite decide_True. }
  clear Hd Hd1 Hp Hcf. unfold two_groups_pool. rewrite E1. clear E1. cbn [snd].
  destruct (cache_two p1 _ 0 (RBlk 1) (RBlk 2) Hp1 C1 C2 ltac:(lia) ltac:(done)) as (p2 & rq2 & R2 & Hp2 & Hcf2 & Hk2).
  { intros r Hr. apply Hu. set_solver. }
  rewrite R2. clear R2. cbn [snd fst]. unfold config in Hcf2. injection Hcf2 as D0 D1 D2 D3 D4 D5.
  destruct (cache_two p2 _ 1 (RBlk 3) (RBlk 4) Hp2 ltac:(congruence) ltac:(congruence) ltac:(lia) ltac:(done))
    as (p3 & rq3 & R3 & Hp3 & _).
  { intros r Hr. destruct (Hu r ltac:(set_solver)) as (Hb & Hur & Hkr).
    split; [by apply (usable_config p1); [unfold config; congruence|]|]. rewrite Hk2; [done|done|set_solver]. }
  rewrite R3. exact (po_core _ _ Hp3).
Qed.

Definition demo_hybrid : Coordinator :=
  let c := demo_coordinator 5 [full_one; window_two] in {| c with co_pool := two_groups_pool (co_pool c) |}.

Lemma hybrid_hit_consistent_witness :
  exists blocks hit, find_longest_cache_hit demo_hybrid (block_hashes two_hashes) 2 = Ok (blocks, hit)
    /\ 0 <= hit <= 2 /\ blocks = [ [RBlk 1; RBlk 2]; [RBlk 0; RBlk 4] ] /\ hit = 2
    /\ forall g, g ∈ attention_groups demo_hybrid -> exists n cols,
         Z.of_nat n * g_block_size g = hit /\ group_hit demo_hybrid two_hashes g n cols.
Proof.
  destruct (init_spec 5 true 1 false None ltac:(lia)) as (p & Ep & _).
  assert (co_class demo_hybrid = HybridKVCacheCoordinator) as H1 by by vm_compute.
  assert (attention_groups demo_hybrid = [ (full_one, [0], FullAttentionManager); (window_two, [1], SlidingWindowManager) ]) as H2 by by vm_compute.
  assert (lcm_block_size demo_hybrid = 1 /\ co_hash_block_size demo_hybrid = 1 /\ length (managers demo_hybrid) = 2%nat
          /\ co_use_eagle demo_hybrid = false) as (H3 & H4 & H5 & H6) by (vm_compute; done).
  assert (find_longest_cache_hit demo_hybrid (block_hashes two_hashes) 2 = Ok ([ [RBlk 1; RBlk 2]; [RBlk 0; RBlk 4] ], 2))
    as H7 by (vm_compute; reflexivity).
  assert (pool_core (co_pool demo_hybrid) []) as Hcore.
  { unfold demo_hybrid. cbn [co_pool]. apply two_groups_pool_core.
    assert (co_pool (demo_coordinator 5 [full_one; window_two]) = p) as ->; [|done].
    unfold demo_coordinator, init. cbn [config_of num_blocks]. rewrite Ep. reflexivity. }
  revert H1 H2 H3 H4 H5 H6 H7 Hcore. generalize demo_hybrid as c. intros c H1 H2 H3 H4 H5 H6 H7 Hcore.
  destruct (hybrid_hit_consistent c two_hashes [] 2
    [ (full_one, FullAttentionManager); (window_two, SlidingWindowManager) ] H1 Hcore) as (blocks & hit & R1 & Hh & _ & _ & Hg).
  - lia.
  - by rewrite H4.
  - by rewrite H2, H3.
  - rewrite H4. constructor; [|constructor; [|by constructor]]; (split; [done|]); (split; [by vm_compute|]); [done|].
    split; [done|by left].
  - by rewrite H5.
  - by vm_compute.
  - by rewrite H2.
  - exists blocks, hit. split; [exact R1|]. split; [exact Hh|]. rewrite R1 in H7.
    injection H7 as -> ->. split; [done|]. split; [done|]. intros g Hin. destruct (Hg g Hin) as (n & cols & ? & ? & _).
    by exists n, cols.
Defined.

End HybridHit.
