(* ===== verification/CoordFacts.v ===== *)
(** Reference accounting and capacity over all groups of a coordinator.

    The managers of a coordinator share one pool: each one's invariant of [Group]
    holds with the references of the others, and the blocks a request has not
    cached yet belong to it alone. *)

From S2P Require Import Prelude FreeQueue Request Hashing Metrics BlockPool KVSpec SingleType Group Coordinator.
Local Open Scope Z_scope.

(** ** What one call does to the blocks of a request *)

Module Effects.
Import Pool PoolFacts PoolSession Session Accounting GroupSession.

Definition cached_count (m : Manager) (rid : string) : Z := default 0 (num_cached_block m !! rid).

(** The blocks of [rid] beyond its cached ones are fresh (or null). *)
Definition uncached (p : BlockPool) (m : Manager) (rid : string) : Prop :=
  0 <= cached_count m rid
  /\ forall i r, cached_count m rid <= Z.of_nat i -> Manager.blocks_of rid m !! i = Some r -> r = RBlk 0 \/ fresh p r.

Record effect (p p' : BlockPool) (m m' : Manager) (rid : string) : Prop := {
  e_config : mgr_config m' = mgr_config m;
  e_pool : config p' = config p;
  e_blocks : forall rid', rid' <> rid -> Manager.blocks_of rid' m' = Manager.blocks_of rid' m;
  e_count : forall rid', rid' <> rid -> num_cached_block m' !! rid' = num_cached_block m !! rid';
  e_undist : undisturbed p p' (Manager.blocks_of rid m);
  e_own : uncached p m rid -> uncached p' m' rid;
}.

Section effects.
Context {E : Env}.

Lemma undisturbed_weaken p p' l l' : undisturbed p p' l -> (forall r, r ∈ l -> r ∈ l') -> undisturbed p p' l'.
Proof. intros H Hl r Hu Hr. apply H; [done|]. intros Hin. by apply Hr, Hl. Qed.

Lemma nil_in (l : list ref) r : r ∈ [] -> r ∈ l.
Proof. by intros ?%not_elem_of_nil. Qed.

(** The blocks of a request are usable or null. *)
Lemma blocks_usable p m other free rid r : group_ok p m other free -> r ∈ Manager.blocks_of rid m -> r = RBlk 0 \/ usable p r.
Proof.
  intros Hg Hr. destruct (decide (r = RBlk 0)) as [|Hne]; [by left|right]. split; [|done].
  by apply (blocks_of_in _ _ _ _ rid Hg).
Qed.

Lemma updated_blocks p p' m m' other free' rid l : updated p p' m m' other free' rid l ->
  Manager.blocks_of rid m' = l /\ forall rid', rid' <> rid -> Manager.blocks_of rid' m' = Manager.blocks_of rid' m.
Proof.
  intros [_ _ Hb _]. unfold Manager.blocks_of. rewrite Hb. split; [by rewrite lookup_insert_eq|].
  intros rid' Hr. by rewrite lookup_insert_ne.
Qed.

(** Appending fresh blocks. *)
Lemma uncached_app p p' m m' rid new other free : group_ok p m other free -> undisturbed p p' [] ->
  Manager.blocks_of rid m' = Manager.blocks_of rid m ++ new -> cached_count m' rid = cached_count m rid ->
  Forall (fresh p') new -> uncached p m rid -> uncached p' m' rid.
Proof.
  intros Hg Hun Hb Hc Hnew [H0 Hunc]. split; [by rewrite Hc|]. intros i r. rewrite Hb, Hc. intros Hi Hr.
  apply lookup_app_Some in Hr as [Hr|[_ Hr]].
  - destruct (Hunc i r Hi Hr) as [|Hf]; [by left|].
    destruct (blocks_usable _ _ _ _ rid r Hg) as [|Hu]; [by eapply list_elem_of_lookup_2|by left|].
    right. apply Hun; [done|apply not_elem_of_nil|done].
  - right. rewrite Forall_forall in Hnew. apply Hnew. by eapply list_elem_of_lookup_2.
Qed.

Lemma allocate_effect rid n main p m other free : group_ok p m other free -> plain_manager m ->
  let k := cdiv n (mgr_block_size m) - zlen (Manager.blocks_of rid m) in
  k <= zlen free ->
  exists p' m' new, Manager.allocate_new_blocks rid n main (p, m) = (Ok new, (p', m'))
    /\ group_ok p' m' other (drop (Z.to_nat k) free) /\ effect p p' m m' rid
    /\ Manager.blocks_of rid m' = Manager.blocks_of rid m ++ new /\ num_cached_block m' = num_cached_block m
    /\ zlen new = Z.max k 0.
Proof.
  intros Hg Hm k Hk. rewrite allocate_plain by done.
  destruct (base_allocate_ok rid n p m other free Hg Hk) as (p' & m' & R1 & Hu & Hnc & Hun & Hfr). fold k in R1, Hu, Hfr |- *.
  destruct (updated_blocks _ _ _ _ _ _ _ _ Hu) as [Hb Hbo]. destruct Hu as [Hg' Hcf _ Hcp].
  exists p', m', (take (Z.to_nat k) free). split; [done|]. split; [done|]. split; [|split; [done|split; [done|]]].
  - split; try done.
    + intros rid' _. by rewrite Hnc.
    + by eapply undisturbed_weaken, nil_in.
    + eapply uncached_app; try done. unfold cached_count. by rewrite Hnc.
  - unfold zlen in *. rewrite length_take. lia.
Qed.

(** The cached blocks that a request adopts have a hash. *)
Definition hits (p : BlockPool) (newc : list ref) : Prop := forall r, r ∈ newc -> r = RBlk 0 \/ keyof p r <> None.

Lemma adopt_effect rid newc local ext p m other free : group_ok p m other free -> plain_manager m ->
  adoptable p m rid newc (local + ext) -> hits p newc -> 0 <= local + ext ->
  let sk := Manager.get_num_skipped_tokens m (local + ext) / mgr_block_size m in
  let kept := drop (Z.to_nat sk) newc in
  let k := num_external_blocks m kept (local + ext) ext in
  Manager.get_num_evictable_blocks p kept + k <= zlen free ->
  exists p' m' free' extb, Manager.allocate_new_computed_blocks rid newc local ext (p, m) = (Ok tt, (p', m'))
    /\ group_ok p' m' other free' /\ effect p p' m m' rid
    /\ Manager.blocks_of rid m' = (replicate (Z.to_nat sk) (RBlk 0) ++ kept) ++ extb /\ zlen extb = k
    /\ zlen free' = zlen free - Manager.get_num_evictable_blocks p kept - k
    /\ (ext <= 0 -> forall r, is_blk r -> keyof p' r = keyof p r
          /\ (r <> RBlk 0 -> refc p' r = refc p r + (if decide (r ∈ kept) then 1 else 0))).
Proof.
  intros Hg Hm (Hnc & Hnil & Hen & Hin & Hnd & Hlen) Hhits Ht sk kept k Hk.
  pose proof (g_size _ _ _ _ Hg) as Hbs.
  destruct (num_external_blocks_nonneg m newc _ ext Hm Hbs Ht Hlen) as (Hk0 & Hk1 & Hsk & Hlk). fold sk kept k in Hk0, Hk1, Hsk, Hlk.
  pose proof (computed_ok rid newc local ext p m other free Hg Hm Hnc Hnil Hen Hin Hnd Ht Hlen) as HC.
  cbv zeta in HC. fold sk kept k in HC.
  destruct HC as (p' & m' & free' & extb & R1 & Hu & Hext & Hf & Hnc' & Hun & Hfr & Hd); [lia|].
  destruct (updated_blocks _ _ _ _ _ _ _ _ Hu) as [Hb Hbo]. destruct Hu as [Hg' Hcf _ Hcp].
  assert (undisturbed p p' []) as Hun'.
  { apply Hun. intros r Hr. apply Hhits. by apply subseteq_drop in Hr. }
  exists p', m', free', extb. split; [done|]. split; [done|]. split; [|done]. split; try done.
  - intros rid' Hr. by rewrite Hnc', lookup_insert_ne.
  - by eapply undisturbed_weaken, nil_in.
  - intros _. unfold uncached, cached_count. rewrite Hnc', lookup_insert_eq. change (default 0 (Some (sk + zlen kept))) with (sk + zlen kept).
    split; [pose proof (zlen_nonneg kept); lia|]. intros i r Hi. rewrite Hb. intros [Hr|[_ Hr]]%lookup_app_Some.
    + apply lookup_lt_Some in Hr. rewrite length_app, length_replicate in Hr. unfold zlen in Hi. lia.
    + right. rewrite Forall_forall in Hfr. apply Hfr. by eapply list_elem_of_lookup_2.
Qed.

Lemma free_effect rid p m other free0 : group_ok p m other free0 ->
  exists p' m' back, Manager.free rid (p, m) = (Ok tt, (p', m')) /\ group_ok p' m' other (free0 ++ back)
    /\ effect p p' m m' rid /\ Manager.blocks_of rid m' = [].
Proof.
  intros Hg. destruct (free_ok rid p m other free0 Hg) as (p' & m' & back & R1 & Hg' & Hcf & Hcp & Hb & Hnc & Hun).
  assert (Manager.blocks_of rid m' = []) as Hnil by (unfold Manager.blocks_of; by rewrite Hb, lookup_delete_eq).
  exists p', m', back. do 2 (split; [done|]). split; [|done]. split; try done.
  - intros rid' Hr. unfold Manager.blocks_of. by rewrite Hb, lookup_delete_ne.
  - intros rid' Hr. by rewrite Hnc, lookup_delete_ne.
  - intros _. unfold uncached, cached_count. rewrite Hnc, lookup_delete_eq, Hnil. cbn. split; [done|]. by intros i r.
Qed.

Lemma skip_effect rid t p m other free : group_ok p m other free -> plain_manager m -> 0 <= t ->
  exists p' m' back, Manager.remove_skipped_blocks rid t (p, m) = (Ok tt, (p', m'))
    /\ group_ok p' m' other (free ++ back) /\ effect p p' m m' rid
    /\ length (Manager.blocks_of rid m') = length (Manager.blocks_of rid m)
    /\ num_cached_block m' = num_cached_block m.
Proof.
  intros Hg Hm Ht.
  destruct (remove_skipped_ok rid t p m other free Hg Hm Ht)
    as (p' & m' & j & back & R1 & Hg' & Hcf & Hcp & Hl & Hj & _ & Hrest & Hnc & Hfr).
  set (n := Z.to_nat _) in Hl, Hj. set (l := Manager.blocks_of rid m) in *.
  assert (n <= length l)%nat as Hn by (unfold n, zlen; lia).
  assert (length (take j l) = j) as Htj by (rewrite length_take; lia).
  exists p', m', back. do 2 (split; [done|]). split; [|split; [|done]].
  - split; try done.
    + intros rid' Hr. unfold Manager.blocks_of. by rewrite Hrest.
    + intros rid' Hr. by rewrite Hnc.
    + intros r Hu Hr Hf. apply Hfr; [done|done|by right].
    + intros [H0 Hunc]. unfold uncached, cached_count in *. rewrite Hnc. split; [done|]. intros i r Hi Hr.
      destruct (decide (r = RBlk 0)) as [|Hne]; [by left|right].
      assert (l !! i = Some r) as Hli.
      { rewrite Hl in Hr. unfold skipped_list in Hr. apply lookup_app_Some in Hr as [Hr|[Hji Hr]].
        - by apply lookup_take_Some in Hr as [? _].
        - rewrite Htj in Hji, Hr. apply lookup_app_Some in Hr as [Hr|[Hni Hr]].
          + by apply lookup_replicate in Hr as [-> _].
          + rewrite length_replicate in Hni, Hr. rewrite lookup_drop in Hr. rewrite <- Hr. f_equal. lia. }
      destruct (Hunc i r Hi Hli) as [|Hf]; [done|].
      destruct (blocks_usable _ _ _ _ rid r Hg) as [|Hu]; [by eapply list_elem_of_lookup_2|done|].
      apply Hfr; [done|done|left]. by eapply list_elem_of_lookup_2.
  - rewrite Hl. unfold skipped_list. rewrite !length_app, Htj, length_replicate, length_drop. lia.
Qed.

(** [can_cache] without the requirement on the uncached blocks. *)
Definition cache_ready (p : BlockPool) (m : Manager) (request : Request) (num_tokens : Z) : Prop :=
  let nf := num_tokens / mgr_block_size m in
  enable_caching p = true /\ 0 <= kv_cache_group_id m < 2 ^ 32
  /\ group_size_ok (hash_block_size p) (mgr_block_size m)
  /\ nf <= zlen (Manager.blocks_of (request_id request) m)
  /\ nf <= zlen (group_hashes request (hash_block_size p) (mgr_block_size m)).

Lemma cache_effect request num_tokens p m other free : group_ok p m other free -> plain_manager m ->
  cache_ready p m request num_tokens -> uncached p m (request_id request) ->
  exists p' m' request', Manager.cache_blocks num_tokens (p, m, request) = (Ok tt, (p', m', request'))
    /\ group_ok p' m' other free /\ effect p p' m m' (request_id request)
    /\ Manager.blocks_of (request_id request) m' = Manager.blocks_of (request_id request) m
    /\ same_but_cache request request'.
Proof.
  intros Hg Hm (Hen & Hgid & Hsz & Hnf & Hnh) [Hnc Hunc]. set (rid := request_id request) in *.
  set (l := Manager.blocks_of rid m) in *. destruct (blocks_of_in _ _ _ _ rid Hg) as [_ Hnd]. fold l in Hnd.
  assert (forall r, r ∈ cached_part m request num_tokens -> r = RBlk 0 \/ fresh p r) as Hpart.
  { intros r Hr. unfold cached_part in Hr. fold rid (cached_count m rid) l in Hr. apply list_elem_of_lookup in Hr as [i Hr].
    apply lookup_take_Some in Hr as [Hr _]. rewrite lookup_drop in Hr. eapply Hunc; [|exact Hr]. lia. }
  assert (can_cache p m request num_tokens) as Hcc.
  { do 6 (split; [done|]). fold rid (cached_count m rid) l. split.
    - intros r Hr. destruct (Hpart r Hr) as [|[Hk _]]; [by left|]. destruct (decide (r = RBlk 0)) as [|Hne]; [by left|].
      right. split; [|done]. destruct (blocks_usable _ _ _ _ rid r Hg) as [|?]; [|done|done].
      apply subseteq_take in Hr. by apply subseteq_drop in Hr.
    - set (a := (Z.to_nat _ - _)%nat). set (b := Z.to_nat _). change (NoDup (nonnull (take a (drop b l)))).
      rewrite <- (take_drop b l), nonnull_app in Hnd. apply NoDup_app in Hnd as (_ & _ & Hnd).
      rewrite <- (take_drop a (drop b l)), nonnull_app in Hnd. by apply NoDup_app in Hnd as [? _]. }
  destruct (cache_blocks_ok request num_tokens p m other free Hg Hm Hcc)
    as (p' & m' & rq & R1 & Hg' & Hcf & Hcp & Hb & Hbo & Hcnt & Hco & Hsame & Hd). fold rid l in Hb, Hbo, Hcnt, Hco.
  exists p', m', rq. do 2 (split; [done|]). split; [|split; done].
  assert (forall r, usable p r -> r ∉ cached_part m request num_tokens -> fresh p r -> fresh p' r) as Hkeep.
  { intros r Hu Hr [H1 H2]. pose proof (po_core _ _ (s_pool _ _ _ (g_ses _ _ _ _ Hg))) as Hc.
    destruct (Hd r (usable_blk _ _ _ Hc Hu)) as [E1 E2]. unfold fresh. rewrite E1, E2 by by left. done. }
  split; try done.
  - intros rid' Hr. unfold Manager.blocks_of. by rewrite Hbo.
  - intros r Hu Hr. apply Hkeep; [done|]. intros Hin. apply Hr. unfold cached_part in Hin. fold rid l in Hin.
    apply subseteq_take in Hin. by apply subseteq_drop in Hin.
  - intros _. unfold uncached. unfold cached_count in *. rewrite Hcnt. split; [lia|]. intros i r Hi Hr. rewrite Hb in Hr.
    destruct (Hunc i r) as [|Hf]; [lia|done|by left|]. destruct (decide (r = RBlk 0)) as [|Hne]; [by left|right].
    destruct (blocks_usable _ _ _ _ rid r Hg) as [|Hu]; [by eapply list_elem_of_lookup_2|done|].
    apply Hkeep; [done| |done]. unfold cached_part. fold rid l. intros Hin. apply list_elem_of_lookup in Hin as [k Hk].
    apply lookup_take_Some in Hk as [Hk Hlt]. rewrite lookup_drop in Hk.
    assert (i = (Z.to_nat (default 0%Z (num_cached_block m !! rid)) + k)%nat) as Hik; [|lia].
    eapply nonnull_inj; done.
Qed.

End effects.
End Effects.

(** ** The invariant of a coordinator *)

Module CoordSession.
Import Pool PoolFacts PoolSession Session Accounting GroupSession Effects Coordinator.

Definition all_held (c : Coordinator) : list ref := concat (group_held <$> managers c).

(** The references of the other groups. *)
Definition others (i : nat) (ms : list Manager) : list ref := concat (group_held <$> (take i ms ++ drop (S i) ms)).

Definition put (i : nat) (p : BlockPool) (m : Manager) (c : Coordinator) : Coordinator :=
  {| c with co_pool := p; managers := <[i := m]> (managers c) |}.

Record coord_ok (c : Coordinator) (free : list ref) : Prop := {
  c_ses : ses (co_pool c) (all_held c) free;
  c_group : forall i m, managers c !! i = Some m -> group_ok (co_pool c) m (others i (managers c)) free /\ plain_manager m;
  c_fresh : forall i m rid, managers c !! i = Some m -> uncached (co_pool c) m rid;
}.

Section facts.
Context {E : Env}.

Lemma others_put i m (ms : list Manager) : others i (<[i := m]> ms) = others i ms.
Proof. unfold others. rewrite take_insert_ge by lia. by rewrite drop_insert_lt by lia. Qed.

Lemma held_split i m (ms : list Manager) : ms !! i = Some m -> concat (group_held <$> ms) ≡ₚ group_held m ++ others i ms.
Proof.
  intros Hi. unfold others. rewrite <- (take_drop_middle ms i m Hi) at 1.
  rewrite !fmap_app, fmap_cons, !concat_app. cbn [concat]. by rewrite Permutation_app_swap_app.
Qed.

Lemma elem_of_others i j m (ms : list Manager) r : ms !! j = Some m -> i <> j -> r ∈ group_held m -> r ∈ others i ms.
Proof.
  intros Hj Hne Hr. unfold others. apply list_elem_of_In, in_concat. exists (group_held m). rewrite <- !list_elem_of_In.
  split; [|done]. apply list_elem_of_fmap_2. apply elem_of_app. destruct (decide (j < i)%nat).
  - left. apply list_elem_of_lookup. exists j. by rewrite lookup_take_lt.
  - right. apply list_elem_of_lookup. exists (j - S i)%nat. rewrite lookup_drop, <- Hj. f_equal. lia.
Qed.

(** A fresh block of a request is in no other list. *)
Lemma fresh_not_shared p m other free rid r : group_ok p m other free -> r <> RBlk 0 -> fresh p r ->
  r ∈ Manager.blocks_of rid m -> r ∉ nonnull (held_in (delete rid (req_to_blocks m))) ++ other.
Proof.
  intros Hg Hne [_ H1] Hr Hin. pose proof (group_ses _ _ _ _ rid Hg) as Hs.
  assert (r ∈ nonnull (Manager.blocks_of rid m)) as Hr' by by apply elem_of_nonnull.
  rewrite (s_count _ _ _ Hs) in H1 by (apply (s_held _ _ _ Hs); apply elem_of_app; by left).
  rewrite count_ref_app in H1. pose proof (count_ref_in _ _ Hr'). pose proof (count_ref_in _ _ Hin). lia.
Qed.

Lemma other_request_held m rid rid' r : r ∈ Manager.blocks_of rid' m -> rid' <> rid -> r <> RBlk 0 ->
  r ∈ nonnull (held_in (delete rid (req_to_blocks m))).
Proof.
  intros Hr Hne Hr0. apply elem_of_nonnull. split; [done|]. rewrite (held_in_delete _ rid'). apply elem_of_app. left.
  by rewrite lookup_delete_ne.
Qed.

Lemma held_of_blocks m rid r : r ∈ Manager.blocks_of rid m -> r <> RBlk 0 -> r ∈ group_held m.
Proof. intros Hr Hne. rewrite (group_held_blocks rid). apply elem_of_app. left. by apply elem_of_nonnull. Qed.

Lemma coord_put c free i m p' m' free' rid : coord_ok c free -> managers c !! i = Some m ->
  group_ok p' m' (others i (managers c)) free' -> effect (co_pool c) p' m m' rid -> coord_ok (put i p' m' c) free'.
Proof.
  intros Hc Hi Hg' He. destruct (c_group _ _ Hc i m Hi) as [Hg Hplain].
  pose proof (lookup_lt_Some _ _ _ Hi) as Hlt.
  assert (managers (put i p' m' c) !! i = Some m') as Hi' by by apply list_lookup_insert_eq.
  assert (ses p' (all_held (put i p' m' c)) free') as Hses.
  { eapply ses_perm; [|exact (g_ses _ _ _ _ Hg')]. unfold all_held. rewrite (held_split i m') by done.
    unfold put. cbn [managers]. by rewrite others_put. }
  assert (blocks p' = blocks (co_pool c)) as Hbl.
  { pose proof (e_pool _ _ _ _ _ He) as Hcp. unfold config in Hcp. by injection Hcp. }
  assert (forall j mj rid', managers c !! j = Some mj -> (j = i -> rid' <> rid) ->
            forall k r, cached_count mj rid' <= Z.of_nat k -> Manager.blocks_of rid' mj !! k = Some r ->
            r = RBlk 0 \/ fresh p' r) as Hkeep.
  { intros j mj rid' Hj Hne k r Hk Hr. destruct (proj2 (c_fresh _ _ Hc j mj rid' Hj) k r Hk Hr) as [|Hf]; [by left|].
    destruct (decide (r = RBlk 0)) as [|Hr0]; [by left|right]. apply list_elem_of_lookup_2 in Hr.
    destruct (c_group _ _ Hc j mj Hj) as [Hgj _]. destruct (blocks_usable _ _ _ _ rid' r Hgj Hr) as [|Hu]; [done|].
    apply (e_undist _ _ _ _ _ He); [done| |done]. intros Hin.
    apply (fresh_not_shared _ _ _ _ rid r Hg Hr0 Hf Hin). apply elem_of_app.
    destruct (decide (j = i)) as [->|Hji].
    - left. rewrite Hi in Hj. injection Hj as <-. by apply (other_request_held m rid rid'); [done|apply Hne|done].
    - right. eapply elem_of_others; [exact Hj|done|]. by eapply held_of_blocks. }
  split; [exact Hses|..].
  - intros j mj Hj. destruct (decide (j = i)) as [->|Hne].
    + rewrite Hi' in Hj. injection Hj as <-. split; [|by eapply plain_config, Hplain; apply He].
      unfold put. cbn [managers co_pool]. by rewrite others_put.
    + assert (managers c !! j = Some mj) as Hj0 by (unfold put in Hj; cbn in Hj; by rewrite list_lookup_insert_ne in Hj).
      destruct (c_group _ _ Hc j mj Hj0) as [ [] Hpl]. split; [|done]. split; [done|done| |..].
      * eapply ses_perm; [|exact Hses]. unfold all_held. by apply held_split.
      * cbn. rewrite Hbl. done.
      * done.
  - intros j mj rid' Hj. destruct (decide (j = i)) as [->|Hne].
    + rewrite Hi' in Hj. injection Hj as <-. destruct (decide (rid' = rid)) as [->|Hr].
      * apply (e_own _ _ _ _ _ He). by apply (c_fresh _ _ Hc i).
      * assert (cached_count m' rid' = cached_count m rid') as Ec by (unfold cached_count; by rewrite (e_count _ _ _ _ _ He)).
        unfold uncached. rewrite Ec, (e_blocks _ _ _ _ _ He) by done.
        split; [by apply (c_fresh _ _ Hc i m)|]. by apply (Hkeep i).
    + assert (managers c !! j = Some mj) as Hj0 by (unfold put in Hj; cbn in Hj; by rewrite list_lookup_insert_ne in Hj).
      split; [by apply (c_fresh _ _ Hc j)|]. by apply (Hkeep j).
Qed.

(** *** Loops over the managers *)

Lemma on_manager_ok {A} i (f : M (BlockPool * Manager) A) c m a p' m' : managers c !! i = Some m ->
  f (co_pool c, m) = (Ok a, (p', m')) -> on_manager i f c = (Ok a, put i p' m' c).
Proof. intros Hi Hf. unfold on_manager. by rewrite Hi, Hf. Qed.

Lemma each_manager_ok {A} (f : nat -> Manager -> M (BlockPool * Manager) A) (I : nat -> list A -> Coordinator -> Prop) c0 :
  I 0%nat [] c0 ->
  (forall i l c m, (i < length (managers c0))%nat -> length (managers c) = length (managers c0) ->
     managers c !! i = Some m -> I i l c ->
     exists a p' m', f i m (co_pool c, m) = (Ok a, (p', m')) /\ I (S i) (l ++ [a]) (put i p' m' c)) ->
  exists l c', each_manager f c0 = (Ok l, c') /\ I (length (managers c0)) l c' /\ length (managers c') = length (managers c0).
Proof.
  intros H0 Hstep. unfold each_manager. msteps. set (n := length (managers c0)) in *.
  destruct (mmapM_ok (fun i => on_manager i (m ← gets snd; f i m))
    (fun done_ l c => I (length done_) l c /\ length (managers c) = n) (seq 0 n)) with (s := c0) as (l & c' & R1 & HI & Hlen).
  - intros done_ l c x todo Hl [HI Hlen].
    assert (length done_ = x /\ x < n)%nat as [Hx Hxn].
    { assert (seq 0 n !! length done_ = Some x) as Hlk by (rewrite Hl; by apply list_lookup_middle).
      apply lookup_seq in Hlk. lia. }
    rewrite Hx in HI. destruct (lookup_lt_is_Some_2 (managers c) x ltac:(lia)) as [m Hm].
    destruct (Hstep x l c m ltac:(lia) Hlen Hm HI) as (a & p' & m' & Rf & HI').
    exists a, (put x p' m' c). split.
    + apply (on_manager_ok x _ c m); [done|]. msteps. exact Rf.
    + rewrite length_app, Nat.add_1_r, Hx. split; [done|]. unfold put. cbn. by rewrite length_insert.
  - done.
  - exists l, c'. rewrite length_seq in HI. done.
Qed.

End facts.
End CoordSession.
