(* ===== verification/KVManager.v ===== *)
(** The interface of the scheduler to the KV cache: [v1/core/kv_cache_manager.py],
    with the statistics of [v1/metrics/stats.py].

    The object shared between callers is [empty_kv_cache_blocks]: whether a
    [KVCacheBlocks] is that very object decides if [allocate_slots] adopts cached
    blocks, so the two cases are the constructors of [KVCacheBlocks]. *)

From S2P Require Import Prelude FreeQueue Request Hashing Metrics BlockPool KVSpec SingleType Coordinator.
Local Open Scope Z_scope.

(** ** Statistics *)

Record PrefixCacheStats := {
  st_reset : bool;
  st_requests : Z; st_queries : Z; st_hits : Z;
  preempted_requests : Z; preempted_queries : Z; preempted_hits : Z;
}.

Module Stats.

Definition new : PrefixCacheStats :=
  {| st_reset := false; st_requests := 0; st_queries := 0; st_hits := 0;
     preempted_requests := 0; preempted_queries := 0; preempted_hits := 0 |}.

Definition record (num_tokens num_hits : Z) (preempted : bool) (s : PrefixCacheStats) : PrefixCacheStats :=
  if preempted then
    {| s with preempted_requests := preempted_requests s + 1;
              preempted_queries := preempted_queries s + num_tokens;
              preempted_hits := preempted_hits s + num_hits |}
  else
    {| s with st_requests := st_requests s + 1; st_queries := st_queries s + num_tokens;
              st_hits := st_hits s + num_hits |}.

(** [CachingMetrics]: totals over the most recent requests. *)
Record CachingMetrics := {
  max_recent_requests : Z;
  aggregated_requests : Z;
  aggregated_query_total : Z;
  aggregated_query_hit : Z;
  query_queue : list (Z * Z * Z);
}.

Definition metrics_new (max_recent_requests : Z) : CachingMetrics :=
  {| max_recent_requests := max_recent_requests; aggregated_requests := 0; aggregated_query_total := 0;
     aggregated_query_hit := 0; query_queue := [] |}.

Definition metrics_reset (c : CachingMetrics) : CachingMetrics := metrics_new (max_recent_requests c).

(** [while len(self.query_queue) > 1 and self.aggregated_requests > max: popleft];
    it recurs on the queue. *)
Fixpoint drop_oldest (max_recent_requests requests queries hits : Z) (queue : list (Z * Z * Z))
  : Z * Z * Z * list (Z * Z * Z) :=
  match queue with
  | (r, q, h) :: ((_ :: _) as rest) =>
      if max_recent_requests <? requests
      then drop_oldest max_recent_requests (requests - r) (queries - q) (hits - h) rest
      else (requests, queries, hits, queue)
  | _ => (requests, queries, hits, queue)
  end.

Definition observe (stats : PrefixCacheStats) (c : CachingMetrics) : CachingMetrics :=
  let c := if st_reset stats then metrics_reset c else c in
  if st_requests stats =? 0 then c
  else
    let '(requests, queries, hits, queue) :=
      drop_oldest (max_recent_requests c)
        (aggregated_requests c + st_requests stats) (aggregated_query_total c + st_queries stats)
        (aggregated_query_hit c + st_hits stats)
        (query_queue c ++ [(st_requests stats, st_queries stats, st_hits stats)]) in
    {| c with aggregated_requests := requests; aggregated_query_total := queries;
              aggregated_query_hit := hits; query_queue := queue |}.

Definition metrics_empty (c : CachingMetrics) : bool := aggregated_requests c =? 0.

(** [hit_rate]: the ratio as numerator and denominator; 0.0 when nothing was queried. *)
Definition hit_rate (c : CachingMetrics) : Z * Z :=
  if aggregated_query_total c =? 0 then (0, 1) else (aggregated_query_hit c, aggregated_query_total c).

End Stats.

(** ** Allocation results *)

Inductive KVCacheBlocks :=
  | EmptyBlocks                              (** [self.empty_kv_cache_blocks] *)
  | NewBlocks (blocks : list (list ref)).

Record KVCacheManager := {
  coordinator : Coordinator;
  max_model_len : Z;
  km_enable_caching : bool;
  log_stats : bool;
  prefix_cache_stats : option PrefixCacheStats;
}.

Module KV.

(** [.blocks]: for the empty object, one empty tuple per group. *)
Definition blocks_of (num_groups : nat) (b : KVCacheBlocks) : list (list ref) :=
  match b with EmptyBlocks => replicate num_groups [] | NewBlocks blocks => blocks end.

(** [any(blocks)] *)
Definition create_kv_cache_blocks (blocks : list (list ref)) : KVCacheBlocks :=
  if existsb (fun g => 0 <? zlen g) blocks then NewBlocks blocks else EmptyBlocks.

(** [__add__]: zip of the groups. *)
Definition add (a b : list (list ref)) : list (list ref) := zip_with app a b.

Definition get_block_ids (p : BlockPool) (blocks : list (list ref)) : list (list Z) :=
  map (map (fun r => block_id (Pool.obj p r))) blocks.

(** [get_block_ids(allow_none=True)] *)
Definition get_block_ids_or_none (p : BlockPool) (blocks : list (list ref)) : option (list (list Z)) :=
  if forallb (fun g => zlen g =? 0) blocks then None else Some (get_block_ids p blocks).

Definition get_unhashed_block_ids (p : BlockPool) (blocks : list (list ref)) : res (list Z) :=
  match blocks with
  | [group] =>
      Ok ((fun r => block_id (Pool.obj p r)) <$> filter (fun r => block_hash (Pool.obj p r) = None) group)
  | _ => Raise AssertionError
  end.

Definition get_unhashed_block_ids_all_groups (p : BlockPool) (blocks : list (list ref)) : list (list Z) :=
  map (fun group => (fun r => block_id (Pool.obj p r)) <$>
     filter (fun r => block_hash (Pool.obj p r) = None /\ is_null (Pool.obj p r) = false) group) blocks.

Section manager.
Context {E : Env}.

Definition init (config : KVCacheConfig) (max_model_len hash_block_size : Z)
    (enable_caching use_eagle log_stats enable_kv_cache_events : bool) (dcp_world_size pcp_world_size : Z)
    (metrics_collector : option KVCacheMetricsCollector) : res KVCacheManager :=
  c ← Coordinator.init config use_eagle enable_caching enable_kv_cache_events dcp_world_size pcp_world_size
        hash_block_size metrics_collector;
  Ok {| coordinator := c; max_model_len := max_model_len; km_enable_caching := enable_caching;
        log_stats := log_stats; prefix_cache_stats := if log_stats then Some Stats.new else None |}.

Abbreviation KM := (M KVCacheManager).

Definition on_coordinator {A} : M Coordinator A -> KM A :=
  zoom coordinator (fun c s => {| s with coordinator := c |}).
Definition on_pool {A} (c : M BlockPool A) : KM A :=
  on_coordinator (zoom co_pool (fun p c => {| c with co_pool := p |}) c).

Definition num_groups (s : KVCacheManager) : nat := length (managers (coordinator s)).

Definition usage (s : KVCacheManager) : Z * Z := Pool.get_usage (co_pool (coordinator s)).

Definition make_prefix_cache_stats : KM (option PrefixCacheStats) :=
  s ← gets id;
  if negb (log_stats s) then mret None
  else
    modify (fun s => {| s with prefix_cache_stats := Some Stats.new |}) ;;
    mret (prefix_cache_stats s).

Definition get_computed_blocks (request : Request) : KM (KVCacheBlocks * Z) :=
  s ← gets id;
  if negb (km_enable_caching s) || skip_reading_prefix_cache request then mret (EmptyBlocks, 0)
  else
    let max_cache_hit_length := num_tokens request - 1 in
    '(computed_blocks, num_new_computed_tokens) ←
      lift_res (Coordinator.find_longest_cache_hit (coordinator s) (block_hashes request) max_cache_hit_length);
    (if log_stats s then
       match prefix_cache_stats s with
       | None => raise AssertionError
       | Some st =>
           modify (fun s => {| s with prefix_cache_stats :=
             Some (Stats.record (num_tokens request) num_new_computed_tokens (0 <? num_preemptions request) st) |})
       end
     else mret tt) ;;
    mret (create_kv_cache_blocks computed_blocks, num_new_computed_tokens).

Definition can_fit_full_sequence (request : Request) (num_new_computed_tokens : Z)
    (new_computed_blocks : option KVCacheBlocks) (num_external_computed_tokens num_encoder_tokens : Z) : KM bool :=
  s ← gets id;
  let new_computed_block_list := blocks_of (num_groups s) (default EmptyBlocks new_computed_blocks) in
  let num_local_computed_tokens := num_computed_tokens request + num_new_computed_tokens in
  let total_computed_tokens := Z.min (num_local_computed_tokens + num_external_computed_tokens) (max_model_len s) in
  let full_num_tokens := Z.min (num_tokens request) (max_model_len s) in
  n ← on_coordinator (Coordinator.get_num_blocks_to_allocate (request_id request) full_num_tokens
        new_computed_block_list num_encoder_tokens total_computed_tokens full_num_tokens);
  gets (fun s => n <=? Pool.get_num_free_blocks (co_pool (coordinator s))).

(** [allocate_slots] also runs on the request, through [cache_blocks]. *)
Definition on_manager {A} : KM A -> M (KVCacheManager * Request) A := on_fst.

Definition on_coordinator_request {A} : M (Coordinator * Request) A -> M (KVCacheManager * Request) A :=
  zoom (fun s => (coordinator s.1, s.2)) (fun t s => ({| (s.1) with coordinator := t.1 |}, t.2)).

Definition is_empty_object (b : KVCacheBlocks) : bool := match b with EmptyBlocks => true | NewBlocks _ => false end.

Definition allocate_slots (num_new_tokens num_new_computed_tokens : Z) (new_computed_blocks : option KVCacheBlocks)
    (num_lookahead_tokens num_external_computed_tokens : Z) (delay_cache_blocks : bool) (num_encoder_tokens : Z)
  : M (KVCacheManager * Request) (option KVCacheBlocks) :=
  if (num_new_tokens =? 0) && (num_external_computed_tokens =? 0) then raise ValueError
  else
    '(s, request) ← gets id;
    let given := default EmptyBlocks new_computed_blocks in
    let new_computed_block_list := blocks_of (num_groups s) given in
    let num_local_computed_tokens := num_computed_tokens request + num_new_computed_tokens in
    let total_computed_tokens := Z.min (num_local_computed_tokens + num_external_computed_tokens) (max_model_len s) in
    let num_tokens_main_model := total_computed_tokens + num_new_tokens in
    let num_tokens_need_slot := Z.min (num_tokens_main_model + num_lookahead_tokens) (max_model_len s) in
    on_manager (on_coordinator (Coordinator.remove_skipped_blocks (request_id request) total_computed_tokens)) ;;
    num_blocks_to_allocate ←
      on_manager (on_coordinator (Coordinator.get_num_blocks_to_allocate (request_id request) num_tokens_need_slot
        new_computed_block_list num_encoder_tokens (num_local_computed_tokens + num_external_computed_tokens)
        num_tokens_main_model));
    free ← gets (fun s => Pool.get_num_free_blocks (co_pool (coordinator s.1)));
    if free <? num_blocks_to_allocate then mret None
    else
      (if negb (is_empty_object given) || (0 <? num_external_computed_tokens) then
         on_manager (on_coordinator (Coordinator.allocate_new_computed_blocks (request_id request)
           new_computed_block_list num_local_computed_tokens num_external_computed_tokens))
       else mret tt) ;;
      new_blocks ←
        on_manager (on_coordinator (Coordinator.allocate_new_blocks (request_id request) num_tokens_need_slot
          num_tokens_main_model num_encoder_tokens));
      if negb (km_enable_caching s) || delay_cache_blocks then mret (Some (create_kv_cache_blocks new_blocks))
      else
        let num_tokens_to_cache := Z.min (total_computed_tokens + num_new_tokens) (num_tokens request) in
        on_coordinator_request (Coordinator.cache_blocks num_tokens_to_cache) ;;
        mret (Some (create_kv_cache_blocks new_blocks)).

Definition free (request : Request) : KM unit := on_coordinator (Coordinator.free (request_id request)).

Definition remove_skipped_blocks (request_id : string) (total_computed_tokens : Z) : KM unit :=
  on_coordinator (Coordinator.remove_skipped_blocks request_id total_computed_tokens).

Definition evict_blocks (block_ids : list Z) : KM unit := on_pool (Pool.evict_blocks block_ids).

Definition reset_prefix_cache : KM bool :=
  ok ← on_pool Pool.reset_prefix_cache;
  if negb ok then mret false
  else
    s ← gets id;
    (if log_stats s then
       match prefix_cache_stats s with
       | None => raise AssertionError
       | Some st => modify (fun s => {| s with prefix_cache_stats := Some {| st with st_reset := true |} |})
       end
     else mret tt) ;;
    mret true.

Definition get_num_common_prefix_blocks (running_request_id : string) : KM (list Z) :=
  on_coordinator (Coordinator.get_num_common_prefix_blocks running_request_id).

Definition take_events : KM (list KVCacheEvent) := on_pool Pool.take_events.

Definition get_blocks (request_id : string) (s : KVCacheManager) : KVCacheBlocks :=
  create_kv_cache_blocks (Coordinator.get_blocks request_id (coordinator s)).

Definition get_request_block_ids (request_id : string) (s : KVCacheManager) : list (list Z) :=
  get_block_ids (co_pool (coordinator s)) (blocks_of (num_groups s) (get_blocks request_id s)).

Definition cache_blocks (num_computed_tokens : Z) : M (KVCacheManager * Request) unit :=
  s ← gets id;
  if km_enable_caching s.1 then on_coordinator_request (Coordinator.cache_blocks num_computed_tokens)
  else mret tt.

(** Draining the ids of new blocks, manager by manager. *)
Definition take_new_block_ids : KM (list Z) :=
  ids ← on_coordinator (Coordinator.each_manager (fun _ _ => Manager.take_new_block_ids));
  mret (concat ids).

Definition new_step_starts : KM unit := on_coordinator Coordinator.new_step_starts.

End manager.
End KV.
