(* ===== verification/KVFacts.v ===== *)
(** Correctness of [KVCacheManager.allocate_slots] over several groups.

    [allocate_slots] runs five loops over the managers: it releases the blocks
    that left the window, asks every group how many blocks it needs, and, when the
    pool has enough, adopts the cached blocks, allocates and caches.  Each loop is
    a phase: one turn of it preserves the invariant of the coordinator and touches
    the blocks of the request only. *)

From S2P Require Import Prelude FreeQueue Request Hashing Metrics BlockPool KVSpec SingleType Group Coordinator CoordFacts KVManager.
Local Open Scope Z_scope.

(** ** Phases *)

Module Phases.
Import Pool PoolFacts PoolSession Session Accounting GroupSession Effects CoordSession Coordinator.

(** What the calls for one request leave alone: the configuration, and the blocks
    of the other requests. *)
Record evolves (rid : string) (c c' : Coordinator) : Prop := {
  ev_frame : c' = {| c with co_pool := co_pool c'; managers := managers c' |};
  ev_pool : config (co_pool c') = config (co_pool c);
  ev_length : length (managers c') = length (managers c);
  ev_managers : forall i m m', managers c !! i = Some m -> managers c' !! i = Some m' ->
    mgr_config m' = mgr_config m
    /\ forall rid', rid' <> rid -> Manager.blocks_of rid' m' = Manager.blocks_of rid' m;
}.

(** The sum over the first [n] groups. *)
Fixpoint sum_to (f : nat -> Z) (n : nat) : Z :=
  match n with O => 0 | S n' => sum_to f n' + f n' end.

Section phases.
Context {E : Env}.

Lemma sum_to_ext f g n : (forall i, (i < n)%nat -> f i = g i) -> sum_to f n = sum_to g n.
Proof. induction n as [|n IH]; intros H; [done|]. cbn. rewrite IH, H; auto with lia. Qed.

Lemma sum_to_add f g n : sum_to (fun i => f i + g i) n = sum_to f n + sum_to g n.
Proof. induction n as [|n IH]; cbn; lia. Qed.

Lemma sum_to_mono f n k : (forall i, 0 <= f i) -> (k <= n)%nat -> sum_to f k <= sum_to f n.
Proof. intros Hf. induction 1 as [|n _ IH]; [lia|]. cbn. specialize (Hf n). lia. Qed.

Lemma foldl_sum f n a : foldl Z.add a (f <$> seq 0 n) = a + sum_to f n.
Proof.
  revert a. induction n as [|n IH]; intros a; [cbn; lia|].
  rewrite seq_S, fmap_app, foldl_app, IH. cbn. lia.
Qed.

Lemma evolves_refl rid c : evolves rid c c.
Proof. split; try done; [by destruct c|]. intros i m m' H1 H2. rewrite H1 in H2. by injection H2 as <-. Qed.

Lemma evolves_trans rid c c1 c2 : evolves rid c c1 -> evolves rid c1 c2 -> evolves rid c c2.
Proof.
  intros H1 H2. split.
  - rewrite (ev_frame _ _ _ H2), (ev_frame _ _ _ H1). done.
  - by rewrite (ev_pool _ _ _ H2), (ev_pool _ _ _ H1).
  - by rewrite (ev_length _ _ _ H2), (ev_length _ _ _ H1).
  - intros i m m2 Hm Hm2. pose proof (lookup_lt_Some _ _ _ Hm) as Hlt. rewrite <- (ev_length _ _ _ H1) in Hlt.
    destruct (lookup_lt_is_Some_2 _ _ Hlt) as [m1 Hm1].
    destruct (ev_managers _ _ _ H1 i m m1 Hm Hm1) as [A1 B1]. destruct (ev_managers _ _ _ H2 i m1 m2 Hm1 Hm2) as [A2 B2].
    split; [congruence|]. intros rid' Hr. rewrite B2, B1; done.
Qed.

Lemma evolves_put rid i c m p' m' : managers c !! i = Some m -> effect (co_pool c) p' m m' rid ->
  evolves rid c (put i p' m' c).
Proof.
  intros Hi He. split; [done|apply He|unfold put; cbn; by rewrite length_insert|].
  intros j mj mj' Hj. unfold put. cbn [managers]. destruct (decide (i = j)) as [<-|Hne].
  - rewrite list_lookup_insert_eq by (by eapply lookup_lt_Some). intros [= <-].
    rewrite Hi in Hj. injection Hj as <-. split; [apply He|]. apply He.
  - rewrite list_lookup_insert_ne by done. rewrite Hj. by intros [= <-].
Qed.

(** A turn that writes back what it read. *)
Lemma put_same i c m : managers c !! i = Some m -> put i (co_pool c) m c = c.
Proof. intros Hi. unfold put. rewrite list_insert_id by done. by destruct c. Qed.

Lemma coord_group c free i m : coord_ok c free -> managers c !! i = Some m ->
  group_ok (co_pool c) m (others i (managers c)) free /\ plain_manager m.
Proof. intros Hc. apply (c_group _ _ Hc). Qed.

(** What one turn of a phase does: [R] relates the coordinator and the free queue
    to the number of groups already treated, [Post] what the group's turn did. *)
Definition turn {A} (f : nat -> Manager -> M (BlockPool * Manager) A) (rid : string)
    (R : nat -> Coordinator -> list ref -> Prop) (Post : nat -> Manager -> A -> Manager -> Prop)
    (c0 : Coordinator) : Prop :=
  forall i m c free, coord_ok c free -> evolves rid c0 c -> managers c !! i = Some m -> managers c0 !! i = Some m ->
    R i c free ->
    exists a p' m' free', f i m (co_pool c, m) = (Ok a, (p', m'))
      /\ group_ok p' m' (others i (managers c)) free' /\ effect (co_pool c) p' m m' rid
      /\ Post i m a m' /\ R (S i) (put i p' m' c) free'.

Lemma phase_ok {A} (f : nat -> Manager -> M (BlockPool * Manager) A) rid R Post c0 free0 :
  coord_ok c0 free0 -> turn f rid R Post c0 -> R 0%nat c0 free0 ->
  exists l c' free', each_manager f c0 = (Ok l, c') /\ coord_ok c' free' /\ evolves rid c0 c'
    /\ R (length (managers c0)) c' free'
    /\ forall i m, managers c0 !! i = Some m ->
         exists a m', l !! i = Some a /\ managers c' !! i = Some m' /\ Post i m a m'.
Proof.
  intros Hc0 Hturn HR0. set (n := length (managers c0)).
  destruct (each_manager_ok f (fun i l c => length l = i /\ evolves rid c0 c
      /\ (exists free, coord_ok c free /\ R i c free)
      /\ (forall j, (i <= j)%nat -> managers c !! j = managers c0 !! j)
      /\ forall j m, (j < i)%nat -> managers c0 !! j = Some m ->
           exists a m', l !! j = Some a /\ managers c !! j = Some m' /\ Post j m a m') c0)
    as (l & c' & R1 & (Hll & Hev & [free' [Hc' HR']] & _ & HP) & _).
  - split; [done|]. split; [apply evolves_refl|]. split; [by eexists|]. split; [done|]. intros j m Hj. lia.
  - intros i l c m Hi Hlen Hm (Hll & Hev & [free [Hc HR]] & Hsame & HP).
    rewrite Hsame in Hm by done.
    assert (managers c !! i = Some m) as Hmc by by rewrite Hsame.
    destruct (Hturn i m c free Hc Hev Hmc Hm HR) as (a & p' & m' & free' & Rf & Hg & He & HPost & HR').
    exists a, p', m'. split; [done|]. split; [rewrite length_app; cbn; lia|].
    split; [eapply evolves_trans, evolves_put; done|].
    split; [exists free'; split; [by eapply coord_put|done]|].
    assert (i < length (managers c))%nat as Hlt by by eapply lookup_lt_Some.
    split.
    + intros j Hj. unfold put. cbn [managers]. rewrite list_lookup_insert_ne by lia. apply Hsame. lia.
    + intros j mj Hj Hmj. unfold put. cbn [managers]. destruct (decide (j = i)) as [->|Hne].
      * rewrite Hm in Hmj. injection Hmj as <-. exists a, m'.
        rewrite lookup_app_r, Hll, Nat.sub_diag by lia. by rewrite list_lookup_insert_eq.
      * rewrite lookup_app_l, list_lookup_insert_ne by lia. apply HP; [lia|done].
  - exists l, c', free'. do 4 (split; [done|]). intros i m Hi. apply HP; [by eapply lookup_lt_Some|done].
Qed.

(** A phase that only reads. *)
Lemma reading_phase {A} (f : nat -> Manager -> M (BlockPool * Manager) A) (g : nat -> A) c :
  (forall i m, managers c !! i = Some m -> f i m (co_pool c, m) = (Ok (g i), (co_pool c, m))) ->
  each_manager f c = (Ok (g <$> seq 0 (length (managers c))), c).
Proof.
  intros Hf.
  destruct (each_manager_ok f (fun i l c' => c' = c /\ l = g <$> seq 0 i) c) as (l & c' & -> & [-> ->] & _); [done| |done].
  intros i l c1 m Hi _ Hm [-> ->]. exists (g i), (co_pool c), m. split; [by apply Hf|].
  rewrite put_same by done. split; [done|]. by rewrite seq_S, fmap_app.
Qed.

(** *** Releasing what left the window *)

Lemma remove_skipped_phase rid t c free : coord_ok c free -> 0 <= t ->
  exists c' free', remove_skipped_blocks rid t c = (Ok tt, c') /\ coord_ok c' free' /\ evolves rid c c'
    /\ zlen free <= zlen free'
    /\ forall i m, managers c !! i = Some m -> exists m', managers c' !! i = Some m'
         /\ zlen (Manager.blocks_of rid m') = zlen (Manager.blocks_of rid m)
         /\ num_cached_block m' = num_cached_block m.
Proof.
  intros Hc Ht.
  destruct (phase_ok (fun _ _ => Manager.remove_skipped_blocks rid t) rid
    (fun _ _ fr => zlen free <= zlen fr)
    (fun _ m _ m' => zlen (Manager.blocks_of rid m') = zlen (Manager.blocks_of rid m)
       /\ num_cached_block m' = num_cached_block m) c free Hc) as (l & c' & free' & R1 & Hc' & Hev & Hfr & HP); [|lia|].
  - intros i m c1 fr Hc1 _ Hm _ Hle. destruct (coord_group _ _ i m Hc1 Hm) as [Hg Hp].
    destruct (skip_effect rid t _ _ _ _ Hg Hp Ht) as (p' & m' & back & R1 & Hg' & He & Hl & Hn).
    exists tt, p', m', (fr ++ back). split; [done|]. split; [done|]. split; [done|].
    split; [split; [unfold zlen; by rewrite Hl|done]|]. rewrite zlen_app. pose proof (zlen_nonneg back). lia.
  - exists c', free'. unfold remove_skipped_blocks. rewrite (bind_ok _ _ _ _ _ R1). do 4 (split; [done|]).
    intros i m Hi. destruct (HP i m Hi) as (a & m' & _ & ? & ?). by exists m'.
Qed.

(** A request without blocks has nothing to release. *)
Lemma skip_nothing rid t p m : plain_manager m -> Manager.blocks_of rid m = [] ->
  exists m', Manager.remove_skipped_blocks rid t (p, m) = (Ok tt, (p, m')) /\ num_cached_block m' = num_cached_block m
    /\ Manager.blocks_of rid m' = [].
Proof.
  intros Hm Hnil.
  assert (Manager.remove_skipped_blocks rid t (p, m) = Manager.base_remove_skipped_blocks rid t (p, m)) as ->.
  { unfold Manager.remove_skipped_blocks. msteps. cbn [snd]. destruct Hm as (H1 & _). by destruct (mgr_class m). }
  unfold Manager.base_remove_skipped_blocks. msteps. cbn [snd]. destruct (_ <=? 0); [by exists m|].
  rewrite (bind_ok _ _ _ _ _ (access_ok rid p m)), Hnil.
  assert (forall x, Z.to_nat (Z.min x (zlen (@nil ref))) = 0%nat) as -> by (intros x; unfold zlen; cbn; lia).
  cbn [Manager.skip_loop]. rewrite (bind_ok _ _ _ _ _ (store_blocks_ok rid [] [] p m)). exists (with_blocks rid [] m).
  split; [by destruct p|]. split; [done|]. apply blocks_of_with.
Qed.

Lemma remove_nothing_phase rid t c free : coord_ok c free -> 0 <= t ->
  (forall i m, managers c !! i = Some m -> Manager.blocks_of rid m = []) ->
  exists c', remove_skipped_blocks rid t c = (Ok tt, c') /\ co_pool c' = co_pool c.
Proof.
  intros Hc Ht Hnil.
  destruct (phase_ok (fun _ _ => Manager.remove_skipped_blocks rid t) rid
    (fun _ c1 _ => co_pool c1 = co_pool c) (fun _ _ _ _ => True) c free Hc) as (l & c' & free' & R1 & _ & _ & Hp & _);
    [|done|].
  - intros i m c1 fr Hc1 _ Hm Hm0 Hpool. destruct (coord_group _ _ i m Hc1 Hm) as [Hg Hp].
    destruct (skip_effect rid t _ _ _ _ Hg Hp Ht) as (p' & m' & back & R1 & Hg' & He & _).
    destruct (skip_nothing rid t (co_pool c1) m Hp (Hnil i m Hm0)) as (m2 & R2 & _). rewrite R1 in R2. injection R2 as -> <-.
    by exists tt, (co_pool c1), m', (fr ++ back).
  - exists c'. unfold remove_skipped_blocks. by rewrite (bind_ok _ _ _ _ _ R1).
Qed.

(** *** Freeing *)

Lemma free_phase rid c fr : coord_ok c fr ->
  exists c' free', free rid c = (Ok tt, c') /\ coord_ok c' free' /\ evolves rid c c'
    /\ forall i m, managers c' !! i = Some m -> Manager.blocks_of rid m = [].
Proof.
  intros Hc.
  destruct (phase_ok (fun _ _ => Manager.free rid) rid (fun _ _ _ => True)
    (fun _ m _ m' => Manager.blocks_of rid m' = []) c fr Hc) as (l & c' & free' & R1 & Hc' & Hev & _ & HP); [|done|].
  - intros i m c1 fr1 Hc1 _ Hm _ _. destruct (coord_group _ _ i m Hc1 Hm) as [Hg Hp].
    destruct (free_effect rid _ _ _ _ Hg) as (p' & m' & back & R1 & Hg' & He & Hl).
    by exists tt, p', m', (fr1 ++ back).
  - exists c', free'. unfold free. rewrite (bind_ok _ _ _ _ _ R1). do 3 (split; [done|]).
    intros i m' Hi. pose proof (lookup_lt_Some _ _ _ Hi) as Hlt. rewrite (ev_length _ _ _ Hev) in Hlt.
    destruct (lookup_lt_is_Some_2 _ _ Hlt) as [m Hm]. destruct (HP i m Hm) as (a & m2 & _ & Hm2 & Hb).
    rewrite Hi in Hm2. by injection Hm2 as <-.
Qed.

(** *** Allocating *)

(** The blocks that the group of [m] misses for [n] tokens. *)
Definition missing (rid : string) (n : Z) (m : Manager) : Z :=
  Z.max (cdiv n (mgr_block_size m) - zlen (Manager.blocks_of rid m)) 0.

(** A figure of the [i]-th group. *)
Definition of_group (f : Manager -> Z) (c : Coordinator) (i : nat) : Z :=
  match managers c !! i with Some m => f m | None => 0 end.

Lemma of_group_some f c i m : managers c !! i = Some m -> of_group f c i = f m.
Proof. unfold of_group. by intros ->. Qed.

Lemma effect_block_size p p' m m' rid : effect p p' m m' rid -> mgr_block_size m' = mgr_block_size m.
Proof. intros He. pose proof (e_config _ _ _ _ _ He) as H. unfold mgr_config in H. by injection H. Qed.

Lemma allocate_phase rid n main enc c free :
  coord_ok c free -> sum_to (of_group (missing rid n) c) (length (managers c)) <= zlen free ->
  exists new c' free', allocate_new_blocks rid n main enc c = (Ok new, c') /\ coord_ok c' free' /\ evolves rid c c'
    /\ zlen free' = zlen free - sum_to (of_group (missing rid n) c) (length (managers c))
    /\ forall i m, managers c !! i = Some m -> exists m' b, managers c' !! i = Some m' /\ new !! i = Some b
         /\ Manager.blocks_of rid m' = Manager.blocks_of rid m ++ b /\ zlen b = missing rid n m
         /\ num_cached_block m' = num_cached_block m.
Proof.
  intros Hc Hsum. set (total := length (managers c)) in *. set (g := of_group (missing rid n) c) in *.
  assert (forall i, 0 <= g i) as Hg0 by (intros i; unfold g, of_group, missing; case_match; lia).
  destruct (phase_ok (fun _ m => Manager.allocate_new_blocks rid (if is_cross m then enc else n) main) rid
    (fun i _ fr => zlen fr = zlen free - sum_to g i)
    (fun _ m b m' => Manager.blocks_of rid m' = Manager.blocks_of rid m ++ b /\ zlen b = missing rid n m
       /\ num_cached_block m' = num_cached_block m) c free Hc) as (l & c' & free' & R1 & Hc' & Hev & Hfr & HP); [|cbn; lia|].
  - intros i m c1 fr Hc1 _ Hm Hm0 Hfr. destruct (coord_group _ _ i m Hc1 Hm) as [Hg Hp].
    assert (is_cross m = false) as -> by (apply bool_decide_eq_false, Hp).
    assert (g i = missing rid n m) as Ei by (by apply of_group_some).
    pose proof (lookup_lt_Some _ _ _ Hm0). pose proof (sum_to_mono g total (S i) Hg0 ltac:(lia)) as Hmono. cbn in Hmono.
    destruct (allocate_effect rid n main _ m _ fr Hg Hp) as (p' & m' & new & Rf & Hg' & He & Hb & Hn & Hl).
    { unfold missing in Ei. lia. }
    exists new, p', m', (drop (Z.to_nat (cdiv n (mgr_block_size m) - zlen (Manager.blocks_of rid m))) fr).
    do 3 (split; [done|]). split; [done|].
    unfold missing in Ei. cbn [sum_to]. unfold zlen in *. rewrite length_drop. lia.
  - exists l, c', free'. do 4 (split; [done|]). intros i m Hi. destruct (HP i m Hi) as (b & m' & ? & ? & ? & ? & ?).
    by exists m', b.
Qed.

(** *** Adopting cached blocks *)

Definition skipped_blocks (t : Z) (m : Manager) : Z := Manager.get_num_skipped_tokens m t / mgr_block_size m.

(** The cached blocks [l] that a group takes over, null blocks in front. *)
Definition adopted (t : Z) (l : list ref) (m : Manager) : list ref :=
  replicate (Z.to_nat (skipped_blocks t m)) (RBlk 0) ++ drop (Z.to_nat (skipped_blocks t m)) l.

(** How many of them the free queue loses. *)
Definition taken (p : BlockPool) (t : Z) (l : list ref) (m : Manager) : Z :=
  Manager.get_num_evictable_blocks p (drop (Z.to_nat (skipped_blocks t m)) l).

(** [newc]: the hits of a new request, one list per group, all different. *)
Definition all_adoptable (c : Coordinator) (rid : string) (newc : list (list ref)) (t : Z) : Prop :=
  NoDup (nonnull (concat newc))
  /\ forall i m, managers c !! i = Some m -> exists l, newc !! i = Some l
       /\ adoptable (co_pool c) m rid l t /\ hits (co_pool c) l.

(** The figure of the [i]-th group for its list of hits. *)
Definition of_group_hits (f : list ref -> Manager -> Z) (newc : list (list ref)) (c : Coordinator) (i : nat) : Z :=
  of_group (f (default [] (newc !! i))) c i.

Lemma evictable_ext p p' fr fr' l : pool_core p fr -> pool_core p' fr' ->
  (forall r, r ∈ l -> is_blk r /\ (r <> RBlk 0 -> refc p' r = refc p r)) ->
  Manager.get_num_evictable_blocks p' l = Manager.get_num_evictable_blocks p l.
Proof.
  intros Hc Hc' Hl. unfold Manager.get_num_evictable_blocks. do 2 f_equal. apply filter_ext_in. intros r Hr.
  destruct (Hl r Hr) as [Hb Href]. rewrite (pc_is_null _ _ Hc r Hb), (pc_is_null _ _ Hc' r Hb), bool_decide_eq_false.
  unfold refc in Href. split; intros [? ?]; (split; [|done]); [rewrite <- Href|rewrite Href]; done.
Qed.

Lemma external_none m kept t ext : ext <= 0 -> num_external_blocks m kept t ext = 0.
Proof. intros H. unfold num_external_blocks. cbv zeta.
  match goal with |- (if 0 <? ?x then _ else _) = _ => replace (0 <? x) with false; [done|] end.
  symmetry. apply Z.ltb_ge. destruct (0 <? _); lia.
Qed.

Lemma concat_disjoint {A} (ls : list (list A)) i j l l' x : NoDup (concat ls) -> ls !! i = Some l -> ls !! j = Some l' ->
  i <> j -> x ∈ l -> x ∉ l'.
Proof.
  revert i j. induction ls as [|l0 ls IH]; intros [|i] [|j]; cbn; try done; rewrite NoDup_app;
    intros (_ & Hd & Hnd); intros Hi Hj Hne Hx Hx'.
  - injection Hi as ->. apply (Hd x Hx). apply list_elem_of_In, in_concat. exists l'. rewrite <- !list_elem_of_In.
    split; [by eapply list_elem_of_lookup_2|done].
  - injection Hj as ->. apply (Hd x Hx'). apply list_elem_of_In, in_concat. exists l. rewrite <- !list_elem_of_In.
    split; [by eapply list_elem_of_lookup_2|done].
  - by apply (IH i j Hnd Hi Hj) in Hx'; [|congruence|].
Qed.

Lemma nonnull_concat ls : nonnull (concat ls) = concat (nonnull <$> ls).
Proof. induction ls as [|l ls IH]; [done|]. cbn. by rewrite nonnull_app, IH. Qed.

Lemma adopt_phase rid newc t ext c free : coord_ok c free -> all_adoptable c rid newc (t + ext) -> 0 <= t + ext -> ext <= 0 ->
  let cost := of_group_hits (taken (co_pool c) (t + ext)) newc c in
  sum_to cost (length (managers c)) <= zlen free ->
  exists c' free', allocate_new_computed_blocks rid newc t ext c = (Ok tt, c') /\ coord_ok c' free' /\ evolves rid c c'
    /\ zlen free' = zlen free - sum_to cost (length (managers c))
    /\ forall i m, managers c !! i = Some m -> exists m' l, managers c' !! i = Some m' /\ newc !! i = Some l
         /\ Manager.blocks_of rid m' = adopted (t + ext) l m.
Proof.
  intros Hc [Hnd Hall] Ht Hext cost Hsum. set (p0 := co_pool c) in *. rewrite nonnull_concat in Hnd.
  assert (forall i, 0 <= cost i) as Hg0.
  { intros i. unfold cost, of_group_hits, of_group, taken. case_match; [apply zlen_nonneg|lia]. }
  assert (forall c1 fr, coord_ok c1 fr -> pool_core (co_pool c1) fr) as Hcore by (intros c1 fr H1; apply (po_core _ _ (s_pool _ _ _ (c_ses _ _ H1)))).
  destruct (phase_ok (fun i _ => blocks ← lift_res (nth_blocks i newc);
      Manager.allocate_new_computed_blocks rid blocks t ext) rid
    (fun i c1 fr => zlen fr = zlen free - sum_to cost i
       /\ forall r, is_blk r -> keyof (co_pool c1) r = keyof p0 r
            /\ forall j l, (i <= j)%nat -> newc !! j = Some l -> r ∈ l -> r <> RBlk 0 -> refc (co_pool c1) r = refc p0 r)
    (fun i m _ m' => exists l, newc !! i = Some l /\ Manager.blocks_of rid m' = adopted (t + ext) l m) c free Hc)
    as (l & c' & free' & R1 & Hc' & Hev & [Hfr _] & HP).
  2: { split; [cbn; lia|done]. }
  - intros i m c1 fr Hc1 Hev1 Hm Hm0 [Hfr Hr]. destruct (coord_group _ _ i m Hc1 Hm) as [Hg Hp].
    destruct (Hall i m Hm0) as (l & Hl & (H1 & H2 & H3 & H4 & H5 & H6) & Hhit).
    pose proof (ev_pool _ _ _ Hev1) as Hcf. assert (blocks (co_pool c1) = blocks p0) as Hbl by (unfold config in Hcf; by injection Hcf).
    assert (forall r, r ∈ l -> is_blk r) as Hblk.
    { intros r Hin%H4. pose proof (pc_blocks _ _ (Hcore _ _ Hc)) as Hb0. fold p0 in Hb0. rewrite Hb0 in Hin. by apply list_elem_of_fmap in Hin as (b & -> & _). }
    assert (forall k, nth_blocks i newc = Ok l /\ lift_res (S := k) (nth_blocks i newc) = mret l) as Hnth.
    { intros k. unfold nth_blocks. rewrite py_get_nonneg, Nat2Z.id, Hl by lia. done. }
    assert (cost i = taken (co_pool c1) (t + ext) l m) as Ei.
    { unfold cost, of_group_hits. rewrite Hl, (of_group_some _ _ _ _ Hm0). cbn [default]. unfold taken. symmetry.
      eapply evictable_ext; [by apply (Hcore c)|by apply (Hcore c1)|]. intros r Hin%subseteq_drop.
      split; [by apply Hblk|]. by apply (proj2 (Hr r (Hblk r Hin)) i l). }
    pose proof (lookup_lt_Some _ _ _ Hm0). pose proof (sum_to_mono cost (length (managers c)) (S i) Hg0 ltac:(lia)) as Hmono. cbn [sum_to] in Hmono.
    destruct (adopt_effect rid l t ext _ m _ fr Hg Hp) as (p' & m' & fr' & extb & Rf & Hg' & He & Hb & Hxl & Hfr' & Hd).
    { do 3 (split; [done|]). by rewrite Hbl. }
    { intros r Hin. rewrite (proj1 (Hr r (Hblk r Hin))). by apply Hhit. }
    { done. }
    { rewrite external_none by done. fold (skipped_blocks (t + ext) m) (taken (co_pool c1) (t + ext) l m). lia. }
    rewrite external_none in Hxl, Hfr' by done. fold (skipped_blocks (t + ext) m) in Hb, Hfr', Hd.
    exists tt, p', m', fr'. split; [|split; [done|split; [done|split; [|split]]]].
    + rewrite (proj2 (Hnth _)). exact Rf.
    + exists l. split; [done|]. destruct extb; [|by rewrite zlen_cons in Hxl; pose proof (zlen_nonneg extb); lia].
      by rewrite Hb, app_nil_r.
    + cbn [sum_to]. unfold taken in Ei. lia.
    + intros r Hrb. destruct (Hd Hext r Hrb) as [Ek Er]. unfold put. cbn [co_pool]. split; [rewrite Ek; by apply Hr|].
      intros j lj Hj Hlj Hin Hne. rewrite Er by done. rewrite decide_False, Z.add_0_r; [by apply (proj2 (Hr r Hrb) j lj); [lia|..]|].
      intros Hin'%subseteq_drop. assert (i <> j) as Hij by lia.
      assert ((nonnull <$> newc) !! i = Some (nonnull l) /\ (nonnull <$> newc) !! j = Some (nonnull lj)) as [N1 N2]
        by (rewrite !list_lookup_fmap, Hl, Hlj; done).
      apply (concat_disjoint _ i j _ _ r Hnd N1 N2 Hij); by apply elem_of_nonnull.
  - exists c', free'. unfold allocate_new_computed_blocks. rewrite (bind_ok _ _ _ _ _ R1). do 4 (split; [done|]).
    intros i m Hi. destruct (HP i m Hi) as (a & m' & _ & ? & l1 & ? & ?). by exists m', l1.
Qed.

(** *** Caching *)

Lemma cache_ready_same p p' m request request' n : cache_ready p m request n -> config p' = config p ->
  same_but_cache request request' -> cache_ready p' m request' n.
Proof.
  intros H Hcf ->. unfold config in Hcf. injection Hcf. unfold cache_ready. by intros _ _ _ -> -> _.
Qed.

Lemma cache_phase n c request free : coord_ok c free ->
  (forall i m, managers c !! i = Some m -> cache_ready (co_pool c) m request n) ->
  exists c' request', cache_blocks n (c, request) = (Ok tt, (c', request')) /\ coord_ok c' free
    /\ evolves (request_id request) c c' /\ same_but_cache request request'
    /\ forall i m, managers c !! i = Some m -> exists m', managers c' !! i = Some m'
         /\ Manager.blocks_of (request_id request) m' = Manager.blocks_of (request_id request) m.
Proof.
  intros Hc Hready. set (total := length (managers c)). set (rid := request_id request).
  unfold cache_blocks. msteps. cbn [fst snd]. fold total.
  destruct (mfor_ok (fun i => on_manager_request i (Manager.cache_blocks n))
    (fun done_ s => coord_ok s.1 free /\ evolves rid c s.1 /\ same_but_cache request s.2
       /\ (forall j, (length done_ <= j)%nat -> managers s.1 !! j = managers c !! j)
       /\ forall j m, (j < length done_)%nat -> managers c !! j = Some m -> exists m', managers s.1 !! j = Some m'
            /\ Manager.blocks_of rid m' = Manager.blocks_of rid m) (seq 0 total)) with (s := (c, request))
    as ([c' rq'] & R1 & H1 & H2 & H3 & _ & H5).
  - intros done_ i todo [c1 rq] Hl (Hc1 & Hev & Hsame & Hrest & Hdone). cbn [fst snd] in *.
    assert (length done_ = i /\ i < total)%nat as [Hi Hlt].
    { assert (seq 0 total !! length done_ = Some i) as Hlk by (rewrite Hl; by apply list_lookup_middle).
      apply lookup_seq in Hlk. lia. }
    rewrite Hi in *. destruct (lookup_lt_is_Some_2 (managers c) i Hlt) as [m Hm0].
    assert (managers c1 !! i = Some m) as Hm by by rewrite Hrest.
    destruct (coord_group _ _ i m Hc1 Hm) as [Hg Hp].
    pose proof (cache_ready_same _ _ m _ _ _ (Hready i m Hm0) (ev_pool _ _ _ Hev) Hsame) as Hr.
    assert (request_id rq = rid) as Eid by (rewrite Hsame; done).
    destruct (cache_effect rq n _ m _ free Hg Hp Hr) as (p' & m' & rq' & Rf & Hg' & He & Hb & Hsame'); [by apply (c_fresh _ _ Hc1 i)|].
    rewrite Eid in He, Hb.
    exists (put i p' m' c1, rq'). unfold on_manager_request. cbn [fst snd]. rewrite Hm, Rf. split; [done|].
    rewrite length_app, Hi, Nat.add_1_r. cbn [fst snd].
    assert (i < length (managers c1))%nat by by eapply lookup_lt_Some.
    split; [by eapply coord_put|]. split; [eapply evolves_trans, evolves_put; done|].
    split; [rewrite Hsame', Hsame; done|]. unfold put. cbn [managers]. split.
    + intros j Hj. rewrite list_lookup_insert_ne by lia. apply Hrest. lia.
    + intros j mj Hj Hmj. destruct (decide (i = j)) as [<-|Hne].
      * rewrite Hm0 in Hmj. injection Hmj as <-. exists m'. by rewrite list_lookup_insert_eq.
      * rewrite list_lookup_insert_ne by done. apply Hdone; [lia|done].
  - split; [done|]. split; [apply evolves_refl|]. split; [apply same_but_cache_refl|]. split; [done|].
    cbn [length]. intros j m Hj. lia.
  - exists c', rq'. cbn [fst snd] in *. split; [exact R1|]. do 3 (split; [done|]). intros i m Hi.
    apply H5; [|done]. rewrite length_seq. by eapply lookup_lt_Some.
Qed.

(** *** Asking *)

(** A group where the request takes no hits: it is running, or what the window
    skips is not more than it holds. *)
Definition settled (m : Manager) (rid : string) (t : Z) : Prop :=
  is_Some (num_cached_block m !! rid) \/ skipped_blocks t m <= zlen (Manager.blocks_of rid m).

Lemma check_settled p m rid n t main : plain_manager m -> settled m rid t ->
  Manager.get_num_blocks_to_allocate rid n [] t main (p, m) = (Ok (missing rid n m), (p, m)).
Proof.
  intros Hm Hs. rewrite get_num_blocks_plain by done. unfold missing.
  destruct (num_cached_block m !! rid) as [nc|] eqn:Hnc.
  - apply base_check_running. split; [by exists nc|done].
  - destruct Hs as [[? ?]|Hs]; [congruence|]. unfold Manager.base_get_num_blocks_to_allocate. msteps. cbn [fst snd].
    rewrite Hnc. unfold skipped_blocks in Hs. unfold M_ret, zlen at 1. cbn [length Z.of_nat Z.add].
    rewrite Z.add_0_l, (Z.max_r (_ / _)) by done. rewrite evictable_drop, drop_nil. unfold Manager.get_num_evictable_blocks. cbn.
    by rewrite Z.add_0_r.
Qed.

Lemma check_phase rid n newc enc t main c f :
  (forall i m, managers c !! i = Some m -> plain_manager m /\ exists l, newc !! i = Some l
     /\ Manager.get_num_blocks_to_allocate rid n l t main (co_pool c, m) = (Ok (f i), (co_pool c, m))) ->
  get_num_blocks_to_allocate rid n newc enc t main c = (Ok (sum_to f (length (managers c))), c).
Proof.
  intros Hall. unfold get_num_blocks_to_allocate.
  erewrite bind_ok; [|apply (reading_phase _ f c)]; [msteps; by rewrite foldl_sum|].
  intros i m Hi. destruct (Hall i m Hi) as (Hp & l & Hl & Hrun).
  assert (is_cross m = false) as -> by (apply bool_decide_eq_false, Hp).
  unfold nth_blocks. rewrite py_get_nonneg, Nat2Z.id, Hl by lia. cbn [res_of_option]. msteps. exact Hrun.
Qed.

End phases.
End Phases.

(** ** [allocate_slots] *)

Module Slots.
Import Pool PoolFacts PoolSession Session Accounting GroupSession Effects CoordSession Coordinator Phases.

(** What a group holds for the request once the hits are adopted, and how many
    blocks of the free queue that takes. *)
Definition base_blocks (rid : string) (t : Z) (given : KVCacheBlocks) (i : nat) (m : Manager) : list ref :=
  match given with
  | EmptyBlocks => Manager.blocks_of rid m
  | NewBlocks newc => adopted t (default [] (newc !! i)) m
  end.

Definition hit_cost (p : BlockPool) (t : Z) (given : KVCacheBlocks) (i : nat) (m : Manager) : Z :=
  match given with
  | EmptyBlocks => 0
  | NewBlocks newc => taken p t (default [] (newc !! i)) m
  end.

(** What the [i]-th group needs for [n] tokens. *)
Definition to_allocate (rid : string) (n t : Z) (given : KVCacheBlocks) (i : nat) (m : Manager) : Z :=
  Z.max (cdiv n (mgr_block_size m) - zlen (base_blocks rid t given i m)) 0.

Definition required (c : Coordinator) (rid : string) (n t : Z) (given : KVCacheBlocks) : Z :=
  sum_to (fun i => of_group (to_allocate rid n t given i) c i + of_group (hit_cost (co_pool c) t given i) c i)
    (length (managers c)).

(** A request that is running or starts without hits, or a new one with hits. *)
Definition request_ready (c : Coordinator) (rid : string) (t : Z) (given : KVCacheBlocks) : Prop :=
  match given with
  | EmptyBlocks => forall i m, managers c !! i = Some m -> settled m rid t
  | NewBlocks newc => length newc = length (managers c) /\ all_adoptable c rid newc t
  end.

Section slots.
Context {E : Env}.

Lemma on_coordinator_ok {A} (X : M Coordinator A) s rq a c' : X (coordinator s) = (a, c') ->
  KV.on_manager (KV.on_coordinator X) (s, rq) = (a, ({| s with coordinator := c' |}, rq)).
Proof. intros H. unfold KV.on_manager, on_fst, KV.on_coordinator, zoom. cbn [fst snd]. by rewrite H. Qed.

(** The state of the request survives the release of its skipped blocks. *)
Lemma release_keeps_ready rid t given c free : coord_ok c free -> 0 <= t -> request_ready c rid t given ->
  exists c1 free1, remove_skipped_blocks rid t c = (Ok tt, c1) /\ coord_ok c1 free1 /\ evolves rid c c1
    /\ zlen free <= zlen free1 /\ request_ready c1 rid t given
    /\ forall i m, managers c !! i = Some m -> exists m1, managers c1 !! i = Some m1
         /\ zlen (Manager.blocks_of rid m1) = zlen (Manager.blocks_of rid m).
Proof.
  intros Hc Ht Hready.
  destruct (remove_skipped_phase rid t c free Hc Ht) as (c1 & free1 & R1 & Hc1 & Hev & Hfr & Hm1).
  exists c1, free1. do 4 (split; [done|]). split; [|intros i m Hi; destruct (Hm1 i m Hi) as (m1 & ? & ? & _); by exists m1].
  assert (forall i m1, managers c1 !! i = Some m1 -> exists m, managers c !! i = Some m /\ mgr_config m1 = mgr_config m
    /\ zlen (Manager.blocks_of rid m1) = zlen (Manager.blocks_of rid m) /\ num_cached_block m1 = num_cached_block m) as Hback.
  { intros i m1 Hi. pose proof (lookup_lt_Some _ _ _ Hi) as Hlt. rewrite (ev_length _ _ _ Hev) in Hlt.
    destruct (lookup_lt_is_Some_2 _ _ Hlt) as [m Hm]. exists m. split; [done|].
    destruct (Hm1 i m Hm) as (m2 & Hm2 & ? & ?). rewrite Hi in Hm2. injection Hm2 as <-.
    split; [by apply (ev_managers _ _ _ Hev i)|done]. }
  destruct given as [|newc]; cbn in Hready |- *.
  - intros i m1 Hi. destruct (Hback i m1 Hi) as (m & Hm & Hcf & Hl & Hn). unfold settled. rewrite Hl, Hn.
    assert (skipped_blocks t m1 = skipped_blocks t m) as ->; [|by apply (Hready i)].
    unfold mgr_config in Hcf. injection Hcf as H1 H2 H3 _ _ _. unfold skipped_blocks, Manager.get_num_skipped_tokens.
    by rewrite H2, H3.
  - destruct Hready as [Hlen [Hnd Hall]]. split; [by rewrite (ev_length _ _ _ Hev)|]. split; [done|].
    destruct (remove_nothing_phase rid t c free Hc Ht) as (c1' & R1' & Hp).
    { intros i m Hi. destruct (Hall i m Hi) as (l & _ & (_ & Hnil & _) & _). done. }
    rewrite R1 in R1'. injection R1' as <-.
    intros i m1 Hi. destruct (Hback i m1 Hi) as (m & Hm & Hcf & Hl & Hn).
    destruct (Hall i m Hm) as (l & Hli & (H1 & H2 & H3 & H4 & H5 & H6) & Hhit). exists l. split; [done|].
    unfold mgr_config in Hcf. injection Hcf as E1 E2 E3 E4 _ _. rewrite Hp. split; [|done].
    unfold adoptable. rewrite Hn, E4, E3. split; [done|]. split; [|done]. rewrite H2 in Hl. by destruct (Manager.blocks_of rid m1).
Qed.

(** The check computes [required] and changes nothing. *)
Lemma check_required rid n enc t main given c free : coord_ok c free -> request_ready c rid t given -> 0 <= t ->
  get_num_blocks_to_allocate rid n (KV.blocks_of (length (managers c)) given) enc t main c
    = (Ok (required c rid n t given), c).
Proof.
  intros Hc Hready Ht. unfold required. apply check_phase. intros i m Hi.
  destruct (coord_group _ _ i m Hc Hi) as [Hg Hp]. split; [done|]. rewrite !(of_group_some _ _ _ _ Hi).
  destruct given as [|newc]; cbn in Hready |- *.
  - exists []. split; [apply lookup_replicate; split; [done|by eapply lookup_lt_Some]|].
    rewrite Z.add_0_r. apply check_settled; [done|by apply (Hready i)].
  - destruct Hready as [Hlen [Hnd Hall]]. destruct (Hall i m Hi) as (l & Hl & Ha & _). exists l. split; [done|].
    rewrite get_num_blocks_plain, (base_check_new _ _ _ _ _ _ Ha), Hl by done.
    change (default [] (Some l)) with l.
    destruct (num_external_blocks_nonneg m l t 0 Hp (g_size _ _ _ _ Hg) Ht) as (_ & _ & Hsk & Hlk); [apply Ha|].
    unfold to_allocate. cbn [base_blocks]. rewrite Hl. change (default [] (Some l)) with l.
    assert (zlen (adopted t l m) = Z.max (skipped_blocks t m) (zlen l)) as ->; [|done].
    unfold adopted. rewrite zlen_app. unfold skipped_blocks at 3. rewrite <- Hlk. f_equal. unfold zlen. rewrite length_replicate. unfold skipped_blocks. lia.
Qed.

Lemma adopt_stage s rq rid t given free : coord_ok (coordinator s) free -> 0 <= t ->
  let c := coordinator s in
  request_ready c rid t given ->
  sum_to (fun i => of_group (hit_cost (co_pool c) t given i) c i) (length (managers c)) <= zlen free ->
  exists c' free',
    (if negb (KV.is_empty_object given) || (0 <? 0) then
       KV.on_manager (KV.on_coordinator (allocate_new_computed_blocks rid (KV.blocks_of (length (managers c)) given) t 0))
     else mret tt) (s, rq) = (Ok tt, ({| s with coordinator := c' |}, rq))
    /\ coord_ok c' free' /\ evolves rid c c'
    /\ zlen free' = zlen free - sum_to (fun i => of_group (hit_cost (co_pool c) t given i) c i) (length (managers c))
    /\ forall i m, managers c !! i = Some m -> exists m', managers c' !! i = Some m'
         /\ Manager.blocks_of rid m' = base_blocks rid t given i m.
Proof.
  intros Hc Ht c Hready Hsum. destruct given as [|newc]; cbn [KV.is_empty_object negb orb Z.ltb Z.compare].
  - exists c, free. split; [by destruct s|]. split; [done|]. split; [apply evolves_refl|]. split; [|intros i m Hi; by exists m].
    rewrite (sum_to_ext _ (fun _ => 0)); [|intros i _; unfold of_group; by case_match].
    assert (forall n, sum_to (fun _ => 0) n = 0) as ->; [|lia]. induction n; cbn; lia.
  - destruct Hready as [Hlen Hall]. cbn [KV.blocks_of].
    destruct (adopt_phase rid newc t 0 c free Hc) as (c' & free' & R1 & Hc' & Hev & Hfr & HP); rewrite ?Z.add_0_r; [done..|exact Hsum|].
    exists c', free'. rewrite (on_coordinator_ok _ _ _ _ _ R1). do 3 (split; [done|]). rewrite Z.add_0_r in Hfr, HP. split; [exact Hfr|].
    intros i m Hi. destruct (HP i m Hi) as (m' & l & Hm' & Hl & Hb). exists m'. cbn [base_blocks]. by rewrite Hl.
Qed.

(** The request may be cached up to [n] tokens in every group. *)
Definition slots_cacheable (c : Coordinator) (request : Request) (n : Z) : Prop :=
  forall i m, managers c !! i = Some m ->
    enable_caching (co_pool c) = true /\ 0 <= kv_cache_group_id m < 2 ^ 32
    /\ group_size_ok (hash_block_size (co_pool c)) (mgr_block_size m)
    /\ n / mgr_block_size m <= zlen (group_hashes request (hash_block_size (co_pool c)) (mgr_block_size m)).

Lemma cacheable_ready rid c c' request n n' : evolves rid c c' -> slots_cacheable c request n -> request_id request = rid ->
  n <= n' -> (forall i m, managers c' !! i = Some m -> 0 < mgr_block_size m /\ cdiv n' (mgr_block_size m) <= zlen (Manager.blocks_of rid m)) ->
  forall i m, managers c' !! i = Some m -> cache_ready (co_pool c') m request n.
Proof.
  intros Hev Hs Hid Hle Hb i m' Hi. pose proof (lookup_lt_Some _ _ _ Hi) as Hlt. rewrite (ev_length _ _ _ Hev) in Hlt.
  destruct (lookup_lt_is_Some_2 _ _ Hlt) as [m Hm]. destruct (ev_managers _ _ _ Hev i m m' Hm Hi) as [Hcf _].
  destruct (Hs i m Hm) as (H1 & H2 & H3 & H4). pose proof (ev_pool _ _ _ Hev) as Hp. unfold config in Hp. injection Hp as _ P2 P3 _ _ _.
  unfold mgr_config in Hcf. injection Hcf as E1 E2 E3 E4 E5 _. unfold cache_ready. rewrite P2, P3, E3, E5.
  destruct (Hb i m' Hi) as [Hbs Hcov]. rewrite E3 in Hbs, Hcov. do 3 (split; [done|]). split; [|done].
  rewrite Hid. pose proof (div_le_cdiv _ Hbs n). pose proof (cdiv_mono _ Hbs n n' Hle). lia.
Qed.

(** The end of [allocate_slots]: allocating for [n] tokens and caching up to [k]. *)
Definition allocate_and_cache (caching : bool) (rid : string) (n main enc k : Z) (delay : bool)
  : M (KVCacheManager * Request) (option KVCacheBlocks) :=
  new_blocks ← KV.on_manager (KV.on_coordinator (allocate_new_blocks rid n main enc));
  if negb caching || delay then mret (Some (KV.create_kv_cache_blocks new_blocks))
  else
    KV.on_coordinator_request (Coordinator.cache_blocks k) ;;
    mret (Some (KV.create_kv_cache_blocks new_blocks)).

Lemma allocate_stage caching s request n main enc k delay free c0 : let rid := request_id request in let c := coordinator s in
  coord_ok c free -> evolves rid c0 c ->
  sum_to (of_group (missing rid n) c) (length (managers c)) <= zlen free -> k <= n ->
  (caching = true -> delay = false -> slots_cacheable c0 request k) ->
  exists new c' request' free', allocate_and_cache caching rid n main enc k delay (s, request)
      = (Ok (Some (KV.create_kv_cache_blocks new)), ({| s with coordinator := c' |}, request'))
    /\ coord_ok c' free' /\ evolves rid c c' /\ same_but_cache request request'
    /\ zlen free' = zlen free - sum_to (of_group (missing rid n) c) (length (managers c))
    /\ forall i m, managers c !! i = Some m -> exists m' b, managers c' !! i = Some m' /\ new !! i = Some b
         /\ Manager.blocks_of rid m' = Manager.blocks_of rid m ++ b /\ zlen b = missing rid n m.
Proof.
  intros rid c Hc Hev0 Hsum Hkn Hcache.
  destruct (allocate_phase rid n main enc c free Hc Hsum) as (new & c1 & free1 & R1 & Hc1 & Hev1 & Hf1 & HP).
  unfold allocate_and_cache. msteps. cbn [fst snd]. rewrite (bind_ok _ _ _ _ _ (on_coordinator_ok _ _ _ _ _ R1)).
  destruct (negb caching || delay) eqn:Ed.
  { exists new, c1, request, free1. split; [done|]. split; [done|]. split; [done|]. split; [apply same_but_cache_refl|].
    split; [done|]. intros i m Hi. destruct (HP i m Hi) as (m' & b & ? & ? & ? & ? & _). by exists m', b. }
  breflect. specialize (Hcache ltac:(done) ltac:(done)).
  destruct (cache_phase k c1 request free1 Hc1) as (c2 & rq & R2 & Hc2 & Hev2 & Hsame & HP2).
  { apply (cacheable_ready rid c0 c1 request k n); [by eapply evolves_trans|done|done|done|].
    intros i m' Hi. pose proof (lookup_lt_Some _ _ _ Hi) as Hlt. rewrite (ev_length _ _ _ Hev1) in Hlt.
    destruct (lookup_lt_is_Some_2 _ _ Hlt) as [m Hm]. destruct (HP i m Hm) as (m1 & b & Hm1 & _ & Hb & Hl & _).
    rewrite Hi in Hm1. injection Hm1 as <-. destruct (coord_group _ _ i m' Hc1 Hi) as [Hg _].
    destruct (ev_managers _ _ _ Hev1 i m m' Hm Hi) as [Hcf _].
    assert (mgr_block_size m' = mgr_block_size m) as Ebs by (unfold mgr_config in Hcf; by injection Hcf).
    split; [apply (g_size _ _ _ _ Hg)|]. rewrite Hb, zlen_app, Hl, Ebs. unfold missing. lia. }
  exists new, c2, rq, free1. split; [|split; [done|split; [by eapply evolves_trans|split; [done|split; [done|]]]]].
  - unfold KV.on_coordinator_request, zoom, mbind, M_bind. cbn [fst snd coordinator]. by rewrite R2.
  - intros i m Hi. destruct (HP i m Hi) as (m1 & b & Hm1 & Hnb & Hb & Hl & _). destruct (HP2 i m1 Hm1) as (m2 & Hm2 & Hb2).
    exists m2, b. do 2 (split; [done|]). split; [|done]. rewrite <- Hb. exact Hb2.
Qed.

(** [allocate_slots] of a request without external tokens, as its stages. *)
Lemma allocate_slots_stages s request num_new num_new_computed new_computed lookahead delay enc :
  let rid := request_id request in let given := default EmptyBlocks new_computed in
  let t := num_computed_tokens request + num_new_computed in
  let n := Z.min (t + num_new + lookahead) (max_model_len s) in
  num_new <> 0 -> t <= max_model_len s ->
  KV.allocate_slots num_new num_new_computed new_computed lookahead 0 delay enc (s, request)
  = (KV.on_manager (KV.on_coordinator (Coordinator.remove_skipped_blocks rid t)) ;;
     k ← KV.on_manager (KV.on_coordinator (Coordinator.get_num_blocks_to_allocate rid n
           (KV.blocks_of (KV.num_groups s) given) enc t (t + num_new)));
     free ← gets (fun s => Pool.get_num_free_blocks (co_pool (coordinator s.1)));
     if free <? k then mret None
     else
       (if negb (KV.is_empty_object given) || (0 <? 0) then
          KV.on_manager (KV.on_coordinator (allocate_new_computed_blocks rid (KV.blocks_of (KV.num_groups s) given) t 0))
        else mret tt) ;;
       allocate_and_cache (km_enable_caching s) rid n (t + num_new) enc (Z.min (t + num_new) (num_tokens request)) delay) (s, request).
Proof.
  intros rid given t n Hnew Ht. unfold KV.allocate_slots. replace (num_new =? 0) with false by lia. cbn [andb].
  msteps. cbn [fst snd]. fold rid given t. rewrite Z.add_0_r, (Z.min_l t) by done. fold n. reflexivity.
Qed.

(** After the adoption, what is missing is what was to be allocated. *)
Lemma missing_after c c' rid n t given : evolves rid c c' ->
  (forall i m, managers c !! i = Some m -> exists m', managers c' !! i = Some m'
     /\ Manager.blocks_of rid m' = base_blocks rid t given i m) ->
  forall i, of_group (missing rid n) c' i = of_group (to_allocate rid n t given i) c i.
Proof.
  intros Hev HP i. unfold of_group. destruct (managers c !! i) as [m|] eqn:Hm.
  - destruct (HP i m Hm) as (m' & Hm' & Hb). rewrite Hm'. destruct (ev_managers _ _ _ Hev i m m' Hm Hm') as [Hcf _].
    unfold mgr_config in Hcf. injection Hcf as _ _ Hbs _ _ _. unfold missing, to_allocate. by rewrite Hb, Hbs.
  - assert (managers c' !! i = None) as ->; [|done]. apply lookup_ge_None. apply lookup_ge_None in Hm.
    by rewrite (ev_length _ _ _ Hev).
Qed.

Lemma required_parts c rid n t given :
  required c rid n t given = sum_to (fun i => of_group (to_allocate rid n t given i) c i) (length (managers c))
    + sum_to (fun i => of_group (hit_cost (co_pool c) t given i) c i) (length (managers c)).
Proof. apply sum_to_add. Qed.

Lemma sum_to_nonneg f n : (forall i, 0 <= f i) -> 0 <= sum_to f n.
Proof. intros Hf. induction n as [|n IH]; cbn; [lia|]. specialize (Hf n). lia. Qed.

(** What a call without external tokens relies on. *)
Record slots_pre (s : KVCacheManager) (request : Request) (num_new t lookahead : Z) (given : KVCacheBlocks) (delay : bool)
    (free0 : list ref) : Prop := {
  sp_ok : coord_ok (coordinator s) free0;
  sp_new : 0 < num_new;
  sp_lookahead : 0 <= lookahead;
  sp_computed : 0 <= t;
  sp_fits : t + num_new <= max_model_len s;
  sp_ready : request_ready (coordinator s) (request_id request) t given;
  sp_cache : km_enable_caching s = true -> delay = false ->
    slots_cacheable (coordinator s) request (Z.min (t + num_new) (num_tokens request));
}.

(** What it promises: [run] is the outcome with the final state. *)
Definition slots_spec (s : KVCacheManager) (request : Request) (t n : Z) (given : KVCacheBlocks) (free0 : list ref)
    (run : res (option KVCacheBlocks) * (KVCacheManager * Request)) : Prop :=
  let rid := request_id request in
  exists c1 free1, Coordinator.remove_skipped_blocks rid t (coordinator s) = (Ok tt, c1) /\ coord_ok c1 free1
    /\ zlen free0 <= zlen free1
    /\ (zlen free1 < required c1 rid n t given -> run = (Ok None, ({| s with coordinator := c1 |}, request)))
    /\ (required c1 rid n t given <= zlen free1 ->
         exists new c2 request' free2, run = (Ok (Some (KV.create_kv_cache_blocks new)), ({| s with coordinator := c2 |}, request'))
           /\ coord_ok c2 free2 /\ zlen free2 = zlen free1 - required c1 rid n t given
           /\ evolves rid (coordinator s) c2 /\ same_but_cache request request'
           /\ forall i m, managers c1 !! i = Some m -> exists m' b, managers c2 !! i = Some m' /\ new !! i = Some b
                /\ Manager.blocks_of rid m' = base_blocks rid t given i m ++ b
                /\ zlen b = to_allocate rid n t given i m
                /\ cdiv n (mgr_block_size m) <= zlen (Manager.blocks_of rid m')).

Lemma allocate_slots_ok s request num_new num_new_computed new_computed lookahead delay enc free0 :
  let t := num_computed_tokens request + num_new_computed in
  let given := default EmptyBlocks new_computed in
  slots_pre s request num_new t lookahead given delay free0 ->
  slots_spec s request t (Z.min (t + num_new + lookahead) (max_model_len s)) given free0
    (KV.allocate_slots num_new num_new_computed new_computed lookahead 0 delay enc (s, request)).
Proof.
  intros t given [Hc Hnew Hlook Ht Hfit Hready Hcache]. set (n := Z.min _ _). set (run := KV.allocate_slots _ _ _ _ _ _ _ _).
  unfold slots_spec. set (rid := request_id request) in *.
  destruct (release_keeps_ready rid t given _ free0 Hc Ht Hready) as (c1 & free1 & R1 & Hc1 & Hev1 & Hfr1 & Hready1 & _).
  exists c1, free1. do 3 (split; [done|]).
  assert (Pool.get_num_free_blocks (co_pool c1) = zlen free1) as Hnum by apply (ses_num_free _ _ _ (c_ses _ _ Hc1)).
  pose proof (check_required rid n enc t (t + num_new) given c1 free1 Hc1 Hready1 Ht) as R2.
  rewrite (ev_length _ _ _ Hev1) in R2.
  assert (run = (if zlen free1 <? required c1 rid n t given then mret None
      else (if negb (KV.is_empty_object given) || (0 <? 0) then
          KV.on_manager (KV.on_coordinator (allocate_new_computed_blocks rid (KV.blocks_of (KV.num_groups s) given) t 0))
        else mret tt) ;;
       allocate_and_cache (km_enable_caching s) rid n (t + num_new) enc (Z.min (t + num_new) (num_tokens request)) delay)
      ({| s with coordinator := c1 |}, request)) as ->.
  { unfold run. rewrite allocate_slots_stages by (fold t; lia).
    fold rid t given n. rewrite (bind_ok _ _ _ _ _ (on_coordinator_ok _ s request _ _ R1)).
    rewrite (bind_ok _ _ _ _ _ (on_coordinator_ok _ {| s with coordinator := c1 |} request _ _ R2)). msteps.
    cbn [fst snd coordinator]. rewrite Hnum. by destruct (_ <? required _ _ _ _ _). }
  split; intros Hle.
  { replace (zlen free1 <? required c1 rid n t given) with true by lia. done. }
  replace (zlen free1 <? required c1 rid n t given) with false by lia.
  rewrite required_parts in Hle.
  assert (0 <= sum_to (fun i => of_group (to_allocate rid n t given i) c1 i) (length (managers c1))) as Hpos.
  { apply sum_to_nonneg. intros i. unfold of_group, to_allocate. case_match; lia. }
  destruct (adopt_stage {| s with coordinator := c1 |} request rid t given free1 Hc1 Ht Hready1) as
    (c2 & free2 & R3 & Hc2 & Hev2 & Hfr2 & HP2); [cbn [coordinator]; lia|]. cbn [coordinator] in R3, Hev2, Hfr2, HP2.
  rewrite (ev_length _ _ _ Hev1) in R3. unfold KV.num_groups. rewrite (bind_ok _ _ _ _ _ R3).
  pose proof (missing_after c1 c2 rid n t given Hev2 HP2) as Hmiss.
  destruct (allocate_stage (km_enable_caching s) {| s with coordinator := c2 |} request n (t + num_new) enc (Z.min (t + num_new) (num_tokens request)) delay
    free2 (coordinator s)) as (new & c3 & rq & free3 & R4 & Hc3 & Hev3 & Hsame & Hfr3 & HP3); cbn [coordinator] in *.
  - done.
  - by eapply evolves_trans.
  - rewrite (ev_length _ _ _ Hev2), (sum_to_ext _ _ _ (fun i _ => Hmiss i)). lia.
  - unfold n. lia.
  - exact Hcache.
  - exists new, c3, rq, free3. split; [exact R4|]. split; [done|].
    rewrite (ev_length _ _ _ Hev2), (sum_to_ext _ _ _ (fun i _ => Hmiss i)) in Hfr3. rewrite required_parts.
    split; [lia|]. split; [by eapply evolves_trans, evolves_trans|]. split; [done|].
    intros i m Hi. destruct (HP2 i m Hi) as (m2 & Hm2 & Hb2). destruct (HP3 i m2 Hm2) as (m3 & b & Hm3 & Hnb & Hb3 & Hl3).
    exists m3, b. pose proof (Hmiss i) as Ei. rewrite (of_group_some _ _ _ _ Hi), (of_group_some _ _ _ _ Hm2) in Ei.
    fold rid in Hb3, Hl3. rewrite Hb2 in Hb3. do 3 (split; [done|]). rewrite Hl3, Ei. split; [done|].
    rewrite Hb3, zlen_app, Hl3, Ei. unfold to_allocate. lia.
Qed.

End slots.

End Slots.
