(* ===== verification/KVSession.v ===== *)
(** Sessions of the KV cache manager: from a new manager on, through any
    sequence of the scheduler's calls, and the statistics it keeps. *)

From S2P Require Import Prelude FreeQueue Request Hashing Metrics BlockPool KVSpec SingleType Group Coordinator CoordFacts KVManager KVFacts.
Local Open Scope Z_scope.

(** ** A new coordinator *)

Module CoordInit.
Import Pool PoolFacts PoolSession Session Accounting GroupSession Effects CoordSession Coordinator.

Definition no_sink (spec : KVCacheSpec) : Prop :=
  match spec with SinkFullAttentionSpec _ _ _ _ _ => False | _ => True end.

(** A manager that holds nothing. *)
Definition idle_manager (null : ref) (m : Manager) : Prop :=
  mgr_null_block m = null /\ req_to_blocks m = ∅ /\ num_cached_block m = ∅.

Section init.
Context {E : Env}.

Lemma manager_init_idle spec en gid dcp pcp p m p' : no_sink spec ->
  Manager.init spec en gid dcp pcp p = (Ok m, p') -> p' = p /\ idle_manager (null_block p) m.
Proof.
  intros Hs H. unfold Manager.init in H. apply bind_ok_inv in H as (cls & p1 & H1 & H).
  unfold lift_res in H1. injection H1 as _ <-. apply bind_ok_inv in H as (null & p1 & H1 & H).
  injection H1 as <- <-. destruct spec; try done; injection H as <- <-; done.
Qed.

Lemma init_managers_idle specs en i dcp pcp p ms p' : Forall no_sink specs ->
  init_managers specs en i dcp pcp p = (Ok ms, p') -> p' = p /\ Forall (idle_manager (null_block p)) ms.
Proof.
  intros Hs. revert i p ms p'. induction Hs as [|spec specs Hspec _ IH]; intros i p ms p' H; cbn in H.
  - injection H as <- <-. split; [done|by constructor].
  - apply bind_ok_inv in H as (m & p1 & H1 & H). apply bind_ok_inv in H as (ms' & p2 & H2 & H). injection H as <- <-.
    destruct (manager_init_idle _ _ _ _ _ _ _ _ Hspec H1) as [-> Hm]. destruct (IH _ _ _ _ H2) as [-> Hms].
    split; [done|by constructor].
Qed.

Lemma idle_blocks null m rid : idle_manager null m -> Manager.blocks_of rid m = [] /\ cached_count m rid = 0.
Proof. intros (_ & H1 & H2). unfold Manager.blocks_of, cached_count. by rewrite H1, H2, !lookup_empty. Qed.

Lemma idle_held ms null : Forall (idle_manager null) ms -> concat (group_held <$> ms) = [].
Proof.
  induction 1 as [|m ms (_ & Hm & _) _ IH]; [done|]. rewrite fmap_cons. cbn [concat]. rewrite IH, app_nil_r.
  unfold group_held, held_in. by rewrite Hm, map_to_list_empty.
Qed.

Lemma idle_coord_ok c free : ses (co_pool c) [] free -> Forall (idle_manager (null_block (co_pool c))) (managers c) ->
  Forall (fun m => plain_manager m /\ 0 < mgr_block_size m) (managers c) -> coord_ok c free.
Proof.
  intros Hs Hidle Hplain. pose proof (pc_null _ _ (po_core _ _ (s_pool _ _ _ Hs))) as Hnull.
  rewrite Forall_lookup in Hplain. split.
  - unfold all_held. by rewrite (idle_held _ _ Hidle).
  - intros i m Hi. destruct (Hplain i m Hi) as [Hp Hbs]. split; [|done].
    pose proof (proj1 (Forall_lookup _ _) Hidle i m Hi) as Hm. destruct (Hm) as (H1 & H2 & H3). split; try done.
    + by rewrite H1.
    + eapply ses_perm; [|exact Hs]. rewrite <- (held_split i m) by done. by rewrite (idle_held _ _ Hidle).
    + intros rid l r. by rewrite H2, lookup_empty.
    + intros rid l. by rewrite H2, lookup_empty.
  - intros i m rid Hi. pose proof (proj1 (Forall_lookup _ _) Hidle i m Hi) as Hm.
    destruct (idle_blocks _ _ rid Hm) as [Hb Hc]. unfold uncached. by rewrite Hb, Hc.
Qed.

Lemma init_inv config eagle en ev dcp pcp hbs mc c : init config eagle en ev dcp pcp hbs mc = Ok c ->
  exists p, Pool.init (num_blocks config) en hbs ev mc = Ok p
    /\ init_managers (co_specs c) en 0 dcp pcp p = (Ok (managers c), co_pool c).
Proof.
  unfold init. intros H. destruct (Pool.init _ _ _ _ _) as [p|] eqn:Ep; [|done]. cbn [mbind res_bind] in H.
  destruct (mapM _ _) as [specs|] eqn:Em; [|done]. cbn [mbind res_bind] in H.
  destruct (init_managers specs en 0 dcp pcp p) as [ [ms|] p'] eqn:Ei; [|done]. exists p. split; [done|].
  destruct (negb en); [by injection H as <-|]. destruct (_ =? 1).
  - destruct specs; [done|]. destruct (_ && _); [done|]. by injection H as <-.
  - destruct (_ =? 0); [by destruct specs|]. destruct (negb _); [done|]. destruct (negb _); [done|].
    destruct (verify_and_split_kv_cache_groups _) as [[gs lcm]|]; [|done]. cbn in H. by injection H as <-.
Qed.

(** A new coordinator satisfies the invariant: every block but the null block is
    free. *)
Lemma init_coord_ok config eagle en ev dcp pcp hbs mc c : init config eagle en ev dcp pcp hbs mc = Ok c ->
  Forall no_sink (co_specs c) -> Forall (fun m => plain_manager m /\ 0 < mgr_block_size m) (managers c) ->
  coord_ok c (RBlk <$> seq 1 (Z.to_nat (num_blocks config) - 1)).
Proof.
  intros H Hs Hp. destruct (init_inv _ _ _ _ _ _ _ _ _ H) as (p & Ep & Em).
  destruct (init_managers_idle _ _ _ _ _ _ _ _ Hs Em) as [Hpool Hidle].
  assert (0 < num_blocks config) as Hn by (unfold Pool.init in Ep; destruct (Z.ltb_spec 0 (num_blocks config)); [done|discriminate]).
  destruct (init_spec (num_blocks config) en hbs ev mc Hn) as (p' & Ep' & Hpo & _ & Hd). rewrite Ep in Ep'. injection Ep' as <-.
  rewrite <- Hpool in Hpo, Hd, Hidle. apply idle_coord_ok; [|done|done]. split; [done|..].
  - intros r Hr. apply Hd. exact (usable_blk _ _ _ (po_core _ _ Hpo) Hr).
  - intros r Hr. by apply not_elem_of_nil in Hr.
Qed.

End init.
End CoordInit.

(** ** The calls of the scheduler *)

Module KVSteps.
Import Pool PoolFacts PoolSession Session Accounting GroupSession Effects CoordSession Coordinator Phases Slots CoordInit.

Section steps.
Context {E : Env}.

(** One call on the manager; whatever it answers. *)
Inductive kv_step : KVCacheManager -> KVCacheManager -> Prop :=
  | step_lookup s request r s' : KV.get_computed_blocks request s = (r, s') -> kv_step s s'
  | step_allocate s request num_new num_new_computed new_computed lookahead delay enc r s' request' :
      (forall free, coord_ok (coordinator s) free ->
         slots_pre s request num_new (num_computed_tokens request + num_new_computed) lookahead
           (default EmptyBlocks new_computed) delay free) ->
      KV.allocate_slots num_new num_new_computed new_computed lookahead 0 delay enc (s, request) = (r, (s', request')) ->
      kv_step s s'
  | step_release s rid t r s' : 0 <= t -> KV.remove_skipped_blocks rid t s = (r, s') -> kv_step s s'
  | step_free s request r s' : KV.free request s = (r, s') -> kv_step s s'
  | step_stats s r s' : KV.make_prefix_cache_stats s = (r, s') -> kv_step s s'.

Lemma lookup_keeps request s r s' : KV.get_computed_blocks request s = (r, s') -> coordinator s' = coordinator s.
Proof.
  unfold KV.get_computed_blocks. msteps. destruct (_ || _); [by intros [= <- <-]|].
  unfold mbind, M_bind, lift_res. destruct (find_longest_cache_hit _ _ _) as [ [blocks n]|e]; [|by intros [= <- <-]].
  destruct (log_stats s); [destruct (prefix_cache_stats s)|]; by intros [= <- <-].
Qed.

Lemma kv_step_ok s s' : kv_step s s' -> (exists free, coord_ok (coordinator s) free) -> exists free, coord_ok (coordinator s') free.
Proof.
  intros Hstep [fr Hc]. destruct Hstep as [s request r s' H|s request num_new nnc nc la delay enc r s' rq' Hpre H
    |s rid t r s' Ht H|s request r s' H|s r s' H].
  - exists fr. by rewrite (lookup_keeps _ _ _ _ H).
  - destruct (allocate_slots_ok s request num_new nnc nc la delay enc fr (Hpre fr Hc)) as (c1 & free1 & _ & Hc1 & _ & Hno & Hyes).
    destruct (Z.lt_ge_cases (zlen free1) (required c1 (request_id request)
      (Z.min (num_computed_tokens request + nnc + num_new + la) (max_model_len s)) (num_computed_tokens request + nnc)
      (default EmptyBlocks nc))) as [Hlt|Hge].
    + rewrite (Hno Hlt) in H. injection H as _ <- _. by exists free1.
    + destruct (Hyes Hge) as (new & c2 & rq & free2 & R1 & Hc2 & _). rewrite R1 in H. injection H as _ <- _. by exists free2.
  - destruct (remove_skipped_phase rid t _ fr Hc Ht) as (c1 & free1 & R1 & Hc1 & _).
    unfold KV.remove_skipped_blocks, KV.on_coordinator, zoom in H. rewrite R1 in H. injection H as _ <-. by exists free1.
  - destruct (free_phase (request_id request) _ fr Hc) as (c1 & free1 & R1 & Hc1 & _).
    unfold KV.free, KV.on_coordinator, zoom in H. rewrite R1 in H. injection H as _ <-. by exists free1.
  - exists fr. unfold KV.make_prefix_cache_stats, mbind, M_bind, gets, id in H.
    destruct (negb (log_stats s)); injection H as _ <-; done.
Qed.

Lemma kv_steps_ok s s' : rtc kv_step s s' -> (exists free, coord_ok (coordinator s) free) -> exists free, coord_ok (coordinator s') free.
Proof. induction 1 as [|s s1 s2 H1 _ IH]; [done|]. intros H. by apply IH, (kv_step_ok s). Qed.

Lemma init_kv_ok config len hbs en eagle log ev dcp pcp mc s : KV.init config len hbs en eagle log ev dcp pcp mc = Ok s ->
  Coordinator.init config eagle en ev dcp pcp hbs mc = Ok (coordinator s).
Proof. unfold KV.init. destruct (init _ _ _ _ _ _ _ _) as [c|]; [|done]. by intros [= <-]. Qed.


End steps.

(** ** Properties *)

(** C9: [allocate_slots] is exact over all groups.  For a running request, a new
    one without hits or a new one that adopts the hits of [get_computed_blocks],
    with no external tokens: first the blocks outside the windows are released;
    then, if the free blocks are fewer than the groups need together, the answer is
    [None] and nothing else has changed; otherwise the call succeeds, every group
    has the adopted blocks followed by the new ones it returns, enough for all
    tokens that need a slot, the free queue is shorter by exactly the computed
    need, reference counts stay exact, and no other request's blocks change. *)
Theorem allocate_slots_exact {E : Env} s request num_new num_new_computed new_computed lookahead delay enc free0
  (Hpre : slots_pre s request num_new (num_computed_tokens request + num_new_computed) lookahead
            (default EmptyBlocks new_computed) delay free0) :
  let rid := request_id request in
  let t := num_computed_tokens request + num_new_computed in
  let n := Z.min (t + num_new + lookahead) (max_model_len s) in
  let given := default EmptyBlocks new_computed in
  let run := KV.allocate_slots num_new num_new_computed new_computed lookahead 0 delay enc (s, request) in
  exists c1 free1, Coordinator.remove_skipped_blocks rid t (coordinator s) = (Ok tt, c1) /\ coord_ok c1 free1
    /\ zlen free0 <= zlen free1
    /\ (zlen free1 < required c1 rid n t given -> run = (Ok None, ({| s with coordinator := c1 |}, request)))
    /\ (required c1 rid n t given <= zlen free1 ->
         exists new c2 request' free2, run = (Ok (Some (KV.create_kv_cache_blocks new)), ({| s with coordinator := c2 |}, request'))
           /\ coord_ok c2 free2 /\ zlen free2 = zlen free1 - required c1 rid n t given
           /\ evolves rid (coordinator s) c2 /\ same_but_cache request request'
           /\ forall i m, managers c1 !! i = Some m -> exists m' b, managers c2 !! i = Some m' /\ new !! i = Some b
                /\ Manager.blocks_of rid m' = base_blocks rid t given i m ++ b
                /\ zlen b = to_allocate rid n t given i m
                /\ cdiv n (mgr_block_size m) <= zlen (Manager.blocks_of rid m')).
Proof. exact (allocate_slots_ok s request num_new num_new_computed new_computed lookahead delay enc free0 Hpre). Qed.

(** C10: No block is lost.  From a new manager on, after any sequence of lookups,
    allocations, releases and frees: each block's reference count is the number of
    request lists, over all groups, that hold it; a block is in the free queue
    exactly when no request holds it; and once the requests of all groups hold
    nothing, all blocks but the null block are free again. *)
Theorem kv_session_no_leak {E : Env} config len hbs en eagle log ev dcp pcp mc s0 s
  (Hinit : KV.init config len hbs en eagle log ev dcp pcp mc = Ok s0)
  (Hsink : Forall no_sink (co_specs (coordinator s0)))
  (Hplain : Forall (fun m => plain_manager m /\ 0 < mgr_block_size m) (managers (coordinator s0)))
  (Hsteps : rtc kv_step s0 s) :
  let p := co_pool (coordinator s) in
  exists free, pool_ok p free
    /\ (forall r, usable p r -> refc p r = count_ref r (all_held (coordinator s)))
    /\ (forall r, r ∈ free <-> usable p r /\ forall i m rid, managers (coordinator s) !! i = Some m -> r ∉ Manager.blocks_of rid m)
    /\ ((forall i m rid, managers (coordinator s) !! i = Some m -> Manager.blocks_of rid m = []) ->
        Pool.get_num_free_blocks p = num_gpu_blocks p - 1).
Proof.
  intros p. destruct (kv_steps_ok s0 s Hsteps) as [fr Hc].
  { eexists. eapply init_coord_ok; [|done|done]. by eapply init_kv_ok. }
  pose proof (c_ses _ _ Hc) as Hs. fold p in Hs. pose proof (po_core _ _ (s_pool _ _ _ Hs)) as Hcore.
  assert (forall r, r ∈ all_held (coordinator s) <-> r <> RBlk 0 /\ exists i m rid, managers (coordinator s) !! i = Some m /\ r ∈ Manager.blocks_of rid m) as Hheld.
  { intros r. unfold all_held. rewrite list_elem_of_In, in_concat. split.
    - intros (l & Hl & Hr). apply list_elem_of_In in Hl, Hr. apply list_elem_of_fmap in Hl as (m & -> & Hm).
      apply list_elem_of_lookup in Hm as [i Hm]. apply elem_of_nonnull in Hr as [Hne Hr].
      apply elem_of_held_in in Hr as [rid Hr]. split; [done|]. by exists i, m, rid.
    - intros (Hne & i & m & rid & Hm & Hr). exists (group_held m). rewrite <- !list_elem_of_In.
      split; [apply list_elem_of_fmap_2; by eapply list_elem_of_lookup_2|by apply (held_of_blocks m rid)]. }
  assert (forall r, r ∈ fr <-> usable p r /\ forall i m rid, managers (coordinator s) !! i = Some m -> r ∉ Manager.blocks_of rid m) as Hfree.
  { intros r. rewrite (ses_free _ _ _ r Hs), Hheld. split; intros [Hu H]; (split; [done|]).
    - intros i m rid Hm Hr. apply H. split; [apply Hu|]. by exists i, m, rid.
    - intros (_ & i & m & rid & Hm & Hr). by apply (H i m rid). }
  exists fr. split; [apply Hs|]. split; [apply Hs|]. split; [exact Hfree|]. intros Hnone.
  rewrite (ses_num_free _ _ _ Hs).
  assert (fr ≡ₚ filter (fun r => r <> RBlk 0) (blocks p)) as ->.
  { pose proof (ses_nodup _ _ _ Hs) as Hnd. apply NoDup_Permutation; [done| |].
    - apply NoDup_filter. rewrite (pc_blocks _ _ Hcore). apply NoDup_fmap_2; [by intros ?? [= ->]|apply NoDup_seq].
    - intros r. rewrite Hfree, list_elem_of_filter. unfold usable. split; [tauto|]. intros [? ?]. split; [done|].
      intros i m rid Hm. rewrite (Hnone i m rid Hm). apply not_elem_of_nil. }
  pose proof (pc_num _ _ Hcore) as Hn. rewrite (pc_blocks _ _ Hcore).
  replace (Z.to_nat (num_gpu_blocks p)) with (S (Z.to_nat (num_gpu_blocks p) - 1)) by lia.
  cbn [seq]. rewrite fmap_cons, filter_cons_False by tauto. rewrite filter_all.
  - unfold zlen. rewrite length_fmap, length_seq. lia.
  - intros r Hr. apply list_elem_of_fmap in Hr as (k & -> & Hk). apply elem_of_seq in Hk. intros [= ?]. lia.
Qed.

(** ** Witnesses *)

(** Two groups of one-token blocks, full attention and a window of two, on a pool
    of five blocks. *)
Definition demo_config : KVCacheConfig := HybridHit.config_of 5 [HybridHit.full_one; HybridHit.window_two].

Definition demo_kv : KVCacheManager :=
  match KV.init demo_config 100 1 true false true false 1 1 None with
  | Ok s => s
  | Raise _ => {| coordinator := HybridHit.demo_coordinator 5 []; max_model_len := 0; km_enable_caching := true;
                  log_stats := true; prefix_cache_stats := None |}
  end.

Lemma demo_kv_init : KV.init demo_config 100 1 true false true false 1 1 None = Ok demo_kv.
Proof.
  assert (match KV.init demo_config 100 1 true false true false 1 1 None with Ok _ => true | Raise _ => false end = true)
    as H by by vm_compute.
  unfold demo_kv. by destruct (KV.init _ _ _ _ _ _ _ _ _ _).
Qed.

Definition one_manager (cls : manager_class) (spec : KVCacheSpec) (gid : Z) : Manager :=
  {| (demo_manager cls spec) with mgr_block_size := 1; kv_cache_group_id := gid |}.

Lemma demo_kv_managers : managers (coordinator demo_kv)
  = [one_manager FullAttentionManager HybridHit.full_one 0; one_manager SlidingWindowManager HybridHit.window_two 1].
Proof. by vm_compute. Qed.

Lemma demo_kv_plain : Forall (fun m => plain_manager m /\ 0 < mgr_block_size m) (managers (coordinator demo_kv)).
Proof. rewrite demo_kv_managers. by repeat constructor. Qed.

Lemma demo_kv_specs : Forall no_sink (co_specs (coordinator demo_kv)).
Proof.
  assert (co_specs (coordinator demo_kv) = [HybridHit.full_one; HybridHit.window_two]) as -> by by vm_compute.
  by repeat constructor.
Qed.

Lemma demo_kv_ok : coord_ok (coordinator demo_kv) [RBlk 1; RBlk 2; RBlk 3; RBlk 4].
Proof. exact (init_coord_ok _ _ _ _ _ _ _ _ _ (init_kv_ok _ _ _ _ _ _ _ _ _ _ _ demo_kv_init) demo_kv_specs demo_kv_plain). Qed.

(** A new request of two tokens. *)
Lemma demo_pre (free : list ref) : coord_ok (coordinator demo_kv) free ->
  slots_pre demo_kv HybridHit.two_hashes 2 0 0 EmptyBlocks false free.
Proof.
  intros Hc. assert (max_model_len demo_kv = 100) as H1 by by vm_compute.
  assert (enable_caching (co_pool (coordinator demo_kv)) = true /\ hash_block_size (co_pool (coordinator demo_kv)) = 1)
    as [H2 H3] by (vm_compute; done).
  pose proof demo_kv_managers as H4. revert Hc H1 H2 H3 H4. generalize demo_kv as s. intros s Hc H1 H2 H3 H4.
  assert (forall i m, managers (coordinator s) !! i = Some m ->
    m = one_manager FullAttentionManager HybridHit.full_one 0 \/ m = one_manager SlidingWindowManager HybridHit.window_two 1) as Hm.
  { intros i m. rewrite H4. destruct i as [|[|i]]; [intros [= <-]; by left|intros [= <-]; by right|done]. }
  split; [done|lia|lia|lia|lia|..].
  - intros i m Hi. right. by destruct (Hm i m Hi) as [-> | ->].
  - intros _ _ i m Hi. rewrite H2, H3. by destruct (Hm i m Hi) as [-> | ->].
Qed.

Lemma allocate_slots_exact_witness :
  exists s' request' free, KV.allocate_slots 2 0 None 0 0 false 0 (demo_kv, HybridHit.two_hashes)
      = (Ok (Some (NewBlocks [ [RBlk 1; RBlk 2]; [RBlk 3; RBlk 4] ])), (s', request'))
    /\ coord_ok (coordinator s') free.
Proof.
  assert ((KV.allocate_slots 2 0 None 0 0 false 0 (demo_kv, HybridHit.two_hashes)).1
    = Ok (Some (NewBlocks [ [RBlk 1; RBlk 2]; [RBlk 3; RBlk 4] ]))) as Hrun by (vm_compute; reflexivity).
  pose proof (demo_pre _ demo_kv_ok) as Hpre. revert Hrun Hpre. generalize demo_kv as s. intros s Hrun Hpre.
  destruct (allocate_slots_exact s HybridHit.two_hashes 2 0 None 0 false 0 _ Hpre) as (c1 & free1 & _ & _ & _ & Hno & Hyes).
  destruct (Z.lt_ge_cases (zlen free1) (required c1 (request_id HybridHit.two_hashes)
    (Z.min (num_computed_tokens HybridHit.two_hashes + 0 + 2 + 0) (max_model_len s))
    (num_computed_tokens HybridHit.two_hashes + 0) (default EmptyBlocks None))) as [Hlt|Hge].
  - rewrite (Hno Hlt) in Hrun. discriminate Hrun.
  - destruct (Hyes Hge) as (new & c2 & rq & free2 & R1 & Hc2 & _). rewrite R1 in Hrun. cbn [fst] in Hrun.
    exists {| s with coordinator := c2 |}, rq, free2. split; [|exact Hc2]. rewrite R1. by rewrite Hrun.
Defined.

(** A session: the request is allocated and freed. *)
Lemma kv_session_no_leak_witness :
  exists s, (exists s1, kv_step demo_kv s1 /\ kv_step s1 s)
    /\ exists free, pool_ok (co_pool (coordinator s)) free
         /\ forall r, usable (co_pool (coordinator s)) r -> refc (co_pool (coordinator s)) r = count_ref r (all_held (coordinator s)).
Proof.
  pose proof demo_kv_init as H0. pose proof demo_kv_specs as H1. pose proof demo_kv_plain as H2. pose proof demo_pre as H3.
  revert H0 H1 H2 H3. generalize demo_kv as s0. intros s0 H0 H1 H2 H3.
  set (s1 := (KV.allocate_slots 2 0 None 0 0 false 0 (s0, HybridHit.two_hashes)).2.1).
  set (s2 := (KV.free HybridHit.two_hashes s1).2).
  assert (kv_step s0 s1) as K1.
  { eapply (step_allocate s0 HybridHit.two_hashes 2 0 None 0 false 0); [exact H3|apply run_eta2]. }
  assert (kv_step s1 s2) as K2 by (eapply (step_free s1 HybridHit.two_hashes), run_snd; reflexivity).
  exists s2. split; [by exists s1|].
  destruct (kv_session_no_leak _ _ _ _ _ _ _ _ _ _ s0 s2 H0 H1 H2) as (free & Hp & Hr & _).
  - eapply rtc_l; [exact K1|]. eapply rtc_l; [exact K2|]. apply rtc_refl.
  - by exists free.
Defined.

End KVSteps.

(** ** The statistics of the prefix cache *)

Module StatsFacts.
Import Stats.

Definition total (f : Z * Z * Z -> Z) (queue : list (Z * Z * Z)) : Z := foldr (fun x acc => f x + acc) 0 queue.

(** The aggregates are the sums over the queue. *)
Record metrics_ok (c : CachingMetrics) : Prop := {
  mo_requests : aggregated_requests c = total (fun x => x.1.1) (query_queue c);
  mo_queries : aggregated_query_total c = total (fun x => x.1.2) (query_queue c);
  mo_hits : aggregated_query_hit c = total (fun x => x.2) (query_queue c);
}.

Lemma total_cons f x l : total f (x :: l) = f x + total f l.
Proof. done. Qed.

Lemma total_app f l l' : total f (l ++ l') = total f l + total f l'.
Proof. induction l as [|x l IH]; [done|]. cbn [app]. rewrite !total_cons, IH. lia. Qed.

Lemma drop_oldest_spec max queue r q h : queue <> [] ->
  r = total (fun x => x.1.1) queue -> q = total (fun x => x.1.2) queue -> h = total (fun x => x.2) queue ->
  exists dropped kept, drop_oldest max r q h queue
      = (total (fun x => x.1.1) kept, total (fun x => x.1.2) kept, total (fun x => x.2) kept, kept)
    /\ queue = dropped ++ kept /\ kept <> []
    /\ (length kept = 1%nat \/ total (fun x => x.1.1) kept <= max)
    /\ forall d x, dropped = d ++ [x] -> max < total (fun y => y.1.1) (x :: kept).
Proof.
  revert r q h. induction queue as [|[[r1 q1] h1] queue IH]; intros r q h Hne Hr Hq Hh; [done|].
  destruct queue as [|x queue].
  { exists [], [(r1, q1, h1)]. cbn [drop_oldest]. rewrite Hr, Hq, Hh. split; [done|]. split; [done|]. split; [done|].
    split; [by left|]. intros d y Hd. by destruct d. }
  change (drop_oldest max r q h ((r1, q1, h1) :: x :: queue))
    with (if max <? r then drop_oldest max (r - r1) (q - q1) (h - h1) (x :: queue) else (r, q, h, (r1, q1, h1) :: x :: queue)).
  assert (x :: queue <> []) as Hrest by done. revert IH Hr Hq Hh Hrest. generalize (x :: queue) as rest.
  intros rest IH Hr Hq Hh Hrest. destruct (Z.ltb_spec max r) as [Hlt|Hge].
  - rewrite total_cons in Hr. rewrite total_cons in Hq. rewrite total_cons in Hh. cbn [fst snd] in Hr, Hq, Hh.
    destruct (IH (r - r1) (q - q1) (h - h1)) as (dropped & kept & E & Hk & Hne' & Hlen & Hmin); [done|lia..|].
    exists ((r1, q1, h1) :: dropped), kept. split; [exact E|]. split; [by rewrite Hk|]. split; [done|]. split; [done|].
    intros d y Hd. destruct d as [|z d]; cbn in Hd; injection Hd as <- Hd.
    + subst dropped. cbn [app] in Hk. rewrite <- Hk, total_cons. cbn [fst snd]. lia.
    + by apply (Hmin d).
  - exists [], ((r1, q1, h1) :: rest). rewrite Hr in Hge |- *. rewrite Hq, Hh. split; [done|]. split; [done|]. split; [done|].
    split; [by right|]. intros d y Hd. by destruct d.
Qed.

(** The window of the hit-rate metrics.  The aggregates are the sums over the
    queue of recent steps, before and after every observation; a step with
    requests is appended (after a reset to an empty queue) and the oldest steps are
    dropped, as few as needed to have at most [max_recent_requests] requests or a
    single step left. *)
Theorem observe_keeps_window stats c (Hok : metrics_ok c) :
  metrics_ok (observe stats c) /\ max_recent_requests (observe stats c) = max_recent_requests c
  /\ (st_requests stats = 0 -> query_queue (observe stats c) = if st_reset stats then [] else query_queue c)
  /\ (st_requests stats <> 0 -> exists dropped,
        (if st_reset stats then [] else query_queue c) ++ [(st_requests stats, st_queries stats, st_hits stats)]
          = dropped ++ query_queue (observe stats c)
        /\ query_queue (observe stats c) <> []
        /\ (length (query_queue (observe stats c)) = 1%nat \/ aggregated_requests (observe stats c) <= max_recent_requests c)
        /\ forall d x, dropped = d ++ [x] ->
             max_recent_requests c < total (fun y => y.1.1) (x :: query_queue (observe stats c))).
Proof.
  unfold observe. set (c1 := if st_reset stats then metrics_reset c else c).
  assert (metrics_ok c1 /\ max_recent_requests c1 = max_recent_requests c
    /\ query_queue c1 = if st_reset stats then [] else query_queue c) as ([H1 H2 H3] & Hmax & <-).
  { unfold c1. destruct (st_reset stats); done. }
  destruct (Z.eqb_spec (st_requests stats) 0) as [Hz|Hnz]; [done|]. rewrite Hmax.
  destruct (drop_oldest_spec (max_recent_requests c) (query_queue c1 ++ [(st_requests stats, st_queries stats, st_hits stats)])
    (aggregated_requests c1 + st_requests stats) (aggregated_query_total c1 + st_queries stats)
    (aggregated_query_hit c1 + st_hits stats)) as (dropped & kept & E & Hk & Hne & Hlen & Hmin).
  - by destruct (query_queue c1).
  - rewrite total_app, H1. cbn. lia.
  - rewrite total_app, H2. cbn. lia.
  - rewrite total_app, H3. cbn. lia.
  - rewrite E. cbn [query_queue aggregated_requests max_recent_requests]. split; [done|]. split; [done|]. split; [done|].
    intros _. by exists dropped.
Qed.

Lemma observe_keeps_window_witness :
  let c := {| (metrics_new 3) with aggregated_requests := 3; aggregated_query_total := 30; aggregated_query_hit := 10;
              query_queue := [(2, 20, 10); (1, 10, 0)] |} in
  query_queue (observe {| Stats.new with st_requests := 1; st_queries := 5; st_hits := 5 |} c) = [(1, 10, 0); (1, 5, 5)]
  /\ metrics_ok (observe {| Stats.new with st_requests := 1; st_queries := 5; st_hits := 5 |} c).
Proof.
  cbv zeta. split; [reflexivity|]. apply observe_keeps_window. split; reflexivity.
Defined.

End StatsFacts.
