(* ===== verification/CoordFindings.v ===== *)
(** Two behaviours of the coordinators of several groups that their code does not
    mean to have, on concrete pools. *)

From S2P Require Import Prelude FreeQueue Request Hashing Metrics BlockPool KVSpec SingleType Coordinator.
Local Open Scope Z_scope.

Module CoordFindings.
Import Pool Coordinator HybridHit.

Definition window_three : KVCacheSpec := SlidingWindowSpec one_token 3.

(** The first token cached for both groups, in the blocks 1 and 3; the free queue
    is 3, 4, 1, 2. *)
Definition stealing_pool (p : BlockPool) : BlockPool :=
  let p1 := (get_new_blocks 4 p).2 in
  let p2 := (cache_full_blocks [RBlk 1] 0 1 1 0 (p1, two_hashes)).2.1 in
  let p3 := (cache_full_blocks [RBlk 3] 0 1 1 1 (p2, two_hashes)).2.1 in
  (free_blocks [RBlk 3; RBlk 4; RBlk 1; RBlk 2] p3).2.

Definition on_pool_of (f : BlockPool -> BlockPool) (c : Coordinator) : Coordinator :=
  {| c with co_pool := f (co_pool c) |}.

Definition stealing_coordinator : Coordinator := on_pool_of stealing_pool (demo_coordinator 5 [full_one; window_three]).

(** The lists of blocks of "r0", and whether the call succeeded. *)
Definition blocks_after (r : res unit * Coordinator) : option (list (list ref)) :=
  match r with (Ok _, c) => Some (get_blocks "r0" c) | (Raise _, _) => None end.

(** Groups are served one after the other: the first group takes blocks for the
    externally computed tokens before the second group has touched its own hits.
    Here the lookup finds block 1 for the first group and block 3 for the second,
    the pool has room for the four blocks needed, and the call gives block 3 to
    both groups: the first gets it as a new block, the second as a hit. *)
Theorem external_tokens_steal_hit :
  find_longest_cache_hit stealing_coordinator (block_hashes two_hashes) 2 = Ok ([ [RBlk 1]; [RBlk 3] ], 1)
  /\ (get_num_blocks_to_allocate "r0" 2 [ [RBlk 1]; [RBlk 3] ] 0 2 2 stealing_coordinator).1 = Ok 4
  /\ Pool.get_num_free_blocks (co_pool stealing_coordinator) = 4
  /\ blocks_after (allocate_new_computed_blocks "r0" [ [RBlk 1]; [RBlk 3] ] 1 1 stealing_coordinator)
     = Some [ [RBlk 1; RBlk 3]; [RBlk 3; RBlk 4] ].
Proof. vm_compute. done. Qed.

(** Tokens 0 and 1 cached for the groups 0 (blocks 1, 2) and 1 (blocks 3, 4), token
    0 only for group 2 (block 5). *)
Definition three_groups_pool (p : BlockPool) : BlockPool :=
  let p1 := (get_new_blocks 6 p).2 in
  let p2 := (cache_full_blocks [RBlk 1; RBlk 2] 0 2 1 0 (p1, two_hashes)).2.1 in
  let p3 := (cache_full_blocks [RBlk 3; RBlk 4] 0 2 1 1 (p2, two_hashes)).2.1 in
  (cache_full_blocks [RBlk 5] 0 1 1 2 (p3, two_hashes)).2.1.

Definition three_groups : Coordinator := on_pool_of three_groups_pool (demo_coordinator 8 [full_one; full_other; window_two]).

(** Only the first attention group is cut to the common hit.  With two full
    attention groups of different specs, the second keeps the blocks of its own
    longer hit: it answers two blocks of one token for a hit of one token. *)
Theorem second_full_group_not_truncated :
  find_longest_cache_hit three_groups (block_hashes two_hashes) 2 = Ok ([ [RBlk 1]; [RBlk 3; RBlk 4]; [RBlk 5] ], 1).
Proof. vm_compute. done. Qed.

End CoordFindings.
