(* ===== verification/EncoderCache.v ===== *)
(** The cache of encoder outputs of multimodal inputs:
    [v1/core/encoder_cache_manager.py], with the part of the scheduler that fills
    it ([_try_schedule_encoder_inputs], [_free_encoder_inputs]) and the part of the
    model runner that reads it ([_gather_mm_embeddings]). *)

From S2P Require Import Prelude Request.
Local Open Scope Z_scope.

(** ** [EncoderCacheManager] *)

Record EncoderCacheManager := {
  cache_size : Z;
  num_free_slots : Z;
  num_freeable_slots : Z;
  cached : gmap string (gset string);
  freeable : list (string * Z);              (** an [OrderedDict], oldest first *)
  freed : list string;
}.

(** The identifier of an input of a request. *)
Definition input_hash (request : Request) (input_id : Z) : res string :=
  f ← py_get (mm_features request) input_id; Ok (identifier f).

Module Encoder.

Abbreviation EM := (M EncoderCacheManager).

Definition init (cache_size : Z) : EncoderCacheManager :=
  {| cache_size := cache_size; num_free_slots := cache_size; num_freeable_slots := cache_size;
     cached := ∅; freeable := []; freed := [] |}.

Definition reset : EM unit := modify (fun m => init (cache_size m)).

Definition check_and_update_cache (request : Request) (input_id : Z) : EM bool :=
  mm_hash ← lift_res (input_hash request input_id);
  m ← gets id;
  match cached m !! mm_hash with
  | None => mret false
  | Some refs =>
      (if decide (refs = ∅) then
         num_encoder_embeds ← lift_res (res_of_option KeyError (Dict.get mm_hash (freeable m)));
         modify (fun m => {| m with freeable := Dict.del mm_hash (freeable m);
                                    num_freeable_slots := num_freeable_slots m - num_encoder_embeds |})
       else mret tt) ;;
      modify (fun m => {| m with cached := <[mm_hash := {[request_id request]} ∪ refs]> (cached m) |}) ;;
      mret true
  end.

(** [while num_embeds > self.num_free_slots: popitem(last=False)]; it recurs on
    the entries of [freeable]. *)
Fixpoint evict_loop (num_embeds : Z) (entries : list (string * Z)) : EM unit :=
  m ← gets id;
  if num_embeds <=? num_free_slots m then mret tt
  else
    match entries with
    | [] => raise KeyError
    | (mm_hash, num_free_embeds) :: rest =>
        modify (fun m => {| m with freeable := rest |}) ;;
        (if decide (mm_hash ∈ dom (cached m)) then mret tt else raise KeyError) ;;
        modify (fun m => {| m with cached := delete mm_hash (cached m); freed := freed m ++ [mm_hash];
                                   num_free_slots := num_free_slots m + num_free_embeds |}) ;;
        evict_loop num_embeds rest
    end.

Definition can_allocate (request : Request) (input_id encoder_compute_budget num_embeds_to_schedule : Z) : EM bool :=
  num_embeds ← lift_res (get_num_encoder_embeds request input_id);
  if encoder_compute_budget <? num_embeds then mret false
  else
    let num_embeds := num_embeds + num_embeds_to_schedule in
    m ← gets id;
    if num_embeds <=? num_free_slots m then mret true
    else if num_freeable_slots m <? num_embeds then mret false
    else evict_loop num_embeds (freeable m) ;; mret true.

Definition allocate (request : Request) (input_id : Z) : EM unit :=
  mm_hash ← lift_res (input_hash request input_id);
  modify (fun m => match cached m !! mm_hash with
                   | Some _ => m
                   | None => {| m with cached := <[mm_hash := ∅]> (cached m) |}
                   end) ;;
  num_encoder_embeds ← lift_res (get_num_encoder_embeds request input_id);
  m ← gets id;
  assert_ (num_encoder_embeds <=? num_free_slots m) ;;
  assert_ (num_encoder_embeds <=? num_freeable_slots m) ;;
  modify (fun m => {| m with
    cached := <[mm_hash := {[request_id request]} ∪ default ∅ (cached m !! mm_hash)]> (cached m);
    num_free_slots := num_free_slots m - num_encoder_embeds;
    num_freeable_slots := num_freeable_slots m - num_encoder_embeds |}).

Definition is_cached_input (request : Request) (m : EncoderCacheManager) (input_id : Z) : bool :=
  match input_hash request input_id with Ok h => bool_decide (h ∈ dom (cached m)) | Raise _ => false end.

(** The ids, in increasing order; the code builds a [set] of them. *)
Definition get_cached_input_ids (request : Request) (m : EncoderCacheManager) : list Z :=
  filter (fun i => is_cached_input request m i = true) (py_range 0 (zlen (mm_features request))).

Definition free_encoder_input (request : Request) (input_id : Z) : EM unit :=
  mm_hash ← lift_res (input_hash request input_id);
  m ← gets id;
  let refs := default ∅ (cached m !! mm_hash) in
  if decide (refs = ∅) then mret tt
  else
    let refs' := refs ∖ {[request_id request]} in
    modify (fun m => {| m with cached := <[mm_hash := refs']> (cached m) |}) ;;
    if decide (refs' = ∅) then
      num_encoder_embeds ← lift_res (get_num_encoder_embeds request input_id);
      modify (fun m => {| m with freeable := Dict.set mm_hash num_encoder_embeds (freeable m);
                                 num_freeable_slots := num_freeable_slots m + num_encoder_embeds |})
    else mret tt.

(** [order]: how Python iterates over the set of ids. *)
Definition free (order : list Z -> list Z) (request : Request) : EM unit :=
  input_ids ← gets (get_cached_input_ids request);
  mfor (order input_ids) (free_encoder_input request).

Definition get_freed_mm_hashes : EM (list string) :=
  l ← gets freed;
  modify (fun m => {| m with freed := [] |}) ;;
  mret l.

End Encoder.

(** ** [EncoderDecoderCacheManager] *)

Record EncoderDecoderCacheManager := {
  ed_cache_size : Z;
  ed_num_free_slots : Z;
  allocated : list string;
  to_free : list string;
}.

Module EncoderDecoder.

Abbreviation DM := (M EncoderDecoderCacheManager).

Definition init (cache_size : Z) : EncoderDecoderCacheManager :=
  {| ed_cache_size := cache_size; ed_num_free_slots := cache_size; allocated := []; to_free := [] |}.

Definition reset : DM unit := modify (fun m => init (ed_cache_size m)).

Definition check_and_update_cache (request : Request) (input_id : Z) : DM bool := mret false.

Definition can_allocate (request : Request) (input_id encoder_compute_budget num_embeds_to_schedule : Z) : DM bool :=
  num_encoder_embeds ← lift_res (get_num_encoder_embeds request input_id);
  if encoder_compute_budget <? num_encoder_embeds then mret false
  else gets (fun m => num_encoder_embeds + num_embeds_to_schedule <=? ed_num_free_slots m).

Definition allocate (request : Request) (input_id : Z) : DM unit :=
  num_encoder_embeds ← lift_res (get_num_encoder_embeds request input_id);
  modify (fun m => {| m with ed_num_free_slots := ed_num_free_slots m - num_encoder_embeds |}) ;;
  mm_hash ← lift_res (input_hash request input_id);
  modify (fun m => {| m with allocated := allocated m ++ [mm_hash] |}).

Definition get_cached_input_ids (request : Request) (m : EncoderDecoderCacheManager) : list Z :=
  py_range 0 (zlen (mm_features request)).

Definition free_encoder_input (request : Request) (input_id : Z) : DM unit :=
  num_encoder_embeds ← lift_res (get_num_encoder_embeds request input_id);
  modify (fun m => {| m with ed_num_free_slots := ed_num_free_slots m + num_encoder_embeds |}).

Definition free (request : Request) : DM unit :=
  mfor (py_range 0 (zlen (mm_features request))) (free_encoder_input request).

Definition get_freed_mm_hashes : DM (list string) :=
  l ← gets to_free;
  modify (fun m => {| m with to_free := allocated m; allocated := [] |}) ;;
  mret l.

End EncoderDecoder.

(** [compute_mm_encoder_budget]; [None] for no modality. *)
Definition compute_mm_encoder_budget (disable_chunked_mm_input : bool) (max_num_batched_tokens
    max_num_encoder_input_tokens encoder_cache_size : Z) (mm_max_toks_per_item : list (string * Z)) : res (Z * Z) :=
  match (mm_max_toks_per_item).*2 with
  | [] => Ok (0, 0)
  | t :: ts =>
      let max_tokens_per_mm_item := foldl Z.max t ts in
      if disable_chunked_mm_input && (max_num_batched_tokens <? max_tokens_per_mm_item) then Raise ValueError
      else Ok (Z.max max_num_encoder_input_tokens max_tokens_per_mm_item,
               Z.max encoder_cache_size max_tokens_per_mm_item)
  end.

(** ** The scheduler's use of the cache *)

(** What the scheduler calls; the two managers are its instances. *)
Class EncoderCacheOps (S : Type) := {
  check_and_update_cache : Request -> Z -> M S bool;
  can_allocate : Request -> Z -> Z -> Z -> M S bool;
  allocate : Request -> Z -> M S unit;
  get_cached_input_ids : Request -> S -> list Z;
  free_encoder_input : Request -> Z -> M S unit;
  free_encoder : (list Z -> list Z) -> Request -> M S unit;
  reset_encoder : M S unit;
  get_freed_mm_hashes : M S (list string);
  (** used slots and cache size *)
  encoder_usage : S -> Z * Z;
}.

#[export] Instance encoder_ops : EncoderCacheOps EncoderCacheManager := {
  check_and_update_cache := Encoder.check_and_update_cache;
  can_allocate := Encoder.can_allocate;
  allocate := Encoder.allocate;
  get_cached_input_ids := Encoder.get_cached_input_ids;
  free_encoder_input := Encoder.free_encoder_input;
  free_encoder := Encoder.free;
  reset_encoder := Encoder.reset;
  get_freed_mm_hashes := Encoder.get_freed_mm_hashes;
  encoder_usage m := (cache_size m - num_free_slots m, cache_size m);
}.

#[export] Instance encoder_decoder_ops : EncoderCacheOps EncoderDecoderCacheManager := {
  check_and_update_cache := EncoderDecoder.check_and_update_cache;
  can_allocate := EncoderDecoder.can_allocate;
  allocate := EncoderDecoder.allocate;
  get_cached_input_ids := EncoderDecoder.get_cached_input_ids;
  free_encoder_input := EncoderDecoder.free_encoder_input;
  free_encoder _ := EncoderDecoder.free;
  reset_encoder := EncoderDecoder.reset;
  get_freed_mm_hashes := EncoderDecoder.get_freed_mm_hashes;
  encoder_usage m := (ed_cache_size m - ed_num_free_slots m, ed_cache_size m);
}.

Module EncoderSched.

(** The local variables of the loop. *)
Record try_state := {
  encoder_inputs_to_schedule : list Z;
  num_new_tokens : Z;
  encoder_compute_budget : Z;
  external_load_encoder_input : list Z;
  mm_hashes_to_schedule : list string;
  num_embeds_to_schedule : Z;
}.

Section sched.
Context {S : Type} {ops : EncoderCacheOps S}.
Context (is_encoder_decoder disable_chunked_mm_input : bool).
(** [self.ec_connector]: its [has_cache_item], if there is one. *)
Context (ec_connector : option (string -> bool)).

(** The loop over the inputs from number [i] on; [break] ends it. *)
Fixpoint try_loop (request : Request) (num_computed_tokens shift_computed_tokens : Z) (i : Z)
    (features : list MultiModalFeatureSpec) (v : try_state) : M S try_state :=
  match features with
  | [] => mret v
  | f :: rest =>
      let continue := try_loop request num_computed_tokens shift_computed_tokens (i + 1) rest in
      let start_pos := pr_offset (mm_position f) in
      let num_encoder_tokens := pr_length (mm_position f) in
      num_encoder_embeds ← lift_res (get_num_embeds (mm_position f));
      if num_computed_tokens + num_new_tokens v + shift_computed_tokens <=? start_pos then mret v
      else if is_encoder_decoder && (0 <? num_computed_tokens) then
        assert_ (start_pos =? 0) ;; continue v
      else if start_pos + num_encoder_tokens <=? num_computed_tokens then continue v
      else
        is_cached ←
          (if is_encoder_decoder then mret false
           else if bool_decide (identifier f ∈ mm_hashes_to_schedule v) then mret true
           else check_and_update_cache request i);
        if is_cached : bool then continue v
        else if disable_chunked_mm_input && (num_computed_tokens <? start_pos)
             && (num_computed_tokens + num_new_tokens v <? start_pos + num_encoder_tokens) then
          mret {| v with num_new_tokens := Z.max 0 (start_pos - (num_computed_tokens + shift_computed_tokens)) |}
        else
          fits ← can_allocate request i (encoder_compute_budget v) (num_embeds_to_schedule v);
          if negb fits then
            mret {| v with num_new_tokens :=
              if num_computed_tokens + shift_computed_tokens <? start_pos
              then start_pos - (num_computed_tokens + shift_computed_tokens) else 0 |}
          else
            let start_idx_rel := Z.max 0 (num_computed_tokens - start_pos) in
            let end_idx_rel := Z.min num_encoder_tokens (num_computed_tokens + num_new_tokens v - start_pos) in
            '(curr_embeds_start, curr_embeds_end) ←
              lift_res (get_embeds_indices_in_range (mm_position f) start_idx_rel end_idx_rel);
            if curr_embeds_end - curr_embeds_start =? 0 then continue v
            else if match ec_connector with Some has_cache_item => has_cache_item (identifier f) | None => false end then
              continue {| v with mm_hashes_to_schedule := mm_hashes_to_schedule v ++ [identifier f];
                                 external_load_encoder_input := external_load_encoder_input v ++ [i];
                                 num_embeds_to_schedule := num_embeds_to_schedule v + num_encoder_embeds |}
            else
              continue {| v with num_embeds_to_schedule := num_embeds_to_schedule v + num_encoder_embeds;
                                 encoder_compute_budget := encoder_compute_budget v - num_encoder_embeds;
                                 mm_hashes_to_schedule := mm_hashes_to_schedule v ++ [identifier f];
                                 encoder_inputs_to_schedule := encoder_inputs_to_schedule v ++ [i] |}
  end.

Definition try_schedule_encoder_inputs (request : Request) (num_computed_tokens num_new_tokens encoder_compute_budget
    shift_computed_tokens : Z) : M S (list Z * Z * Z * list Z) :=
  if (num_new_tokens =? 0) || negb (has_encoder_inputs request) then
    mret ([], num_new_tokens, encoder_compute_budget, [])
  else
    v ← try_loop request num_computed_tokens shift_computed_tokens 0 (mm_features request)
          {| encoder_inputs_to_schedule := []; num_new_tokens := num_new_tokens;
             encoder_compute_budget := encoder_compute_budget; external_load_encoder_input := [];
             mm_hashes_to_schedule := []; num_embeds_to_schedule := 0 |};
    mret (encoder_inputs_to_schedule v, EncoderSched.num_new_tokens v, EncoderSched.encoder_compute_budget v,
          external_load_encoder_input v).

(** [schedule] then allocates the inputs to compute and those to load. *)
Definition allocate_scheduled (request : Request) (encoder_inputs_to_schedule external_load_encoder_input : list Z)
  : M S unit :=
  mfor encoder_inputs_to_schedule (allocate request) ;;
  mfor external_load_encoder_input (allocate request).

(** [_free_encoder_inputs]; [order] is the iteration order of the set of ids. *)
Definition free_encoder_inputs (order : list Z -> list Z) (request : Request) : M S unit :=
  cached_encoder_input_ids ← gets (get_cached_input_ids request);
  mfor (order cached_encoder_input_ids) (fun input_id =>
    f ← lift_res (py_get (mm_features request) input_id);
    let start_pos := pr_offset (mm_position f) in
    let num_tokens := pr_length (mm_position f) in
    if is_encoder_decoder && (0 <? num_computed_tokens request) then free_encoder_input request input_id
    else if start_pos + num_tokens <=? num_computed_tokens request then free_encoder_input request input_id
    else mret tt).

End sched.

(** What the model runner reads for a request in a step of [_gather_mm_embeddings]:
    the identifiers it looks up in the encoder cache, with the range of embeddings. *)
Fixpoint gather_loop (features : list MultiModalFeatureSpec) (num_computed_tokens num_scheduled_tokens : Z)
  : res (list (string * Z * Z)) :=
  match features with
  | [] => Ok []
  | f :: rest =>
      let start_pos := pr_offset (mm_position f) in
      let num_encoder_tokens := pr_length (mm_position f) in
      if num_computed_tokens + num_scheduled_tokens <=? start_pos then Ok []
      else if start_pos + num_encoder_tokens <=? num_computed_tokens then
        gather_loop rest num_computed_tokens num_scheduled_tokens
      else
        let start_idx := Z.max (num_computed_tokens - start_pos) 0 in
        let end_idx := Z.min (num_computed_tokens - start_pos + num_scheduled_tokens) num_encoder_tokens in
        if end_idx <=? start_idx then Raise AssertionError
        else
          '(curr_embeds_start, curr_embeds_end) ← get_embeds_indices_in_range (mm_position f) start_idx end_idx;
          l ← gather_loop rest num_computed_tokens num_scheduled_tokens;
          Ok (if curr_embeds_start =? curr_embeds_end then l
              else (identifier f, curr_embeds_start, curr_embeds_end) :: l)
  end.

Definition gather_mm_embeddings (request : Request) (num_computed_tokens num_scheduled_tokens shift_computed_tokens : Z) :=
  gather_loop (mm_features request) (num_computed_tokens + shift_computed_tokens) num_scheduled_tokens.

End EncoderSched.
