(* ===== verification/EncoderFacts.v ===== *)
(** Correctness of the encoder cache and of the scheduler's use of it.

    The number of embeddings of an input is a function of its identifier
    ([sizes]); then the slot counters are sums over the cached entries, the
    freeable entries are those without references, and whatever the scheduler
    schedules can be allocated and will be found by the model runner. *)

From S2P Require Import Prelude Request EncoderCache.
Local Open Scope Z_scope.

Module EncoderFacts.
Import Encoder.

Section facts.
(** The embeddings of the input with an identifier. *)
Context (sizes : string -> Z).

Definition sum_sizes (l : list string) : Z := foldr (fun h acc => sizes h + acc) 0 l.
Definition total_size (c : gmap string (gset string)) : Z := sum_sizes (map_to_list c).*1.
Definition entries_size (l : list (string * Z)) : Z := foldr (fun e acc => e.2 + acc) 0 l.

Record encoder_ok (m : EncoderCacheManager) : Prop := {
  eo_nodup : NoDup (Dict.keys (freeable m));
  eo_freeable : forall h, h ∈ Dict.keys (freeable m) <-> cached m !! h = Some ∅;
  eo_size : forall h n, (h, n) ∈ freeable m -> n = sizes h;
  eo_free : num_free_slots m = cache_size m - total_size (cached m);
  eo_slots : num_freeable_slots m = num_free_slots m + entries_size (freeable m);
  eo_bound : 0 <= num_free_slots m;
}.

(** The request agrees with [sizes], and its masks are as long as its ranges. *)
Record request_ok (r : Request) : Prop := {
  ro_size : forall f, f ∈ mm_features r -> get_num_embeds (mm_position f) = Ok (sizes (identifier f));
  ro_nonneg : forall f, f ∈ mm_features r -> 0 <= sizes (identifier f);
  ro_length : forall f, f ∈ mm_features r -> 0 < pr_length (mm_position f);
  ro_mask : forall f l, f ∈ mm_features r -> is_embed (mm_position f) = Some l -> zlen l = pr_length (mm_position f);
}.

Lemma sum_sizes_cons h l : sum_sizes (h :: l) = sizes h + sum_sizes l.
Proof. done. Qed.

#[local] Instance sum_sizes_perm : Proper (Permutation ==> eq) sum_sizes.
Proof. induction 1; rewrite ?sum_sizes_cons; lia. Qed.

Lemma sum_sizes_app l l' : sum_sizes (l ++ l') = sum_sizes l + sum_sizes l'.
Proof. induction l as [|h l IH]; cbn [app]; rewrite ?sum_sizes_cons; [done|lia]. Qed.

Lemma total_insert_new h refs c : c !! h = None -> total_size (<[h := refs]> c) = sizes h + total_size c.
Proof. intros H. unfold total_size. by rewrite map_to_list_insert. Qed.

Lemma total_delete h refs c : c !! h = Some refs -> total_size c = sizes h + total_size (delete h c).
Proof.
  intros H. rewrite <- (insert_delete_id _ _ _ H) at 1. apply total_insert_new, lookup_delete_eq.
Qed.

Lemma total_insert_old h refs refs' c : c !! h = Some refs -> total_size (<[h := refs']> c) = total_size c.
Proof.
  intros H. rewrite (total_delete h refs c H), <- insert_delete_eq. apply total_insert_new, lookup_delete_eq.
Qed.

Lemma entries_cons e l : entries_size (e :: l) = e.2 + entries_size l.
Proof. done. Qed.

Lemma entries_app l l' : entries_size (l ++ l') = entries_size l + entries_size l'.
Proof. induction l as [|e l IH]; cbn [app]; rewrite ?entries_cons; [done|lia]. Qed.

Lemma entries_del h n d : Dict.get h d = Some n -> entries_size d = n + entries_size (Dict.del h d).
Proof.
  induction d as [|[h' n'] d IH]; cbn [Dict.get Dict.del]; [done|]. case_decide; [by intros [= ->]|].
  intros Hg. rewrite !entries_cons. specialize (IH Hg). lia.
Qed.

(** *** Lookups *)

Lemma check_miss r i h m : input_hash r i = Ok h -> cached m !! h = None ->
  check_and_update_cache r i m = (Ok false, m).
Proof. intros Hh Hm. unfold check_and_update_cache, lift_res. rewrite Hh. msteps. by rewrite Hm. Qed.

Lemma check_hit r i h refs m : input_hash r i = Ok h -> encoder_ok m -> cached m !! h = Some refs ->
  exists m', check_and_update_cache r i m = (Ok true, m') /\ encoder_ok m'
    /\ cached m' = <[h := {[request_id r]} ∪ refs]> (cached m)
    /\ num_free_slots m' = num_free_slots m /\ cache_size m' = cache_size m /\ freed m' = freed m.
Proof.
  intros Hh [H1 H2 H3 H4 H5 H6] Hm. unfold check_and_update_cache, lift_res. rewrite Hh. msteps. rewrite Hm.
  assert ({[request_id r]} ∪ refs <> ∅) as Hne by set_solver.
  destruct (decide (refs = ∅)) as [->|Hrefs].
  - apply H2 in Hm as Hk. destruct (Dict.get h (freeable m)) as [n|] eqn:Eg; [|by apply Dict.get_None in Eg].
    eexists. split; [reflexivity|]. cbn [cached num_free_slots cache_size freed]. split; [|done].
    split; cbn [freeable cached num_free_slots num_freeable_slots cache_size].
    + by apply Dict.NoDup_del.
    + intros h'. rewrite Dict.elem_keys_del by done. destruct (decide (h' = h)) as [->|Hd].
      * rewrite lookup_insert_eq. split; [tauto|]. by intros Heq%(inj Some).
      * rewrite lookup_insert_ne by done. rewrite H2. tauto.
    + intros h' n' Hin%Dict.elem_del. by apply H3.
    + by rewrite (total_insert_old _ _ _ _ Hm).
    + pose proof (entries_del _ _ _ Eg). lia.
    + done.
  - eexists. split; [reflexivity|]. cbn [cached num_free_slots cache_size freed]. split; [|done].
    split; cbn [freeable cached num_free_slots num_freeable_slots cache_size]; try done.
    + intros h'. rewrite H2. destruct (decide (h' = h)) as [->|Hd]; [|by rewrite lookup_insert_ne].
      rewrite lookup_insert_eq, Hm. split; intros Heq%(inj Some); [by destruct (Hrefs Heq)|by destruct (Hne Heq)].
    + by rewrite (total_insert_old _ _ _ _ Hm).
Qed.

(** *** Eviction *)

(** What eviction of the oldest entries [out] leaves. *)
Record evicted (m m' : EncoderCacheManager) (out : list (string * Z)) : Prop := {
  ev_entries : freeable m = out ++ freeable m';
  ev_cached : forall h, cached m' !! h = if decide (h ∈ out.*1) then None else cached m !! h;
  ev_freed : freed m' = freed m ++ out.*1;
  ev_size : cache_size m' = cache_size m;
  ev_slots : num_freeable_slots m' = num_freeable_slots m;
  ev_free : num_free_slots m' = num_free_slots m + entries_size out;
}.

Lemma evicted_none m : evicted m m [].
Proof. split; cbn; rewrite ?app_nil_r, ?Z.add_0_r; done. Qed.

Lemma evict_ok n entries m : encoder_ok m -> freeable m = entries -> n <= num_freeable_slots m ->
  (forall h, h ∈ entries.*1 -> 0 <= sizes h) ->
  exists m' out, evict_loop n entries m = (Ok tt, m') /\ encoder_ok m' /\ evicted m m' out /\ n <= num_free_slots m'
    /\ forall out' e, out = out' ++ [e] -> num_free_slots m + entries_size out' < n.
Proof.
  revert m. induction entries as [|[h k] rest IH]; intros m Hok He Hn Hpos; cbn [evict_loop]; msteps;
    destruct (Z.leb_spec n (num_free_slots m)) as [Hle|Hgt].
  1, 3: exists m, []; split; [done|]; split; [done|]; split; [apply evicted_none|]; split; [done|]; intros out' e Hout; by destruct out'.
  { exfalso. pose proof (eo_slots _ Hok) as Hs. rewrite He in Hs. cbn in Hs. lia. }
  destruct Hok as [H1 H2 H3 H4 H5 H6]. rewrite He in *. cbn [Dict.keys fmap list_fmap fst] in H1, H2.
  assert (cached m !! h = Some ∅) as Hh by (apply H2; by left).
  assert (k = sizes h) as -> by (apply H3; by left).
  rewrite decide_True by (cbn [cached]; apply elem_of_dom; by eexists). msteps.
  change (list_fmap _ _ fst rest) with (Dict.keys rest) in *. apply NoDup_cons in H1 as [Hnin Hnd].
  rewrite entries_cons in H5. cbn [snd] in H5.
  match goal with |- exists _ _, evict_loop n rest ?m1 = _ /\ _ => set (m1' := m1) end.
  destruct (IH m1') as (m' & out & R1 & Hok' & [E1 E2 E3 E4 E5 E6] & Hle' & Hmin).
  - unfold m1'. split; cbn [freeable cached num_free_slots num_freeable_slots cache_size]; try done.
    + intros h'. destruct (decide (h' = h)) as [->|Hne].
      * rewrite lookup_delete_eq. split; [done|]. intros [=].
      * rewrite lookup_delete_ne by done. rewrite <- H2. rewrite elem_of_cons. naive_solver.
    + intros h' n' Hin. apply H3. by right.
    + pose proof (total_delete _ _ _ Hh). lia.
    + lia.
    + specialize (Hpos h ltac:(by left)). lia.
  - done.
  - unfold m1'. cbn [num_freeable_slots]. lia.
  - intros h' Hin. apply Hpos. by right.
  - unfold m1' in *. cbn [freeable cached freed cache_size num_freeable_slots num_free_slots] in *.
    exists m', ((h, sizes h) :: out). split; [exact R1|]. split; [done|]. split; [|split; [done|]].
    + split; try done.
      * rewrite He. cbn [app]. by rewrite E1.
      * intros h'. rewrite E2. cbn [fmap list_fmap fst]. destruct (decide (h' = h)) as [->|Hne].
        -- rewrite lookup_delete_eq. rewrite (decide_True (P := h ∈ _ :: _)) by by left. by case_decide.
        -- rewrite lookup_delete_ne by done. destruct (decide (h' ∈ out.*1)).
           ++ by rewrite decide_True by by right.
           ++ rewrite decide_False; [done|]. by intros [?|?]%elem_of_cons.
      * rewrite E3. by rewrite <- app_assoc.
      * rewrite E6, entries_cons. cbn [snd]. lia.
    + intros out' e Hout. destruct out' as [|e0 out']; cbn [app] in Hout; injection Hout as <- Hout.
      * cbn. lia.
      * rewrite entries_cons. cbn [snd]. specialize (Hmin out' e Hout). lia.
Qed.

(** *** Capacity *)

(** [can_allocate] answers whether the input fits after eviction, and evicts only
    entries without references, oldest first. *)
Lemma can_allocate_ok r i n budget s m : encoder_ok m -> (forall h, 0 <= sizes h) ->
  get_num_encoder_embeds r i = Ok n ->
  exists b m' out, can_allocate r i budget s m = (Ok b, m') /\ encoder_ok m' /\ evicted m m' out
    /\ (b = true <-> n <= budget /\ n + s <= num_freeable_slots m)
    /\ (b = true -> n + s <= num_free_slots m')
    /\ (b = false -> out = [])
    /\ forall out' e, out = out' ++ [e] -> num_free_slots m + entries_size out' < n + s.
Proof.
  intros Hok Hpos Hn. unfold can_allocate, lift_res. rewrite Hn. msteps.
  assert (num_free_slots m <= num_freeable_slots m) as Hle.
  { rewrite (eo_slots _ Hok). pose proof (eo_size _ Hok) as Hs. revert Hs. generalize (freeable m). clear -Hpos.
    induction l as [|[h k] l IH]; intros Hs; [cbn; lia|]. rewrite entries_cons. cbn [snd].
    assert (k = sizes h) as -> by (apply Hs; by left). specialize (Hpos h).
    assert (0 <= entries_size l); [|lia]. specialize (IH ltac:(intros h' n' Hin; apply Hs; by right)). lia. }
  destruct (Z.ltb_spec budget n) as [Hb|Hb].
  { exists false, m, []. split; [done|]. split; [done|]. split; [apply evicted_none|]. split; [split; [done|lia]|].
    split; [done|]. split; [done|]. intros out' e Ho. by destruct out'. }
  msteps. destruct (Z.leb_spec (n + s) (num_free_slots m)) as [Hf|Hf].
  { exists true, m, []. split; [done|]. split; [done|]. split; [apply evicted_none|]. split; [split; [lia|done]|].
    split; [done|]. split; [done|]. intros out' e Ho. by destruct out'. }
  destruct (Z.ltb_spec (num_freeable_slots m) (n + s)) as [Hs|Hs].
  { exists false, m, []. split; [done|]. split; [done|]. split; [apply evicted_none|]. split; [split; [done|lia]|].
    split; [done|]. split; [done|]. intros out' e Ho. by destruct out'. }
  destruct (evict_ok (n + s) (freeable m) m Hok eq_refl Hs ltac:(by intros)) as (m' & out & R1 & Hok' & Hev & Hle' & Hmin).
  rewrite (bind_ok _ _ _ _ _ R1). exists true, m', out. split; [done|]. split; [done|]. split; [done|].
  split; [split; [lia|done]|]. by split.
Qed.

Lemma allocate_ok r i h m : encoder_ok m -> input_hash r i = Ok h -> get_num_encoder_embeds r i = Ok (sizes h) ->
  cached m !! h = None -> 0 <= sizes h <= num_free_slots m -> 0 <= entries_size (freeable m) ->
  exists m', allocate r i m = (Ok tt, m') /\ encoder_ok m' /\ cached m' = <[h := {[request_id r]}]> (cached m)
    /\ num_free_slots m' = num_free_slots m - sizes h /\ freeable m' = freeable m /\ freed m' = freed m.
Proof.
  intros [H1 H2 H3 H4 H5 H6] Hh Hn Hm Hs He. unfold allocate, lift_res. rewrite Hh. msteps. rewrite Hm, Hn. msteps.
  cbn [num_free_slots num_freeable_slots cached]. replace (sizes h <=? num_free_slots m) with true by lia.
  replace (sizes h <=? num_freeable_slots m) with true by lia. cbn [assert_]. msteps.
  eexists. split; [reflexivity|]. cbn [cached num_free_slots freeable freed].
  rewrite lookup_insert_eq. change (default ∅ (Some ∅)) with (∅ : gset string). rewrite union_empty_r_L, insert_insert_eq.
  split; [|done]. split; cbn [freeable cached num_free_slots num_freeable_slots cache_size]; try done.
  - intros h'. rewrite H2. destruct (decide (h' = h)) as [->|Hne]; [|by rewrite lookup_insert_ne].
    rewrite lookup_insert_eq, Hm. split; [done|]. intros Heq%(inj Some). set_solver.
  - rewrite (total_insert_new _ _ _ Hm). lia.
  - lia.
  - lia.
Qed.

(** *** Freeing *)

Lemma free_input_ok r i h m : encoder_ok m -> input_hash r i = Ok h -> get_num_encoder_embeds r i = Ok (sizes h) ->
  0 <= sizes h ->
  exists m', free_encoder_input r i m = (Ok tt, m') /\ encoder_ok m'
    /\ cached m' = match cached m !! h with
                    | Some refs => <[h := refs ∖ {[request_id r]}]> (cached m)
                    | None => cached m
                    end
    /\ cache_size m' = cache_size m /\ num_free_slots m' = num_free_slots m.
Proof.
  intros Hok Hh Hn Hs. unfold free_encoder_input, lift_res. rewrite Hh. msteps.
  destruct (cached m !! h) as [refs|] eqn:Hm.
  2: { change (default ∅ None) with (∅ : gset string). rewrite decide_True by done. by exists m. }
  change (default ∅ (Some refs)) with refs. destruct (decide (refs = ∅)) as [->|Hrefs].
  { exists m. split; [done|]. split; [done|]. split; [|done]. symmetry.
    replace (∅ ∖ {[request_id r]}) with (∅ : gset string) by set_solver. by apply insert_id. }
  set (refs' := refs ∖ {[request_id r]}). msteps. destruct Hok as [H1 H2 H3 H4 H5 H6].
  assert (h ∉ Dict.keys (freeable m)) as Hnin by (rewrite H2, Hm; by intros ?%(inj Some)).
  destruct (decide (refs' = ∅)) as [He|He].
  - rewrite Hn. msteps. eexists. split; [reflexivity|]. cbn [cached cache_size num_free_slots]. split; [|done].
    rewrite He. split; cbn [freeable cached num_free_slots num_freeable_slots cache_size]; try done.
    + by apply Dict.NoDup_set.
    + intros h'. rewrite Dict.elem_keys_set. destruct (decide (h' = h)) as [->|Hne].
      * rewrite lookup_insert_eq. tauto.
      * rewrite lookup_insert_ne, <- H2 by done. naive_solver.
    + intros h' n'. rewrite Dict.keys_set_new by done. rewrite elem_of_app, list_elem_of_singleton.
      intros [Hin|[= -> ->]]; [by apply H3|done].
    + by rewrite (total_insert_old _ _ _ _ Hm).
    + rewrite Dict.keys_set_new by done. rewrite entries_app, entries_cons. cbn. lia.
  - eexists. split; [reflexivity|]. cbn [cached cache_size num_free_slots]. split; [|done].
    split; cbn [freeable cached num_free_slots num_freeable_slots cache_size]; try done.
    + intros h'. rewrite H2. destruct (decide (h' = h)) as [->|Hne]; [|by rewrite lookup_insert_ne].
      rewrite lookup_insert_eq, Hm. split; intros Heq%(inj Some); [by destruct (Hrefs Heq)|by destruct (He Heq)].
    + by rewrite (total_insert_old _ _ _ _ Hm).
Qed.

End facts.

#[export] Existing Instance sum_sizes_perm.
End EncoderFacts.

(** ** Embedding ranges *)

Module Ranges.
Import EncoderSched.

Definition ones (l : list bool) : Z := foldr (fun b acc => Z.b2z b + acc) 0 l.

Lemma ones_cons b l : ones (b :: l) = Z.b2z b + ones l.
Proof. done. Qed.

Lemma ones_nonneg l : 0 <= ones l.
Proof. induction l as [|b l IH]; [done|]. rewrite ones_cons. destruct b; cbn [Z.b2z]; lia. Qed.

Lemma ones_take_mono l i j : (i <= j)%nat -> ones (take i l) <= ones (take j l).
Proof.
  revert i j. induction l as [|b l IH]; intros i j Hij; [by rewrite !take_nil|].
  destruct i as [|i]; [apply ones_nonneg|]. destruct j as [|j]; [lia|]. cbn [take]. rewrite !ones_cons.
  specialize (IH i j ltac:(lia)). lia.
Qed.

Lemma cumsum_lookup l i : (i < length l)%nat -> cumsum l !! i = Some (ones (take (S i) l)).
Proof.
  unfold cumsum. intros Hi. rewrite <- (Z.add_0_l (ones _)). revert i Hi. generalize 0.
  induction l as [|b l IH]; intros acc i Hi; [cbn in Hi; lia|]. destruct i as [|i].
  - cbn [lookup list_lookup take]. rewrite ones_cons. destruct b; cbn; f_equal; lia.
  - change ((_ :: _) !! S i) with ((fix go (acc : Z) (l : list bool) : list Z :=
       match l with [] => [] | b :: l' => let acc' := acc + Z.b2z b in acc' :: go acc' l' end) (acc + Z.b2z b) l !! i).
    rewrite IH by (cbn in Hi; lia). cbn [take]. rewrite !ones_cons. f_equal. lia.
Qed.

Lemma length_cumsum l : length (cumsum l) = length l.
Proof.
  unfold cumsum. generalize 0. induction l as [|b l IH]; intros acc; [done|]. cbn. f_equal. apply IH.
Qed.

(** The embeddings before the [k]-th token of a range. *)
Definition embeds_before (p : PlaceholderRange) (k : Z) : Z :=
  match is_embed p with None => k | Some l => ones (take (Z.to_nat k) l) end.

Lemma embeds_before_mono p a b : a <= b -> embeds_before p a <= embeds_before p b.
Proof. unfold embeds_before. intros H. destruct (is_embed p); [apply ones_take_mono; lia|done]. Qed.

(** The range of embeddings of a non-empty range of tokens. *)
Lemma embeds_range p a b : (forall l, is_embed p = Some l -> zlen l = pr_length p) -> 0 <= a < b -> b <= pr_length p ->
  get_embeds_indices_in_range p a b = Ok (embeds_before p a, embeds_before p b).
Proof.
  intros Hl Ha Hb. unfold get_embeds_indices_in_range, embeds_cumsum, embeds_before.
  destruct (is_embed p) as [l|]; [|done]. cbn [fmap option_fmap option_map]. specialize (Hl l eq_refl). unfold zlen in Hl.
  rewrite (py_get_nonneg _ (b - 1)), cumsum_lookup by lia. cbn [res_of_option].
  replace (S (Z.to_nat (b - 1))) with (Z.to_nat b) by lia. destruct (Z.ltb_spec 0 a).
  - rewrite py_get_nonneg, cumsum_lookup by lia. cbn. do 3 f_equal. f_equal. lia.
  - replace (Z.to_nat a) with 0%nat by lia. done.
Qed.

(** Also for [end_idx = 0] the mask is read without error. *)
Lemma embeds_range_zero p : (forall l, is_embed p = Some l -> zlen l = pr_length p) -> 0 < pr_length p ->
  exists a b, get_embeds_indices_in_range p 0 0 = Ok (a, b).
Proof.
  intros Hl Hp. unfold get_embeds_indices_in_range, embeds_cumsum. destruct (is_embed p) as [l|]; [|by eexists _, _].
  cbn [fmap option_fmap option_map Z.ltb Z.compare mbind res_bind]. specialize (Hl l eq_refl). unfold zlen in Hl.
  destruct (last (cumsum l)) as [x|] eqn:El.
  - change (0 - 1) with (-1). rewrite (py_get_last _ _ El). by eexists _, _.
  - apply last_None in El. pose proof (length_cumsum l) as H. rewrite El in H. cbn in H. lia.
Qed.

(** The model runner reads embeddings of [f] for the tokens [nc, nc + n). *)
Definition needed (f : MultiModalFeatureSpec) (nc n : Z) : Prop :=
  let p := mm_position f in
  pr_offset p < nc + n /\ nc < pr_offset p + pr_length p
  /\ embeds_before p (Z.max (nc - pr_offset p) 0) < embeds_before p (Z.min (nc - pr_offset p + n) (pr_length p)).

Section gather.
Context (sizes : string -> Z) (r : Request) (Hr : EncoderFacts.request_ok sizes r).

Lemma mask_length f : f ∈ mm_features r ->
  (forall l, is_embed (mm_position f) = Some l -> zlen l = pr_length (mm_position f)) /\ 0 < pr_length (mm_position f).
Proof. intros Hf. split; [intros l; by apply (EncoderFacts.ro_mask _ _ Hr)|by apply (EncoderFacts.ro_length _ _ Hr)]. Qed.

Lemma gather_ok nc n features : 0 < n -> (forall f, f ∈ features -> f ∈ mm_features r) ->
  exists l, gather_loop features nc n = Ok l
    /\ forall h a b, (h, a, b) ∈ l -> exists f, f ∈ features /\ identifier f = h /\ needed f nc n.
Proof.
  intros Hn. induction features as [|f rest IH]; intros Hin; cbn [gather_loop].
  { exists []. split; [done|]. by intros h a b ?%not_elem_of_nil. }
  destruct IH as (l & El & Hl); [intros f' Hf'; apply Hin; by right|].
  destruct (mask_length f (Hin f ltac:(by left))) as [Hm Hp].
  destruct (Z.leb_spec (nc + n) (pr_offset (mm_position f))) as [H1|H1].
  { exists []. split; [done|]. by intros h a b ?%not_elem_of_nil. }
  destruct (Z.leb_spec (pr_offset (mm_position f) + pr_length (mm_position f)) nc) as [H2|H2].
  { exists l. split; [done|]. intros h a b Hh. destruct (Hl h a b Hh) as (f' & ? & ?). exists f'. split; [by right|done]. }
  set (si := Z.max _ 0). set (ei := Z.min _ _). replace (ei <=? si) with false by lia.
  rewrite embeds_range by (done || lia). cbn [mbind res_bind]. rewrite El. cbn [mbind res_bind].
  eexists. split; [reflexivity|]. intros h a b. destruct (Z.eqb_spec (embeds_before (mm_position f) si) (embeds_before (mm_position f) ei)) as [He|He].
  - intros Hh. destruct (Hl h a b Hh) as (f' & ? & ?). exists f'. split; [by right|done].
  - intros [[= -> -> ->]|Hh]%elem_of_cons.
    + exists f. split; [by left|]. split; [done|]. split; [done|]. split; [done|].
      pose proof (embeds_before_mono (mm_position f) si ei ltac:(lia)). fold si ei. lia.
    + destruct (Hl h a b Hh) as (f' & ? & ?). exists f'. split; [by right|done].
Qed.

End gather.
End Ranges.
