(* ===== verification/EncoderSchedule.v ===== *)
(** What the scheduler's treatment of encoder inputs guarantees to the model
    runner, and the sessions of the encoder cache. *)

From Stdlib Require Import Sorting.Sorted.
From S2P Require Import Prelude Request EncoderCache EncoderFacts.
Local Open Scope Z_scope.

Module EncoderSchedule.
Import Encoder EncoderFacts EncoderSched Ranges.

Section schedule.
Context (sizes : string -> Z) (Hsizes : forall h, 0 <= sizes h).
Context (r : Request) (Hr : request_ok sizes r).
Context (chunked : bool) (ec : option (string -> bool)).
(** the computed tokens, the tokens asked for, the budget, the shift *)
Context (nc n budget shift : Z) (Hbudget : 0 <= budget) (Hshift : 0 <= shift <= 1).

Abbreviation sum := (sum_sizes sizes).
Abbreviation ok := (encoder_ok sizes).

(** The output of input [f] is in the cache for [r], or will be. *)
Definition available (hashes : list string) (m : EncoderCacheManager) (f : MultiModalFeatureSpec) : Prop :=
  identifier f ∈ hashes \/ exists refs, cached m !! identifier f = Some refs /\ request_id r ∈ refs.

Definition hash_of (i : Z) : string :=
  match input_hash r i with Ok h => h | Raise _ => "" end.

Definition valid_input (i : Z) : Prop := 0 <= i < zlen (mm_features r).

Lemma input_hash_ok i f : mm_features r !! Z.to_nat i = Some f -> 0 <= i -> input_hash r i = Ok (identifier f).
Proof. intros Hf Hi. unfold input_hash. rewrite py_get_nonneg by done. by rewrite Hf. Qed.

Lemma num_embeds_ok i f : mm_features r !! Z.to_nat i = Some f -> 0 <= i ->
  get_num_encoder_embeds r i = Ok (sizes (identifier f)).
Proof.
  intros Hf Hi. unfold get_num_encoder_embeds. pose proof (lookup_lt_Some _ _ _ Hf).
  replace (i <? zlen (mm_features r)) with true by (unfold zlen; lia). rewrite py_get_nonneg by done. rewrite Hf.
  cbn [mbind res_bind res_of_option]. apply (ro_size _ _ Hr). by eapply list_elem_of_lookup_2.
Qed.

Lemma valid_input_hash i : valid_input i -> input_hash r i = Ok (hash_of i) /\ get_num_encoder_embeds r i = Ok (sizes (hash_of i)).
Proof.
  intros [H0 H1]. unfold zlen in H1. destruct (lookup_lt_is_Some_2 (mm_features r) (Z.to_nat i)) as [f Hf]; [lia|].
  unfold hash_of. rewrite (input_hash_ok i f Hf H0). split; [done|]. by apply num_embeds_ok.
Qed.

(** The variables of the loop, with the cache, after the inputs [prev]. *)
Record try_inv (prev : list MultiModalFeatureSpec) (v : try_state) (m : EncoderCacheManager) : Prop := {
  ti_ok : ok m;
  ti_new : 0 <= num_new_tokens v <= n;
  ti_inputs : Forall valid_input (encoder_inputs_to_schedule v ++ external_load_encoder_input v);
  ti_hashes : hash_of <$> (encoder_inputs_to_schedule v ++ external_load_encoder_input v) ≡ₚ mm_hashes_to_schedule v;
  ti_nodup : NoDup (mm_hashes_to_schedule v);
  ti_absent : forall h, h ∈ mm_hashes_to_schedule v -> cached m !! h = None;
  ti_embeds : num_embeds_to_schedule v = sum (mm_hashes_to_schedule v);
  ti_fits : sum (mm_hashes_to_schedule v) <= num_free_slots m;
  ti_budget : encoder_compute_budget v = budget - sum (hash_of <$> encoder_inputs_to_schedule v) /\ 0 <= encoder_compute_budget v;
  ti_ready : shift = 0 -> forall f n', f ∈ prev -> 0 < n' <= num_new_tokens v -> needed f nc n' ->
    available (mm_hashes_to_schedule v) m f;
}.

(** A changed cache that keeps what [try_inv] needs. *)
Definition keeps (m m' : EncoderCacheManager) : Prop :=
  (forall h, cached m !! h = None -> cached m' !! h = None)
  /\ (forall h refs, cached m !! h = Some refs -> request_id r ∈ refs ->
        exists refs', cached m' !! h = Some refs' /\ request_id r ∈ refs')
  /\ num_free_slots m <= num_free_slots m'.

Lemma keeps_refl m : keeps m m.
Proof. split; [done|]. split; [|lia]. intros h refs H1 H2. by exists refs. Qed.

Lemma available_keeps hashes m m' f : keeps m m' -> available hashes m f -> available hashes m' f.
Proof. intros (_ & H & _) [?|(refs & H1 & H2)]; [by left|right]. by apply (H _ refs). Qed.

Lemma inv_keeps prev v m m' : try_inv prev v m -> keeps m m' -> ok m' -> try_inv prev v m'.
Proof.
  intros [] Hk Hok. pose proof Hk as (K1 & _ & K3). split; try done; [by intros; apply K1, ti_absent0|lia|].
  intros Hs f n' Hf Hn' Hneed. eapply available_keeps, ti_ready0; done.
Qed.

(** One more input that is not needed, or available. *)
Lemma inv_skip prev v m f : try_inv prev v m ->
  (shift = 0 -> forall n', 0 < n' <= num_new_tokens v -> needed f nc n' -> available (mm_hashes_to_schedule v) m f) ->
  try_inv (prev ++ [f]) v m.
Proof.
  intros [] Hf. split; try done. intros Hs f' n' [Hin|Hin%list_elem_of_singleton]%elem_of_app Hn' Hneed; [by eapply ti_ready0|].
  subst f'. by eapply Hf.
Qed.

(** One more input to compute or to load. *)
Lemma inv_schedule prev v m f i (external : bool) : try_inv prev v m -> valid_input i -> hash_of i = identifier f ->
  identifier f ∉ mm_hashes_to_schedule v -> cached m !! identifier f = None ->
  sizes (identifier f) + num_embeds_to_schedule v <= num_free_slots m ->
  sizes (identifier f) <= encoder_compute_budget v ->
  try_inv (prev ++ [f])
    (if external then
       {| v with mm_hashes_to_schedule := mm_hashes_to_schedule v ++ [identifier f];
                 external_load_encoder_input := external_load_encoder_input v ++ [i];
                 num_embeds_to_schedule := num_embeds_to_schedule v + sizes (identifier f) |}
     else
       {| v with num_embeds_to_schedule := num_embeds_to_schedule v + sizes (identifier f);
                 encoder_compute_budget := encoder_compute_budget v - sizes (identifier f);
                 mm_hashes_to_schedule := mm_hashes_to_schedule v ++ [identifier f];
                 encoder_inputs_to_schedule := encoder_inputs_to_schedule v ++ [i] |}) m.
Proof.
  intros [] Hi Hh Hnin Habs Hfit Hbud.
  assert (NoDup (mm_hashes_to_schedule v ++ [identifier f])) as Hnd.
  { apply NoDup_app. split; [done|]. split; [|apply NoDup_singleton]. by intros h Hh' ->%list_elem_of_singleton. }
  assert (forall h, h ∈ mm_hashes_to_schedule v ++ [identifier f] -> cached m !! h = None) as Habs'.
  { by intros h [?| ->%list_elem_of_singleton]%elem_of_app; [apply ti_absent0|]. }
  assert (sum (mm_hashes_to_schedule v ++ [identifier f]) = sum (mm_hashes_to_schedule v) + sizes (identifier f)) as Hsum.
  { rewrite sum_sizes_app, sum_sizes_cons. cbn. lia. }
  assert (forall hs m' f', available (mm_hashes_to_schedule v) m' f' -> hs = mm_hashes_to_schedule v ++ [identifier f] -> available hs m' f') as Hav.
  { intros hs m' f' [?|?] ->; [left; apply elem_of_app; by left|by right]. }
  assert (shift = 0 -> forall f' n', f' ∈ prev ++ [f] -> 0 < n' <= num_new_tokens v -> needed f' nc n' ->
    available (mm_hashes_to_schedule v ++ [identifier f]) m f') as Hready.
  { intros Hs f' n' [Hin| ->%list_elem_of_singleton]%elem_of_app Hn' Hneed; [by eapply Hav; [eapply ti_ready0|]|].
    left. apply elem_of_app. right. by apply list_elem_of_singleton. }
  destruct external; split;
    cbn [num_new_tokens encoder_inputs_to_schedule external_load_encoder_input mm_hashes_to_schedule
         num_embeds_to_schedule encoder_compute_budget]; try done; try lia.
  - rewrite app_assoc. apply Forall_app. split; [done|]. by apply Forall_singleton.
  - rewrite app_assoc, fmap_app, ti_hashes0. cbn. by rewrite Hh.
  - apply Forall_app in ti_inputs0 as [F1 F2]. rewrite <- app_assoc. apply Forall_app. split; [done|]. apply Forall_app.
    split; [by apply Forall_singleton|done].
  - rewrite <- ti_hashes0, <- app_assoc, !fmap_app. cbn. rewrite Hh. rewrite <- app_assoc. f_equiv. apply Permutation_cons_append.
  - rewrite fmap_app, sum_sizes_app. cbn. rewrite Hh. lia.
Qed.

(** The loop stops: the inputs left are not needed for what is scheduled. *)
Lemma inv_stop prev rest v m k : try_inv prev v m -> 0 <= k <= num_new_tokens v ->
  (forall f, f ∈ rest -> shift = 0 -> 0 < k -> nc + k <= pr_offset (mm_position f)) ->
  try_inv (prev ++ rest) {| v with num_new_tokens := k |} m.
Proof.
  intros [] Hk Hrest. split; cbn [num_new_tokens encoder_inputs_to_schedule external_load_encoder_input
    mm_hashes_to_schedule num_embeds_to_schedule encoder_compute_budget]; try done; [lia|].
  intros Hs f n' [Hf|Hf]%elem_of_app Hn' Hneed.
  - apply (ti_ready0 Hs f n' Hf); [lia|done].
  - destruct Hneed as [Hlt _]. specialize (Hrest f Hf Hs ltac:(lia)). lia.
Qed.

Lemma entries_nonneg l : (forall h k, (h, k) ∈ l -> k = sizes h) -> 0 <= entries_size l.
Proof.
  induction l as [|[h k] l IH]; intros Hl; [done|]. rewrite entries_cons. cbn [snd].
  rewrite (Hl h k ltac:(by left)). specialize (Hsizes h). specialize (IH ltac:(intros h' k' Hin; apply Hl; by right)). lia.
Qed.

Lemma keeps_evicted m m' out : ok m -> evicted m m' out -> keeps m m'.
Proof.
  intros Hok []. assert (forall h, h ∈ out.*1 -> cached m !! h = Some ∅) as Hout.
  { intros h Hh. apply (eo_freeable _ _ Hok). unfold Dict.keys. rewrite ev_entries0, fmap_app. apply elem_of_app. by left. }
  split; [|split].
  - intros h Hh. rewrite ev_cached0. by case_decide.
  - intros h refs Hh Hin. rewrite ev_cached0. rewrite decide_False; [by exists refs|]. intros Ho%Hout.
    rewrite Ho in Hh. injection Hh as <-. by apply not_elem_of_empty in Hin.
  - rewrite ev_free0. pose proof (entries_nonneg out). assert (0 <= entries_size out); [|lia]. apply H.
    intros h k Hin. apply (eo_size _ _ Hok). rewrite ev_entries0. apply elem_of_app. by left.
Qed.

Lemma keeps_trans m1 m2 m3 : keeps m1 m2 -> keeps m2 m3 -> keeps m1 m3.
Proof.
  intros (A1 & A2 & A3) (B1 & B2 & B3). split; [by intros; apply B1, A1|]. split; [|lia].
  intros h refs Hh Hin. destruct (A2 h refs Hh Hin) as (refs' & Hh' & Hin'). by apply (B2 h refs').
Qed.

(** The loop over the inputs never raises and keeps [try_inv]. *)
Lemma try_loop_ok features : forall prev v m, mm_features r = prev ++ features ->
  StronglySorted (fun f g => pr_offset (mm_position f) <= pr_offset (mm_position g)) features ->
  try_inv prev v m -> 0 < num_new_tokens v ->
  exists v' m', try_loop false chunked ec r nc shift (zlen prev) features v m = (Ok v', m')
    /\ keeps m m' /\ try_inv (mm_features r) v' m'.
Proof.
  induction features as [|f rest IH]; intros prev v m Hsplit Hsorted Hinv Hnn; cbn [try_loop].
  { exists v, m. rewrite Hsplit, app_nil_r. split; [done|]. split; [apply keeps_refl|done]. }
  apply StronglySorted_inv in Hsorted as [Hrest Hfirst]. rewrite Forall_forall in Hfirst.
  assert (f ∈ mm_features r) as Hf by (rewrite Hsplit; apply elem_of_app; right; by left).
  assert (mm_features r !! Z.to_nat (zlen prev) = Some f) as Hlk
    by (unfold zlen; rewrite Nat2Z.id, Hsplit; by apply list_lookup_middle).
  pose proof (input_hash_ok _ _ Hlk (zlen_nonneg prev)) as Hhash.
  pose proof (num_embeds_ok _ _ Hlk (zlen_nonneg prev)) as Hne.
  assert (valid_input (zlen prev)) as Hvalid.
  { split; [apply zlen_nonneg|]. rewrite Hsplit, zlen_app, zlen_cons. pose proof (zlen_nonneg rest). lia. }
  assert (hash_of (zlen prev) = identifier f) as Hho by (unfold hash_of; by rewrite Hhash).
  assert (mm_features r = (prev ++ [f]) ++ rest) as Hsplit' by (by rewrite <- app_assoc).
  assert (zlen prev + 1 = zlen (prev ++ [f])) as Hlen by (rewrite zlen_app; done).
  rewrite Hlen.
  assert (forall v1 m1, keeps m m1 -> try_inv (prev ++ [f]) v1 m1 -> 0 < num_new_tokens v1 -> exists v' m',
    try_loop false chunked ec r nc shift (zlen (prev ++ [f])) rest v1 m1 = (Ok v', m')
    /\ keeps m m' /\ try_inv (mm_features r) v' m') as Hgo.
  { intros v1 m1 Hk Hi Hn1. destruct (IH (prev ++ [f]) v1 m1 Hsplit' Hrest Hi Hn1) as (v' & m' & R1 & Hk' & Hi').
    exists v', m'. split; [done|]. split; [by eapply keeps_trans|done]. }
  set (start := pr_offset (mm_position f)) in *. set (len := pr_length (mm_position f)) in *.
  assert (forall k m1, keeps m m1 -> try_inv prev v m1 -> 0 <= k <= num_new_tokens v -> (shift = 0 -> 0 < k -> nc + k <= start) ->
    exists v' m', (mret {| v with num_new_tokens := k |} : M EncoderCacheManager _) m1 = (Ok v', m') /\ keeps m m' /\ try_inv (mm_features r) v' m') as Hstop.
  { intros k m1 Hk Hi Hb Hlt. eexists _, m1. split; [reflexivity|]. split; [done|]. rewrite Hsplit.
    apply inv_stop; [done|done|]. intros g [->|Hg]%elem_of_cons Hs Hpos; [by apply Hlt|].
    specialize (Hfirst g Hg). specialize (Hlt Hs Hpos). lia. }
  rewrite (bind_ok _ _ _ (sizes (identifier f)) m) by (unfold lift_res; by rewrite (ro_size _ _ Hr f Hf)).
  pose proof (ti_new _ _ _ Hinv) as Hnew.
  destruct (Z.leb_spec (nc + num_new_tokens v + shift) start) as [H1|H1].
  { destruct (Hstop (num_new_tokens v) m (keeps_refl m) Hinv ltac:(lia) ltac:(lia)) as (v' & m' & R1 & H).
    exists v', m'. split; [|done]. rewrite <- R1. by destruct v. }
  cbn [andb]. destruct (Z.leb_spec (start + len) nc) as [H2|H2].
  { apply Hgo; [apply keeps_refl| |done]. apply inv_skip; [done|]. intros _ n' _ (_ & Hneed & _). fold start len in Hneed. lia. }
  destruct (bool_decide_reflect (identifier f ∈ mm_hashes_to_schedule v)) as [Hin|Hnin].
  { msteps. apply Hgo; [apply keeps_refl| |done]. apply inv_skip; [done|]. intros _ n' _ _. by left. }
  destruct (cached m !! identifier f) as [refs|] eqn:Hc.
  { destruct (check_hit sizes r _ _ refs m Hhash (ti_ok _ _ _ Hinv) Hc) as (m1 & R1 & Hok1 & Hc1 & Hf1 & _).
    change (EncoderCache.check_and_update_cache r (zlen prev)) with (Encoder.check_and_update_cache r (zlen prev)).
    rewrite (bind_ok _ _ _ _ _ R1).
    assert (keeps m m1) as Hk.
    { split; [|split; [|lia]]; rewrite Hc1.
      - intros h Hh. destruct (decide (h = identifier f)) as [->|Hne']; [congruence|by rewrite lookup_insert_ne].
      - intros h rs Hh Hin. destruct (decide (h = identifier f)) as [->|Hne']; [|rewrite lookup_insert_ne by done; by exists rs].
        rewrite lookup_insert_eq. eexists. split; [done|]. set_solver. }
    apply Hgo; [done| |done]. apply inv_skip; [by eapply inv_keeps|]. intros _ n' _ _. right.
    rewrite Hc1, lookup_insert_eq. eexists. split; [done|]. set_solver. }
  change (EncoderCache.check_and_update_cache r (zlen prev)) with (Encoder.check_and_update_cache r (zlen prev)).
  rewrite (bind_ok _ _ _ _ _ (check_miss r _ _ m Hhash Hc)).
  destruct (chunked && _ && _) eqn:Hroll.
  { breflect. apply Z.ltb_lt in H0. apply Hstop; [apply keeps_refl|done|lia|lia]. }
  change (EncoderCache.can_allocate r (zlen prev)) with (Encoder.can_allocate r (zlen prev)).
  destruct (can_allocate_ok sizes r _ _ (encoder_compute_budget v) (num_embeds_to_schedule v) m (ti_ok _ _ _ Hinv) Hsizes Hne)
    as (b & m1 & out & R1 & Hok1 & Hev & Hb & Hfit & _ & _).
  rewrite (bind_ok _ _ _ _ _ R1). pose proof (keeps_evicted _ _ _ (ti_ok _ _ _ Hinv) Hev) as Hk.
  pose proof (inv_keeps _ _ _ _ Hinv Hk Hok1) as Hinv1.
  destruct b; cbn [negb].
  2: { destruct (Z.ltb_spec (nc + shift) start); apply Hstop; try done; lia. }
  specialize (Hfit eq_refl). destruct (proj1 Hb eq_refl) as [Hbud _].
  destruct (mask_length sizes r Hr f Hf) as [Hmask Hpos]. fold len in Hpos.
  set (si := Z.max 0 (nc - start)). set (ei := Z.min len (nc + num_new_tokens v - start)).
  assert (exists a b, get_embeds_indices_in_range (mm_position f) si ei = Ok (a, b)
    /\ (shift = 0 -> a = embeds_before (mm_position f) si /\ b = embeds_before (mm_position f) ei)) as (a & b & Eab & Hab).
  { destruct (Z.lt_ge_cases start (nc + num_new_tokens v)).
    - eexists _, _. rewrite embeds_range by (done || unfold si, ei, len in *; lia). done.
    - replace si with 0 by lia. replace ei with 0 by lia. destruct (embeds_range_zero _ Hmask Hpos) as (a & b & ->).
      exists a, b. split; [done|lia]. }
  rewrite (bind_ok _ _ _ (a, b) m1) by (unfold lift_res; by rewrite Eab).
  destruct (Z.eqb_spec (b - a) 0) as [Hz|Hnz].
  { apply Hgo; [done| |done]. apply inv_skip; [done|]. intros Hs n' Hn' (_ & _ & Hlt). destruct (Hab Hs) as [Ea Eb].
    fold start len in Hlt. replace (Z.max (nc - start) 0) with si in Hlt by lia.
    pose proof (embeds_before_mono (mm_position f) (Z.min (nc - start + n') len) ei ltac:(unfold ei; lia)). lia. }
  assert (cached m1 !! identifier f = None) as Hc1 by (apply Hk; done).
  pose proof (fun ext => inv_schedule prev v m1 f (zlen prev) ext Hinv1 Hvalid Hho Hnin Hc1 Hfit Hbud) as Hsch.
  destruct (match ec with Some _ => _ | None => _ end).
  - apply Hgo; [done|exact (Hsch true)|done].
  - apply Hgo; [done|exact (Hsch false)|done].
Qed.

(** Everything scheduled can be allocated. *)
Lemma allocate_all ids m : ok m -> Forall valid_input ids -> NoDup (hash_of <$> ids) ->
  (forall i, i ∈ ids -> cached m !! hash_of i = None) -> sum (hash_of <$> ids) <= num_free_slots m ->
  exists m', mfor ids (Encoder.allocate r) m = (Ok tt, m') /\ ok m'
    /\ forall h, cached m' !! h = if decide (h ∈ hash_of <$> ids) then Some {[request_id r]} else cached m !! h.
Proof.
  revert m. induction ids as [|i ids IH]; intros m Hok Hv Hnd Habs Hsum; cbn [mfor].
  { exists m. split; [done|]. split; [done|]. intros h. by rewrite decide_False by apply not_elem_of_nil. }
  apply Forall_cons in Hv as [Hi Hv]. rewrite fmap_cons in Hnd. apply NoDup_cons in Hnd as [Hnin Hnd].
  rewrite fmap_cons, sum_sizes_cons in Hsum. destruct (valid_input_hash i Hi) as [Hh Hn].
  assert (0 <= sum (hash_of <$> ids)) as Hpos.
  { generalize (hash_of <$> ids). induction l as [|h l IHl]; [done|]. rewrite sum_sizes_cons. specialize (Hsizes h). lia. }
  specialize (Hsizes (hash_of i)) as Hs.
  destruct (allocate_ok sizes r i (hash_of i) m Hok Hh Hn (Habs i ltac:(by left)) ltac:(lia)
    (entries_nonneg _ (eo_size _ _ Hok))) as (m1 & R1 & Hok1 & Hc1 & Hf1 & _).
  rewrite (bind_ok _ _ _ _ _ R1).
  destruct (IH m1 Hok1 Hv Hnd) as (m' & R2 & Hok' & Hc').
  - intros j Hj. rewrite Hc1, lookup_insert_ne; [apply Habs; by right|]. intros Heq. apply Hnin. rewrite Heq.
    by apply list_elem_of_fmap_2.
  - lia.
  - exists m'. split; [exact R2|]. split; [done|]. intros h. rewrite Hc', Hc1, fmap_cons.
    destruct (decide (h ∈ hash_of <$> ids)); [by rewrite decide_True by by right|].
    destruct (decide (h = hash_of i)) as [->|Hne].
    + rewrite lookup_insert_eq. by rewrite decide_True by by left.
    + rewrite lookup_insert_ne by done. rewrite decide_False; [done|]. by intros [?|?]%elem_of_cons.
Qed.

Lemma mfor_app_bind {S A} (body : A -> M S unit) l1 l2 s :
  (mfor l1 body ;; mfor l2 body) s = mfor (l1 ++ l2) body s.
Proof.
  revert s. induction l1 as [|x l1 IH]; intros s; [done|]. cbn [app mfor].
  unfold mbind, M_bind in *. destruct (body x s) as [[[]|e] s']; [apply IH|done].
Qed.

Lemma try_start m : ok m -> 0 <= n ->
  try_inv [] {| encoder_inputs_to_schedule := []; num_new_tokens := n; encoder_compute_budget := budget;
                external_load_encoder_input := []; mm_hashes_to_schedule := []; num_embeds_to_schedule := 0 |} m.
Proof.
  intros Hok Hn. split; cbn; try done.
  - apply NoDup_nil_2.
  - by intros h ?%not_elem_of_nil.
  - apply (eo_bound _ _ Hok).
  - lia.
  - by intros _ f n' ?%not_elem_of_nil.
Qed.

End schedule.

(** *** Sessions *)

Section sessions.
Context (sizes : string -> Z) (Hsizes : forall h, 0 <= sizes h).

(** One call on the cache; [allocate] is called for inputs that are not cached and
    fit, [order] is how Python iterates over a set. *)
Inductive encoder_step : EncoderCacheManager -> EncoderCacheManager -> Prop :=
  | step_check r i m b m' : request_ok sizes r -> valid_input r i ->
      Encoder.check_and_update_cache r i m = (b, m') -> encoder_step m m'
  | step_can_allocate r i budget s m b m' : request_ok sizes r -> valid_input r i ->
      Encoder.can_allocate r i budget s m = (b, m') -> encoder_step m m'
  | step_allocate r i m b m' : request_ok sizes r -> valid_input r i ->
      cached m !! hash_of r i = None -> sizes (hash_of r i) <= num_free_slots m ->
      Encoder.allocate r i m = (b, m') -> encoder_step m m'
  | step_free order r m b m' : request_ok sizes r -> (forall l, order l ≡ₚ l) ->
      Encoder.free order r m = (b, m') -> encoder_step m m'
  | step_freed m b m' : Encoder.get_freed_mm_hashes m = (b, m') -> encoder_step m m'
  | step_reset m b m' : Encoder.reset m = (b, m') -> encoder_step m m'.

Lemma init_ok size : 0 <= size -> encoder_ok sizes (init size).
Proof.
  intros H. split; cbn; try done.
  - apply NoDup_nil_2.
  - intros h. rewrite lookup_empty. split; [by intros ?%not_elem_of_nil|done].
  - by intros h n ?%not_elem_of_nil.
  - unfold total_size. rewrite map_to_list_empty. cbn. lia.
  - lia.
Qed.

(** [free] never fails and drops every reference of the request to its inputs. *)
Lemma free_request_ok order r m : encoder_ok sizes m -> request_ok sizes r -> (forall l, order l ≡ₚ l) ->
  exists m', Encoder.free order r m = (Ok tt, m') /\ encoder_ok sizes m' /\ cache_size m' = cache_size m
    /\ forall i refs, valid_input r i -> cached m' !! hash_of r i = Some refs -> request_id r ∉ refs.
Proof.
  intros Hok Hr Horder. unfold Encoder.free. msteps. set (ids := Encoder.get_cached_input_ids r m).
  assert (forall i, i ∈ order ids -> valid_input r i) as Hv.
  { intros i. rewrite Horder. unfold ids, Encoder.get_cached_input_ids. rewrite list_elem_of_filter, elem_of_py_range. by intros [_ ?]. }
  destruct (mfor_ok (Encoder.free_encoder_input r) (fun l m' => encoder_ok sizes m' /\ cache_size m' = cache_size m
      /\ (forall h, cached m !! h = None -> cached m' !! h = None)
      /\ forall i refs, i ∈ l -> cached m' !! hash_of r i = Some refs -> request_id r ∉ refs) (order ids))
    with (s := m) as (m' & R1 & Hok' & Hsz & Hnone & Hdrop).
  - intros l i todo m1 Hl (Hok1 & Hs1 & Hnone1 & Hd1).
    destruct (valid_input_hash sizes r Hr i) as [Hh Hn]; [apply Hv; rewrite Hl; set_solver|].
    destruct (free_input_ok sizes r i _ m1 Hok1 Hh Hn (Hsizes _)) as (m2 & R & Hok2 & Hc2 & Hs2 & _).
    exists m2. split; [done|]. split; [done|]. split; [congruence|]. split.
    + intros h Hh0. rewrite Hc2. specialize (Hnone1 h Hh0). destruct (cached m1 !! hash_of r i) eqn:Ec; [|done].
      rewrite lookup_insert_ne; [done|]. congruence.
    + intros j refs Hj. rewrite Hc2. destruct (cached m1 !! hash_of r i) as [rs|] eqn:Ec.
      * destruct (decide (hash_of r j = hash_of r i)) as [He|He].
        -- rewrite He, lookup_insert_eq. intros <-%(inj Some). set_solver.
        -- rewrite lookup_insert_ne by done. apply elem_of_app in Hj as [Hj| ->%list_elem_of_singleton]; [by apply Hd1|done].
      * apply elem_of_app in Hj as [Hj| ->%list_elem_of_singleton]; [by apply Hd1|congruence].
  - split; [done|]. split; [done|]. split; [done|]. by intros i refs ?%not_elem_of_nil.
  - exists m'. split; [done|]. split; [done|]. split; [done|]. intros i refs Hi Hc. apply (Hdrop i); [|done].
    rewrite Horder. unfold ids, Encoder.get_cached_input_ids. rewrite list_elem_of_filter, elem_of_py_range. split; [|done].
    unfold is_cached_input. destruct (valid_input_hash sizes r Hr i Hi) as [-> _]. apply bool_decide_eq_true, elem_of_dom.
    destruct (cached m !! hash_of r i) eqn:Ec; [by eexists|]. rewrite (Hnone _ Ec) in Hc. done.
Qed.

Lemma encoder_step_ok m m' : encoder_step m m' -> 0 <= cache_size m -> encoder_ok sizes m ->
  encoder_ok sizes m' /\ cache_size m' = cache_size m.
Proof.
  intros Hstep Hsz Hok. destruct Hstep as [r i m b m' Hr Hi H|r i budget s m b m' Hr Hi H|r i m b m' Hr Hi Hc Hs H
    |order r m b m' Hr Ho H|m b m' H|m b m' H].
  - destruct (valid_input_hash sizes r Hr i Hi) as [Hh _]. destruct (cached m !! hash_of r i) as [refs|] eqn:Ec.
    + destruct (check_hit sizes r i _ refs m Hh Hok Ec) as (m1 & R1 & ? & _ & _ & ? & _). rewrite R1 in H. by injection H as _ <-.
    + rewrite (check_miss r i _ m Hh Ec) in H. by injection H as _ <-.
  - destruct (valid_input_hash sizes r Hr i Hi) as [_ Hn].
    destruct (can_allocate_ok sizes r i _ budget s m Hok Hsizes Hn) as (b1 & m1 & out & R1 & ? & [] & _).
    rewrite R1 in H. by injection H as _ <-.
  - destruct (valid_input_hash sizes r Hr i Hi) as [Hh Hn]. specialize (Hsizes (hash_of r i)) as H0.
    assert (encoder_ok sizes m) as Hok' by done. pose proof (entries_nonneg sizes Hsizes _ (eo_size _ _ Hok)) as He.
    destruct (allocate_ok sizes r i _ m Hok Hh Hn Hc ltac:(lia) He) as (m1 & R1 & Hok1 & Hc1 & Hf1 & _).
    rewrite R1 in H. injection H as _ <-. split; [done|]. pose proof (eo_free _ _ Hok1) as F1. pose proof (eo_free _ _ Hok) as F0.
    rewrite Hc1, (total_insert_new _ _ _ _ Hc) in F1. lia.
  - destruct (free_request_ok order r m Hok Hr Ho) as (m1 & R1 & ? & ? & _). rewrite R1 in H. by injection H as _ <-.
  - unfold Encoder.get_freed_mm_hashes in H. cbn in H. injection H as _ <-. by destruct Hok.
  - unfold Encoder.reset, modify in H. injection H as _ <-. split; [by apply init_ok|done].
Qed.

End sessions.

(** ** Properties *)

(** C36: The encoder cache is ready for the model runner of a decoder-only model without the
    look-ahead of EAGLE.  Let an input's number of
    embeddings be determined by its identifier, the inputs of a request be in the
    order of their offsets, and the request be scheduled for some tokens.  [_try_schedule_encoder_inputs] raises no error, never
    asks for more tokens and keeps within the compute budget; the inputs it
    returns can all be allocated, which keeps the slot counters exact; and every
    encoder output that the model runner then reads in [_gather_mm_embeddings] for
    the scheduled tokens has an entry in the cache manager, referenced by the request, so it cannot
    be evicted.  Whether an entry's output was computed is not claimed
    (see [preempted_encoder_input_never_computed]; with EAGLE, see [eagle_shift_misses_encoder_input]). *)
Theorem scheduled_encoder_inputs_ready sizes r chunked ec nc n budget m
  (Hsizes : forall h, 0 <= sizes h) (Hr : request_ok sizes r) (Hok : encoder_ok sizes m)
  (Hsorted : StronglySorted (fun f g => pr_offset (mm_position f) <= pr_offset (mm_position g)) (mm_features r))
  (Hn : 0 < n) (Hbudget : 0 <= budget) :
  exists inputs n' budget' external m1 m2,
    try_schedule_encoder_inputs false chunked ec r nc n budget 0 m = (Ok (inputs, n', budget', external), m1)
    /\ 0 <= n' <= n
    /\ budget' = budget - sum_sizes sizes (hash_of r <$> inputs) /\ 0 <= budget'
    /\ allocate_scheduled r inputs external m1 = (Ok tt, m2)
    /\ encoder_ok sizes m2
    /\ (0 < n' -> exists reads, gather_mm_embeddings r nc n' 0 = Ok reads
          /\ forall h a b, (h, a, b) ∈ reads -> exists refs, cached m2 !! h = Some refs /\ request_id r ∈ refs).
Proof.
  unfold try_schedule_encoder_inputs. replace (n =? 0) with false by lia. cbn [orb].
  destruct (has_encoder_inputs r) eqn:Hhas; cbn [negb].
  2: { assert (mm_features r = []) as Hnil.
       { unfold has_encoder_inputs, num_encoder_inputs, zlen in Hhas. apply Z.ltb_ge in Hhas. by destruct (mm_features r). }
       exists [], n, budget, [], m, m. do 2 (split; [done || lia|]). cbn. do 4 (split; [done || lia|]). intros _. exists [].
       unfold gather_mm_embeddings. rewrite Hnil. split; [done|]. by intros h a b ?%not_elem_of_nil. }
  assert (try_inv sizes r nc n budget 0 [] _ m) as Hstart by (apply try_start; [done..|lia]).
  destruct (try_loop_ok sizes Hsizes r Hr chunked ec nc n budget 0 ltac:(lia) ltac:(lia) (mm_features r) [] _ m eq_refl Hsorted
    Hstart Hn) as (v & m1 & R1 & _ & [T1 T2 T3 T4 T5 T6 T7 T8 T9 T10]).
  change (zlen []) with 0 in R1. rewrite (bind_ok _ _ _ _ _ R1).
  destruct (allocate_all sizes Hsizes r Hr (encoder_inputs_to_schedule v ++ external_load_encoder_input v) m1 T1 T3)
    as (m2 & R2 & Hok2 & Hc2).
  - by rewrite T4.
  - intros i Hi. apply T6. rewrite <- T4. by apply list_elem_of_fmap_2.
  - rewrite <- T4 in T8. exact T8.
  - exists (encoder_inputs_to_schedule v), (num_new_tokens v), (encoder_compute_budget v), (external_load_encoder_input v), m1, m2.
    split; [done|]. split; [done|]. split; [apply T9|]. split; [apply T9|].
    split; [unfold allocate_scheduled; rewrite mfor_app_bind; exact R2|]. split; [done|]. intros Hpos.
    unfold gather_mm_embeddings. rewrite Z.add_0_r.
    destruct (gather_ok sizes r Hr nc (num_new_tokens v) (mm_features r) Hpos ltac:(done)) as (reads & El & Hl).
    exists reads. split; [done|]. intros h a b Hin. destruct (Hl h a b Hin) as (f & Hf & <- & Hneed).
    rewrite Hc2. destruct (T10 eq_refl f (num_new_tokens v) Hf ltac:(lia) Hneed) as [Hh|(refs & Hrefs & Hrid)].
    + rewrite decide_True by by rewrite T4. eexists. split; [done|]. set_solver.
    + rewrite decide_False; [by exists refs|]. rewrite T4. intros Hh%T6. congruence.
Qed.

(** C37: The counters of the encoder cache are exact.  From an empty cache, after any
    sequence of lookups, capacity checks, allocations that were checked, frees,
    drains and resets: the free slots are the capacity minus the embeddings of all
    cached inputs, the freeable slots add those of the inputs that no request
    references, these are listed once each, and all counters stay within the
    capacity. *)
Theorem encoder_cache_counters_exact sizes size m
  (Hsizes : forall h, 0 <= sizes h) (Hsize : 0 <= size) (Hsteps : rtc (encoder_step sizes) (init size) m) :
  num_free_slots m = size - sum_sizes sizes (map_to_list (cached m)).*1
  /\ num_freeable_slots m = num_free_slots m + sum_sizes sizes (Dict.keys (freeable m))
  /\ NoDup (Dict.keys (freeable m))
  /\ (forall h, h ∈ Dict.keys (freeable m) <-> cached m !! h = Some ∅)
  /\ 0 <= num_free_slots m <= num_freeable_slots m /\ num_freeable_slots m <= size.
Proof.
  assert (forall m0, rtc (encoder_step sizes) m0 m -> 0 <= cache_size m0 -> encoder_ok sizes m0 ->
    encoder_ok sizes m /\ cache_size m = cache_size m0) as Hinv.
  { clear Hsteps. intros m0 Hsteps. induction Hsteps as [|m0 m1 m2 H1 _ IH]; [done|]. intros Hs Hok.
    destruct (encoder_step_ok sizes Hsizes m0 m1 H1 Hs Hok) as [Hok1 Hs1]. destruct IH as [? ?]; [lia|done|]. split; [done|lia]. }
  destruct (Hinv _ Hsteps Hsize (init_ok sizes size Hsize)) as [ [H1 H2 H3 H4 H5 H6] Hs]. cbn in Hs.
  assert (entries_size (freeable m) = sum_sizes sizes (Dict.keys (freeable m))) as Hes.
  { clear -H3. revert H3. generalize (freeable m). induction l as [|[h k] l IH]; intros H3; [done|].
    unfold Dict.keys in *. rewrite fmap_cons, sum_sizes_cons, entries_cons. cbn [fst snd].
    rewrite (H3 h k ltac:(by left)). rewrite IH; [done|]. intros h' k' Hin. apply H3. by right. }
  assert (forall l, 0 <= sum_sizes sizes l) as Hpos.
  { induction l as [|h l IH]; [done|]. rewrite sum_sizes_cons. specialize (Hsizes h). lia. }
  rewrite Hes in H5. unfold total_size in H4. rewrite Hs in H4.
  do 4 (split; [done|]). pose proof (Hpos (Dict.keys (freeable m))). split; [lia|].
  assert (sum_sizes sizes (Dict.keys (freeable m)) <= sum_sizes sizes (map_to_list (cached m)).*1); [|lia].
  destruct (submseteq_Permutation (Dict.keys (freeable m)) (map_to_list (cached m)).*1) as [rest Hrest].
  { apply NoDup_submseteq; [done|]. intros h Hh. apply H2 in Hh. apply list_elem_of_fmap. exists (h, ∅).
    split; [done|]. by apply elem_of_map_to_list. }
  rewrite Hrest, sum_sizes_app. specialize (Hpos rest). lia.
Qed.

(** [can_allocate] answers [True] exactly when the input is within the compute
    budget and fits into the free slots and those of unreferenced entries.  Then it
    has made enough room, by evicting unreferenced entries only, oldest first and
    no more than needed; their hashes are recorded as freed.  When it answers
    [False] nothing has changed. *)
Theorem can_allocate_evicts_oldest_unreferenced sizes r i n budget s m
  (Hok : encoder_ok sizes m) (Hsizes : forall h, 0 <= sizes h) (Hn : get_num_encoder_embeds r i = Ok n) :
  exists b m' out, Encoder.can_allocate r i budget s m = (Ok b, m')
    /\ (b = true <-> n <= budget /\ n + s <= num_freeable_slots m)
    /\ (b = true -> n + s <= num_free_slots m')
    /\ freeable m = out ++ freeable m' /\ freed m' = freed m ++ out.*1 /\ (b = false -> out = [])
    /\ (forall out' e, out = out' ++ [e] -> num_free_slots m + sum_sizes sizes out'.*1 < n + s)
    /\ forall h refs, refs <> ∅ -> cached m !! h = Some refs -> cached m' !! h = Some refs.
Proof.
  destruct (can_allocate_ok sizes r i n budget s m Hok Hsizes Hn) as (b & m' & out & R1 & Hok' & [] & Hb & Hfit & Hno & Hmin).
  exists b, m', out. do 6 (split; [done|]). split.
  - intros out' e Ho. specialize (Hmin out' e Ho). enough (entries_size out' = sum_sizes sizes out'.*1) by lia.
    assert (forall h k, (h, k) ∈ out' -> k = sizes h) as Hs.
    { intros h k Hin. apply (eo_size _ _ Hok). rewrite ev_entries0, Ho. set_solver. }
    clear -Hs. induction out' as [|[h k] l IH]; [done|]. rewrite fmap_cons, sum_sizes_cons, entries_cons. cbn [fst snd].
    rewrite (Hs h k ltac:(by left)). rewrite IH; [done|]. intros h' k' Hin. apply Hs. by right.
  - intros h refs Hne Hh. rewrite ev_cached0, decide_False; [done|]. intros Hin.
    assert (cached m !! h = Some ∅) as He.
    { apply (eo_freeable _ _ Hok). unfold Dict.keys. rewrite ev_entries0, fmap_app. apply elem_of_app. by left. }
    rewrite Hh in He. by apply (inj Some) in He.
Qed.

(** ** Concrete requests *)

(** A request with one image of four tokens, all of them embeddings, from [offset]
    on. *)
Definition one_image (offset : Z) : Request :=
  {| (demo_request []) with mm_features :=
       [ {| identifier := "img"; mm_position := {| pr_offset := offset; pr_length := 4; is_embed := None |} |} ] |}.

Definition demo_sizes (h : string) : Z := if String.eqb h "img" then 4 else 0.

Lemma demo_sizes_nonneg h : 0 <= demo_sizes h.
Proof. unfold demo_sizes. case_match; lia. Qed.

Lemma one_image_ok offset : request_ok demo_sizes (one_image offset).
Proof. by split; intros f; [..|intros l]; intros ->%list_elem_of_singleton. Qed.

(** The look-ahead of EAGLE is forgotten in one place.  A step covers the tokens
    before an image only; with [shift_computed_tokens = 1] the model runner needs
    the first embedding of the image for its draft model, but the scheduler computes
    the embeddings in the range of the step without the shift, finds none and
    schedules nothing: the runner will miss the image in its cache. *)
Theorem eagle_shift_misses_encoder_input :
  try_schedule_encoder_inputs false false None (one_image 4) 0 4 10 1 (init 10) = (Ok ([], 4, 10, []), init 10)
  /\ gather_mm_embeddings (one_image 4) 0 4 1 = Ok [("img"%string, 0, 1)]
  /\ cached (init 10) !! "img"%string = None.
Proof. split; [|split]; vm_compute; reflexivity. Qed.

(** The slots of encoder-decoder models are given back too often:
    [_free_encoder_inputs] runs after every step of a request and
    [EncoderDecoderCacheManager] does not remember what it has freed, so after two
    steps the free slots exceed the size of the cache. *)
Theorem encoder_decoder_frees_again :
  let r := {| (one_image 0) with num_computed_tokens := 1 |} in
  let m1 := (EncoderDecoder.allocate r 0 (EncoderDecoder.init 10)).2 in
  let step := free_encoder_inputs (S := EncoderDecoderCacheManager) true id r in
  ed_num_free_slots m1 = 6 /\ ed_num_free_slots (step m1).2 = 10 /\ ed_num_free_slots (step (step m1).2).2 = 14.
Proof. vm_compute. done. Qed.

(** ** Witnesses *)

Lemma scheduled_encoder_inputs_ready_witness :
  exists inputs n' budget' external m1 m2,
    try_schedule_encoder_inputs false false None (one_image 2) 0 4 10 0 (init 10) = (Ok (inputs, n', budget', external), m1)
    /\ inputs = [0] /\ n' = 4
    /\ allocate_scheduled (one_image 2) inputs external m1 = (Ok tt, m2) /\ encoder_ok demo_sizes m2.
Proof.
  destruct (scheduled_encoder_inputs_ready demo_sizes (one_image 2) false None 0 4 10 (init 10) demo_sizes_nonneg
    (one_image_ok 2) (init_ok demo_sizes 10 ltac:(lia))) as (inputs & n' & budget' & external & m1 & m2 & R1 & _ & _ & _ & R2 & Hok & _).
  - by repeat constructor.
  - lia.
  - lia.
  - exists inputs, n', budget', external, m1, m2. split; [exact R1|].
    assert ((try_schedule_encoder_inputs false false None (one_image 2) 0 4 10 0 (init 10)).1 = Ok ([0], 4, 6, []))
      as H by (vm_compute; reflexivity).
    rewrite R1 in H. cbn [fst] in H. injection H as -> -> -> ->. done.
Defined.

Lemma encoder_cache_counters_exact_witness :
  let m := (Encoder.allocate (one_image 2) 0 (init 10)).2 in
  num_free_slots m = 6 /\ num_free_slots m = 10 - sum_sizes demo_sizes (map_to_list (cached m)).*1.
Proof.
  cbv zeta. split; [by vm_compute|]. apply (encoder_cache_counters_exact demo_sizes 10 _ demo_sizes_nonneg ltac:(lia)).
  eapply rtc_once, (step_allocate demo_sizes (one_image 2) 0 (init 10)); [apply one_image_ok|by vm_compute|by vm_compute|by vm_compute|].
  apply run_snd. reflexivity.
Defined.

Lemma can_allocate_evicts_oldest_unreferenced_witness :
  exists m' out, Encoder.can_allocate (one_image 2) 0 4 0 (init 10) = (Ok true, m') /\ freeable (init 10) = out ++ freeable m'.
Proof.
  destruct (can_allocate_evicts_oldest_unreferenced demo_sizes (one_image 2) 0 4 4 0 (init 10)
    (init_ok demo_sizes 10 ltac:(lia)) demo_sizes_nonneg ltac:(by vm_compute)) as (b & m' & out & R1 & Hb & _ & Ho & _).
  exists m', out. split; [|exact Ho]. rewrite R1. by replace b with true by (symmetry; apply Hb; cbn; lia).
Defined.

End EncoderSchedule.
