(* ===== verification/Heap.v ===== *)
(** The binary heaps of Python's [heapq], which [PriorityRequestQueue] of
    [v1/core/sched/request_queue.py] uses, and their correctness for any strict
    weak order. *)

From Stdlib Require Import Sorting.Sorted.
From S2P Require Import Prelude.

Module Heap.

Section heapq.
Context {A : Type} (ltb : A -> A -> bool).

(** [(pos - 1) >> 1] *)
Definition parent (pos : nat) : nat := ((pos - 1) / 2)%nat.

(** [_siftdown]: move [newitem] from [pos] towards the root, up to [startpos]. *)
Fixpoint siftdown_loop (fuel : nat) (heap : list A) (startpos pos : nat) (newitem : A) : res (list A) :=
  match fuel with
  | O => Raise Diverges
  | S fuel' =>
      if (startpos <? pos)%nat then
        p ← res_of_option IndexError (heap !! parent pos);
        if ltb newitem p then siftdown_loop fuel' (<[pos := p]> heap) startpos (parent pos) newitem
        else Ok (<[pos := newitem]> heap)
      else Ok (<[pos := newitem]> heap)
  end.

Definition siftdown (heap : list A) (startpos pos : nat) : res (list A) :=
  newitem ← res_of_option IndexError (heap !! pos);
  siftdown_loop (S pos) heap startpos pos newitem.

(** [_siftup]: the smaller child moves up until a leaf is reached. *)
Fixpoint siftup_loop (fuel : nat) (heap : list A) (endpos pos : nat) : res (list A * nat) :=
  match fuel with
  | O => Raise Diverges
  | S fuel' =>
      let childpos := (2 * pos + 1)%nat in
      if (childpos <? endpos)%nat then
        let rightpos := (childpos + 1)%nat in
        c ← res_of_option IndexError (heap !! childpos);
        '(childpos, c) ←
          (if (rightpos <? endpos)%nat then
             r ← res_of_option IndexError (heap !! rightpos);
             Ok (if ltb c r then (childpos, c) else (rightpos, r))
           else Ok (childpos, c));
        siftup_loop fuel' (<[pos := c]> heap) endpos childpos
      else Ok (heap, pos)
  end.

Definition siftup (heap : list A) (pos : nat) : res (list A) :=
  newitem ← res_of_option IndexError (heap !! pos);
  '(heap, pos') ← siftup_loop (S (length heap)) heap (length heap) pos;
  siftdown (<[pos' := newitem]> heap) pos pos'.

Definition heappush (heap : list A) (item : A) : res (list A) := siftdown (heap ++ [item]) 0 (length heap).

Definition heappop (heap : list A) : res (A * list A) :=
  lastelt ← res_of_option IndexError (last heap);
  match removelast heap with
  | [] => Ok (lastelt, [])
  | returnitem :: rest =>
      heap' ← siftup (lastelt :: rest) 0;
      Ok (returnitem, heap')
  end.

(** [for i in reversed(range(n // 2)): _siftup(x, i)]; [n] counts down. *)
Fixpoint heapify_loop (n : nat) (heap : list A) : res (list A) :=
  match n with
  | O => Ok heap
  | S i => heap' ← siftup heap i; heapify_loop i heap'
  end.

Definition heapify (heap : list A) : res (list A) := heapify_loop (length heap / 2) heap.

(** [while heap_copy: yield heappop(heap_copy)] *)
Fixpoint drain (fuel : nat) (heap : list A) : res (list A) :=
  match fuel with
  | O => match heap with [] => Ok [] | _ => Raise Diverges end
  | S fuel' =>
      match heap with
      | [] => Ok []
      | _ => '(x, heap') ← heappop heap; l ← drain fuel' heap'; Ok (x :: l)
      end
  end.

(** ** Correctness *)

Context (lt_asym : forall x y, ltb x y = true -> ltb y x = false).
(** [ltb y x = false]: [x] is at most [y]. *)
Context (le_trans : forall x y z, ltb y x = false -> ltb z y = false -> ltb z x = false).

Lemma parent_spec i : (0 < i)%nat -> i = (2 * parent i + 1)%nat \/ i = (2 * parent i + 2)%nat.
Proof.
  intros H. unfold parent. pose proof (Nat.div_mod (i - 1) 2 ltac:(lia)). pose proof (Nat.mod_upper_bound (i - 1) 2 ltac:(lia)). lia.
Qed.

Lemma parent_child i p : i = (2 * p + 1)%nat \/ i = (2 * p + 2)%nat -> parent i = p.
Proof. intros H. pose proof (parent_spec i ltac:(lia)). lia. Qed.

Lemma parent_lt i : (0 < i)%nat -> (parent i < i)%nat.
Proof. intros H. pose proof (parent_spec i H). lia. Qed.

(** The heap property for the nodes whose parent is [s] or later. *)
Definition heap_from (s : nat) (l : list A) : Prop :=
  forall i x y, (0 < i)%nat -> (s <= parent i)%nat -> l !! parent i = Some x -> l !! i = Some y -> ltb y x = false.

(** All but the node [pos], which may be smaller than its parent. *)
Record nearly (s : nat) (l : list A) (pos : nat) (item : A) : Prop := {
  n_item : l !! pos = Some item;
  n_heap : forall i x y, (0 < i)%nat -> i <> pos -> (s <= parent i)%nat ->
    l !! parent i = Some x -> l !! i = Some y -> ltb y x = false;
  n_hole : forall c x y, (0 < c)%nat -> parent c = pos -> (0 < pos)%nat -> (s <= parent pos)%nat ->
    l !! parent pos = Some x -> l !! c = Some y -> ltb y x = false;
}.

(** [s] is an ancestor of [pos], or [pos] itself. *)
Inductive reach (s : nat) : nat -> Prop :=
  | reach_refl : reach s s
  | reach_child pos : (0 < pos)%nat -> (s <= parent pos)%nat -> reach s (parent pos) -> reach s pos.

Lemma reach_inv s pos : reach s pos -> (s < pos)%nat -> (s <= parent pos)%nat /\ reach s (parent pos).
Proof. destruct 1 as [|pos H1 H2 H3]; [lia|done]. Qed.

Lemma reach_ge s pos : reach s pos -> (s <= pos)%nat.
Proof. induction 1 as [|pos H1 H2 _ IH]; [lia|]. pose proof (parent_lt pos H1). lia. Qed.

Lemma reach_zero pos : reach 0 pos.
Proof.
  induction pos as [pos IH] using lt_wf_ind. destruct pos as [|pos]; [constructor|].
  apply reach_child; [lia|lia|]. apply IH, parent_lt. lia.
Qed.

Lemma swap_perm (l : list A) i j x y : l !! i = Some x -> l !! j = Some y -> <[j := x]> (<[i := y]> l) ≡ₚ l.
Proof.
  assert (forall i j x y, (i < j)%nat -> l !! i = Some x -> l !! j = Some y -> <[j := x]> (<[i := y]> l) ≡ₚ l) as Hlt.
  { clear i j x y. intros i j x y Hij Hi Hj. rewrite <- (take_drop_middle l i x Hi) at 2.
    pose proof (lookup_lt_Some _ _ _ Hi). pose proof (lookup_lt_Some _ _ _ Hj).
    set (a := take i l) in *. assert (length a = i) as Ha by (unfold a; rewrite length_take; lia).
    assert (drop (S i) l !! (j - S i)%nat = Some y) as Hj' by (rewrite lookup_drop, <- Hj; f_equal; lia).
    rewrite <- (take_drop_middle l i x Hi) at 1. fold a.
    replace i with (length a + 0)%nat at 1 by lia. rewrite insert_app_r. cbn.
    replace j with (length a + S (j - S i))%nat by lia. rewrite insert_app_r. cbn.
    set (d := drop (S i) l) in *. rewrite <- (take_drop_middle d _ y Hj') at 2.
    rewrite (insert_take_drop d) by (by eapply lookup_lt_Some).
    f_equiv. rewrite <- !Permutation_middle. apply Permutation_swap. }
  intros Hi Hj. destruct (Nat.lt_trichotomy i j) as [H|[->|H]].
  - by apply Hlt.
  - rewrite Hi in Hj. injection Hj as <-. by rewrite !list_insert_id by (by rewrite ?list_insert_id).
  - rewrite list_insert_insert_ne by lia. by apply Hlt.
Qed.

Lemma siftdown_loop_ok s newitem : forall fuel heap pos, (pos < fuel)%nat -> (pos < length heap)%nat ->
  reach s pos -> nearly s (<[pos := newitem]> heap) pos newitem ->
  exists l, siftdown_loop fuel heap s pos newitem = Ok l /\ l ≡ₚ <[pos := newitem]> heap /\ heap_from s l.
Proof.
  induction fuel as [|fuel IH]; intros heap pos Hf Hlen Hreach [H1 H2 H3]; [lia|]. cbn [siftdown_loop].
  set (l := <[pos := newitem]> heap) in *.
  destruct (Nat.ltb_spec s pos) as [Hlt|Hge].
  - destruct (reach_inv _ _ Hreach Hlt) as [Hp Hreach']. pose proof (parent_lt pos ltac:(lia)) as Hpl.
    destruct (lookup_lt_is_Some_2 heap (parent pos)) as [p Hlk]; [lia|]. rewrite Hlk. cbn [res_of_option mbind res_bind].
    assert (l !! parent pos = Some p) as Hlp by (unfold l; by rewrite list_lookup_insert_ne by lia).
    destruct (ltb newitem p) eqn:Hcmp.
    + destruct (IH (<[pos := p]> heap) (parent pos)) as (l' & R1 & Hperm & Hheap).
      * lia.
      * rewrite length_insert. lia.
      * done.
      * set (l1 := <[parent pos := newitem]> (<[pos := p]> heap)).
        assert (length l1 = length heap) as Hl1 by (unfold l1; by rewrite !length_insert).
        assert (l1 !! parent pos = Some newitem) as A1
          by (unfold l1; rewrite list_lookup_insert_eq; [done|rewrite length_insert; lia]).
        assert (l1 !! pos = Some p) as A2
          by (unfold l1; rewrite list_lookup_insert_ne, list_lookup_insert_eq; [done|lia|lia]).
        assert (forall j, j <> pos -> j <> parent pos -> l1 !! j = l !! j) as A3
          by (intros j J1 J2; unfold l1, l; by rewrite !list_lookup_insert_ne by lia).
        split; [done|..].
        -- intros i x y Hi Hne Hs Hx Hy. pose proof (parent_lt i Hi). destruct (decide (i = pos)) as [->|Hip].
           ++ rewrite A1 in Hx. rewrite A2 in Hy. injection Hx as <-. injection Hy as <-. by apply lt_asym.
           ++ rewrite (A3 i) in Hy by done. destruct (decide (parent i = pos)) as [Hpi|Hpi].
              ** rewrite Hpi, A2 in Hx. injection Hx as <-. by apply (H3 i p y Hi Hpi ltac:(lia) Hp).
              ** destruct (decide (parent i = parent pos)) as [Hpp|Hpp].
                 --- rewrite Hpp, A1 in Hx. injection Hx as <-. apply (le_trans newitem p y); [by apply lt_asym|].
                     apply (H2 i p y); [done|done|done| |done]. by rewrite Hpp.
                 --- rewrite A3 in Hx by done. by apply (H2 i x y).
        -- intros c x y Hc Hpc Hpos Hs Hx Hy. pose proof (parent_lt (parent pos) Hpos).
           rewrite A3 in Hx by lia.
           assert (ltb p x = false) as Hxp by (apply (H2 (parent pos) x p); (done || lia)).
           destruct (decide (c = pos)) as [->|Hcp].
           ++ rewrite A2 in Hy. by injection Hy as <-.
           ++ pose proof (parent_lt c Hc). rewrite (A3 c) in Hy by lia. apply (le_trans x p y); [done|].
              apply (H2 c p y); [done|done|lia|by rewrite Hpc|done].
      * exists l'. split; [exact R1|]. split; [|done]. rewrite Hperm.
        rewrite <- (swap_perm l pos (parent pos) newitem p H1 Hlp). unfold l. by rewrite list_insert_insert_eq.
    + exists l. split; [done|]. split; [done|]. intros i x y Hi Hs Hx Hy. destruct (decide (i = pos)) as [->|Hne].
      * rewrite Hlp in Hx. rewrite H1 in Hy. by simplify_eq.
      * by apply (H2 i x y).
  - pose proof (reach_ge _ _ Hreach). exists l. split; [done|]. split; [done|]. intros i x y Hi Hs Hx Hy.
    destruct (decide (i = pos)) as [->|Hne]; [pose proof (parent_lt pos Hi); lia|by apply (H2 i x y)].
Qed.

Lemma siftdown_ok s l pos item : reach s pos -> nearly s l pos item ->
  exists l', siftdown l s pos = Ok l' /\ l' ≡ₚ l /\ heap_from s l'.
Proof.
  intros Hreach Hn. pose proof (n_item _ _ _ _ Hn) as Hi. pose proof (lookup_lt_Some _ _ _ Hi).
  unfold siftdown. rewrite Hi. cbn [res_of_option mbind res_bind].
  destruct (siftdown_loop_ok s item (S pos) l pos) as (l' & R1 & Hp & Hh); [lia|done|done|by rewrite list_insert_id|].
  exists l'. rewrite list_insert_id in Hp by done. done.
Qed.

(** A hole that moves down: nothing is known about the node [pos]. *)
Record sinking (s : nat) (l : list A) (pos : nat) (item : A) : Prop := {
  k_item : l !! pos = Some item;
  k_heap : forall i x y, (0 < i)%nat -> i <> pos -> parent i <> pos -> (s <= parent i)%nat ->
    l !! parent i = Some x -> l !! i = Some y -> ltb y x = false;
  k_hole : forall c x y, (0 < c)%nat -> parent c = pos -> (0 < pos)%nat -> (s <= parent pos)%nat ->
    l !! parent pos = Some x -> l !! c = Some y -> ltb y x = false;
}.

(** The child that moves up. *)
Lemma sink_step s h pos item childpos c : (s <= pos)%nat -> (pos < length h)%nat -> (0 < childpos)%nat ->
  parent childpos = pos -> h !! childpos = Some c ->
  (forall i y, (0 < i)%nat -> parent i = pos -> i <> childpos -> h !! i = Some y -> ltb y c = false) ->
  sinking s (<[pos := item]> h) pos item ->
  sinking s (<[childpos := item]> (<[pos := c]> h)) childpos item.
Proof.
  intros Hs Hlen Hc Hpc Hlk Hsib [K1 K2 K3]. pose proof (parent_lt childpos Hc) as Hcl. rewrite Hpc in Hcl.
  pose proof (lookup_lt_Some _ _ _ Hlk) as Hclen.
  set (l := <[pos := item]> h) in *. set (l1 := <[childpos := item]> (<[pos := c]> h)).
  assert (l !! childpos = Some c) as Hlc by (unfold l; by rewrite list_lookup_insert_ne by lia).
  assert (l1 !! childpos = Some item) as A1 by (unfold l1; rewrite list_lookup_insert_eq; [done|rewrite length_insert; lia]).
  assert (l1 !! pos = Some c) as A2 by (unfold l1; rewrite list_lookup_insert_ne, list_lookup_insert_eq; [done|lia|lia]).
  assert (forall j, j <> pos -> j <> childpos -> l1 !! j = l !! j) as A3
    by (intros j J1 J2; unfold l1, l; by rewrite !list_lookup_insert_ne by lia).
  split; [done|..].
  - intros i x y Hi Hne Hpne Hsi Hx Hy. pose proof (parent_lt i Hi). destruct (decide (i = pos)) as [->|Hip].
    + rewrite A2 in Hy. injection Hy as <-. rewrite A3 in Hx by lia. by apply (K3 childpos x c).
    + rewrite (A3 i) in Hy by done. destruct (decide (parent i = pos)) as [Hpi|Hpi].
      * rewrite Hpi, A2 in Hx. injection Hx as <-. apply (Hsib i y); [done|done|done|].
        unfold l in Hy. by rewrite list_lookup_insert_ne in Hy by lia.
      * rewrite A3 in Hx by done. by apply (K2 i x y).
  - intros d x y Hd Hpd _ _ Hx Hy. rewrite Hpc, A2 in Hx. injection Hx as <-. pose proof (parent_lt d Hd).
    rewrite A3 in Hy by lia. apply (K2 d c y); [done|lia|lia|lia|by rewrite Hpd|done].
Qed.

Lemma siftup_loop_ok s item : forall fuel h pos, (length h - pos < fuel)%nat -> (pos < length h)%nat ->
  reach s pos -> sinking s (<[pos := item]> h) pos item ->
  exists h' pos', siftup_loop fuel h (length h) pos = Ok (h', pos')
    /\ reach s pos' /\ nearly s (<[pos' := item]> h') pos' item /\ <[pos' := item]> h' ≡ₚ <[pos := item]> h.
Proof.
  induction fuel as [|fuel IH]; intros h pos Hf Hlen Hreach Hk; [lia|]. cbn [siftup_loop].
  set (cp := (2 * pos + 1)%nat). pose proof (reach_ge _ _ Hreach) as Hge.
  destruct (Nat.ltb_spec cp (length h)) as [Hlt|Hge'].
  2: { exists h, pos. split; [done|]. split; [done|]. split; [|done]. destruct Hk as [K1 K2 K3].
       assert (forall i, (i < length h)%nat -> (0 < i)%nat -> parent i <> pos) as Hleaf.
       { intros i Hi H0 Hp. pose proof (parent_spec i H0). lia. }
       split; [done|..].
       - intros i x y Hi Hne Hs Hx Hy. apply (K2 i x y); try done. apply Hleaf; [|done].
         apply lookup_lt_Some in Hy. by rewrite length_insert in Hy.
       - intros c x y Hc Hp _ _ _ Hy. exfalso. apply (Hleaf c); [|done|done].
         apply lookup_lt_Some in Hy. by rewrite length_insert in Hy. }
  destruct (lookup_lt_is_Some_2 h cp Hlt) as [c Hc]. rewrite Hc. cbn [res_of_option mbind res_bind].
  assert (forall k d, (k = cp \/ k = cp + 1)%nat -> h !! k = Some d ->
    (forall i y, (0 < i)%nat -> parent i = pos -> i <> k -> h !! i = Some y -> ltb y d = false) ->
    exists h' pos', siftup_loop fuel (<[pos := d]> h) (length h) k = Ok (h', pos') /\ reach s pos'
      /\ nearly s (<[pos' := item]> h') pos' item /\ <[pos' := item]> h' ≡ₚ <[pos := item]> h) as Hgo.
  { intros k d Hkc Hd Hsib. pose proof (lookup_lt_Some _ _ _ Hd). assert (parent k = pos) as Hpk by (apply parent_child; lia).
    pose proof (sink_step s h pos item k d Hge Hlen ltac:(lia) Hpk Hd Hsib Hk) as Hk'.
    destruct (IH (<[pos := d]> h) k) as (h' & pos' & R1 & Hr' & Hn' & Hp'); rewrite ?length_insert; [lia|lia| |done|].
    - apply reach_child; [lia|by rewrite Hpk|by rewrite Hpk].
    - exists h', pos'. rewrite length_insert in R1. do 3 (split; [done|]). rewrite Hp'.
      rewrite <- (swap_perm (<[pos := item]> h) pos k item d).
      + by rewrite list_insert_insert_eq.
      + by apply list_lookup_insert_eq.
      + by rewrite list_lookup_insert_ne by lia. }
  assert (forall i, (0 < i)%nat -> parent i = pos -> i = cp \/ i = (cp + 1)%nat) as Hkids.
  { intros i Hi Hp. pose proof (parent_spec i Hi). unfold cp. lia. }
  destruct (Nat.ltb_spec (cp + 1) (length h)) as [Hr|Hr].
  - destruct (lookup_lt_is_Some_2 h (cp + 1) Hr) as [r Hlr]. rewrite Hlr. cbn [res_of_option mbind res_bind].
    destruct (ltb c r) eqn:Hcr; apply Hgo; [by left|done| |by right|done|]; intros i y Hi Hp Hne Hy;
      destruct (Hkids i Hi Hp) as [->| ->]; simplify_eq; [by apply lt_asym|done].
  - cbn [mbind res_bind]. apply Hgo; [by left|done|]. intros i y Hi Hp Hne Hy. destruct (Hkids i Hi Hp) as [->| ->]; [done|].
    apply lookup_lt_Some in Hy. lia.
Qed.

Lemma siftup_ok s l : (s < length l)%nat -> heap_from (S s) l ->
  exists l', siftup l s = Ok l' /\ l' ≡ₚ l /\ heap_from s l'.
Proof.
  intros Hlen Hheap. unfold siftup. destruct (lookup_lt_is_Some_2 l s Hlen) as [item Hi]. rewrite Hi.
  cbn [res_of_option mbind res_bind].
  destruct (siftup_loop_ok s item (S (length l)) l s) as (h' & pos' & R1 & Hr & Hn & Hp); [lia|done|constructor| |].
  - rewrite list_insert_id by done. split; [done|..].
    + intros i x y H0 Hne Hpne Hs Hx Hy. apply (Hheap i x y); (done || lia).
    + intros c x y Hc Hpc Hpos Hs. pose proof (parent_lt s Hpos). lia.
  - rewrite R1. cbn [mbind res_bind]. destruct (siftdown_ok s _ pos' item Hr Hn) as (l' & R2 & Hp2 & Hh).
    exists l'. split; [done|]. split; [|done]. rewrite Hp2, Hp. by rewrite list_insert_id.
Qed.

Lemma heappush_ok l x : heap_from 0 l -> exists l', heappush l x = Ok l' /\ l' ≡ₚ x :: l /\ heap_from 0 l'.
Proof.
  intros Hh. unfold heappush. destruct (siftdown_ok 0 (l ++ [x]) (length l) x) as (l' & R1 & Hp & Hh').
  - apply reach_zero.
  - split.
    + by apply list_lookup_middle.
    + intros i a b Hi Hne Hs Ha Hb. pose proof (parent_lt i Hi). apply lookup_lt_Some in Hb as Hlt. rewrite length_app in Hlt. cbn in Hlt.
      rewrite lookup_app_l in Ha, Hb by lia. by apply (Hh i a b).
    + intros c a b Hc Hp Hpos Hs Ha Hb. apply lookup_lt_Some in Hb. rewrite length_app in Hb. cbn in Hb.
      pose proof (parent_spec c Hc). lia.
  - exists l'. split; [done|]. split; [|done]. rewrite Hp. by rewrite Permutation_app_comm.
Qed.

(** The root is a minimum. *)
Lemma heap_root l x y : heap_from 0 l -> l !! 0%nat = Some x -> ltb x x = false -> y ∈ l -> ltb y x = false.
Proof.
  intros Hh Hx Hirr [i Hy]%list_elem_of_lookup. revert y Hy. induction i as [i IH] using lt_wf_ind. intros y Hy.
  destruct i as [|i]; [rewrite Hx in Hy; by injection Hy as <-|].
  pose proof (parent_lt (S i) ltac:(lia)) as Hp. pose proof (lookup_lt_Some _ _ _ Hy).
  destruct (lookup_lt_is_Some_2 l (parent (S i))) as [z Hz]; [lia|].
  apply (le_trans x z y); [by apply (IH _ Hp)|]. by apply (Hh (S i) z y); [lia|lia| |].
Qed.

Lemma heappop_ok l : l <> [] -> heap_from 0 l -> (forall x, ltb x x = false) ->
  exists x l', heappop l = Ok (x, l') /\ l ≡ₚ x :: l' /\ heap_from 0 l' /\ forall y, y ∈ l -> ltb y x = false.
Proof.
  intros Hne Hh Hirr. destruct l as [|lastelt l _] using rev_ind; [done|]. clear Hne. unfold heappop.
  rewrite last_snoc, removelast_last. cbn [res_of_option mbind res_bind].
  destruct l as [|x rest].
  { exists lastelt, []. split; [done|]. split; [done|]. split; [by intros i a b _ _ ?|].
    by intros y ->%list_elem_of_singleton. }
  destruct (siftup_ok 0 (lastelt :: rest)) as (l' & R1 & Hp & Hh').
  - cbn. lia.
  - intros i a b Hi Hs Ha Hb. pose proof (parent_lt i Hi). destruct i as [|i]; [lia|]. destruct (parent (S i)) as [|k] eqn:Ek; [lia|].
    apply (Hh (S i) a b); [lia|lia| |].
    + rewrite Ek. cbn in Ha |- *. by apply lookup_app_l_Some.
    + cbn in Hb |- *. by apply lookup_app_l_Some.
  - rewrite R1. cbn [mbind res_bind]. exists x, l'. split; [done|]. split; [|split; [done|]].
    + cbn [app]. rewrite Hp. by rewrite Permutation_app_comm.
    + intros y Hy. by apply (heap_root _ x y Hh).
Qed.

Lemma heapify_loop_ok n l : (2 * n <= length l)%nat -> heap_from n l ->
  exists l', heapify_loop n l = Ok l' /\ l' ≡ₚ l /\ heap_from 0 l'.
Proof.
  revert l. induction n as [|n IH]; intros l Hn Hh; cbn [heapify_loop]; [by exists l|].
  destruct (siftup_ok n l) as (l1 & R1 & Hp1 & Hh1); [lia|done|]. rewrite R1. cbn [mbind res_bind].
  destruct (IH l1) as (l' & R2 & Hp2 & Hh2); [rewrite Hp1; lia|done|]. exists l'. split; [done|]. split; [|done].
  by rewrite Hp2.
Qed.

Lemma heapify_ok l : exists l', heapify l = Ok l' /\ l' ≡ₚ l /\ heap_from 0 l'.
Proof.
  unfold heapify. pose proof (Nat.div_mod (length l) 2 ltac:(lia)). pose proof (Nat.mod_upper_bound (length l) 2 ltac:(lia)).
  apply heapify_loop_ok; [lia|]. intros i x y Hi Hs _ Hy. apply lookup_lt_Some in Hy. pose proof (parent_spec i Hi). lia.
Qed.

(** Draining a heap sorts it. *)
Lemma drain_ok n l : length l = n -> heap_from 0 l -> (forall x, ltb x x = false) ->
  exists l', drain n l = Ok l' /\ l' ≡ₚ l /\ StronglySorted (fun x y => ltb y x = false) l'.
Proof.
  revert l. induction n as [|n IH]; intros l Hlen Hh Hirr.
  { destruct l; [|done]. exists []. split; [done|]. split; [done|constructor]. }
  assert (l <> []) as Hne by (by intros ->).
  destruct (heappop_ok l Hne Hh Hirr) as (x & l1 & R1 & Hp & Hh1 & Hmin). cbn [drain].
  destruct l as [|y l]; [done|]. rewrite R1. cbn [mbind res_bind].
  destruct (IH l1) as (l2 & R2 & Hp2 & Hs); [|done|done|].
  { apply Permutation_length in Hp. cbn in Hp, Hlen. lia. }
  rewrite R2. cbn [mbind res_bind]. exists (x :: l2). split; [done|]. split; [by rewrite Hp2|].
  constructor; [done|]. apply Forall_forall. intros z Hz. apply Hmin. rewrite Hp. right. by rewrite <- Hp2.
Qed.

End heapq.
End Heap.
