(* ===== verification/ReqQueue.v ===== *)
(** The queues of waiting requests: [v1/core/sched/request_queue.py].

    [RequestQueue] has two implementations, a deque and a heap of [heapq]; objects
    are compared by identity ([oid]) for removal and by [Request.__lt__] in the
    heap. *)

From Stdlib Require Import Sorting.Sorted.
From stdpp Require Import sorting.
From S2P Require Import Prelude Request Heap.
Local Open Scope Z_scope.

Inductive SchedulingPolicy := FCFS | PRIORITY.

Inductive RequestQueue :=
  | FCFSRequestQueue (deque : list Request)
  | PriorityRequestQueue (heap : list Request).

Module Queue.

Definition create_request_queue (policy : SchedulingPolicy) : RequestQueue :=
  match policy with PRIORITY => PriorityRequestQueue [] | FCFS => FCFSRequestQueue [] end.

Definition add_request (q : RequestQueue) (request : Request) : res RequestQueue :=
  match q with
  | FCFSRequestQueue l => Ok (FCFSRequestQueue (l ++ [request]))
  | PriorityRequestQueue h => h' ← Heap.heappush request_lt h request; Ok (PriorityRequestQueue h')
  end.

Definition pop_request (q : RequestQueue) : res (Request * RequestQueue) :=
  match q with
  | FCFSRequestQueue [] => Raise IndexError
  | FCFSRequestQueue (r :: l) => Ok (r, FCFSRequestQueue l)
  | PriorityRequestQueue [] => Raise IndexError
  | PriorityRequestQueue h => '(r, h') ← Heap.heappop request_lt h; Ok (r, PriorityRequestQueue h')
  end.

Definition peek_request (q : RequestQueue) : res Request :=
  match q with
  | FCFSRequestQueue [] | PriorityRequestQueue [] => Raise IndexError
  | FCFSRequestQueue (r :: _) | PriorityRequestQueue (r :: _) => Ok r
  end.

Definition prepend_request (q : RequestQueue) (request : Request) : res RequestQueue :=
  match q with
  | FCFSRequestQueue l => Ok (FCFSRequestQueue (request :: l))
  | PriorityRequestQueue _ => add_request q request
  end.

(** [__iter__] *)
Definition iter (q : RequestQueue) : res (list Request) :=
  match q with
  | FCFSRequestQueue l => Ok l
  | PriorityRequestQueue h => Heap.drain request_lt (length h) h
  end.

Fixpoint add_requests (q : RequestQueue) (requests : list Request) : res RequestQueue :=
  match requests with
  | [] => Ok q
  | r :: rest => q' ← add_request q r; add_requests q' rest
  end.

(** [extendleft] reverses. *)
Definition prepend_requests (q requests : RequestQueue) : res RequestQueue :=
  l ← iter requests;
  match q with
  | FCFSRequestQueue d => Ok (FCFSRequestQueue (reverse l ++ d))
  | PriorityRequestQueue _ => add_requests q l
  end.

(** [list.remove]: the first occurrence, by identity. *)
Fixpoint remove_first (l : list Request) (request : Request) : res (list Request) :=
  match l with
  | [] => Raise ValueError
  | r :: l' => if oid r =? oid request then Ok l' else l'' ← remove_first l' request; Ok (r :: l'')
  end.

Definition remove_request (q : RequestQueue) (request : Request) : res RequestQueue :=
  match q with
  | FCFSRequestQueue l => l' ← remove_first l request; Ok (FCFSRequestQueue l')
  | PriorityRequestQueue h =>
      h' ← remove_first h request; h'' ← Heap.heapify request_lt h'; Ok (PriorityRequestQueue h'')
  end.

Definition keep (requests : list Request) (l : list Request) : list Request :=
  filter (fun r => oid r ∉ oid <$> requests) l.

Definition remove_requests (q : RequestQueue) (requests : list Request) : res RequestQueue :=
  match q with
  | FCFSRequestQueue l => Ok (FCFSRequestQueue (keep requests l))
  | PriorityRequestQueue h => h' ← Heap.heapify request_lt (keep requests h); Ok (PriorityRequestQueue h')
  end.

Definition elements (q : RequestQueue) : list Request :=
  match q with FCFSRequestQueue l | PriorityRequestQueue l => l end.

Definition len (q : RequestQueue) : Z := zlen (elements q).
Definition bool_of (q : RequestQueue) : bool := 0 <? len q.

(** ** Facts *)

Definition at_most (x y : Request) : Prop := request_lt y x = false.

Lemma lt_asym x y : request_lt x y = true -> request_lt y x = false.
Proof.
  intros H. apply not_true_is_false. intros H'. pose proof (request_lt_trans _ _ _ H H') as H2.
  by rewrite request_lt_irrefl in H2.
Qed.

Lemma at_most_trans x y z : request_lt y x = false -> request_lt z y = false -> request_lt z x = false.
Proof.
  intros H1 H2. apply not_true_is_false. intros H3.
  destruct (request_lt_cases y z) as [H|[H|(E1 & E2 & E3 & E4)]].
  - rewrite (request_lt_trans _ _ _ H H3) in H1. done.
  - congruence.
  - assert (request_lt y x = true) as Hyx; [|congruence]. rewrite request_lt_spec in *. rewrite E1, E2, E3, E4. done.
Qed.

(** Different objects of a queue are different requests. *)
Definition ids_ok (l : list Request) : Prop := forall a b, a ∈ l -> b ∈ l -> oid a = oid b -> a = b.

Definition queue_ok (q : RequestQueue) : Prop :=
  ids_ok (elements q) /\ NoDup (oid <$> elements q)
  /\ match q with FCFSRequestQueue _ => True | PriorityRequestQueue h => Heap.heap_from request_lt 0 h end.

(** The order in which a queue serves its requests. *)
Definition served (q : RequestQueue) (l : list Request) : Prop :=
  match q with
  | FCFSRequestQueue d => l = d
  | PriorityRequestQueue h => l ≡ₚ h /\ StronglySorted at_most l
  end.

Lemma ids_ok_perm l l' : l ≡ₚ l' -> ids_ok l -> ids_ok l'.
Proof. intros HP H a b. rewrite <- HP. apply H. Qed.

Lemma ids_ok_of_nodup l : NoDup (oid <$> l) -> ids_ok l.
Proof.
  induction l as [|x l IH]; [by intros _ a b ?%not_elem_of_nil|]. rewrite fmap_cons, NoDup_cons. intros [Hx Hnd].
  intros a b [->|Ha]%elem_of_cons [->|Hb]%elem_of_cons He; [done|..].
  - destruct Hx. rewrite He. by apply list_elem_of_fmap_2.
  - destruct Hx. rewrite <- He. by apply list_elem_of_fmap_2.
  - by apply IH.
Qed.

Lemma sorted_unique l l' : ids_ok l -> l ≡ₚ l' -> StronglySorted at_most l -> StronglySorted at_most l' -> l = l'.
Proof.
  intros Hid HP Hs Hs'. apply (StronglySorted_unique_strong at_most); [|done|done|done].
  intros x y Hx Hy H1 H2. apply Hid; [done|by rewrite HP|]. unfold at_most in *.
  destruct (request_lt_cases x y) as [H|[H|(_ & _ & _ & E)]]; congruence.
Qed.

Lemma iter_ok q : queue_ok q -> exists l, iter q = Ok l /\ served q l /\ l ≡ₚ elements q.
Proof.
  intros (_ & _ & H). destruct q as [d|h]; [by exists d|]. cbn.
  destruct (Heap.drain_ok request_lt lt_asym at_most_trans (length h) h eq_refl H request_lt_irrefl) as (l & R1 & HP & Hs).
  by exists l.
Qed.

Lemma served_unique q l l' : queue_ok q -> served q l -> served q l' -> l = l'.
Proof.
  destruct q as [d|h]; cbn; [by intros _ -> ->|]. intros (Hid & _) [P1 S1] [P2 S2].
  apply sorted_unique; [|by rewrite P1|done|done]. by eapply ids_ok_perm.
Qed.

Lemma queue_ok_perm (q : RequestQueue) l : queue_ok q -> l ≡ₚ elements q -> ids_ok l /\ NoDup (oid <$> l).
Proof. intros (H1 & H2 & _) HP. split; [by eapply ids_ok_perm|]. by rewrite HP. Qed.

Lemma heap_queue_ok h : NoDup (oid <$> h) -> Heap.heap_from request_lt 0 h -> queue_ok (PriorityRequestQueue h).
Proof. intros H1 H2. split; [by apply ids_ok_of_nodup|done]. Qed.

Lemma deque_queue_ok d : NoDup (oid <$> d) -> queue_ok (FCFSRequestQueue d).
Proof. intros H1. split; [by apply ids_ok_of_nodup|done]. Qed.

(** The order of a queue is determined by its elements. *)
Lemma iter_is q l : queue_ok q -> served q l -> iter q = Ok l.
Proof.
  intros Hok Hs. destruct (iter_ok q Hok) as (l' & R1 & Hs' & _). rewrite R1. f_equal. by eapply served_unique.
Qed.

Lemma sorted_filter (P : Request -> Prop) `{forall x, Decision (P x)} l :
  StronglySorted at_most l -> StronglySorted at_most (filter P l).
Proof.
  induction 1 as [|x l Hs IH Hx]; [constructor|]. rewrite filter_cons. case_decide; [|done]. constructor; [done|].
  rewrite Forall_forall in *. intros y [_ Hy]%list_elem_of_filter. by apply Hx.
Qed.

Lemma nodup_keep rs l : NoDup (oid <$> l) -> NoDup (oid <$> keep rs l).
Proof.
  induction l as [|x l IH]; [done|]. rewrite fmap_cons, NoDup_cons. intros [Hx Hnd]. unfold keep in *. rewrite filter_cons.
  case_decide; [|by apply IH]. rewrite fmap_cons, NoDup_cons. split; [|by apply IH].
  intros (y & Hy & Hin)%list_elem_of_fmap. apply list_elem_of_filter in Hin as [_ Hin]. apply Hx. rewrite Hy.
  by apply list_elem_of_fmap_2.
Qed.

Lemma remove_first_keep l r : NoDup (oid <$> l) -> oid r ∈ oid <$> l -> remove_first l r = Ok (keep [r] l).
Proof.
  induction l as [|x l IH]; [by intros _ ?%not_elem_of_nil|]. rewrite fmap_cons, NoDup_cons, elem_of_cons. intros [Hx Hnd] Hr.
  cbn [remove_first]. unfold keep in *. rewrite filter_cons. destruct (Z.eqb_spec (oid x) (oid r)) as [He|He].
  - rewrite decide_False by (rewrite He; cbn; set_solver). rewrite filter_all; [done|].
    intros y Hy. cbn. rewrite list_elem_of_singleton. intros Hyr. apply Hx. rewrite He, <- Hyr. by apply list_elem_of_fmap_2.
  - rewrite decide_True by (cbn; by rewrite list_elem_of_singleton). rewrite IH; [done|done|]. destruct Hr; [congruence|done].
Qed.

Lemma remove_first_absent l r : oid r ∉ oid <$> l -> remove_first l r = Raise ValueError.
Proof.
  induction l as [|x l IH]; [done|]. rewrite fmap_cons, not_elem_of_cons. intros [Hx Hl]. cbn [remove_first].
  replace (oid x =? oid r) with false by lia. by rewrite IH.
Qed.

(** Keeping some requests keeps their order. *)
Lemma keep_served q rs l : queue_ok q -> served q l ->
  exists q', remove_requests q rs = Ok q' /\ queue_ok q' /\ iter q' = Ok (keep rs l).
Proof.
  intros Hok Hs. pose proof Hok as (Hid & Hnd & Hh). destruct q as [d|h]; cbn [served elements remove_requests peek_request pop_request add_request] in Hs, Hnd |- *.
  - subst l. exists (FCFSRequestQueue (keep rs d)). split; [done|]. split; [|done]. by apply deque_queue_ok, nodup_keep.
  - destruct Hs as [HP Hs]. destruct (Heap.heapify_ok request_lt lt_asym at_most_trans (keep rs h)) as (h' & R1 & HP' & Hh').
    rewrite R1. exists (PriorityRequestQueue h'). split; [done|].
    assert (queue_ok (PriorityRequestQueue h')) as Hok'.
    { apply heap_queue_ok; [|done]. rewrite HP'. by apply nodup_keep. }
    split; [done|]. apply iter_is; [done|]. split; [|by apply sorted_filter]. rewrite HP'. unfold keep. by rewrite HP.
Qed.

Lemma remove_served q r l : queue_ok q -> served q l -> oid r ∈ oid <$> elements q ->
  exists q', remove_request q r = Ok q' /\ queue_ok q' /\ iter q' = Ok (keep [r] l).
Proof.
  intros Hok Hs Hr. pose proof Hok as (_ & Hnd & _).
  assert (remove_request q r = remove_requests q [r]) as ->; [|by apply keep_served].
  destruct q as [d|h]; cbn [elements remove_request remove_requests] in *; by rewrite remove_first_keep.
Qed.

Lemma pop_served q r l : queue_ok q -> served q (r :: l) ->
  peek_request q = Ok r /\ exists q', pop_request q = Ok (r, q') /\ queue_ok q' /\ iter q' = Ok l.
Proof.
  intros Hok Hs. pose proof Hok as (Hid & Hnd & Hh). destruct q as [d|h]; cbn [served elements remove_requests peek_request pop_request add_request] in Hs, Hnd |- *.
  - subst d. split; [done|]. exists (FCFSRequestQueue l). split; [done|]. split; [|done]. apply deque_queue_ok.
    rewrite fmap_cons in Hnd. by apply NoDup_cons in Hnd as [_ ?].
  - destruct Hs as [HP Hs]. assert (h <> []) as Hne by (intros ->; by apply Permutation_nil_r in HP).
    destruct (Heap.heappop_ok request_lt lt_asym at_most_trans h Hne Hh request_lt_irrefl) as (x & h' & R1 & HP' & Hh' & Hmin).
    assert (queue_ok (PriorityRequestQueue h')) as Hok'.
    { apply heap_queue_ok; [|done]. rewrite HP', fmap_cons in Hnd. by apply NoDup_cons in Hnd as [_ ?]. }
    destruct (iter_ok _ Hok') as (l' & R2 & [HP2 Hs2] & _).
    assert (r :: l = x :: l') as Heq.
    { apply sorted_unique; [by eapply ids_ok_perm| |done|].
      - by rewrite HP, HP', HP2.
      - constructor; [done|]. apply Forall_forall. intros y Hy. apply Hmin. rewrite HP'. right. by rewrite <- HP2. }
    injection Heq as <- <-. split.
    + destruct h as [|y h]; [done|]. f_equal.
      assert (request_lt r y = false) as H1 by (apply (Heap.heap_root request_lt at_most_trans (y :: h)); try done;
        [apply request_lt_irrefl|rewrite <- HP; by left]).
      assert (request_lt y r = false) as H2 by (apply Hmin; by left).
      apply Hid; [by left|cbn [elements]; rewrite <- HP; by left|]. destruct (request_lt_cases y r) as [H|[H|(_ & _ & _ & E)]]; congruence.
    + exists (PriorityRequestQueue h'). destruct h as [|y h]; [done|]. rewrite R1. done.
Qed.

Lemma add_served q r l : queue_ok q -> served q l -> oid r ∉ oid <$> l ->
  exists q' l', add_request q r = Ok q' /\ queue_ok q' /\ iter q' = Ok l'
    /\ match q with
       | FCFSRequestQueue _ => l' = l ++ [r]
       | PriorityRequestQueue _ => l' ≡ₚ r :: l /\ StronglySorted at_most l'
       end.
Proof.
  intros Hok Hs Hr. pose proof Hok as (Hid & Hnd & Hh). destruct q as [d|h]; cbn [served elements remove_requests peek_request pop_request add_request] in Hs, Hnd |- *.
  - subst l. exists (FCFSRequestQueue (d ++ [r])), (d ++ [r]). split; [done|]. split; [|done]. apply deque_queue_ok.
    rewrite fmap_app. apply NoDup_app. split; [done|]. split; [|apply NoDup_singleton].
    by intros x Hx ->%list_elem_of_singleton.
  - destruct Hs as [HP Hs]. destruct (Heap.heappush_ok request_lt lt_asym at_most_trans h r Hh) as (h' & R1 & HP' & Hh').
    rewrite R1. assert (queue_ok (PriorityRequestQueue h')) as Hok'.
    { apply heap_queue_ok; [|done]. rewrite HP', fmap_cons. apply NoDup_cons. split; [by rewrite <- HP|done]. }
    destruct (iter_ok _ Hok') as (l' & R2 & [HP2 Hs2] & _). exists (PriorityRequestQueue h'), l'. split; [done|]. split; [done|].
    split; [done|]. split; [|done]. by rewrite HP2, HP', HP.
Qed.

(** ** Properties *)

(** C38: Both request queues implement their policy.  For a queue of distinct
    requests (the heap in heap order, as the operations keep it), iteration gives
    an order: arrival in the queue for FCFS, sorted by [Request.__lt__] for the
    heap.  [peek_request] and [pop_request] serve the first request of that order
    and leave the rest of it, and raise [IndexError] when there is none;
    [add_request] appends or inserts by order; removing requests keeps the order of
    the others, and removing an unknown one raises [ValueError]. *)
Theorem request_queue_serves_policy q (Hok : queue_ok q) :
  exists l, iter q = Ok l /\ served q l /\ l ≡ₚ elements q
    /\ match l with
       | [] => peek_request q = Raise IndexError /\ pop_request q = Raise IndexError
       | r :: l' => peek_request q = Ok r /\ exists q', pop_request q = Ok (r, q') /\ queue_ok q' /\ iter q' = Ok l'
       end
    /\ (forall r, oid r ∉ oid <$> l -> exists q' l', add_request q r = Ok q' /\ queue_ok q' /\ iter q' = Ok l'
          /\ match q with
             | FCFSRequestQueue _ => l' = l ++ [r]
             | PriorityRequestQueue _ => l' ≡ₚ r :: l /\ StronglySorted at_most l'
             end)
    /\ (forall r, oid r ∈ oid <$> l -> exists q', remove_request q r = Ok q' /\ queue_ok q' /\ iter q' = Ok (keep [r] l))
    /\ (forall r, oid r ∉ oid <$> l -> remove_request q r = Raise ValueError)
    /\ (forall rs, exists q', remove_requests q rs = Ok q' /\ queue_ok q' /\ iter q' = Ok (keep rs l)).
Proof.
  destruct (iter_ok q Hok) as (l & R1 & Hs & HP). exists l. do 3 (split; [done|]). split; [|split; [|split; [|split]]].
  - destruct l as [|r l]; [|by apply pop_served]. apply Permutation_nil_l in HP. destruct q; cbn in HP; by subst.
  - intros r Hr. by apply add_served.
  - intros r Hr. apply remove_served; [done|done|by rewrite <- HP].
  - intros r Hr. rewrite HP in Hr. destruct q; cbn in *; by rewrite remove_first_absent.
  - intros rs. by apply keep_served.
Qed.

Definition with_priority (o p : Z) : Request := {| (demo_request []) with oid := o; priority := p |}.

Lemma request_queue_serves_policy_witness :
  let q := PriorityRequestQueue [with_priority 1 0; with_priority 2 5; with_priority 3 2] in
  exists q', pop_request q = Ok (with_priority 1 0, q') /\ iter q' = Ok [with_priority 3 2; with_priority 2 5].
Proof.
  intros q. assert (queue_ok q) as Hok.
  { apply heap_queue_ok; [by vm_compute; repeat constructor; set_solver|].
    intros i x y Hi _ Hx Hy. destruct i as [|[|[|i]]]; [lia| | |done]; cbn in Hx, Hy; by simplify_eq. }
  destruct (request_queue_serves_policy q Hok) as (l & R1 & _ & _ & Hl & _).
  assert (iter q = Ok [with_priority 1 0; with_priority 3 2; with_priority 2 5]) as H by (vm_compute; reflexivity).
  rewrite R1 in H. injection H as ->. destruct Hl as (_ & q' & R2 & _ & R3). by exists q'.
Defined.

End Queue.
