(* ===== verification/Offload.v ===== *)
(** Offloading of KV blocks to CPU memory: [v1/kv_offload/abstract.py],
    [v1/kv_offload/cpu/manager.py] with its policies LRU and ARC, and
    [v1/kv_offload/reuse_manager.py].

    Python's [OrderedDict] is an association list, oldest entry first; a
    [BlockStatus] that is changed through a reference is changed in its place in
    the dictionary.  The adaptive target of ARC, a Python float, is an exact
    rational. *)

From Stdlib Require Import QArith.QArith QArith.Qround.
From S2P Require Import Prelude.
Local Open Scope Z_scope.

(** ** Blocks *)

Record BlockStatus := { ref_cnt : Z; block_id : Z }.

Definition new_block (block_id : Z) : BlockStatus := {| ref_cnt := -1; block_id := wrap 64 block_id |}.
Definition is_ready (b : BlockStatus) : bool := 0 <=? ref_cnt b.
Definition set_ref_cnt (c : Z) (b : BlockStatus) : BlockStatus := {| b with ref_cnt := wrap 32 c |}.

Abbreviation entries := (list (bytes * BlockStatus)).

Record OffloadingEvent := {
  ev_block_hashes : list bytes;
  ev_block_size : Z;
  ev_medium : string;
  ev_removed : bool;
}.

(** [CPULoadStoreSpec] holds the slot numbers. *)
Record PrepareStoreOutput := {
  block_hashes_to_store : list bytes;
  store_spec : list Z;
  block_hashes_evicted : list bytes;
}.

(** ** Cache policies *)

Class CachePolicy (P : Type) := {
  policy_init : Z -> P;
  policy_get : bytes -> P -> option BlockStatus;
  policy_insert : bytes -> BlockStatus -> P -> P;
  policy_remove : bytes -> P -> res P;
  policy_touch : list bytes -> P -> P;
  policy_evict : Z -> list bytes -> P -> option (entries * P);
  (** a change of the block object that [policy_get] returned *)
  policy_put : bytes -> BlockStatus -> P -> P;
}.

Definition evictable (protected : list bytes) (e : bytes * BlockStatus) : bool :=
  (ref_cnt e.2 =? 0) && bool_decide (e.1 ∉ protected).

Module LRU.

Record LRUCachePolicy := { lru_blocks : entries }.

Definition get (h : bytes) (p : LRUCachePolicy) : option BlockStatus := Dict.get h (lru_blocks p).
Definition insert (h : bytes) (b : BlockStatus) (p : LRUCachePolicy) : LRUCachePolicy :=
  {| lru_blocks := Dict.set h b (lru_blocks p) |}.
Definition remove (h : bytes) (p : LRUCachePolicy) : res LRUCachePolicy :=
  if Dict.mem h (lru_blocks p) then Ok {| lru_blocks := Dict.del h (lru_blocks p) |} else Raise KeyError.

Definition touch (hs : list bytes) (p : LRUCachePolicy) : LRUCachePolicy :=
  {| lru_blocks := foldl (fun d h => if Dict.mem h d then Dict.move_to_end h d else d) (lru_blocks p) (reverse hs) |}.

(** The loop over the items; [break] after [n] candidates. *)
Fixpoint collect (n : Z) (protected : list bytes) (items candidates : entries) : entries :=
  match items with
  | [] => candidates
  | e :: rest =>
      if evictable protected e then
        let candidates := candidates ++ [e] in
        if zlen candidates =? n then candidates else collect n protected rest candidates
      else collect n protected rest candidates
  end.

Definition evict (n : Z) (protected : list bytes) (p : LRUCachePolicy) : option (entries * LRUCachePolicy) :=
  if n =? 0 then Some ([], p)
  else
    let candidates := collect n protected (lru_blocks p) [] in
    if zlen candidates <? n then None
    else Some (candidates, {| lru_blocks := foldl (fun d e => Dict.del e.1 d) (lru_blocks p) candidates |}).

End LRU.

#[export] Instance lru_policy : CachePolicy LRU.LRUCachePolicy := {
  policy_init _ := {| LRU.lru_blocks := [] |};
  policy_get := LRU.get;
  policy_insert := LRU.insert;
  policy_remove := LRU.remove;
  policy_touch := LRU.touch;
  policy_evict := LRU.evict;
  policy_put := LRU.insert;
}.

Module ARC.

Record ARCCachePolicy := {
  cache_capacity : Z;
  target_t1_size : Q;
  t1 : entries;
  t2 : entries;
  b1 : list (bytes * unit);
  b2 : list (bytes * unit);
}.

Definition init (capacity : Z) : ARCCachePolicy :=
  {| cache_capacity := capacity; target_t1_size := 0; t1 := []; t2 := []; b1 := []; b2 := [] |}.

Definition get (h : bytes) (p : ARCCachePolicy) : option BlockStatus :=
  match Dict.get h (t1 p) with Some b => Some b | None => Dict.get h (t2 p) end.

Definition insert (h : bytes) (b : BlockStatus) (p : ARCCachePolicy) : ARCCachePolicy :=
  {| p with t1 := Dict.set h b (t1 p); b1 := Dict.del h (b1 p); b2 := Dict.del h (b2 p) |}.

Definition remove (h : bytes) (p : ARCCachePolicy) : ARCCachePolicy :=
  if Dict.mem h (t1 p) then {| p with t1 := Dict.del h (t1 p) |} else {| p with t2 := Dict.del h (t2 p) |}.

(** The block object of [h] changes where it is. *)
Definition put (h : bytes) (b : BlockStatus) (p : ARCCachePolicy) : ARCCachePolicy :=
  if Dict.mem h (t1 p) then {| p with t1 := Dict.set h b (t1 p) |} else {| p with t2 := Dict.set h b (t2 p) |}.

Definition Qmin' (x y : Q) : Q := if Qle_bool x y then x else y.
Definition Qmax' (x y : Q) : Q := if Qle_bool x y then y else x.

Definition delta (a b : list (bytes * unit)) : Q := Qmax' 1 (inject_Z (zlen a) / inject_Z (zlen b)).

Definition touch_one (p : ARCCachePolicy) (h : bytes) : ARCCachePolicy :=
  match Dict.get h (t1 p) with
  | Some block =>
      if negb (is_ready block) then {| p with t1 := Dict.set h block (Dict.del h (t1 p)) |}
      else {| p with t1 := Dict.del h (t1 p); t2 := Dict.set h block (t2 p) |}
  | None =>
      if Dict.mem h (t2 p) then {| p with t2 := Dict.move_to_end h (t2 p) |}
      else if Dict.mem h (b1 p) then
        {| p with target_t1_size := Qmin' (target_t1_size p + delta (b2 p) (b1 p)) (inject_Z (cache_capacity p));
                  b1 := Dict.move_to_end h (b1 p) |}
      else if Dict.mem h (b2 p) then
        {| p with target_t1_size := Qmax' (target_t1_size p - delta (b1 p) (b2 p)) 0;
                  b2 := Dict.move_to_end h (b2 p) |}
      else p
  end.

Definition touch (hs : list bytes) (p : ARCCachePolicy) : ARCCachePolicy := foldl touch_one p (reverse hs).

(** The first entry that may be evicted and is not selected yet. *)
Definition candidate (protected already_selected : list bytes) (items : entries) : option (bytes * BlockStatus) :=
  head (filter (fun e => evictable protected e = true /\ e.1 ∉ already_selected) items).

(** The selection loop, [n] more blocks: hash, block, and whether it is from T1. *)
Fixpoint select (n : nat) (protected already_selected : list bytes) (virtual_t1_size : Z) (p : ARCCachePolicy)
  : option (list (bytes * BlockStatus * bool)) :=
  match n with
  | O => Some []
  | S n' =>
      let from_t1 := if Qfloor (target_t1_size p) <=? virtual_t1_size
                     then candidate protected already_selected (t1 p) else None in
      match from_t1 with
      | Some e =>
          l ← select n' protected (already_selected ++ [e.1]) (virtual_t1_size - 1) p;
          Some ((e, true) :: l)
      | None =>
          match candidate protected already_selected (t2 p) with
          | Some e => l ← select n' protected (already_selected ++ [e.1]) virtual_t1_size p; Some ((e, false) :: l)
          | None => None
          end
      end
  end.

Definition apply_one (p : ARCCachePolicy) (c : bytes * BlockStatus * bool) : ARCCachePolicy :=
  let '(h, _, from_t1) := c in
  if from_t1 : bool then {| p with t1 := Dict.del h (t1 p); b1 := Dict.set h tt (b1 p) |}
  else {| p with t2 := Dict.del h (t2 p); b2 := Dict.set h tt (b2 p) |}.

(** [for _ in range(len(ghost) - capacity): ghost.popitem(last=False)] *)
Definition trim (capacity : Z) (ghost : list (bytes * unit)) : list (bytes * unit) :=
  drop (Z.to_nat (zlen ghost - capacity)) ghost.

Definition evict (n : Z) (protected : list bytes) (p : ARCCachePolicy) : option (entries * ARCCachePolicy) :=
  if n =? 0 then Some ([], p)
  else
    candidates ← select (Z.to_nat n) protected [] (zlen (t1 p)) p;
    let p := foldl apply_one p candidates in
    Some (candidates.*1, {| p with b1 := trim (cache_capacity p) (b1 p); b2 := trim (cache_capacity p) (b2 p) |}).

End ARC.

#[export] Instance arc_policy : CachePolicy ARC.ARCCachePolicy := {
  policy_init := ARC.init;
  policy_get := ARC.get;
  policy_insert := ARC.insert;
  policy_remove h p := Ok (ARC.remove h p);
  policy_touch := ARC.touch;
  policy_evict := ARC.evict;
  policy_put := ARC.put;
}.

(** ** [CPUOffloadingManager] *)

Record CPUOffloadingManager (P : Type) := {
  om_block_size : Z;
  om_num_blocks : Z;
  num_allocated_blocks : Z;
  free_list : list Z;
  om_events : option (list OffloadingEvent);
  policy : P;
}.
Arguments om_block_size {P}.
Arguments om_num_blocks {P}.
Arguments num_allocated_blocks {P}.
Arguments free_list {P}.
Arguments om_events {P}.
Arguments policy {P}.

Module CPU.

Section manager.
Context {P : Type} `{CachePolicy P}.

Abbreviation OM := (M (CPUOffloadingManager P)).

Definition medium : string := "CPU".

Definition init (block_size num_blocks : Z) (enable_events : bool) : CPUOffloadingManager P :=
  {| om_block_size := block_size; om_num_blocks := num_blocks; num_allocated_blocks := 0; free_list := [];
     om_events := if enable_events then Some [] else None; policy := policy_init num_blocks |}.

Definition set_policy (f : P -> P) : OM unit := modify (fun m => {| m with policy := f (policy m) |}).

Definition get_num_free_blocks (m : CPUOffloadingManager P) : Z :=
  zlen (free_list m) + om_num_blocks m - num_allocated_blocks m.

Definition fresh_block : OM BlockStatus :=
  n ← gets num_allocated_blocks;
  modify (fun m => {| m with num_allocated_blocks := num_allocated_blocks m + 1 |}) ;;
  mret (new_block n).

Definition reused_block : OM BlockStatus :=
  l ← gets free_list;
  x ← lift_res (res_of_option IndexError (last l));
  modify (fun m => {| m with free_list := removelast l |}) ;;
  mret (new_block x).

Definition allocate_blocks (block_hashes : list bytes) : OM (list BlockStatus) :=
  m ← gets id;
  let num_fresh := Z.min (zlen block_hashes) (om_num_blocks m - num_allocated_blocks m) in
  let num_reused := zlen block_hashes - num_fresh in
  assert_ (num_reused <=? zlen (free_list m)) ;;
  fresh ← mmapM (seq 0 (Z.to_nat num_fresh)) (fun _ => fresh_block);
  reused ← mmapM (seq 0 (Z.to_nat num_reused)) (fun _ => reused_block);
  mret (fresh ++ reused).

Definition free_block (block : BlockStatus) : OM unit :=
  modify (fun m => {| m with free_list := free_list m ++ [block_id block] |}).

Definition add_event (block_hashes : list bytes) (removed : bool) : OM unit :=
  match block_hashes with
  | [] => mret tt
  | _ =>
      modify (fun m => match om_events m with
        | Some l => {| m with om_events := Some (l ++ [ {| ev_block_hashes := block_hashes; ev_block_size := om_block_size m;
                                                            ev_medium := medium; ev_removed := removed |} ]) |}
        | None => m
        end)
  end.

Fixpoint lookup (block_hashes : list bytes) (m : CPUOffloadingManager P) : Z :=
  match block_hashes with
  | [] => 0
  | h :: rest =>
      match policy_get h (policy m) with
      | Some block => if is_ready block then 1 + lookup rest m else 0
      | None => 0
      end
  end.

Definition prepare_load (block_hashes : list bytes) : OM (list Z) :=
  mmapM block_hashes (fun h =>
    o ← gets (fun m => policy_get h (policy m));
    match o with
    | None => raise AssertionError
    | Some block =>
        assert_ (is_ready block) ;;
        set_policy (policy_put h (set_ref_cnt (ref_cnt block + 1) block)) ;;
        mret (block_id block)
    end).

Definition touch (block_hashes : list bytes) : OM unit := set_policy (policy_touch block_hashes).

Definition complete_load (block_hashes : list bytes) : OM unit :=
  mfor block_hashes (fun h =>
    o ← gets (fun m => policy_get h (policy m));
    match o with
    | None => raise AssertionError
    | Some block =>
        assert_ (0 <? ref_cnt block) ;;
        set_policy (policy_put h (set_ref_cnt (ref_cnt block - 1) block))
    end).

Definition prepare_store (block_hashes : list bytes) : OM (option PrepareStoreOutput) :=
  m ← gets id;
  let to_store := filter (fun h => policy_get h (policy m) = None) block_hashes in
  match to_store with
  | [] => mret (Some {| block_hashes_to_store := []; store_spec := []; block_hashes_evicted := [] |})
  | _ =>
      let num_blocks_to_evict := zlen to_store - get_num_free_blocks m in
      o ← (if 0 <? num_blocks_to_evict then
             match policy_evict num_blocks_to_evict block_hashes (policy m) with
             | None => mret None
             | Some (evicted, p) =>
                 set_policy (fun _ => p) ;;
                 mfor evicted (fun e => free_block e.2) ;;
                 mret (Some (evicted.*1))
             end
           else mret (Some []));
      match o with
      | None => mret None
      | Some to_evict =>
          add_event to_evict true ;;
          blocks ← allocate_blocks to_store;
          assert_ (zlen blocks =? zlen to_store) ;;
          mfor (zip to_store blocks) (fun e => set_policy (policy_insert e.1 e.2)) ;;
          mret (Some {| block_hashes_to_store := to_store; store_spec := block_id <$> blocks;
                        block_hashes_evicted := to_evict |})
      end
  end.

(** The loop of a successful store: the hashes that became ready. *)
Definition finish_one (h : bytes) : OM (list bytes) :=
  o ← gets (fun m => policy_get h (policy m));
  match o with
  | Some block =>
      if negb (is_ready block) then set_policy (policy_put h (set_ref_cnt 0 block)) ;; mret [h] else mret []
  | None => mret []
  end.

(** The loop of a failed store. *)
Definition discard_one (h : bytes) : OM unit :=
  p ← gets policy;
  match policy_get h p with
  | Some block =>
      if negb (is_ready block) then
        p' ← lift_res (policy_remove h p);
        set_policy (fun _ => p') ;;
        free_block block
      else mret tt
  | None => mret tt
  end.

Definition complete_store (block_hashes : list bytes) (success : bool) : OM unit :=
  if success then
    l ← mmapM block_hashes finish_one;
    add_event (concat l) false
  else mfor block_hashes discard_one.

Definition take_events : OM (list OffloadingEvent) :=
  o ← gets om_events;
  match o with
  | None => mret []
  | Some l => modify (fun m => {| m with om_events := Some [] |}) ;; mret l
  end.

End manager.
End CPU.

(** ** [FilterReusedOffloadingManager] *)

Record FilterReusedOffloadingManager (P : Type) := {
  backing : CPUOffloadingManager P;
  store_threshold : Z;
  max_tracker_size : Z;
  counts : list (bytes * Z);
}.
Arguments backing {P}.
Arguments store_threshold {P}.
Arguments max_tracker_size {P}.
Arguments counts {P}.

Module Filter.

Section filter.
Context {P : Type} `{CachePolicy P}.

Abbreviation FM := (M (FilterReusedOffloadingManager P)).

Definition init (backing : CPUOffloadingManager P) (store_threshold max_tracker_size : Z)
  : res (FilterReusedOffloadingManager P) :=
  if store_threshold <? 2 then Raise ValueError
  else if max_tracker_size <? 1 then Raise ValueError
  else Ok {| backing := backing; store_threshold := store_threshold; max_tracker_size := max_tracker_size; counts := [] |}.

(** One hash of the recording loop of [lookup]. *)
Definition record (max_tracker_size : Z) (counts : list (bytes * Z)) (h : bytes) : list (bytes * Z) :=
  match Dict.get h counts with
  | Some n => Dict.set h (n + 1) (Dict.move_to_end h counts)
  | None => Dict.set h 1 (if max_tracker_size <=? zlen counts then tail counts else counts)
  end.

Definition on_backing {A} (c : M (CPUOffloadingManager P) A) : FM A :=
  zoom backing (fun b m => {| m with backing := b |}) c.

Definition lookup (block_hashes : list bytes) : FM Z :=
  modify (fun m => {| m with counts := foldl (record (max_tracker_size m)) (counts m) block_hashes |}) ;;
  gets (fun m => CPU.lookup block_hashes (backing m)).

Definition eligible (block_hashes : list bytes) (m : FilterReusedOffloadingManager P) : list bytes :=
  filter (fun h => store_threshold m <= default 0 (Dict.get h (counts m))) block_hashes.

Definition prepare_store (block_hashes : list bytes) : FM (option PrepareStoreOutput) :=
  l ← gets (eligible block_hashes);
  on_backing (CPU.prepare_store l).

Definition prepare_load (block_hashes : list bytes) : FM (list Z) := on_backing (CPU.prepare_load block_hashes).
Definition touch (block_hashes : list bytes) : FM unit := on_backing (CPU.touch block_hashes).
Definition complete_load (block_hashes : list bytes) : FM unit := on_backing (CPU.complete_load block_hashes).
Definition complete_store (block_hashes : list bytes) (success : bool) : FM unit :=
  on_backing (CPU.complete_store block_hashes success).
Definition take_events : FM (list OffloadingEvent) := on_backing CPU.take_events.

End filter.
End Filter.
