(* ===== verification/OffloadFacts.v ===== *)
(** Correctness of the offloading manager for any cache policy that keeps the laws
    of [PolicyLaws]; LRU and ARC keep them. *)

From Stdlib Require Import QArith.QArith QArith.Qround.
From S2P Require Import Prelude Offload.
Local Open Scope Z_scope.

(** ** What the manager relies on *)

Class PolicyLaws (P : Type) `{CachePolicy P} := {
  (** the blocks the policy holds, in any order *)
  contents : P -> entries;
  policy_ok : P -> Prop;
  law_init n : policy_ok (policy_init n) /\ contents (policy_init n) = [];
  law_nodup p : policy_ok p -> NoDup (contents p).*1;
  law_get p h b : policy_ok p -> policy_get h p = Some b <-> (h, b) ∈ contents p;
  law_insert p h b : policy_ok p -> policy_get h p = None ->
    policy_ok (policy_insert h b p) /\ contents (policy_insert h b p) ≡ₚ (h, b) :: contents p;
  law_remove p h b : policy_ok p -> (h, b) ∈ contents p ->
    exists p', policy_remove h p = Ok p' /\ policy_ok p' /\ contents p ≡ₚ (h, b) :: contents p';
  law_touch p hs : policy_ok p -> policy_ok (policy_touch hs p) /\ contents (policy_touch hs p) ≡ₚ contents p;
  law_evict p n protected l p' : policy_ok p -> 0 < n -> policy_evict n protected p = Some (l, p') ->
    policy_ok p' /\ zlen l = n /\ contents p ≡ₚ l ++ contents p' /\ Forall (fun e => evictable protected e = true) l;
  law_put p h b b' : policy_ok p -> (h, b) ∈ contents p ->
    policy_ok (policy_put h b' p) /\ exists rest, contents p ≡ₚ (h, b) :: rest /\ contents (policy_put h b' p) ≡ₚ (h, b') :: rest;
}.

(** ** Dictionaries of blocks *)

Module Entries.

Lemma keys_nodup_perm (d d' : entries) : d ≡ₚ d' -> NoDup d.*1 -> NoDup d'.*1.
Proof. by intros ->. Qed.

Lemma get_elem (d : entries) h b : NoDup d.*1 -> Dict.get h d = Some b <-> (h, b) ∈ d.
Proof. intros Hnd. split; [apply Dict.get_Some_elem|by apply Dict.elem_get]. Qed.

Lemma set_new_perm (d : entries) h b : Dict.get h d = None -> Dict.set h b d ≡ₚ (h, b) :: d.
Proof. intros H%Dict.get_None. rewrite Dict.keys_set_new by done. by rewrite Permutation_app_comm. Qed.

Lemma nodup_cons_keys (d d' : entries) h b b' : d ≡ₚ (h, b) :: d' -> NoDup d.*1 -> NoDup ((h, b') :: d').*1.
Proof. intros HP Hnd. by rewrite HP in Hnd. Qed.

Lemma sublist_fmap {A B} (f : A -> B) l l' : l `sublist_of` l' -> f <$> l `sublist_of` f <$> l'.
Proof. induction 1; rewrite ?fmap_cons; by constructor. Qed.

(** Deleting listed entries one by one. *)
Lemma del_all (l d : entries) : NoDup d.*1 -> NoDup l.*1 -> (forall e, e ∈ l -> e ∈ d) ->
  d ≡ₚ l ++ foldl (fun d e => Dict.del e.1 d) d l.
Proof.
  revert d. induction l as [|[h b] l IH]; intros d Hd Hl Hin; [done|]. cbn [foldl fst].
  rewrite fmap_cons, NoDup_cons in Hl. destruct Hl as [Hnin Hl].
  assert (Dict.get h d = Some b) as Hg by (apply Dict.elem_get; [done|apply Hin; by left]).
  pose proof (Dict.del_perm _ _ _ Hg) as HP. rewrite HP at 1. cbn [app]. f_equiv. apply IH; [|done|].
  - rewrite HP in Hd. rewrite fmap_cons in Hd. by apply NoDup_cons in Hd as [_ ?].
  - intros e He. specialize (Hin e ltac:(by right)). rewrite HP in Hin. apply elem_of_cons in Hin as [->|?]; [|done].
    destruct Hnin. apply list_elem_of_fmap. by exists (h, b).
Qed.

End Entries.

(** ** LRU *)

Module LRUFacts.
Import LRU Entries.

Lemma collect_spec n protected items cands : zlen cands < n ->
  collect n protected items cands = take (Z.to_nat n) (cands ++ filter (fun e => evictable protected e = true) items).
Proof.
  revert cands. induction items as [|e items IH]; intros cands Hn; cbn [collect].
  { rewrite app_nil_r, take_ge; [done|]. unfold zlen in Hn. lia. }
  rewrite filter_cons. destruct (evictable protected e); [rewrite decide_True by done|rewrite decide_False by done; by apply IH].
  rewrite zlen_app, zlen_cons. change (zlen []) with 0. destruct (Z.eqb_spec (zlen cands + (1 + 0)) n) as [He|He].
  - replace (cands ++ e :: filter (fun e0 => evictable protected e0 = true) items)
      with ((cands ++ [e]) ++ filter (fun e0 => evictable protected e0 = true) items) by by rewrite <- app_assoc.
    rewrite take_app_le by (rewrite length_app; cbn; unfold zlen in *; lia).
    rewrite take_ge; [done|]. rewrite length_app. cbn. unfold zlen in *. lia.
  - rewrite IH by (rewrite zlen_app, zlen_cons; change (zlen []) with 0; lia). by rewrite <- app_assoc.
Qed.

Lemma lru_touch_perm hs p : lru_blocks (touch hs p) ≡ₚ lru_blocks p.
Proof.
  unfold touch. cbn [lru_blocks]. generalize (lru_blocks p) as d. induction (reverse hs) as [|h l IH]; intros d; [done|].
  cbn [foldl]. rewrite IH. destruct (Dict.mem h d); [apply Dict.move_to_end_perm|done].
Qed.

(** Exactly [n] blocks without readers and not protected, oldest first. *)
Lemma lru_evict_spec n protected p : 0 < n ->
  let c := filter (fun e => evictable protected e = true) (lru_blocks p) in
  if decide (n <= zlen c)
  then evict n protected p
    = Some (take (Z.to_nat n) c, {| lru_blocks := foldl (fun d e => Dict.del e.1 d) (lru_blocks p) (take (Z.to_nat n) c) |})
  else evict n protected p = None.
Proof.
  intros Hn c. unfold evict. replace (n =? 0) with false by lia. rewrite collect_spec by (unfold zlen; cbn; lia). cbn [app]. fold c.
  destruct (decide (n <= zlen c)) as [Hle|Hlt].
  - assert (n <= zlen (take (Z.to_nat n) c)) as Ht by (unfold zlen in *; rewrite length_take; lia).
    apply Z.ltb_ge in Ht. by rewrite Ht.
  - assert (zlen (take (Z.to_nat n) c) < n) as Ht by (unfold zlen in *; rewrite length_take; lia).
    apply Z.ltb_lt in Ht. by rewrite Ht.
Qed.

#[export] Instance lru_laws : PolicyLaws LRUCachePolicy.
Proof.
  refine {| contents := lru_blocks; policy_ok p := NoDup (lru_blocks p).*1 |}.
  - intros n. split; [apply NoDup_nil_2|done].
  - done.
  - intros p h b Hok. by apply get_elem.
  - intros p h b Hok Hg. cbn in Hg |- *. pose proof (set_new_perm _ _ b Hg) as HP. split; [|done].
    by apply Dict.NoDup_set.
  - intros p h b Hok Hin. cbn. apply get_elem in Hin as Hg; [|done]. unfold remove.
    assert (Dict.mem h (lru_blocks p) = true) as -> by (apply Dict.mem_get; by eexists).
    eexists. split; [done|]. cbn. split; [by apply Dict.NoDup_del|by apply Dict.del_perm].
  - intros p hs Hok. pose proof (lru_touch_perm hs p) as HP. split; [|exact HP].
    change (NoDup (lru_blocks (touch hs p)).*1). by rewrite HP.
  - intros p n protected l p' Hok Hn He. cbn in He. pose proof (lru_evict_spec n protected p Hn) as Hs. cbv zeta in Hs.
    case_decide; [|congruence]. rewrite Hs in He. injection He as <- <-. cbn [lru_blocks].
    set (l := take _ _). assert (l `sublist_of` lru_blocks p) as Hsub.
    { unfold l. etrans; [apply sublist_take|apply sublist_filter]. }
    assert (lru_blocks p ≡ₚ l ++ foldl (fun d e => Dict.del e.1 d) (lru_blocks p) l) as HP.
    { apply del_all; [done| |].
      - eapply sublist_NoDup; [exact Hok|]. by apply sublist_fmap.
      - intros e He. by eapply elem_of_sublist. }
    split; [|split; [|split; [done|]]].
    + rewrite HP in Hok. rewrite fmap_app in Hok. by apply NoDup_app in Hok as (_ & _ & ?).
    + unfold l, zlen in *. rewrite length_take. lia.
    + apply Forall_forall. intros e He. unfold l in He. apply subseteq_take, list_elem_of_filter in He. by destruct He.
  - intros p h b b' Hok Hin. cbn. apply get_elem in Hin as Hg; [|done]. split; [by apply Dict.NoDup_set|].
    exists (Dict.del h (lru_blocks p)). split; [by apply Dict.del_perm|by eapply Dict.set_perm].
Defined.

End LRUFacts.

(** ** ARC *)

Module ARCFacts.
Import ARC Entries.

Definition arc_contents (p : ARCCachePolicy) : entries := t1 p ++ t2 p.
Definition arc_ok (p : ARCCachePolicy) : Prop := NoDup (arc_contents p).*1.

Lemma arc_parts p : arc_ok p -> NoDup (t1 p).*1 /\ NoDup (t2 p).*1 /\ forall h, h ∈ (t1 p).*1 -> h ∉ (t2 p).*1.
Proof. unfold arc_ok, arc_contents. rewrite fmap_app, NoDup_app. tauto. Qed.

Lemma get_spec p h b : arc_ok p -> get h p = Some b <-> (h, b) ∈ arc_contents p.
Proof.
  intros Hok. destruct (arc_parts p Hok) as (N1 & N2 & Hd). unfold get, arc_contents. rewrite elem_of_app, <- !get_elem by done.
  destruct (Dict.get h (t1 p)) as [c|] eqn:E1; [|naive_solver]. split; [by left|]. intros [?|E2]; [done|].
  exfalso. apply get_elem in E1, E2; try done. apply (Hd h); [apply list_elem_of_fmap; by exists (h, c)|].
  apply list_elem_of_fmap. by exists (h, b).
Qed.

(** Where the entry of [h] is. *)
Lemma split_spec p h b : arc_ok p -> (h, b) ∈ arc_contents p ->
  (Dict.get h (t1 p) = Some b /\ Dict.mem h (t1 p) = true)
  \/ (Dict.get h (t1 p) = None /\ Dict.mem h (t1 p) = false /\ Dict.get h (t2 p) = Some b /\ Dict.mem h (t2 p) = true).
Proof.
  intros Hok Hin. apply get_spec in Hin as Hg; [|done]. unfold get in Hg.
  destruct (Dict.get h (t1 p)) as [c|] eqn:E1.
  - left. split; [congruence|]. apply Dict.mem_get. by eexists.
  - right. split; [done|]. split; [|split; [done|apply Dict.mem_get; by eexists]].
    apply not_true_is_false. rewrite Dict.mem_get, E1. by intros [? ?].
Qed.

Lemma perm_ok p p' : arc_contents p' ≡ₚ arc_contents p -> arc_ok p -> arc_ok p'.
Proof. unfold arc_ok. by intros ->. Qed.

Lemma touch_one_perm p h : arc_ok p -> arc_contents (touch_one p h) ≡ₚ arc_contents p.
Proof.
  intros Hok. destruct (arc_parts p Hok) as (N1 & N2 & Hd). unfold touch_one, arc_contents.
  destruct (Dict.get h (t1 p)) as [b|] eqn:E1.
  - pose proof (Dict.del_perm _ _ _ E1) as HP. assert (Dict.get h (Dict.del h (t1 p)) = None) as En.
    { rewrite Dict.get_del by done. by rewrite decide_True. }
    destruct (is_ready b); cbn [negb t1 t2].
    + assert (Dict.get h (t2 p) = None) as E2.
      { apply Dict.get_None. apply Hd. apply Dict.get_Some_elem in E1. apply list_elem_of_fmap. by exists (h, b). }
      rewrite (set_new_perm _ _ _ E2). rewrite HP at 2. cbn [app]. by rewrite Permutation_middle.
    + rewrite (set_new_perm _ _ _ En). by rewrite HP at 2.
  - destruct (Dict.mem h (t2 p)); cbn [t1 t2]; [by rewrite Dict.move_to_end_perm|].
    destruct (Dict.mem h (b1 p)); [done|]. by destruct (Dict.mem h (b2 p)).
Qed.

Lemma arc_touch_perm hs p : arc_ok p -> arc_contents (touch hs p) ≡ₚ arc_contents p.
Proof.
  unfold touch. revert p. induction (reverse hs) as [|h l IH]; intros p Hok; [done|]. cbn [foldl].
  rewrite IH by (by eapply perm_ok, Hok; apply touch_one_perm). by apply touch_one_perm.
Qed.

Lemma candidate_spec protected sel items e : candidate protected sel items = Some e ->
  e ∈ items /\ evictable protected e = true /\ e.1 ∉ sel.
Proof.
  unfold candidate. intros H. apply head_Some_elem_of, list_elem_of_filter in H. tauto.
Qed.

Definition selected (p : ARCCachePolicy) (protected : list bytes) (c : bytes * BlockStatus * bool) : Prop :=
  c.1 ∈ (if c.2 : bool then t1 p else t2 p) /\ evictable protected c.1 = true.

Lemma select_spec n protected p : forall sel v l, select n protected sel v p = Some l ->
  length l = n /\ Forall (selected p protected) l /\ NoDup (l.*1).*1 /\ forall h, h ∈ (l.*1).*1 -> h ∉ sel.
Proof.
  induction n as [|n IH]; intros sel v l H; cbn [select] in H.
  { injection H as <-. split; [done|]. split; [by constructor|]. split; [apply NoDup_nil_2|]. by intros h ?%not_elem_of_nil. }
  assert (forall e (fl : bool) v', (candidate protected sel (if fl then t1 p else t2 p)) = Some e ->
    (l0 ← select n protected (sel ++ [e.1]) v' p; Some ((e, fl) :: l0)) = Some l ->
    length l = S n /\ Forall (selected p protected) l /\ NoDup (l.*1).*1 /\ forall h, h ∈ (l.*1).*1 -> h ∉ sel) as Hgo.
  { intros e fl v' Hc Hr. destruct (select n protected (sel ++ [e.1]) v' p) as [l0|] eqn:El; [|done]. injection Hr as <-.
    destruct (IH _ _ _ El) as (H1 & H2 & H3 & H4). destruct (candidate_spec _ _ _ _ Hc) as (C1 & C2 & C3).
    rewrite !fmap_cons. cbn [length fst]. split; [lia|]. split; [constructor; [by destruct fl|done]|]. split.
    - constructor; [|done]. intros Hin. apply (H4 _ Hin), elem_of_app. right. by apply list_elem_of_singleton.
    - intros h [->|Hh]%elem_of_cons; [done|]. intros Hs. apply (H4 _ Hh), elem_of_app. by left. }
  destruct (if _ <=? _ then _ else None) as [e|] eqn:E1.
  - destruct (_ <=? _); [|done]. by apply (Hgo e true (v - 1)).
  - destruct (candidate protected sel (t2 p)) as [e|] eqn:E2; [|done]. by apply (Hgo e false v).
Qed.

Lemma apply_one_spec p c : arc_ok p -> c.1 ∈ (if c.2 : bool then t1 p else t2 p) ->
  arc_ok (apply_one p c) /\ arc_contents p ≡ₚ c.1 :: arc_contents (apply_one p c)
  /\ (forall e (fl : bool), e.1 <> c.1.1 -> e ∈ (if fl then t1 p else t2 p) -> e ∈ (if fl then t1 (apply_one p c) else t2 (apply_one p c))).
Proof.
  intros Hok Hin. destruct (arc_parts p Hok) as (N1 & N2 & Hd). destruct c as [[h b] fl]. cbn [fst snd] in Hin |- *.
  assert (forall d : entries, NoDup d.*1 -> (h, b) ∈ d -> d ≡ₚ (h, b) :: Dict.del h d) as Hdel.
  { intros d Hnd Hd0. by apply Dict.del_perm, get_elem. }
  assert (arc_contents p ≡ₚ (h, b) :: arc_contents (apply_one p (h, b, fl))) as HP.
  { unfold arc_contents, apply_one. destruct fl; cbn [t1 t2].
    - by rewrite (Hdel _ N1 Hin) at 1.
    - rewrite (Hdel _ N2 Hin) at 1. by rewrite <- Permutation_middle. }
  split; [|split; [done|]].
  - unfold arc_ok in *. rewrite HP in Hok. rewrite fmap_cons in Hok. by apply NoDup_cons in Hok as [_ ?].
  - intros e fl' Hne He. unfold apply_one. destruct fl, fl'; cbn [t1 t2]; try done.
    + rewrite (Hdel _ N1 Hin) in He. apply elem_of_cons in He as [->|?]; [by destruct Hne|done].
    + rewrite (Hdel _ N2 Hin) in He. apply elem_of_cons in He as [->|?]; [by destruct Hne|done].
Qed.

Lemma apply_all_spec l protected : forall p, arc_ok p -> Forall (selected p protected) l -> NoDup (l.*1).*1 ->
  arc_ok (foldl apply_one p l) /\ arc_contents p ≡ₚ l.*1 ++ arc_contents (foldl apply_one p l).
Proof.
  induction l as [|c l IH]; intros p Hok Hl Hnd; [done|]. apply Forall_cons in Hl as [[Hc Hev] Hl].
  rewrite !fmap_cons, NoDup_cons in Hnd. destruct Hnd as [Hnin Hnd].
  destruct (apply_one_spec p c Hok Hc) as (Hok1 & HP & Hkeep). cbn [foldl].
  destruct (IH (apply_one p c) Hok1) as [Hok2 HP2]; [|done|].
  - rewrite Forall_forall in Hl |- *. intros d Hd. destruct (Hl d Hd) as [D1 D2]. split; [|done].
    apply Hkeep; [|done]. intros Heq. apply Hnin. rewrite <- Heq. by apply list_elem_of_fmap_2, list_elem_of_fmap_2.
  - split; [done|]. rewrite HP, fmap_cons. cbn [app]. by rewrite HP2 at 1.
Qed.

#[export] Instance arc_laws : PolicyLaws ARCCachePolicy.
Proof.
  refine {| contents := arc_contents; policy_ok := arc_ok |}.
  - intros n. split; [apply NoDup_nil_2|done].
  - done.
  - intros p h b Hok. by apply get_spec.
  - intros p h b Hok Hg. change (get h p = None) in Hg. unfold get in Hg.
    destruct (Dict.get h (t1 p)) eqn:E1; [done|]. change (policy_insert h b p) with (insert h b p).
    assert (arc_contents (insert h b p) ≡ₚ (h, b) :: arc_contents p) as HP.
    { unfold arc_contents, insert. cbn [t1 t2]. by rewrite (set_new_perm _ _ b E1). }
    split; [|exact HP]. unfold arc_ok. rewrite HP, fmap_cons. constructor; [|exact Hok].
    unfold arc_contents. rewrite fmap_app, elem_of_app. apply Dict.get_None in E1, Hg. unfold Dict.keys in E1, Hg. tauto.
  - intros p h b Hok Hin. change (policy_remove h p) with (Ok (ARC.remove h p)). eexists. split; [done|].
    assert (arc_contents p ≡ₚ (h, b) :: arc_contents (remove h p)) as HP.
    { unfold arc_contents, remove. destruct (split_spec p h b Hok Hin) as [[E1 ->]|(_ & -> & E2 & _)]; cbn [t1 t2].
      - by rewrite (Dict.del_perm _ _ _ E1) at 1.
      - rewrite (Dict.del_perm _ _ _ E2) at 1. by rewrite <- Permutation_middle. }
    split; [|done]. unfold arc_ok in *. rewrite HP, fmap_cons in Hok. by apply NoDup_cons in Hok as [_ ?].
  - intros p hs Hok. pose proof (arc_touch_perm hs p Hok) as HP. split; [by eapply perm_ok|exact HP].
  - intros p n protected l p' Hok Hn He. change (evict n protected p = Some (l, p')) in He. unfold evict in He.
    replace (n =? 0) with false in He by lia. destruct (select _ _ _ _ _) as [cs|] eqn:Es; [|done]. cbn [mbind option_bind] in He.
    injection He as <- <-. destruct (select_spec _ _ _ _ _ _ Es) as (H1 & H2 & H3 & _).
    destruct (apply_all_spec cs protected p Hok H2 H3) as [Hok' HP]. split; [exact Hok'|]. split; [|split; [exact HP|]].
    + unfold zlen. rewrite length_fmap, H1. lia.
    + apply Forall_fmap. eapply Forall_impl; [exact H2|]. by intros c [_ ?].
  - intros p h b b' Hok Hin. change (policy_put h b' p) with (put h b' p).
    assert (exists rest, arc_contents p ≡ₚ (h, b) :: rest /\ arc_contents (put h b' p) ≡ₚ (h, b') :: rest) as (rest & HP & HP').
    { unfold arc_contents, put. destruct (split_spec p h b Hok Hin) as [[E1 ->]|(_ & -> & E2 & _)]; cbn [t1 t2].
      - exists (Dict.del h (t1 p) ++ t2 p). by rewrite (Dict.del_perm _ _ _ E1) at 1; rewrite (Dict.set_perm _ _ b' _ E1).
      - exists (t1 p ++ Dict.del h (t2 p)). rewrite (Dict.del_perm _ _ _ E2) at 1. rewrite (Dict.set_perm _ _ b' _ E2).
        by rewrite <- !Permutation_middle. }
    split; [|by exists rest]. unfold arc_ok in *. rewrite HP', fmap_cons. rewrite HP, fmap_cons in Hok. exact Hok.
Defined.

End ARCFacts.

#[export] Existing Instance LRUFacts.lru_laws.
#[export] Existing Instance ARCFacts.arc_laws.

(** ** The manager *)

Module CPUFacts.
Import CPU Entries.

Section facts.
Context {P : Type} `{Hlaws : PolicyLaws P}.

Definition stored (m : CPUOffloadingManager P) : entries := contents (policy m).
Definition slots (m : CPUOffloadingManager P) : list Z := block_id <$> (stored m).*2.

(** The slots of the stored blocks and the free list are all slots handed out so
    far, each once. *)
Record offload_ok (m : CPUOffloadingManager P) : Prop := {
  of_policy : policy_ok (policy m);
  of_bounds : 0 <= num_allocated_blocks m <= om_num_blocks m;
  of_width : om_num_blocks m < 2 ^ 63;
  of_slots : slots m ++ free_list m ≡ₚ py_range 0 (num_allocated_blocks m);
}.

Lemma init_offload_ok size n ev : 0 <= n < 2 ^ 63 -> offload_ok (init size n ev).
Proof.
  intros Hn. destruct (law_init n) as [H1 H2]. split; cbn; [done|lia|lia|].
  unfold slots, stored. cbn. by rewrite H2.
Qed.

(** A changed policy with the same slots, and whatever events. *)
Lemma offload_ok_view m m' : offload_ok m -> policy_ok (policy m') -> slots m' ≡ₚ slots m ->
  om_num_blocks m' = om_num_blocks m -> num_allocated_blocks m' = num_allocated_blocks m ->
  free_list m' = free_list m -> offload_ok m'.
Proof. intros [] H1 H2 H3 H4 H5. split; [done|lia|lia|]. by rewrite H2, H4, H5. Qed.

Lemma get_contents m h b : offload_ok m -> policy_get h (policy m) = Some b <-> (h, b) ∈ stored m.
Proof. intros Hok. apply law_get, Hok. Qed.

Lemma put_ok m h b b' : offload_ok m -> (h, b) ∈ stored m -> block_id b' = block_id b ->
  let m' := {| m with policy := policy_put h b' (policy m) |} in
  offload_ok m' /\ exists rest, stored m ≡ₚ (h, b) :: rest /\ stored m' ≡ₚ (h, b') :: rest.
Proof.
  intros Hok Hin Hid m'. destruct (law_put _ _ _ b' (of_policy _ Hok) Hin) as (Hp & rest & H1 & H2).
  split; [|by exists rest]. eapply offload_ok_view; [exact Hok|exact Hp| |done..].
  unfold slots, stored, m'. cbn [policy]. rewrite H1, H2. cbn. by rewrite Hid.
Qed.

(** *** Reading *)

(** [lookup] counts the leading blocks that are stored and ready. *)
Lemma offload_lookup_spec hs m : offload_ok m ->
  exists n : nat, lookup hs m = Z.of_nat n /\ (n <= length hs)%nat
    /\ (forall h, h ∈ take n hs -> exists b, (h, b) ∈ stored m /\ is_ready b = true)
    /\ (forall h, hs !! n = Some h -> ~ exists b, (h, b) ∈ stored m /\ is_ready b = true).
Proof.
  intros Hok. induction hs as [|h hs IH]; cbn [lookup].
  { exists 0%nat. split; [done|]. split; [done|]. split; [by intros h ?%not_elem_of_nil|done]. }
  destruct (policy_get h (policy m)) as [b|] eqn:Eg.
  - apply get_contents in Eg as Hin; [|done]. destruct (is_ready b) eqn:Er.
    + destruct IH as (n & E & Hn & H1 & H2). exists (S n). split; [lia|]. split; [cbn; lia|]. split; [|exact H2].
      intros h' [->|Hh]%elem_of_cons; [by exists b|by apply H1].
    + exists 0%nat. split; [done|]. split; [lia|]. split; [by intros h' ?%not_elem_of_nil|].
      intros h' [= <-] (b' & Hin' & Hr). apply get_contents in Hin'; [|done]. congruence.
  - exists 0%nat. split; [done|]. split; [lia|]. split; [by intros h' ?%not_elem_of_nil|].
    intros h' [= <-] (b' & Hin' & Hr). apply get_contents in Hin'; [|done]. congruence.
Qed.

(** *** Allocation *)

Lemma take_fresh_ok {T} (l : list T) (m : CPUOffloadingManager P) : 0 <= num_allocated_blocks m ->
  num_allocated_blocks m + zlen l <= om_num_blocks m ->
  mmapM l (fun _ => fresh_block) m
  = (Ok (new_block <$> py_range (num_allocated_blocks m) (num_allocated_blocks m + zlen l)),
     {| m with num_allocated_blocks := num_allocated_blocks m + zlen l |}).
Proof.
  revert m. induction l as [|x l IH]; intros m Ha Hb; cbn [mmapM].
  { change (zlen []) with 0. rewrite Z.add_0_r, py_range_nil by lia. by destruct m. }
  rewrite zlen_cons in Hb |- *. pose proof (zlen_nonneg l).
  set (m1 := {| m with num_allocated_blocks := num_allocated_blocks m + 1 |}).
  rewrite (bind_ok _ _ _ (new_block (num_allocated_blocks m)) m1) by done.
  rewrite (bind_ok _ _ _ _ _ (IH m1 ltac:(cbn; lia) ltac:(cbn; lia))). cbn [num_allocated_blocks m1].
  rewrite (py_range_cons (num_allocated_blocks m)) by lia. rewrite fmap_cons.
  replace (num_allocated_blocks m + 1 + zlen l) with (num_allocated_blocks m + (1 + zlen l)) by lia. done.
Qed.

Lemma take_reused_ok {T} (l : list T) : forall m : CPUOffloadingManager P, zlen l <= zlen (free_list m) ->
  exists ids rest, free_list m ≡ₚ rest ++ ids /\ length ids = length l
    /\ mmapM l (fun _ => reused_block) m = (Ok (new_block <$> ids), {| m with free_list := rest |}).
Proof.
  induction l as [|x l IH]; intros m Hl; cbn [mmapM].
  { exists [], (free_list m). rewrite app_nil_r. split; [done|]. split; [done|]. by destruct m. }
  rewrite zlen_cons in Hl. pose proof (zlen_nonneg l). destruct (free_list m) as [|y fl _] eqn:Ef using rev_ind; [change (zlen []) with 0 in Hl; lia|].
  rewrite zlen_app, zlen_cons in Hl. change (zlen []) with 0 in Hl.
  rewrite (bind_ok _ _ _ (new_block y) {| m with free_list := fl |}).
  2: { unfold reused_block. msteps. rewrite Ef, last_snoc, removelast_last. done. }
  destruct (IH {| m with free_list := fl |}) as (ids & rest & HP & Hlen & R1); [cbn; lia|].
  rewrite (bind_ok _ _ _ _ _ R1). exists (y :: ids), rest. cbn [free_list] in HP. split; [|split; [cbn; lia|done]].
  rewrite HP. rewrite <- app_assoc. f_equiv. by rewrite Permutation_app_comm.
Qed.

(** Allocation of as many blocks as are free: distinct slots that nobody uses. *)
Lemma allocate_blocks_ok hs (m : CPUOffloadingManager P) : offload_ok m -> zlen hs <= get_num_free_blocks m ->
  exists ids m', allocate_blocks hs m = (Ok (new_block <$> ids), m') /\ length ids = length hs
    /\ policy m' = policy m /\ om_num_blocks m' = om_num_blocks m /\ om_events m' = om_events m
    /\ om_block_size m' = om_block_size m
    /\ 0 <= num_allocated_blocks m' <= om_num_blocks m
    /\ ids ++ slots m ++ free_list m' ≡ₚ py_range 0 (num_allocated_blocks m').
Proof.
  intros [H1 H2 H3 H4] Hle. unfold get_num_free_blocks in Hle. unfold allocate_blocks. msteps.
  set (nf := Z.min _ _). pose proof (zlen_nonneg hs). pose proof (zlen_nonneg (free_list m)). assert (0 <= nf <= zlen hs) as Hnf by lia.
  replace (zlen hs - nf <=? zlen (free_list m)) with true by lia. cbn [assert_]. msteps.
  assert (forall k, 0 <= k -> zlen (seq 0 (Z.to_nat k)) = k) as Hseq by (intros k Hk; unfold zlen; rewrite length_seq; lia).
  rewrite (bind_ok _ _ _ _ _ (take_fresh_ok (seq 0 (Z.to_nat nf)) m ltac:(lia) ltac:(rewrite Hseq; lia))). rewrite Hseq by lia.
  destruct (take_reused_ok (seq 0 (Z.to_nat (zlen hs - nf))) {| m with num_allocated_blocks := num_allocated_blocks m + nf |})
    as (ids & rest & HP & Hlen & R1); [rewrite Hseq by lia; cbn; lia|]. cbn [free_list] in HP.
  rewrite (bind_ok _ _ _ _ _ R1). rewrite length_seq in Hlen.
  exists (py_range (num_allocated_blocks m) (num_allocated_blocks m + nf) ++ ids). eexists.
  split; [by rewrite fmap_app|]. cbn [policy om_num_blocks om_events om_block_size num_allocated_blocks free_list].
  assert (zlen (py_range (num_allocated_blocks m) (num_allocated_blocks m + nf)) = nf) as Hr.
  { unfold py_range, zlen. rewrite length_fmap, length_seq. lia. }
  split; [rewrite length_app, Hlen; unfold zlen in *; lia|]. do 4 (split; [done|]). split; [lia|].
  rewrite (py_range_app 0 (num_allocated_blocks m)) by lia.
  rewrite <- H4, HP, (Permutation_app_comm (slots m ++ rest ++ ids)), <- app_assoc. f_equiv.
  by rewrite (app_assoc (slots m)), (Permutation_app_comm ids).
Qed.


(** *** Storing *)

Lemma free_blocks_ok (l : entries) : forall m : CPUOffloadingManager P,
  mfor l (fun e => free_block e.2) m = (Ok tt, {| m with free_list := free_list m ++ (block_id <$> l.*2) |}).
Proof.
  induction l as [|e l IH]; intros m; cbn [mfor].
  { cbn. rewrite app_nil_r. by destruct m. }
  rewrite (bind_ok _ _ _ tt {| m with free_list := free_list m ++ [block_id e.2] |}) by done.
  rewrite IH. cbn [free_list]. by rewrite <- app_assoc.
Qed.

(** [add_event] changes nothing but the events. *)
Lemma add_event_ok hs removed (m : CPUOffloadingManager P) : exists ev,
  add_event hs removed m = (Ok tt, {| m with om_events := ev |}).
Proof.
  unfold add_event, modify. destruct hs as [|h hs]; [exists (om_events m); destruct m; reflexivity|].
  destruct (om_events m) as [l|] eqn:E; [by eexists|]. exists None. destruct m; cbn in *; by subst.
Qed.

Lemma insert_all_ok (l : entries) : forall m : CPUOffloadingManager P, policy_ok (policy m) -> NoDup l.*1 ->
  (forall h, h ∈ l.*1 -> h ∉ (stored m).*1) ->
  exists p, mfor l (fun e => set_policy (policy_insert e.1 e.2)) m = (Ok tt, {| m with policy := p |})
    /\ policy_ok p /\ contents p ≡ₚ l ++ stored m.
Proof.
  induction l as [|[h b] l IH]; intros m Hp Hnd Hnin; cbn [mfor].
  { exists (policy m). split; [by destruct m|done]. }
  rewrite fmap_cons, NoDup_cons in Hnd. destruct Hnd as [Hh Hnd].
  assert (policy_get h (policy m) = None) as Hg.
  { destruct (policy_get h (policy m)) as [b'|] eqn:E; [|done]. apply law_get in E; [|done].
    destruct (Hnin h); [by left|]. apply list_elem_of_fmap. by exists (h, b'). }
  destruct (law_insert (policy m) h b Hp Hg) as [Hp1 HP1].
  set (m1 := {| m with policy := policy_insert h b (policy m) |}).
  rewrite (bind_ok _ _ _ tt m1) by done. destruct (IH m1) as (p & R & Hp' & HP); [exact Hp1|exact Hnd| |].
  { intros h' Hh' Hin. unfold stored, m1 in Hin. cbn [policy] in Hin. rewrite HP1, fmap_cons in Hin.
    apply elem_of_cons in Hin as [->|Hin]; [done|]. revert Hin. apply Hnin. by right. }
  exists p. rewrite R. split; [done|]. split; [exact Hp'|]. rewrite HP. unfold stored, m1. cbn [policy]. rewrite HP1.
  by rewrite <- Permutation_middle.
Qed.

Definition missing (hs : list bytes) (m : CPUOffloadingManager P) : list bytes :=
  filter (fun h => policy_get h (policy m) = None) hs.

Lemma missing_spec hs m h : offload_ok m -> h ∈ missing hs m <-> h ∈ hs /\ h ∉ (stored m).*1.
Proof.
  intros Hok. unfold missing. rewrite list_elem_of_filter. split; intros [H1 H2].
  - split; [done|]. intros ([h' b] & -> & Hin)%list_elem_of_fmap. apply law_get in Hin; [|apply Hok]. cbn in H1. congruence.
  - split; [|done]. destruct (policy_get h (policy m)) as [b|] eqn:E; [|done]. apply law_get in E; [|apply Hok].
    destruct H2. apply list_elem_of_fmap. by exists (h, b).
Qed.

(** The eviction part: refused, or as many slots freed as are needed. *)
Definition make_room (n : Z) (hs : list bytes) : M (CPUOffloadingManager P) (option (list bytes)) :=
  m ← gets id;
  if 0 <? n then
    match policy_evict n hs (policy m) with
    | None => mret None
    | Some (evicted, p) => set_policy (fun _ => p) ;; mfor evicted (fun e => free_block e.2) ;; mret (Some (evicted.*1))
    end
  else mret (Some []).

Lemma make_room_ok n hs m : offload_ok m ->
  (make_room n hs m = (Ok None, m) /\ 0 < n /\ policy_evict n hs (policy m) = None)
  \/ exists evicted m', make_room n hs m = (Ok (Some evicted.*1), m') /\ offload_ok m'
    /\ stored m ≡ₚ evicted ++ stored m' /\ zlen evicted = Z.max 0 n /\ Forall (fun e => evictable hs e = true) evicted
    /\ free_list m' = free_list m ++ (block_id <$> evicted.*2) /\ num_allocated_blocks m' = num_allocated_blocks m
    /\ om_num_blocks m' = om_num_blocks m /\ (0 < n -> policy_evict n hs (policy m) = Some (evicted, policy m')).
Proof.
  intros Hok. unfold make_room. msteps. cbn [id]. destruct (Z.ltb_spec 0 n) as [Hn|Hn].
  2: { right. exists [], m. split; [done|]. split; [exact Hok|]. split; [done|]. split; [change (zlen []) with 0; lia|].
       split; [done|]. split; [by rewrite app_nil_r|]. do 2 (split; [done|]). lia. }
  destruct (policy_evict n hs (policy m)) as [[l p]|] eqn:Ee; [|by left].
  right. destruct (law_evict _ _ _ _ _ (of_policy _ Hok) Hn Ee) as (Hp & Hlen & HP & Hev).
  set (m1 := {| m with policy := p |}). rewrite (bind_ok _ _ _ tt m1) by done.
  rewrite (bind_ok _ _ _ _ _ (free_blocks_ok l m1)). eexists l, _. split; [done|].
  split; [|split; [exact HP|split; [lia|done]]]. destruct Hok as [H1 H2 H3 H4].
  split; [exact Hp|exact H2|exact H3|]. unfold m1. cbn [free_list num_allocated_blocks]. rewrite <- H4.
  unfold slots, stored. cbn [policy]. rewrite HP, !fmap_app. rewrite <- app_assoc, (Permutation_app_comm (block_id <$> l.*2)).
  by rewrite <- app_assoc.
Qed.

(** What a granted [prepare_store] did: the absent hashes, in order, are in fresh
    blocks that are not ready; the evicted blocks were idle and not asked for; all
    else is as it was. *)
Definition granted (hs : list bytes) (m : CPUOffloadingManager P) (out : PrepareStoreOutput) (m' : CPUOffloadingManager P) : Prop :=
  block_hashes_to_store out = missing hs m /\ length (store_spec out) = length (missing hs m)
  /\ exists evicted kept : entries, block_hashes_evicted out = evicted.*1
       /\ Forall (fun e => evictable hs e = true) evicted
       /\ zlen evicted = Z.max 0 (zlen (missing hs m) - get_num_free_blocks m)
       /\ (0 < zlen (missing hs m) - get_num_free_blocks m ->
           exists p, policy_evict (zlen (missing hs m) - get_num_free_blocks m) hs (policy m) = Some (evicted, p))
       /\ stored m ≡ₚ evicted ++ kept
       /\ stored m' ≡ₚ zip (missing hs m) (new_block <$> store_spec out) ++ kept.

Lemma prepare_store_unfold hs m :
  prepare_store hs m =
  match missing hs m with
  | [] => (Ok (Some {| block_hashes_to_store := []; store_spec := []; block_hashes_evicted := [] |}), m)
  | _ =>
      (o ← make_room (zlen (missing hs m) - get_num_free_blocks m) hs;
       match o with
       | None => mret None
       | Some to_evict =>
           add_event to_evict true ;;
           blocks ← allocate_blocks (missing hs m);
           assert_ (zlen blocks =? zlen (missing hs m)) ;;
           mfor (zip (missing hs m) blocks) (fun e => set_policy (policy_insert e.1 e.2)) ;;
           mret (Some {| block_hashes_to_store := missing hs m; store_spec := block_id <$> blocks;
                         block_hashes_evicted := to_evict |})
       end) m
  end.
Proof. unfold prepare_store, make_room. msteps. fold (missing hs m). by destruct (missing hs m). Qed.

Lemma zip_fst_same {A B} (l : list A) (k : list B) : length l = length k -> (zip l k).*1 = l.
Proof. intros Hlen. apply fst_zip. lia. Qed.

Lemma slots_new (l : list bytes) (ids : list Z) : length ids = length l -> Forall (fun i => 0 <= i < 2 ^ 63) ids ->
  block_id <$> (zip l (new_block <$> ids)).*2 = ids.
Proof.
  intros Hlen Hb. rewrite snd_zip by (rewrite length_fmap; lia). rewrite <- list_fmap_compose.
  rewrite <- (list_fmap_id ids) at 2. apply list_fmap_ext. intros i x Hx. cbn.
  apply wrap64_id. rewrite Forall_forall in Hb. apply Hb. by eapply list_elem_of_lookup_2.
Qed.

Lemma prepare_store_ok hs m : offload_ok m -> NoDup hs -> exists o m', prepare_store hs m = (Ok o, m')
  /\ offload_ok m' /\ om_num_blocks m' = om_num_blocks m
  /\ match o with
     | None => m' = m /\ let n := zlen (missing hs m) - get_num_free_blocks m in 0 < n /\ policy_evict n hs (policy m) = None
     | Some out => granted hs m out m'
     end.
Proof.
  intros Hok Hnd. rewrite prepare_store_unfold.
  assert (forall h, h ∈ missing hs m -> h ∉ (stored m).*1) as Hnew by (intros h Hh; by apply missing_spec in Hh as [_ ?]).
  assert (NoDup (missing hs m)) as Hnd' by (unfold missing; by apply NoDup_filter).
  destruct (missing hs m) as [|h0 l0] eqn:El.
  { do 2 eexists. split; [reflexivity|]. split; [exact Hok|]. split; [done|]. unfold granted. rewrite El. do 2 (split; [done|]).
    exists [], (stored m). do 2 (split; [done|]). change (zlen []) with 0.
    destruct Hok. unfold get_num_free_blocks. pose proof (zlen_nonneg (free_list m)). split; [lia|]. split; [lia|done]. }
  cbv beta iota. set (L := h0 :: l0) in *. set (n := zlen L - get_num_free_blocks m).
  destruct (make_room_ok n hs m Hok) as [(R & Hn & He)|(evicted & m1 & R & Hok1 & HP & Hlen & Hev & Hfl & Hna & Hnb & Hpe)].
  { rewrite (bind_ok _ _ _ _ _ R). do 2 eexists. split; [reflexivity|]. by split. }
  rewrite (bind_ok _ _ _ _ _ R). cbv beta iota. destruct (add_event_ok evicted.*1 true m1) as [ev R1].
  rewrite (bind_ok _ _ _ _ _ R1). set (m2 := {| m1 with om_events := ev |}) in *.
  assert (offload_ok m2) as Hok2 by (destruct Hok1; by split).
  destruct (allocate_blocks_ok L m2 Hok2) as (ids & m3 & R2 & Hids & E1 & E2 & _ & _ & Hb3 & HP3).
  { unfold get_num_free_blocks in *. unfold m2. cbn [free_list om_num_blocks num_allocated_blocks].
    rewrite Hfl, Hna, Hnb, zlen_app. unfold zlen at 3. rewrite !length_fmap. fold (zlen evicted). lia. }
  rewrite (bind_ok _ _ _ _ _ R2).
  assert (zlen (new_block <$> ids) = zlen L) as Hz by (unfold zlen; rewrite length_fmap; lia).
  rewrite Hz, Z.eqb_refl. cbn [assert_]. msteps.
  assert (stored m3 = stored m1) as Es by (unfold stored; by rewrite E1).
  assert (length L = length (new_block <$> ids)) as Hl by (rewrite length_fmap; lia).
  destruct (insert_all_ok (zip L (new_block <$> ids)) m3) as (p & R3 & Hp & HPp).
  { rewrite E1. apply Hok2. }
  { by rewrite zip_fst_same. }
  { rewrite zip_fst_same by done. intros h Hh. rewrite Es. intros Hin. apply (Hnew h Hh).
    rewrite HP, fmap_app. apply elem_of_app. by right. }
  rewrite (bind_ok _ _ _ _ _ R3). do 2 eexists. split; [reflexivity|].
  assert (Forall (fun i => 0 <= i < 2 ^ 63) ids) as Hrange.
  { apply Forall_forall. intros i Hi. assert (i ∈ py_range 0 (num_allocated_blocks m3)) as Hr.
    { rewrite <- HP3. apply elem_of_app. by left. }
    apply elem_of_py_range in Hr. pose proof (of_width _ Hok2). lia. }
  cbn [om_num_blocks]. split; [|split; [by rewrite E2|]].
  - split; [exact Hp|cbn; rewrite E2; lia|cbn; rewrite E2; apply Hok2|]. cbn [num_allocated_blocks free_list]. rewrite <- HP3.
    unfold slots, stored at 1. cbn [policy]. rewrite HPp, !fmap_app, slots_new by done. rewrite Es, <- app_assoc. done.
  - unfold granted. rewrite El. cbn [block_hashes_to_store store_spec block_hashes_evicted].
    assert (block_id <$> (new_block <$> ids) = ids) as Hbi.
    { rewrite <- (slots_new L ids) at 2 by done. by rewrite snd_zip by lia. }
    rewrite Hbi. do 2 (split; [done|]). exists evicted, (stored m1). do 2 (split; [done|]). split; [lia|].
    split; [intros Hn; eexists; by apply Hpe|]. split; [done|]. unfold stored at 1. cbn [policy]. by rewrite HPp, Es.
Qed.
End facts.
End CPUFacts.
