(* ===== verification/OffloadSession.v ===== *)
(** Sessions with the offloading manager: stores and loads that overlap.  A load in
    flight is counted in the block's [ref_cnt]; the invariant says the counts are
    exact, so that no block is evicted or given up while it is read or written. *)

From Stdlib Require Import QArith.QArith.
From S2P Require Import Prelude Offload OffloadFacts.
Local Open Scope Z_scope.

Module OffloadSession.
Import CPU Entries CPUFacts.

Section session.
Context {P : Type} `{Hlaws : PolicyLaws P} (capacity : Z).

Abbreviation manager := (CPUOffloadingManager P).

(** ** The invariant *)

(** How many of the loads in flight read [h]. *)
Definition readers (loads : list bytes) (h : bytes) : Z := zlen (filter (fun x => x = h) loads).

(** A block is being written and has no readers, or its count is exact. *)
Definition counted (loads : list bytes) (e : bytes * BlockStatus) : Prop :=
  (ref_cnt e.2 = -1 /\ readers loads e.1 = 0) \/ ref_cnt e.2 = readers loads e.1.

Record session_ok (m : manager) (loads : list bytes) : Prop := {
  so_manager : offload_ok m;
  so_counts : forall e, e ∈ stored m -> counted loads e;
  so_loads : forall h, h ∈ loads -> h ∈ (stored m).*1;
  so_width : zlen loads < 2 ^ 31;
  so_capacity : om_num_blocks m = capacity;
}.

(** One call; [loads] are the hashes of the loads in flight. *)
Inductive offload_step : manager * list bytes -> manager * list bytes -> Prop :=
  | step_prepare_store hs o m m' loads : NoDup hs -> prepare_store hs m = (Ok o, m') ->
      offload_step (m, loads) (m', loads)
  | step_complete_store hs success m m' loads : complete_store hs success m = (Ok tt, m') ->
      offload_step (m, loads) (m', loads)
  | step_prepare_load hs ids m m' loads : zlen (hs ++ loads) < 2 ^ 31 -> prepare_load hs m = (Ok ids, m') ->
      offload_step (m, loads) (m', hs ++ loads)
  | step_complete_load hs m m' loads rest : loads ≡ₚ hs ++ rest -> complete_load hs m = (Ok tt, m') ->
      offload_step (m, loads) (m', rest)
  | step_touch hs m m' loads : touch hs m = (Ok tt, m') -> offload_step (m, loads) (m', loads)
  | step_take_events l m m' loads : take_events m = (Ok l, m') -> offload_step (m, loads) (m', loads).

(** ** Facts about readers *)

#[local] Instance readers_proper : Proper (Permutation ==> eq ==> eq) readers.
Proof. intros l l' HP h ? <-. unfold readers. by rewrite HP. Qed.

Lemma readers_app l l' h : readers (l ++ l') h = readers l h + readers l' h.
Proof. unfold readers. by rewrite filter_app, zlen_app. Qed.

Lemma readers_same h l : readers (h :: l) h = 1 + readers l h.
Proof. unfold readers. by rewrite filter_cons_True, zlen_cons by done. Qed.

Lemma readers_other h h' l : h' ≠ h -> readers (h' :: l) h = readers l h.
Proof. intros Hne. unfold readers. by rewrite filter_cons_False by done. Qed.

Lemma readers_bounds l h : 0 <= readers l h <= zlen l.
Proof.
  unfold readers. split; [apply zlen_nonneg|]. unfold zlen. pose proof (length_filter (fun x => x = h) l). lia.
Qed.

Lemma readers_pos l h : h ∈ l -> 0 < readers l h.
Proof.
  intros Hin. unfold readers. destruct (filter (fun x => x = h) l) as [|x k] eqn:E; [|rewrite zlen_cons; pose proof (zlen_nonneg k); lia].
  assert (h ∈ filter (fun x => x = h) l) as Hf by (by apply list_elem_of_filter). rewrite E in Hf. by apply not_elem_of_nil in Hf.
Qed.

Lemma session_ok_perm m loads loads' : loads ≡ₚ loads' -> session_ok m loads -> session_ok m loads'.
Proof.
  intros HP [H1 H2 H3 H4 H5]. split; [done| | |by rewrite <- HP|done].
  - intros e He. unfold counted. rewrite <- HP. by apply H2.
  - intros h Hh. apply H3. by rewrite HP.
Qed.

(** A session in which the policy's contents did not change. *)
Lemma session_view m m' loads : offload_ok m' -> stored m' ≡ₚ stored m -> om_num_blocks m' = om_num_blocks m ->
  session_ok m loads -> session_ok m' loads.
Proof.
  intros Hok HP Hn [H1 H2 H3 H4 H5]. split; [done| | |done|congruence].
  - intros e He. apply H2. by rewrite <- HP.
  - intros h Hh. rewrite HP. by apply H3.
Qed.

(** One block's count changes together with the loads. *)
Lemma session_put m loads loads' h b b' : session_ok m loads -> (h, b) ∈ stored m -> block_id b' = block_id b ->
  counted loads' (h, b') -> (forall h', h' ≠ h -> readers loads' h' = readers loads h') ->
  (forall x, x ∈ loads' -> x = h \/ x ∈ loads) -> zlen loads' < 2 ^ 31 ->
  session_ok {| m with policy := policy_put h b' (policy m) |} loads'.
Proof.
  intros [H1 H2 H3 _ H5] Hin Hid Hc Hother Hl Hw. destruct (put_ok m h b b' H1 Hin Hid) as [Hok (rest & HP & HP')].
  assert (h ∉ rest.*1) as Hnin.
  { pose proof (law_nodup _ (of_policy _ H1)) as Hnd. fold (stored m) in Hnd. rewrite HP, fmap_cons in Hnd.
    by apply NoDup_cons in Hnd as [? _]. }
  split; [exact Hok| | |exact Hw|exact H5].
  - intros e He. rewrite HP' in He. apply elem_of_cons in He as [->|He]; [done|].
    assert (e.1 ≠ h) as Hne by (intros <-; apply Hnin; apply list_elem_of_fmap; by exists e).
    unfold counted. rewrite Hother by done. apply H2. rewrite HP. by right.
  - intros x Hx. rewrite HP', fmap_cons. cbn [fst]. destruct (Hl x Hx) as [->|Hx']; [by left|].
    apply H3 in Hx'. rewrite HP, fmap_cons in Hx'. exact Hx'.
Qed.

Lemma stored_unique m h b b' : offload_ok m -> (h, b) ∈ stored m -> (h, b') ∈ stored m -> b = b'.
Proof. intros Hok H1 H2. apply law_get in H1, H2; [|apply Hok..]. congruence. Qed.

Lemma loaded_block m loads h : session_ok m loads -> h ∈ loads -> exists b, (h, b) ∈ stored m /\ ref_cnt b = readers loads h.
Proof.
  intros [H1 H2 H3 _ _] Hh. pose proof (H3 h Hh) as ([h' b] & -> & Hb)%list_elem_of_fmap. exists b. split; [done|].
  destruct (H2 _ Hb) as [[_ H0]|E]; [|done]. pose proof (readers_pos _ _ Hh). cbn in *. lia.
Qed.


(** A block that is not ready has no readers and is marked with -1. *)
Lemma writing_block m loads h b : session_ok m loads -> (h, b) ∈ stored m -> is_ready b = false ->
  ref_cnt b = -1 /\ readers loads h = 0.
Proof.
  intros [_ H2 _ _ _] Hin Hr. unfold is_ready in Hr. pose proof (readers_bounds loads h).
  destruct (H2 _ Hin) as [?|E]; [done|]. cbn in E. lia.
Qed.

Lemma ready_count m loads h b : session_ok m loads -> (h, b) ∈ stored m -> is_ready b = true -> ref_cnt b = readers loads h.
Proof. intros [_ H2 _ _ _] Hin Hr. unfold is_ready in Hr. destruct (H2 _ Hin) as [[E _]|E]; cbn in E; [lia|done]. Qed.

(** ** Every call keeps the invariant *)

Lemma prepare_load_ok hs : forall m loads, session_ok m loads -> zlen (hs ++ loads) < 2 ^ 31 ->
  match prepare_load hs m with
  | (Ok ids, m') => session_ok m' (hs ++ loads) /\ length ids = length hs
  | (Raise e, _) => e = AssertionError /\ exists h, h ∈ hs /\ ~ exists b, (h, b) ∈ stored m /\ is_ready b = true
  end.
Proof.
  induction hs as [|h hs IH]; intros m loads Hok Hw; [by split|]. unfold prepare_load. cbn [mmapM].
  pose proof (zlen_nonneg hs). rewrite <- app_comm_cons, zlen_cons in Hw.
  assert (zlen (h :: loads) < 2 ^ 31) as Hw1 by (rewrite zlen_cons; rewrite zlen_app in Hw; lia).
  destruct (policy_get h (policy m)) as [b|] eqn:Eg.
  2: { rewrite (bind_raise _ _ _ AssertionError m) by (msteps; by rewrite Eg). split; [done|]. exists h. split; [by left|].
       intros (b & Hin & _). apply law_get in Hin; [congruence|apply Hok]. }
  apply law_get in Eg as Hin; [|apply Hok]. destruct (is_ready b) eqn:Er.
  2: { rewrite (bind_raise _ _ _ AssertionError m) by (msteps; rewrite Eg, Er; done). split; [done|]. exists h. split; [by left|].
       intros (b' & Hin' & Hr). rewrite (stored_unique m h b' b) in Hr by (done || apply Hok). congruence. }
  pose proof (ready_count _ _ _ _ Hok Hin Er) as Ec. pose proof (readers_bounds loads h) as Hrb. pose proof (so_width _ _ Hok).
  set (m1 := {| m with policy := policy_put h (set_ref_cnt (ref_cnt b + 1) b) (policy m) |}).
  rewrite (bind_ok _ _ _ (block_id b) m1) by (msteps; rewrite Eg, Er; done).
  assert (session_ok m1 (h :: loads)) as Hok1.
  { rewrite zlen_cons in Hw1. refine (session_put m loads (h :: loads) h b _ Hok Hin _ _ _ _ _); [done| | | |by rewrite zlen_cons].
    - right. cbn. rewrite readers_same, wrap32_id by lia. lia.
    - intros h' Hne. apply readers_other. done.
    - intros x [->|?]%elem_of_cons; [by left|by right]. }
  specialize (IH m1 (h :: loads) Hok1). fold (prepare_load hs). unfold mbind, M_bind.
  rewrite <- Permutation_middle, zlen_cons in IH. specialize (IH Hw).
  destruct (prepare_load hs m1) as [[ids|e] m']; cbn.
  - split; [|cbn; lia]. eapply session_ok_perm; [|apply IH]. by rewrite <- Permutation_middle.
  - destruct IH as [-> (h' & Hh' & Hn)]. split; [done|]. exists h'. split; [by right|]. intros (b' & Hb' & Hr). apply Hn.
    destruct (put_ok m h b (set_ref_cnt (ref_cnt b + 1) b) (so_manager _ _ Hok) Hin eq_refl) as [_ (rest & HP & HP')].
    fold m1 in HP'. rewrite HP in Hb'. apply elem_of_cons in Hb' as [[= -> ->]|Hb'].
    + rewrite zlen_cons in Hw1. eexists. rewrite HP'. split; [by left|]. unfold is_ready. cbn. rewrite wrap32_id by lia. lia.
    + exists b'. rewrite HP'. split; [by right|done].
Qed.

Lemma complete_load_ok hs : forall m loads rest, session_ok m loads -> loads ≡ₚ hs ++ rest ->
  exists m', complete_load hs m = (Ok tt, m') /\ session_ok m' rest.
Proof.
  induction hs as [|h hs IH]; intros m loads rest Hok HP.
  { exists m. split; [done|]. by eapply session_ok_perm. }
  apply (session_ok_perm _ _ _ HP) in Hok. clear HP. rewrite <- app_comm_cons in Hok.
  destruct (loaded_block m _ h Hok ltac:(by left)) as (b & Hin & Ec). apply law_get in Hin as Eg; [|apply Hok].
  rewrite readers_same in Ec. pose proof (readers_bounds (hs ++ rest) h). pose proof (so_width _ _ Hok) as Hw. rewrite zlen_cons in Hw.
  set (m1 := {| m with policy := policy_put h (set_ref_cnt (ref_cnt b - 1) b) (policy m) |}).
  unfold complete_load. cbn [mfor]. rewrite (bind_ok _ _ _ tt m1).
  2: { msteps. rewrite Eg. replace (0 <? ref_cnt b) with true by lia. done. }
  apply (IH m1 (hs ++ rest)); [|done].
  refine (session_put m _ _ h b _ Hok Hin _ _ _ _ _); [done| | | |lia].
  - right. cbn. rewrite wrap32_id by lia. lia.
  - intros h' Hne. by rewrite readers_other.
  - intros x Hx. right. by right.
Qed.

Lemma finish_one_ok h m loads : session_ok m loads ->
  exists l m', finish_one h m = (Ok l, m') /\ session_ok m' loads.
Proof.
  intros Hok. unfold finish_one. msteps. destruct (policy_get h (policy m)) as [b|] eqn:Eg; [|by exists [], m].
  destruct (is_ready b) eqn:Er; cbn [negb]; [by exists [], m|].
  apply law_get in Eg as Hin; [|apply Hok]. destruct (writing_block _ _ _ _ Hok Hin Er) as [_ Hr].
  do 2 eexists. split; [reflexivity|]. refine (session_put m loads loads h b _ Hok Hin _ _ _ _ _); [done| |done| |apply Hok].
  - right. cbn. by rewrite Hr.
  - intros x Hx. by right.
Qed.

Lemma discard_one_ok h m loads : session_ok m loads -> exists m', discard_one h m = (Ok tt, m') /\ session_ok m' loads.
Proof.
  intros Hok. unfold discard_one. msteps. destruct (policy_get h (policy m)) as [b|] eqn:Eg; [|by exists m].
  destruct (is_ready b) eqn:Er; cbn [negb]; [by exists m|].
  apply law_get in Eg as Hin; [|apply Hok]. destruct (writing_block _ _ _ _ Hok Hin Er) as [_ Hr].
  destruct Hok as [[H1 H2 H3 H4] H5 H6 H7 H8].
  destruct (law_remove _ _ _ H1 Hin) as (p' & Rm & Hp' & HP). change (contents (policy m)) with (stored m) in HP.
  rewrite Rm. eexists. split; [reflexivity|]. split; [|..].
  - split; [exact Hp'|exact H2|exact H3|]. cbn [free_list num_allocated_blocks]. rewrite <- H4. unfold slots, stored at 1. cbn [policy].
    rewrite HP, !fmap_cons. cbn [snd]. rewrite app_assoc. rewrite <- Permutation_cons_append. done.
  - intros e He. apply H5. rewrite HP. by right.
  - intros x Hx. pose proof (H6 x Hx) as Hx'. rewrite HP, fmap_cons in Hx'. apply elem_of_cons in Hx' as [->|?]; [|done].
    apply readers_pos in Hx. cbn in Hx. lia.
  - exact H7.
  - exact H8.
Qed.

Lemma complete_store_ok hs success m loads : session_ok m loads ->
  exists m', complete_store hs success m = (Ok tt, m') /\ session_ok m' loads.
Proof.
  intros Hok. unfold complete_store. destruct success.
  - assert (exists l m', mmapM hs finish_one m = (Ok l, m') /\ session_ok m' loads) as (l & m' & R & Hok').
    { clear -Hok. revert m Hok. induction hs as [|h hs IH]; intros m Hok; [by exists [], m|].
      destruct (finish_one_ok h m loads Hok) as (x & m1 & R1 & Hok1). destruct (IH m1 Hok1) as (xs & m2 & R2 & Hok2).
      exists (x :: xs), m2. split; [|done]. cbn [mmapM]. rewrite (bind_ok _ _ _ _ _ R1), (bind_ok _ _ _ _ _ R2). done. }
    rewrite (bind_ok _ _ _ _ _ R). destruct (add_event_ok (concat l) false m') as [ev R']. rewrite R'. eexists. split; [done|].
    apply (session_view m'); [|done..]. destruct Hok' as [[] _ _ _ _]. by split.
  - revert m Hok. induction hs as [|h hs IH]; intros m Hok; [by exists m|].
    destruct (discard_one_ok h m loads Hok) as (m1 & R1 & Hok1). cbn [mfor]. rewrite (bind_ok _ _ _ _ _ R1). by apply IH.
Qed.

Lemma prepare_store_session hs m loads : session_ok m loads -> NoDup hs ->
  exists o m', prepare_store hs m = (Ok o, m') /\ session_ok m' loads
    /\ match o with
       | None => m' = m
       | Some out => granted hs m out m' /\ (forall h, h ∈ block_hashes_evicted out -> h ∉ loads /\ h ∉ hs)
       end.
Proof.
  intros Hok Hnd. destruct (prepare_store_ok hs m (so_manager _ _ Hok) Hnd) as (o & m' & R & Hok' & Hcap & Ho).
  exists o, m'. split; [exact R|]. destruct o as [out|]; [|destruct Ho as [-> _]; by split].
  pose proof Ho as (E1 & E2 & evicted & kept & Eev & Hev & _ & _ & HP & HP').
  assert (forall e, e ∈ evicted -> readers loads e.1 = 0 /\ e.1 ∉ hs) as Hidle.
  { intros e He. rewrite Forall_forall in Hev. specialize (Hev e He). unfold evictable in Hev.
    apply andb_true_iff in Hev as [Hz Hp%bool_decide_eq_true]. split; [|done].
    assert (e ∈ stored m) as Hs by (rewrite HP; apply elem_of_app; by left). destruct (so_counts _ _ Hok e Hs) as [[? ?]|?]; lia. }
  assert (forall h, h ∈ evicted.*1 -> h ∉ loads /\ h ∉ hs) as Hsafe.
  { intros h (e & -> & He)%list_elem_of_fmap. destruct (Hidle e He) as [Hr Hp]. split; [|done].
    intros Hin%readers_pos. lia. }
  split; [|split; [exact Ho|by rewrite Eev]]. split; [exact Hok'| | |apply Hok|rewrite Hcap; apply Hok].
  - intros e He. rewrite HP' in He. apply elem_of_app in He as [He|He].
    2: { apply (so_counts _ _ Hok). rewrite HP. apply elem_of_app. by right. }
    left. destruct e as [h b]. apply elem_of_zip_l in He as Hh. apply elem_of_zip_r in He as Hb.
    apply list_elem_of_fmap in Hb as (i & -> & _). split; [done|]. cbn.
    destruct (decide (readers loads h = 0)) as [?|Hne]; [done|]. exfalso. apply (missing_spec hs m h (so_manager _ _ Hok)) in Hh as [_ Hh].
    apply Hh, (so_loads _ _ Hok). destruct (decide (h ∈ loads)) as [?|Hn]; [done|]. destruct Hne. unfold readers. rewrite filter_none; [done|].
    intros x Hx ->. done.
  - intros h Hh. rewrite HP', fmap_app. apply elem_of_app. right. pose proof (so_loads _ _ Hok h Hh) as Hin.
    rewrite HP, fmap_app in Hin. apply elem_of_app in Hin as [Hin|?]; [|done]. by destruct (Hsafe h Hin).
Qed.


Lemma offload_step_ok x y : offload_step x y -> session_ok x.1 x.2 -> session_ok y.1 y.2.
Proof.
  intros Hst Hok.
  destruct Hst as [hs o m m' loads Hnd R|hs success m m' loads R|hs ids m m' loads Hw R|hs m m' loads rest HP R|hs m m' loads R|l m m' loads R];
    cbn in Hok |- *.
  - destruct (prepare_store_session hs m loads Hok Hnd) as (o' & m1 & R1 & Hok1 & _). congruence.
  - destruct (complete_store_ok hs success m loads Hok) as (m1 & R1 & Hok1). congruence.
  - pose proof (prepare_load_ok hs m loads Hok Hw) as H1. rewrite R in H1. apply H1.
  - destruct (complete_load_ok hs m loads rest Hok HP) as (m1 & R1 & Hok1). congruence.
  - injection R as <-. destruct (law_touch (policy m) hs (of_policy _ (so_manager _ _ Hok))) as [Hp HPt].
    apply (session_view m); [|exact HPt|done|done]. eapply offload_ok_view; [apply Hok|exact Hp| |done..].
    unfold slots, stored. cbn [policy]. by rewrite HPt.
  - unfold take_events in R. destruct m as [bs nb na fl ev p]. destruct ev as [evs|]; injection R as <- <-; [|done].
    refine (session_view _ _ loads _ _ _ Hok); [|done..]. destruct Hok as [[] _ _ _ _]. by split.
Qed.

Lemma offload_steps_ok x y : rtc offload_step x y -> session_ok x.1 x.2 -> session_ok y.1 y.2.
Proof. induction 1 as [|x y z Hst _ IH]; [done|]. intros Hok. apply IH. by eapply offload_step_ok. Qed.

Lemma init_offload_session_ok size ev : 0 <= capacity < 2 ^ 63 -> session_ok (init size capacity ev) [].
Proof.
  intros Hn. split; [by apply init_offload_ok| |by intros h ?%not_elem_of_nil|done|done].
  intros e He. unfold stored in He. cbn in He. rewrite (proj2 (law_init capacity)) in He. by apply not_elem_of_nil in He.
Qed.

(** C39: with either cache policy, over any interleaving of stores and loads that
    starts from a new offloading manager: (1) the slots of the stored blocks and
    the free slots are the slots handed out so far, each exactly once, and never
    more than the capacity; (2) a block read by loads in flight is stored, and its
    [ref_cnt] is the number of those loads; (3) a block that is being written is
    read by no load; (4) storing never raises, and what it evicts is read by no
    load and was not asked for; (5) completing a store, or loads in flight, never
    raises; (6) [prepare_load] raises only if some block is absent or not ready. *)
Theorem offload_session_sound size ev m loads :
  0 <= capacity < 2 ^ 63 -> rtc offload_step (init size capacity ev, []) (m, loads) ->
  (slots m ++ free_list m ≡ₚ py_range 0 (num_allocated_blocks m) /\ num_allocated_blocks m <= capacity)
  /\ (forall h, h ∈ loads -> exists b, (h, b) ∈ stored m /\ ref_cnt b = readers loads h)
  /\ (forall h b, (h, b) ∈ stored m -> is_ready b = false -> h ∉ loads)
  /\ (forall hs, NoDup hs -> exists o m', prepare_store hs m = (Ok o, m')
        /\ match o with
           | None => m' = m
           | Some out => granted hs m out m' /\ (forall h, h ∈ block_hashes_evicted out -> h ∉ loads /\ h ∉ hs)
           end)
  /\ (forall hs success, (complete_store hs success m).1 = Ok tt)
  /\ (forall hs rest, loads ≡ₚ hs ++ rest -> (complete_load hs m).1 = Ok tt)
  /\ (forall hs, zlen (hs ++ loads) < 2 ^ 31 ->
        (forall h, h ∈ hs -> exists b, (h, b) ∈ stored m /\ is_ready b = true) -> exists ids, (prepare_load hs m).1 = Ok ids).
Proof.
  intros Hcap Hrtc. pose proof (offload_steps_ok _ _ Hrtc (init_offload_session_ok size ev Hcap)) as Hok. cbn in Hok.
  split; [split; [apply Hok|rewrite <- (so_capacity _ _ Hok); apply Hok]|].
  split; [intros h; by apply loaded_block|]. split.
  { intros h b Hin Hr Hl%readers_pos. destruct (writing_block _ _ _ _ Hok Hin Hr). lia. }
  split; [|split; [|split]].
  - intros hs Hnd. destruct (prepare_store_session hs m loads Hok Hnd) as (o & m' & R & _ & Ho). by exists o, m'.
  - intros hs success. destruct (complete_store_ok hs success m loads Hok) as (m' & R & _). by rewrite R.
  - intros hs rest HP. destruct (complete_load_ok hs m loads rest Hok HP) as (m' & R & _). by rewrite R.
  - intros hs Hw Hall. pose proof (prepare_load_ok hs m loads Hok Hw) as H1.
    destruct (prepare_load hs m) as [[ids|e] m']; [by exists ids|]. destruct H1 as [_ (h & Hh & Hn)]. destruct Hn. by apply Hall.
Qed.

End session.

(** ** Concrete sessions *)

Definition hash_a : bytes := [Byte.x61].
Definition hash_b : bytes := [Byte.x62].
Definition hash_c : bytes := [Byte.x63].

(** Two blocks are stored, one is loaded and a third block replaces the other. *)
Definition demo_arc : CPUOffloadingManager ARC.ARCCachePolicy :=
  (prepare_store [hash_c] (prepare_load [hash_a] (complete_store [hash_a; hash_b] true
    (prepare_store [hash_a; hash_b] (init 16 2 true)).2).2).2).2.

Lemma offload_session_sound_witness :
  NoDup (slots demo_arc ++ free_list demo_arc) /\ exists b, (hash_a, b) ∈ stored demo_arc /\ ref_cnt b = 1.
Proof.
  assert (rtc offload_step (init 16 2 true, []) (demo_arc, [hash_a])) as Hr.
  { unfold demo_arc. eapply rtc_l; [eapply (step_prepare_store [hash_a; hash_b]); [refine (bool_decide_unpack _ _); vm_compute; exact I|apply run_snd; by vm_compute]|].
    eapply rtc_l; [eapply (step_complete_store [hash_a; hash_b] true); apply run_snd; by vm_compute|].
    eapply rtc_l; [eapply (step_prepare_load [hash_a]); [done|apply run_snd; by vm_compute]|].
    eapply rtc_l; [eapply (step_prepare_store [hash_c]); [refine (bool_decide_unpack _ _); vm_compute; exact I|apply run_snd; by vm_compute]|]. apply rtc_refl. }
  destruct (offload_session_sound 2 16 true demo_arc [hash_a] ltac:(lia) Hr) as [[HP _] [H _]]. split.
  - rewrite HP. refine (bool_decide_unpack _ _). vm_compute. exact I.
  - destruct (H hash_a ltac:(by left)) as (b & Hb & E). by exists b.
Defined.

(** ** The LRU policy *)

(** The blocks an eviction may take, the least recently used first. *)
Definition idle (hs : list bytes) (m : CPUOffloadingManager LRU.LRUCachePolicy) : entries :=
  filter (fun e => evictable hs e = true) (LRU.lru_blocks (policy m)).

(** C40: with LRU, [prepare_store] is refused, without any change, exactly when there
    are fewer idle blocks outside the request than slots missing; otherwise it
    evicts exactly as many as are missing, the least recently used first, and gives
    the absent hashes slots that no other block uses. *)
Theorem lru_store_evicts_oldest hs (m : CPUOffloadingManager LRU.LRUCachePolicy) : offload_ok m -> NoDup hs ->
  let needed := zlen (missing hs m) - get_num_free_blocks m in
  exists o m', prepare_store hs m = (Ok o, m') /\
    match o with
    | None => m' = m /\ zlen (idle hs m) < needed
    | Some out => needed <= zlen (idle hs m) /\ granted hs m out m'
        /\ block_hashes_evicted out = (take (Z.to_nat needed) (idle hs m)).*1
        /\ NoDup (slots m') /\ Forall (fun i => 0 <= i < om_num_blocks m) (slots m')
    end.
Proof.
  intros Hok Hnd needed. destruct (prepare_store_ok hs m Hok Hnd) as (o & m' & R & Hok' & Hcap & Ho).
  exists o, m'. split; [exact R|]. destruct o as [out|].
  - pose proof Ho as (_ & _ & evicted & kept & Eev & _ & Hlen & Hp & _). fold needed in Hlen, Hp.
    assert (needed <= zlen (idle hs m) /\ evicted = take (Z.to_nat needed) (idle hs m)) as [H1 H2].
    { destruct (decide (0 < needed)) as [Hn|Hn].
      - destruct (Hp Hn) as [p He]. pose proof (LRUFacts.lru_evict_spec needed hs (policy m) Hn) as H1. cbv zeta in H1.
        change (policy_evict needed hs (policy m)) with (LRU.evict needed hs (policy m)) in He.
        fold (idle hs m) in H1. destruct (decide _) as [Hle|Hlt]; [|congruence]. split; [exact Hle|]. congruence.
      - split; [pose proof (zlen_nonneg (idle hs m)); lia|]. replace (Z.to_nat needed) with 0%nat by lia.
        destruct evicted as [|e l]; [done|]. rewrite zlen_cons in Hlen. pose proof (zlen_nonneg l). lia. }
    split; [exact H1|]. split; [exact Ho|]. split; [by rewrite Eev, H2|].
    pose proof (of_slots _ Hok') as HP. pose proof (of_bounds _ Hok') as Hb. split.
    + assert (NoDup (slots m' ++ free_list m')) as Hnd' by (rewrite HP; apply NoDup_fmap_2_strong; [intros; lia|apply NoDup_seq]).
      by apply NoDup_app in Hnd' as [? _].
    + apply Forall_forall. intros i Hi. assert (i ∈ py_range 0 (num_allocated_blocks m')) as Hr%elem_of_py_range.
      { rewrite <- HP. apply elem_of_app. by left. }
      lia.
  - destruct Ho as [-> [Hn He]]. split; [done|]. fold needed in Hn, He.
    change (policy_evict needed hs (policy m)) with (LRU.evict needed hs (policy m)) in He.
    pose proof (LRUFacts.lru_evict_spec needed hs (policy m) Hn) as H1. cbv zeta in H1. fold (idle hs m) in H1.
    destruct (decide _) as [Hle|Hlt]; [congruence|lia].
Qed.

(** Three blocks in three slots, [a] read again: [b] is the oldest. *)
Definition demo_lru : CPUOffloadingManager LRU.LRUCachePolicy :=
  (touch [hash_a] (complete_store [hash_a; hash_b; hash_c] true
    (prepare_store [hash_a; hash_b; hash_c] (init 16 3 false)).2).2).2.

Lemma lru_store_evicts_oldest_witness :
  exists out m', prepare_store [ [Byte.x64]; hash_c] demo_lru = (Ok (Some out), m') /\ block_hashes_evicted out = [hash_b].
Proof.
  assert (offload_ok demo_lru) as Hok.
  { apply (so_manager 3 _ []). unfold demo_lru.
    refine (offload_steps_ok 3 (init 16 3 false, []) (_, []) _ (init_offload_session_ok 3 16 false _)); [|done].
    eapply rtc_l; [eapply (step_prepare_store [hash_a; hash_b; hash_c]); [|apply run_snd; by vm_compute]|].
    { refine (bool_decide_unpack _ _). vm_compute. exact I. }
    eapply rtc_l; [eapply (step_complete_store [hash_a; hash_b; hash_c] true); apply run_snd; by vm_compute|].
    eapply rtc_l; [by eapply (step_touch [hash_a])|]. apply rtc_refl. }
  destruct (lru_store_evicts_oldest [ [Byte.x64]; hash_c] demo_lru Hok) as (o & m' & R & Ho).
  { refine (bool_decide_unpack _ _). vm_compute. exact I. }
  destruct o as [out|].
  - exists out, m'. split; [exact R|]. destruct Ho as (_ & _ & E & _). rewrite E. reflexivity.
  - destruct Ho as [_ H]. exfalso. revert H. by vm_compute.
Defined.

(** ** The ARC policy can give up *)

(** Two idle blocks in T1 whose target size is 2. *)
Definition demo_target : CPUOffloadingManager ARC.ARCCachePolicy :=
  let store hs m := (complete_store hs true (prepare_store hs m).2).2 in
  (touch [hash_a] (touch [hash_a] (store [hash_c] (store [hash_a; hash_b] (init 16 2 false)))).2).2.

(** a run in which ARC's [evict] refuses although enough blocks are idle: with
    both blocks in T1, two idle blocks and [target_t1_size] 2, the second eviction
    may no longer take from T1 and T2 is empty; the same store with one block at a
    time is granted. *)
Theorem arc_evict_gives_up :
  (filter (fun e => evictable [ [Byte.x64]; [Byte.x65] ] e = true) (ARC.t1 (policy demo_target))).*1 = [hash_b; hash_c]
  /\ (prepare_store [ [Byte.x64]; [Byte.x65] ] demo_target).1 = Ok None
  /\ block_hashes_evicted <$> default None (match (prepare_store [ [Byte.x64] ] demo_target).1 with Ok o => Some o | _ => None end)
     = Some [hash_b]
  /\ block_hashes_evicted <$> default None
       (match (prepare_store [ [Byte.x65] ] (complete_store [ [Byte.x64] ] true (prepare_store [ [Byte.x64] ] demo_target).2).2).1
        with Ok o => Some o | _ => None end) = Some [hash_c].
Proof. vm_compute. done. Qed.

End OffloadSession.

(** ** The reuse filter *)

Module ReuseFilter.
Import OffloadSession.

Record tracks (size : Z) (l : list bytes) (counts : list (bytes * Z)) : Prop := {
  tr_nodup : NoDup (Dict.keys counts);
  tr_size : zlen counts <= size;
  tr_counts : forall h n, Dict.get h counts = Some n -> 1 <= n <= readers l h;
  tr_exact : zlen (remove_dups l) <= size -> forall h, h ∈ l -> Dict.get h counts = Some (readers l h);
}.

Lemma readers_snoc l h h' : readers (l ++ [h]) h' = readers l h' + (if decide (h = h') then 1 else 0).
Proof.
  rewrite readers_app. f_equal. destruct (decide (h = h')) as [->|Hne]; [by rewrite readers_same|]. by rewrite readers_other.
Qed.

Lemma readers_elem l h : 0 < readers l h -> h ∈ l.
Proof.
  intros Hr. destruct (decide (h ∈ l)) as [?|Hn]; [done|]. unfold readers in Hr.
  rewrite filter_none in Hr; [done|]. by intros x Hx ->.
Qed.

(** Not too many different hashes before, if not afterwards. *)
Lemma distinct_prefix (l : list bytes) h size : zlen (remove_dups (l ++ [h])) <= size -> zlen (remove_dups l) <= size.
Proof.
  intros H. enough (zlen (remove_dups l) <= zlen (remove_dups (l ++ [h]))) by lia. unfold zlen. apply inj_le.
  apply submseteq_length. apply NoDup_submseteq; [apply NoDup_remove_dups|]. intros x Hx.
  rewrite elem_of_remove_dups in Hx |- *. apply elem_of_app. by left.
Qed.

Lemma record_tracks size l counts h : 1 <= size -> tracks size l counts -> tracks size (l ++ [h]) (Filter.record size counts h).
Proof.
  intros Hsize [H1 H2 H3 H4]. unfold Filter.record. destruct (Dict.get h counts) as [n|] eqn:Eg.
  - assert (Dict.move_to_end h counts ≡ₚ counts) as HPm by apply Dict.move_to_end_perm.
    assert (NoDup (Dict.keys (Dict.move_to_end h counts))) as Hnd by (unfold Dict.keys; by rewrite HPm).
    assert (forall h', Dict.get h' (Dict.move_to_end h counts) = Dict.get h' counts) as Hsame.
    { intros h'. destruct (Dict.get h' counts) as [v|] eqn:E.
      - apply Dict.elem_get; [done|]. rewrite HPm. by apply Dict.get_Some_elem.
      - apply Dict.get_None. unfold Dict.keys. rewrite HPm. by apply Dict.get_None. }
    split.
    + by apply Dict.NoDup_set.
    + pose proof (Dict.set_perm h n (n + 1) _ (eq_trans (Hsame h) Eg)) as HP. rewrite HP.
      pose proof (Dict.del_perm h n _ (eq_trans (Hsame h) Eg)) as HP'. rewrite <- HPm, HP' in H2. rewrite !zlen_cons in *. done.
    + intros h' n'. rewrite Dict.get_set, readers_snoc. destruct (decide (h' = h)) as [->|Hne].
      * intros [= <-]. rewrite decide_True by done. specialize (H3 _ _ Eg). lia.
      * rewrite Hsame, decide_False by done. rewrite Z.add_0_r. apply H3.
    + intros Hd%distinct_prefix h' Hh'. rewrite Dict.get_set, readers_snoc. destruct (decide (h' = h)) as [->|Hne].
      * rewrite decide_True by done. destruct (H3 _ _ Eg) as [? Hr]. rewrite H4 in Eg by (done || apply readers_elem; lia). congruence.
      * rewrite Hsame, decide_False, Z.add_0_r by done. apply H4; [done|]. apply elem_of_app in Hh' as [?|Hh']; [done|].
        by apply list_elem_of_singleton in Hh'.
  - apply Dict.get_None in Eg as Hnin. set (c := if size <=? zlen counts then tail counts else counts).
    assert (c `sublist_of` counts) as Hsub by (unfold c; destruct (size <=? zlen counts); [destruct counts; by constructor|done]).
    assert (Dict.keys c `sublist_of` Dict.keys counts) as Hsubk by (by apply Entries.sublist_fmap).
    assert (NoDup (Dict.keys c)) as Hnd by (by eapply sublist_NoDup).
    assert (h ∉ Dict.keys c) as Hninc by (intros ?; apply Hnin; by eapply elem_of_sublist).
    assert (zlen c < size) as Hc.
    { unfold c. destruct (Z.leb_spec size (zlen counts)); [|lia]. destruct counts as [|e k]; [change (zlen (tail [])) with 0; lia|].
      rewrite zlen_cons in H2. cbn [tail]. lia. }
    rewrite Dict.keys_set_new by done. split.
    + unfold Dict.keys. rewrite fmap_app. apply NoDup_app. split; [exact Hnd|]. split; [|apply NoDup_singleton].
      intros x Hx ->%list_elem_of_singleton. done.
    + rewrite zlen_app, zlen_cons. change (zlen []) with 0. lia.
    + intros h' n'. rewrite <- Dict.keys_set_new by done. rewrite Dict.get_set, readers_snoc.
      pose proof (readers_bounds l h') as Hb. destruct (decide (h' = h)) as [->|Hne].
      * intros [= <-]. rewrite decide_True by done. lia.
      * intros Hg. rewrite decide_False, Z.add_0_r by done. apply H3.
        apply Dict.elem_get; [done|]. eapply elem_of_sublist; [by apply Dict.get_Some_elem|exact Hsub].
    + intros Hd h' Hh'. rewrite <- Dict.keys_set_new by done. rewrite Dict.get_set, readers_snoc.
      assert (h ∉ l) as Hnl by (intros Hl; rewrite H4 in Eg; [done|by eapply distinct_prefix|done]).
      destruct (decide (h' = h)) as [->|Hne].
      * rewrite decide_True by done. f_equal. pose proof (readers_bounds l h).
        destruct (decide (0 < readers l h)) as [Hp|?]; [by apply readers_elem in Hp|lia].
      * rewrite decide_False, Z.add_0_r by done. apply elem_of_app in Hh' as [Hh'|Hh']; [|by apply list_elem_of_singleton in Hh'].
        rewrite <- (H4 (distinct_prefix _ _ _ Hd) h' Hh'). f_equal. unfold c.
        enough (zlen counts < size) as Hlt by (by replace (size <=? zlen counts) with false by lia).
        enough (zlen (h :: Dict.keys counts) <= zlen (remove_dups (l ++ [h]))) as Hle.
        { rewrite zlen_cons in Hle. unfold Dict.keys, zlen in *. rewrite length_fmap in Hle. lia. }
        unfold zlen. apply inj_le, submseteq_length, NoDup_submseteq; [by constructor|].
        intros x Hx. rewrite elem_of_remove_dups. apply elem_of_app. apply elem_of_cons in Hx as [->|Hx]; [right; by left|left].
        destruct (Dict.get x counts) as [v|] eqn:E; [|by apply Dict.get_None in E].
        destruct (H3 _ _ E). apply readers_elem. lia.
Qed.

Lemma record_all_tracks size ks : forall l counts, 1 <= size -> tracks size l counts ->
  tracks size (l ++ ks) (foldl (Filter.record size) counts ks).
Proof.
  induction ks as [|k ks IH]; intros l counts Hs Ht; [by rewrite app_nil_r|]. cbn [foldl].
  rewrite cons_middle, app_assoc. apply IH; [done|]. by apply record_tracks.
Qed.

Section filter.
Context {P : Type} `{CachePolicy P}.

Lemma lookups_tracks (ls : list (list bytes)) : forall (m : FilterReusedOffloadingManager P) l,
  1 <= max_tracker_size m -> tracks (max_tracker_size m) l (counts m) ->
  let m' := foldl (fun m hs => (Filter.lookup hs m).2) m ls in
  tracks (max_tracker_size m) (l ++ concat ls) (counts m') /\ backing m' = backing m /\ store_threshold m' = store_threshold m
  /\ max_tracker_size m' = max_tracker_size m.
Proof.
  induction ls as [|hs ls IH]; intros m l Hs Ht; cbn [foldl concat]; [by rewrite app_nil_r|].
  rewrite app_assoc. apply (IH (Filter.lookup hs m).2); [done|]. cbn. by apply record_all_tracks.
Qed.

(** the reuse filter is rejected with [ValueError] for a threshold below 2 or an
    empty tracker; after any lookups it tracks at most [max_tracker_size] hashes, a
    hash is eligible for storing only if it was looked up at least
    [store_threshold] times, and, if the tracker never overflowed, if and only if;
    the backing manager is asked to store the eligible hashes and nothing else. *)
Theorem filter_stores_reused_only (b : CPUOffloadingManager P) threshold size ls :
  match Filter.init b threshold size with
  | Raise e => e = ValueError /\ (threshold < 2 \/ size < 1)
  | Ok m0 =>
      2 <= threshold /\ 1 <= size /\
      let m := foldl (fun m hs => (Filter.lookup hs m).2) m0 ls in
      zlen (counts m) <= size
      /\ (forall hs h, h ∈ Filter.eligible hs m -> h ∈ hs /\ threshold <= readers (concat ls) h)
      /\ (zlen (remove_dups (concat ls)) <= size ->
          forall hs, Filter.eligible hs m = filter (fun h => threshold <= readers (concat ls) h) hs)
      /\ (forall hs, (Filter.prepare_store hs m).1 = (CPU.prepare_store (Filter.eligible hs m) b).1)
  end.
Proof.
  unfold Filter.init. destruct (Z.ltb_spec threshold 2); [by auto|].
  destruct (Z.ltb_spec size 1); [by auto|]. split; [lia|]. split; [lia|].
  cbv zeta.
  match goal with |- context [foldl ?f ?x ls] => set (m0 := x); set (m := foldl f m0 ls) end.
  destruct (lookups_tracks ls m0 []) as (Ht & Eb & Eth & _); [cbn; lia| |].
  { split; cbn; [apply NoDup_nil_2|change (zlen []) with 0; lia|done|by intros _ h ?%not_elem_of_nil]. }
  fold m in Ht, Eb, Eth. cbn in Ht, Eb, Eth. split; [apply Ht|]. split; [|split].
  - intros hs h Hh. unfold Filter.eligible in Hh. apply list_elem_of_filter in Hh as [Hc Hh]. split; [done|]. rewrite Eth in Hc.
    destruct (Dict.get h (counts m)) as [n|] eqn:E; cbn in Hc; [|lia]. destruct (tr_counts _ _ _ Ht _ _ E). lia.
  - intros Hd hs. unfold Filter.eligible. rewrite Eth. apply filter_ext_in. intros h _.
    destruct (decide (h ∈ concat ls)) as [Hin|Hn]; [by rewrite (tr_exact _ _ _ Ht Hd h Hin)|].
    pose proof (readers_bounds (concat ls) h). destruct (decide (0 < readers (concat ls) h)) as [Hp|Hz]; [by apply readers_elem in Hp|].
    destruct (Dict.get h (counts m)) as [n|] eqn:E; cbn; [|lia]. destruct (tr_counts _ _ _ Ht _ _ E). lia.
  - intros hs. unfold Filter.prepare_store, Filter.on_backing, zoom. msteps. rewrite Eb.
    by destruct (CPU.prepare_store (Filter.eligible hs m) b).
Qed.

End filter.
End ReuseFilter.
