(* ===== verification/Scheduler.v ===== *)
(** The scheduler: [v1/core/sched/scheduler.py], with [async_scheduler.py] as the
    flag [async_scheduling] of its configuration.

    A [Request] object is referred to by its id; [requests] maps the ids of the
    live objects to their state, in the order of the Python dictionary.  A queue
    holds the objects as they were when they entered it: only the fields that
    [Request.__lt__] and object identity read are taken from there, the others
    are looked up.  The scheduler runs without a KV connector
    ([kv_transfer_config] is [None]); an encoder-cache connector is the
    parameter [ec_connector], and what the grammar library answers is a
    parameter of the operations that ask it.  Log lines and event timestamps are
    left out. *)

From S2P Require Import Prelude FreeQueue Request Hashing Metrics BlockPool KVSpec SingleType Coordinator KVManager EncoderCache Heap ReqQueue.
Local Open Scope Z_scope.

(** ** What the scheduler calls of the KV cache *)

Class KVCacheOps (K : Type) := {
  kv_new_step_starts : M K unit;
  kv_get_computed_blocks : Request -> M K (KVCacheBlocks * Z);
  kv_can_fit_full_sequence : Request -> Z -> option KVCacheBlocks -> Z -> Z -> M K bool;
  kv_allocate_slots : Z -> Z -> option KVCacheBlocks -> Z -> Z -> bool -> Z -> M (K * Request) (option KVCacheBlocks);
  kv_cache_blocks : Z -> M (K * Request) unit;
  kv_free : Request -> M K unit;
  kv_get_blocks : string -> K -> KVCacheBlocks;
  kv_block_ids : K -> KVCacheBlocks -> list (list Z);
  kv_block_ids_or_none : K -> KVCacheBlocks -> option (list (list Z));
  kv_get_num_common_prefix_blocks : string -> M K (list Z);
  kv_take_new_block_ids : M K (list Z);
  kv_take_events : M K (list KVCacheEvent);
  kv_reset_prefix_cache : M K bool;
  kv_make_prefix_cache_stats : M K (option PrefixCacheStats);
  kv_usage : K -> Z * Z;
  kv_drain_eviction_events : M K (list KVCacheEvictionEvent);
}.

(** [kv_metrics_collector] is the collector of the pool. *)
Definition drain_eviction_events : M KVCacheManager (list KVCacheEvictionEvent) :=
  KV.on_pool (fun p =>
    match metrics_collector p with
    | None => (Ok [], p)
    | Some m => let '(r, m') := drain_events m in (r, {| p with metrics_collector := Some m' |})
    end).

#[export] Instance kv_cache_manager_ops {E : Env} : KVCacheOps KVCacheManager := {
  kv_new_step_starts := KV.new_step_starts;
  kv_get_computed_blocks := KV.get_computed_blocks;
  kv_can_fit_full_sequence := KV.can_fit_full_sequence;
  kv_allocate_slots := KV.allocate_slots;
  kv_cache_blocks := KV.cache_blocks;
  kv_free := KV.free;
  kv_get_blocks := KV.get_blocks;
  kv_block_ids s b := KV.get_block_ids (co_pool (coordinator s)) (KV.blocks_of (KV.num_groups s) b);
  kv_block_ids_or_none s b := KV.get_block_ids_or_none (co_pool (coordinator s)) (KV.blocks_of (KV.num_groups s) b);
  kv_get_num_common_prefix_blocks := KV.get_num_common_prefix_blocks;
  kv_take_new_block_ids := KV.take_new_block_ids;
  kv_take_events := KV.take_events;
  kv_reset_prefix_cache := KV.reset_prefix_cache;
  kv_make_prefix_cache_stats := KV.make_prefix_cache_stats;
  kv_usage := KV.usage;
  kv_drain_eviction_events := drain_eviction_events;
}.

(** ** State *)

Inductive PauseState := UNPAUSED | PAUSED_NEW | PAUSED_ALL.

#[export] Instance PauseState_eq_dec : EqDecision PauseState.
Proof. solve_decision. Defined.
#[export] Instance SchedulingPolicy_eq_dec : EqDecision SchedulingPolicy.
Proof. solve_decision. Defined.

Record SchedulerConfig := {
  max_num_running_reqs : Z;
  max_num_scheduled_tokens : Z;
  sc_max_model_len : Z;
  policy : SchedulingPolicy;
  long_prefill_token_threshold : Z;
  enable_chunked_prefill : bool;
  scheduler_reserve_full_isl : bool;
  sc_use_eagle : bool;
  num_spec_tokens : Z;
  num_lookahead_tokens : Z;
  need_mamba_block_aligned_split : bool;
  sc_block_size : Z;                          (** [cache_config.block_size] *)
  sc_is_encoder_decoder : bool;
  max_num_encoder_input_tokens : Z;
  sc_disable_chunked_mm_input : bool;
  max_loras : option Z;                       (** [lora_config] *)
  sc_log_stats : bool;
  use_pp : bool;
  async_scheduling : bool;
  use_v2_model_runner : bool;
  needs_kv_cache_zeroing : bool;
  num_kv_cache_groups : nat;
}.

Record Scheduler (K C : Type) := {
  config : SchedulerConfig;
  requests : list (string * Request);
  waiting : RequestQueue;
  skipped_waiting : RequestQueue;
  running : list string;
  finished_req_ids : gset string;
  finished_req_ids_dict : option (list (Z * gset string));
  prev_step_scheduled_req_ids : gset string;
  num_waiting_for_streaming_input : Z;
  kv_cache_manager : K;
  encoder_cache_manager : C;
  pause_state : PauseState;
}.
Arguments config {K C}.
Arguments requests {K C}.
Arguments waiting {K C}.
Arguments skipped_waiting {K C}.
Arguments running {K C}.
Arguments finished_req_ids {K C}.
Arguments finished_req_ids_dict {K C}.
Arguments prev_step_scheduled_req_ids {K C}.
Arguments num_waiting_for_streaming_input {K C}.
Arguments kv_cache_manager {K C}.
Arguments encoder_cache_manager {K C}.
Arguments pause_state {K C}.

(** *** Outputs: [sched/output.py] *)

Record NewRequestData := {
  nr_req_id : string;
  nr_prompt_token_ids : option (list Z);
  nr_mm_features : list MultiModalFeatureSpec;
  nr_sampling_params : option SamplingParams;
  nr_pooling_params : option PoolingParams;
  nr_block_ids : list (list Z);
  nr_num_computed_tokens : Z;
  nr_lora_request : option LoRARequest;
  nr_prompt_embeds : option (list bytes);
  nr_prefill_token_ids : option (list Z);
}.

Record CachedRequestData := {
  cr_req_ids : list string;
  resumed_req_ids : gset string;
  new_token_ids : list (list Z);
  cr_all_token_ids : list (string * list Z);
  new_block_ids : list (option (list (list Z)));
  cr_num_computed_tokens : list Z;
  cr_num_output_tokens : list Z;
}.

Record SchedulerOutput := {
  so_scheduled_new_reqs : list NewRequestData;
  so_scheduled_cached_reqs : CachedRequestData;
  so_num_scheduled_tokens : list (string * Z);
  total_num_scheduled_tokens : Z;
  so_scheduled_spec_decode_tokens : list (string * list Z);
  so_scheduled_encoder_inputs : list (string * list Z);
  num_common_prefix_blocks : list Z;
  so_finished_req_ids : gset string;
  free_encoder_mm_hashes : list string;
  preempted_req_ids : gset string;
  has_structured_output_requests : bool;
  pending_structured_output_tokens : bool;
  num_invalid_spec_tokens : option (list (string * Z));
  new_block_ids_to_zero : option (list Z);
}.

(** The local variables of [schedule]. *)
Record Step := {
  scheduled_new_reqs : list string;
  scheduled_resumed_reqs : list string;
  scheduled_running_reqs : list string;
  preempted_reqs : list string;
  req_to_new_blocks : list (string * KVCacheBlocks);
  num_scheduled_tokens : list (string * Z);
  token_budget : Z;
  scheduled_encoder_inputs : list (string * list Z);
  encoder_compute_budget : Z;
  scheduled_spec_decode_tokens : list (string * list Z);
  req_index : Z;
  scheduled_loras : gset Z;
  step_skipped_waiting : RequestQueue;
}.

(** *** The model runner's answer and what goes to the clients *)

Record ModelRunnerOutput := {
  req_id_to_index : list (string * Z);
  sampled_token_ids : list (list Z);
  prompt_logprobs : list string;              (** the requests with prompt logprobs *)
  pooler_output : option (list bool);         (** whether there is an output, by index *)
}.

Record EngineCoreOutput := {
  eo_request_id : string;
  eo_new_token_ids : list Z;
  eo_pooling_output : bool;
  eo_finish_reason : option FinishReason;
  eo_stop_reason : option (Z + string);
  eo_num_cached_tokens : Z;
  eo_num_external_computed_tokens : Z;
}.

(** [spec_decode/metrics.py] *)
Record SpecDecodingStats := {
  sd_num_spec_tokens : Z;
  num_drafts : Z;
  num_draft_tokens : Z;
  num_accepted_tokens : Z;
  num_accepted_tokens_per_pos : list Z;
}.

Record SchedulerStats := {
  num_running : Z;
  num_waiting : Z;
  kv_cache_usage : Z * Z;
  encoder_cache_usage : Z * Z;
  ss_prefix_cache_stats : PrefixCacheStats;
  kv_cache_eviction_events : list KVCacheEvictionEvent;
  ss_spec_decoding_stats : option SpecDecodingStats;
}.

Record EngineCoreOutputs := {
  outputs : list EngineCoreOutput;
  finished_requests : option (gset string);
  scheduler_stats : option SchedulerStats;
}.

(** ** Operations *)

Module Sched.

(** [list.remove] *)
Fixpoint remove_one (id : string) (l : list string) : res (list string) :=
  match l with
  | [] => Raise ValueError
  | x :: rest => if String.eqb x id then Ok rest else rest' ← remove_one id rest; Ok (x :: rest')
  end.

(** [utils.remove_all]: with one item, the first occurrence. *)
Definition remove_all (l : list string) (items_to_remove : list string) : list string :=
  match items_to_remove with
  | [] => l
  | [item] => match remove_one item l with Ok l' => l' | Raise _ => l end
  | _ => filter (fun x => x ∉ items_to_remove) l
  end.

Definition is_blocked_waiting_status (s : RequestStatus) : bool :=
  bool_decide (s ∈ [WAITING_FOR_STRUCTURED_OUTPUT_GRAMMAR; WAITING_FOR_REMOTE_KVS; WAITING_FOR_STREAMING_REQ]).

(** [_mamba_block_aligned_split] *)
Definition mamba_block_aligned_split (c : SchedulerConfig) (request : Request)
    (num_new_tokens num_new_local_computed_tokens num_external_computed_tokens : Z) : res Z :=
  if negb (num_external_computed_tokens =? 0) then Raise AssertionError
  else
    let num_computed_tokens :=
      num_computed_tokens request + num_new_local_computed_tokens + num_external_computed_tokens in
    if num_computed_tokens <? Z.max (num_prompt_tokens request) (num_tokens request - 1) then
      let block_size := sc_block_size c in
      if block_size =? 0 then Raise ZeroDivisionError
      else
        let last_cache_position := num_tokens request - num_tokens request mod block_size in
        let last_cache_position :=
          if sc_use_eagle c then Z.max (last_cache_position - block_size) 0 else last_cache_position in
        let num_computed_tokens_after_sched := num_computed_tokens + num_new_tokens in
        if num_computed_tokens_after_sched <? last_cache_position then
          Ok (num_new_tokens / block_size * block_size)
        else if (num_computed_tokens <? last_cache_position)
             && (last_cache_position <? num_computed_tokens_after_sched) then
          Ok (last_cache_position - num_computed_tokens)
        else Ok num_new_tokens
    else Ok num_new_tokens.

Section sched.
Context {K C : Type} `{KVCacheOps K} `{EncoderCacheOps C}.
Context (hash_function : bytes * list Z * option (list extra_key) -> bytes).
Context (sha256 : bytes -> bytes) (NONE_HASH : bytes).
(** How Python iterates over a set of input ids; the encoder-cache connector. *)
Context (order : list Z -> list Z) (ec_connector : option (string -> bool)).

Abbreviation S := (Scheduler K C).
Abbreviation SM := (M S).
Abbreviation XM := (M (S * Step)).

Definition init (c : SchedulerConfig) (include_finished_set : bool) (kv : K) (enc : C) : S :=
  {| config := c; requests := []; waiting := Queue.create_request_queue (policy c);
     skipped_waiting := Queue.create_request_queue (policy c); running := []; finished_req_ids := ∅;
     finished_req_ids_dict := if include_finished_set then Some [] else None; prev_step_scheduled_req_ids := ∅;
     num_waiting_for_streaming_input := 0; kv_cache_manager := kv; encoder_cache_manager := enc;
     pause_state := UNPAUSED |}.

(** *** Access *)

Definition get_request (id : string) : SM Request :=
  s ← gets (fun x => x);
  lift_res (res_of_option KeyError (Dict.get id (requests s))).

(** The object changes wherever it is referred to. *)
Definition put_request (r : Request) : SM unit :=
  modify (fun s => {| s with requests := Dict.set (request_id r) r (requests s) |}).

Definition on_kv {A} : M K A -> SM A := zoom kv_cache_manager (fun k s => {| s with kv_cache_manager := k |}).
Definition on_encoder {A} : M C A -> SM A :=
  zoom encoder_cache_manager (fun c s => {| s with encoder_cache_manager := c |}).

(** A call that also changes the request. *)
Definition on_request {A} (r : Request) (c : M Request A) : SM A := fun s =>
  let '(a, r') := c r in (a, {| s with requests := Dict.set (request_id r') r' (requests s) |}).
Definition on_kv_request {A} (r : Request) (c : M (K * Request) A) : SM A := fun s =>
  let '(a, (k, r')) := c (kv_cache_manager s, r) in
  (a, {| s with kv_cache_manager := k; requests := Dict.set (request_id r') r' (requests s) |}).

Definition with_waiting (f : RequestQueue -> res RequestQueue) : SM unit :=
  s ← gets (fun x => x);
  q ← lift_res (f (waiting s));
  modify (fun s => {| s with waiting := q |}).
Definition with_skipped (f : RequestQueue -> res RequestQueue) : SM unit :=
  s ← gets (fun x => x);
  q ← lift_res (f (skipped_waiting s));
  modify (fun s => {| s with skipped_waiting := q |}).

Definition enqueue_waiting_request (request : Request) : SM unit :=
  if is_blocked_waiting_status (status request)
  then with_skipped (fun q => Queue.add_request q request)
  else with_waiting (fun q => Queue.add_request q request).

(** *** Preemption *)

(** [_preempt_request] *)
Definition preempt_request (id : string) : SM unit :=
  request ← get_request id;
  assert_ (bool_decide (status request = RUNNING)) ;;
  on_kv (kv_free request) ;;
  on_encoder (free_encoder order request) ;;
  let request := {| request with status := PREEMPTED; num_computed_tokens := 0; spec_token_ids := [];
                                 num_preemptions := num_preemptions request + 1 |} in
  put_request request ;;
  with_waiting (fun q => Queue.prepend_request q request).

(** [max(self.running, key=lambda r: (r.priority, r.arrival_time))]: the first
    greatest one. *)
Definition greater_key (a b : Request) : bool :=
  (priority b <? priority a) || ((priority a =? priority b) && (arrival_time b <? arrival_time a)).

Fixpoint max_request (best : Request) (l : list Request) : Request :=
  match l with
  | [] => best
  | r :: rest => max_request (if greater_key r best then r else best) rest
  end.

Definition lowest_priority : SM string :=
  ids ← gets running;
  rs ← mmapM ids get_request;
  match rs with
  | [] => raise ValueError
  | r :: rest => mret (request_id (max_request r rest))
  end.

Definition on_sched {A} : SM A -> XM A := on_fst.
Definition step_vars (f : Step -> Step) : XM unit := on_snd (modify f).

Definition sum_embeds (request : Request) (ids : list Z) : res Z :=
  l ← mapM (get_num_encoder_embeds request) ids; Ok (foldl Z.add 0 l).

(** Taking back what this step scheduled for a request that is preempted. *)
Definition unschedule (id : string) : XM unit :=
  preempted_req ← on_sched (get_request id);
  v ← gets snd;
  left_running ← lift_res (remove_one id (scheduled_running_reqs v));
  n ← lift_res (res_of_option KeyError (Dict.get id (num_scheduled_tokens v)));
  _ ← lift_res (res_of_option KeyError (Dict.get id (req_to_new_blocks v)));
  let preempted_encoder_inputs := default [] (Dict.get id (scheduled_encoder_inputs v)) in
  num_embeds_to_restore ← lift_res (sum_embeds preempted_req preempted_encoder_inputs);
  step_vars (fun v => {| v with
    scheduled_running_reqs := left_running;
    token_budget := token_budget v + n;
    num_scheduled_tokens := Dict.del id (num_scheduled_tokens v);
    req_to_new_blocks := Dict.del id (req_to_new_blocks v);
    scheduled_spec_decode_tokens := Dict.del id (scheduled_spec_decode_tokens v);
    scheduled_encoder_inputs := Dict.del id (scheduled_encoder_inputs v);
    encoder_compute_budget := encoder_compute_budget v + num_embeds_to_restore;
    req_index := req_index v - 1 |}).

(** The choice of the request to preempt, taken out of [running]. *)
Definition take_victim : XM string :=
  s ← gets fst;
  match policy (config s) with
  | PRIORITY =>
      id ← on_sched lowest_priority;
      l ← lift_res (remove_one id (running s));
      on_sched (modify (fun s => {| s with running := l |})) ;;
      v ← gets snd;
      (if decide (id ∈ scheduled_running_reqs v) then unschedule id else mret tt) ;;
      mret id
  | FCFS =>
      id ← lift_res (res_of_option IndexError (last (running s)));
      on_sched (modify (fun s => {| s with running := removelast (running s) |})) ;;
      mret id
  end.

(** The [while True] loop around [allocate_slots]; each turn but the last takes a
    request out of [running], so its length bounds the fuel. *)
Fixpoint allocate_loop (fuel : nat) (id : string) (num_new_tokens : Z) : XM (option KVCacheBlocks) :=
  match fuel with
  | O => raise Diverges
  | Datatypes.S fuel' =>
      request ← on_sched (get_request id);
      s ← gets fst;
      new_blocks ← on_sched (on_kv_request request
        (kv_allocate_slots num_new_tokens 0 None (num_lookahead_tokens (config s)) 0 false 0));
      match new_blocks with
      | Some b => mret (Some b)
      | None =>
          preempted_req ← take_victim;
          on_sched (preempt_request preempted_req) ;;
          step_vars (fun v => {| v with preempted_reqs := preempted_reqs v ++ [preempted_req] |}) ;;
          if String.eqb preempted_req id then mret None else allocate_loop fuel' id num_new_tokens
      end
  end.

(** *** Encoder inputs of one request *)

Definition schedule_encoder (c : SchedulerConfig) (request : Request) (num_computed_tokens num_new_tokens budget : Z)
  : SM (list Z * Z * Z * list Z) :=
  if has_encoder_inputs request then
    on_encoder (EncoderSched.try_schedule_encoder_inputs (sc_is_encoder_decoder c) (sc_disable_chunked_mm_input c)
      ec_connector request num_computed_tokens num_new_tokens budget (if sc_use_eagle c then 1 else 0))
  else mret ([], num_new_tokens, budget, []).

(** The encoder inputs are allocated and recorded; an empty list changes nothing. *)
Definition record_encoder (id : string) (encoder_inputs_to_schedule external_load_encoder_input : list Z)
    (new_encoder_compute_budget : Z) : XM unit :=
  request ← on_sched (get_request id);
  match encoder_inputs_to_schedule with
  | [] => mret tt
  | _ =>
      step_vars (fun v => {| v with scheduled_encoder_inputs := Dict.set id encoder_inputs_to_schedule (scheduled_encoder_inputs v) |}) ;;
      on_sched (on_encoder (mfor encoder_inputs_to_schedule (allocate request))) ;;
      step_vars (fun v => {| v with encoder_compute_budget := new_encoder_compute_budget |})
  end ;;
  on_sched (on_encoder (mfor external_load_encoder_input (allocate request))).

(** *** The RUNNING requests *)

(** The number of tokens before the encoder has its say; [None]: no step is needed. *)
Definition running_num_new_tokens (c : SchedulerConfig) (request : Request) (token_budget : Z) : option Z :=
  if (0 <? num_output_placeholders request)
     && (num_prompt_tokens request + max_tokens request
         <=? num_computed_tokens request + 2 - num_output_placeholders request)
  then None
  else
    let n := num_tokens_with_spec request + num_output_placeholders request - num_computed_tokens request in
    let n := if (0 <? long_prefill_token_threshold c) && (long_prefill_token_threshold c <? n)
             then long_prefill_token_threshold c else n in
    let n := Z.min n token_budget in
    Some (Z.min n (sc_max_model_len c - 1 - num_computed_tokens request)).

(** The draft tokens that fit into the step. *)
Definition scheduled_spec (request : Request) (num_new_tokens : Z) : list Z :=
  let num_scheduled_spec_tokens :=
    num_new_tokens + num_computed_tokens request - num_tokens request - num_output_placeholders request in
  if 0 <? num_scheduled_spec_tokens then py_upto (spec_token_ids request) num_scheduled_spec_tokens else [].

(** After the slots are there. *)
Definition commit_running (id : string) (new_blocks : KVCacheBlocks) (num_new_tokens : Z)
    (encoder_inputs_to_schedule external_load_encoder_input : list Z) (new_encoder_compute_budget : Z) : XM unit :=
  step_vars (fun v => {| v with
    scheduled_running_reqs := scheduled_running_reqs v ++ [id];
    req_to_new_blocks := Dict.set id new_blocks (req_to_new_blocks v);
    num_scheduled_tokens := Dict.set id num_new_tokens (num_scheduled_tokens v);
    token_budget := token_budget v - num_new_tokens;
    req_index := req_index v + 1 |}) ;;
  request ← on_sched (get_request id);
  (if 0 <? zlen (spec_token_ids request) then
     (match scheduled_spec request num_new_tokens with
      | [] => mret tt
      | l => step_vars (fun v => {| v with scheduled_spec_decode_tokens := Dict.set id l (scheduled_spec_decode_tokens v) |})
      end) ;;
     on_sched (put_request {| request with spec_token_ids := [] |})
   else mret tt) ;;
  record_encoder id encoder_inputs_to_schedule external_load_encoder_input new_encoder_compute_budget.

(** One turn of the loop; [false] is [break]. *)
Definition schedule_running_one : XM bool :=
  '(s, v) ← gets (fun x => x);
  id ← lift_res (py_get (running s) (req_index v));
  request ← on_sched (get_request id);
  match running_num_new_tokens (config s) request (token_budget v) with
  | None => step_vars (fun v => {| v with req_index := req_index v + 1 |}) ;; mret true
  | Some num_new_tokens =>
      '(inputs, num_new_tokens, budget, external) ←
        on_sched (schedule_encoder (config s) request (num_computed_tokens request) num_new_tokens (encoder_compute_budget v));
      num_new_tokens ←
        (if need_mamba_block_aligned_split (config s)
         then lift_res (mamba_block_aligned_split (config s) request num_new_tokens 0 0) else mret num_new_tokens);
      if num_new_tokens =? 0 then step_vars (fun v => {| v with req_index := req_index v + 1 |}) ;; mret true
      else
        new_blocks ← allocate_loop (length (running s)) id num_new_tokens;
        match new_blocks with
        | None => mret false
        | Some b => commit_running id b num_new_tokens inputs external budget ;; mret true
        end
  end.

Fixpoint running_loop (fuel : nat) : XM unit :=
  '(s, v) ← gets (fun x => x);
  if (req_index v <? zlen (running s)) && (0 <? token_budget v) then
    match fuel with
    | O => raise Diverges
    | Datatypes.S fuel' =>
        continue ← schedule_running_one;
        if continue : bool then running_loop fuel' else mret tt
    end
  else mret tt.

(** *** The WAITING requests *)

Inductive queue_choice := Waiting | Skipped.

Definition chosen (q : queue_choice) (s : S) : RequestQueue :=
  match q with Waiting => waiting s | Skipped => skipped_waiting s end.
Definition set_chosen (q : queue_choice) (l : RequestQueue) (s : S) : S :=
  match q with Waiting => {| s with waiting := l |} | Skipped => {| s with skipped_waiting := l |} end.

(** [_select_waiting_queue_for_scheduling] *)
Definition select_waiting_queue (s : S) : res (option queue_choice) :=
  let either := if Queue.bool_of (waiting s) then Some Waiting
                else if Queue.bool_of (skipped_waiting s) then Some Skipped else None in
  match policy (config s) with
  | FCFS => Ok (if Queue.bool_of (skipped_waiting s) then Some Skipped else either)
  | PRIORITY =>
      if Queue.bool_of (waiting s) && Queue.bool_of (skipped_waiting s) then
        waiting_req ← Queue.peek_request (waiting s);
        skipped_req ← Queue.peek_request (skipped_waiting s);
        Ok (Some (if request_lt waiting_req skipped_req then Waiting else Skipped))
      else Ok either
  end.

Definition pop_chosen (q : queue_choice) : SM Request :=
  s ← gets (fun x => x);
  '(r, l) ← lift_res (Queue.pop_request (chosen q s));
  modify (set_chosen q l) ;;
  mret r.

(** The request is set aside for this step. *)
Definition skip_request (q : queue_choice) (request : Request) : XM unit :=
  on_sched (pop_chosen q) ;;
  v ← gets snd;
  l ← lift_res (Queue.prepend_request (step_skipped_waiting v) request);
  step_vars (fun v => {| v with step_skipped_waiting := l |}).

(** [_try_promote_blocked_waiting_request]; [grammar_ready]: the grammar of a
    structured-output request has been compiled. *)
Definition try_promote (grammar_ready : string -> bool) (request : Request) : SM bool :=
  match status request with
  | WAITING_FOR_REMOTE_KVS => mret false
  | WAITING_FOR_STRUCTURED_OUTPUT_GRAMMAR =>
      if negb (structured_output_request request && grammar_ready (request_id request)) then mret false
      else put_request (set_status WAITING request) ;; mret true
  | WAITING_FOR_STREAMING_REQ =>
      assert_ (zlen (default [] (streaming_queue request)) =? 0) ;; mret false
  | _ => raise AssertionError
  end.

Definition lora_of (request : Request) : option Z := lora_int_id <$> lora_request request.

(** Scheduling the request would exceed [max_loras]. *)
Definition exceeds_loras (c : SchedulerConfig) (scheduled_loras : gset Z) (request : Request) : bool :=
  match max_loras c, lora_of request with
  | Some m, Some i => (Z.of_nat (size scheduled_loras) =? m) && bool_decide (i ∉ scheduled_loras)
  | _, _ => false
  end.

Definition scheduled_lora_set (s : S) (ids : list string) : gset Z :=
  list_to_set (filter (fun i => 0 < i)
    (omap (fun id => Dict.get id (requests s) ≫= lora_of) ids)).

(** Popping the request and making it run. *)
Definition commit_waiting (q : queue_choice) (num_computed : Z) (num_new_tokens : Z)
    (encoder_inputs_to_schedule external_load_encoder_input : list Z) (new_encoder_compute_budget : Z) : XM unit :=
  popped ← on_sched (pop_chosen q);
  let rid := request_id popped in
  request ← on_sched (get_request rid);
  on_sched (modify (fun s => {| s with running := running s ++ [rid] |})) ;;
  match status request with
  | WAITING => step_vars (fun v => {| v with scheduled_new_reqs := scheduled_new_reqs v ++ [rid] |})
  | PREEMPTED => step_vars (fun v => {| v with scheduled_resumed_reqs := scheduled_resumed_reqs v ++ [rid] |})
  | _ => raise RuntimeError
  end ;;
  s ← gets fst;
  match max_loras (config s), lora_of request with
  | Some _, Some i => step_vars (fun v => {| v with scheduled_loras := {[i]} ∪ scheduled_loras v |})
  | _, _ => mret tt
  end ;;
  step_vars (fun v => {| v with
    req_to_new_blocks := Dict.set rid (kv_get_blocks rid (kv_cache_manager s)) (req_to_new_blocks v);
    num_scheduled_tokens := Dict.set rid num_new_tokens (num_scheduled_tokens v);
    token_budget := token_budget v - num_new_tokens |}) ;;
  on_sched (put_request {| request with status := RUNNING; num_computed_tokens := num_computed;
    num_cached_tokens := if num_cached_tokens request <? 0 then num_computed else num_cached_tokens request |}) ;;
  record_encoder rid encoder_inputs_to_schedule external_load_encoder_input new_encoder_compute_budget.

(** The cached prefix of a request that has computed nothing. *)
Definition cached_prefix (request : Request) : SM (KVCacheBlocks * Z * Z) :=
  if num_computed_tokens request =? 0 then
    '(blocks, n) ← on_kv (kv_get_computed_blocks request);
    assert_ (n <=? num_tokens request) ;;
    mret (blocks, n, n)
  else mret (EmptyBlocks, 0, num_computed_tokens request).

(** The cap on the new tokens; [None]: chunked prefill is off and they do not fit. *)
Definition waiting_num_new_tokens (c : SchedulerConfig) (request : Request) (num_computed token_budget : Z) : option Z :=
  let n := num_tokens request - num_computed in
  let threshold := long_prefill_token_threshold c in
  let n := if (0 <? threshold) && (threshold <? n) then threshold else n in
  if negb (enable_chunked_prefill c) && (token_budget <? n) then None else Some (Z.min n token_budget).

(** The request gives back the encoder outputs it touched. *)
Definition untouch_encoder (request : Request) : SM unit :=
  if has_encoder_inputs request then on_encoder (free_encoder order request) else mret tt.

(** Slots for the new tokens; [None]: the request cannot be scheduled. *)
Definition allocate_waiting (request : Request) (num_new_tokens num_local : Z) (blocks : KVCacheBlocks) (inputs : list Z)
  : SM (option KVCacheBlocks) :=
  s ← gets (fun x => x);
  let c := config s in
  let lookahead := if num_computed_tokens request =? 0 then 0 else num_lookahead_tokens c in
  num_encoder_tokens ←
    (if sc_is_encoder_decoder c && has_encoder_inputs request && (0 <? zlen inputs)
     then lift_res (sum_embeds request inputs) else mret 0);
  fits ← (if scheduler_reserve_full_isl c
          then on_kv (kv_can_fit_full_sequence request num_local (Some blocks) 0 num_encoder_tokens) else mret true);
  if negb fits then untouch_encoder request ;; mret None
  else
    new_blocks ← on_kv_request request
      (kv_allocate_slots num_new_tokens num_local (Some blocks) lookahead 0 false num_encoder_tokens);
    match new_blocks with
    | None => untouch_encoder request ;; mret None
    | Some b => mret (Some b)
    end.

(** One turn of the loop; [false] is [break]. *)
Definition schedule_waiting_one (grammar_ready : string -> bool) : XM bool :=
  s ← gets fst;
  choice ← lift_res (select_waiting_queue s);
  match choice with
  | None => raise AssertionError
  | Some q =>
      head ← lift_res (Queue.peek_request (chosen q s));
      request ← on_sched (get_request (request_id head));
      promoted ← (if is_blocked_waiting_status (status request)
                  then on_sched (try_promote grammar_ready request) else mret true);
      if negb promoted then skip_request q request ;; mret true
      else
        request ← on_sched (get_request (request_id head));
        v ← gets snd;
        if exceeds_loras (config s) (scheduled_loras v) request then skip_request q request ;; mret true
        else
          '(blocks, num_local, num_computed) ← on_sched (cached_prefix request);
          match waiting_num_new_tokens (config s) request num_computed (token_budget v) with
          | None => mret false
          | Some num_new_tokens =>
              assert_ (0 <? num_new_tokens) ;;
              '(inputs, num_new_tokens, budget, external) ←
                on_sched (schedule_encoder (config s) request num_computed num_new_tokens (encoder_compute_budget v));
              if has_encoder_inputs request && (num_new_tokens =? 0) then mret false
              else
                num_new_tokens ←
                  (if need_mamba_block_aligned_split (config s)
                   then lift_res (mamba_block_aligned_split (config s) request num_new_tokens num_local 0)
                   else mret num_new_tokens);
                if need_mamba_block_aligned_split (config s) && (num_new_tokens =? 0) then mret false
                else
                  new_blocks ← on_sched (allocate_waiting request num_new_tokens num_local blocks inputs);
                  match new_blocks with
                  | None => mret false
                  | Some _ => commit_waiting q num_computed num_new_tokens inputs external budget ;; mret true
                  end
          end
  end.

(** Each turn takes a request out of one of the two queues or ends the loop. *)
Fixpoint waiting_loop (fuel : nat) (grammar_ready : string -> bool) : XM unit :=
  '(s, v) ← gets (fun x => x);
  if (Queue.bool_of (waiting s) || Queue.bool_of (skipped_waiting s)) && (0 <? token_budget v) then
    if zlen (running s) =? max_num_running_reqs (config s) then mret tt
    else
      match fuel with
      | O => raise Diverges
      | Datatypes.S fuel' =>
          continue ← schedule_waiting_one grammar_ready;
          if continue : bool then waiting_loop fuel' grammar_ready else mret tt
      end
  else mret tt.

Definition schedule_waiting (grammar_ready : string -> bool) : XM unit :=
  s ← gets fst;
  waiting_loop (Z.to_nat (Queue.len (waiting s) + Queue.len (skipped_waiting s))) grammar_ready ;;
  v ← gets snd;
  if Queue.bool_of (step_skipped_waiting v)
  then on_sched (with_skipped (fun q => Queue.prepend_requests q (step_skipped_waiting v)))
  else mret tt.

(** Both phases. *)
Definition schedule_phases (grammar_ready : string -> bool) : XM unit :=
  s ← gets fst;
  running_loop (length (running s)) ;;
  '(s, v) ← gets (fun x => x);
  match max_loras (config s) with
  | None => mret tt
  | Some m =>
      let loras := scheduled_lora_set s (scheduled_running_reqs v) in
      step_vars (fun v => {| v with scheduled_loras := loras |}) ;;
      assert_ (Z.of_nat (size loras) <=? m)
  end ;;
  v ← gets snd;
  if (zlen (preempted_reqs v) =? 0) && bool_decide (pause_state s = UNPAUSED)
  then schedule_waiting grammar_ready else mret tt.

(** *** The output of a step *)

Definition new_request_data (kv : K) (blocks : list (string * KVCacheBlocks)) (with_prefill : bool) (req : Request)
  : res NewRequestData :=
  b ← res_of_option KeyError (Dict.get (request_id req) blocks);
  Ok {| nr_req_id := request_id req; nr_prompt_token_ids := prompt_token_ids req; nr_mm_features := mm_features req;
        nr_sampling_params := sampling_params req; nr_pooling_params := pooling_params req;
        nr_block_ids := kv_block_ids kv b; nr_num_computed_tokens := num_computed_tokens req;
        nr_lora_request := lora_request req; nr_prompt_embeds := prompt_embeds req;
        nr_prefill_token_ids := if with_prefill then Some (all_token_ids req) else None |}.

(** One request of [_make_cached_request_data], added to [d]. *)
Definition add_cached_request (s : S) (v : Step) (d : CachedRequestData) (resumed : bool) (req : Request)
  : res CachedRequestData :=
  let req_id := request_id req in
  token_ids ←
    (if use_pp (config s) && negb (async_scheduling (config s)) then
       n ← res_of_option KeyError (Dict.get req_id (num_scheduled_tokens v));
       let num_tokens := n - zlen (default [] (Dict.get req_id (scheduled_spec_decode_tokens v))) in
       Ok (new_token_ids d ++ [py_slice (all_token_ids req) (num_computed_tokens req) (num_computed_tokens req + num_tokens)])
     else Ok (new_token_ids d));
  let scheduled_in_prev_step := bool_decide (req_id ∈ prev_step_scheduled_req_ids s) in
  if resumed && scheduled_in_prev_step then Raise AssertionError
  else
    b ← res_of_option KeyError (Dict.get req_id (req_to_new_blocks v));
    Ok {| cr_req_ids := cr_req_ids d ++ [req_id];
          resumed_req_ids := if resumed : bool then {[req_id]} ∪ resumed_req_ids d else resumed_req_ids d;
          new_token_ids := token_ids;
          cr_all_token_ids := if scheduled_in_prev_step then cr_all_token_ids d
                              else Dict.set req_id (all_token_ids req) (cr_all_token_ids d);
          new_block_ids := new_block_ids d ++ [kv_block_ids_or_none (kv_cache_manager s) b];
          cr_num_computed_tokens := cr_num_computed_tokens d ++ [num_computed_tokens req];
          cr_num_output_tokens := cr_num_output_tokens d ++ [num_output_tokens req + num_output_placeholders req] |}.

Fixpoint add_cached_requests (s : S) (v : Step) (d : CachedRequestData) (resumed : bool) (l : list Request)
  : res CachedRequestData :=
  match l with
  | [] => Ok d
  | r :: rest => d' ← add_cached_request s v d resumed r; add_cached_requests s v d' resumed rest
  end.

Definition make_cached_request_data (s : S) (v : Step) (running_reqs resumed_reqs : list Request) : res CachedRequestData :=
  d ← add_cached_requests s v
        {| cr_req_ids := []; resumed_req_ids := ∅; new_token_ids := []; cr_all_token_ids := []; new_block_ids := [];
           cr_num_computed_tokens := []; cr_num_output_tokens := [] |} false running_reqs;
  add_cached_requests s v d true resumed_reqs.

Definition total_scheduled (v : Step) : Z := foldl Z.add 0 (num_scheduled_tokens v).*2.

(** The assertions on the scheduling constraints. *)
Definition check_constraints (s : S) (v : Step) : bool :=
  (total_scheduled v <=? max_num_scheduled_tokens (config s))
  && (0 <=? token_budget v) && (zlen (running s) <=? max_num_running_reqs (config s))
  && (zlen (scheduled_new_reqs v) + zlen (scheduled_resumed_reqs v) + zlen (scheduled_running_reqs v) <=? zlen (running s)).

(** From the end of the two phases to the [SchedulerOutput]. *)
Definition make_output (v : Step) : SM SchedulerOutput :=
  s ← gets (fun x => x);
  assert_ (check_constraints s v) ;;
  common ← match running s with
           | [] => mret (replicate (num_kv_cache_groups (config s)) 0)
           | any_request_id :: _ => on_kv (kv_get_num_common_prefix_blocks any_request_id)
           end;
  new ← mmapM (scheduled_new_reqs v) get_request;
  resumed ← mmapM (scheduled_resumed_reqs v) get_request;
  run ← mmapM (scheduled_running_reqs v) get_request;
  let v2 := use_v2_model_runner (config s) in
  let '(new, resumed) := if v2 then (new ++ resumed, []) else (new, resumed) in
  s ← gets (fun x => x);
  new_reqs_data ← lift_res (mapM (new_request_data (kv_cache_manager s) (req_to_new_blocks v) v2) new);
  cached_reqs_data ← lift_res (make_cached_request_data s v run resumed);
  modify (fun s => {| s with prev_step_scheduled_req_ids := list_to_set (num_scheduled_tokens v).*1 |}) ;;
  to_zero ← (if needs_kv_cache_zeroing (config s)
             then l ← on_kv kv_take_new_block_ids; mret (match l with [] => None | _ => Some l end)
             else mret None);
  freed ← on_encoder get_freed_mm_hashes;
  s ← gets (fun x => x);
  mret {| so_scheduled_new_reqs := new_reqs_data; so_scheduled_cached_reqs := cached_reqs_data;
          so_num_scheduled_tokens := num_scheduled_tokens v; total_num_scheduled_tokens := total_scheduled v;
          so_scheduled_spec_decode_tokens := scheduled_spec_decode_tokens v;
          so_scheduled_encoder_inputs := scheduled_encoder_inputs v; num_common_prefix_blocks := common;
          so_finished_req_ids := finished_req_ids s; free_encoder_mm_hashes := freed;
          preempted_req_ids := list_to_set (preempted_reqs v); has_structured_output_requests := false;
          pending_structured_output_tokens := false; num_invalid_spec_tokens := None;
          new_block_ids_to_zero := to_zero |}.

(** [Scheduler._update_after_schedule] for one request. *)
Definition advance_request (entry : string * Z) (out : SchedulerOutput) : SM SchedulerOutput :=
  let '(req_id, num_scheduled_token) := entry in
  request ← get_request req_id;
  let computed := num_computed_tokens request + num_scheduled_token in
  let chunk := computed <? num_tokens request + num_output_placeholders request in
  let request := {| request with num_computed_tokens := computed; is_prefill_chunk := chunk |} in
  put_request request ;;
  s ← gets (fun x => x);
  (if has_encoder_inputs request
   then on_encoder (EncoderSched.free_encoder_inputs (sc_is_encoder_decoder (config s)) order request) else mret tt) ;;
  mret {| out with has_structured_output_requests :=
            has_structured_output_requests out || (use_structured_output request && negb chunk) |}.

(** [AsyncScheduler._update_after_schedule] for one request. *)
Definition add_placeholders (req_id : string) (out : SchedulerOutput) : SM SchedulerOutput :=
  request ← get_request req_id;
  if is_prefill_chunk request then mret out
  else
    s ← gets (fun x => x);
    let pending := use_structured_output request && (0 <? num_output_placeholders request) in
    let cur_num_spec_tokens := zlen (default [] (Dict.get req_id (so_scheduled_spec_decode_tokens out))) in
    put_request {| request with
      num_output_placeholders := num_output_placeholders request + 1 + cur_num_spec_tokens;
      spec_token_ids := replicate (Z.to_nat (num_spec_tokens (config s))) (-1) |} ;;
    mret {| out with pending_structured_output_tokens := pending_structured_output_tokens out || pending |}.

Fixpoint update_each {A} (f : A -> SchedulerOutput -> SM SchedulerOutput) (l : list A) (out : SchedulerOutput) : SM SchedulerOutput :=
  match l with
  | [] => mret out
  | x :: rest => out' ← f x out; update_each f rest out'
  end.

Definition update_after_schedule (out : SchedulerOutput) : SM SchedulerOutput :=
  out ← update_each advance_request (so_num_scheduled_tokens out) out;
  modify (fun s => {| s with finished_req_ids := ∅ |}) ;;
  s ← gets (fun x => x);
  if async_scheduling (config s) then update_each add_placeholders (so_num_scheduled_tokens out).*1 out
  else mret out.

Definition initial_step (s : S) : Step :=
  {| scheduled_new_reqs := []; scheduled_resumed_reqs := []; scheduled_running_reqs := []; preempted_reqs := [];
     req_to_new_blocks := []; num_scheduled_tokens := [];
     token_budget := if bool_decide (pause_state s = PAUSED_ALL) then 0 else max_num_scheduled_tokens (config s);
     scheduled_encoder_inputs := []; encoder_compute_budget := max_num_encoder_input_tokens (config s);
     scheduled_spec_decode_tokens := []; req_index := 0; scheduled_loras := ∅;
     step_skipped_waiting := Queue.create_request_queue (policy (config s)) |}.

(** The phases run on local variables that start as [v0]. *)
Definition with_step (c : XM unit) (v0 : Step) : SM Step := fun s =>
  let '(r, (s', v)) := c (s, v0) in
  (match r with Ok _ => Ok v | Raise e => Raise e end, s').

Definition schedule (grammar_ready : string -> bool) : SM SchedulerOutput :=
  s ← gets (fun x => x);
  on_kv kv_new_step_starts ;;
  v ← with_step (schedule_phases grammar_ready) (initial_step s);
  out ← make_output v;
  update_after_schedule out.

(** [get_grammar_bitmask]: the requests whose rows the bitmask has. *)
Definition structured_output_request_ids (out : SchedulerOutput) (s : S) : list string :=
  if negb (has_structured_output_requests out) then []
  else filter (fun req_id =>
         match Dict.get req_id (requests s) with
         | Some req => use_structured_output req && negb (is_prefill_chunk req)
         | None => false
         end = true) (so_num_scheduled_tokens out).*1.

(** *** Streaming sessions *)

Abbreviation update_hashes := (update_block_hashes hash_function sha256 NONE_HASH).
Abbreviation append_tokens := (append_output_token_ids hash_function sha256 NONE_HASH).

Definition shift_feature (base : Z) (f : MultiModalFeatureSpec) : MultiModalFeatureSpec :=
  {| f with mm_position := {| (mm_position f) with pr_offset := pr_offset (mm_position f) + base |} |}.

(** The part of [_update_request_as_session] before the block hashes. *)
Definition session_tokens (session : Request) (update : StreamingUpdate) : res Request :=
  let n := num_computed_tokens session in
  let kept_output_tokens := py_slice (all_token_ids session) (num_prompt_tokens session) n in
  let all := py_upto (all_token_ids session) n in
  match prompt_token_ids session with
  | None => Raise AssertionError
  | Some prompt =>
      let new := default [] (su_prompt_token_ids update) in
      Ok {| session with output_token_ids := [];
              mm_features := mm_features session ++ (shift_feature (zlen all) <$> default [] (su_mm_features update));
              all_token_ids := all ++ new; prompt_token_ids := Some (prompt ++ kept_output_tokens ++ new) |}
  end.

(** The rest, but for the counter of waiting sessions. *)
Definition session_update (session : Request) (update : StreamingUpdate) : res Request :=
  session ← session_tokens session update;
  match update_hashes session with
  | (Raise e, _) => Raise e
  | (Ok _, session) =>
      Ok {| session with num_prompt_tokens := zlen (default [] (prompt_token_ids session));
                         arrival_time := su_arrival_time update; sampling_params := su_sampling_params update;
                         status := WAITING |}
  end.

(** The same objects seen through the queues: the keys of a queued request change
    with the request, its place does not. *)
Definition same_object (r x : Request) : Request := if oid x =? oid r then r else x.
Definition refresh (r : Request) (q : RequestQueue) : RequestQueue :=
  match q with
  | FCFSRequestQueue l => FCFSRequestQueue (same_object r <$> l)
  | PriorityRequestQueue l => PriorityRequestQueue (same_object r <$> l)
  end.

Definition update_request_as_session (session : Request) (update : StreamingUpdate) : SM Request :=
  session' ← lift_res (session_update session update);
  (if bool_decide (status session = WAITING_FOR_STREAMING_REQ)
   then modify (fun s => {| s with num_waiting_for_streaming_input := num_waiting_for_streaming_input s - 1 |})
   else mret tt) ;;
  put_request session' ;;
  modify (fun s => {| s with waiting := refresh session' (waiting s); skipped_waiting := refresh session' (skipped_waiting s) |}) ;;
  mret session'.

(** [_handle_stopped_request]: whether the request is finished. *)
Definition handle_stopped_request (request : Request) : SM bool :=
  if negb (resumable request) then mret true
  else
    match streaming_queue request with
    | Some (None :: rest) =>
        put_request {| request with streaming_queue := Some rest |} ;; mret true
    | Some (Some update :: rest) =>
        request ← update_request_as_session {| request with streaming_queue := Some rest |} update;
        enqueue_waiting_request request ;;
        mret false
    | _ =>
        let request := {| request with status := WAITING_FOR_STREAMING_REQ |} in
        put_request request ;;
        modify (fun s => {| s with num_waiting_for_streaming_input := num_waiting_for_streaming_input s + 1 |}) ;;
        enqueue_waiting_request request ;;
        mret false
    end.

(** *** Finishing *)

(** [_free_blocks] *)
Definition free_blocks (request : Request) : SM unit :=
  assert_ (is_finished request) ;;
  on_kv (kv_free request) ;;
  s ← gets (fun x => x);
  (if Dict.mem (request_id request) (requests s) then mret tt else raise KeyError) ;;
  modify (fun s => {| s with requests := Dict.del (request_id request) (requests s) |}).

(** [_free_request]; without a connector the blocks are freed at once. *)
Definition free_request (request : Request) : SM unit :=
  assert_ (is_finished request) ;;
  on_encoder (free_encoder order request) ;;
  let rid := request_id request in
  modify (fun s => {| s with
    finished_req_ids := {[rid]} ∪ finished_req_ids s;
    finished_req_ids_dict :=
      match finished_req_ids_dict s with
      | None => None
      | Some d => Some (Dict.set (client_index request) ({[rid]} ∪ default ∅ (Dict.get (client_index request) d)) d)
      end |}) ;;
  free_blocks request.

(** The live ones among the given ids. *)
Definition valid_requests (s : S) (ids : list string) : list Request :=
  filter (fun r => is_finished r = false) (omap (fun id => Dict.get id (requests s)) ids).

Definition finish_one (finished_status : RequestStatus) (request : Request) : SM unit :=
  let request := set_status finished_status request in
  put_request request ;;
  free_request request.

(** [finish_requests]; [None]: all requests.  A set of ids comes as the list in
    which Python iterates over it. *)
Definition finish_requests (request_ids : option (list string)) (finished_status : RequestStatus) : SM (list (string * Z)) :=
  assert_ (status_is_finished finished_status) ;;
  s ← gets (fun x => x);
  let valid := valid_requests s (default (Dict.keys (requests s)) request_ids) in
  let run := filter (fun r => status r = RUNNING) valid in
  let wait := filter (fun r => status r ≠ RUNNING) valid in
  modify (fun s => {| s with
    num_waiting_for_streaming_input := num_waiting_for_streaming_input s
      - zlen (filter (fun r => status r = WAITING_FOR_STREAMING_REQ) wait);
    running := remove_all (running s) (request_id <$> run) |}) ;;
  (match wait with
   | [] => mret tt
   | _ => with_waiting (fun q => Queue.remove_requests q wait) ;; with_skipped (fun q => Queue.remove_requests q wait)
   end) ;;
  mfor valid (finish_one finished_status) ;;
  mret ((fun r => (request_id r, client_index r)) <$> valid).

(** [add_request] *)
Definition add_request (request : Request) : SM unit :=
  s ← gets (fun x => x);
  match Dict.get (request_id request) (requests s) with
  | Some existing =>
      let update := streaming_update_from_request request in
      if negb (bool_decide (status existing = WAITING_FOR_STREAMING_REQ)) then
        match streaming_queue existing with
        | None => raise AssertionError
        | Some q => put_request {| existing with streaming_queue := Some (q ++ [update]) |}
        end
      else
        match update with
        | Some u => update_request_as_session existing u ;; mret tt
        | None => finish_requests (Some [request_id request]) FINISHED_ABORTED ;; mret tt
        end
  | None =>
      let request := if resumable request then {| request with streaming_queue := Some [] |} else request in
      enqueue_waiting_request request ;;
      put_request request
  end.

(** *** The results of a step *)

(** The loop of [Scheduler._update_request_with_output]: the tokens that are kept,
    and whether the request stopped. *)
Fixpoint append_until_stop (max_model_len : Z) (new_token_ids : list Z) : M Request (list Z * bool) :=
  match new_token_ids with
  | [] => mret ([], false)
  | output_token_id :: rest =>
      append_tokens [output_token_id] ;;
      stopped ← check_stop max_model_len;
      if stopped : bool then mret ([output_token_id], true)
      else
        '(l, stopped) ← append_until_stop max_model_len rest;
        mret (output_token_id :: l, stopped)
  end.

(** [_update_request_with_output], with its override in the asynchronous scheduler. *)
Definition update_request_with_output (request : Request) (new_token_ids : list Z) : SM (list Z * bool) :=
  s ← gets (fun x => x);
  let base := on_request request (append_until_stop (sc_max_model_len (config s)) new_token_ids) in
  if negb (async_scheduling (config s)) then base
  else if discard_latest_async_tokens request then
    put_request {| request with discard_latest_async_tokens := false |} ;; mret ([], false)
  else
    '(l, stopped) ← base;
    r ← get_request (request_id request);
    let r := {| r with num_output_placeholders := num_output_placeholders r - zlen l |} in
    put_request r ;;
    assert_ (0 <=? num_output_placeholders r) ;;
    (if bool_decide (status request = RUNNING)
     then on_kv_request r (kv_cache_blocks (num_computed_tokens r - num_output_placeholders r))
     else mret tt) ;;
    mret (l, stopped).

(** [observe_draft] *)
Fixpoint count_positions (n : nat) (l : list Z) : res (list Z) :=
  match n, l with
  | O, _ => Ok l
  | Datatypes.S _, [] => Raise IndexError
  | Datatypes.S n', x :: rest => rest' ← count_positions n' rest; Ok (x + 1 :: rest')
  end.

Definition observe_draft (drafted accepted : Z) (d : SpecDecodingStats) : res SpecDecodingStats :=
  if sd_num_spec_tokens d <? accepted then Raise AssertionError
  else
    l ← count_positions (Z.to_nat accepted) (num_accepted_tokens_per_pos d);
    Ok {| d with num_drafts := num_drafts d + 1; num_draft_tokens := num_draft_tokens d + drafted;
                 num_accepted_tokens := num_accepted_tokens d + accepted; num_accepted_tokens_per_pos := l |}.

(** [make_spec_decoding_stats] *)
Definition make_spec_decoding_stats (c : SchedulerConfig) (stats : option SpecDecodingStats) (drafted accepted : Z)
    (invalid : option (list (string * Z))) (request_id : string) : res (option SpecDecodingStats) :=
  if negb (sc_log_stats c) || (drafted =? 0) then Ok None
  else
    let d := default {| sd_num_spec_tokens := num_spec_tokens c; num_drafts := 0; num_draft_tokens := 0;
                        num_accepted_tokens := 0;
                        num_accepted_tokens_per_pos := replicate (Z.to_nat (num_spec_tokens c)) 0 |} stats in
    let drafted := drafted - default 0 (Dict.get request_id (default [] invalid)) in
    d' ← observe_draft drafted accepted d; Ok (Some d').

(** The correction of the counters after draft tokens were rejected. *)
Definition reject_drafts (request : Request) (num_rejected : Z) : Request :=
  {| request with
     num_computed_tokens := if 0 <? num_computed_tokens request
                            then num_computed_tokens request - num_rejected else num_computed_tokens request;
     num_output_placeholders := if 0 <? num_output_placeholders request
                                then num_output_placeholders request - num_rejected else num_output_placeholders request |}.

(** What the loop of [update_from_output] accumulates. *)
Record Results := {
  client_outputs : list (Z * list EngineCoreOutput);
  spec_decoding_stats : option SpecDecodingStats;
  stopped_running_reqs : list string;
  stopped_preempted_reqs : list Request;
}.

Definition add_output (client_index : Z) (o : EngineCoreOutput) (d : list (Z * list EngineCoreOutput)) :=
  Dict.set client_index (default [] (Dict.get client_index d) ++ [o]) d.

(** The accounting of draft tokens at the start of a turn. *)
Definition account_drafts (out : SchedulerOutput) (request : Request) (generated : list Z) (a : Results) : SM (Request * Results) :=
  s ← gets (fun x => x);
  let rid := request_id request in
  let spec := default [] (Dict.get rid (so_scheduled_spec_decode_tokens out)) in
  if (0 <? zlen spec) && (0 <? zlen generated) then
    let num_draft_tokens := zlen spec in
    let num_accepted := zlen generated - 1 in
    let request := reject_drafts request (num_draft_tokens - num_accepted) in
    put_request request ;;
    stats ← lift_res (make_spec_decoding_stats (config s) (spec_decoding_stats a) num_draft_tokens num_accepted
                        (num_invalid_spec_tokens out) rid);
    mret (request, {| a with spec_decoding_stats := stats |})
  else mret (request, a).

(** The new tokens or the pooling output; whether the request stopped. *)
Definition take_output (request : Request) (generated : list Z) (pooled : bool) : SM (list Z * bool) :=
  match generated with
  | _ :: _ => update_request_with_output request generated
  | [] =>
      if bool_decide (is_Some (pooling_params request)) && pooled
      then put_request (set_status FINISHED_STOPPED request) ;; mret ([], true)
      else mret ([], false)
  end.

(** A request that stopped: its last status, its reason, and the queue it leaves. *)
Definition after_stop (request : Request) (status_before_stop : RequestStatus) (a : Results)
  : SM (option FinishReason * Request * Results) :=
  let reason := get_finished_reason request in
  finished ← handle_stopped_request request;
  (if finished : bool then free_request request else mret tt) ;;
  s ← gets (fun x => x);
  (** a freed request is no longer in the dictionary, but it is still the object *)
  let now := default request (Dict.get (request_id request) (requests s)) in
  mret (reason, now,
        if bool_decide (status_before_stop = RUNNING)
        then {| a with stopped_running_reqs := stopped_running_reqs a ++ [request_id request] |}
        else {| a with stopped_preempted_reqs := stopped_preempted_reqs a ++ [now] |}).

(** One turn of the loop over [num_scheduled_tokens]. *)
Definition update_one (out : SchedulerOutput) (mo : ModelRunnerOutput) (a : Results) (entry : string * Z) : SM Results :=
  let '(req_id, num_tokens_scheduled) := entry in
  assert_ (0 <? num_tokens_scheduled) ;;
  s ← gets (fun x => x);
  match Dict.get req_id (requests s) with
  | None => mret a
  | Some request =>
      if is_finished request then mret a
      else
        req_index ← lift_res (res_of_option KeyError (Dict.get req_id (req_id_to_index mo)));
        generated ← (match sampled_token_ids mo with [] => mret [] | l => lift_res (py_get l req_index) end);
        pooled ← (match pooler_output mo with
                  | None | Some [] => mret false
                  | Some l => lift_res (py_get l req_index)
                  end);
        '(request, a) ← account_drafts out request generated a;
        '(new_tokens, stopped) ← take_output request generated pooled;
        s ← gets (fun x => x);
        let before := status request in
        request ← get_request req_id;
        '(reason, request, a) ← (if stopped : bool then after_stop request before a else mret (None, request, a));
        if (0 <? zlen new_tokens) || pooled || stopped then
          mret {| a with client_outputs := add_output (client_index request)
            {| eo_request_id := req_id; eo_new_token_ids := new_tokens; eo_pooling_output := pooled;
               eo_finish_reason := reason; eo_stop_reason := stop_reason request;
               eo_num_cached_tokens := num_cached_tokens request;
               eo_num_external_computed_tokens := num_external_computed_tokens request |} (client_outputs a) |}
        else
          assert_ (bool_decide (req_id ∉ prompt_logprobs mo)) ;;
          mret a
  end.

Fixpoint update_loop (out : SchedulerOutput) (mo : ModelRunnerOutput) (a : Results) (l : list (string * Z)) : SM Results :=
  match l with
  | [] => mret a
  | e :: rest => a' ← update_one out mo a e; update_loop out mo a' rest
  end.

(** The stopped requests leave the queues they were in. *)
Definition remove_stopped (a : Results) : SM unit :=
  (match stopped_running_reqs a with
   | [] => mret tt
   | l => modify (fun s => {| s with running := remove_all (running s) l |})
   end) ;;
  match stopped_preempted_reqs a with
  | [] => mret tt
  | l => with_waiting (fun q => Queue.remove_requests q l)
  end.

(** [make_stats] *)
Definition make_stats (spec : option SpecDecodingStats) : SM (option SchedulerStats) :=
  s ← gets (fun x => x);
  if negb (sc_log_stats (config s)) then mret None
  else
    o ← on_kv kv_make_prefix_cache_stats;
    match o with
    | None => raise AssertionError
    | Some prefix =>
        evictions ← on_kv kv_drain_eviction_events;
        let '(used, cache_size) := encoder_usage (encoder_cache_manager s) in
        mret (Some {| num_running := zlen (running s);
                      num_waiting := Queue.len (waiting s) + Queue.len (skipped_waiting s);
                      kv_cache_usage := kv_usage (kv_cache_manager s);
                      encoder_cache_usage := if cache_size =? 0 then (0, 1) else (used, cache_size);
                      ss_prefix_cache_stats := prefix; kv_cache_eviction_events := evictions;
                      ss_spec_decoding_stats := spec |})
    end.

Definition only_outputs (l : list EngineCoreOutput) : EngineCoreOutputs :=
  {| outputs := l; finished_requests := None; scheduler_stats := None |}.

(** The ids finished since the last call are attached to their clients. *)
Definition add_finished (d : list (Z * EngineCoreOutputs)) (entry : Z * gset string) : list (Z * EngineCoreOutputs) :=
  let '(client, ids) := entry in
  let o := default (only_outputs []) (Dict.get client d) in
  Dict.set client {| o with finished_requests := Some ids |} d.

(** The statistics go to the first client, or to client 0. *)
Definition add_stats (stats : option SchedulerStats) (d : list (Z * EngineCoreOutputs)) : list (Z * EngineCoreOutputs) :=
  match stats, d with
  | None, _ => d
  | Some _, [] => [(0, {| (only_outputs []) with scheduler_stats := stats |})]
  | Some _, (client, o) :: rest => (client, {| o with scheduler_stats := stats |}) :: rest
  end.

(** [update_from_output]: the outputs by client, and the cache events to publish. *)
Definition update_from_output (out : SchedulerOutput) (mo : ModelRunnerOutput)
  : SM (list (Z * EngineCoreOutputs) * list KVCacheEvent) :=
  a ← update_loop out mo {| client_outputs := []; spec_decoding_stats := None; stopped_running_reqs := [];
                            stopped_preempted_reqs := [] |} (so_num_scheduled_tokens out);
  remove_stopped a ;;
  events ← on_kv kv_take_events;
  s ← gets (fun x => x);
  let d := (fun e => (e.1, only_outputs e.2)) <$> client_outputs a in
  let d := foldl add_finished d (default [] (finished_req_ids_dict s)) in
  modify (fun s => {| s with finished_req_ids_dict := (fun _ => []) <$> finished_req_ids_dict s |}) ;;
  stats ← make_stats (spec_decoding_stats a);
  mret (add_stats stats d, events).

(** *** Draft tokens *)

(** [structured_output_manager.should_advance] and [grammar.validate_tokens]. *)
Definition validated (should_advance : Request -> bool) (validate_tokens : Request -> list Z -> list Z)
    (request : Request) (tokens : list Z) : list Z :=
  if should_advance request then validate_tokens request tokens else tokens.

(** [update_draft_token_ids] for one request. *)
Definition update_draft (should_advance : Request -> bool) (validate_tokens : Request -> list Z -> list Z)
    (entry : string * list Z) : SM unit :=
  s ← gets (fun x => x);
  match Dict.get entry.1 (requests s) with
  | None => mret tt
  | Some request =>
      if is_finished request then mret tt
      else if is_prefill_chunk request then put_request {| request with spec_token_ids := [] |}
      else put_request {| request with spec_token_ids := validated should_advance validate_tokens request entry.2 |}
  end.

Definition update_draft_token_ids (should_advance : Request -> bool) (validate_tokens : Request -> list Z -> list Z)
    (draft : list (string * list Z)) : SM unit :=
  mfor draft (update_draft should_advance validate_tokens).

(** [update_draft_token_ids_in_output]: [acc] is the pair of the scheduled draft
    tokens and the invalid counts. *)
Definition update_draft_in_output (should_advance : Request -> bool) (validate_tokens : Request -> list Z -> list Z) (s : S)
    (acc : list (string * list Z) * list (string * Z)) (entry : string * list Z) : list (string * list Z) * list (string * Z) :=
  let '(req_id, tokens) := entry in
  match Dict.get req_id (requests s) with
  | None => acc
  | Some request =>
      if is_finished request then acc
      else
        match Dict.get req_id acc.1 with
        | None | Some [] => acc
        | Some placeholder =>
            let tokens := validated should_advance validate_tokens request (py_upto tokens (zlen placeholder)) in
            let num_invalid_tokens := zlen placeholder - zlen tokens in
            (Dict.set req_id (tokens ++ replicate (Z.to_nat num_invalid_tokens) (-1)) acc.1,
             if num_invalid_tokens =? 0 then acc.2 else Dict.set req_id num_invalid_tokens acc.2)
        end
  end.

Definition update_draft_token_ids_in_output (should_advance : Request -> bool) (validate_tokens : Request -> list Z -> list Z)
    (draft : list (string * list Z)) (out : SchedulerOutput) (s : S) : SchedulerOutput :=
  let '(spec, invalid) := foldl (update_draft_in_output should_advance validate_tokens s)
                            (so_scheduled_spec_decode_tokens out, []) draft in
  {| out with so_scheduled_spec_decode_tokens := spec; num_invalid_spec_tokens := Some invalid |}.

(** *** Other requests to the scheduler *)

Definition get_request_counts (s : S) : Z * Z :=
  (zlen (running s), Queue.len (waiting s) + Queue.len (skipped_waiting s)).

Definition set_pause_state (p : PauseState) : SM unit := modify (fun s => {| s with pause_state := p |}).

Definition get_num_unfinished_requests (s : S) : Z :=
  match pause_state s with
  | PAUSED_ALL => 0
  | PAUSED_NEW => zlen (running s)
  | UNPAUSED =>
      Queue.len (waiting s) + Queue.len (skipped_waiting s) - num_waiting_for_streaming_input s + zlen (running s)
  end.

Definition has_unfinished_requests (s : S) : bool := 0 <? get_num_unfinished_requests s.
Definition has_finished_requests (s : S) : bool := bool_decide (finished_req_ids s ≠ ∅).
Definition has_requests (s : S) : bool := has_unfinished_requests s || has_finished_requests s.

(** The [while self.running] loop of [reset_prefix_cache], last request first. *)
Fixpoint preempt_all (fuel : nat) : SM unit :=
  ids ← gets running;
  match last ids with
  | None => mret tt
  | Some id =>
      match fuel with
      | O => raise Diverges
      | Datatypes.S fuel' =>
          modify (fun s => {| s with running := removelast (running s) |}) ;;
          preempt_request id ;;
          request ← get_request id;
          put_request {| request with num_output_placeholders := 0; discard_latest_async_tokens := true |} ;;
          preempt_all fuel'
      end
  end.

(** [reset_prefix_cache] without a connector. *)
Definition reset_prefix_cache (reset_running_requests reset_connector : bool) : SM bool :=
  (if reset_running_requests then
     ids ← gets running;
     preempt_all (length ids) ;;
     modify (fun s => {| s with prev_step_scheduled_req_ids := ∅ |})
   else mret tt) ;;
  ok ← on_kv kv_reset_prefix_cache;
  if reset_running_requests && negb ok then raise RuntimeError
  else mret (if reset_connector then false else ok).

Definition reset_encoder_cache : SM unit := on_encoder reset_encoder.

End sched.
End Sched.
