(* ===== verification/SchedContract.v ===== *)
(** What the scheduler relies on: the promises of the KV cache and of the encoder
    cache as classes of laws, and the request queues seen as sets of objects. *)

From S2P Require Import Prelude FreeQueue Request Hashing Metrics BlockPool KVSpec SingleType Coordinator KVManager EncoderCache Heap ReqQueue Scheduler.
Local Open Scope Z_scope.

(** ** The KV cache *)

(** The hash list covers the full blocks of the tokens. *)
Definition hashes_complete (r : Request) : Prop :=
  match block_hasher r with
  | None => True
  | Some bs => 0 < bs /\ zlen (block_hashes r) = num_tokens r / bs
  end.

Class KVLaws (K : Type) `{KVCacheOps K} := {
  kv_ok : K -> Prop;
  kv_max_len : K -> Z;
  (** which block hasher the requests must have *)
  kv_hasher : K -> option Z -> Prop;
  (** [rid] holds nothing *)
  kv_idle : K -> string -> Prop;
  (** [rid] may go on from [t] computed tokens *)
  kv_holds : K -> string -> Z -> Prop;
  (** the cached prefix [b] of [n] tokens may be adopted by [rid] *)
  kv_hit : K -> string -> KVCacheBlocks -> Z -> Prop;

  (** a call that concerns [rid] leaves the others alone *)
  kv_frame (rid : option string) (k k' : K) : Prop :=
    kv_max_len k' = kv_max_len k /\ (forall h, kv_hasher k h -> kv_hasher k' h)
    /\ (forall rid', Some rid' <> rid -> kv_idle k rid' -> kv_idle k' rid')
    /\ (forall rid' t, Some rid' <> rid -> kv_holds k rid' t -> kv_holds k' rid' t);

  kv_hashed (k : K) (r : Request) : Prop := kv_hasher k (block_hasher r) /\ hashes_complete r;

  law_holds_less k rid t t' : kv_ok k -> kv_holds k rid t -> 0 <= t' <= t -> kv_holds k rid t';
  law_new_step k : kv_ok k -> exists k', kv_new_step_starts k = (Ok tt, k') /\ kv_ok k' /\ kv_frame None k k';
  law_lookup k r : kv_ok k -> kv_idle k (request_id r) -> kv_hashed k r -> 0 < num_tokens r ->
    exists b n k', kv_get_computed_blocks r k = (Ok (b, n), k') /\ kv_ok k' /\ kv_frame None k k'
      /\ 0 <= n < num_tokens r /\ kv_hit k' (request_id r) b n;
  law_fit k r b n enc : kv_ok k -> kv_hit k (request_id r) b n -> num_computed_tokens r = 0 ->
    exists o, kv_can_fit_full_sequence r n (Some b) 0 enc k = (Ok o, k);
  law_allocate_new k r b n new enc : kv_ok k -> kv_hit k (request_id r) b n -> kv_idle k (request_id r) -> kv_hashed k r ->
    num_computed_tokens r = 0 -> 0 <= n -> 0 < new -> n + new <= kv_max_len k ->
    exists o k' r', kv_allocate_slots new n (Some b) 0 0 false enc (k, r) = (Ok o, (k', r'))
      /\ kv_ok k' /\ kv_frame (Some (request_id r)) k k' /\ same_but_cache r r'
      /\ match o with
         | None => kv_idle k' (request_id r)
         | Some _ => forall t, n <= t <= n + new -> kv_holds k' (request_id r) t
         end;
  law_allocate_running k r new lookahead : kv_ok k -> kv_holds k (request_id r) (num_computed_tokens r) -> kv_hashed k r ->
    0 <= num_computed_tokens r -> 0 < new -> 0 <= lookahead -> num_computed_tokens r + new <= kv_max_len k ->
    exists o k' r', kv_allocate_slots new 0 None lookahead 0 false 0 (k, r) = (Ok o, (k', r'))
      /\ kv_ok k' /\ kv_frame (Some (request_id r)) k k' /\ same_but_cache r r'
      /\ match o with
         | None => kv_holds k' (request_id r) (num_computed_tokens r)
         | Some _ => forall t, num_computed_tokens r <= t <= num_computed_tokens r + new -> kv_holds k' (request_id r) t
         end;
  law_free k r : kv_ok k -> exists k', kv_free r k = (Ok tt, k') /\ kv_ok k' /\ kv_frame (Some (request_id r)) k k'
    /\ kv_idle k' (request_id r);
  law_common k rid t : kv_ok k -> kv_holds k rid t -> exists l, kv_get_num_common_prefix_blocks rid k = (Ok l, k);
  law_take_new k : kv_ok k -> exists l k', kv_take_new_block_ids k = (Ok l, k') /\ kv_ok k' /\ kv_frame None k k';
  law_take_events k : kv_ok k -> exists l k', kv_take_events k = (Ok l, k') /\ kv_ok k' /\ kv_frame None k k';
}.

(** ** The encoder cache, for requests without multimodal inputs *)

Class EncoderLaws (C : Type) `{EncoderCacheOps C} := {
  law_free_text r order c : mm_features r = [] -> order [] = [] -> free_encoder order r c = (Ok tt, c);
  law_freed c : exists l c', get_freed_mm_hashes c = (Ok l, c');
}.

#[export] Instance encoder_laws : EncoderLaws EncoderCacheManager.
Proof.
  split.
  - intros r order c Hr Ho. cbn. unfold Encoder.free. msteps. unfold Encoder.get_cached_input_ids. rewrite Hr.
    change (zlen []) with 0. rewrite py_range_nil by lia. cbn [filter list_filter]. by rewrite Ho.
  - intros c. by eexists _, _.
Qed.

#[export] Instance encoder_decoder_laws : EncoderLaws EncoderDecoderCacheManager.
Proof.
  split; [|intros c; by eexists _, _]. intros r order c Hr _. cbn. unfold EncoderDecoder.free. by rewrite Hr.
Qed.

(** ** Queues as sets of objects *)

Module QueueSets.
Import Queue.

Abbreviation oids q := (oid <$> elements q).

Lemma add_elements q r : queue_ok q -> oid r ∉ oids q ->
  exists q', add_request q r = Ok q' /\ queue_ok q' /\ elements q' ≡ₚ r :: elements q.
Proof.
  intros Hok Hr. destruct (iter_ok q Hok) as (l & _ & Hs & HP).
  destruct (add_served q r l Hok Hs) as (q' & l' & R1 & Hok' & R2 & H); [by rewrite HP|]. exists q'. split; [done|]. split; [done|].
  destruct (iter_ok q' Hok') as (l2 & R3 & _ & HP2). rewrite R2 in R3. injection R3 as <-. rewrite <- HP2, <- HP.
  destruct q; [by rewrite H, Permutation_app_comm|by destruct H as [? _]].
Qed.

Lemma prepend_elements q r : queue_ok q -> oid r ∉ oids q ->
  exists q', prepend_request q r = Ok q' /\ queue_ok q' /\ elements q' ≡ₚ r :: elements q.
Proof.
  intros Hok Hr. destruct q as [d|h]; [|by apply add_elements]. exists (FCFSRequestQueue (r :: d)). split; [done|]. split; [|done].
  apply deque_queue_ok. rewrite fmap_cons. apply NoDup_cons. split; [done|]. by destruct Hok as (_ & ? & _).
Qed.

Lemma pop_elements q : queue_ok q -> elements q <> [] ->
  exists r q', peek_request q = Ok r /\ pop_request q = Ok (r, q') /\ queue_ok q' /\ elements q ≡ₚ r :: elements q'.
Proof.
  intros Hok Hne. destruct (iter_ok q Hok) as (l & _ & Hs & HP). destruct l as [|r l].
  { by apply Permutation_nil_l in HP. }
  destruct (pop_served q r l Hok Hs) as (R1 & q' & R2 & Hok' & R3). exists r, q'. do 3 (split; [done|]).
  destruct (iter_ok q' Hok') as (l2 & R4 & _ & HP2). rewrite R3 in R4. injection R4 as <-. by rewrite <- HP, HP2.
Qed.

Lemma add_requests_elements l : forall q, queue_ok q -> NoDup (oid <$> l) -> (forall r, r ∈ l -> oid r ∉ oids q) ->
  exists q', add_requests q l = Ok q' /\ queue_ok q' /\ elements q' ≡ₚ l ++ elements q.
Proof.
  induction l as [|r l IH]; intros q Hok Hnd Hnew; [by exists q|]. rewrite fmap_cons, NoDup_cons in Hnd. destruct Hnd as [Hr Hnd].
  destruct (add_elements q r Hok) as (q1 & R1 & Hok1 & HP1); [apply Hnew; by left|]. cbn [add_requests]. rewrite R1. cbn [mbind res_bind].
  destruct (IH q1 Hok1 Hnd) as (q2 & R2 & Hok2 & HP2).
  { intros x Hx. rewrite HP1, fmap_cons, not_elem_of_cons. split; [|apply Hnew; by right].
    intros He. apply Hr. rewrite <- He. by apply list_elem_of_fmap_2. }
  exists q2. split; [done|]. split; [done|]. rewrite HP2, HP1. by rewrite <- Permutation_middle.
Qed.

Lemma prepend_requests_elements q p : queue_ok q -> queue_ok p -> (forall r, r ∈ elements p -> oid r ∉ oids q) ->
  exists q', prepend_requests q p = Ok q' /\ queue_ok q' /\ elements q' ≡ₚ elements p ++ elements q.
Proof.
  intros Hq Hp Hnew. unfold prepend_requests. destruct (iter_ok p Hp) as (l & R1 & _ & HP). rewrite R1. cbn [mbind res_bind].
  assert (NoDup (oid <$> l)) as Hnd by (rewrite HP; apply Hp).
  destruct q as [d|h].
  - exists (FCFSRequestQueue (reverse l ++ d)). split; [done|]. assert (reverse l ++ d ≡ₚ elements p ++ d) as HP' by (by rewrite reverse_Permutation, HP).
    split; [|exact HP']. apply deque_queue_ok. rewrite HP', <- HP, fmap_app. apply NoDup_app. split; [done|].
    split; [|apply Hq]. intros x Hx. apply list_elem_of_fmap in Hx as (r & -> & Hr). apply Hnew. by rewrite <- HP.
  - destruct (add_requests_elements l (PriorityRequestQueue h) Hq Hnd) as (q' & R2 & Hok' & HP2); [intros r Hr; apply Hnew; by rewrite <- HP|].
    exists q'. do 2 (split; [done|]). by rewrite HP2, HP.
Qed.

Lemma bool_of_spec q : bool_of q = true <-> elements q <> [].
Proof.
  unfold bool_of, len. destruct (elements q) as [|r l]; [by vm_compute|]. rewrite zlen_cons. pose proof (zlen_nonneg l). split; [done|lia].
Qed.

End QueueSets.
