(* ===== verification/SchedKV.v ===== *)
(** The KV cache manager keeps the promises the scheduler relies on, with prefix
    caching off. *)

From S2P Require Import Prelude FreeQueue Request Hashing Metrics BlockPool KVSpec SingleType Group Coordinator CoordFacts KVManager KVFacts KVSession EncoderCache Heap ReqQueue Scheduler SchedContract.
Local Open Scope Z_scope.

Module SchedKV.
Import Pool PoolFacts PoolSession Session Accounting GroupSession Effects CoordSession Coordinator Phases Slots.

(** Every group has blocks for [t] tokens of [rid]. *)
Definition covers (c : Coordinator) (rid : string) (t : Z) : Prop :=
  0 <= t /\ forall i m, managers c !! i = Some m -> cdiv t (mgr_block_size m) <= zlen (Manager.blocks_of rid m).

Definition holds_nothing (c : Coordinator) (rid : string) : Prop :=
  forall i m, managers c !! i = Some m -> Manager.blocks_of rid m = [].

Record plain_kv (s : KVCacheManager) : Prop := {
  pk_coord : exists free, coord_ok (coordinator s) free;
  pk_caching : km_enable_caching s = false;
  pk_class : co_class (coordinator s) = KVCacheCoordinatorNoPrefixCache;
  pk_events : enable_kv_cache_events (co_pool (coordinator s)) = false;
  pk_length : 0 <= max_model_len s;
}.

Section instance.
Context {E : Env}.

Abbreviation with_coord s c := {| (s : KVCacheManager) with coordinator := c |}.

Lemma evolves_back rid c c' i m' : evolves rid c c' -> managers c' !! i = Some m' ->
  exists m, managers c !! i = Some m /\ mgr_config m' = mgr_config m
    /\ forall rid', rid' <> rid -> Manager.blocks_of rid' m' = Manager.blocks_of rid' m.
Proof.
  intros Hev Hi. pose proof (lookup_lt_Some _ _ _ Hi) as Hlt. rewrite (ev_length _ _ _ Hev) in Hlt.
  destruct (lookup_lt_is_Some_2 _ _ Hlt) as [m Hm]. exists m. split; [done|]. by apply (ev_managers _ _ _ Hev i).
Qed.

Lemma evolves_nothing rid c c' rid' : evolves rid c c' -> rid' <> rid -> holds_nothing c rid' -> holds_nothing c' rid'.
Proof. intros Hev Hne Hn i m' Hi. destruct (evolves_back _ _ _ _ _ Hev Hi) as (m & Hm & _ & Hb). rewrite Hb by done. by apply (Hn i). Qed.

Lemma same_size m m' : mgr_config m' = mgr_config m -> mgr_block_size m' = mgr_block_size m.
Proof. unfold mgr_config. by intros [= _ _ -> _ _ _]. Qed.

Lemma evolves_covers rid c c' rid' t : evolves rid c c' -> rid' <> rid -> covers c rid' t -> covers c' rid' t.
Proof.
  intros Hev Hne [Ht Hn]. split; [done|]. intros i m' Hi. destruct (evolves_back _ _ _ _ _ Hev Hi) as (m & Hm & Hcf & Hb).
  rewrite Hb, (same_size _ _ Hcf) by done. by apply (Hn i).
Qed.

Lemma evolves_plain rid s c' free : plain_kv s -> evolves rid (coordinator s) c' -> coord_ok c' free -> plain_kv (with_coord s c').
Proof.
  intros [H1 H2 H3 H4 H5] Hev Hc. split; [by exists free|done| | |done]; cbn.
  - by rewrite (ev_frame _ _ _ Hev).
  - pose proof (ev_pool _ _ _ Hev) as Hp. unfold config in Hp. by injection Hp as _ _ _ _ _ ->.
Qed.

(** A covered request takes no hits and its blocks reach the window. *)
Lemma covers_settled c free rid t i m : coord_ok c free -> covers c rid t -> managers c !! i = Some m -> settled m rid t.
Proof.
  intros Hc [Ht Hcov] Hi. right. destruct (coord_group _ _ i m Hc Hi) as [Hg Hp]. pose proof (g_size _ _ _ _ Hg) as Hbs.
  pose proof (skipped_bounds m t Hp Ht) as Hsk. specialize (Hcov i m Hi). unfold skipped_blocks.
  pose proof (Z.div_le_mono _ t (mgr_block_size m) Hbs ltac:(apply Hsk)). pose proof (div_le_cdiv _ Hbs t). lia.
Qed.

Lemma nothing_covers c free rid : coord_ok c free -> holds_nothing c rid -> covers c rid 0.
Proof.
  intros Hc Hn. split; [done|]. intros i m Hi. destruct (coord_group _ _ i m Hc Hi) as [Hg _]. pose proof (g_size _ _ _ _ Hg) as Hbs.
  rewrite (Hn i m Hi). unfold cdiv. by rewrite Z.div_0_l by lia.
Qed.

Lemma covers_mono c free rid t t' : coord_ok c free -> covers c rid t -> 0 <= t' <= t -> covers c rid t'.
Proof.
  intros Hc [_ Hcov] Ht. split; [lia|]. intros i m Hi. destruct (coord_group _ _ i m Hc Hi) as [Hg _].
  pose proof (cdiv_mono _ (g_size _ _ _ _ Hg) t' t ltac:(lia)). specialize (Hcov i m Hi). lia.
Qed.

(** *** Allocation *)

Lemma allocate_plain_ok s request num_new given lookahead enc rid t : default EmptyBlocks given = EmptyBlocks ->
  request_id request = rid -> num_computed_tokens request = t -> plain_kv s -> covers (coordinator s) rid t -> 0 < num_new -> 0 <= lookahead -> t + num_new <= max_model_len s ->
  exists o s' request', KV.allocate_slots num_new 0 given lookahead 0 false enc (s, request) = (Ok o, (s', request'))
    /\ plain_kv s' /\ same_but_cache request request' /\ s' = with_coord s (coordinator s') /\ evolves rid (coordinator s) (coordinator s')
    /\ match o with
       | None => forall i m, managers (coordinator s) !! i = Some m -> exists m', managers (coordinator s') !! i = Some m'
                   /\ zlen (Manager.blocks_of rid m') = zlen (Manager.blocks_of rid m)
       | Some _ => covers (coordinator s') rid (t + num_new)
       end.
Proof.
  intros Hgiven <- <- Hpk Hcov Hnew Hlook Hmax. destruct (pk_coord _ Hpk) as [free Hc]. set (rid := request_id request) in *. set (t := num_computed_tokens request) in *.
  pose proof (proj1 Hcov) as Ht.
  assert (slots_pre s request num_new (t + 0) lookahead EmptyBlocks false free) as Hpre.
  { rewrite Z.add_0_r. split; try done.
    - intros i m Hi. by eapply covers_settled.
    - rewrite (pk_caching _ Hpk). done. }
  rewrite <- Hgiven in Hpre. destruct (allocate_slots_ok s request num_new 0 given lookahead false enc free Hpre) as (c1 & free1 & R1 & Hc1 & _ & Hno & Hyes).
  rewrite Hgiven, Z.add_0_r in *. set (n := Z.min (t + num_new + lookahead) (max_model_len s)) in *.
  destruct (remove_skipped_phase rid t _ free Hc Ht) as (c1' & free1' & R1' & _ & Hev1 & _ & Hsame1). fold rid t in R1. rewrite R1 in R1'. injection R1' as <-.
  destruct (Z.lt_ge_cases (zlen free1) (required c1 rid n t EmptyBlocks)) as [Hlt|Hge].
  - exists None, (with_coord s c1), request. split; [by apply Hno|]. split; [by eapply evolves_plain|]. split; [apply same_but_cache_refl|].
    split; [done|]. split; [done|]. intros i m Hi. destruct (Hsame1 i m Hi) as (m' & ? & ? & _). by exists m'.
  - destruct (Hyes Hge) as (new & c2 & request' & free2 & R2 & Hc2 & _ & Hev2 & Hsame & HP).
    exists (Some (KV.create_kv_cache_blocks new)), (with_coord s c2), request'. split; [done|]. split; [by eapply evolves_plain|].
    split; [done|]. split; [done|]. split; [done|]. split; [lia|]. intros i m2 Hi. cbn [coordinator] in Hi.
    destruct (evolves_back _ _ _ _ _ Hev2 Hi) as (m & Hm & Hcf & _). destruct (Hsame1 i m Hm) as (m1 & Hm1 & _).
    destruct (ev_managers _ _ _ Hev1 i m m1 Hm Hm1) as [Hcf1 _].
    destruct (HP i m1 Hm1) as (m2' & b & Hm2 & _ & _ & _ & Hle). rewrite Hi in Hm2. injection Hm2 as <-. fold rid n in Hle.
    rewrite (same_size _ _ Hcf). rewrite (same_size _ _ Hcf1) in Hle. destruct (coord_group _ _ i m Hc Hm) as [Hg _].
    pose proof (cdiv_mono _ (g_size _ _ _ _ Hg) (t + num_new) n ltac:(lia)).
    unfold n, t, rid in *. lia.
Qed.

(** *** The other calls *)

Lemma new_step_ok c free : coord_ok c free -> Coordinator.new_step_starts c = (Ok tt, c).
Proof.
  intros Hc. unfold Coordinator.new_step_starts. erewrite bind_ok; [|apply (reading_phase _ (fun _ => tt) c)]; [done|].
  intros i m Hi. destruct (coord_group _ _ i m Hc Hi) as [_ (Hm & _)]. unfold Manager.new_step_starts, Manager.set_mgr, modify. cbn [fst snd].
  by destruct (mgr_class m).
Qed.

Lemma take_new_ok c free : coord_ok c free ->
  exists l c' free', each_manager (fun _ _ => Manager.take_new_block_ids) c = (Ok l, c') /\ coord_ok c' free'
    /\ forall rid, evolves rid c c' /\ forall i m, managers c !! i = Some m -> exists m', managers c' !! i = Some m'
         /\ Manager.blocks_of rid m' = Manager.blocks_of rid m.
Proof.
  intros Hc. destruct (phase_ok (fun _ _ => Manager.take_new_block_ids) "" (fun _ _ _ => True)
    (fun _ m _ m' => m' = {| m with SingleType.new_block_ids := [] |}) c free Hc) as (l & c' & free' & R1 & Hc' & Hev & _ & HP); [|done|].
  - intros i m c1 fr Hc1 _ Hm _ _. destruct (coord_group _ _ i m Hc1 Hm) as [Hg Hp].
    exists (SingleType.new_block_ids m), (co_pool c1), {| m with SingleType.new_block_ids := [] |}, fr. split; [done|]. split; [by eapply group_ok_view|].
    split; [|done]. split; try done. by intros r _ _ Hr.
  - exists l, c', free'. do 2 (split; [done|]). intros rid. split.
    + destruct Hev as [V1 V2 V3 V4]. split; try done. intros i m m' Hi Hi'. destruct (HP i m Hi) as (_ & m2 & _ & Hm2 & E2).
      rewrite Hi' in Hm2. injection Hm2 as <-. by rewrite E2.
    + intros i m Hi. destruct (HP i m Hi) as (_ & m' & _ & Hm' & ->). by eexists.
Qed.

Abbreviation KM := KVCacheManager.

Lemma run_on_coordinator {A} (f : M Coordinator A) (s : KM) a c' : f (coordinator s) = (Ok a, c') ->
  KV.on_coordinator f s = (Ok a, with_coord s c').
Proof. intros Hf. unfold KV.on_coordinator, zoom. by rewrite Hf. Qed.

Lemma can_fit_ok (s : KM) r enc : plain_kv s -> num_computed_tokens r = 0 ->
  exists o, KV.can_fit_full_sequence r 0 (Some EmptyBlocks) 0 enc s = (Ok o, s).
Proof.
  intros Hok Hcomp. destruct (pk_coord _ Hok) as [free Hc]. pose proof (pk_length _ Hok) as Hlen. unfold KV.can_fit_full_sequence. msteps.
  rewrite Hcomp. cbn [default]. replace ((0 + 0 + 0) `min` max_model_len s) with 0 by lia.
  assert (request_ready (coordinator s) (request_id r) 0 EmptyBlocks) as Hr.
  { intros i m Hi. right. destruct (coord_group _ _ i m Hc Hi) as [Hg Hp]. pose proof (g_size _ _ _ _ Hg).
    pose proof (skipped_bounds m 0 Hp ltac:(lia)). unfold skipped_blocks. assert (Manager.get_num_skipped_tokens m 0 = 0) as -> by lia.
    rewrite Z.div_0_l by lia. apply zlen_nonneg. }
  eexists. rewrite (bind_ok _ _ _ _ _ (run_on_coordinator _ s _ _ (check_required _ _ _ _ _ _ _ _ Hc Hr ltac:(lia)))).
  assert (with_coord s (coordinator s) = s) as -> by (by destruct s). reflexivity.
Qed.

Lemma nothing_of_length c c' rid : evolves rid c c' -> holds_nothing c rid ->
  (forall i m, managers c !! i = Some m -> exists m', managers c' !! i = Some m' /\ zlen (Manager.blocks_of rid m') = zlen (Manager.blocks_of rid m)) ->
  holds_nothing c' rid.
Proof.
  intros Hev Hn HP i m' Hi. destruct (evolves_back _ _ _ _ _ Hev Hi) as (m & Hm & _). destruct (HP i m Hm) as (m2 & Hm2 & Hl).
  rewrite Hi in Hm2. injection Hm2 as <-. rewrite (Hn i m Hm) in Hl. change (zlen []) with 0 in Hl.
  destruct (Manager.blocks_of rid m') as [|b l]; [done|]. rewrite zlen_cons in Hl. pose proof (zlen_nonneg l). lia.
Qed.

Lemma covers_of_length c c' rid t : evolves rid c c' -> covers c rid t ->
  (forall i m, managers c !! i = Some m -> exists m', managers c' !! i = Some m' /\ zlen (Manager.blocks_of rid m') = zlen (Manager.blocks_of rid m)) ->
  covers c' rid t.
Proof.
  intros Hev [Ht Hn] HP. split; [done|]. intros i m' Hi. destruct (evolves_back _ _ _ _ _ Hev Hi) as (m & Hm & Hcf & _).
  destruct (HP i m Hm) as (m2 & Hm2 & Hl). rewrite Hi in Hm2. injection Hm2 as <-. rewrite Hl, (same_size _ _ Hcf). by apply (Hn i m).
Qed.

Lemma other_name (rid : string) : exists rid', rid' <> rid.
Proof. destruct (decide (rid = "")) as [->|Hne]; [by exists "x"|by exists ""]. Qed.

#[export] Instance kv_cache_manager_laws : KVLaws KVCacheManager.
Proof.
  refine {| kv_ok := plain_kv; kv_max_len := max_model_len; kv_hasher := fun _ h => h = None;
            kv_idle s := holds_nothing (coordinator s); kv_holds s := covers (coordinator s);
            kv_hit s _ b n := b = EmptyBlocks /\ n = 0 |}.
  - (* fewer tokens *)
    intros s rid t t' Hok. destruct (pk_coord _ Hok) as [free Hc]. by apply (covers_mono _ free).
  - (* new_step_starts *)
    intros s Hok. destruct (pk_coord _ Hok) as [free Hc]. exists s. split; [|done].
    cbn. unfold KV.new_step_starts. rewrite (run_on_coordinator _ _ _ _ (new_step_ok _ _ Hc)). by destruct s.
  - (* lookup *)
    intros s r Hok _ _ Hn. exists EmptyBlocks, 0, s. split; [|by split_and!; try done; lia].
    cbn. unfold KV.get_computed_blocks. msteps. by rewrite (pk_caching _ Hok).
  - (* can_fit_full_sequence *)
    intros s r b n enc Hok [-> ->] Hcomp. by apply can_fit_ok.
  - (* allocate, new *)
    intros s r b n new enc Hok [-> ->] Hidle _ Hcomp _ Hnew Hmax. destruct (pk_coord _ Hok) as [free Hc].
    destruct (allocate_plain_ok s r new (Some EmptyBlocks) 0 enc (request_id r) 0) as (o & s' & r' & R1 & Hok' & Hsame & Es & Hev & Ho);
      [done|done|done|done|by eapply nothing_covers|lia|lia|lia|].
    exists o, s', r'. split; [done|]. split; [done|]. split.
    { rewrite Es. split; [done|]. split; [done|]. split; intros rid'; [|intros t]; intros Hne.
      - eapply evolves_nothing; [exact Hev|congruence].
      - eapply evolves_covers; [exact Hev|congruence]. }
    split; [done|]. destruct (pk_coord _ Hok') as [free' Hc']. destruct o as [bl|]; [|by eapply nothing_of_length].
    intros t Ht. eapply covers_mono; [done|exact Ho|lia].
  - (* allocate, running *)
    intros s r new la Hok Hcov _ _ Hnew Hla Hmax.
    destruct (allocate_plain_ok s r new None la 0 (request_id r) (num_computed_tokens r)) as (o & s' & r' & R1 & Hok' & Hsame & Es & Hev & Ho); [done..|].
    exists o, s', r'. split; [done|]. split; [done|]. split.
    { rewrite Es. split; [done|]. split; [done|]. split; intros rid'; [|intros t]; intros Hne.
      - eapply evolves_nothing; [exact Hev|congruence].
      - eapply evolves_covers; [exact Hev|congruence]. }
    split; [done|]. destruct (pk_coord _ Hok') as [free' Hc']. destruct o as [bl|]; [|by eapply covers_of_length].
    intros t Ht. eapply covers_mono; [done|exact Ho|]. pose proof (proj1 Hcov). lia.
  - (* free *)
    intros s r Hok. destruct (pk_coord _ Hok) as [free Hc]. destruct (free_phase (request_id r) _ _ Hc) as (c' & free' & R1 & Hc' & Hev & Hnil).
    exists (with_coord s c'). split; [cbn; unfold KV.free; by rewrite (run_on_coordinator _ _ _ _ R1)|]. split; [by eapply evolves_plain|].
    split; [|done]. split; [done|]. split; [done|]. split; intros rid'; [|intros t]; intros Hne.
    + eapply evolves_nothing; [exact Hev|congruence].
    + eapply evolves_covers; [exact Hev|congruence].
  - (* common prefix *)
    intros s rid t Hok _. exists (replicate (length (managers (coordinator s))) 0). cbn. unfold KV.get_num_common_prefix_blocks.
    assert (Coordinator.get_num_common_prefix_blocks rid (coordinator s)
      = (Ok (replicate (length (managers (coordinator s))) 0), coordinator s)) as R1.
    { unfold Coordinator.get_num_common_prefix_blocks. msteps. by rewrite (pk_class _ Hok). }
    rewrite (run_on_coordinator _ _ _ _ R1). by destruct s.
  - (* new block ids *)
    intros s Hok. destruct (pk_coord _ Hok) as [free Hc]. destruct (take_new_ok _ _ Hc) as (l & c' & free' & R1 & Hc' & Hev).
    exists (concat l), (with_coord s c'). split; [cbn; unfold KV.take_new_block_ids; by rewrite (bind_ok _ _ _ _ _ (run_on_coordinator _ _ _ _ R1))|].
    destruct (Hev "") as [Hev0 _]. split; [by eapply evolves_plain|]. split; [done|]. split; [done|].
    split; intros rid'; [|intros t]; intros _; destruct (other_name rid') as [x Hx].
    + eapply evolves_nothing; [apply (Hev x)|congruence].
    + eapply evolves_covers; [apply (Hev x)|congruence].
  - (* events *)
    intros s Hok. exists [], s. split; [|done]. cbn. unfold KV.take_events, KV.on_pool.
    assert (zoom co_pool (fun p c => {| c with co_pool := p |}) Pool.take_events (coordinator s) = (Ok [], coordinator s)) as R1.
    { unfold zoom, Pool.take_events. msteps. rewrite (pk_events _ Hok). by destruct (coordinator s). }
    rewrite (run_on_coordinator _ _ _ _ R1). by destruct s.
Defined.

(** A new manager without prefix caching and events. *)
Lemma init_plain_kv config len hbs eagle log dcp pcp mc s :
  KV.init config len hbs false eagle log false dcp pcp mc = Ok s -> Forall CoordInit.no_sink (co_specs (coordinator s)) ->
  Forall (fun m => plain_manager m /\ 0 < mgr_block_size m) (managers (coordinator s)) ->
  enable_kv_cache_events (co_pool (coordinator s)) = false -> 0 <= len ->
  plain_kv s /\ max_model_len s = len /\ forall rid, holds_nothing (coordinator s) rid.
Proof.
  intros Hi Hspecs Hplain Hev Hlen. pose proof (KVSteps.init_kv_ok _ _ _ _ _ _ _ _ _ _ _ Hi) as Hc.
  assert (max_model_len s = len /\ km_enable_caching s = false) as [El Ecache].
  { unfold KV.init in Hi. destruct (Coordinator.init _ _ _ _ _ _ _ _); [|done]. by injection Hi as <-. }
  assert (co_class (coordinator s) = KVCacheCoordinatorNoPrefixCache) as Ecls.
  { unfold Coordinator.init in Hc. destruct (Pool.init _ _ _ _ _); [|done]. cbn [mbind res_bind negb] in Hc.
    destruct (mapM _ _) as [specs|]; [|done]. cbn [mbind res_bind] in Hc. destruct (init_managers specs false 0 dcp pcp a) as [ [ms|] p']; [|done].
    injection Hc as <-. done. }
  split; [split; try done|split; [done|] ].
  - eexists. eapply CoordInit.init_coord_ok; done.
  - by rewrite El.
  - intros rid i m Hm. destruct (CoordInit.init_inv _ _ _ _ _ _ _ _ _ Hc) as (p & _ & Em).
    destruct (CoordInit.init_managers_idle _ _ _ _ _ _ _ _ Hspecs Em) as [_ Hidle].
    pose proof (proj1 (Forall_lookup _ _) Hidle i m Hm) as Hm'. by destruct (CoordInit.idle_blocks _ _ rid Hm').
Qed.

End instance.
End SchedKV.
