(* ===== verification/SchedFacts.v ===== *)
(** The scheduler keeps its books: every live request is in exactly one place, its
    state fits the place, and a step schedules within its bounds.  The theorems are
    about requests without multimodal inputs, LoRA limits, Mamba alignment and
    streaming; the KV cache and the encoder cache are any instances of
    [KVLaws] and [EncoderLaws]. *)

From S2P Require Import Prelude FreeQueue Request Hashing Metrics BlockPool KVSpec SingleType Coordinator KVManager EncoderCache Heap ReqQueue Scheduler SchedContract.
Local Open Scope Z_scope.

Module SchedFacts.
Import Sched QueueSets.

Ltac perm := rewrite ?fmap_app, ?fmap_cons; cbn [app]; solve_Permutation.

Section facts.
Context {K C : Type} `{KL : KVLaws K} `{EL : EncoderLaws C}.

(** How far the computed tokens of a request may be ahead of its tokens: while a
    step is out, by its draft tokens. *)
Context {slack : string -> Z}.

Abbreviation S := (Scheduler K C).
Abbreviation kv s := (kv_cache_manager s).

Definition find (s : S) (id : string) : option Request := Dict.get id (requests s).
Definition ids (q : RequestQueue) : list string := request_id <$> Queue.elements q.
Definition queued (s : S) : list string := ids (waiting s) ++ ids (skipped_waiting s).

(** ** The invariant *)

Record plain_config (c : SchedulerConfig) : Prop := {
  pc_mamba : need_mamba_block_aligned_split c = false;
  pc_loras : max_loras c = None;
  pc_lookahead : 0 <= num_lookahead_tokens c;
  pc_budget : 0 <= max_num_scheduled_tokens c;
}.

(** A generation request, not of a streaming session, that the model length stops:
    [check_stop] looks at the length only when [min_tokens] is reached. *)
Definition can_stop (max_model_len : Z) (r : Request) : Prop :=
  pooling_params r = None /\ resumable r = false /\ exists sp, sampling_params r = Some sp
    /\ num_tokens r = num_prompt_tokens r + num_output_tokens r /\ num_prompt_tokens r + min_tokens sp <= max_model_len.

(** What holds of every live request. *)
Record fine (s : S) (r : Request) : Prop := {
  fi_text : mm_features r = [];
  fi_placeholders : 0 <= num_output_placeholders r /\ (async_scheduling (config s) = false -> num_output_placeholders r = 0);
  fi_hashed : kv_hashed (kv s) r;
  fi_tokens : 0 < num_tokens r < sc_max_model_len (config s);
  fi_stop : can_stop (sc_max_model_len (config s)) r;
}.

Record running_fine (s : S) (r : Request) : Prop := {
  rf_status : status r = RUNNING;
  rf_computed : 0 <= num_computed_tokens r < sc_max_model_len (config s);
  rf_behind : num_computed_tokens r <= num_tokens r + num_output_placeholders r + slack (request_id r);
  rf_holds : kv_holds (kv s) (request_id r) (num_computed_tokens r);
}.

Record waiting_fine (s : S) (r : Request) : Prop := {
  wf_status : status r ∈ [WAITING; PREEMPTED; WAITING_FOR_STRUCTURED_OUTPUT_GRAMMAR];
  wf_computed : num_computed_tokens r = 0;
  wf_idle : kv_idle (kv s) (request_id r);
}.

(** A queue holds objects of the dictionary. *)
Definition queue_fine (s : S) (q : RequestQueue) : Prop :=
  Queue.queue_ok q /\ forall x, x ∈ Queue.elements q -> exists r, find s (request_id x) = Some r /\ oid r = oid x.

(** [run] and [wait] are the requests between two places, of the running and of the
    waiting kind. *)
Record sched_inv (s : S) (run wait : list string) : Prop := {
  si_config : plain_config (config s);
  si_kv : kv_ok (kv s);
  si_limit : sc_max_model_len (config s) <= kv_max_len (kv s);
  si_places : NoDup (running s ++ run ++ queued s ++ wait);
  si_live : forall id, id ∈ running s ++ run ++ queued s ++ wait <-> is_Some (find s id);
  si_dict : NoDup (Dict.keys (requests s));
  si_named : forall id r, find s id = Some r -> request_id r = id;
  si_fine : forall id r, find s id = Some r -> fine s r;
  si_objects : forall id1 id2 r1 r2, find s id1 = Some r1 -> find s id2 = Some r2 -> oid r1 = oid r2 -> id1 = id2;
  si_running : forall id r, id ∈ running s ++ run -> find s id = Some r -> running_fine s r;
  si_waiting : forall id r, id ∈ queued s ++ wait -> find s id = Some r -> waiting_fine s r;
  si_waitq : queue_fine s (waiting s);
  si_skipq : queue_fine s (skipped_waiting s);
}.

(** What a call that concerns [id] leaves alone. *)
Record about (id : string) (s s' : S) : Prop := {
  ab_config : config s' = config s;
  ab_prev : prev_step_scheduled_req_ids s' = prev_step_scheduled_req_ids s;
  ab_pause : pause_state s' = pause_state s;
  ab_others : forall id', id' <> id -> find s' id' = find s id';
  ab_kv : kv_frame (Some id) (kv s) (kv s');
  ab_dict : NoDup (Dict.keys (requests s)) -> NoDup (Dict.keys (requests s'));
}.

Lemma frame_refl o k : kv_frame o k k.
Proof. done. Qed.

Lemma frame_trans o k1 k2 k3 : kv_frame o k1 k2 -> kv_frame o k2 k3 -> kv_frame o k1 k3.
Proof.
  intros (A1 & A2 & A3 & A4) (B1 & B2 & B3 & B4). split; [congruence|]. split; [auto|]. split; [auto|]. intros rid' t Hne Hh. auto.
Qed.

Lemma frame_none o k1 k2 : kv_frame None k1 k2 -> kv_frame o k1 k2.
Proof. intros (A1 & A2 & A3 & A4). split; [done|]. split; [done|]. split; [by auto|]. intros rid' t _. by apply A4. Qed.

Lemma about_refl id s : about id s s.
Proof. done. Qed.

Lemma about_trans id s1 s2 s3 : about id s1 s2 -> about id s2 s3 -> about id s1 s3.
Proof.
  intros [A1 A2 A3 A4 A5 A6] [B1 B2 B3 B4 B5 B6]. split; [congruence..| | |].
  - intros id' Hne. by rewrite B4, A4.
  - by eapply frame_trans.
  - auto.
Qed.

Lemma find_put s r id : Dict.get id (Dict.set (request_id r) r (requests s)) = (if decide (id = request_id r) then Some r else find s id).
Proof. unfold find. by rewrite Dict.get_set. Qed.

Lemma fine_frame o s s' r : fine s r -> config s' = config s -> kv_frame o (kv s) (kv s') -> fine s' r.
Proof. intros [H1 H2 [H3 H3'] H4 H5] Hc (_ & F & _). split; [done|by rewrite Hc|split; [by apply F|done]|by rewrite Hc|by rewrite Hc]. Qed.

Lemma running_frame o s s' r : running_fine s r -> config s' = config s -> kv_frame o (kv s) (kv s') -> Some (request_id r) <> o ->
  running_fine s' r.
Proof. intros [H1 H2 H3 H4] Hc (_ & _ & _ & F) Hne. split; [done|by rewrite Hc|done|by apply F]. Qed.

Lemma waiting_frame o s s' r : waiting_fine s r ->
  kv_frame o (kv s) (kv s') -> Some (request_id r) <> o -> waiting_fine s' r.
Proof. intros [H1 H2 H3] (_ & _ & F & _) Hne. split; [done|done|by apply F]. Qed.

(** A change of one request moves it from the places [places] to [places']. *)
Lemma inv_change s s' id r r' run wait run' wait' : sched_inv s run wait -> about id s s' ->
  find s id = Some r -> find s' id = Some r' -> request_id r' = id -> oid r' = oid r -> fine s' r' -> kv_ok (kv s') ->
  running s' ++ run' ++ queued s' ++ wait' ≡ₚ running s ++ run ++ queued s ++ wait ->
  (forall x, x ∈ running s' ++ run' -> x = id \/ x ∈ running s ++ run) ->
  (forall x, x ∈ queued s' ++ wait' -> x = id \/ x ∈ queued s ++ wait) ->
  (id ∈ running s' ++ run' -> running_fine s' r') -> (id ∈ queued s' ++ wait' -> waiting_fine s' r') ->
  queue_fine s' (waiting s') -> queue_fine s' (skipped_waiting s') -> sched_inv s' run' wait'.
Proof.
  intros [I1 I2 I3 I4 I5 Id I6 I7 I8 I9 I10 I11 I12] [A1 A2 A3 A4 A5 A6] Hr Hr' Hn Ho Hf Hk HP Hrun Hwait Hrf Hwf Hwq Hsq.
  assert (forall x y, x <> id -> find s' x = Some y -> find s x = Some y) as Hback by (intros x y Hx; by rewrite A4).
  split; [by rewrite A1|done|destruct A5 as [-> _]; by rewrite A1|by rewrite HP| |by apply A6| | | | | |done|done].
  - intros x. rewrite HP, I5. destruct (decide (x = id)) as [->|Hx]; [|by rewrite A4]. rewrite Hr, Hr'. by split; eauto.
  - intros x y Hy. destruct (decide (x = id)) as [->|Hx]; [congruence|]. by apply I6, Hback.
  - intros x y Hy. destruct (decide (x = id)) as [->|Hx]; [congruence|]. eapply fine_frame; [|done|done]. by eapply I7, Hback.
  - assert (forall x y, find s' x = Some y -> exists y', find s x = Some y' /\ oid y' = oid y) as Hold.
    { intros x y Hy. destruct (decide (x = id)) as [->|Hx]; [exists r; split; [done|congruence]|]. exists y. by rewrite <- A4. }
    intros x1 x2 y1 y2 H1 H2 He. destruct (Hold _ _ H1) as (z1 & F1 & E1), (Hold _ _ H2) as (z2 & F2 & E2).
    apply (I8 x1 x2 z1 z2 F1 F2). congruence.
  - intros x y Hx Hy. destruct (decide (x = id)) as [->|Hne]; [rewrite Hr' in Hy; injection Hy as <-; auto|].
    destruct (Hrun x Hx) as [?|Hx']; [done|]. apply Hback in Hy; [|done]. eapply running_frame; [by eapply I9|done|done|].
    rewrite (I6 _ _ Hy). congruence.
  - intros x y Hx Hy. destruct (decide (x = id)) as [->|Hne]; [rewrite Hr' in Hy; injection Hy as <-; auto|].
    destruct (Hwait x Hx) as [?|Hx']; [done|]. apply Hback in Hy; [|done]. eapply waiting_frame; [by eapply I10|done|].
    rewrite (I6 _ _ Hy). congruence.
Qed.

(** The queues only read the identity of the objects. *)
Lemma queue_fine_about s s' id r r' q : queue_fine s q -> about id s s' -> find s id = Some r -> find s' id = Some r' ->
  oid r' = oid r -> queue_fine s' q.
Proof.
  intros [H1 H2] Hab Hr Hr' Ho. split; [done|]. intros x Hx. destruct (H2 x Hx) as (y & Hy & Hoy).
  destruct (decide (request_id x = id)) as [E|Hne].
  - exists r'. rewrite E in *. split; [done|]. congruence.
  - exists y. by rewrite (ab_others _ _ _ Hab).
Qed.

(** An object that is in no place is in no queue. *)
Lemma object_not_queued s q id r : queue_fine s q -> find s id = Some r -> id ∉ ids q ->
  (forall id1 id2 r1 r2, find s id1 = Some r1 -> find s id2 = Some r2 -> oid r1 = oid r2 -> id1 = id2) ->
  oid r ∉ oids q.
Proof.
  intros [_ Hq] Hr Hid Hobj (x & Hx & Hin)%list_elem_of_fmap. destruct (Hq x Hin) as (y & Hy & Ho).
  assert (id = request_id x) as -> by (apply (Hobj _ _ _ _ Hr Hy); congruence). apply Hid. by apply list_elem_of_fmap_2.
Qed.

(** A request is put into a queue. *)
Lemma queue_fine_add s q q' x r : queue_fine s q -> Queue.queue_ok q' -> Queue.elements q' ≡ₚ x :: Queue.elements q ->
  find s (request_id x) = Some r -> oid r = oid x -> queue_fine s q'.
Proof.
  intros [_ H2] Hok HP Hr Ho. split; [done|]. intros y Hy. rewrite HP in Hy. apply elem_of_cons in Hy as [->|Hy]; [by exists r|by apply H2].
Qed.


(** ** The accesses *)

Lemma get_request_ok id s r : find s id = Some r -> get_request id s = (Ok r, s).
Proof. unfold find. intros Hr. unfold get_request, mbind, M_bind, gets, lift_res. by rewrite Hr. Qed.

Lemma on_kv_ok {A} (c : M K A) (s : S) a k : c (kv s) = (a, k) -> on_kv c s = (a, {| s with kv_cache_manager := k |}).
Proof. intros Hc. unfold on_kv, zoom. by rewrite Hc. Qed.

Lemma free_encoder_ok (order : list Z -> list Z) r (s : S) : mm_features r = [] -> order [] = [] ->
  on_encoder (free_encoder order r) s = (Ok tt, s).
Proof. intros Hr Ho. unfold on_encoder, zoom. rewrite law_free_text by done. by destruct s. Qed.

Lemma with_waiting_ok f (s : S) q : f (waiting s) = Ok q -> with_waiting f s = (Ok tt, {| s with waiting := q |}).
Proof. intros Hf. unfold with_waiting, mbind, M_bind, gets, lift_res, modify. by rewrite Hf. Qed.

Lemma with_skipped_ok f (s : S) q : f (skipped_waiting s) = Ok q -> with_skipped f s = (Ok tt, {| s with skipped_waiting := q |}).
Proof. intros Hf. unfold with_skipped, mbind, M_bind, gets, lift_res, modify. by rewrite Hf. Qed.

Lemma kv_request_ok {A} r (c : M (K * Request) A) (s : S) a k r' : c (kv s, r) = (a, (k, r')) ->
  on_kv_request r c s = (a, {| s with kv_cache_manager := k; requests := Dict.set (request_id r') r' (requests s) |}).
Proof. intros Hc. unfold on_kv_request. by rewrite Hc. Qed.

(** ** Preemption *)

Lemma preempt_ok (order : list Z -> list Z) s id r wait : order [] = [] -> sched_inv s [id] wait -> find s id = Some r -> exists s' r', preempt_request order id s = (Ok tt, s')
  /\ sched_inv s' [] wait /\ about id s s' /\ running s' = running s /\ ids (waiting s') ≡ₚ id :: ids (waiting s)
  /\ skipped_waiting s' = skipped_waiting s /\ find s' id = Some r'.
Proof.
  intros Hord I Hr. pose proof (si_named _ _ _ I _ _ Hr) as Hn. pose proof (si_fine _ _ _ I _ _ Hr) as Hf.
  assert (running_fine s r) as Hrf by (apply (si_running _ _ _ I id); [set_solver|done]).
  destruct (law_free (kv s) r (si_kv _ _ _ I)) as (k' & Rf & Hk & Hfr & Hidle).
  set (r' := {| r with status := PREEMPTED; num_computed_tokens := 0; spec_token_ids := [];
                       num_preemptions := num_preemptions r + 1 |}).
  assert (id ∉ ids (waiting s)) as Hnw.
  { intros Hin. pose proof (si_places _ _ _ I) as Hnd. unfold queued in Hnd.
    apply NoDup_app in Hnd as (_ & _ & Hnd). cbn in Hnd. apply NoDup_cons in Hnd as [Hnd _]. apply Hnd. set_solver. }
  destruct (prepend_elements (waiting s) r') as (q' & Rq & Hq' & HPq).
  { apply (si_waitq _ _ _ I). } { by apply (object_not_queued s _ id r (si_waitq _ _ _ I)); [..|apply (si_objects _ _ _ I)]. }
  set (s' := {| s with kv_cache_manager := k'; requests := Dict.set (request_id r) r' (requests s); waiting := q' |}).
  assert (about id s s') as Hab.
  { split; [done..| |by rewrite <- Hn|by apply Dict.NoDup_set]. intros id' Hne. unfold find, s'. cbn [requests]. rewrite Dict.get_set, decide_False; [done|congruence]. }
  assert (find s' id = Some r') as Hr' by (unfold find, s'; cbn [requests]; by rewrite Dict.get_set, decide_True).
  assert (ids q' ≡ₚ id :: ids (waiting s)) as HPi by (unfold ids; rewrite HPq, fmap_cons; by rewrite <- Hn).
  exists s', r'. split.
  { unfold preempt_request. rewrite (bind_ok _ _ _ _ _ (get_request_ok _ _ _ Hr)). rewrite (rf_status _ _ Hrf).
    rewrite bool_decide_eq_true_2 by done. msteps. rewrite (bind_ok _ _ _ _ _ (on_kv_ok _ _ _ _ Rf)).
    rewrite (bind_ok _ _ _ _ _ (free_encoder_ok _ r _ (fi_text _ _ Hf) Hord)). unfold put_request. msteps. fold r'.
    by rewrite (with_waiting_ok _ _ q'). }
  split; [|done]. apply (inv_change s s' id r r' [id] wait [] wait); try done.
  - destruct Hf as [F1 F2 F3 F4 F5]. eapply (fine_frame _ s); [split; [exact F1|exact F2|exact F3|exact F4|exact F5]|done|exact Hfr].
  - unfold queued. change (waiting s') with q'. rewrite HPi. done.
  - intros x Hx. right. change (running s') with (running s) in Hx. set_solver.
  - intros x Hx. unfold queued in *. change (waiting s') with q' in Hx. rewrite HPi in Hx. set_solver.
  - intros Hin. exfalso. pose proof (si_places _ _ _ I) as Hnd. apply NoDup_app in Hnd as (_ & Hnd & _). apply (Hnd id); [|by left].
    change (running s') with (running s) in Hin. by rewrite app_nil_r in Hin.
  - intros _. split; [cbn; set_solver|done|exact Hidle].
  - apply (queue_fine_add s' (waiting s) q' r' r'); [eapply queue_fine_about; [apply I|done..]|done|exact HPq| |done].
    change (request_id r') with (request_id r). by rewrite Hn.
  - eapply queue_fine_about; [apply I|done..].
Qed.


(** A request leaves [running]. *)
Lemma inv_take s l1 x l2 run wait : sched_inv s run wait -> running s = l1 ++ x :: l2 ->
  sched_inv {| s with running := l1 ++ l2 |} (x :: run) wait.
Proof.
  intros [I1 I2 I3 I4 I5 Id I6 I7 I8 I9 I10 I11 I12] Hl.
  assert ((l1 ++ l2) ++ (x :: run) ++ queued s ++ wait ≡ₚ running s ++ run ++ queued s ++ wait) as HP.
  { rewrite Hl. cbn [app]. rewrite <- (Permutation_middle l1 l2 x), <- Permutation_middle. done. }
  split; try done; cbn [running].
  - change (NoDup ((l1 ++ l2) ++ (x :: run) ++ queued s ++ wait)). by rewrite HP.
  - intros y. change (y ∈ (l1 ++ l2) ++ (x :: run) ++ queued s ++ wait <-> is_Some (find s y)). rewrite HP. apply I5.
  - intros y r Hr. apply (fine_frame None s); [by eapply I7|done|apply frame_refl].
  - intros y r Hy Hr. apply (running_frame None s); [apply (I9 y r); [|done]|done|apply frame_refl|done]. rewrite Hl. set_solver.
  - intros y r Hy Hr. apply (waiting_frame None s); [by apply (I10 y r)|apply frame_refl|done].
Qed.

Lemma get_requests_ok (s : S) l : (forall id, id ∈ l -> exists r, find s id = Some r /\ request_id r = id) ->
  exists rs, mmapM l get_request s = (Ok rs, s) /\ request_id <$> rs = l.
Proof.
  induction l as [|x l IH]; intros Hl; [by exists []|]. destruct (Hl x) as (r & Hr & Hn); [by left|].
  destruct IH as (rs & R1 & E1); [intros y Hy; apply Hl; by right|]. exists (r :: rs). cbn [mmapM].
  rewrite (bind_ok _ _ _ _ _ (get_request_ok _ _ _ Hr)), (bind_ok _ _ _ _ _ R1). split; [done|]. rewrite fmap_cons. by rewrite Hn, E1.
Qed.

Lemma lowest_priority_ok (s : S) : running s <> [] -> (forall id, id ∈ running s -> exists r, find s id = Some r /\ request_id r = id) ->
  exists id, lowest_priority s = (Ok id, s) /\ id ∈ running s.
Proof.
  intros Hne Hall. destruct (get_requests_ok s _ Hall) as (rs & R1 & E1). destruct rs as [|r rs]; [by rewrite <- E1 in Hne|].
  exists (request_id (max_request r rs)). split.
  { unfold lowest_priority. by msteps. }
  rewrite <- E1. apply list_elem_of_fmap_2.
  assert (forall l best, max_request best l ∈ best :: l) as Hmax.
  { clear. induction l as [|x l IH]; intros best; cbn [max_request]; [by left|].
    specialize (IH (if greater_key x best then x else best)). destruct (greater_key x best); set_solver. }
  apply Hmax.
Qed.

(** A change outside the requests and the queues. *)
Lemma inv_frame s s' run wait : sched_inv s run wait -> config s' = config s -> requests s' = requests s ->
  waiting s' = waiting s -> skipped_waiting s' = skipped_waiting s -> running s' = running s -> kv_ok (kv s') ->
  kv_frame None (kv s) (kv s') -> sched_inv s' run wait.
Proof.
  intros [I1 I2 I3 I4 I5 Id I6 I7 I8 I9 I10 I11 I12] Ec Er Ew Es Erun Hk Hf.
  assert (forall x, find s' x = find s x) as Ef by (intros x; unfold find; by rewrite Er).
  assert (queued s' = queued s) as Eq by (unfold queued; by rewrite Ew, Es).
  split; rewrite ?Ec, ?Eq, ?Erun, ?Ew, ?Es; try done.
  - destruct Hf as [-> _]. done.
  - intros x. rewrite Ef. apply I5.
  - by rewrite Er.
  - intros x r. rewrite Ef. apply I6.
  - intros x r. rewrite Ef. intros Hr. by apply (fine_frame None s); [by apply (I7 x)|..].
  - intros x y r1 r2. rewrite !Ef. apply I8.
  - intros x r Hx. rewrite Ef. intros Hr. by apply (running_frame None s); [by apply (I9 x)|..].
  - intros x r Hx. rewrite Ef. intros Hr. by apply (waiting_frame None s); [by apply (I10 x)|..].
  - destruct I11 as [? Hq]. split; [done|]. intros x Hx. rewrite Ef. by apply Hq.
  - destruct I12 as [? Hq]. split; [done|]. intros x Hx. rewrite Ef. by apply Hq.
Qed.

End facts.

(** Another bound on how far the running requests are ahead. *)
Lemma inv_slack {K C} `{KLaws : KVLaws K} (slack slack' : string -> Z) (s : Scheduler K C) run wait :
  sched_inv (slack := slack) s run wait ->
  (forall id r, id ∈ running s ++ run -> find s id = Some r ->
    num_computed_tokens r <= num_tokens r + num_output_placeholders r + slack' id) -> sched_inv (slack := slack') s run wait.
Proof.
  intros [I1 I2 I3 I4 I5 Id I6 I7 I8 I9 I10 I11 I12] Hs. split; try done. intros id r Hin Hr. destruct (I9 id r Hin Hr) as [R1 R2 R3 R4].
  split; try done. rewrite (I6 _ _ Hr). by apply Hs.
Qed.
End SchedFacts.
