(* ===== verification/SchedPhases.v ===== *)
(** [schedule] on a scheduler whose books are in order: it returns, keeps them, and
    stays within its bounds. *)

From S2P Require Import Prelude FreeQueue Request Hashing Metrics BlockPool KVSpec SingleType Coordinator KVManager EncoderCache Heap ReqQueue Scheduler SchedContract SchedFacts.
Local Open Scope Z_scope.

Module SchedPhases.
Import Sched QueueSets SchedFacts.

Section phases.
Context {K C : Type} `{KL : KVLaws K} `{EL : EncoderLaws C}.
Context (order : list Z -> list Z) (order_nil : order [] = []) (ec_connector : option (string -> bool)).

Abbreviation S := (Scheduler K C).
Abbreviation kv s := (kv_cache_manager s).
Abbreviation inv s run wait := (sched_inv (slack := fun _ => 0) s run wait).

(** ** The local variables of [schedule] *)

Definition scheduled (v : Step) : list string :=
  scheduled_running_reqs v ++ scheduled_new_reqs v ++ scheduled_resumed_reqs v.

Definition sum_tokens (l : list (string * Z)) : Z := foldr (fun e acc => e.2 + acc) 0 l.

(** The request may be advanced by [n] tokens. *)
Definition advance_ok (s : S) (v : Step) (id : string) (n : Z) : Prop :=
  exists r, find s id = Some r /\ 0 < n /\ num_computed_tokens r + n < sc_max_model_len (config s)
    /\ num_computed_tokens r + n <= num_tokens r + num_output_placeholders r
         + zlen (default [] (Dict.get id (scheduled_spec_decode_tokens v)))
    /\ zlen (default [] (Dict.get id (scheduled_spec_decode_tokens v))) <= n
    /\ forall t, num_computed_tokens r <= t <= num_computed_tokens r + n -> kv_holds (kv s) id t.

Record step_ok (b : Z) (s : S) (v : Step) : Prop := {
  st_nodup : NoDup (scheduled v);
  st_running : forall x, x ∈ scheduled v -> x ∈ running s;
  st_keys : Dict.keys (num_scheduled_tokens v) ≡ₚ scheduled v;
  st_blocks : Dict.keys (req_to_new_blocks v) = Dict.keys (num_scheduled_tokens v);
  st_spec : NoDup (Dict.keys (scheduled_spec_decode_tokens v))
    /\ forall x, x ∈ Dict.keys (scheduled_spec_decode_tokens v) -> x ∈ scheduled v;
  st_encoder : scheduled_encoder_inputs v = [];
  st_budget : sum_tokens (num_scheduled_tokens v) + token_budget v = b;
  st_left : 0 <= token_budget v;
  st_entries : forall id n, Dict.get id (num_scheduled_tokens v) = Some n -> advance_ok s v id n;
}.

(** The scheduled requests are in [running] before the current one, [cur]. *)
Record cursor (s : S) (v : Step) (cur : string) : Prop := {
  cu_split : exists l1 l2, running s = l1 ++ cur :: l2 /\ (forall x, x ∈ scheduled_running_reqs v -> x ∈ l1)
    /\ zlen l1 <= req_index v;
  cu_new : scheduled_new_reqs v = [];
  cu_resumed : scheduled_resumed_reqs v = [];
}.

Lemma sum_tokens_perm l l' : l ≡ₚ l' -> sum_tokens l = sum_tokens l'.
Proof. unfold sum_tokens. induction 1; cbn [foldr]; lia. Qed.

Lemma remove_one_ok id l : id ∈ l -> exists l1 l2, l = l1 ++ id :: l2 /\ remove_one id l = Ok (l1 ++ l2).
Proof.
  induction l as [|x l IH]; [by intros ?%not_elem_of_nil|]. intros Hin. cbn [remove_one].
  destruct (String.eqb_spec x id) as [->|Hne]; [by exists [], l|]. apply elem_of_cons in Hin as [?|Hin]; [congruence|].
  destruct (IH Hin) as (l1 & l2 & -> & ->). by exists (x :: l1), l2.
Qed.

(** What no part of a step changes. *)
Record still (s s' : S) : Prop := {
  stl_config : config s' = config s;
  stl_prev : prev_step_scheduled_req_ids s' = prev_step_scheduled_req_ids s;
  stl_pause : pause_state s' = pause_state s;
  stl_live : forall id, is_Some (find s id) -> is_Some (find s' id);
  stl_dead : forall id, find s id = None -> find s' id = None /\ (kv_idle (kv s) id -> kv_idle (kv s') id);
}.

(** What the phase of the running requests leaves alone. *)
Record sides (v v' : Step) : Prop := {
  sd_new : scheduled_new_reqs v' = scheduled_new_reqs v;
  sd_resumed : scheduled_resumed_reqs v' = scheduled_resumed_reqs v;
  sd_skipped : step_skipped_waiting v' = step_skipped_waiting v;
}.

(** No queued preempted request ran in the step before. *)
Definition prev_ok (s : S) : Prop := forall id r, id ∈ queued s -> find s id = Some r -> status r = PREEMPTED ->
  id ∉ prev_step_scheduled_req_ids s.

Record phase (b : Z) (s : S) (v : Step) (run : list string) : Prop := {
  ph_inv : inv s run (ids (step_skipped_waiting v));
  ph_step : step_ok b s v;
  ph_prev : preempted_reqs v = [] -> prev_ok s;
}.

Lemma still_trans s1 s2 s3 : still s1 s2 -> still s2 s3 -> still s1 s3.
Proof.
  intros [A1 A2 A3 A4 A5] [B1 B2 B3 B4 B5]. split; [congruence..|auto|]. intros id Hid. destruct (A5 id Hid) as [Hd1 Hi1].
  destruct (B5 id Hd1) as [Hd2 Hi2]. auto.
Qed.

Lemma still_about id s s' r r' : about id s s' -> find s id = Some r -> find s' id = Some r' -> still s s'.
Proof.
  intros [A1 A2 A3 A4 (_ & _ & A5 & _) _] Hr Hr'. split; [done..| |].
  - intros x Hx. destruct (decide (x = id)) as [->|Hne]; [by eexists|]. by rewrite A4.
  - intros x Hx. assert (x <> id) as Hne by congruence. rewrite A4 by done. split; [done|]. apply A5. congruence.
Qed.

Lemma sides_trans v1 v2 v3 : sides v1 v2 -> sides v2 v3 -> sides v1 v3.
Proof. intros [] []. split; congruence. Qed.

Lemma advance_frame s s' v id n : advance_ok s v id n -> config s' = config s -> find s' id = find s id ->
  (forall t, kv_holds (kv s) id t -> kv_holds (kv s') id t) -> advance_ok s' v id n.
Proof. intros (r & Hr & Hn & Hm & Hl & Hd & Hh) Hc Hf Hk. exists r. rewrite Hf, Hc. split_and!; auto. Qed.

Lemma step_ok_frame b s s' v : step_ok b s v -> config s' = config s -> (forall x, x ∈ scheduled v -> x ∈ running s') ->
  (forall x, x ∈ scheduled v -> find s' x = find s x) ->
  (forall x t, x ∈ scheduled v -> kv_holds (kv s) x t -> kv_holds (kv s') x t) -> step_ok b s' v.
Proof.
  intros [H1 H2 H3 H4 H5 H6 H7 H8 H9] Hc Hrun Hf Hk. split; try done. intros id n Hn.
  assert (id ∈ scheduled v) as Hin by (rewrite <- H3; apply Dict.elem_keys; by eexists).
  eapply advance_frame; [by apply H9|done|by apply Hf|auto].
Qed.

Lemma step_ok_about b s s' v id : step_ok b s v -> about id s s' -> id ∉ scheduled v ->
  (forall x, x ∈ scheduled v -> x ∈ running s') -> step_ok b s' v.
Proof.
  intros Hst [H1 _ _ H2 (_ & _ & _ & H3)] Hid Hrun. apply (step_ok_frame b s); [done|done|done|..].
  - intros x Hx. apply H2. by intros ->.
  - intros x t Hx. apply H3. intros [= ->]. done.
Qed.

Lemma sched_ok {A} (c : M S A) s (v : Step) a s' : c s = (a, s') -> on_sched c (s, v) = (a, (s', v)).
Proof. intros Hc. unfold on_sched, on_fst, zoom. cbn [fst snd]. by rewrite Hc. Qed.

Lemma vars_ok f (s : S) v : step_vars f (s, v) = (Ok tt, (s, f v)).
Proof. done. Qed.

(** Taking back what was scheduled for [id]. *)
Lemma unschedule_ok b s0 s id v r : step_ok b s0 v -> id ∈ scheduled_running_reqs v -> scheduled_new_reqs v = [] ->
  scheduled_resumed_reqs v = [] -> find s id = Some r -> (forall x, find s x = find s0 x) -> kv s = kv s0 -> config s = config s0 ->
  (forall x, x ∈ running s0 -> x <> id -> x ∈ running s) ->
  exists v', unschedule id (s, v) = (Ok tt, (s, v')) /\ step_ok b s v' /\ sides v v' /\ id ∉ scheduled_running_reqs v'
    /\ (forall x, x ∈ scheduled_running_reqs v' -> x ∈ scheduled_running_reqs v) /\ req_index v' = req_index v - 1
    /\ token_budget v <= token_budget v' /\ preempted_reqs v' = preempted_reqs v.
Proof.
  intros Hst Hid Hnew Hres Hr Hf Hk Hc Hrun. pose proof Hst as [H1 H2 H3 H4 H5 H6 H7 H8 H9].
  unfold scheduled in *. rewrite Hnew, Hres, !app_nil_r in *.
  destruct (remove_one_ok _ _ Hid) as (l1 & l2 & El & R1). rewrite El in *.
  assert (id ∉ l1 ++ l2) as Hnot.
  { rewrite <- Permutation_middle in H1. by apply NoDup_cons in H1 as [? _]. }
  assert (is_Some (Dict.get id (num_scheduled_tokens v))) as [n En] by (apply Dict.elem_keys; by rewrite H3).
  assert (is_Some (Dict.get id (req_to_new_blocks v))) as [bl Eb] by (apply Dict.elem_keys; by rewrite H4, H3).
  assert (NoDup (Dict.keys (num_scheduled_tokens v))) as Hnd by (by rewrite H3).
  set (v' := {| v with scheduled_running_reqs := l1 ++ l2; token_budget := token_budget v + n;
    num_scheduled_tokens := Dict.del id (num_scheduled_tokens v);
    req_to_new_blocks := Dict.del id (req_to_new_blocks v);
    scheduled_spec_decode_tokens := Dict.del id (scheduled_spec_decode_tokens v);
    scheduled_encoder_inputs := Dict.del id (scheduled_encoder_inputs v);
    encoder_compute_budget := encoder_compute_budget v + 0; req_index := req_index v - 1 |}).
  exists v'. split.
  { unfold unschedule. rewrite (bind_ok _ _ _ _ _ (sched_ok _ _ v _ _ (get_request_ok _ _ _ Hr))). msteps. cbn [snd].
    rewrite El, R1. msteps. rewrite En. msteps. rewrite Eb. msteps. rewrite H6. msteps. done. }
  split.
  - destruct (H9 id n En) as (_ & _ & Hn & _). assert (scheduled v' = l1 ++ l2) as Es by (unfold scheduled; cbn; by rewrite Hnew, Hres, !app_nil_r).
    split; rewrite ?Es; cbn [v' num_scheduled_tokens req_to_new_blocks scheduled_spec_decode_tokens scheduled_encoder_inputs token_budget].
    + rewrite <- Permutation_middle in H1. by apply NoDup_cons in H1 as [_ ?].
    + intros x Hx. apply Hrun; [apply H2|by intros ->]. set_solver.
    + apply (Permutation_cons_inv (a := id)). rewrite Permutation_middle, <- H3. symmetry. 
      change (id :: Dict.keys (Dict.del id (num_scheduled_tokens v))) with (Dict.keys ((id, n) :: Dict.del id (num_scheduled_tokens v))).
      unfold Dict.keys. by rewrite <- (Dict.del_perm _ _ _ En).
    + rewrite !Dict.keys_del by (by rewrite ?H4). by rewrite H4.
    + destruct H5 as [H5 H5']. split; [by apply Dict.NoDup_del|]. intros x. rewrite Dict.keys_del by done.
      intros [Hne Hx]%list_elem_of_filter. apply H5' in Hx. set_solver.
    + by rewrite H6.
    + rewrite (sum_tokens_perm _ _ (Dict.del_perm _ _ _ En)) in H7. unfold sum_tokens in *. cbn [foldr snd] in H7. lia.
    + lia.
    + intros x m. rewrite Dict.get_del by done. case_decide; [done|]. intros Hm. destruct H5 as [H5 _].
      assert (Dict.get x (scheduled_spec_decode_tokens v') = Dict.get x (scheduled_spec_decode_tokens v)) as Esp
        by (cbn; by rewrite Dict.get_del, decide_False).
      apply (advance_frame s0); [|done|done|by rewrite Hk]. destruct (H9 x m Hm) as (y & Hy & Hb). exists y. by rewrite Esp.
  - split; [done|]. split; [done|]. split; [cbn; set_solver|]. split; [done|]. split; [|done]. cbn.
    destruct (H9 id n En) as (_ & _ & Hn & _). lia.
Qed.

Lemma remove_filter (x : string) m1 m2 : NoDup (m1 ++ x :: m2) -> m1 ++ m2 = filter (fun y => y ≠ x) (m1 ++ x :: m2).
Proof.
  intros (_ & Hd & Hm)%NoDup_app. apply NoDup_cons in Hm as [Hm _].
  assert (forall l : list string, x ∉ l -> filter (fun y => y ≠ x) l = l) as Hid.
  { induction l as [|y l IH]; [done|]. rewrite not_elem_of_cons. intros [? ?]. rewrite filter_cons_True by done. by rewrite IH. }
  rewrite filter_app, filter_cons_False by (intros Hx; by apply Hx). rewrite !Hid; [done|done|]. intros Hx. apply (Hd x Hx). by left.
Qed.

Lemma cursor_take s v cur m1 x m2 v1 : cursor s v cur -> running s = m1 ++ x :: m2 -> NoDup (running s) -> x <> cur ->
  sides v v1 -> (forall y, y ∈ scheduled_running_reqs v1 -> y ∈ scheduled_running_reqs v /\ y <> x) ->
  (req_index v1 = req_index v \/ (x ∈ scheduled_running_reqs v /\ req_index v1 = req_index v - 1)) ->
  cursor {| s with running := m1 ++ m2 |} v1 cur.
Proof.
  intros [(l1 & l2 & Hs & Hl & Hi) Hn Hr] Hm Hnd Hx [S1 S2 S3] Hsub Hidx. split; [|congruence..].
  exists (filter (fun y => y ≠ x) l1), (filter (fun y => y ≠ x) l2). split; [|split].
  - cbn [running]. rewrite (remove_filter x) by (by rewrite <- Hm). rewrite <- Hm, Hs, filter_app, filter_cons_True; [done|congruence].
  - intros y Hy. apply Hsub in Hy as [Hy Hne]. apply list_elem_of_filter. auto.
  - pose proof (length_filter (fun y => y ≠ x) l1) as Hle. unfold zlen in *. destruct Hidx as [->|[Hin ->]]; [lia|].
    assert (length (filter (fun y => y ≠ x) l1) < length l1)%nat; [|lia].
    eapply (length_filter_lt _ _ x); [by apply Hl|]. by intros Hf; apply Hf.
Qed.

(** One request leaves [running] to be preempted. *)
Lemma take_victim_ok b s v cur : phase b s v [] -> cursor s v cur ->
  exists id s1 v1, take_victim (s, v) = (Ok id, (s1, v1)) /\ inv s1 [id] (ids (step_skipped_waiting v1))
    /\ s1 = {| s with running := running s1 |} /\ step_ok b s1 v1 /\ sides v v1
    /\ length (running s) = Datatypes.S (length (running s1)) /\ (id = cur \/ cursor s1 v1 cur) /\ id ∉ scheduled v1
    /\ req_index v - 1 <= req_index v1 /\ token_budget v <= token_budget v1 /\ preempted_reqs v1 = preempted_reqs v.
Proof.
  intros [I Hst Hprev] Hcur. pose proof (si_places _ _ _ I) as Hnd. apply NoDup_app in Hnd as (Hnd & Hdis & _).
  assert (forall x, x ∈ running s -> exists r, find s x = Some r /\ request_id r = x) as Hfind.
  { intros x Hx. assert (is_Some (find s x)) as [r Hr] by (apply (si_live _ _ _ I); set_solver). exists r. split; [done|].
    by apply (si_named _ _ _ I). }
  assert (scheduled v = scheduled_running_reqs v) as Es.
  { unfold scheduled. rewrite (cu_new _ _ _ Hcur), (cu_resumed _ _ _ Hcur). by rewrite !app_nil_r. }
  pose proof Hcur as [(l1 & l2 & Hs & Hl & Hi) Hnew Hres].
  assert (forall x m1 m2, running s = m1 ++ x :: m2 -> inv {| s with running := m1 ++ m2 |} [x] (ids (step_skipped_waiting v))
    /\ length (running s) = Datatypes.S (length (m1 ++ m2)) /\ forall y, y ∈ running s -> y <> x -> y ∈ m1 ++ m2) as Hleave.
  { intros x m1 m2 Hm. split; [by apply (inv_take s m1 x m2 [])|]. rewrite Hm, !length_app. cbn [length]. split; [lia|set_solver]. }
  assert (forall x m1 m2, running s = m1 ++ x :: m2 -> x ∉ scheduled v ->
    step_ok b {| s with running := m1 ++ m2 |} v /\ (x = cur \/ cursor {| s with running := m1 ++ m2 |} v cur)) as Hfree.
  { intros x m1 m2 Hm Hx. destruct (Hleave x m1 m2 Hm) as (_ & _ & Hsub). split.
    - apply (step_ok_frame b s); [done..| |done|done]. intros y Hy. apply Hsub; [by apply (st_running _ _ _ Hst)|by intros ->].
    - destruct (decide (x = cur)) as [|Hne]; [by left|right]. apply (cursor_take s v cur m1 x m2 v); [done..| |by left].
      intros y Hy. split; [done|]. intros ->. by rewrite Es in Hx. }
  assert (cur ∉ l1) as Hfresh.
  { intros Hx. rewrite Hs in Hnd. apply NoDup_app in Hnd as (_ & Hd & _). apply (Hd _ Hx). by left. }
  unfold take_victim. rewrite (bind_ok _ _ (s, v) s (s, v)) by done. destruct (policy (config s)).
  - destruct (last (running s)) as [x|] eqn:Elast.
    2: { apply last_None in Elast. rewrite Elast in Hs. by destruct l1. }
    apply last_Some in Elast as [m Hm]. assert (removelast (running s) = m ++ []) as Er by (by rewrite Hm, removelast_last, app_nil_r).
    assert (x ∉ scheduled v) as Hx.
    { rewrite Es. intros Hx. apply Hl in Hx. rewrite Hs in Hnd, Hm. apply NoDup_app in Hnd as (_ & Hd & _). apply (Hd x Hx).
      assert (last (l1 ++ cur :: l2) = Some x) as El by (by rewrite Hm, last_snoc). rewrite last_app_cons in El.
      by apply last_Some_elem_of. }
    destruct (Hleave x m [] Hm) as (J1 & J2 & J3), (Hfree x m [] Hm Hx) as [J4 J5].
    exists x, {| s with running := m ++ [] |}, v. split; [|split_and!; first [done|lia]]. cbn [res_of_option]. msteps. cbn [fst snd]. by rewrite Er.
  - destruct (lowest_priority_ok s) as (x & R1 & Hx); [rewrite Hs; by destruct l1|done|].
    destruct (remove_one_ok _ _ Hx) as (m1 & m2 & Hm & R2). destruct (Hleave x m1 m2 Hm) as (J1 & J2 & J3).
    rewrite (bind_ok _ _ _ _ _ (sched_ok _ _ v _ _ R1)), R2. msteps.
    cbn [fst snd]. case_decide as Hsch.
    + destruct (Hfind x Hx) as (r & Hr & _).
      destruct (unschedule_ok b s {| s with running := m1 ++ m2 |} x v r) as (v1 & R3 & K1 & K2 & K3 & K4 & K5 & K6 & K7); [done..|].
      exists x, {| s with running := m1 ++ m2 |}, v1. rewrite (bind_ok _ _ _ _ _ R3). split; [done|].
      rewrite (sd_skipped _ _ K2). do 5 (split; [done|]). split.
      { destruct (decide (x = cur)) as [|Hne]; [by left|right]. apply (cursor_take s v cur m1 x m2 v1); [done..| |by right].
        intros y Hy. split; [by apply K4|by intros ->]. }
      split; [|split; [lia|done]]. unfold scheduled. rewrite (sd_new _ _ K2), (sd_resumed _ _ K2).
      rewrite (cu_new _ _ _ Hcur), (cu_resumed _ _ _ Hcur). by rewrite !app_nil_r.
    + assert (x ∉ scheduled v) as Hx' by (by rewrite Es). destruct (Hfree x m1 m2 Hm Hx') as [J4 J5].
      exists x, {| s with running := m1 ++ m2 |}, v. do 8 (split; [done|]). by split; [lia|].
Qed.

Lemma step_ok_same b s v v' : step_ok b s v -> scheduled v' = scheduled v -> num_scheduled_tokens v' = num_scheduled_tokens v ->
  req_to_new_blocks v' = req_to_new_blocks v -> scheduled_spec_decode_tokens v' = scheduled_spec_decode_tokens v ->
  scheduled_encoder_inputs v' = scheduled_encoder_inputs v -> token_budget v' = token_budget v -> step_ok b s v'.
Proof.
  intros [H1 H2 H3 H4 H5 H6 H7 H8 H9] E1 E2 E3 E4 E5 E6. split; rewrite ?E1, ?E2, ?E3, ?E4, ?E5, ?E6; try done.
  intros id n Hn. unfold advance_ok. rewrite E4. by apply H9.
Qed.

Lemma same_but_cache_fine (s s' : S) r r' : same_but_cache r r' -> fine s r -> config s' = config s ->
  kv_frame (Some (request_id r)) (kv s) (kv s') -> fine s' r'.
Proof. unfold same_but_cache. intros -> [F1 F2 F3 F4] Hc Hf. by apply (fine_frame (Some (request_id r)) s). Qed.

(** A running request that was not scheduled got slots or not: it stays where it is. *)
Lemma slots_running b s v id r k' r' : phase b s v [] -> id ∈ running s -> id ∉ scheduled v -> find s id = Some r ->
  kv_ok k' -> kv_frame (Some id) (kv s) k' -> same_but_cache r r' -> kv_holds k' id (num_computed_tokens r) ->
  let s' := {| s with kv_cache_manager := k'; requests := Dict.set (request_id r') r' (requests s) |} in
  phase b s' v [] /\ about id s s' /\ find s' id = Some r'.
Proof.
  intros [I Hst Hprev] Hid Hns Hr Hk Hf Hsame Hh s'. pose proof (si_named _ _ _ I _ _ Hr) as Hn.
  assert (request_id r' = id) as Hn' by (rewrite <- Hn; unfold same_but_cache in Hsame; by rewrite Hsame).
  assert (find s' id = Some r') as Hr' by (unfold find, s'; cbn [requests]; by rewrite Dict.get_set, decide_True).
  assert (about id s s') as Hab.
  { split; [done..| |done|by apply Dict.NoDup_set]. intros x Hx. unfold find, s'. cbn [requests]. rewrite Dict.get_set, decide_False; [done|congruence]. }
  assert (id ∉ queued s ++ ids (step_skipped_waiting v)) as Hnq.
  { pose proof (si_places _ _ _ I) as Hnd. apply NoDup_app in Hnd as (_ & Hd & _). by apply (Hd id Hid). }
  split; [|done]. split.
  - apply (inv_change s s' id r r' [] (ids (step_skipped_waiting v))); try done.
    + by rewrite Hsame.
    + apply (same_but_cache_fine s _ r); [done|by apply (si_fine _ _ _ I id)|done|by rewrite Hn].
    + intros x Hx. by right.
    + intros x Hx. by right.
    + intros _. destruct (si_running _ _ _ I id r) as [R1 R2 R3 R4]; [set_solver|done|].
      unfold same_but_cache in Hsame. rewrite Hsame. split; try done. cbn [request_id num_computed_tokens]. by rewrite Hn.
    + by eapply queue_fine_about; [apply I|done..|rewrite Hsame].
    + by eapply queue_fine_about; [apply I|done..|rewrite Hsame].
  - apply (step_ok_about b s _ v id); [done..|]. apply (st_running _ _ _ Hst).
  - intros Hp x y Hx Hy. apply (Hprev Hp x y Hx). rewrite <- (ab_others _ _ _ Hab); [done|]. intros ->. apply Hnq. apply elem_of_app. by left.
Qed.

(** The victim is preempted. *)
Lemma victim_ok b s v cur : phase b s v [] -> cursor s v cur ->
  exists id s1 v1 s2, take_victim (s, v) = (Ok id, (s1, v1)) /\ preempt_request order id s1 = (Ok tt, s2)
    /\ phase b s2 {| v1 with preempted_reqs := preempted_reqs v1 ++ [id] |} [] /\ still s s2 /\ sides v v1
    /\ length (running s) = Datatypes.S (length (running s2)) /\ (id = cur \/ cursor s2 v1 cur)
    /\ (forall x, x <> id -> find s2 x = find s x) /\ req_index v - 1 <= req_index v1 /\ token_budget v <= token_budget v1.
Proof.
  intros Hph Hcur. destruct (take_victim_ok b s v cur Hph Hcur) as (id & s1 & v1 & R1 & I1 & E1 & Hst & Hsd & Hlen & Hc & Hns & Hidx & Hb & _).
  assert (is_Some (find s1 id)) as [r Hr] by (apply (si_live _ _ _ I1); set_solver).
  destruct (preempt_ok order s1 id r _ order_nil I1 Hr) as (s2 & r' & R2 & I2 & Hab & Hrun & _ & _ & Hr2).
  assert (still s s2) as Hstill by (eapply still_trans; [|by eapply still_about]; rewrite E1; done).
  exists id, s1, v1, s2. split; [done|]. split; [done|]. split; [split|].
  - exact I2.
  - apply (step_ok_same b s2 v1); [|done..]. eapply step_ok_about; [done..|]. rewrite Hrun. apply (st_running _ _ _ Hst).
  - cbn [preempted_reqs]. by destruct (preempted_reqs v1).
  - rewrite Hrun. do 3 (split; [done|]). split; [|split; [|done]].
    + destruct Hc as [->|[C1 C2 C3]]; [by left|right]. split; [by rewrite Hrun|done..].
    + intros x Hx. rewrite (ab_others _ _ _ Hab _ Hx). by rewrite E1.
Qed.

Lemma allocate_loop_ok b cur n fuel : forall s v r, phase b s v [] -> cursor s v cur -> (length (running s) <= fuel)%nat ->
  find s cur = Some r -> 0 < n -> num_computed_tokens r + n < sc_max_model_len (config s) ->
  exists o s' v', allocate_loop order fuel cur n (s, v) = (Ok o, (s', v')) /\ phase b s' v' [] /\ still s s' /\ sides v v'
    /\ zlen (running s') <= zlen (running s) /\ zlen (running s') - req_index v' <= zlen (running s) - req_index v
    /\ token_budget v <= token_budget v'
    /\ match o with
       | None => True
       | Some _ => cursor s' v' cur /\ exists r', find s' cur = Some r' /\ same_but_cache r r'
           /\ forall t, num_computed_tokens r <= t <= num_computed_tokens r + n -> kv_holds (kv s') cur t
       end.
Proof.
  induction fuel as [|fuel IH]; intros s v r Hph Hcur Hfuel Hr Hn Hmax.
  { destruct (cu_split _ _ _ Hcur) as (l1 & l2 & Hs & _). rewrite Hs, length_app in Hfuel. cbn in Hfuel. lia. }
  pose proof (ph_inv _ _ _ _ Hph) as I. pose proof (si_named _ _ _ I _ _ Hr) as Hname.
  assert (cur ∈ running s) as Hin by (destruct (cu_split _ _ _ Hcur) as (l1 & l2 & -> & _); set_solver).
  destruct (si_running _ _ _ I cur r) as [_ Hcomp _ Hhold]; [set_solver|done|].
  assert (cur ∉ scheduled v) as Hns.
  { destruct Hcur as [(l1 & l2 & Hs & Hl & _) E1 E2]. unfold scheduled. rewrite E1, E2, !app_nil_r. intros Hx%Hl.
    pose proof (si_places _ _ _ I) as Hnd. apply NoDup_app in Hnd as (Hnd & _). rewrite Hs in Hnd.
    apply NoDup_app in Hnd as (_ & Hd & _). apply (Hd _ Hx). by left. }
  destruct (law_allocate_running (kv s) r n (num_lookahead_tokens (config s))) as (o & k' & r' & R1 & Hk' & Hf & Hsame & Ho);
    [apply I|done|apply (si_fine _ _ _ I _ _ Hr)|lia|done|apply (pc_lookahead _ (si_config _ _ _ I))|pose proof (si_limit _ _ _ I); lia|].
  rewrite Hname in Hf, Ho.
  destruct (slots_running b s v cur r k' r') as (Hph1 & Hab & Hr1); [done..| |].
  { destruct o; [apply Ho; lia|done]. }
  set (s1 := {| s with kv_cache_manager := k'; requests := Dict.set (request_id r') r' (requests s) |}) in *.
  assert (cursor s1 v cur) as Hcur1 by (by destruct Hcur).
  cbn [allocate_loop]. rewrite (bind_ok _ _ _ _ _ (sched_ok _ _ v _ _ (get_request_ok _ _ _ Hr))).
  rewrite (bind_ok _ _ (s, v) s (s, v)) by done. rewrite (bind_ok _ _ _ _ _ (sched_ok _ _ v _ _ (kv_request_ok _ _ _ _ _ _ R1))).
  fold s1. destruct o as [bl|].
  { exists (Some bl), s1, v. split; [done|]. split; [done|]. split; [by eapply still_about|]. do 5 (split; [done|]). by exists r'. }
  destruct (victim_ok b s1 v cur Hph1 Hcur1) as (id & s2 & v2 & s3 & R2 & R3 & Hph3 & Hst3 & Hsd & Hlen & Hc & Hoth & Hidx & Hb).
  set (v3 := {| v2 with preempted_reqs := preempted_reqs v2 ++ [id] |}) in *.
  assert (still s s3) as Hstill by (eapply still_trans; [by eapply still_about|done]). assert (sides v v3) as Hsd3 by (by destruct Hsd).
  change (running s1) with (running s) in Hlen. assert (zlen (running s) = zlen (running s3) + 1) as Hzl by (unfold zlen; lia).
  rewrite (bind_ok _ _ _ _ _ R2), (bind_ok _ _ _ _ _ (sched_ok _ _ v2 _ _ R3)). msteps. fold v3.
  destruct (String.eqb_spec id cur) as [->|Hne].
  { exists None, s3, v3. split; [done|]. do 2 (split; [done|]). split; [done|]. split; [lia|]. split; [cbn; lia|]. split; [cbn; lia|done]. }
  destruct Hc as [?|[C1 C2 C3]]; [done|].
  destruct (IH s3 v3 r') as (o & s' & v' & R4 & Hph' & Hst' & Hsd' & L1 & L2 & L3 & Ho'); [done|by split|lia|by rewrite Hoth|done|..].
  { rewrite (stl_config _ _ Hstill). unfold same_but_cache in Hsame. by rewrite Hsame. }
  exists o, s', v'. split; [exact R4|]. split; [done|]. split; [by eapply still_trans|]. split; [by eapply (sides_trans v v3)|].
  cbn in L2, L3. do 3 (split; [lia|]). destruct o; [|done]. destruct Ho' as (Hc' & r'' & Hr'' & Hs'' & Hh). split; [done|].
  exists r''. split; [done|]. split; [by eapply same_but_cache_trans|]. unfold same_but_cache in Hsame. by rewrite Hsame in Hh.
Qed.

(** A request that was not scheduled is scheduled now. *)
Lemma step_ok_add b s s' v v' id n bl : step_ok b s v -> about id s s' -> id ∉ scheduled v ->
  (forall x, x ∈ running s \/ x = id -> x ∈ running s') -> scheduled v' ≡ₚ id :: scheduled v ->
  num_scheduled_tokens v' = Dict.set id n (num_scheduled_tokens v) -> req_to_new_blocks v' = Dict.set id bl (req_to_new_blocks v) ->
  token_budget v' = token_budget v - n -> n <= token_budget v -> scheduled_encoder_inputs v' = [] ->
  NoDup (Dict.keys (scheduled_spec_decode_tokens v')) ->
  (forall x, x ∈ Dict.keys (scheduled_spec_decode_tokens v') -> x = id \/ x ∈ Dict.keys (scheduled_spec_decode_tokens v)) ->
  (forall x, x <> id -> Dict.get x (scheduled_spec_decode_tokens v') = Dict.get x (scheduled_spec_decode_tokens v)) ->
  advance_ok s' v' id n -> step_ok b s' v'.
Proof.
  intros Hst Hab Hid Hrun HP En Eb Et Hn Ee Hsp Hspk Hspx Hadv.
  assert (step_ok b s' v) as [H1 H2 H3 H4 H5 H6 H7 H8 H9].
  { eapply step_ok_about; [done..|]. intros x Hx. apply Hrun. left. by apply (st_running _ _ _ Hst). }
  assert (id ∉ Dict.keys (num_scheduled_tokens v)) as Hk by (by rewrite H3).
  split; rewrite ?En, ?Eb, ?Et; try done.
  - rewrite HP. by apply NoDup_cons.
  - intros x. rewrite HP. intros [->|Hx]%elem_of_cons; [apply Hrun; by right|by apply H2].
  - rewrite HP, Dict.keys_set_new by done. unfold Dict.keys in *. rewrite fmap_app, H3. cbn. by rewrite Permutation_app_comm.
  - rewrite !Dict.keys_set_new by (by rewrite ?H4). unfold Dict.keys in *. by rewrite !fmap_app, H4.
  - split; [done|]. intros x Hx. rewrite HP. apply elem_of_cons. destruct (Hspk x Hx) as [->|Hx']; [by left|right]. by apply H5.
  - rewrite Dict.keys_set_new by done. rewrite (sum_tokens_perm _ ((id, n) :: num_scheduled_tokens v)) by (by rewrite Permutation_app_comm).
    unfold sum_tokens in *. cbn [foldr snd]. lia.
  - lia.
  - intros x m. rewrite Dict.get_set. case_decide as Hx; [subst; by intros [= ->]|]. intros Hm. destruct (H9 x m Hm) as (r & Hr & Hadv').
    exists r. by rewrite Hspx.
Qed.

(** The head of the loop over the running requests. *)
Record loop_head (s : S) (v : Step) : Prop := {
  lh_split : exists l1 l2, running s = l1 ++ l2 /\ (forall x, x ∈ scheduled_running_reqs v -> x ∈ l1) /\ zlen l1 <= req_index v;
  lh_new : scheduled_new_reqs v = [];
  lh_resumed : scheduled_resumed_reqs v = [];
}.

(** The draft tokens of the step cover what is computed beyond the tokens. *)
Lemma scheduled_spec_ok r n : num_computed_tokens r + n <= num_tokens_with_spec r + num_output_placeholders r ->
  num_computed_tokens r + n <= num_tokens r + num_output_placeholders r + zlen (scheduled_spec r n).
Proof.
  intros Hn. unfold scheduled_spec, num_tokens_with_spec, num_tokens in *.
  destruct (Z.ltb_spec 0 (n + num_computed_tokens r - zlen (all_token_ids r) - num_output_placeholders r)) as [Hlt|Hge].
  - rewrite py_upto_nonneg by lia. unfold zlen in *. rewrite length_take. lia.
  - change (zlen (@nil Z)) with 0. lia.
Qed.

Lemma scheduled_spec_short r n : num_computed_tokens r <= num_tokens r + num_output_placeholders r -> 0 <= n ->
  zlen (scheduled_spec r n) <= n.
Proof.
  intros Hb Hn. unfold scheduled_spec. destruct (0 <? _) eqn:E; [|done]. rewrite py_upto_nonneg by lia. unfold zlen. rewrite length_take. lia.
Qed.

Lemma record_none id (s : S) v r budget : find s id = Some r -> record_encoder id [] [] budget (s, v) = (Ok tt, (s, v)).
Proof.
  intros Hr. unfold record_encoder. rewrite (bind_ok _ _ _ _ _ (sched_ok _ _ v _ _ (get_request_ok _ _ _ Hr))). msteps.
  unfold on_sched, on_fst, on_encoder, zoom. cbn. by destruct s.
Qed.

Lemma commit_running_ok b s v cur r bl n budget : phase b s v [] -> cursor s v cur -> find s cur = Some r ->
  0 < n <= token_budget v -> num_computed_tokens r + n < sc_max_model_len (config s) ->
  num_computed_tokens r + n <= num_tokens_with_spec r + num_output_placeholders r ->
  (forall t, num_computed_tokens r <= t <= num_computed_tokens r + n -> kv_holds (kv s) cur t) ->
  exists s' v', commit_running cur bl n [] [] budget (s, v) = (Ok tt, (s', v')) /\ phase b s' v' [] /\ still s s'
    /\ step_skipped_waiting v' = step_skipped_waiting v /\ running s' = running s /\ loop_head s' v' /\ req_index v' = req_index v + 1.
Proof.
  intros [I Hst Hprev] Hcur Hr Hn Hmax Hspec Hh. destruct Hcur as [(l1 & l2 & Hs & Hl & Hi) Hnew Hres].
  pose proof (si_named _ _ _ I _ _ Hr) as Hname. pose proof (si_places _ _ _ I) as Hnd. apply NoDup_app in Hnd as (Hnd & Hdis & _).
  assert (cur ∈ running s) as Hin by (rewrite Hs; set_solver). pose proof (Hdis _ Hin) as Hnq. cbn [app] in Hnq.
  destruct (si_running _ _ _ I cur r) as [F1 F2 F3 F4]; [set_solver|done|]. pose proof (si_fine _ _ _ I _ _ Hr) as [G1 G2 G3 G4 G5].
  assert (scheduled v = scheduled_running_reqs v) as Es by (unfold scheduled; by rewrite Hnew, Hres, !app_nil_r).
  assert (cur ∉ scheduled v) as Hns.
  { rewrite Es. intros Hx%Hl. rewrite Hs in Hnd. apply NoDup_app in Hnd as (_ & Hd & _). apply (Hd _ Hx). by left. }
  set (v1 := {| v with scheduled_running_reqs := scheduled_running_reqs v ++ [cur];
    req_to_new_blocks := Dict.set cur bl (req_to_new_blocks v);
    num_scheduled_tokens := Dict.set cur n (num_scheduled_tokens v);
    token_budget := token_budget v - n; req_index := req_index v + 1 |}).
  set (r' := {| r with spec_token_ids := [] |}).
  set (sp := scheduled_spec r n).
  set (v2 := if 0 <? zlen (spec_token_ids r) then match sp with [] => v1 | l => {| v1 with scheduled_spec_decode_tokens := Dict.set cur l (scheduled_spec_decode_tokens v1) |} end else v1).
  set (s2 := if 0 <? zlen (spec_token_ids r) then {| s with requests := Dict.set cur r' (requests s) |} else s).
  assert (commit_running cur bl n [] [] budget (s, v) = (Ok tt, (s2, v2))) as R.
  { unfold commit_running. rewrite (bind_ok _ _ _ _ _ (vars_ok _ s v)). fold v1.
    rewrite (bind_ok _ _ _ _ _ (sched_ok _ _ v1 _ _ (get_request_ok _ _ _ Hr))). unfold v2, s2, sp.
    destruct (0 <? zlen (spec_token_ids r)).
    - destruct (scheduled_spec r n) as [|x l]; msteps; fold r'; change (request_id r') with (request_id r); rewrite Hname;
        (erewrite record_none; [reflexivity|unfold find; cbn; by rewrite Dict.get_set, decide_True]).
    - msteps. by erewrite record_none. }
  exists s2, v2. split; [exact R|].
  assert (find s2 cur = Some r') as Hr2.
  { unfold s2. destruct (Z.ltb_spec 0 (zlen (spec_token_ids r))) as [_|Hz]; [unfold find; cbn; by rewrite Dict.get_set, decide_True|].
    assert (spec_token_ids r = []) as Hsp by (destruct (spec_token_ids r); [done|rewrite zlen_cons in Hz; pose proof (zlen_nonneg l); lia]).
    rewrite Hr. f_equal. unfold r'. rewrite <- Hsp. by destruct r. }
  assert (s2 = {| s with requests := requests s2 |}) as Es2 by (unfold s2; destruct (0 <? _); by destruct s).
  assert (about cur s s2) as Hab.
  { rewrite Es2. split; [done..| |done|unfold s2; destruct (0 <? _); [by apply Dict.NoDup_set|done] ]. intros x Hx. unfold find. cbn [requests]. unfold s2. destruct (0 <? _); [|done].
    cbn [requests]. by rewrite Dict.get_set, decide_False. }
  assert (v2 = {| v1 with scheduled_spec_decode_tokens := scheduled_spec_decode_tokens v2 |}) as Ev2.
  { unfold v2. destruct (0 <? _); [|done]. by destruct sp. }
  split; [split|].
  - assert (running s2 = running s /\ waiting s2 = waiting s /\ skipped_waiting s2 = skipped_waiting s /\ kv s2 = kv s) as (E1 & E2 & E3 & E4)
      by (by rewrite Es2).
    assert (queued s2 = queued s) as E5 by (unfold queued; by rewrite E2, E3). rewrite Ev2.
    apply (inv_change s s2 cur r r' [] (ids (step_skipped_waiting v))); rewrite ?E1, ?E5, ?E2, ?E3, ?E4; try done.
    + apply (fine_frame None s); [by split|by rewrite Es2|by rewrite E4].
    + apply I.
    + intros x Hx. by right.
    + intros x Hx. by right.
    + intros _. split; [done|by rewrite (ab_config _ _ _ Hab)|done|]. cbn. by rewrite E4.
    + by eapply queue_fine_about; [apply I|done..].
    + by eapply queue_fine_about; [apply I|done..].
  - assert (scheduled_spec_decode_tokens v2 = scheduled_spec_decode_tokens v /\ (spec_token_ids r = [] \/ sp = [])
      \/ scheduled_spec_decode_tokens v2 = Dict.set cur sp (scheduled_spec_decode_tokens v)) as Hsp.
    { unfold v2. destruct (Z.ltb_spec 0 (zlen (spec_token_ids r))) as [_|Hz].
      - destruct sp; [left; split; [done|by right]|by right].
      - left. split; [done|left]. destruct (spec_token_ids r); [done|rewrite zlen_cons in Hz; pose proof (zlen_nonneg l); lia]. }
    assert (running s2 = running s /\ kv s2 = kv s /\ config s2 = config s) as (E1 & E2 & E3) by (by rewrite Es2).
    rewrite Ev2. apply (step_ok_add b s s2 v _ cur n bl); try done; try lia; cbn [scheduled_spec_decode_tokens].
    + intros x. rewrite E1. by intros [?| ->].
    + unfold scheduled. cbn [scheduled_running_reqs scheduled_new_reqs scheduled_resumed_reqs v1]. rewrite Hnew, Hres, !app_nil_r.
      by rewrite Permutation_app_comm.
    + apply (st_encoder _ _ _ Hst).
    + pose proof (st_spec _ _ _ Hst) as [? _]. destruct Hsp as [[-> _]| ->]; [done|by apply Dict.NoDup_set].
    + intros x. destruct Hsp as [[-> _]| ->]; [by right|]. by rewrite Dict.elem_keys_set.
    + intros x Hx. destruct Hsp as [[-> _]| ->]; [done|by rewrite Dict.get_set, decide_False].
    + assert (Dict.get cur (scheduled_spec_decode_tokens v) = None) as Hnone.
      { destruct (Dict.get cur (scheduled_spec_decode_tokens v)) eqn:Eg; [|done]. exfalso. apply Hns, (st_spec _ _ _ Hst), Dict.elem_keys. by eexists. }
      pose proof (scheduled_spec_ok r n Hspec) as Hc. pose proof (scheduled_spec_short r n) as Hd. fold sp in Hc, Hd.
      assert (default [] (Dict.get cur (scheduled_spec_decode_tokens v2)) = sp \/ (spec_token_ids r = []
        /\ default [] (Dict.get cur (scheduled_spec_decode_tokens v2)) = [])) as Hsp'.
      { destruct Hsp as [[-> Hsp]| ->]; [rewrite Hnone|left; by rewrite Dict.get_set, decide_True]. destruct Hsp as [Hsp|Hsp]; [by right|left].
        by rewrite Hsp. }
      exists r'. rewrite E2, E3. cbn [scheduled_spec_decode_tokens]. split_and!; [done|lia|done|..|done];
        change (num_tokens r') with (num_tokens r); change (num_computed_tokens r') with (num_computed_tokens r);
        change (num_output_placeholders r') with (num_output_placeholders r);
        (destruct Hsp' as [->|[Hsp' ->]]; [lia|]); unfold num_tokens_with_spec, num_tokens in *; rewrite ?Hsp' in *;
        change (zlen (@nil Z)) with 0 in *; lia.
  - rewrite Ev2. cbn [preempted_reqs v1]. intros Hp x y. assert (queued s2 = queued s) as -> by (unfold queued; by rewrite Es2).
    intros Hx Hy. rewrite (ab_prev _ _ _ Hab). apply (Hprev Hp x y Hx). rewrite <- (ab_others _ _ _ Hab); [done|].
    intros ->. apply Hnq. apply elem_of_app. by left.
  - split; [by eapply still_about|]. assert (running s2 = running s) as E1 by (by rewrite Es2). rewrite Ev2, E1. do 2 (split; [done|]).
    split; [|done]. split; [|done..]. exists (l1 ++ [cur]), l2. rewrite E1, <- app_assoc. split; [done|]. cbn. split.
    + intros x [Hx|Hx]%elem_of_app; apply elem_of_app; [left; by apply Hl|by right].
    + unfold zlen in *. rewrite length_app. cbn. lia.
Qed.


Lemma running_num_new_tokens_ok c r budget n : running_num_new_tokens c r budget = Some n -> 0 < budget ->
  num_computed_tokens r < sc_max_model_len c -> num_computed_tokens r <= num_tokens r + num_output_placeholders r ->
  0 <= n <= budget /\ num_computed_tokens r + n < sc_max_model_len c
  /\ num_computed_tokens r + n <= num_tokens_with_spec r + num_output_placeholders r.
Proof.
  unfold running_num_new_tokens, num_tokens_with_spec, num_tokens. pose proof (zlen_nonneg (spec_token_ids r)).
  case_match; [done|]. intros [= <-] Hb Hc Ht.
  destruct ((0 <? long_prefill_token_threshold c) && (long_prefill_token_threshold c <?
    zlen (all_token_ids r) + zlen (spec_token_ids r) + num_output_placeholders r - num_computed_tokens r)) eqn:E; breflect; lia.
Qed.

Lemma schedule_encoder_none c r a n budget (s : S) : mm_features r = [] ->
  schedule_encoder ec_connector c r a n budget s = (Ok ([], n, budget, []), s).
Proof. intros Hr. unfold schedule_encoder, has_encoder_inputs, num_encoder_inputs. by rewrite Hr. Qed.

(** One turn of the loop over the running requests. *)
Lemma running_one_ok b s v : phase b s v [] -> loop_head s v -> req_index v < zlen (running s) -> 0 < token_budget v ->
  exists c s' v', schedule_running_one order ec_connector (s, v) = (Ok c, (s', v')) /\ phase b s' v' [] /\ still s s'
    /\ zlen (running s') <= zlen (running s) /\ sides v v'
    /\ (c = true -> loop_head s' v' /\ zlen (running s') - req_index v' < zlen (running s) - req_index v).
Proof.
  intros Hph [(l1 & l2 & Hs & Hl & Hi) Hnew Hres] Hidx Hbud. pose proof Hph as [I Hst Hprev]. pose proof (zlen_nonneg l1) as Hz.
  destruct (running s !! Z.to_nat (req_index v)) as [cur|] eqn:Ecur; [|apply lookup_ge_None in Ecur; unfold zlen in *; lia].
  assert (cursor s v cur) as Hcur.
  { split; [|done..]. exists (take (Z.to_nat (req_index v)) (running s)), (drop (Datatypes.S (Z.to_nat (req_index v))) (running s)).
    split; [by rewrite take_drop_middle|]. split; [|unfold zlen; rewrite length_take; lia].
    intros x Hx%Hl. rewrite Hs, take_app_ge by (unfold zlen in Hi; lia). apply elem_of_app. by left. }
  assert (cur ∈ running s) as Hin by (by eapply list_elem_of_lookup_2).
  assert (is_Some (find s cur)) as [r Hr] by (apply (si_live _ _ _ I); set_solver).
  destruct (si_running _ _ _ I cur r) as [F1 F2 F3 F4]; [set_solver|done|]. pose proof (si_fine _ _ _ I _ _ Hr) as [G1 G2 G3 G4 G5].
  unfold schedule_running_one. msteps. rewrite py_get_nonneg by lia. rewrite Ecur. cbn [res_of_option]. msteps.
  rewrite (bind_ok _ _ _ _ _ (sched_ok _ _ v _ _ (get_request_ok _ _ _ Hr))).
  assert (forall v', v' = {| v with req_index := req_index v + 1 |} -> phase b s v' [] /\ sides v v' /\ loop_head s v') as Hskip.
  { intros v' ->. split; [split; [done|by apply (step_ok_same b s v)|done]|]. split; [done|]. split; [|done..].
    exists l1, l2. split; [done|]. split; [done|]. cbn. lia. }
  destruct (running_num_new_tokens (config s) r (token_budget v)) as [n|] eqn:En.
  2: { destruct (Hskip _ eq_refl) as (S1 & S2 & S3). eexists true, s, _. split; [by msteps|]. do 4 (split; [done|]). intros _. cbn; split; [done|lia]. }
  destruct (running_num_new_tokens_ok _ _ _ _ En Hbud) as (N1 & N2 & N3); [lia|lia|].
  rewrite (bind_ok _ _ _ _ _ (sched_ok _ _ v _ _ (schedule_encoder_none _ r _ _ _ s G1))). rewrite (pc_mamba _ (si_config _ _ _ I)). msteps.
  destruct (Z.eqb_spec n 0) as [->|Hn0].
  { destruct (Hskip _ eq_refl) as (S1 & S2 & S3). eexists true, s, _. split; [by msteps|]. do 4 (split; [done|]). intros _. cbn; split; [done|lia]. }
  destruct (allocate_loop_ok b cur n (length (running s)) s v r) as (o & s1 & v1 & R1 & Hph1 & Hst1 & Hsd1 & L1 & L2 & L3 & Ho); [done..|lia|done|].
  rewrite (bind_ok _ _ _ _ _ R1). destruct o as [bl|]; [|by exists false, s1, v1].
  destruct Ho as (Hcur1 & r1 & Hr1 & Hsame & Hh). assert (sides v v1) as [S1 S2 S3] by done.
  assert (num_computed_tokens r1 = num_computed_tokens r /\ num_tokens_with_spec r1 = num_tokens_with_spec r
    /\ num_output_placeholders r1 = num_output_placeholders r) as (Q1 & Q2 & Q3) by (unfold same_but_cache in Hsame; by rewrite Hsame).
  destruct (commit_running_ok b s1 v1 cur r1 bl n (encoder_compute_budget v)) as (s2 & v2 & R2 & Hph2 & Hst2 & E1 & E2 & [P1 P2 P3] & E3);
    rewrite ?Q1, ?Q2, ?Q3, ?(stl_config _ _ Hst1); [done..|lia|done|done|done|].
  exists true, s2, v2. rewrite (bind_ok _ _ _ _ _ R2). split; [done|]. split; [done|]. split; [by eapply still_trans|]. rewrite E2.
  split; [done|]. split; [split; congruence|]. intros _. split; [done|lia].
Qed.

Lemma running_loop_ok b fuel : forall s v, phase b s v [] -> loop_head s v -> zlen (running s) - req_index v <= Z.of_nat fuel ->
  exists s' v', running_loop order ec_connector fuel (s, v) = (Ok tt, (s', v')) /\ phase b s' v' [] /\ still s s'
    /\ zlen (running s') <= zlen (running s) /\ sides v v'.
Proof.
  induction fuel as [|fuel IH]; intros s v Hph Hlh Hf; cbn [running_loop]; msteps;
    (destruct ((req_index v <? zlen (running s)) && (0 <? token_budget v)) eqn:Ec; [|by exists s, v]);
    apply andb_true_iff in Ec as [E1 E2]; [lia|].
  destruct (running_one_ok b s v) as (c & s1 & v1 & R1 & Hph1 & Hst1 & L1 & Hsd1 & Hc); [done|done|lia|lia|].
  rewrite (bind_ok _ _ _ _ _ R1). destruct c; [|by exists s1, v1]. destruct (Hc eq_refl) as [Hlh1 L2].
  destruct (IH s1 v1) as (s2 & v2 & R2 & Hph2 & Hst2 & L3 & Hsd2); [done|done|lia|]. exists s2, v2. split; [done|]. split; [done|].
  split; [by eapply still_trans|]. split; [lia|by eapply sides_trans].
Qed.

End phases.
End SchedPhases.
