(* ===== verification/SchedWaiting.v ===== *)
(** [schedule] on a scheduler whose books are in order: the waiting requests. *)

From S2P Require Import Prelude FreeQueue Request Hashing Metrics BlockPool KVSpec SingleType Coordinator KVManager EncoderCache Heap ReqQueue Scheduler SchedContract SchedFacts SchedPhases.
Local Open Scope Z_scope.

Module SchedWaiting.
Import Sched QueueSets SchedFacts SchedPhases.

Abbreviation queue_len s := (Queue.len (waiting s) + Queue.len (skipped_waiting s)).

Section waiting.
Context {K C : Type} `{KL : KVLaws K} `{EL : EncoderLaws C}.

Abbreviation S := (Scheduler K C).
Abbreviation kv s := (kv_cache_manager s).
Abbreviation inv s run wait := (sched_inv (slack := fun _ => 0) s run wait).

Lemma queue_fine_sub (s : S) q q' : queue_fine s q -> Queue.queue_ok q' -> (forall x, x ∈ Queue.elements q' -> x ∈ Queue.elements q) ->
  queue_fine s q'.
Proof. intros [_ Hq] Hok Hsub. split; [done|]. intros x Hx. by apply Hq, Hsub. Qed.

Lemma elem_of_list_two {A} (x a c : A) : x ∈ [a; c] -> x = a \/ x = c.
Proof. set_solver. Qed.

(** The queue the code looks at is not empty. *)
Lemma select_ok (s : S) : Queue.queue_ok (waiting s) -> Queue.queue_ok (skipped_waiting s) ->
  Queue.bool_of (waiting s) || Queue.bool_of (skipped_waiting s) = true ->
  exists q, select_waiting_queue s = Ok (Some q) /\ Queue.elements (chosen q s) <> [].
Proof.
  intros Hw Hs Hb. unfold select_waiting_queue.
  destruct (Queue.bool_of (waiting s)) eqn:Ew, (Queue.bool_of (skipped_waiting s)) eqn:Es; try done;
    rewrite ?bool_of_spec in Ew; rewrite ?bool_of_spec in Es.
  - destruct (policy (config s)); [by exists Skipped|]. cbn [andb].
    destruct (pop_elements _ Hw Ew) as (r1 & q1 & -> & _), (pop_elements _ Hs Es) as (r2 & q2 & -> & _). cbn.
    destruct (request_lt r1 r2); [by exists Waiting|by exists Skipped].
  - destruct (policy (config s)); by exists Waiting.
  - destruct (policy (config s)); by exists Skipped.
Qed.

(** What is known when the head of a queue is popped. *)
Record popped (s : S) (q : queue_choice) (h r : Request) (q' : RequestQueue) : Prop := {
  po_find : find s (request_id h) = Some r;
  po_object : oid r = oid h;
  po_name : request_id r = request_id h;
  po_queued : queued s ≡ₚ request_id h :: queued (set_chosen q q' s);
  po_waitq : queue_fine s (waiting (set_chosen q q' s));
  po_skipq : queue_fine s (skipped_waiting (set_chosen q q' s));
  po_pop : forall s3 : S, chosen q s3 = chosen q s -> pop_chosen q s3 = (Ok h, set_chosen q q' s3);
  po_len : Queue.len (waiting s) + Queue.len (skipped_waiting s)
    = Queue.len (waiting (set_chosen q q' s)) + Queue.len (skipped_waiting (set_chosen q q' s)) + 1;
}.

Lemma pop_head_ok s q run wait : inv s run wait -> Queue.elements (chosen q s) <> [] ->
  exists h r q', Queue.peek_request (chosen q s) = Ok h /\ popped s q h r q'.
Proof.
  intros I Hne. assert (queue_fine s (chosen q s)) as [Hok Hobj] by (destruct q; apply I).
  destruct (pop_elements _ Hok Hne) as (h & q' & R1 & R2 & Hok' & HP). destruct (Hobj h) as (r & Hr & Ho); [rewrite HP; by left|].
  assert (queue_fine s q') as Hq' by (apply (queue_fine_sub s (chosen q s)); [done..|]; intros x Hx; rewrite HP; by right).
  exists h, r, q'. split; [done|]. split; [done|done|by apply (si_named _ _ _ I)|..].
  - unfold queued, ids. destruct q; cbn [chosen] in HP; cbn [set_chosen waiting skipped_waiting]; rewrite HP, fmap_cons; [done|].
    by rewrite <- Permutation_middle.
  - destruct q; [done|apply I].
  - destruct q; [apply I|done].
  - intros s3 E. unfold pop_chosen. msteps. rewrite E, R2. by msteps.
  - unfold Queue.len. destruct q; cbn [chosen] in HP; cbn [set_chosen waiting skipped_waiting]; unfold zlen;
      rewrite (Permutation_length HP); cbn [length]; lia.
Qed.

(** The head of the loop over the waiting requests. *)
Record waiting_head (b : Z) (s : S) (v : Step) : Prop := {
  wh_phase : phase b s v [];
  wh_queue : queue_fine s (step_skipped_waiting v);
  wh_none : preempted_reqs v = [];
  wh_resumed : forall x, x ∈ scheduled_resumed_reqs v -> x ∉ prev_step_scheduled_req_ids s;
  wh_room : zlen (running s) <= max_num_running_reqs (config s);
}.

Lemma queued_elsewhere b (s : S) v id : phase b s v [] -> id ∈ queued s ->
  id ∉ running s /\ id ∉ ids (step_skipped_waiting v) /\ id ∉ scheduled v.
Proof.
  intros [I Hst _] Hid. pose proof (si_places _ _ _ I) as Hnd. apply NoDup_app in Hnd as (_ & Hd & Hnd). cbn in Hnd.
  apply NoDup_app in Hnd as (_ & Hd' & _). assert (id ∉ running s) as Hr by (intros Hx; apply (Hd id Hx); set_solver).
  split; [done|]. split; [by apply Hd'|]. intros Hx. by apply Hr, (st_running _ _ _ Hst).
Qed.

(** A queued request changes where it is. *)
Lemma queued_change b (s s' : S) v id r r' : waiting_head b s v -> id ∈ queued s -> about id s s' -> find s id = Some r ->
  find s' id = Some r' -> request_id r' = id -> oid r' = oid r -> fine s' r' -> waiting_fine s' r' -> kv_ok (kv s') ->
  running s' = running s -> waiting s' = waiting s -> skipped_waiting s' = skipped_waiting s ->
  (status r' = PREEMPTED -> status r = PREEMPTED) -> waiting_head b s' v.
Proof.
  intros [Hph Hq Hp Hre Hroom] Hid Hab Hr Hr' Hn Ho Hf Hwf Hk Er Ew Es Hstat. pose proof Hph as [I Hst Hprev].
  destruct (queued_elsewhere b s v id Hph Hid) as (N1 & N2 & N3).
  assert (queued s' = queued s) as Eq by (unfold queued; by rewrite Ew, Es).
  assert (forall q, queue_fine s q -> queue_fine s' q) as Hqf by (intros q Hq'; by eapply queue_fine_about).
  split; [split| |done|by rewrite (ab_prev _ _ _ Hab)|by rewrite Er, (ab_config _ _ _ Hab)].
  - apply (inv_change s s' id r r' [] (ids (step_skipped_waiting v))); rewrite ?Er, ?Eq, ?Ew, ?Es; try done.
    + intros x Hx. by right.
    + intros x Hx. by right.
    + rewrite app_nil_r. done.
    + apply Hqf, I.
    + apply Hqf, I.
  - apply (step_ok_about b s _ v id); [done..|]. rewrite Er. apply (st_running _ _ _ Hst).
  - intros _ x y. rewrite Eq, (ab_prev _ _ _ Hab). intros Hx Hy Hpre. destruct (decide (x = id)) as [->|Hne].
    + apply (Hprev Hp id r); [done..|]. apply Hstat. congruence.
    + apply (Hprev Hp x y Hx); [|done]. by rewrite <- (ab_others _ _ _ Hab).
  - by apply Hqf.
Qed.

(** The head of a queue is set aside. *)
Lemma skip_ok b (s : S) v q h r q' : waiting_head b s v -> popped s q h r q' ->
  exists v', skip_request q r (s, v) = (Ok tt, (set_chosen q q' s, v')) /\ waiting_head b (set_chosen q q' s) v'.
Proof.
  intros [Hph Hq Hp Hre Hroom] [P1 P2 P3 P4 P5 P6 P7 _]. pose proof Hph as [I Hst Hprev]. set (id := request_id h) in *.
  assert (id ∈ queued s) as Hid by (rewrite P4; by left). destruct (queued_elsewhere b s v id Hph Hid) as (N1 & N2 & N3).
  destruct (prepend_elements (step_skipped_waiting v) r) as (l & R1 & Hok & HP).
  { apply Hq. } { apply (object_not_queued s _ id); [done..|apply I]. }
  set (s' := set_chosen q q' s) in *.
  assert (config s' = config s /\ running s' = running s /\ kv s' = kv s /\ requests s' = requests s
    /\ prev_step_scheduled_req_ids s' = prev_step_scheduled_req_ids s /\ pause_state s' = pause_state s) as (E1 & E2 & E3 & E4 & E5 & E6)
    by (unfold s'; by destruct q).
  assert (about id s s') as Hab by (split; [done..| |by rewrite E3|by rewrite E4]; intros x Hx; unfold find; by rewrite E4).
  assert (find s' id = Some r) as Hr' by (unfold find; by rewrite E4).
  assert (forall p, queue_fine s p -> queue_fine s' p) as Hqf by (intros p Hp'; by eapply queue_fine_about).
  assert (ids l ≡ₚ id :: ids (step_skipped_waiting v)) as HPl by (unfold ids; rewrite HP, fmap_cons; by rewrite P3).
  exists {| v with step_skipped_waiting := l |}. split.
  { unfold skip_request. rewrite (bind_ok _ _ _ _ _ (sched_ok _ _ v _ _ (P7 s eq_refl))). msteps. cbn [snd]. rewrite R1. by msteps. }
  split; [split| |done|by rewrite E5|by rewrite E2, E1]; cbn [step_skipped_waiting].
  - apply (inv_change s s' id r r [] (ids (step_skipped_waiting v))); rewrite ?E2, ?E3; try done.
    + apply (fine_frame None s); [by eapply (si_fine _ _ _ I)|done|by rewrite E3].
    + apply I.
    + rewrite HPl, P4. by rewrite <- Permutation_middle.
    + intros x Hx. by right.
    + intros x. rewrite HPl, P4. intros [Hx|[->|Hx]%elem_of_cons]%elem_of_app; [right|by left|right]; apply elem_of_app; [left; by right|by right].
    + by rewrite app_nil_r.
    + intros _. apply (waiting_frame None s); [apply (si_waiting _ _ _ I id); [|done]|by rewrite E3|done]. apply elem_of_app. by left.
    + by apply Hqf.
    + by apply Hqf.
  - apply (step_ok_same b s' v); [|done..]. apply (step_ok_about b s _ v id); [done..|]. rewrite E2. apply (st_running _ _ _ Hst).
  - intros _ x y Hx Hy. rewrite E5. apply (Hprev Hp x y); [rewrite P4; by right|]. unfold find in *. by rewrite <- E4.
  - apply Hqf. apply (queue_fine_add s (step_skipped_waiting v) l r r); [done..|by rewrite P3|done].
Qed.

Lemma popped_about (s s' : S) q h r r' q' : popped s q h r q' -> about (request_id h) s s' -> waiting s' = waiting s ->
  skipped_waiting s' = skipped_waiting s -> find s' (request_id h) = Some r' -> oid r' = oid r -> request_id r' = request_id r ->
  popped s' q h r' q'.
Proof.
  intros [P1 P2 P3 P4 P5 P6 P7 P8] Hab Ew Es Hr' Ho Hn.
  assert (forall p, queue_fine s p -> queue_fine s' p) as Hqf by (intros p Hp'; by eapply queue_fine_about).
  assert (waiting (set_chosen q q' s') = waiting (set_chosen q q' s)) as Ew' by (by destruct q).
  assert (skipped_waiting (set_chosen q q' s') = skipped_waiting (set_chosen q q' s)) as Es' by (by destruct q).
  assert (chosen q s' = chosen q s) as Ec by (by destruct q).
  split; rewrite ?Ew', ?Es', ?Ew, ?Es, ?Ec; try done; try congruence; try by apply Hqf.
  unfold queued. rewrite Ew', Es', Ew, Es. exact P4.
Qed.

(** The requests that were set aside return to their queue. *)
Lemma unskip_ok (s : S) p : inv s [] (ids p) -> queue_fine s p -> Queue.elements p <> [] ->
  exists q', Queue.prepend_requests (skipped_waiting s) p = Ok q' /\ inv {| s with skipped_waiting := q' |} [] [].
Proof.
  intros I Hp Hne. pose proof (si_places _ _ _ I) as Hnd. unfold queued in Hnd. cbn [app] in Hnd.
  destruct (prepend_requests_elements (skipped_waiting s) p) as (q' & R & Hok & HP); [apply I|apply Hp| |].
  { intros x Hx. destruct (proj2 Hp x Hx) as (r & Hr & Ho). rewrite <- Ho.
    apply (object_not_queued s _ (request_id x)); [apply I|done| |apply I]. intros Hin.
    apply NoDup_app in Hnd as (_ & _ & Hnd). rewrite <- app_assoc in Hnd. apply NoDup_app in Hnd as (_ & _ & Hnd).
    apply NoDup_app in Hnd as (_ & Hd & _). apply (Hd _ Hin). by apply list_elem_of_fmap_2. }
  exists q'. split; [done|]. set (s' := {| s with skipped_waiting := q' |}).
  assert (ids q' ≡ₚ ids p ++ ids (skipped_waiting s)) as HPi by (unfold ids; by rewrite HP, fmap_app).
  destruct (Queue.elements p) as [|x l] eqn:El; [done|]. set (id := request_id x).
  destruct (proj2 Hp x) as (r & Hr & Ho); [rewrite El; by left|]. fold id in Hr.
  assert (id ∈ ids p) as Hid by (unfold ids; rewrite El; by left).
  assert (about id s s') as Hab by done.
  apply (inv_change s s' id r r [] (ids p)); try done.
  - by apply (si_named _ _ _ I).
  - apply (fine_frame None s); [by apply (si_fine _ _ _ I id)|done|done].
  - apply I.
  - unfold queued. change (skipped_waiting s') with q'. rewrite HPi. cbn [s' waiting running]. perm.
  - intros y Hy. by right.
  - intros y. unfold queued. change (skipped_waiting s') with q'. rewrite HPi. intros Hy. right. set_solver.
  - intros Hx. exfalso. cbn in Hx. rewrite app_nil_r in Hx. apply NoDup_app in Hnd as (_ & Hd & _). apply (Hd id Hx). set_solver.
  - intros _. apply (waiting_frame None s); [|done|done]. apply (si_waiting _ _ _ I id); [set_solver|done].
  - destruct (si_waitq _ _ _ I) as [? Hq]. by split.
  - split; [done|]. intros y. cbn [s' skipped_waiting]. rewrite HP. intros [Hy|Hy]%elem_of_app.
    + apply (proj2 Hp y). by rewrite El.
    + by apply (proj2 (si_skipq _ _ _ I)).
Qed.

Context (order : list Z -> list Z) (ec_connector : option (string -> bool)) (grammar_ready : string -> bool).

(** A blocked request whose grammar is ready waits like the others. *)
Lemma promote_ok b (s : S) v q h r q' : waiting_head b s v -> popped s q h r q' ->
  exists p s1 r1, (if is_blocked_waiting_status (status r) then on_sched (try_promote grammar_ready r) else mret true) (s, v)
      = (Ok p, (s1, v)) /\ waiting_head b s1 v /\ popped s1 q h r1 q' /\ still s s1 /\ waiting s1 = waiting s
    /\ skipped_waiting s1 = skipped_waiting s /\ running s1 = running s
    /\ (if p then status r1 ∈ [WAITING; PREEMPTED] else r1 = r).
Proof.
  intros Hwh Hpo. pose proof Hwh as [[I Hst Hprev] _ _ _ _]. pose proof Hpo as [P1 P2 P3 P4 _ _ _ _].
  assert (request_id h ∈ queued s) as Hid by (rewrite P4; by left).
  destruct (si_waiting _ _ _ I (request_id h) r) as [W1 W2 W3]; [set_solver|done|].
  destruct (decide (status r = WAITING_FOR_STRUCTURED_OUTPUT_GRAMMAR)) as [Eg|Hng].
  2: { exists true, s, r. assert (status r ∈ [WAITING; PREEMPTED]) as Hin by set_solver.
       assert (is_blocked_waiting_status (status r) = false) as ->
         by (apply elem_of_list_two in Hin as [->| ->]; done). done. }
  rewrite Eg. change (is_blocked_waiting_status WAITING_FOR_STRUCTURED_OUTPUT_GRAMMAR) with true. cbv iota.
  assert (forall v0, on_sched (try_promote grammar_ready r) (s, v0) =
    (if structured_output_request r && grammar_ready (request_id r)
     then (Ok true, ({| s with requests := Dict.set (request_id r) (set_status WAITING r) (requests s) |}, v0)) else (Ok false, (s, v0)))) as R.
  { intros v0. unfold on_sched, on_fst, zoom, try_promote. rewrite Eg. cbn [fst snd]. by destruct (_ && _). }
  rewrite R. destruct (structured_output_request r && grammar_ready (request_id r)); [|by exists false, s, r].
  set (r1 := set_status WAITING r). set (s1 := {| s with requests := Dict.set (request_id r) r1 (requests s) |}).
  assert (find s1 (request_id h) = Some r1) as Hr1 by (unfold find; cbn; by rewrite Dict.get_set, decide_True).
  assert (about (request_id h) s s1) as Hab.
  { split; [done..| |done|by apply Dict.NoDup_set]. intros x Hx. unfold find. cbn [s1 requests]. rewrite Dict.get_set, decide_False; [done|congruence]. }
  exists true, s1, r1. split; [done|]. split.
  - apply (queued_change b s s1 v (request_id h) r r1); try done.
    + destruct (si_fine _ _ _ I _ _ P1) as [F1 F2 F3 F4 F5]. by split.
    + split; [cbn; set_solver|done|done].
    + apply I.
  - split; [by apply (popped_about s s1 q h r r1 q')|]. split; [by eapply still_about|]. do 3 (split; [done|]). cbn. set_solver.
Qed.

Lemma cached_prefix_ok b (s : S) v q h r q' : waiting_head b s v -> popped s q h r q' ->
  exists bl n s1, cached_prefix r s = (Ok (bl, n, n), s1) /\ waiting_head b s1 v /\ popped s1 q h r q' /\ still s s1
    /\ kv_hit (kv s1) (request_id r) bl n /\ 0 <= n < num_tokens r /\ waiting s1 = waiting s /\ skipped_waiting s1 = skipped_waiting s
    /\ running s1 = running s.
Proof.
  intros Hwh Hpo. pose proof Hwh as [[I Hst Hprev] _ _ _ _]. pose proof Hpo as [P1 P2 P3 P4 _ _ _ _].
  assert (request_id h ∈ queued s) as Hid by (rewrite P4; by left).
  destruct (si_waiting _ _ _ I (request_id h) r) as [W1 W2 W3]; [set_solver|done|]. pose proof (si_fine _ _ _ I _ _ P1) as [F1 F2 F3 F4 F5].
  destruct (law_lookup (kv s) r) as (bl & n & k' & R1 & Hk & Hf & Hn & Hhit); [apply I|done|done|lia|].
  set (s1 := {| s with kv_cache_manager := k' |}).
  assert (about (request_id h) s s1) as Hab by (split; [done..|by apply frame_none|done]).
  exists bl, n, s1. split.
  { unfold cached_prefix. rewrite W2. cbn. rewrite (bind_ok _ _ _ _ _ (on_kv_ok _ _ _ _ R1)). msteps.
    replace (n <=? num_tokens r) with true by lia. by msteps. }
  split; [|split; [by apply (popped_about s s1 q h r r q')|split; [by eapply still_about|done]]].
  apply (queued_change b s s1 v (request_id h) r r); try done.
  - by apply (fine_frame None s).
  - apply (waiting_frame None s); [done|done|]. by rewrite P3.
Qed.

Lemma no_encoder_inputs r : mm_features r = [] -> has_encoder_inputs r = false.
Proof. intros Hr. unfold has_encoder_inputs, num_encoder_inputs. by rewrite Hr. Qed.

Lemma allocate_waiting_ok b (s : S) v q h r q' bl n new : waiting_head b s v -> popped s q h r q' ->
  kv_hit (kv s) (request_id r) bl n -> 0 <= n -> 0 < new -> n + new < sc_max_model_len (config s) ->
  exists o s1 r1, allocate_waiting order r new n bl [] s = (Ok o, s1)
    /\ match o with
       | None => waiting_head b s1 v /\ still s s1
       | Some _ => s1 = {| s with kv_cache_manager := kv s1; requests := requests s1 |} /\ kv_ok (kv s1)
           /\ about (request_id h) s s1 /\ find s1 (request_id h) = Some r1 /\ same_but_cache r r1
           /\ forall t, n <= t <= n + new -> kv_holds (kv s1) (request_id h) t
       end.
Proof.
  intros Hwh Hpo Hhit Hn Hnew Hmax. pose proof Hwh as [[I Hst Hprev] _ _ _ _]. pose proof Hpo as [P1 P2 P3 P4 _ _ _ _].
  assert (request_id h ∈ queued s) as Hid by (rewrite P4; by left).
  destruct (si_waiting _ _ _ I (request_id h) r) as [W1 W2 W3]; [set_solver|done|]. pose proof (si_fine _ _ _ I _ _ P1) as [F1 F2 F3 F4 F5].
  destruct (law_fit (kv s) r bl n 0) as (fits & R1); [apply I|done|done|].
  destruct (law_allocate_new (kv s) r bl n new 0) as (o & k' & r1 & R2 & Hk & Hf & Hsame & Ho);
    [apply I|done|done|done|done|done|done|pose proof (si_limit _ _ _ I); lia|].
  rewrite P3 in Hf, Ho. set (s1 := {| s with kv_cache_manager := k'; requests := Dict.set (request_id r1) r1 (requests s) |}).
  assert (request_id r1 = request_id h /\ oid r1 = oid r) as [E1 E2] by (unfold same_but_cache in Hsame; rewrite Hsame; by split).
  assert (find s1 (request_id h) = Some r1) as Hr1 by (unfold find; cbn; by rewrite Dict.get_set, decide_True).
  assert (about (request_id h) s s1) as Hab.
  { split; [done..| |done|by apply Dict.NoDup_set]. intros x Hx. unfold find. cbn [s1 requests]. rewrite Dict.get_set, decide_False; [done|congruence]. }
  unfold allocate_waiting. msteps. rewrite (no_encoder_inputs r F1), W2, andb_false_r. cbn [andb Z.eqb]. msteps.
  assert ((if scheduler_reserve_full_isl (config s) then on_kv (kv_can_fit_full_sequence r n (Some bl) 0 0) else mret true) s
    = (Ok (if scheduler_reserve_full_isl (config s) then fits else true), s)) as R3.
  { destruct (scheduler_reserve_full_isl (config s)); [|done]. rewrite (on_kv_ok _ _ _ _ R1). by destruct s. }
  rewrite (bind_ok _ _ _ _ _ R3). destruct (if scheduler_reserve_full_isl (config s) then fits else true); cbn [negb].
  2: { exists None, s, r. split; [|done]. unfold untouch_encoder. rewrite (no_encoder_inputs r F1). by msteps. }
  rewrite (bind_ok _ _ _ _ _ (kv_request_ok _ _ _ _ _ _ R2)). fold s1. destruct o as [bl'|].
  - exists (Some bl'), s1, r1. split; [done|]. by split_and!.
  - exists None, s1, r1. split; [unfold untouch_encoder; rewrite (no_encoder_inputs r F1); by msteps|]. split; [|by eapply still_about].
    apply (queued_change b s s1 v (request_id h) r r1); try done.
    + apply (same_but_cache_fine s _ r); [done|by split|done|by rewrite P3].
    + unfold same_but_cache in Hsame. rewrite Hsame. split; [done|done|]. cbn. by rewrite P3.
    + unfold same_but_cache in Hsame. by rewrite Hsame.
Qed.

(** The step after the request [id] was taken from a queue. *)
Definition commit_step (v : Step) (st : RequestStatus) (id : string) (bl : KVCacheBlocks) (n : Z) : Step :=
  let v := if decide (st = WAITING) then {| v with scheduled_new_reqs := scheduled_new_reqs v ++ [id] |}
           else {| v with scheduled_resumed_reqs := scheduled_resumed_reqs v ++ [id] |} in
  {| v with req_to_new_blocks := Dict.set id bl (req_to_new_blocks v);
            num_scheduled_tokens := Dict.set id n (num_scheduled_tokens v); token_budget := token_budget v - n |}.

Lemma commit_step_run s1 v q h r1 q' n new budget : pop_chosen q s1 = (Ok h, set_chosen q q' s1) ->
  find (set_chosen q q' s1) (request_id h) = Some r1 -> request_id r1 = request_id h -> status r1 ∈ [WAITING; PREEMPTED] ->
  max_loras (config s1) = None ->
  let s2 := set_chosen q q' s1 in
  let r2 := {| r1 with status := RUNNING; num_computed_tokens := n;
                       num_cached_tokens := if num_cached_tokens r1 <? 0 then n else num_cached_tokens r1 |} in
  commit_waiting q n new [] [] budget (s1, v) = (Ok tt, ({| s2 with running := running s2 ++ [request_id h];
      requests := Dict.set (request_id h) r2 (requests s2) |},
    commit_step v (status r1) (request_id h) (kv_get_blocks (request_id h) (kv s2)) new)).
Proof.
  intros Hpop Hr1 Hn Hst Hl s2 r2. unfold commit_waiting. rewrite (bind_ok _ _ _ _ _ (sched_ok _ _ v _ _ Hpop)). fold s2.
  rewrite (bind_ok _ _ _ _ _ (sched_ok _ _ v _ _ (get_request_ok _ _ _ Hr1))). msteps. cbn [fst snd].
  assert (max_loras (config (set_chosen q q' s1)) = None) as Hl2 by (by destruct q).
  apply elem_of_list_two in Hst as [Est|Est]; rewrite Est; msteps; cbn [fst snd config]; rewrite Hl2; msteps; cbn [fst snd];
    fold r2; change (request_id r2) with (request_id r1); rewrite Hn;
    (erewrite record_none; [reflexivity|unfold find; cbn [requests]; by rewrite Dict.get_set, decide_True]).
Qed.

Lemma scheduled_commit v st id bl n : scheduled (commit_step v st id bl n) ≡ₚ id :: scheduled v.
Proof. unfold commit_step, scheduled. case_decide; cbn; perm. Qed.

Lemma commit_waiting_ok b (s s1 : S) v q h r q' r1 n new budget : waiting_head b s v -> popped s q h r q' ->
  status r ∈ [WAITING; PREEMPTED] -> s1 = {| s with kv_cache_manager := kv s1; requests := requests s1 |} -> kv_ok (kv s1) ->
  about (request_id h) s s1 -> find s1 (request_id h) = Some r1 -> same_but_cache r r1 ->
  (forall t, n <= t <= n + new -> kv_holds (kv s1) (request_id h) t) ->
  0 <= n -> 0 < new <= token_budget v -> n + new <= num_tokens r -> zlen (running s) < max_num_running_reqs (config s) ->
  exists s2 v2, commit_waiting q n new [] [] budget (s1, v) = (Ok tt, (s2, v2)) /\ waiting_head b s2 v2 /\ still s s2
    /\ Queue.len (waiting s2) + Queue.len (skipped_waiting s2) + 1 = Queue.len (waiting s) + Queue.len (skipped_waiting s).
Proof.
  intros [Hph Hq Hp Hre Hroom] [P1 P2 P3 P4 P5 P6 P7 P8] Hst0 Es1 Hk Hab1 Hr1 Hsame Hh Hn Hnew Htok Hmax. pose proof Hph as [I Hst Hprev].
  set (id := request_id h) in *. assert (id ∈ queued s) as Hid by (rewrite P4; by left).
  destruct (queued_elsewhere b s v id Hph Hid) as (N1 & N2 & N3). pose proof (si_fine _ _ _ I _ _ P1) as [F1 F2 F3 F4 F5].
  assert (chosen q s1 = chosen q s) as Hch by (rewrite Es1; by destruct q).
  assert (request_id r1 = id /\ oid r1 = oid r /\ status r1 = status r) as (E1 & E2 & E3)
    by (unfold same_but_cache in Hsame; rewrite Hsame; by split_and!).
  assert (find (set_chosen q q' s1) id = Some r1) as Hr1' by (by destruct q).
  pose proof (commit_step_run s1 v q h r1 q' n new budget (P7 s1 Hch) Hr1' E1) as R. cbv zeta in R. fold id in R.
  set (r2 := {| r1 with status := RUNNING; num_computed_tokens := n;
                 num_cached_tokens := if num_cached_tokens r1 <? 0 then n else num_cached_tokens r1 |}) in R.
  set (s2 := {| (set_chosen q q' s1) with running := running (set_chosen q q' s1) ++ [id];
      requests := Dict.set id r2 (requests (set_chosen q q' s1)) |}) in R.
  set (v2 := commit_step v (status r1) id (kv_get_blocks id (kv (set_chosen q q' s1))) new) in R.
  assert (find s2 id = Some r2) as Hr2 by (unfold find; cbn; by rewrite Dict.get_set, decide_True).
  assert (about id s s2) as Hab.
  { apply (about_trans id s s1 s2 Hab1). split; [by destruct q..| |unfold s2; by destruct q|unfold s2; intros Hd; apply Dict.NoDup_set; by destruct q]. intros x Hx. unfold find, s2. cbn [requests].
    rewrite Dict.get_set, decide_False by done. by destruct q. }
  assert (running s2 = running s ++ [id] /\ queued s2 = queued (set_chosen q q' s) /\ kv s2 = kv s1
    /\ waiting s2 = waiting (set_chosen q q' s) /\ skipped_waiting s2 = skipped_waiting (set_chosen q q' s)) as (Q1 & Q2 & Q3 & Q4 & Q5)
    by (unfold s2; rewrite Es1; by destruct q).
  assert (forall p, queue_fine s p -> queue_fine s2 p) as Hqf by (intros p Hp'; by eapply queue_fine_about).
  assert (step_skipped_waiting v2 = step_skipped_waiting v) as Q6 by (unfold v2, commit_step; by case_decide).
  assert (preempted_reqs v2 = preempted_reqs v) as Q7 by (unfold v2, commit_step; by case_decide).
  assert (scheduled_spec_decode_tokens v2 = scheduled_spec_decode_tokens v) as Q8 by (unfold v2, commit_step; by case_decide).
  assert (num_tokens r2 = num_tokens r /\ num_output_placeholders r2 = num_output_placeholders r /\ num_computed_tokens r2 = n
    /\ request_id r2 = id) as (Z1 & Z2 & Z3 & Z4)
    by (unfold num_tokens; cbn; unfold same_but_cache in Hsame; rewrite Hsame; by split_and!).
  exists s2, v2. split.
  { apply R; [by rewrite E3|]. rewrite (ab_config _ _ _ Hab1). apply (pc_loras _ (si_config _ _ _ I)). }
  split; [split; [split| | | |]|split; [by eapply still_about|]]; rewrite ?Q6, ?Q7.
  - apply (inv_change s s2 id r r2 [] (ids (step_skipped_waiting v))); rewrite ?Q1, ?Q2, ?Q3, ?Q4, ?Q5, ?app_nil_r; try done.
    + apply (fine_frame (Some id) s); [|by apply Hab|by rewrite Q3; apply Hab1]. unfold r2. unfold same_but_cache in Hsame. rewrite Hsame. by split.
    + rewrite P4. perm.
    + intros x [Hx|Hx]%elem_of_app; [by right|left]. set_solver.
    + intros x Hx. right. rewrite P4. by right.
    + intros _. split; [done| | |by rewrite Q3, Z4, Z3; apply Hh; lia]; rewrite ?(ab_config _ _ _ Hab), ?Z1, ?Z2, ?Z3; lia.
    + intros Hx. exfalso. pose proof (si_places _ _ _ I) as Hnd. apply NoDup_app in Hnd as (_ & _ & Hnd). cbn [app] in Hnd.
      rewrite P4 in Hnd. by apply NoDup_cons in Hnd as [? _].
    + by apply Hqf.
    + by apply Hqf.
  - apply (step_ok_add b s s2 v v2 id new (kv_get_blocks id (kv (set_chosen q q' s1)))); try done.
    + intros x. rewrite Q1. intros [?| ->]; apply elem_of_app; [by left|right; by left].
    + apply scheduled_commit.
    + unfold v2, commit_step. by case_decide.
    + unfold v2, commit_step. by case_decide.
    + unfold v2, commit_step. by case_decide.
    + lia.
    + pose proof (st_encoder _ _ _ Hst). unfold v2, commit_step. by case_decide.
    + pose proof (st_spec _ _ _ Hst) as [? _]. by rewrite Q8.
    + intros x. rewrite Q8. by right.
    + intros x Hx. by rewrite Q8.
    + exists r2. split; [done|]. rewrite Z1, Z2, Z3, (ab_config _ _ _ Hab), Q3, Q8.
      assert (Dict.get id (scheduled_spec_decode_tokens v) = None) as ->.
      { destruct (Dict.get id (scheduled_spec_decode_tokens v)) eqn:Eg; [|done]. exfalso. apply N3, (st_spec _ _ _ Hst), Dict.elem_keys. by eexists. }
      change (zlen (default [] None)) with 0. split_and!; [lia..|done].
  - intros _ x y. rewrite Q2, (ab_prev _ _ _ Hab). intros Hx Hy. destruct (decide (x = id)) as [->|Hne].
    { rewrite Hr2 in Hy. injection Hy as <-. done. }
    apply (Hprev Hp x y); [rewrite P4; by right|]. by rewrite <- (ab_others _ _ _ Hab).
  - by apply Hqf.
  - done.
  - rewrite (ab_prev _ _ _ Hab). intros x. unfold v2, commit_step. case_decide as Hw; cbn [scheduled_resumed_reqs]; [by apply Hre|].
    intros [Hx|Hx]%elem_of_app; [by apply Hre|]. apply list_elem_of_singleton in Hx as ->. apply (Hprev Hp id r Hid P1).
    apply elem_of_list_two in Hst0 as [?|?]; [congruence|done].
  - rewrite Q1, (ab_config _ _ _ Hab). unfold zlen in *. rewrite length_app. cbn. lia.
  - rewrite Q4, Q5. lia.
Qed.

Lemma waiting_num_new_tokens_ok c r a budget n : waiting_num_new_tokens c r a budget = Some n -> 0 < budget -> a < num_tokens r ->
  0 < n <= budget /\ a + n <= num_tokens r.
Proof.
  unfold waiting_num_new_tokens. intros En Hb Ha.
  destruct ((0 <? long_prefill_token_threshold c) && (long_prefill_token_threshold c <? num_tokens r - a)) eqn:E;
    (destruct (negb (enable_chunked_prefill c) && _); [done|]); injection En as <-; breflect; lia.
Qed.

(** One turn of the loop over the waiting requests. *)
Lemma waiting_one_ok b (s : S) v : waiting_head b s v -> zlen (running s) < max_num_running_reqs (config s) -> 0 < token_budget v ->
  Queue.bool_of (waiting s) || Queue.bool_of (skipped_waiting s) = true ->
  exists c s' v', schedule_waiting_one order ec_connector grammar_ready (s, v) = (Ok c, (s', v')) /\ waiting_head b s' v' /\ still s s'
    /\ (c = true -> queue_len s' < queue_len s).
Proof.
  intros Hwh Hmax Hbud Hne. pose proof Hwh as [[I _ _] _ _ _ _].
  destruct (select_ok s) as (q & R1 & Hq); [apply I|apply I|done|].
  destruct (pop_head_ok s q _ _ I Hq) as (h & r & q' & R2 & Hpo).
  destruct (promote_ok b s v q h r q' Hwh Hpo) as (p & s1 & r1 & R3 & Hwh1 & Hpo1 & Hst1 & Ew1 & Es1 & Er1 & Hp).
  unfold schedule_waiting_one. msteps. cbn [fst snd]. rewrite R1. msteps. rewrite R2. msteps.
  rewrite (bind_ok _ _ _ _ _ (sched_ok _ _ v _ _ (get_request_ok _ _ _ (po_find _ _ _ _ _ Hpo)))), (bind_ok _ _ _ _ _ R3).
  destruct p; cbn [negb].
  2: { subst r1. destruct (skip_ok b s1 v q h r q' Hwh1 Hpo1) as (v' & R4 & Hwh'). rewrite (bind_ok _ _ _ _ _ R4).
       eexists true, _, v'. split; [done|]. split; [done|]. split; [apply (still_trans _ s1); [done|by destruct q]|]. intros _.
       pose proof (po_len _ _ _ _ _ Hpo1). rewrite Ew1, Es1 in *. lia. }
  rewrite (bind_ok _ _ _ _ _ (sched_ok _ _ v _ _ (get_request_ok _ _ _ (po_find _ _ _ _ _ Hpo1)))). msteps. cbn [snd].
  unfold exceeds_loras. rewrite (pc_loras _ (si_config _ _ _ I)). cbv iota.
  destruct (cached_prefix_ok b s1 v q h r1 q' Hwh1 Hpo1) as (bl & n & s2 & R4 & Hwh2 & Hpo2 & Hst2 & Hhit & Hn & Ew2 & Es2 & Er2).
  rewrite (bind_ok _ _ _ _ _ (sched_ok _ _ v _ _ R4)).
  assert (still s s2) as Hs2 by (by eapply still_trans).
  destruct (waiting_num_new_tokens (config s) r1 n (token_budget v)) as [m|] eqn:Em; [|by exists false, s2, v].
  destruct (waiting_num_new_tokens_ok _ _ _ _ _ Em Hbud) as [M1 M2]; [lia|].
  pose proof Hwh2 as [[I2 _ _] _ _ _ _]. pose proof (si_fine _ _ _ I2 _ _ (po_find _ _ _ _ _ Hpo2)) as [F1 F2 F3 F4].
  replace (0 <? m) with true by lia. msteps.
  rewrite (bind_ok _ _ _ _ _ (sched_ok _ _ v _ _ (schedule_encoder_none _ _ r1 _ _ _ s2 F1))).
  rewrite (no_encoder_inputs r1 F1), (pc_mamba _ (si_config _ _ _ I)). cbn [andb]. msteps. cbn [andb].
  destruct (allocate_waiting_ok b s2 v q h r1 q' bl n m Hwh2 Hpo2 Hhit) as (o & s3 & r3 & R5 & Ho); [lia|lia|lia|].
  rewrite (bind_ok _ _ _ _ _ (sched_ok _ _ v _ _ R5)). destruct o as [bl'|].
  2: { destruct Ho as [Hwh3 Hst3]. exists false, s3, v. split; [done|]. split; [done|]. split; [by eapply still_trans|done]. }
  destruct Ho as (E3 & Hk3 & Hab3 & Hr3 & Hsame & Hh).
  destruct (commit_waiting_ok b s2 s3 v q h r1 q' r3 n m (encoder_compute_budget v)) as (s4 & v4 & R6 & Hwh4 & Hst4 & Hlen); try done;
    [lia|rewrite (stl_config _ _ Hs2), Er2, Er1; lia|].
  exists true, s4, v4. rewrite (bind_ok _ _ _ _ _ R6). split; [done|]. split; [done|]. split; [by eapply still_trans|]. intros _.
  rewrite Ew2, Es2, Ew1, Es1 in Hlen. lia.
Qed.

Lemma queue_len_nonneg (s : S) : 0 <= queue_len s.
Proof. unfold Queue.len. pose proof (zlen_nonneg (Queue.elements (waiting s))). pose proof (zlen_nonneg (Queue.elements (skipped_waiting s))). lia. Qed.

Lemma waiting_loop_ok b fuel : forall s v, waiting_head b s v -> queue_len s <= Z.of_nat fuel ->
  exists s' v', waiting_loop order ec_connector fuel grammar_ready (s, v) = (Ok tt, (s', v')) /\ waiting_head b s' v' /\ still s s'.
Proof.
  induction fuel as [|fuel IH]; intros s v Hwh Hf; cbn [waiting_loop]; msteps;
    (destruct ((Queue.bool_of (waiting s) || Queue.bool_of (skipped_waiting s)) && (0 <? token_budget v)) eqn:Ec; [|by exists s, v]);
    apply andb_true_iff in Ec as [E1 E2];
    (destruct (Z.eqb_spec (zlen (running s)) (max_num_running_reqs (config s))) as [_|Hne]; [by exists s, v|]).
  - exfalso. unfold Queue.bool_of in E1. pose proof (zlen_nonneg (Queue.elements (waiting s))).
    pose proof (zlen_nonneg (Queue.elements (skipped_waiting s))). unfold Queue.len in *. lia.
  - destruct (waiting_one_ok b s v Hwh) as (c & s1 & v1 & R1 & Hwh1 & Hst1 & Hc); [pose proof (wh_room _ _ _ Hwh); lia|lia|done|].
    rewrite (bind_ok _ _ _ _ _ R1). destruct c; [|by exists s1, v1]. specialize (Hc eq_refl).
    destruct (IH s1 v1 Hwh1) as (s2 & v2 & R2 & Hwh2 & Hst2); [lia|]. exists s2, v2. split; [done|]. split; [done|]. by eapply still_trans.
Qed.

End waiting.
End SchedWaiting.
