(* ===== verification/SchedStep.v ===== *)
(** A whole step: [schedule] from the phases to the output, and what is known of the
    scheduler afterwards. *)

From S2P Require Import Prelude FreeQueue Request Hashing Metrics BlockPool KVSpec SingleType Coordinator KVManager EncoderCache Heap ReqQueue Scheduler SchedContract SchedFacts SchedPhases SchedWaiting.
Local Open Scope Z_scope.

Module SchedStep.
Import Sched QueueSets SchedFacts SchedPhases SchedWaiting.

Section step.
Context {K C : Type} `{KL : KVLaws K} `{EL : EncoderLaws C}.
Context (order : list Z -> list Z) (order_nil : order [] = []) (ec_connector : option (string -> bool)) (grammar_ready : string -> bool).

Abbreviation S := (Scheduler K C).
Abbreviation kv s := (kv_cache_manager s).
Abbreviation inv s run wait := (sched_inv (slack := fun _ => 0) s run wait).

(** What is known when the two phases are over. *)
Record phases_done (b : Z) (s : S) (v : Step) : Prop := {
  pd_inv : inv s [] [];
  pd_step : step_ok b s v;
  pd_resumed : forall x, x ∈ scheduled_resumed_reqs v -> x ∉ prev_step_scheduled_req_ids s;
  pd_room : zlen (running s) <= max_num_running_reqs (config s);
}.

Lemma schedule_waiting_ok b s v : waiting_head b s v ->
  exists s' v', schedule_waiting order ec_connector grammar_ready (s, v) = (Ok tt, (s', v')) /\ phases_done b s' v' /\ still s s'.
Proof.
  intros Hwh. unfold schedule_waiting. rewrite (bind_ok _ _ (s, v) s (s, v)) by done.
  destruct (waiting_loop_ok order ec_connector grammar_ready b (Z.to_nat (queue_len s)) s v Hwh) as (s1 & v1 & R1 & [[I1 Hst1 _] Hq1 Hp1 Hre1 Hroom1] & Hs1).
  { pose proof (queue_len_nonneg s). lia. }
  rewrite (bind_ok _ _ _ _ _ R1). msteps. cbn [snd].
  destruct (Queue.bool_of (step_skipped_waiting v1)) eqn:Eb.
  - apply bool_of_spec in Eb. destruct (unskip_ok s1 _ I1 Hq1 Eb) as (q' & R2 & I2).
    exists {| s1 with skipped_waiting := q' |}, v1. rewrite (sched_ok _ _ v1 _ _ (with_skipped_ok _ s1 q' R2)). split; [done|].
    split; [|destruct Hs1; by split]. split; [done| |done|done]. apply (step_ok_frame b s1); [done|done| |done|done]. apply (st_running _ _ _ Hst1).
  - exists s1, v1. split; [done|]. split; [|done]. split; [|done..].
    destruct (Queue.elements (step_skipped_waiting v1)) eqn:El; [unfold ids in I1; by rewrite El in I1|].
    assert (Queue.bool_of (step_skipped_waiting v1) = true) by (apply bool_of_spec; by rewrite El). congruence.
Qed.

(** What [schedule] may assume of the state. *)
Record ready (s : S) : Prop := {
  re_inv : inv s [] [];
  re_prev : prev_ok s;
  re_room : zlen (running s) <= max_num_running_reqs (config s);
}.

Lemma create_queue_ok (s : S) p : queue_fine s (Queue.create_request_queue p) /\ Queue.elements (Queue.create_request_queue p) = [].
Proof.
  destruct p; (split; [|done]); (split; [|by intros x Hx; apply not_elem_of_nil in Hx]).
  - apply Queue.deque_queue_ok. constructor.
  - apply Queue.heap_queue_ok; [constructor|]. intros i x y _ _ Hi. by rewrite lookup_nil in Hi.
Qed.

Lemma initial_phase (s : S) : ready s -> phase (token_budget (initial_step s)) s (initial_step s) [] /\ loop_head s (initial_step s).
Proof.
  intros [I Hp Hr]. split; [split|].
  - unfold initial_step. cbn [step_skipped_waiting]. by destruct (policy (config s)).
  - split; try done; cbn.
    + constructor.
    + intros x Hx. by apply not_elem_of_nil in Hx.
    + split; [constructor|]. intros x Hx. by apply not_elem_of_nil in Hx.
    + case_bool_decide; [lia|]. apply (pc_budget _ (si_config _ _ _ I)).
  - done.
  - split; [|done..]. exists [], (running s). split; [done|]. split; [|done]. intros x Hx. by apply not_elem_of_nil in Hx.
Qed.

Lemma schedule_phases_ok s : ready s ->
  exists s' v', schedule_phases order ec_connector grammar_ready (s, initial_step s) = (Ok tt, (s', v'))
    /\ phases_done (token_budget (initial_step s)) s' v' /\ still s s'.
Proof.
  intros Hre. destruct (initial_phase s Hre) as [Hph Hlh]. set (v0 := initial_step s) in *. set (b := token_budget v0) in *.
  destruct (create_queue_ok s (policy (config s))) as [_ Hempty].
  destruct (running_loop_ok order order_nil ec_connector b (length (running s)) s v0 Hph Hlh) as (s1 & v1 & R1 & Hph1 & Hs1 & L1 & [D1 D2 D3]).
  { cbn. unfold zlen. lia. }
  pose proof Hph1 as [I1 Hst1 Hp1]. rewrite D3 in I1. change (step_skipped_waiting v0) with (Queue.create_request_queue (policy (config s))) in *.
  unfold ids in I1. rewrite Hempty in I1.
  assert (zlen (running s1) <= max_num_running_reqs (config s1)) as Hroom by (rewrite (stl_config _ _ Hs1); pose proof (re_room _ Hre); lia).
  unfold schedule_phases. rewrite (bind_ok _ _ (s, v0) s (s, v0)) by done. rewrite (bind_ok _ _ _ _ _ R1). msteps.
  rewrite (pc_loras _ (si_config _ _ _ I1)). msteps. cbn [snd].
  destruct ((zlen (preempted_reqs v1) =? 0) && bool_decide (pause_state s1 = UNPAUSED)) eqn:Ec.
  - apply andb_true_iff in Ec as [Ep _]. assert (preempted_reqs v1 = []) as Hnone.
    { destruct (preempted_reqs v1) as [|x l]; [done|]. rewrite zlen_cons in Ep. pose proof (zlen_nonneg l). lia. }
    destruct (schedule_waiting_ok b s1 v1) as (s2 & v2 & R2 & Hd & Hs2).
    { split; [done| |done| |done].
      - rewrite D3. apply (create_queue_ok s1).
      - rewrite D2. intros x Hx. by apply not_elem_of_nil in Hx. }
    exists s2, v2. split; [done|]. split; [done|]. by eapply still_trans.
  - exists s1, v1. split; [done|]. split; [|done]. split; [done|done| |done]. rewrite D2. intros x Hx. by apply not_elem_of_nil in Hx.
Qed.

(** *** The output *)

Lemma new_requests_data_ok (k : K) blocks b l : (forall r, r ∈ l -> request_id r ∈ Dict.keys blocks) ->
  exists d, mapM (new_request_data k blocks b) l = Ok d /\ nr_req_id <$> d = request_id <$> l.
Proof.
  induction l as [|r l IH]; intros Hl; [by exists []|]. assert (is_Some (Dict.get (request_id r) blocks)) as [bl Eb] by (apply Dict.elem_keys, Hl; by left).
  destruct IH as (d & R & E); [intros y Hy; apply Hl; by right|].
  assert (exists x, new_request_data k blocks b r = Ok x /\ nr_req_id x = request_id r) as (x & R1 & E1)
    by (unfold new_request_data; rewrite Eb; by eexists).
  exists (x :: d). cbn. rewrite R1. cbn. rewrite R. cbn. by rewrite E, E1.
Qed.

Lemma cached_requests_data_ok (s : S) v resumed l : forall d,
  (forall r, r ∈ l -> request_id r ∈ Dict.keys (req_to_new_blocks v) /\ request_id r ∈ Dict.keys (num_scheduled_tokens v)) ->
  (forall r, r ∈ l -> resumed = true -> request_id r ∉ prev_step_scheduled_req_ids s) ->
  exists d', add_cached_requests s v d resumed l = Ok d' /\ cr_req_ids d' = cr_req_ids d ++ (request_id <$> l).
Proof.
  induction l as [|r l IH]; intros d Hk Hp; [exists d; cbn; by rewrite app_nil_r|].
  destruct (Hk r) as [K1 K2]; [by left|]. apply Dict.elem_keys in K1 as [bl Eb], K2 as [n En].
  assert (exists d1, add_cached_request s v d resumed r = Ok d1 /\ cr_req_ids d1 = cr_req_ids d ++ [request_id r]) as (d1 & R1 & E1).
  { unfold add_cached_request. rewrite En, Eb.
    assert (resumed && bool_decide (request_id r ∈ prev_step_scheduled_req_ids s) = false) as ->.
    { destruct resumed; [|done]. apply bool_decide_eq_false. apply Hp; [by left|done]. }
    destruct (use_pp (config s) && negb (async_scheduling (config s))); by eexists. }
  destruct (IH d1) as (d' & R2 & E2); [intros y Hy; apply Hk; by right|intros y Hy; apply Hp; by right|].
  exists d'. cbn [add_cached_requests]. rewrite R1. cbn. split; [done|]. rewrite E2, E1. by rewrite <- app_assoc.
Qed.

Lemma total_scheduled_sum v : total_scheduled v = sum_tokens (num_scheduled_tokens v).
Proof.
  unfold total_scheduled, sum_tokens. assert (forall l a, foldl Z.add a l.*2 = a + foldr (fun (e : string * Z) acc => e.2 + acc) 0 l) as H1.
  { induction l as [|e l IH]; intros a; cbn; [lia|]. rewrite IH. lia. }
  rewrite H1. lia.
Qed.

Lemma check_constraints_ok b s v : phases_done b s v -> b <= max_num_scheduled_tokens (config s) -> check_constraints s v = true.
Proof.
  intros [I [H1 H2 _ _ _ _ H7 H8 _] _ Hroom] Hb. unfold check_constraints. rewrite total_scheduled_sum.
  assert (zlen (scheduled_new_reqs v) + zlen (scheduled_resumed_reqs v) + zlen (scheduled_running_reqs v) <= zlen (running s)) as Hlen.
  { pose proof (submseteq_length _ _ (NoDup_submseteq _ _ H1 H2)) as Hl. unfold scheduled in Hl. rewrite !length_app in Hl. unfold zlen. lia. }
  repeat (apply andb_true_intro; split); lia.
Qed.

(** What the output says. *)
Record output_of (v : Step) (out : SchedulerOutput) : Prop := {
  oo_tokens : so_num_scheduled_tokens out = num_scheduled_tokens v;
  oo_spec : so_scheduled_spec_decode_tokens out = scheduled_spec_decode_tokens v;
  oo_total : total_num_scheduled_tokens out = sum_tokens (num_scheduled_tokens v);
  oo_requests : (nr_req_id <$> so_scheduled_new_reqs out) ++ cr_req_ids (so_scheduled_cached_reqs out) ≡ₚ scheduled v;
}.

Lemma make_output_ok b s v : phases_done b s v -> b <= max_num_scheduled_tokens (config s) ->
  exists out s', make_output v s = (Ok out, s') /\ output_of v out
    /\ s' = {| s with prev_step_scheduled_req_ids := list_to_set (Dict.keys (num_scheduled_tokens v));
                      kv_cache_manager := kv s'; encoder_cache_manager := encoder_cache_manager s' |}
    /\ kv_ok (kv s') /\ kv_frame None (kv s) (kv s').
Proof.
  intros Hd Hb. pose proof Hd as [I Hst Hres _]. pose proof Hst as [H1 H2 H3 H4 _ _ _ _ _].
  assert (forall x, x ∈ scheduled v -> x ∈ Dict.keys (req_to_new_blocks v) /\ x ∈ Dict.keys (num_scheduled_tokens v)) as Hkeys
    by (intros x Hx; by rewrite H4, H3).
  assert (forall x, x ∈ scheduled v -> exists r, find s x = Some r /\ request_id r = x) as Hfind.
  { intros x Hx%H2. assert (is_Some (find s x)) as [r Hr] by (apply (si_live _ _ _ I); set_solver). exists r. split; [done|]. by apply (si_named _ _ _ I). }
  assert (forall l : list string, (forall x, x ∈ l -> x ∈ scheduled v) -> forall x, x ∈ l -> exists r, find s x = Some r /\ request_id r = x) as Hsub
    by (intros l Hl x Hx; apply Hfind, Hl, Hx).
  destruct (get_requests_ok s (scheduled_new_reqs v)) as (new & R1 & E1); [apply Hsub; unfold scheduled; set_solver|].
  destruct (get_requests_ok s (scheduled_resumed_reqs v)) as (res & R2 & E2); [apply Hsub; unfold scheduled; set_solver|].
  destruct (get_requests_ok s (scheduled_running_reqs v)) as (run & R3 & E3); [apply Hsub; unfold scheduled; set_solver|].
  assert (exists l, match running s with [] => mret (replicate (num_kv_cache_groups (config s)) 0)
           | any_request_id :: _ => on_kv (kv_get_num_common_prefix_blocks any_request_id) end s = (Ok l, s)) as (common & R4).
  { destruct (running s) as [|x l] eqn:Er; [by eexists|]. assert (x ∈ running s) as Hx by (rewrite Er; by left).
    assert (is_Some (find s x)) as [r Hr] by (apply (si_live _ _ _ I); set_solver).
    destruct (si_running _ _ _ I x r) as [_ _ _ Hh]; [set_solver|done|]. rewrite (si_named _ _ _ I _ _ Hr) in Hh.
    destruct (law_common (kv s) x _ (si_kv _ _ _ I) Hh) as [c Hc]. exists c. rewrite (on_kv_ok _ _ _ _ Hc). by destruct s. }
  set (v2 := use_v2_model_runner (config s)).
  set (new' := if v2 then new ++ res else new). set (res' := if v2 then [] else res).
  assert ((request_id <$> new') ++ (request_id <$> run) ++ (request_id <$> res') ≡ₚ scheduled v) as HP.
  { unfold new', res', scheduled. destruct v2; rewrite ?fmap_app, E1, E3, E2; cbn; perm. }
  destruct (new_requests_data_ok (kv s) (req_to_new_blocks v) v2 new') as (dn & R5 & E5).
  { intros r Hr. apply Hkeys. rewrite <- HP. apply elem_of_app. left. by apply list_elem_of_fmap_2. }
  destruct (cached_requests_data_ok s v false run {| cr_req_ids := []; resumed_req_ids := ∅; new_token_ids := []; cr_all_token_ids := [];
      new_block_ids := []; cr_num_computed_tokens := []; cr_num_output_tokens := [] |}) as (d1 & R6 & E6); [|done|].
  { intros r Hr. apply Hkeys. rewrite <- HP. apply elem_of_app. right. apply elem_of_app. left. by apply list_elem_of_fmap_2. }
  destruct (cached_requests_data_ok s v true res' d1) as (d2 & R7 & E7).
  { intros r Hr. apply Hkeys. rewrite <- HP. apply elem_of_app. right. apply elem_of_app. right. by apply list_elem_of_fmap_2. }
  { intros r Hr _. apply Hres. rewrite <- E2. apply list_elem_of_fmap_2. unfold res' in Hr. destruct v2; [by apply not_elem_of_nil in Hr|done]. }
  set (s1 := {| s with prev_step_scheduled_req_ids := list_to_set (Dict.keys (num_scheduled_tokens v)) |}).
  assert (exists z k', (if needs_kv_cache_zeroing (config s1)
      then l ← on_kv kv_take_new_block_ids; mret (match l with [] => None | _ => Some l end) else mret None) s1
      = (Ok z, {| s1 with kv_cache_manager := k' |}) /\ kv_ok k' /\ kv_frame None (kv s) k') as (z & k' & R8 & Hk & Hf).
  { destruct (needs_kv_cache_zeroing (config s1)); [|exists None, (kv s); by split; [|split; [apply I|]]].
    destruct (law_take_new (kv s) (si_kv _ _ _ I)) as (l & k' & Rk & Hk & Hf). eexists _, k'.
    rewrite (bind_ok _ _ _ _ _ (on_kv_ok _ s1 _ _ Rk)). done. }
  destruct (law_freed (encoder_cache_manager s)) as (lf & c' & R9).
  unfold make_output. msteps. rewrite (check_constraints_ok b s v Hd Hb). msteps.
  assert (make_cached_request_data s v run res' = Ok d2) as R10 by (unfold make_cached_request_data; rewrite R6; exact R7).
  fold v2. replace (if v2 then (new ++ res, []) else (new, res)) with (new', res') by (unfold new', res'; by destruct v2).
  cbv iota beta. rewrite (bind_ok _ _ s s s) by done. rewrite (bind_ok _ _ s dn s) by (unfold lift_res; by rewrite R5).
  rewrite (bind_ok _ _ s d2 s) by (unfold lift_res; by rewrite R10). rewrite (bind_ok _ _ s tt s1) by done.
  rewrite (bind_ok _ _ _ _ _ R8).
  rewrite (bind_ok _ _ _ lf {| s1 with kv_cache_manager := k'; encoder_cache_manager := c' |})
    by (unfold on_encoder, zoom; cbn; by rewrite R9).
  eexists _, _. split; [by msteps|]. split; [|by split_and!]. split; try done.
  - apply total_scheduled_sum.
  - cbn [so_scheduled_new_reqs so_scheduled_cached_reqs]. rewrite E5, E7, E6. exact HP.
Qed.

(** *** After the step *)

Definition advanced (n : Z) (r : Request) : Request :=
  {| r with num_computed_tokens := num_computed_tokens r + n;
            is_prefill_chunk := num_computed_tokens r + n <? num_tokens r + num_output_placeholders r |}.

(** The number of draft tokens of a request in the step. *)
Definition drafts (spec : list (string * list Z)) (id : string) : Z := zlen (default [] (Dict.get id spec)).

(** Only the request [id] changed, and it stays where it is. *)
Lemma inv_update slack (s : S) id r r' : sched_inv (slack := slack) s [] [] -> id ∈ running s -> find s id = Some r ->
  request_id r' = request_id r -> oid r' = oid r -> fine s r' -> running_fine (slack := slack) s r' ->
  let s' := {| s with requests := Dict.set (request_id r') r' (requests s) |} in
  sched_inv (slack := slack) s' [] [] /\ about id s s' /\ find s' id = Some r'.
Proof.
  intros I Hid Hr Hn Ho Hf Hrf s'. pose proof (si_named _ _ _ I _ _ Hr) as Hname.
  assert (find s' id = Some r') as Hr' by (unfold find; cbn; rewrite Dict.get_set, decide_True; [done|congruence]).
  assert (about id s s') as Hab.
  { split; [done..| |done|by apply Dict.NoDup_set]. intros x Hx. unfold find. cbn [s' requests]. rewrite Dict.get_set, decide_False; [done|congruence]. }
  split; [|done]. apply (inv_change s s' id r r' [] []); try done.
  - congruence.
  - by apply (fine_frame None s).
  - apply (si_kv _ _ _ I).
  - intros x Hx. by right.
  - intros x Hx. by right.
  - intros _. by apply (running_frame None s).
  - intros Hx. exfalso. pose proof (si_places _ _ _ I) as Hnd. apply NoDup_app in Hnd as (_ & Hd & _). by apply (Hd id Hid).
  - by eapply queue_fine_about; [apply I|..].
  - by eapply queue_fine_about; [apply I|..].
Qed.

Lemma advance_one_ok v s id n out : sched_inv (slack := drafts (scheduled_spec_decode_tokens v)) s [] [] -> advance_ok s v id n ->
  id ∈ running s ->
  exists out' s' r, advance_request order (id, n) out s = (Ok out', s')
    /\ out' = {| out with has_structured_output_requests := has_structured_output_requests out' |}
    /\ sched_inv (slack := drafts (scheduled_spec_decode_tokens v)) s' [] [] /\ about id s s'
    /\ s' = {| s with requests := requests s' |} /\ find s id = Some r /\ find s' id = Some (advanced n r).
Proof.
  intros I (r & Hr & Hn & Hmax & Hbehind & _ & Hh) Hid. pose proof (si_fine _ _ _ I _ _ Hr) as [F1 F2 F3 F4 F5].
  destruct (si_running _ _ _ I id r) as [R1 R2 R3 R4]; [set_solver|done|]. pose proof (si_named _ _ _ I _ _ Hr) as Hname.
  destruct (inv_update _ s id r (advanced n r) I Hid Hr) as (I' & Hab & Hr'); [done|done|by split| |].
  { split; [done|cbn; lia| |].
    - cbn. rewrite Hname. unfold drafts. change (num_tokens (advanced n r)) with (num_tokens r). lia.
    - cbn. rewrite Hname. apply Hh. lia. }
  eexists _, _, r. split; [|split; [|by split_and!]].
  - unfold advance_request. rewrite (bind_ok _ _ _ _ _ (get_request_ok _ _ _ Hr)). msteps. fold (advanced n r).
    unfold put_request. msteps. rewrite (no_encoder_inputs (advanced n r)) by done. by msteps.
  - done.
Qed.

Lemma advance_all_ok v l : forall s out, sched_inv (slack := drafts (scheduled_spec_decode_tokens v)) s [] [] ->
  NoDup (Dict.keys l) -> (forall id n, (id, n) ∈ l -> advance_ok s v id n /\ id ∈ running s) ->
  exists out' s', update_each (advance_request order) l out s = (Ok out', s')
    /\ out' = {| out with has_structured_output_requests := has_structured_output_requests out' |}
    /\ sched_inv (slack := drafts (scheduled_spec_decode_tokens v)) s' [] [] /\ s' = {| s with requests := requests s' |}
    /\ (forall id, id ∉ Dict.keys l -> find s' id = find s id)
    /\ (forall id n, (id, n) ∈ l -> exists r, find s id = Some r /\ find s' id = Some (advanced n r)).
Proof.
  induction l as [|[id n] l IH]; intros s out I Hnd Hall.
  { exists out, s. split; [done|]. split; [by destruct out|]. split; [done|]. split; [by destruct s|]. split; [done|].
    intros id n Hx. by apply not_elem_of_nil in Hx. }
  cbn in Hnd. apply NoDup_cons in Hnd as [Hid Hnd]. destruct (Hall id n) as [Hadv Hrun]; [by left|].
  destruct (advance_one_ok v s id n out I Hadv Hrun) as (o1 & s1 & r & R1 & E1 & I1 & Hab & Es1 & Hr & Hr1).
  destruct (IH s1 o1 I1 Hnd) as (o2 & s2 & R2 & E2 & I2 & Es2 & Hout & Hin).
  { intros id' n' Hx. destruct (Hall id' n') as [Ha Hru]; [by right|]. split; [|by rewrite Es1].
    assert (id' <> id) as Hne by (intros ->; apply Hid; by apply (list_elem_of_fmap_2 fst l (id, n'))).
    apply (advance_frame s); [done|by rewrite Es1|by apply (ab_others _ _ _ Hab)|by rewrite Es1]. }
  exists o2, s2. cbn [update_each]. rewrite (bind_ok _ _ _ _ _ R1). split; [done|]. split; [rewrite E2, E1; done|]. split; [done|].
  split; [rewrite Es2, Es1; done|]. split.
  - intros x Hx. cbn in Hx. apply not_elem_of_cons in Hx as [Hne Hx]. rewrite Hout by done. by apply (ab_others _ _ _ Hab).
  - intros id' n' [[= -> ->]|Hx]%elem_of_cons; [exists r; by rewrite Hout|].
    assert (id' <> id) as Hne by (intros ->; apply Hid; by apply (list_elem_of_fmap_2 fst l (id, n'))).
    destruct (Hin id' n' Hx) as (r' & Hr' & Hr''). exists r'. split; [|done]. by rewrite <- (ab_others _ _ _ Hab).
Qed.

(** The request is not ahead of its tokens and placeholders. *)
Definition covered (s : S) (id : string) : Prop :=
  forall r, find s id = Some r -> num_computed_tokens r <= num_tokens r + num_output_placeholders r.

(** What the asynchronous scheduler does to a request after the step. *)
Definition with_placeholders (d : Z) (k : nat) (r : Request) : Request :=
  if is_prefill_chunk r then r
  else {| r with num_output_placeholders := num_output_placeholders r + 1 + d; spec_token_ids := replicate k (-1) |}.

Lemma add_placeholders_ok spec s id out r : async_scheduling (config s) = true -> sched_inv (slack := drafts spec) s [] [] -> id ∈ running s -> find s id = Some r ->
  so_scheduled_spec_decode_tokens out = spec -> (is_prefill_chunk r = true -> covered s id) ->
  exists out' s', add_placeholders id out s = (Ok out', s')
    /\ out' = {| out with pending_structured_output_tokens := pending_structured_output_tokens out' |}
    /\ sched_inv (slack := drafts spec) s' [] [] /\ about id s s' /\ s' = {| s with requests := requests s' |}
    /\ find s' id = Some (with_placeholders (drafts spec id) (Z.to_nat (num_spec_tokens (config s))) r) /\ covered s' id.
Proof.
  intros Ha I Hid Hr Hspec Hchunk. pose proof (si_fine _ _ _ I _ _ Hr) as [F1 F2 F3 F4 F5]. pose proof (si_named _ _ _ I _ _ Hr) as Hname.
  destruct (si_running _ _ _ I id r) as [R1 R2 R3 R4]; [set_solver|done|]. rewrite Hname in R3, R4. unfold with_placeholders.
  unfold add_placeholders. rewrite (bind_ok _ _ _ _ _ (get_request_ok _ _ _ Hr)). destruct (is_prefill_chunk r) eqn:Ec.
  { exists out, s. split; [done|]. split; [by destruct out|]. split; [done|]. split; [done|]. split; [by destruct s|]. split; [done|]. by apply Hchunk. }
  assert (0 <= drafts spec id) as Hd by apply zlen_nonneg.
  set (r' := {| r with num_output_placeholders := num_output_placeholders r + 1 + drafts spec id; is_prefill_chunk := false;
                       spec_token_ids := replicate (Z.to_nat (num_spec_tokens (config s))) (-1) |}).
  destruct (inv_update _ s id r r' I Hid Hr) as (I' & Hab & Hr'); [done|done|split; [done|split; [cbn; lia|by rewrite Ha]|done|done|done]| |].
  { split; [done|done| |cbn; by rewrite Hname]. cbn. rewrite Hname. change (num_tokens r') with (num_tokens r). lia. }
  eexists _, {| s with requests := Dict.set (request_id r') r' (requests s) |}. 
  subst spec. unfold put_request. msteps. split; [done|]. split; [done|].
  split; [exact I'|]. split; [exact Hab|]. split; [done|]. split; [exact Hr'|]. intros x Hx. rewrite Hr' in Hx. injection Hx as <-.
  cbn. change (num_tokens r') with (num_tokens r). lia.
Qed.

Lemma placeholders_all_ok spec l : forall s out, async_scheduling (config s) = true -> sched_inv (slack := drafts spec) s [] [] -> NoDup l ->
  so_scheduled_spec_decode_tokens out = spec -> (forall id, id ∈ l -> id ∈ running s) ->
  (forall id r, id ∈ l -> find s id = Some r -> is_prefill_chunk r = true -> covered s id) ->
  exists out' s', update_each add_placeholders l out s = (Ok out', s')
    /\ out' = {| out with pending_structured_output_tokens := pending_structured_output_tokens out' |}
    /\ sched_inv (slack := drafts spec) s' [] [] /\ s' = {| s with requests := requests s' |}
    /\ (forall id, id ∉ l -> find s' id = find s id)
    /\ (forall id, id ∈ l -> covered s' id /\ exists r, find s id = Some r
          /\ find s' id = Some (with_placeholders (drafts spec id) (Z.to_nat (num_spec_tokens (config s))) r)).
Proof.
  induction l as [|id l IH]; intros s out Ha I Hnd Hspec Hrun Hchunk.
  { exists out, s. split; [done|]. split; [by destruct out|]. split; [done|]. split; [by destruct s|]. split; [done|].
    intros id Hx. by apply not_elem_of_nil in Hx. }
  apply NoDup_cons in Hnd as [Hid Hnd]. assert (is_Some (find s id)) as [r Hr].
  { apply (si_live _ _ _ I). assert (id ∈ running s) by (apply Hrun; by left). set_solver. }
  destruct (add_placeholders_ok spec s id out r Ha I) as (o1 & s1 & R1 & E1 & I1 & Hab & Es1 & Hr1 & Hc1); [apply Hrun; by left|done|done|apply Hchunk; [by left|done]|].
  destruct (IH s1 o1) as (o2 & s2 & R2 & E2 & I2 & Es2 & Hout & Hin); [by rewrite Es1|done|done|..].
  { by rewrite E1. } { intros x Hx. rewrite Es1. apply Hrun. by right. }
  { intros x y Hx Hy Hch z Hz. assert (x <> id) as Hne by (by intros ->). rewrite (ab_others _ _ _ Hab) in Hy, Hz by done.
    by apply (Hchunk x y); [right|..]. }
  exists o2, s2. cbn [update_each]. rewrite (bind_ok _ _ _ _ _ R1). split; [done|]. split; [rewrite E2, E1; done|]. split; [done|].
  split; [rewrite Es2, Es1; done|]. split.
  - intros x Hx. apply not_elem_of_cons in Hx as [Hne Hx]. rewrite Hout by done. by apply (ab_others _ _ _ Hab).
  - intros x [->|Hx]%elem_of_cons.
    + split; [|exists r; by rewrite Hout]. intros y. rewrite Hout by done. apply Hc1.
    + assert (x <> id) as Hne by (by intros ->). destruct (Hin x Hx) as (Hcx & y & Hy & Hy'). split; [done|]. exists y.
      rewrite <- (ab_others _ _ _ Hab) by done. split; [done|]. by rewrite Hy', Es1.
Qed.

Lemma sum_tokens_nonneg l : (forall x : string * Z, x ∈ l -> 0 < x.2) -> 0 <= sum_tokens l /\ (sum_tokens l = 0 -> l = []).
Proof.
  unfold sum_tokens. induction l as [|x l IH]; intros Hl; [done|]. destruct IH as [IH _]; [intros y Hy; apply Hl; by right|].
  assert (0 < x.2) by (apply Hl; by left). cbn [foldr]. split; [lia|]. intros. lia.
Qed.

(** How far a request may be ahead after the step. *)
Definition out_slack (c : SchedulerConfig) (out : SchedulerOutput) (id : string) : Z :=
  if async_scheduling c then 0 else drafts (so_scheduled_spec_decode_tokens out) id.

(** The promise of [schedule]. *)
Record scheduled_well (s : S) (out : SchedulerOutput) (s' : S) : Prop := {
  sw_inv : sched_inv (slack := out_slack (config s) out) s' [] [];
  sw_prev : prev_ok s';
  sw_room : zlen (running s') <= max_num_running_reqs (config s);
  sw_config : config s' = config s;
  sw_live : forall id, is_Some (find s id) -> is_Some (find s' id);
  sw_dead : forall id, find s id = None -> find s' id = None /\ (kv_idle (kv s) id -> kv_idle (kv s') id);
  sw_total : total_num_scheduled_tokens out = sum_tokens (so_num_scheduled_tokens out);
  sw_budget : total_num_scheduled_tokens out <= max_num_scheduled_tokens (config s);
  sw_once : NoDup (Dict.keys (so_num_scheduled_tokens out));
  sw_requests : (nr_req_id <$> so_scheduled_new_reqs out) ++ cr_req_ids (so_scheduled_cached_reqs out)
    ≡ₚ Dict.keys (so_num_scheduled_tokens out);
  sw_each : forall id n, (id, n) ∈ so_num_scheduled_tokens out -> 0 < n /\ id ∈ running s'
    /\ exists r, find s' id = Some r /\ n <= num_computed_tokens r < sc_max_model_len (config s)
         /\ kv_holds (kv s') id (num_computed_tokens r);
  sw_drafts : forall id, drafts (so_scheduled_spec_decode_tokens out) id <= default 0 (Dict.get id (so_num_scheduled_tokens out));
  sw_paused : pause_state s = PAUSED_ALL -> so_num_scheduled_tokens out = [];
}.

(** [update_after_schedule] on the state and the output of the two phases. *)
Lemma update_after_schedule_ok b s v out : inv s [] [] -> step_ok b s v -> output_of v out ->
  exists out' s', update_after_schedule order out s = (Ok out', s')
    /\ (so_num_scheduled_tokens out' = so_num_scheduled_tokens out /\ output_of v out')
    /\ sched_inv (slack := out_slack (config s) out') s' [] []
    /\ s' = {| s with requests := requests s'; finished_req_ids := ∅ |}
    /\ forall id n, (id, n) ∈ num_scheduled_tokens v -> exists r r', find s id = Some r /\ find s' id = Some r'
         /\ num_computed_tokens r' = num_computed_tokens r + n.
Proof.
  intros I Hst [O1 O2 O3 O4]. pose proof Hst as [H1 H2 H3 _ _ _ _ _ H9]. set (spec := scheduled_spec_decode_tokens v) in *.
  assert (NoDup (Dict.keys (num_scheduled_tokens v))) as Hnd by (by rewrite H3).
  assert (sched_inv (slack := drafts spec) s [] []) as I0.
  { apply (inv_slack (fun _ => 0)); [done|]. intros id r Hid Hr. destruct (si_running _ _ _ I id r Hid Hr) as [_ _ Hb _].
    pose proof (zlen_nonneg (default [] (Dict.get id spec))). unfold drafts. lia. }
  destruct (advance_all_ok v (num_scheduled_tokens v) s out I0 Hnd) as (o1 & s1 & R1 & E1 & I1 & Es1 & Hout & Hin).
  { intros id n Hx. apply Dict.elem_get in Hx; [|done]. split; [by apply H9|]. apply H2. rewrite <- H3. apply Dict.elem_keys. by eexists. }
  set (s2 := {| s1 with finished_req_ids := ∅ |}).
  assert (sched_inv (slack := drafts spec) s2 [] []) as I2 by (apply (inv_frame s1); [done..|apply I1|done]).
  assert (so_scheduled_spec_decode_tokens o1 = spec /\ so_num_scheduled_tokens o1 = num_scheduled_tokens v) as [Eo1 Eo2]
    by (rewrite E1; by split).
  unfold update_after_schedule. rewrite O1. rewrite (bind_ok _ _ _ _ _ R1). rewrite (bind_ok _ _ s1 tt s2) by done. msteps.
  assert (async_scheduling (config s2) = async_scheduling (config s)) as -> by (unfold s2; by rewrite Es1).
  destruct (async_scheduling (config s)) eqn:Easync.
  - rewrite Eo2. assert (async_scheduling (config s2) = true) as Ha by (unfold s2; by rewrite Es1).
    destruct (placeholders_all_ok spec (Dict.keys (num_scheduled_tokens v)) s2 o1 Ha I2 Hnd Eo1) as (o2 & s3 & R3 & E3 & I3 & Es3 & Hout3 & Hin3).
    { intros id Hid. unfold s2. rewrite Es1. apply H2. by rewrite <- H3. }
    { intros id r Hid Hr Hch y Hy. apply list_elem_of_fmap in Hid as ([id' n] & -> & Hx). destruct (Hin _ _ Hx) as (r0 & Hr0 & Hr1).
      change (find s2) with (find s1) in Hr, Hy. cbn [fst] in *. rewrite Hr1 in Hr, Hy. injection Hr as <-. injection Hy as <-.
      cbn in Hch |- *. change (num_tokens (advanced n r0)) with (num_tokens r0). lia. }
    exists o2, s3. split; [done|]. split; [split; [by rewrite E3|by split; rewrite E3, E1]|]. split; [|split].
    + apply (inv_slack (drafts spec)); [done|]. intros id r Hid Hr. unfold out_slack. rewrite Easync.
      destruct (decide (id ∈ Dict.keys (num_scheduled_tokens v))) as [Hk|Hk]; [destruct (Hin3 id Hk) as [Hc _]; specialize (Hc r Hr); lia|].
      rewrite Hout3 in Hr by done. change (find s2) with (find s1) in Hr. rewrite Hout in Hr by done.
      destruct (si_running _ _ _ I id r) as [_ _ Hb _]; [|done|lia]. rewrite Es3 in Hid. unfold s2 in Hid. by rewrite Es1 in Hid.
    + rewrite Es3. unfold s2. by rewrite Es1.
    + intros id n Hx. destruct (Hin _ _ Hx) as (r & Hr & Hr1). destruct (Hin3 id) as (_ & r' & Hr' & Hr3); [by apply (list_elem_of_fmap_2 fst _ (id, n))|].
      change (find s2) with (find s1) in Hr'. rewrite Hr1 in Hr'. injection Hr' as <-. eexists r, _. split; [done|]. split; [done|].
      unfold with_placeholders. by case_match.
  - exists o1, s2. split; [done|]. split; [split; [by rewrite Eo2|by split; rewrite E1]|]. split; [|split].
    + apply (inv_slack (drafts spec)); [done|]. intros id r Hid Hr. unfold out_slack. rewrite Easync, Eo1.
      destruct (si_running _ _ _ I2 id r Hid Hr) as [_ _ Hb _]. by rewrite (si_named _ _ _ I2 _ _ Hr) in Hb.
    + unfold s2. by rewrite Es1.
    + intros id n Hx. destruct (Hin _ _ Hx) as (r & Hr & Hr1). by exists r, (advanced n r).
Qed.

Lemma schedule_ok s : ready s ->
  exists out s', schedule order ec_connector grammar_ready s = (Ok out, s') /\ scheduled_well s out s'.
Proof.
  intros [I Hprev Hroom]. destruct (law_new_step (kv s) (si_kv _ _ _ I)) as (k0 & R0 & Hk0 & Hf0).
  set (s0 := {| s with kv_cache_manager := k0 |}).
  assert (ready s0) as Hre by (split; [by apply (inv_frame s)|done|done]).
  destruct (schedule_phases_ok s0 Hre) as (s1 & v & R1 & Hd & Hs1).
  assert (initial_step s = initial_step s0) as Ei by done. set (b := token_budget (initial_step s0)) in *.
  assert (b <= max_num_scheduled_tokens (config s1)) as Hb.
  { rewrite (stl_config _ _ Hs1). unfold b, initial_step. cbn. pose proof (pc_budget _ (si_config _ _ _ I)). case_bool_decide; lia. }
  destruct (make_output_ok b s1 v Hd Hb) as (out & s2 & R2 & Hout & Es2 & Hk2 & Hf2). pose proof Hd as [I1 Hst1 _ Hroom1].
  assert (inv s2 [] []) as I2 by (apply (inv_frame s1); [done|by rewrite Es2..|done|done]).
  assert (step_ok b s2 v) as Hst2.
  { apply (step_ok_frame b s1); [done|by rewrite Es2| | |].
    - intros x Hx. rewrite Es2. by apply (st_running _ _ _ Hst1).
    - intros x _. by rewrite Es2.
    - intros x t _. destruct Hf2 as (_ & _ & _ & Hh). by apply Hh. }
  destruct (update_after_schedule_ok b s2 v out I2 Hst2 Hout) as (out' & s3 & R3 & (E3 & [O1 O2 O3 O4]) & I3 & Es3 & Hadv).
  pose proof Hst2 as [H1 H2 H3 _ [_ H5] _ H7 H8 H9].
  assert (config s2 = config s) as Ec2 by (rewrite Es2; apply (stl_config _ _ Hs1)).
  assert (config s3 = config s) as Ec3 by (by rewrite Es3).
  assert (running s3 = running s2 /\ kv s3 = kv s2 /\ queued s3 = queued s2) as (Er3 & Ek3 & Eq3) by (by rewrite Es3).
  exists out', s3. split.
  { unfold schedule. rewrite (bind_ok _ _ s s s) by done. rewrite (bind_ok _ _ _ _ _ (on_kv_ok _ _ _ _ R0)). fold s0. rewrite Ei.
    rewrite (bind_ok _ _ s0 v s1) by (unfold with_step; by rewrite R1). by rewrite (bind_ok _ _ _ _ _ R2). }
  split.
  - by rewrite <- Ec2.
  - intros id r Hid _ _. rewrite Es3. cbn [prev_step_scheduled_req_ids]. rewrite Es2. cbn [prev_step_scheduled_req_ids].
    rewrite elem_of_list_to_set, H3. intros Hx%H2. pose proof (si_places _ _ _ I2) as Hnd. apply NoDup_app in Hnd as (_ & Hdis & _).
    apply (Hdis id Hx). rewrite Eq3 in Hid. set_solver.
  - rewrite Er3, Es2. cbn [running]. pose proof (stl_config _ _ Hs1) as E. rewrite E in Hroom1. done.
  - done.
  - intros id Hid. apply (si_live _ _ _ I3). rewrite Er3, Eq3. apply (si_live _ _ _ I2). assert (find s2 id = find s1 id) as -> by (by rewrite Es2).
    by apply (stl_live _ _ Hs1).
  - intros id Hid. destruct (stl_dead _ _ Hs1 id Hid) as [Hdead Hi]. rewrite Ek3. split.
    + destruct (find s3 id) as [r|] eqn:Er; [|done]. exfalso. assert (is_Some (find s3 id)) as Hx by (by eexists).
      apply (si_live _ _ _ I3) in Hx. rewrite Er3, Eq3 in Hx. apply (si_live _ _ _ I2) in Hx as [r2 Hr2].
      assert (find s2 id = find s1 id) as E by (by rewrite Es2). congruence.
    + intros Hidle. destruct Hf2 as (_ & _ & Hf2 & _), Hf0 as (_ & _ & Hf0 & _). apply Hf2; [done|]. apply Hi. by apply Hf0.
  - by rewrite O1.
  - rewrite O3. rewrite (stl_config _ _ Hs1) in Hb. change (config s0) with (config s) in Hb. lia.
  - by rewrite O1, H3.
  - by rewrite O4, O1, H3.
  - rewrite O1. intros id n Hx. destruct (Hadv id n Hx) as (r & r' & Hr & Hr' & Hcomp).
    assert (id ∈ running s3) as Hrun.
    { rewrite Er3. apply H2. rewrite <- H3. by apply (list_elem_of_fmap_2 fst _ (id, n)). }
    apply Dict.elem_get in Hx; [|by rewrite H3]. destruct (H9 id n Hx) as (_ & _ & Hn & _).
    destruct (si_running _ _ _ I3 id r') as [_ Q2 _ Q4]; [set_solver|done|]. rewrite (si_named _ _ _ I3 _ _ Hr'), Ec3 in *.
    destruct (si_running _ _ _ I2 id r) as [_ P2 _ _]; [rewrite Er3 in Hrun; set_solver|done|].
    split; [done|]. split; [done|]. exists r'. split; [done|]. split; [lia|done].
  - intros id. rewrite O2, O1. unfold drafts. destruct (Dict.get id (num_scheduled_tokens v)) as [n|] eqn:En.
    + by destruct (H9 id n En) as (_ & _ & _ & _ & _ & Hd' & _).
    + destruct (Dict.get id (scheduled_spec_decode_tokens v)) as [l|] eqn:El; [|done]. exfalso.
      assert (id ∈ Dict.keys (num_scheduled_tokens v)) as Hx by (rewrite H3; apply H5, Dict.elem_keys; by eexists).
      apply Dict.elem_keys in Hx. rewrite En in Hx. by destruct Hx.
  - intros Hp. assert (b = 0) as Hb0 by (unfold b, initial_step, s0; cbn; rewrite Hp; done). rewrite O1.
    destruct (sum_tokens_nonneg (num_scheduled_tokens v)) as [P1 P2]; [|apply P2; lia].
    intros [id n] Hx. apply Dict.elem_get in Hx; [|by rewrite H3]. by destruct (H9 id n Hx) as (_ & _ & Hn & _).
Qed.

End step.
End SchedStep.
