(* ===== verification/SchedServe.v ===== *)
(** Requests come and go: adding a request, finishing requests, and the results of a
    step, on a scheduler whose books are in order. *)

From S2P Require Import Prelude FreeQueue Request Hashing Metrics BlockPool KVSpec SingleType Coordinator KVManager EncoderCache Heap ReqQueue Scheduler SchedContract SchedFacts SchedPhases SchedStep.
Local Open Scope Z_scope.

Module SchedServe.
Import Sched QueueSets SchedFacts SchedPhases SchedStep.

(** [l] without the elements of [d]. *)
Abbreviation without d l := (filter (fun x : string => x ∉ d) l).

Lemma without_perm (d l : list string) : NoDup l -> NoDup d -> (forall x, x ∈ d -> x ∈ l) -> l ≡ₚ without d l ++ d.
Proof.
  intros Hl Hd Hsub. apply NoDup_Permutation; [done| |].
  - apply NoDup_app. split; [by apply NoDup_filter|]. split; [|done]. by intros x [? _]%list_elem_of_filter.
  - intros x. rewrite elem_of_app, list_elem_of_filter. destruct (decide (x ∈ d)); naive_solver.
Qed.

Lemma without_nil (l : list string) : without [] l = l.
Proof. induction l as [|x l IH]; [done|]. rewrite filter_cons_True by apply not_elem_of_nil. by f_equal. Qed.

Lemma without_cons x d (l : list string) : without d (without [x] l) = without (x :: d) l.
Proof.
  induction l as [|y l IH]; [done|]. destruct (decide (y = x)) as [->|Hne].
  - rewrite !(filter_cons_False _ x) by set_solver. apply IH.
  - rewrite (filter_cons_True _ y) by set_solver. destruct (decide (y ∈ d)) as [Hy|Hy].
    + rewrite !(filter_cons_False _ y) by set_solver. apply IH.
    + rewrite !(filter_cons_True _ y) by set_solver. by f_equal.
Qed.

Lemma remove_one_without x l : NoDup l -> x ∈ l -> remove_one x l = Ok (without [x] l).
Proof.
  intros Hnd Hx. destruct (remove_one_ok _ _ Hx) as (l1 & l2 & -> & ->). f_equal. rewrite (remove_filter x) by done.
  apply list_filter_iff. intros y. by rewrite list_elem_of_singleton.
Qed.

Lemma remove_all_without l d : NoDup l -> (forall x, x ∈ d -> x ∈ l) -> remove_all l d = without d l.
Proof.
  intros Hnd Hd. destruct d as [|x [|y d]]; cbn [remove_all].
  - by rewrite without_nil.
  - rewrite remove_one_without; [done|done|]. apply Hd. by left.
  - done.
Qed.

(** A queue without some of its objects. *)
Lemma remove_elements q rs : Queue.queue_ok q ->
  exists q', Queue.remove_requests q rs = Ok q' /\ Queue.queue_ok q' /\ Queue.elements q' ≡ₚ Queue.keep rs (Queue.elements q).
Proof.
  intros Hok. destruct (Queue.iter_ok q Hok) as (l & _ & Hs & HP). destruct (Queue.keep_served q rs l Hok Hs) as (q' & R1 & Hok' & R2).
  exists q'. do 2 (split; [done|]). destruct (Queue.iter_ok q' Hok') as (l2 & R3 & _ & HP2). rewrite R2 in R3. injection R3 as <-.
  rewrite <- HP2. unfold Queue.keep. by rewrite HP.
Qed.

Section serve.
Context {K C : Type} `{KL : KVLaws K} `{EL : EncoderLaws C}.
Context {slack : string -> Z}.

Abbreviation S := (Scheduler K C).
Abbreviation kv s := (kv_cache_manager s).
Abbreviation inv s run wait := (sched_inv (slack := slack) s run wait).

(** The books between the calls; nothing is held for an unknown id. *)
Record books (s : S) : Prop := {
  bo_inv : inv s [] [];
  bo_prev : prev_ok s;
  bo_room : zlen (running s) <= max_num_running_reqs (config s);
  bo_dead : forall id, find s id = None -> kv_idle (kv s) id;
}.

(** A new scheduler. *)
Lemma init_books (sc : SchedulerConfig) include (k : K) (c : C) : plain_config sc -> 0 <= max_num_running_reqs sc ->
  sc_max_model_len sc <= kv_max_len k -> kv_ok k -> (forall id, kv_idle k id) -> books (Sched.init sc include k c).
Proof.
  intros Hplain Hrun Hlen Hk Hidle. set (s := Sched.init sc include k c).
  assert (running s = [] /\ queued s = []) as [Er Eq] by (unfold queued, s; cbn; by destruct (policy sc)).
  assert (forall id, find s id = None) as Hf by done. split.
  - split; rewrite ?Er, ?Eq; try done; cbn [app].
    + constructor.
    + intros id. rewrite Hf. split; [by intros ?%not_elem_of_nil|by intros [? ?]].
    + constructor.
    + apply (create_queue_ok s (policy sc)).
    + apply (create_queue_ok s (policy sc)).
  - intros id r. rewrite Eq. by intros ?%not_elem_of_nil.
  - by rewrite Er.
  - intros id _. apply Hidle.
Qed.

(** ** Adding a request *)

(** The request is new, and one that the theorems are about. *)
Record fresh (s : S) (r : Request) : Prop := {
  fr_id : find s (request_id r) = None;
  fr_object : forall id r', find s id = Some r' -> oid r' <> oid r;
  fr_fine : fine s r;
  fr_status : status r ∈ [WAITING; WAITING_FOR_STRUCTURED_OUTPUT_GRAMMAR];
  fr_computed : num_computed_tokens r = 0;
}.

Lemma fresh_not_queued (s : S) r q : fresh s r -> queue_fine s q -> oid r ∉ oids q.
Proof.
  intros [_ Ho _ _ _] [_ Hq] (x & Hx & Hin)%list_elem_of_fmap. destruct (Hq x Hin) as (y & Hy & E). apply (Ho _ _ Hy). congruence.
Qed.

(** The request [r] enters the queues. *)
Lemma inv_enter (s s' : S) r : books s -> fresh s r -> config s' = config s -> kv s' = kv s -> running s' = running s ->
  requests s' = Dict.set (request_id r) r (requests s) -> queued s' ≡ₚ request_id r :: queued s ->
  queue_fine s' (waiting s') -> queue_fine s' (skipped_waiting s') -> inv s' [] [].
Proof.
  intros [I _ _ Hdead] [N1 N2 N3 N4 N5] Ec Ek Er Eq Eqd Hw Hs. destruct I as [I1 I2 I3 I4 I5 Id I6 I7 I8 I9 I10 I11 I12].
  assert (forall x, find s' x = if decide (x = request_id r) then Some r else find s x) as Ef
    by (intros x; unfold find; by rewrite Eq, Dict.get_set).
  assert (forall x, x ∈ running s ++ [] ++ queued s ++ [] -> x <> request_id r) as Hne
    by (intros x Hx ->; apply I5 in Hx; rewrite N1 in Hx; by destruct Hx).
  assert (running s' ++ [] ++ queued s' ++ [] ≡ₚ request_id r :: running s ++ [] ++ queued s ++ []) as HP.
  { rewrite Er, Eqd. cbn [app]. by rewrite <- Permutation_middle. }
  split; rewrite ?Ec, ?Ek; try done.
  - rewrite HP. apply NoDup_cons. split; [|done]. intros Hx. by apply (Hne _ Hx).
  - intros x. rewrite HP, Ef, elem_of_cons, I5. case_decide; naive_solver.
  - rewrite Eq. by apply Dict.NoDup_set.
  - intros x y. rewrite Ef. case_decide; [by intros [= <-]|apply I6].
  - intros x y Hy. apply (fine_frame None s); [|done|by rewrite Ek]. rewrite Ef in Hy. case_decide; [by injection Hy as <-|by eapply I7].
  - intros x1 x2 y1 y2. rewrite !Ef. case_decide; case_decide; [by subst|..].
    + intros [= <-] Hy2 He. by destruct (N2 _ _ Hy2).
    + intros Hy1 [= <-] He. by destruct (N2 _ _ Hy1).
    + apply I8.
  - intros x y Hx. rewrite Er in Hx. rewrite Ef, decide_False by (apply Hne; set_solver). intros Hy.
    apply (running_frame None s); [by apply (I9 x)|done|by rewrite Ek|done].
  - intros x y Hx. rewrite Ef. case_decide as Hd.
    + intros [= <-]. split; [set_solver|done|]. rewrite Ek. by apply Hdead.
    + intros Hy. rewrite app_nil_r, Eqd in Hx. apply elem_of_cons in Hx as [?|Hx]; [done|].
      apply (waiting_frame None s); [apply (I10 x); [by rewrite app_nil_r|done]|by rewrite Ek|done].
Qed.

Context (hash_function : bytes * list Z * option (list extra_key) -> bytes).
Context (sha256 : bytes -> bytes) (NONE_HASH : bytes) (order : list Z -> list Z).

Lemma add_request_ok (s : S) r : books s -> fresh s r ->
  exists s', add_request hash_function sha256 NONE_HASH order r s = (Ok tt, s') /\ books s' /\ config s' = config s
    /\ running s' = running s /\ find s' (request_id r) = Some r /\ forall id, id <> request_id r -> find s' id = find s id.
Proof.
  intros Hbo Hfr. pose proof Hbo as [I Hprev Hroom Hdead]. pose proof Hfr as [N1 N2 N3 N4 N5]. set (id := request_id r) in *.
  assert (resumable r = false) as Hres by apply N3.
  set (q := if is_blocked_waiting_status (status r) then skipped_waiting s else waiting s).
  assert (queue_fine s q) as Hq by (unfold q; destruct (is_blocked_waiting_status _); apply I).
  destruct (add_elements q r) as (q' & R1 & Hok' & HP); [apply Hq|by eapply fresh_not_queued|].
  set (s0 := if is_blocked_waiting_status (status r) then {| s with skipped_waiting := q' |} else {| s with waiting := q' |}).
  set (s' := {| s0 with requests := Dict.set id r (requests s0) |}).
  assert (config s' = config s /\ kv s' = kv s /\ running s' = running s /\ requests s' = Dict.set id r (requests s)
    /\ prev_step_scheduled_req_ids s' = prev_step_scheduled_req_ids s) as (E1 & E2 & E3 & E4 & E5)
    by (unfold s', s0; by destruct (is_blocked_waiting_status _)).
  assert (forall x, find s' x = if decide (x = id) then Some r else find s x) as Ef by (intros x; unfold find; by rewrite E4, Dict.get_set).
  assert (queued s' ≡ₚ id :: queued s) as Hqd.
  { unfold queued, ids, s', s0, q in *. destruct (is_blocked_waiting_status _); cbn [waiting skipped_waiting]; rewrite HP, fmap_cons; [|done].
    by rewrite <- Permutation_middle. }
  assert (forall p, queue_fine s p -> queue_fine s' p) as Hqf.
  { intros p [Hp1 Hp2]. split; [done|]. intros x Hx. destruct (Hp2 x Hx) as (y & Hy & Ho). exists y. rewrite Ef, decide_False; [done|].
    intros E. rewrite E in Hy. congruence. }
  assert (queue_fine s' q') as Hq'.
  { apply (queue_fine_add s' q q' r r); [by apply Hqf|done|done| |done]. rewrite Ef. by rewrite decide_True. }
  exists s'. split.
  { unfold add_request. msteps. fold id. unfold find in N1. rewrite N1, Hres. unfold enqueue_waiting_request, put_request, s', s0, q in *.
    destruct (is_blocked_waiting_status (status r)).
    - rewrite (bind_ok _ _ _ _ _ (with_skipped_ok _ _ q' R1)). by msteps.
    - rewrite (bind_ok _ _ _ _ _ (with_waiting_ok _ _ q' R1)). by msteps. }
  split; [split|].
  - apply (inv_enter s s' r); try done; unfold s', s0, q in *; destruct (is_blocked_waiting_status _); try done; apply Hqf, I.
  - intros x y. rewrite Hqd, Ef, E5. case_decide as Hd.
    + intros _ [= <-] Hst. exfalso. rewrite Hst in N4. set_solver.
    + intros [?|Hx]%elem_of_cons; [done|]. by apply Hprev.
  - by rewrite E3, E1.
  - intros x. rewrite Ef, E2. case_decide; [done|apply Hdead].
  - split; [done|]. split; [done|]. split; [by rewrite Ef, decide_True|]. intros x Hx. by rewrite Ef, decide_False.
Qed.

End serve.

(** ** Requests leave *)

Lemma nodup_ids (rs : list Request) P `{forall r, Decision (P r)} : NoDup (request_id <$> rs) -> NoDup (request_id <$> filter P rs).
Proof.
  induction rs as [|r rs IH]; [done|]. rewrite fmap_cons, NoDup_cons. intros [Hr Hnd]. rewrite filter_cons. case_decide; [|by apply IH].
  rewrite fmap_cons. apply NoDup_cons. split; [|by apply IH]. intros (x & E & Hx)%list_elem_of_fmap. apply Hr. rewrite E.
  apply list_elem_of_filter in Hx as [_ Hx]. by apply list_elem_of_fmap_2.
Qed.

Lemma split_perm (rs : list Request) :
  request_id <$> rs ≡ₚ (request_id <$> filter (fun r => status r = RUNNING) rs) ++ (request_id <$> filter (fun r => status r ≠ RUNNING) rs).
Proof.
  induction rs as [|r rs IH]; [done|]. rewrite !filter_cons, fmap_cons. destruct (decide (status r = RUNNING)).
  - rewrite decide_False by naive_solver. rewrite fmap_cons. cbn [app]. by f_equiv.
  - rewrite decide_True by done. rewrite fmap_cons, <- Permutation_middle. by f_equiv.
Qed.

Section free.
Context {K C : Type} `{KL : KVLaws K} `{EL : EncoderLaws C}.
Context (order : list Z -> list Z) (order_nil : order [] = []).

Abbreviation S := (Scheduler K C).
Abbreviation kv s := (kv_cache_manager s).

(** A finished request gives everything back. *)
Lemma release_request_ok (s : S) r : find s (request_id r) <> None -> is_finished r = true ->
  mm_features r = [] -> kv_ok (kv s) -> NoDup (Dict.keys (requests s)) ->
  exists s', free_request order r s = (Ok tt, s') /\ about (request_id r) s s' /\ find s' (request_id r) = None
    /\ kv_ok (kv s') /\ kv_idle (kv s') (request_id r) /\ running s' = running s /\ waiting s' = waiting s
    /\ skipped_waiting s' = skipped_waiting s /\ request_id r ∈ finished_req_ids s'.
Proof.
  intros Hf Hfin Htext Hk Hnd. destruct (law_free (kv s) r Hk) as (k' & R1 & Hk' & Hfr & Hidle). set (id := request_id r) in *.
  set (s1 := {| s with finished_req_ids := {[id]} ∪ finished_req_ids s;
    finished_req_ids_dict := match finished_req_ids_dict s with
      | None => None
      | Some d => Some (Dict.set (client_index r) ({[id]} ∪ default ∅ (Dict.get (client_index r) d)) d)
      end |}).
  set (s' := {| s1 with kv_cache_manager := k'; requests := Dict.del id (requests s) |}).
  exists s'. split.
  { unfold free_request. rewrite Hfin. msteps. rewrite (bind_ok _ _ _ _ _ (free_encoder_ok order r s Htext order_nil)). msteps. fold id s1.
    unfold free_blocks. rewrite Hfin. msteps. rewrite (bind_ok _ _ _ _ _ (on_kv_ok _ s1 _ _ R1)). msteps. fold id. cbn [requests s1].
    assert (Dict.mem id (requests s) = true) as -> by (apply Dict.mem_get; unfold find in Hf; by destruct (Dict.get id (requests s))).
    by msteps. }
  assert (forall x, find s' x = if decide (x = id) then None else find s x) as Ef.
  { intros x. unfold find. cbn [s' requests]. by rewrite Dict.get_del. }
  split; [|split; [by rewrite Ef, decide_True|]].
  - split; [done..| |done|intros _; by apply Dict.NoDup_del]. intros x Hx. by rewrite Ef, decide_False.
  - do 5 (split; [done|]). cbn. set_solver.
Qed.

End free.

Section leave.
Context {K C : Type} `{KL : KVLaws K} `{EL : EncoderLaws C}.
Context {slack : string -> Z}.

Abbreviation S := (Scheduler K C).
Abbreviation kv s := (kv_cache_manager s).
Abbreviation inv s run wait := (sched_inv (slack := slack) s run wait).

(** The request [id] is gone. *)
Lemma inv_remove (s s' : S) id run wait run' wait' : inv s run wait -> about id s s' -> find s' id = None -> kv_ok (kv s') ->
  running s ++ run ++ queued s ++ wait ≡ₚ id :: running s' ++ run' ++ queued s' ++ wait' ->
  (forall x, x ∈ running s' ++ run' -> x ∈ running s ++ run) -> (forall x, x ∈ queued s' ++ wait' -> x ∈ queued s ++ wait) ->
  waiting s' = waiting s -> skipped_waiting s' = skipped_waiting s -> inv s' run' wait'.
Proof.
  intros [I1 I2 I3 I4 I5 Id I6 I7 I8 I9 I10 I11 I12] [A1 A2 A3 A4 A5 A6] Hid Hk HP Hrun Hwait Ew Es.
  assert (forall x y, find s' x = Some y -> x <> id /\ find s x = Some y) as Hback.
  { intros x y Hy. assert (x <> id) as Hx by congruence. split; [done|]. by rewrite <- A4. }
  rewrite HP in I4. apply NoDup_cons in I4 as [Hnot Hnd].
  assert (forall q, queue_fine s q -> (forall x, x ∈ ids q -> x <> id) -> queue_fine s' q) as Hqf.
  { intros q [Hq1 Hq2] Hne. split; [done|]. intros x Hx. destruct (Hq2 x Hx) as (y & Hy & Ho). exists y. split; [|done]. rewrite A4; [done|].
    apply Hne. by apply list_elem_of_fmap_2. }
  assert (forall x, x ∈ queued s' -> x <> id) as Hqne by (intros x Hx ->; apply Hnot; set_solver).
  split; rewrite ?A1; try done.
  - by destruct A5 as [-> _].
  - intros x. destruct (decide (x = id)) as [->|Hne].
    + rewrite Hid. split; [done|]. by intros [? ?].
    + rewrite A4, <- I5, HP, elem_of_cons by done. naive_solver.
  - by apply A6.
  - intros x y [_ Hy]%Hback. by apply I6.
  - intros x y [_ Hy]%Hback. eapply fine_frame; [by eapply I7|done|done].
  - intros x1 x2 y1 y2 [_ Hy1]%Hback [_ Hy2]%Hback. by apply I8.
  - intros x y Hx%Hrun [Hne Hy]%Hback. eapply running_frame; [by eapply I9|done|done|]. rewrite (I6 _ _ Hy). congruence.
  - intros x y Hx%Hwait [Hne Hy]%Hback. eapply waiting_frame; [by eapply I10|done|]. rewrite (I6 _ _ Hy). congruence.
  - rewrite Ew. apply Hqf; [done|]. intros x Hx. apply Hqne. unfold queued. rewrite Ew. apply elem_of_app. by left.
  - rewrite Es. apply Hqf; [done|]. intros x Hx. apply Hqne. unfold queued. rewrite Es. apply elem_of_app. by right.
Qed.

Lemma live_status (s : S) run wait id r : inv s run wait -> find s id = Some r ->
  (id ∈ running s ++ run /\ status r = RUNNING)
  \/ (id ∈ queued s ++ wait /\ status r ∈ [WAITING; PREEMPTED; WAITING_FOR_STRUCTURED_OUTPUT_GRAMMAR]).
Proof.
  intros I Hr. assert (is_Some (find s id)) as Hl by (by eexists). apply (si_live _ _ _ I) in Hl.
  rewrite app_assoc in Hl. apply elem_of_app in Hl as [Hl|Hl].
  - left. split; [done|]. by apply (si_running _ _ _ I id r Hl Hr).
  - right. split; [done|]. by apply (si_waiting _ _ _ I id r Hl Hr).
Qed.

Lemma live_not_finished (s : S) run wait id r : inv s run wait -> find s id = Some r -> is_finished r = false.
Proof.
  intros I Hr. unfold is_finished. destruct (live_status s run wait id r I Hr) as [[_ ->]|[_ Hst]]; [done|].
  rewrite !elem_of_cons in Hst. by destruct Hst as [->|[->|[->|?%not_elem_of_nil]]].
Qed.

Lemma valid_requests_ok (s : S) run wait l : inv s run wait ->
  request_id <$> valid_requests s l = filter (fun id => is_Some (find s id)) l
  /\ forall r, r ∈ valid_requests s l -> find s (request_id r) = Some r /\ request_id r ∈ l.
Proof.
  intros I. unfold valid_requests. induction l as [|id l [IH1 IH2]]; [split; [done|]; by intros r ?%not_elem_of_nil|].
  cbn [omap list_omap]. change (Dict.get id (requests s)) with (find s id). destruct (find s id) as [r|] eqn:Hr.
  - pose proof (si_named _ _ _ I _ _ Hr) as Hn. rewrite filter_cons_True by (by eapply live_not_finished).
    rewrite filter_cons_True by (by eexists). rewrite fmap_cons, IH1, Hn. split; [done|].
    intros x [->|Hx]%elem_of_cons; [rewrite Hn; split; [done|by left]|]. destruct (IH2 x Hx). split; [done|by right].
  - rewrite filter_cons_False; [|rewrite Hr; by intros [? ?]]. split; [done|]. intros x Hx. destruct (IH2 x Hx). split; [done|by right].
Qed.

Lemma status_split (s : S) run wait (l : list Request) : inv s run wait -> (forall r, r ∈ l -> find s (request_id r) = Some r) ->
  (forall r, r ∈ filter (fun r => status r = RUNNING) l -> request_id r ∈ running s ++ run)
  /\ (forall r, r ∈ filter (fun r => status r ≠ RUNNING) l -> request_id r ∈ queued s ++ wait).
Proof.
  intros I Hl. split; intros r [Hst Hr]%list_elem_of_filter;
    (destruct (live_status s run wait (request_id r) r I) as [[? E]|[? E]]; [by apply Hl|done|]); [|done].
  rewrite Hst in E. set_solver.
Qed.

(** The queue without the requests of [rs], which are live. *)
Lemma ids_keep (s : S) q q' (rs : list Request) run wait : inv s run wait -> queue_fine s q -> (forall r, r ∈ rs -> find s (request_id r) = Some r) ->
  Queue.elements q' ≡ₚ Queue.keep rs (Queue.elements q) -> ids q' ≡ₚ without (request_id <$> rs) (ids q).
Proof.
  intros I [_ Hq] Hrs HP. unfold ids. rewrite HP. clear HP. induction (Queue.elements q) as [|x l IH]; [done|].
  destruct (Hq x) as (y & Hy & Ho); [by left|]. unfold Queue.keep in *. rewrite fmap_cons.
  assert (oid x ∈ oid <$> rs <-> request_id x ∈ request_id <$> rs) as Hiff.
  { split; intros (r & E & Hr)%list_elem_of_fmap.
    - rewrite (si_objects _ _ _ I (request_id x) (request_id r) y r); [by apply list_elem_of_fmap_2|done|by apply Hrs|congruence].
    - pose proof (Hrs r Hr) as Hf. rewrite <- E, Hy in Hf. injection Hf as ->. rewrite <- Ho. by apply list_elem_of_fmap_2. }
  destruct (decide (request_id x ∈ request_id <$> rs)) as [Hin|Hin].
  - rewrite !filter_cons_False; [|naive_solver..]. apply IH. intros z Hz. apply Hq. by right.
  - rewrite !filter_cons_True; [|naive_solver..]. rewrite fmap_cons. f_equiv. apply IH. intros z Hz. apply Hq. by right.
Qed.

(** *** [finish_requests] *)

Context (order : list Z -> list Z) (order_nil : order [] = []).

(** The status is set, then the request is freed. *)
Lemma finish_live_ok (s : S) r st run wait : inv s run wait -> find s (request_id r) = Some r ->
  request_id r ∈ run ++ wait -> status_is_finished st = true ->
  exists s' run' wait', finish_one order st r s = (Ok tt, s') /\ inv s' run' wait' /\ run ++ wait ≡ₚ request_id r :: run' ++ wait'
    /\ about (request_id r) s s' /\ find s' (request_id r) = None /\ kv_idle (kv s') (request_id r)
    /\ running s' = running s /\ waiting s' = waiting s /\ skipped_waiting s' = skipped_waiting s.
Proof.
  intros I Hr Hin Hst. set (id := request_id r) in *. set (r1 := set_status st r).
  set (s1 := {| s with requests := Dict.set id r1 (requests s) |}).
  assert (find s1 id = Some r1) as Hr1 by (unfold find; cbn; by rewrite Dict.get_set, decide_True).
  assert (about id s s1) as Hab1.
  { split; [done..| |done|by apply Dict.NoDup_set]. intros x Hx. unfold find. cbn [s1 requests]. by rewrite Dict.get_set, decide_False. }
  destruct (release_request_ok order order_nil s1 r1) as (s2 & R2 & Hab2 & Hdead & Hk & Hidle & E1 & E2 & E3 & _); try done.
  { change (request_id r1) with id. by rewrite Hr1. }
  { exact (fi_text _ _ (si_fine _ _ _ I _ _ Hr)). }
  { apply (si_kv _ _ _ I). }
  { apply Hab1, I. }
  change (request_id r1) with id in *. assert (about id s s2) as Hab by (by eapply about_trans).
  assert (exists run' wait', run ++ wait ≡ₚ id :: run' ++ wait' /\ (forall x, x ∈ run' -> x ∈ run) /\ (forall x, x ∈ wait' -> x ∈ wait))
    as (run' & wait' & HP & Hsr & Hsw).
  { apply elem_of_app in Hin as [Hin|Hin]; apply elem_of_Permutation in Hin as [l Hl].
    - exists l, wait. rewrite Hl. split; [done|]. split; [|done]. intros x Hx. rewrite Hl. by right.
    - exists run, l. rewrite Hl. split; [by rewrite <- Permutation_middle|]. split; [done|]. intros x Hx. rewrite Hl. by right. }
  exists s2, run', wait'. split.
  { unfold finish_one, put_request. msteps. fold r1. exact R2. }
  assert (running s2 = running s /\ waiting s2 = waiting s /\ skipped_waiting s2 = skipped_waiting s) as (F1 & F2 & F3) by done.
  assert (queued s2 = queued s) as Eq by (unfold queued; by rewrite F2, F3).
  split; [|by split_and!]. apply (inv_remove s s2 id run wait); rewrite ?Eq, ?F1; try done.
  - transitivity (running s ++ queued s ++ run ++ wait); [perm|]. rewrite HP. perm.
  - intros x. rewrite !elem_of_app. naive_solver.
  - intros x. rewrite !elem_of_app. naive_solver.
Qed.

Lemma finish_loop_ok st l : status_is_finished st = true -> forall (s : S) run wait, inv s run wait ->
  (forall r, r ∈ l -> find s (request_id r) = Some r) -> NoDup (request_id <$> l) -> request_id <$> l ≡ₚ run ++ wait ->
  exists s', mfor l (finish_one order st) s = (Ok tt, s') /\ inv s' [] [] /\ config s' = config s
    /\ (forall id, id ∉ request_id <$> l -> find s' id = find s id) /\ (forall id, id ∈ request_id <$> l -> find s' id = None)
    /\ (forall id, find s' id = None -> find s id = None -> kv_idle (kv s) id -> kv_idle (kv s') id)
    /\ (forall id, id ∈ request_id <$> l -> kv_idle (kv s') id)
    /\ running s' = running s /\ waiting s' = waiting s /\ skipped_waiting s' = skipped_waiting s
    /\ prev_step_scheduled_req_ids s' = prev_step_scheduled_req_ids s /\ pause_state s' = pause_state s.
Proof.
  intros Hst. induction l as [|r l IH]; intros s run wait I Hl Hnd HP.
  { exists s. symmetry in HP. apply Permutation_nil_r in HP. apply app_eq_nil in HP as [-> ->]. split; [done|]. split; [done|]. split; [done|]. split; [done|].
    split_and!; try done; by intros id ?%not_elem_of_nil. }
  rewrite fmap_cons in *. apply NoDup_cons in Hnd as [Hr Hnd]. set (id := request_id r) in *.
  destruct (finish_live_ok s r st run wait I) as (s1 & run1 & wait1 & R1 & I1 & HP1 & [A1 A2 A3 A4 (_ & _ & A5 & _) A6] & Hdead & Hidle & E1 & E2 & E3);
    [apply Hl; by left|rewrite <- HP; by left|done|].
  destruct (IH s1 run1 wait1 I1) as (s2 & R2 & I2 & F1 & F2 & F3 & F4 & F5 & F6 & F7 & F8 & F9 & F10); [|done|..].
  { intros x Hx. rewrite A4; [apply Hl; by right|]. intros E. apply Hr. fold id in E. rewrite <- E. by apply list_elem_of_fmap_2. }
  { apply (Permutation_cons_inv (a := id)). by rewrite HP, HP1. }
  assert (forall x, x ∉ request_id <$> l -> kv_idle (kv s1) x -> find s1 x = None -> kv_idle (kv s2) x) as Hkeep
    by (intros x Hx Hi Hn; apply F4; [by rewrite F2|done|done]).
  exists s2. cbn [mfor]. rewrite (bind_ok _ _ _ _ _ R1). split; [done|]. split; [done|]. split; [congruence|]. split; [|split; [|split; [|split]]].
  - intros x [Hx1 Hx2]%not_elem_of_cons. by rewrite F2, A4.
  - intros x Hx. destruct (decide (x ∈ request_id <$> l)) as [Hin|Hin]; [by apply F3|]. apply elem_of_cons in Hx as [->|?]; [|done].
    by rewrite F2.
  - intros x Hx2 Hx Hi. destruct (decide (x = id)) as [->|Hne]; [by apply Hkeep|].
    apply F4; [done|by rewrite A4|]. apply A5; [by intros [= ?]|done].
  - intros x Hx. destruct (decide (x ∈ request_id <$> l)) as [Hin|Hin]; [by apply F5|]. apply elem_of_cons in Hx as [->|?]; [|done]. by apply Hkeep.
  - split_and!; congruence.
Qed.

(** The ids that are finished leave the scheduler, the others stay where they are. *)
Lemma finish_requests_ok (s : S) given st : books (slack := slack) s -> status_is_finished st = true -> NoDup (default (Dict.keys (requests s)) given) ->
  let l := default (Dict.keys (requests s)) given in
  exists o s', finish_requests order given st s = (Ok o, s') /\ books (slack := slack) s' /\ config s' = config s
    /\ o.*1 = filter (fun id => is_Some (find s id)) l
    /\ (forall id, find s' id = if decide (id ∈ l) then None else find s id)
    /\ (forall id, id ∈ running s' <-> id ∈ running s /\ id ∉ l).
Proof.
  intros [I Hprev Hroom Hdead] Hst Hnd l. pose proof (si_places _ _ _ I) as Hpl.
  assert (NoDup (running s)) as Hndr by (apply NoDup_app in Hpl; apply Hpl).
  destruct (valid_requests_ok s [] [] l I) as [V1 V2]. set (rs := valid_requests s l) in *.
  assert (forall r, r ∈ rs -> find s (request_id r) = Some r) as Hfind by (intros r Hr; by apply V2).
  destruct (status_split s [] [] rs I Hfind) as [Hrun Hwait]. set (run := filter (fun r => status r = RUNNING) rs) in *.
  set (wait := filter (fun r => status r ≠ RUNNING) rs) in *. rewrite app_nil_r in Hrun, Hwait.
  assert (NoDup (request_id <$> rs)) as Hndv by (rewrite V1; by apply NoDup_filter).
  assert (forall r, r ∈ wait -> r ∈ rs) as Hwrs by (by intros r [_ ?]%list_elem_of_filter).
  assert (forall x, x ∈ request_id <$> wait -> x ∈ queued s) as Hsubw by (intros x (r & -> & Hr)%list_elem_of_fmap; by apply Hwait).
  assert (forall x, x ∈ request_id <$> run -> x ∈ running s) as Hsubr by (intros x (r & -> & Hr)%list_elem_of_fmap; by apply Hrun).
  destruct (remove_elements (waiting s) wait) as (q1 & R1 & Hok1 & HP1); [apply I|].
  destruct (remove_elements (skipped_waiting s) wait) as (q2 & R2 & Hok2 & HP2); [apply I|].
  set (nw := num_waiting_for_streaming_input s - zlen (filter (fun r => status r = WAITING_FOR_STREAMING_REQ) wait)).
  set (s1 := {| s with num_waiting_for_streaming_input := nw; running := without (request_id <$> run) (running s);
    waiting := match wait with [] => waiting s | _ => q1 end; skipped_waiting := match wait with [] => skipped_waiting s | _ => q2 end |}).
  assert (forall q q', q' = q \/ Queue.elements q' ≡ₚ Queue.keep wait (Queue.elements q) -> forall x, x ∈ Queue.elements q' -> x ∈ Queue.elements q) as Hsub.
  { intros q q' [->|HP] x; [done|]. rewrite HP. unfold Queue.keep. by intros [_ ?]%list_elem_of_filter. }
  assert (queue_fine s (waiting s1) /\ queue_fine s (skipped_waiting s1)) as [Hq1 Hq2].
  { split; cbn [s1 waiting skipped_waiting]; destruct wait; try apply I; (split; [done|]); intros x Hx; [apply (si_waitq _ _ _ I)|apply (si_skipq _ _ _ I)];
      (eapply Hsub; [|exact Hx]); by right. }
  assert (queued s ≡ₚ queued s1 ++ (request_id <$> wait)) as Hqp.
  { assert (queued s1 ≡ₚ without (request_id <$> wait) (queued s)) as ->.
    - unfold queued. rewrite filter_app. cbn [s1 waiting skipped_waiting]. destruct wait as [|w ws] eqn:Ew.
      + cbn [fmap list_fmap]. by rewrite !without_nil.
      + rewrite <- Ew in *. f_equiv; (eapply ids_keep; [done|apply I| |done]); intros r Hr; by apply Hfind, Hwrs.
    - apply without_perm; [|by apply nodup_ids|done]. apply NoDup_app in Hpl as (_ & _ & Hpl). cbn in Hpl. by rewrite app_nil_r in Hpl. }
  assert (running s ≡ₚ running s1 ++ (request_id <$> run)) as Hrp by (apply without_perm; [done|by apply nodup_ids|done]).
  assert (inv s1 (request_id <$> run) (request_id <$> wait)) as I1.
  { destruct I as [I1 I2 I3 I4 I5 Id I6 I7 I8 I9 I10 I11 I12].
    assert (running s1 ++ (request_id <$> run) ++ queued s1 ++ (request_id <$> wait) ≡ₚ running s ++ [] ++ queued s ++ []) as HP
      by (rewrite Hrp, Hqp; perm).
    split; try done.
    - by rewrite HP.
    - intros x. rewrite HP. apply I5.
    - intros x y Hy. apply (fine_frame None s); [by eapply I7|done|done].
    - intros x y Hx Hy. rewrite <- Hrp in Hx. apply (running_frame None s); [apply (I9 x y); [by rewrite app_nil_r|done]|done..].
    - intros x y Hx Hy. rewrite <- Hqp in Hx. apply (waiting_frame None s); [apply (I10 x y); [by rewrite app_nil_r|done]|done..]. }
  destruct (finish_loop_ok st rs Hst s1 _ _ I1 Hfind Hndv (split_perm rs)) as (s2 & R3 & I2 & F1 & F2 & F3 & F4 & F5 & F6 & F7 & F8 & F9 & F10).
  assert (forall id, id ∈ request_id <$> rs <-> id ∈ l /\ is_Some (find s id)) as Hin by (intros id; rewrite V1, list_elem_of_filter; naive_solver).
  assert (forall id, find s2 id = if decide (id ∈ l) then None else find s id) as Ef.
  { intros id. destruct (decide (id ∈ request_id <$> rs)) as [Hr|Hr].
    - rewrite F3 by done. apply Hin in Hr as [Hr _]. by rewrite decide_True.
    - rewrite F2 by done. change (find s1 id) with (find s id). case_decide as Hl; [|done].
      destruct (find s id) eqn:E; [|done]. exfalso. apply Hr, Hin. rewrite E. by split. }
  exists ((fun r => (request_id r, client_index r)) <$> rs), s2. split.
  { unfold finish_requests. rewrite Hst. msteps. fold l rs run wait nw. rewrite remove_all_without by done.
    destruct wait as [|w ws]; msteps; [done|]. rewrite (bind_ok _ _ _ tt s1); [by msteps|].
    set (rm := fun q => Queue.remove_requests q (w :: ws)).
    match goal with |- _ ?st0 = _ => set (s0 := st0); rewrite (bind_ok _ _ s0 _ _ (with_waiting_ok rm s0 q1 R1)) end.
    by rewrite (with_skipped_ok rm {| s0 with waiting := q1 |} q2 R2). }
  split; [split|].
  - done.
  - intros x y Hx Hy. rewrite F9. unfold queued in Hx. rewrite F7, F8 in Hx. apply (Hprev x y); [|rewrite Ef in Hy; by case_decide].
    rewrite Hqp. apply elem_of_app. by left.
  - rewrite F6, F1. cbn [s1 running config]. pose proof (length_filter (fun x => x ∉ request_id <$> run) (running s)). unfold zlen in *. lia.
  - intros id Hid. destruct (decide (id ∈ request_id <$> rs)) as [Hr|Hr]; [by apply F5|].
    assert (find s id = None) as Hn by (by rewrite F2 in Hid). apply F4; [done|done|]. by apply Hdead.
  - split; [done|]. split; [|split; [done|]].
    + rewrite <- V1. generalize rs. clear. induction rs as [|r rs IH]; [done|]. rewrite !fmap_cons. by f_equal.
    + intros id. rewrite F6. cbn [s1 running]. rewrite list_elem_of_filter.
      assert (id ∈ running s -> id ∈ request_id <$> run <-> id ∈ l) as Hiff; [|naive_solver]. intros Hid.
      assert (is_Some (find s id)) as [r Hr] by (apply (si_live _ _ _ I); set_solver).
      pose proof (si_running _ _ _ I id r ltac:(set_solver) Hr) as [Hrs _ _ _]. pose proof (si_named _ _ _ I _ _ Hr) as Hname.
      split; [intros (y & -> & [_ Hy]%list_elem_of_filter)%list_elem_of_fmap; by apply V2|].
      intros Hl. assert (id ∈ request_id <$> rs) as (y & Ey & Hy)%list_elem_of_fmap by (apply Hin; rewrite Hr; by split).
      rewrite Ey. apply list_elem_of_fmap_2. apply list_elem_of_filter. split; [|done].
      pose proof (Hfind y Hy) as Hfy. rewrite <- Ey, Hr in Hfy. congruence.
Qed.

End leave.
End SchedServe.
