(* ===== verification/SchedUpdate.v ===== *)
(** [update_from_output] of the synchronous scheduler: the results of a step are
    taken in, draft tokens that were rejected are taken back, and the requests that
    stopped leave. *)

From S2P Require Import Prelude FreeQueue Request Hashing Metrics BlockPool KVSpec SingleType Coordinator KVManager EncoderCache Heap ReqQueue Scheduler SchedContract SchedFacts SchedPhases SchedStep SchedServe.
Local Open Scope Z_scope.

Module SchedUpdate.
Import Sched QueueSets SchedFacts SchedPhases SchedStep SchedServe.

(** ** The tokens of one request *)

Definition with_tokens (toks : list Z) (r : Request) : Request :=
  {| r with output_token_ids := output_token_ids r ++ toks; all_token_ids := all_token_ids r ++ toks |}.

Definition stopped_as (st : RequestStatus) (sr : option (Z + string)) (r : Request) : Request :=
  {| r with status := st; stop_reason := sr |}.

Lemma check_stop_ok max_len r : can_stop max_len r -> output_token_ids r <> [] ->
  exists st sr, (check_stop max_len r = (Ok true, stopped_as st sr r) /\ status_is_finished st = true)
    \/ (check_stop max_len r = (Ok false, r) /\ num_tokens r < max_len).
Proof.
  intros (Hpool & _ & sp & Hsp & Htok & Hmin) Hne. destruct (last (output_token_ids r)) as [t|] eqn:Ht.
  2: { by apply last_None in Ht. }
  assert (r = stopped_as (status r) (stop_reason r) r) as Er by (by destruct r).
  unfold check_stop. msteps. rewrite Hpool, Hsp. msteps.
  destruct (Z.ltb_spec (num_output_tokens r) (min_tokens sp)) as [Hlt|Hge].
  { exists (status r), (stop_reason r). right. split; [by msteps|lia]. }
  rewrite (py_get_last _ _ Ht). msteps.
  case_bool_decide; [exists FINISHED_STOPPED, (stop_reason r); left; split; [|done]; by msteps|].
  case_bool_decide; [exists FINISHED_STOPPED, (Some (inl t)); left; split; [|done]; by msteps|].
  destruct ((max_len <=? num_tokens r) || (max_tokens r <=? num_output_tokens r)) eqn:Ecap.
  { exists FINISHED_LENGTH_CAPPED, (stop_reason r). left. split; [|done]. by msteps. }
  assert (num_tokens r < max_len) by (apply orb_false_iff in Ecap; lia).
  destruct (repetition_detection sp) as [ps|]; [|exists (status r), (stop_reason r); right; split; [by msteps|done]].
  destruct (check_sequence_repetition_spec (output_token_ids r) ps) as (rep & -> & _). msteps. destruct rep; msteps.
  - exists FINISHED_REPETITION, (Some (inr "repetition_detected"%string)). by left.
  - exists (status r), (stop_reason r). by right.
Qed.

Section update.
Context {K C : Type} `{KL : KVLaws K} `{EL : EncoderLaws C}.
Context (hash_function : bytes * list Z * option (list extra_key) -> bytes).
Context (sha256 : bytes -> bytes) (NONE_HASH : bytes).

Lemma append_until_stop_ok max_len toks : forall r, block_hasher r = None -> can_stop max_len r -> num_tokens r < max_len ->
  exists l stopped st sr, append_until_stop hash_function sha256 NONE_HASH max_len toks r = (Ok (l, stopped), stopped_as st sr (with_tokens l r))
    /\ (toks <> [] -> l <> []) /\ zlen l <= zlen toks
    /\ if stopped : bool then status_is_finished st = true
       else st = status r /\ sr = stop_reason r /\ l = toks /\ num_tokens r + zlen toks < max_len.
Proof.
  induction toks as [|t toks IH]; intros r Hh Hs Hlt.
  { exists [], false, (status r), (stop_reason r). change (zlen (@nil Z)) with 0. rewrite Z.add_0_r. split; [|by split_and!]. cbn.
    unfold mret, M_ret. unfold stopped_as, with_tokens. rewrite !app_nil_r. by destruct r. }
  cbn [append_until_stop]. assert (append_output_token_ids hash_function sha256 NONE_HASH [t] r = (Ok tt, with_tokens [t] r)) as R1.
  { clear -Hh. destruct r. cbn in Hh. by subst. }
  rewrite (bind_ok _ _ _ _ _ R1). set (r1 := with_tokens [t] r) in *.
  assert (num_tokens r1 = num_tokens r + 1) as Hn1 by (unfold num_tokens, r1; cbn; by rewrite zlen_app).
  assert (can_stop max_len r1) as Hs1.
  { destruct Hs as (Hp & Hr & sp & Hsp & Htok & Hmin). split; [done|]. split; [done|]. exists sp. split; [done|]. split; [|done].
    rewrite Hn1. unfold num_output_tokens, r1. cbn. rewrite zlen_app. unfold num_output_tokens in Htok. change (zlen [t]) with 1. lia. }
  destruct (check_stop_ok max_len r1 Hs1) as (st & sr & [[R2 Hst]|[R2 Hlt1]]); [cbn; by destruct (output_token_ids r)|..].
  - exists [t], true, st, sr. rewrite (bind_ok _ _ _ _ _ R2). split; [done|]. split; [done|]. split; [|done].
    unfold zlen. cbn [length]. lia.
  - destruct (IH r1) as (l & stopped & st' & sr' & R3 & _ & Hle & Ho); [done|done|done|].
    exists (t :: l), stopped, st', sr'. rewrite (bind_ok _ _ _ _ _ R2), (bind_ok _ _ _ _ _ R3). split.
    { unfold mret, M_ret. do 2 f_equal. unfold stopped_as, with_tokens, r1. cbn. by rewrite <- !app_assoc. }
    split; [done|]. rewrite !zlen_cons. split; [lia|]. destruct stopped; [done|]. destruct Ho as (-> & -> & -> & Hb).
    split; [done|]. split; [done|]. split; [done|]. lia.
Qed.

(** ** One turn of the loop *)

Abbreviation S := (Scheduler K C).
Abbreviation kv s := (kv_cache_manager s).

(** The scheduler is synchronous and collects no statistics. *)
Record sync (c : SchedulerConfig) : Prop := {
  sy_async : async_scheduling c = false;
  sy_stats : sc_log_stats c = false;
}.

(** The model runner answers [g] for the request [id], which had [d] draft tokens. *)
Definition answered (mo : ModelRunnerOutput) (id : string) (d : Z) (g : list Z) : Prop :=
  exists i, Dict.get id (req_id_to_index mo) = Some i
    /\ match sampled_token_ids mo with [] => g = [] | l => py_get l i = Ok g end
    /\ (0 < d -> g <> []) /\ zlen g <= 1 + d /\ (g = [] -> id ∉ prompt_logprobs mo).

(** A client has been told that [id] finished. *)
Definition reported (d : list (Z * list EngineCoreOutput)) (id : string) : Prop :=
  exists client l o, Dict.get client d = Some l /\ o ∈ l /\ eo_request_id o = id /\ is_Some (eo_finish_reason o).

Lemma reported_add client o d id : reported d id \/ (eo_request_id o = id /\ is_Some (eo_finish_reason o)) ->
  reported (add_output client o d) id.
Proof.
  unfold add_output. intros [(c & l & o' & Hc & Ho & Hid)|Hid].
  - destruct (decide (c = client)) as [->|Hne].
    + exists client, (l ++ [o]), o'. rewrite Dict.get_set, decide_True, Hc by done. split; [done|]. split; [set_solver|done].
    + exists c, l, o'. by rewrite Dict.get_set, decide_False.
  - exists client, (default [] (Dict.get client d) ++ [o]), o. rewrite Dict.get_set, decide_True by done. split; [done|]. split; [set_solver|done].
Qed.

Lemma finish_reason_some st : status_is_finished st = true -> is_Some (status_get_finished_reason st).
Proof. destruct st; cbn; intros Hst; try done; by eexists. Qed.

(** The request [id] is [r] now. *)
Definition put (s : S) (r : Request) : S := {| s with requests := Dict.set (request_id r) r (requests s) |}.

Lemma find_put_same (s : S) r : find (put s r) (request_id r) = Some r.
Proof. unfold find, put. cbn. by rewrite Dict.get_set, decide_True. Qed.

Lemma about_put (s : S) r : about (request_id r) s (put s r).
Proof.
  split; [done..| |done|by apply Dict.NoDup_set]. intros x Hx. unfold find, put. cbn [requests]. by rewrite Dict.get_set, decide_False.
Qed.

(** A change of one request. *)
Record changes (s s' : S) (r' : Request) : Prop := {
  ch_state : s' = {| s with requests := requests s' |};
  ch_about : about (request_id r') s s';
  ch_find : find s' (request_id r') = Some r';
}.

Lemma changes_put s r : changes s (put s r) r.
Proof. split; [done|apply about_put|apply find_put_same]. Qed.

Lemma changes_none s r : find s (request_id r) = Some r -> changes s s r.
Proof. intros Hr. split; [by destruct s|apply about_refl|done]. Qed.

Lemma changes_trans s1 s2 s3 r r' : changes s1 s2 r -> changes s2 s3 r' -> request_id r' = request_id r -> changes s1 s3 r'.
Proof.
  intros [A1 A2 A3] [B1 B2 B3] Hn. rewrite Hn in *. split; [by rewrite B1, A1| |by rewrite Hn]. rewrite Hn. by eapply about_trans.
Qed.

(** The draft tokens that were rejected are taken back. *)
Lemma account_drafts_ok (out : SchedulerOutput) (s : S) r g a : sync (config s) -> find s (request_id r) = Some r ->
  let d := drafts (so_scheduled_spec_decode_tokens out) (request_id r) in
  num_output_placeholders r = 0 -> d <= num_computed_tokens r <= num_tokens r + d -> (0 < d -> g <> []) -> zlen g <= 1 + d ->
  exists c st s1, account_drafts out r g a s = (Ok ({| r with num_computed_tokens := c |}, {| a with spec_decoding_stats := st |}), s1)
    /\ changes s s1 {| r with num_computed_tokens := c |} /\ 0 <= c <= num_computed_tokens r /\ c <= num_tokens r + zlen g.
Proof.
  intros [_ Hstats] Hr d Hp Hd Hg Hlen. pose proof (zlen_nonneg g) as Hz.
  assert (0 <= d) as Hd0 by apply zlen_nonneg. unfold account_drafts. msteps. fold (drafts (so_scheduled_spec_decode_tokens out) (request_id r)). fold d.
  destruct ((0 <? d) && (0 <? zlen g)) eqn:Eb.
  - set (k := d - (zlen g - 1)). set (c := if 0 <? num_computed_tokens r then num_computed_tokens r - k else num_computed_tokens r).
    assert (reject_drafts r k = {| r with num_computed_tokens := c |}) as ->.
    { unfold reject_drafts. by replace (0 <? num_output_placeholders r) with false by lia. }
    set (r1 := {| r with num_computed_tokens := c |}). assert (put_request r1 s = (Ok tt, put s r1)) as R1 by done.
    rewrite (bind_ok _ _ _ _ _ R1). unfold make_spec_decoding_stats. rewrite Hstats. cbn [negb orb]. msteps.
    exists c, None, (put s r1). split; [done|]. split; [apply changes_put|].
    unfold c, k in *. destruct (Z.ltb_spec 0 (num_computed_tokens r)); lia.
  - exists (num_computed_tokens r), (spec_decoding_stats a), s.
    assert ({| r with num_computed_tokens := num_computed_tokens r |} = r) as -> by (by destruct r).
    split; [by destruct a|]. split; [by apply changes_none|]. split; [lia|]. destruct (Z.ltb_spec 0 d) as [Hlt|]; [|lia].
    destruct g; [by destruct (Hg Hlt)|]. rewrite zlen_cons in *. pose proof (zlen_nonneg g). lia.
Qed.

(** The new tokens. *)
Lemma take_output_ok (s : S) r g : sync (config s) -> find s (request_id r) = Some r -> block_hasher r = None ->
  can_stop (sc_max_model_len (config s)) r -> num_tokens r < sc_max_model_len (config s) ->
  exists l stopped st sr s1, take_output hash_function sha256 NONE_HASH r g false s = (Ok (l, stopped), s1)
    /\ changes s s1 (stopped_as st sr (with_tokens l r)) /\ (g <> [] -> l <> [])
    /\ if stopped : bool then status_is_finished st = true
       else st = status r /\ l = g /\ num_tokens r + zlen g < sc_max_model_len (config s).
Proof.
  intros [Ha _] Hr Hh Hs Hlt. unfold take_output. destruct g as [|t g].
  { exists [], false, (status r), (stop_reason r), s. rewrite andb_false_r. split; [done|].
    assert (stopped_as (status r) (stop_reason r) (with_tokens [] r) = r) as ->
      by (unfold stopped_as, with_tokens; rewrite !app_nil_r; by destruct r).
    split; [by apply changes_none|]. change (zlen (@nil Z)) with 0. rewrite Z.add_0_r. by split_and!. }
  destruct (append_until_stop_ok (sc_max_model_len (config s)) (t :: g) r Hh Hs Hlt) as (l & stopped & st & sr & R1 & Hl & _ & Ho).
  exists l, stopped, st, sr, (put s (stopped_as st sr (with_tokens l r))). split.
  { unfold update_request_with_output. msteps. rewrite Ha. cbn [negb]. unfold on_request. by rewrite R1. }
  split; [apply changes_put|]. split; [done|]. destruct stopped; [done|]. by destruct Ho as (-> & _ & -> & ?).
Qed.

(** A stopped request leaves. *)
Lemma after_stop_ok order (s : S) r a : order [] = [] -> find s (request_id r) = Some r -> is_finished r = true ->
  resumable r = false -> mm_features r = [] -> kv_ok (kv s) -> NoDup (Dict.keys (requests s)) ->
  exists s', after_stop hash_function sha256 NONE_HASH order r RUNNING a s
      = (Ok (get_finished_reason r, r, {| a with stopped_running_reqs := stopped_running_reqs a ++ [request_id r] |}), s')
    /\ about (request_id r) s s' /\ find s' (request_id r) = None /\ kv_ok (kv s') /\ kv_idle (kv s') (request_id r)
    /\ running s' = running s /\ waiting s' = waiting s /\ skipped_waiting s' = skipped_waiting s.
Proof.
  intros Hord Hr Hfin Hres Htext Hk Hnd.
  destruct (release_request_ok order Hord s r) as (s' & R1 & Hab & Hdead & Hk' & Hidle & E1 & E2 & E3 & _); [by rewrite Hr|done..|].
  exists s'. split; [|done]. unfold after_stop, handle_stopped_request. rewrite Hres. cbn [negb]. msteps.
  unfold find in Hdead. rewrite Hdead. cbn [default]. done.
Qed.

Context (order : list Z -> list Z) (order_nil : order [] = []).
Context (no_hasher : forall (k : K) h, kv_hasher k h -> h = None).

Abbreviation books_at slack s l := (sched_inv (slack := slack) {| (s : S) with running := l |} [] []).

Definition settle (slack : string -> Z) (id : string) : string -> Z := fun x => if decide (x = id) then 0 else slack x.

(** The tokens are kept: the request goes on. *)
Lemma keep_running (slack : string -> Z) (s s' : S) l id r r' : books_at slack s l -> id ∈ l -> find s id = Some r -> 0 <= slack id ->
  changes s s' r' -> request_id r' = id -> oid r' = oid r -> fine s r' -> status r' = RUNNING ->
  0 <= num_computed_tokens r' <= num_computed_tokens r -> num_computed_tokens r' <= num_tokens r' ->
  books_at (settle slack id) s' l.
Proof.
  intros I Hid Hr Hsl [Es Hab Hr'] Hn Ho Hf Hst Hc Ht. subst id. set (id := request_id r') in *.
  set (v := {| s with running := l |}). set (v' := {| s' with running := l |}).
  assert (find v id = Some r /\ find v' id = Some r') as [Hv Hv'] by done.
  destruct (si_running _ _ _ I id r) as [R1 R2 R3 R4]; [set_solver|done|]. cbn [config] in R2. pose proof (si_named _ _ _ I _ _ Hr) as Hname.
  assert (about id v v') as Habv by (by destruct Hab). assert (config s' = config s /\ kv s' = kv s /\ queued v' = queued v) as (E1 & E2 & E3) by (unfold queued; cbn; by rewrite Es).
  assert (sched_inv (slack := slack) v' [] []) as I'.
  { apply (inv_change v v' id r r' [] [] [] []); rewrite ?E3; try done.
    - apply (fine_frame None s); [done|done|]. change (kv v') with (kv s'). by rewrite E2.
    - change (kv v') with (kv s'). rewrite E2. apply (si_kv _ _ _ I).
    - intros x Hx. by right.
    - intros x Hx. by right.
    - intros _. split; [done|change (config v') with (config s'); rewrite E1; lia|fold id; pose proof (fi_placeholders _ _ Hf); lia|].
      change (kv v') with (kv s'). rewrite E2. apply (law_holds_less _ _ (num_computed_tokens r)); [apply (si_kv _ _ _ I)| |lia].
      fold id. by rewrite <- Hname.
    - intros Hx. exfalso. pose proof (si_places _ _ _ I) as Hnd. apply NoDup_app in Hnd as (_ & Hd & _). by apply (Hd id Hid).
    - assert (waiting v' = waiting v) as -> by (cbn; by rewrite Es). by eapply queue_fine_about; [apply I|..].
    - assert (skipped_waiting v' = skipped_waiting v) as -> by (cbn; by rewrite Es). by eapply queue_fine_about; [apply I|..]. }
  apply (inv_slack slack); [done|]. intros x y Hx Hy. unfold settle. case_decide as Hd.
  - subst x. rewrite Hv' in Hy. injection Hy as <-. pose proof (fi_placeholders _ _ Hf). lia.
  - destruct (si_running _ _ _ I' x y Hx Hy) as [_ _ Hb _]. by rewrite (si_named _ _ _ I' _ _ Hy) in Hb.
Qed.

(** The request stopped and is gone. *)
Lemma drop_running (slack : string -> Z) (s s' : S) l id : books_at slack s l -> id ∈ l -> about id s s' -> find s' id = None ->
  kv_ok (kv s') -> waiting s' = waiting s -> skipped_waiting s' = skipped_waiting s -> books_at (settle slack id) s' (without [id] l).
Proof.
  intros I Hid Hab Hdead Hk Ew Es. set (v := {| s with running := l |}). set (v' := {| s' with running := without [id] l |}).
  assert (about id v v') as Habv by (by destruct Hab). assert (queued v' = queued v) as Eq by (unfold queued; cbn; by rewrite Ew, Es).
  pose proof (si_places _ _ _ I) as Hnd. apply NoDup_app in Hnd as (Hnd & _ & _). cbn [running] in Hnd.
  assert (l ≡ₚ id :: without [id] l) as HP.
  { rewrite (without_perm [id] l) at 1; [by rewrite Permutation_app_comm|done|apply NoDup_singleton|]. by intros x ->%list_elem_of_singleton. }
  assert (forall x, x ∈ without [id] l -> x <> id /\ x ∈ l) as Hsub.
  { intros x [Hx ?]%list_elem_of_filter. split; [|done]. intros ->. apply Hx. by left. }
  assert (sched_inv (slack := slack) v' [] []) as I'.
  { apply (inv_remove v v' id [] [] [] []); rewrite ?Eq; try done.
    - cbn [running v v' app]. by rewrite HP at 1.
    - intros x. rewrite !app_nil_r. apply Hsub. }
  apply (inv_slack slack); [done|]. intros x y Hx Hy. unfold settle.
  assert (x <> id) as Hne by (rewrite app_nil_r in Hx; by apply Hsub). rewrite decide_False by done.
  destruct (si_running _ _ _ I' x y Hx Hy) as [_ _ Hb _]. by rewrite (si_named _ _ _ I' _ _ Hy) in Hb.
Qed.

(** What a turn does to the books and to the results. *)
Record turned (slack : string -> Z) (id : string) (s : S) (l : list string) (a : Results) (s' : S) (l' : list string) (a' : Results) : Prop := {
  tn_books : books_at (settle slack id) s' l';
  tn_about : about id s s';
  tn_running : running s' = running s;
  tn_waiting : waiting s' = waiting s;
  tn_skipped : skipped_waiting s' = skipped_waiting s;
  tn_preempted : stopped_preempted_reqs a' = stopped_preempted_reqs a;
  tn_reported : forall x, reported (client_outputs a) x -> reported (client_outputs a') x;
  tn_outcome : (l' = l /\ stopped_running_reqs a' = stopped_running_reqs a /\ is_Some (find s' id))
    \/ (l' = without [id] l /\ stopped_running_reqs a' = stopped_running_reqs a ++ [id] /\ find s' id = None /\ kv_idle (kv s') id
         /\ reported (client_outputs a') id);
}.

Lemma update_one_ok (slack : string -> Z) (s : S) l out mo a id n r g : sync (config s) -> books_at slack s l -> id ∈ l -> find s id = Some r ->
  0 < n -> let d := drafts (so_scheduled_spec_decode_tokens out) id in slack id = d -> d <= num_computed_tokens r ->
  answered mo id d g -> pooler_output mo = None ->
  exists s' l' a', update_one hash_function sha256 NONE_HASH order out mo a (id, n) s = (Ok a', s') /\ turned slack id s l a s' l' a'.
Proof.
  intros Hsync I Hid Hr Hn d Hsl Hd (i & Hi & Hg & Hdg & Hlen & Hlog) Hpool. pose proof (si_named _ _ _ I _ _ Hr) as Hname.
  pose proof (si_fine _ _ _ I _ _ Hr) as [F1 [F2 F2'] [F3 F3'] F4 F5].
  destruct (si_running _ _ _ I id r) as [R1 R2 R3 R4]; [set_solver|done|]. rewrite Hname in R3. specialize (F2' (sy_async _ Hsync)).
  assert (is_finished r = false) as Hnf by (unfold is_finished; by rewrite R1).
  assert (find s (request_id r) = Some r) as Hr0 by (by rewrite Hname).
  destruct (account_drafts_ok out s r g a Hsync Hr0) as (c & st & s1 & Q1 & Ch1 & Hc & Hct); rewrite ?Hname; fold d; [done|lia|done|done|].
  set (r1 := {| r with num_computed_tokens := c |}) in *. set (a1 := {| a with spec_decoding_stats := st |}) in *.
  assert (config s1 = config s) as Ec1 by (by rewrite (ch_state _ _ _ Ch1)).
  destruct (take_output_ok s1 r1 g) as (toks & stopped & st2 & sr2 & s2 & Q2 & Ch2 & Htoks & Ho); rewrite ?Ec1;
    [done|apply (ch_find _ _ _ Ch1)|by eapply no_hasher|done|apply F4|].
  set (r2 := stopped_as st2 sr2 (with_tokens toks r1)) in *.
  assert (changes s s2 r2) as Ch by (by eapply changes_trans).
  unfold update_one. replace (0 <? n) with true by lia. msteps. unfold find in Hr. rewrite Hr, Hnf, Hi. msteps.
  assert (forall k, (match sampled_token_ids mo with [] => mret [] | l => lift_res (py_get l i) end : M S (list Z)) k = (Ok g, k)) as Q3.
  { intros k. destruct (sampled_token_ids mo); [by rewrite Hg|]. unfold lift_res. by rewrite Hg. }
  rewrite (bind_ok _ _ _ _ _ (Q3 s)), Hpool. rewrite (bind_ok _ _ s false s) by done. rewrite (bind_ok _ _ _ _ _ Q1). fold r1 a1.
  rewrite (bind_ok _ _ _ _ _ Q2). rewrite (bind_ok _ _ s2 s2 s2) by done.
  assert (get_request id s2 = (Ok r2, s2)) as Q4.
  { apply get_request_ok. rewrite <- Hname. apply (ch_find _ _ _ Ch). }
  rewrite (bind_ok _ _ _ _ _ Q4). change (status r1) with (status r). rewrite R1.
  assert (forall x, reported (client_outputs a1) x -> reported (client_outputs a) x) as Hrep by done.
  pose proof (ch_about _ _ _ Ch) as Hab. change (request_id r2) with (request_id r) in Hab. rewrite Hname in Hab.
  assert (waiting s2 = waiting s /\ skipped_waiting s2 = skipped_waiting s /\ running s2 = running s /\ kv s2 = kv s) as (E1 & E2 & E3 & E4)
    by (by rewrite (ch_state _ _ _ Ch)).
  destruct stopped.
  - destruct (after_stop_ok order s2 r2 a1 order_nil) as (s3 & Q5 & Hab3 & Hdead & Hk & Hidle & G1 & G2 & G3); [apply (ch_find _ _ _ Ch)|done|apply F5|done|..].
    { rewrite E4. apply (si_kv _ _ _ I). } { apply Hab, (si_dict _ _ _ I). }
    rewrite (bind_ok _ _ _ _ _ Q5), orb_true_r. change (request_id r2) with (request_id r) in *. rewrite Hname in *.
    eexists s3, _, _. split; [reflexivity|]. split; cbn [client_outputs stopped_running_reqs stopped_preempted_reqs]; try congruence.
    + apply (drop_running slack s); [done|done|by eapply about_trans|done|done|congruence|congruence].
    + by eapply about_trans.
    + done.
    + intros x Hx. apply reported_add. by left.
    + right. split; [done|]. split; [done|]. split; [done|]. split; [done|]. apply reported_add. right. split; [done|].
      cbn [eo_finish_reason]. by apply finish_reason_some.
  - destruct Ho as (-> & -> & Htok). rewrite Ec1 in Htok. rewrite (bind_ok _ _ s2 (None, r2, a1) s2) by done.
    assert (num_tokens r2 = num_tokens r + zlen g) as Hn2 by (unfold num_tokens; cbn; by rewrite zlen_app).
    assert (fine s r2) as Hf2.
    { split; [done|by split|split; [done|]| |].
      - cbn. unfold hashes_complete in *. cbn [block_hasher r2 stopped_as with_tokens r1]. by rewrite (no_hasher _ _ F3).
      - rewrite Hn2. change (num_tokens r1) with (num_tokens r) in Htok. pose proof (zlen_nonneg g). lia.
      - destruct F5 as (P1 & P2 & sp & P3 & P4 & P5). split; [done|]. split; [done|]. exists sp. split; [done|]. split; [|done].
        rewrite Hn2. unfold num_output_tokens in *. cbn [output_token_ids r2 stopped_as with_tokens r1 num_prompt_tokens]. rewrite zlen_app. lia. }
    assert (books_at (settle slack id) s2 l) as I2.
    { apply (keep_running slack s s2 l id r r2); [done|done|done|rewrite Hsl; apply zlen_nonneg|done|done|done|done|done| |].
      - exact Hc.
      - rewrite Hn2. exact Hct. }
    assert (is_Some (find s2 id)) as Hlive.
    { pose proof (ch_find _ _ _ Ch) as Hf. change (request_id r2) with (request_id r) in Hf. rewrite Hname in Hf. by eexists. }
    rewrite orb_false_r. destruct ((0 <? zlen g) || false) eqn:Eb.
    + eexists s2, l, _. split; [reflexivity|]. split; cbn [client_outputs stopped_running_reqs stopped_preempted_reqs]; try done; [|by left].
      intros x Hx. apply reported_add. by left.
    + assert (g = []) as Hnil.
      { destruct g as [|t g']; [done|]. rewrite zlen_cons in Eb. pose proof (zlen_nonneg g'). apply orb_false_iff in Eb as [Eb _]. lia. }
      rewrite bool_decide_eq_true_2 by (by apply Hlog). eexists s2, l, a1. split; [by msteps|]. split; try done. by left.
Qed.

(** ** The loop *)

(** The entry of a live request can be settled. *)
Definition settleable (slack : string -> Z) (s : S) (l : list string) (out : SchedulerOutput) (mo : ModelRunnerOutput) (id : string) : Prop :=
  find s id = None \/ exists r g, find s id = Some r /\ id ∈ l /\ slack id = drafts (so_scheduled_spec_decode_tokens out) id
    /\ drafts (so_scheduled_spec_decode_tokens out) id <= num_computed_tokens r
    /\ answered mo id (drafts (so_scheduled_spec_decode_tokens out) id) g.

(** What the loop does: the requests of [gone] stopped. *)
Record looped (ids : list string) (s : S) (l : list string) (a : Results) (s' : S) (gone : list string) (a' : Results) : Prop := {
  lp_books : books_at (fun _ => 0) s' (without gone l);
  lp_config : config s' = config s;
  lp_prev : prev_step_scheduled_req_ids s' = prev_step_scheduled_req_ids s;
  lp_pause : pause_state s' = pause_state s;
  lp_running : running s' = running s;
  lp_waiting : waiting s' = waiting s;
  lp_skipped : skipped_waiting s' = skipped_waiting s;
  lp_stopped : stopped_running_reqs a' = stopped_running_reqs a ++ gone;
  lp_preempted : stopped_preempted_reqs a' = stopped_preempted_reqs a;
  lp_reported : forall x, reported (client_outputs a) x \/ x ∈ gone -> reported (client_outputs a') x;
  lp_gone : forall x, x ∈ gone -> x ∈ l /\ x ∈ ids /\ is_Some (find s x) /\ find s' x = None /\ kv_idle (kv s') x;
  lp_others : forall x, x ∉ ids -> find s' x = find s x;
  lp_live : forall x, x ∉ gone -> is_Some (find s x) -> is_Some (find s' x);
  lp_dead : forall x, find s x = None -> find s' x = None /\ (kv_idle (kv s) x -> kv_idle (kv s') x);
}.

Lemma update_loop_ok out mo entries : forall (slack : string -> Z) (s : S) l a, sync (config s) -> books_at slack s l ->
  NoDup (Dict.keys entries) -> (forall id n, (id, n) ∈ entries -> 0 < n /\ settleable slack s l out mo id) ->
  (forall id, id ∈ l -> id ∉ Dict.keys entries -> slack id <= 0) -> pooler_output mo = None ->
  exists s' gone a', update_loop hash_function sha256 NONE_HASH order out mo a entries s = (Ok a', s')
    /\ looped (Dict.keys entries) s l a s' gone a'.
Proof.
  induction entries as [|[id n] entries IH]; intros slack s l a Hsync I Hnd Hent Hrest Hpool.
  { exists s, [], a. split; [done|]. split; rewrite ?app_nil_r, ?without_nil; try done.
    - apply (inv_slack slack); [done|]. intros x y Hx Hy. destruct (si_running _ _ _ I x y Hx Hy) as [_ _ Hb _].
      rewrite (si_named _ _ _ I _ _ Hy) in Hb. assert (slack x <= 0); [|lia]. apply Hrest; [|by apply not_elem_of_nil].
      by rewrite app_nil_r in Hx.
    - by intros x [?|?%not_elem_of_nil].
    - by intros x ?%not_elem_of_nil. }
  cbn [update_loop]. change (Dict.keys ((id, n) :: entries)) with (id :: Dict.keys entries) in *. apply NoDup_cons in Hnd as [Hid Hnd].
  destruct (Hent id n) as [Hn Hset]; [by left|].
  assert (forall id' n', (id', n') ∈ entries -> id' <> id) as Hne.
  { intros id' n' Hx ->. apply Hid. by apply (list_elem_of_fmap_2 fst entries (id, n')). }
  destruct Hset as [Hdead|(r & g & Hr & Hl & Hsl & Hd & Hans)].
  - assert (update_one hash_function sha256 NONE_HASH order out mo a (id, n) s = (Ok a, s)) as R1.
    { unfold update_one. replace (0 <? n) with true by lia. msteps. unfold find in Hdead. by rewrite Hdead. }
    destruct (IH slack s l a) as (s' & gone & a' & R2 & [L1 L2 L3 L4 L5 L6 L7 L8 L9 L10 L11 L12 L13 L14]); try done.
    { intros id' n' Hx. apply (Hent id' n'). by right. }
    { intros x Hx Hk. apply Hrest; [done|]. apply not_elem_of_cons. split; [|done]. intros ->.
      assert (is_Some (find s id)) as [? ?] by (apply (si_live _ _ _ I id); apply elem_of_app; by left). congruence. }
    exists s', gone, a'. rewrite (bind_ok _ _ _ _ _ R1). split; [done|]. split; try done.
    + intros x Hx. destruct (L11 x Hx) as (? & ? & ?). split; [done|]. split; [by right|done].
    + intros x [_ Hx]%not_elem_of_cons. by apply L12.
  - destruct (update_one_ok slack s l out mo a id n r g Hsync I Hl Hr Hn Hsl Hd Hans Hpool) as (s1 & l1 & a1 & R1 & [T1 T2 T3 T4 T5 T6 T7 T8]).
    pose proof T2 as [A1 A2 A3 A4 (_ & _ & A5 & _) _].
    assert (forall x, x <> id -> x ∈ l -> x ∈ l1) as Hkeep.
    { intros x Hx Hxl. destruct T8 as [(-> & _)|(-> & _)]; [done|]. apply list_elem_of_filter. split; [by intros ->%list_elem_of_singleton|done]. }
    destruct (IH (settle slack id) s1 l1 a1) as (s' & gone & a' & R2 & [L1 L2 L3 L4 L5 L6 L7 L8 L9 L10 L11 L12 L13 L14]); try done.
    { by rewrite A1. }
    { intros id' n' Hx. pose proof (Hne _ _ Hx) as Hx'. destruct (Hent id' n') as [Hn' Hs']; [by right|]. split; [done|].
      unfold settleable, settle. rewrite decide_False, A4 by done. destruct Hs' as [?|(r' & g' & Hr' & Hl' & Ho)]; [by left|right].
      exists r', g'. split; [done|]. split; [by apply Hkeep|done]. }
    { intros x Hx Hk. unfold settle. case_decide; [done|]. apply Hrest; [|by apply not_elem_of_cons].
      destruct T8 as [(-> & _)|(-> & _)]; [done|]. by apply list_elem_of_filter in Hx as [_ ?]. }
    assert (forall x, x ∈ gone -> x <> id) as Hgid.
    { intros x Hx ->. destruct (L11 id Hx) as (_ & Hk & _). done. }
    assert (forall x, find s x = None -> find s' x = None /\ (kv_idle (kv s) x -> kv_idle (kv s') x)) as Hdead.
    { intros x Hx. assert (x <> id) as Hxid by congruence. destruct (L14 x) as [D1 D2]; [by rewrite A4|]. split; [done|]. intros Hi.
      apply D2, A5; [by intros [= ?]|done]. }
    assert (forall x, x ∉ gone -> x <> id -> is_Some (find s x) -> is_Some (find s' x)) as Hlive.
    { intros x Hx Hxid Hs. apply L13; [done|]. by rewrite A4. }
    assert (forall x, x ∉ id :: Dict.keys entries -> find s' x = find s x) as Hoth.
    { intros x [Hx Hk]%not_elem_of_cons. by rewrite L12, A4. }
    assert (forall x, x ∈ gone -> x ∈ l1 -> x ∈ l) as Hback.
    { intros x _ Hx. destruct T8 as [(-> & _)|(-> & _)]; [done|]. by apply list_elem_of_filter in Hx as [_ ?]. }
    assert (forall x, x ∈ gone -> x ∈ l /\ x ∈ id :: Dict.keys entries /\ is_Some (find s x) /\ find s' x = None /\ kv_idle (kv s') x) as Hgone.
    { intros x Hx. destruct (L11 x Hx) as (G1 & G2 & G3 & G4). split; [by apply Hback|]. split; [by right|]. split; [|done].
      rewrite <- A4; [done|by apply Hgid]. }
    destruct T8 as [(El & Es & Hs1)|(El & Es & Hs1 & Hi1 & Hrep)].
    + exists s', gone, a'. rewrite (bind_ok _ _ _ _ _ R1). split; [done|]. subst l1. split; try congruence; try done.
      * intros x [Hx|Hx]; apply L10; [left; by apply T7|by right].
      * intros x Hx Hs. destruct (decide (x = id)) as [->|Hxid]; [by apply L13|by apply Hlive].
    + exists s', (id :: gone), a'. rewrite (bind_ok _ _ _ _ _ R1). split; [done|]. subst l1. rewrite without_cons in L1.
      destruct (L14 id Hs1) as [D1 D2]. split; try congruence; try done.
      * rewrite L8, Es, <- app_assoc. done.
      * intros x [Hx|[->|Hx]%elem_of_cons]; apply L10; [left; by apply T7|by left|by right].
      * intros x [->|Hx]%elem_of_cons; [|by apply Hgone]. split; [done|]. split; [by left|]. split; [by eexists|]. split; [done|]. by apply D2.
      * intros x [Hxid Hx]%not_elem_of_cons. by apply Hlive.
Qed.


(** ** [update_from_output] *)

(** The step [out] has been scheduled and its results are awaited; requests may have
    been finished since. *)
Record awaiting (s : S) (out : SchedulerOutput) : Prop := {
  aw_books : books (slack := drafts (so_scheduled_spec_decode_tokens out)) s;
  aw_once : NoDup (Dict.keys (so_num_scheduled_tokens out));
  aw_entries : forall id n, (id, n) ∈ so_num_scheduled_tokens out -> 0 < n
    /\ forall r, find s id = Some r -> id ∈ running s /\ drafts (so_scheduled_spec_decode_tokens out) id <= num_computed_tokens r;
  aw_drafts : forall id, drafts (so_scheduled_spec_decode_tokens out) id <= default 0 (Dict.get id (so_num_scheduled_tokens out));
}.

(** The model runner answers for every request of the step that is still there. *)
Definition answers (s : S) (out : SchedulerOutput) (mo : ModelRunnerOutput) : Prop :=
  pooler_output mo = None /\ forall id n, (id, n) ∈ so_num_scheduled_tokens out -> is_Some (find s id) ->
    exists g, answered mo id (drafts (so_scheduled_spec_decode_tokens out) id) g.

(** A client is told that [id] finished. *)
Definition told (d : list (Z * EngineCoreOutputs)) (id : string) : Prop :=
  exists client eo o, Dict.get client d = Some eo /\ o ∈ outputs eo /\ eo_request_id o = id /\ is_Some (eo_finish_reason o).

Lemma told_outputs d id : reported d id -> told ((fun e => (e.1, only_outputs e.2)) <$> d) id.
Proof.
  intros (c & l & o & Hc & Ho). exists c, (only_outputs l), o. split; [|done]. clear Ho. induction d as [|[c' l'] d IH]; [done|].
  cbn in *. case_decide; [congruence|auto].
Qed.

Lemma told_finished l id : forall d, told d id -> told (foldl add_finished d l) id.
Proof.
  induction l as [|[client fin] l IH]; intros d Hd; [done|]. apply IH. destruct Hd as (c & eo & o & Hc & Ho). unfold add_finished.
  destruct (decide (c = client)) as [->|Hne].
  - eexists client, _, o. rewrite Dict.get_set, decide_True by done. split; [done|]. by rewrite Hc.
  - exists c, eo, o. by rewrite Dict.get_set, decide_False.
Qed.

(** What [update_from_output] promises. *)
Record updated (s : S) (d : list (Z * EngineCoreOutputs)) (s' : S) : Prop := {
  up_books : books (slack := fun _ => 0) s';
  up_config : config s' = config s;
  up_pause : pause_state s' = pause_state s;
  up_live : forall id, is_Some (find s id) -> is_Some (find s' id) \/ told d id;
  up_dead : forall id, find s id = None -> find s' id = None;
}.

Lemma update_from_output_ok out mo (s : S) : sync (config s) -> awaiting s out -> answers s out mo ->
  exists d events s', update_from_output hash_function sha256 NONE_HASH order out mo s = (Ok (d, events), s') /\ updated s d s'.
Proof.
  intros Hsync [Hbo Hnd Hent Hdr] [Hpool Hans]. pose proof Hbo as [I Hprev Hroom Hdead].
  set (a0 := {| client_outputs := []; spec_decoding_stats := None; stopped_running_reqs := []; stopped_preempted_reqs := [] |}).
  destruct (update_loop_ok out mo (so_num_scheduled_tokens out) (drafts (so_scheduled_spec_decode_tokens out)) s (running s) a0)
    as (s1 & gone & a & R1 & [L1 L2 L3 L4 L5 L6 L7 L8 L9 L10 L11 L12 L13 L14]); try done.
  { by destruct s. }
  { intros id n Hx. destruct (Hent id n Hx) as [Hn Hr]. split; [done|]. destruct (find s id) as [r|] eqn:Er; [right|by left].
    destruct (Hr r eq_refl) as [Hrun Hd]. destruct (Hans id n Hx) as [g Hg]; [rewrite Er; by eexists|]. exists r, g. by split_and!. }
  { intros x _ Hk. specialize (Hdr x). apply Dict.get_None in Hk. by rewrite Hk in Hdr. }
  pose proof (si_places _ _ _ I) as Hpl. apply NoDup_app in Hpl as (Hndr & _).
  set (s2 := {| s1 with running := without gone (running s) |}).
  assert (remove_stopped a s1 = (Ok tt, s2)) as R2.
  { unfold remove_stopped. rewrite L8, L9. cbn [stopped_running_reqs stopped_preempted_reqs a0 app]. unfold s2. rewrite <- L5.
    destruct gone as [|x gone'].
    - msteps. rewrite without_nil. by destruct s1.
    - msteps. rewrite remove_all_without; [done|by rewrite L5|]. intros y Hy. rewrite L5. by apply L11. }
  destruct (law_take_events (kv s1) (si_kv _ _ _ L1)) as (ev & k' & R3 & Hk & Hf).
  set (s3 := {| s2 with kv_cache_manager := k' |}).
  set (s4 := {| s3 with finished_req_ids_dict := (fun _ => []) <$> finished_req_ids_dict s3 |}).
  set (d := foldl add_finished ((fun e => (e.1, only_outputs e.2)) <$> client_outputs a) (default [] (finished_req_ids_dict s3))).
  assert (make_stats (spec_decoding_stats a) s4 = (Ok None, s4)) as R4.
  { unfold make_stats. msteps. assert (sc_log_stats (config s4) = false) as -> by (cbn [config s4 s3 s2]; rewrite L2; apply Hsync). by msteps. }
  exists d, ev, s4. split.
  { unfold update_from_output. rewrite (bind_ok _ _ _ _ _ R1), (bind_ok _ _ _ _ _ R2), (bind_ok _ _ _ _ _ (on_kv_ok _ s2 _ _ R3)).
    fold s3. msteps. fold s4 d. done. }
  assert (sched_inv (slack := fun _ => 0) s4 [] []) as I4 by (by apply (inv_frame s2)).
  assert (forall id, find s4 id = find s1 id) as Ef by done.
  assert (queued s4 = queued s) as Eq by (unfold queued; cbn; by rewrite L6, L7).
  split; [split|done|done| |].
  - done.
  - intros x y. rewrite Eq, Ef. intros Hx Hy Hst. change (prev_step_scheduled_req_ids s4) with (prev_step_scheduled_req_ids s1). rewrite L3.
    apply (Hprev x y Hx); [|done]. rewrite L12 in Hy; [done|]. intros Hin. apply list_elem_of_fmap in Hin as ([x0 n] & -> & Hin).
    destruct (Hent _ _ Hin) as [_ Hr]. assert (is_Some (find s x0)) as [r Er].
    { apply (si_live _ _ _ I). cbn [fst] in Hx. set_solver. }
    destruct (Hr r Er) as [Hrun _]. pose proof (si_places _ _ _ I) as Hpl. apply NoDup_app in Hpl as (_ & Hd & _). apply (Hd x0 Hrun).
    cbn [fst app] in *. apply elem_of_app. by left.
  - cbn [s4 s3 s2 running config]. rewrite L2. pose proof (length_filter (fun x => x ∉ gone) (running s)). unfold zlen in *. lia.
  - intros x Hx. destruct Hf as (_ & _ & Hf & _). apply Hf; [done|]. rewrite Ef in Hx. destruct (find s x) as [r|] eqn:Er.
    + destruct (decide (x ∈ gone)) as [Hg|Hg]; [by apply L11|]. destruct (L13 x Hg) as [? ?]; [rewrite Er; by eexists|]. congruence.
    + apply L14; [done|]. by apply Hdead.
  - intros x Hx. rewrite Ef. destruct (decide (x ∈ gone)) as [Hg|Hg]; [right|left; by apply L13].
    apply told_finished, told_outputs, L10. by right.
  - intros x Hx. rewrite Ef. by apply L14.
Qed.

(** A request that is finished in the meantime. *)
Lemma finish_awaiting (s : S) out given st : awaiting s out -> status_is_finished st = true ->
  NoDup (default (Dict.keys (requests s)) given) ->
  exists o s', finish_requests order given st s = (Ok o, s') /\ awaiting s' out /\ config s' = config s
    /\ forall id, find s' id = if decide (id ∈ default (Dict.keys (requests s)) given) then None else find s id.
Proof.
  intros [Hbo Hnd Hent Hdr] Hst Hg. destruct (finish_requests_ok order order_nil s given st Hbo Hst Hg) as (o & s' & R1 & Hbo' & Hc & _ & Hf & Hrun).
  exists o, s'. split; [done|]. split; [|done]. split; [done|done| |done]. intros id n Hx. destruct (Hent id n Hx) as [Hn Hr]. split; [done|].
  intros r. rewrite Hf. case_decide; [done|]. intros Hfr. destruct (Hr r Hfr) as [Hrun' Hd]. split; [|done]. by apply Hrun.
Qed.

End update.

(** A step leaves the scheduler waiting for its results. *)
Section awaited.
Context {K C : Type} `{KL : KVLaws K} `{EL : EncoderLaws C}.
Context (order : list Z -> list Z) (order_nil : order [] = []) (ec_connector : option (string -> bool)) (grammar_ready : string -> bool).

Abbreviation S := (Scheduler K C).

Lemma schedule_awaiting (s : S) : books (slack := fun _ => 0) s -> sync (config s) ->
  exists out s', schedule order ec_connector grammar_ready s = (Ok out, s') /\ awaiting s' out /\ config s' = config s
    /\ forall id, is_Some (find s' id) <-> is_Some (find s id).
Proof.
  intros [I Hprev Hroom Hdead] [Ha _]. destruct (schedule_ok order order_nil ec_connector grammar_ready s) as (out & s' & R1 & W); [done|].
  destruct W as [W1 W2 W3 W4 W5 W6 W7 W8 W9 W10 W11 W12 W13].
  exists out, s'. split; [done|]. split; [split; [split| | |]|split; [done|]]; try done.
  - apply (inv_slack (out_slack (config s) out)); [done|]. intros id r Hid Hr. destruct (si_running _ _ _ W1 id r Hid Hr) as [_ _ Hb _].
    rewrite (si_named _ _ _ W1 _ _ Hr) in Hb. unfold out_slack in Hb. by rewrite Ha in Hb.
  - by rewrite W4.
  - intros id Hid. destruct (find s id) as [r|] eqn:Er; [|by apply W6, Hdead].
    destruct (W5 id) as [? ?]; [rewrite Er; by eexists|]. congruence.
  - intros id n Hx. destruct (W11 id n Hx) as (Hn & Hrun & r & Hr & Hc & _). split; [done|]. intros r' Hr'. rewrite Hr in Hr'. injection Hr' as <-.
    split; [done|]. specialize (W12 id). apply Dict.elem_get in Hx; [|done]. rewrite Hx in W12. cbn in W12. lia.
  - intros id. split; [|apply W5]. intros Hs. destruct (find s id) as [r|] eqn:Er; [by eexists|]. destruct (W6 id Er) as [Hn _]. rewrite Hn in Hs. by destruct Hs.
Qed.

End awaited.
End SchedUpdate.
