(* ===== verification/SchedFindings.v ===== *)
(** Concrete runs of the scheduler in which it does not do what it means to. *)

From S2P Require Import Prelude FreeQueue Request Hashing Metrics BlockPool KVSpec SingleType Group Coordinator KVManager EncoderCache Heap ReqQueue Scheduler.
Local Open Scope Z_scope.

Module SchedFindings.
Import Sched.

(** ** A small engine: one full-attention group of one-token blocks *)

Definition engine_kv (num_blocks : Z) : KVCacheManager :=
  match KV.init (HybridHit.config_of num_blocks [HybridHit.full_one]) 100 1 false false false false 1 1 None with
  | Ok s => s
  | Raise _ => {| coordinator := HybridHit.demo_coordinator 5 []; max_model_len := 0; km_enable_caching := true;
                  log_stats := true; prefix_cache_stats := None |}
  end.

Definition engine_config (pol : SchedulingPolicy) (asynchronous : bool) (loras : option Z) : SchedulerConfig :=
  {| max_num_running_reqs := 4; max_num_scheduled_tokens := 20; sc_max_model_len := 100; policy := pol;
     long_prefill_token_threshold := 0; enable_chunked_prefill := true; scheduler_reserve_full_isl := false;
     sc_use_eagle := false; num_spec_tokens := 0; num_lookahead_tokens := 0; need_mamba_block_aligned_split := false;
     sc_block_size := 1; sc_is_encoder_decoder := false; max_num_encoder_input_tokens := 10;
     sc_disable_chunked_mm_input := false; max_loras := loras; sc_log_stats := false; use_pp := false;
     async_scheduling := asynchronous; use_v2_model_runner := false; needs_kv_cache_zeroing := false;
     num_kv_cache_groups := 1 |}.

Abbreviation engine := (Scheduler KVCacheManager EncoderCacheManager).

Definition new_engine (pol : SchedulingPolicy) (asynchronous : bool) (loras : option Z) (num_blocks : Z) : engine :=
  init (engine_config pol asynchronous loras) false (engine_kv num_blocks) (Encoder.init 10).

(** The calls, with the demonstration hash. *)
Definition add (r : Request) (s : engine) : engine :=
  (add_request demo_hash demo_sha256 [] (fun l => l) r s).2.
Definition step (s : engine) : res SchedulerOutput * engine := schedule (fun l => l) None (fun _ => true) s.
Definition output_of (s : engine) : SchedulerOutput :=
  match (step s).1 with
  | Ok o => o
  | Raise _ => {| so_scheduled_new_reqs := []; so_scheduled_cached_reqs := {| cr_req_ids := []; resumed_req_ids := ∅;
                    new_token_ids := []; cr_all_token_ids := []; new_block_ids := []; cr_num_computed_tokens := [];
                    cr_num_output_tokens := [] |};
                  so_num_scheduled_tokens := []; total_num_scheduled_tokens := -1; so_scheduled_spec_decode_tokens := [];
                  so_scheduled_encoder_inputs := []; num_common_prefix_blocks := []; so_finished_req_ids := ∅;
                  free_encoder_mm_hashes := []; preempted_req_ids := ∅; has_structured_output_requests := false;
                  pending_structured_output_tokens := false; num_invalid_spec_tokens := None; new_block_ids_to_zero := None |}
  end.

(** The model runner's answer: the tokens of each request. *)
Definition answer (tokens : list (string * list Z)) : ModelRunnerOutput :=
  {| req_id_to_index := zip tokens.*1 (py_range 0 (zlen tokens)); sampled_token_ids := tokens.*2; prompt_logprobs := [];
     pooler_output := None |}.
Definition update (out : SchedulerOutput) (tokens : list (string * list Z)) (s : engine) : engine :=
  (update_from_output demo_hash demo_sha256 [] (fun l => l) out (answer tokens) s).2.

(** A request with the sampling parameters of [demo_sampling]: token 2 ends it. *)
Definition a_request (rid : string) (o prio : Z) (prompt : list Z) : Request :=
  {| (demo_request []) with request_id := rid; oid := o; priority := prio; prompt_token_ids := Some prompt;
       all_token_ids := prompt; num_prompt_tokens := zlen prompt |}.

(** ** LoRA adapters *)

Definition with_lora (i : Z) (r : Request) : Request := {| r with lora_request := Some {| lora_name := "l"; lora_int_id := i |} |}.

(** One adapter may be loaded.  The first request waits for its token, which is in
    flight in a pipeline; meanwhile the second, with another adapter and a prompt
    of two chunks, is admitted. *)
Definition lora_engine : engine :=
  let s := add (with_lora 1 (a_request "a" 0 0 [11; 12; 13])) (new_engine FCFS false (Some 1) 60) in
  let out1 := output_of s in
  let s := (step s).2 in
  let s := add (with_lora 2 (a_request "b" 1 0 (replicate 30 11))) s in
  update out1 [("a"%string, [4])] (step s).2.

(** a run in which the limit on LoRA adapters is broken: the second phase of
    [schedule] counts the adapters of the running requests that are scheduled in
    this step, not of all running requests, so it admits a request with another
    adapter, and the assertion of a later step fails. *)
Theorem lora_limit_not_kept :
  running lora_engine = ["a"; "b"]%string /\ (step lora_engine).1 = Raise AssertionError.
Proof. vm_compute. done. Qed.

(** ** Preemption of a request that was scheduled before in the same step *)

Definition chunked (s : engine) : engine :=
  {| s with config := {| (config s) with long_prefill_token_threshold := 4 |} |}.

(** The less important request has an image behind its first two chunks. *)
Definition image_request : Request :=
  {| (a_request "x" 0 5 (replicate 10 11)) with mm_features :=
       [ {| identifier := "img"; mm_position := {| pr_offset := 8; pr_length := 2; is_embed := None |} |} ] |}.

(** Fifteen usable blocks: in the third step the image is scheduled, then the other
    request, which came later but is more important, takes the blocks. *)
Definition image_engine : engine :=
  let s := (step (add image_request (chunked (new_engine PRIORITY false None 16)))).2 in
  (step (add (a_request "y" 1 0 (replicate 6 11)) s)).2.

(** The important request ends, the other one resumes with its first two chunks. *)
Definition resumed_engine : engine :=
  let s := update (output_of image_engine) [("y"%string, [2])] (step image_engine).2 in
  (step (step s).2).2.

(** a run with the policy PRIORITY in which an image is never encoded: the
    preemption takes the scheduled encoder input out of the step, but the encoder
    cache keeps its entry, so when the request resumes the image counts as cached
    and is not scheduled, while the model runner needs it. *)
Theorem preempted_encoder_input_never_computed :
  running image_engine = ["x"; "y"]%string
  /\ so_scheduled_encoder_inputs (output_of image_engine) = []
  /\ preempted_req_ids (output_of image_engine) = {["x"%string]}
  /\ cached (encoder_cache_manager (step image_engine).2) !! "img"%string = Some ∅
  /\ so_num_scheduled_tokens (output_of resumed_engine) = [("x"%string, 2)]
  /\ so_scheduled_encoder_inputs (output_of resumed_engine) = []
  /\ EncoderSched.gather_mm_embeddings image_request 8 2 0 = Ok [("img"%string, 0, 2)].
Proof. vm_compute. done. Qed.

(** ** Streaming sessions *)

Definition session (r : Request) : Request := {| r with resumable := true; block_hasher := Some 4 |}.

(** The session has a prompt of three tokens and generates one; its second part has
    the prompt [5; 6] and allows 100 tokens. *)
Definition first_part : Request := session (a_request "s" 0 0 [11; 12; 13]).
Definition second_part : Request := {| (session (a_request "s" 1 0 [5; 6])) with max_tokens := 100 |}.

Definition session_engine : engine :=
  let s := add first_part (new_engine FCFS false None 60) in
  add second_part (update (output_of s) [("s"%string, [2])] (step s).2).

(** The hashes of the tokens the session has now. *)
Definition hashes_of (tokens : list Z) : list bytes :=
  match request_init demo_hash demo_sha256 [] (Ok (session (a_request "s" 0 0 tokens))) with
  | Ok r => block_hashes r
  | Raise _ => []
  end.

(** a run in which a session keeps a stale block hash: the token that was sampled
    last is discarded and replaced, but the hash of the block it completed stays in
    [block_hashes], so the new block will be cached under the hash of other tokens;
    and the limit [max_tokens] of the new part is ignored. *)
Theorem session_update_keeps_stale_hash :
  match Dict.get "s"%string (requests session_engine) with
  | Some r => all_token_ids r = [11; 12; 13; 5; 6] /\ block_hashes r = hashes_of [11; 12; 13; 2]
              /\ block_hashes r ≠ hashes_of [11; 12; 13; 5; 6] /\ max_tokens r = 8
  | None => False
  end.
Proof. vm_compute. done. Qed.

(** A session that was preempted while its last step was in flight; the next part is
    already there. *)
Definition preempted_session_engine : engine :=
  let s := chunked (new_engine FCFS false None 9) in
  let s := add second_part (add first_part (add (a_request "b" 2 0 (replicate 8 11)) s)) in
  update (output_of s) [("b"%string, []); ("s"%string, [2])] (step (step s).2).2.

(** a run in which a session is lost: the request was preempted before its last
    token arrived; the session continues, so the request is put into [waiting] a
    second time, and is then removed from [waiting] altogether as a stopped
    request.  Its tokens are gone too, as the preemption has reset
    [num_computed_tokens]. *)
Theorem preempted_session_lost :
  match Dict.get "s"%string (requests preempted_session_engine) with
  | Some r => status r = WAITING /\ all_token_ids r = [5; 6] /\ prompt_token_ids r = Some [11; 12; 13; 5; 6]
  | None => False
  end
  /\ running preempted_session_engine = ["b"%string]
  /\ waiting preempted_session_engine = FCFSRequestQueue [] /\ skipped_waiting preempted_session_engine = FCFSRequestQueue [].
Proof. vm_compute. done. Qed.

(** ** A request that never ends *)

(** The model length is five; the prompt has three tokens; ten tokens are demanded. *)
Definition demanding_request : Request :=
  {| (a_request "a" 0 0 [11; 12; 13]) with sampling_params := Some {| demo_sampling with min_tokens := 10 |}; max_tokens := 10 |}.

Definition short_engine : engine :=
  add demanding_request (init {| (engine_config FCFS false None) with sc_max_model_len := 5 |} false
    {| (engine_kv 60) with max_model_len := 5 |} (Encoder.init 10)).

(** A step in which every scheduled request gets the token 4. *)
Definition serve_step (s : engine) : engine :=
  update (output_of s) ((fun e => (e.1, [4])) <$> so_num_scheduled_tokens (output_of s)) (step s).2.

Fixpoint serve_steps (n : nat) (s : engine) : engine :=
  match n with O => s | Datatypes.S n' => serve_steps n' (serve_step s) end.

Lemma stuck_step : serve_step (serve_steps 3 short_engine) = serve_steps 3 short_engine
  /\ so_num_scheduled_tokens (output_of (serve_steps 3 short_engine)) = []
  /\ running (serve_steps 3 short_engine) = ["a"%string].
Proof. split_and!; vm_compute; reflexivity. Qed.

(** a run in which a request never ends: [check_stop] looks at the model length
    only when [min_tokens] has been reached, so a request that demands more tokens
    than fit into the model length is not stopped there; it stays in [running], and
    no later step schedules a token of it. *)
Theorem demanding_request_never_ends (n : nat) :
  let s := serve_steps n (serve_steps 3 short_engine) in
  running s = ["a"%string] /\ so_num_scheduled_tokens (output_of s) = [] /\ has_requests s = true.
Proof.
  destruct stuck_step as (H1 & H2 & H3).
  assert (has_requests (serve_steps 3 short_engine) = true) as H4 by by vm_compute.
  revert H1 H2 H3 H4. generalize (serve_steps 3 short_engine) as s. intros s H1 H2 H3 H4. cbn zeta.
  induction n as [|n IH]; [by split_and!|]. cbn [serve_steps]. by rewrite H1.
Qed.

End SchedFindings.
