(* ===== verification/SchedSound.v ===== *)
(** The promises of the scheduler: what [schedule], [update_from_output] and
    [finish_requests] guarantee, with the KV cache manager as the instance. *)

From S2P Require Import Prelude FreeQueue Request Hashing Metrics BlockPool KVSpec SingleType Coordinator KVManager KVSession EncoderCache Heap ReqQueue Scheduler SchedContract SchedKV SchedFindings SchedFacts SchedPhases SchedStep SchedServe SchedUpdate.
Local Open Scope Z_scope.

(** ** A concrete scheduler: one full-attention group of sixty blocks *)

Module SchedDemo.
Import SchedKV SchedFindings SchedFacts SchedStep SchedServe.

Definition request_a : Request := a_request "a" 0 0 [11; 12; 13].
Definition request_b : Request := a_request "b" 1 0 [11; 12].

Definition no_order (l : list Z) : list Z := l.

Lemma engine_kv_init : KV.init (HybridHit.config_of 60 [HybridHit.full_one]) 100 1 false false false false 1 1 None = Ok (engine_kv 60).
Proof.
  assert (match KV.init (HybridHit.config_of 60 [HybridHit.full_one]) 100 1 false false false false 1 1 None with Ok _ => true | Raise _ => false end = true)
    as Hok by by vm_compute.
  unfold engine_kv. by destruct (KV.init _ _ _ _ _ _ _ _ _ _).
Qed.

Lemma engine_kv_plain : plain_kv (engine_kv 60) /\ max_model_len (engine_kv 60) = 100
  /\ forall rid, holds_nothing (coordinator (engine_kv 60)) rid.
Proof.
  apply (init_plain_kv _ _ _ _ _ _ _ _ _ engine_kv_init); [..|done].
  - assert (co_specs (coordinator (engine_kv 60)) = [HybridHit.full_one]) as -> by by vm_compute. by repeat constructor.
  - assert (managers (coordinator (engine_kv 60))
      = [ {| (KVSteps.one_manager FullAttentionManager HybridHit.full_one 0) with mgr_enable_caching := false |} ]) as -> by by vm_compute.
    by repeat constructor.
  - by vm_compute.
Qed.

(** A text request of the demonstration is one that the theorems are about. *)
Lemma demo_fresh (s : Scheduler KVCacheManager EncoderCacheManager) rid o prompt : config s = engine_config FCFS false None ->
  Dict.get rid (requests s) = None -> Forall (fun e => oid e.2 <> o) (requests s) -> 0 < zlen prompt < 99 ->
  fresh s (a_request rid o 0 prompt).
Proof.
  intros Ec Hid Ho Hlen. split; [done| | |cbn; set_solver|done].
  - intros id r Hr. apply Dict.get_Some_elem in Hr. rewrite Forall_forall in Ho. by apply (Ho _ Hr).
  - split; rewrite ?Ec; try done.
    + cbn. unfold num_tokens. cbn. lia.
    + split; [done|]. split; [done|]. exists demo_sampling. split; [done|]. unfold num_tokens, num_output_tokens. cbn. change (zlen []) with 0. lia.
Qed.

Abbreviation demo_state := (Scheduler KVCacheManager EncoderCacheManager).

(** The two requests are waiting. *)
Definition demo_waiting : demo_state :=
  add request_b (add request_a (Sched.init (engine_config FCFS false None) false (engine_kv 60) (Encoder.init 10))).

Lemma demo_books : books (slack := fun _ => 0) demo_waiting.
Proof.
  destruct engine_kv_plain as (Hk & Hlen & Hidle).
  pose proof (init_books (slack := fun _ => 0) (engine_config FCFS false None) false (engine_kv 60) (Encoder.init 10)) as H0.
  cbn [kv_max_len kv_cache_manager_laws] in H0. rewrite Hlen in H0. specialize (H0 ltac:(by split) ltac:(done) ltac:(done) Hk Hidle).
  set (s0 := Sched.init _ _ _ _) in H0.
  destruct (add_request_ok demo_hash demo_sha256 [] no_order s0 request_a H0) as (s1 & R1 & H1 & Hc1 & _).
  { apply demo_fresh; [done|done|constructor|done]. }
  assert (add request_a s0 = s1) as E1 by (unfold add; change (fun l : list Z => l) with no_order; by rewrite R1).
  destruct (add_request_ok demo_hash demo_sha256 [] no_order s1 request_b H1) as (s2 & R2 & H2 & _).
  { rewrite <- E1. apply demo_fresh; [by vm_compute|by vm_compute| |done]. repeat constructor. by vm_compute. }
  unfold demo_waiting. fold s0. rewrite E1. assert (add request_b s1 = s2) as ->; [|done].
  unfold add. change (fun l : list Z => l) with no_order. by rewrite R2.
Qed.

End SchedDemo.

Module SchedSound.
Import Sched SchedFacts SchedPhases SchedStep SchedServe SchedUpdate.

Section sound.
Context {K C : Type} `{KL : KVLaws K} `{EL : EncoderLaws C}.
Context (order : list Z -> list Z) (order_nil : order [] = []).

Abbreviation S := (Scheduler K C).
Abbreviation kv s := (kv_cache_manager s).
Abbreviation places s := (running s ++ ids (waiting s) ++ ids (skipped_waiting s)).

(** C2: [schedule] is sound, synchronous or asynchronous, with either policy.  On
    books that are in order it returns a step: no assertion fails and no loop runs
    out of fuel.  The step schedules each request at most once, at least one token
    each, not more tokens in total than the budget, and describes exactly these
    requests; each is in [running], has blocks for everything it will have computed
    and stays below the model length.  Afterwards the live requests are the same, each
    in exactly one place, and no more run than may.  When everything is paused the
    step is empty. *)
Theorem schedule_sound (ec_connector : option (string -> bool)) (grammar_ready : string -> bool) (s : S) (Hready : ready s) :
  exists out s', schedule order ec_connector grammar_ready s = (Ok out, s')
    /\ NoDup (Dict.keys (so_num_scheduled_tokens out))
    /\ (forall id n, (id, n) ∈ so_num_scheduled_tokens out -> 0 < n /\ id ∈ running s'
         /\ exists r, Dict.get id (requests s') = Some r /\ n <= num_computed_tokens r < sc_max_model_len (config s)
              /\ kv_holds (kv s') id (num_computed_tokens r))
    /\ total_num_scheduled_tokens out = foldr (fun e acc => e.2 + acc) 0 (so_num_scheduled_tokens out)
    /\ total_num_scheduled_tokens out <= max_num_scheduled_tokens (config s)
    /\ (nr_req_id <$> so_scheduled_new_reqs out) ++ cr_req_ids (so_scheduled_cached_reqs out) ≡ₚ Dict.keys (so_num_scheduled_tokens out)
    /\ NoDup (places s') /\ zlen (running s') <= max_num_running_reqs (config s)
    /\ (forall id, id ∈ places s' <-> is_Some (Dict.get id (requests s)))
    /\ (pause_state s = PAUSED_ALL -> so_num_scheduled_tokens out = []).
Proof.
  destruct (schedule_ok order order_nil ec_connector grammar_ready s Hready) as (out & s' & R & W).
  destruct W as [W1 W2 W3 W4 W5 W6 W7 W8 W9 W10 W11 W12 W13]. exists out, s'. split; [exact R|]. split; [exact W9|]. split; [exact W11|].
  split; [exact W7|]. split; [exact W8|]. split; [exact W10|].
  pose proof (si_places _ _ _ W1) as Hp. unfold queued in Hp. cbn [app] in Hp. rewrite app_nil_r in Hp. split; [exact Hp|]. split; [exact W3|].
  split; [|exact W13]. intros id. pose proof (si_live _ _ _ W1 id) as Hl. unfold queued in Hl. cbn [app] in Hl. rewrite app_nil_r in Hl. rewrite Hl.
  split; [|apply W5]. intros Hs. destruct (find s id) as [r|] eqn:Er; [by exists r|]. destruct (W6 id Er) as [Hn _]. rewrite Hn in Hs. by destruct Hs.
Qed.

(** C3: [update_from_output] of the synchronous scheduler is sound.  When a step has
    been scheduled, and requests may have been finished since, and the model runner
    answers for the ones that are left, the call returns; a request that is not
    there any more has been reported to a client with its reason and holds nothing;
    every running request has blocks for what is computed, and no more is computed
    than it has tokens: draft tokens that were rejected are taken back; the next
    step may be scheduled. *)
Theorem update_from_output_sound hash_function sha256 NONE_HASH (out : SchedulerOutput) (mo : ModelRunnerOutput) (s : S)
  (Hhash : forall (k : K) h, kv_hasher k h -> h = None) (Hsync : sync (config s)) (Hstep : awaiting s out) (Hans : answers s out mo) :
  exists d events s', update_from_output hash_function sha256 NONE_HASH order out mo s = (Ok (d, events), s')
    /\ (forall id, is_Some (Dict.get id (requests s)) ->
         is_Some (Dict.get id (requests s'))
         \/ (kv_idle (kv s') id /\ exists client eo o, Dict.get client d = Some eo /\ o ∈ outputs eo /\ eo_request_id o = id
              /\ is_Some (eo_finish_reason o)))
    /\ (forall id r, id ∈ running s' -> Dict.get id (requests s') = Some r ->
         num_computed_tokens r <= num_tokens r < sc_max_model_len (config s) /\ kv_holds (kv s') id (num_computed_tokens r))
    /\ ready s'.
Proof.
  destruct (update_from_output_ok hash_function sha256 NONE_HASH order order_nil Hhash out mo s Hsync Hstep Hans) as (d & ev & s' & R & U).
  destruct U as [ [I Hprev Hroom Hdead] Hc _ Hl _]. exists d, ev, s'. split; [exact R|]. split; [|split; [|done] ].
  - intros id Hs. change (Dict.get id (requests s')) with (find s' id). destruct (find s' id) as [r|] eqn:Er; [left; by exists r|right].
    split; [by apply Hdead|]. destruct (Hl id Hs) as [Ha|Ht]; [|exact Ht]. rewrite Er in Ha. by destruct Ha.
  - intros id r Hid Hr. change (Dict.get id (requests s')) with (find s' id) in Hr.
    destruct (si_running _ _ _ I id r) as [R1 R2 R3 R4]; [set_solver|done|]. pose proof (si_fine _ _ _ I _ _ Hr) as [_ [F2 F2'] _ F4 _].
    rewrite (si_named _ _ _ I _ _ Hr) in R4. rewrite Hc in F4. split; [|done]. split; [|apply F4].
    rewrite F2' in R3 by (rewrite Hc; apply Hsync). lia.
Qed.

End sound.

(** ** Witnesses *)

Import SchedKV SchedFindings SchedDemo.

Lemma schedule_sound_witness : exists out s', schedule no_order None (fun _ => true) demo_waiting = (Ok out, s')
  /\ so_num_scheduled_tokens out = [("a", 3); ("b", 2)]%string /\ NoDup (Dict.keys (so_num_scheduled_tokens out)).
Proof.
  destruct demo_books as [I Hprev Hroom _].
  destruct (schedule_sound no_order eq_refl None (fun _ => true) demo_waiting) as (out & s' & R & Hnd & _); [by split|].
  exists out, s'. split; [exact R|]. split; [|exact Hnd].
  assert ((fun o => so_num_scheduled_tokens o) <$> (match (schedule no_order None (fun _ => true) demo_waiting).1 with Ok o => Some o | Raise _ => None end)
    = Some [("a", 3); ("b", 2)]%string) as E by by vm_compute.
  rewrite R in E. cbn in E. by injection E.
Defined.

(** The step after [demo_waiting], and the state that waits for its results. *)
Definition demo_running : demo_state := (schedule no_order None (fun _ => true) demo_waiting).2.
Definition demo_step : SchedulerOutput := output_of demo_waiting.

(** The first request gets a token, the second its stop token. *)
Lemma update_from_output_sound_witness : exists d events s',
  update_from_output demo_hash demo_sha256 [] no_order demo_step (answer [("a", [4]); ("b", [2])]%string) demo_running = (Ok (d, events), s')
  /\ Dict.keys (requests s') = ["a"]%string /\ ready s'.
Proof.
  assert (sync (config demo_waiting)) as Hsync by (by vm_compute).
  destruct (schedule_awaiting no_order eq_refl None (fun _ => true) demo_waiting demo_books Hsync) as (out & s1 & R1 & Haw & Hc & _).
  assert (demo_running = s1) as E1 by (unfold demo_running; by rewrite R1).
  assert (demo_step = out) as E2.
  { unfold demo_step, output_of. assert (step demo_waiting = (Ok out, s1)) as -> by exact R1. done. }
  rewrite <- E1, <- E2 in Haw. assert (so_num_scheduled_tokens demo_step = [("a", 3); ("b", 2)]%string) as En by by vm_compute.
  assert (so_scheduled_spec_decode_tokens demo_step = []) as Esp by by vm_compute.
  destruct (update_from_output_sound no_order eq_refl demo_hash demo_sha256 [] demo_step (answer [("a", [4]); ("b", [2])]%string) demo_running)
    as (d & ev & s' & R & _ & _ & Hready); [done|by rewrite E1, Hc|done| |].
  - split; [done|]. intros id n Hx _. rewrite En in Hx. rewrite Esp. clear - Hx.
    assert ((id, n) = ("a"%string, 3) \/ (id, n) = ("b"%string, 2)) as Hid by set_solver.
    destruct Hid as [Hid|Hid]; injection Hid as -> ->; [exists [4], 0|exists [2], 1]; by split_and!.
  - exists d, ev, s'. split; [exact R|]. split; [|exact Hready].
    assert (Dict.keys (requests (update_from_output demo_hash demo_sha256 [] no_order demo_step (answer [("a", [4]); ("b", [2])]%string) demo_running).2)
      = ["a"]%string) as E by by vm_compute.
    rewrite R in E. exact E.
Defined.

End SchedSound.
