(* ===== verification/Engine.v ===== *)
(** The engine core: [v1/engine/core.py], classes [EngineCore] and
    [EngineCoreProc].

    The scheduler is the one of Scheduler.v.  The model executor is a class of
    operations with a state and futures of its own; a future is asked whether it is
    done and for its result.  The multimodal receiver cache, data parallelism, the
    ZMQ sockets, profiling and log lines are left out; utility calls are the
    functions they name.  The queues between the threads are lists, first element
    first out: the input queue holds the decoded client messages, the output queue
    what goes to the clients. *)

From S2P Require Import Prelude FreeQueue Request Hashing Metrics BlockPool KVSpec SingleType Coordinator KVManager EncoderCache Heap ReqQueue Scheduler.
Local Open Scope Z_scope.

(** ** What the engine calls of the executor *)

(** The row ids of a grammar bitmask; the bitmask itself is not modelled. *)
Definition GrammarOutput := list string.

Class ExecutorOps (X F : Type) := {
  ex_execute_model : SchedulerOutput -> M X F;                      (** [non_block=True] *)
  ex_sample_tokens : option GrammarOutput -> M X (option ModelRunnerOutput);
  ex_sample_tokens_later : option GrammarOutput -> M X F;           (** [non_block=True] *)
  ex_result : F -> M X (option ModelRunnerOutput);
  ex_done : F -> X -> bool;
  ex_take_draft_token_ids : M X (option (list (string * list Z)));
  ex_reset_mm_cache : M X unit;
  ex_reset_encoder_cache : M X unit;
  ex_sleep : Z -> M X unit;
  ex_wake_up : option (list string) -> M X unit;
  ex_is_sleeping : X -> bool;
  ex_supported_tasks : X -> list string;
}.

(** ** State *)

Inductive EngineShutdownState := SHUTDOWN_RUNNING | SHUTDOWN_REQUESTED | SHUTTING_DOWN.

#[export] Instance EngineShutdownState_eq_dec : EqDecision EngineShutdownState.
Proof. solve_decision. Defined.

Inductive PauseMode := pause_abort | pause_wait | pause_keep | pause_other.

#[export] Instance PauseMode_eq_dec : EqDecision PauseMode.
Proof. solve_decision. Defined.

(** The messages of the clients that the busy loop handles. *)
Inductive ClientRequest :=
  | ClientAdd (request : Request)
  | ClientAbort (request_ids : list string)
  | ClientWakeup
  | ClientExecutorFailed.

Record EngineConfig := {
  use_spec_decode : bool;
  ec_async_scheduling : bool;
  is_ec_consumer : bool;
  is_pooling_model : bool;
  batch_queue_size : Z;               (** [model_executor.max_concurrent_batches] *)
  shutdown_timeout : Z;
  pooling_tasks : list string;        (** [POOLING_TASKS] *)
  process_input_queue_block : bool;
}.

Record EngineCore (K C X F : Type) := {
  engine_config : EngineConfig;
  scheduler : Scheduler K C;
  model_executor : X;
  batch_queue : option (list (F * SchedulerOutput * F));      (** the left end first *)
  aborts_queue : list (list string);
  (* [EngineCoreProc] *)
  input_queue : list ClientRequest;
  output_queue : list (Z * EngineCoreOutputs);
  shutdown_state : EngineShutdownState;
  idle_state_callbacks : list bool;                           (** whether the caches are cleared *)
}.
Arguments engine_config {K C X F}.
Arguments scheduler {K C X F}.
Arguments model_executor {K C X F}.
Arguments batch_queue {K C X F}.
Arguments aborts_queue {K C X F}.
Arguments input_queue {K C X F}.
Arguments output_queue {K C X F}.
Arguments shutdown_state {K C X F}.
Arguments idle_state_callbacks {K C X F}.

Module Engine.
Import Sched.

Section engine.
Context {K C X F : Type} `{KVCacheOps K} `{EncoderCacheOps C} `{ExecutorOps X F}.
Context (hash_function : bytes * list Z * option (list extra_key) -> bytes).
Context (sha256 : bytes -> bytes) (NONE_HASH : bytes).
(** How Python iterates over a set of ints and over a set of strings; the
    encoder-cache connector; which grammars are compiled; the grammar library. *)
Context (order : list Z -> list Z) (str_order : list string -> list string).
Context (ec_connector : option (string -> bool)) (grammar_ready : string -> bool).
Context (should_advance : Request -> bool) (validate_tokens : Request -> list Z -> list Z).

Abbreviation E := (EngineCore K C X F).
Abbreviation EM := (M E).
Abbreviation outputs_by_client := (list (Z * EngineCoreOutputs)).

Definition on_scheduler {A} : M (Scheduler K C) A -> EM A := zoom scheduler (fun s e => {| e with scheduler := s |}).
Definition on_executor {A} : M X A -> EM A := zoom model_executor (fun x e => {| e with model_executor := x |}).
Definition the_scheduler : EM (Scheduler K C) := gets scheduler.

Definition init (c : EngineConfig) (s : Scheduler K C) (x : X) : E :=
  {| engine_config := c; scheduler := s; model_executor := x;
     batch_queue := if 1 <? batch_queue_size c then Some [] else None; aborts_queue := []; input_queue := []; output_queue := [];
     shutdown_state := SHUTDOWN_RUNNING; idle_state_callbacks := [] |}.

(** ** Requests *)

(** [add_request] *)
Definition add_request (request : Request) : EM unit :=
  e ← gets (fun e => e);
  (match pooling_params request with
   | Some pooling =>
       let supported_pooling_tasks :=
         filter (fun task => task ∈ pooling_tasks (engine_config e)) (ex_supported_tasks (model_executor e)) in
       if bool_decide (pp_task pooling ∈ Some <$> supported_pooling_tasks) then mret tt else raise ValueError
   | None => mret tt
   end) ;;
  on_scheduler (Sched.add_request hash_function sha256 NONE_HASH order request).

(** The ids as the scheduler iterates over their set. *)
Definition abort_requests (request_ids : list string) : EM unit :=
  on_scheduler (finish_requests order (Some (str_order request_ids)) FINISHED_ABORTED) ;;
  mret tt.

(** [_process_aborts_queue] *)
Definition process_aborts_queue : EM unit :=
  q ← gets aborts_queue;
  match q with
  | [] => mret tt
  | _ =>
      modify (fun e => {| e with aborts_queue := [] |}) ;;
      abort_requests (concat q)
  end.

(** ** Steps *)

(** [Scheduler.get_grammar_bitmask] *)
Definition get_grammar_bitmask (out : SchedulerOutput) : EM (option GrammarOutput) :=
  s ← the_scheduler;
  match structured_output_request_ids out s with
  | [] => mret None
  | ids => mret (Some ids)
  end.

Definition update_from (out : SchedulerOutput) (mo : ModelRunnerOutput) : EM outputs_by_client :=
  '(outputs, _) ← on_scheduler (update_from_output hash_function sha256 NONE_HASH order out mo);
  mret outputs.

(** [step] *)
Definition step : EM (outputs_by_client * bool) :=
  s ← the_scheduler;
  if negb (has_requests s) then mret ([], false)
  else
    out ← on_scheduler (schedule order ec_connector grammar_ready);
    future ← on_executor (ex_execute_model out);
    grammar_output ← get_grammar_bitmask out;
    result ← on_executor (ex_result future);
    model_output ← (match result with
                    | Some mo => mret (Some mo)
                    | None => on_executor (ex_sample_tokens grammar_output)
                    end);
    process_aborts_queue ;;
    match model_output with
    | None => raise AttributeError
    | Some mo =>
        outputs ← update_from out mo;
        mret (outputs, 0 <? total_num_scheduled_tokens out)
    end.

(** [post_step] *)
Definition post_step (model_executed : bool) : EM unit :=
  c ← gets engine_config;
  if negb (ec_async_scheduling c) && use_spec_decode c && model_executed then
    draft ← on_executor ex_take_draft_token_ids;
    match draft with
    | None => mret tt
    | Some d => on_scheduler (update_draft_token_ids should_advance validate_tokens d)
    end
  else mret tt.

(** [batch_queue.appendleft] on a deque with a maximal length: the other end
    falls out. *)
Definition appendleft (maxlen : Z) (x : F * SchedulerOutput * F) (q : list (F * SchedulerOutput * F)) : list (F * SchedulerOutput * F) :=
  take (Z.to_nat maxlen) (x :: q).

Definition set_batch_queue (q : list (F * SchedulerOutput * F)) : EM unit :=
  modify (fun e => {| e with batch_queue := Some q |}).

(** The future of the batch that has just been scheduled; [None]: sampling waits
    for the tokens of the step before. *)
Definition start_sampling (out : SchedulerOutput) (exec_future : F) (model_executed : bool) : EM (option F) :=
  c ← gets engine_config;
  if is_pooling_model c || negb model_executed then mret (Some exec_future)
  else if negb (pending_structured_output_tokens out) then
    grammar_output ← get_grammar_bitmask out;
    future ← on_executor (ex_sample_tokens_later grammar_output);
    mret (Some future)
  else mret None.

(** The second half of [step_with_batch_queue]: the oldest batch is waited for. *)
Definition finish_batch (model_executed : bool) (deferred : option (SchedulerOutput * F)) : EM (outputs_by_client * bool) :=
  q ← gets batch_queue;
  match last (default [] q) with
  | None => raise IndexError
  | Some (future, out, exec_model_fut) =>
      set_batch_queue (removelast (default [] q)) ;;
      result ← on_executor (ex_result future);
      match result with
      | None => _ ← on_executor (ex_result exec_model_fut); raise RuntimeError
      | Some mo =>
          process_aborts_queue ;;
          outputs ← update_from out mo;
          (match deferred with
           | None => mret tt
           | Some (deferred_out, exec_future) =>
               c ← gets engine_config;
               deferred_out ←
                 (if use_spec_decode c then
                    draft ← on_executor ex_take_draft_token_ids;
                    match draft with
                    | None => raise AssertionError
                    | Some d => s ← the_scheduler; mret (update_draft_token_ids_in_output should_advance validate_tokens d deferred_out s)
                    end
                  else mret deferred_out);
               grammar_output ← get_grammar_bitmask deferred_out;
               future ← on_executor (ex_sample_tokens_later grammar_output);
               q ← gets batch_queue;
               set_batch_queue (appendleft (batch_queue_size c) (future, deferred_out, exec_future) (default [] q))
           end) ;;
          mret (outputs, model_executed)
      end
  end.

(** [step_with_batch_queue]; [None]: no outputs yet. *)
Definition step_with_batch_queue : EM (option outputs_by_client * bool) :=
  e ← gets (fun e => e);
  let c := engine_config e in
  match batch_queue e with
  | None => raise AssertionError
  | Some q =>
      assert_ (zlen q <? batch_queue_size c) ;;
      if has_requests (scheduler e) then
        out ← on_scheduler (schedule order ec_connector grammar_ready);
        exec_future ← on_executor (ex_execute_model out);
        let model_executed := is_ec_consumer c && (0 <? total_num_scheduled_tokens out) in
        sampling ← start_sampling out exec_future model_executed;
        match sampling with
        | None =>
            '(outputs, executed) ← finish_batch model_executed (Some (out, exec_future));
            mret (Some outputs, executed)
        | Some future =>
            let q := appendleft (batch_queue_size c) (future, out, exec_future) q in
            set_batch_queue q ;;
            x ← gets model_executor;
            let waiting := match last q with Some (f, _, _) => negb (ex_done f x) | None => false end in
            if model_executed && (zlen q <? batch_queue_size c) && waiting then mret (None, true)
            else
              '(outputs, executed) ← finish_batch model_executed None;
              mret (Some outputs, executed)
        end
      else
        match q with
        | [] => mret (None, false)
        | _ =>
            '(outputs, executed) ← finish_batch false None;
            mret (Some outputs, executed)
        end
  end.

(** [step_fn] *)
Definition step_fn : EM (option outputs_by_client * bool) :=
  q ← gets batch_queue;
  match q with
  | None => '(outputs, executed) ← step; mret (Some outputs, executed)
  | Some _ => step_with_batch_queue
  end.

(** ** Caches, pausing and sleeping *)

Definition reset_prefix_cache (reset_running_requests reset_connector : bool) : EM bool :=
  on_scheduler (Sched.reset_prefix_cache order reset_running_requests reset_connector).

Definition reset_encoder_cache : EM unit :=
  on_scheduler Sched.reset_encoder_cache ;;
  on_executor ex_reset_encoder_cache.

Definition reset_mm_cache : EM unit := on_executor ex_reset_mm_cache.

(** [_reset_caches] *)
Definition reset_caches (reset_running_requests : bool) : EM unit :=
  _ ← reset_prefix_cache reset_running_requests false;
  reset_mm_cache ;;
  reset_encoder_cache.

Definition pause_state_of (mode : PauseMode) : PauseState := if decide (mode = pause_keep) then PAUSED_ALL else PAUSED_NEW.

(** [EngineCore.pause_scheduler] *)
Definition pause_scheduler (mode : PauseMode) (clear_cache : bool) : EM unit :=
  match mode with
  | pause_other | pause_wait => raise ValueError
  | _ =>
      (if decide (mode = pause_abort) then _ ← on_scheduler (finish_requests order None FINISHED_ABORTED); mret tt else mret tt) ;;
      on_scheduler (set_pause_state (pause_state_of mode)) ;;
      if clear_cache then reset_caches true else mret tt
  end.

Definition resume_scheduler : EM unit := on_scheduler (set_pause_state UNPAUSED).

Definition is_scheduler_paused (e : E) : bool := bool_decide (pause_state (scheduler e) ≠ UNPAUSED).

(** [EngineCore.sleep]: in this process pausing is immediate. *)
Definition sleep (level : Z) (mode : PauseMode) : EM unit :=
  pause_scheduler mode (1 <=? level) ;;
  if level <? 1 then mret tt else on_executor (ex_sleep level).

Definition wake_up (tags : option (list string)) : EM unit :=
  let tags := match tags with
              | Some l => Some (if bool_decide ("scheduling"%string ∈ l) then filter (fun t => t <> "scheduling"%string) l else l)
              | None => None
              end in
  (match tags with
   | Some [] => mret tt
   | _ => on_executor (ex_wake_up tags)
   end) ;;
  resume_scheduler.

Definition is_sleeping (e : E) : bool := is_scheduler_paused e || ex_is_sleeping (model_executor e).

(** ** The process around it: [EngineCoreProc] *)

(** [has_work], without data parallelism. *)
Definition has_work (e : E) : bool :=
  has_requests (scheduler e) || (0 <? zlen (default [] (batch_queue e))).

Definition is_running (e : E) : bool := bool_decide (shutdown_state e = SHUTDOWN_RUNNING).

Definition put_output (client : Z) (o : EngineCoreOutputs) : EM unit :=
  modify (fun e => {| e with output_queue := output_queue e ++ [(client, o)] |}).

Definition finish_output (reason : FinishReason) (id : string) : EngineCoreOutput :=
  {| eo_request_id := id; eo_new_token_ids := []; eo_pooling_output := false; eo_finish_reason := Some reason;
     eo_stop_reason := None; eo_num_cached_tokens := 0; eo_num_external_computed_tokens := 0 |}.

(** [_send_finish_outputs_to_client] *)
Definition send_finish_outputs (ids : list string) (client : Z) (reason : FinishReason) : EM unit :=
  put_output client {| outputs := finish_output reason <$> ids; finished_requests := Some (list_to_set ids);
                       scheduler_stats := None |}.

(** The ids by client, in the order in which the clients come up. *)
Definition add_by_client (d : list (Z * list string)) (entry : string * Z) : list (Z * list string) :=
  let '(id, client) := entry in Dict.set client (default [] (Dict.get client d) ++ [id]) d.

(** [_send_abort_outputs] *)
Definition send_abort_outputs (aborted : list (string * Z)) : EM unit :=
  mfor (foldl add_by_client [] aborted) (fun entry => send_finish_outputs (str_order entry.2) entry.1 ABORT).

(** [EngineCoreProc.pause_scheduler]; [true]: it completes at once. *)
Definition proc_pause_scheduler (mode : PauseMode) (clear_cache : bool) : EM bool :=
  match mode with
  | pause_other => raise ValueError
  | _ =>
      (if decide (mode = pause_abort) then
         aborted ← on_scheduler (finish_requests order None FINISHED_ABORTED);
         send_abort_outputs aborted
       else mret tt) ;;
      on_scheduler (set_pause_state (pause_state_of mode)) ;;
      e ← gets (fun e => e);
      if negb (has_work e) then (if clear_cache then reset_caches true else mret tt) ;; mret true
      else modify (fun e => {| e with idle_state_callbacks := idle_state_callbacks e ++ [clear_cache] |}) ;; mret false
  end.

(** [_notify_idle_state_callbacks]: the last one first. *)
Fixpoint run_callbacks (l : list bool) : EM unit :=
  match l with
  | [] => mret tt
  | clear_cache :: rest => (if clear_cache : bool then reset_caches true else mret tt) ;; run_callbacks rest
  end.

Definition notify_idle_state_callbacks : EM unit :=
  l ← gets idle_state_callbacks;
  modify (fun e => {| e with idle_state_callbacks := [] |}) ;;
  run_callbacks (reverse l).

(** [_handle_client_request] *)
Definition handle_client_request (r : ClientRequest) : EM unit :=
  match r with
  | ClientWakeup => mret tt
  | ClientAdd req =>
      e ← gets (fun e => e);
      if is_running e then add_request req else send_finish_outputs [request_id req] (client_index req) ABORT
  | ClientAbort ids => abort_requests ids
  | ClientExecutorFailed => raise RuntimeError
  end.

Definition pop_input : EM (option ClientRequest) :=
  q ← gets input_queue;
  match q with
  | [] => mret None
  | r :: rest => modify (fun e => {| e with input_queue := rest |}) ;; mret (Some r)
  end.

(** The loop of [_process_input_queue] while there is nothing to do; [false]: the
    process sleeps until a message comes. *)
Fixpoint wait_for_work (fuel : nat) : EM bool :=
  e ← gets (fun e => e);
  if has_work e || negb (is_running e) then mret true
  else
    notify_idle_state_callbacks ;;
    r ← pop_input;
    match r with
    | None =>
        modify (fun e => {| e with aborts_queue := [] |}) ;;
        mret (negb (process_input_queue_block (engine_config e)))
    | Some r =>
        handle_client_request r ;;
        if process_input_queue_block (engine_config e) then
          match fuel with
          | O => raise Diverges
          | Datatypes.S fuel' => wait_for_work fuel'
          end
        else mret true
    end.

(** The messages that are already there. *)
Fixpoint handle_input (l : list ClientRequest) : EM unit :=
  match l with
  | [] => mret tt
  | r :: rest => handle_client_request r ;; handle_input rest
  end.

(** [_process_input_queue]; each turn of the first loop takes a message. *)
Definition process_input_queue : EM bool :=
  q ← gets input_queue;
  awake ← wait_for_work (length q);
  if negb awake then mret false
  else
    rest ← gets input_queue;
    modify (fun e => {| e with input_queue := [] |}) ;;
    handle_input rest ;;
    mret true.

(** [_process_engine_step] *)
Definition process_engine_step : EM bool :=
  '(outputs, model_executed) ← step_fn;
  mfor (default [] outputs) (fun o => put_output o.1 o.2) ;;
  post_step model_executed ;;
  mret model_executed.

(** [_handle_shutdown]; [false]: the process ends. *)
Definition handle_shutdown : EM bool :=
  e ← gets (fun e => e);
  if decide (shutdown_state e = SHUTDOWN_RUNNING) then mret true
  else
    (if decide (shutdown_state e = SHUTDOWN_REQUESTED) then
       (if shutdown_timeout (engine_config e) =? 0 then
          aborted ← on_scheduler (finish_requests order None FINISHED_ABORTED);
          send_abort_outputs aborted
        else mret tt) ;;
       modify (fun e => {| e with shutdown_state := SHUTTING_DOWN |})
     else mret tt) ;;
    e ← gets (fun e => e);
    mret (has_work e).

(** One turn of [run_busy_loop]. *)
Inductive turn_result := Exits | Sleeps | Goes_on.

Definition busy_turn : EM turn_result :=
  continue ← handle_shutdown;
  if negb continue then mret Exits
  else
    awake ← process_input_queue;
    if negb awake then mret Sleeps
    else _ ← process_engine_step; mret Goes_on.

End engine.
End Engine.
