(* ===== verification/EngineSession.v ===== *)
(** The engine core serves its clients: sessions of [EngineCore] with the
    synchronous scheduler. *)

From S2P Require Import Prelude FreeQueue Request Hashing Metrics BlockPool KVSpec SingleType Coordinator KVManager KVSession EncoderCache Heap ReqQueue Scheduler SchedContract SchedKV SchedFindings SchedFacts SchedPhases SchedStep SchedServe SchedUpdate SchedSound Engine.
Local Open Scope Z_scope.

(** ** What the engine relies on *)

(** The answer of the model runner covers the step. *)
Definition answers_all (out : SchedulerOutput) (mo : ModelRunnerOutput) : Prop :=
  pooler_output mo = None /\ forall id n, (id, n) ∈ so_num_scheduled_tokens out ->
    exists g, SchedUpdate.answered mo id (SchedStep.drafts (so_scheduled_spec_decode_tokens out) id) g.

(** The executor runs what it is given and answers, from [execute_model] or from
    [sample_tokens]. *)
Class ExecutorLaws (X F : Type) `{ExecutorOps X F} := {
  law_executes (out : SchedulerOutput) (x : X) : exists f x1 o x2, ex_execute_model out x = (Ok f, x1) /\ ex_result f x1 = (Ok o, x2)
    /\ match o with
       | Some mo => answers_all out mo
       | None => forall g, exists mo x3, ex_sample_tokens g x2 = (Ok (Some mo), x3) /\ answers_all out mo
       end;
  law_takes_drafts (x : X) : exists d x', ex_take_draft_token_ids x = (Ok d, x');
}.

(** Prefix caching is off: the requests have no block hasher. *)
Class NoHasher (K : Type) `{KVLaws K} := {
  nh_only (k : K) h : kv_hasher k h -> h = None;
}.

Module EngineSession.
Import Sched Engine SchedFacts SchedPhases SchedStep SchedServe SchedUpdate.

Section session.
Context {K C X F : Type} `{KL : KVLaws K} `{EL : EncoderLaws C} `{XL : ExecutorLaws X F} {NH : NoHasher K}.
Context (hash_function : bytes * list Z * option (list extra_key) -> bytes).
Context (sha256 : bytes -> bytes) (NONE_HASH : bytes).
Context (order : list Z -> list Z) (order_nil : order [] = []).
Context (str_order : list string -> list string).
Context (str_order_set : forall l, NoDup (str_order l) /\ forall x, x ∈ str_order l <-> x ∈ l).
Context (ec_connector : option (string -> bool)) (grammar_ready : string -> bool).
Context (should_advance : Request -> bool) (validate_tokens : Request -> list Z -> list Z).

Abbreviation E := (EngineCore K C X F).
Abbreviation S := (Scheduler K C).
Abbreviation kv s := (kv_cache_manager s).
Abbreviation booked s := (books (slack := fun _ => 0) s).

(** ** The state between the calls *)

Record engine_ok (e : E) : Prop := {
  en_books : booked (scheduler e);
  en_sync : sync (config (scheduler e));
  en_queue : batch_queue e = None;
}.

Lemma on_scheduler_ok {A} (c : M S A) (e : E) a s' : c (scheduler e) = (a, s') -> on_scheduler c e = (a, {| e with scheduler := s' |}).
Proof. intros Hc. unfold on_scheduler, zoom. by rewrite Hc. Qed.

Lemma on_executor_ok {A} (c : M X A) (e : E) a x' : c (model_executor e) = (a, x') -> on_executor c e = (a, {| e with model_executor := x' |}).
Proof. intros Hc. unfold on_executor, zoom. by rewrite Hc. Qed.

(** *** Aborts *)

Lemma abort_awaiting (e : E) out l : awaiting (scheduler e) out ->
  exists s', abort_requests order str_order l e = (Ok tt, {| e with scheduler := s' |}) /\ awaiting s' out /\ config s' = config (scheduler e)
    /\ forall id, find s' id = if decide (id ∈ l) then None else find (scheduler e) id.
Proof.
  intros Haw. destruct (str_order_set l) as [Hnd Hin].
  destruct (finish_awaiting order order_nil (scheduler e) out (Some (str_order l)) FINISHED_ABORTED Haw) as (o & s' & R1 & Haw' & Hc & Hf); [done|done|].
  exists s'. split; [unfold abort_requests; by rewrite (bind_ok _ _ _ _ _ (on_scheduler_ok _ _ _ _ R1))|]. split; [done|]. split; [done|].
  intros id. rewrite Hf. cbn [default]. specialize (Hin id). repeat case_decide; naive_solver.
Qed.

Lemma aborts_queue_ok (e : E) out : awaiting (scheduler e) out ->
  exists s', process_aborts_queue order str_order e = (Ok tt, {| e with scheduler := s'; aborts_queue := [] |}) /\ awaiting s' out
    /\ config s' = config (scheduler e)
    /\ forall id, find s' id = if decide (id ∈ concat (aborts_queue e)) then None else find (scheduler e) id.
Proof.
  intros Haw. unfold process_aborts_queue. msteps. destruct (aborts_queue e) as [|l q] eqn:Eq.
  { exists (scheduler e). split; [rewrite <- Eq; by destruct e|]. split; [done|]. split; [done|]. intros id. by rewrite decide_False by apply not_elem_of_nil. }
  msteps. destruct (abort_awaiting {| e with aborts_queue := [] |} out (concat (l :: q)) Haw) as (s' & R1 & Hs').
  exists s'. by rewrite R1.
Qed.

(** *** The calls *)

Lemma update_engine (e : E) out mo : sync (config (scheduler e)) -> awaiting (scheduler e) out -> answers (scheduler e) out mo ->
  exists d s', update_from hash_function sha256 NONE_HASH order out mo e = (Ok d, {| e with scheduler := s' |}) /\ updated (scheduler e) d s'.
Proof.
  intros Hsync Haw Hans.
  destruct (update_from_output_ok hash_function sha256 NONE_HASH order order_nil nh_only out mo _ Hsync Haw Hans) as (d & ev & s' & R1 & Hup).
  exists d, s'. split; [|done]. unfold update_from. by rewrite (bind_ok _ _ _ _ _ (on_scheduler_ok _ _ _ _ R1)).
Qed.

(** What a step does to the requests: those that are gone were aborted, or a client
    has been told. *)
Definition gone_told (e : E) (d : list (Z * EngineCoreOutputs)) (e' : E) : Prop :=
  (forall id, is_Some (find (scheduler e') id) -> is_Some (find (scheduler e) id))
  /\ forall id, is_Some (find (scheduler e) id) ->
       is_Some (find (scheduler e') id) \/ told d id \/ id ∈ concat (aborts_queue e).

Lemma step_ok (e : E) : engine_ok e ->
  exists d b e', step hash_function sha256 NONE_HASH order str_order ec_connector grammar_ready e = (Ok (d, b), e') /\ engine_ok e'
    /\ gone_told e d e' /\ config (scheduler e') = config (scheduler e)
    /\ forall id, id ∈ concat (aborts_queue e') -> id ∈ concat (aborts_queue e).
Proof.
  intros [Hbo Hsync Hq]. unfold step. rewrite (bind_ok _ _ e (scheduler e) e) by done.
  destruct (has_requests (scheduler e)); cbn [negb].
  2: { exists [], false, e. split; [done|]. split; [done|]. split; [|done]. split; [done|]. by left. }
  destruct (schedule_awaiting order order_nil ec_connector grammar_ready (scheduler e) Hbo Hsync) as (out & s1 & R1 & Haw & Hc1 & Hl1).
  rewrite (bind_ok _ _ _ _ _ (on_scheduler_ok _ _ _ _ R1)). set (e1 := {| e with scheduler := s1 |}).
  destruct (law_executes out (model_executor e1)) as (f & x1 & o & x2 & Q1 & Q2 & Ho).
  rewrite (bind_ok _ _ _ _ _ (on_executor_ok _ e1 _ _ Q1)). set (e2 := {| e1 with model_executor := x1 |}).
  assert (exists g, get_grammar_bitmask out e2 = (Ok g, e2)) as [g Q3].
  { unfold get_grammar_bitmask, the_scheduler. msteps. destruct (structured_output_request_ids out (scheduler e2)); by eexists. }
  rewrite (bind_ok _ _ _ _ _ Q3), (bind_ok _ _ _ _ _ (on_executor_ok _ e2 _ _ Q2)). set (e3 := {| e2 with model_executor := x2 |}).
  assert (exists mo x3, (match o with Some mo => mret (Some mo) | None => on_executor (ex_sample_tokens g) end) e3
    = (Ok (Some mo), {| e3 with model_executor := x3 |}) /\ answers_all out mo) as (mo & x3 & Q4 & Hpool & Hans).
  { destruct o as [mo|]; [by exists mo, x2|]. destruct (Ho g) as (mo & x3 & Q4 & Hans). exists mo, x3. split; [|done].
    by rewrite (on_executor_ok _ e3 _ _ Q4). }
  rewrite (bind_ok _ _ _ _ _ Q4). set (e4 := {| e3 with model_executor := x3 |}).
  destruct (aborts_queue_ok e4 out Haw) as (s5 & Q5 & Haw5 & Hc5 & Hf5).
  rewrite (bind_ok _ _ _ _ _ Q5). set (e5 := {| e4 with scheduler := s5; aborts_queue := [] |}).
  change (scheduler e4) with s1 in Hc5, Hf5. change (aborts_queue e4) with (aborts_queue e) in Hf5.
  destruct (update_engine e5 out mo) as (d & s6 & Q6 & [U1 U2 U3 U4 U5]); [cbn; by rewrite Hc5, Hc1|done|split; [done|]; intros id n Hx _; by eapply Hans|].
  rewrite (bind_ok _ _ _ _ _ Q6). change (scheduler e5) with s5 in *.
  exists d, (0 <? total_num_scheduled_tokens out), {| e5 with scheduler := s6 |}. split; [done|].
  assert (config s6 = config (scheduler e)) as Hc6 by congruence. split; [split; [done|cbn; by rewrite Hc6|done]|].
  split; [split|split; [done|by intros id ?%not_elem_of_nil]]; cbn [scheduler]; intros id Hs.
  - apply Hl1. destruct (find s5 id) as [r|] eqn:E5; [|rewrite (U5 id E5) in Hs; by destruct Hs]. rewrite Hf5 in E5. case_decide; [done|]. rewrite E5. by eexists.
  - destruct (decide (id ∈ concat (aborts_queue e))) as [Ha|Ha]; [by right; right|].
    destruct (U4 id) as [?|?]; [rewrite Hf5, decide_False by done; by apply Hl1|by left|by right; left].
Qed.

(** Other draft tokens do not matter to the books. *)
Lemma put_drafts_ok (s : S) id r l : booked s -> find s id = Some r ->
  let r' := {| r with spec_token_ids := l |} in booked (put s r') /\ forall x, is_Some (find (put s r') x) <-> is_Some (find s x).
Proof.
  intros [I Hprev Hroom Hdead] Hr r'. pose proof (si_named _ _ _ I _ _ Hr) as Hn.
  pose proof (find_put_same s r') as Hr'. pose proof (about_put s r') as Hab. change (request_id r') with (request_id r) in *. rewrite Hn in *.
  assert (forall x, is_Some (find (put s r') x) <-> is_Some (find s x)) as Hl.
  { intros x. destruct (decide (x = id)) as [->|Hx]; [rewrite Hr, Hr'; by split; eexists|]. by rewrite (ab_others _ _ _ Hab). }
  split; [|done]. split; [|intros x y Hx Hy Hst|done|].
  - apply (inv_change s (put s r') id r r' [] [] [] []); try done.
    + destruct (si_fine _ _ _ I _ _ Hr) as [F1 F2 F3 F4 F5]. by split.
    + apply (si_kv _ _ _ I).
    + intros x Hx. by right.
    + intros x Hx. by right.
    + intros Hx. destruct (si_running _ _ _ I id r Hx Hr) as [G1 G2 G3 G4]. by split.
    + intros Hx. destruct (si_waiting _ _ _ I id r Hx Hr) as [G1 G2 G3]. by split.
    + by eapply queue_fine_about; [apply I|..].
    + by eapply queue_fine_about; [apply I|..].
  - apply (Hprev x (if decide (x = id) then r else y)); [done|..]; case_decide as Hx'; subst; try done.
    + by rewrite (ab_others _ _ _ Hab) in Hy.
    + rewrite Hr' in Hy. by injection Hy as <-.
  - intros x Hx. apply Hdead. destruct (find s x) as [y|] eqn:Ey; [|done]. destruct (proj2 (Hl x)) as [? ?]; [rewrite Ey; by eexists|]. congruence.
Qed.

(** The drafts of the worker are kept for the next step. *)
Lemma update_drafts_ok (s : S) draft : booked s ->
  exists s', update_draft_token_ids should_advance validate_tokens draft s = (Ok tt, s') /\ booked s' /\ config s' = config s
    /\ forall id, is_Some (find s' id) <-> is_Some (find s id).
Proof.
  revert s. induction draft as [|[id toks] draft IH]; intros s Hbo; [by exists s|]. unfold update_draft_token_ids. cbn [mfor].
  assert (exists s1, update_draft should_advance validate_tokens (id, toks) s = (Ok tt, s1) /\ booked s1 /\ config s1 = config s
    /\ forall x, is_Some (find s1 x) <-> is_Some (find s x)) as (s1 & R1 & Hbo1 & Hc1 & Hl1).
  { unfold update_draft. msteps. cbn [fst snd]. change (Dict.get id (requests s)) with (find s id). destruct (find s id) as [r|] eqn:Er; [|by exists s].
    destruct (is_finished r); [by exists s|].
    destruct (is_prefill_chunk r) eqn:Ec;
      [destruct (put_drafts_ok s id r [] Hbo Er) as [P1 P2]
      |destruct (put_drafts_ok s id r (validated should_advance validate_tokens r toks) Hbo Er) as [P1 P2]];
      (eexists; split; [reflexivity|]); rewrite <- Ec in *; by split_and!. }
  rewrite (bind_ok _ _ _ _ _ R1). destruct (IH s1 Hbo1) as (s2 & R2 & Hbo2 & Hc2 & Hl2). exists s2. split; [done|]. split; [done|].
  split; [congruence|]. intros x. by rewrite Hl2, Hl1.
Qed.

Lemma post_step_ok (e : E) b : engine_ok e ->
  exists e', post_step should_advance validate_tokens b e = (Ok tt, e') /\ engine_ok e' /\ config (scheduler e') = config (scheduler e)
    /\ aborts_queue e' = aborts_queue e /\ forall id, is_Some (find (scheduler e') id) <-> is_Some (find (scheduler e) id).
Proof.
  intros [Hbo Hsync Hq]. unfold post_step. msteps. destruct (negb _ && _ && _); [|by exists e].
  destruct (law_takes_drafts (model_executor e)) as (d & x' & R1). rewrite (bind_ok _ _ _ _ _ (on_executor_ok _ e _ _ R1)).
  destruct d as [d|]; [|by eexists].
  destruct (update_drafts_ok (scheduler e) d Hbo) as (s' & R2 & Hbo' & Hc & Hl).
  rewrite (on_scheduler_ok _ {| e with model_executor := x' |} _ _ R2). eexists. split; [done|]. split; [|done]. split; [done|cbn; by rewrite Hc|done].
Qed.

(** ** Sessions *)

(** The calls of the busy loop and of the input thread, which puts aborts into the
    aborts queue while a step may be running. *)
Inductive call :=
  | Add (request : Request)
  | Abort (request_ids : list string)
  | EarlyAbort (request_ids : list string)
  | Step
  | PostStep (model_executed : bool).

Definition serve (c : call) : M E (list (Z * EngineCoreOutputs)) :=
  match c with
  | Add r => add_request hash_function sha256 NONE_HASH order r ;; mret []
  | Abort ids => abort_requests order str_order ids ;; mret []
  | EarlyAbort ids => modify (fun e => {| e with aborts_queue := aborts_queue e ++ [ids] |}) ;; mret []
  | Step => '(d, _) ← step hash_function sha256 NONE_HASH order str_order ec_connector grammar_ready; mret d
  | PostStep b => post_step should_advance validate_tokens b ;; mret []
  end.

Fixpoint serve_all (l : list call) : M E (list (list (Z * EngineCoreOutputs))) :=
  match l with
  | [] => mret []
  | c :: rest => d ← serve c; ds ← serve_all rest; mret (d :: ds)
  end.

(** Each request that is added is a new object with a new id, and one that the
    theorems are about. *)
Fixpoint valid (l : list call) (e : E) : Prop :=
  match l with
  | [] => True
  | c :: rest => match c with Add r => fresh (scheduler e) r | _ => True end /\ valid rest (serve c e).2
  end.

Definition abort_ids (c : call) : list string :=
  match c with Abort ids | EarlyAbort ids => ids | _ => [] end.
Definition added_ids (c : call) : list string := match c with Add r => [request_id r] | _ => [] end.

(** What a call does to the requests. *)
Record served (c : call) (e : E) (d : list (Z * EngineCoreOutputs)) (e' : E) : Prop := {
  sv_ok : engine_ok e';
  sv_config : config (scheduler e') = config (scheduler e);
  sv_aborts : forall id, id ∈ concat (aborts_queue e') -> id ∈ concat (aborts_queue e) \/ id ∈ abort_ids c;
  sv_fate : forall id, is_Some (find (scheduler e) id) \/ id ∈ added_ids c ->
    is_Some (find (scheduler e') id) \/ told d id \/ id ∈ concat (aborts_queue e) \/ id ∈ abort_ids c;
}.

Lemma booked_awaiting (s : S) out : booked s -> so_num_scheduled_tokens out = [] -> so_scheduled_spec_decode_tokens out = [] -> awaiting s out.
Proof.
  intros [I Hprev Hroom Hdead] En Es. split; rewrite ?En, ?Es; [|constructor|by intros id n ?%not_elem_of_nil|done].
  split; [|done..]. apply (inv_slack (fun _ => 0)); [done|]. intros id r Hid Hr. destruct (si_running _ _ _ I id r Hid Hr) as [_ _ Hb _].
  unfold drafts. cbn. change (zlen (@nil Z)) with 0. lia.
Qed.

Lemma awaiting_booked (s : S) out : awaiting s out -> so_scheduled_spec_decode_tokens out = [] -> booked s.
Proof.
  intros [[I Hprev Hroom Hdead] _ _ _] Es. rewrite Es in I. split; [|done..]. apply (inv_slack (drafts [])); [done|].
  intros id r Hid Hr. destruct (si_running _ _ _ I id r Hid Hr) as [_ _ Hb _]. exact Hb.
Qed.

Lemma no_output : exists out, so_num_scheduled_tokens out = [] /\ so_scheduled_spec_decode_tokens out = [].
Proof.
  eexists {| so_num_scheduled_tokens := []; so_scheduled_spec_decode_tokens := []; so_scheduled_new_reqs := [];
    so_scheduled_cached_reqs := {| cr_req_ids := []; resumed_req_ids := ∅; new_token_ids := []; cr_all_token_ids := [];
      new_block_ids := []; cr_num_computed_tokens := []; cr_num_output_tokens := [] |}; total_num_scheduled_tokens := 0;
    so_scheduled_encoder_inputs := []; num_common_prefix_blocks := []; so_finished_req_ids := ∅; free_encoder_mm_hashes := [];
    preempted_req_ids := ∅; has_structured_output_requests := false; pending_structured_output_tokens := false;
    num_invalid_spec_tokens := None; new_block_ids_to_zero := None |}. done.
Qed.

Lemma serve_ok c (e : E) : engine_ok e -> match c with Add r => fresh (scheduler e) r | _ => True end ->
  exists d e', serve c e = (Ok d, e') /\ served c e d e'.
Proof.
  intros Hok Hv. pose proof Hok as [Hbo Hsync Hq]. destruct c as [r|l|l| |b]; cbn [serve].
  - destruct (add_request_ok hash_function sha256 NONE_HASH order (scheduler e) r Hbo Hv) as (s' & R1 & Hbo' & Hc & _ & Hr & Hoth).
    assert (pooling_params r = None) as Hpool by apply (fi_stop _ _ (fr_fine _ _ Hv)).
    exists [], {| e with scheduler := s' |}. split.
    { unfold add_request. msteps. rewrite Hpool. msteps. by rewrite (bind_ok _ _ _ _ _ (on_scheduler_ok _ e _ _ R1)). }
    split; [split; [done|cbn; by rewrite Hc|done]|done|by left|]. cbn [scheduler]. intros id [Hs|Hs].
    + left. destruct (decide (id = request_id r)) as [->|Hne]; [rewrite Hr; by eexists|by rewrite Hoth].
    + left. apply list_elem_of_singleton in Hs as ->. rewrite Hr. by eexists.
  - destruct no_output as (out & En & Es).
    destruct (abort_awaiting e out l (booked_awaiting _ out Hbo En Es)) as (s' & R1 & Haw & Hc & Hf).
    exists [], {| e with scheduler := s' |}. rewrite (bind_ok _ _ _ _ _ R1). split; [done|].
    split; [split; [by eapply awaiting_booked|cbn; by rewrite Hc|done]|done|by left|]. cbn [scheduler]. intros id [Hs|?%not_elem_of_nil]; [|done].
    rewrite Hf. case_decide; [by right; right; right|by left].
  - eexists [], {| e with aborts_queue := aborts_queue e ++ [l] |}. split; [by msteps|]. split; [by split|done| |].
    + intros id. cbn [aborts_queue]. rewrite concat_app. cbn. rewrite app_nil_r. by rewrite elem_of_app.
    + intros id [Hs|?%not_elem_of_nil]; [|done]. by left.
  - destruct (step_ok e Hok) as (d & b & e' & R1 & Hok' & [_ Hg] & Hc & Ha). exists d, e'. rewrite (bind_ok _ _ _ _ _ R1). split; [done|].
    split; [done|done| |].
    + intros id Hid. left. by apply Ha.
    + intros id [Hs|?%not_elem_of_nil]; [|done]. destruct (Hg id Hs) as [?|[?|?]]; [by left|by right; left|by right; right; left].
  - destruct (post_step_ok e b Hok) as (e' & R1 & Hok' & Hc & Ha & Hl). exists [], e'. rewrite (bind_ok _ _ _ _ _ R1). split; [done|].
    split; [done|done|rewrite Ha; by left|]. intros id [Hs|?%not_elem_of_nil]; [|done]. left. by apply Hl.
Qed.

(** A session: nothing fails, and no request is lost. *)
Lemma serve_all_ok l : forall e : E, engine_ok e -> valid l e ->
  exists ds e', serve_all l e = (Ok ds, e') /\ engine_ok e' /\ config (scheduler e') = config (scheduler e)
    /\ (forall id, id ∈ concat (aborts_queue e') -> id ∈ concat (aborts_queue e) \/ id ∈ l ≫= abort_ids)
    /\ forall id, is_Some (find (scheduler e) id) \/ id ∈ l ≫= added_ids ->
         is_Some (find (scheduler e') id) \/ (exists d, d ∈ ds /\ told d id) \/ id ∈ concat (aborts_queue e) \/ id ∈ l ≫= abort_ids.
Proof.
  induction l as [|c l IH]; intros e Hok Hv.
  { exists [], e. split; [done|]. split; [done|]. split; [done|]. split; [by left|]. intros id [?|?%not_elem_of_nil]; [by left|done]. }
  destruct Hv as [Hc Hv]. destruct (serve_ok c e Hok Hc) as (d & e1 & R1 & [S1 S2 S3 S4]). rewrite R1 in Hv. cbn [snd] in Hv.
  destruct (IH e1 S1 Hv) as (ds & e2 & R2 & Hok2 & Hc2 & Ha2 & Hf2). exists (d :: ds), e2. cbn [serve_all].
  rewrite (bind_ok _ _ _ _ _ R1), (bind_ok _ _ _ _ _ R2). split; [done|]. split; [done|]. split; [congruence|]. rewrite !bind_cons. split.
  - intros id Hid. rewrite elem_of_app. destruct (Ha2 id Hid) as [Hx|Hx]; [|by right; right]. destruct (S3 id Hx); [by left|by right; left].
  - intros id. rewrite !elem_of_app. intros Hid.
    assert (is_Some (find (scheduler e1) id) \/ id ∈ l ≫= added_ids \/ told d id \/ id ∈ concat (aborts_queue e) \/ id ∈ abort_ids c) as Hx.
    { destruct Hid as [Hid|[Hid|Hid]]; [destruct (S4 id) as [?|?]; [by left|by left|by right; right]
        |destruct (S4 id) as [?|?]; [by right|by left|by right; right]|by right; left]. }
    destruct Hx as [Hx|[Hx|[Hx|[Hx|Hx]]]].
    + destruct (Hf2 id) as [?|[(d' & ? & ?)|[Hq|?]]]; [by left|by left|right; left; exists d'; split; [by right|done]| |by right; right; right; right].
      destruct (S3 id Hq); [by right; right; left|by right; right; right; left].
    + destruct (Hf2 id) as [?|[(d' & ? & ?)|[Hq|?]]]; [by right|by left|right; left; exists d'; split; [by right|done]| |by right; right; right; right].
      destruct (S3 id Hq); [by right; right; left|by right; right; right; left].
    + right; left. exists d. split; [by left|done].
    + by right; right; left.
    + by right; right; right; left.
Qed.

(** A new engine. *)
Lemma init_engine_ok (ec : EngineConfig) (sc : SchedulerConfig) include (k : K) (c : C) (x : X) :
  plain_config sc -> sync sc -> 0 <= max_num_running_reqs sc -> batch_queue_size ec <= 1 -> sc_max_model_len sc <= kv_max_len k ->
  kv_ok k -> (forall id, kv_idle k id) -> engine_ok (Engine.init (F := F) ec (Sched.init sc include k c) x).
Proof.
  intros Hplain Hsync Hrun Hq Hlen Hk Hidle.
  split; [by apply init_books|exact Hsync|cbn; by replace (1 <? batch_queue_size ec) with false by lia].
Qed.

(** C1: the engine core serves every session of its clients.  A new engine with the
    synchronous scheduler gets any calls: requests are added, aborted, aborted
    through the aborts queue while a step runs, steps are run with any model runner
    that answers for the requests of the step, draft tokens are taken over.  No call
    raises and no loop runs out of fuel.  Then every live request is in exactly one
    place, running or in a queue; no more requests run than may; nothing is held in
    the KV cache for a request that is gone; and no request is lost: one that was
    added is alive, or a client was told that it finished, or it was aborted. *)
Theorem engine_serves_sessions (ec : EngineConfig) (sc : SchedulerConfig) (include : bool) (k : K) (c : C) (x : X) (calls : list call)
  (Hplain : plain_config sc) (Hsync : sync sc) (Hrun : 0 <= max_num_running_reqs sc) (Hq : batch_queue_size ec <= 1)
  (Hlen : sc_max_model_len sc <= kv_max_len k) (Hk : kv_ok k) (Hidle : forall id, kv_idle k id)
  (Hvalid : valid calls (Engine.init (F := F) ec (Sched.init sc include k c) x)) :
  exists ds e, serve_all calls (Engine.init ec (Sched.init sc include k c) x) = (Ok ds, e) /\
    let s := scheduler e in
    NoDup (running s ++ ids (waiting s) ++ ids (skipped_waiting s))
    /\ (forall id, is_Some (Dict.get id (requests s)) <-> id ∈ running s ++ ids (waiting s) ++ ids (skipped_waiting s))
    /\ zlen (running s) <= max_num_running_reqs sc
    /\ (forall id, Dict.get id (requests s) = None -> kv_idle (kv s) id)
    /\ (forall id, id ∈ calls ≫= added_ids ->
          is_Some (Dict.get id (requests s)) \/ (exists d, d ∈ ds /\ told d id) \/ id ∈ calls ≫= abort_ids).
Proof.
  destruct (serve_all_ok calls _ (init_engine_ok ec sc include k c x Hplain Hsync Hrun Hq Hlen Hk Hidle) Hvalid)
    as (ds & e & R & [Hbo _ _] & Hc & _ & Hfate). exists ds, e. split; [exact R|]. cbn zeta. destruct Hbo as [I _ Hroom Hdead].
  pose proof (si_places _ _ _ I) as Hp. unfold queued in Hp. cbn [app] in Hp. rewrite app_nil_r in Hp. split; [done|].
  split; [|split; [by rewrite Hc in Hroom|split; [done|]]].
  - intros id. pose proof (si_live _ _ _ I id) as Hl. unfold queued in Hl. cbn [app] in Hl. rewrite app_nil_r in Hl. unfold find in Hl. by rewrite Hl.
  - intros id Hid. destruct (Hfate id) as [?|[?|[?%not_elem_of_nil|?]]]; [by right|by left|by right; left|done|by right; right].
Qed.

End session.
End EngineSession.

(** ** A concrete engine *)

Import SchedKV.

(** The KV cache manager asks for requests without a hasher. *)
#[export] Instance kv_cache_manager_no_hasher {Ev : Env} : NoHasher KVCacheManager.
Proof. split. done. Qed.

(** A model runner that gives one token to every request. *)
Module OneToken.
Import Engine.

Definition answer (out : SchedulerOutput) : ModelRunnerOutput :=
  {| req_id_to_index := imap (fun i e => (e.1, Z.of_nat i)) (so_num_scheduled_tokens out);
     sampled_token_ids := (fun _ => [4]) <$> so_num_scheduled_tokens out; prompt_logprobs := []; pooler_output := None |}.

#[export] Instance executor_ops : ExecutorOps unit SchedulerOutput := {
  ex_execute_model out := mret out;
  ex_sample_tokens _ := mret None;
  ex_sample_tokens_later _ := raise NotImplementedError;
  ex_result out := mret (Some (answer out));
  ex_done _ _ := true;
  ex_take_draft_token_ids := mret None;
  ex_reset_mm_cache := mret tt;
  ex_reset_encoder_cache := mret tt;
  ex_sleep _ := mret tt;
  ex_wake_up _ := mret tt;
  ex_is_sleeping _ := false;
  ex_supported_tasks _ := [];
}.

Lemma answer_all out : answers_all out (answer out).
Proof.
  split; [done|]. intros id n Hx. exists [4].
  assert (is_Some (Dict.get id (req_id_to_index (answer out)))) as [i Hi].
  { apply Dict.elem_keys. apply list_elem_of_lookup in Hx as [k Hk]. apply list_elem_of_fmap. exists (id, Z.of_nat k). split; [done|].
    cbn [req_id_to_index answer]. apply list_elem_of_lookup. exists k. by rewrite list_lookup_imap, Hk. }
  exists i. split; [done|]. apply Dict.get_Some_elem, list_elem_of_lookup in Hi as [k Hk]. cbn [req_id_to_index answer] in Hk.
  rewrite list_lookup_imap in Hk. destruct (so_num_scheduled_tokens out !! k) as [e|] eqn:Ek; [|done]. injection Hk as _ <-.
  assert (((fun _ => [4]) <$> so_num_scheduled_tokens out) !! k = Some [4]) as Hl by (by rewrite list_lookup_fmap, Ek).
  pose proof (zlen_nonneg (default [] (Dict.get id (so_scheduled_spec_decode_tokens out)))) as Hd.
  split; [|split; [done|split; [|done]]].
  - cbn [sampled_token_ids answer]. destruct (((fun _ => [4]) <$> so_num_scheduled_tokens out)) as [|g l] eqn:El; [done|]. rewrite <- El in *.
    rewrite py_get_nonneg by lia. rewrite Nat2Z.id. by rewrite Hl.
  - unfold SchedStep.drafts. change (zlen [4]) with 1. lia.
Qed.

#[export] Instance executor_laws : ExecutorLaws unit SchedulerOutput.
Proof.
  split.
  - intros out x. exists out, x, (Some (answer out)), x. split; [done|]. split; [done|]. apply answer_all.
  - intros x. by exists None, x.
Qed.

End OneToken.

(** Two requests on one full-attention group of sixty blocks; the second is aborted
    while the second step runs. *)
Module EngineDemo.
Import Engine EngineSession SchedFindings OneToken SchedFacts SchedServe SchedUpdate SchedDemo.

Definition demo_engine_config : EngineConfig :=
  {| use_spec_decode := false; ec_async_scheduling := false; is_ec_consumer := true; is_pooling_model := false;
     batch_queue_size := 1; shutdown_timeout := 0; pooling_tasks := []; process_input_queue_block := true |}.

Definition demo_engine : EngineCore KVCacheManager EncoderCacheManager unit SchedulerOutput :=
  Engine.init demo_engine_config (Sched.init (engine_config FCFS false None) false (engine_kv 60) (Encoder.init 10)) tt.

Definition demo_calls : list call :=
  [Add request_a; Add request_b; Step; PostStep true; EarlyAbort ["b"]; Step]%string.

Definition string_order (l : list string) : list string := remove_dups l.

Lemma string_order_set (l : list string) : NoDup (string_order l) /\ forall x, x ∈ string_order l <-> x ∈ l.
Proof. split; [apply NoDup_remove_dups|]. intros x. apply elem_of_remove_dups. Qed.

Abbreviation demo_serve := (serve demo_hash demo_sha256 [] no_order string_order None (fun _ => true) (fun _ => false) (fun _ l => l)).
Abbreviation demo_serve_all := (serve_all demo_hash demo_sha256 [] no_order string_order None (fun _ => true) (fun _ => false) (fun _ l => l)).
Abbreviation demo_valid := (valid demo_hash demo_sha256 [] no_order string_order None (fun _ => true) (fun _ => false) (fun _ l => l)).

Lemma engine_serves_sessions_witness : exists ds e, demo_serve_all demo_calls demo_engine = (Ok ds, e)
  /\ running (scheduler e) = ["a"]%string /\ zlen (running (scheduler e)) <= 4.
Proof.
  destruct engine_kv_plain as (Hk & Hlen & Hidle).
  destruct (engine_serves_sessions demo_hash demo_sha256 [] no_order eq_refl string_order string_order_set None (fun _ => true)
    (fun _ => false) (fun _ l => l) demo_engine_config (engine_config FCFS false None) false (engine_kv 60) (Encoder.init 10) tt demo_calls)
    as (ds & e & R & _ & _ & Hroom & _).
  - by split.
  - by split.
  - done.
  - done.
  - cbn. by rewrite Hlen.
  - exact Hk.
  - exact Hidle.
  - split; [apply demo_fresh; [done|done|constructor|done]|]. split; [|done]. apply demo_fresh; [by vm_compute|by vm_compute| |done].
    repeat constructor. by vm_compute.
  - exists ds, e. split; [exact R|]. split; [|exact Hroom].
    assert (running (scheduler (demo_serve_all demo_calls demo_engine).2) = ["a"]%string) as Hrun by by vm_compute.
    fold demo_engine in R. rewrite R in Hrun. exact Hrun.
Defined.

End EngineDemo.
