(* ===== verification/NgramFacts.v ===== *)
(** The prefix-function search of [Ngram] finds the longest repeated suffix and its
    first place; the batch gives every request the draft of its own tokens. *)

From S2P Require Import Prelude Ngram.
Local Open Scope Z_scope.

Module NgramFacts.
Import Ngram.

(** ** Borders: prefixes of the tokens that end at a position *)

Section borders.
Context (t : list Z).

Definition tok (j : Z) : Z := t !!! Z.to_nat j.

(** The first [v] tokens are the last [v] of the first [i]. *)
Definition border (v i : Z) : Prop := 0 <= v < i /\ forall j, 0 <= j < v -> tok j = tok (i - v + j).

Definition greatest (b i : Z) : Prop := border b i /\ forall v, border v i -> v <= b.

Lemma border_zero i : 0 < i -> border 0 i.
Proof. split; lia. Qed.

Lemma border_extend v i : border v i -> tok v = tok i -> border (v + 1) (i + 1).
Proof.
  intros [Hv H] E. split; [lia|]. intros j Hj. destruct (decide (j = v)) as [->|Hn].
  - by replace (i + 1 - (v + 1) + v) with i by lia.
  - rewrite H by lia. f_equal. lia.
Qed.

Lemma border_shrink v i : 0 <= v -> border (v + 1) (i + 1) -> border v i /\ tok v = tok i.
Proof.
  intros H0 [Hv H]. split.
  - split; [lia|]. intros j Hj. rewrite H by lia. f_equal. lia.
  - rewrite H by lia. f_equal. lia.
Qed.

Lemma border_of_border v w i : border v i -> border w i -> v < w -> border v w.
Proof.
  intros [Hv Ev] [Hw Ew] Hlt. split; [lia|]. intros j Hj. rewrite Ev, (Ew (w - v + j)) by lia. f_equal. lia.
Qed.

Lemma border_trans v w i : border v w -> border w i -> border v i.
Proof.
  intros [Hv Ev] [Hw Ew]. split; [lia|]. intros j Hj. rewrite Ev, (Ew (w - v + j)) by lia. f_equal. lia.
Qed.

Lemma py_get_tok j : 0 <= j < zlen t -> py_get t j = Ok (tok j).
Proof.
  unfold zlen, tok. intros Hj. rewrite py_get_nonneg by lia.
  by destruct (lookup_lt_is_Some_2 t (Z.to_nat j) ltac:(lia)) as [x Hx]; rewrite Hx, (list_lookup_total_correct _ _ _ Hx).
Qed.

(** ** The loop *)

Context (max_ngram : Z) (Hmax : 1 <= max_ngram).

Record search_ok (s : Search) : Prop := {
  so_index : 1 <= index s;
  so_prev : prev_lps s < max_ngram /\ border (prev_lps s) (index s);
  so_room : forall v, 1 <= v <= max_ngram -> border v (index s + 1) -> v - 1 <= prev_lps s;
  so_lps_len : zlen (lps s) = max_ngram;
  so_lps : forall j, 0 <= j < Z.min (index s) max_ngram -> exists b, lps s !! Z.to_nat j = Some b /\ greatest b (j + 1);
  so_rest : forall j, index s <= j < max_ngram -> lps s !! Z.to_nat j = Some 0;
  so_found : 0 <= longest_ngram s <= max_ngram /\ (0 < longest_ngram s -> 1 <= position s < index s /\ border (longest_ngram s) (position s + 1));
  so_best : forall v j, 1 <= v <= max_ngram -> j < index s -> border v (j + 1) ->
    v < longest_ngram s \/ (v = longest_ngram s /\ j <= position s);
}.

Lemma initial_ok : search_ok (initial_search max_ngram).
Proof.
  assert (forall j, 0 <= j < max_ngram -> lps (initial_search max_ngram) !! Z.to_nat j = Some 0) as Hz.
  { intros j Hj. cbn [initial_search lps]. apply lookup_replicate. split; [done|lia]. }
  split; cbn [initial_search lps longest_ngram position prev_lps index] in *.
  - lia.
  - split; [lia|]. by apply border_zero.
  - intros v Hv [H1 _]. lia.
  - unfold zlen. rewrite length_replicate. lia.
  - intros j Hj. exists 0. split; [apply Hz; lia|]. replace j with 0 by lia. split; [by apply border_zero|].
    intros v [Hv _]. lia.
  - intros j Hj. apply Hz. lia.
  - lia.
  - intros v j Hv Hj [H _]. lia.
Qed.

Lemma lps_get s j : search_ok s -> 0 <= j < Z.min (index s) max_ngram -> exists b, py_get (lps s) j = Ok b /\ greatest b (j + 1).
Proof.
  intros H Hj. destruct (so_lps s H j Hj) as (b & Hb & Hg). exists b. split; [|done].
  rewrite py_get_nonneg by lia. by rewrite Hb.
Qed.

(** What may extend after the longest prefix has been extended to [p]. *)
Lemma room_after s p q : search_ok s -> prev_lps s + 1 = p -> border p (index s + 1) ->
  (p < max_ngram -> q = p) -> (p = max_ngram -> greatest q max_ngram) ->
  forall v, 1 <= v <= max_ngram -> border v (index s + 1 + 1) -> v - 1 <= q.
Proof.
  intros H Hp Hb Hlt Heq v Hv Hbv. replace v with (v - 1 + 1) in Hbv by lia. destruct (border_shrink (v - 1) (index s + 1) ltac:(lia) Hbv) as [Hs _].
  destruct (decide (v = 1)) as [->|Hn].
  { destruct (so_prev s H) as [? [? _]]. destruct (decide (p = max_ngram)) as [E|E]; [destruct (Heq E) as [ [? _] _]; lia|rewrite Hlt; lia]. }
  pose proof (so_room s H (v - 1) ltac:(lia) Hs). destruct (decide (p = max_ngram)) as [E|E]; [|rewrite Hlt; destruct (so_prev s H); lia].
  apply Heq; [done|]. rewrite <- E. eapply border_of_border; [exact Hs|exact Hb|lia].
Qed.

(** The two tokens agree. *)
Lemma match_ok s : search_ok s -> tok (prev_lps s) = tok (index s) -> index s < zlen t ->
  exists s', search_body t max_ngram s = Ok s' /\ index s' = index s + 1 /\ prev_lps s' <= prev_lps s + 1 /\ search_ok s'.
Proof.
  intros H E Hlt. destruct (so_prev s H) as [Hp Hb]. pose proof Hb as [Hb0 _]. pose proof (so_index s H) as Hi.
  pose proof (border_extend _ _ Hb E) as Hx. set (p := prev_lps s + 1) in *.
  assert (greatest p (index s + 1) \/ max_ngram <= index s) as Hg.
  { destruct (decide (index s < max_ngram)) as [Hm|Hm]; [left|right; lia]. split; [done|]. intros v Hv.
    destruct (decide (1 <= v)) as [H1|H1]; [|destruct Hv as [? _]; lia]. pose proof (so_room s H v ltac:(destruct Hv as [? _]; lia) Hv). lia. }
  set (lps1 := if index s <? max_ngram then <[Z.to_nat (index s) := p]> (lps s) else lps s).
  assert (zlen lps1 = max_ngram) as Hlen.
  { subst lps1. rewrite <- (so_lps_len s H). unfold zlen. destruct (_ <? _); by rewrite ?length_insert. }
  assert (forall j, 0 <= j < Z.min (index s + 1) max_ngram -> exists b, lps1 !! Z.to_nat j = Some b /\ greatest b (j + 1)) as Hlps.
  { intros j Hj. subst lps1. destruct (Z.ltb_spec (index s) max_ngram) as [Hm|Hm].
    - destruct (decide (j = index s)) as [->|Hn].
      + exists p. split; [|destruct Hg as [Hg|?]; [exact Hg|lia] ]. rewrite list_lookup_insert_eq; [done|]. pose proof (so_lps_len s H) as Hz. unfold zlen in Hz. lia.
      + rewrite list_lookup_insert_ne by lia. apply (so_lps s H). lia.
    - apply (so_lps s H). lia. }
  assert (exists q, (if p =? max_ngram then py_get lps1 (max_ngram - 1) else Ok p) = Ok q
            /\ (p < max_ngram -> q = p) /\ (p = max_ngram -> greatest q max_ngram)) as (q & Rq & Hq1 & Hq2).
  { destruct (Z.eqb_spec p max_ngram) as [Hpm|Hpm]; [|by exists p].
    destruct (Hlps (max_ngram - 1) ltac:(lia)) as (b & Hb1 & Hb2). exists b. rewrite py_get_nonneg, Hb1 by lia.
    split; [done|]. split; [lia|]. intros _. by replace (max_ngram - 1 + 1) with max_ngram in Hb2 by lia. }
  assert (border q (index s + 1) /\ q < max_ngram) as [Hqb Hqm].
  { destruct (decide (p = max_ngram)) as [Hpm|Hpm]; [|rewrite Hq1 by lia; split; [done|lia] ].
    destruct (Hq2 Hpm) as [Hg' _]. split; [|by destruct Hg' as [? _]; lia]. eapply border_trans; [exact Hg'|by rewrite <- Hpm]. }
  eexists {| lps := lps1; longest_ngram := if longest_ngram s <=? p then p else longest_ngram s;
             position := if longest_ngram s <=? p then index s else position s; prev_lps := q; index := index s + 1 |}.
  split; [|split; [done|split] ].
  - unfold search_body. rewrite !py_get_tok by lia. cbn [mbind res_bind]. rewrite E, Z.eqb_refl. cbv zeta. fold p.
    assert ((if index s <? max_ngram then py_set (lps s) (index s) p else Ok (lps s)) = Ok lps1) as ->.
    { subst lps1. destruct (Z.ltb_spec (index s) max_ngram); [|done]. apply py_set_nonneg. rewrite (so_lps_len s H). lia. }
    destruct (longest_ngram s <=? p); cbn [mbind res_bind]; by rewrite Rq.
  - cbn [prev_lps]. destruct (decide (p = max_ngram)) as [Hpm|Hpm]; [lia|rewrite Hq1; lia].
  - split; cbn [lps longest_ngram position prev_lps index].
    + lia.
    + done.
    + intros v Hv Hbv. by apply (room_after s p q).
    + done.
    + done.
    + intros j Hj. subst lps1. destruct (_ <? _); [rewrite list_lookup_insert_ne by lia|]; apply (so_rest s H); lia.
    + destruct (so_found s H) as [F1 F2]. destruct (Z.leb_spec (longest_ngram s) p); [split; [lia|]; intros _; split; [lia|done]|].
      split; [done|]. intros Hpos. destruct (F2 Hpos). split; [lia|done].
    + intros v j Hv Hj Hbv. destruct (decide (j = index s)) as [->|Hn].
      * pose proof (so_room s H v Hv Hbv). destruct (Z.leb_spec (longest_ngram s) p); lia.
      * destruct (so_best s H v j Hv ltac:(lia) Hbv) as [?|[? ?]]; destruct (Z.leb_spec (longest_ngram s) p); lia.
Qed.

(** The two tokens differ. *)
Lemma mismatch_ok s : search_ok s -> tok (prev_lps s) ≠ tok (index s) -> index s < zlen t ->
  exists s', search_body t max_ngram s = Ok s' /\ search_ok s' /\ 2 * (zlen t - index s') + prev_lps s' < 2 * (zlen t - index s) + prev_lps s.
Proof.
  intros H E Hlt. destruct (so_prev s H) as [Hp Hb]. pose proof Hb as [Hb0 _]. pose proof (so_index s H) as Hi.
  assert (forall v, 1 <= v <= max_ngram -> border v (index s + 1) -> border (v - 1) (index s) /\ v - 1 < prev_lps s) as Hless.
  { intros v Hv Hbv. pose proof (so_room s H v Hv Hbv). replace v with (v - 1 + 1) in Hbv by lia.
    destruct (border_shrink (v - 1) _ ltac:(lia) Hbv) as [Hs Et]. split; [done|]. enough (v - 1 ≠ prev_lps s) by lia. congruence. }
  unfold search_body. rewrite !py_get_tok by lia. cbn [mbind res_bind]. rewrite (proj2 (Z.eqb_neq _ _) E).
  destruct (Z.eqb_spec (prev_lps s) 0) as [Hz|Hz]; cbn [negb].
  - eexists. split; [reflexivity|]. split; [|cbn; lia].
    assert (forall v, 1 <= v <= max_ngram -> border v (index s + 1) -> False) as Hnone.
    { intros v Hv Hbv. destruct (Hless v Hv Hbv). lia. }
    split; cbn [lps longest_ngram position prev_lps index].
    + lia.
    + split; [done|]. rewrite Hz. apply border_zero. lia.
    + intros v Hv Hbv. destruct (decide (v = 1)) as [->|Hn]; [lia|]. replace v with (v - 1 + 1) in Hbv by lia.
      destruct (border_shrink (v - 1) _ ltac:(lia) Hbv) as [Hs _]. destruct (Hnone (v - 1)); [lia|done].
    + apply (so_lps_len s H).
    + intros j Hj. destruct (decide (j = index s)) as [->|Hn]; [|apply (so_lps s H); lia].
      exists 0. split; [apply (so_rest s H); lia|]. split; [apply border_zero; lia|]. intros v Hbv.
      destruct (decide (1 <= v)) as [H1|H1]; [|lia]. destruct (Hnone v); [|done]. destruct Hbv as [? _]. lia.
    + intros j Hj. apply (so_rest s H). lia.
    + destruct (so_found s H) as [F1 F2]. split; [done|]. intros Hpos. destruct (F2 Hpos). split; [lia|done].
    + intros v j Hv Hj Hbv. destruct (decide (j = index s)) as [->|Hn]; [by destruct (Hnone v)|]. apply (so_best s H v j Hv); [lia|done].
  - destruct (lps_get s (prev_lps s - 1) H ltac:(lia)) as (b & Rb & Hg). rewrite Rb. cbn [mbind res_bind].
    replace (prev_lps s - 1 + 1) with (prev_lps s) in Hg by lia. destruct Hg as [Hbb Hgb]. eexists. split; [reflexivity|].
    pose proof Hbb as [? _]. split; [|cbn; lia]. split; cbn [lps longest_ngram position prev_lps index]; try apply H.
    + split; [lia|]. by eapply border_trans.
    + intros v Hv Hbv. destruct (Hless v Hv Hbv) as [Hs Hl]. apply Hgb. by eapply border_of_border.
Qed.

Lemma search_loop_ok fuel s : search_ok s -> index s <= zlen t -> 2 * (zlen t - index s) + prev_lps s < Z.of_nat fuel ->
  exists s', search_loop fuel t (zlen t) max_ngram s = Ok s' /\ search_ok s' /\ index s' = zlen t.
Proof.
  revert s. induction fuel as [|fuel IH]; intros s H Hi Hf.
  { destruct (so_prev s H) as [_ [? _]]. lia. }
  cbn [search_loop]. destruct (Z.ltb_spec (index s) (zlen t)) as [Hlt|Hge]; [|exists s; split; [done|]; split; [done|lia] ].
  destruct (decide (tok (prev_lps s) = tok (index s))) as [E|E].
  - destruct (match_ok s H E Hlt) as (s1 & R & Hi1 & Hp1 & H1). rewrite R. cbn [mbind res_bind]. apply IH; [done|lia|lia].
  - destruct (mismatch_ok s H E Hlt) as (s1 & R & H1 & Hd). rewrite R. cbn [mbind res_bind]. apply IH; [done| |lia].
    revert R. unfold search_body. rewrite !py_get_tok by (destruct (so_prev s H) as [? [? _]]; pose proof (so_index s H); lia). cbn [mbind res_bind].
    rewrite (proj2 (Z.eqb_neq _ _) E). destruct (negb _); [destruct (py_get _ _); [|done]|]; cbn [mbind res_bind]; intros [= <-]; cbn [index]; lia.
Qed.

Lemma search_found : 1 <= zlen t -> exists s,
  search_loop (2 * length t + 1) t (zlen t) max_ngram (initial_search max_ngram) = Ok s /\ search_ok s /\ index s = zlen t.
Proof. intros H. apply search_loop_ok; [apply initial_ok|done|]. cbn. unfold zlen. lia. Qed.

End borders.

(** ** The search finds what the reference finds *)

Lemma occurs_spec (t : list Z) (v q : nat) : (q + v <= length t)%nat ->
  occurs t v q = true <-> forall j, (j < v)%nat -> t !! (q + j)%nat = t !! (length t - v + j)%nat.
Proof.
  intros Hq. unfold occurs. rewrite bool_decide_eq_true. split.
  - intros E j Hj. rewrite <- !lookup_drop, <- E, lookup_take_lt by done. done.
  - intros E. apply list_eq. intros j. rewrite lookup_drop. destruct (decide (j < v)%nat) as [Hj|Hj].
    + rewrite lookup_take_lt, lookup_drop by done. by apply E.
    + rewrite !lookup_ge_None_2; [done|lia|rewrite length_take; lia].
Qed.

Lemma occurs_border (t : list Z) (v q : nat) : (q + v < length t)%nat ->
  occurs t v q = true <-> border (reverse t) (Z.of_nat v) (zlen t - Z.of_nat q).
Proof.
  intros Hq. rewrite occurs_spec by lia.
  assert (forall j, (j < length t)%nat -> exists x, t !! j = Some x /\ tok (reverse t) (zlen t - 1 - Z.of_nat j) = x) as Ht.
  { intros j Hj. destruct (lookup_lt_is_Some_2 t j Hj) as [x Hx]. exists x. split; [done|]. unfold tok. apply list_lookup_total_correct.
    rewrite reverse_lookup by (unfold zlen; lia). rewrite <- Hx. f_equal. unfold zlen. lia. }
  split.
  - intros E. split; [unfold zlen; lia|]. intros j Hj. pose proof (E (v - 1 - Z.to_nat j)%nat ltac:(lia)) as Ej.
    destruct (Ht (q + (v - 1 - Z.to_nat j))%nat ltac:(lia)) as (x & Hx & Tx). destruct (Ht (length t - v + (v - 1 - Z.to_nat j))%nat ltac:(lia)) as (y & Hy & Ty).
    rewrite Hx, Hy in Ej. injection Ej as ->. unfold zlen in *.
    replace (Z.of_nat (length t) - Z.of_nat q - Z.of_nat v + j) with (Z.of_nat (length t) - 1 - Z.of_nat (q + (v - 1 - Z.to_nat j))) by lia.
    rewrite Tx, <- Ty. f_equal. lia.
  - intros [_ E] j Hj. destruct (Ht (q + j)%nat ltac:(lia)) as (x & Hx & Tx). destruct (Ht (length t - v + j)%nat ltac:(lia)) as (y & Hy & Ty).
    rewrite Hx, Hy. f_equal. rewrite <- Tx, <- Ty. specialize (E (Z.of_nat (v - 1 - j)) ltac:(lia)). unfold zlen in *.
    replace (Z.of_nat (length t) - 1 - Z.of_nat (q + j)) with (Z.of_nat (length t) - Z.of_nat q - Z.of_nat v + Z.of_nat (v - 1 - j)) by lia.
    rewrite <- E. f_equal. lia.
Qed.

Lemma first_occurrence_spec (t : list Z) (v : nat) :
  match first_occurrence t v with
  | Some q => (q + v < length t)%nat /\ occurs t v q = true /\ forall q', (q' < q)%nat -> occurs t v q' = false
  | None => forall q, (q + v < length t)%nat -> occurs t v q = false
  end.
Proof.
  unfold first_occurrence. destruct (list_find _ _) as [ [i q]|] eqn:E; cbn.
  - apply list_find_Some in E as (Hi & Ho & Hfirst). apply lookup_seq in Hi as [Hq Hlt]. simpl in Hq. subst q.
    split; [lia|]. split; [done|]. intros q' Hq'. apply not_true_is_false. apply (Hfirst q' q'); [|done]. apply lookup_seq. lia.
  - apply list_find_None in E. rewrite Forall_forall in E. intros q Hq. apply not_true_is_false, E, elem_of_seq. lia.
Qed.

(** The longest repetition, and the first place of it. *)
Definition best_occurrence (t : list Z) (m v q : nat) : Prop :=
  (1 <= v <= m /\ q + v < length t)%nat /\ occurs t v q = true
  /\ forall v' q', (v <= v' <= m -> q' + v' < length t -> occurs t v' q' = true -> v' = v /\ q <= q')%nat.

Lemma longest_occurrence_spec (t : list Z) (m : nat) :
  match longest_occurrence t m with
  | Some (v, q) => best_occurrence t m v q
  | None => forall v q, (1 <= v <= m)%nat -> (q + v < length t)%nat -> occurs t v q = false
  end.
Proof.
  induction m as [|m IH]; cbn [longest_occurrence]; [intros; lia|].
  pose proof (first_occurrence_spec t (S m)) as Hf. destruct (first_occurrence t (S m)) as [q|].
  - destruct Hf as (Hq & Ho & Hfirst). split; [lia|]. split; [done|]. intros v' q' Hv' Hq' Ho'. assert (v' = S m) as -> by lia.
    split; [done|]. destruct (decide (q <= q')%nat); [done|]. rewrite Hfirst in Ho' by lia. done.
  - destruct (longest_occurrence t m) as [ [v q]|].
    + destruct IH as (Hv & Ho & Hbest). split; [lia|]. split; [done|]. intros v' q' Hv' Hq' Ho'.
      destruct (decide (v' = S m)) as [->|Hn]; [by rewrite Hf in Ho'|]. apply Hbest; [lia|done|done].
    + intros v q Hv Hq. destruct (decide (v = S m)) as [->|Hn]; [by apply Hf|]. apply IH; lia.
Qed.

Lemma best_unique t m v q v' q' : best_occurrence t m v q -> best_occurrence t m v' q' -> v = v' /\ q = q'.
Proof.
  intros (Hv & Ho & Hb) (Hv' & Ho' & Hb'). destruct (decide (v <= v')%nat).
  - destruct (Hb v' q') as [-> ?]; [lia|lia|done|]. destruct (Hb' v q) as [_ ?]; [lia|lia|done|]. lia.
  - destruct (Hb' v q) as [-> ?]; [lia|lia|done|]. destruct (Hb v' q') as [_ ?]; [lia|lia|done|]. lia.
Qed.

Lemma search_occurrence (t : list Z) max_ngram s : 1 <= max_ngram -> search_ok (reverse t) max_ngram s -> index s = zlen t ->
  match longest_occurrence t (Z.to_nat max_ngram) with
  | Some (v, q) => longest_ngram s = Z.of_nat v /\ zlen t - 1 - position s = Z.of_nat q
  | None => longest_ngram s = 0
  end.
Proof.
  intros Hm H Hi. destruct (so_found _ _ s H) as [F1 F2]. rewrite Hi in F2.
  assert (forall v q, (1 <= v <= Z.to_nat max_ngram)%nat -> (q + v < length t)%nat -> occurs t v q = true ->
    Z.of_nat v < longest_ngram s \/ (Z.of_nat v = longest_ngram s /\ zlen t - 1 - Z.of_nat q <= position s)) as Hb.
  { intros v q Hv Hq Ho. apply occurs_border in Ho; [|done]. apply (so_best _ _ s H (Z.of_nat v)); [lia|rewrite Hi; lia|].
    by replace (zlen t - 1 - Z.of_nat q + 1) with (zlen t - Z.of_nat q) by lia. }
  pose proof (longest_occurrence_spec t (Z.to_nat max_ngram)) as Hl.
  destruct (decide (0 < longest_ngram s)) as [Hp|Hp].
  - destruct (F2 Hp) as [ [P1 P2] Hbd]. pose proof Hbd as [ [_ B2] _].
    assert (best_occurrence t (Z.to_nat max_ngram) (Z.to_nat (longest_ngram s)) (Z.to_nat (zlen t - 1 - position s))) as Hbest.
    { split; [unfold zlen in *; lia|]. split.
      - apply occurs_border; [unfold zlen in *; lia|]. rewrite !Z2Nat.id by lia. by replace (zlen t - _) with (position s + 1) by lia.
      - intros v' q' Hv' Hq' Ho'. destruct (Hb v' q'); [lia|done|done|lia|lia]. }
    destruct (longest_occurrence t _) as [ [v q]|].
    + destruct (best_unique _ _ _ _ _ _ Hbest Hl) as [<- <-]. lia.
    + destruct Hbest as (Hv & Ho & _). rewrite Hl in Ho by lia. done.
  - destruct (longest_occurrence t _) as [ [v q]|]; [|lia]. destruct Hl as (Hv & Ho & _). destruct (Hb v q); [lia|lia|done|lia|lia].
Qed.

Lemma find_ngram_ok (t : list Z) min_ngram max_ngram model_len k : 1 <= min_ngram <= max_ngram ->
  find_longest_matched_ngram_and_propose_tokens t min_ngram max_ngram model_len k = Ok (draft_reference t min_ngram max_ngram model_len k).
Proof.
  intros Hn. unfold find_longest_matched_ngram_and_propose_tokens, draft_reference. cbv zeta.
  pose proof (longest_occurrence_spec t (Z.to_nat max_ngram)) as Hl.
  destruct (Z.ltb_spec (zlen t) min_ngram) as [Hs|Hs].
  { destruct (longest_occurrence t _) as [ [v q]|]; [|done]. destruct Hl as [Hv _]. unfold zlen in *. by rewrite (proj2 (Z.leb_gt _ _)) by lia. }
  destruct (Z.leb_spec (Z.min k (model_len - zlen t)) 0) as [Hk|Hk].
  { destruct (longest_occurrence t _) as [ [v q]|]; [|done]. destruct (_ <=? _); [|done]. by replace (Z.to_nat _) with 0%nat by lia. }
  destruct (search_found (reverse t) max_ngram ltac:(lia)) as (s & R & Hok & Hi).
  { unfold zlen in *. rewrite length_reverse. lia. }
  assert (zlen (reverse t) = zlen t) as Hz by (unfold zlen; by rewrite length_reverse).
  rewrite Hz in R, Hi. rewrite length_reverse in R. rewrite R. cbn [mbind res_bind].
  pose proof (search_occurrence t max_ngram s ltac:(lia) Hok Hi) as Hso.
  destruct (longest_occurrence t _) as [ [v q]|]; [|by rewrite (proj2 (Z.ltb_lt _ _)) by lia].
  destruct Hso as [-> Hq]. destruct Hl as [ [Hv Hq'] _]. destruct (Z.ltb_spec (Z.of_nat v) min_ngram); [by rewrite (proj2 (Z.leb_gt _ _)) by lia|].
  rewrite (proj2 (Z.leb_le _ _)) by lia. rewrite Hq. f_equal. unfold zlen in *.
  rewrite py_slice_nonneg by (unfold zlen; lia). replace (Z.to_nat (Z.of_nat q + Z.of_nat v)) with (q + v)%nat by lia.
  rewrite <- (Nat2Z.inj_add q v). destruct (decide (Z.min k (model_len - Z.of_nat (length t)) <= Z.of_nat (length t) - Z.of_nat (q + v))) as [Hle|Hgt].
  - f_equal. lia.
  - rewrite !take_ge; [done|rewrite length_drop; lia|rewrite length_drop; lia].
Qed.


(** ** The batch *)

(** The buffers have a row for each of [m] requests, with room for [k] tokens. *)
Record proposer_ok (m : nat) (p : NgramProposer) : Prop := {
  po_range : 1 <= min_n p <= max_n p;
  po_counts : length (valid_ngram_num_drafts p) = m;
  po_drafts : length (valid_ngram_draft p) = m;
  po_rows : Forall (fun row => length row = Z.to_nat (k p)) (valid_ngram_draft p);
}.

(** A call changes the buffers only. *)
Definition same_proposer (p p' : NgramProposer) : Prop :=
  min_n p' = min_n p /\ max_n p' = max_n p /\ k p' = k p /\ max_model_len p' = max_model_len p.

#[export] Instance same_proposer_preorder : PreOrder same_proposer.
Proof. split; [by split|]. intros p p1 p2 (A & B & C & D) (A' & B' & C' & D'). unfold same_proposer. repeat split; congruence. Qed.

(** The buffers hold the draft [d] of request [i]. *)
Definition holds_draft (p : NgramProposer) (i : Z) (d : list Z) : Prop :=
  py_get (valid_ngram_num_drafts p) i = Ok (zlen d)
  /\ (d ≠ [] -> exists row, py_get (valid_ngram_draft p) i = Ok row /\ take (length d) row = d).

Lemma length_draft t min_ngram max_ngram model_len n : (length (draft_reference t min_ngram max_ngram model_len n) <= Z.to_nat n)%nat.
Proof.
  unfold draft_reference. destruct (longest_occurrence _ _) as [ [v q]|]; [|simpl; lia].
  destruct (_ <=? _); [|simpl; lia]. rewrite length_take. lia.
Qed.

Lemma assign_upto_ok (row values : list Z) : (length values <= length row)%nat ->
  exists row', np_assign row 0 (zlen values) values = Ok row' /\ length row' = length row /\ take (length values) row' = values.
Proof.
  intros H. eexists. split; [apply (np_assign_ok row 0); unfold zlen; lia|]. simpl.
  rewrite length_app, length_drop. split; [lia|]. by rewrite take_app_length.
Qed.

Lemma py_get_set {A} (l l' : list A) i j x : py_set l i x = Ok l' -> 0 <= i -> 0 <= j ->
  py_get l' j = if decide (j = i) then Ok x else py_get l j.
Proof.
  intros H Hi Hj. unfold py_set in H. destruct (_ || _) eqn:Hb; [done|]. injection H as <-. unfold py_index in *.
  replace (i <? 0) with false in * by lia. rewrite !py_get_nonneg by done. case_decide as Hd.
  - subst. rewrite list_lookup_insert_eq by lia. done.
  - by rewrite list_lookup_insert_ne by lia.
Qed.

Lemma py_get_ok {A} (l : list A) i x : 0 <= i -> l !! Z.to_nat i = Some x -> py_get l i = Ok x.
Proof. intros Hi Hx. by rewrite py_get_nonneg, Hx by done. Qed.

Section batch.
Context (m : nat) (num_tokens : list Z) (token_ids : list (list Z)).

Definition draft_of (p : NgramProposer) (i : Z) : list Z :=
  draft_reference (py_upto (token_ids !!! Z.to_nat i) (num_tokens !!! Z.to_nat i)) (min_n p) (max_n p) (max_model_len p) (k p).

Lemma draft_of_same p p' i : same_proposer p p' -> draft_of p' i = draft_of p i.
Proof. intros (A & B & C & D). unfold draft_of. by rewrite A, B, C, D. Qed.

Lemma propose_one_ok p i : proposer_ok m p -> 0 <= i < Z.of_nat m -> i < zlen num_tokens -> i < zlen token_ids ->
  exists p', propose_one num_tokens token_ids i p = (Ok tt, p') /\ proposer_ok m p' /\ same_proposer p p' /\ holds_draft p' i (draft_of p i)
    /\ forall j d, 0 <= j -> j ≠ i -> holds_draft p j d -> holds_draft p' j d.
Proof.
  intros H Hi Hn Ht. assert (0 <= i) as Hi0 by lia. unfold zlen in Hn, Ht.
  destruct (lookup_lt_is_Some_2 num_tokens (Z.to_nat i) ltac:(lia)) as [n Hnn].
  destruct (lookup_lt_is_Some_2 token_ids (Z.to_nat i) ltac:(lia)) as [row Hrow].
  destruct (lookup_lt_is_Some_2 (valid_ngram_draft p) (Z.to_nat i) ltac:(rewrite (po_drafts m p H); lia)) as [old Hold].
  assert (draft_of p i = draft_reference (py_upto row n) (min_n p) (max_n p) (max_model_len p) (k p)) as Ed.
  { unfold draft_of. by rewrite (list_lookup_total_correct _ _ _ Hnn), (list_lookup_total_correct _ _ _ Hrow). }
  pose proof (length_draft (py_upto row n) (min_n p) (max_n p) (max_model_len p) (k p)) as Hlen. rewrite <- Ed in Hlen.
  pose proof (Forall_lookup_1 _ _ _ _ (po_rows m p H) Hold) as Hol. cbn beta in Hol.
  assert (forall x, py_set (valid_ngram_num_drafts p) i x = Ok (<[Z.to_nat i := x]> (valid_ngram_num_drafts p))) as Sc.
  { intros x. apply py_set_nonneg. unfold zlen. rewrite (po_counts m p H). lia. }
  assert (forall x, py_set (valid_ngram_draft p) i x = Ok (<[Z.to_nat i := x]> (valid_ngram_draft p))) as Sd.
  { intros x. apply py_set_nonneg. unfold zlen. rewrite (po_drafts m p H). lia. }
  assert (forall A (l : list A) x y j, py_set l i x = Ok (<[Z.to_nat i := x]> l) -> 0 <= j -> j ≠ i -> py_get l j = Ok y -> py_get (<[Z.to_nat i := x]> l) j = Ok y) as Hother.
  { intros A l x y j S Hj Hne Hg. rewrite (py_get_set _ _ _ j _ S) by lia. by rewrite decide_False. }
  unfold propose_one. rewrite (py_get_ok _ i _ Hi0 Hnn), (py_get_ok _ i _ Hi0 Hrow). msteps. cbv zeta.
  rewrite (find_ngram_ok _ _ _ _ _ (po_range m p H)), <- Ed. msteps. rewrite Sc. msteps. destruct (decide (draft_of p i = [])) as [E|E].
  - rewrite bool_decide_eq_true_2 by done. eexists. split; [reflexivity|]. split; [|split; [done|split] ].
    + split; cbn; try apply H. rewrite length_insert. apply H.
    + split; cbn; [|by rewrite E]. rewrite (py_get_set _ _ _ i _ (Sc _)) by lia. by rewrite decide_True.
    + intros j d Hj Hne [G1 G2]. split; [|done]. by apply Hother.
  - rewrite bool_decide_eq_false_2 by done. destruct (assign_upto_ok old (draft_of p i) ltac:(lia)) as (new & Ra & Hl & Htk).
    cbn [negb]. rewrite (py_get_ok _ i _ Hi0 Hold). msteps. rewrite Ra. msteps. rewrite Sd. msteps. eexists. split; [reflexivity|].
    split; [|split; [done|split] ].
    + split; cbn; rewrite ?length_insert; try apply H. apply Forall_insert; [apply H|]. cbn. congruence.
    + split; cbn; [rewrite (py_get_set _ _ _ i _ (Sc _)) by lia; by rewrite decide_True|]. intros _. exists new. split; [|done].
      rewrite (py_get_set _ _ _ i _ (Sd _)) by lia. by rewrite decide_True.
    + intros j d Hj Hne [G1 G2]. split; [by apply Hother|]. intros Hd. destruct (G2 Hd) as (r & Gr & ?). exists r. split; [|done]. by apply Hother.
Qed.

Lemma batch_numba_ok p l : proposer_ok m p -> (forall i, i ∈ l -> 0 <= i < Z.of_nat m /\ i < zlen num_tokens /\ i < zlen token_ids) ->
  exists p', batch_propose_numba l num_tokens token_ids p = (Ok tt, p') /\ proposer_ok m p' /\ same_proposer p p'
    /\ forall i, i ∈ l -> holds_draft p' i (draft_of p i).
Proof.
  intros H Hl. apply (mfor_ok _ (fun ds p' => proposer_ok m p' /\ same_proposer p p' /\ forall i, i ∈ ds -> holds_draft p' i (draft_of p i))).
  - intros ds i rest p1 -> (H1 & Hs & Hd). destruct (Hl i ltac:(set_solver)) as (Hi & Hn & Ht).
    destruct (propose_one_ok p1 i H1 Hi Hn Ht) as (p2 & R & H2 & Hs2 & Hnew & Hold). exists p2. split; [done|]. split; [done|].
    split; [by transitivity p1|]. rewrite (draft_of_same _ _ _ Hs) in Hnew. intros j Hj. destruct (decide (j = i)) as [->|Hne]; [done|].
    apply Hold; [|done|apply Hd; set_solver]. destruct (Hl j ltac:(set_solver)). lia.
  - split; [done|]. split; [done|]. intros i. by rewrite elem_of_nil.
Qed.

Lemma needing_drafts_ok model_len sampled o : 0 <= o -> o + zlen sampled <= zlen num_tokens ->
  exists l, needing_drafts model_len o sampled num_tokens = Ok l /\
    forall j, j ∈ l <-> o <= j /\ exists ids n, sampled !! Z.to_nat (j - o) = Some ids /\ ids ≠ [] /\ num_tokens !! Z.to_nat j = Some n /\ n < model_len.
Proof.
  revert o. induction sampled as [|ids rest IH]; intros o Ho Hlen.
  - exists []. split; [done|]. intros j. rewrite elem_of_nil. split; [done|]. by intros (_ & ? & ? & ? & _).
  - rewrite zlen_cons in Hlen. destruct (IH (o + 1)) as (l & R & Hl); [lia|lia|].
    destruct (lookup_lt_is_Some_2 num_tokens (Z.to_nat o)) as [n Hn]; [pose proof (zlen_nonneg rest); unfold zlen in *; lia|].
    assert (forall j, j ∈ l <-> o < j /\ exists ids' n', (ids :: rest) !! Z.to_nat (j - o) = Some ids' /\ ids' ≠ [] /\ num_tokens !! Z.to_nat j = Some n' /\ n' < model_len) as Hl'.
    { intros j. rewrite Hl. split; intros [Hj Hx]; (split; [lia|]); revert Hx; by replace (Z.to_nat (j - o)) with (S (Z.to_nat (j - (o + 1)))) by lia. }
    cbn [needing_drafts]. destruct (Z.eqb_spec (zlen ids) 0) as [Hz|Hz].
    + exists l. split; [done|]. assert (ids = []) as -> by (destruct ids; [done|rewrite zlen_cons in Hz; pose proof (zlen_nonneg ids); lia]).
      intros j. rewrite Hl'. split; [intros [? ?]; split; [lia|done]|]. intros [Hj Hx]. split; [|done].
      destruct (decide (j = o)) as [->|]; [|lia]. destruct Hx as (ids & n' & Hi & Hne & _). rewrite Z.sub_diag in Hi. by injection Hi as <-.
    + rewrite (py_get_ok _ _ _ Ho Hn), R. cbn [mbind res_bind]. eexists. split; [reflexivity|]. intros j.
      assert (o <= j <-> j = o \/ o < j) as Hcase by lia. destruct (Z.leb_spec model_len n) as [Hm|Hm]; rewrite ?elem_of_cons, Hl', Hcase.
      * split; [intros [? ?]; split; [lia|done]|]. intros [[->|Hj] Hx]; [|done]. destruct Hx as (ids' & n' & _ & _ & Hn' & Hlt). simplify_eq. lia.
      * split; [|naive_solver]. intros [->|[? ?]]; [|by split; [right|] ]. split; [by left|]. exists ids, n. rewrite Z.sub_diag. split; [done|].
        split; [|done]. intros ->. done.
Qed.

Lemma collect_draft_ok p l i d : holds_draft p i d -> i ∈ l -> collect_draft l p i = Ok d.
Proof.
  intros [G1 G2] Hi. unfold collect_draft. rewrite bool_decide_eq_true_2, G1 by done. cbn [mbind res_bind].
  destruct d as [|x d]; [done|]. destruct (G2 ltac:(done)) as (row & Gr & Ht). rewrite Gr. cbn [mbind res_bind].
  rewrite (proj2 (Z.ltb_lt _ _)) by (rewrite zlen_cons; pose proof (zlen_nonneg d); lia). rewrite py_upto_nonneg by apply zlen_nonneg.
  unfold zlen. by rewrite Nat2Z.id, Ht.
Qed.

Lemma collect_all (f : NgramProposer -> Z -> res (list Z)) (g : Z -> list Z) (l : list Z) (p : NgramProposer) : (forall i, i ∈ l -> f p i = Ok (g i)) ->
  mmapM l (fun i p => (f p i, p)) p = (Ok (g <$> l), p).
Proof.
  intros H. induction l as [|i l IH]; [done|]. cbn [mmapM]. rewrite (bind_ok _ _ _ (g i) p) by (by rewrite H by (by left)).
  rewrite (bind_ok _ _ _ _ _ (IH ltac:(intros; apply H; by right))). done.
Qed.

End batch.

(** C24: Prompt-lookup drafting is right.  For every batch of token rows [propose]
    returns one draft for each request: nothing when it sampled no token or is at
    the model length, and otherwise what followed the first earlier occurrence of
    the longest n-gram ([min_n] to [max_n] tokens) that ends its tokens, at most
    [k] tokens and none beyond the model length.  The linear-time search is equal
    to trying all lengths and places, whatever earlier calls left in the buffers. *)
Theorem propose_correct (m : nat) (p : NgramProposer) (sampled : list (list Z)) (num_tokens : list Z) (token_ids : list (list Z))
  (Hok : proposer_ok m p) (Hm : zlen sampled <= Z.of_nat m) (Hn : zlen sampled <= zlen num_tokens) (Ht : zlen sampled <= zlen token_ids) :
  exists drafts p', propose sampled num_tokens token_ids p = (Ok drafts, p') /\ proposer_ok m p' /\ same_proposer p p'
    /\ length drafts = length sampled
    /\ forall i ids n row, sampled !! i = Some ids -> num_tokens !! i = Some n -> token_ids !! i = Some row ->
         drafts !! i = Some (if decide (ids = [] \/ max_model_len p <= n) then []
                             else draft_reference (py_upto row n) (min_n p) (max_n p) (max_model_len p) (k p)).
Proof.
  destruct (needing_drafts_ok num_tokens (max_model_len p) sampled 0) as (l & Rl & Hl); [lia|lia|].
  assert (forall i, i ∈ l -> 0 <= i < zlen sampled) as Hin.
  { intros i (H0 & ids & n & Hi & _)%Hl. apply lookup_lt_Some in Hi. unfold zlen. lia. }
  destruct (batch_numba_ok m num_tokens token_ids p l Hok) as (p' & Rb & Hok' & Hs & Hd).
  { intros i Hi%Hin. lia. }
  assert ((if 0 <? zlen l then batch_propose_numba l num_tokens token_ids else mret tt) p = (Ok tt, p') \/ l = []) as Rif.
  { destruct l; [by right|left]. by rewrite zlen_cons, (proj2 (Z.ltb_lt _ _)) by (pose proof (zlen_nonneg l); lia). }
  set (g := fun i => if decide (i ∈ l) then draft_of num_tokens token_ids p i else []).
  assert (exists p1, propose sampled num_tokens token_ids p = (Ok (g <$> py_range 0 (zlen sampled)), p1) /\ proposer_ok m p1 /\ same_proposer p p1) as (p1 & R & Ho1 & Hs1).
  { unfold propose, batch_propose. rewrite Rl. msteps. destruct Rif as [Rif|E0].
    - rewrite (bind_ok _ _ _ _ _ Rif). exists p'. split; [|done]. apply (collect_all (collect_draft _)). intros i _. unfold g. case_decide as Hi.
      + apply collect_draft_ok; [by apply Hd|done].
      + unfold collect_draft. by rewrite bool_decide_eq_false_2.
    - exists p. split; [|done]. rewrite E0. cbn [zlen]. apply (collect_all (collect_draft _)). intros i _. unfold g, collect_draft.
      rewrite bool_decide_eq_false_2, decide_False by (rewrite ?E0; apply not_elem_of_nil). done. }
  exists (g <$> py_range 0 (zlen sampled)), p1. split; [exact R|]. split; [exact Ho1|]. split; [exact Hs1|].
  unfold py_range, zlen. rewrite Z.sub_0_r, Nat2Z.id. split; [by rewrite !length_fmap, length_seq|].
  intros i ids n row Hi Hni Hri. pose proof (lookup_lt_Some _ _ _ Hi).
  rewrite !list_lookup_fmap, lookup_seq_lt by done. cbn. f_equal. unfold g. rewrite Z.add_0_l.
  assert (Z.of_nat i ∈ l <-> ids ≠ [] /\ n < max_model_len p) as Hmem.
  { rewrite Hl, Z.sub_0_r, Nat2Z.id. split; [|intros []; split; [lia|by exists ids, n] ]. intros (_ & ids' & n' & Hi' & ? & Hn' & ?). by simplify_eq. }
  destruct (decide (Z.of_nat i ∈ l)) as [Hy|Hno].
  - rewrite decide_False by (apply Hmem in Hy as [Hy1 Hy2]; intros [?|?]; [done|lia]). unfold draft_of.
    by rewrite Nat2Z.id, (list_lookup_total_correct _ _ _ Hni), (list_lookup_total_correct _ _ _ Hri).
  - rewrite decide_True; [done|]. destruct (decide (ids = [])); [by left|]. right. rewrite Hmem in Hno. destruct (Z.lt_ge_cases n (max_model_len p)); [by destruct Hno|done].
Qed.

Lemma init_proposer_ok lo hi n model_len seqs : 1 <= lo <= hi -> proposer_ok (Z.to_nat seqs) (init lo hi n model_len seqs).
Proof.
  intros H. split; cbn; [done|by rewrite length_replicate|by rewrite length_replicate|]. apply Forall_replicate. by rewrite length_replicate.
Qed.

Lemma propose_correct_witness : let p := init 2 3 4 20 3 in
  exists drafts p', propose [ [2]; []; [3] ] [7; 5; 4] [ [1; 2; 3; 4; 5; 1; 2; 0]; [1; 1; 1; 1; 1]; [4; 3; 4; 3] ] p = (Ok drafts, p')
    /\ drafts = [ [3; 4; 5; 1]; []; [4; 3] ] /\ proposer_ok 3 p'.
Proof.
  intros p. destruct (propose_correct 3 p [ [2]; []; [3] ] [7; 5; 4] [ [1; 2; 3; 4; 5; 1; 2; 0]; [1; 1; 1; 1; 1]; [4; 3; 4; 3] ]) as (d & p' & R & Hok & _ & Hlen & Hd).
  - apply (init_proposer_ok 2 3 4 20 3). lia.
  - done.
  - done.
  - done.
  - exists d, p'. split; [exact R|]. split; [|exact Hok]. apply list_eq_same_length with (n := 3%nat); [done|exact Hlen|].
    intros i x y Hi Hx Hy. destruct i as [|[|[|i] ] ]; [| | |lia];
      (erewrite Hd in Hx by reflexivity); vm_compute in Hx, Hy; congruence.
Defined.

End NgramFacts.
