(* ===== verification/BlockTable.v ===== *)
(** The worker's block table: [v1/worker/block_table.py].

    For every request of the batch a row lists the blocks of its key/value cache; a
    kernel turns the position of each token into the slot where its key and value are
    stored.  NumPy rows are lists of fixed length, with the C integers of
    [block_table] written out.  The GPU's copy is a flat memory, as the kernel sees
    it; a load outside of it is the exception [IndexError].

    The lanes of the Triton kernel that its mask switches off are not computed: they
    load the first entry of the row and store nothing.  Triton divides integers with
    truncation. *)

From S2P Require Import Prelude.
Local Open Scope Z_scope.

(** [PAD_SLOT_ID] of [v1/attention/backends/utils.py]. *)
Definition PAD_SLOT_ID : Z := -1.

(** The position of this worker in its two context-parallel groups. *)
Record ContextParallel := {
  pcp_world_size : Z;
  pcp_rank : Z;
  dcp_world_size : Z;
  dcp_rank : Z;
}.

(** [get_total_cp_world_size] *)
Definition get_total_cp_world_size (cp : ContextParallel) : Z := dcp_world_size cp * pcp_world_size cp.

Record BlockTable := {
  max_num_reqs : Z;
  max_num_batched_tokens : Z;
  block_size : Z;
  blocks_per_kv_block : Z;
  use_hybrid_blocks : bool;
  max_num_blocks_per_req : Z;
  (** [block_table.np] (the memory of [block_table.cpu]) and [block_table.gpu] *)
  table : list (list Z);
  table_gpu : list (list Z);
  num_blocks_per_row : list Z;
  (** [slot_mapping.gpu] *)
  slot_mapping : list Z;
  cp_group : ContextParallel;
  cp_kv_cache_interleave_size : Z;
}.

Module Table.

(** [__init__] *)
Definition init (cp : ContextParallel) (kv_block_size max_reqs max_blocks max_tokens kernel_block_size interleave : Z) : res BlockTable :=
  let same := kernel_block_size =? kv_block_size in
  if negb same && (kernel_block_size =? 0) then Raise ZeroDivisionError
  else if negb same && negb (kv_block_size mod kernel_block_size =? 0) then Raise ValueError
  else
    let split := if same then 1 else kv_block_size / kernel_block_size in
    let width := max_blocks * split in
    let zeros := replicate (Z.to_nat max_reqs) (replicate (Z.to_nat width) 0) in
    Ok {| max_num_reqs := max_reqs; max_num_batched_tokens := max_tokens;
          block_size := if same then kv_block_size else kernel_block_size;
          blocks_per_kv_block := split; use_hybrid_blocks := negb same; max_num_blocks_per_req := width;
          table := zeros; table_gpu := zeros; num_blocks_per_row := replicate (Z.to_nat max_reqs) 0;
          slot_mapping := replicate (Z.to_nat max_tokens) 0; cp_group := cp; cp_kv_cache_interleave_size := interleave |}.

(** [map_to_kernel_blocks] *)
Definition map_to_kernel_blocks (kv_manager_block_ids : list Z) (blocks_per_kv_block : Z) (kernel_block_arange : list Z) : list Z :=
  if blocks_per_kv_block =? 1 then kv_manager_block_ids
  else kv_manager_block_ids ≫= fun id => (fun j => id * blocks_per_kv_block + j) <$> kernel_block_arange.

Abbreviation TM := (M BlockTable).

(** Reading and writing one row of [block_table.np]. *)
Definition get_row (i : Z) : TM (list Z) := fun t => (py_get (table t) i, t).
Definition put_row (i : Z) (row : list Z) : TM unit :=
  t ← gets id; rows ← lift_res (py_set (table t) i row);
  modify (fun t => {| t with table := rows |}).
Definition get_num_blocks (i : Z) : TM Z := fun t => (py_get (num_blocks_per_row t) i, t).
Definition put_num_blocks (i n : Z) : TM unit :=
  t ← gets id; counts ← lift_res (py_set (num_blocks_per_row t) i n);
  modify (fun t => {| t with num_blocks_per_row := counts |}).

(** Python integers that do not fit into an [int32] array are refused. *)
Definition is_int32 (z : Z) : bool := (- 2 ^ 31 <=? z) && (z <? 2 ^ 31).

(** The values as they are stored: an [int64] array is converted, a list is checked. *)
Definition as_int32 (from_array : bool) (ids : list Z) : res (list Z) :=
  if from_array then Ok (wrap 32 <$> ids)
  else if forallb is_int32 ids then Ok ids else Raise OverflowError.

(** [append_row] *)
Definition append_row (block_ids : list Z) (row_idx : Z) : TM unit :=
  match block_ids with
  | [] => mret tt
  | _ =>
      t ← gets id;
      let block_ids := if use_hybrid_blocks t
        then map_to_kernel_blocks block_ids (blocks_per_kv_block t) (py_range 0 (blocks_per_kv_block t)) else block_ids in
      let num_blocks := zlen block_ids in
      start ← get_num_blocks row_idx;
      put_num_blocks row_idx (start + num_blocks) ;;
      row ← get_row row_idx;
      values ← lift_res (as_int32 (use_hybrid_blocks t) block_ids);
      row ← lift_res (np_assign row start (start + num_blocks) values);
      put_row row_idx row
  end.

(** [add_row] *)
Definition add_row (block_ids : list Z) (row_idx : Z) : TM unit :=
  put_num_blocks row_idx 0 ;; append_row block_ids row_idx.

(** [clear_row] *)
Definition clear_row (row_idx : Z) : TM unit :=
  num_blocks ← get_num_blocks row_idx;
  (if 0 <? num_blocks then
     row ← get_row row_idx; row ← lift_res (np_assign row 0 num_blocks [0]); put_row row_idx row
   else mret tt) ;;
  put_num_blocks row_idx 0.

(** [move_row] *)
Definition move_row (src tgt : Z) : TM unit :=
  num_blocks ← get_num_blocks src;
  source ← get_row src;
  target ← get_row tgt;
  row ← lift_res (np_assign target 0 num_blocks (py_upto source num_blocks));
  put_row tgt row ;;
  put_num_blocks tgt num_blocks.

(** [swap_row]: assignments through an index array read everything first. *)
Definition swap_row (src tgt : Z) : TM unit :=
  n_src ← get_num_blocks src; n_tgt ← get_num_blocks tgt;
  put_num_blocks src n_tgt ;; put_num_blocks tgt n_src ;;
  row_src ← get_row src; row_tgt ← get_row tgt;
  put_row src row_tgt ;; put_row tgt row_src.

(** [commit_block_table] *)
Definition commit_block_table (num_reqs : Z) : TM unit :=
  modify (fun t => {| t with table_gpu := py_upto (table t) num_reqs ++ py_from (table_gpu t) num_reqs |}).

(** [clear]: the numbers of blocks stay. *)
Definition clear : TM unit :=
  modify (fun t => {| t with table := (fun row => replicate (length row) 0) <$> table t;
                            table_gpu := (fun row => replicate (length row) 0) <$> table_gpu t |}).

(** ** The kernel *)

(** [range(a, b, step)] for a positive step. *)
Definition py_range_by (a b step : Z) : list Z := (fun i => a + i * step) <$> py_range 0 (cdiv (b - a) step).

(** [tl.load] *)
Definition tl_load (memory : list Z) (offset : Z) : res Z :=
  if offset <? 0 then Raise IndexError else res_of_option IndexError (memory !! Z.to_nat offset).

(** [tl.store] *)
Definition tl_store (offset value : Z) : M (list Z) unit := fun memory =>
  if (0 <=? offset) && (offset <? zlen memory) then (Ok tt, <[Z.to_nat offset := value]> memory) else (Raise IndexError, memory).

Record KernelArgs := {
  ka_num_tokens : Z;
  ka_max_num_tokens : Z;
  ka_query_start_loc : list Z;
  ka_positions : list Z;
  ka_block_table : list Z;
  ka_block_table_stride : Z;
  ka_block_size : Z;
  TOTAL_CP_WORLD_SIZE : Z;
  TOTAL_CP_RANK : Z;
  CP_KV_CACHE_INTERLEAVE_SIZE : Z;
  PAD_ID : Z;
  BLOCK_SIZE : Z;
}.

(** The slot of a token at position [pos], in the block [block_number] of its row. *)
Definition slot_id (a : KernelArgs) (pos block_number : Z) : Z :=
  let virtual_block_size := ka_block_size a * TOTAL_CP_WORLD_SIZE a in
  let block_indices := pos ÷ virtual_block_size in
  let virtual_block_offsets := pos - block_indices * virtual_block_size in
  let is_local := Z.rem (virtual_block_offsets ÷ CP_KV_CACHE_INTERLEAVE_SIZE a) (TOTAL_CP_WORLD_SIZE a) =? TOTAL_CP_RANK a in
  let local_block_offsets :=
    virtual_block_offsets ÷ (TOTAL_CP_WORLD_SIZE a * CP_KV_CACHE_INTERLEAVE_SIZE a) * CP_KV_CACHE_INTERLEAVE_SIZE a
    + Z.rem virtual_block_offsets (CP_KV_CACHE_INTERLEAVE_SIZE a) in
  if is_local then block_number * ka_block_size a + local_block_offsets else PAD_ID a.

(** One program of [_compute_slot_mapping_kernel]; the last one pads. *)
Definition compute_slot_mapping_kernel (a : KernelArgs) (num_programs req_idx : Z) : M (list Z) unit :=
  if req_idx =? num_programs - 1 then
    mfor (py_range_by (ka_num_tokens a) (ka_max_num_tokens a) (BLOCK_SIZE a)) (fun i =>
      mfor (py_range i (i + BLOCK_SIZE a)) (fun offset =>
        if offset <? ka_max_num_tokens a
        then tl_store offset (PAD_ID a)
        else mret tt))
  else
    start_idx ← lift_res (tl_load (ka_query_start_loc a) req_idx);
    end_idx ← lift_res (tl_load (ka_query_start_loc a) (req_idx + 1));
    let row_offset := req_idx * ka_block_table_stride a in
    mfor (py_range_by start_idx end_idx (BLOCK_SIZE a)) (fun i =>
      mfor (py_range i (i + BLOCK_SIZE a)) (fun offset =>
        if offset <? end_idx then
          pos ← lift_res (tl_load (ka_positions a) offset);
          block_number ← lift_res (tl_load (ka_block_table a) (row_offset + pos ÷ (ka_block_size a * TOTAL_CP_WORLD_SIZE a)));
          tl_store offset (slot_id a pos block_number)
        else mret tt)).

(** [compute_slot_mapping]; the GPU runs the programs in the order [launch]. *)
Definition compute_slot_mapping (launch : list Z -> list Z) (num_reqs : Z) (query_start_loc positions : list Z) : TM unit :=
  t ← gets id;
  let cp := cp_group t in
  let args := {| ka_num_tokens := zlen positions; ka_max_num_tokens := max_num_batched_tokens t;
    ka_query_start_loc := query_start_loc; ka_positions := positions;
    ka_block_table := concat (table_gpu t); ka_block_table_stride := max_num_blocks_per_req t; ka_block_size := block_size t;
    TOTAL_CP_WORLD_SIZE := pcp_world_size cp * dcp_world_size cp;
    TOTAL_CP_RANK := pcp_rank cp * dcp_world_size cp + dcp_rank cp;
    CP_KV_CACHE_INTERLEAVE_SIZE := cp_kv_cache_interleave_size t; PAD_ID := PAD_SLOT_ID; BLOCK_SIZE := 1024 |} in
  zoom slot_mapping (fun m t => {| t with slot_mapping := m |})
    (mfor (launch (py_range 0 (num_reqs + 1))) (compute_slot_mapping_kernel args (num_reqs + 1))).

End Table.

(** ** One table per group: [MultiGroupBlockTable] *)

Module Tables.

Definition init (cp : ContextParallel) (max_reqs max_model_len max_tokens : Z) (block_sizes kernel_block_sizes : list Z)
    (max_num_blocks : option (list Z)) (interleave : Z) : res (list BlockTable) :=
  if negb (zlen kernel_block_sizes =? zlen block_sizes) then Raise ValueError
  else
    let total := get_total_cp_world_size cp in
    blocks ← match max_num_blocks with
      | Some l => Ok l
      | None => mapM (fun bs => if bs * total =? 0 then Raise ZeroDivisionError else Ok (cdiv max_model_len (bs * total))) block_sizes
      end;
    if negb (zlen blocks =? zlen block_sizes) then Raise ValueError
    else mapM (fun '(bs, (ks, n)) => Table.init cp bs max_reqs n max_tokens ks interleave) (zip block_sizes (zip kernel_block_sizes blocks)).

(** [for block_table in self.block_tables: body]. *)
Fixpoint each (l : list BlockTable) (i : Z) (body : Z -> Table.TM unit) : res unit * list BlockTable :=
  match l with
  | [] => (Ok tt, [])
  | t :: l' =>
      match body i t with
      | (Ok _, t') => let '(r, l'') := each l' (i + 1) body in (r, t' :: l'')
      | (Raise e, t') => (Raise e, t' :: l')
      end
  end.

Definition append_row (block_ids : list (list Z)) (row_idx : Z) : M (list BlockTable) unit := fun l =>
  each l 0 (fun i => ids ← lift_res (py_get block_ids i); Table.append_row ids row_idx).
Definition add_row (block_ids : list (list Z)) (row_idx : Z) : M (list BlockTable) unit := fun l =>
  each l 0 (fun i => ids ← lift_res (py_get block_ids i); Table.add_row ids row_idx).
Definition clear_row (row_idx : Z) : M (list BlockTable) unit := fun l => each l 0 (fun _ => Table.clear_row row_idx).
Definition move_row (src tgt : Z) : M (list BlockTable) unit := fun l => each l 0 (fun _ => Table.move_row src tgt).
Definition swap_row (src tgt : Z) : M (list BlockTable) unit := fun l => each l 0 (fun _ => Table.swap_row src tgt).
Definition compute_slot_mapping (launch : list Z -> list Z) (num_reqs : Z) (query_start_loc positions : list Z) : M (list BlockTable) unit := fun l =>
  each l 0 (fun _ => Table.compute_slot_mapping launch num_reqs query_start_loc positions).
Definition commit_block_table (num_reqs : Z) : M (list BlockTable) unit := fun l => each l 0 (fun _ => Table.commit_block_table num_reqs).
Definition clear : M (list BlockTable) unit := fun l => each l 0 (fun _ => Table.clear).

End Tables.
