(* ===== verification/BlockTableFacts.v ===== *)
(** The block table refines a list of block lists, one per request of the batch, and
    the kernel computes the slot of every token from them. *)

From S2P Require Import Prelude BlockTable.
Local Open Scope Z_scope.

Module TableFacts.
Import Table.

(** ** Rows *)

(** The kernel blocks of the blocks [ids] of the KV-cache manager. *)
Definition kernel_ids (split : Z) (ids : list Z) : list Z := map_to_kernel_blocks ids split (py_range 0 split).

(** Ids that fit into the table when they are split. *)
Definition id_fits (split id : Z) : Prop := 0 <= id /\ (id + 1) * split <= 2 ^ 31.

Record table_ok (t : BlockTable) : Prop := {
  to_split : 1 <= blocks_per_kv_block t /\ (use_hybrid_blocks t = false -> blocks_per_kv_block t = 1);
  to_rows : length (table t) = Z.to_nat (max_num_reqs t);
  to_counts : length (num_blocks_per_row t) = Z.to_nat (max_num_reqs t);
  to_width : Forall (fun row => length row = Z.to_nat (max_num_blocks_per_req t)) (table t);
}.

(** Row [i] lists the blocks [ids]. *)
Definition row_is (t : BlockTable) (i : nat) (ids : list Z) : Prop :=
  let kernel := kernel_ids (blocks_per_kv_block t) ids in
  num_blocks_per_row t !! i = Some (zlen kernel) /\ exists row, table t !! i = Some row /\ take (length kernel) row = kernel.

(** The table shows the block lists [rows]. *)
Record shows (t : BlockTable) (rows : list (list Z)) : Prop := {
  sh_ok : table_ok t;
  sh_len : length rows = Z.to_nat (max_num_reqs t);
  sh_row : forall i ids, rows !! i = Some ids -> row_is t i ids;
}.

(** An operation touches the rows only. *)
Definition same_shape (t t' : BlockTable) : Prop :=
  max_num_reqs t' = max_num_reqs t /\ max_num_batched_tokens t' = max_num_batched_tokens t /\ block_size t' = block_size t
  /\ blocks_per_kv_block t' = blocks_per_kv_block t /\ use_hybrid_blocks t' = use_hybrid_blocks t
  /\ max_num_blocks_per_req t' = max_num_blocks_per_req t /\ table_gpu t' = table_gpu t /\ slot_mapping t' = slot_mapping t
  /\ cp_group t' = cp_group t /\ cp_kv_cache_interleave_size t' = cp_kv_cache_interleave_size t.

#[export] Instance same_shape_preorder : PreOrder same_shape.
Proof.
  split; [by repeat split|]. intros t t1 t2 H1 H2. unfold same_shape in *. destruct_and!. repeat split; congruence.
Qed.

Lemma kernel_ids_nil split : kernel_ids split [] = [].
Proof. unfold kernel_ids, map_to_kernel_blocks. by destruct (split =? 1). Qed.

Lemma kernel_ids_app split l1 l2 : kernel_ids split (l1 ++ l2) = kernel_ids split l1 ++ kernel_ids split l2.
Proof. unfold kernel_ids, map_to_kernel_blocks. destruct (split =? 1); [done|]. apply bind_app. Qed.

Lemma kernel_ids_cons split id l : 1 <= split -> kernel_ids split (id :: l) = ((fun j => id * split + j) <$> py_range 0 split) ++ kernel_ids split l.
Proof.
  intros Hs. unfold kernel_ids, map_to_kernel_blocks. destruct (Z.eqb_spec split 1) as [->|]; [|done].
  change (py_range 0 1) with [0]. simpl. f_equal. lia.
Qed.

Lemma zlen_py_range a b : a <= b -> zlen (py_range a b) = b - a.
Proof. intros H. unfold zlen, py_range. rewrite length_fmap, length_seq. lia. Qed.

Lemma zlen_kernel_ids split ids : 1 <= split -> zlen (kernel_ids split ids) = zlen ids * split.
Proof.
  intros Hs. induction ids as [|id ids IH]; [rewrite kernel_ids_nil; unfold zlen; simpl; lia|].
  rewrite kernel_ids_cons, zlen_app, zlen_cons, IH by done. unfold zlen at 1. rewrite length_fmap. fold (zlen (py_range 0 split)).
  rewrite zlen_py_range by lia. lia.
Qed.

Lemma elem_kernel_ids split ids x : 1 <= split -> x ∈ kernel_ids split ids -> exists id j, id ∈ ids /\ 0 <= j < split /\ x = id * split + j.
Proof.
  intros Hs. induction ids as [|id ids IH]; [by rewrite kernel_ids_nil, elem_of_nil|].
  rewrite kernel_ids_cons, elem_of_app, list_elem_of_fmap by done. intros [(j & -> & Hj%elem_of_py_range)|Hx].
  - exists id, j. split; [by left|]. split; [lia|done].
  - destruct (IH Hx) as (id' & j & ? & ? & ?). exists id', j. split; [by right|done].
Qed.

(** The kernel block at index [q] of a row. *)
Lemma kernel_ids_lookup split ids (q : Z) id : 1 <= split -> 0 <= q -> ids !! Z.to_nat (q / split) = Some id ->
  kernel_ids split ids !! Z.to_nat q = Some (id * split + q mod split).
Proof.
  intros Hs. revert q. induction ids as [|id' ids IH]; intros q Hq Hi; [done|]. rewrite kernel_ids_cons by done.
  pose proof (zlen_py_range 0 split ltac:(lia)) as Hl. unfold zlen in Hl. destruct (decide (q < split)) as [Hlt|Hge].
  - rewrite Z.div_small in Hi by lia. injection Hi as ->. rewrite lookup_app_l by (rewrite length_fmap; lia).
    unfold py_range. rewrite !list_lookup_fmap, lookup_seq_lt by lia. cbn. rewrite Z.mod_small by lia. f_equal. lia.
  - rewrite lookup_app_r by (rewrite length_fmap; lia). rewrite length_fmap. specialize (IH (q - split) ltac:(lia)).
    replace ((q - split) / split) with (q / split - 1) in IH by (replace (q - split) with (q + (-1) * split) by lia; rewrite Z.div_add; lia).
    replace ((q - split) mod split) with (q mod split) in IH by (replace (q - split) with (q + (-1) * split) by lia; by rewrite Z.mod_add by lia).
    pose proof (Z.div_le_lower_bound q split 1 ltac:(lia) ltac:(lia)).
    replace (Z.to_nat q - length (py_range 0 split))%nat with (Z.to_nat (q - split)) by lia. apply IH.
    by replace (Z.to_nat (q / split)) with (S (Z.to_nat (q / split - 1))) in Hi by lia.
Qed.

(** The values of a row survive the conversion to [int32]. *)
Lemma as_int32_ok hybrid split ids : 1 <= split -> Forall (id_fits split) ids ->
  as_int32 hybrid (kernel_ids split ids) = Ok (kernel_ids split ids).
Proof.
  intros Hs Hf. rewrite Forall_forall in Hf.
  assert (forall x, x ∈ kernel_ids split ids -> 0 <= x < 2 ^ 31) as Hx.
  { intros x (id & j & Hid & Hj & ->)%elem_kernel_ids; [|done]. destruct (Hf id Hid). nia. }
  unfold as_int32. destruct hybrid.
  - f_equal. rewrite <- (list_fmap_id (kernel_ids split ids)) at 2. apply list_fmap_ext. intros i x Hi. apply wrap32_id, Hx. by eapply list_elem_of_lookup_2.
  - rewrite (proj2 (forallb_forall _ _)); [done|]. intros x Hi. rewrite <- list_elem_of_In in Hi. unfold is_int32. specialize (Hx x Hi). lia.
Qed.

Section operations.
Context (t : BlockTable) (rows : list (list Z)) (Hsh : shows t rows).

(** Replacing what row [i] lists. *)
Lemma shows_set t' i row (ids : list Z) :
  let kernel := kernel_ids (blocks_per_kv_block t) ids in
  same_shape t t' -> table t' = <[i := row]> (table t) -> num_blocks_per_row t' = <[i := zlen kernel]> (num_blocks_per_row t) ->
  (i < Z.to_nat (max_num_reqs t))%nat -> length row = Z.to_nat (max_num_blocks_per_req t) -> take (length kernel) row = kernel ->
  shows t' (<[i := ids]> rows).
Proof.
  intros kernel Hsame Et En Hi Hrow Htk. destruct Hsh as [ [O1 O2 O3 O4] L R]. destruct Hsame as (S1 & S2 & S3 & S4 & S5 & S6 & _). split.
  - split.
    + by rewrite S4, S5.
    + by rewrite Et, length_insert, S1.
    + by rewrite En, length_insert, S1.
    + rewrite Et, S6. by apply Forall_insert.
  - by rewrite length_insert, S1.
  - intros j ids' Hj. unfold row_is. rewrite S4, Et, En. destruct (decide (j = i)) as [->|Hn].
    + rewrite list_lookup_insert_eq in Hj by lia. injection Hj as <-. rewrite !list_lookup_insert_eq by lia. split; [done|by exists row].
    + rewrite list_lookup_insert_ne in Hj by done. rewrite !list_lookup_insert_ne by done. by apply R.
Qed.

Lemma row_of (i : Z) : 0 <= i < max_num_reqs t -> exists ids row, rows !! Z.to_nat i = Some ids
  /\ table t !! Z.to_nat i = Some row /\ length row = Z.to_nat (max_num_blocks_per_req t)
  /\ num_blocks_per_row t !! Z.to_nat i = Some (zlen (kernel_ids (blocks_per_kv_block t) ids))
  /\ take (length (kernel_ids (blocks_per_kv_block t) ids)) row = kernel_ids (blocks_per_kv_block t) ids.
Proof.
  intros Hi. destruct (lookup_lt_is_Some_2 rows (Z.to_nat i)) as [ids Hids]; [rewrite (sh_len _ _ Hsh); lia|].
  destruct (sh_row _ _ Hsh _ _ Hids) as (Hn & row & Hr & Ht). exists ids, row. split; [done|]. split; [done|]. split; [|done].
  apply (Forall_lookup_1 _ _ _ _ (to_width _ (sh_ok _ _ Hsh)) Hr).
Qed.

Lemma put_row_ok (i : Z) row t1 : 0 <= i < max_num_reqs t -> length (table t1) = Z.to_nat (max_num_reqs t) ->
  put_row i row t1 = (Ok tt, {| t1 with table := <[Z.to_nat i := row]> (table t1) |}).
Proof. intros Hi Hl. unfold put_row. msteps. rewrite py_set_nonneg by (unfold zlen; lia). by msteps. Qed.

Lemma put_num_ok (i n : Z) t1 : 0 <= i < max_num_reqs t -> length (num_blocks_per_row t1) = Z.to_nat (max_num_reqs t) ->
  put_num_blocks i n t1 = (Ok tt, {| t1 with num_blocks_per_row := <[Z.to_nat i := n]> (num_blocks_per_row t1) |}).
Proof. intros Hi Hl. unfold put_num_blocks. msteps. rewrite py_set_nonneg by (unfold zlen; lia). by msteps. Qed.

Lemma get_row_ok (i : Z) row t1 : 0 <= i -> table t1 !! Z.to_nat i = Some row -> get_row i t1 = (Ok row, t1).
Proof. intros Hi Hr. unfold get_row. by rewrite py_get_nonneg, Hr by done. Qed.

Lemma get_num_ok (i n : Z) t1 : 0 <= i -> num_blocks_per_row t1 !! Z.to_nat i = Some n -> get_num_blocks i t1 = (Ok n, t1).
Proof. intros Hi Hr. unfold get_num_blocks. by rewrite py_get_nonneg, Hr by done. Qed.

Lemma append_row_ok ids new (i : Z) : 0 <= i < max_num_reqs t -> rows !! Z.to_nat i = Some ids -> Forall (id_fits (blocks_per_kv_block t)) new ->
  zlen (ids ++ new) * blocks_per_kv_block t <= max_num_blocks_per_req t ->
  exists t', append_row new i t = (Ok tt, t') /\ same_shape t t' /\ shows t' (<[Z.to_nat i := ids ++ new]> rows).
Proof.
  intros Hi Hids Hfit Hroom. destruct (row_of i Hi) as (ids' & row & Hids' & Hrow & Hlen & Hnum & Htk). simplify_eq.
  destruct Hsh as [ [O1 O2 O3 O4] L R]. destruct O1 as [Hsplit Hhyb].
  destruct new as [|id new].
  { exists t. split; [done|]. split; [done|]. rewrite app_nil_r. by rewrite list_insert_id. }
  set (new' := id :: new) in *. set (b := blocks_per_kv_block t) in *. set (kn := kernel_ids b new').
  assert (zlen (kernel_ids b ids) + zlen kn <= max_num_blocks_per_req t) as Hroom'.
  { unfold kn. rewrite !zlen_kernel_ids by done. rewrite zlen_app in Hroom. nia. }
  pose proof (zlen_nonneg (kernel_ids b ids)) as H0. pose proof (zlen_nonneg kn) as H1.
  assert ((if use_hybrid_blocks t then map_to_kernel_blocks new' b (py_range 0 b) else new') = kn) as Ek.
  { unfold kn, kernel_ids. destruct (use_hybrid_blocks t); [done|]. unfold map_to_kernel_blocks. by rewrite Hhyb. }
  set (row' := take (length (kernel_ids b ids)) row ++ kn ++ drop (length (kernel_ids b ids) + length kn) row).
  exists {| t with table := <[Z.to_nat i := row']> (table t); num_blocks_per_row := <[Z.to_nat i := zlen (kernel_ids b ids) + zlen kn]> (num_blocks_per_row t) |}.
  split; [|split; [|apply (shows_set _ _ (take (length (kernel_ids b ids)) row ++ kn ++ drop (length (kernel_ids b ids) + length kn) row)) ] ].
  - unfold append_row. unfold new' at 1. cbv iota beta. fold new'. rewrite (bind_ok _ _ t t t) by done. cbv beta zeta. fold b. rewrite Ek.
    rewrite (bind_ok _ _ _ _ _ (get_num_ok _ _ _ (proj1 Hi) Hnum)). rewrite (bind_ok _ _ _ _ _ (put_num_ok _ _ _ Hi O3)).
    set (t1 := {| t with num_blocks_per_row := _ |}). rewrite (bind_ok _ _ _ _ _ (get_row_ok i row t1 (proj1 Hi) Hrow)).
    rewrite (as_int32_ok _ b new') by done. fold kn. msteps. rewrite np_assign_ok by (unfold zlen in *; lia). msteps.
    rewrite (put_row_ok i _ t1 Hi O2). by replace (Z.to_nat (zlen (kernel_ids b ids))) with (length (kernel_ids b ids)) by (unfold zlen; lia).
  - by repeat split.
  - by repeat split.
  - reflexivity.
  - cbn. rewrite kernel_ids_app, zlen_app. done.
  - lia.
  - rewrite !length_app, length_take, length_drop. unfold zlen in *. lia.
  - fold b. rewrite kernel_ids_app, length_app, Htk, app_assoc. fold kn. rewrite take_app_length' by (by rewrite length_app). done.
Qed.

(** Any row may be given up before it is set anew. *)
Lemma shows_forget (i : Z) : 0 <= i < max_num_reqs t ->
  shows {| t with num_blocks_per_row := <[Z.to_nat i := 0]> (num_blocks_per_row t) |} (<[Z.to_nat i := []]> rows).
Proof.
  intros Hi. destruct (row_of i Hi) as (ids & row & _ & Hrow & Hlen & _).
  apply (shows_set _ _ row); [by repeat split|cbn; by rewrite list_insert_id|cbn; by rewrite kernel_ids_nil|lia|done|by rewrite kernel_ids_nil].
Qed.

Lemma clear_row_ok (i : Z) : 0 <= i < max_num_reqs t ->
  exists t', clear_row i t = (Ok tt, t') /\ same_shape t t' /\ shows t' (<[Z.to_nat i := []]> rows).
Proof.
  intros Hi. destruct (row_of i Hi) as (ids & row & _ & Hrow & Hlen & Hnum & Htk). pose proof Hsh as [ [_ O2 O3 _] _ _].
  set (n := zlen (kernel_ids (blocks_per_kv_block t) ids)) in *.
  assert (n <= zlen row) as Hn.
  { apply (f_equal length) in Htk. rewrite length_take in Htk. unfold n, zlen. lia. }
  pose proof (zlen_nonneg (kernel_ids (blocks_per_kv_block t) ids)) as H0. fold n in H0. unfold clear_row.
  rewrite (bind_ok _ _ _ _ _ (get_num_ok _ _ _ (proj1 Hi) Hnum)). destruct (Z.ltb_spec 0 n) as [Hp|Hz].
  - eexists. split; [|split; [|apply (shows_set _ _ (replicate (Z.to_nat n) 0 ++ drop (Z.to_nat n) row)) ] ].
    + rewrite (bind_ok _ _ _ tt {| t with table := <[Z.to_nat i := replicate (Z.to_nat n) 0 ++ drop (Z.to_nat n) row]> (table t) |}).
      * by apply put_num_ok.
      * rewrite (bind_ok _ _ _ _ _ (get_row_ok i row t (proj1 Hi) Hrow)), np_fill_ok by lia. msteps. by apply put_row_ok.
    + by repeat split.
    + by repeat split.
    + reflexivity.
    + cbn. by rewrite kernel_ids_nil.
    + lia.
    + rewrite length_app, length_replicate, length_drop. unfold zlen in Hn. lia.
    + by rewrite kernel_ids_nil.
  - msteps. rewrite (put_num_ok i 0 t Hi O3). eexists. split; [reflexivity|]. split; [by repeat split|]. by apply shows_forget.
Qed.

Lemma move_row_ok (src tgt : Z) ids : 0 <= src < max_num_reqs t -> 0 <= tgt < max_num_reqs t -> rows !! Z.to_nat src = Some ids ->
  exists t', move_row src tgt t = (Ok tt, t') /\ same_shape t t' /\ shows t' (<[Z.to_nat tgt := ids]> rows).
Proof.
  intros Hs Ht Hids. destruct (row_of src Hs) as (ids' & row & Hids' & Hrow & Hlen & Hnum & Htk). simplify_eq.
  destruct (row_of tgt Ht) as (old & trow & _ & Htrow & Htlen & _). pose proof Hsh as [ [_ O2 O3 _] _ _].
  set (kn := kernel_ids (blocks_per_kv_block t) ids) in *.
  assert (zlen kn <= zlen trow) as Hn.
  { apply (f_equal length) in Htk. rewrite length_take in Htk. unfold zlen. lia. }
  eexists. split; [|split; [|apply (shows_set _ _ (kn ++ drop (length kn) trow)) ] ].
  - unfold move_row. rewrite (bind_ok _ _ _ _ _ (get_num_ok _ _ _ (proj1 Hs) Hnum)).
    rewrite (bind_ok _ _ _ _ _ (get_row_ok src row t (proj1 Hs) Hrow)), (bind_ok _ _ _ _ _ (get_row_ok tgt trow t (proj1 Ht) Htrow)).
    rewrite py_upto_nonneg by apply zlen_nonneg. replace (Z.to_nat (zlen kn)) with (length kn) by (unfold zlen; lia). rewrite Htk.
    pose proof (np_assign_ok trow 0 kn ltac:(lia) ltac:(lia)) as Ra. rewrite Z.add_0_l in Ra. rewrite Ra. msteps.
    rewrite (bind_ok _ _ _ _ _ (put_row_ok tgt _ t Ht O2)). cbn [Z.to_nat firstn app Nat.add]. by apply put_num_ok.
  - by repeat split.
  - by repeat split.
  - reflexivity.
  - reflexivity.
  - lia.
  - rewrite length_app, length_drop. unfold zlen in Hn. lia.
  - by rewrite take_app_length.
Qed.

End operations.

Lemma add_row_ok t rows new (i : Z) : shows t rows -> 0 <= i < max_num_reqs t -> Forall (id_fits (blocks_per_kv_block t)) new ->
  zlen new * blocks_per_kv_block t <= max_num_blocks_per_req t ->
  exists t', add_row new i t = (Ok tt, t') /\ same_shape t t' /\ shows t' (<[Z.to_nat i := new]> rows).
Proof.
  intros Hsh Hi Hfit Hroom. pose proof (shows_forget t rows Hsh i Hi) as Hf.
  destruct (append_row_ok _ _ Hf [] new i Hi) as (t' & R & Hs & Hsh').
  - apply list_lookup_insert_eq. rewrite (sh_len _ _ Hsh). lia.
  - done.
  - done.
  - exists t'. split; [|split].
    + unfold add_row. rewrite (bind_ok _ _ _ _ _ (put_num_ok t i 0 t Hi (to_counts _ (sh_ok _ _ Hsh)))). exact R.
    + etransitivity; [|exact Hs]. by repeat split.
    + by rewrite list_insert_insert_eq in Hsh'.
Qed.

Lemma swap_row_ok t rows (src tgt : Z) ids ids' : shows t rows -> 0 <= src < max_num_reqs t -> 0 <= tgt < max_num_reqs t ->
  rows !! Z.to_nat src = Some ids -> rows !! Z.to_nat tgt = Some ids' ->
  exists t', swap_row src tgt t = (Ok tt, t') /\ same_shape t t' /\ shows t' (<[Z.to_nat tgt := ids]> (<[Z.to_nat src := ids']> rows)).
Proof.
  intros Hsh Hs Ht Hids Hids'. destruct (row_of t rows Hsh src Hs) as (i1 & row1 & H1 & Hrow1 & Hlen1 & Hnum1 & Htk1).
  destruct (row_of t rows Hsh tgt Ht) as (i2 & row2 & H2 & Hrow2 & Hlen2 & Hnum2 & Htk2). simplify_eq.
  pose proof Hsh as [ [_ O2 O3 _] _ _].
  set (t1 := {| t with table := <[Z.to_nat src := row2]> (table t);
                      num_blocks_per_row := <[Z.to_nat src := zlen (kernel_ids (blocks_per_kv_block t) ids')]> (num_blocks_per_row t) |}).
  assert (shows t1 (<[Z.to_nat src := ids']> rows)) as Hsh1.
  { apply (shows_set t rows Hsh t1 _ row2); [by repeat split|reflexivity|reflexivity|lia|done|done]. }
  exists {| t1 with table := <[Z.to_nat tgt := row1]> (table t1);
                   num_blocks_per_row := <[Z.to_nat tgt := zlen (kernel_ids (blocks_per_kv_block t) ids)]> (num_blocks_per_row t1) |}.
  split; [|split].
  - unfold swap_row. rewrite (bind_ok _ _ _ _ _ (get_num_ok _ _ _ (proj1 Hs) Hnum1)), (bind_ok _ _ _ _ _ (get_num_ok _ _ _ (proj1 Ht) Hnum2)).
    rewrite (bind_ok _ _ _ _ _ (put_num_ok t src _ t Hs O3)). erewrite bind_ok by (apply (put_num_ok t tgt); [done|cbn; by rewrite length_insert]).
    erewrite bind_ok by (apply (get_row_ok src row1); [lia|done]). erewrite bind_ok by (apply (get_row_ok tgt row2); [lia|done]).
    erewrite bind_ok by (apply (put_row_ok t src); done). by rewrite (put_row_ok t tgt) by (cbn; rewrite ?length_insert; done).
  - by repeat split.
  - apply (shows_set t1 _ Hsh1 _ _ row1); [by repeat split|reflexivity|reflexivity|cbn; lia|done|done].
Qed.

(** ** Sessions on the rows *)

Inductive row_op :=
  | AppendRow (ids : list Z) (i : Z)
  | AddRow (ids : list Z) (i : Z)
  | ClearRow (i : Z)
  | MoveRow (src tgt : Z)
  | SwapRow (src tgt : Z).

Definition run_op (op : row_op) : TM unit :=
  match op with
  | AppendRow ids i => append_row ids i
  | AddRow ids i => add_row ids i
  | ClearRow i => clear_row i
  | MoveRow src tgt => move_row src tgt
  | SwapRow src tgt => swap_row src tgt
  end.

(** The same on the block lists. *)
Definition spec_op (op : row_op) (rows : list (list Z)) : list (list Z) :=
  match op with
  | AppendRow ids i => <[Z.to_nat i := rows !!! Z.to_nat i ++ ids]> rows
  | AddRow ids i => <[Z.to_nat i := ids]> rows
  | ClearRow i => <[Z.to_nat i := []]> rows
  | MoveRow src tgt => <[Z.to_nat tgt := rows !!! Z.to_nat src]> rows
  | SwapRow src tgt => <[Z.to_nat tgt := rows !!! Z.to_nat src]> (<[Z.to_nat src := rows !!! Z.to_nat tgt]> rows)
  end.

(** Rows are in range, ids fit into [int32] and the blocks fit into the row. *)
Definition op_fits (t : BlockTable) (rows : list (list Z)) (op : row_op) : Prop :=
  let row i := 0 <= i < max_num_reqs t in
  let fits ids := Forall (id_fits (blocks_per_kv_block t)) ids in
  let room ids := zlen ids * blocks_per_kv_block t <= max_num_blocks_per_req t in
  match op with
  | AppendRow ids i => row i /\ fits ids /\ room (rows !!! Z.to_nat i ++ ids)
  | AddRow ids i => row i /\ fits ids /\ room ids
  | ClearRow i => row i
  | MoveRow src tgt => row src /\ row tgt
  | SwapRow src tgt => row src /\ row tgt
  end.

Fixpoint ops_fit (t : BlockTable) (rows : list (list Z)) (ops : list row_op) : Prop :=
  match ops with [] => True | op :: ops => op_fits t rows op /\ ops_fit t (spec_op op rows) ops end.

Lemma shows_lookup t rows (i : Z) : shows t rows -> 0 <= i < max_num_reqs t -> rows !! Z.to_nat i = Some (rows !!! Z.to_nat i).
Proof. intros Hsh Hi. apply list_lookup_lookup_total_lt. rewrite (sh_len _ _ Hsh). lia. Qed.

Lemma run_op_ok t rows op : shows t rows -> op_fits t rows op ->
  exists t', run_op op t = (Ok tt, t') /\ same_shape t t' /\ shows t' (spec_op op rows).
Proof.
  intros Hsh. destruct op; cbn [op_fits run_op spec_op]; cbv zeta.
  - intros (Hi & Hf & Hr). apply append_row_ok; [done|done|by apply shows_lookup with t|done|done].
  - intros (Hi & Hf & Hr). by apply add_row_ok.
  - intros Hi. by apply clear_row_ok.
  - intros (Hs & Ht). apply move_row_ok; [done|done|done|by apply shows_lookup with t].
  - intros (Hs & Ht). apply swap_row_ok; [done|done|done|by apply shows_lookup with t|by apply shows_lookup with t].
Qed.

Lemma ops_fit_same t t' rows ops : same_shape t t' -> ops_fit t rows ops -> ops_fit t' rows ops.
Proof.
  intros Hs. revert rows. induction ops as [|op ops IH]; intros rows; [done|]. intros [Hf Hr]. split; [|by apply IH].
  destruct Hs as (S1 & _ & _ & S4 & _ & S6 & _). destruct op; cbn in *; by rewrite ?S1, ?S4, ?S6.
Qed.

Lemma run_ops_ok t rows ops : shows t rows -> ops_fit t rows ops ->
  exists t', mfor ops run_op t = (Ok tt, t') /\ same_shape t t' /\ shows t' (foldl (fun r op => spec_op op r) rows ops).
Proof.
  revert t rows. induction ops as [|op ops IH]; intros t rows Hsh; cbn [mfor ops_fit foldl]; [intros _; by exists t|].
  intros [Hf Hr]. destruct (run_op_ok t rows op Hsh Hf) as (t1 & R1 & S1 & Hsh1). rewrite (bind_ok _ _ _ _ _ R1).
  destruct (IH t1 _ Hsh1 (ops_fit_same _ _ _ _ S1 Hr)) as (t2 & R2 & S2 & Hsh2). exists t2. split; [done|]. split; [by transitivity t1|done].
Qed.

Lemma init_shows cp kv n w mt ks il : 1 <= kv -> 1 <= ks -> kv mod ks = 0 ->
  exists t, Table.init cp kv n w mt ks il = Ok t /\ shows t (replicate (Z.to_nat n) []) /\ max_num_reqs t = n
    /\ block_size t = ks /\ blocks_per_kv_block t = kv / ks /\ max_num_blocks_per_req t = w * (kv / ks)
    /\ zlen (slot_mapping t) = Z.max 0 mt /\ max_num_batched_tokens t = mt.
Proof.
  intros Hkv Hks Hmod. unfold Table.init. rewrite (proj2 (Z.eqb_neq ks 0)), (proj2 (Z.eqb_eq (kv mod ks) 0)), !andb_false_r by lia.
  assert ((if ks =? kv then 1 else kv / ks) = kv / ks) as Hd by (destruct (Z.eqb_spec ks kv) as [->|]; [by rewrite Z.div_same by lia|done]).
  rewrite Hd. pose proof (Z.div_exact kv ks ltac:(lia)) as Hex. apply Hex in Hmod. eexists. split; [reflexivity|].
  split; [split; [split|..]|cbn; unfold zlen; rewrite length_replicate; repeat split; try lia].
  - cbn. split; [nia|]. intros Hs%negb_false_iff%Z.eqb_eq. subst. by rewrite Z.div_same by lia.
  - cbn. by rewrite length_replicate.
  - cbn. by rewrite length_replicate.
  - cbn. apply Forall_replicate. by rewrite length_replicate.
  - cbn. by rewrite length_replicate.
  - intros i ids Hi. apply lookup_replicate in Hi as [-> Hi]. unfold row_is. rewrite kernel_ids_nil. cbn. split; [by apply lookup_replicate|].
    eexists. split; [by apply lookup_replicate|]. done.
  - destruct (Z.eqb_spec ks kv); lia.
Qed.

(** ** The kernel *)

Lemma range_by_app {T} (body : Z -> M T unit) (l1 l2 : list Z) s : mfor (l1 ++ l2) body s = (mfor l1 body ;; mfor l2 body) s.
Proof.
  revert s. induction l1 as [|x l1 IH]; intros s; [done|]. cbn [mfor app]. unfold mbind, M_bind in *. destruct (body x s) as [ [[]|e] s']; [|done]. apply IH.
Qed.

(** Lanes beyond the end do nothing. *)
Lemma masked_lanes {T} (body : Z -> M T unit) i n b s : 0 <= n ->
  mfor (py_range i (i + n)) (fun o => if o <? b then body o else mret tt) s = mfor (py_range i (Z.min b (i + n))) body s.
Proof.
  intros Hn. assert (exists k : nat, n = Z.of_nat k) as [k ->] by (exists (Z.to_nat n); lia). clear Hn. revert i s.
  induction k as [|k IH]; intros i s; [by rewrite !py_range_nil by lia|].
  rewrite py_range_cons by lia. cbn [mfor]. specialize (IH (i + 1)). replace (i + 1 + Z.of_nat k) with (i + Z.of_nat (S k)) in IH by lia.
  destruct (Z.ltb_spec i b) as [Hlt|Hge].
  - rewrite (py_range_cons i (Z.min b _)) by lia. cbn [mfor]. unfold mbind, M_bind. destruct (body i s) as [ [[]|e] s']; [|done]. apply IH.
  - msteps. rewrite IH. by rewrite !py_range_nil by lia.
Qed.

(** The chunks of a program cover the range once and in order. *)
Lemma chunked_lanes {T} (body : Z -> M T unit) a b n s : 0 < n ->
  mfor (py_range_by a b n) (fun i => mfor (py_range i (i + n)) (fun o => if o <? b then body o else mret tt)) s = mfor (py_range a b) body s.
Proof.
  intros Hn. unfold py_range_by. assert (forall k : nat, forall a s, cdiv (b - a) n <= Z.of_nat k ->
    mfor ((fun i => a + i * n) <$> py_range 0 (cdiv (b - a) n)) (fun i => mfor (py_range i (i + n)) (fun o => if o <? b then body o else mret tt)) s
    = mfor (py_range a b) body s) as H; [|apply (H (Z.to_nat (cdiv (b - a) n))); lia].
  clear a s. induction k as [|k IH]; intros a s Hk; pose proof (cdiv_bounds n Hn (b - a)).
  - rewrite !py_range_nil by nia. done.
  - destruct (decide (b <= a)); [rewrite !py_range_nil by nia; done|].
    assert (cdiv (b - a) n = 1 + cdiv (b - (a + n)) n) as Hc.
    { pose proof (cdiv_bounds n Hn (b - (a + n))). nia. }
    rewrite py_range_cons by nia. rewrite fmap_cons. cbn [mfor]. rewrite Z.mul_0_l, Z.add_0_r.
    rewrite (py_range_app a (Z.min b (a + n)) b), range_by_app by lia. unfold mbind, M_bind.
    rewrite masked_lanes by lia. destruct (mfor (py_range a _) body s) as [ [[]|e] s']; [|done].
    destruct (decide (b <= a + n)).
    + rewrite (py_range_nil (Z.min _ _)), py_range_nil by nia. done.
    + rewrite Z.min_r by lia. rewrite <- (IH (a + n) s') by lia. f_equal. rewrite Hc.
      unfold py_range. rewrite <- !list_fmap_compose. replace (1 + cdiv (b - (a + n)) n - (0 + 1)) with (cdiv (b - (a + n)) n - 0) by lia.
      apply list_fmap_ext. intros. simpl. lia.
Qed.

(** A loop of stores. *)
Lemma store_loop (body : Z -> M (list Z) unit) (f : Z -> Z) a b m : 0 <= a -> b <= zlen m ->
  (forall o m', a <= o < b -> body o m' = tl_store o (f o) m') ->
  exists m', mfor (py_range a b) body m = (Ok tt, m') /\ zlen m' = zlen m
    /\ forall j, 0 <= j -> m' !! Z.to_nat j = if decide (a <= j < b) then Some (f j) else m !! Z.to_nat j.
Proof.
  intros Ha Hb Hbody. assert (exists n : nat, Z.max a b = a + Z.of_nat n) as [n En] by (exists (Z.to_nat (b - a)); lia).
  revert a m Ha Hb Hbody En. induction n as [|n IH]; intros a m Ha Hb Hbody En.
  - rewrite py_range_nil by lia. exists m. split; [done|]. split; [done|]. intros j Hj. by rewrite decide_False by lia.
  - rewrite py_range_cons by lia. cbn [mfor]. set (m1 := <[Z.to_nat a := f a]> m). assert (zlen m1 = zlen m) as Hl1 by (unfold m1, zlen; by rewrite length_insert).
    rewrite (bind_ok _ _ _ tt m1); [|rewrite Hbody by lia; unfold tl_store; by rewrite (proj2 (Z.leb_le _ _)), (proj2 (Z.ltb_lt _ _)) by lia].
    destruct (IH (a + 1) m1) as (m' & R & Hl & Hj); [lia|lia|intros; apply Hbody; lia|lia|]. exists m'. split; [done|]. split; [congruence|].
    intros j H0. rewrite (Hj j H0). unfold m1. destruct (decide (j = a)) as [->|Hne].
    + rewrite decide_False, decide_True by lia. rewrite list_lookup_insert_eq; [done|]. unfold zlen in *. lia.
    + rewrite list_lookup_insert_ne by lia. repeat case_decide; lia || done.
Qed.

Section kernel.
Context (a : KernelArgs) (n : Z).

(** The tokens of request [r] are those from [query_start_loc\[r\]] on. *)
Definition start (r : Z) : Z := ka_query_start_loc a !!! Z.to_nat r.
Definition position_of (j : Z) : Z := ka_positions a !!! Z.to_nat j.
Definition block_index (r j : Z) : Z := r * ka_block_table_stride a + position_of j ÷ (ka_block_size a * TOTAL_CP_WORLD_SIZE a).

(** All loads of the programs are inside the arrays. *)
Record launch_ok : Prop := {
  la_reqs : 0 <= n < zlen (ka_query_start_loc a);
  la_sorted : forall r, 0 <= r < n -> 0 <= start r <= start (r + 1);
  la_tokens : 0 <= start n <= ka_num_tokens a /\ ka_num_tokens a <= ka_max_num_tokens a;
  la_chunk : 0 < BLOCK_SIZE a;
  la_position : forall r j, 0 <= r < n -> start r <= j < start (r + 1) -> j < zlen (ka_positions a)
    /\ 0 <= block_index r j < zlen (ka_block_table a);
}.

(** The slots that a program writes, and what it writes. *)
Definition first_slot (p : Z) : Z := if p =? n then ka_num_tokens a else start p.
Definition end_slot (p : Z) : Z := if p =? n then ka_max_num_tokens a else start (p + 1).
Definition written (p j : Z) : Z :=
  if p =? n then PAD_ID a else slot_id a (position_of j) (ka_block_table a !!! Z.to_nat (block_index p j)).

Hypothesis Hok : launch_ok.

Lemma tl_load_ok (l : list Z) o : 0 <= o < zlen l -> tl_load l o = Ok (l !!! Z.to_nat o).
Proof.
  intros Ho. unfold tl_load. rewrite (proj2 (Z.ltb_ge _ _)) by lia. by rewrite list_lookup_lookup_total_lt by (unfold zlen in Ho; lia).
Qed.

Lemma start_mono r r' : 0 <= r <= r' -> r' <= n -> 0 <= start r <= start r'.
Proof.
  intros Hr Hr'. assert (exists k : nat, r' = r + Z.of_nat k) as [k ->] by (exists (Z.to_nat (r' - r)); lia).
  induction k as [|k IH].
  - rewrite Z.add_0_r. split; [|lia]. destruct (decide (r < n)); [apply (la_sorted Hok r); lia|]. replace r with n by lia. apply (la_tokens Hok).
  - destruct (la_sorted Hok (r + Z.of_nat k)); [lia|]. specialize (IH ltac:(lia) ltac:(lia)).
    replace (r + Z.of_nat (S k)) with (r + Z.of_nat k + 1) by lia. lia.
Qed.

Lemma program_ok p m : 0 <= p <= n -> zlen m = ka_max_num_tokens a ->
  exists m', compute_slot_mapping_kernel a (n + 1) p m = (Ok tt, m') /\ zlen m' = zlen m
    /\ forall j, 0 <= j -> m' !! Z.to_nat j = if decide (first_slot p <= j < end_slot p) then Some (written p j) else m !! Z.to_nat j.
Proof.
  intros Hp Hm. unfold compute_slot_mapping_kernel, first_slot, end_slot, written.
  replace (p =? n + 1 - 1) with (p =? n) by (f_equal; lia). destruct (la_tokens Hok) as [H0 H1]. destruct (Z.eqb_spec p n) as [->|Hn].
  - rewrite chunked_lanes by apply Hok. apply (store_loop _ (fun _ => PAD_ID a)); [lia|lia|done].
  - rewrite !tl_load_ok by (pose proof (la_reqs Hok); lia). msteps. fold (start p) (start (p + 1)). rewrite chunked_lanes by apply Hok.
    pose proof (start_mono (p + 1) n ltac:(lia) ltac:(lia)). pose proof (la_sorted Hok p ltac:(lia)).
    apply (store_loop _ (fun j => slot_id a (position_of j) (ka_block_table a !!! Z.to_nat (block_index p j)))); [lia|lia|].
    intros j m' Hj. destruct (la_position Hok p j ltac:(lia) Hj) as [L1 L2].
    rewrite tl_load_ok by lia. msteps. fold (position_of j). rewrite tl_load_ok by done. by msteps.
Qed.

(** No two programs write the same slot. *)
Lemma ranges_disjoint p q j : 0 <= p <= n -> 0 <= q <= n -> first_slot p <= j < end_slot p -> first_slot q <= j < end_slot q -> p = q.
Proof.
  unfold first_slot, end_slot. intros Hp Hq Jp Jq. destruct (la_tokens Hok) as [H0 _].
  assert (forall r, 0 <= r < n -> start (r + 1) <= start n) as Hend by (intros r Hr; apply (start_mono (r + 1) n); lia).
  destruct (Z.eqb_spec p n), (Z.eqb_spec q n); [lia| | |].
  - specialize (Hend q ltac:(lia)). lia.
  - specialize (Hend p ltac:(lia)). lia.
  - destruct (Z.lt_trichotomy p q) as [Hlt|[?|Hlt]]; [|done|].
    + pose proof (start_mono (p + 1) q ltac:(lia) ltac:(lia)). lia.
    + pose proof (start_mono (q + 1) p ltac:(lia) ltac:(lia)). lia.
Qed.

(** Whatever the order of the programs, each slot gets the value of its program. *)
Lemma launch_writes order m : order ≡ₚ py_range 0 (n + 1) -> zlen m = ka_max_num_tokens a ->
  exists m', mfor order (compute_slot_mapping_kernel a (n + 1)) m = (Ok tt, m') /\ zlen m' = zlen m
    /\ forall p j, 0 <= p <= n -> first_slot p <= j < end_slot p -> m' !! Z.to_nat j = Some (written p j).
Proof.
  intros Ho Hm. assert (forall p, p ∈ order <-> 0 <= p <= n) as Hin by (intros p; rewrite Ho, elem_of_py_range; lia).
  destruct (mfor_ok (compute_slot_mapping_kernel a (n + 1)) (fun ds m' => zlen m' = zlen m
    /\ forall p j, p ∈ ds -> first_slot p <= j < end_slot p -> m' !! Z.to_nat j = Some (written p j)) order) with (s := m) as (m' & R & Hl & Hw).
  - intros ds p rest m1 E [Hl Hw]. assert (0 <= p <= n) as Hp by (apply Hin; set_solver).
    destruct (program_ok p m1 Hp ltac:(congruence)) as (m2 & R & Hl2 & Hj2). exists m2. split; [done|]. split; [congruence|].
    assert (forall q, 0 <= q <= n -> 0 <= first_slot q) as Hpos.
    { intros q Hq. unfold first_slot. destruct (la_tokens Hok) as [H0 _]. destruct (q =? n); [lia|]. apply (start_mono q n); lia. }
    intros q j Hq Hj. assert (0 <= q <= n) as Hq' by (apply Hin; set_solver). specialize (Hpos q Hq'). rewrite Hj2 by lia.
    case_decide as Hd; [by rewrite (ranges_disjoint p q j)|]. apply elem_of_app in Hq as [Hq|Hq]; [by apply Hw|].
    apply list_elem_of_singleton in Hq. subst. done.
  - split; [done|]. intros p j Hp. by apply elem_of_nil in Hp.
  - exists m'. split; [done|]. split; [done|]. intros p j Hp. by apply Hw, Hin.
Qed.

End kernel.

(** ** Slots of tokens *)

Definition world_size (t : BlockTable) : Z := pcp_world_size (cp_group t) * dcp_world_size (cp_group t).
Definition rank (t : BlockTable) : Z := pcp_rank (cp_group t) * dcp_world_size (cp_group t) + dcp_rank (cp_group t).

(** The slot of position [pos] of a request with the blocks [ids] of the manager. *)
Definition slot_of (t : BlockTable) (ids : list Z) (pos : Z) : Z :=
  let bs := block_size t in
  let split := blocks_per_kv_block t in
  let interleave := cp_kv_cache_interleave_size t in
  let index := pos / (bs * world_size t) in
  let offset := pos mod (bs * world_size t) in
  if (offset / interleave) mod world_size t =? rank t
  then (ids !!! Z.to_nat (index / split) * split + index mod split) * bs
       + (offset / (world_size t * interleave) * interleave + offset mod interleave)
  else PAD_SLOT_ID.

(** What the model runner asks for: the tokens of the batch are laid out request by
    request and every position is within the blocks of its request. *)
Record batch_ok (t : BlockTable) (rows : list (list Z)) (num_reqs : Z) (query_start_loc positions : list Z) : Prop := {
  ba_reqs : 0 <= num_reqs <= max_num_reqs t /\ zlen query_start_loc = num_reqs + 1;
  ba_sizes : 1 <= block_size t /\ 1 <= world_size t /\ 1 <= cp_kv_cache_interleave_size t;
  ba_mapping : zlen (slot_mapping t) = max_num_batched_tokens t;
  ba_sorted : forall r : Z, 0 <= r < num_reqs -> 0 <= query_start_loc !!! Z.to_nat r <= query_start_loc !!! Z.to_nat (r + 1);
  ba_tokens : 0 <= query_start_loc !!! Z.to_nat num_reqs <= zlen positions /\ zlen positions <= max_num_batched_tokens t;
  ba_position : forall r j : Z, 0 <= r < num_reqs -> query_start_loc !!! Z.to_nat r <= j < query_start_loc !!! Z.to_nat (r + 1) ->
    0 <= positions !!! Z.to_nat j < zlen (rows !!! Z.to_nat r) * blocks_per_kv_block t * (block_size t * world_size t);
}.

Lemma concat_lookup {A} (l : list (list A)) (w r q : nat) row : Forall (fun row => length row = w) (take r l) -> l !! r = Some row -> (q < length row)%nat ->
  concat l !! (r * w + q)%nat = row !! q.
Proof.
  revert r. induction l as [|x l IH]; intros r Hw Hr Hq; [done|]. destruct r as [|r]; simpl in *.
  - injection Hr as ->. by rewrite lookup_app_l.
  - apply Forall_cons in Hw as [Hx Hw]. rewrite lookup_app_r by lia. rewrite Hx.
    replace (w + r * w + q - w)%nat with (r * w + q)%nat by lia. by apply IH.
Qed.

(** A block index of a row that the manager filled. *)
Lemma row_block t rows r pos : shows t rows -> 0 <= r < max_num_reqs t -> 1 <= block_size t -> 1 <= world_size t ->
  0 <= pos < zlen (rows !!! Z.to_nat r) * blocks_per_kv_block t * (block_size t * world_size t) ->
  let q := pos / (block_size t * world_size t) in
  let split := blocks_per_kv_block t in
  exists row, table t !! Z.to_nat r = Some row /\ 0 <= q < zlen row
    /\ row !! Z.to_nat q = Some (rows !!! Z.to_nat r !!! Z.to_nat (q / split) * split + q mod split).
Proof.
  intros Hsh Hr Hb Hw Hpos q split. destruct (row_of t rows Hsh r Hr) as (ids & row & Hids & Hrow & Hlen & _ & Htk).
  destruct (to_split _ (sh_ok _ _ Hsh)) as [Hs _]. fold split in Hs, Htk. rewrite (list_lookup_total_correct _ _ _ Hids) in *.
  assert (0 <= q < zlen ids * split) as Hq.
  { split; [apply Z.div_pos; nia|apply Z.div_lt_upper_bound; nia]. }
  assert (length (kernel_ids split ids) <= length row)%nat as Hle.
  { apply (f_equal length) in Htk. rewrite length_take in Htk. lia. }
  pose proof (zlen_kernel_ids split ids Hs) as Hz. unfold zlen in *. exists row. split; [done|]. split; [lia|].
  rewrite <- (lookup_take_lt row (length (kernel_ids split ids))) by lia. rewrite Htk. apply kernel_ids_lookup; [done|lia|].
  apply list_lookup_lookup_total_lt. assert (q / split < Z.of_nat (length ids)) by (apply Z.div_lt_upper_bound; lia).
  pose proof (Z.div_pos q split). lia.
Qed.

Definition kernel_args (t : BlockTable) (query_start_loc positions : list Z) : KernelArgs :=
  {| ka_num_tokens := zlen positions; ka_max_num_tokens := max_num_batched_tokens t;
     ka_query_start_loc := query_start_loc; ka_positions := positions;
     ka_block_table := concat (table_gpu t); ka_block_table_stride := max_num_blocks_per_req t; ka_block_size := block_size t;
     TOTAL_CP_WORLD_SIZE := world_size t; TOTAL_CP_RANK := rank t;
     CP_KV_CACHE_INTERLEAVE_SIZE := cp_kv_cache_interleave_size t; PAD_ID := PAD_SLOT_ID; BLOCK_SIZE := 1024 |}.

(** The table after the rows of the batch went to the GPU. *)
Definition committed (t : BlockTable) (n : Z) : BlockTable :=
  {| t with table_gpu := py_upto (table t) n ++ py_from (table_gpu t) n |}.

Section slots.
Context (t : BlockTable) (rows : list (list Z)) (n : Z) (qsl positions : list Z).
Context (Hsh : shows t rows) (Hb : batch_ok t rows n qsl positions).

Notation args := (kernel_args (committed t n) qsl positions).

(** The kernel finds each block in the flat table. *)
Lemma loads_ok r j : 0 <= r < n -> start args r <= j < start args (r + 1) ->
  let pos := positions !!! Z.to_nat j in
  let q := pos / (block_size t * world_size t) in
  let split := blocks_per_kv_block t in
  0 <= block_index args r j < zlen (concat (table_gpu (committed t n)))
  /\ concat (table_gpu (committed t n)) !!! Z.to_nat (block_index args r j) = rows !!! Z.to_nat r !!! Z.to_nat (q / split) * split + q mod split.
Proof.
  intros Hr Hj pos q split. destruct (ba_sizes _ _ _ _ _ Hb) as (S1 & S2 & S3). destruct (ba_reqs _ _ _ _ _ Hb) as [R1 R2].
  pose proof (ba_position _ _ _ _ _ Hb r j Hr Hj) as Hp. fold pos in Hp.
  destruct (row_block t rows r pos Hsh ltac:(lia) S1 S2 Hp) as (row & Hrow & Hq & Hv). fold q split in Hq, Hv.
  pose proof (Forall_lookup_1 _ _ _ _ (to_width _ (sh_ok _ _ Hsh)) Hrow) as Hlen. cbn beta in Hlen.
  assert (block_index args r j = r * max_num_blocks_per_req t + q) as Ei.
  { change (block_index args r j) with (r * max_num_blocks_per_req t + pos ÷ (block_size t * world_size t)). by rewrite Z.quot_div_nonneg by nia. }
  assert (concat (table_gpu (committed t n)) !! Z.to_nat (block_index args r j) = row !! Z.to_nat q) as El.
  { rewrite Ei. assert (0 < max_num_blocks_per_req t) by (unfold zlen in Hq; lia). rewrite Z2Nat.inj_add, Z2Nat.inj_mul by (try apply Z.mul_nonneg_nonneg; lia).
    pose proof (lookup_lt_Some _ _ _ Hrow). cbn [committed table_gpu]. rewrite py_upto_nonneg by lia. apply concat_lookup.
    - rewrite take_app, take_take, length_take. apply Forall_app. split; [apply Forall_take, (to_width _ (sh_ok _ _ Hsh))|].
      replace (_ - _)%nat with 0%nat by lia. apply Forall_nil_2.
    - by rewrite lookup_app_l, lookup_take_lt by (rewrite ?length_take; lia).
    - unfold zlen in Hq. lia. }
  rewrite Hv in El. split; [|by apply list_lookup_total_correct]. apply lookup_lt_Some in El. unfold zlen in *. nia.
Qed.

Lemma launch_of_batch : launch_ok args n.
Proof.
  destruct (ba_sizes _ _ _ _ _ Hb) as (S1 & S2 & S3). destruct (ba_reqs _ _ _ _ _ Hb) as [R1 R2]. destruct (ba_tokens _ _ _ _ _ Hb) as [T1 T2]. split.
  - cbn. lia.
  - apply (ba_sorted _ _ _ _ _ Hb).
  - split; [apply T1|cbn; lia].
  - done.
  - intros r j Hr Hj. split; [|by apply loads_ok]. cbn.
    assert (start args (r + 1) <= start args n) as Hle; [|unfold start in *; cbn in *; lia].
    assert (forall k : nat, r + 1 + Z.of_nat k <= n -> start args (r + 1) <= start args (r + 1 + Z.of_nat k)) as H.
    { induction k as [|k IH]; intros Hk; [by rewrite Z.add_0_r|]. etransitivity; [apply IH; lia|].
      replace (r + 1 + Z.of_nat (S k)) with (r + 1 + Z.of_nat k + 1) by lia. apply (ba_sorted _ _ _ _ _ Hb). lia. }
    specialize (H (Z.to_nat (n - (r + 1))) ltac:(lia)). by replace (r + 1 + Z.of_nat (Z.to_nat (n - (r + 1)))) with n in H by lia.
Qed.

Lemma slot_of_written r j : 0 <= r < n -> start args r <= j < start args (r + 1) ->
  written args n r j = slot_of t (rows !!! Z.to_nat r) (positions !!! Z.to_nat j).
Proof.
  intros Hr Hj. destruct (loads_ok r j Hr Hj) as [_ El]. destruct (ba_sizes _ _ _ _ _ Hb) as (S1 & S2 & S3).
  pose proof (ba_position _ _ _ _ _ Hb r j Hr Hj) as [Hp _]. unfold written. rewrite (proj2 (Z.eqb_neq r n)) by lia.
  unfold slot_id, slot_of. cbv zeta. cbn [kernel_args ka_block_table] in *. rewrite El. unfold position_of.
  cbn [kernel_args ka_block_size TOTAL_CP_WORLD_SIZE TOTAL_CP_RANK CP_KV_CACHE_INTERLEAVE_SIZE PAD_ID ka_positions committed block_size cp_kv_cache_interleave_size].
  change (world_size (committed t n)) with (world_size t). change (rank (committed t n)) with (rank t).
  set (pos := positions !!! Z.to_nat j) in *. set (W := world_size t) in *. set (bs := block_size t) in *.
  set (il := cp_kv_cache_interleave_size t) in *. rewrite (Z.quot_div_nonneg pos) by nia.
  assert (pos - pos / (bs * W) * (bs * W) = pos mod (bs * W)) as -> by (rewrite Z.mod_eq by nia; lia).
  pose proof (Z.mod_pos_bound pos (bs * W) ltac:(nia)). pose proof (Z.div_pos (pos mod (bs * W)) il ltac:(lia) ltac:(lia)).
  rewrite !Z.quot_div_nonneg, !Z.rem_mod_nonneg by nia. done.
Qed.

Lemma slots_ok launch : (forall l, launch l ≡ₚ l) ->
  exists m, (commit_block_table n ;; compute_slot_mapping launch n qsl positions) t = (Ok tt, {| (committed t n) with slot_mapping := m |})
    /\ zlen m = max_num_batched_tokens t
    /\ (forall r j : Z, 0 <= r < n -> start args r <= j < start args (r + 1) ->
          m !! Z.to_nat j = Some (slot_of t (rows !!! Z.to_nat r) (positions !!! Z.to_nat j)))
    /\ (forall j, zlen positions <= j < max_num_batched_tokens t -> m !! Z.to_nat j = Some PAD_SLOT_ID).
Proof.
  intros Hlaunch. destruct (launch_writes args n launch_of_batch (launch (py_range 0 (n + 1))) (slot_mapping t)) as (m & R & Hl & Hw).
  - apply Hlaunch.
  - apply (ba_mapping _ _ _ _ _ Hb).
  - exists m. split; [|split; [|split] ].
    + unfold commit_block_table. msteps. fold (committed t n). unfold compute_slot_mapping. rewrite (bind_ok _ _ _ (committed t n) (committed t n)) by done.
      cbv zeta. unfold zoom. unfold kernel_args, world_size, rank in R. cbn [cp_group committed slot_mapping] in *. rewrite R. done.
    + rewrite Hl. apply (ba_mapping _ _ _ _ _ Hb).
    + intros r j Hr Hj. rewrite <- slot_of_written by done. apply Hw; [lia|]. unfold first_slot, end_slot. by rewrite (proj2 (Z.eqb_neq r n)) by lia.
    + intros j Hj. destruct (ba_reqs _ _ _ _ _ Hb) as [R1 _]. rewrite (Hw n j); [unfold written; by rewrite Z.eqb_refl|lia|].
      unfold first_slot, end_slot. by rewrite Z.eqb_refl.
Qed.

End slots.

(** Without context parallelism the slot does not depend on how blocks are split. *)
Lemma slot_of_alone t ids pos : world_size t = 1 -> rank t = 0 -> 1 <= block_size t -> 1 <= blocks_per_kv_block t ->
  1 <= cp_kv_cache_interleave_size t -> 0 <= pos ->
  let kv_block_size := block_size t * blocks_per_kv_block t in
  slot_of t ids pos = ids !!! Z.to_nat (pos / kv_block_size) * kv_block_size + pos mod kv_block_size.
Proof.
  intros HW Hr Hb Hs Hi Hp kv. unfold slot_of. rewrite HW, Hr, Z.mod_1_r, Z.eqb_refl, Z.mul_1_r, Z.mul_1_l. cbv zeta.
  rewrite Z.div_div by lia. fold kv. unfold kv. rewrite Z.rem_mul_r by lia.
  assert (forall x, x / cp_kv_cache_interleave_size t * cp_kv_cache_interleave_size t + x mod cp_kv_cache_interleave_size t = x) as ->.
  { intros x. pose proof (Z.div_mod x (cp_kv_cache_interleave_size t) ltac:(lia)). lia. }
  lia.
Qed.

(** C27: The block table and the slot mapping are right.  From a new table, after any
    sequence of row operations that fit (append, add, clear, move, swap), one batch is
    committed and mapped, the programs of the kernel running in any order.  Nothing
    fails, each token of a request gets the slot that the block list of its request
    says, and the rest of the mapping is padding.  Without context parallelism a token
    at [pos] is stored in the manager's block [pos / kv_block_size] at
    [pos mod kv_block_size], also when the kernel uses smaller blocks. *)
Theorem slot_mapping_correct (launch : list Z -> list Z) (cp : ContextParallel)
    (kv_block_size max_reqs max_blocks max_tokens kernel_block_size interleave n : Z) (t0 : BlockTable) (ops : list row_op) (qsl positions : list Z)
  (Hlaunch : forall l, launch l ≡ₚ l)
  (Hinit : Table.init cp kv_block_size max_reqs max_blocks max_tokens kernel_block_size interleave = Ok t0)
  (Hsizes : 1 <= kernel_block_size /\ 1 <= kv_block_size)
  (Hops : ops_fit t0 (replicate (Z.to_nat max_reqs) []) ops) :
  let rows := foldl (fun r op => spec_op op r) (replicate (Z.to_nat max_reqs) []) ops in
  batch_ok t0 rows n qsl positions ->
  exists t, (mfor ops run_op ;; commit_block_table n ;; compute_slot_mapping launch n qsl positions) t0 = (Ok tt, t)
    /\ shows t rows
    /\ (forall r j : Z, 0 <= r < n -> qsl !!! Z.to_nat r <= j < qsl !!! Z.to_nat (r + 1) ->
          let pos := positions !!! Z.to_nat j in
          slot_mapping t !! Z.to_nat j = Some (slot_of t0 (rows !!! Z.to_nat r) pos)
          /\ (world_size t0 = 1 -> rank t0 = 0 ->
              slot_of t0 (rows !!! Z.to_nat r) pos = rows !!! Z.to_nat r !!! Z.to_nat (pos / kv_block_size) * kv_block_size + pos mod kv_block_size))
    /\ (forall j, zlen positions <= j < max_tokens -> slot_mapping t !! Z.to_nat j = Some PAD_SLOT_ID).
Proof.
  intros rows Hbatch. assert (kv_block_size mod kernel_block_size = 0) as Hmod.
  { unfold Table.init in Hinit. destruct (Z.eqb_spec kernel_block_size kv_block_size) as [->|]; [by apply Z.mod_same; lia|]. cbn in Hinit.
    rewrite (proj2 (Z.eqb_neq kernel_block_size 0)) in Hinit by lia. by destruct (Z.eqb_spec (kv_block_size mod kernel_block_size) 0). }
  destruct (init_shows cp kv_block_size max_reqs max_blocks max_tokens kernel_block_size interleave) as (t' & Hi & Hsh & E1 & E2 & E3 & E4 & E5 & E6);
    [lia|lia|done|]. rewrite Hinit in Hi. injection Hi as <-.
  destruct (run_ops_ok t0 _ ops Hsh Hops) as (t1 & R1 & (S1 & S2 & S3 & S4 & S5 & S6 & S7 & S8 & S9 & S10) & Hsh1). fold rows in Hsh1.
  assert (batch_ok t1 rows n qsl positions) as Hb1.
  { destruct Hbatch. unfold world_size in *. split; unfold world_size; rewrite ?S1, ?S2, ?S3, ?S4, ?S8, ?S9, ?S10; done. }
  assert (forall ids pos, slot_of t1 ids pos = slot_of t0 ids pos) as Eslot.
  { intros ids pos. unfold slot_of, world_size, rank. by rewrite S3, S4, S9, S10. }
  destruct (slots_ok t1 rows n qsl positions Hsh1 Hb1 launch Hlaunch) as (m & R2 & _ & Hm & Hpad).
  eexists. split; [rewrite (bind_ok _ _ _ _ _ R1); exact R2|]. split; [|split].
  - destruct Hsh1 as [ [O1 O2 O3 O4] L Hr]. split; [by split|done|done].
  - intros r j Hr Hj pos. split; [rewrite <- Eslot; by apply Hm|]. intros HW Hk. destruct (ba_sizes _ _ _ _ _ Hbatch) as (B1 & _ & B3).
    assert (block_size t0 * blocks_per_kv_block t0 = kv_block_size) as Ekv by (rewrite E2, E3; symmetry; apply Z.div_exact; [lia|done]).
    rewrite slot_of_alone; [by rewrite Ekv|done|done|done|apply Hsh|done|]. by destruct (ba_position _ _ _ _ _ Hbatch r j Hr Hj).
  - intros j Hj. apply Hpad. by rewrite S2, E6.
Qed.

(** ** Interleaved places *)

Section places.
Context (bs W il : Z) (Hbs : 1 <= bs) (HW : 1 <= W) (Hil : 1 <= il) (Hdiv : bs mod il = 0).

(** The rank that stores offset [v] of a block's range, its place there, and back. *)
Definition rank_at (v : Z) : Z := (v / il) mod W.
Definition place_at (v : Z) : Z := v / (W * il) * il + v mod il.
Definition offset_at (r place : Z) : Z := place / il * (W * il) + r * il + place mod il.

Lemma offset_at_parts v : 0 <= v -> place_at v / il = v / (W * il) /\ place_at v mod il = v mod il /\ offset_at (rank_at v) (place_at v) = v.
Proof.
  intros Hv. pose proof (Z.mod_pos_bound v il ltac:(lia)) as Hm. unfold place_at.
  assert ((v / (W * il) * il + v mod il) / il = v / (W * il)) as E1 by (rewrite Z.div_add_l, (Z.div_small (v mod il)) by lia; lia).
  assert ((v / (W * il) * il + v mod il) mod il = v mod il) as E2 by (rewrite Z.add_comm, Z.mod_add, Z.mod_mod by lia; done).
  split; [done|]. split; [done|]. unfold offset_at. rewrite E1, E2. unfold rank_at.
  rewrite (Z.mul_comm W il), <- Z.div_div by lia. pose proof (Z.div_mod v il ltac:(lia)). pose proof (Z.div_mod (v / il) W ltac:(lia)). nia.
Qed.

Lemma place_bound v : 0 <= v < bs * W -> 0 <= place_at v < bs.
Proof.
  intros Hv. apply Z.div_exact in Hdiv; [|lia]. unfold place_at. pose proof (Z.mod_pos_bound v il ltac:(lia)).
  assert (0 <= v / (W * il) < bs / il) by (split; [apply Z.div_pos; nia|apply Z.div_lt_upper_bound; nia]). nia.
Qed.

Lemma offset_bound r place : 0 <= r < W -> 0 <= place < bs -> 0 <= offset_at r place < bs * W /\ rank_at (offset_at r place) = r /\ place_at (offset_at r place) = place.
Proof.
  intros Hr Hp. apply Z.div_exact in Hdiv; [|lia]. pose proof (Z.mod_pos_bound place il ltac:(lia)) as Hm. pose proof (Z.div_mod place il ltac:(lia)) as Hd.
  assert (0 <= place / il < bs / il) as Hq by (split; [apply Z.div_pos; lia|apply Z.div_lt_upper_bound; lia]).
  assert (offset_at r place = (place / il * W + r) * il + place mod il) as Eo by (unfold offset_at; ring).
  assert (offset_at r place / il = place / il * W + r) as Ed by (rewrite Eo, Z.div_add_l, (Z.div_small (place mod il)) by lia; lia).
  assert (offset_at r place mod il = place mod il) as Em by (rewrite Eo, Z.add_comm, Z.mod_add, Z.mod_mod by lia; done).
  split; [rewrite Eo; nia|]. split.
  - unfold rank_at. rewrite Ed, Z.add_comm, Z.mod_add, Z.mod_small by lia. done.
  - unfold place_at. rewrite Em, (Z.mul_comm W il), <- Z.div_div, Ed, Z.div_add_l, (Z.div_small r) by lia. lia.
Qed.

End places.

Lemma slot_id_at (a : KernelArgs) pos block : 1 <= ka_block_size a -> 1 <= TOTAL_CP_WORLD_SIZE a -> 1 <= CP_KV_CACHE_INTERLEAVE_SIZE a -> 0 <= pos ->
  let v := pos mod (ka_block_size a * TOTAL_CP_WORLD_SIZE a) in
  slot_id a pos block = if rank_at (TOTAL_CP_WORLD_SIZE a) (CP_KV_CACHE_INTERLEAVE_SIZE a) v =? TOTAL_CP_RANK a
    then block * ka_block_size a + place_at (TOTAL_CP_WORLD_SIZE a) (CP_KV_CACHE_INTERLEAVE_SIZE a) v else PAD_ID a.
Proof.
  intros Hbs HW Hil Hp v. unfold slot_id. cbv zeta. rewrite (Z.quot_div_nonneg pos) by nia.
  assert (pos - pos / (ka_block_size a * TOTAL_CP_WORLD_SIZE a) * (ka_block_size a * TOTAL_CP_WORLD_SIZE a) = v) as ->
    by (unfold v; rewrite Z.mod_eq by nia; lia).
  pose proof (Z.mod_pos_bound pos (ka_block_size a * TOTAL_CP_WORLD_SIZE a) ltac:(nia)) as Hv. fold v in Hv.
  pose proof (Z.div_pos v (CP_KV_CACHE_INTERLEAVE_SIZE a) ltac:(lia) ltac:(lia)).
  unfold rank_at, place_at. rewrite !Z.quot_div_nonneg, !Z.rem_mod_nonneg by nia. done.
Qed.

(** C28: Context parallelism partitions the cache.  Of all ranks exactly one stores the
    token at a position, in the block given for it, and on each rank every place of a
    block holds exactly one position of the block's range. *)
Theorem context_parallel_partition (a : KernelArgs) (Hpad : PAD_ID a = PAD_SLOT_ID) (Hbs : 1 <= ka_block_size a)
  (HW : 1 <= TOTAL_CP_WORLD_SIZE a) (Hil : 1 <= CP_KV_CACHE_INTERLEAVE_SIZE a) (Hdiv : ka_block_size a mod CP_KV_CACHE_INTERLEAVE_SIZE a = 0) :
  let slot r pos block := slot_id {| a with TOTAL_CP_RANK := r |} pos block in
  let range := ka_block_size a * TOTAL_CP_WORLD_SIZE a in
  (forall pos block, 0 <= pos -> 0 <= block -> exists r, 0 <= r < TOTAL_CP_WORLD_SIZE a
     /\ block * ka_block_size a <= slot r pos block < (block + 1) * ka_block_size a
     /\ forall r', r' ≠ r -> slot r' pos block = PAD_SLOT_ID)
  /\ (forall index block r place, 0 <= index -> 0 <= block -> 0 <= r < TOTAL_CP_WORLD_SIZE a -> 0 <= place < ka_block_size a ->
       exists pos, index * range <= pos < (index + 1) * range /\ slot r pos block = block * ka_block_size a + place
         /\ forall pos', index * range <= pos' < (index + 1) * range -> slot r pos' block = block * ka_block_size a + place -> pos' = pos).
Proof.
  intros slot range. set (bs := ka_block_size a) in *. set (W := TOTAL_CP_WORLD_SIZE a) in *. set (il := CP_KV_CACHE_INTERLEAVE_SIZE a) in *.
  assert (forall r pos block, 0 <= pos -> slot r pos block = if rank_at W il (pos mod range) =? r
    then block * bs + place_at W il (pos mod range) else PAD_SLOT_ID) as Eslot.
  { intros r pos block Hp. unfold slot. rewrite slot_id_at by done. cbn. by rewrite Hpad. }
  assert (0 < range) as Hrange by (unfold range; nia). split.
  - intros pos block Hp Hb. exists (rank_at W il (pos mod range)). pose proof (Z.mod_pos_bound pos range Hrange) as Hv.
    split; [apply Z.mod_pos_bound; lia|]. pose proof (place_bound bs W il Hbs HW Hil Hdiv _ Hv) as Hpl.
    split; [rewrite Eslot, Z.eqb_refl by done; lia|]. intros r' Hr'. rewrite Eslot by done. by rewrite (proj2 (Z.eqb_neq _ _)) by done.
  - intros index block r place Hi Hb Hr Hpl. destruct (offset_bound bs W il Hbs HW Hil Hdiv r place Hr Hpl) as (Ho & Er & Ep). fold range in Ho.
    assert (forall v, 0 <= v < range -> (index * range + v) mod range = v) as Emod.
    { intros v Hv. rewrite Z.add_comm, Z.mod_add by lia. by apply Z.mod_small. }
    exists (index * range + offset_at W il r place). split; [nia|]. split.
    + rewrite Eslot, Emod, Er, Ep, Z.eqb_refl by nia. done.
    + intros pos' Hpos'. replace pos' with (index * range + (pos' - index * range)) by lia. set (v := pos' - index * range).
      rewrite Eslot, Emod by nia. destruct (Z.eqb_spec (rank_at W il v) r) as [Erv|Hn].
      * intros Epl. destruct (offset_at_parts W il HW Hil v ltac:(lia)) as (_ & _ & Ev). rewrite Erv in Ev.
        replace (place_at W il v) with place in Ev by lia. lia.
      * unfold PAD_SLOT_ID. nia.
Qed.

(** *** Witnesses *)

Definition one_rank : ContextParallel := {| pcp_world_size := 1; pcp_rank := 0; dcp_world_size := 1; dcp_rank := 0 |}.
Definition demo_ops : list row_op := [AddRow [5; 3] 0; AddRow [7] 1; AppendRow [2] 1; SwapRow 0 1; MoveRow 1 2; ClearRow 1].
Definition demo_rows : list (list Z) := foldl (fun r op => spec_op op r) (replicate 3 []) demo_ops.

Lemma slot_mapping_correct_witness : demo_rows = [ [7; 2]; []; [5; 3] ] /\
  exists t0 t, Table.init one_rank 4 3 2 6 2 1 = Ok t0
    /\ (mfor demo_ops run_op ;; commit_block_table 3 ;; compute_slot_mapping reverse 3 [0; 2; 2; 5] [0; 5; 3; 4; 7]) t0 = (Ok tt, t)
    /\ slot_mapping t = [28; 9; 23; 12; 15; PAD_SLOT_ID].
Proof.
  split; [by vm_compute|].
  destruct (slot_mapping_correct reverse one_rank 4 3 2 6 2 1 3 _ demo_ops [0; 2; 2; 5] [0; 5; 3; 4; 7] (fun l => reverse_Permutation l) eq_refl) as (t & R & _).
  - lia.
  - cbn [demo_ops ops_fit]. unfold op_fits. cbv zeta.
    repeat match goal with
    | |- _ /\ _ => split
    | |- True => exact I
    | |- Forall _ [] => apply Forall_nil_2
    | |- Forall _ (_ :: _) => apply Forall_cons_2; [split|]
    | |- _ <= _ => by vm_compute
    | |- _ < _ => by vm_compute
    end.
  - split.
    + vm_compute. by repeat split.
    + vm_compute. by repeat split.
    + done.
    + intros r Hr. assert (r = 0 \/ r = 1 \/ r = 2) as [->|[->| ->]] by lia; vm_compute; by split.
    + vm_compute. by repeat split.
    + intros r j Hr Hj. assert (r = 0 \/ r = 1 \/ r = 2) as [->|[->| ->]] by lia; cbv -[Z.le Z.lt] in Hj.
      * assert (j = 0 \/ j = 1) as [->| ->] by lia; vm_compute; by split.
      * lia.
      * assert (j = 2 \/ j = 3 \/ j = 4) as [->|[->| ->]] by lia; vm_compute; by split.
  - eexists _, t. split; [reflexivity|]. split; [exact R|]. apply (f_equal (fun x => slot_mapping x.2)) in R. vm_compute in R. symmetry. exact R.
Defined.

Lemma context_parallel_partition_witness : let a := {| ka_num_tokens := 0; ka_max_num_tokens := 0; ka_query_start_loc := []; ka_positions := [];
    ka_block_table := []; ka_block_table_stride := 0; ka_block_size := 4; TOTAL_CP_WORLD_SIZE := 3; TOTAL_CP_RANK := 0;
    CP_KV_CACHE_INTERLEAVE_SIZE := 2; PAD_ID := PAD_SLOT_ID; BLOCK_SIZE := 1024 |} in
  slot_id {| a with TOTAL_CP_RANK := 1 |} 20 7 = 30 /\
  exists r, 0 <= r < 3 /\ 7 * 4 <= slot_id {| a with TOTAL_CP_RANK := r |} 20 7 < 8 * 4.
Proof.
  intros a. split; [by vm_compute|]. destruct (context_parallel_partition a) as [H _]; [done|done|done|done|done|].
  destruct (H 20 7) as (r & Hr & Hs & _); [lia|lia|]. exists r. split; [exact Hr|exact Hs].
Defined.

End TableFacts.
