(* ===== verification/ShmRing.v ===== *)
(** The shared-memory message queue: [distributed/device_communicators/shm_broadcast.py].

    One writer broadcasts messages to the readers of its node through a ring of
    chunks in shared memory.  There are no locks: each chunk has a written flag and a
    read flag per reader.  The model is a state machine whose steps are the single
    accesses of [acquire_write], [acquire_read], [enqueue] and [dequeue] to the shared
    memory, one byte each, in any interleaving of the processes.  What a process does
    with its own variables is part of the step of the access before it.

    The memory fences of the code order the accesses of a process; the model is
    sequentially consistent.  Messages that do not fit into a chunk go through a ZeroMQ
    socket, of which is used that each subscriber gets all messages in order.  The wake-up of
    idle readers ([SpinCondition]) only decides how long a reader waits: here a reader
    may look at the flags at any time and give up at any time between two looks (for a
    timeout or [shutdown]), and so may a writer. *)

From S2P Require Import Prelude.
From Stdlib Require Import Strings.Byte.
Local Open Scope Z_scope.

(** [ShmRingBuffer.__init__] *)
Record ShmRingBuffer := {
  n_reader : Z;
  max_chunk_bytes : Z;
  max_chunks : Z;
}.

Module Ring.

Definition metadata_size (b : ShmRingBuffer) : Z := 1 + n_reader b.
Definition total_bytes_of_buffer (b : ShmRingBuffer) : Z := (max_chunk_bytes b + metadata_size b) * max_chunks b.
Definition data_offset : Z := 0.
Definition metadata_offset (b : ShmRingBuffer) : Z := max_chunk_bytes b * max_chunks b.

(** Where [get_data(idx)\[j\]] and [get_metadata(idx)\[i\]] are in the buffer. *)
Definition data_at (b : ShmRingBuffer) (idx j : Z) : Z := data_offset + idx * max_chunk_bytes b + j.
Definition metadata_at (b : ShmRingBuffer) (idx i : Z) : Z := metadata_offset b + idx * metadata_size b + i.

Definition memory := Z -> byte.
Definition store (addr : Z) (x : byte) (mem : memory) : memory := fun a => if a =? addr then x else mem a.

(** ** Messages *)

(** The pickled object and its out-of-band buffers, [all_buffers]. *)
Definition message := list bytes.

(** [total_bytes] of [enqueue]. *)
Definition total_bytes (m : message) : Z := foldl (fun acc buf => acc + (zlen buf + 4)) 6 (tail m).

Definition overflows (b : ShmRingBuffer) (m : message) : bool :=
  max_chunk_bytes b <=? total_bytes m + zlen (default [] (head m)).

(** What [enqueue] writes into the chunk, from byte 0 on. *)
Definition chunk_bytes (b : ShmRingBuffer) (m : message) : res bytes :=
  if overflows b m then Ok [x01]
  else
    count ← int_to_bytes_big (zlen m) 2;
    parts ← mapM (fun buf => len ← int_to_bytes_big (zlen buf) 4; Ok (len ++ buf)) m;
    Ok (x00 :: count ++ concat parts).

(** [for i in range(buf_count)] of [dequeue]. *)
Fixpoint read_buffers (count : nat) (buf : bytes) (offset : Z) : message :=
  match count with
  | O => []
  | S count =>
      let buf_offset := offset + 4 in
      let buf_len := int_from_bytes_big (py_slice buf offset buf_offset) in
      let offset := buf_offset + buf_len in
      py_slice buf buf_offset offset :: read_buffers count buf offset
  end.

(** What [dequeue] finds in a chunk: nothing when the message is on the socket. *)
Definition read_chunk (buf : bytes) : res (option message) :=
  first ← py_get buf 0;
  if Z_of_byte first =? 1 then Ok None
  else Ok (Some (read_buffers (Z.to_nat (int_from_bytes_big (py_slice buf 1 3))) buf 3)).

(** ** Processes *)

(** Where the writer is; the message is that of the current [enqueue]. *)
Inductive writer_pc :=
  | WIdle
  (** [sum(metadata_buffer\[1:\])], up to flag [i]; then the written flag is read *)
  | WSum (m : message) (i read_count : Z)
  (** about to mark the block as not written *)
  | WClear (m : message)
  (** the caller writes byte [j] *)
  | WData (m : message) (j : nat)
  (** [for i in range(1, n_reader + 1)]; then the block is marked as written *)
  | WReset (m : message) (i : Z)
  (** [local_socket.send_multipart] *)
  | WSend (m : message).

Inductive reader_pc :=
  | RIdle
  (** about to read its own flag *)
  | RPoll
  (** its flag was [read_flag]; about to read the written flag *)
  | RCheck (read_flag : byte)
  (** the caller has read the bytes [buf] of the chunk *)
  | RRead (buf : bytes)
  (** waiting for the message on the socket *)
  | RRecv.

Record Reader := {
  reader_idx : Z;
  reader_at : reader_pc;
  (** messages that have arrived on [local_socket] *)
  inbox : list message;
  (** objects that [dequeue] has returned, oldest first *)
  received : list message;
}.

Record Config := {
  shared : memory;
  writer_idx : Z;
  writer_at : writer_pc;
  (** messages whose block has been marked as written, oldest first *)
  sent : list message;
  readers : list Reader;
}.

(** The writer's and the readers' objects before the first message. *)
Definition init (b : ShmRingBuffer) : Config :=
  {| shared := fun _ => x00; writer_idx := 0; writer_at := WIdle; sent := [];
     readers := replicate (Z.to_nat (n_reader b)) {| reader_idx := 0; reader_at := RIdle; inbox := []; received := [] |} |}.

Inductive event :=
  | Enqueue (m : message)
  | WriterStep
  | WriterGivesUp
  | Dequeue (i : nat)
  | ReaderStep (i : nat)
  | ReaderGivesUp (i : nat).

Section machine.
Context (b : ShmRingBuffer).

Definition is_set (x : byte) : bool := negb (Z_of_byte x =? 0).

(** The next access of the writer. *)
Definition writer_step (c : Config) : option Config :=
  let idx := writer_idx c in
  let mem := shared c in
  let goto pc := {| c with writer_at := pc |} in
  let write addr x pc := {| c with shared := store addr x mem; writer_at := pc |} in
  match writer_at c with
  | WIdle => None
  | WSum m i read_count =>
      if i <? n_reader b then Some (goto (WSum m (i + 1) (read_count + Z_of_byte (mem (metadata_at b idx (i + 1))))))
      else
        let written_flag := is_set (mem (metadata_at b idx 0)) in
        if written_flag && negb (read_count =? n_reader b) then Some (goto (WSum m 0 0)) else Some (goto (WClear m))
  | WClear m => Some (write (metadata_at b idx 0) x00 (WData m 0))
  | WData m j =>
      match chunk_bytes b m with
      | Ok bs => match bs !! j with
                 | Some x => Some (write (data_at b idx (Z.of_nat j)) x (WData m (j + 1)))
                 | None => Some (goto (WReset m 1))
                 end
      | Raise _ => None
      end
  | WReset m i =>
      if i <? n_reader b + 1 then Some (write (metadata_at b idx i) x00 (WReset m (i + 1)))
      else Some {| c with shared := store (metadata_at b idx 0) x01 mem; writer_idx := (idx + 1) mod max_chunks b;
                          sent := sent c ++ [m]; writer_at := if overflows b m then WSend m else WIdle |}
  | WSend m =>
      Some {| c with writer_at := WIdle; readers := (fun r => {| r with inbox := inbox r ++ [m] |}) <$> readers c |}
  end.

(** The next access of reader [i]: the memory afterwards and the reader. *)
Definition reader_access (mem : memory) (i : nat) (r : Reader) : option (memory * Reader) :=
  let idx := reader_idx r in
  let goto pc := Some (mem, {| r with reader_at := pc |}) in
  let my_flag := metadata_at b idx (Z.of_nat i + 1) in
  match reader_at r with
  | RIdle => None
  | RPoll => goto (RCheck (mem my_flag))
  | RCheck read_flag =>
      let written_flag := mem (metadata_at b idx 0) in
      if negb (is_set written_flag) || is_set read_flag then goto RPoll else goto (RRead [])
  | RRead buf =>
      if zlen buf <? max_chunk_bytes b then goto (RRead (buf ++ [mem (data_at b idx (zlen buf))]))
      else match read_chunk buf with
      | Ok found =>
          Some (store my_flag x01 mem,
                {| r with reader_idx := (idx + 1) mod max_chunks b;
                          reader_at := match found with Some _ => RIdle | None => RRecv end;
                          received := match found with Some m => received r ++ [m] | None => received r end |})
      | Raise _ => None
      end
  | RRecv =>
      match inbox r with
      | [] => None
      | m :: rest => Some (mem, {| r with reader_at := RIdle; inbox := rest; received := received r ++ [m] |})
      end
  end.

Definition with_reader (c : Config) (i : nat) (f : Reader -> option (memory * Reader)) : option Config :=
  r ← readers c !! i; '(mem, r') ← f r;
  Some {| c with shared := mem; readers := <[i := r']> (readers c) |}.

Definition exec (e : event) (c : Config) : option Config :=
  match e with
  | Enqueue m =>
      match writer_at c, chunk_bytes b m with
      | WIdle, Ok _ => Some {| c with writer_at := WSum m 0 0 |}
      | _, _ => None
      end
  | WriterStep => writer_step c
  | WriterGivesUp =>
      match writer_at c with WSum _ 0 0 => Some {| c with writer_at := WIdle |} | _ => None end
  | Dequeue i => with_reader c i (fun r =>
      match reader_at r with RIdle => Some (shared c, {| r with reader_at := RPoll |}) | _ => None end)
  | ReaderStep i => with_reader c i (reader_access (shared c) i)
  | ReaderGivesUp i => with_reader c i (fun r =>
      match reader_at r with RPoll => Some (shared c, {| r with reader_at := RIdle |}) | _ => None end)
  end.

(** [c'] follows [c] in some interleaving. *)
Inductive steps : Config -> Config -> Prop :=
  | steps_refl c : steps c c
  | steps_cons c c1 c2 e : exec e c = Some c1 -> steps c1 c2 -> steps c c2.

Definition reachable (c : Config) : Prop := steps (init b) c.

Fixpoint run (es : list event) (c : Config) : option Config :=
  match es with [] => Some c | e :: es => c1 ← exec e c; run es c1 end.

End machine.
End Ring.
