(* ===== verification/ShmRingFacts.v ===== *)
(** Every reader of the ring gets every message, in order and whole, in all
    interleavings of the memory accesses; and no process is ever stuck for good. *)

From S2P Require Import Prelude ShmRing.
From Stdlib Require Import Strings.Byte.
Local Open Scope Z_scope.

Module RingFacts.
Import Ring.

Class RingOk (b : ShmRingBuffer) : Prop := {
  rk_readers : 1 <= n_reader b;
  rk_bytes : 1 <= max_chunk_bytes b;
  rk_chunks : 1 <= max_chunks b;
}.

(** ** Chunks *)

Lemma total_bytes_spec (l : list bytes) k : foldl (fun acc buf => acc + (zlen buf + 4)) k l = k + zlen (concat l) + 4 * zlen l.
Proof.
  revert k. induction l as [|x l IH]; intros k; simpl; [unfold zlen; simpl; lia|]. rewrite IH, zlen_app, zlen_cons. lia.
Qed.

Lemma to_bytes_ok n len bs : int_to_bytes_big n len = Ok bs -> length bs = len /\ int_from_bytes_big bs = n.
Proof.
  unfold int_to_bytes_big. destruct (_ && _) eqn:E; [|done]. intros [= <-]. split; [apply length_to_bytes_big_aux|].
  apply int_from_to_bytes_big. lia.
Qed.

Lemma drop_slice (buf : bytes) (off len : Z) : 0 <= off -> 0 <= len -> off + len <= zlen buf ->
  py_slice buf off (off + len) = take (Z.to_nat len) (drop (Z.to_nat off) buf).
Proof. intros H1 H2 H3. rewrite py_slice_nonneg by lia. f_equal. lia. Qed.

Lemma read_buffers_ok (m : list bytes) parts : mapM (fun buf => len ← int_to_bytes_big (zlen buf) 4; Ok (len ++ buf)) m = Ok parts ->
  zlen (concat parts) = zlen (concat m) + 4 * zlen m
  /\ forall buf off junk, 0 <= off -> drop (Z.to_nat off) buf = concat parts ++ junk -> read_buffers (length m) buf off = m.
Proof.
  revert parts. induction m as [|x m IH]; intros parts H.
  { injection H as <-. split; [done|]. done. }
  cbn [mapM] in H. destruct (int_to_bytes_big (zlen x) 4) as [len|e] eqn:El; [|done]. cbn [mbind res_bind] in H.
  destruct (mapM _ m) as [parts'|e] eqn:Em; [|done]. injection H as <-. destruct (IH parts' eq_refl) as [IHl IHr].
  apply to_bytes_ok in El as [Hlen Hval]. split.
  { simpl. rewrite !zlen_app, zlen_cons, IHl. unfold zlen at 1. lia. }
  intros buf off junk Hoff Hd. simpl in Hd. rewrite <- !app_assoc in Hd.
  assert (zlen buf = off + zlen (len ++ x ++ concat parts' ++ junk)) as Hz.
  { pose proof (f_equal length Hd) as Hl. rewrite length_drop in Hl. assert (off <= zlen buf).
    { destruct (decide (off <= zlen buf)); [done|]. rewrite drop_ge in Hd by (unfold zlen in *; lia). destruct len; [done|done]. }
    unfold zlen in *. lia. }
  rewrite !zlen_app in Hz. pose proof (zlen_nonneg x). pose proof (zlen_nonneg (concat parts')). pose proof (zlen_nonneg junk).
  assert (zlen len = 4) as Hl4 by (unfold zlen; lia). cbn [length read_buffers].
  rewrite (drop_slice buf off 4), Hd by lia. replace (Z.to_nat 4) with (length len) by lia. rewrite take_app_length, Hval.
  assert (drop (Z.to_nat (off + 4)) buf = x ++ concat parts' ++ junk) as Hd4.
  { replace (Z.to_nat (off + 4)) with (Z.to_nat off + length len)%nat by lia. by rewrite <- drop_drop, Hd, drop_app_length. }
  rewrite drop_slice, Hd4 by lia. replace (Z.to_nat (zlen x)) with (length x) by (unfold zlen; lia). rewrite take_app_length. f_equal.
  apply (IHr _ _ junk); [lia|]. replace (Z.to_nat (off + 4 + zlen x)) with (Z.to_nat (off + 4) + length x)%nat by (unfold zlen; lia).
  by rewrite <- drop_drop, Hd4, drop_app_length.
Qed.

Section ring.
Context (b : ShmRingBuffer) {Hring : RingOk b}.

(** The bytes of a message fit into a chunk and are read back. *)
Lemma chunk_fits m bs : chunk_bytes b m = Ok bs -> 1 <= zlen bs <= max_chunk_bytes b.
Proof.
  pose proof rk_bytes. unfold chunk_bytes. destruct (overflows b m) eqn:Eo; [intros [= <-]; done|].
  destruct (int_to_bytes_big (zlen m) 2) as [count|] eqn:Ec; [|done]. cbn [mbind res_bind]. destruct (mapM _ m) as [parts|] eqn:Em; [|done]. intros [= <-].
  destruct (read_buffers_ok m parts Em) as [Hl _]. apply to_bytes_ok in Ec as [Hc _]. assert (zlen count = 2) as Hc2 by (unfold zlen; lia).
  rewrite zlen_cons, zlen_app, Hl, Hc2. apply Z.leb_gt in Eo. unfold total_bytes in Eo. rewrite total_bytes_spec in Eo.
  destruct m as [|x m]; cbn [tail head default concat] in *; rewrite ?zlen_cons, ?zlen_app in *; unfold zlen in *; cbn in *; lia.
Qed.

Lemma read_chunk_ok m bs buf : chunk_bytes b m = Ok bs -> bs `prefix_of` buf ->
  read_chunk buf = Ok (if overflows b m then None else Some m).
Proof.
  unfold chunk_bytes, read_chunk. destruct (overflows b m) eqn:Eo.
  { intros [= <-] [junk ->]. done. }
  destruct (int_to_bytes_big (zlen m) 2) as [count|] eqn:Ec; [|done]. cbn [mbind res_bind]. destruct (mapM _ m) as [parts|] eqn:Em; [|done].
  intros [= <-] [junk ->]. destruct (read_buffers_ok m parts Em) as [Hl Hr]. apply to_bytes_ok in Ec as [Hc Hv].
  set (buf := (x00 :: count ++ concat parts) ++ junk). assert (drop 3 buf = concat parts ++ junk) as Hd.
  { subst buf. destruct count as [|c1 [|c2 [|c3 count] ] ]; done. }
  assert (py_slice buf 1 3 = count) as ->.
  { rewrite py_slice_nonneg.
    - subst buf. destruct count as [|c1 [|c2 [|c3 count] ] ]; done.
    - lia.
    - subst buf. rewrite !zlen_app, zlen_cons, zlen_app. pose proof (zlen_nonneg (concat parts)). pose proof (zlen_nonneg junk). unfold zlen at 1. lia. }
  rewrite py_get_nonneg by done. change (buf !! Z.to_nat 0) with (Some x00). cbn [res_of_option mbind res_bind].
  change (Z_of_byte x00 =? 1) with false. cbn iota. rewrite Hv. unfold zlen. rewrite Nat2Z.id. do 2 f_equal. by apply (Hr _ _ junk).
Qed.

(** ** Layout: no two flags or bytes share an address *)

Lemma metadata_inj x i y j : 0 <= i <= n_reader b -> 0 <= j <= n_reader b -> metadata_at b x i = metadata_at b y j -> x = y /\ i = j.
Proof. unfold metadata_at, metadata_size. intros Hi Hj E. assert (x = y) by nia. subst. lia. Qed.

Lemma data_inj x i y j : 0 <= i < max_chunk_bytes b -> 0 <= j < max_chunk_bytes b -> data_at b x i = data_at b y j -> x = y /\ i = j.
Proof. unfold data_at, data_offset. intros Hi Hj E. assert (x = y) by nia. subst. lia. Qed.

Lemma data_metadata x i y j : 0 <= x < max_chunks b -> 0 <= i < max_chunk_bytes b -> 0 <= y -> 0 <= j -> data_at b x i ≠ metadata_at b y j.
Proof. unfold data_at, data_offset, metadata_at, metadata_offset, metadata_size. pose proof rk_readers. nia. Qed.

(** All accesses are inside the buffer. *)
Lemma layout_in_buffer x : 0 <= x < max_chunks b ->
  (forall i, 0 <= i < max_chunk_bytes b -> 0 <= data_at b x i < metadata_offset b)
  /\ (forall i, 0 <= i <= n_reader b -> metadata_offset b <= metadata_at b x i < total_bytes_of_buffer b).
Proof.
  unfold data_at, data_offset, metadata_at, metadata_offset, total_bytes_of_buffer, metadata_size. pose proof rk_readers. pose proof rk_bytes. split; intros; nia.
Qed.

(** The flag [i] and byte [j] of a chunk. *)
Definition flag (mem : memory) (x i : Z) : byte := mem (metadata_at b x i).
Definition cell (mem : memory) (x j : Z) : byte := mem (data_at b x j).

#[local] Arguments flag : simpl never.
#[local] Arguments cell : simpl never.

Lemma flag_store_flag mem x i y j v : 0 <= i <= n_reader b -> 0 <= j <= n_reader b ->
  flag (store (metadata_at b y j) v mem) x i = if decide (x = y /\ i = j) then v else flag mem x i.
Proof.
  intros Hi Hj. unfold flag, store. destruct (Z.eqb_spec (metadata_at b x i) (metadata_at b y j)) as [E|E].
  - rewrite decide_True; [done|]. by apply metadata_inj in E.
  - rewrite decide_False; [done|]. by intros [-> ->].
Qed.

Lemma cell_store_flag mem x i y j v : 0 <= x < max_chunks b -> 0 <= i < max_chunk_bytes b -> 0 <= y -> 0 <= j ->
  cell (store (metadata_at b y j) v mem) x i = cell mem x i.
Proof. intros. unfold cell, store. by rewrite (proj2 (Z.eqb_neq _ _)) by (by apply data_metadata). Qed.

Lemma flag_store_cell mem x i y j v : 0 <= y < max_chunks b -> 0 <= j < max_chunk_bytes b -> 0 <= x -> 0 <= i ->
  flag (store (data_at b y j) v mem) x i = flag mem x i.
Proof. intros. unfold flag, store. rewrite (proj2 (Z.eqb_neq _ _)); [done|]. intros E. by apply (data_metadata y j x i). Qed.

Lemma cell_store_cell mem x i y j v : 0 <= i < max_chunk_bytes b -> 0 <= j < max_chunk_bytes b ->
  cell (store (data_at b y j) v mem) x i = if decide (x = y /\ i = j) then v else cell mem x i.
Proof.
  intros Hi Hj. unfold cell, store. destruct (Z.eqb_spec (data_at b x i) (data_at b y j)) as [E|E].
  - rewrite decide_True; [done|]. by apply data_inj in E.
  - rewrite decide_False; [done|]. by intros [-> ->].
Qed.

(** ** The invariant *)

Notation M := (max_chunks b).
Notation n := (n_reader b).

Definition published (c : Config) : Z := zlen (sent c).

(** How many messages a reader has taken out of the ring. *)
Definition consumed (r : Reader) : Z := zlen (received r) + match reader_at r with RRecv => 1 | _ => 0 end.

(** The messages whose turn on the socket is over. *)
Definition socketed (pc : writer_pc) (l : list message) : list message := match pc with WSend _ => removelast l | _ => l end.

Definition in_write (pc : writer_pc) : Prop := match pc with WData _ _ | WReset _ _ => True | _ => False end.

Definition encodable (m : message) : Prop := exists bs, chunk_bytes b m = Ok bs.

(** The first [k] bytes of message [m] are in chunk [x]. *)
Definition chunk_is (mem : memory) (x : Z) (m : message) (k : nat) : Prop :=
  forall bs j v, chunk_bytes b m = Ok bs -> bs !! j = Some v -> (j < k)%nat -> cell mem x (Z.of_nat j) = v.

(** Message number [k] is in its chunk, marked as read by those who have consumed it. *)
Record block_ok (mem : memory) (rs : list Reader) (k : Z) (m : message) : Prop := {
  bo_written : flag mem (k mod M) 0 = x01;
  bo_read : forall i r, rs !! i = Some r -> flag mem (k mod M) (Z.of_nat i + 1) = if k <? consumed r then x01 else x00;
  bo_chunk : forall bs, chunk_bytes b m = Ok bs -> chunk_is mem (k mod M) m (length bs);
}.

(** Nobody is to read the chunk of the next message any more. *)
Definition room (c : Config) : Prop := forall i r, readers c !! i = Some r -> published c - M < consumed r.

Definition writer_ok (c : Config) : Prop :=
  let idx := writer_idx c in
  let mem := shared c in
  match writer_at c with
  | WIdle => True
  | WSum m i count => encodable m /\ 0 <= i <= n /\ 0 <= count <= i
      /\ (count = i -> forall j, 1 <= j <= i -> flag mem idx j = x01)
  | WClear m => encodable m /\ room c
  | WData m j => encodable m /\ room c /\ flag mem idx 0 = x00 /\ chunk_is mem idx m j
  | WReset m i => encodable m /\ room c /\ flag mem idx 0 = x00 /\ (forall bs, chunk_bytes b m = Ok bs -> chunk_is mem idx m (length bs))
      /\ 1 <= i <= n + 1 /\ forall j, 1 <= j < i -> flag mem idx j = x00
  | WSend m => last (sent c) = Some m /\ overflows b m = true
  end.

(** A reader against the memory, the published messages and those on the socket. *)
Record reader_ok (mem : memory) (l socket : list message) (i : nat) (r : Reader) : Prop := {
  ro_idx : reader_idx r = consumed r mod M;
  ro_range : consumed r <= zlen l <= consumed r + M;
  ro_received : received r `prefix_of` l;
  ro_socket : (length (received r) <= length socket)%nat;
  ro_inbox : inbox r = filter (fun m => overflows b m = true) (drop (length (received r)) socket);
  ro_check : forall f, reader_at r = RCheck f -> is_set f = false -> is_set (flag mem (reader_idx r) (Z.of_nat i + 1)) = false;
  ro_read : forall buf, reader_at r = RRead buf -> consumed r < zlen l /\ zlen buf <= max_chunk_bytes b
    /\ forall m bs j v, l !! length (received r) = Some m -> chunk_bytes b m = Ok bs -> bs !! j = Some v -> (j < length buf)%nat -> buf !! j = Some v;
  ro_recv : reader_at r = RRecv -> exists m, l !! length (received r) = Some m /\ overflows b m = true;
}.

Record inv (c : Config) : Prop := {
  iv_readers : zlen (readers c) = n;
  iv_idx : writer_idx c = published c mod M;
  iv_sent : forall m, m ∈ sent c -> encodable m;
  iv_block : forall k m, 0 <= k -> sent c !! Z.to_nat k = Some m -> published c - M <= k -> (in_write (writer_at c) -> published c - M < k) ->
    block_ok (shared c) (readers c) k m;
  iv_fresh : forall k i, published c <= k < M -> 0 <= i <= n -> flag (shared c) k i = x00;
  iv_writer : writer_ok c;
  iv_reader : forall i r, readers c !! i = Some r -> reader_ok (shared c) (sent c) (socketed (writer_at c) (sent c)) i r;
}.

Lemma consumed_nonneg r : 0 <= consumed r.
Proof. unfold consumed. pose proof (zlen_nonneg (received r)). destruct (reader_at r); lia. Qed.

Lemma mod_range x : 0 <= x mod M < M.
Proof. apply Z.mod_pos_bound. pose proof rk_chunks. lia. Qed.

(** Messages less than a lap apart are in different chunks. *)
Lemma mod_ne x y : x ≠ y -> - M < x - y < M -> x mod M ≠ y mod M.
Proof.
  intros Hn Hd E. pose proof rk_chunks. pose proof (Z.div_mod x M ltac:(lia)). pose proof (Z.div_mod y M ltac:(lia)).
  assert (x - y = M * (x / M - y / M)) by lia. assert (x / M - y / M = 0) by nia. lia.
Qed.

Lemma reader_rank c i r : inv c -> readers c !! i = Some r -> 0 <= Z.of_nat i + 1 <= n /\ 1 <= Z.of_nat i + 1.
Proof. intros H Hr. apply lookup_lt_Some in Hr. pose proof (iv_readers c H) as Hl. unfold zlen in Hl. lia. Qed.

Lemma ring_init_inv : inv (init b).
Proof.
  pose proof rk_readers. pose proof rk_chunks. split; cbn.
  - unfold zlen. rewrite length_replicate. lia.
  - unfold published. cbn. rewrite Z.mod_0_l; lia.
  - intros m. by rewrite elem_of_nil.
  - intros k m _ Hk. done.
  - done.
  - done.
  - intros i r Hr. apply lookup_replicate in Hr as [-> _]. split; cbn; try done.
    unfold consumed, zlen. cbn. lia.
Qed.

(** The flags of the chunk that the writer is to use next. *)
Lemma next_chunk_flags c i : inv c -> ~ in_write (writer_at c) -> 1 <= i <= n ->
  flag (shared c) (writer_idx c) i = x00 \/ flag (shared c) (writer_idx c) i = x01.
Proof.
  intros H Hw Hi. pose proof rk_chunks. rewrite (iv_idx c H). destruct (decide (published c < M)) as [Hlt|Hge].
  - left. pose proof (zlen_nonneg (sent c)). rewrite Z.mod_small by (unfold published in *; lia). apply (iv_fresh c H); lia.
  - set (k := published c - M). assert (exists m, sent c !! Z.to_nat k = Some m) as [m Hm].
    { apply lookup_lt_is_Some_2. unfold published, zlen in *. lia. }
    assert (published c mod M = k mod M) as ->.
    { unfold k. replace (published c - M) with (published c + (-1) * M) by lia. by rewrite Z.mod_add by lia. }
    assert (exists r, readers c !! Z.to_nat (i - 1) = Some r) as [r Hr].
    { apply lookup_lt_is_Some_2. pose proof (iv_readers c H) as Hl. unfold zlen in Hl. lia. }
    destruct (iv_block c H k m ltac:(lia) Hm ltac:(lia) ltac:(done)) as [_ Hread _]. specialize (Hread _ _ Hr).
    replace (Z.of_nat (Z.to_nat (i - 1)) + 1) with i in Hread by lia. destruct (k <? consumed r); auto.
Qed.

(** The writer may go on: the chunk was read by all or never used. *)
Lemma room_found c : inv c -> ~ in_write (writer_at c) ->
  is_set (flag (shared c) (writer_idx c) 0) = false \/ (forall j, 1 <= j <= n -> flag (shared c) (writer_idx c) j = x01) -> room c.
Proof.
  intros H Hw Hgo i r Hr. pose proof rk_chunks. destruct (decide (published c < M)) as [Hlt|Hge]; [pose proof (consumed_nonneg r); lia|].
  set (k := published c - M). assert (exists m, sent c !! Z.to_nat k = Some m) as [m Hm].
  { apply lookup_lt_is_Some_2. unfold published, zlen in *. lia. }
  assert (writer_idx c = k mod M) as Ek.
  { rewrite (iv_idx c H). unfold k. replace (published c - M) with (published c + (-1) * M) by lia. by rewrite Z.mod_add by lia. }
  destruct (iv_block c H k m ltac:(lia) Hm ltac:(lia) ltac:(done)) as [Hwr Hread _]. rewrite Ek in Hgo. destruct Hgo as [Hu|Hall].
  - by rewrite Hwr in Hu.
  - specialize (Hread _ _ Hr). destruct (reader_rank c i r H Hr). rewrite Hall in Hread by lia. fold k. destruct (Z.ltb_spec k (consumed r)); [done|discriminate].
Qed.

(** Only the writer's position changes. *)
Lemma inv_goto c pc : inv c -> (in_write (writer_at c) -> in_write pc) -> socketed pc (sent c) = socketed (writer_at c) (sent c) ->
  writer_ok {| c with writer_at := pc |} -> inv {| c with writer_at := pc |}.
Proof.
  intros [A B C D E F G] Hw Hs Hok. split; cbn; try done.
  - intros k m Hk Hm Hlo Hin. apply D; [done|done|done|auto].
  - intros i r Hr. rewrite Hs. by apply G.
Qed.

(** The writer changes the chunk of the next message: [mem'] is as before elsewhere. *)
Definition only_next (c : Config) (mem' : memory) : Prop :=
  (forall x i, 0 <= x < M -> x ≠ writer_idx c -> 0 <= i <= n -> flag mem' x i = flag (shared c) x i)
  /\ (forall x j, 0 <= x < M -> x ≠ writer_idx c -> 0 <= j < max_chunk_bytes b -> cell mem' x j = cell (shared c) x j)
  /\ (forall i, 0 <= i <= n -> flag mem' (writer_idx c) i = flag (shared c) (writer_idx c) i \/ flag mem' (writer_idx c) i = x00).

Lemma block_ok_next c mem' k m : inv c -> only_next c mem' -> 0 <= k -> published c - M < k -> sent c !! Z.to_nat k = Some m ->
  block_ok (shared c) (readers c) k m -> block_ok mem' (readers c) k m.
Proof.
  intros H (Hf & Hc & _) Hk0 Hk Hm [W R D]. pose proof rk_readers. pose proof (mod_range k). apply lookup_lt_Some in Hm as Hlt.
  assert (k mod M ≠ writer_idx c) as Hne by (rewrite (iv_idx c H); apply mod_ne; unfold published, zlen in *; lia). split.
  - rewrite Hf by (try done; lia). done.
  - intros i r Hr. destruct (reader_rank c i r H Hr). rewrite Hf by (try done; lia). by apply R.
  - intros bs Hbs. pose proof (chunk_fits _ _ Hbs). intros bs' j v Hbs' Hv Hj. specialize (D bs Hbs bs' j v Hbs' Hv Hj). rewrite Hc by (unfold zlen in *; (try done); lia). done.
Qed.

Lemma inv_write c mem' pc : inv c -> only_next c mem' -> in_write pc -> socketed pc (sent c) = socketed (writer_at c) (sent c) ->
  writer_ok {| c with shared := mem'; writer_at := pc |} -> inv {| c with shared := mem'; writer_at := pc |}.
Proof.
  intros H Hn Hw Hs Hok. pose proof H as [A B C D E F G]. split; cbn; try done.
  - intros k m Hk Hm Hlo Hin. specialize (Hin Hw). apply (block_ok_next c); [done|done|done|done|done|]. apply D; [done|done|done|]. by intros _.
  - intros k i Hk Hi. change (published c <= k < M) in Hk. destruct Hn as (Hf & _ & Hz). destruct (decide (k = writer_idx c)) as [->|Hne].
    + destruct (Hz i Hi) as [->| ->]; [|done]. by apply E.
    + rewrite Hf by (try done; pose proof (zlen_nonneg (sent c)); unfold published in *; lia). by apply E.
  - intros i r Hr. rewrite Hs. destruct (G i r Hr) as [R1 R2 R3 R4 R5 R6 R7 R8]. split; try done.
    intros f Hat Hf. destruct (reader_rank c i r H Hr). destruct Hn as (Hfl & _ & Hz). specialize (R6 f Hat Hf).
    destruct (decide (reader_idx r = writer_idx c)) as [Ex|Hne].
    + rewrite Ex in *. destruct (Hz (Z.of_nat i + 1)) as [->| ->]; [lia|done|done].
    + rewrite Hfl; [done|rewrite R1; apply mod_range|done|lia].
Qed.

(** The stores of the writer before it marks the chunk as written. *)
Lemma only_next_flag c i : inv c -> 0 <= i <= n -> only_next c (store (metadata_at b (writer_idx c) i) x00 (shared c)).
Proof.
  intros H Hi. assert (0 <= writer_idx c < M) as Hw by (rewrite (iv_idx c H); apply mod_range). repeat split.
  - intros x j Hx Hne Hj. rewrite flag_store_flag by done. rewrite decide_False; [done|]. by intros [? _].
  - intros x j Hx Hne Hj. apply cell_store_flag; [done|done|lia|lia].
  - intros j Hj. rewrite flag_store_flag by done. case_decide; [by right|by left].
Qed.

Lemma only_next_cell c j v : inv c -> 0 <= j < max_chunk_bytes b -> only_next c (store (data_at b (writer_idx c) j) v (shared c)).
Proof.
  intros H Hj. assert (0 <= writer_idx c < M) as Hw by (rewrite (iv_idx c H); apply mod_range). repeat split.
  - intros x i Hx Hne Hi. apply flag_store_cell; [done|done|lia|lia].
  - intros x k Hx Hne Hk. rewrite cell_store_cell by done. rewrite decide_False; [done|]. by intros [? _].
  - intros i Hi. left. apply flag_store_cell; [done|done|lia|lia].
Qed.

Lemma chunk_is_store c m k x i v : inv c -> 0 <= i -> chunk_is (shared c) (writer_idx c) m k ->
  chunk_is (store (metadata_at b x i) v (shared c)) (writer_idx c) m k \/ x < 0.
Proof.
  intros H Hi Hc. destruct (decide (0 <= x)) as [Hx|Hx]; [left|right; lia]. intros bs j w Hbs Hj Hk.
  pose proof (chunk_fits _ _ Hbs). apply lookup_lt_Some in Hj as Hlt. rewrite cell_store_flag; [by apply (Hc bs)| |unfold zlen in *; lia|done|done].
  rewrite (iv_idx c H). apply mod_range.
Qed.

(** The message is published: its chunk holds it and nobody has read it. *)
Lemma inv_publish c m : inv c -> writer_at c = WReset m (n + 1) ->
  inv {| c with shared := store (metadata_at b (writer_idx c) 0) x01 (shared c); writer_idx := (writer_idx c + 1) mod M;
                sent := sent c ++ [m]; writer_at := if overflows b m then WSend m else WIdle |}.
Proof.
  intros H Hat. pose proof H as [A B C D E F G]. unfold writer_ok in F. rewrite Hat in F. destruct F as (Henc & Hroom & Hzero & Hchunk & _ & Hflags).
  pose proof rk_readers. pose proof rk_chunks. pose proof (zlen_nonneg (sent c)) as Hlen0. set (W := published c) in *. assert (0 <= W) as HW0 by done.
  set (mem' := store (metadata_at b (writer_idx c) 0) x01 (shared c)).
  assert (zlen (sent c ++ [m]) = W + 1) as HW by (rewrite zlen_app; done).
  assert (socketed (if overflows b m then WSend m else WIdle) (sent c ++ [m]) = sent c ++ (if overflows b m then [] else [m])) as Hsock.
  { destruct (overflows b m); cbn; [by rewrite removelast_last, app_nil_r|done]. }
  assert (forall x i, 0 <= i <= n -> (x ≠ writer_idx c \/ 1 <= i) -> flag mem' x i = flag (shared c) x i) as Hfl.
  { intros x i Hi Hne. unfold mem'. rewrite flag_store_flag by lia. rewrite decide_False; [done|]. intros [? ?]. destruct Hne; lia. }
  assert (forall x j, 0 <= x < M -> 0 <= j < max_chunk_bytes b -> cell mem' x j = cell (shared c) x j) as Hcl.
  { intros x j Hx Hj. apply cell_store_flag; [done|done| |lia]. rewrite B. apply mod_range. }
  assert (forall k x mm, 0 <= x < M -> chunk_is (shared c) x mm k -> chunk_is mem' x mm k) as Hch.
  { intros k x mm Hx Hc bs j v Hbs Hv Hj. pose proof (chunk_fits _ _ Hbs). apply lookup_lt_Some in Hv as Hlt. rewrite Hcl by (unfold zlen in *; lia). by apply (Hc bs). }
  split; cbn.
  - done.
  - unfold published. cbn. rewrite HW, B. by rewrite Zplus_mod_idemp_l.
  - intros m' [Hm'| ->%list_elem_of_singleton]%elem_of_app; [by apply C|done].
  - unfold published. cbn. rewrite HW. intros k mm Hk Hmm Hlo _. destruct (decide (k = W)) as [->|Hne].
    + rewrite lookup_app_r in Hmm by (unfold W, published, zlen; lia). replace (Z.to_nat W - length (sent c))%nat with 0%nat in Hmm by (unfold W, published, zlen; lia).
      injection Hmm as <-. split.
      * rewrite <- B. unfold mem'. rewrite flag_store_flag by lia. by rewrite decide_True.
      * intros i r Hr. destruct (reader_rank c i r H Hr). rewrite <- B, Hfl by lia. rewrite Hflags by lia.
        destruct (G i r Hr) as [_ ? _ _ _ _ _ _]. rewrite (proj2 (Z.ltb_ge _ _)); [done|]. unfold W, published. lia.
      * intros bs Hbs. rewrite <- B. apply Hch; [rewrite B; apply mod_range|]. by apply Hchunk.
    + rewrite lookup_app_l in Hmm by (apply lookup_lt_Some in Hmm; rewrite length_app in Hmm; simpl in Hmm; unfold W, published, zlen in *; lia).
      apply lookup_lt_Some in Hmm as Hlt. destruct (D k mm Hk Hmm ltac:(lia) ltac:(intros; lia)) as [D1 D2 D3].
      assert (k mod M ≠ writer_idx c) as Hn by (rewrite B; apply mod_ne; unfold W, published, zlen in *; lia). split.
      * rewrite Hfl by (try (by left); lia). done.
      * intros i r Hr. destruct (reader_rank c i r H Hr). rewrite Hfl by (try (by left); lia). by apply D2.
      * intros bs Hbs. apply Hch; [apply mod_range|]. by apply D3.
  - unfold published. cbn. rewrite HW. intros k i Hk Hi. rewrite Hfl; [apply E; lia|done|]. left. rewrite B, Z.mod_small by lia. lia.
  - unfold writer_ok. cbn. destruct (overflows b m) eqn:Ho; [|done]. split; [apply last_snoc|done].
  - intros i r Hr. destruct (G i r Hr) as [R1 R2 R3 R4 R5 R6 R7 R8]. destruct (reader_rank c i r H Hr). rewrite Hat in R4, R5. cbn [socketed] in R4, R5. split; try done.
    + rewrite HW. specialize (Hroom i r Hr). fold W in Hroom. unfold W, published in *. lia.
    + by apply prefix_app_r.
    + rewrite Hsock, length_app. lia.
    + rewrite Hsock, drop_app_le, filter_app, R5 by lia. destruct (overflows b m) eqn:Ho; [by rewrite app_nil_r|].
      rewrite (filter_cons_False (fun m => overflows b m = true) m) by (by rewrite Ho). by rewrite app_nil_r.
    + intros f Hf Hs. rewrite Hfl by lia. by apply (R6 f).
    + intros buf Hbuf. destruct (R7 buf Hbuf) as (U1 & U2 & U3). rewrite HW. split; [unfold W, published; lia|]. split; [done|].
      intros mm bs j v Hmm. rewrite lookup_app_l in Hmm; [by apply U3|]. unfold consumed in U1. rewrite Hbuf in U1. unfold zlen in U1. lia.
    + intros Hrec. destruct (R8 Hrec) as (mm & Hmm & ?). exists mm. split; [|done]. by apply lookup_app_l_Some.
Qed.

(** The message arrives on the socket of every reader. *)
Lemma inv_send c m : inv c -> writer_at c = WSend m ->
  inv {| c with writer_at := WIdle; readers := (fun r => {| r with inbox := inbox r ++ [m] |}) <$> readers c |}.
Proof.
  intros H Hat. pose proof H as [A B C D E F G]. unfold writer_ok in F. rewrite Hat in F. destruct F as [Hlast Hov].
  assert (sent c = removelast (sent c) ++ [m]) as Es.
  { destruct (sent c) as [|x l _] using rev_ind; [done|]. rewrite last_snoc in Hlast. injection Hlast as ->. by rewrite removelast_last. }
  split; cbn; try done.
  - unfold zlen. rewrite length_fmap. apply A.
  - intros k mm Hk Hm Hlo _. destruct (D k mm Hk Hm Hlo) as [D1 D2 D3]; [by rewrite Hat|]. split; try done.
    intros i r Hr. rewrite list_lookup_fmap in Hr. destruct (readers c !! i) as [r0|] eqn:Er; [|done]. injection Hr as <-. by apply (D2 i r0).
  - intros i r Hr. rewrite list_lookup_fmap in Hr. destruct (readers c !! i) as [r0|] eqn:Er; [|done]. injection Hr as <-.
    destruct (G i r0 Er) as [R1 R2 R3 R4 R5 R6 R7 R8]. rewrite Hat in R4, R5. cbn [socketed] in R4, R5. split; try done; cbn.
    + rewrite Es, length_app. lia.
    + rewrite R5. rewrite Es at 2. rewrite drop_app_le, filter_app by done. f_equal. by rewrite filter_cons_True.
Qed.

Lemma inv_writer_step c c' : inv c -> writer_step b c = Some c' -> inv c'.
Proof.
  intros H. pose proof rk_readers. assert (0 <= writer_idx c < M) as Hidx by (rewrite (iv_idx c H); apply mod_range).
  pose proof (iv_writer c H) as Hw. unfold writer_ok in Hw. unfold writer_step. destruct (writer_at c) as [|m i count|m|m j|m i|m] eqn:Hat; [done| | | | |].
  - destruct Hw as (Henc & Hi & Hc & Hall). destruct (Z.ltb_spec i n) as [Hlt|Hge].
    + intros [= <-]. apply inv_goto; [done|by rewrite Hat|by rewrite Hat|]. fold (flag (shared c) (writer_idx c) (i + 1)). cbn.
      destruct (next_chunk_flags c (i + 1) H) as [Hf|Hf]; [rewrite Hat; by intros []|lia| |]; rewrite Hf; (split; [done|]; split; [lia|]).
      * change (Z_of_byte x00) with 0. split; [lia|]. intros Heq. lia.
      * change (Z_of_byte x01) with 1. split; [lia|]. intros Heq j Hj. destruct (decide (j = i + 1)) as [->|]; [done|]. apply Hall; lia.
    + fold (flag (shared c) (writer_idx c) 0). destruct (is_set _ && _) eqn:Eb; intros [= <-].
      * apply inv_goto; [done|by rewrite Hat|by rewrite Hat|]. cbn. split; [done|]. split; [lia|]. split; [lia|]. intros _ j Hj. lia.
      * apply inv_goto; [done|by rewrite Hat|by rewrite Hat|]. cbn. split; [done|]. apply (room_found c H); [rewrite Hat; by intros []|].
        apply andb_false_iff in Eb as [Eb|Eb]; [by left|right]. apply negb_false_iff, Z.eqb_eq in Eb. intros j Hj. apply Hall; lia.
  - destruct Hw as [Henc Hroom]. intros [= <-]. apply inv_write; [done|by apply only_next_flag; [|lia]|done|by rewrite Hat|]. cbn.
    split; [done|]. split; [done|]. split; [rewrite flag_store_flag by lia; by rewrite decide_True|]. intros bs k v _ _ Hk. lia.
  - destruct Hw as (Henc & Hroom & Hz & Hch). destruct (chunk_bytes b m) as [bs|] eqn:Hbs; [|done]. pose proof (chunk_fits _ _ Hbs).
    destruct (bs !! j) as [x|] eqn:Hx; intros [= <-].
    + apply lookup_lt_Some in Hx as Hlt. assert (0 <= Z.of_nat j < max_chunk_bytes b) as Hj by (unfold zlen in *; lia).
      apply inv_write; [done|by apply only_next_cell|done|by rewrite Hat|]. cbn. split; [done|]. split; [done|].
      split; [rewrite flag_store_cell by lia; done|]. intros bs' k v Hbs' Hv Hk. rewrite Hbs in Hbs'. injection Hbs' as <-.
      apply lookup_lt_Some in Hv as Hltk. rewrite cell_store_cell by (unfold zlen in *; lia). case_decide as Hd.
      * destruct Hd as [_ Hd]. assert (k = j) as -> by lia. congruence.
      * apply (Hch bs); [done|done|]. enough (k ≠ j) by lia. intros ->. by destruct Hd.
    + apply inv_goto; [done|done|by rewrite Hat|]. cbn. split; [done|]. split; [done|]. split; [done|]. split; [|split; [lia|intros; lia] ].
      intros bs' Hbs'. rewrite Hbs in Hbs'. injection Hbs' as <-. apply lookup_ge_None in Hx. intros bs' k v Hbs' Hv Hk. apply (Hch bs'); [done|done|lia].
  - destruct Hw as (Henc & Hroom & Hz & Hch & Hi & Hfl). destruct (Z.ltb_spec i (n + 1)) as [Hlt|Hge].
    + intros [= <-]. apply inv_write; [done|by apply only_next_flag; [|lia]|done|by rewrite Hat|]. cbn. split; [done|]. split; [done|].
      split; [rewrite flag_store_flag by lia; rewrite decide_False; [done|intros [_ ?]; lia]|]. split; [|split; [lia|] ].
      * intros bs Hbs. destruct (chunk_is_store c m (length bs) (writer_idx c) i x00 H ltac:(lia) (Hch bs Hbs)); [done|lia].
      * intros j Hj. rewrite flag_store_flag by lia. case_decide as Hd; [done|]. apply Hfl. enough (j ≠ i) by lia. intros ->. by destruct Hd.
    + intros [= <-]. apply inv_publish; [done|]. rewrite Hat. f_equal. lia.
  - intros [= <-]. by apply inv_send.
Qed.

(** ** Readers *)

(** Reader [i] changes without touching the memory. *)
Lemma inv_local c i r r' : inv c -> readers c !! i = Some r -> consumed r' = consumed r ->
  reader_ok (shared c) (sent c) (socketed (writer_at c) (sent c)) i r' -> inv {| c with shared := shared c; readers := <[i := r']> (readers c) |}.
Proof.
  intros H Hr Hc Hok. pose proof H as [A B C D E F G]. apply lookup_lt_Some in Hr as Hlt.
  assert (forall j r0, <[i := r']> (readers c) !! j = Some r0 -> exists r1, readers c !! j = Some r1 /\ consumed r0 = consumed r1) as Hold.
  { intros j r0 Hj. destruct (decide (j = i)) as [->|Hn].
    - rewrite list_lookup_insert_eq in Hj by done. injection Hj as <-. by exists r.
    - rewrite list_lookup_insert_ne in Hj by done. by exists r0. }
  split; cbn; try done.
  - unfold zlen. rewrite length_insert. apply A.
  - intros k m Hk Hm Hlo Hin. destruct (D k m Hk Hm Hlo Hin) as [D1 D2 D3]. split; try done.
    intros j r0 Hj. destruct (Hold j r0 Hj) as (r1 & Hr1 & ->). by apply D2.
  - assert (room c -> room {| c with shared := shared c; readers := <[i := r']> (readers c) |}) as Hroom.
    { intros Hrm j r0 Hj. destruct (Hold j r0 Hj) as (r1 & Hr1 & ->). by apply (Hrm j r1). }
    unfold writer_ok in *. cbn. destruct (writer_at c); naive_solver.
  - intros j r0 Hj. destruct (decide (j = i)) as [->|Hn].
    + rewrite list_lookup_insert_eq in Hj by done. by injection Hj as <-.
    + rewrite list_lookup_insert_ne in Hj by done. by apply G.
Qed.

(** The chunk that a reader may read holds the message it is to get next. *)
Lemma unread_block c i r : inv c -> readers c !! i = Some r -> consumed r < published c ->
  exists m, sent c !! Z.to_nat (consumed r) = Some m /\ block_ok (shared c) (readers c) (consumed r) m.
Proof.
  intros H Hr Hlt. pose proof (consumed_nonneg r) as Hc0. destruct (lookup_lt_is_Some_2 (sent c) (Z.to_nat (consumed r))) as [m Hm].
  { unfold published, zlen in Hlt. lia. }
  exists m. split; [done|]. apply (iv_block c H); [done|done| |].
  - destruct (ro_range _ _ _ _ _ (iv_reader c H i r Hr)). unfold published. lia.
  - intros Hw. pose proof (iv_writer c H) as Hok. unfold writer_ok in Hok.
    destruct (writer_at c); try done; destruct Hok as (_ & Hroom & _); by apply (Hroom i).
Qed.

(** A reader that sees its flag unset and the written flag set has a message to read. *)
Lemma check_found c i r : inv c -> readers c !! i = Some r -> is_set (flag (shared c) (reader_idx r) (Z.of_nat i + 1)) = false ->
  is_set (flag (shared c) (reader_idx r) 0) = true -> consumed r < published c.
Proof.
  intros H Hr Hun Hwr. pose proof rk_chunks. destruct (iv_reader c H i r Hr) as [R1 R2 _ _ _ _ _ _]. pose proof (consumed_nonneg r) as Hc0.
  destruct (decide (consumed r < published c)) as [|Hge]; [done|exfalso]. assert (consumed r = published c) as Ec by (unfold published in *; lia).
  rewrite R1, Ec, <- (iv_idx c H) in Hun, Hwr. pose proof (iv_writer c H) as Hw. unfold writer_ok in Hw.
  assert (in_write (writer_at c) \/ ~ in_write (writer_at c)) as [Hin|Hin] by (destruct (writer_at c); cbn; tauto).
  { destruct (writer_at c); try done; destruct Hw as (_ & _ & Hz & _); by rewrite Hz in Hwr. }
  destruct (reader_rank c i r H Hr). destruct (decide (published c < M)) as [Hlt|Hge'].
  - rewrite (iv_idx c H), Z.mod_small, (iv_fresh c H) in Hwr by (lia || done). done.
  - set (k := published c - M) in *. assert (exists m, sent c !! Z.to_nat k = Some m) as [m Hm].
    { apply lookup_lt_is_Some_2. unfold published, zlen in *. lia. }
    destruct (iv_block c H k m ltac:(lia) Hm ltac:(lia) ltac:(done)) as [_ Hread _]. specialize (Hread i r Hr).
    assert (writer_idx c = k mod M) as Ek.
    { rewrite (iv_idx c H). unfold k. replace (published c - M) with (published c + (-1) * M) by lia. by rewrite Z.mod_add by lia. }
    rewrite Ek, Hread, (proj2 (Z.ltb_lt _ _)) in Hun by lia. done.
Qed.

(** The reader has read its chunk and marks it. *)
Lemma inv_mark c i r m r' : inv c -> readers c !! i = Some r ->
  sent c !! Z.to_nat (consumed r) = Some m -> consumed r < published c -> consumed r' = consumed r + 1 ->
  reader_idx r' = (reader_idx r + 1) mod M -> (forall f, reader_at r' ≠ RCheck f) -> (forall buf, reader_at r' ≠ RRead buf) ->
  received r' `prefix_of` sent c -> (length (received r') <= length (socketed (writer_at c) (sent c)))%nat ->
  inbox r' = filter (fun m => overflows b m = true) (drop (length (received r')) (socketed (writer_at c) (sent c))) ->
  (reader_at r' = RRecv -> exists m, sent c !! length (received r') = Some m /\ overflows b m = true) ->
  inv {| c with shared := store (metadata_at b (reader_idx r) (Z.of_nat i + 1)) x01 (shared c); readers := <[i := r']> (readers c) |}.
Proof.
  intros H Hr Hm Hlt Hc Hidx Hnc Hnr Hpre Hlen Hin Hrec. pose proof H as [A B C D E F G]. pose proof rk_chunks. pose proof (consumed_nonneg r) as Hc0.
  destruct (reader_rank c i r H Hr) as [Hi1 Hi2]. destruct (G i r Hr) as [R1 R2 R3 R4 R5 R6 R7 R8]. apply lookup_lt_Some in Hr as Hil.
  set (mem' := store _ _ _). set (k := consumed r) in *. pose proof (mod_range k) as Hkr.
  assert (forall x j, 0 <= j <= n -> (x ≠ k mod M \/ j ≠ Z.of_nat i + 1) -> flag mem' x j = flag (shared c) x j) as Hfl.
  { intros x j Hj Hne. unfold mem'. rewrite flag_store_flag by lia. rewrite decide_False; [done|]. rewrite R1. intros [? ?]. destruct Hne; lia. }
  assert (flag mem' (k mod M) (Z.of_nat i + 1) = x01) as Hmine.
  { unfold mem'. rewrite flag_store_flag by lia. by rewrite decide_True. }
  assert (forall x j, 0 <= x < M -> 0 <= j < max_chunk_bytes b -> cell mem' x j = cell (shared c) x j) as Hcl.
  { intros x j Hx Hj. apply cell_store_flag; [done|done|rewrite R1; lia|lia]. }
  assert (forall q x mm, 0 <= x < M -> chunk_is (shared c) x mm q -> chunk_is mem' x mm q) as Hch.
  { intros q x mm Hx Hq bs j v Hbs Hv Hj. pose proof (chunk_fits _ _ Hbs). apply lookup_lt_Some in Hv as Hl. rewrite Hcl by (unfold zlen in *; lia). by apply (Hq bs). }
  assert (forall j r0, <[i := r']> (readers c) !! j = Some r0 -> (j = i /\ r0 = r') \/ (j ≠ i /\ readers c !! j = Some r0)) as Hold.
  { intros j r0 Hj. destruct (decide (j = i)) as [->|Hn]; [left|right].
    - rewrite list_lookup_insert_eq in Hj by done. by injection Hj as <-.
    - by rewrite list_lookup_insert_ne in Hj by done. }
  assert (room c -> k mod M ≠ writer_idx c) as Hroomne.
  { intros Hrm. rewrite B. specialize (Hrm i r Hr). fold k in Hrm. apply mod_ne; lia. }
  split; cbn; try done.
  - unfold zlen. rewrite length_insert. apply A.
  - intros q mm Hq Hmm Hlo Hw. destruct (D q mm Hq Hmm Hlo Hw) as [D1 D2 D3]. split.
    + rewrite Hfl by lia. done.
    + intros j r0 Hj. destruct (Hold j r0 Hj) as [ [-> ->]|[Hne Hj0] ].
      * rewrite Hc. destruct (decide (q = k)) as [->|Hqk]; [by rewrite Hmine, (proj2 (Z.ltb_lt _ _)) by lia|].
        apply lookup_lt_Some in Hmm. change (published c - M <= q) in Hlo. rewrite Hfl, (D2 i r Hr); [|lia|left; apply mod_ne; unfold published, zlen in *; lia].
        fold k. destruct (Z.ltb_spec q k), (Z.ltb_spec q (k + 1)); done || lia.
      * destruct (reader_rank c j r0 H Hj0). rewrite Hfl by lia. by apply D2.
    + intros bs Hbs. apply Hch; [apply mod_range|]. by apply D3.
  - intros q j Hq Hj. change (published c <= q < M) in Hq. rewrite Hfl; [by apply E|done|]. left. rewrite Z.mod_small by lia. lia.
  - assert (room c -> room {| c with shared := mem'; readers := <[i := r']> (readers c) |}) as Hroom.
    { intros Hrm j r0 Hj. change (published c - M < consumed r0). destruct (Hold j r0 Hj) as [ [-> ->]|[_ Hj0] ]; [rewrite Hc; specialize (Hrm i r Hr); fold k in Hrm; lia|by apply (Hrm j)]. }
    assert (0 <= writer_idx c < M) as Hwi by (rewrite B; apply mod_range). unfold writer_ok in *. cbn. destruct (writer_at c) as [|mm q cnt|mm|mm q|mm q|mm]; try done.
    + destruct F as (? & ? & ? & Hall). split; [done|]. split; [done|]. split; [done|]. intros Hq j Hj.
      destruct (decide (writer_idx c = k mod M /\ j = Z.of_nat i + 1)) as [ [-> ->]|Hne]; [done|]. rewrite Hfl; [by apply Hall|lia|].
      destruct (decide (writer_idx c = k mod M)); [right; tauto|by left].
    + destruct F as [? ?]. split; [done|auto].
    + destruct F as (? & Hrm & Hz & Hq). specialize (Hroomne Hrm). split; [done|]. split; [auto|]. split; [rewrite Hfl by lia; done|]. by apply Hch.
    + destruct F as (? & Hrm & Hz & Hq & ? & Hfz). specialize (Hroomne Hrm). split; [done|]. split; [auto|]. split; [rewrite Hfl by lia; done|].
      split; [intros bs Hbs; apply Hch; [done|by apply Hq]|]. split; [done|]. intros j Hj. rewrite Hfl by lia. by apply Hfz.
  - intros j r0 Hj. destruct (Hold j r0 Hj) as [ [-> ->]|[Hne Hj0] ].
    + split; try done.
      * rewrite Hidx, R1, Hc. fold k. by rewrite Zplus_mod_idemp_l.
      * rewrite Hc. unfold published in *. lia.
      * intros f Hf. by destruct (Hnc f).
      * intros buf Hb. by destruct (Hnr buf).
    + destruct (G j r0 Hj0) as [S1 S2 S3 S4 S5 S6 S7 S8]. split; try done. intros f Hf Hs. destruct (reader_rank c j r0 H Hj0). rewrite Hfl; [by apply (S6 f)|lia|right; lia].
Qed.

(** The bytes that a reader has collected are those of the message it is to get. *)
Lemma read_found c i r buf m : inv c -> readers c !! i = Some r -> reader_at r = RRead buf -> sent c !! length (received r) = Some m ->
  zlen buf = max_chunk_bytes b -> read_chunk buf = Ok (if overflows b m then None else Some m).
Proof.
  intros H Hr Hat Hm Hlen. destruct (iv_reader c H i r Hr) as [_ _ _ _ _ _ R7 _]. destruct (R7 buf Hat) as (_ & _ & Hpt).
  destruct (iv_sent c H m) as [bs Hbs]; [by eapply list_elem_of_lookup_2|]. apply (read_chunk_ok m bs); [done|].
  pose proof (chunk_fits _ _ Hbs). exists (drop (length bs) buf). rewrite <- (take_drop (length bs) buf) at 1. f_equal.
  apply list_eq. intros j. destruct (decide (j < length bs)%nat) as [Hj|Hj].
  - destruct (lookup_lt_is_Some_2 bs j Hj) as [v Hv]. rewrite lookup_take_lt, Hv by done. apply (Hpt m bs j v Hm Hbs Hv). unfold zlen in *. lia.
  - rewrite !lookup_ge_None_2; [done|lia|rewrite length_take; lia].
Qed.

Lemma consumed_at r pc : reader_at r ≠ RRecv -> pc ≠ RRecv -> consumed {| r with reader_at := pc |} = consumed r.
Proof. intros H1 H2. unfold consumed. cbn. destruct (reader_at r), pc; done. Qed.

(** A reader that is not waiting for the socket is at message [length (received r)]. *)
Lemma consumed_received r : reader_at r ≠ RRecv -> Z.to_nat (consumed r) = length (received r).
Proof. intros H. unfold consumed, zlen. destruct (reader_at r); try done; lia. Qed.

(** Moving a reader to a position that needs no further facts. *)
Lemma inv_reader_goto c i r pc : inv c -> readers c !! i = Some r -> reader_at r ≠ RRecv -> pc ≠ RRecv ->
  (forall f, pc = RCheck f -> is_set f = false -> is_set (flag (shared c) (reader_idx r) (Z.of_nat i + 1)) = false) ->
  (forall buf, pc = RRead buf -> consumed r < published c /\ zlen buf <= max_chunk_bytes b
    /\ forall m bs j v, sent c !! length (received r) = Some m -> chunk_bytes b m = Ok bs -> bs !! j = Some v -> (j < length buf)%nat -> buf !! j = Some v) ->
  inv {| c with shared := shared c; readers := <[i := {| r with reader_at := pc |}]> (readers c) |}.
Proof.
  intros H Hr H1 H2 Hchk Hrd. apply (inv_local c i r); [done|done|by apply consumed_at|].
  destruct (iv_reader c H i r Hr) as [R1 R2 R3 R4 R5 R6 R7 R8]. split; rewrite ?consumed_at by done; cbn; try done.
Qed.

Lemma inv_reader_access c i r mem' r' : inv c -> readers c !! i = Some r -> reader_access b (shared c) i r = Some (mem', r') ->
  inv {| c with shared := mem'; readers := <[i := r']> (readers c) |}.
Proof.
  intros H Hr. pose proof rk_bytes as Hb. destruct (iv_reader c H i r Hr) as [R1 R2 R3 R4 R5 R6 R7 R8].
  unfold reader_access. destruct (reader_at r) as [| |f|buf|] eqn:Hat; [done| | | |].
  - intros [= <- <-]. apply inv_reader_goto; [done|done|by rewrite Hat|done| |done]. intros f [= <-]. done.
  - fold (flag (shared c) (reader_idx r) 0). destruct (negb _ || _) eqn:Eb; intros [= <- <-]; apply inv_reader_goto; try done; try (by rewrite Hat).
    intros buf [= <-]. apply orb_false_iff in Eb as [Ew Ef]. apply negb_false_iff in Ew. split; [|split; [unfold zlen; simpl; lia|] ].
    + apply (check_found c i r H Hr); [by apply (R6 f)|done].
    + intros m bs j v _ _ _ Hj. simpl in Hj. lia.
  - destruct (R7 buf eq_refl) as (Hlt & Hlen & Hpt). destruct (unread_block c i r H Hr Hlt) as (m & Hm & Hbk).
    rewrite consumed_received in Hm by (by rewrite Hat). destruct (Z.ltb_spec (zlen buf) (max_chunk_bytes b)) as [Hmore|Hfull].
    + intros [= <- <-]. apply inv_reader_goto; [done|done|by rewrite Hat|done|done|]. intros buf' [= <-]. split; [done|].
      split; [rewrite zlen_app; unfold zlen at 2; simpl; lia|]. intros m' bs j v Hm' Hbs Hv Hj. rewrite Hm in Hm'. injection Hm' as <-.
      rewrite length_app in Hj. simpl in Hj. destruct (decide (j = length buf)) as [->|Hne].
      * rewrite lookup_app_r, Nat.sub_diag by lia. cbn. f_equal. rewrite R1. unfold zlen. apply lookup_lt_Some in Hv as Hl.
        by apply (bo_chunk _ _ _ _ Hbk bs Hbs bs).
      * rewrite lookup_app_l by lia. apply (Hpt m bs j v); [done|done|done|lia].
    + rewrite (read_found c i r buf m) by (try done; lia). intros [= <- <-].
      assert (consumed r = zlen (received r)) as Ec by (unfold consumed; rewrite Hat; lia).
      assert ((length (received r) < length (sent c))%nat) as Hls by (by apply lookup_lt_Some in Hm).
      assert (overflows b m = false -> (length (received r) < length (socketed (writer_at c) (sent c)))%nat) as Hsk.
      { intros Ho. pose proof (iv_writer c H) as Hw. unfold writer_ok in Hw. destruct (writer_at c) as [| | | | |mm]; try done. destruct Hw as [Hlast Hov].
        destruct (sent c) as [|x l _] using rev_ind; [done|]. cbn. rewrite removelast_last. rewrite last_snoc in Hlast. injection Hlast as ->.
        destruct (decide (length (received r) < length l)%nat); [done|]. rewrite lookup_app_r in Hm by lia. rewrite length_app in Hls. simpl in Hls.
        replace (length (received r) - length l)%nat with 0%nat in Hm by lia. injection Hm as ->. congruence. }
      apply (inv_mark c i r m); try done.
      * by rewrite consumed_received by (by rewrite Hat).
      * unfold consumed at 1. destruct (overflows b m); cbn; rewrite ?zlen_app, Ec; unfold zlen; simpl; lia.
      * intros f. cbn. by destruct (overflows b m).
      * intros buf'. cbn. by destruct (overflows b m).
      * cbn. destruct (overflows b m); [done|]. destruct R3 as [rest E]. rewrite E, lookup_app_r, Nat.sub_diag in Hm by lia.
        destruct rest as [|x rest]; [done|]. injection Hm as ->. exists rest. by rewrite E, <- app_assoc.
      * cbn. destruct (overflows b m) eqn:Ho; [done|]. rewrite length_app. simpl. specialize (Hsk eq_refl). lia.
      * cbn. rewrite R5. destruct (overflows b m) eqn:Ho; [done|]. specialize (Hsk eq_refl).
        destruct (lookup_lt_is_Some_2 _ _ Hsk) as [x Hx]. rewrite (drop_S _ x) by done. rewrite length_app. simpl. rewrite Nat.add_1_r.
        rewrite filter_cons_False; [done|]. assert (x = m) as ->; [|by rewrite Ho].
        enough (sent c !! length (received r) = Some x) by congruence. clear - Hx. destruct (writer_at c); try done. cbn in Hx.
        destruct (sent c) as [|y l _] using rev_ind; [done|]. rewrite removelast_last in Hx. by apply lookup_app_l_Some.
      * cbn. destruct (overflows b m) eqn:Ho; [|done]. intros _. by exists m.
  - destruct (inbox r) as [|x rest] eqn:Ei; [done|]. intros [= <- <-]. destruct (R8 eq_refl) as (m & Hm & Hov).
    symmetry in R5. assert ((length (received r) < length (socketed (writer_at c) (sent c)))%nat) as Hsk.
    { destruct (decide (length (received r) < length (socketed (writer_at c) (sent c)))%nat); [done|]. by rewrite drop_ge in R5 by lia. }
    assert (exists l, sent c = socketed (writer_at c) (sent c) ++ l) as [l El].
    { destruct (writer_at c); try (by exists []; rewrite app_nil_r). cbn. destruct (sent c) as [|y k _] using rev_ind; [by exists []|]. rewrite removelast_last. by exists [y]. }
    assert (socketed (writer_at c) (sent c) !! length (received r) = Some m) as Hms by (rewrite El, lookup_app_l in Hm by done; done).
    rewrite (drop_S _ m) in R5 by done. rewrite filter_cons_True in R5 by done. injection R5 as <- R5.
    apply (inv_local c i r); [done|done|unfold consumed; rewrite Hat; cbn; rewrite zlen_app; unfold zlen; simpl; lia|].
    split; cbn; try done.
    + rewrite R1. unfold consumed. rewrite Hat. cbn. rewrite zlen_app. f_equal. unfold zlen. simpl. lia.
    + unfold consumed in *. rewrite Hat in R2. cbn. rewrite zlen_app. unfold zlen in *. simpl. lia.
    + destruct R3 as [tl E]. rewrite E, lookup_app_r, Nat.sub_diag in Hm by lia. destruct tl as [|y tl]; [done|]. injection Hm as ->.
      exists tl. by rewrite E, <- app_assoc.
    + rewrite length_app. simpl. lia.
    + rewrite length_app. simpl. by rewrite Nat.add_1_r.
Qed.

Lemma inv_exec e c c' : inv c -> exec b e c = Some c' -> inv c'.
Proof.
  intros H. pose proof rk_readers. destruct e as [m| | |i|i|i]; cbn [exec].
  - destruct (writer_at c) eqn:Hat; try done. destruct (chunk_bytes b m) as [bs|] eqn:Hbs; [|done]. intros [= <-].
    apply inv_goto; [done|by rewrite Hat|by rewrite Hat|]. cbn. split; [by exists bs|]. split; [lia|]. split; [lia|]. intros _ j Hj. lia.
  - by apply inv_writer_step.
  - destruct (writer_at c) as [|m [| |] [| |]| | | |] eqn:Hat; try done. intros [= <-]. apply inv_goto; [done|by rewrite Hat|by rewrite Hat|done].
  - unfold with_reader. destruct (readers c !! i) as [r|] eqn:Hr; [|done]. cbn. destruct (reader_at r) eqn:Hat; try done. intros [= <-].
    apply inv_reader_goto; try done. by rewrite Hat.
  - unfold with_reader. destruct (readers c !! i) as [r|] eqn:Hr; [|done]. cbn. destruct (reader_access b (shared c) i r) as [ [mem' r']|] eqn:Ea; [|done].
    intros [= <-]. by apply (inv_reader_access c i r).
  - unfold with_reader. destruct (readers c !! i) as [r|] eqn:Hr; [|done]. cbn. destruct (reader_at r) eqn:Hat; try done. intros [= <-].
    apply inv_reader_goto; try done. by rewrite Hat.
Qed.

Lemma inv_steps c c' : inv c -> steps b c c' -> inv c'.
Proof. intros H Hs. induction Hs as [|c c1 c2 e He _ IH]; [done|]. apply IH. by eapply inv_exec. Qed.

Lemma reachable_inv c : reachable b c -> inv c.
Proof. apply inv_steps, ring_init_inv. Qed.

(** ** Progress *)

Lemma steps_trans c c1 c2 : steps b c c1 -> steps b c1 c2 -> steps b c c2.
Proof. induction 1 as [|c d c1 e He _ IH]; [done|]. intros H. eapply steps_cons; [exact He|auto]. Qed.

Lemma steps_one c c1 e : exec b e c = Some c1 -> steps b c c1.
Proof. intros H. eapply steps_cons; [exact H|apply steps_refl]. Qed.

(** The message that the writer is about to publish. *)
Definition pending (pc : writer_pc) : list message :=
  match pc with WSum m _ _ | WClear m | WData m _ | WReset m _ => [m] | _ => [] end.

Definition caught_up (c : Config) : Prop := forall i r, readers c !! i = Some r -> consumed r = published c.

(** How far the writer is from the end of its current attempt. *)
Definition writer_distance (pc : writer_pc) : nat :=
  let k := (2 * Z.to_nat (n_reader b) + Z.to_nat (max_chunk_bytes b) + 8)%nat in
  match pc with
  | WIdle => 0
  | WSend _ => 1
  | WReset _ i => 2 + Z.to_nat (n + 1 - i)
  | WData _ j => 5 + Z.to_nat n + (Z.to_nat (max_chunk_bytes b) - j)
  | WClear _ => k
  | WSum _ i _ => 1 + k + Z.to_nat (n - i)
  end%nat.

(** The writer's look at the flags will succeed: the chunk was never used, or all
    flags it has looked at were set. *)
Definition will_pass (c : Config) : Prop :=
  match writer_at c with WSum _ i count => caught_up c /\ (published c < M \/ count = i) | _ => True end.

Lemma caught_up_flag c m i count : inv c -> writer_at c = WSum m i count -> caught_up c -> 0 <= i < n -> M <= published c ->
  flag (shared c) (writer_idx c) (i + 1) = x01.
Proof.
  intros H Hat Hcu Hi Hge. pose proof rk_chunks.
  set (k := published c - M). assert (exists mm, sent c !! Z.to_nat k = Some mm) as [mm Hm].
  { apply lookup_lt_is_Some_2. unfold published, zlen in *. lia. }
  assert (exists r, readers c !! Z.to_nat i = Some r) as [r Hr].
  { apply lookup_lt_is_Some_2. pose proof (iv_readers c H) as Hl. unfold zlen in Hl. lia. }
  destruct (iv_block c H k mm ltac:(lia) Hm ltac:(lia)) as [_ Hread _]; [by rewrite Hat|]. specialize (Hread _ _ Hr).
  rewrite Z2Nat.id in Hread by lia. rewrite (Hcu _ _ Hr), (proj2 (Z.ltb_lt _ _)) in Hread by lia. rewrite <- Hread. f_equal.
  rewrite (iv_idx c H). unfold k. replace (published c - M) with (published c + (-1) * M) by lia. by rewrite Z.mod_add by lia.
Qed.

(** A chunk that was never written is free whatever the sum is. *)
Lemma fresh_unwritten c : inv c -> published c < M -> flag (shared c) (writer_idx c) 0 = x00.
Proof.
  intros H Hlt. pose proof rk_readers. pose proof (zlen_nonneg (sent c)). rewrite (iv_idx c H), Z.mod_small by (unfold published in *; lia).
  apply (iv_fresh c H); lia.
Qed.

(** The readers are where they were; only their sockets may have got a message. *)
Definition same_readers (c c' : Config) : Prop :=
  length (readers c') = length (readers c) /\
  forall i r', readers c' !! i = Some r' -> exists r, readers c !! i = Some r /\ received r' = received r /\ reader_at r' = reader_at r.

#[export] Instance same_readers_preorder : PreOrder same_readers.
Proof.
  split; [split; [done|]; intros i r Hr; by exists r|]. intros c c1 c2 [L1 H1] [L2 H2]. split; [congruence|]. intros i r Hr.
  destruct (H2 i r Hr) as (r1 & Hr1 & E1 & E2). destruct (H1 i r1 Hr1) as (r0 & Hr0 & ? & ?). exists r0. split; [done|]. split; congruence.
Qed.

Lemma same_readers_eq c c' : readers c' = readers c -> same_readers c c'.
Proof. intros E. split; [by rewrite E|]. intros i r Hr. rewrite E in Hr. by exists r. Qed.

(** One step of a busy writer: nearer to the end, or back to the start of the sum,
    which does not happen when the look at the flags succeeds. *)
Lemma writer_step_progress c : inv c -> writer_at c ≠ WIdle -> exists c', writer_step b c = Some c' /\ same_readers c c'
  /\ sent c' ++ pending (writer_at c') = sent c ++ pending (writer_at c)
  /\ ((writer_distance (writer_at c') < writer_distance (writer_at c))%nat \/ (exists m, writer_at c' = WSum m 0 0) /\ ~ will_pass c)
  /\ (will_pass c -> will_pass c').
Proof.
  intros H Hne. pose proof rk_readers. pose proof (iv_writer c H) as Hw. unfold writer_ok in Hw. unfold writer_step, will_pass.
  destruct (writer_at c) as [|m i count|m|m j|m i|m] eqn:Hat; [done| | | | |].
  - destruct Hw as (Henc & Hi & Hc & Hall). destruct (Z.ltb_spec i n) as [Hlt|Hge].
    + eexists. split; [reflexivity|]. split; [by apply same_readers_eq|]. split; [done|]. cbn [writer_at writer_distance].
      split; [left; lia|]. intros [Hcu Hp]. split; [done|]. destruct (decide (published c < M)) as [Hl|Hg]; [by left|right]. destruct Hp as [?| ->]; [lia|].
      fold (flag (shared c) (writer_idx c) (i + 1)). by rewrite (caught_up_flag c m i i) by (try done; lia).
    + fold (flag (shared c) (writer_idx c) 0). destruct (is_set _ && _) eqn:Eb; eexists; (split; [reflexivity|]); (split; [by apply same_readers_eq|]); (split; [done|]); cbn [writer_at writer_distance].
      * split; [|intros [? _]; split; [done|by right] ]. right. split; [by exists m|]. apply andb_true_iff in Eb as [E1 E2]. apply negb_true_iff, Z.eqb_neq in E2.
        intros [_ [Hl|Hl]]; [by rewrite fresh_unwritten in E1|lia].
      * split; [left; lia|done].
  - eexists. split; [reflexivity|]. split; [by apply same_readers_eq|]. split; [done|]. cbn [writer_at writer_distance]. split; [left; lia|done].
  - destruct Hw as ([bs Hbs] & _). rewrite Hbs. pose proof (chunk_fits _ _ Hbs) as Hfit. destruct (bs !! j) as [x|] eqn:Hx;
      (eexists; split; [reflexivity|]); (split; [by apply same_readers_eq|]); (split; [done|]); cbn [writer_at writer_distance]; (split; [left|done]).
    + apply lookup_lt_Some in Hx. unfold zlen in Hfit. lia.
    + lia.
  - destruct Hw as (_ & _ & _ & _ & Hi & _). destruct (Z.ltb_spec i (n + 1)); (eexists; split; [reflexivity|]); (split; [by apply same_readers_eq|]); cbn [writer_at writer_distance sent].
    + split; [done|]. split; [left; lia|done].
    + split; [destruct (overflows b m); by rewrite ?app_nil_r|]. destruct (overflows b m); cbn [writer_distance]; (split; [left; lia|done]).
  - eexists. split; [reflexivity|]. split; [|split; [done|split; [left; cbn; lia|done] ] ]. split; [cbn; by rewrite length_fmap|].
    intros i r' Hr. cbn in Hr. rewrite list_lookup_fmap in Hr. destruct (readers c !! i) as [r|] eqn:Er; [|done]. injection Hr as <-. by exists r.
Qed.

(** The writer runs until it is done or has to wait. *)
Lemma writer_runs c : inv c -> exists c', steps b c c' /\ inv c' /\ same_readers c c'
  /\ sent c' ++ pending (writer_at c') = sent c ++ pending (writer_at c)
  /\ (writer_at c' = WIdle \/ (exists m, writer_at c' = WSum m 0 0) /\ ~ will_pass c).
Proof.
  remember (writer_distance (writer_at c)) as d eqn:Ed. revert c Ed. induction (lt_wf d) as [d _ IH]. intros c -> H.
  assert (writer_at c = WIdle \/ writer_at c ≠ WIdle) as [Hi|Hn] by (destruct (writer_at c); (by left) || (by right)); [exists c; split; [apply steps_refl|]; split; [done|]; split; [done|]; split; [done|by left]|].
  destruct (writer_step_progress c H Hn) as (c1 & R & Hs & Hp & Hd & Hw). pose proof (inv_writer_step c c1 H R) as H1.
  assert (steps b c c1) as Hst by (by apply (steps_one _ _ WriterStep)). destruct Hd as [Hd|[Hd1 Hd2]].
  - destruct (IH _ Hd c1 eq_refl H1) as (c2 & S2 & H2 & Hs2 & Hp2 & Hend). exists c2. split; [by eapply steps_trans|]. split; [done|].
    split; [by transitivity c1|]. split; [congruence|]. destruct Hend as [?|[? ?]]; [by left|right]. split; [done|]. auto.
  - exists c1. split; [done|]. split; [done|]. split; [done|]. split; [done|]. by right.
Qed.

(** How far reader [r] is from having everything, when no message is on its way to the socket. *)
Definition reader_distance (c : Config) (r : Reader) : nat :=
  let k := Z.to_nat (max_chunk_bytes b) in
  let behind := Z.to_nat (published c - consumed r) in
  (behind * (k + 6) + match reader_at r with
   | RIdle => if decide (behind = 0) then 0 else k + 3
   | RPoll => k + 2
   | RCheck f => if decide (behind = 0) then k + 3 else if is_set f then k + 3 else k + 1
   | RRead buf => k - length buf
   | RRecv => k + 5
   end)%nat.

Definition writer_waits (pc : writer_pc) : Prop := match pc with WIdle | WSum _ _ _ => True | _ => False end.

(** The flags of a message that reader [i] has not read: written and not read. *)
Lemma unread_flags c i r : inv c -> readers c !! i = Some r -> consumed r < published c ->
  flag (shared c) (reader_idx r) (Z.of_nat i + 1) = x00 /\ flag (shared c) (reader_idx r) 0 = x01.
Proof.
  intros H Hr Hlt. destruct (unread_block c i r H Hr Hlt) as (m & Hm & [B1 B2 _]). rewrite (ro_idx _ _ _ _ _ (iv_reader c H i r Hr)).
  split; [|done]. rewrite (B2 i r Hr). by rewrite (proj2 (Z.ltb_ge _ _)) by lia.
Qed.

(** What a reader's step leaves alone. *)
Definition only_reader (i : nat) (c c' : Config) : Prop :=
  writer_at c' = writer_at c /\ sent c' = sent c /\ length (readers c') = length (readers c)
  /\ forall j, j ≠ i -> readers c' !! j = readers c !! j.

#[export] Instance only_reader_preorder i : PreOrder (only_reader i).
Proof.
  split; [by repeat split|]. intros c c1 c2 (A1 & A2 & A3 & A4) (B1 & B2 & B3 & B4).
  split; [congruence|]. split; [congruence|]. split; [congruence|]. intros j Hj. rewrite B4, A4 by done. done.
Qed.

Lemma with_reader_some c i r f mem r' : readers c !! i = Some r -> f r = Some (mem, r') ->
  with_reader c i f = Some {| c with shared := mem; readers := <[i := r']> (readers c) |}.
Proof. intros Hr Hf. unfold with_reader. rewrite Hr. cbn. by rewrite Hf. Qed.

(** A reader that is not done can take a step towards it. *)
Lemma reader_step_progress c i r : inv c -> writer_waits (writer_at c) -> readers c !! i = Some r ->
  reader_at r = RIdle /\ received r = sent c \/
  exists e c' r', exec b e c = Some c' /\ only_reader i c c' /\ readers c' !! i = Some r' /\ (reader_distance c' r' < reader_distance c r)%nat.
Proof.
  intros H Hw Hr. pose proof rk_bytes. destruct (iv_reader c H i r Hr) as [R1 R2 R3 R4 R5 R6 R7 R8]. apply lookup_lt_Some in Hr as Hil.
  assert (forall e mem r', exec b e c = with_reader c i (fun _ => Some (mem, r')) -> (reader_distance c r' < reader_distance c r)%nat ->
    exists e c' r'', exec b e c = Some c' /\ only_reader i c c' /\ readers c' !! i = Some r'' /\ (reader_distance c' r'' < reader_distance c r)%nat) as Hgo.
  { intros e mem r' He Hd. rewrite (with_reader_some _ _ r _ mem r' Hr eq_refl) in He. eexists e, _, r'. split; [exact He|].
    split; [split; [done|]; split; [done|]; split; [by cbn; rewrite length_insert|]; intros j Hj; cbn; by rewrite list_lookup_insert_ne|].
    split; [by apply list_lookup_insert_eq|]. exact Hd. }
  assert (forall e f mem r', (forall c, exec b e c = with_reader c i (f c)) -> f c r = Some (mem, r') -> exec b e c = with_reader c i (fun _ => Some (mem, r'))) as Hex.
  { intros e f mem r' He Hf. rewrite He. by rewrite (with_reader_some _ _ _ _ _ _ Hr Hf), (with_reader_some _ _ r _ mem r' Hr eq_refl). }
  assert (reader_at r ≠ RRecv -> consumed r = zlen (received r)) as Hcr by (intros Hn; unfold consumed; destruct (reader_at r); done || lia).
  assert (forall pc, reader_at r ≠ RRecv -> pc ≠ RRecv -> published c - consumed {| r with reader_at := pc |} = published c - consumed r) as Hsame
    by (intros; by rewrite consumed_at).
  destruct (reader_at r) as [| |f|buf|] eqn:Hat.
  - destruct (decide (consumed r = published c)) as [He|Hlt].
    + left. split; [done|]. destruct R3 as [tl E]. rewrite Hcr in He by done. unfold published in He.
      destruct tl as [|x tl]; [by rewrite app_nil_r in E|]. rewrite E, zlen_app, zlen_cons in He. pose proof (zlen_nonneg tl). lia.
    + right. apply (Hgo (Dequeue i) (shared c) {| r with reader_at := RPoll |}).
      * apply (Hex _ (fun c r => match reader_at r with RIdle => Some (shared c, {| r with reader_at := RPoll |}) | _ => None end)); [done|]. by rewrite Hat.
      * unfold reader_distance. rewrite Hsame by (by rewrite ?Hat). cbn [reader_at]. rewrite Hat. rewrite decide_False by (unfold published in *; lia). lia.
  - right. destruct (decide (consumed r = published c)) as [He|Hlt].
    + apply (Hgo (ReaderGivesUp i) (shared c) {| r with reader_at := RIdle |}).
      * apply (Hex _ (fun c r => match reader_at r with RPoll => Some (shared c, {| r with reader_at := RIdle |}) | _ => None end)); [done|]. by rewrite Hat.
      * unfold reader_distance. rewrite Hsame by (by rewrite ?Hat). cbn [reader_at]. rewrite Hat. rewrite decide_True by lia. lia.
    + destruct (unread_flags c i r H Hr ltac:(unfold published in *; lia)) as [Hf _].
      apply (Hgo (ReaderStep i) (shared c) {| r with reader_at := RCheck x00 |}).
      * apply (Hex _ (fun c r => reader_access b (shared c) i r)); [done|]. unfold reader_access. rewrite Hat. fold (flag (shared c) (reader_idx r) (Z.of_nat i + 1)). by rewrite Hf.
      * unfold reader_distance. rewrite Hsame by (by rewrite ?Hat). cbn [reader_at]. rewrite Hat. rewrite decide_False by (unfold published in *; lia).
        change (is_set x00) with false. cbn iota. lia.
  - right. destruct (decide (consumed r = published c)) as [He|Hlt].
    + apply (Hgo (ReaderStep i) (shared c) {| r with reader_at := RPoll |}).
      * apply (Hex _ (fun c r => reader_access b (shared c) i r)); [done|]. unfold reader_access. rewrite Hat. fold (flag (shared c) (reader_idx r) 0).
        destruct (negb _ || _) eqn:Eb; [done|]. apply orb_false_iff in Eb as [Ew Ef]. apply negb_false_iff in Ew.
        pose proof (check_found c i r H Hr (R6 f eq_refl Ef) Ew). lia.
      * unfold reader_distance. rewrite Hsame by (by rewrite ?Hat). cbn [reader_at]. rewrite Hat. rewrite decide_True by lia. lia.
    + destruct (unread_flags c i r H Hr ltac:(unfold published in *; lia)) as [_ Hf]. destruct (is_set f) eqn:Ef.
      * apply (Hgo (ReaderStep i) (shared c) {| r with reader_at := RPoll |}).
        -- apply (Hex _ (fun c r => reader_access b (shared c) i r)); [done|]. unfold reader_access. rewrite Hat, Ef, orb_true_r. done.
        -- unfold reader_distance. rewrite Hsame by (by rewrite ?Hat). cbn [reader_at]. rewrite Hat, Ef. case_decide; lia.
      * apply (Hgo (ReaderStep i) (shared c) {| r with reader_at := RRead [] |}).
        -- apply (Hex _ (fun c r => reader_access b (shared c) i r)); [done|]. unfold reader_access. rewrite Hat, Ef. fold (flag (shared c) (reader_idx r) 0). by rewrite Hf.
        -- unfold reader_distance. rewrite Hsame by (by rewrite ?Hat). cbn [reader_at length]. rewrite Hat, Ef. case_decide; lia.
  - right. destruct (R7 buf eq_refl) as (Hlt & Hlen & _). destruct (Z.ltb_spec (zlen buf) (max_chunk_bytes b)) as [Hmore|Hfull].
    + apply (Hgo (ReaderStep i) (shared c) {| r with reader_at := RRead (buf ++ [cell (shared c) (reader_idx r) (zlen buf)]) |}).
      * apply (Hex _ (fun c r => reader_access b (shared c) i r)); [done|]. unfold reader_access. rewrite Hat. by rewrite (proj2 (Z.ltb_lt _ _)).
      * unfold reader_distance. rewrite Hsame by (by rewrite ?Hat). cbn [reader_at]. rewrite Hat, length_app. simpl. unfold zlen in Hmore. lia.
    + destruct (lookup_lt_is_Some_2 (sent c) (length (received r))) as [m Hm].
      { rewrite Hcr in Hlt by done. unfold zlen in Hlt. lia. }
      pose proof (read_found c i r buf m H Hr Hat Hm ltac:(lia)) as Hrd.
      eapply (Hgo (ReaderStep i)).
      * apply (Hex _ (fun c r => reader_access b (shared c) i r)); [done|]. unfold reader_access. rewrite Hat, Hrd, (proj2 (Z.ltb_ge _ _)) by lia. reflexivity.
      * unfold reader_distance. rewrite Hat.
        assert (forall r', consumed r' = consumed r + 1 -> Z.to_nat (published c - consumed r) = S (Z.to_nat (published c - consumed r'))) as Hbeh by (unfold published; lia).
        rewrite (Hbeh {| r with reader_idx := (reader_idx r + 1) mod M; reader_at := match (if overflows b m then None else Some m) with Some _ => RIdle | None => RRecv end;
             received := match (if overflows b m then None else Some m) with Some m => received r ++ [m] | None => received r end |}).
        -- cbn [reader_at]. destruct (overflows b m); cbn [reader_at]; [lia|]. case_decide; lia.
        -- rewrite Hcr by done. unfold consumed. destruct (overflows b m); cbn; rewrite ?zlen_app; unfold zlen; simpl; lia.
  - right. destruct (R8 eq_refl) as (m & Hm & Hov). assert (socketed (writer_at c) (sent c) = sent c) as Es by (destruct (writer_at c); done).
    rewrite Es, (drop_S _ m), filter_cons_True in R5 by done.
    apply (Hgo (ReaderStep i) (shared c) {| r with reader_at := RIdle; inbox := filter (fun m => overflows b m = true) (drop (S (length (received r))) (sent c)); received := received r ++ [m] |}).
    + apply (Hex _ (fun c r => reader_access b (shared c) i r)); [done|]. unfold reader_access. by rewrite Hat, R5.
    + unfold reader_distance. rewrite Hat. cbn [reader_at].
      assert (consumed {| r with reader_at := RIdle; inbox := filter (fun m => overflows b m = true) (drop (S (length (received r))) (sent c)); received := received r ++ [m] |} = consumed r) as ->.
      { unfold consumed. rewrite Hat. cbn. rewrite zlen_app. unfold zlen. simpl. lia. }
      case_decide; lia.
Qed.

(** Reader [i] can always get everything that was published. *)
Lemma reader_runs c i r : inv c -> writer_waits (writer_at c) -> readers c !! i = Some r ->
  exists c' r', steps b c c' /\ inv c' /\ only_reader i c c' /\ readers c' !! i = Some r' /\ reader_at r' = RIdle /\ received r' = sent c.
Proof.
  remember (reader_distance c r) as d eqn:Ed. revert c r Ed. induction (lt_wf d) as [d _ IH]. intros c r -> H Hw Hr.
  destruct (reader_step_progress c i r H Hw Hr) as [ [Hat Hrec]|(e & c1 & r1 & He & Ho & Hr1 & Hd)].
  - exists c, r. split; [apply steps_refl|]. split; [done|]. split; [reflexivity|]. done.
  - pose proof (inv_exec e c c1 H He) as H1. pose proof Ho as (E1 & E2 & _).
    destruct (IH _ Hd c1 r1 eq_refl H1 ltac:(by rewrite E1) Hr1) as (c2 & r2 & S2 & H2 & Ho2 & Hr2 & Hat2 & Hrec2).
    exists c2, r2. split; [eapply steps_cons; [exact He|exact S2]|]. split; [done|]. split; [by transitivity c1|]. split; [done|]. split; [done|]. congruence.
Qed.

Lemma readers_run c : inv c -> writer_waits (writer_at c) ->
  exists c', steps b c c' /\ inv c' /\ writer_at c' = writer_at c /\ sent c' = sent c
    /\ forall i r, readers c' !! i = Some r -> reader_at r = RIdle /\ received r = sent c'.
Proof.
  intros H Hw. assert (forall k : nat, exists c', steps b c c' /\ inv c' /\ writer_at c' = writer_at c /\ sent c' = sent c
    /\ forall i r, (i < k)%nat -> readers c' !! i = Some r -> reader_at r = RIdle /\ received r = sent c') as Hk.
  { induction k as [|k IH].
    - exists c. split; [apply steps_refl|]. split; [done|]. split; [done|]. split; [done|]. intros; lia.
    - destruct IH as (c1 & S1 & H1 & W1 & E1 & Hd1). destruct (readers c1 !! k) as [r|] eqn:Hr.
      + destruct (reader_runs c1 k r H1 ltac:(by rewrite W1) Hr) as (c2 & r2 & S2 & H2 & (A1 & A2 & A3 & A4) & Hr2 & Hat & Hrec).
        exists c2. split; [by eapply steps_trans|]. split; [done|]. split; [congruence|]. split; [congruence|]. intros i r0 Hi Hr0.
        destruct (decide (i = k)) as [->|Hn]; [rewrite Hr2 in Hr0; injection Hr0 as <-; split; [done|congruence]|].
        rewrite A4 in Hr0 by done. rewrite A2. apply (Hd1 i); [lia|done].
      + exists c1. split; [done|]. split; [done|]. split; [done|]. split; [done|]. intros i r0 Hi Hr0.
        destruct (decide (i = k)) as [->|Hn]; [by rewrite Hr in Hr0|]. apply (Hd1 i); [lia|done]. }
  destruct (Hk (length (readers c))) as (c' & S & H' & W & E & Hd). exists c'. split; [done|]. split; [done|]. split; [done|]. split; [done|].
  intros i r Hr. apply (Hd i); [|done]. apply lookup_lt_Some in Hr. pose proof (iv_readers c H). pose proof (iv_readers c' H'). unfold zlen in *. lia.
Qed.

Lemma run_steps es c c' : run b es c = Some c' -> steps b c c'.
Proof.
  revert c. induction es as [|e es IH]; intros c; cbn; [intros [= ->]; apply steps_refl|]. destruct (exec b e c) as [c1|] eqn:E; [|done].
  intros Hr. eapply steps_cons; [exact E|by apply IH].
Qed.

End ring.

(** C4: The ring is a broadcast queue in every interleaving of the memory accesses.
    Each reader has received a prefix of the messages that were published, in order and
    unchanged; it is at most [max_chunks] messages behind; what it has read of a chunk
    is what the writer wrote there; and no chunk is written while a reader reads it. *)
Theorem ring_buffer_broadcast (b : ShmRingBuffer) (Hb : RingOk b) (c : Config) (Hc : reachable b c) :
  (forall i r, readers c !! i = Some r ->
     received r `prefix_of` sent c
     /\ 0 <= zlen (sent c) - consumed r <= max_chunks b
     /\ forall buf, reader_at r = RRead buf -> exists m bs, sent c !! length (received r) = Some m /\ chunk_bytes b m = Ok bs
          /\ take (length bs) buf = take (length buf) bs
          /\ (in_write (writer_at c) -> reader_idx r ≠ writer_idx c)).
Proof.
  pose proof (reachable_inv b c Hc) as H. intros i r Hr. destruct (iv_reader b c H i r Hr) as [R1 R2 R3 _ _ _ R7 _].
  split; [done|]. split; [lia|]. intros buf Hat. destruct (R7 buf Hat) as (Hlt & Hlen & Hpt).
  destruct (unread_block b c i r H Hr Hlt) as (m & Hm & _). rewrite consumed_received in Hm by (by rewrite Hat).
  destruct (iv_sent b c H m) as [bs Hbs]; [by eapply list_elem_of_lookup_2|]. exists m, bs. split; [done|]. split; [done|]. split.
  - apply list_eq. intros j. destruct (decide (j < length bs)%nat) as [Hj|Hj], (decide (j < length buf)%nat) as [Hk|Hk].
    + rewrite !lookup_take_lt by done. destruct (lookup_lt_is_Some_2 bs j Hj) as [v Hv]. rewrite Hv. by apply (Hpt m bs).
    + rewrite !lookup_ge_None_2; [done|rewrite length_take; lia|rewrite length_take; lia].
    + rewrite !lookup_ge_None_2; [done|rewrite length_take; lia|rewrite length_take; lia].
    + rewrite !lookup_ge_None_2; [done|rewrite length_take; lia|rewrite length_take; lia].
  - intros Hw. rewrite R1, (iv_idx b c H). pose proof (iv_writer b c H) as Hok. unfold writer_ok in Hok.
    assert (room b c) as Hroom by (destruct (writer_at c); try done; by destruct Hok as (_ & ? & _)).
    specialize (Hroom i r Hr). pose proof (rk_chunks (b := b)). apply (mod_ne b); unfold published in *; [lia|lia].
Qed.

(** C5: No message is stuck.  From every state that can be reached the processes can go
    on so that the writer is idle, the message it was sending is published, and every
    reader has received all messages. *)
Theorem ring_buffer_delivers (b : ShmRingBuffer) (Hb : RingOk b) (c : Config) (Hc : reachable b c) :
  exists c', steps b c c' /\ writer_at c' = WIdle /\ sent c' = sent c ++ pending (writer_at c)
    /\ forall i r, readers c' !! i = Some r -> reader_at r = RIdle /\ received r = sent c'.
Proof.
  pose proof (reachable_inv b c Hc) as H. destruct (writer_runs b c H) as (c1 & S1 & H1 & _ & P1 & Hend).
  assert (writer_waits (writer_at c1)) as Hw1 by (destruct Hend as [->|[ [m ->] _] ]; done).
  destruct (readers_run b c1 H1 Hw1) as (c2 & S2 & H2 & W2 & E2 & D2).
  assert (steps b c c2) as S12 by (by eapply steps_trans). destruct Hend as [Hi|[ [m Hm] _] ].
  - exists c2. split; [done|]. split; [congruence|]. split; [|done]. by rewrite Hi, app_nil_r, <- E2 in P1.
  - assert (will_pass b c2) as Hp.
    { unfold will_pass. rewrite W2, Hm. split; [|by right]. intros i r Hr. destruct (D2 i r Hr) as [Hat Hrec]. unfold consumed, published. rewrite Hat, Hrec. lia. }
    destruct (writer_runs b c2 H2) as (c3 & S3 & H3 & _ & P3 & Hend3). destruct Hend3 as [Hi3|[_ Hno] ]; [|by destruct Hno].
    destruct (readers_run b c3 H3 ltac:(by rewrite Hi3)) as (c4 & S4 & H4 & W4 & E4 & D4).
    exists c4. split; [by eapply steps_trans; [exact S12|eapply steps_trans]|]. split; [congruence|]. split; [|done].
    rewrite Hi3, app_nil_r, W2, E2 in P3. rewrite E4, P3. exact P1.
Qed.

(** A message fits into its chunk and is read back.  What [enqueue] writes is never
    longer than the chunk, and [dequeue] finds the same buffers in it whatever follows
    them, or learns that the message is on the socket. *)
Theorem chunk_roundtrip (b : ShmRingBuffer) (Hb : RingOk b) (m : message) (bs : bytes) (Hm : chunk_bytes b m = Ok bs) :
  zlen bs <= max_chunk_bytes b
  /\ forall junk, read_chunk (bs ++ junk) = Ok (if overflows b m then None else Some m).
Proof.
  split; [by apply (chunk_fits b m)|]. intros junk. apply (read_chunk_ok b m bs); [done|]. by exists junk.
Qed.

(** *** Witnesses *)

Definition demo_ring : ShmRingBuffer := {| n_reader := 2; max_chunk_bytes := 16; max_chunks := 2 |}.

#[export] Instance demo_ring_ok : RingOk demo_ring.
Proof. split; by vm_compute. Defined.

(** One message is published, reader 0 has received it, reader 1 is reading it, and
    the writer looks for room for the next. *)
Definition demo_events : list event :=
  Enqueue [ [x05] ] :: replicate 16 WriterStep ++ Dequeue 0 :: replicate 19 (ReaderStep 0) ++ Dequeue 1 :: replicate 7 (ReaderStep 1)
  ++ [Enqueue [ [x07; x08] ]; WriterStep].

Definition demo_config : Config := default (init demo_ring) (run demo_ring demo_events (init demo_ring)).

Lemma demo_reachable : reachable demo_ring demo_config.
Proof.
  unfold demo_config. destruct (run demo_ring demo_events (init demo_ring)) as [c|] eqn:E; [by apply (run_steps demo_ring demo_events)|].
  apply steps_refl.
Qed.

Lemma ring_buffer_broadcast_witness :
  received <$> readers demo_config = [ [ [ [x05] ] ]; [] ] /\ sent demo_config = [ [ [x05] ] ]
  /\ exists r, readers demo_config !! 1%nat = Some r /\ reader_at r = RRead [x00; x00; x01; x00; x00]
       /\ received r `prefix_of` sent demo_config /\ zlen (sent demo_config) - consumed r <= 2.
Proof.
  split; [by vm_compute|]. split; [by vm_compute|].
  destruct (readers demo_config !! 1%nat) as [r|] eqn:E; [|by vm_compute in E]. exists r. split; [done|].
  destruct (ring_buffer_broadcast demo_ring demo_ring_ok demo_config demo_reachable 1 r E) as (Hp & Hlag & _).
  assert (reader_at <$> (readers demo_config !! 1%nat) = Some (RRead [x00; x00; x01; x00; x00])) as Ha by (by vm_compute).
  rewrite E in Ha. split; [by injection Ha|]. split; [exact Hp|]. by destruct Hlag.
Defined.

Lemma ring_buffer_delivers_witness : pending (writer_at demo_config) = [ [ [x07; x08] ] ]
  /\ exists c', steps demo_ring demo_config c' /\ sent c' = [ [ [x05] ]; [ [x07; x08] ] ].
Proof.
  split; [by vm_compute|]. destruct (ring_buffer_delivers demo_ring demo_ring_ok demo_config demo_reachable) as (c' & Hs & _ & He & _).
  exists c'. split; [exact Hs|]. rewrite He. by vm_compute.
Defined.

Lemma chunk_roundtrip_witness : let m := [ [x07; x08]; [x09] ] in
  exists bs, chunk_bytes {| n_reader := 1; max_chunk_bytes := 32; max_chunks := 2 |} m = Ok bs /\ zlen bs = 14 /\ read_chunk (bs ++ [x01; x01]) = Ok (Some m).
Proof.
  intros m. eexists. split; [by vm_compute|]. split; [by vm_compute|].
  refine (proj2 (chunk_roundtrip {| n_reader := 1; max_chunk_bytes := 32; max_chunks := 2 |} _ m _ _) [x01; x01]); [split; by vm_compute|by vm_compute].
Defined.

End RingFacts.
