(* ===== verification/MemPlan.v ===== *)
(** Planning the memory of the KV cache: the second half of
    [v1/core/kv_cache_utils.py].

    The layers of the model are put into groups that share a block table, and from the
    memory that is available on each worker follow the number of blocks and the tensors.
    Dictionaries are association lists in insertion order.  The functions that search
    for a model length set [max_model_len] of the configuration while they search and
    restore it at the end, also after an exception; here they are given the configuration
    with the length in question.  Log messages are left out. *)

From S2P Require Import Prelude KVSpec.
From Stdlib Require Import Ascii.
Local Open Scope Z_scope.

Module Plan.

Definition Specs := list (string * KVCacheSpec).

(** Division that raises. *)
Definition py_div (a b : Z) : res Z := if b =? 0 then Raise ZeroDivisionError else Ok (a / b).
Definition py_mod (a b : Z) : res Z := if b =? 0 then Raise ZeroDivisionError else Ok (a mod b).
Definition py_cdiv (a b : Z) : res Z := if b =? 0 then Raise ZeroDivisionError else Ok (cdiv a b).

(** [min] and [max] of a sequence. *)
Definition py_max (l : list Z) : res Z := match l with [] => Raise ValueError | x :: l => Ok (foldl Z.max x l) end.
Definition py_min (l : list Z) : res Z := match l with [] => Raise ValueError | x :: l => Ok (foldl Z.min x l) end.

(** [math.lcm(\*l)] *)
Definition py_lcm (l : list Z) : Z := foldl Z.lcm 1 l.

(** [l\[i::k\]] *)
Definition stride {A} (l : list A) (i k : Z) : list A :=
  omap (fun j => l !! Z.to_nat j) ((fun q => i + q * k) <$> py_range 0 (cdiv (zlen l - i) k)).

(** ** Needed memory and the longest length that fits *)

(** [max_memory_usage_bytes] of the module. *)
Definition specs_max_memory_usage_bytes (c : VllmConfig) (specs : list GroupSpec) : res Z :=
  sum_res ((fun s => group_max_memory_usage_bytes s c) <$> specs).

Definition with_model_len (c : VllmConfig) (n : Z) : VllmConfig := {| c with max_model_len := n |}.

(** The loop of the two binary searches. *)
Fixpoint search_len (fuel : nat) (fits : Z -> res bool) (left right result : Z) : res Z :=
  match fuel with
  | O => Raise Diverges
  | S fuel =>
      if left <=? right then
        let mid := (left + right) / 2 in
        ok ← fits mid;
        if ok : bool then search_len fuel fits (mid + 1) right mid
        else search_len fuel fits left (mid - 1) result
      else Ok result
  end.

Definition longest_fitting (fits : Z -> res bool) (original_max : Z) : res Z :=
  ok ← fits 1;
  if negb ok then Ok 0
  else search_len (S (Z.to_nat original_max)) fits 1 original_max 1.

(** [estimate_max_model_len] *)
Definition estimate_max_model_len (c : VllmConfig) (kv_cache_spec : Specs) (available_memory : Z) : res Z :=
  longest_fitting (fun n => needed ← specs_max_memory_usage_bytes (with_model_len c n) (OneSpec <$> kv_cache_spec.*2);
                            Ok (needed <=? available_memory)) (max_model_len c).

(** [_check_enough_kv_cache_memory] *)
Definition check_enough (available_memory : Z) (get_needed_memory : res Z) (estimate : Z -> res Z) : res unit :=
  if available_memory <=? 0 then Raise ValueError
  else
    needed_memory ← get_needed_memory;
    if available_memory <? needed_memory then
      _ ← estimate available_memory; Raise ValueError
    else Ok tt.

(** [check_enough_kv_cache_memory] *)
Definition check_enough_kv_cache_memory (c : VllmConfig) (kv_cache_spec : Specs) (available_memory : Z) : res unit :=
  match kv_cache_spec with
  | [] => Ok tt
  | _ => check_enough available_memory (specs_max_memory_usage_bytes c (OneSpec <$> kv_cache_spec.*2))
           (estimate_max_model_len c kv_cache_spec)
  end.

(** ** Groups *)

(** [create_kv_cache_group_specs] *)
Definition create_kv_cache_group_specs (kv_cache_spec : Specs) (grouped_layer_names : list (list string)) : res (list KVCacheGroupSpec) :=
  mapM (fun names =>
    layer_specs ← mapM (fun name => res_of_option KeyError (Dict.get name kv_cache_spec)) names;
    merged ← merge layer_specs;
    Ok {| layer_names := names; kv_cache_spec := OneSpec merged |}) grouped_layer_names.

(** [is_kv_cache_spec_uniform] *)
Definition is_kv_cache_spec_uniform (kv_cache_spec : Specs) : res bool :=
  match kv_cache_spec with
  | [] => Ok true
  | _ => match merge kv_cache_spec.*2 with
         | Ok _ => Ok true
         | Raise AssertionError => Ok false
         | Raise e => Raise e
         end
  end.

(** [len(group.layer_names)] of the largest group. *)
Definition largest_group (groups : list KVCacheGroupSpec) : res Z := py_max ((fun g => zlen (layer_names g)) <$> groups).

(** [get_uniform_page_size] *)
Definition get_uniform_page_size (specs : list GroupSpec) : res Z :=
  sizes ← mapM group_page_size_bytes specs;
  match remove_dups sizes with [p] => Ok p | _ => Raise AssertionError end.

(** [get_max_concurrency_for_kv_cache_config]: the two numbers that are divided. *)
Definition get_max_concurrency_for_kv_cache_config (c : VllmConfig) (cfg : KVCacheConfig) : res (Z * Z) :=
  num_layer_per_group ← largest_group (kv_cache_groups cfg);
  usage ← specs_max_memory_usage_bytes c (kv_cache_spec <$> kv_cache_groups cfg);
  first ← res_of_option IndexError (head (kv_cache_groups cfg));
  page ← group_page_size_bytes (kv_cache_spec first);
  num_block_per_request ← py_cdiv (num_layer_per_group * usage) (page * num_layer_per_group);
  if num_block_per_request =? 0 then Raise ZeroDivisionError else Ok (num_blocks cfg, num_block_per_request).

(** [may_override_num_blocks] *)
Definition may_override_num_blocks (c : VllmConfig) (num_blocks : Z) : Z := default num_blocks (num_gpu_blocks_override c).

(** [get_num_blocks] *)
Definition get_num_blocks (c : VllmConfig) (num_layers available_memory page_size : Z) : res Z :=
  n ← py_div available_memory page_size;
  n ← py_div n num_layers;
  Ok (may_override_num_blocks c (Z.max n 0)).

(** [_get_kv_cache_groups_uniform_spec] *)
Definition get_kv_cache_groups_uniform_spec (kv_cache_specs : Specs) : res (list KVCacheGroupSpec) :=
  create_kv_cache_group_specs kv_cache_specs [Dict.keys kv_cache_specs].

(** [_get_kv_cache_groups_uniform_type] *)
Definition get_kv_cache_groups_uniform_type (spec : GroupSpec) : list KVCacheGroupSpec :=
  match spec with
  | UniformTypeKVCacheSpecs _ specs => [{| layer_names := Dict.keys specs; kv_cache_spec := spec |}]
  | OneSpec _ => []
  end.

(** [is_kv_cache_page_size_uniform] *)
Definition is_kv_cache_page_size_uniform (kv_cache_spec : Specs) : res bool :=
  sizes ← mapM page_size_bytes kv_cache_spec.*2;
  Ok (zlen (remove_dups sizes) =? 1).

(** [replace(layer_spec, page_size_padded=n)] *)
Definition with_page_size_padded (s : KVCacheSpec) (n : Z) : KVCacheSpec :=
  let upd a := {| a with a_page_size_padded := Some n |} in
  match s with
  | FullAttentionSpec a v w c => FullAttentionSpec (upd a) v w c
  | MLAAttentionSpec a v w c d => MLAAttentionSpec (upd a) v w c d
  | SinkFullAttentionSpec a v w c k => SinkFullAttentionSpec (upd a) v w c k
  | ChunkedLocalAttentionSpec a c => ChunkedLocalAttentionSpec (upd a) c
  | SlidingWindowSpec a w => SlidingWindowSpec (upd a) w
  | MambaSpec b sh d _ t m k => MambaSpec b sh d (Some n) t m k
  | EncoderOnlyAttentionSpec a => EncoderOnlyAttentionSpec (upd a)
  | CrossAttentionSpec a => CrossAttentionSpec (upd a)
  end.

(** [scalable_unit_pages]: the page of each smaller layer for blocks of [lcm_bs] tokens. *)
Definition scalable_unit_pages (specs : list KVCacheSpec) (lcm_bs max_page_size : Z) : res (list Z) :=
  units ← mapM (fun s =>
    page ← page_size_bytes s;
    if page <? max_page_size then
      k ← py_div lcm_bs (spec_block_size s); Ok [page * k]
    else Ok []) specs;
  Ok (remove_dups (concat units)).

(** One layer of the loop of [unify_kv_cache_spec_page_size]. *)
Definition unify_layer (max_page_size : Z) (s : KVCacheSpec) : res KVCacheSpec :=
  layer_page_size ← page_size_bytes s;
  if layer_page_size =? max_page_size then Ok s
  else
    r ← py_mod max_page_size layer_page_size;
    if r =? 0 then
      let new_spec := copy_with_new_block_size s (spec_block_size s * (max_page_size / layer_page_size)) in
      new_page ← page_size_bytes new_spec;
      if new_page =? max_page_size then Ok new_spec else Ok (with_page_size_padded s max_page_size)
    else Ok (with_page_size_padded s max_page_size).

(** [unify_kv_cache_spec_page_size] *)
Definition unify_kv_cache_spec_page_size (kv_cache_spec : Specs) : res Specs :=
  let specs := kv_cache_spec.*2 in
  sizes ← mapM page_size_bytes specs;
  if zlen (remove_dups sizes) <=? 1 then Ok kv_cache_spec
  else
    max_page_size ← py_max sizes;
    let lcm_bs := py_lcm (spec_block_size <$> specs) in
    units ← scalable_unit_pages specs lcm_bs max_page_size;
    max_page_size ← match units with
      | [] => Ok max_page_size
      | _ =>
          let lcm_unit := py_lcm units in
          r ← py_mod max_page_size lcm_unit;
          if r =? 0 then Ok max_page_size else Ok (cdiv max_page_size lcm_unit * lcm_unit)
      end;
    mapM (fun '(name, s) => s' ← unify_layer max_page_size s; Ok (name, s')) kv_cache_spec.

(** [same_type_layers]: the layers of each spec, in the order of the specs. *)
Definition add_layer (d : list (KVCacheSpec * list string)) (entry : string * KVCacheSpec) : list (KVCacheSpec * list string) :=
  Dict.set entry.2 (default [] (Dict.get entry.2 d) ++ [entry.1]) d.
Definition same_type_layers (kv_cache_spec : Specs) : list (KVCacheSpec * list string) := foldl add_layer [] kv_cache_spec.

(** The drafter's layers are taken out of [same_type_layers]. *)
Definition without_drafter (drafter_layers : list string) (d : list (KVCacheSpec * list string)) : list (KVCacheSpec * list string) :=
  omap (fun '(s, layers) =>
    if existsb (fun n => bool_decide (n ∈ drafter_layers)) layers then
      match filter (fun n => n ∉ drafter_layers) layers with [] => None | non_spec => Some (s, non_spec) end
    else Some (s, layers)) d.
Definition drafter_group_layers (drafter_layers : list string) (d : list (KVCacheSpec * list string)) : list string :=
  d ≫= fun '(_, layers) => filter (fun n => n ∈ drafter_layers) layers.

(** The number of layers in a group. *)
Definition choose_group_size (sizes : list Z) : res Z :=
  min_num_layers ← py_min sizes;
  max_num_layers ← py_max sizes;
  Ok (if 2 * max_num_layers <? 3 * min_num_layers then max_num_layers else min_num_layers).

(** The groups of the layers of one spec. *)
Definition split_layers (group_size : Z) (layers : list string) : res (list (list string)) :=
  _ ← py_mod (zlen layers) group_size;
  num_groups ← py_cdiv (zlen layers) group_size;
  Ok ((fun i => stride layers i num_groups) <$> py_range 0 num_groups).

(** [_get_kv_cache_groups_uniform_page_size] *)
Definition get_kv_cache_groups_uniform_page_size (kv_cache_specs : Specs) (drafter_layers : list string) : res (list KVCacheGroupSpec) :=
  let all := same_type_layers kv_cache_specs in
  let drafters := drafter_group_layers drafter_layers all in
  let rest := without_drafter drafter_layers all in
  group_size ← choose_group_size ((fun e => zlen e.2) <$> rest);
  grouped ← mapM (fun e => split_layers group_size e.2) rest;
  drafter_specs ← mapM (fun name => s ← res_of_option KeyError (Dict.get name kv_cache_specs); Ok (name, s)) drafters;
  let by_type := same_type_layers drafter_specs in
  create_kv_cache_group_specs kv_cache_specs (reverse by_type.*2 ++ concat grouped).

(** ** The drafter's layers *)

(** [name.split(".")] *)
Fixpoint split_dots (s : string) : list string :=
  match s with
  | EmptyString => [EmptyString]
  | String ch rest =>
      match split_dots rest with
      | w :: ws => if Ascii.eqb ch "."%char then EmptyString :: w :: ws else String ch w :: ws
      | [] => []
      end
  end.

Definition is_space (ch : Ascii.ascii) : bool :=
  let n := Ascii.N_of_ascii ch in ((9 <=? n) && (n <=? 13) || (28 <=? n) && (n <=? 32))%N.
Definition digit_of (ch : Ascii.ascii) : option Z :=
  let n := Z.of_N (Ascii.N_of_ascii ch) in if (48 <=? n) && (n <=? 57) then Some (n - 48) else None.

Fixpoint skip_spaces (s : string) : string :=
  match s with String ch rest => if is_space ch then skip_spaces rest else s | EmptyString => s end.
Definition only_spaces (s : string) : bool := match skip_spaces s with EmptyString => true | _ => false end.

(** Digits, with single underscores between digits, and spaces behind. *)
Fixpoint read_digits (s : string) (acc : Z) (after_digit : bool) : option Z :=
  match s with
  | EmptyString => if after_digit then Some acc else None
  | String ch rest =>
      match digit_of ch with
      | Some d => read_digits rest (10 * acc + d) true
      | None =>
          if negb after_digit then None
          else if Ascii.eqb ch "_"%char then read_digits rest acc false
          else if only_spaces s then Some acc else None
      end
  end.

(** [int(s)] for an ASCII string; [None] stands for [ValueError]. *)
Definition py_int (s : string) : option Z :=
  match skip_spaces s with
  | String "-"%char rest => Z.opp <$> read_digits rest 0 false
  | String "+"%char rest => read_digits rest 0 false
  | s => read_digits s 0 false
  end.

(** [extract_layer_index(name)] of [model_executor/models/utils.py]. *)
Definition extract_layer_index (layer_name : string) : res Z :=
  match omap py_int (split_dots layer_name) with
  | [i] => Ok i
  | _ => Raise AssertionError
  end.

(** [name.lower()] and [w in name]. *)
Definition lower_char (ch : Ascii.ascii) : Ascii.ascii :=
  let n := Ascii.N_of_ascii ch in if ((65 <=? n) && (n <=? 90))%N then Ascii.ascii_of_N (n + 32) else ch.
Fixpoint lower (s : string) : string :=
  match s with EmptyString => EmptyString | String ch rest => String (lower_char ch) (lower rest) end.
Fixpoint contains (w s : string) : bool :=
  String.prefix w s || match s with EmptyString => false | String _ rest => contains w rest end.

(** One name of the loop of [_identify_drafter_layers]. *)
Definition is_drafter_layer (target_num_layers : Z) (name : string) : bool :=
  if String.prefix "draft_model." name then true
  else match extract_layer_index name with
  | Ok layer_idx => target_num_layers <=? layer_idx
  | Raise _ => let low := lower name in contains "drafter" low || contains "eagle" low || contains "mtp" low
  end.

(** [_identify_drafter_layers]; no drafter is the empty list. *)
Definition identify_drafter_layers (c : VllmConfig) (all_layer_names : list string) : list string :=
  if has_speculative_config c then filter (fun name => is_drafter_layer (total_num_hidden_layers c) name = true) all_layer_names else [].

(** ** Hybrid models without the hybrid manager *)

Definition is_sliding_window (s : KVCacheSpec) : bool := match s with SlidingWindowSpec _ _ => true | _ => false end.
Definition is_chunked_local (s : KVCacheSpec) : bool := match s with ChunkedLocalAttentionSpec _ _ => true | _ => false end.

(** The new [FullAttentionSpec]: [head_size_v] and [kv_quant_mode] are the defaults. *)
Definition as_full_attention (s : KVCacheSpec) : KVCacheSpec :=
  let full a := {| a with kv_quant_mode := QUANT_NONE |} in
  match s with
  | SlidingWindowSpec a w => FullAttentionSpec (full a) (head_size a) (Some w) None
  | ChunkedLocalAttentionSpec a n => FullAttentionSpec (full a) (head_size a) None (Some n)
  | _ => s
  end.

Definition is_unified (kv_cache_spec : Specs) : res bool :=
  uniform ← is_kv_cache_spec_uniform kv_cache_spec;
  if uniform : bool then Ok true else is_uniform_type kv_cache_spec.

(** [unify_hybrid_kv_cache_specs]: the dictionary it leaves. *)
Definition unify_hybrid_kv_cache_specs (kv_cache_spec : Specs) : res Specs :=
  done ← is_unified kv_cache_spec;
  if done : bool then Ok kv_cache_spec
  else
    let specs := kv_cache_spec.*2 in
    let kv_cache_spec :=
      if existsb is_full specs && (existsb is_sliding_window specs || existsb is_chunked_local specs)
      then (fun e => (e.1, as_full_attention e.2)) <$> kv_cache_spec else kv_cache_spec in
    done ← is_unified kv_cache_spec;
    if done : bool then Ok kv_cache_spec else Raise ValueError.

(** [get_kv_cache_groups] *)
Definition get_kv_cache_groups (c : VllmConfig) (kv_cache_spec : Specs) : res (list KVCacheGroupSpec) :=
  kv_cache_spec ← (if disable_hybrid_kv_cache_manager c then unify_hybrid_kv_cache_specs kv_cache_spec else Ok kv_cache_spec);
  match kv_cache_spec with
  | [] => Ok []
  | _ =>
      uniform ← is_kv_cache_spec_uniform kv_cache_spec;
      if uniform : bool then get_kv_cache_groups_uniform_spec kv_cache_spec
      else
        uniform_spec ← from_specs kv_cache_spec;
        match uniform_spec with
        | Some spec => Ok (get_kv_cache_groups_uniform_type spec)
        | None =>
            kv_cache_spec ← unify_kv_cache_spec_page_size kv_cache_spec;
            get_kv_cache_groups_uniform_page_size kv_cache_spec (identify_drafter_layers c (Dict.keys kv_cache_spec))
        end
  end.

(** ** Tensors *)

Definition one_uniform_group (groups : list KVCacheGroupSpec) : option (list string * list (string * KVCacheSpec) * GroupSpec) :=
  match groups with
  | [g] => match kv_cache_spec g with
           | UniformTypeKVCacheSpecs _ specs => Some (layer_names g, specs, kv_cache_spec g)
           | OneSpec _ => None
           end
  | _ => None
  end.

(** [get_kv_cache_config_from_groups] *)
Definition get_kv_cache_config_from_groups (c : VllmConfig) (groups : list KVCacheGroupSpec) (available_memory : Z) : res KVCacheConfig :=
  match groups with
  | [] => Ok {| num_blocks := 1; kv_cache_tensors := []; kv_cache_groups := groups |}
  | _ =>
      match one_uniform_group groups with
      | Some (names, specs, spec) =>
          page ← group_page_size_bytes spec;
          n ← py_div available_memory page;
          let n := may_override_num_blocks c n in
          tensors ← mapM (fun name =>
            s ← res_of_option KeyError (Dict.get name specs);
            p ← page_size_bytes s;
            Ok {| kt_size := p * n; shared_by := [name] |}) names;
          Ok {| num_blocks := n; kv_cache_tensors := tensors; kv_cache_groups := groups |}
      | None =>
          group_size ← largest_group groups;
          page_size ← get_uniform_page_size (kv_cache_spec <$> groups);
          if group_size <=? 0 then Raise AssertionError
          else
            n ← get_num_blocks c group_size available_memory page_size;
            Ok {| num_blocks := n;
                  kv_cache_tensors := (fun i => {| kt_size := page_size * n;
                                                   shared_by := omap (fun g => layer_names g !! Z.to_nat i) groups |})
                                      <$> py_range 0 group_size;
                  kv_cache_groups := groups |}
      end
  end.

(** [generate_scheduler_kv_cache_config] *)
Definition generate_scheduler_kv_cache_config (configs : list KVCacheConfig) : res KVCacheConfig :=
  match configs with
  | [] => Raise IndexError
  | cfg :: _ =>
      if forallb (fun x => num_blocks x =? num_blocks cfg) configs then
        groups ← mapM (fun g => match kv_cache_spec g with
          | UniformTypeKVCacheSpecs _ specs =>
              s ← res_of_option StopIteration (head specs);
              Ok {| layer_names := layer_names g; kv_cache_spec := OneSpec s.2 |}
          | OneSpec _ => Ok g
          end) (kv_cache_groups cfg);
        Ok {| num_blocks := num_blocks cfg; kv_cache_tensors := kv_cache_tensors cfg; kv_cache_groups := groups |}
      else Raise AssertionError
  end.

(** [_max_memory_usage_bytes_from_groups] *)
Definition blocks_needed (c : VllmConfig) (page_size : Z) (groups : list KVCacheGroupSpec) : res Z :=
  sum_res ((fun g => m ← group_max_memory_usage_bytes (kv_cache_spec g) c; py_cdiv m page_size) <$> groups).

Definition max_memory_usage_bytes_from_groups (c : VllmConfig) (groups : list KVCacheGroupSpec) : res Z :=
  match groups with
  | [] => Ok 0
  | _ =>
      match one_uniform_group groups with
      | Some (_, specs, _) => sum_res ((fun e => max_memory_usage_bytes e.2 c) <$> specs)
      | None =>
          group_size ← largest_group groups;
          page_size ← get_uniform_page_size (kv_cache_spec <$> groups);
          needed ← blocks_needed c page_size groups;
          Ok (group_size * page_size * needed)
      end
  end.

(** [_estimate_max_model_len_from_groups] *)
Definition estimate_max_model_len_from_groups (c : VllmConfig) (groups : list KVCacheGroupSpec) (available_memory : Z) : res Z :=
  longest_fitting (fun n => needed ← max_memory_usage_bytes_from_groups (with_model_len c n) groups;
                            Ok (needed <=? available_memory)) (max_model_len c).

(** The loop of [_auto_fit_max_model_len]. *)
Fixpoint fit_workers (c : VllmConfig) (workers : list (list KVCacheGroupSpec * Z)) (auto_fit_max : Z) : res Z :=
  match workers with
  | [] => Ok auto_fit_max
  | ([], _) :: rest => fit_workers c rest auto_fit_max
  | (groups, mem) :: rest =>
      worker_max ← estimate_max_model_len_from_groups c groups mem;
      fit_workers c rest (if worker_max <? auto_fit_max then worker_max else auto_fit_max)
  end.

(** [_auto_fit_max_model_len]: the configuration afterwards. *)
Definition auto_fit (c : VllmConfig) (projected : list (list KVCacheGroupSpec)) (available_memory : list Z) : res VllmConfig :=
  if forallb (fun groups => bool_decide (length groups = 0%nat)) projected then Ok c
  else
    _ ← res_of_option IndexError (head available_memory);
    auto_fit_max ← fit_workers c (zip projected available_memory) (max_model_len c);
    if auto_fit_max <=? 0 then Raise ValueError
    else if max_model_len c <=? auto_fit_max then Ok c
    else Ok (with_model_len c auto_fit_max).

(** [_project_kv_cache_groups_to_worker] *)
Definition project_kv_cache_groups_to_worker (groups : list KVCacheGroupSpec) (worker_spec : Specs) : res (list KVCacheGroupSpec) :=
  mapM (fun g =>
    let names := filter (fun n => Dict.mem n worker_spec = true) (layer_names g) in
    match names, kv_cache_spec g with
    | _ :: _, UniformTypeKVCacheSpecs bs specs =>
        mine ← mapM (fun n => s ← res_of_option KeyError (Dict.get n specs); Ok (n, s)) names;
        Ok {| layer_names := names; kv_cache_spec := UniformTypeKVCacheSpecs bs mine |}
    | _, spec => Ok {| layer_names := names; kv_cache_spec := spec |}
    end) groups.

(** The merged specs of all workers. *)
Fixpoint merge_worker (merged worker : Specs) : res Specs :=
  match worker with
  | [] => Ok merged
  | (name, s) :: rest =>
      match Dict.get name merged with
      | None => merge_worker (merged ++ [(name, s)]) rest
      | Some s' => if decide (s' = s) then merge_worker merged rest else Raise AssertionError
      end
  end.
Definition merge_workers (workers : list Specs) : res Specs :=
  foldl (fun r w => merged ← r; merge_worker merged w) (Ok []) workers.

(** Every worker gets the smallest number of blocks. *)
Definition shrink (min_num_blocks : Z) (cfg : KVCacheConfig) : res KVCacheConfig :=
  tensors ← mapM (fun t =>
    r ← py_mod (kt_size t) (num_blocks cfg);
    if r =? 0 then Ok {| t with kt_size := kt_size t / num_blocks cfg * min_num_blocks |} else Raise AssertionError)
    (kv_cache_tensors cfg);
  Ok {| num_blocks := min_num_blocks; kv_cache_tensors := tensors; kv_cache_groups := kv_cache_groups cfg |}.

(** [_report_kv_cache_config]: the number of tokens and the concurrency it logs. *)
Definition report_kv_cache_config (c : VllmConfig) (cfg : KVCacheConfig) : res (Z * (Z * Z)) :=
  min_block_size ← py_min ((fun g => group_block_size (kv_cache_spec g)) <$> kv_cache_groups cfg);
  n ← py_div (num_blocks cfg) (zlen (kv_cache_groups cfg));
  let num_tokens := n * min_block_size in
  let world := prefill_context_parallel_size c * decode_context_parallel_size c in
  let num_tokens := if 1 <? world then num_tokens * world else num_tokens in
  max_concurrency ← get_max_concurrency_for_kv_cache_config c cfg;
  Ok (num_tokens, max_concurrency).

(** [get_kv_cache_configs]: the configurations, and the configuration of the engine
    afterwards. *)
Definition get_kv_cache_configs (c : VllmConfig) (kv_cache_specs : list Specs) (available_memory : list Z) : res (list KVCacheConfig * VllmConfig) :=
  merged ← merge_workers kv_cache_specs;
  global_groups ← get_kv_cache_groups c merged;
  projected ← mapM (project_kv_cache_groups_to_worker global_groups) kv_cache_specs;
  c ← (if auto_fit_max_model_len c then auto_fit c projected available_memory else Ok c);
  _ ← mapM (fun '(groups, mem) => match groups with
       | [] => Ok tt
       | _ => check_enough mem (max_memory_usage_bytes_from_groups c groups) (estimate_max_model_len_from_groups c groups)
       end) (zip projected available_memory);
  configs ← mapM (fun '(groups, (specs, mem)) =>
       if sum ((fun g => zlen (layer_names g)) <$> groups) =? zlen specs then get_kv_cache_config_from_groups c groups mem
       else Raise AssertionError) (zip projected (zip kv_cache_specs available_memory));
  min_num_blocks ← py_min (num_blocks <$> configs);
  configs ← mapM (fun cfg =>
       cfg ← shrink min_num_blocks cfg;
       _ ← match kv_cache_groups cfg with [] => Ok tt | _ => _ ← report_kv_cache_config c cfg; Ok tt end;
       Ok cfg) configs;
  Ok (configs, c).

End Plan.
