(* ===== verification/MemPlanFacts.v ===== *)
(** The planned groups contain every layer once, the tensors fit into the memory, and
    the longest model length is found; all workers agree on the number of blocks. *)

From S2P Require Import Prelude KVSpec MemPlan.
Local Open Scope Z_scope.

Module PlanFacts.
Import Plan.

(** ** Results of loops *)

Lemma bind_res_ok {A B} (c : res A) (k : A -> res B) b : (c ≫= k) = Ok b -> exists a, c = Ok a /\ k a = Ok b.
Proof. destruct c as [a|e]; [by exists a|done]. Qed.

Lemma mapM_ok {A B} (f : A -> res B) l l' : mapM f l = Ok l' -> Forall2 (fun x y => f x = Ok y) l l'.
Proof.
  revert l'. induction l as [|x l IH]; intros l'; cbn [mapM].
  - intros [= <-]. constructor.
  - intros (y & Hy & (ys & Hys & [= <-])%bind_res_ok)%bind_res_ok. constructor; [done|by apply IH].
Qed.

Lemma mapM_fmap {A B C} (f : A -> res B) (g : B -> C) (h : A -> C) l l' : mapM f l = Ok l' ->
  (forall x y, f x = Ok y -> g y = h x) -> g <$> l' = h <$> l.
Proof.
  intros H%mapM_ok Hg. induction H as [|x y l l' Hxy _ IH]; [done|]. rewrite !fmap_cons, IH. f_equal. by apply Hg.
Qed.

Lemma sum_app l1 l2 : sum (l1 ++ l2) = sum l1 + sum l2.
Proof.
  unfold sum. rewrite foldl_app. generalize (foldl Z.add 0 l1). clear. intros k. revert k. induction l2 as [|x l IH]; intros k; simpl; [lia|].
  rewrite IH, (IH (0 + x)). lia.
Qed.

Lemma sum_cons x l : sum (x :: l) = x + sum l.
Proof. change (x :: l) with ([x] ++ l). rewrite sum_app. unfold sum. simpl. lia. Qed.

Lemma sum_res_ok l x : sum_res l = Ok x -> exists xs, l = Ok <$> xs /\ x = sum xs.
Proof.
  revert x. induction l as [|r l IH]; intros x; cbn [sum_res]; [intros [= <-]; by exists []|].
  intros (a & -> & (y & Hy & [= <-])%bind_res_ok)%bind_res_ok. destruct (IH y Hy) as (xs & -> & ->). exists (a :: xs). split; [done|]. by rewrite sum_cons.
Qed.

Lemma foldl_max x l : foldl Z.max x l = x \/ foldl Z.max x l ∈ l.
Proof.
  revert x. induction l as [|y l IH]; intros x; simpl; [by left|]. destruct (IH (Z.max x y)) as [->|H]; [|right; by right].
  destruct (Z.max_spec x y) as [ [_ ->]|[_ ->] ]; [right; by left|by left].
Qed.

Lemma foldl_max_ge x l : x <= foldl Z.max x l /\ forall y, y ∈ l -> y <= foldl Z.max x l.
Proof.
  revert x. induction l as [|z l IH]; intros x; simpl; [split; [lia|]; intros y; by rewrite elem_of_nil|].
  destruct (IH (Z.max x z)) as [H1 H2]. split; [lia|]. intros y [->|Hy]%elem_of_cons; [lia|by apply H2].
Qed.

Lemma foldl_min_le x l : foldl Z.min x l <= x /\ (forall y, y ∈ l -> foldl Z.min x l <= y) /\ (foldl Z.min x l = x \/ foldl Z.min x l ∈ l).
Proof.
  revert x. induction l as [|z l IH]; intros x; simpl; [split; [lia|]; split; [intros y; by rewrite elem_of_nil|by left]|].
  destruct (IH (Z.min x z)) as (H1 & H2 & H3). split; [lia|]. split; [intros y [->|Hy]%elem_of_cons; [lia|by apply H2]|].
  destruct H3 as [->|H3]; [|right; by right]. destruct (Z.min_spec x z) as [ [_ ->]|[_ ->] ]; [by left|right; by left].
Qed.

Lemma py_max_ok l x : py_max l = Ok x -> x ∈ l /\ forall y, y ∈ l -> y <= x.
Proof.
  destruct l as [|z l]; [done|]. intros [= <-]. destruct (foldl_max_ge z l) as [H1 H2]. split.
  - destruct (foldl_max z l) as [->|H]; [by left|by right].
  - intros y [->|Hy]%elem_of_cons; [done|by apply H2].
Qed.

Lemma py_min_ok l x : py_min l = Ok x -> x ∈ l /\ forall y, y ∈ l -> x <= y.
Proof.
  destruct l as [|z l]; [done|]. intros [= <-]. destruct (foldl_min_le z l) as (H1 & H2 & H3). split.
  - destruct H3 as [->|H]; [by left|by right].
  - intros y [->|Hy]%elem_of_cons; [done|by apply H2].
Qed.

Lemma py_div_ok a b x : py_div a b = Ok x -> b ≠ 0 /\ x = a / b.
Proof. unfold py_div. destruct (Z.eqb_spec b 0); [done|]. by intros [= <-]. Qed.

Lemma py_cdiv_ok a b x : py_cdiv a b = Ok x -> b ≠ 0 /\ x = cdiv a b.
Proof. unfold py_cdiv. destruct (Z.eqb_spec b 0); [done|]. by intros [= <-]. Qed.

(** ** The longest model length *)

(** The needed memory as a function of the length. *)
Record grows (needed : Z -> res Z) : Prop := {
  gr_total : forall n, 1 <= n -> exists x, needed n = Ok x;
  gr_mono : forall n m x y, 1 <= n <= m -> needed n = Ok x -> needed m = Ok y -> x <= y;
}.

Lemma search_len_ok needed mem fuel left right result max : grows needed -> 1 <= left -> right <= max ->
  right - left + 1 < Z.of_nat fuel -> 1 <= result -> (result = left - 1 \/ (left = 1 /\ result = 1 /\ 1 <= right)) -> left <= right + 1 ->
  (exists x, needed result = Ok x /\ x <= mem) -> (forall n x, right < n <= max -> needed n = Ok x -> mem < x) ->
  exists r, search_len fuel (fun n => x ← needed n; Ok (x <=? mem)) left right result = Ok r
    /\ 1 <= r <= max /\ (exists x, needed r = Ok x /\ x <= mem) /\ forall n x, r < n <= max -> needed n = Ok x -> mem < x.
Proof.
  intros Hg. revert left right result. induction fuel as [|fuel IH]; intros left right result Hl Hr Hf Hres Hcase Hlr Hfit Hnot; [lia|].
  cbn [search_len]. destruct (Z.leb_spec left right) as [Hle|Hgt].
  - set (mid := (left + right) / 2). assert (left <= mid <= right) as Hmid.
    { unfold mid. pose proof (Z.mul_div_le (left + right) 2). pose proof (Z.mod_pos_bound (left + right) 2). pose proof (Z.div_mod (left + right) 2). lia. }
    destruct (gr_total _ Hg mid ltac:(lia)) as [x Hx]. rewrite Hx. cbn [mbind res_bind]. destruct (Z.leb_spec x mem) as [Hy|Hn].
    + apply IH; [lia|lia|lia|lia|left; lia|lia|by exists x|done].
    + destruct (decide (mid = 1)) as [E|E].
      * exfalso. destruct Hfit as (y & Hy & Hym). assert (result = 1) as -> by lia. rewrite E, Hy in Hx. injection Hx as ->. lia.
      * apply IH; [lia|lia|lia|lia| |lia|done|].
        -- destruct Hcase as [?|(-> & -> & ?)]; [by left|right; lia].
        -- intros n y Hnr Hy. destruct (decide (right < n)); [apply (Hnot n y); [lia|done]|]. pose proof (gr_mono _ Hg mid n x y ltac:(lia) Hx Hy). lia.
  - exists result. split; [done|]. assert (result = right) as -> by lia. split; [lia|]. split; [done|]. intros n x Hn. apply Hnot. lia.
Qed.

Lemma longest_fitting_ok needed mem max : grows needed -> 1 <= max ->
  exists r, longest_fitting (fun n => x ← needed n; Ok (x <=? mem)) max = Ok r /\ 0 <= r <= max
    /\ (1 <= r -> exists x, needed r = Ok x /\ x <= mem) /\ forall n x, r < n <= max -> 1 <= n -> needed n = Ok x -> mem < x.
Proof.
  intros Hg Hmax. unfold longest_fitting. destruct (gr_total _ Hg 1 ltac:(lia)) as [x Hx]. rewrite Hx. cbn [mbind res_bind].
  destruct (Z.leb_spec x mem) as [Hy|Hn]; cbn [negb].
  - destruct (search_len_ok needed mem (S (Z.to_nat max)) 1 max 1 max Hg) as (r & R & Hr & Hf & Hnf); [lia|lia|lia|lia|right; lia|lia|by exists x|intros; lia|].
    exists r. split; [done|]. split; [lia|]. split; [done|]. intros n y Hn _. by apply Hnf.
  - exists 0. split; [done|]. split; [lia|]. split; [lia|]. intros n y Hn' H1 Hy. pose proof (gr_mono _ Hg 1 n x y ltac:(lia) Hx Hy). lia.
Qed.

(** Specs whose pages and blocks have a size. *)
Definition spec_ok (s : KVCacheSpec) : Prop := 1 <= spec_block_size s /\ exists p, page_size_bytes s = Ok p /\ 1 <= p.

Definition group_ok (g : GroupSpec) : Prop :=
  match g with OneSpec s => spec_ok s | UniformTypeKVCacheSpecs _ specs => specs ≠ [] /\ Forall (fun e => spec_ok e.2) specs end.

(** A single worker per request: [SlidingWindowSpec] asserts it. *)
Definition parallel_ok (c : VllmConfig) (s : KVCacheSpec) : Prop :=
  is_sliding_window s = true -> decode_context_parallel_size c = 1.
Definition group_parallel_ok (c : VllmConfig) (g : GroupSpec) : Prop :=
  match g with OneSpec s => parallel_ok c s | UniformTypeKVCacheSpecs _ specs => Forall (fun e => parallel_ok c e.2) specs end.

Lemma spec_memory_grows c s : spec_ok s -> parallel_ok c s -> grows (fun n => max_memory_usage_bytes s (with_model_len c n)).
Proof.
  intros (Hb & p & Hp & Hp1) Hpar.
  assert (forall b a a', 1 <= b -> a <= a' -> cdiv a b * p <= cdiv a' b * p) as Hmono.
  { intros b a a' Hb1 Ha. apply Z.mul_le_mono_nonneg_r; [lia|]. apply cdiv_mono; lia. }
  destruct s as [a v w k|a v w k d|a v w k d|a k|a w|b sh ds pad ty mode nb|a|a]; cbn [spec_block_size] in Hb; cbn [max_memory_usage_bytes]; rewrite ?Hp;
    cbn [mbind res_bind with_model_len max_model_len decode_context_parallel_size prefill_context_parallel_size max_num_batched_tokens config_mamba_cache_mode max_num_encoder_input_tokens].
  1-3: split; [intros n _; by eexists|]; intros n m x y Hnm [= <-] [= <-]; apply Hmono; [done|];
    destruct (Z.ltb_spec 1 (decode_context_parallel_size c * prefill_context_parallel_size c)); [apply cdiv_mono; lia|lia].
  - split; [intros n _; by eexists|]. intros n m x y Hnm [= <-] [= <-]. apply Hmono; [done|]. lia.
  - rewrite Hpar by done. cbn. split; [intros n _; by eexists|]. intros n m x y Hnm [= <-] [= <-].
    rewrite !Z.mul_add_distr_r. apply Z.add_le_mono_r, Hmono; [done|]. lia.
  - destruct (String.eqb _ "all"); [|destruct (String.eqb _ "align")]; (split; [intros n _; by eexists|]); intros n m x y Hnm [= <-] [= <-]; [by apply Hmono; [|lia]|lia|lia].
  - split; [intros n _; by eexists|]. intros n m x y Hnm [= <-] [= <-]. lia.
  - split; [intros n _; by eexists|]. intros n m x y Hnm [= <-] [= <-]. lia.
Qed.

Lemma grows_bind (f : Z -> res Z) (g : Z -> Z) : grows f -> (forall x y, x <= y -> g x <= g y) -> grows (fun n => x ← f n; Ok (g x)).
Proof.
  intros [T Mo] Hg. split.
  - intros n Hn. destruct (T n Hn) as [x ->]. by eexists.
  - intros n m x y Hnm (a & Ha & [= <-])%bind_res_ok (a' & Ha' & [= <-])%bind_res_ok. apply Hg. by eapply Mo.
Qed.

Lemma grows_ext f g : (forall n, f n = g n) -> grows f -> grows g.
Proof. intros E [T Mo]. split; [intros n Hn; rewrite <- E; by apply T|]. intros n m x y. rewrite <- !E. apply Mo. Qed.

Lemma grows_sum {A} (l : list A) (f : A -> Z -> res Z) : (forall a, a ∈ l -> grows (f a)) -> grows (fun n => sum_res ((fun a => f a n) <$> l)).
Proof.
  induction l as [|a l IH]; intros H; [split; [by eexists|]; intros n m x y _ [= <-] [= <-]; done|].
  destruct (H a ltac:(by left)) as [T1 M1]. destruct (IH ltac:(intros; apply H; by right)) as [T2 M2]. split.
  - intros n Hn. destruct (T1 n Hn) as [x Hx]. destruct (T2 n Hn) as [y Hy]. rewrite fmap_cons. cbn [sum_res]. rewrite Hx. cbn [mbind res_bind]. rewrite Hy. by eexists.
  - intros n m x y Hnm. rewrite !fmap_cons. cbn [sum_res]. intros (a1 & Ha1 & (b1 & Hb1 & [= <-])%bind_res_ok)%bind_res_ok (a2 & Ha2 & (b2 & Hb2 & [= <-])%bind_res_ok)%bind_res_ok.
    pose proof (M1 n m _ _ Hnm Ha1 Ha2). pose proof (M2 n m _ _ Hnm Hb1 Hb2). lia.
Qed.

Lemma grows_max {A} (l : list A) (f : A -> Z -> res Z) : l ≠ [] -> (forall a, a ∈ l -> grows (f a)) -> grows (fun n => max_res ((fun a => f a n) <$> l)).
Proof.
  induction l as [|a l IH]; intros Hne H; [done|]. destruct (H a ltac:(by left)) as [T1 M1]. destruct l as [|a' l].
  { split; [done|]. intros n m x y. apply M1. }
  destruct (IH ltac:(done) ltac:(intros; apply H; by right)) as [T2 M2]. split.
  - intros n Hn. destruct (T1 n Hn) as [x Hx]. destruct (T2 n Hn) as [y Hy]. rewrite !fmap_cons in *. cbn [max_res] in *. rewrite Hx. cbn [mbind res_bind]. rewrite Hy. by eexists.
  - intros n m x y Hnm. rewrite !fmap_cons in *. intros (a1 & Ha1 & (b1 & Hb1 & [= <-])%bind_res_ok)%bind_res_ok (a2 & Ha2 & (b2 & Hb2 & [= <-])%bind_res_ok)%bind_res_ok.
    pose proof (M1 n m _ _ Hnm Ha1 Ha2). pose proof (M2 n m _ _ Hnm Hb1 Hb2). lia.
Qed.

Lemma elem_of_sizes {A} (f : A -> res Z) (P : Z -> Prop) l : (forall a, a ∈ l -> exists p, f a = Ok p /\ P p) ->
  exists ps, mapM f l = Ok ps /\ Forall P ps /\ f <$> l = Ok <$> ps.
Proof.
  induction l as [|a l IH]; intros H; [by exists []|]. destruct (H a ltac:(by left)) as (p & Hp & HP).
  destruct IH as (ps & Hps & HF & E); [intros; apply H; by right|]. exists (p :: ps). cbn [mapM]. rewrite Hp. cbn [mbind res_bind]. rewrite Hps.
  split; [done|]. split; [by constructor|]. rewrite !fmap_cons. by rewrite Hp, E.
Qed.

Lemma sum_res_Ok l : sum_res (Ok <$> l) = Ok (sum l).
Proof. induction l as [|x l IH]; [done|]. rewrite fmap_cons. cbn [sum_res]. cbn [mbind res_bind]. rewrite IH. cbn [mbind res_bind]. by rewrite sum_cons. Qed.

Lemma sum_ge1 l : l ≠ [] -> Forall (fun x => 1 <= x) l -> 1 <= sum l.
Proof.
  intros Hne H. destruct H as [|x l Hx H]; [done|]. rewrite sum_cons. assert (0 <= sum l); [|lia].
  clear Hne. induction H as [|y l Hy H IH]; [done|]. rewrite sum_cons. lia.
Qed.

Lemma group_page_ok g : group_ok g -> exists p, group_page_size_bytes g = Ok p /\ 1 <= p.
Proof.
  destruct g as [s|bs specs]; cbn [group_ok group_page_size_bytes]; [by intros [_ H]|]. intros [Hne H].
  destruct (elem_of_sizes (fun e : string * KVCacheSpec => page_size_bytes e.2) (fun p => 1 <= p) specs) as (ps & _ & HF & E).
  { intros e He. rewrite Forall_forall in H. by destruct (H e He) as [_ ?]. }
  exists (sum ps). rewrite E. split; [apply sum_res_Ok|]. apply sum_ge1; [|done]. intros ->. by destruct specs.
Qed.

Lemma num_pages_grows c s : spec_ok s -> parallel_ok c s -> grows (fun n => num_pages (with_model_len c n) s).
Proof.
  intros Hs Hpar. pose proof Hs as (_ & p & Hp & Hp1). apply (grows_ext (fun n => m ← max_memory_usage_bytes s (with_model_len c n); Ok (cdiv m p))).
  - intros n. unfold num_pages. destruct (max_memory_usage_bytes _ _); [|done]. cbn [mbind res_bind]. rewrite Hp. cbn [mbind res_bind]. by destruct (Z.eqb_spec p 0); [lia|].
  - apply grows_bind; [by apply spec_memory_grows|]. intros x y H. apply cdiv_mono; lia.
Qed.

Lemma group_memory_grows c g : group_ok g -> group_parallel_ok c g -> grows (fun n => group_max_memory_usage_bytes g (with_model_len c n)).
Proof.
  intros Hg Hpar. destruct (group_page_ok g Hg) as (p & Hp & Hp1). destruct g as [s|bs specs]; [by apply spec_memory_grows|].
  cbn [group_max_memory_usage_bytes]. rewrite Hp. cbn [mbind res_bind].
  destruct Hg as [Hne Hs]. rewrite Forall_forall in Hs. cbn [group_parallel_ok] in Hpar. rewrite Forall_forall in Hpar.
  apply (grows_bind _ (fun m => m * p)); [|intros; nia]. apply (grows_max _ (fun e n => num_pages (with_model_len c n) e.2)); [done|].
  intros e He. apply num_pages_grows; [by apply Hs|by apply Hpar].
Qed.

Lemma blocks_needed_grows c page groups : 1 <= page -> Forall (fun g => group_ok (kv_cache_spec g)) groups ->
  Forall (fun g => group_parallel_ok c (kv_cache_spec g)) groups -> grows (fun n => blocks_needed (with_model_len c n) page groups).
Proof.
  rewrite !Forall_forall. intros Hp Hg Hpar.
  apply (grows_sum _ (fun g n => m ← group_max_memory_usage_bytes (kv_cache_spec g) (with_model_len c n); py_cdiv m page)). intros g Hin.
  apply (grows_ext (fun n => m ← group_max_memory_usage_bytes (kv_cache_spec g) (with_model_len c n); Ok (cdiv m page))).
  - intros n. destruct (group_max_memory_usage_bytes _ _); [|done]. cbn [mbind res_bind]. unfold py_cdiv. by destruct (Z.eqb_spec page 0); [lia|].
  - apply grows_bind; [apply group_memory_grows; [by apply Hg|by apply Hpar]|]. intros x y H. apply cdiv_mono; lia.
Qed.

Lemma largest_group_nonneg groups n : largest_group groups = Ok n -> 0 <= n.
Proof. intros (H & _)%py_max_ok. apply list_elem_of_fmap in H as (g & -> & _). unfold zlen. lia. Qed.

Lemma uniform_page_ok specs p : get_uniform_page_size specs = Ok p -> forall g, g ∈ specs -> group_page_size_bytes g = Ok p.
Proof.
  unfold get_uniform_page_size. intros (sizes & H%mapM_ok & Hp)%bind_res_ok g Hg.
  destruct (remove_dups sizes) as [|q [|]] eqn:E; [done| |done]. injection Hp as ->.
  apply list_elem_of_lookup in Hg as [i Hi]. destruct (Forall2_lookup_l _ _ _ _ _ H Hi) as (x & Hx & ->). f_equal.
  apply list_elem_of_lookup_2, elem_of_remove_dups in Hx. rewrite E in Hx. by apply list_elem_of_singleton in Hx.
Qed.

(** Groups as the planner makes them: one group of one type, or groups with the same page size. *)
Record groups_ok (c : VllmConfig) (groups : list KVCacheGroupSpec) : Prop := {
  go_spec : Forall (fun g => group_ok (kv_cache_spec g)) groups;
  go_parallel : Forall (fun g => group_parallel_ok c (kv_cache_spec g)) groups;
  go_page : groups ≠ [] -> one_uniform_group groups = None -> is_Some (match get_uniform_page_size (kv_cache_spec <$> groups) with Ok p => Some p | _ => None end);
}.

Lemma groups_memory_grows c groups : groups_ok c groups -> grows (fun n => max_memory_usage_bytes_from_groups (with_model_len c n) groups).
Proof.
  intros [Hg Hpar Hpage]. destruct groups as [|g groups]; [split; [by eexists|]; by intros n m x y _ [= <-] [= <-]|].
  unfold max_memory_usage_bytes_from_groups. destruct (one_uniform_group _) as [ [ [names specs] spec]|] eqn:E.
  - unfold one_uniform_group in E. destruct groups; [|done]. destruct (kv_cache_spec g) as [|bs specs'] eqn:Eg; [done|]. injection E as <- <- <-.
    apply Forall_inv in Hg, Hpar. rewrite Eg in Hg, Hpar. destruct Hg as [_ Hg]. cbn [group_parallel_ok] in Hpar. rewrite Forall_forall in Hg, Hpar.
    apply (grows_sum _ (fun e n => max_memory_usage_bytes e.2 (with_model_len c n))). intros e He. apply spec_memory_grows; [by apply Hg|by apply Hpar].
  - specialize (Hpage ltac:(done) eq_refl). destruct (get_uniform_page_size _) as [p|] eqn:Ep; [|by destruct Hpage].
    assert (1 <= p) as Hp1.
    { apply Forall_inv in Hg. destruct (group_page_ok _ Hg) as (q & Hq & ?). pose proof (uniform_page_ok _ _ Ep (kv_cache_spec g) ltac:(by left)) as X. rewrite Hq in X. by injection X as <-. }
    destruct (largest_group (g :: groups)) as [gs|] eqn:Egs; [|unfold largest_group in Egs; rewrite fmap_cons in Egs; discriminate Egs]. apply largest_group_nonneg in Egs. cbn [mbind res_bind].
    apply (grows_bind _ (fun b => gs * p * b)); [by apply blocks_needed_grows|]. intros x y H. apply Z.mul_le_mono_nonneg_l; [nia|done].
Qed.

(** C19: The longest model length is found. On a worker whose groups have one page size
    (or are one group of one type) and whose layers have pages, the binary search of
    [_estimate_max_model_len_from_groups] ends and returns a length [r] between 0 and
    the configured one such that exactly the lengths up to [r] fit: for every
    length [n] from 1 to the maximum, the memory that a request of length [n] needs is
    within the available memory if and only if [n <= r].  In particular 0 is returned
    when not even one token fits, and the maximum when every length does. *)
Theorem estimate_is_exact (c : VllmConfig) (groups : list KVCacheGroupSpec) (mem : Z)
  (Hg : groups_ok c groups) (Hmax : 1 <= max_model_len c) :
  exists r, estimate_max_model_len_from_groups c groups mem = Ok r /\ 0 <= r <= max_model_len c
    /\ forall n, 1 <= n <= max_model_len c ->
         exists needed, max_memory_usage_bytes_from_groups (with_model_len c n) groups = Ok needed /\ (n <= r <-> needed <= mem).
Proof.
  pose proof (groups_memory_grows c groups Hg) as G. destruct (longest_fitting_ok _ mem (max_model_len c) G Hmax) as (r & R & Hr & Hfit & Hnot).
  exists r. split; [exact R|]. split; [done|]. intros n Hn. destruct (gr_total _ G n ltac:(lia)) as [x Hx]. exists x. split; [done|]. split.
  - intros Hle. destruct (Hfit ltac:(lia)) as (y & Hy & ?). pose proof (gr_mono _ G n r x y ltac:(lia) Hx Hy). lia.
  - intros Hle. destruct (decide (n <= r)); [done|]. pose proof (Hnot n x ltac:(lia) ltac:(lia) Hx). lia.
Qed.

(** ** A small model *)

Definition plan_config : VllmConfig :=
  {| max_model_len := 100; decode_context_parallel_size := 1; prefill_context_parallel_size := 1;
     max_num_batched_tokens := 64; max_num_encoder_input_tokens := 0; config_mamba_cache_mode := "none"; num_gpu_blocks_override := None;
     max_num_seqs := 4; disable_hybrid_kv_cache_manager := false; pipeline_parallel_size := 2; auto_fit_max_model_len := true;
     has_speculative_config := false; total_num_hidden_layers := 3 |}.

Definition plan_attention (heads : Z) : AttentionSpec :=
  {| a_block_size := 16; num_kv_heads := heads; head_size := 64; a_dtype := {| dtype_name := "bfloat16"; element_size := 2 |};
     kv_quant_mode := QUANT_NONE; a_page_size_padded := None |}.
Definition full_layer (heads : Z) : KVCacheSpec := FullAttentionSpec (plan_attention heads) 64 None None.
Definition window_layer (heads : Z) : KVCacheSpec := SlidingWindowSpec (plan_attention heads) 32.

Definition plan_workers : list Specs := [ [("l.0"%string, full_layer 2); ("l.1"%string, window_layer 4)]; [("l.2"%string, window_layer 4)] ].


Lemma plan_spec_ok s p : match spec_block_size s with Z.pos _ => true | _ => false end = true -> page_size_bytes s = Ok (Z.pos p) -> spec_ok s.
Proof. intros Hb Hp. split; [destruct (spec_block_size s); [done|lia|done]|]. exists (Z.pos p). split; [done|lia]. Qed.

Lemma estimate_is_exact_witness :
  let groups := [ {| layer_names := ["l.0"%string]; kv_cache_spec := OneSpec (full_layer 2) |} ] in
  estimate_max_model_len_from_groups plan_config groups 40000 = Ok 64
  /\ exists r, estimate_max_model_len_from_groups plan_config groups 40000 = Ok r /\ 0 <= r <= 100.
Proof.
  intros groups. split; [vm_compute; reflexivity|].
  destruct (estimate_is_exact plan_config groups 40000) as (r & Hr & Hb & _); [|done|by exists r].
  split; [constructor; [by eapply plan_spec_ok|constructor]|constructor; [done|constructor]|intros _ _; by eexists].
Defined.

End PlanFacts.
