(* ===== verification/MemPlanGroups.v ===== *)
(** The groups of the planner: every layer is in exactly one group. *)

From S2P Require Import Prelude KVSpec MemPlan MemPlanFacts.
Local Open Scope Z_scope.

Module PlanGroups.
Import Plan PlanFacts.

(** ** The parts of a list with a stride *)

Lemma concat_fmap {A B} (f : A -> list B) l : concat (f <$> l) = l ≫= f.
Proof. induction l as [|x l IH]; [done|]. rewrite fmap_cons. cbn [concat]. by rewrite IH. Qed.

Lemma concat_reverse {A} (l : list (list A)) : concat (reverse l) ≡ₚ concat l.
Proof. induction l as [|x l IH]; [done|]. rewrite reverse_cons, concat_app. simpl. rewrite app_nil_r, IH. apply Permutation_app_comm. Qed.

Lemma omap_bind {A B C} (f : B -> option C) (g : A -> list B) l : (l ≫= fun x => omap f (g x)) = omap f (l ≫= g).
Proof. induction l as [|x l IH]; [done|]. rewrite !bind_cons, omap_app. by rewrite IH. Qed.

Lemma omap_range {A} (l : list A) : omap (fun j => l !! Z.to_nat j) (py_range 0 (zlen l)) = l.
Proof.
  induction l as [|x l IH] using rev_ind; [done|]. unfold zlen in *. rewrite length_app. cbn [length].
  replace (Z.of_nat (length l + 1)) with (Z.of_nat (length l) + 1) by lia. rewrite py_range_snoc, omap_app by lia. f_equal.
  - etransitivity; [|exact IH]. apply list_omap_ext, Forall_Forall2_diag, Forall_forall. intros j Hj%elem_of_py_range. apply lookup_app_l. lia.
  - cbn. rewrite Nat2Z.id, lookup_app_r, Nat.sub_diag by lia. done.
Qed.

Lemma range_NoDup a b : NoDup (py_range a b).
Proof. unfold py_range. apply NoDup_fmap_2; [intros ? ? ?; lia|]. apply NoDup_seq. Qed.

Definition stride_indices (n i k : Z) : list Z := (fun q => i + q * k) <$> py_range 0 (cdiv (n - i) k).

Lemma elem_of_stride n i k j : 0 <= i < k -> j ∈ stride_indices n i k <-> 0 <= j < n /\ j mod k = i.
Proof.
  intros Hi. unfold stride_indices. rewrite list_elem_of_fmap. setoid_rewrite elem_of_py_range.
  pose proof (cdiv_bounds k ltac:(lia) (n - i)) as Hc. split.
  - intros (q & -> & Hq). split; [nia|]. rewrite Z.mod_add by lia. apply Z.mod_small. lia.
  - intros [Hj <-]. exists (j / k). pose proof (Z.div_mod j k ltac:(lia)). split; [lia|].
    assert (0 <= j / k) by (apply Z.div_pos; lia). split; [done|]. nia.
Qed.

Lemma stride_parts n k : 1 <= k -> (py_range 0 k ≫= fun i => stride_indices n i k) ≡ₚ py_range 0 n.
Proof.
  intros Hk. apply NoDup_Permutation; [|apply range_NoDup|].
  - apply NoDup_bind; [| |apply range_NoDup].
    + intros i i' j Hi%elem_of_py_range Hi'%elem_of_py_range [_ <-]%elem_of_stride [_ <-]%elem_of_stride; done.
    + intros i Hi. unfold stride_indices. apply NoDup_fmap_2; [intros ? ? ?; nia|]. apply range_NoDup.
  - intros j. rewrite list_elem_of_bind. setoid_rewrite elem_of_py_range. split.
    + intros (i & Hj & Hi). by apply elem_of_stride in Hj as [? _].
    + intros Hj. exists (j mod k). pose proof (Z.mod_pos_bound j k ltac:(lia)). split; [|done]. by apply elem_of_stride.
Qed.

Lemma stride_perm {A} (l : list A) k : 1 <= k -> concat ((fun i => stride l i k) <$> py_range 0 k) ≡ₚ l.
Proof.
  intros Hk. rewrite concat_fmap. unfold stride. rewrite omap_bind. change (omap (fun j => l !! Z.to_nat j) (py_range 0 k ≫= (fun i => stride_indices (zlen l) i k)) ≡ₚ l).
  rewrite stride_parts by done. by rewrite omap_range.
Qed.

Lemma length_omap_all {A B} (f : A -> option B) l : (forall x, x ∈ l -> is_Some (f x)) -> length (omap f l) = length l.
Proof.
  induction l as [|x l IH]; intros H; [done|]. cbn. destruct (H x ltac:(by left)) as [y ->]. simpl. f_equal. apply IH. intros ? ?. apply H. by right.
Qed.

Lemma length_stride {A} (l : list A) i k : 0 <= i < k -> zlen (stride l i k) = Z.max 0 (cdiv (zlen l - i) k).
Proof.
  intros Hi. unfold zlen at 1. unfold stride. rewrite length_omap_all.
  - unfold py_range. rewrite !length_fmap, length_seq. lia.
  - intros j Hj. change (j ∈ stride_indices (zlen l) i k) in Hj. apply elem_of_stride in Hj as [Hj _]; [|done]. apply lookup_lt_is_Some_2. unfold zlen in Hj. lia.
Qed.

(** ** The layers of each spec *)

Lemma add_layer_perm d e : concat (add_layer d e).*2 ≡ₚ concat d.*2 ++ [e.1].
Proof.
  unfold add_layer. destruct (Dict.get e.2 d) as [layers|] eqn:E; cbn [default].
  - rewrite (Dict.set_perm _ _ _ _ E). rewrite fmap_cons. cbn [concat snd].
    assert (concat d.*2 ≡ₚ layers ++ concat (Dict.del e.2 d).*2) as ->.
    { rewrite (Dict.del_perm _ _ _ E) at 1. by rewrite fmap_cons. }
    rewrite <- !app_assoc. apply Permutation_app_head, Permutation_app_comm.
  - apply Dict.get_None in E. rewrite Dict.keys_set_new by done. rewrite fmap_app, concat_app. simpl. by rewrite ?app_nil_r.
Qed.

Lemma same_type_perm specs : concat (same_type_layers specs).*2 ≡ₚ Dict.keys specs.
Proof.
  unfold same_type_layers. assert (forall d, concat (foldl add_layer d specs).*2 ≡ₚ concat d.*2 ++ Dict.keys specs) as H; [|by rewrite H].
  induction specs as [|e specs IH]; intros d; [by rewrite app_nil_r|]. cbn [foldl]. rewrite IH, add_layer_perm. by rewrite <- app_assoc.
Qed.

Lemma elem_set {K V} `{EqDecision K} (k : K) (v : V) d e : e ∈ Dict.set k v d -> e = (k, v) \/ e ∈ d.
Proof.
  induction d as [|[k1 v1] d IH]; cbn [Dict.set]; [intros H%list_elem_of_singleton; by left|].
  case_decide; rewrite !elem_of_cons; naive_solver.
Qed.

Lemma same_type_nonempty specs : Forall (fun e => e.2 ≠ []) (same_type_layers specs).
Proof.
  unfold same_type_layers. assert (forall d, Forall (fun e : KVCacheSpec * list string => e.2 ≠ []) d -> Forall (fun e => e.2 ≠ []) (foldl add_layer d specs)) as H; [|by apply H].
  induction specs as [|e specs IH]; intros d Hd; [done|]. apply IH. rewrite Forall_forall in *. intros x [->|Hx]%elem_set; [|by apply Hd]. by destruct (default [] _).
Qed.

(** Taking the drafter's layers out. *)
Lemma existsb_false_filter {A} (P : A -> Prop) `{forall x, Decision (P x)} l : existsb (fun n => bool_decide (P n)) l = false -> filter P l = [].
Proof.
  induction l as [|x l IH]; [done|]. cbn [existsb]. intros [H1 H2]%orb_false_iff. apply bool_decide_eq_false in H1. rewrite filter_cons_False by done. by apply IH.
Qed.

Lemma without_drafter_perm dr d : drafter_group_layers dr d ++ concat (without_drafter dr d).*2 ≡ₚ concat d.*2.
Proof.
  induction d as [|[s layers] d IH]; [done|]. unfold drafter_group_layers, without_drafter in *. rewrite bind_cons. cbn [omap list_omap fst snd fmap list_fmap concat].
  rewrite <- IH. destruct (existsb _ layers) eqn:E.
  - destruct (filter (fun n => n ∉ dr) layers) as [|x l] eqn:Ef; rewrite <- (filter_app_complement (fun n => n ∈ dr) layers) at 2; rewrite Ef.
    + rewrite app_nil_r. by rewrite app_assoc.
    + cbn [fmap list_fmap snd concat]. rewrite <- !app_assoc. apply Permutation_app_head. rewrite !app_assoc. apply Permutation_app_tail, Permutation_app_comm.
  - rewrite (existsb_false_filter (fun n => n ∈ dr) layers E). cbn [app fmap list_fmap snd concat]. apply Permutation_app_swap_app.
Qed.

Lemma without_drafter_nonempty dr d : Forall (fun e => e.2 ≠ []) d -> Forall (fun e => e.2 ≠ []) (without_drafter dr d).
Proof.
  rewrite !Forall_forall. intros H [s layers] Hin. apply list_elem_of_omap in Hin as ([s' layers'] & Hin & E). pose proof (H _ Hin) as Hne. revert E.
  destruct (existsb _ _); [destruct (filter _ _) eqn:Ef; [done|]|]; by intros [= <- <-].
Qed.

(** ** Groups of one size *)

Lemma split_layers_ok gs layers parts : split_layers gs layers = Ok parts -> layers ≠ [] -> 0 <= gs ->
  concat parts ≡ₚ layers /\ Forall (fun part => part ≠ [] /\ zlen part <= gs) parts.
Proof.
  unfold split_layers. intros (r & _ & (k & (Hgs & ->)%py_cdiv_ok & [= <-])%bind_res_ok)%bind_res_ok Hne H0.
  assert (1 <= zlen layers) as Hlen by (destruct layers; [done|unfold zlen; cbn; lia]).
  pose proof (cdiv_bounds gs ltac:(lia) (zlen layers)) as Hc. set (k := cdiv (zlen layers) gs) in *.
  assert (1 <= k) as Hk by nia. split; [by apply stride_perm|].
  rewrite Forall_forall. intros part Hin. apply list_elem_of_fmap in Hin as (i & -> & Hi%elem_of_py_range).
  pose proof (length_stride layers i k ltac:(lia)) as Hl. pose proof (cdiv_bounds k ltac:(lia) (zlen layers - i)) as Hd.
  assert (k <= zlen layers) by nia. assert (1 <= cdiv (zlen layers - i) k) by nia. assert (cdiv (zlen layers - i) k <= gs) by (apply cdiv_le_iff; nia).
  split; [|lia]. intros E. rewrite E in Hl. unfold zlen in Hl at 1. cbn in Hl. lia.
Qed.

Lemma splits_ok gs (rest : list (KVCacheSpec * list string)) grouped : mapM (fun e => split_layers gs e.2) rest = Ok grouped ->
  Forall (fun e => e.2 ≠ []) rest -> 0 <= gs ->
  concat (concat grouped) ≡ₚ concat rest.*2 /\ Forall (fun part => part ≠ [] /\ zlen part <= gs) (concat grouped).
Proof.
  intros H%mapM_ok Hne H0. induction H as [|e parts rest grouped He _ IH]; [by split|]. apply Forall_cons in Hne as [He2 Hne].
  destruct (split_layers_ok _ _ _ He He2 H0) as [P1 F1]. destruct (IH Hne) as [P2 F2]. rewrite fmap_cons. cbn [concat]. rewrite concat_app, P1, P2.
  split; [done|]. by apply Forall_app.
Qed.

(** A group and the specs of its layers. *)
Definition group_of (specs : Specs) (names : list string) (g : KVCacheGroupSpec) : Prop :=
  layer_names g = names
  /\ exists ls m, Forall2 (fun n s => Dict.get n specs = Some s) names ls /\ merge ls = Ok m /\ kv_cache_spec g = OneSpec m.

Lemma group_specs_ok specs names groups : create_kv_cache_group_specs specs names = Ok groups -> Forall2 (group_of specs) names groups.
Proof.
  intros H%mapM_ok. eapply Forall2_impl; [exact H|]. intros ns g (ls & Hls%mapM_ok & (m & Hm & [= <-])%bind_res_ok)%bind_res_ok.
  split; [done|]. exists ls, m. split; [|done]. eapply Forall2_impl; [exact Hls|]. intros n s Hn. cbv beta in Hn. destruct (Dict.get n specs); [by injection Hn as ->|done].
Qed.

Lemma group_names specs names groups : create_kv_cache_group_specs specs names = Ok groups -> layer_names <$> groups = names.
Proof. intros H%group_specs_ok. induction H as [|n g names groups [Hn _] _ IH]; [done|]. by rewrite fmap_cons, Hn, IH. Qed.

Lemma choose_group_size_nonneg sizes gs : choose_group_size sizes = Ok gs -> Forall (fun n => 0 <= n) sizes -> 0 <= gs.
Proof.
  unfold choose_group_size. intros (a & (Ha & _)%py_min_ok & (b & (Hb & _)%py_max_ok & [= <-])%bind_res_ok)%bind_res_ok H.
  rewrite Forall_forall in H. destruct (_ <? _); by apply H.
Qed.

Lemma uniform_page_groups_partition specs dr groups : get_kv_cache_groups_uniform_page_size specs dr = Ok groups ->
  concat (layer_names <$> groups) ≡ₚ Dict.keys specs /\ Forall (fun g => layer_names g ≠ []) groups.
Proof.
  unfold get_kv_cache_groups_uniform_page_size. set (all := same_type_layers specs).
  intros (gs & Hgs & (grouped & Hg & (ds & Hds & Hc)%bind_res_ok)%bind_res_ok)%bind_res_ok.
  apply choose_group_size_nonneg in Hgs; [|by apply Forall_fmap, Forall_forall; intros ? _; unfold compose, zlen; lia].
  assert (Forall (fun e => e.2 ≠ []) (without_drafter dr all)) as Hne by apply without_drafter_nonempty, same_type_nonempty.
  destruct (splits_ok _ _ _ Hg Hne Hgs) as [Hperm HF]. pose proof (group_names _ _ _ Hc) as Hn. rewrite Hn.
  assert (Dict.keys ds = drafter_group_layers dr all) as Hk.
  { unfold Dict.keys. rewrite (mapM_fmap _ fst id _ _ Hds); [apply list_fmap_id|]. by intros n [n' s] (s' & _ & [= <- <-])%bind_res_ok. }
  split.
  - rewrite concat_app, Hperm, concat_reverse, same_type_perm, Hk, without_drafter_perm. apply same_type_perm.
  - change (Forall ((fun names => names ≠ []) ∘ layer_names) groups). rewrite <- Forall_fmap, Hn. apply Forall_app. split.
    + apply Forall_reverse, Forall_fmap, same_type_nonempty.
    + eapply Forall_impl; [exact HF|]. by intros part [? _].
Qed.

Lemma unify_layers_keys (f : KVCacheSpec -> res KVCacheSpec) (specs specs' : Specs) :
  mapM (fun '(name, s) => s' ← f s; Ok (name, s')) specs = Ok specs' -> Dict.keys specs' = Dict.keys specs.
Proof. intros H. unfold Dict.keys. eapply mapM_fmap; [exact H|]. by intros [n s] [n' s'] (x & _ & [= <- <-])%bind_res_ok. Qed.

Lemma unify_page_keys specs specs' : unify_kv_cache_spec_page_size specs = Ok specs' -> Dict.keys specs' = Dict.keys specs.
Proof.
  unfold unify_kv_cache_spec_page_size. intros (sizes & _ & H)%bind_res_ok. destruct (_ <=? 1); [by injection H as ->|].
  apply bind_res_ok in H as (p & _ & (units & _ & (p' & _ & H)%bind_res_ok)%bind_res_ok). by apply unify_layers_keys in H.
Qed.

Lemma unify_hybrid_keys specs specs' : unify_hybrid_kv_cache_specs specs = Ok specs' -> Dict.keys specs' = Dict.keys specs.
Proof.
  unfold unify_hybrid_kv_cache_specs. intros (d & _ & H)%bind_res_ok. destruct d; [by injection H as ->|].
  apply bind_res_ok in H as (d & _ & H). destruct d; [|done]. injection H as <-. destruct (_ && _); [|done].
  unfold Dict.keys. rewrite <- list_fmap_compose. done.
Qed.

Lemma groups_have_layers c specs groups : get_kv_cache_groups c specs = Ok groups ->
  concat (layer_names <$> groups) ≡ₚ Dict.keys specs /\ Forall (fun g => layer_names g ≠ []) groups.
Proof.
  intros H. unfold get_kv_cache_groups in H. apply bind_res_ok in H as (specs1 & H1 & H).
  assert (Dict.keys specs1 = Dict.keys specs) as <-.
  { destruct (disable_hybrid_kv_cache_manager c); [by apply unify_hybrid_keys|by injection H1 as ->]. }
  clear H1. destruct specs1 as [|e rest]; [by injection H as <-|]. set (specs1 := e :: rest) in *.
  apply bind_res_ok in H as (u & _ & H). destruct u.
  { apply group_names in H. rewrite H. cbn [concat]. rewrite app_nil_r. split; [done|].
    change (Forall ((fun names => names ≠ []) ∘ layer_names) groups). rewrite <- Forall_fmap, H. by repeat constructor. }
  apply bind_res_ok in H as (u & Hu & H). destruct u as [spec|].
  { injection H as <-. unfold from_specs in Hu. apply bind_res_ok in Hu as (b & _ & Hu). destruct b; [|done].
    destruct e as [n s]. injection Hu as <-. cbn. rewrite app_nil_r. split; [done|]. by repeat constructor. }
  apply bind_res_ok in H as (specs2 & H2 & H). rewrite <- (unify_page_keys _ _ H2). by apply uniform_page_groups_partition in H.
Qed.

(** C15: Every layer is in exactly one group. When [get_kv_cache_groups] returns groups for the
    layers of a model, in each of its cases (one spec, one type, groups of one page size
    with the drafter's layers apart, hybrid specs turned into full attention), the
    layer names of the groups together are the names of the layers, each as often as
    it occurs, and no group is empty. *)
Theorem groups_partition_layers (c : VllmConfig) (specs : Specs) (groups : list KVCacheGroupSpec)
  (H : get_kv_cache_groups c specs = Ok groups) :
  concat (layer_names <$> groups) ≡ₚ Dict.keys specs /\ Forall (fun g => layer_names g ≠ []) groups.
Proof. by apply (groups_have_layers c). Qed.

Lemma groups_partition_layers_witness :
  exists groups, get_kv_cache_groups plan_config (concat plan_workers) = Ok groups
    /\ concat (layer_names <$> groups) ≡ₚ ["l.0"%string; "l.1"%string; "l.2"%string].
Proof.
  destruct (get_kv_cache_groups plan_config (concat plan_workers)) as [groups|] eqn:E; [|vm_compute in E; discriminate E].
  exists groups. split; [done|]. apply (groups_partition_layers plan_config (concat plan_workers) groups E).
Defined.

End PlanGroups.
