(* ===== verification/MemPlanPages.v ===== *)
(** The pages of the planned groups: the planner gives all layers one page size, and the
    spec of a group has the page of its layers. *)

From S2P Require Import Prelude KVSpec MemPlan MemPlanFacts MemPlanGroups.
Local Open Scope Z_scope.

Module PlanPages.
Import Plan PlanFacts PlanGroups.

(** ** One page size *)

(** What happens to a layer: nothing, a larger block, or a padded page. *)
Definition resized (P : Z) (s s' : KVCacheSpec) : Prop :=
  page_size_bytes s' = Ok P
  /\ (s' = s \/ (exists k, 1 <= k /\ s' = copy_with_new_block_size s (spec_block_size s * k)) \/ s' = with_page_size_padded s P).

Lemma padded_page s p P : page_size_bytes s = Ok p -> p <= P -> page_size_bytes (with_page_size_padded s P) = Ok P.
Proof.
  intros Hp Hle. assert (forall real a, attention_page_size_bytes real a = Ok p -> attention_page_size_bytes real {| a with a_page_size_padded := Some P |} = Ok P) as Ha.
  { intros real a. unfold attention_page_size_bytes. cbn [kv_quant_mode a_block_size num_kv_heads a_page_size_padded].
    destruct (a_page_size_padded a) as [q|]; [destruct (Z.leb_spec (if is_per_token_head (kv_quant_mode a) then real + 2 * a_block_size a * num_kv_heads a * float32_size else real) q); [|done]|];
      intros [= ->]; (rewrite (proj2 (Z.leb_le _ _)); [done|]); lia. }
  destruct s as [a v w k|a v w k d|a v w k d|a k|a w|b sh ds pad ty mode nb|a|a]; try (by apply Ha).
  cbn [page_size_bytes with_page_size_padded] in *. set (x := sum _) in *. destruct pad as [q|]; [destruct (Z.leb_spec x q); [|done]|];
    injection Hp as ->; (rewrite (proj2 (Z.leb_le _ _)); [done|lia]).
Qed.

(** The page size is large enough for each layer, and a layer that is smaller than another
    one can get it by a larger block that all block sizes divide. *)
Definition page_fits (specs : Specs) (P : Z) : Prop :=
  forall e p, e ∈ specs -> page_size_bytes e.2 = Ok p -> p <= P.
Definition blocks_align (specs : Specs) (P : Z) : Prop :=
  forall e p e' q, e ∈ specs -> page_size_bytes e.2 = Ok p -> e' ∈ specs -> page_size_bytes e'.2 = Ok q -> p < q ->
  (p | P) /\ forall d, d ∈ specs -> (spec_block_size d.2 | spec_block_size e.2 * (P / p)).
Definition least_page (specs : Specs) (P : Z) : Prop :=
  page_fits specs P /\ blocks_align specs P /\ forall Q, page_fits specs Q -> blocks_align specs Q -> P <= Q.

(** How a layer gets the page size [P]: it has it, its block is enlarged, or, where a
    larger block does not give [P], its page is padded. *)
Inductive unified (P : Z) (s : KVCacheSpec) : KVCacheSpec -> Prop :=
  | unified_same : page_size_bytes s = Ok P -> unified P s s
  | unified_block p (s' := copy_with_new_block_size s (spec_block_size s * (P / p))) :
      page_size_bytes s = Ok p -> p < P -> (p | P) -> page_size_bytes s' = Ok P -> unified P s s'
  | unified_padded p : page_size_bytes s = Ok p -> p < P ->
      ~ ((p | P) /\ page_size_bytes (copy_with_new_block_size s (spec_block_size s * (P / p))) = Ok P) ->
      unified P s (with_page_size_padded s P).


Lemma unify_layer_unified P s s' : unify_layer P s = Ok s' -> spec_ok s -> (forall p, page_size_bytes s = Ok p -> p <= P) ->
  page_size_bytes s' = Ok P /\ unified P s s'.
Proof.
  unfold unify_layer. intros (p & Hp & H)%bind_res_ok (_ & p' & Hp' & Hpos) Hle. rewrite Hp in Hp'. injection Hp' as <-. specialize (Hle p Hp).
  destruct (Z.eqb_spec p P) as [->|Hne]; [injection H as <-; split; [done|by constructor]|].
  pose proof (padded_page s p P Hp Hle) as Hpad. unfold py_mod in H. destruct (Z.eqb_spec p 0); [lia|]. cbn [mbind res_bind] in H.
  destruct (Z.eqb_spec (P mod p) 0) as [Hd|Hd].
  - apply Z.mod_divide in Hd; [|done]. apply bind_res_ok in H as (q & Hq & H). destruct (Z.eqb_spec q P) as [->|Hqne]; injection H as <-; (split; [done|]).
    + apply (unified_block P s p); [done|lia|done|done].
    + apply (unified_padded P s p); [done|lia|]. intros [_ E]. rewrite Hq in E. by injection E.
  - injection H as <-. split; [done|]. apply (unified_padded P s p); [done|lia|]. intros [E _]. apply Hd. by apply Z.mod_divide.
Qed.

Lemma unify_layer_ok P s s' : unify_layer P s = Ok s' -> spec_ok s -> (forall p, page_size_bytes s = Ok p -> p <= P) -> resized P s s'.
Proof.
  intros H Hok Hle. destruct (unify_layer_unified P s s' H Hok Hle) as [Hpage Hu]. split; [done|]. destruct Hu as [|p s1 Hp Hlt _ _|]; [by left| |by right; right].
  right; left. exists (P / p). split; [|done]. destruct Hok as (_ & p' & Hp' & Hpos). rewrite Hp in Hp'. injection Hp' as <-. apply Z.div_le_lower_bound; lia.
Qed.


Lemma foldl_lcm l k : (k | foldl Z.lcm k l) /\ (forall x, x ∈ l -> (x | foldl Z.lcm k l))
  /\ forall Q, (k | Q) -> (forall x, x ∈ l -> (x | Q)) -> (foldl Z.lcm k l | Q).
Proof.
  revert k. induction l as [|y l IH]; intros k; cbn [foldl]; [split; [done|]; split; [by intros x ?%elem_of_nil|done]|].
  destruct (IH (Z.lcm k y)) as (H1 & H2 & H3). split; [transitivity (Z.lcm k y); [apply Z.divide_lcm_l|done]|]. split.
  - intros x [->|Hx]%elem_of_cons; [|by apply H2]. transitivity (Z.lcm k y); [apply Z.divide_lcm_r|done].
  - intros Q Hk Hl. apply H3; [|intros x Hx; apply Hl; by right]. apply Z.lcm_least; [done|]. apply Hl. by left.
Qed.

Lemma py_lcm_divides l x : x ∈ l -> (x | py_lcm l).
Proof. apply foldl_lcm. Qed.
Lemma py_lcm_least l Q : (forall x, x ∈ l -> (x | Q)) -> (py_lcm l | Q).
Proof. apply foldl_lcm, Z.divide_1_l. Qed.
Lemma py_lcm_nonneg l : 0 <= py_lcm l.
Proof.
  unfold py_lcm. assert (forall k, 0 <= k -> 0 <= foldl Z.lcm k l) as H; [|by apply H].
  induction l as [|x l IH]; intros k Hk; [done|]. apply IH, Z.lcm_nonneg.
Qed.

Lemma uniform_sizes specs sizes : mapM page_size_bytes specs = Ok sizes -> zlen (remove_dups sizes) <= 1 ->
  exists P, forall s, s ∈ specs -> page_size_bytes s = Ok P.
Proof.
  intros H%mapM_ok Hlen. assert (forall s, s ∈ specs -> exists p, page_size_bytes s = Ok p /\ p ∈ remove_dups sizes) as Hin.
  { intros s Hs. apply list_elem_of_lookup in Hs as [i Hi]. destruct (Forall2_lookup_l _ _ _ _ _ H Hi) as (p & Hp & E). exists p. split; [done|].
    apply elem_of_remove_dups. by apply list_elem_of_lookup_2 in Hp. }
  destruct (remove_dups sizes) as [|P [|]]; [exists 0|exists P|unfold zlen in Hlen; cbn in Hlen; lia].
  - intros s Hs. destruct (Hin s Hs) as (p & _ & Hp). by apply elem_of_nil in Hp.
  - intros s Hs. by destruct (Hin s Hs) as (p & Hp & ->%list_elem_of_singleton).
Qed.

Lemma scalable_units_ok specs L M units : scalable_unit_pages specs L M = Ok units -> forall u,
  u ∈ units <-> exists s p, s ∈ specs /\ page_size_bytes s = Ok p /\ p < M /\ u = p * (L / spec_block_size s).
Proof.
  unfold scalable_unit_pages. intros (us & H%mapM_ok & [= <-])%bind_res_ok u. rewrite elem_of_remove_dups.
  induction H as [|s us0 specs us E _ IH]; cbn [concat]; [split; [by intros ?%elem_of_nil|by intros (s & p & ?%elem_of_nil & _)]|].
  rewrite elem_of_app, IH. clear IH. apply bind_res_ok in E as (p & Hp & E). destruct (Z.ltb_spec p M) as [Hlt|Hge].
  - apply bind_res_ok in E as (k & [_ ->]%py_div_ok & [= <-]). rewrite list_elem_of_singleton. split.
    + intros [->|(s' & p' & Hs & ?)]; [by exists s, p; split; [left|]|exists s', p'; split; [by right|done] ].
    + intros (s' & p' & [->|Hs]%elem_of_cons & Hp' & ? & ->); [left; rewrite Hp in Hp'; by injection Hp' as ->|right; by exists s', p'].
  - injection E as <-. split.
    + intros [?%elem_of_nil|(s' & p' & Hs & ?)]; [done|exists s', p'; split; [by right|done] ].
    + intros (s' & p' & [->|Hs]%elem_of_cons & Hp' & ? & ->); [rewrite Hp in Hp'; injection Hp' as ->; lia|right; by exists s', p'].
Qed.

(** A layer with pages of [p] bytes for blocks of [b] tokens gets pages of [Q] bytes and
    blocks that [L] divides exactly when its page for blocks of [L] tokens divides [Q]. *)
Lemma unit_divides b p L Q : 1 <= b -> 1 <= p -> (b | L) -> (p * (L / b) | Q) <-> (p | Q) /\ (L | b * (Q / p)).
Proof.
  intros Hb Hp [k ->]. rewrite Z.div_mul by lia. split.
  - intros [m ->]. split; [exists (m * k); ring|]. replace (m * (p * k)) with (m * k * p) by ring. rewrite Z.div_mul by lia. exists m. ring.
  - intros [ [m ->] H]. rewrite Z.div_mul in H by lia. replace (k * b) with (b * k) in H by ring. apply Z.mul_divide_cancel_l in H; [|lia].
    rewrite (Z.mul_comm m p). by apply Z.mul_divide_mono_l.
Qed.

Lemma spec_page (specs : Specs) e : Forall (fun e => spec_ok e.2) specs -> e ∈ specs -> 1 <= spec_block_size e.2 /\ exists p, page_size_bytes e.2 = Ok p /\ 1 <= p.
Proof. rewrite Forall_forall. intros H He. by apply H. Qed.

Lemma blocks_align_units (specs : Specs) M units Q : Forall (fun e => spec_ok e.2) specs ->
  (exists e, e ∈ specs /\ page_size_bytes e.2 = Ok M) -> page_fits specs M ->
  scalable_unit_pages specs.*2 (py_lcm (spec_block_size <$> specs.*2)) M = Ok units ->
  blocks_align specs Q <-> (py_lcm units | Q).
Proof.
  intros Hok (eM & HeM & HpM) Hfit Hunits. pose proof (scalable_units_ok _ _ _ _ Hunits) as Hu. set (L := py_lcm _) in *.
  assert (forall d, d ∈ specs -> (spec_block_size d.2 | L)) as HL.
  { intros d Hd. apply py_lcm_divides, list_elem_of_fmap. exists d.2. split; [done|]. apply list_elem_of_fmap. by exists d. }
  split.
  - intros Hal. apply py_lcm_least. intros u (s & p & Hs & Hp & Hlt & ->)%Hu. apply list_elem_of_fmap in Hs as (e & -> & He).
    destruct (spec_page specs e Hok He) as (Hb & p' & Hp' & Hp1). rewrite Hp in Hp'. injection Hp' as <-.
    destruct (Hal e p eM M He Hp HeM HpM Hlt) as [Hd Hbs]. apply unit_divides; [done|done|by apply HL|]. split; [done|].
    apply py_lcm_least. intros b Hb'. apply list_elem_of_fmap in Hb' as (s & -> & Hs). apply list_elem_of_fmap in Hs as (d & -> & Hd'). by apply Hbs.
  - intros HQ e p e' q He Hp He' Hq Hlt. destruct (spec_page specs e Hok He) as (Hb & p' & Hp' & Hp1). rewrite Hp in Hp'. injection Hp' as <-.
    assert ((p * (L / spec_block_size e.2) | Q)) as Hd.
    { etransitivity; [|exact HQ]. apply py_lcm_divides, Hu. exists e.2, p. split; [apply list_elem_of_fmap; by exists e|]. split; [done|].
      split; [|done]. pose proof (Hfit e' q He' Hq). lia. }
    apply unit_divides in Hd as [H1 H2]; [|done|done|by apply HL]. split; [done|]. intros d Hd. etransitivity; [by apply HL|done].
Qed.

Lemma page_of_one_size (specs : Specs) sizes P : mapM page_size_bytes specs.*2 = Ok sizes -> page_fits specs P <-> forall p, p ∈ sizes -> p <= P.
Proof.
  intros H%mapM_ok. split.
  - intros Hfit p Hp. apply list_elem_of_lookup in Hp as [i Hi]. destruct (Forall2_lookup_r _ _ _ _ _ H Hi) as (s & Hs & E).
    apply list_elem_of_lookup_2, list_elem_of_fmap in Hs as (e & -> & He). by apply (Hfit e).
  - intros Hle e p He Hp. assert (e.2 ∈ specs.*2) as Hs by (apply list_elem_of_fmap; by exists e). apply list_elem_of_lookup in Hs as [i Hi].
    destruct (Forall2_lookup_l _ _ _ _ _ H Hi) as (q & Hq & E). rewrite Hp in E. injection E as <-. apply Hle. by eapply list_elem_of_lookup_2.
Qed.

(** The page size that the planner chooses, and the loop over the layers. *)
Lemma unify_target (specs specs' : Specs) : unify_kv_cache_spec_page_size specs = Ok specs' -> Forall (fun e => spec_ok e.2) specs -> specs ≠ [] ->
  exists P, least_page specs P /\ Forall2 (fun e e' => e'.1 = e.1 /\ unify_layer P e.2 = Ok e'.2) specs specs'.
Proof.
  unfold unify_kv_cache_spec_page_size. intros (sizes & Hs & H)%bind_res_ok Hok Hne.
  destruct (Z.leb_spec (zlen (remove_dups sizes)) 1) as [Hle|Hgt].
  - injection H as <-. destruct (uniform_sizes _ _ Hs Hle) as [P HP].
    assert (forall e, e ∈ specs -> page_size_bytes e.2 = Ok P) as HP' by (intros e He; apply HP, list_elem_of_fmap; by exists e).
    exists P. split; [split; [|split] |].
    + intros e p He Hp. rewrite (HP' e He) in Hp. by injection Hp as ->.
    + intros e p e' q He Hp He' Hq. rewrite (HP' e He) in Hp. rewrite (HP' e' He') in Hq. injection Hp as ->. injection Hq as ->. lia.
    + intros Q HQ _. destruct specs as [|e specs]; [done|]. apply (HQ e); [by left|apply HP'; by left].
    + apply Forall_Forall2_diag, Forall_forall. intros e He. split; [done|]. unfold unify_layer. rewrite (HP' e He). cbn [mbind res_bind]. by rewrite Z.eqb_refl.
  - apply bind_res_ok in H as (M & HM & H). apply bind_res_ok in H as (units & Hu & H). apply bind_res_ok in H as (P & HP & H).
    apply py_max_ok in HM as [HMin HM]. exists P. split.
    2: { apply mapM_ok in H. clear -H. induction H as [|[n s] [n' s'] l l' E _ IH]; constructor; [|done]. by apply bind_res_ok in E as (? & ? & [= <- <-]). }
    assert (page_fits specs M) as HfitM by (by apply (page_of_one_size specs sizes)).
    assert (exists e, e ∈ specs /\ page_size_bytes e.2 = Ok M) as HeM.
    { apply list_elem_of_lookup in HMin as [i Hi]. destruct (Forall2_lookup_r _ _ _ _ _ (mapM_ok _ _ _ Hs) Hi) as (s & Hi' & E).
      apply list_elem_of_lookup_2, list_elem_of_fmap in Hi' as (e & -> & He). by exists e. }
    assert (M <= P /\ (py_lcm units | P) /\ forall Q, M <= Q -> (py_lcm units | Q) -> P <= Q) as (H1 & H2 & H3).
    { destruct units as [|u units]; [injection HP as <-; split; [done|]; split; [apply Z.divide_1_l|done]|]. apply bind_res_ok in HP as (r & Hr & HP).
      unfold py_mod in Hr. pose proof (py_lcm_nonneg (u :: units)). set (l := py_lcm (u :: units)) in *. destruct (Z.eqb_spec l 0) as [|Hne0]; [done|]. injection Hr as <-.
      destruct (Z.eqb_spec (M mod l) 0) as [E|E]; injection HP as <-.
      - split; [done|]. split; [by apply Z.mod_divide|done].
      - pose proof (cdiv_bounds l ltac:(lia) M). split; [lia|]. split; [apply Z.divide_factor_r|]. intros Q HQ [m ->]. apply Z.mul_le_mono_nonneg_r; [lia|]. nia. }
    split; [|split].
    + intros e p He Hp. pose proof (HfitM e p He Hp). lia.
    + by apply (blocks_align_units specs M units).
    + intros Q HQ HA. apply H3; [|by apply (blocks_align_units specs M units Q Hok HeM HfitM Hu)]. destruct HeM as (e & He & Hp). by apply (HQ e).
Qed.

Lemma unify_page_resized (specs specs' : Specs) : unify_kv_cache_spec_page_size specs = Ok specs' -> Forall (fun e => spec_ok e.2) specs -> specs ≠ [] ->
  exists P, page_fits specs P /\ Forall2 (fun e e' => e'.1 = e.1 /\ resized P e.2 e'.2) specs specs'.
Proof.
  intros H Hok Hne. destruct (unify_target _ _ H Hok Hne) as (P & [Hfit _] & HF). exists P. split; [done|].
  rewrite Forall_forall in Hok. apply Forall2_same_length_lookup_2; [by eapply Forall2_length|]. intros i e e' Hi Hi'. destruct (Forall2_lookup_lr _ _ _ _ _ _ HF Hi Hi') as [H1 H2].
  apply list_elem_of_lookup_2 in Hi. split; [done|]. apply unify_layer_ok; [done|by apply Hok|]. intros p. by apply Hfit.
Qed.






(** ** The spec of a group *)

Lemma merge_first s rest m : merge (s :: rest) = Ok m ->
  page_size_bytes m = page_size_bytes s /\ spec_block_size m = spec_block_size s /\ is_sliding_window m = is_sliding_window s.
Proof.
  destruct s as [a v w k|a v w k d|a v w k d|a k|a w|b sh ds pad ty mode nb|a|a]; cbn [merge].
  - intros (w' & k' & -> & _)%merge_full_spec. done.
  - destruct (negb _); [done|]. destruct (cache_dtype_strs _) as [|d' [|]] eqn:E; [done| |done]. intros [= <-]. split; [|done].
    assert (d' = d) as ->; [|done]. unfold cache_dtype_strs in E.
    assert (d ∈ [d']) as ->%list_elem_of_singleton; [|done]. rewrite <- E. apply elem_of_remove_dups, list_elem_of_omap.
    exists (MLAAttentionSpec a v w k d). split; [by left|done].
  - intros (w' & k' & -> & _)%merge_full_spec. done.
  - destruct (forallb _ _); [|done]. by intros [= <-].
  - destruct (forallb _ _); [|done]. by intros [= <-].
  - destruct (forallb _ _); [|done]. by intros [= <-].
  - destruct (forallb _ _); [|done]. by intros [= <-].
  - destruct (forallb _ _); [|done]. by intros [= <-].
Qed.

Lemma merge_ok s rest m : merge (s :: rest) = Ok m -> spec_ok s -> spec_ok m.
Proof. intros (Hp & Hb & _)%merge_first [H1 H2]. split; [by rewrite Hb|by rewrite Hp]. Qed.

Lemma merge_parallel c s rest m : merge (s :: rest) = Ok m -> parallel_ok c s -> parallel_ok c m.
Proof. intros (_ & _ & Hs)%merge_first Hp H. apply Hp. by rewrite <- Hs. Qed.

(** A layer of the model: positive sizes. *)
Definition attention_ok (a : AttentionSpec) : Prop :=
  1 <= a_block_size a /\ 1 <= num_kv_heads a /\ 1 <= head_size a /\ 1 <= element_size (a_dtype a).
Definition layer_ok (c : VllmConfig) (s : KVCacheSpec) : Prop :=
  spec_ok s /\ parallel_ok c s /\ match attention s with Some a => attention_ok a | None => True end.

Lemma as_full_ok c s : layer_ok c s -> layer_ok c (as_full_attention s).
Proof.
  assert (forall a w k, spec_ok (SlidingWindowSpec a 0) -> attention_ok a -> layer_ok c (FullAttentionSpec {| a with kv_quant_mode := QUANT_NONE |} (head_size a) w k)) as H.
  { intros a w k [Hb (p & Hp & Hp1)] (H1 & H2 & H3 & H4). split; [|by split]. split; [done|].
    assert (1 <= a_block_size a * num_kv_heads a * (head_size a + head_size a) * element_size (a_dtype a)) as Hx.
    { assert (1 <= a_block_size a * num_kv_heads a) by nia. assert (1 <= a_block_size a * num_kv_heads a * (head_size a + head_size a)) by nia. nia. }
    revert Hp. cbn [page_size_bytes real_page_size_bytes a_block_size num_kv_heads head_size a_dtype]. unfold attention_page_size_bytes. cbn [kv_quant_mode is_per_token_head quant_value a_page_size_padded Z.leb].
    replace (2 * a_block_size a * num_kv_heads a * head_size a * element_size (a_dtype a))
      with (a_block_size a * num_kv_heads a * (head_size a + head_size a) * element_size (a_dtype a)) by ring.
    set (x := a_block_size a * num_kv_heads a * (head_size a + head_size a) * element_size (a_dtype a)) in *.
    change (is_per_token_head QUANT_NONE) with false. cbn iota.
    destruct (a_page_size_padded a) as [q|]; [|intros _; by exists x]. intros Hq. exists q.
    assert (x <= q) as Hxq.
    { revert Hq. destruct (is_per_token_head _); [|destruct (Z.leb_spec x q); [done|discriminate]].
      assert (0 <= 2 * a_block_size a * num_kv_heads a * float32_size) by (unfold float32_size; nia).
      destruct (Z.leb_spec (x + 2 * a_block_size a * num_kv_heads a * float32_size) q); [lia|discriminate]. }
    rewrite (proj2 (Z.leb_le _ _) Hxq). split; [done|lia]. }
  destruct s as [a v w k|a v w k d|a v w k d|a k|a w|b sh ds pad ty mode nb|a|a]; try done; intros (H1 & _ & H3); by apply H.
Qed.

Lemma copy_fields s n : spec_block_size (copy_with_new_block_size s n) = n /\ is_sliding_window (copy_with_new_block_size s n) = is_sliding_window s.
Proof. by destruct s. Qed.
Lemma padded_fields s n : spec_block_size (with_page_size_padded s n) = spec_block_size s /\ is_sliding_window (with_page_size_padded s n) = is_sliding_window s.
Proof. by destruct s. Qed.

Lemma resized_ok c P s s' : resized P s s' -> 1 <= P -> spec_ok s -> parallel_ok c s -> spec_ok s' /\ parallel_ok c s'.
Proof.
  intros [Hp Hs] HP [Hb Hpage] Hpar. assert (1 <= spec_block_size s' /\ is_sliding_window s' = is_sliding_window s) as [Hb' Hw].
  { destruct Hs as [->|[ (k & Hk & ->)| ->] ]; [done|destruct (copy_fields s (spec_block_size s * k)) as [-> ->]; split; [nia|done]|destruct (padded_fields s P) as [-> ->]; done]. }
  split; [split; [done|by exists P]|]. intros H. apply Hpar. by rewrite <- Hw.
Qed.

(** ** Pages of one request *)

(** The pages of a layer that a request of the maximum length needs. *)
Definition pages_per_request (c : VllmConfig) (s : KVCacheSpec) : Z :=
  match s with
  | FullAttentionSpec a _ _ _ | MLAAttentionSpec a _ _ _ _ | SinkFullAttentionSpec a _ _ _ _ =>
      let world := decode_context_parallel_size c * prefill_context_parallel_size c in
      cdiv (if 1 <? world then cdiv (max_model_len c) world else max_model_len c) (a_block_size a)
  | ChunkedLocalAttentionSpec a chunk => cdiv (Z.min (chunk + max_num_batched_tokens c) (max_model_len c)) (a_block_size a)
  | SlidingWindowSpec a window => cdiv (Z.min (window - 1 + max_num_batched_tokens c) (max_model_len c)) (a_block_size a) + 1
  | MambaSpec block_size _ _ _ _ _ k =>
      if String.eqb (config_mamba_cache_mode c) "all" then cdiv (max_model_len c) block_size
      else if String.eqb (config_mamba_cache_mode c) "align" then 2 + k else 1 + k
  | EncoderOnlyAttentionSpec _ => 0
  | CrossAttentionSpec a => cdiv (max_num_encoder_input_tokens c) (a_block_size a)
  end.

Lemma memory_of_pages c s p : page_size_bytes s = Ok p -> parallel_ok c s -> max_memory_usage_bytes s c = Ok (pages_per_request c s * p).
Proof.
  intros Hp Hpar. destruct s as [a v w k|a v w k d|a v w k d|a k|a w|b sh ds pad ty mode nb|a|a]; cbn [max_memory_usage_bytes pages_per_request]; rewrite ?Hp; cbn [mbind res_bind]; try done.
  - by rewrite Hpar.
  - destruct (String.eqb _ "all"); [done|]. destruct (String.eqb _ "align"); f_equal; lia.
Qed.

(** Layers that need the same number of pages, whatever the length. *)
Definition same_pages (specs : Specs) : Prop :=
  forall c e e', e ∈ specs -> e' ∈ specs -> pages_per_request c e.2 = pages_per_request c e'.2.

Lemma one_block_size (specs : list KVCacheSpec) : zlen (remove_dups (spec_block_size <$> specs)) <= 1 ->
  forall s s', s ∈ specs -> s' ∈ specs -> spec_block_size s = spec_block_size s'.
Proof.
  intros Hlen s s' Hs Hs'. assert (forall x, x ∈ specs -> spec_block_size x ∈ remove_dups (spec_block_size <$> specs)) as H.
  { intros x Hx. apply elem_of_remove_dups, list_elem_of_fmap. by exists x. }
  pose proof (H s Hs) as H1. pose proof (H s' Hs') as H2. destruct (remove_dups _) as [|b [|]]; [by apply elem_of_nil in H1| |unfold zlen in Hlen; cbn in Hlen; lia].
  apply list_elem_of_singleton in H1, H2. congruence.
Qed.

Lemma uniform_type_pages specs : is_uniform_type specs = Ok true -> same_pages specs.
Proof.
  unfold is_uniform_type. destruct (Z.ltb_spec 1 (zlen (remove_dups (spec_block_size <$> specs.*2)))) as [|Hle]; [done|].
  pose proof (one_block_size _ Hle) as Hb. intros H. remember specs.*2 as l eqn:El. destruct l as [|s0 t]; [done|].
  assert (forall e, e ∈ specs -> e.2 ∈ s0 :: t) as Hin by (intros e He; rewrite El; apply list_elem_of_fmap; by exists e).
  assert (forall c s, s ∈ s0 :: t -> pages_per_request c s = pages_per_request c s0) as H0; [|by intros c e e' He He'; rewrite (H0 c _ (Hin e He)), (H0 c _ (Hin e' He'))].
  intros c s Hs. specialize (Hb s s0 Hs ltac:(by left)).
  assert (forall f : KVCacheSpec -> bool, forallb f (s0 :: t) = true -> f s = true) as Hall by (intros f Hf; rewrite forallb_forall in Hf; apply Hf; by apply list_elem_of_In).
  assert (forall a b : bool, Ok a = Ok b -> a = b) as Hinj by congruence.
  clear -Hb Hall H Hinj. destruct s0; try discriminate H; apply Hinj, Hall in H; destruct s; try discriminate H; cbn [spec_block_size pages_per_request] in *;
    try apply Z.eqb_eq in H; by rewrite ?Hb, ?H.
Qed.

(** ** What the planner makes *)

Definition planned_layer (c : VllmConfig) (e : string * KVCacheSpec) : Prop := spec_ok e.2 /\ parallel_ok c e.2.

Inductive planned (c : VllmConfig) : list KVCacheGroupSpec -> Prop :=
  | planned_none : planned c []
  | planned_type names bs specs : names = Dict.keys specs \/ names = [] -> NoDup (Dict.keys specs) -> specs ≠ [] ->
      Forall (planned_layer c) specs -> same_pages specs ->
      planned c [{| layer_names := names; kv_cache_spec := UniformTypeKVCacheSpecs bs specs |}]
  | planned_pages groups P : groups ≠ [] -> 1 <= P ->
      Forall (fun g => exists s, kv_cache_spec g = OneSpec s /\ spec_ok s /\ parallel_ok c s /\ page_size_bytes s = Ok P) groups ->
      planned c groups.

Lemma group_of_first specs names g : group_of specs names g -> names ≠ [] ->
  exists n s rest m, (n, s) ∈ specs /\ merge (s :: rest) = Ok m /\ kv_cache_spec g = OneSpec m.
Proof.
  intros (_ & ls & m & Hls & Hm & Hg) Hne. destruct Hls as [|n s names ls Hn _]; [done|]. exists n, s, ls, m. split; [|done]. by apply Dict.get_Some_elem.
Qed.

Lemma planned_of_page c specs names groups P : create_kv_cache_group_specs specs names = Ok groups -> names ≠ [] -> Forall (fun ns => ns ≠ []) names -> 1 <= P ->
  Forall (fun e => planned_layer c e /\ page_size_bytes e.2 = Ok P) specs -> planned c groups.
Proof.
  intros H%group_specs_ok Hne Hns HP Hok. rewrite Forall_forall in Hok. apply (planned_pages c groups P); [|done|].
  - by destruct H.
  - clear Hne. induction H as [|ns g names groups Hg _ IH]; [done|]. apply Forall_cons in Hns as [Hns1 Hns]. constructor; [|by apply IH].
    destruct (group_of_first _ _ _ Hg Hns1) as (n & s & rest & m & Hin & Hm & Eg). destruct (Hok _ Hin) as [ [H1 H2] H3].
    exists m. split; [done|]. split; [by eapply merge_ok|]. split; [by eapply merge_parallel|]. destruct (merge_first _ _ _ Hm) as (-> & _). done.
Qed.

Lemma unify_hybrid_layers c specs specs' : unify_hybrid_kv_cache_specs specs = Ok specs' -> Forall (fun e => layer_ok c e.2) specs -> Forall (fun e => layer_ok c e.2) specs'.
Proof.
  unfold unify_hybrid_kv_cache_specs. intros (d & _ & H)%bind_res_ok Hok. destruct d; [by injection H as <-|].
  apply bind_res_ok in H as (d & _ & H). destruct d; [|done]. injection H as <-. destruct (_ && _); [|done].
  apply Forall_fmap. eapply Forall_impl; [exact Hok|]. intros e He. by apply as_full_ok.
Qed.

Lemma planned_groups c specs groups : get_kv_cache_groups c specs = Ok groups -> NoDup (Dict.keys specs) ->
  Forall (fun e => layer_ok c e.2) specs -> planned c groups.
Proof.
  unfold get_kv_cache_groups. intros (specs1 & H1 & H)%bind_res_ok Hnd Hok.
  assert (NoDup (Dict.keys specs1) /\ Forall (planned_layer c) specs1) as [Hnd1 Hok1].
  { assert (Dict.keys specs1 = Dict.keys specs /\ Forall (fun e => layer_ok c e.2) specs1) as [-> Hok'].
    { destruct (disable_hybrid_kv_cache_manager c); [|by injection H1 as ->]. split; [by apply unify_hybrid_keys|by eapply unify_hybrid_layers]. }
    split; [done|]. eapply Forall_impl; [exact Hok'|]. by intros e (? & ? & _). }
  clear H1 Hnd Hok. destruct specs1 as [|e rest]; [injection H as <-; constructor|]. set (specs1 := e :: rest) in *.
  apply bind_res_ok in H as (u & _ & H). destruct u.
  { apply group_specs_ok, Forall2_cons_inv_l in H as (g & groups' & Hg & ->%Forall2_nil_inv_l & ->).
    destruct (group_of_first _ _ _ Hg ltac:(done)) as (n & s & rest' & m & Hin & Hm & Eg). rewrite Forall_forall in Hok1. destruct (Hok1 _ Hin) as [Hs Hp].
    pose proof (merge_ok _ _ _ Hm Hs) as Hsm. pose proof Hsm as (_ & P & HP & HP1).
    apply (planned_pages c _ P); [done|done|]. constructor; [|done]. exists m. split_and!; [done..|by eapply merge_parallel|done]. }
  apply bind_res_ok in H as (u & Hu & H). destruct u as [spec|].
  { injection H as <-. unfold from_specs in Hu. apply bind_res_ok in Hu as (b & Hb & Hu). destruct b; [|done].
    destruct e as [n s] eqn:Ee. injection Hu as <-. apply planned_type; [by left|done|done|done|by apply uniform_type_pages]. }
  apply bind_res_ok in H as (specs2 & H2 & H).
  destruct (unify_page_resized _ _ H2) as (P & Hle & HF); [eapply Forall_impl; [exact Hok1|]; by intros ? [? _]|done|].
  assert (1 <= P) as HP1. { rewrite Forall_forall in Hok1. destruct (Hok1 e ltac:(by left)) as [ (_ & q & Hq & ?) _]. pose proof (Hle e q ltac:(by left) Hq). lia. }
  assert (Forall (fun e => planned_layer c e /\ page_size_bytes e.2 = Ok P) specs2) as Hok2.
  { clear -HF Hok1 HP1. induction HF as [|x x' l l' [_ Hr] _ IH]; [done|]. apply Forall_cons in Hok1 as [ [Hs Hp] Hok1]. constructor; [|by apply IH].
    split; [by eapply resized_ok|]. by destruct Hr. }
  pose proof (uniform_page_groups_partition _ _ _ H) as [Hpart Hne].
  unfold get_kv_cache_groups_uniform_page_size in H. apply bind_res_ok in H as (gs & _ & H). apply bind_res_ok in H as (grouped & _ & H). apply bind_res_ok in H as (ds & _ & H).
  pose proof (group_names _ _ _ H) as Hn. eapply planned_of_page; [exact H| | |exact HP1|exact Hok2]; rewrite <- Hn.
  - intros E. rewrite E in Hpart. rewrite (unify_page_keys _ _ H2) in Hpart. by apply Permutation_nil_l in Hpart.
  - by apply Forall_fmap.
Qed.

Lemma planned_ok c groups : planned c groups -> groups_ok c groups.
Proof.
  intros [|names bs specs _ _ Hne Hok _|gs P Hne HP Hok]; [by split| |].
  - split; [..|by intros _ [=] ]; (constructor; [|done]); cbn.
    + split; [done|]. eapply Forall_impl; [exact Hok|]. by intros ? [? _].
    + eapply Forall_impl; [exact Hok|]. by intros ? [_ ?].
  - split; [eapply Forall_impl; [exact Hok|]; intros g (s & -> & ? & ? & ?); done..|]. intros _ _.
    assert (get_uniform_page_size (kv_cache_spec <$> gs) = Ok P) as ->; [|done].
    unfold get_uniform_page_size.
    assert (mapM group_page_size_bytes (kv_cache_spec <$> gs) = Ok (replicate (length gs) P)) as ->.
    { clear Hne. induction Hok as [|g gs (s & Eg & _ & _ & Hp) _ IH]; [done|]. rewrite fmap_cons, Eg. cbn [mapM group_page_size_bytes]. rewrite Hp. cbn [mbind res_bind]. by rewrite IH. }
    cbn [mbind res_bind]. destruct gs as [|g gs]; [done|]. clear. set (l := replicate (length (g :: gs)) P).
    assert (forall x, x ∈ remove_dups l <-> x = P) as Hx.
    { intros x. rewrite elem_of_remove_dups. unfold l. split; [intros [? _]%elem_of_replicate; done|]. intros ->. by apply elem_of_replicate. }
    pose proof (NoDup_remove_dups l) as Hnd. destruct (remove_dups l) as [|x [|y t]].
    + destruct (Hx P) as [_ H]. by apply elem_of_nil in H.
    + destruct (Hx x) as [H _]. by rewrite H by (by left).
    + exfalso. apply NoDup_cons in Hnd as [Hnot _]. apply Hnot. pose proof (proj1 (Hx x) ltac:(by left)). pose proof (proj1 (Hx y) ltac:(by right; left)). subst x y. by left.
Qed.

(** ** Examples *)

Lemma full_layer_ok n : 1 <= n -> layer_ok plan_config (full_layer n).
Proof. intros Hn. split; [|split; [done|by split]]. split; [done|]. exists (4096 * n). split; [|lia]. cbn. f_equal. lia. Qed.

Lemma window_layer_ok n : 1 <= n -> layer_ok plan_config (window_layer n).
Proof. intros Hn. split; [|split; [done|by split]]. split; [done|]. exists (4096 * n). split; [|lia]. cbn. f_equal. lia. Qed.

(** A full-attention layer of head size 64 and a sliding-window layer of head size 96, the
    case of the repository's test that no block sizes align: the page size is raised from 24576 to 32768
    bytes, the smaller layer's block is doubled, and the larger layer's page is padded.  No error is raised,
    here and in the whole plan. *)
Definition float32_attention (head : Z) : AttentionSpec :=
  {| a_block_size := 16; num_kv_heads := 2; head_size := head; a_dtype := {| dtype_name := "float32"; element_size := 4 |};
     kv_quant_mode := QUANT_NONE; a_page_size_padded := None |}.
Definition full64 : KVCacheSpec := FullAttentionSpec (float32_attention 64) 64 None None.
Definition window96 : KVCacheSpec := SlidingWindowSpec (float32_attention 96) 1.
Definition unaligned_specs : Specs := [("layer_1"%string, full64); ("layer_2"%string, window96)].

Lemma unaligned_heads_are_padded :
  unify_kv_cache_spec_page_size unaligned_specs
    = Ok [("layer_1"%string, copy_with_new_block_size full64 32); ("layer_2"%string, with_page_size_padded window96 32768)]
  /\ exists cfg, get_kv_cache_configs (with_model_len plan_config 16) [unaligned_specs] [16384 * 2 * 32] = Ok ([cfg], with_model_len plan_config 16)
    /\ kv_cache_spec <$> kv_cache_groups cfg = [OneSpec (copy_with_new_block_size full64 32); OneSpec (with_page_size_padded window96 32768)].
Proof. split; [vm_compute; reflexivity|]. eexists. split; vm_compute; reflexivity. Qed.


(** Pages of 3 and 4 units: both constraints are met for the smaller page, and the
    larger attention layer's page, which nothing divides any more, is padded to 6 units. *)
Lemma attention_page_padded :
  let units k := SlidingWindowSpec (plan_attention k) 32 in
  exists a b, unify_kv_cache_spec_page_size [("a"%string, units 3); ("b"%string, units 4)] = Ok [("a"%string, a); ("b"%string, b)]
    /\ a = copy_with_new_block_size (units 3) 32 /\ b = with_page_size_padded (units 4) 24576.
Proof. eexists _, _. split; [vm_compute; reflexivity|]. by split. Qed.

End PlanPages.
