(* ===== verification/MemPlanSound.v ===== *)
(** The memory plan of the engine: what [get_kv_cache_configs] promises to the workers
    and to the scheduler. *)

From S2P Require Import Prelude KVSpec BlockPool MemPlan MemPlanFacts MemPlanGroups MemPlanPages.
Local Open Scope Z_scope.

Module PlanSound.
Import Plan PlanFacts PlanGroups PlanPages.

(** ** What a configuration must have *)

(** The blocks that one request of the maximum length takes from the pool, over all groups. *)
Definition group_blocks (c : VllmConfig) (g : KVCacheGroupSpec) : Z :=
  match kv_cache_spec g with
  | OneSpec s => pages_per_request c s
  | UniformTypeKVCacheSpecs _ specs => foldr Z.max 0 ((fun e => pages_per_request c e.2) <$> specs)
  end.
Definition request_blocks (c : VllmConfig) (groups : list KVCacheGroupSpec) : Z := sum (group_blocks c <$> groups).

(** The page size that the plan gives a layer. *)
Definition layer_page (groups : list KVCacheGroupSpec) (name : string) (p : Z) : Prop :=
  exists g, g ∈ groups /\ name ∈ layer_names g /\
    match kv_cache_spec g with
    | OneSpec s => page_size_bytes s = Ok p
    | UniformTypeKVCacheSpecs _ specs => exists s, Dict.get name specs = Some s /\ page_size_bytes s = Ok p
    end.

(** A tensor of [n] pages for each of its layers. *)
Definition tensor_ok (groups : list KVCacheGroupSpec) (n : Z) (t : KVCacheTensor) : Prop :=
  exists p, 1 <= p /\ kt_size t = p * n /\ forall name, name ∈ shared_by t -> layer_page groups name p.

Definition total_size (ts : list KVCacheTensor) : Z := sum (kt_size <$> ts).

Record config_ok (c : VllmConfig) (groups : list KVCacheGroupSpec) (mem n : Z) (ts : list KVCacheTensor) : Prop := {
  cf_layers : concat (shared_by <$> ts) ≡ₚ concat (layer_names <$> groups);
  cf_fits : groups ≠ [] -> total_size ts <= mem;
  cf_enough : request_blocks c groups <= n;
  cf_tensors : Forall (tensor_ok groups n) ts;
}.

(** ** Tensors shared by the groups *)

Lemma bind_app_perm {A B} (f g : A -> list B) l : (l ≫= fun x => f x ++ g x) ≡ₚ (l ≫= f) ++ (l ≫= g).
Proof.
  induction l as [|x l IH]; [done|]. rewrite !bind_cons, IH, <- !app_assoc. apply Permutation_app_head. rewrite !app_assoc. apply Permutation_app_tail, Permutation_app_comm.
Qed.

Lemma bind_lookup {A} (l : list A) n : zlen l <= n -> (py_range 0 n ≫= fun i => option_list (l !! Z.to_nat i)) = l.
Proof.
  intros Hn. rewrite (py_range_app 0 (zlen l) n), bind_app by (unfold zlen in *; lia).
  assert (forall r, (r ≫= fun i => option_list (l !! Z.to_nat i)) = omap (fun j => l !! Z.to_nat j) r) as H.
  { induction r as [|x r IH]; [done|]. rewrite bind_cons, IH. cbn. by destruct (l !! _). }
  rewrite !H, omap_range. rewrite <- (app_nil_r l) at 3. f_equal.
  assert (forall r, Forall (fun i => zlen l <= i) r -> omap (fun j => l !! Z.to_nat j) r = []) as H2.
  { induction 1 as [|x r Hx _ IH]; [done|]. cbn. rewrite lookup_ge_None_2 by (unfold zlen in Hx; lia). done. }
  apply H2, Forall_forall. intros i Hi%elem_of_py_range. lia.
Qed.

Lemma transpose_perm (ls : list (list string)) n : Forall (fun l => zlen l <= n) ls ->
  concat ((fun i => omap (fun l => l !! Z.to_nat i) ls) <$> py_range 0 n) ≡ₚ concat ls.
Proof.
  rewrite concat_fmap. induction 1 as [|l ls Hl _ IH]; [cbn [omap list_omap concat]; by induction (py_range 0 n)|].
  assert ((py_range 0 n ≫= fun i => omap (fun l => l !! Z.to_nat i) (l :: ls)) = (py_range 0 n ≫= fun i => option_list (l !! Z.to_nat i) ++ omap (fun l => l !! Z.to_nat i) ls)) as ->.
  { apply list_bind_ext; [|done]. intros i. cbn [omap list_omap]. by destruct (l !! Z.to_nat i). }
  rewrite bind_app_perm, bind_lookup by done. cbn [concat]. by rewrite IH.
Qed.

Lemma omap_names (groups : list KVCacheGroupSpec) i : omap (fun g => layer_names g !! Z.to_nat i) groups = omap (fun l => l !! Z.to_nat i) (layer_names <$> groups).
Proof. induction groups as [|g groups IH]; [done|]. rewrite fmap_cons. cbn. by rewrite IH. Qed.

Lemma sum_const {A} (l : list A) k : sum ((fun _ => k) <$> l) = zlen l * k.
Proof. induction l as [|x l IH]; [done|]. rewrite fmap_cons, sum_cons, IH. unfold zlen. cbn [length]. lia. Qed.

Lemma zlen_range n : 0 <= n -> zlen (py_range 0 n) = n.
Proof. intros H. unfold zlen, py_range. rewrite length_fmap, length_seq. lia. Qed.

(** ** Groups of one page size *)

Definition page_group (c : VllmConfig) (P : Z) (g : KVCacheGroupSpec) : Prop :=
  exists s, kv_cache_spec g = OneSpec s /\ spec_ok s /\ parallel_ok c s /\ page_size_bytes s = Ok P.

Lemma pages_not_uniform c P groups : Forall (page_group c P) groups -> one_uniform_group groups = None.
Proof. intros H. destruct H as [|g groups (s & E & _) H]; [done|]. destruct groups; [|done]. unfold one_uniform_group. by rewrite E. Qed.

Lemma pages_uniform_size c P groups : groups ≠ [] -> 1 <= P -> Forall (page_group c P) groups -> get_uniform_page_size (kv_cache_spec <$> groups) = Ok P.
Proof.
  intros Hne HP H. pose proof (planned_ok c groups (planned_pages c groups P Hne HP H)) as [_ _ Hs].
  specialize (Hs Hne (pages_not_uniform _ _ _ H)). destruct (get_uniform_page_size _) as [Q|] eqn:EQ; [|by destruct Hs].
  destruct H as [|g groups (s & E & _ & _ & Hp) _]; [done|]. pose proof (uniform_page_ok _ _ EQ (kv_cache_spec g) ltac:(by left)) as X.
  rewrite E in X. cbn [group_page_size_bytes] in X. rewrite Hp in X. by injection X as ->.
Qed.

Lemma pages_blocks c P groups : 1 <= P -> Forall (page_group c P) groups -> blocks_needed c P groups = Ok (request_blocks c groups).
Proof.
  intros HP H. unfold blocks_needed, request_blocks. rewrite <- sum_res_Ok. f_equal. rewrite <- list_fmap_compose.
  induction H as [|g groups (s & E & _ & Hpar & Hp) _ IH]; [done|]. rewrite !fmap_cons, IH. f_equal. unfold compose, group_blocks. rewrite E.
  cbn [group_max_memory_usage_bytes]. rewrite (memory_of_pages c s P Hp Hpar). cbn [mbind res_bind]. unfold py_cdiv.
  destruct (Z.eqb_spec P 0); [lia|]. rewrite cdiv_mul; [done|lia].
Qed.

Lemma pages_config c P groups mem cfg needed : groups ≠ [] -> 1 <= P -> Forall (page_group c P) groups -> num_gpu_blocks_override c = None -> 0 < mem ->
  max_memory_usage_bytes_from_groups c groups = Ok needed -> needed <= mem ->
  get_kv_cache_config_from_groups c groups mem = Ok cfg ->
  kv_cache_groups cfg = groups /\ config_ok c groups mem (num_blocks cfg) (kv_cache_tensors cfg).
Proof.
  intros Hne HP Hg Hov Hmem Hneed Hle Hcfg. unfold max_memory_usage_bytes_from_groups, get_kv_cache_config_from_groups in *.
  rewrite (pages_not_uniform _ _ _ Hg) in *. rewrite (pages_uniform_size _ _ _ Hne HP Hg) in *.
  destruct groups as [|g0 gs0] eqn:Egs; [done|]. rewrite <- Egs in *.
  apply bind_res_ok in Hneed as (gs & Egs' & Hneed). rewrite Egs' in Hcfg. cbn [mbind res_bind] in Hneed, Hcfg.
  rewrite (pages_blocks _ _ _ HP Hg) in Hneed. injection Hneed as <-. destruct (Z.leb_spec gs 0) as [|Hgs]; [done|].
  apply bind_res_ok in Hcfg as (n & Hn & [= <-]). cbn [num_blocks kv_cache_tensors kv_cache_groups]. split; [done|].
  unfold get_num_blocks, may_override_num_blocks, py_div in Hn. rewrite Hov in Hn. destruct (Z.eqb_spec P 0); [lia|]. destruct (Z.eqb_spec gs 0); [lia|].
  cbn [mbind res_bind default] in Hn. injection Hn as <-. rewrite Z.div_div by lia.
  assert (0 <= mem / (P * gs)) by (apply Z.div_pos; nia). rewrite Z.max_l by done. set (n := mem / (P * gs)) in *.
  assert (P * gs * n <= mem) as Hfit by (apply Z.mul_div_le; nia).
  apply py_max_ok in Egs' as [_ Hmax].
  assert (Forall (fun l => zlen l <= gs) (layer_names <$> groups)) as Hlen.
  { apply Forall_fmap, Forall_forall. intros g Hin. apply Hmax, list_elem_of_fmap. by exists g. }
  split.
  - rewrite <- list_fmap_compose. unfold compose. cbn [shared_by]. rewrite <- (transpose_perm _ gs Hlen). match goal with |- concat ?a ≡ₚ concat ?b => replace a with b; [done|] end.
    apply list_fmap_ext. intros _ i _. symmetry. apply omap_names.
  - intros _. unfold total_size. rewrite <- list_fmap_compose. unfold compose. cbn [kt_size]. rewrite sum_const, zlen_range by lia. nia.
  - apply Z.div_le_lower_bound; nia.
  - apply Forall_fmap, Forall_forall. intros i _. unfold compose. exists P. split; [done|]. cbn [kt_size shared_by]. split; [done|].
    intros name (g & Hin & Hn)%list_elem_of_omap. exists g. split; [done|]. split; [by eapply list_elem_of_lookup_2|].
    rewrite Forall_forall in Hg. destruct (Hg g Hin) as (s & -> & _ & _ & Hp). done.
Qed.

(** ** One group of one type *)

Lemma type_memory c k specs needed total : Forall (planned_layer c) specs -> (forall e, e ∈ specs -> pages_per_request c e.2 = k) ->
  sum_res ((fun e => max_memory_usage_bytes e.2 c) <$> specs) = Ok needed -> sum_res ((fun e : string * KVCacheSpec => page_size_bytes e.2) <$> specs) = Ok total ->
  needed = k * total.
Proof.
  intros H. revert needed total. induction H as [|e specs [ [_ (p & Hp & _)] Hpar] _ IH]; intros needed total Hk; [by intros [= <-] [= <-]; lia|].
  rewrite !fmap_cons. cbn [sum_res]. rewrite (memory_of_pages c e.2 p Hp Hpar), Hp, (Hk e) by (by left). cbn [mbind res_bind].
  intros (x & Hx & [= <-])%bind_res_ok (y & Hy & [= <-])%bind_res_ok. rewrite (IH x y); [lia| |done..]. intros e' He'. apply Hk. by right.
Qed.

Lemma foldr_max_const (l : list Z) k : Forall (fun x => x = k) l -> 0 <= foldr Z.max 0 l <= Z.max 0 k /\ (l ≠ [] -> foldr Z.max 0 l = Z.max 0 k).
Proof. induction 1 as [|x l -> _ IH]; [cbn; split; [lia|done]|]. cbn [foldr]. destruct IH as [IH _]. split; [lia|]. intros _. lia. Qed.

Definition own_tensor (n : Z) (specs : Specs) (name : string) : res KVCacheTensor :=
  s ← res_of_option KeyError (Dict.get name specs); p ← page_size_bytes s; Ok {| kt_size := p * n; shared_by := [name] |}.

Lemma type_tensors c n specs l ts total : NoDup (Dict.keys specs) -> l ⊆ specs -> Forall (planned_layer c) specs ->
  mapM (own_tensor n specs) (Dict.keys l) = Ok ts -> sum_res ((fun e : string * KVCacheSpec => page_size_bytes e.2) <$> l) = Ok total ->
  concat (shared_by <$> ts) = Dict.keys l /\ total_size ts = total * n.
Proof.
  intros Hnd Hsub Hok. revert ts total. induction l as [|[name s] l IH]; intros ts total; [by intros [= <-] [= <-]|].
  change (Dict.keys ((name, s) :: l)) with (name :: Dict.keys l). rewrite fmap_cons. cbn [mapM sum_res snd].
  intros (t & Ht & (ts' & Hts & [= <-])%bind_res_ok)%bind_res_ok (p & Hp & (y & Hy & [= <-])%bind_res_ok)%bind_res_ok.
  unfold own_tensor in Ht. rewrite (Dict.elem_get name s specs Hnd) in Ht by (apply Hsub; by left). cbn [res_of_option mbind res_bind] in Ht. rewrite Hp in Ht.
  injection Ht as <-. destruct (IH ltac:(intros x Hx; apply Hsub; by right) ts' y Hts Hy) as [E1 E2].
  rewrite fmap_cons. cbn [concat shared_by app]. rewrite E1. split; [done|]. unfold total_size in *. rewrite fmap_cons, sum_cons, E2. cbn [kt_size]. lia.
Qed.

Lemma type_config c names bs specs mem cfg needed (groups := [{| layer_names := names; kv_cache_spec := UniformTypeKVCacheSpecs bs specs |}]) :
  names = Dict.keys specs \/ names = [] -> NoDup (Dict.keys specs) -> specs ≠ [] -> Forall (planned_layer c) specs -> same_pages specs ->
  num_gpu_blocks_override c = None -> 0 < mem -> max_memory_usage_bytes_from_groups c groups = Ok needed -> needed <= mem ->
  get_kv_cache_config_from_groups c groups mem = Ok cfg ->
  kv_cache_groups cfg = groups /\ config_ok c groups mem (num_blocks cfg) (kv_cache_tensors cfg).
Proof.
  intros Hnames Hnd Hne Hok Hsame Hov Hmem Hneed Hle Hcfg. cbn in Hneed. cbn [get_kv_cache_config_from_groups groups one_uniform_group kv_cache_spec] in Hcfg.
  destruct (group_page_ok (UniformTypeKVCacheSpecs bs specs)) as (total & Htotal & Htotal1).
  { split; [done|]. eapply Forall_impl; [exact Hok|]. by intros ? [? _]. }
  rewrite Htotal in Hcfg. cbn [mbind res_bind layer_names] in Hcfg. unfold py_div, may_override_num_blocks in Hcfg. rewrite Hov in Hcfg.
  destruct (Z.eqb_spec total 0) as [|_]; [lia|]. cbn [mbind res_bind default] in Hcfg. set (n := mem / total) in *.
  apply bind_res_ok in Hcfg as (ts & Hts & [= <-]). cbn [num_blocks kv_cache_tensors kv_cache_groups]. split; [done|].
  change (mapM (own_tensor n specs) names = Ok ts) in Hts. cbn [group_page_size_bytes] in Htotal.
  assert (total * n <= mem) as Hfit by (apply Z.mul_div_le; lia). assert (0 <= n) by (apply Z.div_pos; lia).
  assert (concat (shared_by <$> ts) = names /\ total_size ts <= mem) as [Hl Hsz].
  { destruct Hnames as [->| ->]; [|injection Hts as <-; by split; [|cbn; lia]].
    destruct (type_tensors c n specs specs ts total Hnd ltac:(done) Hok Hts Htotal) as [-> ->]. by split. }
  split.
  - rewrite Hl. unfold groups. cbn. by rewrite app_nil_r.
  - by intros _.
  - destruct specs as [|e0 specs0] eqn:Es; [done|]. rewrite <- Es in *. set (k := pages_per_request c e0.2).
    assert (forall e, e ∈ specs -> pages_per_request c e.2 = k) as Hk by (intros e He; apply Hsame; [done|rewrite Es; by left]).
    rewrite (type_memory c k specs needed total Hok Hk Hneed Htotal) in Hle.
    assert (request_blocks c groups <= Z.max 0 k) as Hr.
    { unfold request_blocks, groups. cbn [fmap list_fmap]. unfold sum. cbn [foldl]. unfold group_blocks. cbn [kv_cache_spec].
      assert (Forall (fun x => x = k) ((fun e => pages_per_request c e.2) <$> specs)) as HF by (apply Forall_fmap, Forall_forall; exact Hk).
      destruct (foldr_max_const _ _ HF) as [Hb _]. rewrite Z.add_0_l, <- Es. exact (proj2 Hb). }
    assert (k <= n) by (apply Z.div_le_lower_bound; lia). lia.
  - apply mapM_ok in Hts. rewrite Forall_forall. intros t Ht. apply list_elem_of_lookup in Ht as [i Hi].
    destruct (Forall2_lookup_r _ _ _ _ _ Hts Hi) as (name & Hn & E). unfold own_tensor in E.
    destruct (Dict.get name specs) as [s|] eqn:Eg; [|done]. cbn [res_of_option mbind res_bind] in E. apply bind_res_ok in E as (p & Hp & [= <-]).
    rewrite Forall_forall in Hok. destruct (Hok (name, s) ltac:(by apply Dict.get_Some_elem)) as [ [_ (q & Hq & Hq1)] _]. cbn [snd] in Hq. rewrite Hp in Hq. injection Hq as <-.
    exists p. split; [done|]. split; [done|]. cbn [shared_by]. intros x ->%list_elem_of_singleton. eexists. split; [by left|]. cbn [layer_names kv_cache_spec].
    split; [by eapply list_elem_of_lookup_2|]. by exists s.
Qed.

Lemma worker_config c groups mem cfg needed : planned c groups -> num_gpu_blocks_override c = None ->
  (groups ≠ [] -> 0 < mem /\ max_memory_usage_bytes_from_groups c groups = Ok needed /\ needed <= mem) ->
  get_kv_cache_config_from_groups c groups mem = Ok cfg ->
  kv_cache_groups cfg = groups /\ config_ok c groups mem (num_blocks cfg) (kv_cache_tensors cfg).
Proof.
  intros [|names bs specs Hn Hnd Hne Hok Hs|gs P Hne HP Hg] Hov Hmem Hcfg.
  - injection Hcfg as <-. split; [done|]. by split; [|..|].
  - destruct (Hmem ltac:(done)) as (H1 & H2 & H3). by eapply type_config.
  - destruct (Hmem Hne) as (H1 & H2 & H3). by eapply pages_config.
Qed.

(** ** The layers of all workers *)

Lemma merge_worker_ok merged worker m : merge_worker merged worker = Ok m -> NoDup (Dict.keys merged) ->
  NoDup (Dict.keys m) /\ merged ⊆ m /\ worker ⊆ m /\ forall e, e ∈ m -> e ∈ merged \/ e ∈ worker.
Proof.
  revert merged. induction worker as [|[name s] worker IH]; intros merged; cbn [merge_worker].
  - intros [= ->] Hnd. split; [done|]. split; [done|]. split; [by intros e ?%elem_of_nil|]. intros e He. by left.
  - destruct (Dict.get name merged) as [s'|] eqn:E.
    + case_decide as Hs; [subst s'|done]. intros H Hnd. destruct (IH _ H Hnd) as (H1 & H2 & H3 & H4). split; [done|]. split; [done|]. split.
      * intros e [->|He]%elem_of_cons; [|by apply H3]. apply H2. by apply Dict.get_Some_elem.
      * intros e He. destruct (H4 e He); [by left|right; by right].
    + intros H Hnd. apply Dict.get_None in E. destruct (IH _ H) as (H1 & H2 & H3 & H4).
      { unfold Dict.keys in *. rewrite fmap_app. apply NoDup_app. split; [done|]. split; [|apply NoDup_singleton]. intros x Hx ->%list_elem_of_singleton. by apply E. }
      split; [done|]. split; [intros e He; apply H2, elem_of_app; by left|]. split.
      * intros e [->|He]%elem_of_cons; [|by apply H3]. apply H2, elem_of_app. right. by left.
      * intros e He. destruct (H4 e He) as [ [?|?%list_elem_of_singleton]%elem_of_app|]; [by left|subst e; right; by left|right; by right].
Qed.

Lemma merge_workers_ok workers m : merge_workers workers = Ok m ->
  NoDup (Dict.keys m) /\ (forall w, w ∈ workers -> w ⊆ m) /\ forall e, e ∈ m -> exists w, w ∈ workers /\ e ∈ w.
Proof.
  unfold merge_workers. induction workers as [|w workers IH] using rev_ind in m |- *.
  - intros [= <-]. split; [constructor|]. split; intros x ?%elem_of_nil; done.
  - rewrite foldl_app. cbn [foldl]. intros (m0 & H0 & H)%bind_res_ok. destruct (IH m0 H0) as (N0 & S0 & B0). destruct (merge_worker_ok _ _ _ H N0) as (N1 & S1 & S2 & B1).
    split; [done|]. split.
    + intros x [Hx| ->%list_elem_of_singleton]%elem_of_app; [|done]. etransitivity; [by apply S0|done].
    + intros e He. destruct (B1 e He) as [He0|He0].
      * destruct (B0 e He0) as (x & Hx & ?). exists x. split; [apply elem_of_app; by left|done].
      * exists w. split; [apply elem_of_app; right; by left|done].
Qed.

(** ** The groups of one worker *)

Definition mine (sp : Specs) (names : list string) : list string := filter (fun n => Dict.mem n sp = true) names.

Lemma projected_names groups sp groups' : project_kv_cache_groups_to_worker groups sp = Ok groups' ->
  layer_names <$> groups' = (fun g => mine sp (layer_names g)) <$> groups.
Proof.
  intros H. eapply mapM_fmap; [exact H|]. intros g g' Hg. cbv beta zeta in Hg. fold (mine sp (layer_names g)) in Hg.
  destruct (mine sp (layer_names g)) as [|x l] eqn:E; [by injection Hg as <-|]. destruct (kv_cache_spec g); [by injection Hg as <-|].
  apply bind_res_ok in Hg as (l' & _ & [= <-]). done.
Qed.

Lemma worker_layers groups sp groups' merged : project_kv_cache_groups_to_worker groups sp = Ok groups' ->
  concat (layer_names <$> groups) ≡ₚ Dict.keys merged -> NoDup (Dict.keys merged) -> NoDup (Dict.keys sp) -> sp ⊆ merged ->
  concat (layer_names <$> groups') ≡ₚ Dict.keys sp.
Proof.
  intros Hp%projected_names Hperm Hnd Hnd' Hsub. rewrite Hp.
  assert (concat ((fun g => mine sp (layer_names g)) <$> groups) = mine sp (concat (layer_names <$> groups))) as ->.
  { clear. induction groups as [|g groups IH]; [done|]. rewrite !fmap_cons. cbn [concat]. unfold mine in *. by rewrite filter_app, IH. }
  unfold mine. rewrite Hperm. apply NoDup_Permutation; [by apply NoDup_filter|done|]. intros x. rewrite list_elem_of_filter. unfold Dict.mem.
  rewrite bool_decide_eq_true. split; [by intros [? _]|]. intros Hx. split; [done|]. unfold Dict.keys in *.
  apply list_elem_of_fmap in Hx as (e & -> & He). apply list_elem_of_fmap. exists e. split; [done|]. by apply Hsub.
Qed.

Lemma project_type (specs : Specs) names l : mapM (fun n => s ← res_of_option KeyError (Dict.get n specs); Ok (n, s)) names = Ok l ->
  Dict.keys l = names /\ l ⊆ specs.
Proof.
  intros H. split.
  - unfold Dict.keys. rewrite (mapM_fmap _ fst id _ _ H); [apply list_fmap_id|]. by intros n [n' s] (s' & _ & [= <- <-])%bind_res_ok.
  - apply mapM_ok in H. intros e He. apply list_elem_of_lookup in He as [i Hi]. destruct (Forall2_lookup_r _ _ _ _ _ H Hi) as (n & _ & E).
    apply bind_res_ok in E as (s & Es & [= <-]). destruct (Dict.get n specs) eqn:Eg; [|done]. injection Es as ->. by apply Dict.get_Some_elem.
Qed.

Lemma project_planned c groups sp groups' : planned c groups -> project_kv_cache_groups_to_worker groups sp = Ok groups' ->
  planned c groups' /\ forall c', request_blocks c' groups' = request_blocks c' groups.
Proof.
  intros [|names bs specs Hn Hnd Hne Hok Hs|gs P Hne HP Hg] H.
  - injection H as <-. split; [constructor|done].
  - unfold project_kv_cache_groups_to_worker in H. cbn [mapM layer_names kv_cache_spec] in H. fold (mine sp names) in H.
    apply bind_res_ok in H as (g & Hg & [= <-]). destruct (mine sp names) as [|x rest] eqn:Em.
    { injection Hg as <-. split; [|done]. apply planned_type; [by right|done..]. }
    apply bind_res_ok in Hg as (l & Hl & [= <-]). destruct (project_type _ _ _ Hl) as [Hk Hsub]. rewrite <- Hk.
    assert (l ≠ []) as Hne' by (intros ->; discriminate Hk).
    assert (Forall (planned_layer c) l) as Hok' by (rewrite Forall_forall in *; intros e He; by apply Hok, Hsub).
    split.
    + apply planned_type; [by left| |done|done|].
      * rewrite Hk, <- Em. apply NoDup_filter. destruct Hn as [->| ->]; [done|constructor].
      * intros c' e e' He He'. apply Hs; by apply Hsub.
    + intros c'. unfold request_blocks. cbn [fmap list_fmap]. f_equal. f_equal. unfold group_blocks. cbn [kv_cache_spec].
      destruct l as [|e0 l0] eqn:El; [done|]. rewrite <- El in *. set (k := pages_per_request c' e0.2).
      assert (e0 ∈ specs) as He0 by (apply Hsub; rewrite El; by left).
      assert (forall d : Specs, d ≠ [] -> d ⊆ specs -> foldr Z.max 0 ((fun e => pages_per_request c' e.2) <$> d) = Z.max 0 k) as Hd.
      { intros d Hd Hds. apply (foldr_max_const _ k); [|by destruct d]. apply Forall_fmap, Forall_forall. intros e He. apply Hs; [by apply Hds|done]. }
      by rewrite !Hd.
  - assert (Forall2 (fun g g' => kv_cache_spec g' = kv_cache_spec g) gs groups') as HF.
    { apply mapM_ok in H. apply Forall2_same_length_lookup_2; [by eapply Forall2_length|]. intros i g g' Hi Hi'. pose proof (Forall2_lookup_lr _ _ _ _ _ _ H Hi Hi') as E. cbv beta zeta in E.
      rewrite Forall_forall in Hg. destruct (Hg g ltac:(by eapply list_elem_of_lookup_2)) as (s & Es & _). rewrite Es in *. destruct (filter _ _); by injection E as <-. }
    split.
    + apply (planned_pages c _ P); [by intros ->; apply Forall2_nil_inv_r in HF|done|]. clear Hne H. induction HF as [|g g' gs groups' E _ IH]; [done|].
      apply Forall_cons in Hg as [Hg1 Hg]. constructor; [by rewrite E|by apply IH].
    + intros c'. unfold request_blocks. f_equal. clear Hne Hg H. induction HF as [|g g' gs groups' E _ IH]; [done|]. rewrite !fmap_cons, IH. f_equal. unfold group_blocks. by rewrite E.
Qed.

Lemma planned_with_len c n groups : planned c groups -> planned (with_model_len c n) groups.
Proof. intros [|names bs specs Hn Hnd Hne Hok Hs|gs P Hne HP Hg]; [constructor|by apply planned_type|by apply (planned_pages _ _ P)]. Qed.

(** ** The end of the plan *)

Lemma auto_fit_ok c projected mems c' : auto_fit c projected mems = Ok c' -> c' = c \/ exists n, 1 <= n < max_model_len c /\ c' = with_model_len c n.
Proof.
  unfold auto_fit. destruct (forallb _ _); [intros [= ->]; by left|]. intros (m & _ & (n & _ & H)%bind_res_ok)%bind_res_ok.
  destruct (Z.leb_spec n 0); [done|]. destruct (Z.leb_spec (max_model_len c) n); injection H as <-; [by left|right]. exists n. split; [lia|done].
Qed.

Lemma check_enough_ok mem needed est : check_enough mem needed est = Ok tt -> 0 < mem /\ exists x, needed = Ok x /\ x <= mem.
Proof.
  unfold check_enough. destruct (Z.leb_spec mem 0); [done|]. intros (x & -> & H')%bind_res_ok. split; [done|]. exists x. split; [done|].
  destruct (Z.ltb_spec mem x); [|lia]. by apply bind_res_ok in H' as (? & _ & ?).
Qed.

Lemma shrink_ok c groups mem n cfg cfg' : shrink n cfg = Ok cfg' -> kv_cache_groups cfg = groups ->
  config_ok c groups mem (num_blocks cfg) (kv_cache_tensors cfg) -> n <= num_blocks cfg -> request_blocks c groups <= n ->
  num_blocks cfg' = n /\ kv_cache_groups cfg' = groups /\ config_ok c groups mem n (kv_cache_tensors cfg').
Proof.
  unfold shrink. intros (ts & Hts & [= <-])%bind_res_ok Hg [Hl Hf _ Ht] Hn Hr. cbn [num_blocks kv_cache_groups kv_cache_tensors]. split; [done|]. split; [done|].
  apply mapM_ok in Hts. assert (Forall2 (fun t t' => shared_by t' = shared_by t /\ kt_size t' <= kt_size t /\ tensor_ok groups n t') (kv_cache_tensors cfg) ts) as HF.
  { clear Hl Hf Hr. induction Hts as [|t t' l l' E _ IH]; [constructor|]. apply Forall_cons in Ht as [ (p & Hp & Hs & Hn') Ht]. constructor; [|by apply IH].
    apply bind_res_ok in E as (r & Hr & E). unfold py_mod in Hr. destruct (Z.eqb_spec (num_blocks cfg) 0) as [|Hne]; [done|]. destruct (r =? 0); [|done]. injection E as <-.
    cbn [shared_by kt_size]. rewrite Hs, Z.div_mul by done. split; [done|]. split; [nia|]. exists p. by split_and!. }
  split.
  - rewrite <- Hl. clear -HF. induction HF as [|t t' l l' (E & _) _ IH]; [done|]. rewrite !fmap_cons. cbn [concat]. by rewrite E, IH.
  - intros Hne. specialize (Hf Hne). transitivity (total_size (kv_cache_tensors cfg)); [|done]. clear -HF. unfold total_size.
    induction HF as [|t t' l l' (_ & E & _) _ IH]; [done|]. rewrite !fmap_cons, !sum_cons. lia.
  - done.
  - clear -HF. induction HF as [|t t' l l' (_ & _ & E) _ IH]; by constructor.
Qed.

(** The layers of the workers: no name twice on a worker, positive sizes. *)
Definition workers_ok (c : VllmConfig) (workers : list Specs) : Prop :=
  Forall (fun sp => NoDup (Dict.keys sp) /\ Forall (fun e => layer_ok c e.2) sp) workers.

(** A worker's groups after the checks, and the configuration made from them. *)
Definition worker_checked (c : VllmConfig) (groups : list KVCacheGroupSpec) (mem : Z) : Prop :=
  groups ≠ [] -> 0 < mem /\ exists needed, max_memory_usage_bytes_from_groups c groups = Ok needed /\ needed <= mem.

Lemma checks_ok c (projected : list (list KVCacheGroupSpec)) mems u :
  mapM (fun '(groups, mem) => match groups with
    | [] => Ok tt
    | _ => check_enough mem (max_memory_usage_bytes_from_groups c groups) (estimate_max_model_len_from_groups c groups)
    end) (zip projected mems) = Ok u ->
  forall i groups mem, projected !! i = Some groups -> mems !! i = Some mem -> worker_checked c groups mem.
Proof.
  intros H%mapM_ok i groups mem Hg Hm. assert (zip projected mems !! i = Some (groups, mem)) as Hz by (apply lookup_zip_with_Some; by exists groups, mem).
  destruct (Forall2_lookup_l _ _ _ _ _ H Hz) as ([] & _ & E). intros Hne. destruct groups as [|g gs]; [done|]. by apply check_enough_ok in E as (? & x & ? & ?); split; [|exists x].
Qed.

Lemma projected_ok c merged groups workers projected : planned c groups -> concat (layer_names <$> groups) ≡ₚ Dict.keys merged -> NoDup (Dict.keys merged) ->
  (forall w, w ∈ workers -> w ⊆ merged /\ NoDup (Dict.keys w)) -> mapM (project_kv_cache_groups_to_worker groups) workers = Ok projected ->
  forall i gs, projected !! i = Some gs -> exists sp, workers !! i = Some sp /\ planned c gs
    /\ (forall c', request_blocks c' gs = request_blocks c' groups) /\ concat (layer_names <$> gs) ≡ₚ Dict.keys sp.
Proof.
  intros Hp Hperm Hnd Hw H%mapM_ok i gs Hi. destruct (Forall2_lookup_r _ _ _ _ _ H Hi) as (sp & Hsp & E). exists sp. split; [done|].
  destruct (project_planned _ _ _ _ Hp E) as [H1 H2]. split; [done|]. split; [done|]. destruct (Hw sp ltac:(by eapply list_elem_of_lookup_2)) as [Hsub Hnd']. by eapply worker_layers.
Qed.

(** C11: The memory plan of the engine is sound. When [get_kv_cache_configs] returns, for layers of positive
    sizes and without [num_gpu_blocks_override], the maximum length is the configured one or
    was shortened to a positive one, and all workers get the same number [n] of blocks
    such that on every worker: the groups contain exactly the worker's
    layers, each once; each of them has exactly one tensor; the tensors together are
    not larger than the memory available on that worker; a tensor has [n] pages of the page size
    that the plan gives each layer that shares it; and [n] is at least the number of blocks that
    the code counts for one request of the maximum length.  The null block, which the block pool
    keeps out of the [n] blocks, is not counted: [null_block_not_counted] has a plan whose pool
    is one block short of that request. *)
Theorem memory_plan_sound (c c' : VllmConfig) (workers : list Specs) (mems : list Z) (configs : list KVCacheConfig)
  (H : get_kv_cache_configs c workers mems = Ok (configs, c'))
  (Hov : num_gpu_blocks_override c = None) (Hok : workers_ok c workers) :
  (c' = c \/ exists m, 1 <= m < max_model_len c /\ c' = with_model_len c m)
  /\ exists n, forall i cfg, configs !! i = Some cfg -> exists sp mem, workers !! i = Some sp /\ mems !! i = Some mem
       /\ num_blocks cfg = n /\ concat (layer_names <$> kv_cache_groups cfg) ≡ₚ Dict.keys sp
       /\ config_ok c' (kv_cache_groups cfg) mem n (kv_cache_tensors cfg).
Proof.
  unfold get_kv_cache_configs in H. apply bind_res_ok in H as (merged & Hm & H). apply bind_res_ok in H as (groups & Hg & H).
  apply bind_res_ok in H as (projected & Hproj & H). apply bind_res_ok in H as (c1 & Hc & H). apply bind_res_ok in H as (u & Hcheck & H).
  apply bind_res_ok in H as (cfgs & Hcfgs & H). apply bind_res_ok in H as (n & Hn & H). apply bind_res_ok in H as (out & Hout & [= <- <-]).
  assert (c1 = c \/ exists m, 1 <= m < max_model_len c /\ c1 = with_model_len c m) as Hc'.
  { destruct (auto_fit_max_model_len c); [by eapply auto_fit_ok|injection Hc as ->; by left]. }
  split; [done|]. exists n. unfold workers_ok in Hok. rewrite Forall_forall in Hok.
  destruct (merge_workers_ok _ _ Hm) as (Hnd & Hsub & Hfrom).
  assert (Forall (fun e => layer_ok c e.2) merged) as Hlay.
  { rewrite Forall_forall. intros e He. destruct (Hfrom e He) as (w & Hw & He'). destruct (Hok w Hw) as [_ HF]. rewrite Forall_forall in HF. by apply HF. }
  pose proof (planned_groups c merged groups Hg Hnd Hlay) as Hpl. destruct (groups_have_layers c merged groups Hg) as [Hpart _].
  assert (planned c1 groups) as Hpl1 by (destruct Hc' as [->|(m & _ & ->)]; [done|by apply planned_with_len]).
  assert (num_gpu_blocks_override c1 = None) as Hov1 by (by destruct Hc' as [->|(m & _ & ->)]).
  pose proof (projected_ok c1 merged groups workers projected Hpl1 Hpart Hnd ltac:(intros w Hw; split; [by apply Hsub|by apply Hok]) Hproj) as Hpr.
  pose proof (checks_ok c1 projected mems u Hcheck) as Hch. apply mapM_ok in Hcfgs, Hout.
  assert (forall i cfg, cfgs !! i = Some cfg -> exists gs sp mem, projected !! i = Some gs /\ workers !! i = Some sp /\ mems !! i = Some mem
    /\ concat (layer_names <$> gs) ≡ₚ Dict.keys sp /\ kv_cache_groups cfg = gs /\ config_ok c1 gs mem (num_blocks cfg) (kv_cache_tensors cfg)
    /\ request_blocks c1 gs = request_blocks c1 groups) as Hall.
  { intros i cfg Hi. destruct (Forall2_lookup_r _ _ _ _ _ Hcfgs Hi) as (x & Hx & E). apply lookup_zip_with_Some in Hx as (gs & y & -> & Hgs & Hy).
    apply lookup_zip_with_Some in Hy as (sp & mem & -> & Hsp & Hmem). cbv beta iota in E. destruct (_ =? _) in E; [|done].
    destruct (Hpr i gs Hgs) as (sp' & Hsp' & Hp & Hr & Hl). pose proof (eq_trans (eq_sym Hsp) Hsp') as [= <-]. exists gs, sp, mem.
    split_and!; [done..| | |by apply Hr]; pose proof (Hch i gs mem Hgs Hmem) as Hw;
      (destruct gs as [|g0 gs0] eqn:Egs; [eapply (worker_config c1 [] mem cfg 0); done|rewrite <- Egs in *]);
      destruct (Hw ltac:(by rewrite Egs)) as (H0 & needed & H1 & H2); by eapply worker_config. }
  apply py_min_ok in Hn as [Hin Hmin]. apply list_elem_of_fmap in Hin as (cfgm & Hnm & Hin). apply list_elem_of_lookup in Hin as [j Hj].
  destruct (Hall j cfgm Hj) as (gsm & _ & _ & _ & _ & _ & _ & _ & [_ _ Henough _] & Hrm). rewrite Hrm, <- Hnm in Henough.
  intros i cfg Hi. destruct (Forall2_lookup_r _ _ _ _ _ Hout Hi) as (cfg0 & Hi0 & E).
  apply bind_res_ok in E as (cfg1 & E & E'). apply bind_res_ok in E' as (? & _ & [= ->]).
  destruct (Hall i cfg0 Hi0) as (gs & sp & mem & _ & Hsp & Hmem & Hl & Hgs & Hcf & Hr). exists sp, mem. split; [done|]. split; [done|].
  assert (n <= num_blocks cfg0) as Hle by (apply Hmin, list_elem_of_fmap; exists cfg0; split; [done|by eapply list_elem_of_lookup_2]).
  assert (request_blocks c1 gs <= n) as Hreq by (by rewrite Hr).
  destruct (shrink_ok c1 gs mem n cfg0 cfg E Hgs Hcf Hle Hreq) as (H1 & H2 & H3). rewrite H2. by split_and!.
Qed.

(** ** A plan for two workers *)

(** Both workers get the 54 blocks of the smaller one, three groups of one layer, and
    pages of 16384 bytes; the full-attention layer's blocks became twice as long. *)
Definition plan_groups (names : list (list string)) : list KVCacheGroupSpec :=
  zip_with (fun n s => {| layer_names := n; kv_cache_spec := OneSpec s |}) names
    [copy_with_new_block_size (full_layer 2) 32; window_layer 4; window_layer 4].
Definition plan_configs : list KVCacheConfig :=
  [ {| num_blocks := 54; kv_cache_tensors := [ {| kt_size := 884736; shared_by := ["l.0"%string; "l.1"%string] |} ];
       kv_cache_groups := plan_groups [ ["l.0"%string]; ["l.1"%string]; [] ] |};
    {| num_blocks := 54; kv_cache_tensors := [ {| kt_size := 884736; shared_by := ["l.2"%string] |} ];
       kv_cache_groups := plan_groups [ []; []; ["l.2"%string] ] |} ].

Example plan_run : get_kv_cache_configs plan_config plan_workers [1048576; 900000] = Ok (plan_configs, plan_config).
Proof. vm_compute. reflexivity. Qed.
Lemma plan_workers_ok : workers_ok plan_config plan_workers.
Proof.
  constructor; [|constructor; [|constructor] ].
  - split; [by apply (bool_decide_unpack _)|]. constructor; [apply full_layer_ok; lia|]. constructor; [apply window_layer_ok; lia|constructor].
  - split; [by apply (bool_decide_unpack _)|]. constructor; [apply window_layer_ok; lia|constructor].
Qed.

Lemma memory_plan_sound_witness :
  exists n, forall i cfg, plan_configs !! i = Some cfg -> num_blocks cfg = n /\ exists sp, plan_workers !! i = Some sp
    /\ concat (layer_names <$> kv_cache_groups cfg) ≡ₚ Dict.keys sp /\ request_blocks plan_config (kv_cache_groups cfg) <= n.
Proof.
  destruct (memory_plan_sound plan_config plan_config plan_workers [1048576; 900000] plan_configs plan_run eq_refl plan_workers_ok) as [_ [n Hn] ].
  exists n. intros i cfg Hi. destruct (Hn i cfg Hi) as (sp & mem & Hsp & _ & Hnb & Hl & Hcf). split; [exact Hnb|]. exists sp. split; [exact Hsp|]. split; [exact Hl|].
  apply (cf_enough _ _ _ _ _ Hcf).
Defined.

(** The check that one request fits does not count the null block that the block pool
    keeps: with memory for exactly the 7 blocks of one request of 100 tokens the plan is
    accepted, and the pool of 7 blocks has 6 to hand out. *)
Lemma null_block_not_counted :
  exists cfg, get_kv_cache_configs plan_config [ [("l.0"%string, full_layer 2)] ] [57344] = Ok ([cfg], plan_config)
    /\ num_blocks cfg = 7 /\ request_blocks plan_config (kv_cache_groups cfg) = 7
    /\ exists p, Pool.init 7 true 16 false None = Ok p /\ Pool.get_num_free_blocks p = 6.
Proof. eexists. split; [vm_compute; reflexivity|]. split; [reflexivity|]. split; [reflexivity|]. eexists. split; [lazy; reflexivity|reflexivity]. Qed.

End PlanSound.
