(* ===== verification/Detokenizer.v ===== *)
(** Detokenization and stop strings: [v1/engine/detokenizer.py] and
    [tokenizers/detokenizer_utils.py].

    A Python string is the list of its code points.  The tokenizer and its decode
    stream are libraries: interfaces here, with the operations that the code calls. *)

From S2P Require Import Prelude.
Local Open Scope Z_scope.

Module Detok.

Abbreviation text := (list Z).

(** ** Stop strings *)

Fixpoint starts_with (sub s : text) : bool :=
  match sub, s with
  | [], _ => true
  | x :: sub, y :: s => (x =? y) && starts_with sub s
  | _ :: _, [] => false
  end.

Fixpoint find_at (sub s : text) (i : Z) : Z :=
  if starts_with sub s then i
  else match s with [] => -1 | _ :: s => find_at sub s (i + 1) end.

(** [s.find(sub, start)] *)
Definition find (s sub : text) (start : Z) : Z :=
  let start := if start <? 0 then Z.max (start + zlen s) 0 else start in
  if zlen s <? start then -1 else find_at sub (drop (Z.to_nat start) s) start.

(** The loop of [check_stop_strings]. *)
Fixpoint check_stop_loop (output_text : text) (new_char_count : Z) (stop : list text) (include_in_output : bool) : option (text * Z) :=
  match stop with
  | [] => None
  | stop_str :: rest =>
      let stop_string_len := zlen stop_str in
      let stop_index := find output_text stop_str (1 - new_char_count - stop_string_len) in
      if stop_index =? -1 then check_stop_loop output_text new_char_count rest include_in_output
      else if include_in_output then
        let stop_index := stop_index + stop_string_len in
        if zlen output_text <=? stop_index then Some (stop_str, -1) else Some (stop_str, stop_index)
      else Some (stop_str, stop_index)
  end.

(** [check_stop_strings] *)
Definition check_stop_strings (output_text : text) (new_char_count : Z) (stop : list text) (include_in_output : bool) : option (text * Z) :=
  if (new_char_count =? 0) || match stop with [] => true | _ => false end then None
  else check_stop_loop output_text new_char_count stop include_in_output.

(** ** The detokenizer of a request *)

(** What a tokenizer does with the next token, given all tokens up to it. *)
Class Decoder (D : Type) := decode_next : list Z -> Z -> M D text.

(** [BaseIncrementalDetokenizer]; [prompt_len] is zero for the fast detokenizer, whose
    [token_ids] do not hold the prompt. *)
Record Detokenizer (D : Type) := {
  token_ids : list Z;
  prompt_len : Z;
  stop : list text;
  min_tokens : Z;
  include_stop_str_in_output : bool;
  stop_buffer_length : Z;
  last_output_text_offset : Z;
  output_text : text;
  decoder : D;
}.
Arguments token_ids {D}. Arguments prompt_len {D}. Arguments stop {D}. Arguments min_tokens {D}.
Arguments include_stop_str_in_output {D}. Arguments stop_buffer_length {D}.
Arguments last_output_text_offset {D}. Arguments output_text {D}. Arguments decoder {D}.

(** The fields of [SamplingParams] that the detokenizer reads. *)
Inductive StopParam := NoStop | OneStop (s : text) | Stops (l : list text).
Record StopParams := {
  p_stop : StopParam;
  p_min_tokens : Z;
  p_include_stop_str_in_output : bool;
  skip_special_tokens : bool;
  spaces_between_special_tokens : bool;
}.

Section detokenizer.
Context {D : Type} `{Decoder D}.
Implicit Types d : Detokenizer D.

(** [BaseIncrementalDetokenizer.__init__] *)
Definition init (p : StopParams) (ids : list Z) (prompt_len : Z) (decoder : D) : Detokenizer D :=
  let stop := match p_stop p with NoStop => [] | OneStop s => [s] | Stops l => l end in
  let include := p_include_stop_str_in_output p in
  {| token_ids := ids; prompt_len := prompt_len; stop := stop; min_tokens := p_min_tokens p;
     include_stop_str_in_output := include;
     stop_buffer_length := match stop with
       | s :: rest => if include then 0 else foldl Z.max (zlen s) (zlen <$> rest) - 1
       | [] => 0
       end;
     last_output_text_offset := 0; output_text := []; decoder := decoder |}.

(** [output_token_ids] and [num_output_tokens] *)
Definition output_token_ids d : list Z := if prompt_len d =? 0 then token_ids d else py_from (token_ids d) (prompt_len d).
Definition num_output_tokens d : Z := zlen (token_ids d) - prompt_len d.

Definition push_token (t : Z) d : Detokenizer D := {| d with token_ids := token_ids d ++ [t] |}.
Definition push_text (s : text) d : Detokenizer D := {| d with output_text := output_text d ++ s |}.
Definition set_text (s : text) d : Detokenizer D := {| d with output_text := s |}.
Definition set_offset (n : Z) d : Detokenizer D := {| d with last_output_text_offset := n |}.

Definition decode_token (t : Z) : M (Detokenizer D) text :=
  ids ← gets token_ids;
  zoom decoder (fun x d => {| d with decoder := x |}) (decode_next ids t).

(** The loop over the new tokens; the result is [stop_check_offset]. *)
Fixpoint decode_loop (new_token_ids : list Z) (stop_check_offset : Z) : M (Detokenizer D) Z :=
  match new_token_ids with
  | [] => mret stop_check_offset
  | t :: rest =>
      modify (push_token t) ;;
      s ← decode_token t;
      modify (push_text s) ;;
      d ← gets id;
      decode_loop rest (if negb (min_tokens d =? 0) && (num_output_tokens d <=? min_tokens d)
                        then zlen (output_text d) else stop_check_offset)
  end.

(** The evaluation of the stop strings. *)
Definition eval_stop (stop_check_offset : Z) : M (Detokenizer D) (option text) :=
  d ← gets id;
  if negb (match stop d with [] => true | _ => false end) && (min_tokens d <? num_output_tokens d) then
    match check_stop_strings (output_text d) (zlen (output_text d) - stop_check_offset) (stop d) (include_stop_str_in_output d) with
    | None => mret None
    | Some (stop_string, truncate_to) =>
        (if truncate_to =? -1 then mret tt else modify (set_text (py_upto (output_text d) truncate_to))) ;;
        mret (Some stop_string)
    end
  else mret None.

(** [update] *)
Definition update (new_token_ids : list Z) (stop_terminated : bool) : M (Detokenizer D) (option text) :=
  match last new_token_ids with
  | None => mret None
  | Some last_id =>
      d ← gets id;
      let skip := stop_terminated && negb (include_stop_str_in_output d) in
      stop_check_offset ← decode_loop (if skip then removelast new_token_ids else new_token_ids) (zlen (output_text d));
      (if skip then modify (push_token last_id) else mret tt) ;;
      eval_stop stop_check_offset
  end.

(** [get_next_output_text] *)
Definition get_next_output_text (finished delta : bool) : M (Detokenizer D) text :=
  d ← gets id;
  let buffer_length := if finished then 0 else stop_buffer_length d in
  if negb delta then
    if buffer_length =? 0 then mret (output_text d) else mret (py_upto (output_text d) (- buffer_length))
  else
    let length := zlen (output_text d) - buffer_length in
    let last_offset := last_output_text_offset d in
    if last_offset <? length then
      modify (set_offset length) ;; mret (py_slice (output_text d) last_offset length)
    else mret [].

End detokenizer.

(** [IncrementalDetokenizer]: without a tokenizer the tokens are only collected. *)
Inductive IncrementalDetokenizer (D : Type) :=
  | NoTokenizer (ids : list Z)
  | Detokenizes (d : Detokenizer D).
Arguments NoTokenizer {D}. Arguments Detokenizes {D}.

Section incremental.
Context {D : Type} `{Decoder D}.

Definition incremental_update (new_token_ids : list Z) (stop_terminated : bool) : M (IncrementalDetokenizer D) (option text) := fun x =>
  match x with
  | NoTokenizer ids => (Ok None, NoTokenizer (ids ++ new_token_ids))
  | Detokenizes d => let '(r, d) := update new_token_ids stop_terminated d in (r, Detokenizes d)
  end.

Definition incremental_next_text (finished delta : bool) : M (IncrementalDetokenizer D) text := fun x =>
  match x with
  | NoTokenizer ids => (Ok [], NoTokenizer ids)
  | Detokenizes d => let '(r, d) := get_next_output_text finished delta d in (r, Detokenizes d)
  end.

Definition incremental_token_ids (x : IncrementalDetokenizer D) : list Z :=
  match x with NoTokenizer ids => ids | Detokenizes d => output_token_ids d end.
Definition incremental_num_tokens (x : IncrementalDetokenizer D) : Z :=
  match x with NoTokenizer ids => zlen ids | Detokenizes d => num_output_tokens d end.
End incremental.

(** ** The fast detokenizer *)

(** What [DecodeStream.step] does. *)
Inductive step_result := StepToken (t : option text) | StepOverflow | StepInvalidPrefix | StepError (e : exc).
Class DecodeStream (Stream : Type) := {
  stream_step : Stream -> Z -> step_result * Stream;
  new_stream : list Z -> bool -> Stream;
}.

Record Fast (Stream : Type) := {
  stream : Stream;
  fast_skip_special_tokens : bool;
  fast_spaces_between : bool;
  last_special : bool;
  added_token_ids : list (Z * text);
}.
Arguments stream {Stream}. Arguments fast_skip_special_tokens {Stream}. Arguments fast_spaces_between {Stream}.
Arguments last_special {Stream}. Arguments added_token_ids {Stream}.

Section fast.
Context {Stream : Type} `{DecodeStream Stream}.

(** [FastIncrementalDetokenizer.__init__] *)
Definition fast_init (p : StopParams) (prompt_token_ids : list Z) (added : list (Z * text)) : Detokenizer (Fast Stream) :=
  let spaces := skip_special_tokens p || spaces_between_special_tokens p in
  init p [] 0
    {| stream := new_stream prompt_token_ids (skip_special_tokens p); fast_skip_special_tokens := skip_special_tokens p;
       fast_spaces_between := spaces || match added with [] => true | _ => false end;
       last_special := false; added_token_ids := if spaces then [] else added |}.

(** [_protected_step] *)
Definition protected_step (next_token_id : Z) : M (Fast Stream) (option text) := fun f =>
  let '(r, s) := stream_step (stream f) next_token_id in
  match r with
  | StepToken t => (Ok t, {| f with stream := s |})
  | StepOverflow => (Ok None, {| f with stream := s |})
  | StepError e => (Raise e, {| f with stream := s |})
  | StepInvalidPrefix =>
      let '(r, s) := stream_step (new_stream [] (fast_skip_special_tokens f)) next_token_id in
      match r with
      | StepToken t => (Ok t, {| f with stream := s |})
      | StepOverflow => (Raise OverflowError, {| f with stream := s |})
      | StepInvalidPrefix => (Raise RuntimeError, {| f with stream := s |})
      | StepError e => (Raise e, {| f with stream := s |})
      end
  end.

#[export] Instance fast_decoder : Decoder (Fast Stream) := fun _ next_token_id =>
  token ← protected_step next_token_id;
  f ← gets id;
  if fast_spaces_between f then mret (default [] token)
  else
    let special_token := Dict.get next_token_id (added_token_ids f) in
    let is_special := bool_decide (is_Some special_token) in
    let token := if is_special && last_special f then special_token else token in
    modify (fun f => {| f with last_special := is_special |}) ;;
    mret (default [] token).
End fast.

(** ** The slow detokenizer *)

Class TokenizerLike (T : Type) := {
  tok_len : T -> Z;
  tok_is_fast : T -> bool;
  get_added_vocab : T -> list text;
  all_special_tokens : T -> list text;
  convert_ids_to_tokens : T -> list Z -> bool -> list (option text);
  convert_tokens_to_string : T -> list text -> text;
}.

Record Slow (T : Type) := {
  tokenizer : T;
  tokens : list text;
  prefix_offset : Z;
  read_offset : Z;
  slow_skip_special_tokens : bool;
  slow_spaces_between : bool;
}.
Arguments tokenizer {T}. Arguments tokens {T}. Arguments prefix_offset {T}. Arguments read_offset {T}.
Arguments slow_skip_special_tokens {T}. Arguments slow_spaces_between {T}.

Section slow.
Context {T : Type} `{TokenizerLike T}.

Definition replace_none_with_empty (l : list (option text)) : list text := default [] <$> l.

(** [sep.join(parts)] *)
Fixpoint join (sep : text) (parts : list text) : text :=
  match parts with
  | [] => []
  | [p] => p
  | p :: rest => p ++ sep ++ join sep rest
  end.

(** The loop of [_convert_tokens_to_string_with_added_encoders]. *)
Fixpoint sub_texts (t : T) (special : list text) (output_tokens current done : list text) : list text :=
  let flush := match current with [] => done | _ => done ++ [convert_tokens_to_string t current] end in
  match output_tokens with
  | [] => flush
  | token :: rest =>
      if bool_decide (token ∈ special) then sub_texts t special rest current done
      else if bool_decide (token ∈ get_added_vocab t) then sub_texts t special rest [] (flush ++ [token])
      else sub_texts t special rest (current ++ [token]) done
  end.

Definition convert_tokens_to_string_with_added_encoders (t : T) (output_tokens : list text) (skip spaces : bool) : text :=
  join (if spaces then [32] else []) (sub_texts t (if skip then all_special_tokens t else []) output_tokens [] []).

Definition INITIAL_INCREMENTAL_DETOKENIZATION_OFFSET : Z := 5.

Definition convert_prompt_ids_to_tokens (t : T) (prompt_ids : list Z) (skip : bool) : list text * Z * Z :=
  let new_tokens := convert_ids_to_tokens t (py_from prompt_ids (- INITIAL_INCREMENTAL_DETOKENIZATION_OFFSET - 2)) skip in
  let read_offset := zlen new_tokens in
  (replace_none_with_empty new_tokens, Z.max (read_offset - INITIAL_INCREMENTAL_DETOKENIZATION_OFFSET) 0, read_offset).

(** The replacement character of incomplete byte sequences. *)
Definition REPLACEMENT : Z := 65533.

(** The strings that [detokenize_incrementally] compares. *)
Definition tokens_text (t : T) (l : list text) (skip spaces : bool) : text :=
  if tok_is_fast t || match get_added_vocab t with [] => true | _ => false end then convert_tokens_to_string t l
  else convert_tokens_to_string_with_added_encoders t l skip spaces.

(** [detokenize_incrementally]: new tokens, new text and offsets. *)
Definition detokenize_incrementally (t : T) (all_input_ids : list Z) (prev_tokens : option (list text)) (prefix_offset read_offset : Z) (skip spaces : bool)
  : res (list text * text * Z * Z) :=
  new_token_id ← py_get all_input_ids (-1);
  let '(prev, prefix_offset, read_offset) := match prev_tokens with
    | None => convert_prompt_ids_to_tokens t (py_slice all_input_ids 0 (-1)) skip
    | Some prev => (prev, prefix_offset, read_offset)
    end in
  let new_tokens := if (0 <=? new_token_id) && (new_token_id <? tok_len t)
                    then replace_none_with_empty (convert_ids_to_tokens t [new_token_id] skip) else [ [] ] in
  let output_tokens := prev ++ new_tokens in
  let new_tokens := match prev_tokens with None => output_tokens | Some _ => new_tokens end in
  let prefix_text := tokens_text t (py_slice output_tokens prefix_offset read_offset) skip spaces in
  let new_text := tokens_text t (py_from output_tokens prefix_offset) skip spaces in
  if (zlen new_text <=? zlen prefix_text) || bool_decide (last new_text = Some REPLACEMENT)
  then Ok (new_tokens, [], prefix_offset, read_offset)
  else Ok (new_tokens, py_from new_text (zlen prefix_text), read_offset, zlen output_tokens).

(** [SlowIncrementalDetokenizer.__init__]; [prompt_len] is given for prompts without token ids. *)
Definition slow_init (t : T) (p : StopParams) (prompt_token_ids : option (list Z)) (prompt_len : Z) : Detokenizer (Slow T) :=
  let '(tokens, prefix_offset, read_offset) := match prompt_token_ids with
    | Some ids => convert_prompt_ids_to_tokens t ids (skip_special_tokens p)
    | None => (replicate (Z.to_nat prompt_len) [], 0, 0)
    end in
  let ids := default [] prompt_token_ids in
  init p (match ids with [] => replicate (Z.to_nat prompt_len) 0 | _ => ids end) prompt_len
    {| tokenizer := t; tokens := tokens; prefix_offset := prefix_offset; read_offset := read_offset;
       slow_skip_special_tokens := skip_special_tokens p; slow_spaces_between := spaces_between_special_tokens p |}.

#[export] Instance slow_decoder : Decoder (Slow T) := fun token_ids _ =>
  s ← gets id;
  r ← lift_res (detokenize_incrementally (tokenizer s) token_ids (Some (tokens s)) (prefix_offset s) (read_offset s)
                  (slow_skip_special_tokens s) (slow_spaces_between s));
  let '(new_tokens, decoded_text, p, q) := r in
  modify (fun s => {| s with tokens := tokens s ++ new_tokens |}) ;;
  modify (fun s => {| s with prefix_offset := p |}) ;;
  modify (fun s => {| s with read_offset := q |}) ;;
  mret decoded_text.
End slow.

End Detok.
