(* ===== verification/DetokFacts.v ===== *)
(** Stop strings are found exactly, and text that was sent is never taken back. *)

From S2P Require Import Prelude Detokenizer.
Local Open Scope Z_scope.

Module DetokFacts.
Import Detok.

(** ** Occurrences *)

Definition occurs_at (sub s : text) (i : Z) : Prop := exists a b, s = a ++ sub ++ b /\ zlen a = i.

Definition first_at (sub s : text) (i : Z) : Prop := occurs_at sub s i /\ forall j, occurs_at sub s j -> i <= j.

Lemma occurs_bounds sub s i : occurs_at sub s i -> 0 <= i /\ i + zlen sub <= zlen s.
Proof. intros (a & b & -> & <-). rewrite !zlen_app. pose proof (zlen_nonneg a). pose proof (zlen_nonneg b). lia. Qed.

Lemma occurs_nil sub s : occurs_at sub s 0 <-> exists b, s = sub ++ b.
Proof.
  split; [|intros [b ->]; by exists [], b]. intros (a & b & -> & Ha). exists b. destruct a; [done|]. rewrite zlen_cons in Ha. pose proof (zlen_nonneg a). lia.
Qed.

Lemma occurs_cons sub x s i : 0 <= i -> occurs_at sub (x :: s) (i + 1) <-> occurs_at sub s i.
Proof.
  intros Hi. split.
  - intros (a & b & E & Ha). destruct a as [|y a]; [change (zlen (A:=Z) []) with 0 in Ha; lia|]. injection E as -> E. exists a, b. rewrite zlen_cons in Ha. split; [done|lia].
  - intros (a & b & -> & <-). exists (x :: a), b. rewrite zlen_cons. split; [done|lia].
Qed.

Lemma occurs_drop sub s n i : (n <= length s)%nat -> 0 <= i -> occurs_at sub (drop n s) i <-> occurs_at sub s (Z.of_nat n + i).
Proof.
  revert s. induction n as [|n IH]; intros s Hn Hi; [rewrite drop_0; by rewrite Z.add_0_l|]. destruct s as [|x s]; [simpl in Hn; lia|].
  simpl in Hn. cbn [drop]. rewrite IH by lia. replace (Z.of_nat (S n) + i) with (Z.of_nat n + i + 1) by lia. by rewrite occurs_cons by lia.
Qed.

Lemma occurs_app_l sub s1 s2 i : i + zlen sub <= zlen s1 -> occurs_at sub (s1 ++ s2) i <-> occurs_at sub s1 i.
Proof.
  intros Hi. split; [|intros (a & b & -> & Ha); exists a, (b ++ s2); split; [by rewrite <- !app_assoc|done] ].
  intros (a & b & E & <-). exists a, (drop (length (a ++ sub)) s1). split; [|done]. rewrite app_assoc in E.
  assert (take (length (a ++ sub)) s1 = a ++ sub) as Ht.
  { rewrite <- (take_app_le s1 s2) by (unfold zlen in Hi; rewrite length_app; lia). rewrite E. by rewrite take_app_length. }
  rewrite <- (take_drop (length (a ++ sub)) s1) at 1. rewrite Ht. by rewrite <- app_assoc.
Qed.

Lemma starts_with_spec sub s : starts_with sub s = true <-> exists b, s = sub ++ b.
Proof.
  revert s. induction sub as [|x sub IH]; intros s; [split; [by exists s|done]|]. destruct s as [|y s]; [split; [done|by intros [b [=] ]]|].
  cbn [starts_with]. rewrite andb_true_iff, Z.eqb_eq, IH. split; [intros [-> [b ->] ]; by exists b|intros [b [= -> ->] ]; split; [done|by exists b] ].
Qed.

Lemma find_at_spec sub s i : 0 <= i ->
  (find_at sub s i = -1 /\ forall j, ~ occurs_at sub s j) \/ exists j, 0 <= j /\ find_at sub s i = i + j /\ first_at sub s j.
Proof.
  revert i. induction s as [|x s IH]; intros i Hi; cbn [find_at]; destruct (starts_with sub _) eqn:E.
  - right. exists 0. split; [done|]. split; [lia|]. apply starts_with_spec, occurs_nil in E. split; [done|]. intros j (? & _)%occurs_bounds. lia.
  - left. split; [done|]. intros j Hj. pose proof (occurs_bounds _ _ _ Hj) as [H0 H1]. change (zlen (A:=Z) []) with 0 in H1. pose proof (zlen_nonneg sub). assert (j = 0) as -> by lia.
    apply occurs_nil, starts_with_spec in Hj. congruence.
  - right. exists 0. split; [done|]. split; [lia|]. apply starts_with_spec, occurs_nil in E. split; [done|]. intros j (? & _)%occurs_bounds. lia.
  - assert (~ occurs_at sub (x :: s) 0) as H0. { intros H%occurs_nil%starts_with_spec. congruence. }
    destruct (IH (i + 1) ltac:(lia)) as [ [-> Hn]|(j & Hj & -> & Ho & Hf)].
    + left. split; [done|]. intros j Hj. pose proof (occurs_bounds _ _ _ Hj) as [? _]. destruct (decide (j = 0)) as [->|]; [done|].
      replace j with (j - 1 + 1) in Hj by lia. apply occurs_cons in Hj; [|lia]. by apply (Hn (j - 1)).
    + right. exists (j + 1). split; [lia|]. split; [lia|]. split; [by apply occurs_cons|]. intros k Hk. pose proof (occurs_bounds _ _ _ Hk) as [? _].
      destruct (decide (k = 0)) as [->|]; [done|]. replace k with (k - 1 + 1) in Hk by lia. apply occurs_cons in Hk; [|lia]. apply Hf in Hk. lia.
Qed.

(** [find] with a start counted from the end. *)
Lemma find_spec s sub start : start < 0 ->
  let n := Z.max (start + zlen s) 0 in
  (find s sub start = -1 /\ forall j, n <= j -> ~ occurs_at sub s j)
  \/ exists j, find s sub start = j /\ n <= j /\ occurs_at sub s j /\ forall k, n <= k -> occurs_at sub s k -> j <= k.
Proof.
  intros Hs n. unfold find. replace (start <? 0) with true by lia. fold n. pose proof (zlen_nonneg s). assert (0 <= n <= zlen s) as Hn by lia.
  replace (zlen s <? n) with false by lia. assert (Z.to_nat n <= length s)%nat as Hl by (unfold zlen in *; lia).
  assert (forall j, n <= j -> occurs_at sub s j -> occurs_at sub (drop (Z.to_nat n) s) (j - n)) as Hd.
  { intros j Hj Ho. apply occurs_drop; [done|lia|]. replace (Z.of_nat (Z.to_nat n) + (j - n)) with j by lia. done. }
  destruct (find_at_spec sub (drop (Z.to_nat n) s) n ltac:(lia)) as [ [-> Hno]|(j & Hj & -> & Ho & Hf)].
  - left. split; [done|]. intros j Hj Ho. by apply (Hno (j - n)), Hd.
  - right. exists (n + j). split; [done|]. split; [lia|]. split.
    + apply occurs_drop in Ho; [|done|done]. by replace (Z.of_nat (Z.to_nat n) + j) with (n + j) in Ho by lia.
    + intros k Hk Hok. pose proof (Hf _ (Hd k Hk Hok)). lia.
Qed.

(** ** [check_stop_strings] *)

(** [sub] has no occurrence that ends behind the first [old] characters. *)
Definition none_after (old : Z) (s sub : text) : Prop := forall i, occurs_at sub s i -> i + zlen sub <= old.

(** Where the text is cut. *)
Definition cut_at (include : bool) (sub : text) (i : Z) : Z := if include then i + zlen sub else i.

Lemma check_stop_loop_spec s new stop include : 1 <= new <= zlen s -> Forall (fun sub => sub ≠ []) stop ->
  match check_stop_loop s new stop include with
  | None => Forall (none_after (zlen s - new) s) stop
  | Some (sub, off) => exists l1 l2 i, stop = l1 ++ sub :: l2 /\ Forall (none_after (zlen s - new) s) l1
      /\ occurs_at sub s i /\ zlen s - new < i + zlen sub /\ (forall j, occurs_at sub s j -> zlen s - new < j + zlen sub -> i <= j)
      /\ (if off =? -1 then s else py_upto s off) = take (Z.to_nat (cut_at include sub i)) s
  end.
Proof.
  intros Hnew. induction 1 as [|sub stop Hne _ IH]; [constructor|]. cbn [check_stop_loop].
  assert (1 <= zlen sub) as Hlen by (destruct sub; [done|rewrite zlen_cons; pose proof (zlen_nonneg sub); lia]).
  destruct (find_spec s sub (1 - new - zlen sub) ltac:(lia)) as [ [-> Hno]|(i & -> & Hi & Ho & Hf)].
  - rewrite Z.eqb_refl. assert (none_after (zlen s - new) s sub) as Hn.
    { intros i Hi. destruct (decide (i + zlen sub <= zlen s - new)); [done|]. exfalso. apply (Hno i); [|done]. pose proof (occurs_bounds _ _ _ Hi). lia. }
    destruct (check_stop_loop s new stop include) as [ [sub' off]|]; [|by constructor].
    destruct IH as (l1 & l2 & i & -> & Hl1 & Hrest). exists (sub :: l1), l2, i. split; [done|]. split; [by constructor|done].
  - pose proof (occurs_bounds _ _ _ Ho) as [Hi0 Hi1]. replace (i =? -1) with false by lia.
    assert (zlen s - new < i + zlen sub) as Hend by lia.
    assert (forall j, occurs_at sub s j -> zlen s - new < j + zlen sub -> i <= j) as Hfirst.
    { intros j Hj Hj2. apply Hf; [|done]. pose proof (occurs_bounds _ _ _ Hj). lia. }
    destruct include; [destruct (Z.leb_spec (zlen s) (i + zlen sub)) as [Hle|Hgt]|]; exists [], stop, i; (split; [done|]); (split; [constructor|]); (split; [done|]); (split; [done|]); (split; [done|]); unfold cut_at.
    + change (-1 =? -1) with true. cbv iota. rewrite take_ge; [done|unfold zlen in *; lia].
    + replace (i + zlen sub =? -1) with false by lia. by rewrite py_upto_nonneg by lia.
    + replace (i =? -1) with false by lia. by rewrite py_upto_nonneg by lia.
Qed.

(** ** [update] *)

Section update.
Context {D : Type} `{Decoder D}.
Implicit Types d : Detokenizer D.

(** The text that a decoder gives for some tokens. *)
Fixpoint decode_text (new_ids all_ids : list Z) : M D text :=
  match new_ids with
  | [] => mret []
  | t :: rest => s ← decode_next (all_ids ++ [t]) t; s' ← decode_text rest (all_ids ++ [t]); mret (s ++ s')
  end.

(** What never changes. *)
Definition same_params d d' : Prop :=
  prompt_len d' = prompt_len d /\ stop d' = stop d /\ min_tokens d' = min_tokens d
  /\ include_stop_str_in_output d' = include_stop_str_in_output d /\ stop_buffer_length d' = stop_buffer_length d.

Lemma decode_loop_spec ids off d :
  match decode_loop ids off d with
  | (Ok off', d') => exists new, decode_text ids (token_ids d) (decoder d) = (Ok new, decoder d')
      /\ output_text d' = output_text d ++ new /\ token_ids d' = token_ids d ++ ids /\ same_params d d'
      /\ last_output_text_offset d' = last_output_text_offset d
      /\ (off <= zlen (output_text d) -> off <= off' <= zlen (output_text d')) /\ (min_tokens d = 0 -> off' = off)
  | (Raise e, d') => exists x, decode_text ids (token_ids d) (decoder d) = (Raise e, x)
  end.
Proof.
  revert off d. induction ids as [|t ids IH]; intros off d; cbn [decode_loop].
  - exists []. cbn. rewrite !app_nil_r. split_and!; [done..|by intros; lia|done].
  - unfold decode_token, zoom, gets, modify, mbind, M_bind. cbn [push_token token_ids decoder decode_text mbind M_bind].
    unfold mbind, M_bind. destruct (decode_next (token_ids d ++ [t]) t (decoder d)) as [ [s|e] x] eqn:E; [|by exists x].
    cbn [id push_text token_ids output_text min_tokens]. set (d1 := push_text s _).
    match goal with |- context [decode_loop ids ?o d1] => set (o1 := o) end. specialize (IH o1 d1).
    destruct (decode_loop ids o1 d1) as [ [off'|e] d']; cbn [d1 push_text push_token token_ids decoder output_text] in IH.
    + destruct IH as (new & Hnew & Htext & Htok & Hsame & Hoff & Hle & Hmin). cbn [push_text push_token token_ids decoder] in *. exists (s ++ new).
      rewrite Hnew. split; [done|]. rewrite Htext, Htok, <- !app_assoc. split; [done|]. split; [done|]. split; [done|]. split; [done|]. split.
      * intros Ho. rewrite !zlen_app in *. pose proof (zlen_nonneg s). pose proof (zlen_nonneg new).
        assert (off <= o1 <= zlen (output_text d) + zlen s) as Ho1. { unfold o1, d1. destruct (_ && _); cbn [push_text push_token output_text]; rewrite ?zlen_app; lia. }
        rewrite Htext, !zlen_app in Hle. lia.
      * intros Hm. rewrite Hmin by done. unfold o1, d1. cbn [push_text push_token min_tokens]. by rewrite Hm.
    + destruct IH as [y Hy]. exists y. by rewrite Hy.
Qed.

Definition stops_ok d : Prop := Forall (fun s => s ≠ []) (stop d).
Definition no_stop d : Prop := Forall (fun s => forall i, ~ occurs_at s (output_text d) i) (stop d).

(** The stop string [s] at [i] is the one that is reported for a text. *)
Definition stop_at d (off : Z) (full s : text) (i : Z) : Prop :=
  exists l1 l2, stop d = l1 ++ s :: l2 /\ Forall (none_after off full) l1
    /\ occurs_at s full i /\ off < i + zlen s /\ forall j, occurs_at s full j -> off < j + zlen s -> i <= j.

Lemma eval_stop_spec off d : 0 <= off <= zlen (output_text d) -> stops_ok d ->
  exists r t, eval_stop off d = (Ok r, set_text t d) /\
    match r with
    | None => t = output_text d /\ (min_tokens d < num_output_tokens d -> Forall (none_after off (output_text d)) (stop d))
    | Some s => exists i, stop_at d off (output_text d) s i /\ t = take (Z.to_nat (cut_at (include_stop_str_in_output d) s i)) (output_text d)
    end.
Proof.
  intros Hoff Hok. unfold eval_stop, gets, id, mbind, M_bind. assert (d = set_text (output_text d) d) as Hd by (by destruct d).
  assert (off = zlen (output_text d) -> Forall (none_after off (output_text d)) (stop d)) as Hfull.
  { intros ->. apply Forall_forall. intros s _ i Hi. apply occurs_bounds in Hi. lia. }
  unfold check_stop_strings. destruct (stop d) as [|s0 rest] eqn:Es; cbn [negb andb].
  { exists None, (output_text d). rewrite <- Hd. split; [done|]. split; [done|]. by constructor. }
  rewrite <- Es in *. destruct (Z.ltb_spec (min_tokens d) (num_output_tokens d)) as [Hlt|Hge]; cbn [negb andb].
  2: { exists None, (output_text d). rewrite <- Hd. split; [done|]. split; [done|lia]. }
  replace (match stop d with [] => true | _ => false end) with false by (by rewrite Es). rewrite orb_false_r.
  destruct (Z.eqb_spec (zlen (output_text d) - off) 0) as [E|Hne].
  { exists None, (output_text d). rewrite <- Hd. split; [done|]. split; [done|]. intros _. apply Hfull. lia. }
  pose proof (check_stop_loop_spec (output_text d) (zlen (output_text d) - off) (stop d) (include_stop_str_in_output d) ltac:(lia) Hok) as HC.
  replace (zlen (output_text d) - (zlen (output_text d) - off)) with off in HC by lia.
  destruct (check_stop_loop _ _ _ _) as [ [s trunc]|].
  - destruct HC as (l1 & l2 & i & El & Hl1 & Ho & Hend & Hf & Ht).
    exists (Some s), (if trunc =? -1 then output_text d else py_upto (output_text d) trunc). split.
    + destruct (trunc =? -1); [by rewrite <- Hd|done].
    + exists i. split; [by exists l1, l2|done].
  - exists None, (output_text d). rewrite <- Hd. by split_and!.
Qed.

(** The tokens that are turned into text. *)
Definition decoded_ids (new_token_ids : list Z) (stop_terminated : bool) d : list Z :=
  if stop_terminated && negb (include_stop_str_in_output d) then removelast new_token_ids else new_token_ids.

Lemma decoded_nil stop_terminated d : decoded_ids [] stop_terminated d = [].
Proof. unfold decoded_ids. by destruct (_ && _). Qed.

Lemma update_spec new_token_ids stop_terminated d : stops_ok d ->
  match decode_text (decoded_ids new_token_ids stop_terminated d) (token_ids d) (decoder d) with
  | (Raise e, _) => exists d', update new_token_ids stop_terminated d = (Raise e, d')
  | (Ok new, x) => exists r d' off, update new_token_ids stop_terminated d = (Ok r, d')
      /\ same_params d d' /\ last_output_text_offset d' = last_output_text_offset d /\ decoder d' = x
      /\ token_ids d' = token_ids d ++ new_token_ids
      /\ zlen (output_text d) <= off <= zlen (output_text d ++ new) /\ (min_tokens d = 0 -> off = zlen (output_text d))
      /\ match r with
         | None => output_text d' = output_text d ++ new
             /\ (min_tokens d < num_output_tokens d' -> Forall (none_after off (output_text d ++ new)) (stop d))
         | Some s => exists i, stop_at d off (output_text d ++ new) s i
             /\ output_text d' = take (Z.to_nat (cut_at (include_stop_str_in_output d) s i)) (output_text d ++ new)
         end
  end.
Proof.
  intros Hok. unfold update. destruct (last new_token_ids) as [last_id|] eqn:Elast.
  2: { apply last_None in Elast as ->. rewrite decoded_nil. cbn [decode_text].
    exists None, d, (zlen (output_text d)). rewrite !app_nil_r. split_and!; try done.
    intros _. apply Forall_forall. intros s _ i Hi. apply occurs_bounds in Hi. lia. }
  unfold gets, id, mbind, M_bind. cbv beta zeta. fold (decoded_ids new_token_ids stop_terminated d). set (skip := stop_terminated && negb (include_stop_str_in_output d)).
  pose proof (decode_loop_spec (decoded_ids new_token_ids stop_terminated d) (zlen (output_text d)) d) as Hloop. change (decode_loop _ _ d) with (decode_loop (if skip then removelast new_token_ids else new_token_ids) (zlen (output_text d)) d) in Hloop.
  destruct (decode_loop _ _ d) as [ [off|e] d1]; [|destruct Hloop as [x ->]; by exists d1].
  destruct Hloop as (new & -> & Htext & Htok & Hsame & Hoff & Hle & Hmin). specialize (Hle ltac:(lia)).
  set (d2 := if skip then push_token last_id d1 else d1).
  assert ((if skip then modify (push_token last_id) else (mret tt : M (Detokenizer D) unit)) d1 = (Ok tt, d2)) as E0 by (unfold d2; by destruct skip).
  unfold mbind, M_bind in E0. rewrite E0. clear E0.
  assert (output_text d2 = output_text d ++ new /\ token_ids d2 = token_ids d ++ new_token_ids /\ same_params d d2
    /\ last_output_text_offset d2 = last_output_text_offset d /\ decoder d2 = decoder d1) as (E1 & E2 & E3 & E4 & E5).
  { assert (token_ids d2 = token_ids d ++ new_token_ids) as E2.
    { unfold d2, decoded_ids in *. fold skip in Htok. destruct skip; cbn [push_token token_ids]; rewrite Htok; [|done]. rewrite <- app_assoc. f_equal.
      apply last_Some in Elast as [l ->]. by rewrite removelast_last. }
    unfold d2 in *. by destruct skip. }
  pose proof (zlen_nonneg (output_text d)). destruct E3 as (P1 & P2 & P3 & P4 & P5).
  destruct (eval_stop_spec off d2) as (r & t & -> & Hr); [rewrite E1, <- Htext; lia|unfold stops_ok; by rewrite P2|].
  exists r, (set_text t d2), off. rewrite <- Htext. split; [done|]. split; [done|]. split; [done|]. split; [done|]. split; [done|]. split; [lia|]. split; [done|].
  rewrite E1, <- Htext in Hr. unfold stop_at in *. rewrite P2, P3, P4 in Hr. destruct r as [s|]; cbn [set_text output_text]; [done|].
  destruct Hr as [-> Hn]. split; [done|]. exact Hn.
Qed.

(** ** Text that was sent *)

(** The characters held back are enough for every stop string. *)
Definition buffer_ok d : Prop :=
  0 <= stop_buffer_length d /\ (include_stop_str_in_output d = false -> Forall (fun s => zlen s - 1 <= stop_buffer_length d) (stop d)).

(** [sent] is what the calls of [get_next_output_text] gave so far. *)
Definition is_sent d (sent : text) : Prop :=
  sent = take (Z.to_nat (last_output_text_offset d)) (output_text d) /\ 0 <= last_output_text_offset d <= zlen (output_text d).
Definition held_back d : Prop := last_output_text_offset d = 0 \/ last_output_text_offset d <= zlen (output_text d) - stop_buffer_length d.

Lemma foldl_max_bound (x : Z) (l : list Z) : x <= foldl Z.max x l /\ forall y, y ∈ l -> y <= foldl Z.max x l.
Proof.
  revert x. induction l as [|z l IH]; intros x; cbn [foldl]; [split; [lia|by intros y ?%elem_of_nil]|].
  destruct (IH (Z.max x z)) as [H1 H2]. split; [lia|]. intros y [->|Hy]%elem_of_cons; [lia|by apply H2].
Qed.

Lemma detok_init_ok (p : StopParams) ids n (x : D) : stops_ok (init p ids n x) ->
  buffer_ok (init p ids n x) /\ is_sent (init p ids n x) [] /\ held_back (init p ids n x).
Proof.
  intros Hok. split; [|split; [by split|by left] ]. unfold buffer_ok, stops_ok in *. cbn [init stop stop_buffer_length include_stop_str_in_output] in *.
  set (l := match p_stop p with NoStop => [] | OneStop s => [s] | Stops l => l end) in *. destruct l as [|s rest]; [by split|].
  destruct (p_include_stop_str_in_output p); [by split|]. destruct (foldl_max_bound (zlen s) (zlen <$> rest)) as [H1 H2].
  apply Forall_cons in Hok as [Hs _]. destruct s as [|x0 s]; [done|]. rewrite zlen_cons in *. pose proof (zlen_nonneg s). split; [lia|].
  intros _. constructor; [rewrite zlen_cons; lia|]. apply Forall_forall. intros s' Hs'. assert (zlen s' ∈ zlen <$> rest) as Hin by (apply list_elem_of_fmap; by exists s').
  apply H2 in Hin. lia.
Qed.

Lemma take_sent (off cut : Z) (t new : text) : 0 <= off <= zlen t -> off <= cut ->
  take (Z.to_nat off) (take (Z.to_nat cut) (t ++ new)) = take (Z.to_nat off) t.
Proof. intros Ho Hc. rewrite take_take, take_app_le by (unfold zlen in *; lia). f_equal. lia. Qed.

Lemma update_keeps_sent new_token_ids stop_terminated d r d' sent : update new_token_ids stop_terminated d = (Ok r, d') ->
  stops_ok d -> buffer_ok d -> is_sent d sent -> held_back d ->
  is_sent d' sent /\ stops_ok d' /\ buffer_ok d' /\ (r = None -> held_back d').
Proof.
  intros Hu Hok [Hb0 Hb] [-> Hoff] Hheld. pose proof (update_spec new_token_ids stop_terminated d Hok) as Hspec.
  destruct (decode_text _ _ _) as [ [new|e] x]; [|destruct Hspec as [? Hspec]; congruence].
  destruct Hspec as (r' & d1 & off & Hu' & (S1 & S2 & S3 & S4 & S5) & S6 & _ & _ & Ho & _ & Hr). rewrite Hu in Hu'. injection Hu' as <- <-.
  unfold stops_ok, buffer_ok, is_sent, held_back. rewrite S2, S4, S5, S6. set (o := last_output_text_offset d) in *.
  assert (exists cut, o <= cut /\ output_text d' = take (Z.to_nat cut) (output_text d ++ new) /\ (r = None -> zlen (output_text d) <= zlen (output_text d'))) as (cut & Hcut & Htext & Hlen).
  { rewrite zlen_app in Ho. destruct r as [s|].
    - destruct Hr as (i & (l1 & l2 & El & _ & Hocc & Hend & _) & Ht). exists (cut_at (include_stop_str_in_output d) s i). split; [|split; [done|done] ].
      unfold cut_at. destruct (include_stop_str_in_output d) eqn:Ei; [lia|]. destruct (occurs_bounds _ _ _ Hocc). destruct Hheld as [Hz|Hz]; [fold o in Hz; lia|].
      fold o in Hz. specialize (Hb eq_refl). rewrite Forall_forall in Hb. specialize (Hb s ltac:(rewrite El; apply elem_of_app; right; by left)). cbv beta in Hb. lia.
    - destruct Hr as [Ht _]. exists (zlen (output_text d ++ new)). rewrite zlen_app. split; [lia|]. split; [rewrite Ht, take_ge; [done|unfold zlen; rewrite length_app; lia]|].
      intros _. rewrite Ht, zlen_app. lia. }
  split.
  - rewrite Htext, take_sent by done. split; [done|]. split; [lia|]. unfold zlen. rewrite length_take. rewrite length_app. unfold zlen in Hoff. lia.
  - split; [done|]. split; [done|]. intros Hnone. specialize (Hlen Hnone). destruct Hheld as [Hz|Hz]; [by left|right]. fold o in Hz. lia.
Qed.

(** C25: Stop strings are found exactly. For a request without [min_tokens] whose text contains no stop
    string yet, and any new tokens that the tokenizer can decode: [update] reports a stop string
    if and only if the text with all the new tokens contains one - however the strings
    are split over tokens and steps.  It then reports the first of the listed strings that
    occurs, and the text ends right before (or, if they are to be included, right after) its first
    occurrence; otherwise the text is kept whole.  All the new tokens are
    recorded in both cases.  What was sent of the text stays its beginning: the cut is
    in what was held back. *)
Theorem stop_strings_exact d new_token_ids stop_terminated new x
  (Hmin : min_tokens d = 0) (Hok : stops_ok d) (Hno : no_stop d) (Hlen : prompt_len d <= zlen (token_ids d))
  (Hdec : decode_text (decoded_ids new_token_ids stop_terminated d) (token_ids d) (decoder d) = (Ok new, x)) :
  exists r d', update new_token_ids stop_terminated d = (Ok r, d') /\ token_ids d' = token_ids d ++ new_token_ids /\
    let full := output_text d ++ new in
    match r with
    | None => output_text d' = full /\ no_stop d'
    | Some s => exists l1 l2 i, stop d = l1 ++ s :: l2 /\ Forall (fun s' => forall j, ~ occurs_at s' full j) l1
        /\ first_at s full i /\ output_text d' = take (Z.to_nat (cut_at (include_stop_str_in_output d) s i)) full
    end
    /\ forall sent, buffer_ok d -> is_sent d sent -> held_back d -> is_sent d' sent /\ exists rest, output_text d' = sent ++ rest.
Proof.
  pose proof (update_spec new_token_ids stop_terminated d Hok) as H0. rewrite Hdec in H0.
  destruct H0 as (r & d' & off & Hu & Hsame & _ & _ & Htok & Hoff & Hoff0 & Hr). specialize (Hoff0 Hmin). subst off.
  exists r, d'. split; [done|]. split; [done|]. cbv zeta. split.
  2: { intros sent Hb Hs Hh. destruct (update_keeps_sent _ _ _ _ _ sent Hu Hok Hb Hs Hh) as [Hs' _]. split; [done|]. destruct Hs' as [-> _].
    eexists. symmetry. apply take_drop. }
  set (full := output_text d ++ new) in *.
  assert (forall s, s ∈ stop d -> none_after (zlen (output_text d)) full s -> forall i, ~ occurs_at s full i) as Hnone.
  { intros s Hs Hn i Hi. pose proof (Hn i Hi). unfold full in Hi. apply occurs_app_l in Hi; [|done]. unfold no_stop in Hno. rewrite Forall_forall in Hno. by apply (Hno s Hs i). }
  destruct Hsame as (Hp & Hst & Hm & _). destruct r as [s|].
  - destruct Hr as (i & (l1 & l2 & El & Hl1 & Ho & Hend & Hf) & Ht). exists l1, l2, i. split; [done|]. split; [|split; [split; [done|]|done] ].
    + rewrite Forall_forall in *. intros s' Hs'. apply Hnone; [|by apply Hl1]. rewrite El. apply elem_of_app. by left.
    + intros j Hj. apply Hf; [done|]. destruct (decide (j + zlen s <= zlen (output_text d))) as [Hle|]; [|lia]. exfalso.
      unfold full in Hj. apply occurs_app_l in Hj; [|done]. unfold no_stop in Hno. rewrite Forall_forall in Hno. apply (Hno s) in Hj; [done|].
      rewrite El. apply elem_of_app. right. by left.
  - destruct Hr as [Ht Hn]. split; [done|]. unfold no_stop. rewrite Ht, Hst. rewrite Forall_forall. intros s Hs. apply Hnone; [done|].
    destruct new_token_ids as [|t0 ts].
    + rewrite decoded_nil in Hdec. injection Hdec as <- <-.
      intros i Hi. unfold full in Hi. rewrite app_nil_r in Hi. apply occurs_bounds in Hi. lia.
    + assert (min_tokens d < num_output_tokens d') as Hnum.
      { unfold num_output_tokens. rewrite Htok, Hp, zlen_app, zlen_cons. pose proof (zlen_nonneg ts). lia. }
      specialize (Hn Hnum). rewrite Forall_forall in Hn. by apply Hn.
Qed.

Lemma next_text_sent finished d sent : buffer_ok d -> is_sent d sent -> (finished = false -> held_back d) ->
  exists t d', get_next_output_text finished true d = (Ok t, d') /\ is_sent d' (sent ++ t) /\ same_params d d'
    /\ output_text d' = output_text d /\ token_ids d' = token_ids d /\ decoder d' = decoder d
    /\ if finished then sent ++ t = output_text d else held_back d'.
Proof.
  intros [Hb0 _] [-> Hoff] Hheld. unfold get_next_output_text, gets, id, mbind, M_bind. cbn [negb].
  set (buffer := if finished then 0 else stop_buffer_length d). set (len := zlen (output_text d) - buffer). set (o := last_output_text_offset d) in *.
  assert (0 <= buffer) as Hbuf by (unfold buffer; destruct finished; lia).
  destruct (Z.ltb_spec o len) as [Hlt|Hge].
  - unfold modify, mret, M_ret. exists (py_slice (output_text d) o len), (set_offset len d).
    rewrite py_slice_nonneg by (unfold len; lia).
    assert (take (Z.to_nat o) (output_text d) ++ take (Z.to_nat (len - o)) (drop (Z.to_nat o) (output_text d)) = take (Z.to_nat len) (output_text d)) as ->.
    { replace (Z.to_nat len) with (Z.to_nat o + Z.to_nat (len - o))%nat by lia. apply take_take_drop. }
    split; [done|]. split; [split; [done|cbn [set_offset last_output_text_offset output_text]; unfold len; lia]|]. do 4 (split; [done|]).
    destruct finished; [|right; cbn [set_offset last_output_text_offset output_text stop_buffer_length]; unfold len, buffer; lia].
    rewrite take_ge; [done|]. unfold len, buffer, zlen. lia.
  - unfold mret, M_ret. exists [], d. rewrite app_nil_r. split; [done|]. split; [by split|]. do 4 (split; [done|]).
    destruct finished; [|by apply Hheld]. rewrite take_ge; [done|]. unfold len, buffer, zlen in *. lia.
Qed.
End update.

(** ** The slow detokenizer *)

(** A tokenizer that decodes the bytes of its tokens: where the text so far is complete,
    the text of more tokens is added to it.  An incomplete character at the end is shown
    as the replacement character. *)
Class ByteDecoding (conv : list text -> text) : Prop := {
  conv_nil : conv [] = [];
  conv_app : forall a b, last (conv a) ≠ Some REPLACEMENT -> conv (a ++ b) = conv a ++ conv b;
}.

Section slow.
Context {T : Type} `{TokenizerLike T}.
Implicit Types s : Slow T.

Definition conv s (l : list text) : text := tokens_text (tokenizer s) l (slow_skip_special_tokens s) (slow_spaces_between s).
Definition complete (t : text) : Prop := last t ≠ Some REPLACEMENT.

(** The strings of one token: what the tokenizer has for its id, with the empty string where
    it has none; an id outside of the vocabulary is an empty string. *)
Definition strings_of s (t : Z) : list text :=
  if decide (0 <= t < tok_len (tokenizer s))
  then default [] <$> convert_ids_to_tokens (tokenizer s) [t] (slow_skip_special_tokens s) else [ [] ].

(** Some tokens were read since [start], and [out] is their text. *)
Record slow_ok s (start : Z) (out : text) : Prop := {
  sl_offsets : 0 <= prefix_offset s <= read_offset s /\ 0 <= start <= read_offset s /\ read_offset s <= zlen (tokens s);
  sl_out : out = conv s (py_slice (tokens s) start (read_offset s));
  sl_complete : complete out;
  sl_prefix : complete (conv s (py_slice (tokens s) (prefix_offset s) (read_offset s)));
  sl_pending : conv s (py_from (tokens s) (read_offset s)) = [] \/ ~ complete (conv s (py_from (tokens s) (read_offset s)));
}.

Lemma slice_from {A} (l : list A) a b : 0 <= a <= b -> b <= zlen l -> py_from l a = py_slice l a b ++ py_from l b.
Proof.
  intros H1 H2. rewrite !py_from_nonneg, py_slice_nonneg by lia. rewrite <- (take_drop (Z.to_nat (b - a)) (drop (Z.to_nat a) l)) at 1.
  f_equal. rewrite drop_drop. f_equal. lia.
Qed.

Lemma slice_app {A} (l l' : list A) a b : 0 <= a <= b -> b <= zlen l -> py_slice (l ++ l') a b = py_slice l a b.
Proof.
  intros H1 H2. rewrite !py_slice_nonneg by (rewrite ?zlen_app; pose proof (zlen_nonneg l'); lia).
  unfold zlen in *. rewrite drop_app_le by lia. rewrite take_app_le; [done|rewrite length_drop; lia].
Qed.

Lemma slice_all {A} (l : list A) a : 0 <= a <= zlen l -> py_slice l a (zlen l) = py_from l a.
Proof. intros Ha. rewrite (slice_from l a (zlen l)) by lia. rewrite (py_from_nonneg l (zlen l)), drop_ge, app_nil_r; [done|unfold zlen; lia|unfold zlen; lia]. Qed.

Lemma last_app_ne {A} (l1 l2 : list A) : l2 ≠ [] -> last (l1 ++ l2) = last l2.
Proof. intros Hne. destruct l2 as [|x l2] using rev_ind; [done|]. by rewrite app_assoc, !last_snoc. Qed.

Lemma slow_ok_intro s start out toks p r : 0 <= p <= r -> 0 <= start <= r -> r <= zlen toks -> out = conv s (py_slice toks start r) -> complete out ->
  complete (conv s (py_slice toks p r)) -> (conv s (py_from toks r) = [] \/ ~ complete (conv s (py_from toks r))) ->
  slow_ok {| s with tokens := toks; prefix_offset := p; read_offset := r |} start out.
Proof. intros H1 H2 H3 H4 H5 H6 H7. split; [cbn; lia|exact H4|exact H5|exact H6|exact H7]. Qed.

Lemma strings_of_code s t : strings_of s t =
  if (0 <=? t) && (t <? tok_len (tokenizer s)) then replace_none_with_empty (convert_ids_to_tokens (tokenizer s) [t] (slow_skip_special_tokens s)) else [ [] ].
Proof.
  unfold strings_of. destruct (Z.leb_spec 0 t), (Z.ltb_spec t (tok_len (tokenizer s))); cbn [andb]; case_decide; try lia; done.
Qed.

Lemma slow_step s start out all_ids t : ByteDecoding (conv s) -> slow_ok s start out ->
  exists new s', decode_next (all_ids ++ [t]) t s = (Ok new, s') /\ slow_ok s' start (out ++ new)
    /\ conv s' = conv s /\ strings_of s' = strings_of s /\ tokens s' = tokens s ++ strings_of s t.
Proof.
  intros Hconv [ (Hp & Hst & Hr) Hout Hc Hpre Hpend]. rewrite strings_of_code.
  set (extra := if (0 <=? t) && (t <? tok_len (tokenizer s)) then replace_none_with_empty (convert_ids_to_tokens (tokenizer s) [t] (slow_skip_special_tokens s)) else [ [] ]).
  set (toks := tokens s ++ extra). set (p := prefix_offset s) in *. set (r := read_offset s) in *.
  assert (zlen (tokens s) <= zlen toks) as Hlt by (unfold toks; rewrite zlen_app; pose proof (zlen_nonneg extra); lia).
  assert (py_slice toks p r = py_slice (tokens s) p r) as Epr by (apply slice_app; lia).
  assert (py_slice toks start r = py_slice (tokens s) start r) as Esr by (apply slice_app; lia).
  assert (conv s (py_from toks p) = conv s (py_slice (tokens s) p r) ++ conv s (py_from toks r)) as Enew.
  { rewrite (slice_from toks p r) by lia. rewrite Epr. by apply conv_app. }
  assert (forall new q1 q2, (if (zlen (conv s (py_from toks p)) <=? zlen (conv s (py_slice toks p r))) || bool_decide (last (conv s (py_from toks p)) = Some REPLACEMENT)
      then ([], p, r) else (py_from (conv s (py_from toks p)) (zlen (conv s (py_slice toks p r))), r, zlen toks)) = (new, q1, q2) ->
      slow_ok {| s with tokens := toks; prefix_offset := q1; read_offset := q2 |} start (out ++ new)) as Hnew.
  { intros new q1 q2. rewrite Epr. destruct (_ || _) eqn:E; intros [= <- <- <-].
    - rewrite app_nil_r. apply slow_ok_intro; [lia|lia|lia|by rewrite Esr|done|by rewrite Epr|].
      apply orb_true_iff in E as [E|E].
      + left. rewrite Enew, zlen_app in E. destruct (conv s (py_from toks r)) as [|x l]; [done|]. rewrite zlen_cons in E. pose proof (zlen_nonneg l). lia.
      + apply bool_decide_eq_true in E. rewrite Enew in E. destruct (conv s (py_from toks r)) as [|x l] eqn:El; [by left|right]. rewrite last_app_ne in E by done. intros Hx. by apply Hx.
    - apply orb_false_iff in E as [E1 E2]. apply bool_decide_eq_false in E2. set (pre := conv s (py_slice (tokens s) p r)) in *. set (suf := conv s (py_from toks r)) in *.
      assert (suf ≠ []) as Hne. { intros Es. rewrite Enew, Es, app_nil_r in E1. lia. }
      assert (py_from (pre ++ suf) (zlen pre) = suf) as Hsub.
      { rewrite py_from_nonneg by apply zlen_nonneg. unfold zlen. by rewrite Nat2Z.id, drop_app_length. }
      assert (complete suf) as Hsuf. { unfold complete. rewrite Enew, last_app_ne in E2; done. }
      assert (out ++ suf = conv s (py_slice toks start (zlen toks))) as Hall.
      { rewrite slice_all by lia. rewrite (slice_from toks start r) by lia. rewrite Esr, conv_app by (by rewrite <- Hout). by rewrite <- Hout. }
      rewrite Enew. fold pre. fold suf. rewrite Hsub. apply slow_ok_intro; [lia|lia|lia|done|unfold complete; by rewrite last_app_ne|by rewrite slice_all by lia|].
      left. rewrite py_from_nonneg, drop_ge by (unfold zlen; lia). apply conv_nil. }
  unfold decode_next, slow_decoder, gets, id, modify, lift_res, mbind, M_bind. unfold detokenize_incrementally.
  rewrite (py_get_last _ t) by (apply last_snoc). cbn [mbind res_bind]. fold extra. fold toks. fold (conv s). fold p. fold r.
  destruct (_ || _) eqn:E.
  - eexists _, _. split; [reflexivity|]. split; [by apply Hnew|]. by split_and!.
  - eexists _, _. split; [reflexivity|]. split; [by apply Hnew|]. by split_and!.
Qed.

Lemma slow_run start new_ids s all_ids out : ByteDecoding (conv s) -> slow_ok s start out ->
  exists t s', decode_text new_ids all_ids s = (Ok t, s') /\ slow_ok s' start (out ++ t)
    /\ conv s' = conv s /\ strings_of s' = strings_of s /\ tokens s' = tokens s ++ (new_ids ≫= strings_of s).
Proof.
  revert s all_ids out. induction new_ids as [|i ids IH]; intros s all_ids out Hconv Hok; cbn [decode_text].
  - exists [], s. cbn [mbind list_bind]. rewrite !app_nil_r. by split_and!.
  - destruct (slow_step s start out all_ids i Hconv Hok) as (new & s1 & E & Hok1 & Ec1 & Es1 & Et1).
    destruct (IH s1 (all_ids ++ [i]) (out ++ new)) as (t & s' & Et & Hok' & Ec & Es & Ex); [by rewrite Ec1|done|].
    exists (new ++ t), s'. unfold mbind, M_bind. rewrite E, Et. rewrite app_assoc. split; [done|]. split; [done|]. split; [congruence|].
    split; [congruence|]. by rewrite bind_cons, Ex, Et1, Es1, app_assoc.
Qed.

Lemma decode_text_app a b all_ids s : decode_text (a ++ b) all_ids s =
  match decode_text a all_ids s with
  | (Ok t, s1) => match decode_text b (all_ids ++ a) s1 with (Ok t', s') => (Ok (t ++ t'), s') | (Raise e, s') => (Raise e, s') end
  | (Raise e, s1) => (Raise e, s1)
  end.
Proof.
  revert all_ids s. induction a as [|x a IH]; intros all_ids s; cbn [app decode_text].
  - unfold mret, M_ret. rewrite app_nil_r. by destruct (decode_text b all_ids s) as [ []].
  - unfold mbind, M_bind. destruct (decode_next (all_ids ++ [x]) x s) as [ [t|e] s1]; [|done]. rewrite IH.
    destruct (decode_text a (all_ids ++ [x]) s1) as [ [t1|e] s2]; [|done]. unfold mret, M_ret. rewrite <- app_assoc. cbn [app].
    destruct (decode_text b (all_ids ++ x :: a) s2) as [ [t2|e] s3]; [by rewrite <- app_assoc|done].
Qed.

(** The text so far is complete: nothing is held back. *)
Record settled s : Prop := {
  set_offsets : 0 <= prefix_offset s <= read_offset s;
  set_read : read_offset s = zlen (tokens s);
  set_complete : complete (conv s (py_from (tokens s) (prefix_offset s)));
}.

Lemma slow_text s new_ids all_ids (extra := new_ids ≫= strings_of s) : ByteDecoding (conv s) -> settled s ->
  exists t s' n, decode_text new_ids all_ids s = (Ok t, s') /\ tokens s' = tokens s ++ extra
    /\ t = conv s (take n extra) /\ (conv s (drop n extra) = [] \/ ~ complete (conv s (drop n extra)))
    /\ (complete (conv s extra) -> t = conv s extra).
Proof.
  intros Hconv [Hoff Hread Hcomplete]. assert (slow_ok s (read_offset s) []) as Hok.
  { split; [lia| |done| |].
    - rewrite Hread, slice_all, py_from_nonneg, drop_ge by (unfold zlen; lia). symmetry. apply conv_nil.
    - by rewrite Hread, slice_all by lia.
    - left. rewrite Hread, py_from_nonneg, drop_ge by (unfold zlen; lia). apply conv_nil. }
  destruct (slow_run (read_offset s) new_ids s all_ids [] Hconv Hok) as (t & s' & Et & [ (Hp & Hst & Hr) Hout Hc Hpre Hpend] & Ec & _ & Ex).
  fold extra in Ex. cbn [app] in *. rewrite Ec, Ex in *. set (n := Z.to_nat (read_offset s' - read_offset s)).
  assert (py_slice (tokens s ++ extra) (read_offset s) (read_offset s') = take n extra) as E1.
  { rewrite py_slice_nonneg by lia. rewrite Hread. unfold n, zlen. rewrite Nat2Z.id, drop_app_length. f_equal. unfold zlen in Hread. lia. }
  assert (py_from (tokens s ++ extra) (read_offset s') = drop n extra) as E2.
  { rewrite py_from_nonneg by lia. unfold n, zlen in *. replace (Z.to_nat (read_offset s')) with (length (tokens s) + Z.to_nat (read_offset s' - read_offset s))%nat by lia.
    by rewrite drop_app_add'  by done || rewrite drop_app_add. }
  rewrite E1 in Hout. rewrite E2 in Hpend. exists t, s', n. split_and!; [done..|]. intros Hcomp.
  rewrite <- (take_drop n extra), conv_app, <- Hout in Hcomp by (rewrite <- Hout; exact Hc).
  rewrite <- (take_drop n extra), conv_app, <- Hout by (rewrite <- Hout; exact Hc).
  destruct Hpend as [->|Hn]; [by rewrite app_nil_r|]. destruct (conv s (drop n extra)) as [|x l] eqn:El; [by rewrite app_nil_r|].
  exfalso. apply Hn. unfold complete in *. by rewrite last_app_ne in Hcomp.
Qed.

(** C26: Incremental detokenization equals decoding at once. For a tokenizer that decodes bytes, when
    nothing is held back so far, any new tokens are turned into text without failure, and
    the strings of exactly these tokens are recorded. What the steps give together is the text of
    the first [n] strings, decoded at once; the text of the rest, which is held back, is empty or
    ends in an incomplete character; and nothing is held back longer than that: wherever the text of the
    first [m] of the new tokens is complete, it was given out. *)
Theorem slow_detokenizer_exact s new_ids all_ids (Hconv : ByteDecoding (conv s)) (Hset : settled s) :
  let strings := new_ids ≫= strings_of s in
  exists t s' n, decode_text new_ids all_ids s = (Ok t, s') /\ tokens s' = tokens s ++ strings
    /\ t = conv s (take n strings) /\ (conv s (drop n strings) = [] \/ ~ complete (conv s (drop n strings)))
    /\ (complete (conv s strings) -> t = conv s strings)
    /\ forall m, complete (conv s (take m new_ids ≫= strings_of s)) ->
         exists s1 rest, decode_text (take m new_ids) all_ids s = (Ok (conv s (take m new_ids ≫= strings_of s)), s1)
           /\ t = conv s (take m new_ids ≫= strings_of s) ++ rest.
Proof.
  intros strings. destruct (slow_text s new_ids all_ids Hconv Hset) as (t & s' & n & Et & Ex & Etext & Hrest & Hall).
  exists t, s', n. split_and!; [done..|]. intros m Hm. destruct (slow_text s (take m new_ids) all_ids Hconv Hset) as (t1 & s1 & _ & Et1 & _ & _ & _ & Hall1).
  specialize (Hall1 Hm). subst t1. exists s1. pose proof Et as Hsplit. rewrite <- (take_drop m new_ids), decode_text_app, Et1 in Hsplit.
  destruct (decode_text (drop m new_ids) _ s1) as [ [t2|e] s2]; [|done]. injection Hsplit as <- <-. by exists t2.
Qed.
End slow.

(** ** Examples *)

(** A tokenizer of bytes in which 200 and 201 are the halves of the character 233. *)
Fixpoint decode_halves (l : list Z) : text :=
  match l with
  | [] => []
  | x :: rest =>
      if x =? 200 then match rest with
        | y :: rest' => if y =? 201 then 233 :: decode_halves rest' else REPLACEMENT :: decode_halves rest
        | [] => [REPLACEMENT]
        end
      else x :: decode_halves rest
  end.

#[local] Instance halves_tokenizer : TokenizerLike unit := {
  tok_len _ := 256; tok_is_fast _ := true; get_added_vocab _ := []; all_special_tokens _ := [];
  convert_ids_to_tokens _ ids _ := (fun i => Some [i]) <$> ids;
  convert_tokens_to_string _ l := decode_halves (concat l);
}.

Lemma decode_halves_app a b : last (decode_halves a) ≠ Some REPLACEMENT -> decode_halves (a ++ b) = decode_halves a ++ decode_halves b.
Proof.
  revert b. induction a as [a IH] using (induction_ltof1 _ (@length Z)). unfold ltof in IH. intros b Hl. destruct a as [|x a]; [done|]. cbn [app].
  assert (forall y l, last (y :: decode_halves l) ≠ Some REPLACEMENT -> last (decode_halves l) ≠ Some REPLACEMENT) as Hlast.
  { intros y l Hy. destruct (decode_halves l); [done|done]. }
  cbn [decode_halves] in *. destruct (x =? 200).
  - destruct a as [|y a]; [done|]. cbn [app]. destruct (y =? 201).
    + rewrite IH; [done|simpl; lia|by eapply Hlast].
    + change (y :: a ++ b) with ((y :: a) ++ b). rewrite IH; [done|simpl; lia|by eapply Hlast].
  - rewrite IH; [done|simpl; lia|by eapply Hlast].
Qed.

Definition demo_slow : Slow unit :=
  {| tokenizer := tt; tokens := [ [104]; [105] ]; prefix_offset := 0; read_offset := 2; slow_skip_special_tokens := true; slow_spaces_between := true |}.

#[local] Instance demo_decoding : ByteDecoding (conv demo_slow).
Proof. split; [done|]. intros a b. unfold conv, tokens_text. cbn. rewrite concat_app. apply decode_halves_app. Qed.

Lemma demo_settled : settled demo_slow.
Proof. by split. Qed.

(** The first half of a character gives no text, the second one the character; the text of
    the first token was given out at once. *)
Lemma slow_detokenizer_exact_witness :
  (decode_text [99; 200] [] demo_slow).1 = Ok [99] /\ (decode_text [99; 200; 201] [] demo_slow).1 = Ok [99; 233]
  /\ exists t s' n, decode_text [99; 200; 201] [] demo_slow = (Ok t, s') /\ tokens s' = [ [104]; [105]; [99]; [200]; [201] ]
       /\ t = conv demo_slow (take n [ [99]; [200]; [201] ]) /\ exists rest, t = [99] ++ rest.
Proof.
  split; [reflexivity|]. split; [reflexivity|].
  destruct (slow_detokenizer_exact demo_slow [99; 200; 201] [] demo_decoding demo_settled) as (t & s' & n & H1 & H2 & H3 & _ & _ & H4).
  exists t, s', n. split; [exact H1|]. split; [exact H2|]. split; [exact H3|]. destruct (H4 1%nat) as (s1 & rest & _ & E); [by vm_compute|]. by exists rest.
Defined.

(** A request that stops at the text 33 34, which is split over two tokens. *)
Definition demo_detok : Detokenizer (Slow unit) :=
  init {| p_stop := Stops [ [33; 34]; [99] ]; p_min_tokens := 0; p_include_stop_str_in_output := false; skip_special_tokens := true; spaces_between_special_tokens := true |}
    [] 0 demo_slow.

(** After the first two characters one of them was sent, the other is held back; then the
    stop string is completed, and what was sent stays. *)
Lemma stop_strings_exact_witness :
  exists d1, update [97; 33] false demo_detok = (Ok None, d1) /\ exists d2, get_next_output_text false true d1 = (Ok [97], d2)
  /\ exists r d', update [34; 98] false d2 = (Ok r, d') /\ r = Some [33; 34] /\ output_text d' = [97] /\ is_sent d' [97].
Proof.
  set (d1 := (update [97; 33] false demo_detok).2). exists d1. split; [reflexivity|].
  set (d2 := (get_next_output_text false true d1).2). exists d2. split; [reflexivity|].
  destruct (stop_strings_exact d2 [34; 98] false [34; 98] (decode_text [34; 98] (token_ids d2) (decoder d2)).2) as (r & d' & Hu & _ & _ & Hsent).
  - reflexivity.
  - apply Forall_cons_2; [done|]. by apply Forall_cons_2.
  - assert (forall sub i, occurs_at sub [97; 33] i -> sub ∈ [ [33; 34]; [99] ] -> False) as Hno.
    { intros sub i (a & b & E & _) Hs. rewrite !elem_of_cons, elem_of_nil in Hs. destruct Hs as [->|[->|[] ] ]; destruct a as [|? [|? [|? a] ] ]; discriminate E. }
    apply Forall_forall. intros sub Hs i Hi. exact (Hno sub i Hi Hs).
  - vm_compute. discriminate.
  - vm_compute. reflexivity.
  - destruct (Hsent [97]) as [Hs' _].
    + split; [vm_compute; discriminate|]. intros _. apply Forall_cons_2; [vm_compute; discriminate|]. apply Forall_cons_2; [vm_compute; discriminate|constructor].
    + split; [vm_compute; reflexivity|split; vm_compute; discriminate].
    + right. vm_compute. discriminate.
    + exists r, d'. split; [exact Hu|]. clear Hsent. vm_compute in Hu. injection Hu as <- <-. done.
Defined.

End DetokFacts.
