(* ===== verification/OutputProcessor.v ===== *)
(** From engine outputs to the answers of the clients: [v1/engine/output_processor.py],
    [v1/engine/parallel_sampling.py] and the merging of outputs of [outputs.py].

    Request states refer to the parent of a parallel-sampling request and to the
    queue of their client; both are shared objects, kept in heaps under references.
    Log probabilities, LoRA, statistics, tracing, the parameters of KV transfer and routed experts
    are left out; of a pooling output only its presence is kept. *)

From stdpp Require Import pretty.
From S2P Require Import Prelude Request Scheduler Detokenizer.
Local Open Scope Z_scope.

(** ** Outputs: [outputs.py] *)

Inductive StopReason := EngineReason (r : Z + string) | StopString (s : Detok.text).
Inductive RequestOutputKind := CUMULATIVE | DELTA | FINAL_ONLY.
#[export] Instance RequestOutputKind_eq_dec : EqDecision RequestOutputKind.
Proof. solve_decision. Defined.

#[export] Instance FinishReason_eq_dec : EqDecision FinishReason.
Proof. solve_decision. Defined.

Record CompletionOutput := {
  co_index : Z;
  co_text : Detok.text;
  co_token_ids : list Z;
  co_finish_reason : option FinishReason;
  co_stop_reason : option StopReason;
}.
Definition co_finished (c : CompletionOutput) : bool := bool_decide (is_Some (co_finish_reason c)).

(** An entry of [outputs] is [None] when a place of the aggregator was never filled. *)
Record RequestOutput := {
  ro_request_id : string;
  ro_prompt : option Detok.text;
  ro_prompt_token_ids : option (list Z);
  ro_outputs : list (option CompletionOutput);
  ro_finished : bool;
  ro_num_cached_tokens : option Z;
}.

Definition STREAM_FINISHED : RequestOutput :=
  {| ro_request_id := ""; ro_prompt := None; ro_prompt_token_ids := None; ro_outputs := []; ro_finished := true; ro_num_cached_tokens := None |}.

(** The data of an output: the engine's tensor or the placeholder of an abort. *)
Inductive PoolingData := PooledTensor | EMPTY_CPU_TENSOR.
Record PoolingRequestOutput := {
  po_request_id : string;
  po_data : PoolingData;
  po_num_cached_tokens : Z;
  po_prompt_token_ids : list Z;
  po_finished : bool;
}.

Inductive Output := Completion (o : RequestOutput) | Pooled (o : PoolingRequestOutput).

Module Outputs.

(** Merging two outputs with the same index. *)
Definition merge_completion (c next : CompletionOutput) : CompletionOutput :=
  {| co_index := co_index c; co_text := co_text c ++ co_text next; co_token_ids := co_token_ids c ++ co_token_ids next;
     co_finish_reason := co_finish_reason next; co_stop_reason := co_stop_reason next |}.

(** The inner loop of [RequestOutput.add]. *)
Fixpoint add_completion (aggregate : bool) (next : CompletionOutput) (outputs : list (option CompletionOutput)) : res (list (option CompletionOutput)) :=
  match outputs with
  | [] => Ok [Some next]
  | None :: _ => Raise AttributeError
  | Some c :: rest =>
      if co_index c =? co_index next then Ok (Some (if aggregate then merge_completion c next else next) :: rest)
      else rest ← add_completion aggregate next rest; Ok (Some c :: rest)
  end.

(** [RequestOutput.add] *)
Definition add (next : RequestOutput) (aggregate : bool) : M RequestOutput unit :=
  modify (fun o => {| o with ro_finished := ro_finished o || ro_finished next |}) ;;
  mfor (ro_outputs next) (fun next_completion =>
    o ← gets id;
    outputs ← lift_res match next_completion, ro_outputs o with
      | Some next, outputs => add_completion aggregate next outputs
      | None, [] => Ok [None]
      | None, _ => Raise AttributeError
      end;
    modify (fun o => {| o with ro_outputs := outputs |})).

End Outputs.

(** ** The queue between the processor and a client *)

Record RequestOutputCollector := {
  aggregate : bool;
  collector_request_id : string;
  collected : option (Output + exc);
  ready : bool;
}.

Module Collector.

Definition init (kind : RequestOutputKind) (request_id : string) : RequestOutputCollector :=
  {| aggregate := bool_decide (kind = DELTA); collector_request_id := request_id; collected := None; ready := false |}.

(** [put] *)
Definition put (output : Output + exc) : M RequestOutputCollector unit := fun q =>
  match collected q, output with
  | None, _ | _, inr _ => (Ok tt, {| q with collected := Some output; ready := true |})
  | Some (inl (Completion o)), inl (Completion next) =>
      let '(r, o) := Outputs.add next (aggregate q) o in (r, {| q with collected := Some (inl (Completion o)) |})
  | Some (inl (Pooled _)), inl (Pooled _) => (Ok tt, {| q with collected := Some output |})
  | Some _, inl _ => (Ok tt, q)
  end.

(** [get_nowait] *)
Definition get_nowait : M RequestOutputCollector (option Output) := fun q =>
  match collected q with
  | None => (Ok None, q)
  | Some o =>
      let q := {| q with collected := None; ready := false |} in
      match o with inl o => (Ok (Some o), q) | inr e => (Raise e, q) end
  end.

(** [get]: [None] while it waits. *)
Definition get (q : RequestOutputCollector) : option (res Output * RequestOutputCollector) :=
  match collected q with
  | None => None
  | Some o => Some (match o with inl o => Ok o | inr e => Raise e end, {| q with collected := None; ready := false |})
  end.

End Collector.

(** ** Parallel sampling *)

(** The sampling parameters of a child that differ between children. *)
Record ChildParams := { child_n : Z; child_seed : option Z }.

(** [child_requests] is a set, here in order of insertion. *)
Record ParentRequest := {
  pr_request_id : string;
  pr_external_req_id : string;
  pr_n : Z;
  pr_seed : option Z;
  pr_output_kind : RequestOutputKind;
  child_requests : list string;
  output_aggregator : list (option CompletionOutput);
  max_num_generation_tokens : Z;
  cached_child_sampling_params : option ChildParams;
}.

Module Parent.

Definition init (request_id external_req_id : string) (n : Z) (seed : option Z) (kind : RequestOutputKind) : ParentRequest :=
  {| pr_request_id := request_id; pr_external_req_id := external_req_id; pr_n := n; pr_seed := seed; pr_output_kind := kind;
     child_requests := []; output_aggregator := if decide (kind = FINAL_ONLY) then replicate (Z.to_nat n) None else [];
     max_num_generation_tokens := 0; cached_child_sampling_params := None |}.

(** [_get_child_sampling_params] *)
Definition get_child_sampling_params (index : Z) : M ParentRequest ChildParams := fun p =>
  match cached_child_sampling_params p, pr_seed p with
  | Some c, _ => (Ok c, p)
  | None, None => let c := {| child_n := 1; child_seed := None |} in (Ok c, {| p with cached_child_sampling_params := Some c |})
  | None, Some seed => (Ok {| child_n := 1; child_seed := Some (seed + index) |}, p)
  end.

Definition child_id (index : Z) (request_id : string) : string := pretty index +:+ "_" +:+ request_id.

Definition set_children (l : list string) (p : ParentRequest) : ParentRequest := {| p with child_requests := l |}.

(** [get_child_info] *)
Definition get_child_info (index : Z) : M ParentRequest (string * ChildParams) :=
  p ← gets id;
  let child_req_id := child_id index (pr_request_id p) in
  modify (fun p => set_children (if bool_decide (child_req_id ∈ child_requests p) then child_requests p else child_requests p ++ [child_req_id]) p) ;;
  params ← get_child_sampling_params index;
  mret (child_req_id, params).

(** [get_outputs] *)
Definition get_outputs (child_request_id : string) (output : CompletionOutput) : M ParentRequest (list (option CompletionOutput) * bool) :=
  p ← gets id;
  let known := bool_decide (child_request_id ∈ child_requests p) in
  (if co_finished output && known then modify (fun p => set_children (filter (fun c => c ≠ child_request_id) (child_requests p)) p) else mret tt) ;;
  let already_finished_and_returned := co_finished output && negb known in
  p ← gets id;
  let running := negb (bool_decide (child_requests p = [])) in
  if negb (bool_decide (pr_output_kind p = FINAL_ONLY)) then
    mret (if already_finished_and_returned then [] else [Some output], negb running)
  else
    agg ← lift_res (py_set (output_aggregator p) (co_index output) (Some output));
    modify (fun p => {| p with output_aggregator := agg |}) ;;
    mret (if running then [] else agg, negb running).

(** [observe_num_generation_tokens] *)
Definition observe_num_generation_tokens (n : Z) : M ParentRequest Z := fun p =>
  let m := Z.max n (max_num_generation_tokens p) in (Ok m, {| p with max_num_generation_tokens := m |}).

End Parent.

(** ** The state of a request *)

Record StreamingUpdate := { su_prompt : option Detok.text; su_prompt_token_ids : option (list Z); su_final : bool }.

Record RequestState (D : Type) := {
  rs_request_id : string;
  rs_external_req_id : string;
  parent_req : option nat;
  request_index : Z;
  output_kind : RequestOutputKind;
  rs_prompt : option Detok.text;
  rs_prompt_token_ids : option (list Z);
  rs_prompt_embeds_len : option Z;
  rs_prompt_len : Z;
  detokenizer : option (Detok.IncrementalDetokenizer D);
  rs_is_prefilling : bool;
  rs_queue : option nat;
  rs_num_cached_tokens : Z;
  rs_stream_interval : Z;
  sent_tokens_offset : Z;
  streaming_input : bool;
  input_chunk_queue : option (list StreamingUpdate);
}.
Arguments rs_request_id {D}. Arguments rs_external_req_id {D}. Arguments parent_req {D}. Arguments request_index {D}.
Arguments output_kind {D}. Arguments rs_prompt {D}. Arguments rs_prompt_token_ids {D}. Arguments rs_prompt_embeds_len {D}.
Arguments rs_prompt_len {D}. Arguments detokenizer {D}. Arguments rs_is_prefilling {D}. Arguments rs_queue {D}.
Arguments rs_num_cached_tokens {D}. Arguments rs_stream_interval {D}. Arguments sent_tokens_offset {D}.
Arguments streaming_input {D}. Arguments input_chunk_queue {D}.

(** [OutputProcessor], and the heaps of the parents and queues. *)
Record OutputProcessor (D Tok : Type) := {
  op_tokenizer : option Tok;
  op_stream_interval : Z;
  request_states : list (string * RequestState D);
  parent_requests : list (string * nat);
  external_req_ids : list (string * list string);
  parents : gmap nat ParentRequest;
  queues : gmap nat RequestOutputCollector;
}.
Arguments op_tokenizer {D Tok}. Arguments op_stream_interval {D Tok}. Arguments request_states {D Tok}.
Arguments parent_requests {D Tok}. Arguments external_req_ids {D Tok}. Arguments parents {D Tok}. Arguments queues {D Tok}.

(** The fields of [EngineCoreRequest] that are read. *)
Inductive RequestParams :=
  | SamplingParams (kind : RequestOutputKind) (detokenize : bool) (stop : Detok.StopParams)
  | PoolingParams (kind : RequestOutputKind).
Record EngineCoreRequest := {
  er_request_id : string;
  er_external_req_id : option string;
  er_prompt_token_ids : option (list Z);
  er_prompt_embeds_len : option Z;
  er_params : RequestParams;
  er_resumable : bool;
}.

(** The detokenizer that a tokenizer gives a request: its prompt and the length of the prompt. *)
Class MakesDetokenizer (Tok D : Type) := make_detokenizer : Tok -> Detok.StopParams -> option (list Z) -> Z -> Detok.Detokenizer D.

(** [length_from_prompt_token_ids_or_embeds] of [utils]. *)
Definition prompt_length (ids : option (list Z)) (embeds_len : option Z) : res Z :=
  match ids, embeds_len with
  | None, None => Raise ValueError
  | None, Some n => Ok n
  | Some l, None => Ok (zlen l)
  | Some l, Some n => if n =? zlen l then Ok n else Raise ValueError
  end.

Module Process.
Section process.
Context {D Tok : Type} `{Detok.Decoder D} `{MakesDetokenizer Tok D}.
Abbreviation OP := (OutputProcessor D Tok).
Abbreviation RS := (RequestState D).

Definition init (tokenizer : option Tok) (stream_interval : Z) : OP :=
  {| op_tokenizer := tokenizer; op_stream_interval := stream_interval; request_states := []; parent_requests := [];
     external_req_ids := []; parents := ∅; queues := ∅ |}.

Definition get_num_unfinished_requests (op : OP) : Z := zlen (request_states op).
Definition has_unfinished_requests (op : OP) : bool := 0 <? zlen (request_states op).

(** *** Shared objects *)

Definition on_parent {A} (r : nat) (c : M ParentRequest A) : M OP A := fun op =>
  match parents op !! r with
  | None => (Raise AttributeError, op)
  | Some p => let '(a, p) := c p in (a, {| op with parents := <[r := p]> (parents op) |})
  end.

Definition put_output (r : nat) (o : Output + exc) : M OP unit := fun op =>
  match queues op !! r with
  | None => (Raise AttributeError, op)
  | Some q => let '(a, q) := Collector.put o q in (a, {| op with queues := <[r := q]> (queues op) |})
  end.

(** The request state that is the object of the code, beside the processor. *)
Definition set_states (l : list (string * RS)) (op : OP) : OP := {| op with request_states := l |}.
Definition set_external (l : list (string * list string)) (op : OP) : OP := {| op with external_req_ids := l |}.
Definition set_parent_requests (l : list (string * nat)) (op : OP) : OP := {| op with parent_requests := l |}.

(** *** Making an output *)

Definition on_detokenizer {A} (c : M (Detok.IncrementalDetokenizer D) A) : M RS A := fun rs =>
  match detokenizer rs with
  | None => (Raise AssertionError, rs)
  | Some x => let '(a, x) := c x in (a, {| rs with detokenizer := Some x |})
  end.

(** [_new_completion_output] *)
Definition new_completion_output (token_ids : list Z) (finish_reason : option FinishReason) (stop_reason : option StopReason) : M RS CompletionOutput :=
  rs ← gets id;
  let finished := bool_decide (is_Some finish_reason) in
  let delta := bool_decide (output_kind rs = DELTA) in
  text ← on_detokenizer (Detok.incremental_next_text finished delta);
  ids ← on_detokenizer (gets Detok.incremental_token_ids);
  mret {| co_index := request_index rs; co_text := text; co_token_ids := if delta then token_ids else ids;
          co_finish_reason := finish_reason; co_stop_reason := if finished then stop_reason else None |}.

(** The prompt of an output. *)
Definition output_prompt (rs : RS) : res (list Z) :=
  match rs_prompt_token_ids rs, rs_prompt_embeds_len rs with
  | Some ids, _ => Ok ids
  | None, Some n => Ok (replicate (Z.to_nat n) 0)
  | None, None => Raise AssertionError
  end.

(** [_new_request_output] *)
Definition new_request_output (external_req_id : string) (outputs : list (option CompletionOutput)) (finished : bool) : M RS Output :=
  rs ← gets id;
  prompt_token_ids ← lift_res (output_prompt rs);
  mret (Completion {| ro_request_id := external_req_id; ro_prompt := rs_prompt rs; ro_prompt_token_ids := Some prompt_token_ids;
                      ro_outputs := outputs; ro_finished := finished; ro_num_cached_tokens := Some (rs_num_cached_tokens rs) |}).
Definition new_pooling_output (external_req_id : string) (data : PoolingData) (finished : bool) : M RS Output :=
  rs ← gets id;
  prompt_token_ids ← lift_res (output_prompt rs);
  mret (Pooled {| po_request_id := external_req_id; po_data := data; po_num_cached_tokens := rs_num_cached_tokens rs;
                  po_prompt_token_ids := prompt_token_ids; po_finished := finished |}).

(** The part of [make_request_output] for the stream interval: the tokens to send, or nothing to send. *)
Definition tokens_to_send (new_token_ids : list Z) (finished : bool) : M RS (option (list Z)) :=
  rs ← gets id;
  if 1 <? rs_stream_interval rs then
    num ← on_detokenizer (gets Detok.incremental_num_tokens);
    if finished || (sent_tokens_offset rs =? 0) || (rs_stream_interval rs <=? num - sent_tokens_offset rs) then
      if decide (output_kind rs = DELTA) then
        ids ← on_detokenizer (gets Detok.incremental_token_ids);
        modify (fun rs => {| rs with sent_tokens_offset := num |}) ;;
        mret (Some (py_from ids (sent_tokens_offset rs)))
      else mret (Some new_token_ids)
    else mret None
  else mret (Some new_token_ids).

(** [make_request_output] *)
Definition make_request_output (new_token_ids : list Z) (pooling_output : option PoolingData)
    (finish_reason : option FinishReason) (stop_reason : option StopReason) : M (RS * OP) (option Output) :=
  rs ← gets fst;
  let finished := bool_decide (is_Some finish_reason) in
  if negb finished && bool_decide (output_kind rs = FINAL_ONLY) then mret None
  else
    tokens ← on_fst (tokens_to_send new_token_ids finished);
    match tokens with
    | None => mret None
    | Some new_token_ids =>
        match pooling_output with
        | Some data => o ← on_fst (new_pooling_output (rs_external_req_id rs) data finished); mret (Some o)
        | None =>
            output ← on_fst (new_completion_output new_token_ids finish_reason stop_reason);
            match parent_req rs with
            | None => o ← on_fst (new_request_output (rs_external_req_id rs) [Some output] finished); mret (Some o)
            | Some parent =>
                '(outputs, finished) ← on_snd (on_parent parent (Parent.get_outputs (rs_request_id rs) output));
                match outputs with
                | [] => mret None
                | _ =>
                    external_req_id ← on_snd (on_parent parent (gets pr_external_req_id));
                    o ← on_fst (new_request_output external_req_id outputs finished); mret (Some o)
                end
            end
        end
    end.

(** *** Finishing and aborting *)

(** [self.external_req_ids\[ext\].remove(id)], and the entry goes when it is empty. *)
Definition remove_external (ext id : string) : M OP unit :=
  op ← gets (fun op => op);
  let ids := default [] (Dict.get ext (external_req_ids op)) in
  modify (fun op => set_external (Dict.set ext ids (external_req_ids op)) op) ;;
  ids ← lift_res (Sched.remove_one id ids);
  modify (fun op => set_external (match ids with [] => Dict.del ext (external_req_ids op) | _ => Dict.set ext ids (external_req_ids op) end) op).

(** [_finish_request] *)
Definition finish_request (rs : RS) : M OP unit :=
  op ← gets (fun op => op);
  if Dict.mem (rs_request_id rs) (request_states op) then
    modify (fun op => set_states (Dict.del (rs_request_id rs) (request_states op)) op) ;;
    remove_external (rs_external_req_id rs) (rs_request_id rs) ;;
    match parent_req rs with
    | None => mret tt
    | Some parent =>
        p ← on_parent parent (gets (fun p => p));
        if bool_decide (child_requests p = []) then modify (fun op => set_parent_requests (Dict.del (pr_request_id p) (parent_requests op)) op)
        else mret tt
    end
  else raise KeyError.

(** The first loop of [abort_requests]: the internal ids. *)
Fixpoint internal_ids (request_ids : list string) (internal : bool) : M OP (list string) :=
  match request_ids with
  | [] => mret []
  | request_id :: rest =>
      ids ← (if internal then
        op ← gets (fun op => op);
        (match Dict.get request_id (request_states op) with
         | Some rs => remove_external (rs_external_req_id rs) request_id
         | None => mret tt
         end) ;; mret [request_id]
      else
        op ← gets (fun op => op);
        modify (fun op => set_external (Dict.del request_id (external_req_ids op)) op) ;;
        mret (default [] (Dict.get request_id (external_req_ids op))));
      ids' ← internal_ids rest internal;
      mret (ids ++ ids')
  end.

(** The final output of an aborted request. *)
Definition send_abort (rs : RS) : M OP unit := fun op =>
  match rs_queue rs with
  | None => (Ok tt, op)
  | Some q =>
      let pooling := match detokenizer rs with None => Some EMPTY_CPU_TENSOR | Some _ => None end in
      let '(r, (_, op)) := make_request_output [] pooling (Some ABORT) None (rs, op) in
      match r with
      | Ok (Some o) => put_output q (inl o) op
      | Ok None => (Ok tt, op)
      | Raise e => (Raise e, op)
      end
  end.

(** [abort_requests]; the fuel bounds the depth of parents under parents. *)
Fixpoint abort_requests (fuel : nat) (request_ids : list string) (internal : bool) : M OP (list string) :=
  match fuel with
  | O => raise Diverges
  | S fuel =>
      ids ← internal_ids request_ids internal;
      aborted ← mmapM ids (fun request_id =>
        op ← gets (fun op => op);
        match Dict.get request_id (request_states op), Dict.get request_id (parent_requests op) with
        | Some rs, _ =>
            modify (fun op => set_states (Dict.del request_id (request_states op)) op) ;;
            send_abort rs ;;
            mret [request_id]
        | None, Some parent =>
            p ← on_parent parent (gets (fun p => p));
            child_reqs ← match child_requests p with [] => mret [] | children => abort_requests fuel children true end;
            modify (fun op => set_parent_requests (Dict.del request_id (parent_requests op)) op) ;;
            mret child_reqs
        | None, None => mret []
        end);
      mret (concat aborted)
  end.

(** [propagate_error] *)
Definition propagate_error (e : exc) : M OP unit :=
  op ← gets (fun op => op);
  mfor (request_states op) (fun '(_, rs) => match rs_queue rs with None => raise AssertionError | Some q => put_output q (inr e) end).

(** *** New requests *)

(** [apply_streaming_update] *)
Definition apply_streaming_update (u : StreamingUpdate) (rs : RS) : RS :=
  let prompt := match su_prompt u, rs_prompt rs with
    | Some ((_ :: _) as t), Some ((_ :: _) as t0) => Some (t0 ++ t)
    | Some ((_ :: _) as t), _ => Some t
    | _, p => p
    end in
  let ids := match rs_prompt_token_ids rs with
    | Some ((_ :: _) as l) => l ++ default [] (su_prompt_token_ids u)
    | _ => default [] (su_prompt_token_ids u)
    end in
  {| rs with streaming_input := negb (su_final u); rs_prompt := prompt; rs_prompt_token_ids := Some ids;
     rs_prompt_len := zlen ids; rs_is_prefilling := true |}.

(** [RequestState.from_new_request] *)
Definition from_new_request (tokenizer : option Tok) (r : EngineCoreRequest) (prompt : option Detok.text)
    (parent : option nat) (index : Z) (queue : option nat) (stream_interval : Z) : res RS :=
  ext ← res_of_option AssertionError (er_external_req_id r);
  prompt_len ← prompt_length (er_prompt_token_ids r) (er_prompt_embeds_len r);
  let '(kind, detokenizer) := match er_params r with
    | SamplingParams kind detokenize stop =>
        (kind, Some match tokenizer with
                    | Some t => if detokenize : bool then Detok.Detokenizes (make_detokenizer t stop (er_prompt_token_ids r) prompt_len)
                                else Detok.NoTokenizer []
                    | None => Detok.NoTokenizer []
                    end)
    | PoolingParams kind => (kind, None)
    end in
  Ok {| rs_request_id := er_request_id r; rs_external_req_id := ext; parent_req := parent; request_index := index; output_kind := kind;
        rs_prompt := prompt; rs_prompt_token_ids := er_prompt_token_ids r; rs_prompt_embeds_len := er_prompt_embeds_len r;
        rs_prompt_len := prompt_len; detokenizer := detokenizer; rs_is_prefilling := true; rs_queue := queue; rs_num_cached_tokens := 0;
        rs_stream_interval := stream_interval; sent_tokens_offset := 0; streaming_input := er_resumable r;
        input_chunk_queue := if er_resumable r then Some [] else None |}.

Definition update_state (rs : RS) (op : OP) : OP := set_states (Dict.set (rs_request_id rs) rs (request_states op)) op.

(** The last element of the queue is marked as final. *)
Definition mark_final (l : list StreamingUpdate) : list StreamingUpdate :=
  match last l with Some u => removelast l ++ [ {| u with su_final := true |} ] | None => l end.

(** [_update_streaming_request_state] *)
Definition update_streaming_request_state (rs : RS) (r : EngineCoreRequest) (prompt : option Detok.text) : M OP unit :=
  if negb (er_resumable r) then
    match input_chunk_queue rs with
    | None =>
        finish_request rs ;;
        match rs_queue rs with None => mret tt | Some q => put_output q (inl (Completion STREAM_FINISHED)) end
    | Some [] => modify (update_state {| rs with streaming_input := false |})
    | Some l => modify (update_state {| rs with input_chunk_queue := Some (mark_final l) |})
    end
  else
    let u := {| su_prompt := prompt; su_prompt_token_ids := er_prompt_token_ids r; su_final := false |} in
    match input_chunk_queue rs with
    | None => modify (update_state {| (apply_streaming_update u rs) with input_chunk_queue := Some [] |})
    | Some l => modify (update_state {| rs with input_chunk_queue := Some (l ++ [u]) |})
    end.

(** [add_request] *)
Definition add_request (r : EngineCoreRequest) (prompt : option Detok.text) (parent : option nat) (index : Z) (queue : option nat) : M OP unit :=
  op ← gets (fun op => op);
  match Dict.get (er_request_id r) (request_states op) with
  | Some rs => update_streaming_request_state rs r prompt
  | None =>
      rs ← lift_res (from_new_request (op_tokenizer op) r prompt parent index queue (op_stream_interval op));
      modify (update_state rs) ;;
      match parent with
      | None => mret tt
      | Some p => parent_obj ← on_parent p (gets (fun p => p));
                  modify (fun op => set_parent_requests (Dict.set (pr_request_id parent_obj) p (parent_requests op)) op)
      end ;;
      modify (fun op => let ext := rs_external_req_id rs in
                        set_external (Dict.set ext (default [] (Dict.get ext (external_req_ids op)) ++ [er_request_id r]) (external_req_ids op)) op)
  end.

(** *** [process_outputs] *)

(** The state of one request, written back unless it has gone. *)
Definition with_state {A} (id : string) (rs : RS) (c : M (RS * OP) A) : M OP A := fun op =>
  let '(r, (rs, op)) := c (rs, op) in
  (r, if Dict.mem id (request_states op) then set_states (Dict.set id rs (request_states op)) op else op).

(** A stop string ends the request; otherwise the engine decides. *)
Definition detokenize (eo : EngineCoreOutput) : M RS (option FinishReason * option StopReason) :=
  let engine := (eo_finish_reason eo, EngineReason <$> eo_stop_reason eo) in
  if eo_pooling_output eo then mret engine
  else
    stop_string ← on_detokenizer (Detok.incremental_update (eo_new_token_ids eo) (bool_decide (eo_finish_reason eo = Some STOP)));
    mret match stop_string with Some ((_ :: _) as s) => (Some STOP, Some (StopString s)) | _ => engine end.

(** One engine output: the outputs to return and the request to abort. *)
Definition process_output (eo : EngineCoreOutput) (rs : RS) : M OP (list Output * list string) :=
  with_state (eo_request_id eo) rs (
    modify (fun p => ({| (p.1) with rs_num_cached_tokens := eo_num_cached_tokens eo; rs_is_prefilling := false |}, p.2)) ;;
    '(finish_reason, stop_reason) ← on_fst (detokenize eo);
    o ← make_request_output (eo_new_token_ids eo) (if eo_pooling_output eo then Some PooledTensor else None) finish_reason stop_reason;
    rs ← gets fst;
    returned ← match o with
      | None => mret []
      | Some o =>
          let o := if streaming_input rs then match o with
                     | Completion x => Completion {| x with ro_finished := false |}
                     | Pooled x => Pooled {| x with po_finished := false |}
                     end else o in
          match rs_queue rs with
          | Some q => on_snd (put_output q (inl o)) ;; mret []
          | None => mret [o]
          end
      end;
    match finish_reason with
    | None => mret (returned, [])
    | Some _ =>
        if streaming_input rs then
          modify (fun p => (match input_chunk_queue p.1 with
            | Some (u :: rest) => apply_streaming_update u {| (p.1) with input_chunk_queue := Some rest |}
            | _ => {| (p.1) with input_chunk_queue := None |}
            end, p.2)) ;;
          mret (returned, [])
        else
          on_snd (finish_request rs) ;;
          mret (returned, if bool_decide (is_Some (eo_finish_reason eo)) then [] else [eo_request_id eo])
    end).

(** [process_outputs]: request outputs and the requests to abort. *)
Fixpoint process_outputs (engine_core_outputs : list EngineCoreOutput) : M OP (list Output * list string) :=
  match engine_core_outputs with
  | [] => mret ([], [])
  | eo :: rest =>
      op ← gets (fun op => op);
      '(outs, aborts) ← match Dict.get (eo_request_id eo) (request_states op) with
        | None => mret ([], [])
        | Some rs => process_output eo rs
        end;
      '(outs', aborts') ← process_outputs rest;
      mret (outs ++ outs', aborts ++ aborts')
  end.

End process.
End Process.

(** ** The detokenizers of [v1/engine/detokenizer.py] *)

Section tokenizers.
Context {Stream T : Type} `{Detok.DecodeStream Stream} `{Detok.TokenizerLike T}.

#[export] Instance either_decoder : Detok.Decoder (Detok.Fast Stream + Detok.Slow T) := fun ids t x =>
  match x with
  | inl f => let '(r, f) := Detok.fast_decoder ids t f in (r, inl f)
  | inr s => let '(r, s) := Detok.slow_decoder ids t s in (r, inr s)
  end.

Definition with_decoder {D D'} (d : Detok.Detokenizer D) (f : D -> D') : Detok.Detokenizer D' :=
  {| Detok.token_ids := Detok.token_ids d; Detok.prompt_len := Detok.prompt_len d; Detok.stop := Detok.stop d;
     Detok.min_tokens := Detok.min_tokens d; Detok.include_stop_str_in_output := Detok.include_stop_str_in_output d;
     Detok.stop_buffer_length := Detok.stop_buffer_length d; Detok.last_output_text_offset := Detok.last_output_text_offset d;
     Detok.output_text := Detok.output_text d; Detok.decoder := f (Detok.decoder d) |}.

(** [IncrementalDetokenizer.from_new_request]: a tokenizer of the library, with its added
    tokens, gets the fast detokenizer, any other the slow one. *)
#[export] Instance from_tokenizer : MakesDetokenizer (list (Z * Detok.text) + T) (Detok.Fast Stream + Detok.Slow T) := fun tokenizer p ids prompt_len =>
  match tokenizer with
  | inl added => with_decoder (Detok.fast_init p (default [] ids) added) inl
  | inr t => with_decoder (Detok.slow_init t p ids prompt_len) inr
  end.
End tokenizers.
