(* ===== verification/OutputStream.v ===== *)
(** What the client of a streaming request receives. *)

From S2P Require Import Prelude Request Scheduler Detokenizer DetokFacts OutputProcessor.
Local Open Scope Z_scope.

Module OutputStream.
Import Detok DetokFacts.

(** ** What outputs contain *)

Definition completions (o : RequestOutput) : list CompletionOutput := omap (fun c => c) (ro_outputs o).
Definition texts (l : list RequestOutput) : text := concat ((fun o => concat (co_text <$> completions o)) <$> l).
Definition tokens (l : list RequestOutput) : list Z := concat ((fun o => concat (co_token_ids <$> completions o)) <$> l).

Lemma texts_app l1 l2 : texts (l1 ++ l2) = texts l1 ++ texts l2.
Proof. unfold texts. by rewrite fmap_app, concat_app. Qed.
Lemma tokens_app l1 l2 : tokens (l1 ++ l2) = tokens l1 ++ tokens l2.
Proof. unfold tokens. by rewrite fmap_app, concat_app. Qed.

Lemma texts_one o co : ro_outputs o = [Some co] -> texts [o] = co_text co.
Proof. intros Ho. unfold texts, completions. cbn. rewrite Ho. cbn. by rewrite !app_nil_r. Qed.
Lemma tokens_one o co : ro_outputs o = [Some co] -> tokens [o] = co_token_ids co.
Proof. intros Ho. unfold tokens, completions. cbn. rewrite Ho. cbn. by rewrite !app_nil_r. Qed.

(** The output that waits in a queue. *)
Definition pending (q : RequestOutputCollector) : list RequestOutput :=
  match collected q with Some (inl (Completion o)) => [o] | _ => [] end.

(** A queue of deltas with one completion of the given index. *)
Definition delta_queue (index : Z) (q : RequestOutputCollector) : Prop :=
  aggregate q = true /\ (collected q = None \/ exists o co, collected q = Some (inl (Completion o)) /\ ro_outputs o = [Some co] /\ co_index co = index).

(** Putting a delta: nothing is lost, whether the client is behind or not. *)
Lemma put_delta index q o co : delta_queue index q -> ro_outputs o = [Some co] -> co_index co = index ->
  exists q' o', Collector.put (inl (Completion o)) q = (Ok tt, q') /\ delta_queue index q' /\ pending q' = [o']
    /\ texts [o'] = texts (pending q ++ [o]) /\ tokens [o'] = tokens (pending q ++ [o])
    /\ ro_finished o' = existsb ro_finished (pending q ++ [o]).
Proof.
  intros [Hagg Hc] Ho Hi. unfold Collector.put, pending. destruct Hc as [Hc|(o0 & co0 & Hc & Ho0 & Hi0)]; rewrite Hc.
  - eexists _, o. split; [reflexivity|]. split; [split; [done|right; exists o, co; done]|]. cbn. split; [done|]. split; [done|]. split; [done|]. by rewrite orb_false_r.
  - unfold Outputs.add, mbind, M_bind, modify. rewrite Ho. cbn [mfor gets id lift_res ro_outputs]. unfold mbind, M_bind, gets, id, lift_res, modify. cbn [ro_outputs]. rewrite Ho0.
    cbn [Outputs.add_completion]. rewrite Hi0, Hi, Z.eqb_refl, Hagg. cbn. eexists _, _. split; [reflexivity|].
    split; [split; [done|right; eexists _, _; split; [reflexivity|]; split; [reflexivity|done] ]|]. cbn. split; [done|].
    unfold texts, tokens, completions. cbn. rewrite Ho, Ho0. cbn. rewrite !app_nil_r. split; [done|]. split; [done|]. by rewrite orb_false_r.
Qed.

Section stream.
Context {D Tok : Type} `{Decoder D} `{MakesDetokenizer Tok D}.
Abbreviation OP := (OutputProcessor D Tok).
Abbreviation RS := (RequestState D).

(** ** Tokens of a request *)

Definition lengths_ok (d : Detokenizer D) : Prop := 0 <= prompt_len d <= zlen (token_ids d).

Lemma output_ids_drop (d : Detokenizer D) : lengths_ok d -> output_token_ids d = drop (Z.to_nat (prompt_len d)) (token_ids d).
Proof. intros Hl. unfold output_token_ids. destruct (Z.eqb_spec (prompt_len d) 0) as [->|_]; [done|]. apply py_from_nonneg. destruct Hl. lia. Qed.

Lemma num_output_ids (d : Detokenizer D) : lengths_ok d -> num_output_tokens d = zlen (output_token_ids d).
Proof. intros Hl. rewrite output_ids_drop by done. unfold num_output_tokens, lengths_ok, zlen in *. rewrite length_drop. lia. Qed.

Lemma output_ids_app (d d' : Detokenizer D) new : lengths_ok d -> prompt_len d' = prompt_len d -> token_ids d' = token_ids d ++ new ->
  lengths_ok d' /\ output_token_ids d' = output_token_ids d ++ new.
Proof.
  intros Hl Hp Ht. assert (lengths_ok d') as Hl'. { unfold lengths_ok in *. rewrite Hp, Ht, zlen_app. pose proof (zlen_nonneg new). lia. }
  split; [done|]. rewrite !output_ids_drop by done. rewrite Hp, Ht, drop_app_le; [done|]. unfold lengths_ok, zlen in Hl. lia.
Qed.

(** ** A streaming request *)

(** The request state of a streaming request that is not a child of a parallel-sampling one. *)
Record stream_state (rid : string) (q : nat) (rs : RS) (d : Detokenizer D) : Prop := {
  ss_id : rs_request_id rs = rid;
  ss_queue : rs_queue rs = Some q;
  ss_kind : output_kind rs = DELTA;
  ss_parent : parent_req rs = None;
  ss_input : streaming_input rs = false;
  ss_detokenizer : detokenizer rs = Some (Detokenizes d);
  ss_prompt : exists ids, Process.output_prompt rs = Ok ids;
  ss_stops : stops_ok d /\ buffer_ok d /\ lengths_ok d;
}.

(** The tokens sent so far. *)
Definition tokens_sent (rs : RS) (d : Detokenizer D) (l : list Z) : Prop :=
  if 1 <? rs_stream_interval rs then l = take (Z.to_nat (sent_tokens_offset rs)) (output_token_ids d) /\ 0 <= sent_tokens_offset rs <= zlen (output_token_ids d)
  else l = output_token_ids d.

(** The tokens that [make_request_output] sends. *)
Lemma tokens_to_send_ok rid q rs d sent new finished : stream_state rid q rs d -> lengths_ok d ->
  (if 1 <? rs_stream_interval rs then sent = take (Z.to_nat (sent_tokens_offset rs)) (output_token_ids d) /\ 0 <= sent_tokens_offset rs <= zlen (output_token_ids d)
   else sent ++ new = output_token_ids d) ->
  exists r n, Process.tokens_to_send new finished rs = (Ok r, {| rs with sent_tokens_offset := n |}) /\
    match r with
    | Some l => sent ++ l = output_token_ids d /\ (1 <? rs_stream_interval rs = true -> n = zlen (output_token_ids d))
    | None => finished = false /\ n = sent_tokens_offset rs /\ 1 <? rs_stream_interval rs = true
    end.
Proof.
  intros Hs Hl Hsent. unfold Process.tokens_to_send, gets, id, mbind, M_bind.
  destruct (1 <? rs_stream_interval rs) eqn:Ei.
  - unfold Process.on_detokenizer. rewrite (ss_detokenizer _ _ _ _ Hs). cbn [incremental_num_tokens]. set (rs1 := {| rs with detokenizer := Some (Detokenizes d) |}).
    assert (rs1 = rs) as -> by (unfold rs1; destruct rs; cbn; by rewrite <- (ss_detokenizer _ _ _ _ Hs)).
    destruct Hsent as [-> Hoff]. rewrite num_output_ids by done. destruct (_ || _) eqn:Esend.
    + rewrite (decide_True _ _ (ss_kind _ _ _ _ Hs)). rewrite (ss_detokenizer _ _ _ _ Hs). cbn [incremental_token_ids].
      eexists _, _. split; [reflexivity|]. rewrite py_from_nonneg by lia. by rewrite take_drop.
    + exists None, (sent_tokens_offset rs). split; [rewrite <- (ss_detokenizer _ _ _ _ Hs); by destruct rs|]. apply orb_false_iff in Esend as [Esend _]. by apply orb_false_iff in Esend as [-> _].
  - exists (Some new), (sent_tokens_offset rs). split; [unfold mret, M_ret; by destruct rs|]. split; done.
Qed.

(** The fields of a request state that stay as they are. *)
Definition same_request (rs rs' : RS) : Prop :=
  rs_external_req_id rs' = rs_external_req_id rs /\ request_index rs' = request_index rs /\ rs_stream_interval rs' = rs_stream_interval rs.

(** What one call of [make_request_output] sends. *)
Definition sends (finished : bool) (index : Z) (sent : text) (ids : list Z) (d : Detokenizer D) (rs' : RS) (d' : Detokenizer D) (r : option Output) : Prop :=
  match r with
  | None => finished = false /\ is_sent d' sent /\ held_back d' /\ tokens_sent rs' d' ids
  | Some o => exists ro co, o = Completion ro /\ ro_outputs ro = [Some co] /\ co_index co = index /\ ro_finished ro = finished
      /\ is_sent d' (sent ++ co_text co) /\ tokens_sent rs' d' (ids ++ co_token_ids co) /\ ids ++ co_token_ids co = output_token_ids d
      /\ if finished then sent ++ co_text co = output_text d else held_back d'
  end.

Lemma same_output_ids (d d' : Detokenizer D) : same_params d d' -> token_ids d' = token_ids d -> output_token_ids d' = output_token_ids d.
Proof. intros (Hp & _) Ht. unfold output_token_ids. by rewrite Hp, Ht. Qed.

Lemma new_completion_ok rid q rs d sent l fr sr : stream_state rid q rs d -> is_sent d sent -> (bool_decide (is_Some fr) = false -> held_back d) ->
  exists t d' rs', Process.new_completion_output l fr sr rs
      = (Ok {| co_index := request_index rs; co_text := t; co_token_ids := l; co_finish_reason := fr; co_stop_reason := if bool_decide (is_Some fr) then sr else None |}, rs')
    /\ stream_state rid q rs' d' /\ same_request rs rs' /\ sent_tokens_offset rs' = sent_tokens_offset rs
    /\ is_sent d' (sent ++ t) /\ same_params d d' /\ output_text d' = output_text d /\ token_ids d' = token_ids d /\ decoder d' = decoder d
    /\ if bool_decide (is_Some fr) then sent ++ t = output_text d else held_back d'.
Proof.
  intros Hs Hsent Hheld. destruct (ss_stops _ _ _ _ Hs) as (Hst & Hbuf & Hlen).
  destruct (next_text_sent (bool_decide (is_Some fr)) d sent Hbuf Hsent Hheld) as (t & d' & Hget & Hsent' & Hsame & Htext & Htok & Hdec & Hfin).
  set (rs' := {| rs with detokenizer := Some (Detokenizes d') |}). exists t, d', rs'. split.
  - unfold Process.new_completion_output. erewrite bind_ok by reflexivity. rewrite (bool_decide_eq_true_2 (output_kind (id rs) = DELTA)) by (apply (ss_kind _ _ _ _ Hs)).
    erewrite bind_ok; [|unfold Process.on_detokenizer; rewrite (ss_detokenizer _ _ _ _ Hs); cbn [incremental_next_text]; rewrite Hget; reflexivity].
    erewrite bind_ok by reflexivity. reflexivity.
  - split; [|by split_and!]. destruct Hs as [P1 P2 P3 P4 P5 P6 P7 P8]. split; try done. destruct Hsame as (S1 & S2 & S3 & S4 & S5).
    unfold stops_ok, buffer_ok, lengths_ok in *. by rewrite S1, S2, S4, S5, Htok.
Qed.

Lemma on_fst_ok {T U A} (c : M T A) (s : T) (t : U) a s' : c s = (Ok a, s') -> on_fst c (s, t) = (Ok a, (s', t)).
Proof. intros E. unfold on_fst, zoom. cbn [fst snd]. by rewrite E. Qed.
Lemma on_snd_ok {T U A} (c : M U A) (s : T) (t : U) a t' : c t = (Ok a, t') -> on_snd c (s, t) = (Ok a, (s, t')).
Proof. intros E. unfold on_snd, zoom. cbn [fst snd]. by rewrite E. Qed.

Lemma stream_output_ok rid q rs d sent ids new fr sr (op : OP) : stream_state rid q rs d -> is_sent d sent ->
  (bool_decide (is_Some fr) = false -> held_back d) ->
  (if 1 <? rs_stream_interval rs then ids = take (Z.to_nat (sent_tokens_offset rs)) (output_token_ids d) /\ 0 <= sent_tokens_offset rs <= zlen (output_token_ids d)
   else ids ++ new = output_token_ids d) ->
  exists r rs' d', Process.make_request_output new None fr sr (rs, op) = (Ok r, (rs', op)) /\ stream_state rid q rs' d' /\ same_request rs rs'
    /\ output_text d' = output_text d /\ token_ids d' = token_ids d /\ decoder d' = decoder d /\ same_params d d'
    /\ sends (bool_decide (is_Some fr)) (request_index rs) sent ids d rs' d' r.
Proof.
  intros Hs Hsent Hheld Hids. destruct (ss_stops _ _ _ _ Hs) as (_ & _ & Hlen).
  destruct (tokens_to_send_ok rid q rs d ids new (bool_decide (is_Some fr)) Hs Hlen Hids) as (r & n & Hr & Hsend).
  set (rs1 := {| rs with sent_tokens_offset := n |}) in *. assert (stream_state rid q rs1 d) as Hs1 by (by destruct Hs).
  unfold Process.make_request_output. erewrite bind_ok by reflexivity. cbn [fst].
  rewrite (bool_decide_eq_false_2 (output_kind rs = FINAL_ONLY)), andb_false_r by (by rewrite (ss_kind _ _ _ _ Hs)).
  erewrite bind_ok by (apply on_fst_ok; exact Hr). destruct r as [l|].
  - destruct Hsend as [Hall Hn]. destruct (new_completion_ok rid q rs1 d sent l fr sr Hs1 Hsent Hheld) as (t & d' & rs' & Hc & Hs' & Hsame & Hoff & Hsent' & Hp & Htext & Htok & Hdec & Hfin).
    erewrite bind_ok by (apply on_fst_ok; exact Hc). rewrite (ss_parent _ _ _ _ Hs). destruct (ss_prompt _ _ _ _ Hs') as [pids Hpids].
    erewrite bind_ok; [|apply on_fst_ok; unfold Process.new_request_output; erewrite bind_ok by reflexivity; erewrite bind_ok; [|unfold lift_res, id; rewrite Hpids; reflexivity]; reflexivity].
    eexists _, rs', d'. split; [reflexivity|]. split; [done|]. split; [done|]. do 4 (split; [done|]). eexists _, _. do 4 (split; [reflexivity|]).
    cbn [co_text co_token_ids]. split; [done|]. rewrite Hall. split; [|by split]. destruct Hsame as (_ & _ & Hi). unfold tokens_sent. rewrite Hi, Hoff, (same_output_ids d d' Hp Htok).
    change (rs_stream_interval rs1) with (rs_stream_interval rs). destruct (1 <? rs_stream_interval rs); [|done].
    change (sent_tokens_offset rs1) with n. rewrite Hn by done. rewrite take_ge by (unfold zlen; lia). pose proof (zlen_nonneg (output_token_ids d)). split; [done|lia].
  - destruct Hsend as (Hf & Hn & Hi). rewrite Hi in Hids. exists None, rs1, d. split; [reflexivity|]. split; [done|]. split; [done|]. do 4 (split; [done|]).
    split; [done|]. split; [done|]. split; [by apply Hheld|]. unfold tokens_sent. change (rs_stream_interval rs1) with (rs_stream_interval rs). rewrite Hi.
    change (sent_tokens_offset rs1) with n. by rewrite Hn.
Qed.

(** ** One engine output *)

(** The step of the detokenizer and whether it ends the request. *)
Definition ends (r : option text) (eo : EngineCoreOutput) : bool := bool_decide (is_Some r) || bool_decide (is_Some (eo_finish_reason eo)).
Definition feed (eo : EngineCoreOutput) (d : Detokenizer D) : res (option text) * Detokenizer D :=
  update (eo_new_token_ids eo) (bool_decide (eo_finish_reason eo = Some STOP)) d.

Lemma feed_ok eo d r d' sent : feed eo d = (Ok r, d') -> stops_ok d -> buffer_ok d -> lengths_ok d -> is_sent d sent -> held_back d ->
  is_sent d' sent /\ stops_ok d' /\ buffer_ok d' /\ lengths_ok d' /\ (r = None -> held_back d')
  /\ output_token_ids d' = output_token_ids d ++ eo_new_token_ids eo /\ (forall s, r = Some s -> s ≠ []).
Proof.
  intros Hf Hst Hbuf Hlen Hsent Hheld. destruct (update_keeps_sent _ _ d r d' sent Hf Hst Hbuf Hsent Hheld) as (H1 & H2 & H3 & H4).
  pose proof (update_spec (eo_new_token_ids eo) (bool_decide (eo_finish_reason eo = Some STOP)) d Hst) as Hspec.
  destruct (decode_text _ _ _) as [ [new|e] x]; [|destruct Hspec as [y Hy]; unfold feed in Hf; rewrite Hy in Hf; done].
  destruct Hspec as (r0 & d0 & off & Hu & Hsame & _ & _ & Htok & _ & _ & Hr). unfold feed in Hf. rewrite Hu in Hf. injection Hf as -> ->.
  destruct (output_ids_app d d' _ Hlen ltac:(by destruct Hsame) Htok) as [H5 H6]. do 5 (split; [done|]). split; [done|].
  intros s ->. destruct Hr as (i & (l1 & l2 & El & _) & _). unfold stops_ok in Hst. rewrite Forall_forall in Hst. apply Hst. rewrite El. apply elem_of_app. right. by left.
Qed.

(** A running request: its state, its queue, and what the client has taken. *)
Record live (rid : string) (q : nat) (op : OP) (rs : RS) (d : Detokenizer D) (c : RequestOutputCollector) (got : list RequestOutput) : Prop := {
  lv_nodup : NoDup (Dict.keys (request_states op));
  lv_get : Dict.get rid (request_states op) = Some rs;
  lv_state : stream_state rid q rs d;
  lv_queue : queues op !! q = Some c;
  lv_coll : delta_queue (request_index rs) c;
  lv_text : is_sent d (texts (got ++ pending c));
  lv_held : held_back d;
  lv_tokens : tokens_sent rs d (tokens (got ++ pending c));
  lv_open : existsb ro_finished (got ++ pending c) = false;
  lv_ext : exists ids, Dict.get (rs_external_req_id rs) (external_req_ids op) = Some ids /\ rid ∈ ids;
}.

(** A finished request. *)
Record gone (rid : string) (q : nat) (op : OP) (d : Detokenizer D) (index : Z) (c : RequestOutputCollector) (got : list RequestOutput) : Prop := {
  gn_get : Dict.get rid (request_states op) = None;
  gn_queue : queues op !! q = Some c;
  gn_coll : delta_queue index c;
  gn_text : texts (got ++ pending c) = output_text d;
  gn_tokens : tokens (got ++ pending c) = output_token_ids d;
  gn_last : exists o, last (got ++ pending c) = Some o /\ ro_finished o = true;
}.

Lemma remove_id_ok (rid : string) ids : rid ∈ ids -> exists ids', Sched.remove_one rid ids = Ok ids'.
Proof.
  induction ids as [|x ids IH]; [by intros ?%elem_of_nil|]. cbn [Sched.remove_one]. destruct (String.eqb_spec x rid) as [->|Hne]; [by eexists|].
  intros [->|Hin]%elem_of_cons; [done|]. destruct (IH Hin) as [ids' ->]. by eexists.
Qed.

Lemma finish_ok rid q (op : OP) rs d : NoDup (Dict.keys (request_states op)) -> is_Some (Dict.get rid (request_states op)) -> stream_state rid q rs d ->
  (exists ids, Dict.get (rs_external_req_id rs) (external_req_ids op) = Some ids /\ rid ∈ ids) ->
  exists op', Process.finish_request rs op = (Ok tt, op') /\ Dict.get rid (request_states op') = None /\ queues op' = queues op.
Proof.
  intros Hnd Hget Hs (ids & Hext & Hin). destruct (remove_id_ok rid ids Hin) as [ids' Hids]. unfold Process.finish_request. erewrite bind_ok by reflexivity.
  rewrite (ss_id _ _ _ _ Hs). rewrite (proj2 (Dict.mem_get _ _) Hget). erewrite bind_ok by reflexivity.
  erewrite bind_ok; [rewrite (ss_parent _ _ _ _ Hs); eexists; split; [reflexivity|]|].
  2: { unfold Process.remove_external. erewrite bind_ok by reflexivity. cbn [Process.set_states external_req_ids]. rewrite Hext. cbn [default].
    erewrite bind_ok by reflexivity. erewrite bind_ok; [reflexivity|]. unfold lift_res. change (id ids) with ids. by rewrite Hids. }
  split; [|done]. cbn. by rewrite Dict.get_del, decide_True.
Qed.

(** The first steps of [process_output]. *)
Lemma detokenize_ok rid q rs d eo r d' : stream_state rid q rs d -> eo_pooling_output eo = false -> feed eo d = (Ok r, d') -> (forall s, r = Some s -> s ≠ []) ->
  exists fr sr, Process.detokenize eo rs = (Ok (fr, sr), {| rs with detokenizer := Some (Detokenizes d') |}) /\ bool_decide (is_Some fr) = ends r eo.
Proof.
  intros Hs Hpool Hf Hne. unfold Process.detokenize. rewrite Hpool.
  erewrite bind_ok; [|unfold Process.on_detokenizer; rewrite (ss_detokenizer _ _ _ _ Hs); cbn [incremental_update]; unfold feed in Hf; rewrite Hf; reflexivity].
  unfold ends. destruct r as [ [|x s]|]; [by destruct (Hne [] eq_refl)| |]; eexists _, _; (split; [reflexivity|]); [reflexivity|].
  by destruct (eo_finish_reason eo).
Qed.

Lemma put_output_ok q (op : OP) c c' o : queues op !! q = Some c -> Collector.put o c = (Ok tt, c') ->
  Process.put_output q o op = (Ok tt, {| op with queues := <[q := c']> (queues op) |}).
Proof. intros Hq Hp. unfold Process.put_output. by rewrite Hq, Hp. Qed.

(** What the client has received and will take, after one more output was put into the queue or not. *)
Lemma returned_ok rid q (op : OP) rs c got o sent ids d d' finished : queues op !! q = Some c -> stream_state rid q rs d' -> delta_queue (request_index rs) c ->
  sent = texts (got ++ pending c) -> ids = tokens (got ++ pending c) -> existsb ro_finished (got ++ pending c) = false ->
  sends finished (request_index rs) sent ids d rs d' o ->
  exists op' c',
    (match o with
     | None => mret []
     | Some o =>
         let o := if streaming_input rs then match o with
                    | Completion x => Completion {| x with ro_finished := false |}
                    | Pooled x => Pooled {| x with po_finished := false |}
                    end else o in
         match rs_queue rs with
         | Some q => on_snd (Process.put_output q (inl o)) ;; mret []
         | None => mret [o]
         end
     end : M (RS * OP) (list Output)) (rs, op) = (Ok [], (rs, op'))
    /\ queues op' !! q = Some c' /\ delta_queue (request_index rs) c' /\ request_states op' = request_states op /\ external_req_ids op' = external_req_ids op
    /\ (if finished then texts (got ++ pending c') = output_text d /\ tokens (got ++ pending c') = output_token_ids d
            /\ exists o, last (got ++ pending c') = Some o /\ ro_finished o = true
       else is_sent d' (texts (got ++ pending c')) /\ held_back d' /\ tokens_sent rs d' (tokens (got ++ pending c')) /\ existsb ro_finished (got ++ pending c') = false).
Proof.
  intros Hq Hs Hc -> -> Hopen Hsend. destruct o as [o|]; cbn [sends] in Hsend.
  - destruct Hsend as (ro & co & -> & Ho & Hi & Hf & Hsent & Hids & Hall & Hend). rewrite (ss_input _ _ _ _ Hs), (ss_queue _ _ _ _ Hs). cbv zeta.
    destruct (put_delta (request_index rs) c ro co Hc Ho Hi) as (c' & o' & Hput & Hc' & Hpend & Htx & Htk & Hfin).
    eexists _, c'. split; [erewrite bind_ok; [reflexivity|apply on_snd_ok; eapply put_output_ok; [exact Hq|exact Hput] ]|]. cbn [queues]. rewrite lookup_insert_eq.
    split; [done|]. split; [done|]. split; [done|]. split; [done|]. rewrite Hpend.
    assert (texts (got ++ [o']) = texts (got ++ pending c) ++ co_text co) as ->.
    { by rewrite !texts_app, Htx, texts_app, (texts_one ro co Ho), app_assoc. }
    assert (tokens (got ++ [o']) = tokens (got ++ pending c) ++ co_token_ids co) as ->.
    { by rewrite !tokens_app, Htk, tokens_app, (tokens_one ro co Ho), app_assoc. }
    rewrite existsb_app in Hopen. apply orb_false_iff in Hopen as [Hg Hpc]. rewrite existsb_app, Hpc in Hfin. cbn [existsb orb] in Hfin. rewrite orb_false_r, Hf in Hfin.
    destruct finished; [split; [done|]; split; [done|]; exists o'; split; [apply last_snoc|done]|]. split; [done|]. split; [done|]. split; [done|]. rewrite existsb_app, Hg. cbn. by rewrite Hfin.
  - destruct Hsend as (-> & Hsent & Hheld & Hids). exists op, c. by split_and!.
Qed.

Lemma process_live rid q op rs d c got eo r d' : live rid q op rs d c got -> eo_request_id eo = rid -> eo_pooling_output eo = false ->
  feed eo d = (Ok r, d') ->
  exists op' outs aborts c', Process.process_outputs [eo] op = (Ok (outs, aborts), op') /\
    if ends r eo then gone rid q op' d' (request_index rs) c' got
    else exists rs' n, live rid q op' rs' (set_offset n d') c' got /\ request_index rs' = request_index rs.
Proof.
  intros [Hnd Hget Hs Hq Hc Htext Hheld Htok Hopen Hext] Hid Hpool Hf. destruct (ss_stops _ _ _ _ Hs) as (Hst & Hbuf & Hlen).
  destruct (feed_ok eo d r d' _ Hf Hst Hbuf Hlen Htext Hheld) as (Hsent1 & Hst1 & Hbuf1 & Hlen1 & Hheld1 & Hids1 & Hne).
  set (rs0 := {| rs with rs_num_cached_tokens := eo_num_cached_tokens eo; rs_is_prefilling := false |}). assert (stream_state rid q rs0 d) as Hs0 by (by destruct Hs).
  destruct (detokenize_ok rid q rs0 d eo r d' Hs0 Hpool Hf Hne) as (fr & sr & Hdet & Hfr). set (rs1 := {| rs0 with detokenizer := Some (Detokenizes d') |}) in *.
  assert (stream_state rid q rs1 d') as Hs1 by (by destruct Hs).
  destruct (stream_output_ok rid q rs1 d' (texts (got ++ pending c)) (tokens (got ++ pending c)) (eo_new_token_ids eo) fr sr op Hs1 Hsent1) as (o & rs2 & d2 & Hmake & Hs2 & Hsame & T1 & T2 & T3 & T4 & Hsend).
  { rewrite Hfr. intros He. apply Hheld1. destruct r; [done|done]. }
  { unfold tokens_sent in Htok. change (rs_stream_interval rs1) with (rs_stream_interval rs). change (sent_tokens_offset rs1) with (sent_tokens_offset rs). rewrite Hids1.
    destruct (1 <? rs_stream_interval rs); [|by rewrite Htok]. destruct Htok as [-> Hoff]. rewrite zlen_app. pose proof (zlen_nonneg (eo_new_token_ids eo)).
    rewrite take_app_le by (unfold zlen in Hoff; lia). split; [done|lia]. }
  destruct Hsame as (E1 & E2 & E3). change (request_index rs1) with (request_index rs) in *. change (rs_external_req_id rs1) with (rs_external_req_id rs) in E1.
  rewrite <- E2 in Hsend, Hc. destruct (returned_ok rid q op rs2 c got o _ _ d' d2 _ Hq Hs2 Hc eq_refl eq_refl Hopen Hsend) as (op1 & c' & Hret & Hq' & Hc' & Est & Eext & Hfinal).
  rewrite Hfr in Hfinal.
  assert (exists op' outs aborts, Process.process_output eo rs op = (Ok (outs, aborts), op') /\
    if ends r eo then gone rid q op' d' (request_index rs) c' got
    else exists rs' n, live rid q op' rs' (set_offset n d') c' got /\ request_index rs' = request_index rs) as (op' & outs & aborts & Hp & Hres).
  2: { exists op', outs, aborts, c'. split; [|done]. cbn [Process.process_outputs]. erewrite bind_ok by reflexivity. rewrite Hid, Hget. erewrite bind_ok by exact Hp. cbv beta iota.
    cbn [Process.process_outputs]. unfold mbind, M_bind, mret, M_ret. by rewrite !app_nil_r. }
  unfold Process.process_output, Process.with_state. erewrite bind_ok by reflexivity. fold rs0. cbn [fst snd]. fold rs0.
  erewrite bind_ok by (apply on_fst_ok; exact Hdet). cbv beta iota. rewrite Hpool. erewrite bind_ok by exact Hmake. erewrite bind_ok by reflexivity. cbn [fst].
  erewrite bind_ok by exact Hret. destruct (ends r eo) eqn:Eend.
  - destruct fr as [fr|]; [|discriminate Hfr]. rewrite (ss_input _ _ _ _ Hs2). rewrite <- E1 in Hext.
    destruct (finish_ok rid q op1 rs2 d2) as (op2 & Hfin & Hnone & Hqs); [by rewrite Est|rewrite Est, Hget; done|done|by rewrite Eext|].
    erewrite bind_ok by (apply on_snd_ok; exact Hfin). unfold mret, M_ret. rewrite Hid.
    replace (Dict.mem rid (request_states op2)) with false.
    2: { symmetry. apply not_true_is_false. intros Hm%Dict.mem_get. rewrite Hnone in Hm. by destruct Hm. }
    eexists op2, _, _. split; [reflexivity|]. destruct Hfinal as (F1 & F2 & F3). split; [done|by rewrite Hqs|by rewrite <- E2|done|done|done].
  - destruct fr as [fr|]; [discriminate Hfr|]. unfold mret, M_ret. rewrite Hid, Est.
    rewrite (proj2 (Dict.mem_get _ _)) by (by rewrite Hget). eexists _, _, _. split; [reflexivity|]. exists rs2, (last_output_text_offset d2).
    assert (d2 = set_offset (last_output_text_offset d2) d') as Ed.
    { destruct T4 as (P1 & P2 & P3 & P4 & P5). destruct d2, d'. cbn in *. by subst. }
    destruct Hfinal as (F1 & F2 & F3 & F4). rewrite <- Ed. split; [|done]. split; cbn [Process.set_states request_states queues external_req_ids]; try done.
    + by apply Dict.NoDup_set.
    + by rewrite Dict.get_set, decide_True.
    + by rewrite Eext, E1.
Qed.

(** ** The whole stream *)

(** What was sent has no influence on the text. *)
Lemma decode_loop_offset n ids off (d : Detokenizer D) : decode_loop ids off (set_offset n d) = (let '(r, d') := decode_loop ids off d in (r, set_offset n d')).
Proof.
  revert off d. induction ids as [|t ids IH]; intros off d; [done|]. cbn [decode_loop]. unfold decode_token, zoom, gets, modify, mbind, M_bind.
  cbn [set_offset push_token token_ids decoder]. destruct (decode_next (token_ids d ++ [t]) t (decoder d)) as [ [s|e] x]; [|done]. cbn [id].
  match goal with |- context [decode_loop ids ?o (push_text s {| token_ids := _; prompt_len := ?a; stop := _; min_tokens := _; include_stop_str_in_output := _; stop_buffer_length := _; last_output_text_offset := n; output_text := _; decoder := _ |})] => idtac | _ => idtac end.
  etransitivity; [|apply IH]. done.
Qed.

Lemma eval_stop_offset n off (d : Detokenizer D) : eval_stop off (set_offset n d) = (let '(r, d') := eval_stop off d in (r, set_offset n d')).
Proof.
  unfold eval_stop, gets, id, mbind, M_bind, modify. change (stop (set_offset n d)) with (stop d). change (min_tokens (set_offset n d)) with (min_tokens d).
  change (num_output_tokens (set_offset n d)) with (num_output_tokens d). change (output_text (set_offset n d)) with (output_text d).
  change (include_stop_str_in_output (set_offset n d)) with (include_stop_str_in_output d).
  destruct (_ && _); [|done]. destruct (check_stop_strings _ _ _ _) as [ [s t]|]; [|done]. by destruct (t =? -1).
Qed.

Lemma feed_offset n eo (d : Detokenizer D) : feed eo (set_offset n d) = (let '(r, d') := feed eo d in (r, set_offset n d')).
Proof.
  unfold feed, update. destruct (last _) as [x|]; [|done]. unfold gets, id, mbind, M_bind, modify. change (output_text (set_offset n d)) with (output_text d).
  change (include_stop_str_in_output (set_offset n d)) with (include_stop_str_in_output d). rewrite decode_loop_offset. destruct (decode_loop _ _ _) as [ [off|e] d']; [|done].
  destruct (_ && _); [change (push_token x (set_offset n d')) with (set_offset n (push_token x d'))|]; apply eval_stop_offset.
Qed.

(** Engine outputs for the request arrive, and the client takes what waits in its queue, in any order. *)
Inductive client_event := Engine (eo : EngineCoreOutput) | Take.

Definition take_output (q : nat) : M OP (list RequestOutput) := fun op =>
  match queues op !! q with
  | None => (Raise AttributeError, op)
  | Some c => let '(r, c) := Collector.get_nowait c in
              (match r with Ok (Some (Completion o)) => Ok [o] | Ok _ => Ok [] | Raise e => Raise e end, {| op with queues := <[q := c]> (queues op) |})
  end.

Fixpoint run (q : nat) (evs : list client_event) : M OP (list RequestOutput) :=
  match evs with
  | [] => mret []
  | Engine eo :: evs => _ ← Process.process_outputs [eo]; run q evs
  | Take :: evs => got ← take_output q; rest ← run q evs; mret (got ++ rest)
  end.

(** The reference: the detokenizer is fed until the request ends. *)
Fixpoint reference (d : Detokenizer D) (evs : list client_event) : res (Detokenizer D * bool) :=
  match evs with
  | [] => Ok (d, false)
  | Engine eo :: evs =>
      let '(r, d') := feed eo d in
      r ← r; if ends r eo then Ok (d', true) else reference d' evs
  | Take :: evs => reference d evs
  end.

Definition about (rid : string) (evs : list client_event) : Prop :=
  Forall (fun e => match e with Engine eo => eo_request_id eo = rid /\ eo_pooling_output eo = false | Take => True end) evs.

Lemma take_pending index (c : RequestOutputCollector) : delta_queue index c ->
  exists r c', Collector.get_nowait c = (Ok r, c') /\ delta_queue index c' /\ pending c' = []
    /\ match r with Some (Completion o) => [o] | _ => [] end = pending c.
Proof.
  intros [Ha [Hc|(o & co & Hc & Ho & Hi)] ]; unfold Collector.get_nowait, pending; rewrite Hc.
  - exists None, c. split; [done|]. split; [split; [done|by left]|]. by rewrite Hc.
  - eexists _, _. split; [reflexivity|]. split; [split; [done|by left]|]. done.
Qed.

Lemma run_gone rid q evs op d index c got : gone rid q op d index c got -> about rid evs ->
  exists more op' c', run q evs op = (Ok more, op') /\ gone rid q op' d index c' (got ++ more).
Proof.
  revert op c got. induction evs as [|e evs IH]; intros op c got Hg Hab.
  - exists [], op, c. by rewrite app_nil_r.
  - apply Forall_cons in Hab as [He Hab]. destruct e as [eo|]; cbn [run].
    + destruct He as [Hid _]. erewrite bind_ok; [by eapply IH|]. cbn [Process.process_outputs]. erewrite bind_ok by reflexivity. rewrite Hid, (gn_get _ _ _ _ _ _ _ Hg). reflexivity.
    + destruct Hg as [G1 G2 G3 G4 G5 G6]. destruct (take_pending index c G3) as (r & c' & Hget & Hc' & Hp & Hr).
      set (op1 := {| op with queues := <[q := c']> (queues op) |}). assert (take_output q op = (Ok (pending c), op1)) as Ht.
      { unfold take_output. rewrite G2, Hget, <- Hr. by destruct r as [ [?|?]|]. }
      destruct (IH op1 c' (got ++ pending c)) as (more & op' & c2 & Hrun & Hg'); [|done|].
      { split; [done|by cbn; rewrite lookup_insert_eq|done|..]; by rewrite Hp, app_nil_r. }
      exists (pending c ++ more), op', c2. erewrite bind_ok by exact Ht. erewrite bind_ok by exact Hrun. rewrite app_assoc. done.
Qed.

(** What the client has got so far and what waits for it. *)
Definition received (rid : string) (op : OP) (all : list RequestOutput) (d : Detokenizer D) (fin : bool) : Prop :=
  if fin then texts all = output_text d /\ tokens all = output_token_ids d /\ (exists o, last all = Some o /\ ro_finished o = true)
    /\ Dict.get rid (request_states op) = None
  else texts all `prefix_of` output_text d /\ tokens all `prefix_of` output_token_ids d /\ existsb ro_finished all = false
    /\ is_Some (Dict.get rid (request_states op)).

Lemma run_live rid q evs op rs n d c got d' fin : live rid q op rs (set_offset n d) c got -> about rid evs -> reference d evs = Ok (d', fin) ->
  exists more op' c', run q evs op = (Ok more, op') /\ queues op' !! q = Some c' /\ received rid op' (got ++ more ++ pending c') d' fin.
Proof.
  revert op rs n d c got. induction evs as [|e evs IH]; intros op rs n d c got Hl Hab Href.
  - injection Href as <- <-. exists [], op, c. split; [done|]. destruct Hl as [L1 L2 L3 L4 L5 L6 L7 L8 L9 L10]. split; [done|]. cbn [received app]. destruct L6 as [L6 _].
    split; [rewrite L6; apply prefix_take|]. split; [|split; [done|by rewrite L2] ]. unfold tokens_sent in L8. change (output_token_ids (set_offset n d)) with (output_token_ids d) in L8.
    destruct (1 <? rs_stream_interval rs); [|by rewrite L8]. destruct L8 as [-> _]. apply prefix_take.
  - apply Forall_cons in Hab as [He Hab]. destruct e as [eo|]; cbn [run reference] in *.
    + destruct He as [Hid Hpool]. pose proof (feed_offset n eo d) as Hoff. destruct (feed eo d) as [ [r|e] d1]; [|done]. cbn [mbind res_bind] in Href.
      destruct (process_live rid q op rs _ c got eo r _ Hl Hid Hpool Hoff) as (op1 & outs & aborts & c1 & Hp & Hres). erewrite bind_ok by exact Hp. destruct (ends r eo).
      * injection Href as <- <-. destruct (run_gone rid q evs op1 _ _ c1 got Hres Hab) as (more & op' & c' & Hrun & [G1 G2 G3 G4 G5 G6]).
        exists more, op', c'. split; [done|]. split; [done|]. rewrite app_assoc. by split_and!.
      * destruct Hres as (rs1 & n1 & Hl1 & _). eapply IH; [|exact Hab|exact Href]. exact Hl1.
    + destruct Hl as [L1 L2 L3 L4 L5 L6 L7 L8 L9 L10]. destruct (take_pending _ c L5) as (r & c' & Hget & Hc' & Hp & Hr).
      set (op1 := {| op with queues := <[q := c']> (queues op) |}). assert (take_output q op = (Ok (pending c), op1)) as Ht.
      { unfold take_output. rewrite L4, Hget, <- Hr. by destruct r as [ [?|?]|]. }
      destruct (IH op1 rs n d c' (got ++ pending c)) as (more & op' & c2 & Hrun & Hq & Hrec); [|done|done|].
      { split; [done|done|done|by cbn; rewrite lookup_insert_eq|done|..]; by rewrite ?Hp, ?app_nil_r. }
      exists (pending c ++ more), op', c2. erewrite bind_ok by exact Ht. erewrite bind_ok by exact Hrun. split; [done|]. split; [done|].
      by rewrite <- !app_assoc in *.
Qed.

(** ** From the request on *)

Definition stop_list (p : StopParams) : list text := match p_stop p with NoStop => [] | OneStop s => [s] | Stops l => l end.

(** What a tokenizer must give a new request. *)
Class FreshDetokenizer : Prop := fresh_detokenizer : forall (t : Tok) (p : StopParams) ids n,
  0 <= n -> (forall l, ids = Some l -> n = zlen l) -> Forall (fun s => s ≠ []) (stop_list p) ->
  let d := make_detokenizer t p ids n in
  output_text d = [] /\ last_output_text_offset d = 0 /\ output_token_ids d = [] /\ lengths_ok d /\ stops_ok d /\ buffer_ok d.

(** C6: A streaming client receives exactly the text of its request. A request for deltas is added, with
    any stop strings and any stream interval; then engine outputs for it arrive and the
    client takes what waits in its queue, in any order and however far it is behind.
    Nothing fails as long as the tokenizer decodes the tokens; what the client has
    taken and what waits for it is, together, a prefix of the text and of the tokens
    that the detokenizer alone produces from these outputs, and once the request has
    ended - in the engine or at a stop string - it is all of both: the last output is
    marked as finished, the request is forgotten, and later outputs
    change nothing.  So no character of an excluded stop string is ever sent, none is
    sent twice, and none is lost. *)
Theorem client_stream_exact (op : OP) (r : EngineCoreRequest) (prompt : option text) (t : Tok) (p : StopParams) (q : nat) (qid ext : string) (n : Z)
  (evs : list client_event) (d' : Detokenizer D) (fin : bool)
  (Hfresh : FreshDetokenizer) (Htok : op_tokenizer op = Some t) (Hnd : NoDup (Dict.keys (request_states op)))
  (Hnew : Dict.get (er_request_id r) (request_states op) = None) (Hq : queues op !! q = Some (Collector.init DELTA qid))
  (Hparams : er_params r = SamplingParams DELTA true p) (Hext : er_external_req_id r = Some ext) (Hres : er_resumable r = false)
  (Hprompt : prompt_length (er_prompt_token_ids r) (er_prompt_embeds_len r) = Ok n) (Hn : 0 <= n)
  (Hstops : Forall (fun s => s ≠ []) (stop_list p)) (Hab : about (er_request_id r) evs)
  (Href : reference (make_detokenizer t p (er_prompt_token_ids r) n) evs = Ok (d', fin)) :
  exists got op' c', (Process.add_request r prompt None 0 (Some q) ;; run q evs) op = (Ok got, op')
    /\ queues op' !! q = Some c' /\ received (er_request_id r) op' (got ++ pending c') d' fin.
Proof.
  set (d := make_detokenizer t p (er_prompt_token_ids r) n) in *.
  assert (forall l, er_prompt_token_ids r = Some l -> n = zlen l) as Hlen.
  { intros l El. rewrite El in Hprompt. cbn in Hprompt. destruct (er_prompt_embeds_len r) as [m|]; [|by injection Hprompt as <-]. destruct (Z.eqb_spec m (zlen l)); [|done]. injection Hprompt as <-. done. }
  destruct (Hfresh t p (er_prompt_token_ids r) n Hn Hlen Hstops) as (Htext & Hoff & Hids & Hl & Hst & Hbuf). fold d in Htext, Hoff, Hids, Hl, Hst, Hbuf.
  destruct (Process.from_new_request (Some t) r prompt None 0 (Some q) (op_stream_interval op)) as [rs|e] eqn:Ers.
  2: { unfold Process.from_new_request in Ers. rewrite Hext, Hprompt, Hparams in Ers. discriminate Ers. }
  assert (stream_state (er_request_id r) q rs d /\ rs_external_req_id rs = ext /\ sent_tokens_offset rs = 0) as (Hs & Hx & Hso).
  { unfold Process.from_new_request in Ers. rewrite Hext, Hprompt, Hparams in Ers. injection Ers as <-. split; [|done]. split; try done.
    unfold Process.output_prompt. cbn. unfold prompt_length in Hprompt. destruct (er_prompt_token_ids r) as [l|]; [by exists l|]. destruct (er_prompt_embeds_len r); [by eexists|done]. }
  set (op1 := Process.set_external (Dict.set ext (default [] (Dict.get ext (external_req_ids op)) ++ [er_request_id r]) (external_req_ids op)) (Process.update_state rs op)).
  assert (Process.add_request r prompt None 0 (Some q) op = (Ok tt, op1)) as Hadd.
  { unfold Process.add_request. erewrite bind_ok by reflexivity. rewrite Hnew, Htok. erewrite bind_ok; [|unfold lift_res; rewrite Ers; reflexivity].
    erewrite bind_ok by reflexivity. erewrite bind_ok by reflexivity. unfold modify, op1. cbv zeta. by rewrite Hx. }
  assert (live (er_request_id r) q op1 rs (set_offset 0 d) (Collector.init DELTA qid) []) as Hlive.
  { assert (set_offset 0 d = d) as -> by (rewrite <- Hoff; by destruct d). split.
    - cbn. by apply Dict.NoDup_set.
    - cbn. rewrite (ss_id _ _ _ _ Hs), Dict.get_set. by rewrite decide_True.
    - done.
    - done.
    - split; [done|by left].
    - unfold is_sent. rewrite Hoff, Htext. by split.
    - by left.
    - unfold tokens_sent. rewrite Hids, Hso. cbn. by destruct (1 <? _).
    - done.
    - rewrite Hx. cbn. rewrite Dict.get_set, decide_True by done. eexists. split; [reflexivity|]. apply elem_of_app. right. by left. }
  destruct (run_live _ q evs op1 rs 0 d _ [] d' fin Hlive Hab Href) as (got & op' & c' & Hrun & Hq' & Hrec).
  exists got, op', c'. erewrite bind_ok by exact Hadd. by split_and!.
Qed.
End stream.

Section tokenizers.
Context {Stream T : Type} `{DecodeStream Stream} `{TokenizerLike T}.

#[export] Instance tokenizers_fresh : FreshDetokenizer (D := Fast Stream + Slow T) (Tok := list (Z * text) + T).
Proof.
  intros t p ids n Hn Hids Hstops.
  assert (forall (D : Type) (x : D) l m, zlen l = m -> lengths_ok (init p l m x) /\ output_token_ids (init p l m x) = []) as Hlen.
  { intros D x l m Hm. assert (lengths_ok (init p l m x)) as Hl by (unfold lengths_ok; cbn; pose proof (zlen_nonneg l); lia). split; [done|].
    rewrite output_ids_drop by done. cbn [init prompt_len token_ids]. rewrite <- Hm. unfold zlen. by rewrite Nat2Z.id, drop_all. }
  assert (forall (D : Type) (x : D) l m, stops_ok (init p l m x)) as Hst by done.
  destruct t as [added|t]; cbn [make_detokenizer from_tokenizer].
  - unfold fast_init. destruct (Hlen _ {| stream := new_stream (default [] ids) (skip_special_tokens p); fast_skip_special_tokens := skip_special_tokens p;
       fast_spaces_between := (skip_special_tokens p || spaces_between_special_tokens p) || match added with [] => true | _ => false end;
       last_special := false; added_token_ids := if skip_special_tokens p || spaces_between_special_tokens p then [] else added |} [] 0 eq_refl) as [L1 L2].
    destruct (detok_init_ok p [] 0 _ (Hst _ {| stream := new_stream (default [] ids) (skip_special_tokens p); fast_skip_special_tokens := skip_special_tokens p;
       fast_spaces_between := (skip_special_tokens p || spaces_between_special_tokens p) || match added with [] => true | _ => false end;
       last_special := false; added_token_ids := if skip_special_tokens p || spaces_between_special_tokens p then [] else added |} [] 0)) as [B _].
    split_and!; try done; exact B.
  - unfold slow_init. destruct (match ids with Some l => _ | None => _ end) as [ [toks a] b].
    set (l := match default [] ids with [] => replicate (Z.to_nat n) 0 | _ => default [] ids end). set (x := {| tokenizer := t; Detok.tokens := toks; prefix_offset := a; read_offset := b; slow_skip_special_tokens := _; slow_spaces_between := _ |}).
    assert (zlen l = n) as Hl.
    { unfold l. destruct ids as [ [|i ids]|]; cbn; [|by rewrite (Hids _ eq_refl)|]; unfold zlen; rewrite length_replicate; lia. }
    destruct (Hlen _ x l n Hl) as [L1 L2]. destruct (detok_init_ok p l n x (Hst _ x l n)) as [B _]. split_and!; try done; exact B.
Qed.
End tokenizers.

(** ** A request that stops at a text split over two steps *)

#[local] Instance echo_stream : DecodeStream unit := { stream_step s t := (StepToken (Some [t]), s); new_stream _ _ := tt }.
#[local] Instance echo_tokenizer : TokenizerLike unit := {
  tok_len _ := 256; tok_is_fast _ := true; get_added_vocab _ := []; all_special_tokens _ := [];
  convert_ids_to_tokens _ ids _ := (fun i => Some [i]) <$> ids; convert_tokens_to_string _ l := concat l }.
#[local] Notation echo := (list (Z * text) + unit)%type.

Definition echo_output (ids : list Z) : EngineCoreOutput :=
  {| eo_request_id := "r"; eo_new_token_ids := ids; eo_pooling_output := false; eo_finish_reason := None; eo_stop_reason := None;
     eo_num_cached_tokens := 0; eo_num_external_computed_tokens := 0 |}.
Definition echo_params : StopParams :=
  {| p_stop := Stops [ [33; 34] ]; p_min_tokens := 0; p_include_stop_str_in_output := false; skip_special_tokens := true; spaces_between_special_tokens := true |}.
Definition echo_request : EngineCoreRequest :=
  {| er_request_id := "r"; er_external_req_id := Some "x"%string; er_prompt_token_ids := Some [1; 2]; er_prompt_embeds_len := None;
     er_params := SamplingParams DELTA true echo_params; er_resumable := false |}.
Definition echo_processor : OutputProcessor (Fast unit + Slow unit) echo :=
  {| op_tokenizer := Some (inl [] : echo); op_stream_interval := 2; request_states := []; parent_requests := []; external_req_ids := [];
     parents := ∅; queues := {[ 0%nat := Collector.init DELTA "x" ]} |}.
Definition echo_events : list client_event := [Engine (echo_output [97; 33]); Take; Engine (echo_output [34; 98]); Engine (echo_output [99])].

Lemma client_stream_exact_witness :
  exists got op' c', (Process.add_request echo_request None None 0 (Some 0%nat) ;; run 0 echo_events) echo_processor = (Ok got, op')
    /\ queues op' !! 0%nat = Some c' /\ texts (got ++ pending c') = [97] /\ tokens (got ++ pending c') = [97; 33; 34; 98].
Proof.
  destruct (reference (make_detokenizer (inl [] : echo) echo_params (Some [1; 2]) 2) echo_events) as [ [d' fin]|] eqn:E; [|vm_compute in E; discriminate E].
  assert (fin = true /\ output_text d' = [97] /\ output_token_ids d' = [97; 33; 34; 98]) as (-> & Ht & Hi) by (vm_compute in E; injection E as <- <-; done).
  destruct (client_stream_exact echo_processor echo_request None (inl [] : echo) echo_params 0%nat "x"%string "x"%string 2 echo_events d' true) as (got & op' & c' & Hrun & Hq & Hx & Hy & _).
  - apply tokenizers_fresh.
  - reflexivity.
  - constructor.
  - reflexivity.
  - reflexivity.
  - reflexivity.
  - reflexivity.
  - reflexivity.
  - reflexivity.
  - lia.
  - by apply Forall_cons_2.
  - repeat (apply Forall_cons_2; [done|]). apply Forall_nil_2.
  - exact E.
  - exists got, op', c'. split; [exact Hrun|]. split; [exact Hq|]. rewrite Hx, Hy. by split.
Defined.

(** ** Two surprises *)

(** The stream interval is meant to send tokens only every so often, but the offset of sent tokens
    is moved for deltas only: with cumulative outputs and an interval of 5 every
    single token is sent. *)
Lemma interval_ignored_when_cumulative :
  let r := {| echo_request with er_params := SamplingParams CUMULATIVE true echo_params |} in
  let op := {| echo_processor with op_stream_interval := 5; queues := ∅ |} in
  match (Process.add_request r None None 0 None ;; Process.process_outputs [echo_output [97]; echo_output [98]; echo_output [99]]) op with
  | (Ok (outs, _), _) => (fun o => match o with Completion o => tokens [o] | Pooled _ => [] end) <$> outs = [ [97]; [97; 98]; [97; 98; 99] ]
  | (Raise _, _) => False
  end.
Proof. vm_compute. reflexivity. Qed.

(** Aborting a parallel-sampling request by its external id finishes all children, but the
    parent stays registered for ever. *)
Lemma parent_stays_after_abort :
  let child i := {| er_request_id := Parent.child_id i "p"; er_external_req_id := Some "x"%string; er_prompt_token_ids := Some [1; 2]; er_prompt_embeds_len := None;
                    er_params := SamplingParams DELTA true echo_params; er_resumable := false |} in
  let parent := Parent.set_children [Parent.child_id 0 "p"; Parent.child_id 1 "p"] (Parent.init "p" "x" 2 None DELTA) in
  let op := {| echo_processor with parents := {[ 0%nat := parent ]} |} in
  match (Process.add_request (child 0) None (Some 0%nat) 0 (Some 0%nat) ;; Process.add_request (child 1) None (Some 0%nat) 1 (Some 0%nat) ;;
         Process.abort_requests 2 ["x"%string] false) op with
  | (Ok ids, op) => ids = [Parent.child_id 0 "p"; Parent.child_id 1 "p"] /\ request_states op = [] /\ external_req_ids op = []
      /\ child_requests <$> (parents op !! 0%nat) = Some [] /\ parent_requests op = [("p"%string, 0%nat)]
  | (Raise _, _) => False
  end.
Proof. vm_compute. by split_and!. Qed.

End OutputStream.
