(* ===== verification/BatchUpdate.v ===== *)
(** What changes in the worker's batch, and the logits processors that follow it:
    [v1/sample/logits_processor/state.py], [interface.py] and the states of the
    processors of [builtin.py].

    Output token lists are shared with the requests: a reference into a heap.  Arrays of
    [float32] round what is stored; the rounding is a class.  The arithmetic on
    logits is left out. *)

From Stdlib Require Import QArith.
From stdpp Require Import sorting.
From S2P Require Import Prelude.
Local Open Scope Z_scope.

(** NumPy's conversion to [float32]. *)
Class Float32 := to_float32 : Q -> Q.

#[export] Instance Q_eq_dec : EqDecision Q.
Proof. solve_decision. Defined.

(** The truth of a float, and [x != y] of floats. *)
Definition Qtruthy (x : Q) : bool := negb (Qeq_bool x 0).
Definition Qneq (x y : Q) : bool := negb (Qeq_bool x y).

(** The fields of [SamplingParams] that the worker reads. *)
Record WorkerParams := {
  temperature : Q;
  seed : option Z;
  top_p : Q;
  top_k : Z;
  frequency_penalty : Q;
  presence_penalty : Q;
  repetition_penalty : Q;
  logprobs : option Z;
  logprob_token_ids : option (list Z);
  allowed_token_ids : option (list Z);
  bad_words_token_ids : option (list (list Z));
  min_p : Q;
  logit_bias : option (list (Z * Q));
  wp_min_tokens : Z;
  all_stop_token_ids : list Z;
  thinking_token_budget : option Z;
  wp_prompt_logprobs : option Z;
}.

(** ** Changes of the batch *)

Inductive MoveDirectionality := UNIDIRECTIONAL | SWAP.
#[export] Instance MoveDirectionality_eq_dec : EqDecision MoveDirectionality.
Proof. solve_decision. Defined.

(** A reference to an output token list. *)
Definition output_ref := nat.
Definition heap := gmap output_ref (list Z).

(** [AddedRequest] and [MovedRequest] *)
Record AddedRequest := {
  added_index : Z;
  added_params : WorkerParams;
  added_prompt : option (list Z);
  added_output : output_ref;
}.
Record MovedRequest := { moved_from : Z; moved_to : Z; moved_direction : MoveDirectionality }.

Record BatchUpdate := {
  batch_size : Z;
  upd_removed : list Z;
  upd_added : list AddedRequest;
  upd_moved : list MovedRequest;
}.

Record BatchUpdateBuilder := {
  removed_ : list Z;
  is_removed_sorted : bool;
  added : list AddedRequest;
  moved : list MovedRequest;
  batch_changed : bool;
}.

Module Builder.

Definition init : BatchUpdateBuilder :=
  {| removed_ := []; is_removed_sorted := false; added := []; moved := []; batch_changed := false |}.

(** [list.sort(reverse=True)] on integers. *)
Definition sort_descending (l : list Z) : list Z := merge_sort Z.ge l.

(** [_ensure_removed_sorted] *)
Definition ensure_removed_sorted : M BatchUpdateBuilder unit := fun b =>
  (Ok tt, if is_removed_sorted b then b else {| b with removed_ := sort_descending (removed_ b); is_removed_sorted := true |}).

(** [removed] *)
Definition removed : M BatchUpdateBuilder (list Z) := ensure_removed_sorted ;; gets removed_.

(** [removed_append] *)
Definition removed_append (index : Z) : M BatchUpdateBuilder unit := fun b =>
  if is_removed_sorted b then (Raise RuntimeError, b)
  else (Ok tt, {| b with removed_ := removed_ b ++ [index]; batch_changed := true |}).

Definition has_removed (b : BatchUpdateBuilder) : bool := negb (bool_decide (removed_ b = [])).

(** [peek_removed] *)
Definition peek_removed : M BatchUpdateBuilder (option Z) :=
  some ← gets has_removed;
  if some : bool then ensure_removed_sorted ;; gets (fun b => last (removed_ b)) else mret None.

(** [pop_removed] *)
Definition pop_removed : M BatchUpdateBuilder (option Z) :=
  some ← gets has_removed;
  if some : bool then
    ensure_removed_sorted ;;
    lowest ← gets (fun b => last (removed_ b));
    modify (fun b => {| b with removed_ := removelast (removed_ b) |}) ;;
    mret lowest
  else mret None.

Definition changed (b : BatchUpdateBuilder) : BatchUpdateBuilder := {| b with batch_changed := true |}.
Definition add (a : AddedRequest) (b : BatchUpdateBuilder) : BatchUpdateBuilder := {| b with added := added b ++ [a] |}.
Definition move (m : MovedRequest) (b : BatchUpdateBuilder) : BatchUpdateBuilder := {| b with moved := moved b ++ [m] |}.

(** [reset] *)
Definition reset : M BatchUpdateBuilder bool := fun b => (Ok (batch_changed b), init).

(** [get_and_reset] *)
Definition get_and_reset (size : Z) : M BatchUpdateBuilder (option BatchUpdate) := fun b =>
  match removed_ b, moved b, added b with
  | [], [], [] => (Ok None, {| b with is_removed_sorted := false; batch_changed := false |})
  | r, m, a => (Ok (Some {| batch_size := size; upd_removed := r; upd_added := a; upd_moved := m |}), init)
  end.

End Builder.

(** ** Processors that keep a dictionary *)

Section dict_updates.
Context {T : Type} (truthy : T -> bool) (new_state : AddedRequest -> option T).
Implicit Types d : list (Z * T).

(** [d.pop(index, None)] *)
Definition dict_pop (index : Z) : M (list (Z * T)) (option T) := fun d => (Ok (Dict.get index d), Dict.del index d).

(** The loops of [process_dict_updates]. *)
Definition dict_added (a : AddedRequest) : M (list (Z * T)) bool :=
  match new_state a with
  | Some state => modify (Dict.set (added_index a) state) ;; mret true
  | None => old ← dict_pop (added_index a); mret (bool_decide (is_Some old))
  end.
Definition dict_removed (index : Z) : M (list (Z * T)) bool :=
  old ← dict_pop index; mret (match old with Some t => truthy t | None => false end).
Definition dict_moved (m : MovedRequest) : M (list (Z * T)) bool :=
  a_entry ← dict_pop (moved_from m);
  b_entry ← dict_pop (moved_to m);
  match a_entry with Some a => modify (Dict.set (moved_to m) a) | None => mret tt end ;;
  match b_entry, moved_direction m with
  | Some b, SWAP => modify (Dict.set (moved_from m) b)
  | _, _ => mret tt
  end ;;
  mret (bool_decide (is_Some a_entry) || bool_decide (is_Some b_entry)).

(** [process_dict_updates]: whether anything was updated. *)
Definition process_dict_updates (batch_update : option BatchUpdate) : M (list (Z * T)) bool :=
  match batch_update with
  | None => mret false
  | Some u =>
      added ← mmapM (upd_added u) dict_added;
      d ← gets id;
      match d with
      | [] => mret (existsb id added)
      | _ =>
          removed ← mmapM (upd_removed u) dict_removed;
          moved ← mmapM (upd_moved u) dict_moved;
          mret (existsb id (added ++ removed ++ moved))
      end
  end.
End dict_updates.

(** ** Logit bias *)

(** The slices are the tensors on the device. *)
Record LogitBias := {
  biases : list (Z * list (Z * Q));
  bias_tensor : list Q;
  bias_slice : list Z * list Z;
}.

Module Bias.
Section bias.
Context `{Float32}.

Definition init : LogitBias := {| biases := []; bias_tensor := []; bias_slice := ([], []) |}.

(** [params.logit_bias or None] *)
Definition new_state (a : AddedRequest) : option (list (Z * Q)) :=
  match logit_bias (added_params a) with Some [] => None | lb => lb end.

(** The tensors that are built from [self.biases]. *)
Definition tensors (d : list (Z * list (Z * Q))) : list Q * (list Z * list Z) :=
  (d ≫= fun e => to_float32 <$> e.2.*2, (d ≫= fun e => replicate (length e.2) e.1, d ≫= fun e => e.2.*1)).

(** [update_state] *)
Definition update_state (u : option BatchUpdate) : M LogitBias unit := fun p =>
  match process_dict_updates (fun lb => negb (bool_decide (lb = []))) new_state u (biases p) with
  | (Raise e, d) => (Raise e, {| p with biases := d |})
  | (Ok needs_update, d) =>
      (Ok tt, if needs_update : bool then {| biases := d; bias_tensor := (tensors d).1; bias_slice := (tensors d).2 |}
              else {| p with biases := d |})
  end.
End bias.
End Bias.

(** ** The least number of tokens *)

Record MinTokensState := { mt_min_tokens : Z; mt_output : output_ref; mt_stop_token_ids : list Z }.
Record MinTokens := {
  min_toks : list (Z * MinTokensState);
  min_toks_slice : list Z * list Z;
}.

Module MinToks.

Definition init : MinTokens := {| min_toks := []; min_toks_slice := ([], []) |}.

Definition output_len (h : heap) (r : output_ref) : Z := zlen (default [] (h !! r)).

(** [add_request] *)
Definition add_request (h : heap) (a : AddedRequest) : option MinTokensState :=
  let n := wp_min_tokens (added_params a) in
  if (n =? 0) || (n <=? output_len h (added_output a)) then None
  else Some {| mt_min_tokens := n; mt_output := added_output a; mt_stop_token_ids := all_stop_token_ids (added_params a) |}.

Definition tensors (d : list (Z * MinTokensState)) : list Z * list Z :=
  (d ≫= fun e => replicate (length (mt_stop_token_ids e.2)) e.1, d ≫= fun e => mt_stop_token_ids e.2).

Definition attained (h : heap) (e : Z * MinTokensState) : bool := mt_min_tokens e.2 <=? output_len h (mt_output e.2).

(** [update_state] *)
Definition update_state (h : heap) (u : option BatchUpdate) : M MinTokens unit := fun p =>
  match process_dict_updates (fun _ => true) (add_request h) u (min_toks p) with
  | (Raise e, d) => (Raise e, {| p with min_toks := d |})
  | (Ok needs_update, d) =>
      let to_remove := Dict.keys (filter (fun e => attained h e) d) in
      let d := foldl (fun d i => Dict.del i d) d to_remove in
      (Ok tt, if needs_update || negb (bool_decide (to_remove = [])) then {| min_toks := d; min_toks_slice := tensors d |}
              else {| p with min_toks := d |})
  end.

End MinToks.

(** ** Min-p *)

Record MinP := {
  min_p_count : Z;
  min_p_cpu : list Q;
  use_double_tensor : bool;
  (** the tensor on the device, when it is another one, and the size of the slice [min_p] *)
  min_p_device : list Q;
  min_p_size : Z;
}.

Module MinPs.
Section min_p.
Context `{Float32}.

Definition init (max_num_reqs : Z) (double : bool) : MinP :=
  {| min_p_count := 0; min_p_cpu := replicate (Z.to_nat max_num_reqs) 0%Q; use_double_tensor := double;
     min_p_device := replicate (Z.to_nat max_num_reqs) 0%Q; min_p_size := 0 |}.

(** The slice [min_p]. *)
Definition slice (p : MinP) : list Q := py_upto (if use_double_tensor p then min_p_device p else min_p_cpu p) (min_p_size p).

Definition count (n : Z) : M MinP unit := modify (fun p => {| p with min_p_count := min_p_count p + n |}).
Definition read (i : Z) : M MinP Q := fun p => (py_get (min_p_cpu p) i, p).
Definition write (i : Z) (x : Q) : M MinP unit :=
  p ← gets id; l ← lift_res (py_set (min_p_cpu p) i x);
  modify (fun p => {| p with min_p_cpu := l |}).

(** The loops of [update_state]; each iteration gives its share of [needs_update]. *)
Definition on_added (a : AddedRequest) : M MinP bool :=
  let min_p := min_p (added_params a) in
  min_p_before ← read (added_index a);
  if Qneq min_p_before (to_float32 min_p) then
    write (added_index a) (to_float32 min_p) ;;
    (if Qtruthy min_p && negb (Qtruthy min_p_before) then count 1
     else if negb (Qtruthy min_p) && Qtruthy min_p_before then count (-1) else mret tt) ;;
    mret true
  else mret false.
Definition on_removed (index : Z) : M MinP unit :=
  x ← read index;
  if Qtruthy x then write index 0%Q ;; count (-1) else mret tt.
Definition on_moved (m : MovedRequest) : M MinP bool :=
  min_p_a ← read (moved_from m);
  min_p_b ← read (moved_to m);
  (if Qneq min_p_a min_p_b then
     write (moved_to m) min_p_a ;;
     if decide (moved_direction m = SWAP) then write (moved_from m) min_p_b else mret tt
   else mret tt) ;;
  (if decide (moved_direction m = UNIDIRECTIONAL) then
     (if Qtruthy min_p_a then write (moved_from m) 0%Q else mret tt) ;;
     (if Qtruthy min_p_b then count (-1) else mret tt)
   else mret tt) ;;
  mret (Qneq min_p_a min_p_b).

(** [update_state] *)
Definition update_state (u : option BatchUpdate) : M MinP unit :=
  match u with
  | None => mret tt
  | Some u =>
      added ← mmapM (upd_added u) on_added;
      p ← gets id;
      needs_update ← (if min_p_count p =? 0 then mret (existsb id added) else
        mfor (upd_removed u) on_removed ;;
        moved ← mmapM (upd_moved u) on_moved;
        mret (existsb id (added ++ moved) || negb (bool_decide (upd_removed u = []))));
      p ← gets id;
      if negb (min_p_count p =? 0) && (needs_update || negb (min_p_size p =? batch_size u)) then
        modify (fun p => {| p with min_p_size := batch_size u;
          min_p_device := if use_double_tensor p then py_upto (min_p_cpu p) (batch_size u) ++ py_from (min_p_device p) (batch_size u) else min_p_device p |})
      else mret tt
  end.
End min_p.
End MinPs.

(** ** The budget of thinking tokens *)

Record ThinkState := {
  in_think : bool;
  in_end : bool;
  check_count_down : Z;
  think_count : Z;
  end_count : Z;
  think_prompt : option (list Z);
  (** [\[\]] of [_init_state_entry], or the list of the request *)
  think_output : option output_ref;
  think_budget : Z;
  prev_output_length : Z;
}.

Record ThinkingTokenBudget := {
  is_enabled : bool;
  reasoning_start_token_ids : list Z;
  reasoning_end_token_ids : list Z;
  think_states : list (Z * ThinkState);
}.

Module Thinking.

(** [_find_last_sequence_index] *)
Definition find_last_sequence_index (target_list token_ids : list Z) : Z :=
  match token_ids with
  | [] => -1
  | _ => default (-1) (head (filter (fun i => py_slice target_list i (i + zlen token_ids) = token_ids)
                               (rev (py_range 0 (zlen target_list - zlen token_ids + 1)))))
  end.

Section thinking.
Context (start_ids end_ids : list Z).

(** [_init_state_entry] *)
Definition init_state_entry (prompt_tok_ids : option (list Z)) (budget : Z) : ThinkState :=
  let '(in_think, think_count) := match prompt_tok_ids with
    | None => (false, 0)
    | Some prompt =>
        let last_start := find_last_sequence_index prompt start_ids in
        let last_end := find_last_sequence_index prompt end_ids in
        if last_end <? last_start then (true, zlen prompt - (last_start + zlen start_ids)) else (false, 0)
    end in
  {| in_think := in_think; in_end := in_think && (budget =? 0); check_count_down := budget; think_count := think_count;
     end_count := 0; think_prompt := prompt_tok_ids; think_output := None; think_budget := budget; prev_output_length := 0 |}.

(** The part of [_update_think_state] that looks for the sequences in new tokens. *)
Definition scan (output : list Z) (prev_length : Z) (s : ThinkState) : ThinkState :=
  let current_length := zlen output in
  let new_tokens := py_from output prev_length in
  let check_start_idx := Z.max 0 (prev_length - Z.max (zlen start_ids) (zlen end_ids) + 1) in
  let recent_tokens := py_from output check_start_idx in
  let recent_start_pos := find_last_sequence_index recent_tokens start_ids in
  let recent_end_pos := find_last_sequence_index recent_tokens end_ids in
  let started := {| s with in_think := true; think_count := current_length - (check_start_idx + recent_start_pos + zlen start_ids) |} in
  let ended := {| s with in_think := false; think_count := 0 |} in
  if (0 <=? recent_start_pos) && (0 <=? recent_end_pos) then (if recent_end_pos <? recent_start_pos then started else ended)
  else if 0 <=? recent_start_pos then started
  else if 0 <=? recent_end_pos then ended
  else if in_think s then {| s with think_count := think_count s + zlen new_tokens |} else s.

(** [_update_think_state] *)
Definition update_think_state (h : heap) (s : ThinkState) : ThinkState :=
  if negb (in_end s) && (0 <? check_count_down s) then {| s with check_count_down := check_count_down s - 1 |}
  else
    let output := default [] (think_output s ≫= fun r => h !! r) in
    let prev_length := prev_output_length s in
    if bool_decide (output = []) || (zlen output <=? prev_length) then s
    else
      let s := {| s with prev_output_length := zlen output |} in
      if negb (in_end s) then
        let s := scan output prev_length s in
        let s := {| s with check_count_down := if in_think s then Z.max 0 (Z.max 0 (think_budget s - think_count s) - 1) else think_budget s |} in
        if in_think s && (think_budget s <=? think_count s)
        then {| s with in_think := false; in_end := true; end_count := 0; check_count_down := think_budget s |} else s
      else
        let s := {| s with end_count := end_count s + 1 |} in
        if zlen end_ids <=? end_count s then {| s with in_end := false; end_count := 0; check_count_down := think_budget s |} else s.

Definition on_added (a : AddedRequest) (d : list (Z * ThinkState)) : list (Z * ThinkState) :=
  match thinking_token_budget (added_params a) with
  | Some budget => Dict.set (added_index a) {| (init_state_entry (added_prompt a) budget) with think_output := Some (added_output a) |} d
  | None => Dict.del (added_index a) d
  end.

Definition on_moved (m : MovedRequest) (d : list (Z * ThinkState)) : list (Z * ThinkState) :=
  let put i o d := match o with Some s => Dict.set i s d | None => d end in
  match moved_direction m with
  | SWAP =>
      let state1 := Dict.get (moved_from m) d in
      let d := Dict.del (moved_from m) d in
      let state2 := Dict.get (moved_to m) d in
      let d := Dict.del (moved_to m) d in
      put (moved_from m) state2 (put (moved_to m) state1 d)
  | UNIDIRECTIONAL => put (moved_to m) (Dict.get (moved_from m) d) (Dict.del (moved_from m) d)
  end.

Definition follow (u : BatchUpdate) (d : list (Z * ThinkState)) : list (Z * ThinkState) :=
  let d := foldl (fun d a => on_added a d) d (upd_added u) in
  let d := foldl (fun d i => Dict.del i d) d (upd_removed u) in
  foldl (fun d m => on_moved m d) d (upd_moved u).
End thinking.

(** [update_state] *)
Definition update_state (h : heap) (u : option BatchUpdate) (p : ThinkingTokenBudget) : ThinkingTokenBudget :=
  if negb (is_enabled p) then p
  else
    let d := match u with Some u => follow (reasoning_start_token_ids p) (reasoning_end_token_ids p) u (think_states p) | None => think_states p end in
    {| p with think_states := (fun '(i, s) => (i, update_think_state (reasoning_start_token_ids p) (reasoning_end_token_ids p) h s)) <$> d |}.

(** [apply]: the token that each of the rows is forced to. *)
Definition forced (p : ThinkingTokenBudget) (rows : Z) : res (list (option Z)) :=
  if negb (is_enabled p) || bool_decide (think_states p = []) then Ok (replicate (Z.to_nat rows) None)
  else mapM (fun i =>
    match Dict.get i (think_states p) with
    | Some s => if in_end s then t ← py_get (reasoning_end_token_ids p) (end_count s); Ok (Some t) else Ok None
    | None => Ok None
    end) (py_range 0 rows).

End Thinking.
