(* ===== verification/LogitsFacts.v ===== *)
(** The logits processors follow the batch.

    A layout says which request is in which row of the batch; a batch update describes how
    one layout became another.  When it is handed on, the dictionary of a
    processor and the array of min-p values show the new layout. *)

From Stdlib Require Import QArith.
From stdpp Require Import gmap.
From S2P Require Import Prelude BatchUpdate.
Local Open Scope Z_scope.

Module LogitsFacts.

(** ** Layouts *)

(** What the processors are told of a request: parameters, prompt and output list. *)
Definition payload : Type := WorkerParams * option (list Z) * output_ref.
Definition payload_of (a : AddedRequest) : payload := (added_params a, added_prompt a, added_output a).
Definition added_at (i : Z) (r : payload) : AddedRequest :=
  {| added_index := i; added_params := r.1.1; added_prompt := r.1.2; added_output := r.2 |}.
Abbreviation layout := (gmap Z payload).

(** Any data kept for each row; [new] makes them for a new request. *)
Section rows.
Context {X : Type} (new : AddedRequest -> X).
Implicit Types L : gmap Z X.

Definition apply_added L (a : AddedRequest) : gmap Z X := <[added_index a := new a]> L.
Definition apply_removed L (i : Z) : gmap Z X := delete i L.
Definition apply_moved L (m : MovedRequest) : gmap Z X :=
  let put i (o : option X) (L : gmap Z X) := partial_alter (fun _ => o) i L in
  match moved_direction m with
  | UNIDIRECTIONAL => put (moved_to m) (L !! moved_from m) (delete (moved_from m) L)
  | SWAP => put (moved_from m) (L !! moved_to m) (put (moved_to m) (L !! moved_from m) L)
  end.

Definition moves (ms : list MovedRequest) L : gmap Z X := foldl apply_moved L ms.
Definition adds (l : list AddedRequest) L : gmap Z X := foldl apply_added L l.
Definition removes (l : list Z) L : gmap Z X := foldl apply_removed L l.

(** The layout an update leads to. *)
Definition apply_update (u : BatchUpdate) L : gmap Z X :=
  moves (upd_moved u) (removes (upd_removed u) (adds (upd_added u) L)).

Lemma lookup_removes l L i : removes l L !! i = if decide (i ∈ l) then None else L !! i.
Proof.
  unfold removes. revert L. induction l as [|j l IH]; intros L; cbn [foldl]; [by rewrite decide_False by apply not_elem_of_nil|].
  rewrite IH. unfold apply_removed. destruct (decide (i ∈ l)) as [H|H]; [by rewrite decide_True by (by right)|].
  destruct (decide (i = j)) as [->|Hj]; [by rewrite lookup_delete_eq, decide_True by (by left)|].
  by rewrite lookup_delete_ne, decide_False by (rewrite ?elem_of_cons; naive_solver).
Qed.

Lemma lookup_moved L m i : moved_from m ≠ moved_to m -> apply_moved L m !! i =
  if decide (i = moved_to m) then L !! moved_from m
  else if decide (i = moved_from m) then (if decide (moved_direction m = SWAP) then L !! moved_to m else None) else L !! i.
Proof.
  intros Hne. unfold apply_moved. destruct (moved_direction m).
  - rewrite (decide_False (P := UNIDIRECTIONAL = SWAP)) by done. destruct (decide (i = moved_to m)) as [->|H1]; [by rewrite lookup_partial_alter_eq|].
    rewrite lookup_partial_alter_ne by done. case_decide as H2; [by rewrite H2, lookup_delete_eq|by rewrite lookup_delete_ne].
  - rewrite (decide_True (P := SWAP = SWAP)) by done. case_decide as H1.
    + rewrite H1. rewrite lookup_partial_alter_ne by done. by rewrite lookup_partial_alter_eq.
    + case_decide as H2; [by rewrite H2, lookup_partial_alter_eq|]. by rewrite !lookup_partial_alter_ne.
Qed.

(** ** The builder *)

(** The moves leave row [i] alone. *)
Definition untouched (i : Z) (ms : list MovedRequest) : Prop := Forall (fun m => moved_from m ≠ i /\ moved_to m ≠ i) ms.
Definition proper_moves (ms : list MovedRequest) : Prop := Forall (fun m => moved_from m ≠ moved_to m) ms.

Lemma moves_untouched i ms L : untouched i ms -> proper_moves ms -> moves ms L !! i = L !! i.
Proof.
  unfold moves. revert L. induction ms as [|m ms IH]; intros L Hu Hp; [done|]. apply Forall_cons in Hu as [ [H1 H2] Hu]. apply Forall_cons in Hp as [Hm Hp].
  cbn [foldl]. rewrite IH by done. rewrite lookup_moved by done. by rewrite !decide_False by done.
Qed.

(** Layouts that agree outside of an untouched row do so after the moves. *)
Lemma moves_agree e ms L1 L2 : untouched e ms -> proper_moves ms -> (forall i, i ≠ e -> L1 !! i = L2 !! i) ->
  forall i, i ≠ e -> moves ms L1 !! i = moves ms L2 !! i.
Proof.
  unfold moves. revert L1 L2. induction ms as [|m ms IH]; intros L1 L2 Hu Hp Heq i Hi; [by apply Heq|].
  apply Forall_cons in Hu as [ [H1 H2] Hu]. apply Forall_cons in Hp as [Hm Hp]. cbn [foldl]. apply IH; [done|done| |done].
  intros j Hj. rewrite !lookup_moved by done. by rewrite !Heq by done.
Qed.

End rows.

(** The changes collected so far lead from the layout [L0] of the last refresh to [L]. *)
Record tracks (b : BatchUpdateBuilder) (L0 L : layout) : Prop := {
  tr_layout : moves (moved b) (removes (removed_ b) (adds payload_of (added b) L0)) = L;
  tr_nodup : NoDup (removed_ b);
  tr_free : forall e, e ∈ removed_ b -> untouched e (moved b);
  tr_proper : proper_moves (moved b);
}.

Lemma tracks_init L : tracks Builder.init L L.
Proof. split; [done|constructor|intros e He; by apply elem_of_nil in He|constructor]. Qed.

Lemma tracks_free b L0 L e : tracks b L0 L -> e ∈ removed_ b -> L !! e = None.
Proof. intros [<- Hn Hf Hp] He. rewrite moves_untouched by auto. by rewrite lookup_removes, decide_True. Qed.

Lemma tracks_perm b b' L0 L : tracks b L0 L -> removed_ b' ≡ₚ removed_ b -> added b' = added b -> moved b' = moved b -> tracks b' L0 L.
Proof.
  intros [Hl Hn Hf Hp] HR HA HM. split.
  - rewrite <- Hl, HA, HM. f_equal. apply map_eq. intros i. rewrite !lookup_removes. by apply decide_ext; rewrite HR.
  - by rewrite HR.
  - rewrite HM. intros e. rewrite HR. apply Hf.
  - by rewrite HM.
Qed.

Lemma tracks_remove b L0 L i : tracks b L0 L -> is_Some (L !! i) -> added b = [] -> moved b = [] ->
  tracks {| b with removed_ := removed_ b ++ [i]; batch_changed := true |} L0 (delete i L).
Proof.
  intros Ht Hi HA HM. assert (i ∉ removed_ b) as Hni by (intros He; rewrite (tracks_free _ _ _ _ Ht He) in Hi; by destruct Hi).
  destruct Ht as [Hl Hn Hf Hp]. rewrite HM in Hl. change (removes (removed_ b) (adds payload_of (added b) L0) = L) in Hl.
  split; cbn [removed_ added moved]; rewrite ?HM.
  - change (removes (removed_ b ++ [i]) (adds payload_of (added b) L0) = delete i L). subst L. apply map_eq. intros j. rewrite lookup_delete, !lookup_removes.
    assert (j ∈ removed_ b ++ [i] <-> j ∈ removed_ b \/ j = i) as E by (by rewrite elem_of_app, list_elem_of_singleton).
    repeat case_decide; try done; naive_solver.
  - apply NoDup_app. split_and!; [done| |apply NoDup_singleton]. intros x Hx Hx'%list_elem_of_singleton. by subst.
  - intros e _. constructor.
  - constructor.
Qed.

(** A new request in a row that was free, or behind all rows. *)
Lemma tracks_add b b' L0 L i r : tracks b L0 L -> moved b = [] -> (forall j, j ∈ removed_ b' <-> j ∈ removed_ b /\ j ≠ i) -> NoDup (removed_ b') ->
  added b' = added b ++ [added_at i r] -> moved b' = moved b -> tracks b' L0 (<[i := r]> L).
Proof.
  intros [Hl Hn Hf Hp] HM HR HN HA HM'. rewrite HM in Hl. cbn in Hl. split; [|done|rewrite HM', HM; intros; constructor|rewrite HM', HM; constructor].
  rewrite HM', HM, HA. cbn. subst L. apply map_eq. intros j. rewrite lookup_removes. unfold adds. rewrite foldl_app. cbn [foldl]. unfold apply_added at 1.
  cbn. destruct r as [ [p q] o]. cbn. destruct (decide (j = i)) as [->|Hj].
  - rewrite !lookup_insert_eq. by rewrite decide_False by (rewrite HR; naive_solver).
  - rewrite !lookup_insert_ne by done. rewrite lookup_removes. apply decide_ext. rewrite HR. naive_solver.
Qed.

Lemma tracks_move b b' L0 L m r : tracks b L0 L -> moved_direction m = UNIDIRECTIONAL -> moved_to m ∈ removed_ b -> L !! moved_from m = Some r ->
  (forall j, j ∈ removed_ b' <-> j ∈ removed_ b /\ j ≠ moved_to m) -> NoDup (removed_ b') -> added b' = added b -> moved b' = moved b ++ [m] ->
  tracks b' L0 (<[moved_to m := r]> (delete (moved_from m) L)).
Proof.
  intros Ht Hd Hto Hr HR HN HA HM. assert (moved_from m ∉ removed_ b) as Hfrom by (intros He; by rewrite (tracks_free _ _ _ _ Ht He) in Hr).
  destruct Ht as [Hl Hn Hf Hp]. assert (moved_from m ≠ moved_to m) as Hne by (intros E; by rewrite E in Hfrom). split; [|done| |].
  - rewrite HM, HA. unfold moves. rewrite foldl_app. cbn [foldl]. fold (moves (moved b) (removes (removed_ b') (adds payload_of (added b) L0))).
    set (L1 := moves (moved b) (removes (removed_ b') (adds payload_of (added b) L0))).
    assert (forall i, i ≠ moved_to m -> L1 !! i = L !! i) as Hagree.
    { intros i Hi. subst L L1. apply (moves_agree (moved_to m)); [by apply Hf|done| |done]. intros j Hj. rewrite !lookup_removes. apply decide_ext. rewrite HR. naive_solver. }
    apply map_eq. intros i. rewrite lookup_moved by done. rewrite (decide_False (P := moved_direction m = SWAP)) by (by rewrite Hd).
    destruct (decide (i = moved_to m)) as [->|H1]; [by rewrite lookup_insert_eq, Hagree|]. rewrite lookup_insert_ne by done.
    destruct (decide (i = moved_from m)) as [->|H2]; [by rewrite lookup_delete_eq|]. by rewrite lookup_delete_ne, Hagree.
  - rewrite HM. intros e [He Hne']%HR. apply Forall_app. split; [by apply Hf|]. apply Forall_singleton. split; [by intros E; rewrite E in Hfrom|done].
  - rewrite HM. apply Forall_app. split; [done|by apply Forall_singleton].
Qed.

Lemma tracks_swap b L0 L i1 i2 r1 r2 : tracks b L0 L -> i1 ≠ i2 -> L !! i1 = Some r1 -> L !! i2 = Some r2 ->
  tracks (Builder.move {| moved_from := i1; moved_to := i2; moved_direction := SWAP |} b) L0 (<[i1 := r2]> (<[i2 := r1]> L)).
Proof.
  intros Ht Hne H1 H2. assert (i1 ∉ removed_ b) by (intros He; by rewrite (tracks_free _ _ _ _ Ht He) in H1).
  assert (i2 ∉ removed_ b) by (intros He; by rewrite (tracks_free _ _ _ _ Ht He) in H2).
  destruct Ht as [Hl Hn Hf Hp]. split; [|done| |].
  - cbn [Builder.move removed_ added moved]. unfold moves. rewrite foldl_app. cbn [foldl]. fold (moves (moved b) (removes (removed_ b) (adds payload_of (added b) L0))). rewrite Hl.
    apply map_eq. intros i. rewrite lookup_moved by done. cbn [moved_from moved_to moved_direction]. rewrite H1, H2, (decide_True (P := SWAP = SWAP)) by done. destruct (decide (i = i2)) as [->|]; [by rewrite lookup_insert_ne, lookup_insert_eq|].
    destruct (decide (i = i1)) as [->|]; [by rewrite lookup_insert_eq|]. by rewrite !lookup_insert_ne.
  - cbn. intros e He. apply Forall_app. split; [by apply Hf|]. apply Forall_singleton. cbn. split; intros ->; done.
  - cbn. apply Forall_app. split; [done|]. by apply Forall_singleton.
Qed.

(** Rows that are related stay so. *)
Section related.
Context {X Y : Type} (newX : AddedRequest -> X) (newY : AddedRequest -> Y) (R : X -> Y -> Prop).
Definition related (V : gmap Z X) (L : gmap Z Y) : Prop := forall i, option_Forall2 R (V !! i) (L !! i).

Lemma related_alter V L i x y : related V L -> option_Forall2 R x y -> related (partial_alter (fun _ => x) i V) (partial_alter (fun _ => y) i L).
Proof. intros H Hxy j. rewrite !lookup_partial_alter. by case_decide. Qed.

Lemma related_delete V L i : related V L -> related (delete i V) (delete i L).
Proof. intros H j. rewrite !lookup_delete. case_decide; [constructor|done]. Qed.

Lemma apply_update_related u V L : (forall a, a ∈ upd_added u -> R (newX a) (newY a)) -> related V L ->
  related (apply_update newX u V) (apply_update newY u L).
Proof.
  intros Ha H. unfold apply_update.
  assert (related (adds newX (upd_added u) V) (adds newY (upd_added u) L)) as H1.
  { unfold adds. revert V L H Ha. induction (upd_added u) as [|a l IH]; intros V L H Ha; [done|]. cbn [foldl]. apply IH.
    - intros i. unfold apply_added. rewrite !lookup_insert. case_decide; [constructor; apply Ha; by left|done].
    - intros a' Ha'. apply Ha. by right. }
  assert (related (removes (upd_removed u) (adds newX (upd_added u) V)) (removes (upd_removed u) (adds newY (upd_added u) L))) as H2.
  { revert H1. generalize (adds newX (upd_added u) V), (adds newY (upd_added u) L). unfold removes. clear.
    induction (upd_removed u) as [|i l IH]; intros V L H; [done|]. apply IH. by apply related_delete. }
  revert H2. generalize (removes (upd_removed u) (adds newX (upd_added u) V)), (removes (upd_removed u) (adds newY (upd_added u) L)). unfold moves. clear.
  induction (upd_moved u) as [|m l IH]; intros V L H; [done|]. apply IH. unfold apply_moved. destruct (moved_direction m).
  - apply related_alter; [by apply related_delete|done].
  - apply related_alter; [by apply related_alter|done].
Qed.
End related.

(** ** Dictionaries *)

Section dict_facts.
Context {T : Type} (truthy : T -> bool) (new_state : AddedRequest -> option T).
Implicit Types d : list (Z * T).
Implicit Types V : gmap Z (option T).

(** The dictionary has the entries of [V], all of them true values. *)
Record shows d V : Prop := {
  sw_keys : NoDup (Dict.keys d);
  sw_get : forall i, Dict.get i d = mjoin (V !! i);
  sw_truthy : forall i t, V !! i = Some (Some t) -> truthy t = true;
}.

(** No update is reported only if nothing changed. *)
Definition reports (c : M (list (Z * T)) bool) d V' : Prop :=
  exists f d', c d = (Ok f, d') /\ shows d' V' /\ (f = false -> d' = d).

Hypothesis Hnew : forall a t, new_state a = Some t -> truthy t = true.

Lemma dict_added_ok d V a : shows d V -> reports (dict_added new_state a) d (apply_added new_state V a).
Proof.
  intros [S1 S2 S3]. unfold reports, dict_added, apply_added. destruct (new_state a) as [t|] eqn:E.
  - eexists _, _. split; [by msteps|]. split; [|done]. split; [by apply Dict.NoDup_set| |].
    + intros i. rewrite Dict.get_set. case_decide as H; [subst; by rewrite lookup_insert_eq|]. rewrite lookup_insert_ne by congruence. apply S2.
    + intros i t'. rewrite lookup_insert. case_decide; [intros [= <-]; by eapply Hnew|apply S3].
  - eexists _, _. split; [unfold dict_pop; by msteps|]. split; [split; [by apply Dict.NoDup_del| |]|].
    + intros i. rewrite Dict.get_del by done. case_decide as H; [subst; by rewrite lookup_insert_eq|]. rewrite lookup_insert_ne by congruence. apply S2.
    + intros i t'. rewrite lookup_insert. case_decide; [done|apply S3].
    + intros H%bool_decide_eq_false. apply Dict.del_notin. apply Dict.get_None. by apply eq_None_not_Some.
Qed.

Lemma dict_removed_ok d V i : shows d V -> reports (dict_removed truthy i) d (apply_removed V i).
Proof.
  intros [S1 S2 S3]. eexists _, _. split; [unfold dict_removed, dict_pop; by msteps|]. split; [split; [by apply Dict.NoDup_del| |]|].
  - intros j. unfold apply_removed. rewrite Dict.get_del by done. case_decide as H; [subst; by rewrite lookup_delete_eq|]. rewrite lookup_delete_ne by done. apply S2.
  - intros j t. unfold apply_removed. rewrite lookup_delete. case_decide; [done|apply S3].
  - rewrite S2. destruct (V !! i) as [[t|]|] eqn:E; cbn; [by rewrite (S3 _ _ E)| |].
    + intros _. apply Dict.del_notin, Dict.get_None. by rewrite S2, E.
    + intros _. apply Dict.del_notin, Dict.get_None. by rewrite S2, E.
Qed.

Lemma dict_moved_ok d V m : moved_from m ≠ moved_to m -> shows d V -> reports (dict_moved m) d (apply_moved V m).
Proof.
  intros Hne [S1 S2 S3]. set (a := Dict.get (moved_from m) d). set (b := Dict.get (moved_to m) d).
  set (d1 := Dict.del (moved_to m) (Dict.del (moved_from m) d)).
  set (d2 := match a with Some x => Dict.set (moved_to m) x d1 | None => d1 end).
  set (d3 := match b, moved_direction m with Some x, SWAP => Dict.set (moved_from m) x d2 | _, _ => d2 end).
  assert (NoDup (Dict.keys (Dict.del (moved_from m) d))) as N0 by (by apply Dict.NoDup_del).
  assert (NoDup (Dict.keys d1)) as N1 by (by apply Dict.NoDup_del).
  assert (NoDup (Dict.keys d2)) as N2 by (unfold d2; destruct a; [by apply Dict.NoDup_set|done]).
  assert (NoDup (Dict.keys d3)) as N3 by (unfold d3; destruct b, (moved_direction m); try done; by apply Dict.NoDup_set).
  assert (dict_moved m d = (Ok (bool_decide (is_Some a) || bool_decide (is_Some b)), d3)) as Hrun.
  { unfold dict_moved, dict_pop. erewrite bind_ok by reflexivity. erewrite bind_ok by reflexivity. rewrite Dict.get_del, decide_False by (done || congruence). fold a b d1.
    unfold d3, d2. destruct a, b, (moved_direction m); reflexivity. }
  eexists _, _. split; [exact Hrun|]. split; [split; [done| |]|].
  - intros i. rewrite lookup_moved by done.
    assert (Dict.get i d1 = if decide (i = moved_to m) then None else if decide (i = moved_from m) then None else mjoin (V !! i)) as G1.
    { unfold d1. rewrite !Dict.get_del by done. repeat case_decide; [done|done|apply S2]. }
    assert (Dict.get i d2 = if decide (i = moved_to m) then a else Dict.get i d1) as G2.
    { unfold d2. destruct a; [by rewrite Dict.get_set|]. rewrite G1. by repeat case_decide. }
    assert (Dict.get i d3 = if decide (i = moved_from m) then (if decide (moved_direction m = SWAP) then b else None) else Dict.get i d2) as G3.
    { unfold d3. destruct b, (moved_direction m); rewrite ?Dict.get_set; cbn; rewrite ?G2, ?G1; repeat case_decide; try done; congruence. }
    rewrite G3, G2, G1. unfold a, b. rewrite !S2. repeat case_decide; try done; congruence.
  - intros i t. rewrite lookup_moved by done. repeat case_decide; try done; apply S3.
  - intros [Ha Hb]%orb_false_iff. apply bool_decide_eq_false, eq_None_not_Some in Ha. apply bool_decide_eq_false, eq_None_not_Some in Hb.
    assert (d1 = d) as E1.
    { unfold d1. rewrite (Dict.del_notin (moved_from m)) by (by apply Dict.get_None). apply Dict.del_notin. by apply Dict.get_None. }
    unfold d3. rewrite Hb. unfold d2. by rewrite Ha.
Qed.

Lemma loop_ok {A} (body : A -> M (list (Z * T)) bool) (step : gmap Z (option T) -> A -> gmap Z (option T)) l d V :
  (forall x d V, x ∈ l -> shows d V -> reports (body x) d (step V x)) -> shows d V ->
  exists fs d', mmapM l body d = (Ok fs, d') /\ shows d' (foldl step V l) /\ (existsb id fs = false -> d' = d).
Proof.
  intros Hb Hs. destruct (mmapM_ok body (fun done fs d' => shows d' (foldl step V done) /\ (existsb id fs = false -> d' = d)) l) with (s := d) as (fs & d' & E & H1 & H2).
  - intros dn fs d1 x todo -> [H1 H2]. destruct (Hb x d1 (foldl step V dn)) as (f & d2 & E & H3 & H4); [apply elem_of_app; right; by left|done|].
    exists f, d2. split; [done|]. rewrite foldl_app. split; [done|]. rewrite existsb_app. intros [Hf Hf']%orb_false_iff. cbn in Hf'. rewrite orb_false_r in Hf'.
    rewrite H4 by done. by apply H2.
  - by split.
  - by exists fs, d'.
Qed.

Lemma empty_shows V u : shows [] V -> proper_moves (upd_moved u) -> shows [] (moves (upd_moved u) (removes (upd_removed u) V)).
Proof.
  intros [S1 S2 S3] Hp. assert (shows [] (removes (upd_removed u) V)) as [_ R2 R3].
  { split; [constructor| |]; intros i.
    - rewrite lookup_removes. case_decide; [done|apply S2].
    - intros t. rewrite lookup_removes. case_decide; [done|apply S3]. }
  revert R2 R3. generalize (removes (upd_removed u) V). clear -Hp. unfold moves. induction (upd_moved u) as [|m l IH]; intros V H2 H3; [by split; [constructor| |]|].
  apply Forall_cons in Hp as [Hm Hp]. apply IH; [done| |].
  - intros i. rewrite lookup_moved by done. repeat case_decide; rewrite <- ?H2; done.
  - intros i t. rewrite lookup_moved by done. repeat case_decide; (done || apply H3).
Qed.

Lemma process_dict_ok d V u : proper_moves (upd_moved u) -> shows d V ->
  reports (process_dict_updates truthy new_state (Some u)) d (apply_update new_state u V).
Proof.
  intros Hp Hs. unfold reports, process_dict_updates.
  destruct (loop_ok (dict_added new_state) (apply_added new_state) (upd_added u) d V) as (f1 & d1 & E1 & S1 & F1); [intros; by apply dict_added_ok|done|].
  erewrite bind_ok by exact E1. erewrite bind_ok by reflexivity. change (id d1) with d1. destruct (decide (d1 = [])) as [->|Hne].
  - eexists _, _. split; [reflexivity|]. split; [by apply empty_shows|exact F1].
  - destruct (loop_ok (dict_removed truthy) apply_removed (upd_removed u) d1 (adds new_state (upd_added u) V)) as (f2 & d2 & E2 & S2 & F2); [intros; by apply dict_removed_ok|exact S1|].
    destruct (loop_ok dict_moved apply_moved (upd_moved u) d2 (removes (upd_removed u) (adds new_state (upd_added u) V))) as (f3 & d3 & E3 & S3 & F3).
    { intros m d0 V0 Hm. apply dict_moved_ok. by apply (proj1 (Forall_forall _ _) Hp). }
    { exact S2. }
    destruct d1 as [|e d1'] eqn:Ed; [done|]. rewrite <- Ed in *. erewrite bind_ok by exact E2. erewrite bind_ok by exact E3. eexists _, _. split; [reflexivity|]. split; [exact S3|].
    rewrite !existsb_app. intros [Hf1 [Hf2 Hf3]%orb_false_iff]%orb_false_iff. by rewrite F3, F2, F1.
Qed.
End dict_facts.

End LogitsFacts.
