(* ===== verification/LogitsFollow.v ===== *)
(** Each processor of [v1/sample/logits_processor/builtin.py] shows the layout of the
    batch after every update: logit biases, least numbers of tokens and min-p. *)

From Stdlib Require Import QArith.
From stdpp Require Import gmap.
From S2P Require Import Prelude BatchUpdate LogitsFacts.
Import LogitsFacts.
Local Open Scope Z_scope.

Module LogitsFollow.

Lemma update_fmap {X} (new : AddedRequest -> X) (f : payload -> X) u (L : layout) :
  (forall a, new a = f (payload_of a)) -> apply_update new u (f <$> L) = f <$> apply_update payload_of u L.
Proof.
  intros Hf. assert (related (fun x y => x = f y) (apply_update new u (f <$> L)) (apply_update payload_of u L)) as H.
  { apply apply_update_related; [intros; apply Hf|]. intros i. rewrite lookup_fmap. destruct (L !! i); by constructor. }
  apply map_eq. intros i. rewrite lookup_fmap. destruct (H i) as [x y ->|]; done.
Qed.

(** ** Logit bias *)

Section bias.
Context `{Float32}.

Definition bias_of (r : payload) : option (list (Z * Q)) := Bias.new_state (added_at 0 r).

Record bias_ok (p : LogitBias) (L : layout) : Prop := {
  bo_shows : shows (fun lb => negb (bool_decide (lb = []))) (biases p) (bias_of <$> L);
  bo_tensors : bias_tensor p = (Bias.tensors (biases p)).1 /\ bias_slice p = (Bias.tensors (biases p)).2;
}.

Lemma bias_init : bias_ok Bias.init ∅.
Proof. split; [|done]. split; [constructor| |]; intros i; rewrite lookup_fmap, lookup_empty; done. Qed.

Lemma bias_follow p L u : bias_ok p L -> proper_moves (upd_moved u) ->
  exists p', Bias.update_state (Some u) p = (Ok tt, p') /\ bias_ok p' (apply_update payload_of u L).
Proof.
  intros [Hs [Ht1 Ht2]] Hp. destruct (process_dict_ok (fun lb => negb (bool_decide (lb = []))) Bias.new_state) with (d := biases p) (V := bias_of <$> L) (u := u)
    as (f & d' & E & Hs' & Hf); [|done|done|].
  - intros a t. unfold Bias.new_state. destruct (logit_bias (added_params a)) as [ [|e l]|]; [done| |done]. by intros [= <-].
  - unfold Bias.update_state. rewrite E. eexists. split; [reflexivity|]. rewrite (update_fmap _ bias_of) in Hs' by done.
    destruct f; split; cbn; try done. by rewrite Hf.
Qed.
End bias.

(** ** The least number of tokens *)

(** What the dictionary should have for a request. *)
Definition want (h : heap) (r : payload) : option MinTokensState := MinToks.add_request h (added_at 0 r).

(** Output lists only grow. *)
Definition grows (h h' : heap) : Prop := forall r, MinToks.output_len h r <= MinToks.output_len h' r.

Record min_toks_ok (h : heap) (p : MinTokens) (L : layout) : Prop := {
  mo_keys : NoDup (Dict.keys (min_toks p));
  mo_get : forall i, Dict.get i (min_toks p) = L !! i ≫= want h;
  mo_slice : min_toks_slice p = MinToks.tensors (min_toks p);
}.

Lemma min_toks_init h : min_toks_ok h MinToks.init ∅.
Proof. split; [constructor|intros i; by rewrite lookup_empty|done]. Qed.

Lemma get_del_all {V} (l : list Z) (d : list (Z * V)) i : NoDup (Dict.keys d) ->
  NoDup (Dict.keys (foldl (fun d i => Dict.del i d) d l)) /\ Dict.get i (foldl (fun d i => Dict.del i d) d l) = if decide (i ∈ l) then None else Dict.get i d.
Proof.
  revert d. induction l as [|j l IH]; intros d Hd; cbn [foldl]; [by rewrite decide_False by apply not_elem_of_nil|].
  destruct (IH (Dict.del j d)) as [H1 H2]; [by apply Dict.NoDup_del|]. split; [done|]. rewrite H2, Dict.get_del by done.
  destruct (decide (i ∈ l)); [by rewrite decide_True by (by right)|].
  destruct (decide (i = j)) as [->|]; [by rewrite decide_True by (by left)|]. by rewrite decide_False by (rewrite elem_of_cons; naive_solver).
Qed.

(** Requests that have their tokens are dropped. *)
Lemma want_attained h h' r s : grows h h' -> want h r = Some s \/ want h' r = Some s ->
  want h' r = if MinToks.attained h' (0, s) then None else Some s.
Proof.
  intros Hg. specialize (Hg r.2). unfold want, MinToks.add_request, MinToks.attained. cbn. intros [H|H]; revert H.
  - destruct (_ =? 0) eqn:E0; [done|]. cbn. destruct (_ <=? _) eqn:E1; [done|]. intros [= <-]. cbn. done.
  - destruct (_ =? 0) eqn:E0; [done|]. cbn. destruct (_ <=? _) eqn:E1; [done|]. intros [= <-]. cbn. by rewrite E1.
Qed.

Lemma want_none h h' r : grows h h' -> want h r = None -> want h' r = None.
Proof.
  intros Hg. specialize (Hg r.2). unfold want, MinToks.add_request. cbn. destruct (_ =? 0) eqn:E0; [done|]. cbn.
  destruct (_ <=? MinToks.output_len h _) eqn:E1; [|done]. intros _. by replace (_ <=? _) with true by lia.
Qed.

(** The second half of [update_state]. *)
Lemma drop_attained h h' d (L : layout) : grows h h' -> NoDup (Dict.keys d) ->
  (forall i, option_Forall2 (fun x y => x = want h y \/ x = want h' y) (Some <$> Dict.get i d) (L !! i) \/ Dict.get i d = None /\ L !! i ≫= want h' = None) ->
  let to_remove := Dict.keys (filter (fun e => MinToks.attained h' e) d) in
  let d' := foldl (fun d i => Dict.del i d) d to_remove in
  NoDup (Dict.keys d') /\ forall i, Dict.get i d' = L !! i ≫= want h'.
Proof.
  intros Hg Hn Hd to_remove d'. split; [by apply (get_del_all _ _ 0)|]. intros i. unfold d'. rewrite (proj2 (get_del_all _ _ i Hn)).
  assert (i ∈ to_remove <-> exists s, Dict.get i d = Some s /\ MinToks.attained h' (i, s) = true) as Hrem.
  { unfold to_remove, Dict.keys. rewrite list_elem_of_fmap. split.
    - intros ([j s] & -> & [Ha Hin]%list_elem_of_filter). exists s. split; [by apply Dict.elem_get|by apply Is_true_true].
    - intros (s & Hs & Ha). exists (i, s). split; [done|]. apply list_elem_of_filter. split; [by apply Is_true_true|by apply Dict.get_Some_elem]. }
  destruct (Hd i) as [H|[H1 H2]].
  - destruct (Dict.get i d) as [s|] eqn:Es; cbn in H; inversion H as [x y Hxy Hx Hy|Hx Hy]; subst; cbn.
    + rewrite (want_attained h h' y s Hg) by (destruct Hxy; auto). change (MinToks.attained h' (0, s)) with (MinToks.attained h' (i, s)).
      destruct (MinToks.attained h' (i, s)) eqn:Ea; [rewrite decide_True by (apply Hrem; eauto); done|].
      rewrite decide_False; [done|]. rewrite Hrem. intros (s' & [= <-] & Ha). congruence.
    + by case_decide.
  - rewrite H2, H1. by case_decide.
Qed.

Lemma min_toks_follow h h' p L u : min_toks_ok h p L -> grows h h' -> proper_moves (upd_moved u) ->
  exists p', MinToks.update_state h' (Some u) p = (Ok tt, p') /\ min_toks_ok h' p' (apply_update payload_of u L).
Proof.
  intros [H1 H2 H3] Hg Hp. destruct (process_dict_ok (fun _ => true) (MinToks.add_request h')) with (d := min_toks p) (V := want h <$> L) (u := u)
    as (f & d' & E & [S1 S2 _] & Hf); [done|done| |].
  { split; [done| |done]. intros i. rewrite H2, lookup_fmap. by destruct (L !! i). }
  assert (related (fun x y => x = want h y \/ x = want h' y) (apply_update (MinToks.add_request h') u (want h <$> L)) (apply_update payload_of u L)) as Hrel.
  { apply apply_update_related; [by right|]. intros i. rewrite lookup_fmap. destruct (L !! i); constructor. by left. }
  destruct (drop_attained h h' d' (apply_update payload_of u L) Hg S1) as [D1 D2].
  { intros i. specialize (Hrel i). rewrite S2. destruct Hrel as [x y Hxy|]; [|right; by split]. destruct x as [s|]; cbn.
    - left. constructor. destruct Hxy; auto.
    - right. split; [done|]. destruct Hxy as [Hw|Hw]; [by eapply want_none|done]. }
  unfold MinToks.update_state. rewrite E. eexists. split; [reflexivity|]. destruct (f || negb _) eqn:Eb; split; try exact D1; try exact D2; [done|].
  apply orb_false_iff in Eb as [-> Eb]. breflect. cbn. rewrite H3, (Hf eq_refl) in *. by rewrite Eb.
Qed.

(** Without an update the requests that have got their tokens are still dropped. *)
Lemma min_toks_idle h h' p L : min_toks_ok h p L -> grows h h' ->
  exists p', MinToks.update_state h' None p = (Ok tt, p') /\ min_toks_ok h' p' L.
Proof.
  intros [H1 H2 H3] Hg. destruct (drop_attained h h' (min_toks p) L Hg H1) as [D1 D2].
  { intros i. rewrite H2. destruct (L !! i) as [r|]; cbn; [|right; by split]. destruct (want h r) as [s|] eqn:E; cbn.
    - left. constructor. by left.
    - right. split; [done|]. by eapply want_none. }
  unfold MinToks.update_state. cbn. eexists. split; [reflexivity|]. destruct (negb _) eqn:Eb; split; try exact D1; try exact D2; [done|].
  breflect. cbn. by rewrite H3, Eb.
Qed.

(** ** Min-p *)

Section min_p.
Context `{Float32} (N : Z).

Definition rounded (r : payload) : Q := to_float32 (min_p r.1.1).
Definition cell (L : layout) (i : Z) : Q := match L !! i with Some r => rounded r | None => 0%Q end.

(** A min-p that is not zero does not round to zero. *)
Definition rounds (r : payload) : Prop := Qtruthy (rounded r) = Qtruthy (min_p r.1.1).

Definition trues (l : list Q) : Z := zlen (filter (fun x => Qtruthy x = true) l).
Definition b2z (b : bool) : Z := if b then 1 else 0.

#[export] Instance Qtruthy_proper : Proper (Qeq ==> eq) Qtruthy.
Proof. intros x y E. unfold Qtruthy. f_equal. apply eq_true_iff_eq. by rewrite !Qeq_bool_iff, E. Qed.

Lemma Qneq_false x y : Qneq x y = false <-> Qeq x y.
Proof. unfold Qneq. rewrite negb_false_iff. apply Qeq_bool_iff. Qed.

Lemma Qtruthy_false x : Qtruthy x = false <-> Qeq x 0.
Proof. unfold Qtruthy. rewrite negb_false_iff. apply Qeq_bool_iff. Qed.

Lemma trues_insert l (i : nat) x y : l !! i = Some y -> trues (<[i := x]> l) = trues l + b2z (Qtruthy x) - b2z (Qtruthy y).
Proof.
  unfold trues. revert i. induction l as [|z l IH]; intros [|i] Hy; [done|done| |].
  - injection Hy as ->. change (<[0%nat := x]> (y :: l)) with (x :: l). rewrite !filter_cons. unfold b2z. repeat case_decide; rewrite ?zlen_cons; destruct (Qtruthy x), (Qtruthy y); (done || lia).
  - specialize (IH i Hy). change (<[S i := x]> (z :: l)) with (z :: <[i := x]> l). rewrite !filter_cons. case_decide; rewrite ?zlen_cons; lia.
Qed.

Lemma trues_zero l (i : nat) x : trues l = 0 -> l !! i = Some x -> Qeq x 0.
Proof.
  unfold trues. intros H0 Hx. apply Qtruthy_false. destruct (Qtruthy x) eqn:E; [|done]. exfalso.
  assert (x ∈ filter (fun x => Qtruthy x = true) l) as Hin by (apply list_elem_of_filter; split; [done|by eapply list_elem_of_lookup_2]).
  destruct (filter _ l); [by apply elem_of_nil in Hin|]. rewrite zlen_cons in H0. pose proof (zlen_nonneg l0). lia.
Qed.

(** The array shows the layout and the count is that of its true cells. *)
Record cells_ok (p : MinP) (L : layout) : Prop := {
  co_len : zlen (min_p_cpu p) = N;
  co_cells : forall i x, 0 <= i -> min_p_cpu p !! Z.to_nat i = Some x -> Qeq x (cell L i);
  co_count : min_p_count p = trues (min_p_cpu p);
}.

(** Only the array and the count have changed. *)
Definition array_only (p p' : MinP) : Prop :=
  use_double_tensor p' = use_double_tensor p /\ min_p_device p' = min_p_device p /\ min_p_size p' = min_p_size p.

Lemma read_ok p (i : Z) : 0 <= i < zlen (min_p_cpu p) -> exists x, min_p_cpu p !! Z.to_nat i = Some x /\ MinPs.read i p = (Ok x, p).
Proof.
  intros Hi. destruct (lookup_lt_is_Some_2 (min_p_cpu p) (Z.to_nat i)) as [x Hx]; [unfold zlen in Hi; lia|].
  exists x. split; [done|]. unfold MinPs.read. by rewrite py_get_nonneg, Hx by lia.
Qed.

Definition with_cells (l : list Q) (n : Z) (p : MinP) : MinP := {| p with min_p_cpu := l; min_p_count := n |}.

Lemma write_ok p (i : Z) x : 0 <= i < zlen (min_p_cpu p) -> MinPs.write i x p = (Ok tt, with_cells (<[Z.to_nat i := x]> (min_p_cpu p)) (min_p_count p) p).
Proof. intros Hi. unfold MinPs.write. msteps. by rewrite py_set_nonneg. Qed.

Lemma with_cells_ok p L L' (i : Z) x y n : cells_ok p L -> 0 <= i -> min_p_cpu p !! Z.to_nat i = Some y -> Qeq x (cell L' i) ->
  (forall j, 0 <= j -> j ≠ i -> Qeq (cell L j) (cell L' j)) -> n = min_p_count p + b2z (Qtruthy x) - b2z (Qtruthy y) ->
  cells_ok (with_cells (<[Z.to_nat i := x]> (min_p_cpu p)) n p) L'.
Proof.
  intros [C1 C2 C3] Hi Hy Hx Hother ->. split; cbn.
  - unfold zlen in *. by rewrite length_insert.
  - intros j z Hj. destruct (decide (j = i)) as [->|Hne].
    + rewrite list_lookup_insert_eq by (by eapply lookup_lt_Some). by intros [= <-].
    + rewrite list_lookup_insert_ne by lia. intros Hz. rewrite <- Hother by done. by apply C2.
  - by rewrite C3, (trues_insert _ _ _ y).
Qed.

Lemma cell_added L a j : cell (apply_added payload_of L a) j = if decide (j = added_index a) then rounded (payload_of a) else cell L j.
Proof.
  unfold cell, apply_added. case_decide as E; [by rewrite E, lookup_insert_eq|by rewrite lookup_insert_ne].
Qed.

Lemma cell_removed L i j : cell (apply_removed L i) j = if decide (j = i) then 0%Q else cell L j.
Proof. unfold cell, apply_removed. case_decide as E; [by rewrite E, lookup_delete_eq|by rewrite lookup_delete_ne]. Qed.

Lemma cell_moved (L : layout) m j : moved_from m ≠ moved_to m -> cell (apply_moved L m) j =
  if decide (j = moved_to m) then cell L (moved_from m)
  else if decide (j = moved_from m) then (if decide (moved_direction m = SWAP) then cell L (moved_to m) else 0%Q) else cell L j.
Proof. intros Hne. unfold cell. rewrite lookup_moved by done. by repeat case_decide. Qed.

Lemma same_cells p L L' : cells_ok p L -> (forall j, 0 <= j -> Qeq (cell L j) (cell L' j)) -> cells_ok p L'.
Proof. intros [C1 C2 C3] Hl. split; [done| |done]. intros i x Hi Hx. rewrite <- Hl by done. by apply C2. Qed.

Lemma on_added_ok p L a : cells_ok p L -> 0 <= added_index a < N -> rounds (payload_of a) ->
  exists f p', MinPs.on_added a p = (Ok f, p') /\ cells_ok p' (apply_added payload_of L a) /\ array_only p p' /\ (f = false -> p' = p).
Proof.
  intros Hc Hi Hr. pose proof Hc as [C1 C2 C3]. destruct (read_ok p (added_index a)) as (y & Hy & Ey); [by rewrite C1|].
  assert (forall j, 0 <= j -> j ≠ added_index a -> Qeq (cell L j) (cell (apply_added payload_of L a) j)) as Hother.
  { intros j _ Hj. by rewrite cell_added, decide_False. }
  assert (cell (apply_added payload_of L a) (added_index a) = rounded (payload_of a)) as Hnew by (by rewrite cell_added, decide_True).
  unfold MinPs.on_added. rewrite (bind_ok _ _ _ _ _ Ey). change (to_float32 (min_p (added_params a))) with (rounded (payload_of a)).
  destruct (Qneq y (rounded (payload_of a))) eqn:Eq.
  - rewrite (bind_ok _ _ _ _ _ (write_ok p (added_index a) (rounded (payload_of a)) ltac:(by rewrite C1))).
    assert (forall n, n = min_p_count p + b2z (Qtruthy (min_p (added_params a))) - b2z (Qtruthy y) ->
      cells_ok (with_cells (<[Z.to_nat (added_index a) := rounded (payload_of a)]> (min_p_cpu p)) n p) (apply_added payload_of L a)) as Hw.
    { intros n ->. apply (with_cells_ok p L _ _ _ y); [done|lia|done|by rewrite Hnew|done|]. by rewrite Hr. }
    destruct (Qtruthy (min_p (added_params a))), (Qtruthy y); cbn [andb negb]; (eexists _, _; split; [reflexivity|]; split; [|by split_and!]); apply Hw; cbn; lia.
  - eexists _, _. split; [reflexivity|]. split; [|by split_and!]. apply (same_cells p L); [done|]. intros j Hj.
    destruct (decide (j = added_index a)) as [->|Hne]; [|by apply Hother]. rewrite Hnew. rewrite <- (C2 _ _ Hj Hy). by apply Qneq_false.
Qed.

Lemma on_removed_ok p L i : cells_ok p L -> 0 <= i < N ->
  exists p', MinPs.on_removed i p = (Ok tt, p') /\ cells_ok p' (apply_removed L i) /\ array_only p p'.
Proof.
  intros Hc Hi. pose proof Hc as [C1 C2 C3]. destruct (read_ok p i) as (y & Hy & Ey); [by rewrite C1|].
  assert (forall j, 0 <= j -> j ≠ i -> Qeq (cell L j) (cell (apply_removed L i) j)) as Hother by (intros j _ Hj; by rewrite cell_removed, decide_False).
  assert (cell (apply_removed L i) i = 0%Q) as Hnew by (by rewrite cell_removed, decide_True).
  unfold MinPs.on_removed. rewrite (bind_ok _ _ _ _ _ Ey). destruct (Qtruthy y) eqn:E.
  - rewrite (bind_ok _ _ _ _ _ (write_ok p i 0%Q ltac:(by rewrite C1))). eexists. split; [reflexivity|]. split; [|by split_and!].
    apply (with_cells_ok p L _ _ _ y); [done|lia|done|by rewrite Hnew|done|]. rewrite E. change (Qtruthy 0) with false. unfold b2z. cbn [min_p_count with_cells]. lia.
  - exists p. split; [done|]. split; [|by split_and!]. apply (same_cells p L); [done|]. intros j Hj.
    destruct (decide (j = i)) as [->|Hne]; [|by apply Hother]. rewrite Hnew. rewrite <- (C2 _ _ Hj Hy). by apply Qtruthy_false.
Qed.

(** Writing two cells. *)
Lemma with_two_ok p L L' (a b : Z) x y xa xb n : cells_ok p L -> 0 <= a -> 0 <= b -> a ≠ b ->
  min_p_cpu p !! Z.to_nat a = Some xa -> min_p_cpu p !! Z.to_nat b = Some xb ->
  Qeq x (cell L' a) -> Qeq y (cell L' b) -> (forall j, 0 <= j -> j ≠ a -> j ≠ b -> Qeq (cell L j) (cell L' j)) ->
  n = min_p_count p + b2z (Qtruthy x) + b2z (Qtruthy y) - b2z (Qtruthy xa) - b2z (Qtruthy xb) ->
  cells_ok (with_cells (<[Z.to_nat a := x]> (<[Z.to_nat b := y]> (min_p_cpu p))) n p) L'.
Proof.
  intros [C1 C2 C3] Ha Hb Hab Hxa Hxb Hx Hy Hother ->. split; cbn.
  - unfold zlen in *. by rewrite !length_insert.
  - intros j z Hj. destruct (decide (j = a)) as [->|Hne].
    + rewrite list_lookup_insert_eq by (rewrite length_insert; by eapply lookup_lt_Some). by intros [= <-].
    + rewrite list_lookup_insert_ne by lia. destruct (decide (j = b)) as [->|Hne'].
      * rewrite list_lookup_insert_eq by (by eapply lookup_lt_Some). by intros [= <-].
      * rewrite list_lookup_insert_ne by lia. intros Hz. rewrite <- Hother by done. by apply C2.
  - rewrite C3, (trues_insert _ _ _ xa) by (by rewrite list_lookup_insert_ne by lia). rewrite (trues_insert _ _ _ xb) by done. lia.
Qed.

(** What [on_moved] writes. *)
Definition new_from (d : MoveDirectionality) (xa xb : Q) : Q :=
  match d with SWAP => if Qneq xa xb then xb else xa | UNIDIRECTIONAL => if Qtruthy xa then 0%Q else xa end.
Definition new_to (xa xb : Q) : Q := if Qneq xa xb then xa else xb.
Definition lost (d : MoveDirectionality) (xb : Q) : Z := match d with UNIDIRECTIONAL => b2z (Qtruthy xb) | SWAP => 0 end.

Lemma on_moved_run p m xa xb : moved_from m ≠ moved_to m -> 0 <= moved_from m < zlen (min_p_cpu p) -> 0 <= moved_to m < zlen (min_p_cpu p) ->
  min_p_cpu p !! Z.to_nat (moved_from m) = Some xa -> min_p_cpu p !! Z.to_nat (moved_to m) = Some xb ->
  MinPs.on_moved m p = (Ok (Qneq xa xb),
    with_cells (<[Z.to_nat (moved_from m) := new_from (moved_direction m) xa xb]> (<[Z.to_nat (moved_to m) := new_to xa xb]> (min_p_cpu p)))
      (min_p_count p - lost (moved_direction m) xb) p).
Proof.
  intros Hne Hf Ht Hxa Hxb. unfold MinPs.on_moved.
  destruct (read_ok p _ Hf) as (xa' & Ea & Ra), (read_ok p _ Ht) as (xb' & Eb & Rb). simplify_eq.
  rewrite (bind_ok _ _ _ _ _ Ra), (bind_ok _ _ _ _ _ Rb).
  set (l1 := <[Z.to_nat (moved_to m) := new_to xa xb]> (min_p_cpu p)).
  assert (zlen l1 = zlen (min_p_cpu p)) as Hl1 by (unfold l1, zlen; by rewrite length_insert).
  assert (l1 !! Z.to_nat (moved_from m) = Some xa) as Hl1a by (unfold l1; by rewrite list_lookup_insert_ne by lia).
  set (l2 := match moved_direction m with SWAP => <[Z.to_nat (moved_from m) := new_from SWAP xa xb]> l1 | UNIDIRECTIONAL => l1 end).
  erewrite (bind_ok _ _ p tt (with_cells l2 (min_p_count p) p)).
  2: { unfold l2, l1, new_to, new_from. destruct (Qneq xa xb).
       - rewrite (bind_ok _ _ _ _ _ (write_ok p _ xa Ht)). destruct (moved_direction m); [done|]. rewrite decide_True by done.
         by rewrite write_ok by (unfold zlen in *; cbn; rewrite length_insert; lia).
       - rewrite (list_insert_id (min_p_cpu p)) by done. destruct (moved_direction m); [by destruct p|]. rewrite list_insert_id by done. by destruct p. }
  assert (zlen l2 = zlen (min_p_cpu p)) as Hl2.
  { unfold l2. destruct (moved_direction m); [done|]. rewrite <- Hl1. unfold zlen. by rewrite length_insert. }
  destruct (moved_direction m).
  - rewrite decide_True by done. assert (l2 = l1) as -> by done. unfold new_from, lost, b2z.
    destruct (Qtruthy xa), (Qtruthy xb); rewrite ?(list_insert_id l1 (Z.to_nat (moved_from m)) xa) by done;
      (erewrite bind_ok by (first [reflexivity | erewrite bind_ok by (apply write_ok; cbn; lia); reflexivity])); cbn; unfold with_cells; cbn; do 2 f_equal; lia.
  - rewrite decide_False by done. erewrite bind_ok by reflexivity. unfold lost. by rewrite Z.sub_0_r.
Qed.

Lemma on_moved_ok p L m : cells_ok p L -> moved_from m ≠ moved_to m -> 0 <= moved_from m < N -> 0 <= moved_to m < N ->
  exists f p', MinPs.on_moved m p = (Ok f, p') /\ cells_ok p' (apply_moved L m) /\ array_only p p'
    /\ (f = false -> forall j, 0 <= j -> (moved_direction m = UNIDIRECTIONAL -> j ≠ moved_from m) -> Qeq (cell L j) (cell (apply_moved L m) j)).
Proof.
  intros Hc Hne Hf Ht. pose proof Hc as [C1 C2 C3]. destruct (read_ok p (moved_from m)) as (xa & Ea & _); [by rewrite C1|].
  destruct (read_ok p (moved_to m)) as (xb & Eb & _); [by rewrite C1|]. pose proof (C2 _ _ (proj1 Hf) Ea) as Ca. pose proof (C2 _ _ (proj1 Ht) Eb) as Cb.
  assert (Qeq (new_to xa xb) (cell L (moved_from m))) as Hto.
  { unfold new_to. destruct (Qneq xa xb) eqn:E; [done|]. apply Qneq_false in E. by rewrite <- E. }
  eexists _, _. split; [apply (on_moved_run p m xa xb); rewrite ?C1; done|]. split; [|split; [by split_and!|]].
  - apply (with_two_ok p L _ _ _ _ _ xa xb); try done; try lia.
    + rewrite cell_moved by done. rewrite decide_False, decide_True by done. unfold new_from. destruct (moved_direction m).
      * rewrite decide_False by done. destruct (Qtruthy xa) eqn:E; [done|by apply Qtruthy_false].
      * rewrite decide_True by done. destruct (Qneq xa xb) eqn:E; [done|]. apply Qneq_false in E. by rewrite E.
    + rewrite cell_moved by done. by rewrite decide_True.
    + intros j _ H1 H2. rewrite cell_moved by done. by rewrite !decide_False by done.
    + assert (Qtruthy (new_to xa xb) = Qtruthy xa) as -> by (by rewrite Hto, Ca). unfold lost, new_from. destruct (moved_direction m).
      * destruct (Qtruthy xa) eqn:E; change (Qtruthy 0) with false; rewrite ?E; unfold b2z; lia.
      * destruct (Qneq xa xb) eqn:E; [lia|]. apply Qneq_false in E. rewrite E. lia.
  - intros E%Qneq_false j Hj Hj'. rewrite cell_moved by done. destruct (decide (j = moved_to m)) as [->|]; [by rewrite <- Ca, <- Cb, E|].
    destruct (decide (j = moved_from m)) as [->|]; [|done]. destruct (moved_direction m); [by destruct Hj'|]. rewrite decide_True by done. by rewrite <- Ca, <- Cb, E.
Qed.

(** An update of a batch of at most [N] rows. *)
Record update_ok (u : BatchUpdate) : Prop := {
  uo_size : 0 <= batch_size u <= N;
  uo_added : Forall (fun a => 0 <= added_index a < N) (upd_added u);
  uo_removed : Forall (fun i => 0 <= i < N) (upd_removed u);
  uo_moved : Forall (fun m => moved_from m ≠ moved_to m /\ 0 <= moved_from m < N /\ 0 <= moved_to m < N
                              /\ (moved_direction m = UNIDIRECTIONAL -> batch_size u <= moved_from m)) (upd_moved u);
}.

(** The array, the count and the slice of the tensor on the device. *)
Record min_p_ok (p : MinP) (size : Z) (L : layout) : Prop := {
  mp_cells : cells_ok p L;
  mp_device : zlen (min_p_device p) = N;
  mp_slice : min_p_count p ≠ 0 -> min_p_size p = size /\
    (use_double_tensor p = true -> forall i x, 0 <= i < size -> min_p_device p !! Z.to_nat i = Some x -> Qeq x (cell L i));
}.

Lemma array_only_trans p1 p2 p3 : array_only p1 p2 -> array_only p2 p3 -> array_only p1 p3.
Proof. intros (A1 & A2 & A3) (B1 & B2 & B3). split_and!; congruence. Qed.

Lemma added_loop p L l : cells_ok p L -> Forall (fun a => 0 <= added_index a < N) l -> Forall (fun a => rounds (payload_of a)) l ->
  exists fs p', mmapM l MinPs.on_added p = (Ok fs, p') /\ cells_ok p' (adds payload_of l L) /\ array_only p p'
    /\ (existsb id fs = false -> p' = p /\ forall j, 0 <= j < N -> Qeq (cell L j) (cell (adds payload_of l L) j)).
Proof.
  intros Hc Hi Hr. rewrite Forall_forall in Hi, Hr.
  destruct (mmapM_ok MinPs.on_added (fun dn fs p' => cells_ok p' (adds payload_of dn L) /\ array_only p p' /\ (existsb id fs = false -> p' = p)) l) with (s := p)
    as (fs & p' & E & H1 & H2 & H3).
  - intros dn fs p1 x todo -> (H1 & H2 & H3). destruct (on_added_ok p1 _ x H1) as (f & p2 & E & H4 & H5 & H6); [apply Hi; set_solver|apply Hr; set_solver|].
    exists f, p2. split; [done|]. unfold adds. rewrite foldl_app. split; [done|]. split; [by eapply array_only_trans|].
    rewrite existsb_app. intros [Hf Hf']%orb_false_iff. cbn in Hf'. rewrite orb_false_r in Hf'. rewrite H6 by done. by apply H3.
  - by split_and!.
  - exists fs, p'. split_and!; try done. intros Hf. split; [by apply H3|]. intros j Hj. rewrite (H3 Hf) in H1. destruct Hc as [C1 C2 _].
    destruct (lookup_lt_is_Some_2 (min_p_cpu p) (Z.to_nat j)) as [x Hx]; [unfold zlen in C1; lia|].
    rewrite <- (C2 _ _ (proj1 Hj) Hx). apply (co_cells _ _ H1 j x); [lia|done].
Qed.

Lemma removed_loop p L l : cells_ok p L -> Forall (fun i => 0 <= i < N) l ->
  exists p', mfor l MinPs.on_removed p = (Ok tt, p') /\ cells_ok p' (removes l L) /\ array_only p p'.
Proof.
  intros Hc Hi. rewrite Forall_forall in Hi.
  destruct (mfor_ok MinPs.on_removed (fun dn p' => cells_ok p' (removes dn L) /\ array_only p p') l) with (s := p) as (p' & E & H1 & H2).
  - intros dn x todo p1 -> [H1 H2]. destruct (on_removed_ok p1 _ x H1) as (p2 & E & H4 & H5); [apply Hi; set_solver|].
    exists p2. split; [done|]. unfold removes. rewrite foldl_app. split; [done|by eapply array_only_trans].
  - by split_and!.
  - by exists p'.
Qed.

Lemma moved_loop size p L l : cells_ok p L ->
  Forall (fun m => moved_from m ≠ moved_to m /\ 0 <= moved_from m < N /\ 0 <= moved_to m < N /\ (moved_direction m = UNIDIRECTIONAL -> size <= moved_from m)) l ->
  exists fs p', mmapM l MinPs.on_moved p = (Ok fs, p') /\ cells_ok p' (moves l L) /\ array_only p p'
    /\ (existsb id fs = false -> forall j, 0 <= j < size -> Qeq (cell L j) (cell (moves l L) j)).
Proof.
  intros Hc Hi. rewrite Forall_forall in Hi.
  destruct (mmapM_ok MinPs.on_moved (fun dn fs p' => cells_ok p' (moves dn L) /\ array_only p p' /\
    (existsb id fs = false -> forall j, 0 <= j < size -> Qeq (cell L j) (cell (moves dn L) j))) l) with (s := p) as (fs & p' & E & H1 & H2 & H3).
  - intros dn fs p1 x todo -> (H1 & H2 & H3). destruct (Hi x) as (I1 & I2 & I3 & I4); [set_solver|].
    destruct (on_moved_ok p1 _ x H1 I1 I2 I3) as (f & p2 & E & H4 & H5 & H6).
    exists f, p2. split; [done|]. unfold moves. rewrite foldl_app. split; [done|]. split; [by eapply array_only_trans|].
    rewrite existsb_app. intros [Hf Hf']%orb_false_iff j Hj. cbn in Hf'. rewrite orb_false_r in Hf'. cbn [foldl].
    rewrite <- H6; [by apply H3|done|lia|]. intros Hd. specialize (I4 Hd). lia.
  - split_and!; [done|by split_and!|done].
  - by exists fs, p'.
Qed.

(** Nothing but zeros stays so. *)
Definition zeros (L : layout) : Prop := forall j, 0 <= j < N -> Qeq (cell L j) 0.

Lemma zeros_update u L : update_ok u -> zeros L -> zeros (moves (upd_moved u) (removes (upd_removed u) L)).
Proof.
  intros [_ _ _ Hm] Hz. assert (zeros (removes (upd_removed u) L)) as Hz'.
  { clear Hm. revert L Hz. unfold removes. induction (upd_removed u) as [|i l IH]; intros L Hz; [done|]. apply IH. intros j Hj. rewrite cell_removed. case_decide; [done|by apply Hz]. }
  revert Hz'. generalize (removes (upd_removed u) L). clear Hz L. unfold moves. induction (upd_moved u) as [|m l IH]; intros L Hz; [done|].
  apply Forall_cons in Hm as [(H1 & H2 & H3 & _) Hm]. apply IH; [done|]. intros j Hj. rewrite cell_moved by done. repeat case_decide; try done; by apply Hz.
Qed.

Lemma all_zero p L : cells_ok p L -> min_p_count p = 0 -> zeros L.
Proof.
  intros [C1 C2 C3] H0 j Hj. destruct (lookup_lt_is_Some_2 (min_p_cpu p) (Z.to_nat j)) as [x Hx]; [unfold zlen in C1; lia|].
  rewrite <- (C2 _ _ (proj1 Hj) Hx). apply (trues_zero (min_p_cpu p) (Z.to_nat j)); [lia|done].
Qed.

Lemma min_p_follow p size L u : min_p_ok p size L -> update_ok u -> Forall (fun a => rounds (payload_of a)) (upd_added u) ->
  exists p', MinPs.update_state (Some u) p = (Ok tt, p') /\ min_p_ok p' (batch_size u) (apply_update payload_of u L).
Proof.
  intros [Hc Hdev Hs] Hu Hr. pose proof Hu as [U1 U2 U3 U4]. unfold MinPs.update_state.
  destruct (added_loop p L (upd_added u) Hc U2 Hr) as (fa & p1 & E1 & H1 & A1 & F1). rewrite (bind_ok _ _ _ _ _ E1). erewrite bind_ok by reflexivity. change (id p1) with p1.
  destruct (Z.eqb_spec (min_p_count p1) 0) as [H0|Hn0].
  - erewrite bind_ok by reflexivity. erewrite bind_ok by reflexivity. change (id p1) with p1. rewrite H0. exists p1. split; [done|]. split; [|destruct A1 as (_ & -> & _); done|done].
    pose proof (zeros_update u _ Hu (all_zero _ _ H1 H0)) as Hz. destruct H1 as [C1 C2 C3]. split; [done| |done]. intros i x Hi Hx.
    transitivity 0%Q; [apply (trues_zero (min_p_cpu p1) (Z.to_nat i)); [lia|done]|symmetry; apply Hz]. apply lookup_lt_Some in Hx. unfold zlen in C1. lia.
  - destruct (removed_loop p1 _ (upd_removed u) H1 U3) as (p2 & E2 & H2 & A2).
    destruct (moved_loop (batch_size u) p2 _ (upd_moved u) H2 U4) as (fm & p3 & E3 & H3 & A3 & F3).
    erewrite bind_ok by (rewrite (bind_ok _ _ _ _ _ E2), (bind_ok _ _ _ _ _ E3); reflexivity). erewrite bind_ok by reflexivity. change (id p3) with p3.
    pose proof (array_only_trans _ _ _ A1 (array_only_trans _ _ _ A2 A3)) as (X1 & X2 & X3). fold (apply_update payload_of u L) in H3.
    destruct (negb (min_p_count p3 =? 0) && _) eqn:Eb.
    + eexists. split; [reflexivity|]. pose proof H3 as [C1 C2 C3]. assert (Hlen : zlen (min_p_device p3) = N) by congruence. split; [split; [exact C1|exact C2|exact C3]| |].
      * cbn. destruct (use_double_tensor p3); [|done]. rewrite py_upto_nonneg, py_from_nonneg, zlen_app by lia. unfold zlen in *. rewrite length_take, length_drop. lia.
      * intros _. cbn. split; [done|]. intros -> i x Hi. rewrite py_upto_nonneg, py_from_nonneg by lia.
        rewrite lookup_app_l by (rewrite length_take; unfold zlen in C1; lia). rewrite lookup_take_lt by lia. intros Hx; apply (C2 i x); [lia|done].
    + exists p3. split; [done|]. split; [done|congruence|]. intros Hn3. replace (min_p_count p3 =? 0) with false in Eb by lia. cbn [negb andb] in Eb.
      apply orb_false_iff in Eb as [Eu Esz]. apply orb_false_iff in Eu as [Eu Er]. rewrite existsb_app in Eu. apply orb_false_iff in Eu as [Efa Efm].
      breflect. destruct (F1 Efa) as [-> F1']. destruct (Hs Hn0) as [Hs1 Hs2]. assert (min_p_size p3 = batch_size u) as Hsz by lia. split; [done|].
      intros Hd i x Hi Hx. rewrite X2 in Hx. rewrite X1 in Hd. rewrite (Hs2 Hd i x ltac:(lia) Hx). rewrite F1' by lia. rewrite <- (F3 Efm i Hi). by rewrite Er.
Qed.

End min_p.

End LogitsFollow.
