(* ===== verification/InputBatch.v ===== *)
(** The worker's persistent batch: [InputBatch] of [v1/worker/gpu_input_batch.py].

    Each request of the batch has a row in many arrays.  The attributes are grouped by what
    they are about: ids, tokens, LoRA, sampling, pooling; arrays and sets that are
    always treated alike are kept together under the name of the column.  Output token
    lists and generators are shared objects: references.  Rows of
    [token_ids_cpu] and [is_token_ids] are lists of fixed length. *)

From Stdlib Require Import QArith.
From stdpp Require Import gmap.
From S2P Require Import Prelude Request BlockTable BatchUpdate.
Local Open Scope Z_scope.

(** The fields of [PoolingParams] that the worker reads. *)
Record WorkerPooling := { requires_token_ids : bool }.

Record CachedRequestState := {
  rs_req_id : string;
  rs_prompt_token_ids : option (list Z);
  rs_prompt_embeds : option (list bytes);
  rs_num_prompt_tokens : Z;
  rs_sampling_params : option WorkerParams;
  rs_generator : option nat;
  rs_block_ids : list (list Z);
  rs_num_computed_tokens : Z;
  rs_output_token_ids : output_ref;
  rs_lora_request : option LoRARequest;
  rs_pooling_params : option WorkerPooling;
  rs_pooling_states : option nat;
  prev_num_draft_len : Z;
}.

(** [CachedRequestState.num_tokens] *)
Definition output_of (h : heap) (r : output_ref) : list Z := default [] (h !! r).
Definition rs_num_tokens (h : heap) (r : CachedRequestState) : Z := rs_num_prompt_tokens r + zlen (output_of h (rs_output_token_ids r)).

(** [_SAMPLING_EPS] and [sampling_type] *)
Definition SAMPLING_EPS : Q := 1 # 100000.
Inductive SamplingType := GREEDY | RANDOM | RANDOM_SEED.
Definition sampling_type (p : WorkerParams) : SamplingType :=
  if negb (Qle_bool SAMPLING_EPS (temperature p)) then GREEDY else match seed p with Some _ => RANDOM_SEED | None => RANDOM end.

Inductive count_column := num_tokens_no_spec | num_prompt_tokens | num_computed_tokens_cpu.
Inductive float_column := temperature_cpu | top_p_cpu | frequency_penalties_cpu | presence_penalties_cpu | repetition_penalties_cpu.
Inductive int_column := top_k_cpu | num_accepted_tokens_cpu.
Inductive req_set := greedy_reqs | random_reqs | top_p_reqs | top_k_reqs
  | frequency_penalties_reqs | presence_penalties_reqs | repetition_penalties_reqs | has_allowed_token_ids.
#[export] Instance count_column_eq_dec : EqDecision count_column.
Proof. solve_decision. Defined.
#[export] Instance float_column_eq_dec : EqDecision float_column.
Proof. solve_decision. Defined.
#[export] Instance int_column_eq_dec : EqDecision int_column.
Proof. solve_decision. Defined.
#[export] Instance req_set_eq_dec : EqDecision req_set.
Proof. solve_decision. Defined.

Record IdRows := {
  req_ids : list (option string);
  req_id_to_index : gmap string Z;
  req_output_token_ids : list (option output_ref);
  spec_token_ids : list (list Z);
}.
Record TokenRows := {
  token_ids_cpu : list (list Z);
  is_token_ids : list (list bool);
  req_prompt_embeds : gmap Z (list bytes);
  counts : count_column -> list Z;
}.
Record LoraRows := {
  request_lora_mapping : list Z;
  lora_id_to_request_ids : gmap Z (gset string);
  lora_id_to_lora_request : gmap Z LoRARequest;
}.
Record SamplingRows := {
  floats : float_column -> list Q;
  ints : int_column -> list Z;
  sets : req_set -> gset string;
  generators : gmap Z nat;
  num_logprobs : gmap string Z;
  logprob_ids : gmap string (list Z);
  in_progress_prompt_logprobs_cpu : gmap string nat;
  (** [allowed_token_ids_mask_cpu_tensor], when it has been allocated *)
  allowed_token_ids_mask : option (list (list bool));
  bad_words : gmap Z (list (list Z));
  prev_req_id_to_index : option (gmap string Z);
}.
Record PoolingRows := {
  pooling_params : gmap string WorkerPooling;
  pooling_states : gmap string nat;
  logits_processing_needs_token_ids : list bool;
}.
Record InputBatch := {
  is_pooling_model : bool;
  batch_max_num_reqs : Z;
  vocab_size : Z;
  ids : IdRows;
  batch_update_builder : BatchUpdateBuilder;
  tokens : TokenRows;
  block_table : list BlockTable;
  lora : LoraRows;
  sampling : SamplingRows;
  pooling : PoolingRows;
}.

(** [l\[i\] = x] for a list or array of a state. *)
Definition store {S A} (get : S -> list A) (put : list A -> S -> S) (i : Z) (x : A) : M S unit :=
  s ← gets get; l ← lift_res (py_set s i x); modify (put l).
Definition load {S A} (get : S -> list A) (i : Z) : M S A := fun s => (py_get (get s) i, s).

(** ** Ids *)

Module Ids.
Abbreviation IM := (M IdRows).

Definition num_reqs (r : IdRows) : Z := Z.of_nat (size (req_id_to_index r)).

Definition set_ids l (r : IdRows) : IdRows := {| r with req_ids := l |}.
Definition set_index m (r : IdRows) : IdRows := {| r with req_id_to_index := m |}.
Definition set_outputs l (r : IdRows) : IdRows := {| r with req_output_token_ids := l |}.
Definition set_spec l (r : IdRows) : IdRows := {| r with spec_token_ids := l |}.
Definition put_id := store req_ids set_ids.
Definition put_output := store req_output_token_ids set_outputs.
Definition put_spec := store spec_token_ids set_spec.
Definition put_index (r : string) (i : Z) : IM unit := modify (fun s => set_index (<[r := i]> (req_id_to_index s)) s).

(** [self.spec_token_ids\[i\].clear()] *)
Definition clear_spec (i : Z) : IM unit := load spec_token_ids i ;; put_spec i [].

(** The ids of a new request. *)
Definition place (req_index : Z) (req_id : string) (output : output_ref) : IM unit :=
  r ← gets (fun r => r);
  (if req_index =? zlen (req_ids r) then
     modify (fun r => set_ids (req_ids r ++ [Some req_id]) r) ;;
     modify (fun r => set_outputs (req_output_token_ids r ++ [Some output]) r) ;;
     modify (fun r => set_spec (spec_token_ids r ++ [ [] ]) r)
   else
     put_id req_index (Some req_id) ;;
     put_output req_index (Some output) ;;
     clear_spec req_index) ;;
  put_index req_id req_index.

Definition clear (req_index : Z) : IM unit :=
  put_id req_index None ;;
  put_output req_index None ;;
  clear_spec req_index.

(** [l\[i\], l\[j\] = l\[j\], l\[i\]] *)
Definition swap {S A} (get : S -> list A) (put : list A -> S -> S) (i j : Z) : M S unit :=
  x ← load get j; y ← load get i; store get put i x ;; store get put j y.

(** The ids in [swap_states]; [old_id_i1] and [old_id_i2] were read before. *)
Definition swap_ids (i1 i2 : Z) : IM unit :=
  old_id_i1 ← load req_ids i1;
  old_id_i2 ← load req_ids i2;
  swap req_ids set_ids i1 i2 ;;
  swap req_output_token_ids set_outputs i1 i2 ;;
  swap spec_token_ids set_spec i1 i2 ;;
  match old_id_i1, old_id_i2 with
  | Some id1, Some id2 =>
      r ← gets (fun r => r);
      x ← lift_res (res_of_option KeyError (req_id_to_index r !! id2));
      y ← lift_res (res_of_option KeyError (req_id_to_index r !! id1));
      put_index id1 x ;; put_index id2 y
  | _, _ => raise AssertionError
  end.

(** The ids in one step of [condense]. *)
Definition slide (last empty : Z) : IM unit :=
  req_id ← load req_ids last;
  output ← load req_output_token_ids last;
  match req_id with
  | None => raise AssertionError
  | Some req_id =>
      put_id empty (Some req_id) ;;
      put_id last None ;;
      put_output empty output ;;
      put_output last None ;;
      put_index req_id empty
  end.
Definition slide_spec (last empty : Z) : IM unit :=
  swap spec_token_ids set_spec last empty ;;
  clear_spec last.

(** [del l\[n:\]] at the end of [condense]. *)
Definition trim (n : Z) (r : IdRows) : IdRows :=
  {| r with req_ids := py_upto (req_ids r) n; req_output_token_ids := py_upto (req_output_token_ids r) n; spec_token_ids := py_upto (spec_token_ids r) n |}.

End Ids.

(** ** Tokens *)

Module Toks.
Abbreviation TM := (M TokenRows).

Definition set_tokens l (t : TokenRows) : TokenRows := {| t with token_ids_cpu := l |}.
Definition set_flags l (t : TokenRows) : TokenRows := {| t with is_token_ids := l |}.
Definition set_embeds m (t : TokenRows) : TokenRows := {| t with req_prompt_embeds := m |}.
Definition set_count (c : count_column) l (t : TokenRows) : TokenRows :=
  {| t with counts := fun c' => if decide (c' = c) then l else counts t c' |}.

(** [int32] columns refuse what does not fit. *)
Definition put_count (c : count_column) (i x : Z) : TM unit :=
  if Table.is_int32 x then store (fun t => counts t c) (set_count c) i x else raise OverflowError.
Definition get_count (c : count_column) (i : Z) : TM Z := load (fun t => counts t c) i.

(** [a\[i, from:to\] = values] *)
Definition put_slice {A} (get : TokenRows -> list (list A)) (put : list (list A) -> TokenRows -> TokenRows) (i from to : Z) (values : list A) : TM unit :=
  row ← load get i;
  row ← lift_res (np_assign row from to values);
  store get put i row.
Definition put_tokens := put_slice token_ids_cpu set_tokens.
Definition put_flags := put_slice is_token_ids set_flags.

(** The tokens of a new request; [num_tokens] is [request.num_tokens]. *)
Definition copy (prompt_token_ids : option (list Z)) (prompt_embeds : option (list bytes)) (output : list Z) (num_tokens req_index : Z) : TM unit :=
  num_prompt ← lift_res (length_from_prompt_token_ids_or_embeds prompt_token_ids prompt_embeds);
  put_count num_prompt_tokens req_index num_prompt ;;
  match prompt_token_ids with
  | Some ids =>
      ids ← lift_res (Table.as_int32 false ids);
      put_tokens req_index 0 num_prompt ids ;;
      put_flags req_index 0 num_prompt [true]
  | None => put_flags req_index 0 num_prompt [false]
  end ;;
  match prompt_embeds with
  | Some e => modify (fun t => set_embeds (<[req_index := e]> (req_prompt_embeds t)) t)
  | None => mret tt
  end ;;
  ids ← lift_res (Table.as_int32 false output);
  put_tokens req_index num_prompt (num_prompt + zlen output) ids ;;
  put_flags req_index num_prompt (num_prompt + zlen output) [true] ;;
  put_count num_tokens_no_spec req_index num_tokens.

(** [swap_dict_values] of [utils/collection_utils.py] *)
Definition swap_dict_values {K V} `{Countable K} (key1 key2 : K) (obj : gmap K V) : gmap K V :=
  let put k (v : option V) m := partial_alter (fun _ => v) k m in
  put key1 (obj !! key2) (put key2 (obj !! key1) obj).

Definition swap_counts (i1 i2 : Z) : TM unit :=
  mfor [num_tokens_no_spec; num_prompt_tokens; num_computed_tokens_cpu] (fun c => Ids.swap (fun t => counts t c) (set_count c) i1 i2).

(** The first [n] places of two rows are exchanged. *)
Definition swap_prefix {A} (get : TokenRows -> list (list A)) (put : list (list A) -> TokenRows -> TokenRows) (i1 i2 n : Z) : TM unit :=
  row1 ← load get i1;
  row2 ← load get i2;
  put_slice get put i1 0 n (py_upto row2 n) ;;
  put_slice get put i2 0 n (py_upto row1 n).

(** The tokens in [swap_states]. *)
Definition swap_rows (i1 i2 max_active_token_count : Z) : TM unit :=
  swap_counts i1 i2 ;;
  swap_prefix token_ids_cpu set_tokens i1 i2 max_active_token_count ;;
  swap_prefix is_token_ids set_flags i1 i2 max_active_token_count ;;
  modify (fun t => set_embeds (swap_dict_values i1 i2 (req_prompt_embeds t)) t).

(** The tokens in one step of [condense]. *)
Definition slide (last empty num_tokens : Z) : TM unit :=
  row ← load token_ids_cpu last;
  put_tokens empty 0 num_tokens (py_upto row num_tokens) ;;
  row ← load is_token_ids last;
  put_flags empty 0 num_tokens (py_upto row num_tokens) ;;
  modify (fun t => match req_prompt_embeds t !! last with
                   | Some e => set_embeds (<[empty := e]> (delete last (req_prompt_embeds t))) t
                   | None => t
                   end) ;;
  mfor [num_tokens_no_spec; num_prompt_tokens; num_computed_tokens_cpu] (fun c =>
    x ← get_count c last; store (fun t => counts t c) (set_count c) empty x).

End Toks.

(** ** LoRA *)

Module Loras.
Abbreviation LM := (M LoraRows).

Definition set_mapping l (r : LoraRows) : LoraRows := {| r with request_lora_mapping := l |}.
Definition set_requests m (r : LoraRows) : LoraRows := {| r with lora_id_to_request_ids := m |}.
Definition set_loras m (r : LoraRows) : LoraRows := {| r with lora_id_to_lora_request := m |}.
Definition put_mapping (i x : Z) : LM unit :=
  if (- 2 ^ 63 <=? x) && (x <? 2 ^ 63) then store request_lora_mapping set_mapping i x else raise OverflowError.

(** The LoRA of a new request. *)
Definition add (req_id : string) (lora_request : option LoRARequest) (req_index : Z) : LM unit :=
  match lora_request with
  | Some lora =>
      let lora_id := lora_int_id lora in
      modify (fun r => match lora_id_to_request_ids r !! lora_id with
                       | Some _ => r
                       | None => set_requests (<[lora_id := ∅]> (lora_id_to_request_ids r)) r
                       end) ;;
      put_mapping req_index lora_id ;;
      r ← gets lora_id_to_request_ids;
      reqs ← lift_res (res_of_option KeyError (r !! lora_id : option (gset string)));
      modify (fun r => set_requests (<[lora_id := reqs ∪ {[ req_id ]}]> (lora_id_to_request_ids r)) r) ;;
      modify (fun r => set_loras (<[lora_id := lora]> (lora_id_to_lora_request r)) r)
  | None => put_mapping req_index 0
  end.

(** The LoRA of a request that goes. *)
Definition remove (req_id : string) (req_index : Z) : LM unit :=
  lora_id ← load request_lora_mapping req_index;
  if lora_id =? 0 then mret tt
  else
    r ← gets lora_id_to_request_ids;
    reqs ← lift_res (res_of_option KeyError (r !! lora_id : option (gset string)));
    let reqs := reqs ∖ {[ req_id ]} in
    modify (fun r => set_requests (<[lora_id := reqs]> (lora_id_to_request_ids r)) r) ;;
    (if decide (reqs = ∅) then
       modify (fun r => set_requests (delete lora_id (lora_id_to_request_ids r)) r) ;;
       loras ← gets lora_id_to_lora_request;
       lift_res (res_of_option KeyError (loras !! lora_id : option LoRARequest)) ;;
       modify (fun r => set_loras (delete lora_id (lora_id_to_lora_request r)) r)
     else mret tt) ;;
    put_mapping req_index 0.

Definition slide (last empty : Z) : LM unit := x ← load request_lora_mapping last; store request_lora_mapping set_mapping empty x.

End Loras.

(** ** Sampling *)

Module Sampling.
Section sampling.
Context `{Float32} (max_num_reqs vocab_size : Z).
Abbreviation SM := (M SamplingRows).

Definition set_float (c : float_column) l (s : SamplingRows) : SamplingRows := {| s with floats := fun c' => if decide (c' = c) then l else floats s c' |}.
Definition set_int (c : int_column) l (s : SamplingRows) : SamplingRows := {| s with ints := fun c' => if decide (c' = c) then l else ints s c' |}.
Definition set_set (c : req_set) x (s : SamplingRows) : SamplingRows := {| s with sets := fun c' => if decide (c' = c) then x else sets s c' |}.
Definition set_generators m (s : SamplingRows) : SamplingRows := {| s with generators := m |}.
Definition set_num_logprobs m (s : SamplingRows) : SamplingRows := {| s with num_logprobs := m |}.
Definition set_logprob_ids m (s : SamplingRows) : SamplingRows := {| s with logprob_ids := m |}.
Definition set_in_progress m (s : SamplingRows) : SamplingRows := {| s with in_progress_prompt_logprobs_cpu := m |}.
Definition set_mask m (s : SamplingRows) : SamplingRows := {| s with allowed_token_ids_mask := m |}.
Definition set_bad_words m (s : SamplingRows) : SamplingRows := {| s with bad_words := m |}.
Definition set_prev m (s : SamplingRows) : SamplingRows := {| s with prev_req_id_to_index := m |}.

Definition put_float (c : float_column) : Z -> Q -> SM unit := store (fun s => floats s c) (set_float c).
Definition put_int (c : int_column) (i x : Z) : SM unit :=
  if Table.is_int32 x then store (fun s => ints s c) (set_int c) i x else raise OverflowError.
Definition add_to (c : req_set) (r : string) : SM unit := modify (fun s => set_set c (sets s c ∪ {[ r ]}) s).
Definition discard (c : req_set) (r : string) : SM unit := modify (fun s => set_set c (sets s c ∖ {[ r ]}) s).

(** [row\[ids\] = False] *)
Fixpoint unmask (row : list bool) (allowed : list Z) : res (list bool) :=
  match allowed with
  | [] => Ok row
  | i :: rest => row ← py_set row i false; unmask row rest
  end.

(** The row of the mask with the allowed token ids. *)
Definition allow_only (req_index : Z) (allowed : list Z) : SM unit :=
  modify (fun s => match allowed_token_ids_mask s with
                   | Some _ => s
                   | None => set_mask (Some (replicate (Z.to_nat max_num_reqs) (replicate (Z.to_nat vocab_size) false))) s
                   end) ;;
  s ← gets (fun s => s);
  let mask := default [] (allowed_token_ids_mask s) in
  row ← lift_res (py_get mask req_index);
  mask ← lift_res (py_set mask req_index (replicate (length row) true));
  modify (set_mask (Some mask)) ;;
  row ← lift_res (unmask (replicate (length row) true) allowed);
  mask ← lift_res (py_set mask req_index row);
  modify (set_mask (Some mask)).

(** The sampling parameters of a new request. *)
Definition copy (req_id : string) (p : WorkerParams) (generator : option nat) (req_index : Z) : SM unit :=
  match sampling_type p with
  | GREEDY => put_float temperature_cpu req_index 0%Q ;; add_to greedy_reqs req_id
  | _ => put_float temperature_cpu req_index (to_float32 (temperature p)) ;; add_to random_reqs req_id
  end ;;
  put_float top_p_cpu req_index (to_float32 (top_p p)) ;;
  (if negb (Qle_bool 1 (top_p p)) then add_to top_p_reqs req_id else mret tt) ;;
  let in_vocab := (0 <? top_k p) && (top_k p <? vocab_size) in
  (if in_vocab then add_to top_k_reqs req_id else mret tt) ;;
  put_int top_k_cpu req_index (if in_vocab then top_k p else vocab_size) ;;
  put_float frequency_penalties_cpu req_index (to_float32 (frequency_penalty p)) ;;
  (if Qneq (frequency_penalty p) 0 then add_to frequency_penalties_reqs req_id else mret tt) ;;
  put_float presence_penalties_cpu req_index (to_float32 (presence_penalty p)) ;;
  (if Qneq (presence_penalty p) 0 then add_to presence_penalties_reqs req_id else mret tt) ;;
  put_float repetition_penalties_cpu req_index (to_float32 (repetition_penalty p)) ;;
  (if Qneq (repetition_penalty p) 1 then add_to repetition_penalties_reqs req_id else mret tt) ;;
  modify (fun s => match generator with Some g => set_generators (<[req_index := g]> (generators s)) s | None => s end) ;;
  modify (fun s => match logprobs p with
                   | Some n => set_num_logprobs (<[req_id := if n =? -1 then vocab_size else n]> (num_logprobs s)) s
                   | None => s
                   end) ;;
  modify (fun s => match logprob_token_ids p with Some l => set_logprob_ids (<[req_id := l]> (logprob_ids s)) s | None => s end) ;;
  match allowed_token_ids p with
  | Some ((_ :: _) as l) => add_to has_allowed_token_ids req_id ;; allow_only req_index l
  | _ => mret tt
  end ;;
  modify (fun s => match bad_words_token_ids p with
                   | Some ((_ :: _) as l) => set_bad_words (<[req_index := l]> (bad_words s)) s
                   | _ => s
                   end).

(** The sampling state that goes with a request. *)
Definition remove (req_id : string) (req_index : Z) : SM unit :=
  mfor [greedy_reqs; random_reqs; top_p_reqs; top_k_reqs; frequency_penalties_reqs; presence_penalties_reqs; repetition_penalties_reqs] (fun c => discard c req_id) ;;
  modify (fun s => set_generators (delete req_index (generators s)) s) ;;
  modify (fun s => set_num_logprobs (delete req_id (num_logprobs s)) s) ;;
  modify (fun s => set_logprob_ids (delete req_id (logprob_ids s)) s) ;;
  modify (fun s => set_in_progress (delete req_id (in_progress_prompt_logprobs_cpu s)) s) ;;
  modify (fun s => set_prev (delete req_id <$> prev_req_id_to_index s) s) ;;
  discard has_allowed_token_ids req_id ;;
  s ← gets (fun s => s);
  match allowed_token_ids_mask s with
  | None => mret tt
  | Some mask =>
      row ← lift_res (py_get mask req_index);
      mask ← lift_res (py_set mask req_index (replicate (length row) false));
      modify (set_mask (Some mask))
  end ;;
  modify (fun s => set_bad_words (delete req_index (bad_words s)) s).

(** What is done to each array of rows. *)
Definition each_column (on_floats : float_column -> SM unit) (on_ints : int_column -> SM unit) : SM unit :=
  on_floats temperature_cpu ;; on_floats top_p_cpu ;; on_ints top_k_cpu ;;
  on_floats frequency_penalties_cpu ;; on_floats presence_penalties_cpu ;; on_floats repetition_penalties_cpu ;;
  on_ints num_accepted_tokens_cpu.

(** [mask\[to\] = mask\[from\]]: the row of a tensor is a view, read when it is assigned. *)
Definition copy_mask_row (from to : Z) : SM unit :=
  x ← load (fun s => default [] (allowed_token_ids_mask s)) from;
  store (fun s => default [] (allowed_token_ids_mask s)) (fun l => set_mask (Some l)) to x.

(** The sampling state in [swap_states].  Both sides of the exchange of mask rows are views, so
    it comes down to two assignments. *)
Definition swap_rows (i1 i2 : Z) : SM unit :=
  each_column (fun c => Ids.swap (fun s => floats s c) (set_float c) i1 i2) (fun c => Ids.swap (fun s => ints s c) (set_int c) i1 i2) ;;
  modify (fun s => set_generators (Toks.swap_dict_values i1 i2 (generators s)) s) ;;
  modify (fun s => set_bad_words (Toks.swap_dict_values i1 i2 (bad_words s)) s) ;;
  s ← gets (fun s => s);
  match allowed_token_ids_mask s with
  | None => mret tt
  | Some _ => copy_mask_row i2 i1 ;; copy_mask_row i1 i2
  end.

(** The sampling state in one step of [condense]. *)
Definition move_dict {V} (last empty : Z) (m : gmap Z V) : gmap Z V :=
  match m !! last with Some v => <[empty := v]> (delete last m) | None => m end.
Definition slide (last empty : Z) : SM unit :=
  each_column (fun c => x ← load (fun s => floats s c) last; store (fun s => floats s c) (set_float c) empty x)
              (fun c => x ← load (fun s => ints s c) last; store (fun s => ints s c) (set_int c) empty x) ;;
  modify (fun s => set_generators (move_dict last empty (generators s)) s) ;;
  s ← gets (fun s => s);
  match allowed_token_ids_mask s with
  | None => mret tt
  | Some _ => copy_mask_row last empty
  end ;;
  modify (fun s => set_bad_words (move_dict last empty (bad_words s)) s).

End sampling.
End Sampling.

(** ** Pooling *)

Module Pool.
Abbreviation PM := (M PoolingRows).

Definition copy (req_id : string) (p : WorkerPooling) (states : option nat) (req_index : Z) : PM unit :=
  states ← lift_res (res_of_option AssertionError states);
  modify (fun r => {| r with pooling_params := <[req_id := p]> (pooling_params r) |}) ;;
  modify (fun r => {| r with pooling_states := <[req_id := states]> (pooling_states r) |}) ;;
  store logits_processing_needs_token_ids (fun l r => {| r with logits_processing_needs_token_ids := l |}) req_index (requires_token_ids p).

Definition remove (req_id : string) : PM unit :=
  modify (fun r => {| r with pooling_params := delete req_id (pooling_params r) |}) ;;
  modify (fun r => {| r with pooling_states := delete req_id (pooling_states r) |}).

End Pool.

(** ** The batch *)

(** The logits processors of a worker. *)
Record LogitsProcs := {
  procs_min_p : MinP;
  procs_bias : LogitBias;
  procs_min_tokens : MinTokens;
  procs_thinking : ThinkingTokenBudget;
}.

Module Batch.
Section batch.
Context `{Float32}.
Abbreviation IB := (M InputBatch).

(** [__init__] *)
Definition init (pooling : bool) (max_num_reqs max_model_len vocab : Z) (tables : list BlockTable) : InputBatch :=
  let col {A} (x : A) := replicate (Z.to_nat max_num_reqs) x in
  {| is_pooling_model := pooling; batch_max_num_reqs := max_num_reqs; vocab_size := vocab;
     ids := {| req_ids := []; req_id_to_index := ∅; req_output_token_ids := []; spec_token_ids := col [] |};
     batch_update_builder := Builder.init;
     tokens := {| token_ids_cpu := col (replicate (Z.to_nat max_model_len) 0); is_token_ids := col (replicate (Z.to_nat max_model_len) false);
                  req_prompt_embeds := ∅; counts := fun _ => col 0 |};
     block_table := tables;
     lora := {| request_lora_mapping := col 0; lora_id_to_request_ids := ∅; lora_id_to_lora_request := ∅ |};
     sampling := {| floats := fun _ => col 0%Q; ints := fun c => col (if decide (c = num_accepted_tokens_cpu) then 1 else 0); sets := fun _ => ∅;
                    generators := ∅; num_logprobs := ∅; logprob_ids := ∅; in_progress_prompt_logprobs_cpu := ∅; allowed_token_ids_mask := None;
                    bad_words := ∅; prev_req_id_to_index := None |};
     pooling := {| pooling_params := ∅; pooling_states := ∅; logits_processing_needs_token_ids := col false |} |}.

Definition num_reqs (b : InputBatch) : Z := Ids.num_reqs (ids b).

Definition with_ids x (b : InputBatch) : InputBatch := {| b with ids := x |}.
Definition with_builder x (b : InputBatch) : InputBatch := {| b with batch_update_builder := x |}.
Definition with_tokens x (b : InputBatch) : InputBatch := {| b with tokens := x |}.
Definition with_table x (b : InputBatch) : InputBatch := {| b with block_table := x |}.
Definition with_lora x (b : InputBatch) : InputBatch := {| b with lora := x |}.
Definition with_sampling x (b : InputBatch) : InputBatch := {| b with sampling := x |}.
Definition with_pooling x (b : InputBatch) : InputBatch := {| b with pooling := x |}.

Definition on_ids {A} : M IdRows A -> IB A := zoom ids with_ids.
Definition on_builder {A} : M BatchUpdateBuilder A -> IB A := zoom batch_update_builder with_builder.
Definition on_tokens {A} : M TokenRows A -> IB A := zoom tokens with_tokens.
Definition on_table {A} : M (list BlockTable) A -> IB A := zoom block_table with_table.
Definition on_lora {A} : M LoraRows A -> IB A := zoom lora with_lora.
Definition on_sampling {A} : M SamplingRows A -> IB A := zoom sampling with_sampling.
Definition on_pooling {A} : M PoolingRows A -> IB A := zoom pooling with_pooling.

(** [_register_add_request] *)
Definition register_add_request (request : CachedRequestState) : IB Z :=
  popped ← on_builder Builder.pop_removed;
  b ← gets (fun b => b);
  let new_req_index := match popped with Some i => i | None => num_reqs b end in
  assert_ (new_req_index <? batch_max_num_reqs b) ;;
  on_builder (modify Builder.changed) ;;
  match rs_sampling_params request with
  | Some params => on_builder (modify (Builder.add {| added_index := new_req_index; added_params := params;
                                                     added_prompt := rs_prompt_token_ids request; added_output := rs_output_token_ids request |}))
  | None => mret tt
  end ;;
  mret new_req_index.

(** [add_request] *)
Definition add_request (h : heap) (request : CachedRequestState) : IB Z :=
  req_index ← register_add_request request;
  let req_id := rs_req_id request in
  on_ids (Ids.place req_index req_id (rs_output_token_ids request)) ;;
  on_tokens (Toks.copy (rs_prompt_token_ids request) (rs_prompt_embeds request) (output_of h (rs_output_token_ids request)) (rs_num_tokens h request) req_index) ;;
  on_tokens (Toks.put_count num_computed_tokens_cpu req_index (rs_num_computed_tokens request)) ;;
  on_table (Tables.add_row (rs_block_ids request) req_index) ;;
  b ← gets (fun b => b);
  match rs_sampling_params request, rs_pooling_params request with
  | Some p, _ => on_sampling (Sampling.copy (batch_max_num_reqs b) (vocab_size b) req_id p (rs_generator request) req_index)
  | None, Some p => on_pooling (Pool.copy req_id p (rs_pooling_states request) req_index)
  | None, None => raise NotImplementedError
  end ;;
  on_sampling (Sampling.put_int num_accepted_tokens_cpu req_index 1) ;;
  on_lora (Loras.add req_id (rs_lora_request request) req_index) ;;
  mret req_index.

(** [update_req_spec_token_ids]; the request is returned with its [prev_num_draft_len]. *)
Definition update_req_spec_token_ids (request : CachedRequestState) (scheduled_spec_tokens : gmap string (list Z)) : IB CachedRequestState :=
  let req_id := rs_req_id request in
  b ← gets (fun b => b);
  req_index ← lift_res (res_of_option KeyError (req_id_to_index (ids b) !! req_id));
  on_ids (Ids.clear_spec req_index) ;;
  let spec := default [] (scheduled_spec_tokens !! req_id) in
  let request := {| request with prev_num_draft_len := zlen spec |} in
  match spec with
  | [] => mret request
  | _ =>
      start_index ← on_tokens (Toks.get_count num_tokens_no_spec req_index);
      values ← lift_res (Table.as_int32 false spec);
      on_tokens (Toks.put_tokens req_index start_index (start_index + zlen spec) values) ;;
      cur ← on_ids (load spec_token_ids req_index);
      on_ids (Ids.put_spec req_index (cur ++ spec)) ;;
      mret request
  end.

(** [remove_request] *)
Definition remove_request (req_id : string) : IB (option Z) :=
  b ← gets (fun b => b);
  match req_id_to_index (ids b) !! req_id with
  | None => mret None
  | Some req_index =>
      on_ids (modify (fun r => Ids.set_index (delete req_id (req_id_to_index r)) r)) ;;
      on_builder (Builder.removed_append req_index) ;;
      on_ids (Ids.clear req_index) ;;
      on_table (Tables.clear_row req_index) ;;
      on_lora (Loras.remove req_id req_index) ;;
      (if is_pooling_model b then on_pooling (Pool.remove req_id) else on_sampling (Sampling.remove req_id req_index)) ;;
      mret (Some req_index)
  end.

(** [_get_active_token_count] *)
Definition get_active_token_count (i : Z) : IB Z :=
  n ← on_tokens (Toks.get_count num_tokens_no_spec i);
  spec ← on_ids (load spec_token_ids i);
  mret (n + zlen spec).

(** [swap_states] *)
Definition swap_states (i1 i2 : Z) : IB unit :=
  b ← gets (fun b => b);
  n1 ← get_active_token_count i1;
  n2 ← get_active_token_count i2;
  on_ids (Ids.swap_ids i1 i2) ;;
  on_tokens (Toks.swap_rows i1 i2 (Z.max n1 n2)) ;;
  on_table (Tables.swap_row i1 i2) ;;
  on_lora (Ids.swap request_lora_mapping Loras.set_mapping i1 i2) ;;
  if is_pooling_model b then mret tt
  else
    on_builder (modify (Builder.move {| moved_from := i1; moved_to := i2; moved_direction := SWAP |})) ;;
    on_sampling (Sampling.swap_rows i1 i2).

(** [while last_req_index in empty_req_indices: last_req_index -= 1] *)
Fixpoint find_last (fuel : nat) (empty : list Z) (last_req_index : Z) : res Z :=
  if bool_decide (last_req_index ∈ empty) then
    match fuel with O => Raise Diverges | S fuel => find_last fuel empty (last_req_index - 1) end
  else Ok last_req_index.

(** One request moves down from row [last] to row [empty]. *)
Definition slide (last empty : Z) : IB unit :=
  b ← gets (fun b => b);
  on_ids (Ids.slide last empty) ;;
  num_tokens ← get_active_token_count last;
  on_ids (Ids.slide_spec last empty) ;;
  on_tokens (Toks.slide last empty num_tokens) ;;
  on_table (Tables.move_row last empty) ;;
  on_lora (Loras.slide last empty) ;;
  if is_pooling_model b then mret tt
  else
    on_builder (modify (Builder.move {| moved_from := last; moved_to := empty; moved_direction := UNIDIRECTIONAL |})) ;;
    on_sampling (Sampling.slide last empty).

(** The loop of [condense]. *)
Fixpoint condense_loop (fuel : nat) (last_req_index : Z) : IB unit :=
  empty_req_indices ← on_builder (gets removed_);
  match empty_req_indices with
  | [] => mret tt
  | _ =>
      match fuel with
      | O => raise Diverges
      | S fuel =>
          last_req_index ← lift_res (find_last (length empty_req_indices) empty_req_indices last_req_index);
          empty_index ← on_builder Builder.peek_removed;
          match empty_index with
          | None => raise AssertionError
          | Some empty_index =>
              if last_req_index <=? empty_index then mret tt
              else
                on_builder Builder.pop_removed ;;
                slide last_req_index empty_index ;;
                condense_loop fuel (last_req_index - 1)
          end
      end
  end.

(** [condense] *)
Definition condense : IB unit :=
  b ← gets (fun b => b);
  empty_req_indices ← on_builder Builder.removed;
  match empty_req_indices with
  | [] => mret tt
  | _ =>
      if num_reqs b =? 0 then on_ids (modify (Ids.trim 0))
      else
        condense_loop (length empty_req_indices) (num_reqs b + zlen empty_req_indices - 1) ;;
        on_ids (modify (Ids.trim (num_reqs b)))
  end.

(** ** What the sampler gets *)

Definition all_greedy (b : InputBatch) : bool := bool_decide (sets (sampling b) random_reqs = ∅).
Definition all_random (b : InputBatch) : bool := bool_decide (sets (sampling b) greedy_reqs = ∅).
Definition no_top_p (b : InputBatch) : bool := bool_decide (sets (sampling b) top_p_reqs = ∅).
Definition no_top_k (b : InputBatch) : bool := bool_decide (sets (sampling b) top_k_reqs = ∅).
Definition no_penalties (b : InputBatch) : bool :=
  bool_decide (sets (sampling b) presence_penalties_reqs = ∅) && bool_decide (sets (sampling b) frequency_penalties_reqs = ∅)
  && bool_decide (sets (sampling b) repetition_penalties_reqs = ∅).
Definition no_allowed_token_ids (b : InputBatch) : bool := bool_decide (sets (sampling b) has_allowed_token_ids = ∅).
Definition max_num_logprobs (b : InputBatch) : option Z :=
  map_fold (fun _ n m => Some (match m with Some m => Z.max n m | None => n end)) None (num_logprobs (sampling b)).

(** [_make_prompt_token_ids_cpu_tensor] *)
Definition make_prompt_token_ids (b : InputBatch) : res (list (list Z)) :=
  let n := num_reqs b in
  let prompts := py_upto (counts (tokens b) num_prompt_tokens) n in
  match prompts with
  | [] => Raise ValueError
  | p :: rest =>
      let max_prompt_len := foldl Z.max p rest in
      mapM (fun '(row, num) => np_assign (py_upto row max_prompt_len) num (zlen (py_upto row max_prompt_len)) [vocab_size b])
           (zip (py_upto (token_ids_cpu (tokens b)) n) prompts)
  end.

(** [make_lora_inputs]: the LoRA id of each sampled token, of each token, and the LoRAs. *)
Definition make_lora_inputs (b : InputBatch) (num_scheduled_tokens num_sampled_tokens : list Z) : res (list Z * list Z * list LoRARequest) :=
  let mapping := py_upto (request_lora_mapping (lora b)) (num_reqs b) in
  let repeat counts := if negb (length counts =? length mapping)%nat || negb (forallb (Z.leb 0) counts) then Raise ValueError
                       else Ok (zip mapping counts ≫= fun '(x, n) => replicate (Z.to_nat n) x) in
  sampled ← repeat num_sampled_tokens;
  scheduled ← repeat num_scheduled_tokens;
  Ok (sampled, scheduled, (map_to_list (lora_id_to_lora_request (lora b))).*2).

(** The processors that are told of an update. *)
Definition update_processors (h : heap) (u : option BatchUpdate) : M LogitsProcs unit := fun p =>
  (zoom procs_min_p (fun x p => {| p with procs_min_p := x |}) (MinPs.update_state u) ;;
   zoom procs_bias (fun x p => {| p with procs_bias := x |}) (Bias.update_state u) ;;
   zoom procs_min_tokens (fun x p => {| p with procs_min_tokens := x |}) (MinToks.update_state h u) ;;
   modify (fun p => {| p with procs_thinking := Thinking.update_state h u (procs_thinking p) |})) p.

(** [refresh_metadata]: whether the sampling metadata are made anew. *)
Definition refresh_metadata (h : heap) : M (InputBatch * LogitsProcs) bool :=
  b ← gets fst;
  if is_pooling_model b then on_fst (on_builder Builder.reset)
  else
    u ← on_fst (on_builder (Builder.get_and_reset (num_reqs b)));
    on_snd (update_processors h u) ;;
    mret (bool_decide (is_Some u)).

End batch.
End Batch.
