(* ===== verification/BatchRows.v ===== *)
(** The rows of the persistent batch: what each group of attributes of [InputBatch] says
    about the requests in the rows, and that adding, clearing, sliding and swapping
    rows does to every group what it does to the list of rows. *)

From Stdlib Require Import QArith.
From stdpp Require Import gmap.
From S2P Require Import Prelude Request BlockTable BlockTableFacts BatchUpdate InputBatch.
Local Open Scope Z_scope.

Module BatchRows.

(** A request in the batch and what the batch has stored of it. *)
Record entry := {
  en_request : CachedRequestState;
  en_output : list Z;
  en_spec : list Z;
  en_computed : Z;
  en_blocks : list (list Z);
  en_accepted : Z;
}.
Definition en_id (e : entry) : string := rs_req_id (en_request e).
Definition en_ref (e : entry) : output_ref := rs_output_token_ids (en_request e).

(** The rows; a hole is a row whose request has gone. *)
Abbreviation rows_of := (list (option entry)).
Definition id_of (o : option entry) : option string := match o with Some e => Some (en_id e) | None => None end.
Definition ref_of (o : option entry) : option output_ref := match o with Some e => Some (en_ref e) | None => None end.
Definition spec_of (o : option (option entry)) : list Z := match o with Some (Some e) => en_spec e | _ => [] end.

Lemma store_ok {T A} (get : T -> list A) put i x s : 0 <= i < zlen (get s) ->
  store get put i x s = (Ok tt, put (<[Z.to_nat i := x]> (get s)) s).
Proof. intros Hi. unfold store. msteps. rewrite py_set_nonneg by done. by msteps. Qed.

Lemma load_ok {T A} (get : T -> list A) i x s : 0 <= i -> get s !! Z.to_nat i = Some x -> load get i s = (Ok x, s).
Proof. intros Hi Hx. unfold load. by rewrite py_get_nonneg, Hx. Qed.

(** One row of every kind of invariant that speaks about occupied rows only. *)
Section rowwise.
Context {X : Type} (P : X -> nat -> entry -> Prop).

Definition rowwise (x : X) (rows : rows_of) : Prop := forall i e, rows !! i = Some (Some e) -> P x i e.

Lemma rowwise_set x x' rows i e : rowwise x rows -> (forall j e', j ≠ i -> P x j e' -> P x' j e') -> P x' i e ->
  rowwise x' (<[i := Some e]> rows).
Proof.
  intros H Hf Hi j e'. destruct (decide (j = i)) as [->|Hne].
  - destruct (decide (i < length rows)%nat) as [Hlt|Hge]; [rewrite list_lookup_insert_eq by done; by intros [= <-]|].
    rewrite list_insert_ge by lia. intros Hj%lookup_lt_Some. lia.
  - rewrite list_lookup_insert_ne by done. intros Hj. apply Hf; [done|by apply H].
Qed.

Lemma rowwise_clear x x' rows i : rowwise x rows -> (forall j e', j ≠ i -> P x j e' -> P x' j e') -> rowwise x' (<[i := None]> rows).
Proof.
  intros H Hf j e'. destruct (decide (j = i)) as [->|Hne].
  - destruct (decide (i < length rows)%nat) as [Hlt|Hge]; [by rewrite list_lookup_insert_eq|].
    rewrite list_insert_ge by lia. intros Hj%lookup_lt_Some. lia.
  - rewrite list_lookup_insert_ne by done. intros Hj. apply Hf; [done|by apply H].
Qed.

Lemma rowwise_snoc x x' rows e : rowwise x rows -> (forall j e', j ≠ length rows -> P x j e' -> P x' j e') -> P x' (length rows) e ->
  rowwise x' (rows ++ [Some e]).
Proof.
  intros H Hf Hi j e'. destruct (decide (j < length rows)%nat) as [Hlt|Hge].
  - rewrite lookup_app_l by done. intros Hj. apply Hf; [lia|by apply H].
  - rewrite lookup_app_r by lia. intros Hj. pose proof (lookup_lt_Some _ _ _ Hj) as Hl. cbn in Hl. assert (j = length rows) as -> by lia.
    rewrite Nat.sub_diag in Hj. by injection Hj as <-.
Qed.

Lemma rowwise_take x rows n : rowwise x rows -> rowwise x (take n rows).
Proof. intros H i e Hi. apply H. by eapply lookup_take_Some. Qed.
End rowwise.

(** ** Ids *)

Record ids_ok (r : IdRows) (rows : rows_of) : Prop := {
  io_ids : req_ids r = id_of <$> rows;
  io_outputs : req_output_token_ids r = ref_of <$> rows;
  io_index : forall id i, req_id_to_index r !! id = Some i <-> 0 <= i /\ exists e, rows !! Z.to_nat i = Some (Some e) /\ en_id e = id;
  io_room : (length rows <= length (spec_token_ids r))%nat;
  io_spec : forall i l, spec_token_ids r !! i = Some l -> l = spec_of (rows !! i);
}.

(** An id is in one row only. *)
Lemma ids_distinct r rows i j e e' : ids_ok r rows -> rows !! i = Some (Some e) -> rows !! j = Some (Some e') -> en_id e = en_id e' -> i = j.
Proof.
  intros Hr Hi Hj E.
  assert (req_id_to_index r !! en_id e = Some (Z.of_nat i)) as H1 by (apply (io_index _ _ Hr); split; [lia|]; exists e; by rewrite Nat2Z.id).
  assert (req_id_to_index r !! en_id e = Some (Z.of_nat j)) as H2 by (apply (io_index _ _ Hr); split; [lia|]; exists e'; by rewrite Nat2Z.id).
  rewrite H1 in H2. injection H2. lia.
Qed.

(** A row of the spec lists is replaced. *)
Lemma spec_rows r rows (rows' : rows_of) i l' : ids_ok r rows -> (forall j, j ≠ i -> spec_of (rows' !! j) = spec_of (rows !! j)) ->
  l' = spec_of (rows' !! i) ->
  forall j l, <[i := l']> (spec_token_ids r) !! j = Some l -> l = spec_of (rows' !! j).
Proof.
  intros Hr Hother Hi j l. rewrite list_lookup_insert. case_decide as H; [destruct H as [<- _]; by intros [= <-]|].
  intros Hl. destruct (decide (j = i)) as [->|Hne].
  - apply lookup_lt_Some in Hl. tauto.
  - rewrite Hother by done. by eapply io_spec.
Qed.

Lemma clear_spec_ok r (i : Z) : 0 <= i < zlen (spec_token_ids r) -> Ids.clear_spec i r = (Ok tt, Ids.set_spec (<[Z.to_nat i := []]> (spec_token_ids r)) r).
Proof.
  intros Hi. unfold Ids.clear_spec. destruct (lookup_lt_is_Some_2 (spec_token_ids r) (Z.to_nat i)) as [l Hl]; [unfold zlen in Hi; lia|].
  rewrite (bind_ok _ _ _ _ _ (load_ok _ _ l _ (proj1 Hi) Hl)). by apply store_ok.
Qed.

(** Where a new request goes: into a hole or behind the last row. *)
Definition put_row (i : nat) (e : entry) (rows : rows_of) : rows_of := if decide (i = length rows) then rows ++ [Some e] else <[i := Some e]> rows.
Definition free_row (i : nat) (rows : rows_of) : Prop := i = length rows \/ rows !! i = Some None.

Lemma lookup_put_row i e rows j : free_row i rows -> put_row i e rows !! j = if decide (j = i) then Some (Some e) else rows !! j.
Proof.
  intros Hf. unfold put_row. destruct (decide (i = length rows)) as [->|Hi].
  - case_decide as Hj; [subst; by apply list_lookup_middle|]. destruct (decide (j < length rows)%nat); [by rewrite lookup_app_l|].
    rewrite lookup_app_r by lia. rewrite (lookup_ge_None_2 rows) by lia. apply lookup_ge_None_2. cbn. lia.
  - destruct Hf as [->|Hf]; [done|]. rewrite list_lookup_insert. pose proof (lookup_lt_Some _ _ _ Hf). repeat case_decide; try done; naive_solver.
Qed.

Lemma length_put_row i e rows : free_row i rows -> length (put_row i e rows) = Nat.max (length rows) (S i).
Proof.
  intros Hf. unfold put_row. destruct (decide (i = length rows)) as [->|Hi]; [rewrite length_app; cbn; lia|].
  destruct Hf as [->|Hf]; [done|]. rewrite length_insert. apply lookup_lt_Some in Hf. lia.
Qed.

Lemma fmap_put_row {A} (f : option entry -> A) i e rows : (i <= length rows)%nat ->
  f <$> put_row i e rows = if decide (i = length rows) then (f <$> rows) ++ [f (Some e)] else <[i := f (Some e)]> (f <$> rows).
Proof. intros Hi. unfold put_row. case_decide; [by rewrite fmap_app|]. by rewrite list_fmap_insert. Qed.

Lemma place_ok r rows i e : ids_ok r rows -> free_row i rows -> req_id_to_index r !! en_id e = None -> en_spec e = [] ->
  exists r', Ids.place (Z.of_nat i) (en_id e) (en_ref e) r = (Ok tt, r') /\ ids_ok r' (put_row i e rows).
Proof.
  intros Hr Hf Hfresh Hspec. pose proof Hr as [R1 R2 R3 R4 R5].
  assert (i <= length rows)%nat as Hle by (destruct Hf as [->|Hf]; [done|apply lookup_lt_Some in Hf; lia]).
  assert (length (req_ids r) = length rows) as Hl1 by (by rewrite R1, length_fmap).
  assert (length (req_output_token_ids r) = length rows) as Hl2 by (by rewrite R2, length_fmap).
  assert (forall id j, <[en_id e := Z.of_nat i]> (req_id_to_index r) !! id = Some j <->
    0 <= j /\ exists e', put_row i e rows !! Z.to_nat j = Some (Some e') /\ en_id e' = id) as Hindex.
  { intros id j. setoid_rewrite (lookup_put_row i e rows (Z.to_nat j) Hf). destruct (decide (id = en_id e)) as [->|Hne].
    - rewrite lookup_insert_eq. split.
      + intros [= <-]. split; [lia|]. exists e. by rewrite decide_True by lia.
      + intros (Hj & e' & He' & Hid). case_decide as Hc; [f_equal; lia|]. exfalso.
        assert (req_id_to_index r !! en_id e = Some j) as H by (apply R3; eauto). congruence.
    - rewrite lookup_insert_ne by done. rewrite R3. split; intros (Hj & e' & He' & Hid); (split; [done|]); exists e'.
      + rewrite decide_False; [done|]. intros Hc. rewrite Hc in He'. destruct Hf as [->|Hf]; [|congruence]. apply lookup_lt_Some in He'. lia.
      + case_decide; [congruence|done]. }
  assert (forall j, j ≠ i -> spec_of (put_row i e rows !! j) = spec_of (rows !! j)) as Hother by (intros j Hj; by rewrite lookup_put_row, decide_False).
  assert (spec_of (put_row i e rows !! i) = []) as Hnew by (by rewrite lookup_put_row, decide_True).
  unfold Ids.place. erewrite bind_ok by reflexivity. destruct (Z.eqb_spec (Z.of_nat i) (zlen (req_ids r))) as [Hi|Hi].
  - assert (i = length rows) as Hi' by (unfold zlen in Hi; lia). eexists. split; [reflexivity|]. split; cbn.
    + rewrite fmap_put_row, decide_True by done. by rewrite R1.
    + rewrite fmap_put_row, decide_True by done. by rewrite R2.
    + exact Hindex.
    + rewrite length_put_row, length_app by done. cbn. lia.
    + intros j l Hj. destruct (decide (j = i)) as [->|Hne].
      * rewrite Hnew. destruct (decide (i < length (spec_token_ids r))%nat) as [Hlt|Hge].
        -- rewrite lookup_app_l in Hj by done. apply R5 in Hj. by rewrite (lookup_ge_None_2 rows) in Hj by lia.
        -- rewrite lookup_app_r in Hj by lia. by apply list_lookup_singleton_Some in Hj as [_ <-].
      * rewrite Hother by done. destruct (decide (j < length (spec_token_ids r))%nat) as [Hlt|Hge].
        -- rewrite lookup_app_l in Hj by done. by apply R5.
        -- rewrite lookup_app_r in Hj by lia. apply list_lookup_singleton_Some in Hj as [_ <-]. by rewrite (lookup_ge_None_2 rows) by lia.
  - assert (i ≠ length rows) as Hi' by (unfold zlen in Hi; lia). assert (i < length rows)%nat as Hlt by lia.
    unfold Ids.put_id, Ids.put_output. erewrite bind_ok.
    2: { erewrite bind_ok by (apply store_ok; unfold zlen; lia). erewrite bind_ok by (apply store_ok; unfold zlen; cbn; lia).
         apply clear_spec_ok. unfold zlen. cbn. lia. }
    eexists. split; [reflexivity|]. rewrite !Nat2Z.id. split; cbn.
    + rewrite fmap_put_row, decide_False by done. by rewrite R1.
    + rewrite fmap_put_row, decide_False by done. by rewrite R2.
    + exact Hindex.
    + rewrite length_put_row, length_insert by done. lia.
    + apply (spec_rows r rows); [done|exact Hother|]. by rewrite Hnew.
Qed.

(** A row that becomes another one, or a hole. *)
Lemma ids_lengths r rows : ids_ok r rows -> length (req_ids r) = length rows /\ length (req_output_token_ids r) = length rows /\ (length rows <= length (spec_token_ids r))%nat.
Proof. intros [R1 R2 R3 R4 R5]. by rewrite R1, R2, !length_fmap. Qed.

Lemma lookup_ids r rows i e : ids_ok r rows -> rows !! i = Some (Some e) ->
  req_ids r !! i = Some (Some (en_id e)) /\ req_output_token_ids r !! i = Some (Some (en_ref e)) /\ spec_token_ids r !! i = Some (en_spec e).
Proof.
  intros [R1 R2 R3 R4 R5] Hi. rewrite R1, R2, !list_lookup_fmap, Hi. split_and!; [done|done|].
  destruct (lookup_lt_is_Some_2 (spec_token_ids r) i) as [l Hl]; [apply lookup_lt_Some in Hi; lia|]. rewrite Hl. f_equal. rewrite (R5 _ _ Hl). by rewrite Hi.
Qed.

(** [remove_request]: the id and the row are cleared. *)
Lemma clear_ok r rows i e : ids_ok r rows -> rows !! i = Some (Some e) ->
  exists r', Ids.clear (Z.of_nat i) (Ids.set_index (delete (en_id e) (req_id_to_index r)) r) = (Ok tt, r') /\ ids_ok r' (<[i := None]> rows).
Proof.
  intros Hr Hi. pose proof (ids_lengths r rows Hr) as (L1 & L2 & L3). pose proof (lookup_lt_Some _ _ _ Hi) as Hlt. pose proof Hr as [R1 R2 R3 R4 R5].
  unfold Ids.clear, Ids.put_id, Ids.put_output.
  eexists. split.
  { erewrite bind_ok by (apply store_ok; unfold zlen; cbn; lia). erewrite bind_ok by (apply store_ok; unfold zlen; cbn; lia).
    apply clear_spec_ok. unfold zlen. cbn. lia. }
  rewrite !Nat2Z.id. split; cbn.
  - by rewrite R1, list_fmap_insert.
  - by rewrite R2, list_fmap_insert.
  - intros id j. destruct (decide (id = en_id e)) as [->|Hne].
    + rewrite lookup_delete_eq. split; [done|]. intros (Hj & e' & He' & Hid). exfalso. rewrite list_lookup_insert in He'. case_decide as Hc; [done|].
      assert (i = Z.to_nat j) by (by eapply ids_distinct). naive_solver.
    + rewrite lookup_delete_ne by done. rewrite R3. split; intros (Hj & e' & He' & Hid); (split; [done|]); exists e'; (split; [|done]).
      * rewrite list_lookup_insert_ne; [done|]. intros ->. congruence.
      * rewrite list_lookup_insert in He'. by case_decide.
  - by rewrite !length_insert.
  - apply (spec_rows r rows); [done| |].
    + intros j Hj. by rewrite list_lookup_insert_ne.
    + by rewrite list_lookup_insert_eq.
Qed.

(** One step of [condense] on the rows. *)
Definition slide_row (last empty : nat) (rows : rows_of) : rows_of :=
  match rows !! last with Some (Some e) => <[empty := Some e]> (<[last := None]> rows) | _ => rows end.

Lemma lookup_slide_row last empty rows e j : last ≠ empty -> rows !! last = Some (Some e) -> rows !! empty = Some None ->
  slide_row last empty rows !! j = if decide (j = empty) then Some (Some e) else if decide (j = last) then Some None else rows !! j.
Proof.
  intros Hne Hl He. unfold slide_row. rewrite Hl. pose proof (lookup_lt_Some _ _ _ Hl). pose proof (lookup_lt_Some _ _ _ He).
  rewrite !list_lookup_insert, length_insert. repeat case_decide; try done; naive_solver.
Qed.

Lemma length_slide_row last empty rows : length (slide_row last empty rows) = length rows.
Proof. unfold slide_row. destruct (rows !! last) as [[e|]|]; by rewrite ?length_insert. Qed.

Lemma slide_ids_ok r rows last empty e : ids_ok r rows -> last ≠ empty -> rows !! last = Some (Some e) -> rows !! empty = Some None ->
  exists r1 r', Ids.slide (Z.of_nat last) (Z.of_nat empty) r = (Ok tt, r1) /\ spec_token_ids r1 = spec_token_ids r
    /\ Ids.slide_spec (Z.of_nat last) (Z.of_nat empty) r1 = (Ok tt, r') /\ ids_ok r' (slide_row last empty rows).
Proof.
  intros Hr Hne Hl He. pose proof (ids_lengths r rows Hr) as (L1 & L2 & L3). pose proof (lookup_lt_Some _ _ _ Hl). pose proof (lookup_lt_Some _ _ _ He).
  pose proof Hr as [R1 R2 R3 R4 R5]. destruct (lookup_ids r rows last e Hr Hl) as (I1 & I2 & I3).
  destruct (lookup_lt_is_Some_2 (spec_token_ids r) empty) as [l0 Hl0]; [lia|].
  eexists _, _. split; [|split; [|split]].
  - unfold Ids.slide, Ids.put_id, Ids.put_output. rewrite (bind_ok _ _ _ _ _ (load_ok req_ids (Z.of_nat last) (Some (en_id e)) r ltac:(lia) ltac:(by rewrite Nat2Z.id))).
    rewrite (bind_ok _ _ _ _ _ (load_ok req_output_token_ids (Z.of_nat last) (Some (en_ref e)) r ltac:(lia) ltac:(by rewrite Nat2Z.id))).
    erewrite bind_ok by (apply store_ok; unfold zlen; cbn; lia). erewrite bind_ok by (apply store_ok; unfold zlen; cbn; rewrite length_insert; lia).
    erewrite bind_ok by (apply store_ok; unfold zlen; cbn; lia). erewrite bind_ok by (apply store_ok; unfold zlen; cbn; rewrite length_insert; lia). reflexivity.
  - reflexivity.
  - unfold Ids.slide_spec, Ids.swap. erewrite bind_ok.
    2: { erewrite bind_ok by (apply (load_ok _ _ l0); [lia|by rewrite Nat2Z.id]). erewrite bind_ok by (apply (load_ok _ _ (en_spec e)); [lia|by rewrite Nat2Z.id]).
         erewrite bind_ok by (apply store_ok; unfold zlen; cbn; lia). apply store_ok. unfold zlen. cbn. rewrite length_insert. lia. }
    apply clear_spec_ok. unfold zlen. cbn. rewrite !length_insert. lia.
  - rewrite !Nat2Z.id. split; cbn.
    + rewrite R1. unfold slide_row. rewrite Hl, !list_fmap_insert. rewrite list_insert_insert_ne by done. done.
    + rewrite R2. unfold slide_row. rewrite Hl, !list_fmap_insert. rewrite list_insert_insert_ne by done. done.
    + intros id j. setoid_rewrite (lookup_slide_row last empty rows e (Z.to_nat j) Hne Hl He). destruct (decide (id = en_id e)) as [->|Hid].
      * rewrite lookup_insert_eq. split.
        -- intros [= <-]. split; [lia|]. exists e. by rewrite decide_True by lia.
        -- intros (Hj & e' & He' & Hid). case_decide as Hc; [f_equal; lia|]. case_decide; [done|]. exfalso.
           assert (last = Z.to_nat j) by (by eapply ids_distinct). lia.
      * rewrite lookup_insert_ne by done. rewrite R3. split; intros (Hj & e' & He' & Hid'); (split; [done|]); exists e'; (split; [|done]).
        -- rewrite !decide_False; [done| |]; intros Hc; rewrite Hc in He'; congruence.
        -- repeat case_decide; congruence.
    + by rewrite length_slide_row, !length_insert.
    + intros j l. rewrite (lookup_slide_row last empty rows e) by done. destruct (decide (j = last)) as [->|Hjl].
      * rewrite decide_False by done. rewrite list_lookup_insert_eq by (rewrite !length_insert; lia). by intros [= <-].
      * rewrite list_lookup_insert_ne by done. destruct (decide (j = empty)) as [->|Hje].
        -- rewrite list_lookup_insert_eq by (rewrite !length_insert; lia). by intros [= <-].
        -- rewrite !list_lookup_insert_ne by done. apply R5.
Qed.

(** [swap_states] on the rows. *)
Definition swap_rows (i1 i2 : nat) (rows : rows_of) : rows_of :=
  match rows !! i1, rows !! i2 with Some x, Some y => <[i1 := y]> (<[i2 := x]> rows) | _, _ => rows end.

Lemma lookup_swap_rows i1 i2 rows x y j : i1 ≠ i2 -> rows !! i1 = Some x -> rows !! i2 = Some y ->
  swap_rows i1 i2 rows !! j = if decide (j = i1) then Some y else if decide (j = i2) then Some x else rows !! j.
Proof.
  intros Hne H1 H2. unfold swap_rows. rewrite H1, H2. pose proof (lookup_lt_Some _ _ _ H1). pose proof (lookup_lt_Some _ _ _ H2).
  rewrite !list_lookup_insert, length_insert. repeat case_decide; try done; naive_solver.
Qed.

Lemma length_swap_rows i1 i2 rows : length (swap_rows i1 i2 rows) = length rows.
Proof. unfold swap_rows. destruct (rows !! i1), (rows !! i2); by rewrite ?length_insert. Qed.

(** Exchanging two elements of a list of a state. *)
Lemma swap_list_ok {T A} (get : T -> list A) put (i j : nat) x y s : (forall l s, get (put l s) = l) -> (forall l l' s, put l (put l' s) = put l s) ->
  get s !! i = Some x -> get s !! j = Some y ->
  Ids.swap get put (Z.of_nat i) (Z.of_nat j) s = (Ok tt, put (<[j := x]> (<[i := y]> (get s))) s).
Proof.
  intros Hgp Hpp Hx Hy. pose proof (lookup_lt_Some _ _ _ Hx). pose proof (lookup_lt_Some _ _ _ Hy). unfold Ids.swap.
  rewrite (bind_ok _ _ _ _ _ (load_ok get (Z.of_nat j) y s ltac:(lia) ltac:(by rewrite Nat2Z.id))).
  rewrite (bind_ok _ _ _ _ _ (load_ok get (Z.of_nat i) x s ltac:(lia) ltac:(by rewrite Nat2Z.id))).
  rewrite (bind_ok _ _ _ _ _ (store_ok get put (Z.of_nat i) y s ltac:(unfold zlen; lia))).
  rewrite store_ok by (rewrite Hgp; unfold zlen; rewrite length_insert; lia). by rewrite Hgp, Hpp, !Nat2Z.id.
Qed.

Lemma swap_ids_ok r rows i1 i2 e1 e2 : ids_ok r rows -> i1 ≠ i2 -> rows !! i1 = Some (Some e1) -> rows !! i2 = Some (Some e2) ->
  exists r', Ids.swap_ids (Z.of_nat i1) (Z.of_nat i2) r = (Ok tt, r') /\ ids_ok r' (swap_rows i1 i2 rows).
Proof.
  intros Hr Hne H1 H2. pose proof Hr as [R1 R2 R3 R4 R5].
  destruct (lookup_ids r rows i1 e1 Hr H1) as (A1 & A2 & A3), (lookup_ids r rows i2 e2 Hr H2) as (B1 & B2 & B3).
  assert (req_id_to_index r !! en_id e1 = Some (Z.of_nat i1)) as X1 by (apply R3; split; [lia|]; exists e1; by rewrite Nat2Z.id).
  assert (req_id_to_index r !! en_id e2 = Some (Z.of_nat i2)) as X2 by (apply R3; split; [lia|]; exists e2; by rewrite Nat2Z.id).
  assert (en_id e1 ≠ en_id e2) as Hid by (intros E; destruct Hne; by eapply ids_distinct).
  eexists. split.
  { unfold Ids.swap_ids. rewrite (bind_ok _ _ _ _ _ (load_ok req_ids (Z.of_nat i1) (Some (en_id e1)) r ltac:(lia) ltac:(by rewrite Nat2Z.id))).
    rewrite (bind_ok _ _ _ _ _ (load_ok req_ids (Z.of_nat i2) (Some (en_id e2)) r ltac:(lia) ltac:(by rewrite Nat2Z.id))).
    erewrite bind_ok by (by apply (swap_list_ok _ _ _ _ (Some (en_id e1)) (Some (en_id e2)))). erewrite bind_ok by (by apply (swap_list_ok _ _ _ _ (Some (en_ref e1)) (Some (en_ref e2)))).
    erewrite bind_ok by (by apply (swap_list_ok _ _ _ _ (en_spec e1) (en_spec e2))). erewrite bind_ok by reflexivity. cbn [Ids.set_spec Ids.set_outputs Ids.set_ids req_id_to_index]. rewrite X1, X2.
    erewrite bind_ok by reflexivity. erewrite bind_ok by reflexivity. erewrite bind_ok by reflexivity. reflexivity. }
  pose proof (lookup_lt_Some _ _ _ H1). pose proof (lookup_lt_Some _ _ _ H2). split; cbn.
  - rewrite R1. unfold swap_rows. rewrite H1, H2, !list_fmap_insert. by rewrite list_insert_insert_ne.
  - rewrite R2. unfold swap_rows. rewrite H1, H2, !list_fmap_insert. by rewrite list_insert_insert_ne.
  - intros id j. setoid_rewrite (lookup_swap_rows i1 i2 rows _ _ (Z.to_nat j) Hne H1 H2). destruct (decide (id = en_id e2)) as [->|Hid2]; [|destruct (decide (id = en_id e1)) as [->|Hid1]].
    + rewrite lookup_insert_eq. split; [intros [= <-]; split; [lia|]; exists e2; by rewrite decide_True by lia|]. intros (Hj & e & He & Hide). f_equal.
      case_decide; [lia|]. case_decide; [congruence|]. exfalso. assert (i2 = Z.to_nat j) by (by eapply ids_distinct). lia.
    + rewrite lookup_insert_ne, lookup_insert_eq by done. split; [intros [= <-]; split; [lia|]; exists e1; by rewrite decide_False, decide_True by lia|]. intros (Hj & e & He & Hide). f_equal.
      case_decide; [congruence|]. case_decide; [lia|]. exfalso. assert (i1 = Z.to_nat j) by (by eapply ids_distinct). lia.
    + rewrite !lookup_insert_ne by done. rewrite R3. split; intros (Hj & e & He & Hide); (split; [done|]); exists e; (split; [|done]).
      * rewrite !decide_False; [done| |]; intros Hc; rewrite Hc in He; congruence.
      * repeat case_decide; congruence.
  - by rewrite length_swap_rows, !length_insert.
  - intros j l. rewrite (lookup_swap_rows i1 i2 rows _ _ j Hne H1 H2). destruct (decide (j = i1)) as [->|Hj1].
    + rewrite list_lookup_insert_ne, list_lookup_insert_eq by (rewrite ?length_insert; done || lia). by intros [= <-].
    + destruct (decide (j = i2)) as [->|Hj2].
      * rewrite list_lookup_insert_eq by (rewrite !length_insert; lia). by intros [= <-].
      * rewrite !list_lookup_insert_ne by done. apply R5.
Qed.

(** The end of [condense]: only holes are cut off. *)
Lemma trim_ok r rows n : ids_ok r rows -> (forall j, (n <= j < length rows)%nat -> rows !! j = Some None) -> ids_ok (Ids.trim (Z.of_nat n) r) (take n rows).
Proof.
  intros [R1 R2 R3 R4 R5] Hholes. split; cbn; rewrite ?py_upto_nonneg by lia; rewrite ?Nat2Z.id.
  - by rewrite R1, fmap_take.
  - by rewrite R2, fmap_take.
  - intros id j. rewrite R3. split; intros (Hj & e & He & Hid); (split; [done|]); exists e; (split; [|done]).
    + destruct (decide (Z.to_nat j < n)%nat) as [Hlt|Hge]; [by rewrite lookup_take_lt|]. pose proof (lookup_lt_Some _ _ _ He). rewrite Hholes in He by lia. done.
    + by eapply lookup_take_Some.
  - rewrite !length_take. lia.
  - intros j l Hj. apply lookup_take_Some in Hj as [Hj Hlt]. rewrite lookup_take_lt by done. by apply R5.
Qed.

(** New spec tokens of a request. *)
Lemma put_spec_ok r rows i e l : ids_ok r rows -> rows !! i = Some (Some e) ->
  let e' := {| e with en_spec := l |} in
  exists r', Ids.put_spec (Z.of_nat i) l r = (Ok tt, r') /\ ids_ok r' (<[i := Some e']> rows).
Proof.
  intros Hr Hi e'. pose proof (ids_lengths r rows Hr) as (L1 & L2 & L3). pose proof (lookup_lt_Some _ _ _ Hi) as Hlt. pose proof Hr as [R1 R2 R3 R4 R5].
  eexists. split; [apply store_ok; unfold zlen; lia|]. rewrite Nat2Z.id. split; cbn.
  - rewrite list_fmap_insert, list_insert_id; [done|]. by rewrite list_lookup_fmap, Hi.
  - rewrite list_fmap_insert, list_insert_id; [done|]. by rewrite list_lookup_fmap, Hi.
  - intros id j. rewrite R3. setoid_rewrite list_lookup_insert. split; intros (Hj & e0 & He & Hid); (split; [done|]).
    + destruct (decide (i = Z.to_nat j)) as [Hc|Hc]; [exists e'; rewrite decide_True by lia; split; [done|]; rewrite <- Hc in He; by simplify_eq|].
      exists e0. by rewrite decide_False by tauto.
    + case_decide as Hc; [|by exists e0]. exists e. destruct Hc as [<- _]. by simplify_eq.
  - by rewrite !length_insert.
  - apply (spec_rows r rows); [done| |].
    + intros j Hj. by rewrite list_lookup_insert_ne.
    + by rewrite list_lookup_insert_eq.
Qed.

End BatchRows.
