(* ===== verification/BatchTokens.v ===== *)
(** The token rows of the persistent batch follow its rows. *)

From Stdlib Require Import QArith.
From stdpp Require Import gmap.
From S2P Require Import Prelude Request BlockTable BatchUpdate InputBatch BatchRows.
Import BatchRows.
Local Open Scope Z_scope.

Module BatchTokens.

(** ** Slices *)

Section splice.
Context {A : Type}.
Implicit Types row vs : list A.

(** [row\[a:a + len(vs)\] = vs] *)
Definition splice (a : nat) vs row : list A := take a row ++ vs ++ drop (a + length vs) row.

Lemma length_splice a vs row : (a + length vs <= length row)%nat -> length (splice a vs row) = length row.
Proof. intros H. unfold splice. rewrite !length_app, length_take, length_drop. lia. Qed.

Lemma lookup_splice a vs row j : (a + length vs <= length row)%nat ->
  splice a vs row !! j = if decide (a <= j < a + length vs)%nat then vs !! (j - a)%nat else row !! j.
Proof.
  intros H. unfold splice. case_decide as Hj.
  - rewrite lookup_app_r by (rewrite length_take; lia). rewrite length_take, Nat.min_l by lia. by rewrite lookup_app_l by lia.
  - destruct (decide (j < a)%nat); [rewrite lookup_app_l by (rewrite length_take; lia); by rewrite lookup_take_lt|].
    rewrite lookup_app_r by (rewrite length_take; lia). rewrite length_take, Nat.min_l by lia. rewrite lookup_app_r by lia.
    rewrite lookup_drop. f_equal. lia.
Qed.

Lemma np_assign_splice row (a e : Z) vs : 0 <= a -> e = a + zlen vs -> e <= zlen row -> np_assign row a e vs = Ok (splice (Z.to_nat a) vs row).
Proof. intros Ha -> He. by apply np_assign_ok. Qed.

Lemma np_assign_fill row (a e : Z) x : 0 <= a <= e -> e <= zlen row -> np_assign row a e [x] = Ok (splice (Z.to_nat a) (replicate (Z.to_nat (e - a)) x) row).
Proof.
  intros Ha He. unfold np_assign, splice. rewrite !py_clamp_id by lia. rewrite length_replicate. replace (Nat.max (Z.to_nat a) (Z.to_nat e)) with (Z.to_nat e) by lia.
  replace (Z.to_nat a + Z.to_nat (e - a))%nat with (Z.to_nat e) by lia. replace (Z.to_nat e - Z.to_nat a)%nat with (Z.to_nat (e - a)) by lia. cbn [length].
  destruct (Nat.eqb_spec 1 (Z.to_nat (e - a))) as [E|E]; [by rewrite <- E|done].
Qed.
End splice.

(** ** What a row says *)

Definition prompt_len (e : entry) : Z := rs_num_prompt_tokens (en_request e).

(** The tokens of the row; those of a prompt given by embeddings are open. *)
Definition prompt_of (e : entry) : list (option Z) :=
  match rs_prompt_token_ids (en_request e) with Some l => Some <$> l | None => replicate (Z.to_nat (prompt_len e)) None end.
Definition active (e : entry) : list (option Z) := prompt_of e ++ (Some <$> (en_output e ++ en_spec e)).
Definition flags_of (e : entry) : list bool :=
  replicate (Z.to_nat (prompt_len e)) (bool_decide (is_Some (rs_prompt_token_ids (en_request e)))) ++ replicate (length (en_output e)) true.

Definition agrees (spec : list (option Z)) (row : list Z) : Prop := forall j x, spec !! j = Some (Some x) -> row !! j = Some x.
Definition begins (spec row : list bool) : Prop := forall j x, spec !! j = Some x -> row !! j = Some x.

Section tokens.
Context (N W : nat).

(** The arrays have [N] rows of [W] places. *)
Record shape (t : TokenRows) : Prop := {
  sh_tokens : length (token_ids_cpu t) = N;
  sh_tokens_width : forall i row, token_ids_cpu t !! i = Some row -> length row = W;
  sh_flags : length (is_token_ids t) = N;
  sh_flags_width : forall i row, is_token_ids t !! i = Some row -> length row = W;
  sh_counts : forall c, length (counts t c) = N;
}.

Record token_row (t : TokenRows) (i : nat) (e : entry) : Prop := {
  tr_prompt : length (prompt_of e) = Z.to_nat (prompt_len e) /\ 0 <= prompt_len e;
  tr_fits : (length (active e) <= W)%nat;
  tr_no_spec : counts t num_tokens_no_spec !! i = Some (prompt_len e + zlen (en_output e));
  tr_num_prompt : counts t num_prompt_tokens !! i = Some (prompt_len e);
  tr_computed : counts t num_computed_tokens_cpu !! i = Some (en_computed e);
  tr_tokens : exists row, token_ids_cpu t !! i = Some row /\ agrees (active e) row;
  tr_flags : exists row, is_token_ids t !! i = Some row /\ begins (flags_of e) row;
  tr_embeds : forall x, rs_prompt_embeds (en_request e) = Some x -> req_prompt_embeds t !! Z.of_nat i = Some x;
}.

(** Row [i] is as it was. *)
Definition same_row (t t' : TokenRows) (i : nat) : Prop :=
  (forall c, counts t' c !! i = counts t c !! i) /\ token_ids_cpu t' !! i = token_ids_cpu t !! i /\ is_token_ids t' !! i = is_token_ids t !! i
  /\ req_prompt_embeds t' !! Z.of_nat i = req_prompt_embeds t !! Z.of_nat i.

Lemma token_row_same t t' i e : same_row t t' i -> token_row t i e -> token_row t' i e.
Proof. intros (S1 & S2 & S3 & S4) [? ? ? ? ? ? ? ?]. split; rewrite ?S1, ?S2, ?S3, ?S4; done. Qed.

Lemma put_tokens_ok t (i : nat) (a e : Z) vs : shape t -> (i < N)%nat -> 0 <= a -> e = a + zlen vs -> e <= Z.of_nat W ->
  exists row, token_ids_cpu t !! i = Some row /\ length row = W
    /\ Toks.put_tokens (Z.of_nat i) a e vs t = (Ok tt, Toks.set_tokens (<[i := splice (Z.to_nat a) vs row]> (token_ids_cpu t)) t).
Proof.
  intros [S1 S2 S3 S4 S5] Hi Ha He HW. destruct (lookup_lt_is_Some_2 (token_ids_cpu t) i) as [row Hrow]; [lia|]. exists row. split; [done|]. split; [by eapply S2|].
  unfold Toks.put_tokens, Toks.put_slice. rewrite (bind_ok _ _ _ _ _ (load_ok token_ids_cpu (Z.of_nat i) row t ltac:(lia) ltac:(by rewrite Nat2Z.id))).
  unfold lift_res. rewrite (np_assign_splice row a e vs) by (try done; unfold zlen; rewrite (S2 _ _ Hrow); lia). erewrite bind_ok by reflexivity.
  rewrite store_ok by (unfold zlen; lia). by rewrite Nat2Z.id.
Qed.

Lemma fill_flags_ok t (i : nat) (a e : Z) b : shape t -> (i < N)%nat -> 0 <= a <= e -> e <= Z.of_nat W ->
  exists row, is_token_ids t !! i = Some row /\ length row = W
    /\ Toks.put_flags (Z.of_nat i) a e [b] t = (Ok tt, Toks.set_flags (<[i := splice (Z.to_nat a) (replicate (Z.to_nat (e - a)) b) row]> (is_token_ids t)) t).
Proof.
  intros [S1 S2 S3 S4 S5] Hi Ha HW. destruct (lookup_lt_is_Some_2 (is_token_ids t) i) as [row Hrow]; [lia|]. exists row. split; [done|]. split; [by eapply S4|].
  unfold Toks.put_flags, Toks.put_slice. rewrite (bind_ok _ _ _ _ _ (load_ok is_token_ids (Z.of_nat i) row t ltac:(lia) ltac:(by rewrite Nat2Z.id))).
  unfold lift_res. rewrite (np_assign_fill row a e b) by (try done; unfold zlen; rewrite (S4 _ _ Hrow); lia). erewrite bind_ok by reflexivity.
  rewrite store_ok by (unfold zlen; lia). by rewrite Nat2Z.id.
Qed.

Lemma shape_set_tokens t i row : shape t -> length row = W -> shape (Toks.set_tokens (<[i := row]> (token_ids_cpu t)) t).
Proof.
  intros [S1 S2 S3 S4 S5] Hr. split; cbn; [by rewrite length_insert| |done|done|done]. intros j r. rewrite list_lookup_insert. case_decide as Hj; [by intros [= <-]|apply S2].
Qed.

Lemma shape_set_flags t i row : shape t -> length row = W -> shape (Toks.set_flags (<[i := row]> (is_token_ids t)) t).
Proof.
  intros [S1 S2 S3 S4 S5] Hr. split; cbn; [done|done|by rewrite length_insert| |done]. intros j r. rewrite list_lookup_insert. case_decide as Hj; [by intros [= <-]|apply S4].
Qed.

Lemma shape_set_count t c i x : shape t -> shape (Toks.set_count c (<[i := x]> (counts t c)) t).
Proof. intros [S1 S2 S3 S4 S5]. split; cbn; try done. intros c'. case_decide; [subst; by rewrite length_insert|done]. Qed.

Lemma shape_set_embeds t m : shape t -> shape (Toks.set_embeds m t).
Proof. intros [S1 S2 S3 S4 S5]. by split. Qed.

Lemma count_eq t c l : counts (Toks.set_count c l t) c = l.
Proof. cbn. by rewrite decide_True. Qed.
Lemma count_ne t c c' l : c' ≠ c -> counts (Toks.set_count c l t) c' = counts t c'.
Proof. intros H. cbn. by rewrite decide_False. Qed.

Lemma put_count_ok t c (i : nat) x : shape t -> (i < N)%nat -> Table.is_int32 x = true ->
  Toks.put_count c (Z.of_nat i) x t = (Ok tt, Toks.set_count c (<[i := x]> (counts t c)) t).
Proof.
  intros Hs Hi Hx. unfold Toks.put_count. rewrite Hx. rewrite (store_ok (fun t => counts t c)); [by rewrite Nat2Z.id|]. unfold zlen. rewrite (sh_counts _ Hs). lia.
Qed.

Lemma same_row_refl t i : same_row t t i.
Proof. by split_and!. Qed.

Lemma same_row_trans t1 t2 t3 i : same_row t1 t2 i -> same_row t2 t3 i -> same_row t1 t3 i.
Proof. intros (A1 & A2 & A3 & A4) (B1 & B2 & B3 & B4). split_and!; [intros c|..]; congruence. Qed.

Lemma other_tokens t i row j : j ≠ i -> same_row t (Toks.set_tokens (<[i := row]> (token_ids_cpu t)) t) j.
Proof. intros Hj. split_and!; try done. cbn. by rewrite list_lookup_insert_ne. Qed.
Lemma other_flags t i row j : j ≠ i -> same_row t (Toks.set_flags (<[i := row]> (is_token_ids t)) t) j.
Proof. intros Hj. split_and!; try done. cbn. by rewrite list_lookup_insert_ne. Qed.
Lemma other_count t c i x j : j ≠ i -> same_row t (Toks.set_count c (<[i := x]> (counts t c)) t) j.
Proof. intros Hj. split_and!; try done. cbn. intros c'. case_decide; [subst; by rewrite list_lookup_insert_ne|done]. Qed.

Lemma as_int32_list ids : forallb Table.is_int32 ids = true -> Table.as_int32 false ids = Ok ids.
Proof. intros H. unfold Table.as_int32. by rewrite H. Qed.

(** Tokens of the row that are written keep what is in front of them. *)
Lemma agrees_splice spec new row : agrees spec row -> (length spec + length new <= length row)%nat ->
  agrees (spec ++ (Some <$> new)) (splice (length spec) new row).
Proof.
  intros Ha Hl j x Hj. rewrite lookup_splice by done. destruct (decide (j < length spec)%nat) as [Hlt|Hge].
  - rewrite decide_False by lia. rewrite lookup_app_l in Hj by done. by apply Ha.
  - rewrite lookup_app_r in Hj by lia. rewrite list_lookup_fmap in Hj. destruct (new !! (j - length spec)%nat) as [y|] eqn:Ey; [|done]. injection Hj as <-.
    pose proof (lookup_lt_Some _ _ _ Ey). by rewrite decide_True by lia.
Qed.

Lemma begins_splice spec new row : begins spec row -> (length spec + length new <= length row)%nat -> begins (spec ++ new) (splice (length spec) new row).
Proof.
  intros Ha Hl j x Hj. rewrite lookup_splice by done. destruct (decide (j < length spec)%nat) as [Hlt|Hge].
  - rewrite decide_False by lia. rewrite lookup_app_l in Hj by done. by apply Ha.
  - rewrite lookup_app_r in Hj by lia. pose proof (lookup_lt_Some _ _ _ Hj). by rewrite decide_True by lia.
Qed.

Lemma agrees_nil row : agrees [] row.
Proof. intros j x. by rewrite lookup_nil. Qed.
Lemma begins_nil row : begins [] row.
Proof. intros j x. by rewrite lookup_nil. Qed.
Lemma agrees_open n row : agrees (replicate n None) row.
Proof. intros j x H. by apply lookup_replicate_1 in H as [? _]. Qed.

(** A request that fits into a row. *)
Record tokens_fit (e : entry) : Prop := {
  tf_prompt : length_from_prompt_token_ids_or_embeds (rs_prompt_token_ids (en_request e)) (rs_prompt_embeds (en_request e)) = Ok (prompt_len e);
  tf_room : (length (active e) <= W)%nat;
  tf_int32 : forall l, rs_prompt_token_ids (en_request e) = Some l -> forallb Table.is_int32 l = true;
  tf_output : forallb Table.is_int32 (en_output e) = true;
  tf_counts : Table.is_int32 (prompt_len e + zlen (en_output e)) = true /\ Table.is_int32 (en_computed e) = true;
}.

Lemma prompt_length_ok e : tokens_fit e -> length (prompt_of e) = Z.to_nat (prompt_len e) /\ 0 <= prompt_len e.
Proof.
  intros [H _ _ _ _]. unfold prompt_of. revert H. unfold length_from_prompt_token_ids_or_embeds.
  destruct (rs_prompt_token_ids (en_request e)) as [l|], (rs_prompt_embeds (en_request e)) as [x|]; try done.
  - destruct (_ =? _); [|done]. intros [= <-]. rewrite length_fmap. unfold zlen. split; lia.
  - intros [= <-]. rewrite length_fmap. unfold zlen. split; lia.
  - intros [= <-]. rewrite length_replicate. unfold zlen. split; lia.
Qed.

(** The prompt is copied. *)
Lemma copy_prompt_ok t i e : shape t -> (i < N)%nat -> tokens_fit e ->
  exists t', (match rs_prompt_token_ids (en_request e) with
    | Some ids => ids ← lift_res (Table.as_int32 false ids); Toks.put_tokens (Z.of_nat i) 0 (prompt_len e) ids ;; Toks.put_flags (Z.of_nat i) 0 (prompt_len e) [true]
    | None => Toks.put_flags (Z.of_nat i) 0 (prompt_len e) [false] end) t = (Ok tt, t')
  /\ shape t' /\ (forall j, j ≠ i -> same_row t t' j) /\ (forall c, counts t' c = counts t c) /\ req_prompt_embeds t' = req_prompt_embeds t
  /\ (exists row, token_ids_cpu t' !! i = Some row /\ agrees (prompt_of e) row)
  /\ (exists row, is_token_ids t' !! i = Some row /\ begins (replicate (Z.to_nat (prompt_len e)) (bool_decide (is_Some (rs_prompt_token_ids (en_request e))))) row).
Proof.
  intros Hs Hi Hfit. destruct (prompt_length_ok e Hfit) as [Hlen Hn]. destruct Hfit as [F1 F2 F3 F4 F5].
  assert (Z.to_nat (prompt_len e) <= W)%nat as HW by (unfold active in F2; rewrite length_app in F2; lia).
  unfold prompt_of in *. destruct (rs_prompt_token_ids (en_request e)) as [l|] eqn:El.
  - rewrite length_fmap in Hlen. destruct (put_tokens_ok t i 0 (prompt_len e) l Hs Hi) as (row & Hrow & Hw & E1); [lia|unfold zlen; lia|lia|].
    assert (shape (Toks.set_tokens (<[i := splice 0 l row]> (token_ids_cpu t)) t)) as Hs1 by (apply shape_set_tokens; [done|rewrite length_splice; lia]).
    destruct (fill_flags_ok _ i 0 (prompt_len e) true Hs1 Hi) as (fl & Hfl & Hwf & E2); [lia|lia|].
    eexists. split.
    { unfold lift_res. rewrite as_int32_list by (by apply F3). erewrite bind_ok by reflexivity. erewrite bind_ok by exact E1. exact E2. }
    rewrite Z.sub_0_r. split; [apply shape_set_flags; [done|rewrite length_splice; rewrite ?length_replicate; lia]|].
    split; [intros j Hj; eapply same_row_trans; [by apply (other_tokens t i)|by apply other_flags]|]. split; [done|]. split; [done|]. split; eexists.
    + split; [cbn; apply list_lookup_insert_eq; rewrite (sh_tokens _ Hs); lia|]. change (Some <$> l) with ([] ++ (Some <$> l)).
      apply agrees_splice; [apply agrees_nil|cbn; lia].
    + split; [cbn; apply list_lookup_insert_eq; rewrite (sh_flags _ Hs); lia|]. rewrite bool_decide_eq_true_2 by done.
      apply (begins_splice []); [apply begins_nil|rewrite length_replicate; cbn; lia].
  - destruct (fill_flags_ok _ i 0 (prompt_len e) false Hs Hi) as (fl & Hfl & Hwf & E2); [lia|lia|].
    destruct (lookup_lt_is_Some_2 (token_ids_cpu t) i) as [row Hrow]; [rewrite (sh_tokens _ Hs); lia|].
    eexists. split; [exact E2|]. rewrite Z.sub_0_r. split; [apply shape_set_flags; [done|rewrite length_splice; rewrite ?length_replicate; lia]|].
    split; [intros j Hj; by apply other_flags|]. split; [done|]. split; [done|]. split; eexists.
    + split; [exact Hrow|]. apply agrees_open.
    + split; [cbn; apply list_lookup_insert_eq; rewrite (sh_flags _ Hs); lia|]. rewrite bool_decide_eq_false_2 by (by intros [? ?]).
      apply (begins_splice []); [apply begins_nil|rewrite length_replicate; cbn; lia].
Qed.

(** A new request. *)
Lemma copy_ok t i e : shape t -> (i < N)%nat -> tokens_fit e -> en_spec e = [] ->
  exists t1 t2, Toks.copy (rs_prompt_token_ids (en_request e)) (rs_prompt_embeds (en_request e)) (en_output e) (prompt_len e + zlen (en_output e)) (Z.of_nat i) t = (Ok tt, t1)
    /\ Toks.put_count num_computed_tokens_cpu (Z.of_nat i) (en_computed e) t1 = (Ok tt, t2)
    /\ shape t2 /\ token_row t2 i e /\ forall j, j ≠ i -> same_row t t2 j.
Proof.
  intros Hs Hi Hfit Hspec. destruct (prompt_length_ok e Hfit) as [Hlen Hn]. pose proof Hfit as [F1 F2 F3 F4 [F5 F6]].
  assert (Table.is_int32 (prompt_len e) = true) as F7.
  { revert F5. unfold Table.is_int32. pose proof (zlen_nonneg (en_output e)). rewrite !andb_true_iff, !Z.leb_le, !Z.ltb_lt. lia. }
  assert (length (prompt_of e) + length (en_output e) <= W)%nat as HW by (revert F2; unfold active; rewrite Hspec, app_nil_r, length_app, length_fmap; lia).
  set (t1 := Toks.set_count num_prompt_tokens (<[i := prompt_len e]> (counts t num_prompt_tokens)) t).
  assert (shape t1) as Hs1 by (by apply shape_set_count).
  destruct (copy_prompt_ok t1 i e Hs1 Hi Hfit) as (t3 & E3 & Hs3 & O3 & C3 & M3 & (row & Hrow & Ha) & (fl & Hfl & Hb)).
  set (t4 := match rs_prompt_embeds (en_request e) with Some x => Toks.set_embeds (<[Z.of_nat i := x]> (req_prompt_embeds t3)) t3 | None => t3 end).
  assert (shape t4 /\ (forall j, j ≠ i -> same_row t3 t4 j) /\ counts t4 = counts t3 /\ token_ids_cpu t4 = token_ids_cpu t3 /\ is_token_ids t4 = is_token_ids t3
    /\ forall x, rs_prompt_embeds (en_request e) = Some x -> req_prompt_embeds t4 !! Z.of_nat i = Some x) as (Hs4 & O4 & C4 & T4 & G4 & M4).
  { unfold t4. destruct (rs_prompt_embeds (en_request e)) as [x|]; [|split_and!; try done; intros; apply same_row_refl].
    split_and!; try done; [by apply shape_set_embeds| |intros x' [= <-]; cbn; by rewrite lookup_insert_eq].
    intros j Hj. split_and!; try done. cbn. by rewrite lookup_insert_ne by lia. }
  destruct (put_tokens_ok t4 i (prompt_len e) (prompt_len e + zlen (en_output e)) (en_output e) Hs4 Hi) as (row4 & Hrow4 & W4 & E5); [done|done|unfold zlen; lia|].
  rewrite T4, Hrow in Hrow4. injection Hrow4 as <-.
  set (t5 := Toks.set_tokens _ t4) in E5. assert (shape t5) as Hs5 by (apply shape_set_tokens; [done|rewrite length_splice; lia]).
  destruct (fill_flags_ok t5 i (prompt_len e) (prompt_len e + zlen (en_output e)) true Hs5 Hi) as (fl5 & Hfl5 & W5 & E6); [unfold zlen; lia|unfold zlen; lia|].
  change (is_token_ids t5) with (is_token_ids t4) in Hfl5. rewrite G4, Hfl in Hfl5. injection Hfl5 as <-.
  replace (prompt_len e + zlen (en_output e) - prompt_len e) with (zlen (en_output e)) in E6 by lia.
  set (t6 := Toks.set_flags _ t5) in E6. assert (shape t6) as Hs6 by (apply shape_set_flags; [done|rewrite length_splice; [done|rewrite length_replicate; unfold zlen; lia]]).
  set (t7 := Toks.set_count num_tokens_no_spec (<[i := prompt_len e + zlen (en_output e)]> (counts t6 num_tokens_no_spec)) t6).
  assert (shape t7) as Hs7 by (by apply shape_set_count).
  exists t7, (Toks.set_count num_computed_tokens_cpu (<[i := en_computed e]> (counts t7 num_computed_tokens_cpu)) t7).
  assert (i < length (counts t num_tokens_no_spec))%nat as L1 by (by rewrite (sh_counts _ Hs)). assert (i < length (counts t num_prompt_tokens))%nat as L2 by (by rewrite (sh_counts _ Hs)).
  assert (i < length (counts t num_computed_tokens_cpu))%nat as L3 by (by rewrite (sh_counts _ Hs)).
  assert (forall c, counts t6 c = counts t1 c) as C6 by (intros c; change (counts t6 c) with (counts t4 c); by rewrite C4, C3).
  split; [|split; [by apply put_count_ok|split; [by apply shape_set_count|split]]].
  - unfold Toks.copy. rewrite F1. erewrite bind_ok by reflexivity. erewrite bind_ok by (by apply put_count_ok). erewrite bind_ok by exact E3.
    erewrite (bind_ok _ _ _ tt t4) by (unfold t4; by destruct (rs_prompt_embeds (en_request e))).
    unfold lift_res. rewrite as_int32_list by done. erewrite bind_ok by reflexivity. erewrite bind_ok by exact E5. erewrite bind_ok by exact E6. by apply put_count_ok.
  - split.
    + done.
    + done.
    + unfold t7. rewrite count_ne, count_eq by done. apply list_lookup_insert_eq. rewrite C6. unfold t1. by rewrite count_ne.
    + unfold t7. rewrite !count_ne by done. rewrite C6. unfold t1. rewrite count_eq. by apply list_lookup_insert_eq.
    + rewrite count_eq. apply list_lookup_insert_eq. unfold t7. rewrite count_ne by done. rewrite C6. unfold t1. by rewrite count_ne.
    + eexists. split; [cbn; apply list_lookup_insert_eq; rewrite (sh_tokens _ Hs4); lia|]. unfold active. rewrite Hspec, app_nil_r, <- Hlen. apply agrees_splice; [done|lia].
    + eexists. split; [cbn; apply list_lookup_insert_eq; rewrite (sh_flags _ Hs4); lia|]. unfold flags_of.
      replace (Z.to_nat (zlen (en_output e))) with (length (en_output e)) by (unfold zlen; lia).
      rewrite <- (length_replicate (Z.to_nat (prompt_len e)) (bool_decide (is_Some (rs_prompt_token_ids (en_request e))))) at 2.
      apply begins_splice; [done|]. rewrite !length_replicate. lia.
    + exact M4.
  - intros j Hj. eapply same_row_trans; [by apply (other_count t num_prompt_tokens i (prompt_len e))|]. fold t1.
    eapply same_row_trans; [by apply O3|]. eapply same_row_trans; [by apply O4|]. eapply same_row_trans; [by apply (other_tokens t4 i)|].
    eapply same_row_trans; [by apply (other_flags t5 i)|]. eapply same_row_trans; [by apply (other_count t6 num_tokens_no_spec i)|]. by apply other_count.
Qed.

(** *** Moving rows *)

Lemma put_slice_ok {A} (get : TokenRows -> list (list A)) put t (i : nat) (a e : Z) vs row : get t !! i = Some row -> 0 <= a -> e = a + zlen vs -> e <= zlen row ->
  Toks.put_slice get put (Z.of_nat i) a e vs t = (Ok tt, put (<[i := splice (Z.to_nat a) vs row]> (get t)) t).
Proof.
  intros Hrow Ha He HW. unfold Toks.put_slice. rewrite (bind_ok _ _ _ _ _ (load_ok get (Z.of_nat i) row t ltac:(lia) ltac:(by rewrite Nat2Z.id))).
  unfold lift_res. rewrite (np_assign_splice row a e vs) by done. erewrite bind_ok by reflexivity.
  apply lookup_lt_Some in Hrow. rewrite store_ok by (unfold zlen; lia). by rewrite Nat2Z.id.
Qed.

Lemma agrees_prefix spec n (row row' : list Z) : agrees spec row -> (length spec <= n <= length row)%nat -> (n <= length row')%nat -> agrees spec (splice 0 (take n row) row').
Proof.
  intros Ha Hn Hn' j x Hj. pose proof (lookup_lt_Some _ _ _ Hj). rewrite lookup_splice by (rewrite length_take; lia).
  rewrite decide_True by (rewrite length_take; lia). rewrite Nat.sub_0_r, lookup_take_lt by lia. by apply Ha.
Qed.

Lemma begins_prefix spec n (row row' : list bool) : begins spec row -> (length spec <= n <= length row)%nat -> (n <= length row')%nat -> begins spec (splice 0 (take n row) row').
Proof.
  intros Ha Hn Hn' j x Hj. pose proof (lookup_lt_Some _ _ _ Hj). rewrite lookup_splice by (rewrite length_take; lia).
  rewrite decide_True by (rewrite length_take; lia). rewrite Nat.sub_0_r, lookup_take_lt by lia. by apply Ha.
Qed.

(** The number of active tokens. *)
Definition active_count (e : entry) : Z := zlen (active e).

Lemma active_length e : length (prompt_of e) = Z.to_nat (prompt_len e) -> 0 <= prompt_len e ->
  active_count e = prompt_len e + zlen (en_output e) + zlen (en_spec e) /\ length (flags_of e) = Z.to_nat (prompt_len e + zlen (en_output e)).
Proof.
  intros Hl Hn. unfold active_count, active, flags_of, zlen. rewrite !length_app, length_fmap, length_app, !length_replicate, Hl. split; lia.
Qed.

(** Only the columns of counts change. *)
Definition counts_only (t t' : TokenRows) : Prop :=
  token_ids_cpu t' = token_ids_cpu t /\ is_token_ids t' = is_token_ids t /\ req_prompt_embeds t' = req_prompt_embeds t.

(** A loop over the three columns. *)
Lemma each_count_ok (body : count_column -> M TokenRows unit) (f : count_column -> list Z) t :
  (forall c t1, counts_only t t1 -> counts t1 c = counts t c ->
    exists t2, body c t1 = (Ok tt, t2) /\ counts_only t1 t2 /\ counts t2 c = f c /\ forall c', c' ≠ c -> counts t2 c' = counts t1 c') ->
  exists t', mfor [num_tokens_no_spec; num_prompt_tokens; num_computed_tokens_cpu] body t = (Ok tt, t') /\ counts_only t t' /\ forall c, counts t' c = f c.
Proof.
  intros Hbody. destruct (Hbody num_tokens_no_spec t) as (t1 & E1 & (A1 & A2 & A3) & A4 & A5); [by split_and!|done|].
  destruct (Hbody num_prompt_tokens t1) as (t2 & E2 & (B1 & B2 & B3) & B4 & B5); [by split_and!|by apply A5|].
  destruct (Hbody num_computed_tokens_cpu t2) as (t3 & E3 & (C1 & C2 & C3) & C4 & C5); [split_and!; congruence|by rewrite B5, A5 by done|].
  exists t3. split; [|split; [split_and!; congruence|]].
  - cbn [mfor]. rewrite (bind_ok _ _ _ _ _ E1), (bind_ok _ _ _ _ _ E2). by rewrite (bind_ok _ _ _ _ _ E3).
  - intros []; [by rewrite C5, B5, A4 by done|by rewrite C5, B4 by done|done].
Qed.

Lemma slide_tokens_ok t last empty e : shape t -> (last < N)%nat -> (empty < N)%nat -> last ≠ empty -> token_row t last e ->
  exists t', Toks.slide (Z.of_nat last) (Z.of_nat empty) (active_count e) t = (Ok tt, t') /\ shape t' /\ token_row t' empty e
    /\ forall j, j ≠ last -> j ≠ empty -> same_row t t' j.
Proof.
  intros Hs Hlast Hempty Hne Hrow. pose proof Hs as [S1 S2 S3 S4 S5]. destruct Hrow as [[T1 T1'] T2 T3 T4 T5 (row & Hr & Ha) (fl & Hf & Hb) T8].
  destruct (active_length e T1 T1') as [Hact Hflen].
  assert (length row = W) as Wr by (by eapply S2). assert (length fl = W) as Wf by (by eapply S4).
  destruct (lookup_lt_is_Some_2 (token_ids_cpu t) empty) as [row' Hr']; [lia|]. assert (length row' = W) as Wr' by (by eapply S2).
  destruct (lookup_lt_is_Some_2 (is_token_ids t) empty) as [fl' Hf']; [lia|]. assert (length fl' = W) as Wf' by (by eapply S4).
  set (n := length (active e)) in *. assert (active_count e = Z.of_nat n) as Hn by done.
  assert (length (flags_of e) <= n)%nat as Hfn by (pose proof (zlen_nonneg (en_spec e)); lia).
  set (t1 := Toks.set_tokens (<[empty := splice 0 (take n row) row']> (token_ids_cpu t)) t).
  set (t2 := Toks.set_flags (<[empty := splice 0 (take n fl) fl']> (is_token_ids t)) t1).
  set (t3 := match req_prompt_embeds t2 !! Z.of_nat last with Some x => Toks.set_embeds (<[Z.of_nat empty := x]> (delete (Z.of_nat last) (req_prompt_embeds t2))) t2 | None => t2 end).
  assert (shape t2) as Hs2.
  { apply (shape_set_flags t1); [apply shape_set_tokens; [done|]|]; rewrite length_splice; rewrite ?length_take; lia. }
  assert (token_ids_cpu t3 = token_ids_cpu t1 /\ is_token_ids t3 = is_token_ids t2 /\ counts t3 = counts t) as (X1 & X2 & X3) by (unfold t3; destruct (req_prompt_embeds t2 !! Z.of_nat last); by split_and!).
  assert (forall c, exists x, counts t c !! last = Some x) as Hcount by (intros c; apply lookup_lt_is_Some_2; by rewrite S5).
  destruct (each_count_ok (fun c => x ← Toks.get_count c (Z.of_nat last); store (fun t => counts t c) (Toks.set_count c) (Z.of_nat empty) x)
    (fun c => <[empty := counts t c !!! last]> (counts t c)) t3) as (t4 & E4 & (Y1 & Y2 & Y3) & Hc4).
  { intros c u (U1 & U2 & U3) Uc. rewrite X3 in Uc. destruct (Hcount c) as [x Hx]. eexists. split.
    - unfold Toks.get_count. erewrite bind_ok by (apply (load_ok (fun t => counts t c) _ x); [lia|by rewrite Uc, Nat2Z.id]).
      apply (store_ok (fun t => counts t c)). unfold zlen. rewrite Uc, S5. lia.
    - split; [by split_and!|]. rewrite Nat2Z.id, count_eq, Uc. split; [by rewrite (list_lookup_total_correct _ _ _ Hx)|]. intros c' Hc'. by rewrite count_ne. }
  exists t4. assert (forall c, counts t4 c !! empty = counts t c !! last) as Hce.
  { intros c. rewrite Hc4, list_lookup_insert_eq by (rewrite S5; lia). destruct (Hcount c) as [x Hx]. by rewrite (list_lookup_total_correct _ _ _ Hx). }
  split; [|split; [|split]].
  - unfold Toks.slide. rewrite (bind_ok _ _ _ _ _ (load_ok token_ids_cpu (Z.of_nat last) row t ltac:(lia) ltac:(by rewrite Nat2Z.id))).
    rewrite Hn, py_upto_nonneg, Nat2Z.id by lia. unfold Toks.put_tokens.
    erewrite bind_ok by (apply (put_slice_ok _ _ _ _ _ _ _ row'); [done|lia|unfold zlen; rewrite length_take; lia|unfold zlen; lia]). fold t1.
    rewrite (bind_ok _ _ _ _ _ (load_ok is_token_ids (Z.of_nat last) fl t1 ltac:(lia) ltac:(by rewrite Nat2Z.id))).
    rewrite py_upto_nonneg, Nat2Z.id by lia. unfold Toks.put_flags.
    erewrite bind_ok by (apply (put_slice_ok _ _ _ _ _ _ _ fl'); [done|lia|unfold zlen; rewrite length_take; lia|unfold zlen; lia]). change (is_token_ids t1) with (is_token_ids t). fold t2.
    erewrite bind_ok by reflexivity. exact E4.
  - destruct Hs2 as [Q1 Q2 Q3 Q4 Q5]. change (token_ids_cpu t2) with (token_ids_cpu t1) in *. split.
    + by rewrite Y1, X1.
    + intros i r. rewrite Y1, X1. apply Q2.
    + by rewrite Y2, X2.
    + intros i r. rewrite Y2, X2. apply Q4.
    + intros c. by rewrite Hc4, length_insert.
  - split; rewrite ?Hce; try done.
    + rewrite Y1, X1. cbn. eexists. split; [apply list_lookup_insert_eq; lia|]. apply agrees_prefix; [done|lia|lia].
    + rewrite Y2, X2. cbn. eexists. split; [apply list_lookup_insert_eq; lia|]. apply begins_prefix; [done|lia|lia].
    + intros x Hx. rewrite Y3. unfold t3. change (req_prompt_embeds t2) with (req_prompt_embeds t). rewrite (T8 x Hx). cbn. by rewrite lookup_insert_eq.
  - intros j Hj1 Hj2. split_and!.
    + intros c. by rewrite Hc4, list_lookup_insert_ne.
    + rewrite Y1, X1. cbn. by rewrite list_lookup_insert_ne.
    + rewrite Y2, X2. cbn. by rewrite list_lookup_insert_ne.
    + rewrite Y3. unfold t3. change (req_prompt_embeds t2) with (req_prompt_embeds t). destruct (req_prompt_embeds t !! Z.of_nat last) as [x|]; [|done].
      cbn. by rewrite lookup_insert_ne, lookup_delete_ne by lia.
Qed.

(** The first [n] places of two rows are exchanged. *)
Lemma swap_prefix_ok {A} (get : TokenRows -> list (list A)) put t (i1 i2 : nat) (n : nat) row1 row2 : (forall l t, get (put l t) = l) -> i1 ≠ i2 ->
  get t !! i1 = Some row1 -> get t !! i2 = Some row2 -> (n <= length row1)%nat -> (n <= length row2)%nat ->
  exists l1, Toks.swap_prefix get put (Z.of_nat i1) (Z.of_nat i2) (Z.of_nat n) t
    = (Ok tt, put (<[i2 := splice 0 (take n row1) row2]> (<[i1 := splice 0 (take n row2) row1]> (get t))) (put l1 t)).
Proof.
  intros Hgp Hne H1 H2 Hn1 Hn2. exists (<[i1 := splice 0 (take n row2) row1]> (get t)). unfold Toks.swap_prefix.
  rewrite (bind_ok _ _ _ _ _ (load_ok get (Z.of_nat i1) row1 t ltac:(lia) ltac:(by rewrite Nat2Z.id))).
  rewrite (bind_ok _ _ _ _ _ (load_ok get (Z.of_nat i2) row2 t ltac:(lia) ltac:(by rewrite Nat2Z.id))).
  rewrite !py_upto_nonneg, !Nat2Z.id by lia.
  erewrite bind_ok by (apply (put_slice_ok get put _ _ _ _ _ row1); [done|lia|unfold zlen; rewrite length_take; lia|unfold zlen; lia]).
  erewrite (put_slice_ok get put _ _ _ _ _ row2); [by rewrite Hgp|by rewrite Hgp, list_lookup_insert_ne|lia|unfold zlen; rewrite length_take; lia|unfold zlen; lia].
Qed.

Lemma lookup_swap_dict {V} (i1 i2 j : Z) (m : gmap Z V) : i1 ≠ i2 ->
  Toks.swap_dict_values i1 i2 m !! j = if decide (j = i1) then m !! i2 else if decide (j = i2) then m !! i1 else m !! j.
Proof. intros Hne. unfold Toks.swap_dict_values. rewrite !lookup_partial_alter. repeat case_decide; try done; congruence. Qed.

Lemma lookup_swapped {A} (l : list A) i1 i2 x1 x2 j : (i1 < length l)%nat -> (i2 < length l)%nat -> i1 ≠ i2 ->
  <[i2 := x1]> (<[i1 := x2]> l) !! j = if decide (j = i1) then Some x2 else if decide (j = i2) then Some x1 else l !! j.
Proof. intros H1 H2 Hne. rewrite !list_lookup_insert, length_insert. repeat case_decide; try done; naive_solver. Qed.

Lemma swap_tokens_ok t i1 i2 e1 e2 : shape t -> (i1 < N)%nat -> (i2 < N)%nat -> i1 ≠ i2 -> token_row t i1 e1 -> token_row t i2 e2 ->
  exists t', Toks.swap_rows (Z.of_nat i1) (Z.of_nat i2) (Z.max (active_count e1) (active_count e2)) t = (Ok tt, t') /\ shape t'
    /\ token_row t' i1 e2 /\ token_row t' i2 e1 /\ forall j, j ≠ i1 -> j ≠ i2 -> same_row t t' j.
Proof.
  intros Hs Hi1 Hi2 Hne Hr1 Hr2. pose proof Hs as [S1 S2 S3 S4 S5].
  destruct Hr1 as [[T1 T1'] T2 T3 T4 T5 (row1 & Hrow1 & Ha1) (fl1 & Hfl1 & Hb1) T8].
  destruct Hr2 as [[U1 U1'] U2 U3 U4 U5 (row2 & Hrow2 & Ha2) (fl2 & Hfl2 & Hb2) U8].
  destruct (active_length e1 T1 T1') as [Hact1 Hlen1], (active_length e2 U1 U1') as [Hact2 Hlen2].
  pose proof (zlen_nonneg (en_spec e1)). pose proof (zlen_nonneg (en_spec e2)).
  assert (length row1 = W /\ length row2 = W /\ length fl1 = W /\ length fl2 = W) as (W1 & W2 & W3 & W4) by (split_and!; eauto).
  set (n := Nat.max (length (active e1)) (length (active e2))).
  assert (Z.max (active_count e1) (active_count e2) = Z.of_nat n) as -> by (unfold active_count, zlen; lia).
  assert (length (flags_of e1) <= n /\ length (flags_of e2) <= n)%nat as [Hf1 Hf2] by (unfold active_count, zlen in *; lia).
  assert (forall c, exists x, counts t c !! i1 = Some x) as Hc1 by (intros c; apply lookup_lt_is_Some_2; by rewrite S5).
  assert (forall c, exists x, counts t c !! i2 = Some x) as Hc2 by (intros c; apply lookup_lt_is_Some_2; by rewrite S5).
  destruct (each_count_ok (fun c => Ids.swap (fun t => counts t c) (Toks.set_count c) (Z.of_nat i1) (Z.of_nat i2))
    (fun c => <[i2 := counts t c !!! i1]> (<[i1 := counts t c !!! i2]> (counts t c))) t) as (t1 & E1 & (Y1 & Y2 & Y3) & Hc).
  { intros c u (V1 & V2 & V3) Vc. destruct (Hc1 c) as [x Hx], (Hc2 c) as [y Hy]. eexists. split.
    - unfold Ids.swap. erewrite bind_ok by (apply (load_ok (fun t => counts t c) _ y); [lia|by rewrite Vc, Nat2Z.id]).
      erewrite bind_ok by (apply (load_ok (fun t => counts t c) _ x); [lia|by rewrite Vc, Nat2Z.id]).
      erewrite bind_ok by (apply (store_ok (fun t => counts t c)); unfold zlen; rewrite Vc, S5; lia).
      apply (store_ok (fun t => counts t c)). rewrite count_eq. unfold zlen. rewrite length_insert, Vc, S5. lia.
    - split; [by split_and!|]. rewrite !count_eq, Vc, !Nat2Z.id, (list_lookup_total_correct _ _ _ Hx), (list_lookup_total_correct _ _ _ Hy). split; [done|].
      intros c' Hc'. by rewrite !count_ne. }
  destruct (swap_prefix_ok token_ids_cpu Toks.set_tokens t1 i1 i2 n row1 row2) as [l1 E2]; [done|done|by rewrite Y1|by rewrite Y1|lia|lia|].
  set (t2 := Toks.set_tokens _ _) in E2.
  destruct (swap_prefix_ok is_token_ids Toks.set_flags t2 i1 i2 n fl1 fl2) as [l2 E3]; [done|done|cbn; by rewrite Y2|cbn; by rewrite Y2|lia|lia|].
  set (t3 := Toks.set_flags _ _) in E3.
  exists (Toks.set_embeds (Toks.swap_dict_values (Z.of_nat i1) (Z.of_nat i2) (req_prompt_embeds t)) t3).
  assert (token_ids_cpu t3 = <[i2 := splice 0 (take n row1) row2]> (<[i1 := splice 0 (take n row2) row1]> (token_ids_cpu t))) as G1 by (cbn; by rewrite Y1).
  assert (is_token_ids t3 = <[i2 := splice 0 (take n fl1) fl2]> (<[i1 := splice 0 (take n fl2) fl1]> (is_token_ids t))) as G2 by (cbn; by rewrite Y2).
  assert (forall c, counts t3 c = <[i2 := counts t c !!! i1]> (<[i1 := counts t c !!! i2]> (counts t c))) as G3 by (intros c; apply Hc).
  assert (forall c j, counts t3 c !! j = if decide (j = i1) then counts t c !! i2 else if decide (j = i2) then counts t c !! i1 else counts t c !! j) as G4.
  { intros c j. rewrite G3, lookup_swapped by (rewrite ?S5; done). destruct (Hc1 c) as [x Hx], (Hc2 c) as [y Hy].
    by rewrite (list_lookup_total_correct _ _ _ Hx), (list_lookup_total_correct _ _ _ Hy), Hx, Hy. }
  assert (Z.of_nat i1 ≠ Z.of_nat i2) as Hne' by lia.
  split; [|split; [|split; [|split]]].
  - unfold Toks.swap_rows, Toks.swap_counts. rewrite (bind_ok _ _ _ _ _ E1), (bind_ok _ _ _ _ _ E2), (bind_ok _ _ _ _ _ E3). unfold modify. change (req_prompt_embeds t3) with (req_prompt_embeds t1). by rewrite Y3.
  - split; cbn [Toks.set_embeds token_ids_cpu is_token_ids counts]; rewrite ?G1, ?G2, ?length_insert; try done.
    + intros i r. rewrite lookup_swapped by lia. repeat case_decide; [intros [= <-]; rewrite length_splice; rewrite ?length_take; lia..|apply S2].
    + intros i r. rewrite lookup_swapped by lia. repeat case_decide; [intros [= <-]; rewrite length_splice; rewrite ?length_take; lia..|apply S4].
    + intros c. by rewrite G3, !length_insert.
  - split; cbn [Toks.set_embeds token_ids_cpu is_token_ids counts req_prompt_embeds]; rewrite ?G4, ?decide_True by done; try done.
    + rewrite G1, lookup_swapped, decide_True by lia. eexists. split; [done|]. apply agrees_prefix; [done|lia|lia].
    + rewrite G2, lookup_swapped, decide_True by lia. eexists. split; [done|]. apply begins_prefix; [done|lia|lia].
    + intros x Hx. rewrite lookup_swap_dict, decide_True by done. by apply U8.
  - assert (i2 ≠ i1) as Hne2 by done. split; cbn [Toks.set_embeds token_ids_cpu is_token_ids counts req_prompt_embeds];
      rewrite ?G4, ?(decide_False (P := i2 = i1)), ?(decide_True (P := i2 = i2)) by done; try done.
    + rewrite G1, lookup_swapped, decide_False, decide_True by lia. eexists. split; [done|]. apply agrees_prefix; [done|lia|lia].
    + rewrite G2, lookup_swapped, decide_False, decide_True by lia. eexists. split; [done|]. apply begins_prefix; [done|lia|lia].
    + intros x Hx. rewrite lookup_swap_dict, decide_False, decide_True by lia. by apply T8.
  - intros j Hj1 Hj2. split_and!; cbn [Toks.set_embeds token_ids_cpu is_token_ids counts req_prompt_embeds].
    + intros c. by rewrite G4, !decide_False.
    + rewrite G1, lookup_swapped by lia. by rewrite !decide_False.
    + rewrite G2, lookup_swapped by lia. by rewrite !decide_False.
    + rewrite lookup_swap_dict by done. by rewrite !decide_False by lia.
Qed.

(** Spec tokens are written behind the others; the row stays the same request's. *)
Definition with_spec (l : list Z) (e : entry) : entry := {| e with en_spec := l |}.

Lemma active_with_spec l e : active (with_spec l e) = active (with_spec [] e) ++ (Some <$> l).
Proof. unfold active. cbn. by rewrite app_nil_r, fmap_app, app_assoc. Qed.

Lemma drop_spec_ok t i e : token_row t i e -> token_row t i (with_spec [] e).
Proof.
  intros [T1 T2 T3 T4 T5 (row & Hr & Ha) T7 T8]. change (with_spec (en_spec e) e) with (with_spec (en_spec e) e) in *.
  assert (active e = active (with_spec [] e) ++ (Some <$> en_spec e)) as Ea by (rewrite <- active_with_spec; by destruct e).
  split; try done; cbn.
  - rewrite Ea, length_app in T2. lia.
  - exists row. split; [done|]. intros j x Hj. apply Ha. rewrite Ea. by apply lookup_app_l_Some.
Qed.

Lemma put_spec_tokens_ok t i e l : shape t -> (i < N)%nat -> token_row t i e -> forallb Table.is_int32 l = true -> (length (active (with_spec l e)) <= W)%nat ->
  exists t', Toks.get_count num_tokens_no_spec (Z.of_nat i) t = (Ok (prompt_len e + zlen (en_output e)), t)
    /\ Toks.put_tokens (Z.of_nat i) (prompt_len e + zlen (en_output e)) (prompt_len e + zlen (en_output e) + zlen l) l t = (Ok tt, t')
    /\ shape t' /\ token_row t' i (with_spec l e) /\ forall j, j ≠ i -> same_row t t' j.
Proof.
  intros Hs Hi Hrow Hl HW. apply drop_spec_ok in Hrow as [[T1 T1'] T2 T3 T4 T5 (row & Hr & Ha) T7 T8]. cbn in T1', T3, T4, T5.
  destruct (active_length (with_spec [] e) T1 T1') as [Hact _]. unfold active_count in Hact. cbn in Hact. rewrite Z.add_0_r in Hact.
  rewrite active_with_spec, length_app, length_fmap in HW.
  assert (0 <= prompt_len e + zlen (en_output e)) as H0 by (pose proof (zlen_nonneg (en_output e)); change (prompt_len (with_spec [] e)) with (prompt_len e) in T1'; lia).
  destruct (put_tokens_ok t i (prompt_len e + zlen (en_output e)) (prompt_len e + zlen (en_output e) + zlen l) l Hs Hi H0 eq_refl) as (row' & Hr' & Hw & E).
  { unfold zlen in *. change (prompt_len (with_spec [] e)) with (prompt_len e) in *. lia. }
  rewrite Hr in Hr'. injection Hr' as <-.
  eexists. split; [apply (load_ok (fun t => counts t num_tokens_no_spec)); [lia|by rewrite Nat2Z.id]|]. split; [exact E|].
  assert (Z.to_nat (prompt_len e + zlen (en_output e)) = length (active (with_spec [] e))) as Hn by (unfold zlen in *; change (prompt_len (with_spec [] e)) with (prompt_len e) in Hact; lia).
  split; [apply shape_set_tokens; [done|rewrite length_splice; lia]|]. split; [|intros j Hj; by apply other_tokens].
  split; try done.
  - rewrite active_with_spec, length_app, length_fmap. lia.
  - eexists. split; [cbn; apply list_lookup_insert_eq; rewrite (sh_tokens _ Hs); lia|]. rewrite Hn, active_with_spec. apply agrees_splice; [done|lia].
Qed.

End tokens.
End BatchTokens.
