(* ===== verification/BatchColumns.v ===== *)
(** Block tables, LoRA ids and sampling state of the persistent batch follow its rows. *)

From Stdlib Require Import QArith.
From stdpp Require Import gmap.
From S2P Require Import Prelude Request BlockTable BlockTableFacts BatchUpdate InputBatch BatchRows BatchTokens.
Import BatchRows BatchTokens.
Local Open Scope Z_scope.

Module BatchColumns.

(** The request with this id is in the batch. *)
Definition here (rows : rows_of) (e : entry) : Prop := exists i, rows !! i = Some (Some e).

(** Ids are in one row only. *)
Definition distinct (rows : rows_of) : Prop := forall i j e e', rows !! i = Some (Some e) -> rows !! j = Some (Some e') -> en_id e = en_id e' -> i = j.

Lemma here_put i e rows e' : free_row i rows -> here (put_row i e rows) e' <-> e' = e \/ here rows e'.
Proof.
  intros Hf. unfold here. setoid_rewrite (lookup_put_row i e rows _ Hf). split.
  - intros [j Hj]. case_decide; [left; congruence|right; by exists j].
  - intros [->|[j Hj]]; [exists i; by rewrite decide_True|]. exists j. rewrite decide_False; [done|]. intros ->.
    destruct Hf as [->|Hf]; [apply lookup_lt_Some in Hj; lia|congruence].
Qed.

Lemma here_clear i e rows e' : distinct rows -> rows !! i = Some (Some e) -> here (<[i := None]> rows) e' <-> here rows e' /\ en_id e' ≠ en_id e.
Proof.
  intros Hd Hi. unfold here. setoid_rewrite list_lookup_insert. split.
  - intros [j Hj]. case_decide as Hc; [done|]. split; [by exists j|]. intros E. assert (j = i) as -> by (by eapply Hd). apply Hc. split; [done|by eapply lookup_lt_Some].
  - intros [[j Hj] Hne]. exists j. rewrite decide_False; [done|]. intros [-> _]. congruence.
Qed.

Lemma here_slide last empty rows e e' : last ≠ empty -> rows !! last = Some (Some e) -> rows !! empty = Some None ->
  here (slide_row last empty rows) e' <-> here rows e'.
Proof.
  intros Hne Hl He. unfold here. setoid_rewrite (lookup_slide_row last empty rows e _ Hne Hl He). split.
  - intros [j Hj]. repeat case_decide; [exists last; congruence|done|by exists j].
  - intros [j Hj]. destruct (decide (j = last)) as [->|Hj']; [exists empty; rewrite decide_True by done; congruence|].
    exists j. rewrite !decide_False; [done|done|]. intros ->. congruence.
Qed.

Lemma here_swap i1 i2 rows e1 e2 e' : i1 ≠ i2 -> rows !! i1 = Some (Some e1) -> rows !! i2 = Some (Some e2) -> here (swap_rows i1 i2 rows) e' <-> here rows e'.
Proof.
  intros Hne H1 H2. unfold here. setoid_rewrite (lookup_swap_rows i1 i2 rows _ _ _ Hne H1 H2). split.
  - intros [j Hj]. repeat case_decide; [exists i2; congruence|exists i1; congruence|by exists j].
  - intros [j Hj]. destruct (decide (j = i1)) as [->|]; [exists i2; rewrite decide_False, decide_True by done; congruence|].
    destruct (decide (j = i2)) as [->|]; [exists i1; rewrite decide_True by done; congruence|]. exists j. by rewrite !decide_False.
Qed.

Lemma here_take n rows e : (forall j, (n <= j < length rows)%nat -> rows !! j = Some None) -> here (take n rows) e <-> here rows e.
Proof.
  intros Hh. unfold here. split; intros [j Hj]; exists j; [by eapply lookup_take_Some|].
  destruct (decide (j < n)%nat); [by rewrite lookup_take_lt|]. pose proof (lookup_lt_Some _ _ _ Hj). rewrite Hh in Hj by lia. done.
Qed.

(** ** Block tables *)

Lemma each_ok (P : nat -> BlockTable -> Prop) (body : Z -> Table.TM unit) l :
  (forall g t, l !! g = Some t -> exists t', body (Z.of_nat g) t = (Ok tt, t') /\ P g t') ->
  exists l', Tables.each l 0 body = (Ok tt, l') /\ length l' = length l /\ forall g t', l' !! g = Some t' -> P g t'.
Proof.
  change 0 with (Z.of_nat 0). assert (forall k l (P : nat -> BlockTable -> Prop), (forall g t, l !! g = Some t -> exists t', body (Z.of_nat (k + g)) t = (Ok tt, t') /\ P g t') ->
    exists l', Tables.each l (Z.of_nat k) body = (Ok tt, l') /\ length l' = length l /\ forall g t', l' !! g = Some t' -> P g t') as H.
  2: { intros Hb. by apply (H 0%nat). }
  clear. intros k l. revert k. induction l as [|t l IH]; intros k P Hb; cbn [Tables.each]; [by exists []|].
  destruct (Hb 0%nat t eq_refl) as (t1 & E1 & P1). rewrite Nat.add_0_r in E1. rewrite E1.
  destruct (IH (S k) (fun g => P (S g))) as (l' & E & Hl & HP).
  { intros g t2 Hg. destruct (Hb (S g) t2 Hg) as (t3 & E3 & P3). exists t3. split; [|done]. by replace (S k + g)%nat with (k + S g)%nat by lia. }
  replace (Z.of_nat k + 1) with (Z.of_nat (S k)) by lia. rewrite E. exists (t1 :: l'). split; [done|]. split; [cbn; lia|]. intros [|g] t' Hg; [by injection Hg as <-|by apply HP].
Qed.

Section tables.
Context (N : nat) (dims : list (Z * Z)).

(** Block ids that fit into the rows of all tables; [dims] has kernel blocks per block and the width. *)
Definition blocks_fit (blocks : list (list Z)) : Prop := forall g d, dims !! g = Some d ->
  exists l, blocks !! g = Some l /\ Forall (TableFacts.id_fits d.1) l /\ zlen l * d.1 <= d.2.

Record table_shows (rows : rows_of) (g : nat) (t : BlockTable) : Prop := {
  ts_reqs : max_num_reqs t = Z.of_nat N;
  ts_dims : dims !! g = Some (blocks_per_kv_block t, max_num_blocks_per_req t);
  ts_rows : exists R, TableFacts.shows t R /\ forall i e, rows !! i = Some (Some e) -> exists l, en_blocks e !! g = Some l /\ R !! i = Some l;
}.

Definition tables_ok (tables : list BlockTable) (rows : rows_of) : Prop := forall g t, tables !! g = Some t -> table_shows rows g t.

Lemma table_shows_weaken rows rows' g t : (forall i e, rows' !! i = Some (Some e) -> rows !! i = Some (Some e)) -> table_shows rows g t -> table_shows rows' g t.
Proof. intros Hw [T1 T2 (R & HR & Hrow)]. split; [done|done|]. exists R. split; [done|]. intros i e Hi. apply Hrow. by apply Hw. Qed.

(** A table after an operation that keeps its dimensions. *)
Lemma table_shows_next rows rows' g t t' R' : table_shows rows g t -> TableFacts.same_shape t t' -> TableFacts.shows t' R' ->
  (forall i e, rows' !! i = Some (Some e) -> exists l, en_blocks e !! g = Some l /\ R' !! i = Some l) -> table_shows rows' g t'.
Proof.
  intros [T1 T2 _] (S1 & _ & _ & S4 & _ & S6 & _) HR Hrow. split; [by rewrite S1|by rewrite S4, S6|]. by exists R'.
Qed.

Lemma shows_length g t rows : table_shows rows g t -> forall R, TableFacts.shows t R -> length R = N.
Proof. intros [T1 _ _] R [_ HL _]. rewrite HL, T1. lia. Qed.

Lemma add_tables_ok tables rows i e : tables_ok tables rows -> (i < N)%nat -> free_row i rows -> blocks_fit (en_blocks e) ->
  exists tables', Tables.add_row (en_blocks e) (Z.of_nat i) tables = (Ok tt, tables') /\ length tables' = length tables /\ tables_ok tables' (put_row i e rows).
Proof.
  intros Ht Hi Hfree Hfit. apply (each_ok (table_shows (put_row i e rows))). intros g t Hg. pose proof (Ht g t Hg) as Hts. pose proof Hts as [T1 T2 (R & HR & Hrow)].
  destruct (Hfit g _ T2) as (l & Hl & Hf & Hw). cbn in Hf, Hw.
  destruct (TableFacts.add_row_ok t R l (Z.of_nat i) HR) as (t' & E & Hsame & Hshow); [lia|done|done|]. exists t'. split.
  { unfold lift_res. rewrite py_get_nonneg, Nat2Z.id, Hl by lia. by erewrite bind_ok by reflexivity. }
  eapply table_shows_next; [done|done|done|]. rewrite Nat2Z.id. intros j e'. rewrite lookup_put_row by done.
  pose proof (shows_length g t rows Hts R HR) as HRl. case_decide as Hj.
  - intros [= <-]. subst j. exists l. split; [done|]. apply list_lookup_insert_eq. lia.
  - intros Hj'. destruct (Hrow j e' Hj') as (l' & H1 & H2). exists l'. split; [done|]. by rewrite list_lookup_insert_ne.
Qed.

Lemma clear_tables_ok tables rows i : tables_ok tables rows -> (i < N)%nat ->
  exists tables', Tables.clear_row (Z.of_nat i) tables = (Ok tt, tables') /\ length tables' = length tables /\ tables_ok tables' (<[i := None]> rows).
Proof.
  intros Ht Hi. apply (each_ok (table_shows (<[i := None]> rows))). intros g t Hg. pose proof (Ht g t Hg) as Hts. pose proof Hts as [T1 T2 (R & HR & Hrow)].
  destruct (TableFacts.clear_row_ok t R HR (Z.of_nat i)) as (t' & E & Hsame & Hshow); [lia|]. exists t'. split; [done|].
  eapply table_shows_next; [done|done|done|]. rewrite Nat2Z.id. intros j e'. rewrite list_lookup_insert. case_decide as Hj; [done|].
  intros Hj'. destruct (Hrow j e' Hj') as (l' & H1 & H2). exists l'. split; [done|]. rewrite list_lookup_insert_ne; [done|].
  intros ->. apply Hj. split; [done|by eapply lookup_lt_Some].
Qed.

Lemma slide_tables_ok tables rows last empty e : tables_ok tables rows -> (last < N)%nat -> (empty < N)%nat -> last ≠ empty ->
  rows !! last = Some (Some e) -> rows !! empty = Some None ->
  exists tables', Tables.move_row (Z.of_nat last) (Z.of_nat empty) tables = (Ok tt, tables') /\ length tables' = length tables
    /\ tables_ok tables' (slide_row last empty rows).
Proof.
  intros Ht Hl He Hne Hlr Her. apply (each_ok (table_shows (slide_row last empty rows))). intros g t Hg. pose proof (Ht g t Hg) as Hts. pose proof Hts as [T1 T2 (R & HR & Hrow)].
  destruct (Hrow last e Hlr) as (l & Hle & HRl). pose proof (shows_length g t rows Hts R HR) as HRlen.
  destruct (TableFacts.move_row_ok t R HR (Z.of_nat last) (Z.of_nat empty) l) as (t' & E & Hsame & Hshow); [lia|lia|by rewrite Nat2Z.id|]. exists t'. split; [done|].
  eapply table_shows_next; [done|done|done|]. rewrite Nat2Z.id. intros j e'. rewrite (lookup_slide_row last empty rows e) by done.
  case_decide as Hj; [intros [= <-]; exists l; split; [done|]; subst; apply list_lookup_insert_eq; lia|]. case_decide; [done|].
  intros Hj'. destruct (Hrow j e' Hj') as (l' & H1 & H2). exists l'. split; [done|]. by rewrite list_lookup_insert_ne.
Qed.

Lemma swap_tables_ok tables rows i1 i2 e1 e2 : tables_ok tables rows -> (i1 < N)%nat -> (i2 < N)%nat -> i1 ≠ i2 ->
  rows !! i1 = Some (Some e1) -> rows !! i2 = Some (Some e2) ->
  exists tables', Tables.swap_row (Z.of_nat i1) (Z.of_nat i2) tables = (Ok tt, tables') /\ length tables' = length tables
    /\ tables_ok tables' (swap_rows i1 i2 rows).
Proof.
  intros Ht Hi1 Hi2 Hne H1 H2. apply (each_ok (table_shows (swap_rows i1 i2 rows))). intros g t Hg. pose proof (Ht g t Hg) as Hts. pose proof Hts as [T1 T2 (R & HR & Hrow)].
  destruct (Hrow i1 e1 H1) as (l1 & A1 & B1), (Hrow i2 e2 H2) as (l2 & A2 & B2). pose proof (shows_length g t rows Hts R HR) as HRlen.
  destruct (TableFacts.swap_row_ok t R (Z.of_nat i1) (Z.of_nat i2) l1 l2 HR) as (t' & E & Hsame & Hshow); [lia|lia|by rewrite Nat2Z.id|by rewrite Nat2Z.id|]. exists t'. split; [done|].
  eapply table_shows_next; [done|done|done|]. rewrite !Nat2Z.id. intros j e'. rewrite (lookup_swap_rows i1 i2 rows _ _ j Hne H1 H2).
  rewrite lookup_swapped by lia. repeat case_decide; [intros [= <-]; eauto|intros [= <-]; eauto|apply Hrow].
Qed.
End tables.

(** ** LoRA *)

Definition lora_of (e : entry) : Z := match rs_lora_request (en_request e) with Some l => lora_int_id l | None => 0 end.

Section lora.
Context (N : nat).

Record lora_ok (r : LoraRows) (rows : rows_of) : Prop := {
  lo_len : length (request_lora_mapping r) = N;
  lo_map : forall i e, rows !! i = Some (Some e) -> request_lora_mapping r !! i = Some (lora_of e);
  lo_reqs : forall L s, lora_id_to_request_ids r !! L = Some s ->
    L ≠ 0 /\ s ≠ ∅ /\ forall id, id ∈ s <-> exists e, here rows e /\ en_id e = id /\ lora_of e = L;
  lo_some : forall e, here rows e -> lora_of e ≠ 0 -> is_Some (lora_id_to_request_ids r !! lora_of e);
  lo_loras : forall L, is_Some (lora_id_to_lora_request r !! L) <-> is_Some (lora_id_to_request_ids r !! L);
  lo_ids : forall L l, lora_id_to_lora_request r !! L = Some l -> lora_int_id l = L;
}.

(** [LoRARequest] refuses ids below 1. *)
Definition lora_valid (e : entry) : Prop := forall l, rs_lora_request (en_request e) = Some l -> 1 <= lora_int_id l < 2 ^ 63.

Lemma lora_of_valid e : lora_valid e -> (lora_of e = 0 <-> rs_lora_request (en_request e) = None) /\ 0 <= lora_of e < 2 ^ 63.
Proof. unfold lora_valid, lora_of. intros H. destruct (rs_lora_request (en_request e)) as [l|]; [specialize (H l eq_refl)|]; split; [split; [lia|done]|lia|done|lia]. Qed.

Lemma put_mapping_ok r (i : nat) x : length (request_lora_mapping r) = N -> (i < N)%nat -> 0 <= x < 2 ^ 63 ->
  Loras.put_mapping (Z.of_nat i) x r = (Ok tt, Loras.set_mapping (<[i := x]> (request_lora_mapping r)) r).
Proof.
  intros Hl Hi Hx. unfold Loras.put_mapping. replace (_ && _) with true by lia. rewrite store_ok by (unfold zlen; lia). by rewrite Nat2Z.id.
Qed.

(** Only the mapping changes and the same requests are there. *)
Lemma lora_rows r rows rows' l' : lora_ok r rows -> (forall e, here rows' e <-> here rows e) -> length l' = N ->
  (forall i e, rows' !! i = Some (Some e) -> l' !! i = Some (lora_of e)) -> lora_ok (Loras.set_mapping l' r) rows'.
Proof.
  intros [L1 L2 L3 L4 L5 L6] Hh Hl Hmap. split; cbn; try done.
  - intros L s Hs. destruct (L3 L s Hs) as (H1 & H2 & H3). split; [done|]. split; [done|]. intros id. rewrite H3. by setoid_rewrite Hh.
  - intros e He. apply L4. by apply Hh.
Qed.

Lemma map_put_row (l : list Z) rows i e : length l = N -> (i < N)%nat -> free_row i rows -> (forall j e, rows !! j = Some (Some e) -> l !! j = Some (lora_of e)) ->
  forall j e', put_row i e rows !! j = Some (Some e') -> <[i := lora_of e]> l !! j = Some (lora_of e').
Proof.
  intros Hl Hi Hf H j e'. rewrite lookup_put_row by done. case_decide as Hj; [intros [= <-]; subst; apply list_lookup_insert_eq; lia|].
  intros Hj'. rewrite list_lookup_insert_ne by done. by apply H.
Qed.

Lemma add_lora_ok r rows i e : lora_ok r rows -> (i < N)%nat -> free_row i rows -> lora_valid e ->
  exists r', Loras.add (en_id e) (rs_lora_request (en_request e)) (Z.of_nat i) r = (Ok tt, r') /\ lora_ok r' (put_row i e rows).
Proof.
  intros Hr Hi Hf Hv. destruct (lora_of_valid e Hv) as [Hzero Hbound]. pose proof Hr as [L1 L2 L3 L4 L5 L6].
  pose proof (map_put_row _ rows i e L1 Hi Hf L2) as Hmap. unfold Loras.add. destruct (rs_lora_request (en_request e)) as [l|] eqn:El.
  2: { assert (lora_of e = 0) as E0 by (unfold lora_of; by rewrite El). rewrite E0 in Hmap. eexists. split; [by apply put_mapping_ok|]. split; cbn; try done; [by rewrite length_insert| |].
       - intros L s Hs. destruct (L3 L s Hs) as (H1 & H2 & H3). split; [done|]. split; [done|]. intros id. rewrite H3. setoid_rewrite (here_put i e rows _ Hf). split.
         + intros (e' & He & Hid & HL). exists e'. eauto.
         + intros (e' & [->|He] & Hid & HL); [|by exists e']. unfold lora_of in HL. rewrite El in HL. congruence.
       - intros e' [->|He]%here_put; [|by apply L4|done]. unfold lora_of. by rewrite El. }
  set (L := lora_int_id l). assert (lora_of e = L) as EL by (unfold lora_of; by rewrite El). rewrite EL in Hmap, Hzero, Hbound. set (s := default ∅ (lora_id_to_request_ids r !! L)).
  set (r1 := match lora_id_to_request_ids r !! L with Some _ => r | None => Loras.set_requests (<[L := ∅]> (lora_id_to_request_ids r)) r end).
  assert (request_lora_mapping r1 = request_lora_mapping r /\ lora_id_to_lora_request r1 = lora_id_to_lora_request r
    /\ forall L', lora_id_to_request_ids r1 !! L' = if decide (L' = L) then Some s else lora_id_to_request_ids r !! L') as (X1 & X2 & X3).
  { unfold r1, s. destruct (lora_id_to_request_ids r !! L) as [s'|] eqn:Es; cbn; split_and!; try done; intros L'.
    - case_decide; [by subst|done].
    - case_decide; [subst; by rewrite lookup_insert_eq|by rewrite lookup_insert_ne]. }
  eexists. split.
  { erewrite (bind_ok _ _ r tt r1) by (unfold r1, modify; cbv beta; fold L; by destruct (lora_id_to_request_ids r !! L)). erewrite bind_ok by (apply put_mapping_ok; [by rewrite X1|done|done]).
    erewrite bind_ok by reflexivity. cbn [Loras.set_mapping lora_id_to_request_ids]. rewrite X3, decide_True by done.
    erewrite bind_ok by reflexivity. erewrite bind_ok by reflexivity. reflexivity. }
  assert (L ≠ 0) as HL0 by (intros E; by apply Hzero in E).
  split; cbn [Loras.set_loras Loras.set_requests Loras.set_mapping request_lora_mapping lora_id_to_request_ids lora_id_to_lora_request].
  - by rewrite X1, length_insert.
  - rewrite X1. exact Hmap.
  - intros L' s'. rewrite lookup_insert. case_decide as HL.
    + intros [= <-]. subst L'. split; [done|]. split; [set_solver|]. intros id. rewrite elem_of_union, elem_of_singleton. setoid_rewrite (here_put i e rows _ Hf).
      assert (id ∈ s <-> exists e', here rows e' /\ en_id e' = id /\ lora_of e' = L) as ->.
      { unfold s. destruct (lora_id_to_request_ids r !! L) as [s'|] eqn:Es; cbn; [by apply L3|]. split; [set_solver|]. intros (e' & He & _ & HL'). exfalso.
        destruct (L4 e' He) as [s' Hs']; [congruence|]. rewrite HL' in Hs'. congruence. }
      split; [intros [(e' & He & Hid & HL')| ->]; [exists e'; eauto|exists e; unfold lora_of; rewrite El; eauto]|].
      intros (e' & [->|He] & Hid & HL'); [by right|left; by exists e'].
    + rewrite X3, decide_False by done. intros Hs. destruct (L3 L' s' Hs) as (H1 & H2 & H3). split; [done|]. split; [done|]. intros id. rewrite H3. setoid_rewrite (here_put i e rows _ Hf). split.
      * intros (e' & He & Hid & HL'). exists e'. eauto.
      * intros (e' & [->|He] & Hid & HL'); [|by exists e']. unfold lora_of in HL'. rewrite El in HL'. by destruct HL.
  - intros e' He' Hne. rewrite lookup_insert. case_decide as HL; [by eexists|]. rewrite X3, decide_False by done. apply here_put in He' as [->|He']; [|by apply L4|done].
    destruct HL. unfold lora_of. by rewrite El.
  - intros L'. rewrite X2, !lookup_insert. case_decide; [by split; eexists|]. rewrite X3, decide_False by done. apply L5.
  - intros L' l'. rewrite X2, lookup_insert. case_decide; [by intros [= <-]|]. apply L6.
Qed.

Lemma remove_lora_ok r rows i e : lora_ok r rows -> distinct rows -> rows !! i = Some (Some e) ->
  exists r', Loras.remove (en_id e) (Z.of_nat i) r = (Ok tt, r') /\ lora_ok r' (<[i := None]> rows).
Proof.
  intros Hr Hd Hi. pose proof Hr as [L1 L2 L3 L4 L5 L6]. pose proof (L2 i e Hi) as Hmap.
  assert (i < N)%nat as HiN by (rewrite <- L1; by eapply lookup_lt_Some).
  assert (forall l', length l' = N -> (forall j, j ≠ i -> l' !! j = request_lora_mapping r !! j) ->
    forall j e', <[i := None]> rows !! j = Some (Some e') -> l' !! j = Some (lora_of e')) as Hrest.
  { intros l' Hl' Hsame j e'. rewrite list_lookup_insert. case_decide as Hj; [done|]. intros Hj'. rewrite Hsame; [by apply L2|].
    intros ->. apply Hj. split; [done|by eapply lookup_lt_Some]. }
  unfold Loras.remove. rewrite (bind_ok _ _ _ _ _ (load_ok request_lora_mapping (Z.of_nat i) (lora_of e) r ltac:(lia) ltac:(by rewrite Nat2Z.id))).
  destruct (Z.eqb_spec (lora_of e) 0) as [H0|H0].
  - exists r. split; [done|]. split; try done; [by apply Hrest| |].
    + intros L s Hs. destruct (L3 L s Hs) as (H1 & H2 & H3). split; [done|]. split; [done|]. intros id. rewrite H3. setoid_rewrite (here_clear i e rows _ Hd Hi). split.
      * intros (e' & He & Hid & HL). exists e'. split; [|done]. split; [done|]. intros E. destruct He as [j Hj]. assert (j = i) as -> by (by eapply Hd). simplify_eq.
      * intros (e' & [He _] & Hid & HL). by exists e'.
    + intros e' He'. apply (here_clear i e rows e' Hd Hi) in He' as [He' _]. by apply L4.
  - destruct (L4 e) as [s Hs]; [by exists i|done|]. destruct (L3 _ s Hs) as (_ & Hne & Hmem).
    set (s' := s ∖ {[ en_id e ]}). set (r1 := Loras.set_requests (<[lora_of e := s']> (lora_id_to_request_ids r)) r).
    assert (forall id, id ∈ s' <-> exists e', here (<[i := None]> rows) e' /\ en_id e' = id /\ lora_of e' = lora_of e) as Hmem'.
    { intros id. unfold s'. rewrite elem_of_difference, elem_of_singleton, Hmem. setoid_rewrite (here_clear i e rows _ Hd Hi). split.
      - intros [(e' & He & Hid & HL) Hn]. exists e'. split; [split; [done|congruence]|done].
      - intros (e' & [He Hn] & Hid & HL). split; [by exists e'|congruence]. }
    set (r2 := if decide (s' = ∅) then Loras.set_loras (delete (lora_of e) (lora_id_to_lora_request r)) (Loras.set_requests (delete (lora_of e) (lora_id_to_request_ids r1)) r1) else r1).
    assert (request_lora_mapping r2 = request_lora_mapping r) as X1 by (unfold r2; by case_decide).
    assert (forall L, lora_id_to_request_ids r2 !! L = if decide (L = lora_of e) then (if decide (s' = ∅) then None else Some s') else lora_id_to_request_ids r !! L) as X2.
    { intros L. unfold r2, r1. destruct (decide (s' = ∅)); cbn; [rewrite lookup_delete|]; rewrite ?lookup_insert; repeat case_decide; try done; congruence. }
    assert (forall L, lora_id_to_lora_request r2 !! L = if decide (L = lora_of e /\ s' = ∅) then None else lora_id_to_lora_request r !! L) as X3.
    { intros L. unfold r2, r1. destruct (decide (s' = ∅)); cbn; rewrite ?lookup_delete; repeat case_decide; try done; naive_solver. }
    exists (Loras.set_mapping (<[i := 0]> (request_lora_mapping r2)) r2). split.
    { erewrite bind_ok by reflexivity. rewrite Hs. erewrite bind_ok by reflexivity. erewrite bind_ok by reflexivity. fold s' r1.
      erewrite (bind_ok _ _ r1 tt r2).
      - apply put_mapping_ok; [by rewrite X1|done|lia].
      - unfold r2. case_decide; [|done]. erewrite bind_ok by reflexivity. erewrite bind_ok by reflexivity. cbn [Loras.set_requests lora_id_to_lora_request r1].
        destruct (proj2 (L5 (lora_of e))) as [l Hl]; [by eexists|]. change (lora_id_to_lora_request r1) with (lora_id_to_lora_request r). rewrite Hl. by erewrite bind_ok by reflexivity. }
    split; cbn [Loras.set_mapping request_lora_mapping lora_id_to_request_ids lora_id_to_lora_request].
    + by rewrite length_insert, X1.
    + apply Hrest; [by rewrite length_insert, X1|]. intros j Hj. by rewrite list_lookup_insert_ne, X1.
    + intros L s0. rewrite X2. destruct (decide (L = lora_of e)) as [HL|HL].
      * destruct (decide (s' = ∅)) as [Hem|Hem]; [done|]. intros [= <-]. subst L. by split_and!.
      * intros Hs0. destruct (L3 L s0 Hs0) as (H1 & H2 & H3). split; [done|]. split; [done|]. intros id. rewrite H3. setoid_rewrite (here_clear i e rows _ Hd Hi). split.
        -- intros (e' & He & Hid & HL'). exists e'. split; [|done]. split; [done|]. intros E. destruct He as [j Hj]. assert (j = i) as -> by (by eapply Hd). simplify_eq.
        -- intros (e' & [He _] & Hid & HL'). by exists e'.
    + intros e' He' Hn0. rewrite X2. destruct (decide (lora_of e' = lora_of e)) as [HL|HL]; [|apply L4; [by apply (here_clear i e rows e' Hd Hi) in He' as [? _]|done]].
      rewrite decide_False; [by eexists|]. intros Hem. assert (en_id e' ∈ s') as Hin by (apply Hmem'; by exists e'). rewrite Hem in Hin. set_solver.
    + intros L. rewrite X2, X3. destruct (decide (L = lora_of e)) as [->|HL]; [|rewrite decide_False by (by intros [? _]); apply L5].
      destruct (decide (s' = ∅)) as [Hem|Hem]; [rewrite decide_True by done; by split; intros [? ?]|]. rewrite decide_False by (by intros [_ ?]). rewrite L5, Hs. by split; eexists.
    + intros L l. rewrite X3. destruct (decide (L = lora_of e /\ s' = ∅)); [done|]. apply L6.
Qed.

Lemma slide_lora_ok r rows last empty e : lora_ok r rows -> (empty < N)%nat -> last ≠ empty -> rows !! last = Some (Some e) -> rows !! empty = Some None ->
  exists r', Loras.slide (Z.of_nat last) (Z.of_nat empty) r = (Ok tt, r') /\ lora_ok r' (slide_row last empty rows).
Proof.
  intros Hr He Hne Hlr Her. pose proof (lo_map _ _ Hr _ _ Hlr) as Hm. pose proof (lo_len _ _ Hr) as Hlen. eexists. split.
  - unfold Loras.slide. erewrite bind_ok by (apply (load_ok request_lora_mapping (Z.of_nat last) (lora_of e)); [lia|by rewrite Nat2Z.id]).
    apply store_ok. unfold zlen. lia.
  - rewrite Nat2Z.id. apply (lora_rows r rows); [done|intros; by apply here_slide with e|by rewrite length_insert|].
    intros j e'. rewrite (lookup_slide_row last empty rows e) by done. case_decide; [intros [= <-]; subst; apply list_lookup_insert_eq; lia|].
    case_decide; [done|]. intros Hj. rewrite list_lookup_insert_ne by done. by apply Hr.
Qed.

Lemma swap_lora_ok r rows i1 i2 e1 e2 : lora_ok r rows -> i1 ≠ i2 -> rows !! i1 = Some (Some e1) -> rows !! i2 = Some (Some e2) ->
  exists r', Ids.swap request_lora_mapping Loras.set_mapping (Z.of_nat i1) (Z.of_nat i2) r = (Ok tt, r') /\ lora_ok r' (swap_rows i1 i2 rows).
Proof.
  intros Hr Hne H1 H2. pose proof (lo_map _ _ Hr _ _ H1) as M1. pose proof (lo_map _ _ Hr _ _ H2) as M2. eexists. split; [by apply (swap_list_ok _ _ _ _ (lora_of e1) (lora_of e2))|].
  apply (lora_rows r rows); [done|intros; by apply here_swap with e1 e2|rewrite !length_insert; by apply Hr|].
  pose proof (lookup_lt_Some _ _ _ M1). pose proof (lookup_lt_Some _ _ _ M2).
  intros j e'. rewrite (lookup_swap_rows i1 i2 rows _ _ j Hne H1 H2), lookup_swapped by done. repeat case_decide; [intros [= <-]; done|intros [= <-]; done|by apply Hr].
Qed.
End lora.

End BatchColumns.
