(* ===== verification/BatchSampling.v ===== *)
(** The sampling state of the persistent batch follows its rows: the parameters in every
    column, the sets of requests that need something, the dictionaries by row and
    by id.  Of the mask of allowed token ids only the shape is kept (see
    [BatchFindings]). *)

From Stdlib Require Import QArith.
From stdpp Require Import gmap.
From S2P Require Import Prelude Request BlockTable BatchUpdate InputBatch BatchRows BatchTokens BatchColumns.
Import BatchRows BatchTokens BatchColumns.
Local Open Scope Z_scope.

Module BatchSampling.

(** Decisions about names of columns. *)
Ltac columns := repeat match goal with
  | |- context [decide (?a = ?b)] => first [rewrite (decide_True (P := a = b)) by reflexivity | rewrite (decide_False (P := a = b)) by discriminate]
  end.

Section sampling.
Context `{Float32} (N : nat) (V : Z).

Definition greedy (p : WorkerParams) : bool := match sampling_type p with GREEDY => true | _ => false end.
Definition top_k_limits (p : WorkerParams) : bool := (0 <? top_k p) && (top_k p <? V).

(** What the columns have for the parameters. *)
Definition float_of (p : WorkerParams) (c : float_column) : Q :=
  match c with
  | temperature_cpu => if greedy p then 0%Q else to_float32 (temperature p)
  | top_p_cpu => to_float32 (top_p p)
  | frequency_penalties_cpu => to_float32 (frequency_penalty p)
  | presence_penalties_cpu => to_float32 (presence_penalty p)
  | repetition_penalties_cpu => to_float32 (repetition_penalty p)
  end.
Definition int_of (e : entry) (p : WorkerParams) (c : int_column) : Z :=
  match c with top_k_cpu => if top_k_limits p then top_k p else V | num_accepted_tokens_cpu => en_accepted e end.

(** Which sets a request is in. *)
Definition in_set (p : WorkerParams) (c : req_set) : bool :=
  match c with
  | greedy_reqs => greedy p
  | random_reqs => negb (greedy p)
  | top_p_reqs => negb (Qle_bool 1 (top_p p))
  | top_k_reqs => top_k_limits p
  | frequency_penalties_reqs => Qneq (frequency_penalty p) 0
  | presence_penalties_reqs => Qneq (presence_penalty p) 0
  | repetition_penalties_reqs => Qneq (repetition_penalty p) 1
  | has_allowed_token_ids => match allowed_token_ids p with Some (_ :: _) => true | _ => false end
  end.

Definition params_of (e : entry) : option WorkerParams := rs_sampling_params (en_request e).
Definition bad_words_of (e : entry) : option (list (list Z)) :=
  match params_of e with Some p => match bad_words_token_ids p with Some [] => None | x => x end | None => None end.
Definition logprobs_of (e : entry) : option Z :=
  match params_of e with Some p => match logprobs p with Some n => Some (if n =? -1 then V else n) | None => None end | None => None end.
Definition logprob_ids_of (e : entry) : option (list Z) := match params_of e with Some p => logprob_token_ids p | None => None end.

(** The request in row [z]. *)
Definition row_at (rows : rows_of) (z : Z) : option entry :=
  if 0 <=? z then match rows !! Z.to_nat z with Some (Some e) => Some e | _ => None end else None.

Lemma row_at_nat rows (i : nat) : row_at rows (Z.of_nat i) = match rows !! i with Some (Some e) => Some e | _ => None end.
Proof. unfold row_at. rewrite (proj2 (Z.leb_le 0 (Z.of_nat i))) by lia. by rewrite Nat2Z.id. Qed.

Definition mask_shape (m : option (list (list bool))) : Prop :=
  forall l, m = Some l -> length l = N /\ forall i row, l !! i = Some row -> zlen row = V.

Record sampling_ok (s : SamplingRows) (rows : rows_of) : Prop := {
  so_floats_len : forall c, length (floats s c) = N;
  so_floats : forall i e p c, rows !! i = Some (Some e) -> params_of e = Some p -> floats s c !! i = Some (float_of p c);
  so_ints_len : forall c, length (ints s c) = N;
  so_ints : forall i e p c, rows !! i = Some (Some e) -> params_of e = Some p -> ints s c !! i = Some (int_of e p c);
  so_sets : forall c id, id ∈ sets s c <-> exists e p, here rows e /\ en_id e = id /\ params_of e = Some p /\ in_set p c = true;
  so_generators : forall z, generators s !! z = row_at rows z ≫= fun e => rs_generator (en_request e);
  so_bad_words : forall z, bad_words s !! z = row_at rows z ≫= bad_words_of;
  so_logprobs : forall id n, num_logprobs s !! id = Some n <-> exists e, here rows e /\ en_id e = id /\ logprobs_of e = Some n;
  so_logprob_ids : forall id l, logprob_ids s !! id = Some l <-> exists e, here rows e /\ en_id e = id /\ logprob_ids_of e = Some l;
  so_mask : mask_shape (allowed_token_ids_mask s);
}.

(** *** Columns *)

Lemma float_eq s c l : floats (Sampling.set_float c l s) c = l.
Proof. cbn. by columns. Qed.
Lemma float_ne s c c' l : c' ≠ c -> floats (Sampling.set_float c l s) c' = floats s c'.
Proof. intros Hc. cbn. by rewrite decide_False. Qed.
Lemma int_eq s c l : ints (Sampling.set_int c l s) c = l.
Proof. cbn. by columns. Qed.
Lemma int_ne s c c' l : c' ≠ c -> ints (Sampling.set_int c l s) c' = ints s c'.
Proof. intros Hc. cbn. by rewrite decide_False. Qed.

(** Everything but the columns is the same. *)
Definition columns_only (s s' : SamplingRows) : Prop :=
  sets s' = sets s /\ generators s' = generators s /\ num_logprobs s' = num_logprobs s /\ logprob_ids s' = logprob_ids s
  /\ allowed_token_ids_mask s' = allowed_token_ids_mask s /\ bad_words s' = bad_words s.

Lemma columns_only_refl s : columns_only s s.
Proof. by split_and!. Qed.
Lemma columns_only_trans s1 s2 s3 : columns_only s1 s2 -> columns_only s2 s3 -> columns_only s1 s3.
Proof. intros (A1 & A2 & A3 & A4 & A5 & A6) (B1 & B2 & B3 & B4 & B5 & B6). split_and!; congruence. Qed.

(** The loop over all columns, each of which is changed on its own. *)
Lemma each_column_ok (bf : float_column -> M SamplingRows unit) (bi : int_column -> M SamplingRows unit) ff fi s :
  (forall c u, floats u c = floats s c -> exists u', bf c u = (Ok tt, u') /\ columns_only u u' /\ floats u' c = ff c /\ (forall c', c' ≠ c -> floats u' c' = floats u c') /\ ints u' = ints u) ->
  (forall c u, ints u c = ints s c -> exists u', bi c u = (Ok tt, u') /\ columns_only u u' /\ ints u' c = fi c /\ (forall c', c' ≠ c -> ints u' c' = ints u c') /\ floats u' = floats u) ->
  exists s', Sampling.each_column bf bi s = (Ok tt, s') /\ columns_only s s' /\ (forall c, floats s' c = ff c) /\ forall c, ints s' c = fi c.
Proof.
  intros Hf Hi. unfold Sampling.each_column.
  destruct (Hf temperature_cpu s) as (s1 & E1 & C1 & F1 & G1 & I1); [done|].
  destruct (Hf top_p_cpu s1) as (s2 & E2 & C2 & F2 & G2 & I2); [by apply G1|].
  destruct (Hi top_k_cpu s2) as (s3 & E3 & C3 & F3 & G3 & I3); [by rewrite I2, I1|].
  destruct (Hf frequency_penalties_cpu s3) as (s4 & E4 & C4 & F4 & G4 & I4); [by rewrite I3, G2, G1|].
  destruct (Hf presence_penalties_cpu s4) as (s5 & E5 & C5 & F5 & G5 & I5); [by rewrite G4, I3, G2, G1|].
  destruct (Hf repetition_penalties_cpu s5) as (s6 & E6 & C6 & F6 & G6 & I6); [by rewrite G5, G4, I3, G2, G1|].
  destruct (Hi num_accepted_tokens_cpu s6) as (s7 & E7 & C7 & F7 & G7 & I7); [by rewrite I6, I5, I4, G3, I2, I1|].
  exists s7. split; [|split; [|split]].
  - by rewrite (bind_ok _ _ _ _ _ E1), (bind_ok _ _ _ _ _ E2), (bind_ok _ _ _ _ _ E3), (bind_ok _ _ _ _ _ E4), (bind_ok _ _ _ _ _ E5), (bind_ok _ _ _ _ _ E6).
  - repeat (eapply columns_only_trans; [eassumption|]). apply columns_only_refl.
  - intros []; rewrite I7.
    + by rewrite G6, G5, G4, I3, G2.
    + by rewrite G6, G5, G4, I3.
    + by rewrite G6, G5.
    + by rewrite G6.
    + done.
  - intros []; [by rewrite G7, I6, I5, I4|done].
Qed.

(** *** Moving rows *)

(** Row-indexed state of new rows, the same requests. *)
Lemma rows_sampling s s' rows rows' : sampling_ok s rows -> (forall e, here rows' e <-> here rows e) ->
  sets s' = sets s -> num_logprobs s' = num_logprobs s -> logprob_ids s' = logprob_ids s -> mask_shape (allowed_token_ids_mask s') ->
  (forall c, length (floats s' c) = N) -> (forall c, length (ints s' c) = N) ->
  (forall i e p, rows' !! i = Some (Some e) -> params_of e = Some p -> (forall c, floats s' c !! i = Some (float_of p c)) /\ forall c, ints s' c !! i = Some (int_of e p c)) ->
  (forall z, generators s' !! z = row_at rows' z ≫= fun e => rs_generator (en_request e)) ->
  (forall z, bad_words s' !! z = row_at rows' z ≫= bad_words_of) -> sampling_ok s' rows'.
Proof.
  intros [S1 S2 S3 S4 S5 S6 S7 S8 S9 S10] Hh Es El Ei Hm Hlf Hli Hrow Hg Hb. split; try done.
  - intros i e p c Hi Hp. by apply (Hrow i e p).
  - intros i e p c Hi Hp. by apply (Hrow i e p).
  - intros c id. rewrite Es, S5. by setoid_rewrite Hh.
  - intros id n. rewrite El, S8. by setoid_rewrite Hh.
  - intros id l. rewrite Ei, S9. by setoid_rewrite Hh.
Qed.

Lemma mask_copy_ok s (a b : nat) : mask_shape (allowed_token_ids_mask s) -> is_Some (allowed_token_ids_mask s) -> (a < N)%nat -> (b < N)%nat ->
  exists m, Sampling.copy_mask_row (Z.of_nat a) (Z.of_nat b) s = (Ok tt, Sampling.set_mask (Some m) s) /\ mask_shape (Some m).
Proof.
  intros Hs [m Hm] Ha Hb. destruct (Hs m Hm) as [Hl Hw]. destruct (lookup_lt_is_Some_2 m a) as [row Hrow]; [lia|].
  exists (<[b := row]> m). split.
  - unfold Sampling.copy_mask_row. erewrite bind_ok by (apply (load_ok _ (Z.of_nat a) row); [lia|by rewrite Hm, Nat2Z.id]).
    rewrite store_ok by (rewrite Hm; cbn; unfold zlen; lia). by rewrite Hm, Nat2Z.id.
  - intros l [= <-]. rewrite length_insert. split; [done|]. intros i r. rewrite list_lookup_insert. case_decide; [intros [= <-]; by eapply Hw|apply Hw].
Qed.

Lemma lookup_move_dict {A} (m : gmap Z A) (last empty z : Z) : last ≠ empty -> m !! empty = None ->
  Sampling.move_dict last empty m !! z = if decide (z = empty) then m !! last else if decide (z = last) then None else m !! z.
Proof.
  intros Hne He. unfold Sampling.move_dict. destruct (m !! last) as [v|] eqn:Ev.
  - destruct (decide (z = empty)) as [->|H1]; [by rewrite lookup_insert_eq|]. rewrite lookup_insert_ne by done.
    destruct (decide (z = last)) as [->|H2]; [by rewrite lookup_delete_eq|by rewrite lookup_delete_ne].
  - repeat case_decide; subst; try done; congruence.
Qed.

Lemma row_at_slide rows last empty e z : last ≠ empty -> rows !! last = Some (Some e) -> rows !! empty = Some None ->
  row_at (slide_row last empty rows) z = if decide (z = Z.of_nat empty) then Some e else if decide (z = Z.of_nat last) then None else row_at rows z.
Proof.
  intros Hne Hl He. unfold row_at. rewrite (lookup_slide_row last empty rows e) by done. destruct (0 <=? z) eqn:Ez.
  - destruct (decide (z = Z.of_nat empty)) as [->|H1]; [by rewrite Nat2Z.id, decide_True|]. rewrite decide_False by lia.
    destruct (decide (z = Z.of_nat last)) as [->|H2]; [by rewrite Nat2Z.id, decide_True|]. by rewrite decide_False by lia.
  - by rewrite !decide_False by lia.
Qed.

Lemma row_at_swap rows i1 i2 e1 e2 z : i1 ≠ i2 -> rows !! i1 = Some (Some e1) -> rows !! i2 = Some (Some e2) ->
  row_at (swap_rows i1 i2 rows) z = if decide (z = Z.of_nat i1) then Some e2 else if decide (z = Z.of_nat i2) then Some e1 else row_at rows z.
Proof.
  intros Hne H1 H2. unfold row_at. rewrite (lookup_swap_rows i1 i2 rows _ _ _ Hne H1 H2). destruct (0 <=? z) eqn:Ez.
  - destruct (decide (z = Z.of_nat i1)) as [->|H3]; [by rewrite Nat2Z.id, decide_True|]. rewrite decide_False by lia.
    destruct (decide (z = Z.of_nat i2)) as [->|H4]; [by rewrite Nat2Z.id, decide_True|]. by rewrite decide_False by lia.
  - by rewrite !decide_False by lia.
Qed.

Lemma slide_sampling_ok s rows last empty e p : sampling_ok s rows -> (last < N)%nat -> (empty < N)%nat -> last ≠ empty ->
  rows !! last = Some (Some e) -> params_of e = Some p -> rows !! empty = Some None ->
  exists s', Sampling.slide (Z.of_nat last) (Z.of_nat empty) s = (Ok tt, s') /\ sampling_ok s' (slide_row last empty rows).
Proof.
  intros Hs Hln Hen Hne Hl Hp He. pose proof Hs as [S1 S2 S3 S4 S5 S6 S7 S8 S9 S10].
  destruct (each_column_ok (fun c => x ← load (fun s => floats s c) (Z.of_nat last); store (fun s => floats s c) (Sampling.set_float c) (Z.of_nat empty) x)
    (fun c => x ← load (fun s => ints s c) (Z.of_nat last); store (fun s => ints s c) (Sampling.set_int c) (Z.of_nat empty) x)
    (fun c => <[empty := float_of p c]> (floats s c)) (fun c => <[empty := int_of e p c]> (ints s c)) s) as (s1 & E1 & (C1 & C2 & C3 & C4 & C5 & C6) & F1 & I1).
  { intros c u Hu. eexists. split.
    - erewrite bind_ok by (apply (load_ok (fun s => floats s c) _ (float_of p c)); [lia|rewrite Hu, Nat2Z.id; by eapply S2]).
      apply (store_ok (fun s => floats s c)). unfold zlen. rewrite Hu, S1. lia.
    - rewrite float_eq, Hu, Nat2Z.id. split; [by split_and!|]. split; [done|]. split; [intros; by rewrite float_ne|done]. }
  { intros c u Hu. eexists. split.
    - erewrite bind_ok by (apply (load_ok (fun s => ints s c) _ (int_of e p c)); [lia|rewrite Hu, Nat2Z.id; by eapply S4]).
      apply (store_ok (fun s => ints s c)). unfold zlen. rewrite Hu, S3. lia.
    - rewrite int_eq, Hu, Nat2Z.id. split; [by split_and!|]. split; [done|]. split; [intros; by rewrite int_ne|done]. }
  set (s2 := Sampling.set_generators (Sampling.move_dict (Z.of_nat last) (Z.of_nat empty) (generators s1)) s1).
  assert (exists s3, match allowed_token_ids_mask s2 with None => mret tt | Some _ => Sampling.copy_mask_row (Z.of_nat last) (Z.of_nat empty) end s2 = (Ok tt, s3)
    /\ mask_shape (allowed_token_ids_mask s3) /\ floats s3 = floats s2 /\ ints s3 = ints s2 /\ sets s3 = sets s2 /\ generators s3 = generators s2
    /\ num_logprobs s3 = num_logprobs s2 /\ logprob_ids s3 = logprob_ids s2 /\ bad_words s3 = bad_words s2) as (s3 & E3 & M3 & X1 & X2 & X3 & X4 & X5 & X6 & X7).
  { assert (mask_shape (allowed_token_ids_mask s2)) as Hm by (cbn; by rewrite C5). destruct (allowed_token_ids_mask s2) as [m|] eqn:Em.
    - destruct (mask_copy_ok s2 last empty) as (m' & Ec & Hm'); [by rewrite Em|by rewrite Em|done|done|]. eexists. split; [exact Ec|]. by split_and!.
    - exists s2. rewrite Em. by split_and!. }
  assert (row_at rows (Z.of_nat empty) = None) as Hfree by (rewrite row_at_nat; by rewrite He).
  assert (row_at rows (Z.of_nat last) = Some e) as Hlast by (rewrite row_at_nat; by rewrite Hl).
  eexists. split.
  - unfold Sampling.slide. rewrite (bind_ok _ _ _ _ _ E1). erewrite bind_ok by reflexivity. erewrite bind_ok by reflexivity. fold s2.
    rewrite (bind_ok _ _ _ _ _ E3). reflexivity.
  - apply (rows_sampling s _ rows); cbn [Sampling.set_bad_words sets num_logprobs logprob_ids allowed_token_ids_mask floats ints generators bad_words]; try done.
    + intros e'. by apply here_slide with e.
    + by rewrite X3.
    + by rewrite X5.
    + by rewrite X6.
    + intros c. rewrite X1. cbn. by rewrite F1, length_insert.
    + intros c. rewrite X2. cbn. by rewrite I1, length_insert.
    + intros i e' p'. rewrite (lookup_slide_row last empty rows e) by done. rewrite X1, X2. cbn [s2 Sampling.set_generators floats ints]. case_decide as Hi.
      * intros [= <-] Hp'. assert (p' = p) as -> by congruence. subst i.
        split; intros c; [rewrite F1; apply list_lookup_insert_eq; by rewrite S1|rewrite I1; apply list_lookup_insert_eq; by rewrite S3].
      * case_decide; [done|]. intros Hi' Hp'. split; intros c; [rewrite F1|rewrite I1]; rewrite list_lookup_insert_ne by done; eauto.
    + intros z. rewrite X4. cbn [s2 Sampling.set_generators generators]. rewrite C2, (row_at_slide rows last empty e) by done. rewrite lookup_move_dict by (lia || by rewrite S6, Hfree).
      rewrite !S6, Hlast. by repeat case_decide.
    + intros z. rewrite X7. cbn [s2 Sampling.set_generators bad_words]. rewrite C6, (row_at_slide rows last empty e) by done. rewrite lookup_move_dict by (lia || by rewrite S7, Hfree).
      rewrite !S7, Hlast. by repeat case_decide.
Qed.

Lemma swap_sampling_ok s rows i1 i2 e1 e2 p1 p2 : sampling_ok s rows -> (i1 < N)%nat -> (i2 < N)%nat -> i1 ≠ i2 ->
  rows !! i1 = Some (Some e1) -> rows !! i2 = Some (Some e2) -> params_of e1 = Some p1 -> params_of e2 = Some p2 ->
  exists s', Sampling.swap_rows (Z.of_nat i1) (Z.of_nat i2) s = (Ok tt, s') /\ sampling_ok s' (swap_rows i1 i2 rows).
Proof.
  intros Hs Hi1 Hi2 Hne H1 H2 Hp1 Hp2. pose proof Hs as [S1 S2 S3 S4 S5 S6 S7 S8 S9 S10].
  destruct (each_column_ok (fun c => Ids.swap (fun s => floats s c) (Sampling.set_float c) (Z.of_nat i1) (Z.of_nat i2))
    (fun c => Ids.swap (fun s => ints s c) (Sampling.set_int c) (Z.of_nat i1) (Z.of_nat i2))
    (fun c => <[i2 := float_of p1 c]> (<[i1 := float_of p2 c]> (floats s c))) (fun c => <[i2 := int_of e1 p1 c]> (<[i1 := int_of e2 p2 c]> (ints s c))) s)
    as (s1 & E1 & (C1 & C2 & C3 & C4 & C5 & C6) & F1 & I1).
  { intros c u Hu. eexists. split.
    - unfold Ids.swap. erewrite bind_ok by (apply (load_ok (fun s => floats s c) _ (float_of p2 c)); [lia|rewrite Hu, Nat2Z.id; by eapply S2]).
      erewrite bind_ok by (apply (load_ok (fun s => floats s c) _ (float_of p1 c)); [lia|rewrite Hu, Nat2Z.id; by eapply S2]).
      erewrite bind_ok by (apply (store_ok (fun s => floats s c)); unfold zlen; rewrite Hu, S1; lia).
      apply (store_ok (fun s => floats s c)). rewrite float_eq. unfold zlen. rewrite length_insert, Hu, S1. lia.
    - rewrite !float_eq, Hu, !Nat2Z.id. split; [by split_and!|]. split; [done|]. split; [intros; by rewrite !float_ne|done]. }
  { intros c u Hu. eexists. split.
    - unfold Ids.swap. erewrite bind_ok by (apply (load_ok (fun s => ints s c) _ (int_of e2 p2 c)); [lia|rewrite Hu, Nat2Z.id; by eapply S4]).
      erewrite bind_ok by (apply (load_ok (fun s => ints s c) _ (int_of e1 p1 c)); [lia|rewrite Hu, Nat2Z.id; by eapply S4]).
      erewrite bind_ok by (apply (store_ok (fun s => ints s c)); unfold zlen; rewrite Hu, S3; lia).
      apply (store_ok (fun s => ints s c)). rewrite int_eq. unfold zlen. rewrite length_insert, Hu, S3. lia.
    - rewrite !int_eq, Hu, !Nat2Z.id. split; [by split_and!|]. split; [done|]. split; [intros; by rewrite !int_ne|done]. }
  set (s2 := Sampling.set_bad_words (Toks.swap_dict_values (Z.of_nat i1) (Z.of_nat i2) (bad_words s1))
    (Sampling.set_generators (Toks.swap_dict_values (Z.of_nat i1) (Z.of_nat i2) (generators s1)) s1)).
  assert (exists s3, match allowed_token_ids_mask s2 with None => mret tt
      | Some _ => Sampling.copy_mask_row (Z.of_nat i2) (Z.of_nat i1) ;; Sampling.copy_mask_row (Z.of_nat i1) (Z.of_nat i2) end s2 = (Ok tt, s3)
    /\ mask_shape (allowed_token_ids_mask s3) /\ floats s3 = floats s2 /\ ints s3 = ints s2 /\ sets s3 = sets s2 /\ generators s3 = generators s2
    /\ num_logprobs s3 = num_logprobs s2 /\ logprob_ids s3 = logprob_ids s2 /\ bad_words s3 = bad_words s2) as (s3 & E3 & M3 & X1 & X2 & X3 & X4 & X5 & X6 & X7).
  { assert (mask_shape (allowed_token_ids_mask s2)) as Hm by (cbn; by rewrite C5). destruct (allowed_token_ids_mask s2) as [m|] eqn:Em.
    - destruct (mask_copy_ok s2 i2 i1) as (m' & Ec & Hm'); [by rewrite Em|by rewrite Em|done|done|].
      destruct (mask_copy_ok (Sampling.set_mask (Some m') s2) i1 i2) as (m2 & Ec2 & Hm2); [done|by eexists|done|done|].
      eexists. split; [erewrite bind_ok by exact Ec; exact Ec2|]. by split_and!.
    - exists s2. rewrite Em. by split_and!. }
  assert (row_at rows (Z.of_nat i1) = Some e1) as Hr1 by (rewrite row_at_nat; by rewrite H1).
  assert (row_at rows (Z.of_nat i2) = Some e2) as Hr2 by (rewrite row_at_nat; by rewrite H2).
  exists s3. split.
  - unfold Sampling.swap_rows. rewrite (bind_ok _ _ _ _ _ E1). erewrite bind_ok by reflexivity. erewrite bind_ok by reflexivity. erewrite bind_ok by reflexivity. exact E3.
  - apply (rows_sampling s _ rows); try done.
    + intros e'. by apply here_swap with e1 e2.
    + by rewrite X3.
    + by rewrite X5.
    + by rewrite X6.
    + intros c. rewrite X1. cbn. by rewrite F1, !length_insert.
    + intros c. rewrite X2. cbn. by rewrite I1, !length_insert.
    + intros i e' p'. rewrite (lookup_swap_rows i1 i2 rows _ _ i Hne H1 H2). rewrite X1, X2. cbn [s2 Sampling.set_bad_words Sampling.set_generators floats ints]. intros Hi Hp'.
      split; intros c; rewrite ?F1, ?I1, lookup_swapped by (rewrite ?S1, ?S3; done); repeat case_decide; simplify_eq; try done; eauto.
    + intros z. rewrite X4. cbn [s2 Sampling.set_bad_words Sampling.set_generators generators]. rewrite C2, (row_at_swap rows i1 i2 e1 e2) by done.
      rewrite lookup_swap_dict by lia. rewrite !S6, Hr1, Hr2. by repeat case_decide.
    + intros z. rewrite X7. cbn [s2 Sampling.set_bad_words bad_words]. rewrite C6, (row_at_swap rows i1 i2 e1 e2) by done.
      rewrite lookup_swap_dict by lia. rewrite !S7, Hr1, Hr2. by repeat case_decide.
Qed.

(** *** Requests that go *)

(** Only the sets change. *)
Definition sets_only (s s' : SamplingRows) : Prop :=
  floats s' = floats s /\ ints s' = ints s /\ generators s' = generators s /\ num_logprobs s' = num_logprobs s /\ logprob_ids s' = logprob_ids s
  /\ allowed_token_ids_mask s' = allowed_token_ids_mask s /\ bad_words s' = bad_words s.

Lemma discards_ok l id s : exists s', mfor l (fun c => Sampling.discard c id) s = (Ok tt, s') /\ sets_only s s'
  /\ forall c x, x ∈ sets s' c <-> x ∈ sets s c /\ (c ∈ l -> x ≠ id).
Proof.
  revert s. induction l as [|c l IH]; intros s.
  - exists s. split; [done|]. split; [by split_and!|]. intros c x. split; [intros ?; split; [done|by intros ?%elem_of_nil]|by intros [? _]].
  - cbn [mfor]. unfold Sampling.discard at 1. erewrite bind_ok by reflexivity. destruct (IH (Sampling.set_set c (sets s c ∖ {[ id ]}) s)) as (s' & E & Ho & Hs).
    exists s'. split; [exact E|]. split; [exact Ho|]. intros c' x. rewrite Hs. cbn. rewrite elem_of_cons. destruct (decide (c' = c)) as [->|Hc].
    + rewrite elem_of_difference, elem_of_singleton. split; [intros [[? ?] ?]; split; [done|by intros _]|]. intros [? H1]. split; [split; [done|apply H1; by left]|]. intros Hin. apply H1. by right.
    + split; intros [? H1]; (split; [done|]); [intros [->|Hin]; [done|by apply H1]|intros Hin; apply H1; by right].
Qed.

Lemma row_at_clear rows i z : (i < length rows)%nat -> row_at (<[i := None]> rows) z = if decide (z = Z.of_nat i) then None else row_at rows z.
Proof.
  intros Hi. unfold row_at. destruct (0 <=? z) eqn:Ez; [|by case_decide]. destruct (decide (z = Z.of_nat i)) as [->|Hz].
  - by rewrite Nat2Z.id, list_lookup_insert_eq.
  - by rewrite list_lookup_insert_ne by lia.
Qed.

(** What is kept by id, after a request has gone. *)
Lemma by_id_clear {A} (m : gmap string A) (f : entry -> option A) rows i e : distinct rows -> rows !! i = Some (Some e) ->
  (forall id x, m !! id = Some x <-> exists e', here rows e' /\ en_id e' = id /\ f e' = Some x) ->
  forall id x, delete (en_id e) m !! id = Some x <-> exists e', here (<[i := None]> rows) e' /\ en_id e' = id /\ f e' = Some x.
Proof.
  intros Hd Hi Hm id x. setoid_rewrite (here_clear i e rows _ Hd Hi). rewrite lookup_delete. case_decide as Hid.
  - split; [done|]. intros (e' & [_ Hne] & He & _). congruence.
  - rewrite Hm. split; intros (e' & He & Heid & Hf); exists e'; [split; [split; [done|congruence]|done]|].
    destruct He as [He _]. done.
Qed.

Lemma remove_sampling_ok s rows i e : sampling_ok s rows -> distinct rows -> (i < N)%nat -> rows !! i = Some (Some e) ->
  exists s', Sampling.remove (en_id e) (Z.of_nat i) s = (Ok tt, s') /\ sampling_ok s' (<[i := None]> rows).
Proof.
  intros Hs Hd HiN Hi. pose proof Hs as [S1 S2 S3 S4 S5 S6 S7 S8 S9 S10]. pose proof (lookup_lt_Some _ _ _ Hi) as Hlt.
  destruct (discards_ok [greedy_reqs; random_reqs; top_p_reqs; top_k_reqs; frequency_penalties_reqs; presence_penalties_reqs; repetition_penalties_reqs] (en_id e) s)
    as (s1 & E1 & (A1 & A2 & A3 & A4 & A5 & A6 & A7) & D1).
  set (s2 := Sampling.set_prev (delete (en_id e) <$> prev_req_id_to_index s1) (Sampling.set_in_progress (delete (en_id e) (in_progress_prompt_logprobs_cpu s1))
    (Sampling.set_logprob_ids (delete (en_id e) (logprob_ids s1)) (Sampling.set_num_logprobs (delete (en_id e) (num_logprobs s1)) (Sampling.set_generators (delete (Z.of_nat i) (generators s1)) s1))))).
  set (s3 := Sampling.set_set has_allowed_token_ids (sets s2 has_allowed_token_ids ∖ {[ en_id e ]}) s2).
  assert (exists s4, match allowed_token_ids_mask s3 with
    | None => mret tt
    | Some mask => row ← lift_res (py_get mask (Z.of_nat i)); mask ← lift_res (py_set mask (Z.of_nat i) (replicate (length row) false)); modify (Sampling.set_mask (Some mask))
    end s3 = (Ok tt, s4) /\ mask_shape (allowed_token_ids_mask s4) /\ floats s4 = floats s3 /\ ints s4 = ints s3 /\ sets s4 = sets s3 /\ generators s4 = generators s3
    /\ num_logprobs s4 = num_logprobs s3 /\ logprob_ids s4 = logprob_ids s3 /\ bad_words s4 = bad_words s3) as (s4 & E4 & M4 & X1 & X2 & X3 & X4 & X5 & X6 & X7).
  { assert (mask_shape (allowed_token_ids_mask s3)) as Hm by (cbn; by rewrite A6). destruct (allowed_token_ids_mask s3) as [m|] eqn:Em; [|exists s3; rewrite Em; by split_and!].
    destruct (Hm m eq_refl) as [Hl Hw]. destruct (lookup_lt_is_Some_2 m i) as [row Hrow]; [lia|]. eexists. split.
    - unfold lift_res. rewrite py_get_nonneg, Nat2Z.id, Hrow by lia. erewrite bind_ok by reflexivity. rewrite py_set_nonneg by (unfold zlen; lia). by erewrite bind_ok by reflexivity.
    - split_and!; try done. intros l [= <-]. rewrite length_insert. split; [done|]. intros j r. rewrite list_lookup_insert, Nat2Z.id.
      case_decide; [intros [= <-]; unfold zlen; rewrite length_replicate; by apply (Hw i row)|apply Hw]. }
  eexists. split.
  - unfold Sampling.remove. rewrite (bind_ok _ _ _ _ _ E1). do 5 erewrite bind_ok by reflexivity. unfold Sampling.discard. erewrite bind_ok by reflexivity. erewrite bind_ok by reflexivity.
    fold s2 s3. rewrite (bind_ok _ _ _ _ _ E4). reflexivity.
  - assert (forall j e', <[i := None]> rows !! j = Some (Some e') -> rows !! j = Some (Some e')) as Hold by (intros j e'; rewrite list_lookup_insert; by case_decide).
    split; cbn [Sampling.set_bad_words sets num_logprobs logprob_ids allowed_token_ids_mask floats ints generators bad_words]; rewrite ?X1, ?X2, ?X3, ?X4, ?X5, ?X6, ?X7.
    + intros c. cbn. by rewrite A1.
    + intros j e' p' c Hj. cbn. rewrite A1. apply S2. by apply Hold.
    + intros c. cbn. by rewrite A2.
    + intros j e' p' c Hj. cbn. rewrite A2. apply S4. by apply Hold.
    + intros c id. assert (id ∈ sets s3 c <-> id ∈ sets s c /\ id ≠ en_id e) as ->.
      { unfold s3. cbn [Sampling.set_set sets]. destruct (decide (c = has_allowed_token_ids)) as [->|Hc].
        - rewrite elem_of_difference, elem_of_singleton. change (sets s2) with (sets s1). rewrite D1. split; [tauto|]. intros [? ?]. split; [split; [done|by intros _]|done].
        - change (sets s2) with (sets s1). rewrite D1. assert (c ∈ [greedy_reqs; random_reqs; top_p_reqs; top_k_reqs; frequency_penalties_reqs; presence_penalties_reqs; repetition_penalties_reqs]) by
            (destruct c; try done; rewrite !elem_of_cons; tauto). tauto. }
      rewrite S5. setoid_rewrite (here_clear i e rows _ Hd Hi). split.
      * intros [(e' & p' & He & Hid & Hp & Hin) Hne]. exists e', p'. split; [split; [done|congruence]|done].
      * intros (e' & p' & [He Hne] & Hid & Hp & Hin). split; [by exists e', p'|congruence].
    + intros z. cbn. rewrite A3, lookup_delete, row_at_clear, S6 by done. repeat case_decide; try done; congruence.
    + intros z. cbn. rewrite A7, lookup_delete, row_at_clear, S7 by done. repeat case_decide; try done; congruence.
    + cbn. rewrite A4. by apply by_id_clear.
    + cbn. rewrite A5. by apply by_id_clear.
    + exact M4.
Qed.

(** *** New requests *)

Definition maybe_add (b : bool) (c : req_set) (id : string) (s : SamplingRows) : SamplingRows :=
  if b then Sampling.set_set c (sets s c ∪ {[ id ]}) s else s.

Lemma cond_add (b : bool) c id s : (if b then Sampling.add_to c id else mret tt : M SamplingRows unit) s = (Ok tt, maybe_add b c id s).
Proof. by destruct b. Qed.

Lemma maybe_in b c id s c' x : x ∈ sets (maybe_add b c id s) c' <-> x ∈ sets s c' \/ (c' = c /\ b = true /\ x = id).
Proof.
  unfold maybe_add. destruct b; [|naive_solver]. cbn. destruct (decide (c' = c)) as [->|Hc]; [rewrite elem_of_union, elem_of_singleton; naive_solver|naive_solver].
Qed.

Lemma maybe_only b c id s : sets_only s (maybe_add b c id s).
Proof. unfold maybe_add. by destruct b; split_and!. Qed.

Lemma put_float_ok c (i : nat) x s : length (floats s c) = N -> (i < N)%nat ->
  Sampling.put_float c (Z.of_nat i) x s = (Ok tt, Sampling.set_float c (<[i := x]> (floats s c)) s).
Proof. intros Hl Hi. unfold Sampling.put_float. rewrite (store_ok (fun s => floats s c)); [by rewrite Nat2Z.id|unfold zlen; lia]. Qed.

Lemma put_int_ok c (i : nat) x s : length (ints s c) = N -> (i < N)%nat -> Table.is_int32 x = true ->
  Sampling.put_int c (Z.of_nat i) x s = (Ok tt, Sampling.set_int c (<[i := x]> (ints s c)) s).
Proof. intros Hl Hi Hx. unfold Sampling.put_int. rewrite Hx. rewrite (store_ok (fun s => ints s c)); [by rewrite Nat2Z.id|unfold zlen; lia]. Qed.

(** Nothing but the mask changes. *)
Definition mask_only (s s' : SamplingRows) : Prop :=
  floats s' = floats s /\ ints s' = ints s /\ sets s' = sets s /\ generators s' = generators s /\ num_logprobs s' = num_logprobs s
  /\ logprob_ids s' = logprob_ids s /\ bad_words s' = bad_words s.

Lemma unmask_ok row l : Forall (fun i => 0 <= i < zlen row) l -> exists row', Sampling.unmask row l = Ok row' /\ zlen row' = zlen row.
Proof.
  revert row. induction l as [|i l IH]; intros row Hl; cbn [Sampling.unmask]; [by exists row|]. apply Forall_cons in Hl as [Hi Hl].
  rewrite py_set_nonneg by done. cbn [mbind res_bind]. assert (zlen (<[Z.to_nat i := false]> row) = zlen row) as Hz by (unfold zlen; by rewrite length_insert).
  destruct (IH (<[Z.to_nat i := false]> row)) as (row' & E & Hr); [by rewrite Hz|]. exists row'. by rewrite Hr.
Qed.

Lemma allow_only_ok max_reqs (i : nat) l s : Z.to_nat max_reqs = N -> 0 <= V -> (i < N)%nat -> Forall (fun t => 0 <= t < V) l -> mask_shape (allowed_token_ids_mask s) ->
  exists s', Sampling.allow_only max_reqs V (Z.of_nat i) l s = (Ok tt, s') /\ mask_shape (allowed_token_ids_mask s') /\ mask_only s s'.
Proof.
  intros HN HV Hi Hl Hm. unfold Sampling.allow_only.
  set (s1 := match allowed_token_ids_mask s with Some _ => s | None => Sampling.set_mask (Some (replicate (Z.to_nat max_reqs) (replicate (Z.to_nat V) false))) s end).
  assert (exists m, allowed_token_ids_mask s1 = Some m /\ mask_shape (Some m) /\ mask_only s s1) as (m & Em & Hm1 & Ho).
  { unfold s1. destruct (allowed_token_ids_mask s) as [m|] eqn:Es; [exists m; by split_and!|]. eexists. split; [reflexivity|]. split; [|by split_and!].
    intros l' [= <-]. rewrite length_replicate. split; [done|]. intros j r [-> _]%lookup_replicate_1. unfold zlen. rewrite length_replicate. lia. }
  erewrite (bind_ok _ _ s tt s1) by (unfold modify, s1; by destruct (allowed_token_ids_mask s)). erewrite bind_ok by reflexivity. rewrite Em. cbn [default from_option].
  destruct (Hm1 m eq_refl) as [Hlen Hw]. destruct (lookup_lt_is_Some_2 m i) as [row Hrow]; [lia|]. pose proof (Hw i row Hrow) as Hrw.
  unfold lift_res. cbn [id]. rewrite py_get_nonneg, Nat2Z.id, Hrow by lia. erewrite bind_ok by reflexivity. rewrite py_set_nonneg by (unfold zlen; lia). erewrite bind_ok by reflexivity.
  erewrite bind_ok by reflexivity. rewrite Nat2Z.id.
  destruct (unmask_ok (replicate (length row) true) l) as (row' & Er & Hr'); [unfold zlen in *; by rewrite length_replicate, Hrw|]. rewrite Er. erewrite bind_ok by reflexivity.
  rewrite py_set_nonneg by (unfold zlen; rewrite length_insert; lia). erewrite bind_ok by reflexivity. eexists. split; [reflexivity|]. split; [|exact Ho].
  intros l' [= <-]. rewrite !length_insert. split; [done|]. intros j r. rewrite Nat2Z.id, list_insert_insert_eq, list_lookup_insert. case_decide; [|apply Hw]. intros [= <-].
  rewrite Hr'. unfold zlen in *. by rewrite length_replicate.
Qed.

(** Parameters that fit: token ids of the vocabulary. *)
Definition params_fit (p : WorkerParams) : Prop :=
  Table.is_int32 V = true /\ 0 <= V /\ forall l, allowed_token_ids p = Some l -> Forall (fun t => 0 <= t < V) l.

Lemma row_at_put i e rows z : free_row i rows -> row_at (put_row i e rows) z = if decide (z = Z.of_nat i) then Some e else row_at rows z.
Proof.
  intros Hf. unfold row_at. rewrite lookup_put_row by done. destruct (0 <=? z) eqn:Ez; [|by rewrite decide_False by lia].
  destruct (decide (z = Z.of_nat i)) as [->|Hz]; [by rewrite Nat2Z.id, decide_True|]. by rewrite decide_False by lia.
Qed.

Lemma row_at_free i rows : free_row i rows -> row_at rows (Z.of_nat i) = None.
Proof. intros Hf. rewrite row_at_nat. destruct Hf as [->|Hf]; [by rewrite lookup_ge_None_2|by rewrite Hf]. Qed.

(** What is kept by id, with a new request. *)
Lemma by_id_put {A} (m m' : gmap string A) (f : entry -> option A) rows i e : free_row i rows -> (forall e', here rows e' -> en_id e' ≠ en_id e) ->
  (forall id x, m !! id = Some x <-> exists e', here rows e' /\ en_id e' = id /\ f e' = Some x) ->
  m' = match f e with Some x => <[en_id e := x]> m | None => m end ->
  forall id x, m' !! id = Some x <-> exists e', here (put_row i e rows) e' /\ en_id e' = id /\ f e' = Some x.
Proof.
  intros Hf Hfresh Hm -> id x. setoid_rewrite (here_put i e rows _ Hf).
  assert (m !! id = Some x <-> exists e', (here rows e') /\ en_id e' = id /\ f e' = Some x) as Hm' by apply Hm.
  destruct (f e) as [y|] eqn:Ey.
  - rewrite lookup_insert. case_decide as Hid.
    + subst id. split; [intros [= <-]; exists e; eauto|]. intros (e' & [->|He] & Hid & Hx); [congruence|]. exfalso. by apply (Hfresh e').
    + rewrite Hm'. split; [intros (e' & He & ? & ?); exists e'; eauto|]. intros (e' & [->|He] & Hid' & Hx); [congruence|by exists e'].
  - rewrite Hm'. split; [intros (e' & He & ? & ?); exists e'; eauto|]. intros (e' & [->|He] & Hid' & Hx); [congruence|by exists e'].
Qed.

Lemma float_len c' (i : nat) x s : (forall c, length (floats s c) = N) -> forall c, length (floats (Sampling.set_float c' (<[i := x]> (floats s c')) s) c) = N.
Proof. intros Hl c. destruct (decide (c = c')) as [->|Hc]; [by rewrite float_eq, length_insert|by rewrite float_ne]. Qed.

(** The array columns and the sets, the first half of [copy]. *)
Lemma copy_columns_ok (s : SamplingRows) (i : nat) (p : WorkerParams) (id : string) : (forall c, length (floats s c) = N) -> (forall c, length (ints s c) = N) -> (i < N)%nat -> Table.is_int32 V = true -> (forall t, 0 < t < V -> Table.is_int32 t = true) ->
  exists s', (forall K : M SamplingRows unit, (match sampling_type p with
    | GREEDY => Sampling.put_float temperature_cpu (Z.of_nat i) 0%Q ;; Sampling.add_to greedy_reqs id
    | _ => Sampling.put_float temperature_cpu (Z.of_nat i) (to_float32 (temperature p)) ;; Sampling.add_to random_reqs id
    end ;;
    Sampling.put_float top_p_cpu (Z.of_nat i) (to_float32 (top_p p)) ;;
    (if negb (Qle_bool 1 (top_p p)) then Sampling.add_to top_p_reqs id else mret tt) ;;
    (if top_k_limits p then Sampling.add_to top_k_reqs id else mret tt) ;;
    Sampling.put_int top_k_cpu (Z.of_nat i) (if top_k_limits p then top_k p else V) ;;
    Sampling.put_float frequency_penalties_cpu (Z.of_nat i) (to_float32 (frequency_penalty p)) ;;
    (if Qneq (frequency_penalty p) 0 then Sampling.add_to frequency_penalties_reqs id else mret tt) ;;
    Sampling.put_float presence_penalties_cpu (Z.of_nat i) (to_float32 (presence_penalty p)) ;;
    (if Qneq (presence_penalty p) 0 then Sampling.add_to presence_penalties_reqs id else mret tt) ;;
    Sampling.put_float repetition_penalties_cpu (Z.of_nat i) (to_float32 (repetition_penalty p)) ;;
    (if Qneq (repetition_penalty p) 1 then Sampling.add_to repetition_penalties_reqs id else mret tt) ;; K) s = K s')
  /\ (forall c, floats s' c = <[i := float_of p c]> (floats s c)) /\ ints s' top_k_cpu = <[i := if top_k_limits p then top_k p else V]> (ints s top_k_cpu)
  /\ ints s' num_accepted_tokens_cpu = ints s num_accepted_tokens_cpu
  /\ (forall c x, x ∈ sets s' c <-> x ∈ sets s c \/ (c ≠ has_allowed_token_ids /\ in_set p c = true /\ x = id))
  /\ generators s' = generators s /\ num_logprobs s' = num_logprobs s /\ logprob_ids s' = logprob_ids s
  /\ allowed_token_ids_mask s' = allowed_token_ids_mask s /\ bad_words s' = bad_words s.
Proof.
  intros Hf Hi HiN HV Hk.
  set (s1 := maybe_add true (if greedy p then greedy_reqs else random_reqs) id (Sampling.set_float temperature_cpu (<[i := float_of p temperature_cpu]> (floats s temperature_cpu)) s)).
  assert (E1 : (match sampling_type p with
    | GREEDY => Sampling.put_float temperature_cpu (Z.of_nat i) 0%Q ;; Sampling.add_to greedy_reqs id
    | _ => Sampling.put_float temperature_cpu (Z.of_nat i) (to_float32 (temperature p)) ;; Sampling.add_to random_reqs id
    end) s = (Ok tt, s1)).
  { unfold s1, float_of, greedy. destruct (sampling_type p); by erewrite bind_ok by (by apply put_float_ok). }
  assert (forall (b : bool) (c : req_set) (id' : string) (u : SamplingRows), floats (maybe_add b c id' u) = floats u) as Fm by (intros b c id' u; by destruct b).
  assert (forall (b : bool) (c : req_set) (id' : string) (u : SamplingRows), ints (maybe_add b c id' u) = ints u) as Im by (intros b c id' u; by destruct b).
  assert (forall c, length (floats s1 c) = N) as L1.
  { intros c. unfold s1. rewrite Fm. by apply float_len. }
  set (s2 := maybe_add (top_k_limits p) top_k_reqs id (maybe_add (negb (Qle_bool 1 (top_p p))) top_p_reqs id (Sampling.set_float top_p_cpu (<[i := float_of p top_p_cpu]> (floats s1 top_p_cpu)) s1))).
  assert (forall c, length (floats s2 c) = N) as L2.
  { intros c. unfold s2. rewrite !Fm. by apply float_len. }
  set (s3 := Sampling.set_int top_k_cpu (<[i := if top_k_limits p then top_k p else V]> (ints s2 top_k_cpu)) s2).
  set (s4 := maybe_add (Qneq (frequency_penalty p) 0) frequency_penalties_reqs id (Sampling.set_float frequency_penalties_cpu (<[i := float_of p frequency_penalties_cpu]> (floats s3 frequency_penalties_cpu)) s3)).
  assert (forall c, length (floats s4 c) = N) as L4.
  { intros c. unfold s4. rewrite Fm. by apply float_len. }
  set (s5 := maybe_add (Qneq (presence_penalty p) 0) presence_penalties_reqs id (Sampling.set_float presence_penalties_cpu (<[i := float_of p presence_penalties_cpu]> (floats s4 presence_penalties_cpu)) s4)).
  assert (forall c, length (floats s5 c) = N) as L5.
  { intros c. unfold s5. rewrite Fm. by apply float_len. }
  set (s6 := maybe_add (Qneq (repetition_penalty p) 1) repetition_penalties_reqs id (Sampling.set_float repetition_penalties_cpu (<[i := float_of p repetition_penalties_cpu]> (floats s5 repetition_penalties_cpu)) s5)).
  exists s6. split; [|split; [|split; [|split; [|split]]]].
  - intros K. rewrite (bind_ok _ _ _ _ _ E1). erewrite bind_ok by (by apply put_float_ok). erewrite bind_ok by apply cond_add. erewrite bind_ok by apply cond_add. fold s2.
    erewrite bind_ok.
    2: { apply put_int_ok; [unfold s2; rewrite !Im; change (length (ints s1 top_k_cpu) = N); unfold s1; rewrite Im; apply Hi|done|]. destruct (top_k_limits p) eqn:Ek; [|done]. apply Hk. unfold top_k_limits in Ek. lia. }
    fold s3. erewrite bind_ok by (apply put_float_ok; [apply L2|done]). erewrite bind_ok by apply cond_add. fold s4. erewrite bind_ok by (by apply put_float_ok). erewrite bind_ok by apply cond_add. fold s5.
    erewrite bind_ok by (by apply put_float_ok). by erewrite bind_ok by apply cond_add.
  - intros []; unfold s6, s5, s4, s3, s2, s1; rewrite ?Fm; repeat first [rewrite float_eq | rewrite float_ne by done | rewrite Fm | progress cbn [Sampling.set_int floats]]; done.
  - unfold s6, s5, s4. rewrite ?Im. cbn [Sampling.set_float ints]. rewrite Im. cbn [Sampling.set_float ints]. rewrite Im. cbn [Sampling.set_float ints]. unfold s3. rewrite int_eq. unfold s2. rewrite !Im.
    cbn [Sampling.set_float ints]. unfold s1. by rewrite Im.
  - unfold s6, s5, s4. rewrite ?Im. cbn [Sampling.set_float ints]. rewrite Im. cbn [Sampling.set_float ints]. rewrite Im. cbn [Sampling.set_float ints]. unfold s3. rewrite int_ne by done. unfold s2. rewrite !Im.
    cbn [Sampling.set_float ints]. unfold s1. by rewrite Im.
  - intros c x. unfold s6. rewrite maybe_in. cbn [Sampling.set_float sets]. unfold s5. rewrite maybe_in. cbn [Sampling.set_float sets]. unfold s4. rewrite maybe_in. cbn [Sampling.set_float sets].
    change (sets s3) with (sets s2). unfold s2. rewrite !maybe_in. cbn [Sampling.set_float sets]. unfold s1. rewrite maybe_in. cbn [Sampling.set_float sets]. unfold in_set.
    destruct (greedy p), c; naive_solver.
  - assert (forall (b : bool) (c : req_set) (id' : string) (u : SamplingRows), generators (maybe_add b c id' u) = generators u /\ num_logprobs (maybe_add b c id' u) = num_logprobs u /\ logprob_ids (maybe_add b c id' u) = logprob_ids u
      /\ allowed_token_ids_mask (maybe_add b c id' u) = allowed_token_ids_mask u /\ bad_words (maybe_add b c id' u) = bad_words u) as Hm by (intros b c id' u; by destruct b).
    unfold s6, s5, s4, s3, s2, s1. split_and!; repeat (progress cbn [Sampling.set_float Sampling.set_int generators num_logprobs logprob_ids allowed_token_ids_mask bad_words]
      || rewrite (proj1 (Hm _ _ _ _)) || rewrite (proj1 (proj2 (Hm _ _ _ _))) || rewrite (proj1 (proj2 (proj2 (Hm _ _ _ _))))
      || rewrite (proj1 (proj2 (proj2 (proj2 (Hm _ _ _ _))))) || rewrite (proj2 (proj2 (proj2 (proj2 (Hm _ _ _ _)))))); done.
Qed.

(** [copy], and the count of accepted tokens that [add_request] sets. *)
Lemma copy_sampling_ok s rows i e p max_reqs : sampling_ok s rows -> (i < N)%nat -> free_row i rows -> (forall e', here rows e' -> en_id e' ≠ en_id e) ->
  params_of e = Some p -> params_fit p -> Z.to_nat max_reqs = N -> en_accepted e = 1 ->
  exists s1 s2, Sampling.copy max_reqs V (en_id e) p (rs_generator (en_request e)) (Z.of_nat i) s = (Ok tt, s1)
    /\ Sampling.put_int num_accepted_tokens_cpu (Z.of_nat i) 1 s1 = (Ok tt, s2) /\ sampling_ok s2 (put_row i e rows).
Proof.
  intros Hs HiN Hf Hfresh Hp (HV & HV0 & Hallowed) Hmax Hacc. pose proof Hs as [S1 S2 S3 S4 S5 S6 S7 S8 S9 S10].
  destruct (copy_columns_ok s i p (en_id e) S1 S3 HiN HV) as (s1 & E1 & F1 & I1 & I1' & D1 & A1 & A2 & A3 & A4 & A5).
  { intros t Ht. unfold Table.is_int32 in *. lia. }
  set (s2 := match rs_generator (en_request e) with Some g => Sampling.set_generators (<[Z.of_nat i := g]> (generators s1)) s1 | None => s1 end).
  set (s3 := match logprobs p with Some n => Sampling.set_num_logprobs (<[en_id e := if n =? -1 then V else n]> (num_logprobs s2)) s2 | None => s2 end).
  set (s4 := match logprob_token_ids p with Some l => Sampling.set_logprob_ids (<[en_id e := l]> (logprob_ids s3)) s3 | None => s3 end).
  assert (floats s4 = floats s1 /\ ints s4 = ints s1 /\ sets s4 = sets s1 /\ allowed_token_ids_mask s4 = allowed_token_ids_mask s1 /\ bad_words s4 = bad_words s1) as (B1 & B2 & B3 & B4 & B5).
  { unfold s4, s3, s2. destruct (logprob_token_ids p), (logprobs p), (rs_generator (en_request e)); by split_and!. }
  assert (generators s4 = match rs_generator (en_request e) with Some g => <[Z.of_nat i := g]> (generators s) | None => generators s end) as B6.
  { rewrite <- A1. unfold s4, s3, s2. destruct (logprob_token_ids p), (logprobs p), (rs_generator (en_request e)); done. }
  assert (num_logprobs s4 = match logprobs_of e with Some n => <[en_id e := n]> (num_logprobs s) | None => num_logprobs s end) as B7.
  { rewrite <- A2. unfold logprobs_of. rewrite Hp. unfold s4, s3, s2. destruct (logprob_token_ids p), (logprobs p), (rs_generator (en_request e)); done. }
  assert (logprob_ids s4 = match logprob_ids_of e with Some l => <[en_id e := l]> (logprob_ids s) | None => logprob_ids s end) as B8.
  { rewrite <- A3. unfold logprob_ids_of. rewrite Hp. unfold s4, s3, s2. destruct (logprob_token_ids p), (logprobs p), (rs_generator (en_request e)); done. }
  assert (exists s5, match allowed_token_ids p with
    | Some ((_ :: _) as l) => Sampling.add_to has_allowed_token_ids (en_id e) ;; Sampling.allow_only max_reqs V (Z.of_nat i) l
    | _ => mret tt end s4 = (Ok tt, s5) /\ mask_shape (allowed_token_ids_mask s5) /\ mask_only (maybe_add (in_set p has_allowed_token_ids) has_allowed_token_ids (en_id e) s4) s5)
    as (s5 & E5 & M5 & X1 & X2 & X3 & X4 & X5 & X6 & X7).
  { assert (mask_shape (allowed_token_ids_mask s4)) as Hm by (by rewrite B4, A4). cbn [in_set]. destruct (allowed_token_ids p) as [[|t l]|] eqn:Ea.
    - exists s4. split; [done|]. split; [done|by split_and!].
    - destruct (allow_only_ok max_reqs i (t :: l) (maybe_add true has_allowed_token_ids (en_id e) s4)) as (s5 & E5 & M5 & O5); try done; [by apply Hallowed|].
      exists s5. split; [|by split]. by erewrite bind_ok by reflexivity.
    - exists s4. split; [done|]. split; [done|by split_and!]. }
  set (s6 := match bad_words_token_ids p with Some ((_ :: _) as l) => Sampling.set_bad_words (<[Z.of_nat i := l]> (bad_words s5)) s5 | _ => s5 end).
  assert (floats s6 = floats s1 /\ ints s6 = ints s1 /\ generators s6 = generators s4 /\ num_logprobs s6 = num_logprobs s4 /\ logprob_ids s6 = logprob_ids s4
    /\ allowed_token_ids_mask s6 = allowed_token_ids_mask s5 /\ sets s6 = sets s5) as (C1 & C2 & C3 & C4 & C5 & C6 & C7).
  { destruct (maybe_only (in_set p has_allowed_token_ids) has_allowed_token_ids (en_id e) s4) as (Y1 & Y2 & Y3 & Y4 & Y5 & _).
    rewrite Y1, B1 in X1. rewrite Y2, B2 in X2. rewrite Y3 in X4. rewrite Y4 in X5. rewrite Y5 in X6.
    unfold s6. destruct (bad_words_token_ids p) as [[|]|]; by split_and!. }
  assert (bad_words s6 = match bad_words_of e with Some l => <[Z.of_nat i := l]> (bad_words s) | None => bad_words s end) as C8.
  { destruct (maybe_only (in_set p has_allowed_token_ids) has_allowed_token_ids (en_id e) s4) as (_ & _ & _ & _ & _ & _ & Y7).
    rewrite Y7, B5, A5 in X7. unfold s6, bad_words_of. rewrite Hp. destruct (bad_words_token_ids p) as [[|]|]; cbn; by rewrite ?X7. }
  exists s6. eexists. split; [|split].
  - unfold Sampling.copy. etransitivity; [apply E1|]. erewrite (bind_ok _ _ s1 tt s2) by (unfold modify, s2; by destruct (rs_generator (en_request e))).
    erewrite (bind_ok _ _ s2 tt s3) by (unfold modify, s3; by destruct (logprobs p)). erewrite (bind_ok _ _ s3 tt s4) by (unfold modify, s4; by destruct (logprob_token_ids p)).
    rewrite (bind_ok _ _ _ _ _ E5). unfold modify, s6. by destruct (bad_words_token_ids p) as [[|]|].
  - apply put_int_ok; [rewrite C2, I1'; apply S3|done|done].
  - assert (forall (c : int_column) (j : nat), ints (Sampling.set_int num_accepted_tokens_cpu (<[i := 1]> (ints s6 num_accepted_tokens_cpu)) s6) c !! j = if decide (j = i) then Some (int_of e p c) else ints s c !! j) as Hints.
    { intros c j. destruct (decide (c = num_accepted_tokens_cpu)) as [->|Hc].
      - rewrite int_eq, C2, I1', list_lookup_insert, S3. cbn [int_of]. rewrite Hacc. repeat case_decide; try done; naive_solver.
      - rewrite int_ne, C2 by done. destruct c; [|done]. rewrite I1, list_lookup_insert, S3. cbn [int_of]. repeat case_decide; try done; naive_solver. }
    split; cbn [Sampling.set_int sets num_logprobs logprob_ids allowed_token_ids_mask floats generators bad_words].
    + intros c. by rewrite C1, F1, length_insert.
    + intros j e' p' c. rewrite lookup_put_row, C1, F1 by done. case_decide as Hj.
      * intros [= <-] Hp'. simplify_eq. apply list_lookup_insert_eq. by rewrite S1.
      * intros Hj' Hp'. rewrite list_lookup_insert_ne by done. by apply (S2 j e').
    + intros c. destruct (decide (c = num_accepted_tokens_cpu)) as [->|Hc]; [by rewrite int_eq, C2, I1', length_insert|]. rewrite int_ne, C2 by done. destruct c; [|done]. by rewrite I1, length_insert.
    + intros j e' p' c. rewrite lookup_put_row, Hints by done. case_decide; [intros [= <-] Hp'; simplify_eq; done|intros; by apply (S4 j e')].
    + intros c id. rewrite C7, X3, maybe_in, B3, D1, S5. setoid_rewrite (here_put i e rows _ Hf). split.
      * intros [[(e' & p' & He & Hid & Hp' & Hin)|(_ & Hin & ->)]|(-> & Hin & ->)]; [exists e', p'; eauto|exists e, p; eauto|exists e, p; eauto].
      * intros (e' & p' & [->|He] & Hid & Hp' & Hin); [|left; left; by exists e', p']. simplify_eq. destruct (decide (c = has_allowed_token_ids)) as [->|Hc]; [by right|left; right; done].
    + intros z. rewrite C3, B6, row_at_put by done. pose proof (S6 (Z.of_nat i)) as Hfree. rewrite (row_at_free i rows Hf) in Hfree.
      destruct (decide (z = Z.of_nat i)) as [->|Hz]; cbn; destruct (rs_generator (en_request e)); rewrite ?lookup_insert_eq, ?lookup_insert_ne by done; done.
    + intros z. rewrite C8, row_at_put by done. pose proof (S7 (Z.of_nat i)) as Hfree. rewrite (row_at_free i rows Hf) in Hfree.
      destruct (decide (z = Z.of_nat i)) as [->|Hz]; cbn; destruct (bad_words_of e); rewrite ?lookup_insert_eq, ?lookup_insert_ne by done; done.
    + apply (by_id_put (num_logprobs s) _ logprobs_of); [done|done|done|]. by rewrite C4.
    + apply (by_id_put (logprob_ids s) _ logprob_ids_of); [done|done|done|]. by rewrite C5.
    + by rewrite C6.
Qed.

End sampling.
End BatchSampling.
