(* ===== verification/BatchHoles.v ===== *)
(** The holes of the persistent batch: the builder hands out the lowest first, and the search for
    the last request of [condense] ends. *)

From Stdlib Require Import QArith.
From stdpp Require Import gmap sorting.
From S2P Require Import Prelude Request BlockTable BatchUpdate InputBatch BatchRows BatchColumns.
Import BatchRows BatchColumns.
Local Open Scope Z_scope.

Module BatchHoles.

(** ** Holes *)

(** The indices of the rows whose request has gone. *)
Fixpoint holes_from (k : nat) (rows : rows_of) : list Z :=
  match rows with
  | [] => []
  | None :: rows => Z.of_nat k :: holes_from (S k) rows
  | Some _ :: rows => holes_from (S k) rows
  end.

Lemma elem_of_holes_from k rows z : z ∈ holes_from k rows <-> exists i, z = Z.of_nat (k + i) /\ rows !! i = Some None.
Proof.
  revert k. induction rows as [|[e|] rows IH]; intros k; cbn [holes_from].
  - split; [by intros ?%elem_of_nil|]. intros (i & _ & H). by rewrite lookup_nil in H.
  - rewrite IH. split; intros (i & -> & Hi); [exists (S i); split; [f_equal; lia|done]|]. destruct i as [|i]; [done|]. exists i. split; [f_equal; lia|done].
  - rewrite elem_of_cons, IH. split.
    + intros [->|(i & -> & Hi)]; [exists 0%nat; split; [f_equal; lia|done]|exists (S i); split; [f_equal; lia|done]].
    + intros (i & -> & Hi). destruct i as [|i]; [left; f_equal; lia|right; exists i; split; [f_equal; lia|done]].
Qed.

Lemma NoDup_holes_from k rows : NoDup (holes_from k rows).
Proof.
  revert k. induction rows as [|[e|] rows IH]; intros k; cbn [holes_from]; [constructor|done|]. constructor; [|done].
  rewrite elem_of_holes_from. intros (i & Hi & _). lia.
Qed.

Definition hole (rows : rows_of) (z : Z) : Prop := 0 <= z /\ rows !! Z.to_nat z = Some None.

Lemma elem_of_holes rows z : z ∈ holes_from 0 rows <-> hole rows z.
Proof.
  rewrite elem_of_holes_from. unfold hole. split; [intros (i & -> & Hi); split; [lia|by rewrite Nat2Z.id]|].
  intros [H1 H2]. exists (Z.to_nat z). split; [lia|done].
Qed.

(** The requests in the rows. *)
Definition present (rows : rows_of) : list entry := omap id rows.

Lemma elem_of_present rows e : e ∈ present rows <-> here rows e.
Proof.
  unfold present, here. rewrite list_elem_of_omap. setoid_rewrite list_elem_of_lookup. split.
  - intros (o & [i Hi] & Ho). exists i. by rewrite Hi, <- Ho.
  - intros [i Hi]. exists (Some e). split; [by exists i|done].
Qed.

Lemma present_holes rows k : (length (present rows) + length (holes_from k rows) = length rows)%nat.
Proof.
  revert k. induction rows as [|[e|] rows IH]; intros k; [done| |]; specialize (IH (S k)); unfold present in *; cbn in *; lia.
Qed.

Lemma distinct_tail o rows : distinct (o :: rows) -> distinct rows.
Proof. intros Hd i j e e' Hi Hj E. assert (S i = S j) by (eapply Hd; eauto). lia. Qed.

Lemma NoDup_present rows : distinct rows -> NoDup (en_id <$> present rows).
Proof.
  induction rows as [|[e|] rows IH]; intros Hd; [constructor| |].
  - change (present (Some e :: rows)) with (e :: present rows). rewrite fmap_cons. constructor; [|by eapply IH, distinct_tail].
    intros (e' & E & [j Hj]%elem_of_present)%list_elem_of_fmap. assert (0%nat = S j) by (by eapply (Hd 0%nat (S j))). done.
  - apply IH. by eapply distinct_tail.
Qed.

(** [num_reqs] counts the requests in the rows. *)
Lemma num_reqs_present r rows : ids_ok r rows -> Ids.num_reqs r = zlen (present rows).
Proof.
  intros Hr. unfold Ids.num_reqs, zlen. f_equal. rewrite <- size_dom.
  assert (dom (req_id_to_index r) = list_to_set (en_id <$> present rows)) as ->.
  { apply set_eq. intros id. rewrite elem_of_dom, elem_of_list_to_set, list_elem_of_fmap. setoid_rewrite elem_of_present. split.
    - intros [i (Hi & e & He & Hid)%(io_index _ _ Hr)]. exists e. split; [done|by exists (Z.to_nat i)].
    - intros (e & -> & [i Hi]). exists (Z.of_nat i). apply (io_index _ _ Hr). split; [lia|]. exists e. by rewrite Nat2Z.id. }
  rewrite size_list_to_set; [by rewrite length_fmap|]. apply NoDup_present. intros i j e e'. by apply (ids_distinct r).
Qed.

(** Rows without holes. *)
Lemma present_dense es : present (Some <$> es) = es.
Proof. unfold present. induction es as [|e es IH]; [done|]. cbn in *. by rewrite IH. Qed.

Lemma dense_rows rows : (forall i, rows !! i ≠ Some None) -> rows = Some <$> present rows.
Proof.
  induction rows as [|[e|] rows IH]; intros H; [done| |by destruct (H 0%nat)].
  change (Some e :: rows = Some e :: (Some <$> present rows)). f_equal. apply IH. intros i. apply (H (S i)).
Qed.

Lemma present_app l1 l2 : present (l1 ++ l2) = present l1 ++ present l2.
Proof. apply omap_app. Qed.

Lemma present_none rows : (forall i e, rows !! i ≠ Some (Some e)) -> present rows = [].
Proof.
  induction rows as [|[e|] rows IH]; intros H; [done|by destruct (H 0%nat e)|]. apply IH. intros i e. apply (H (S i) e).
Qed.

(** ** The builder *)

Definition sorted_flag (b : BatchUpdateBuilder) : Prop := is_removed_sorted b = true -> StronglySorted Z.ge (removed_ b).

#[export] Instance Zge_dec : RelDecision Z.ge := fun x y => Z_ge_dec x y.
#[export] Instance Zge_total : Total Z.ge.
Proof. intros x y. lia. Qed.
#[export] Instance Zge_transitive : Transitive Z.ge.
Proof. intros x y z. lia. Qed.

(** [_ensure_removed_sorted] *)
Lemma ensure_sorted_ok b : sorted_flag b ->
  exists b', Builder.ensure_removed_sorted b = (Ok tt, b') /\ removed_ b' ≡ₚ removed_ b /\ StronglySorted Z.ge (removed_ b') /\ is_removed_sorted b' = true
    /\ added b' = added b /\ moved b' = moved b.
Proof.
  intros Hs. unfold Builder.ensure_removed_sorted. destruct (is_removed_sorted b) eqn:E; [exists b; by split_and!; auto|]. eexists. split; [reflexivity|].
  split_and!; try done; cbn; [apply merge_sort_Permutation|]. apply (StronglySorted_merge_sort Z.ge).
Qed.

(** The last element of a descending list is the least. *)
Lemma sorted_last l x : StronglySorted Z.ge (l ++ [x]) -> forall y, y ∈ l -> y >= x.
Proof.
  induction l as [|z l IH]; cbn; [by intros _ y ?%elem_of_nil|]. intros [Hs Hf]%StronglySorted_inv y [->|Hy]%elem_of_cons.
  - rewrite Forall_forall in Hf. apply Hf. apply elem_of_app. right. by left.
  - by apply IH.
Qed.

Lemma sorted_init l x : StronglySorted Z.ge (l ++ [x]) -> StronglySorted Z.ge l.
Proof.
  induction l as [|z l IH]; cbn; [constructor|]. intros [Hs Hf]%StronglySorted_inv. constructor; [by apply IH|]. apply Forall_app in Hf as [Hf _]. done.
Qed.

(** The lowest hole is looked at, and taken. *)
Lemma lowest_ok b : sorted_flag b -> NoDup (removed_ b) -> removed_ b ≠ [] ->
  exists i b1 b2, Builder.peek_removed b = (Ok (Some i), b1) /\ Builder.pop_removed b1 = (Ok (Some i), b2) /\ Builder.pop_removed b = (Ok (Some i), b2)
    /\ removed_ b1 ≡ₚ removed_ b /\ sorted_flag b1 /\ added b1 = added b /\ moved b1 = moved b
    /\ i ∈ removed_ b /\ (forall j, j ∈ removed_ b -> i <= j) /\ (forall j, j ∈ removed_ b2 <-> j ∈ removed_ b /\ j ≠ i) /\ NoDup (removed_ b2)
    /\ sorted_flag b2 /\ length (removed_ b) = S (length (removed_ b2)) /\ added b2 = added b /\ moved b2 = moved b.
Proof.
  intros Hs Hn Hne. destruct (ensure_sorted_ok b Hs) as (b1 & E & HP & HS & HF & HA & HM).
  assert (exists l x, removed_ b1 = l ++ [x]) as (l & x & Hl).
  { destruct (exists_last (l := removed_ b1)) as (l & x & Hl); [|by exists l, x]. intros E'. rewrite E' in HP. apply Permutation_nil_l in HP. done. }
  assert (last (removed_ b1) = Some x) as Hlast by (rewrite Hl; by rewrite last_snoc).
  assert (removelast (removed_ b1) = l) as Hrl by (rewrite Hl; apply removelast_last).
  assert (Builder.ensure_removed_sorted b1 = (Ok tt, b1)) as E1 by (unfold Builder.ensure_removed_sorted; by rewrite HF).
  assert (Builder.has_removed b = true) as Hb by (unfold Builder.has_removed; by rewrite bool_decide_eq_false_2).
  assert (Builder.has_removed b1 = true) as Hb1 by (unfold Builder.has_removed; rewrite bool_decide_eq_false_2; [done|rewrite Hl; by destruct l]).
  rewrite Hl in HP, HS. assert (NoDup (l ++ [x])) as Hn1 by (by rewrite HP). apply NoDup_app in Hn1 as (Hn1 & Hx & _).
  exists x, b1, {| b1 with removed_ := removelast (removed_ b1) |}. split_and!.
  - unfold Builder.peek_removed. erewrite bind_ok by reflexivity. rewrite Hb. rewrite (bind_ok _ _ _ _ _ E). unfold gets. by rewrite Hlast.
  - unfold Builder.pop_removed. erewrite bind_ok by reflexivity. rewrite Hb1, (bind_ok _ _ _ _ _ E1). erewrite bind_ok by reflexivity. erewrite bind_ok by reflexivity. by rewrite Hlast.
  - unfold Builder.pop_removed. erewrite bind_ok by reflexivity. rewrite Hb, (bind_ok _ _ _ _ _ E). erewrite bind_ok by reflexivity. erewrite bind_ok by reflexivity. by rewrite Hlast.
  - by rewrite Hl.
  - intros _. by rewrite Hl.
  - done.
  - done.
  - rewrite <- HP. apply elem_of_app. right. by left.
  - intros j. rewrite <- HP, elem_of_app, list_elem_of_singleton. intros [Hj| ->]; [|lia]. pose proof (sorted_last l x HS j Hj). lia.
  - intros j. cbn. rewrite Hrl, <- HP, elem_of_app, list_elem_of_singleton. split; [|naive_solver]. intros Hj. split; [by left|]. intros ->. by apply (Hx x); [|left].
  - cbn. by rewrite Hrl.
  - intros _. cbn. rewrite Hrl. by eapply sorted_init.
  - cbn. rewrite Hrl, <- HP, length_app. cbn. lia.
  - done.
  - done.
Qed.

Lemma no_holes b : removed_ b = [] -> Builder.pop_removed b = (Ok None, b).
Proof. intros H. unfold Builder.pop_removed, Builder.has_removed. msteps. by rewrite H. Qed.

(** ** The last request *)

(** [find_last] goes down over holes to an occupied row. *)
Lemma find_last_ok l (L : Z) : NoDup l -> (exists z, 0 <= z <= L /\ z ∉ l) ->
  exists r, Batch.find_last (length l) l L = Ok r /\ r ∉ l /\ 0 <= r <= L /\ forall z, r < z <= L -> z ∈ l.
Proof.
  intros Hn (z0 & Hz0 & Hz0'). assert (forall fuel (K : Z) d, NoDup d -> (forall z, z ∈ d -> z ∈ l) -> (forall z, z ∈ d -> K < z) -> z0 <= K -> (length l <= fuel + length d)%nat ->
    exists r, Batch.find_last fuel l K = Ok r /\ r ∉ l /\ 0 <= r <= K /\ forall z, r < z <= K -> z ∈ l) as H.
  2: { apply (H (length l) L []); [constructor|by intros z ?%elem_of_nil|by intros z ?%elem_of_nil|lia|cbn; lia]. }
  induction fuel as [|fuel IH]; intros K d Hd Hin Hgt HK Hfuel; cbn [Batch.find_last]; case_bool_decide as HKl.
  - exfalso. assert (K :: d ⊆+ l) as Hsub.
    { apply NoDup_submseteq; [constructor; [intros HKd; specialize (Hgt _ HKd); lia|done]|]. intros z [->|Hz]%elem_of_cons; auto. }
    apply submseteq_length in Hsub. cbn in *. lia.
  - exists K. split_and!; try done; try lia; intros z ?; lia.
  - destruct (IH (K - 1) (K :: d)) as (r & Er & Hr & Hb & Hall).
    + constructor; [intros HKd; specialize (Hgt _ HKd); lia|done].
    + intros z [->|Hz]%elem_of_cons; auto.
    + intros z [->|Hz]%elem_of_cons; [lia|]. specialize (Hgt _ Hz). lia.
    + destruct (decide (z0 = K)) as [->|]; [done|lia].
    + cbn. lia.
    + exists r. split_and!; try done; try lia. intros z Hz. destruct (decide (z = K)) as [->|]; [done|]. apply Hall. lia.
  - exists K. split_and!; try done; try lia; intros z ?; lia.
Qed.

End BatchHoles.
