(* ===== verification/BatchState.v ===== *)
(** The whole persistent batch: its rows hold requests, and removing, adding, updating, sliding and
    swapping requests in [InputBatch] raises nothing and does it in every array. *)

From Stdlib Require Import QArith.
From stdpp Require Import gmap sorting.
From S2P Require Import Prelude Request BlockTable BatchUpdate LogitsFacts LogitsFollow InputBatch BatchRows BatchTokens BatchColumns BatchSampling BatchHoles.
Import BatchRows BatchTokens BatchColumns BatchSampling BatchHoles LogitsFacts.
Local Open Scope Z_scope.

Module BatchState.

Lemma zoom_ok {S T A} (get : S -> T) (put : T -> S -> S) (c : M T A) s r t : c (get s) = (r, t) -> zoom get put c s = (r, put t s).
Proof. intros E. unfold zoom. by rewrite E. Qed.

(** A call on a part of the batch whose outcome is known. *)
Ltac part E := erewrite bind_ok by (apply zoom_ok; exact E).

Section batch.
Context `{Float32} (N W : nat) (V : Z) (dims : list (Z * Z)).

(** The batch shows the rows. *)
Record batch_ok (b : InputBatch) (rows : rows_of) : Prop := {
  bk_pooling : is_pooling_model b = false;
  bk_reqs : batch_max_num_reqs b = Z.of_nat N;
  bk_vocab : vocab_size b = V;
  bk_room : (length rows <= N)%nat;
  bk_ids : ids_ok (ids b) rows;
  bk_shape : shape N W (tokens b);
  bk_tokens : rowwise (token_row W) (tokens b) rows;
  bk_tables : tables_ok N dims (block_table b) rows;
  bk_groups : length (block_table b) = length dims;
  bk_lora : lora_ok N (lora b) rows;
  bk_sampling : sampling_ok N V (sampling b) rows;
  bk_params : forall e, here rows e -> is_Some (params_of e);
}.

Lemma batch_distinct b rows : batch_ok b rows -> distinct rows.
Proof. intros Hb i j e e'. apply (ids_distinct (ids b)). apply Hb. Qed.

Lemma batch_here b rows e : batch_ok b rows -> here rows e -> exists i, req_id_to_index (ids b) !! en_id e = Some (Z.of_nat i) /\ rows !! i = Some (Some e) /\ (i < N)%nat.
Proof.
  intros Hb [i Hi]. exists i. split_and!; [|done|].
  - apply (io_index _ _ (bk_ids _ _ Hb)). split; [lia|]. exists e. by rewrite Nat2Z.id.
  - apply lookup_lt_Some in Hi. pose proof (bk_room _ _ Hb). lia.
Qed.

Lemma batch_absent b rows id : batch_ok b rows -> (forall e, here rows e -> en_id e ≠ id) -> req_id_to_index (ids b) !! id = None.
Proof.
  intros Hb Hid. destruct (req_id_to_index (ids b) !! id) as [i|] eqn:E; [|done]. apply (io_index _ _ (bk_ids _ _ Hb)) in E as (_ & e & He & Heid).
  destruct (Hid e); [by eexists|done].
Qed.

(** ** Removing *)

Lemma remove_ok b rows e : batch_ok b rows -> here rows e -> is_removed_sorted (batch_update_builder b) = false ->
  exists i b', Batch.remove_request (en_id e) b = (Ok (Some (Z.of_nat i)), b') /\ rows !! i = Some (Some e) /\ batch_ok b' (<[i := None]> rows)
    /\ batch_update_builder b' = {| (batch_update_builder b) with removed_ := removed_ (batch_update_builder b) ++ [Z.of_nat i]; batch_changed := true |}.
Proof.
  intros Hb He Hs. pose proof (batch_distinct b rows Hb) as Hd. destruct (batch_here b rows e Hb He) as (i & Hindex & Hi & HiN).
  pose proof Hb as [B1 B2 B3 B4 B5 B6 B7 B8 B9 B10 B11 B12].
  destruct (clear_ok (ids b) rows i e B5 Hi) as (x1 & E1 & K1). destruct (clear_tables_ok N dims (block_table b) rows i B8 HiN) as (x2 & E2 & L2 & K2).
  destruct (remove_lora_ok N (lora b) rows i e B10 Hd Hi) as (x3 & E3 & K3). destruct (remove_sampling_ok N V (sampling b) rows i e B11 Hd HiN Hi) as (x4 & E4 & K4).
  exists i. eexists. split; [|split; [done|split]].
  - unfold Batch.remove_request. erewrite bind_ok by reflexivity. rewrite Hindex. erewrite bind_ok by reflexivity.
    erewrite bind_ok by (apply zoom_ok; cbn; unfold Builder.removed_append; rewrite Hs; reflexivity).
    part E1. part E2. part E3. rewrite B1. part E4. reflexivity.
  - split; try done; cbn.
    + by rewrite length_insert.
    + by apply (rowwise_clear _ (tokens b)).
    + by rewrite L2.
    + intros e' [j Hj]. rewrite list_lookup_insert in Hj. case_decide; [done|]. apply B12. by exists j.
  - cbn. by rewrite Hs.
Qed.

Lemma remove_none b rows id : batch_ok b rows -> (forall e, here rows e -> en_id e ≠ id) -> Batch.remove_request id b = (Ok None, b).
Proof. intros Hb Hid. unfold Batch.remove_request. erewrite bind_ok by reflexivity. by rewrite (batch_absent b rows). Qed.

(** ** Adding *)

(** What the batch stores of a new request. *)
Definition entry_of (h : heap) (r : CachedRequestState) : entry :=
  {| en_request := r; en_output := output_of h (rs_output_token_ids r); en_spec := []; en_computed := rs_num_computed_tokens r;
     en_blocks := rs_block_ids r; en_accepted := 1 |}.

(** Requests that fit: into a row, into the tables, ids in range. *)
Record valid (e : entry) : Prop := {
  va_tokens : tokens_fit W e;
  va_blocks : blocks_fit dims (en_blocks e);
  va_lora : lora_valid e;
  va_params : exists p, params_of e = Some p /\ params_fit V p;
}.

(** The row that a new request gets. *)
Definition new_row (bu : BatchUpdateBuilder) (rows : rows_of) (i : nat) (bu' : BatchUpdateBuilder) : Prop :=
  (removed_ bu = [] /\ i = length rows /\ bu' = bu) \/ (rows !! i = Some None /\ Builder.pop_removed bu = (Ok (Some (Z.of_nat i)), bu')).

Definition added_entry (i : nat) (e : entry) (p : WorkerParams) : AddedRequest :=
  {| added_index := Z.of_nat i; added_params := p; added_prompt := rs_prompt_token_ids (en_request e); added_output := en_ref e |}.

Lemma free_new_row bu rows i bu' : new_row bu rows i bu' -> free_row i rows.
Proof. intros [(_ & Hi & _)|[Hi _]]; [by left|by right]. Qed.

Lemma add_ok h b rows r i bu' p : batch_ok b rows -> (forall e, here rows e -> en_id e ≠ rs_req_id r) -> valid (entry_of h r) -> params_of (entry_of h r) = Some p ->
  new_row (batch_update_builder b) rows i bu' -> (removed_ (batch_update_builder b) = [] -> zlen (present rows) = zlen rows) -> (i < N)%nat ->
  exists b', Batch.add_request h r b = (Ok (Z.of_nat i), b') /\ batch_ok b' (put_row i (entry_of h r) rows)
    /\ batch_update_builder b' = Builder.add (added_entry i (entry_of h r) p) (Builder.changed bu').
Proof.
  intros Hb Hfresh [V1 V2 V3 (p' & Hp' & V4)] Hp Hnew Hdense HiN. rewrite Hp in Hp'. injection Hp' as <-. set (e := entry_of h r) in *. pose proof (free_new_row _ _ _ _ Hnew) as Hf.
  pose proof Hb as [B1 B2 B3 B4 B5 B6 B7 B8 B9 B10 B11 B12].
  set (b1 := Batch.with_builder (Builder.add (added_entry i e p) (Builder.changed bu')) b).
  assert (Batch.register_add_request r b = (Ok (Z.of_nat i), b1)) as E0.
  { assert (exists o, Builder.pop_removed (batch_update_builder b) = (Ok o, bu') /\ match o with Some i => i | None => Batch.num_reqs b end = Z.of_nat i) as (o & Ep & Ho).
    { destruct Hnew as [(Hn & -> & ->)|[_ Hn]]; [|by eexists]. exists None. split; [by apply no_holes|]. unfold Batch.num_reqs. rewrite (num_reqs_present _ rows B5), Hdense by done. done. }
    unfold Batch.register_add_request. part Ep. erewrite bind_ok by reflexivity. change (Batch.num_reqs (Batch.with_builder bu' b)) with (Batch.num_reqs b). rewrite Ho.
    assert (Z.of_nat i <? batch_max_num_reqs b = true) as Hlt by (rewrite B2; lia). change (batch_max_num_reqs (Batch.with_builder bu' b)) with (batch_max_num_reqs b). rewrite Hlt. erewrite bind_ok by reflexivity. erewrite bind_ok by reflexivity.
    unfold params_of in Hp. cbn in Hp. rewrite Hp. by erewrite bind_ok by reflexivity. }
  destruct (place_ok (ids b) rows i e B5 Hf) as (x1 & E1 & K1); [by apply (batch_absent b rows)|done|].
  destruct (copy_ok N W (tokens b) i e B6 HiN V1 eq_refl) as (t1 & t2 & E2 & E2' & K2 & R2 & O2).
  destruct (add_tables_ok N dims (block_table b) rows i e B8 HiN Hf V2) as (x3 & E3 & L3 & K3).
  destruct (copy_sampling_ok N V (sampling b) rows i e p (Z.of_nat N) B11 HiN Hf Hfresh Hp V4) as (s1 & s2 & E4 & E4' & K4); [lia|done|].
  destruct (add_lora_ok N (lora b) rows i e B10 HiN Hf V3) as (x5 & E5 & K5).
  eexists. split; [|split].
  - unfold Batch.add_request. rewrite (bind_ok _ _ _ _ _ E0). part E1. part E2. part E2'. part E3. erewrite bind_ok by reflexivity.
    unfold params_of in Hp. cbn in Hp. rewrite Hp. 
    match goal with |- context [batch_max_num_reqs ?x] => change (batch_max_num_reqs x) with (batch_max_num_reqs b) end.
    match goal with |- context [vocab_size ?x] => change (vocab_size x) with (vocab_size b) end. rewrite B2, B3. part E4. part E4'. part E5. reflexivity.
  - split; try done; cbn.
    + rewrite length_put_row by done. lia.
    + intros j e'. rewrite lookup_put_row by done. case_decide; [intros [= <-]; by subst|]. intros Hj. apply (token_row_same W (tokens b)); [by apply O2|by apply B7].
    + by rewrite L3.
    + intros e' [->|He']%here_put; [by eexists|by apply B12|done].
  - done.
Qed.

(** ** Updating a request in its row *)

(** What the columns keep of a request is the same. *)
Record alike (e e' : entry) : Prop := {
  ak_id : en_id e' = en_id e;
  ak_ref : en_ref e' = en_ref e;
  ak_params : params_of e' = params_of e;
  ak_generator : rs_generator (en_request e') = rs_generator (en_request e);
  ak_lora : rs_lora_request (en_request e') = rs_lora_request (en_request e);
  ak_accepted : en_accepted e' = en_accepted e;
  ak_prompt : rs_prompt_token_ids (en_request e') = rs_prompt_token_ids (en_request e);
}.

Lemma lookup_alike (rows : rows_of) i (e e' x : entry) j : rows !! i = Some (Some e) -> <[i := Some e']> rows !! j = Some (Some x) ->
  (j = i /\ x = e') \/ (j ≠ i /\ rows !! j = Some (Some x)).
Proof.
  intros Hi. rewrite list_lookup_insert. case_decide as Hj; [intros [= <-]; left; naive_solver|]. intros Hx. right. split; [|done].
  intros ->. apply Hj. split; [done|by eapply lookup_lt_Some].
Qed.

Lemma here_alike rows i e e' (P : entry -> Prop) : rows !! i = Some (Some e) -> (P e <-> P e') -> (exists x, here (<[i := Some e']> rows) x /\ P x) <-> exists x, here rows x /\ P x.
Proof.
  intros Hi HP. split.
  - intros (x & [j Hj] & Hx). destruct (lookup_alike rows i e e' x j Hi Hj) as [[-> ->]|[_ Hj']]; [exists e; split; [by exists i|by apply HP]|exists x; split; [by exists j|done]].
  - intros (x & [j Hj] & Hx). destruct (decide (j = i)) as [->|Hne].
    + rewrite Hi in Hj. injection Hj as ->. exists e'. split; [|by apply HP]. exists i. apply list_lookup_insert_eq. by eapply lookup_lt_Some.
    + exists x. split; [|done]. exists j. by rewrite list_lookup_insert_ne.
Qed.

Lemma row_at_alike rows i e e' z : rows !! i = Some (Some e) -> row_at (<[i := Some e']> rows) z = if decide (z = Z.of_nat i) then Some e' else row_at rows z.
Proof.
  intros Hi. unfold row_at. destruct (0 <=? z) eqn:Ez; [|by rewrite decide_False by lia]. apply lookup_lt_Some in Hi. case_decide as Hz.
  - by rewrite Hz, Nat2Z.id, list_lookup_insert_eq.
  - by rewrite list_lookup_insert_ne by lia.
Qed.

Lemma sampling_alike s rows i e e' : sampling_ok N V s rows -> rows !! i = Some (Some e) -> alike e e' -> sampling_ok N V s (<[i := Some e']> rows).
Proof.
  intros [S1 S2 S3 S4 S5 S6 S7 S8 S9 S10] Hi [A1 A2 A3 A4 A5 A6 A7]. split; try done.
  - intros j x p c Hj Hp. destruct (lookup_alike rows i e e' x j Hi Hj) as [[-> ->]|[_ Hj']]; [apply (S2 i e); [done|congruence]|by apply (S2 j x)].
  - intros j x p c Hj Hp. destruct (lookup_alike rows i e e' x j Hi Hj) as [[-> ->]|[_ Hj']]; [|by apply (S4 j x)].
    rewrite (S4 i e p c) by (done || congruence). destruct c; [done|cbn; congruence].
  - intros c id. rewrite S5. assert (forall p, (exists x, here (<[i := Some e']> rows) x /\ en_id x = id /\ params_of x = Some p /\ in_set V p c = true)
      <-> exists x, here rows x /\ en_id x = id /\ params_of x = Some p /\ in_set V p c = true) as Hiff by (intros p; apply here_alike with e; [done|by rewrite A1, A3]).
    split; intros (x & p & Hx); [destruct (proj2 (Hiff p)) as (y & Hy); [by exists x|by exists y, p]|destruct (proj1 (Hiff p)) as (y & Hy); [by exists x|by exists y, p]].
  - intros z. rewrite S6, (row_at_alike rows i e e') by done. case_decide as Hz; [|done]. rewrite Hz, row_at_nat, Hi. cbn. congruence.
  - intros z. rewrite S7, (row_at_alike rows i e e') by done. case_decide as Hz; [|done]. rewrite Hz, row_at_nat, Hi. cbn. unfold bad_words_of. by rewrite A3.
  - intros id n. rewrite S8. symmetry. apply here_alike with e; [done|]. unfold logprobs_of. by rewrite A1, A3.
  - intros id l. rewrite S9. symmetry. apply here_alike with e; [done|]. unfold logprob_ids_of. by rewrite A1, A3.
Qed.

Lemma lora_alike r rows i e e' : lora_ok N r rows -> rows !! i = Some (Some e) -> alike e e' -> lora_ok N r (<[i := Some e']> rows).
Proof.
  intros [L1 L2 L3 L4 L5 L6] Hi [A1 A2 A3 A4 A5 A6 A7]. assert (lora_of e' = lora_of e) as HL by (unfold lora_of; by rewrite A5). split; try done.
  - intros j x Hj. destruct (lookup_alike rows i e e' x j Hi Hj) as [[-> ->]|[_ Hj']]; [rewrite HL; by apply L2|by apply L2].
  - intros L s Hs. destruct (L3 L s Hs) as (H1 & H2 & H3). split; [done|]. split; [done|]. intros id. rewrite H3. symmetry. apply here_alike with e; [done|]. by rewrite A1, HL.
  - intros x [j Hj]. destruct (lookup_alike rows i e e' x j Hi Hj) as [[-> ->]|[_ Hj']]; [rewrite HL; apply L4; by exists i|apply L4; by exists j].
Qed.

Lemma ids_alike r rows i e e' : ids_ok r rows -> rows !! i = Some (Some e) -> alike e e' -> en_spec e' = en_spec e -> ids_ok r (<[i := Some e']> rows).
Proof.
  intros [R1 R2 R3 R4 R5] Hi [A1 A2 A3 A4 A5 A6 A7] As. split.
  - rewrite list_fmap_insert, list_insert_id; [done|]. rewrite list_lookup_fmap, Hi. cbn. by rewrite A1.
  - rewrite list_fmap_insert, list_insert_id; [done|]. rewrite list_lookup_fmap, Hi. cbn. by rewrite A2.
  - intros id z. rewrite R3. split; intros (Hz & x & Hx & Hid); (split; [done|]).
    + destruct (decide (Z.to_nat z = i)) as [E|Hne].
      * rewrite E in *. exists e'. split; [apply list_lookup_insert_eq; by eapply lookup_lt_Some|]. rewrite Hi in Hx. injection Hx as ->. congruence.
      * exists x. by rewrite list_lookup_insert_ne.
    + destruct (lookup_alike rows i e e' x _ Hi Hx) as [[E ->]|[_ Hj']]; [exists e; rewrite E; split; [done|congruence]|by exists x].
  - by rewrite length_insert.
  - intros j l Hl. rewrite (R5 j l Hl), list_lookup_insert. case_decide as Hj; [|done]. destruct Hj as [<- _]. rewrite Hi. cbn. congruence.
Qed.

Lemma tables_alike tables rows i e e' : tables_ok N dims tables rows -> rows !! i = Some (Some e) -> en_blocks e' = en_blocks e -> tables_ok N dims tables (<[i := Some e']> rows).
Proof.
  intros Ht Hi Hblocks g t Hg. destruct (Ht g t Hg) as [T1 T2 (R & HR & Hrow)]. split; [done|done|]. exists R. split; [done|]. intros j x Hj.
  destruct (lookup_alike rows i e e' x j Hi Hj) as [[-> ->]|[_ Hj']]; [rewrite Hblocks; by apply Hrow|by apply Hrow].
Qed.

(** The batch after a request has changed in its row [i]. *)
Lemma update_row b rows i e e' (t : TokenRows) (x : IdRows) (l : list BlockTable) : batch_ok b rows -> rows !! i = Some (Some e) -> alike e e' ->
  shape N W t -> token_row W t i e' -> (forall j, j ≠ i -> same_row (tokens b) t j) -> ids_ok x (<[i := Some e']> rows) ->
  tables_ok N dims l (<[i := Some e']> rows) -> length l = length dims ->
  forall b', is_pooling_model b' = is_pooling_model b -> batch_max_num_reqs b' = batch_max_num_reqs b -> vocab_size b' = vocab_size b ->
  tokens b' = t -> ids b' = x -> block_table b' = l -> lora b' = lora b -> sampling b' = sampling b -> batch_ok b' (<[i := Some e']> rows).
Proof.
  intros [B1 B2 B3 B4 B5 B6 B7 B8 B9 B10 B11 B12] Hi Ha Ht Hrow Hother Hx Hl Hlen b' E1 E2 E3 <- <- <- E7 E8. split; try done; try congruence.
  - by rewrite length_insert.
  - by apply (rowwise_set _ (tokens b)); [|intros j y Hj; apply token_row_same; by apply Hother|].
  - rewrite E7. by apply lora_alike with e.
  - rewrite E8. by apply sampling_alike with e.
  - intros y [j Hj]. destruct (lookup_alike rows i e e' y j Hi Hj) as [[-> ->]|[_ Hj']]; [rewrite (ak_params _ _ Ha); apply B12; by exists i|apply B12; by exists j].
Qed.

Lemma alike_spec l e : alike e (with_spec l e).
Proof. by split. Qed.

(** [update_req_spec_token_ids] *)
Lemma update_spec_ok b rows i e r sched l : batch_ok b rows -> rows !! i = Some (Some e) -> rs_req_id r = en_id e -> l = default [] (sched !! en_id e) ->
  forallb Table.is_int32 l = true -> (length (active (with_spec l e)) <= W)%nat ->
  exists b', Batch.update_req_spec_token_ids r sched b = (Ok {| r with prev_num_draft_len := zlen l |}, b') /\ batch_ok b' (<[i := Some (with_spec l e)]> rows)
    /\ batch_update_builder b' = batch_update_builder b.
Proof.
  intros Hb Hi Hid Hl Hint HW. destruct (batch_here b rows e Hb) as (j & Hindex & Hj & HjN); [by exists i|].
  assert (j = i) as -> by (by eapply (batch_distinct b rows Hb)). pose proof Hb as [B1 B2 B3 B4 B5 B6 B7 B8 B9 B10 B11 B12].
  destruct (ids_lengths _ _ B5) as (_ & _ & Hroom). pose proof (lookup_lt_Some _ _ _ Hi) as Hlt.
  destruct (put_spec_ok (ids b) rows i e [] B5 Hi) as (x0 & E0 & K0).
  assert (Ids.clear_spec (Z.of_nat i) (ids b) = (Ok tt, x0)) as E0'.
  { unfold Ids.clear_spec. destruct (lookup_ids _ _ _ _ B5 Hi) as (_ & _ & Hs). erewrite bind_ok by (apply (load_ok spec_token_ids _ (en_spec e)); [lia|by rewrite Nat2Z.id]). exact E0. }
  destruct (put_spec_tokens_ok N W (tokens b) i e l B6 HjN (B7 i e Hi) Hint HW) as (t & Eg & Ep & Hsh & Hrow & Hother).
  assert (<[i := Some (with_spec [] e)]> rows !! i = Some (Some (with_spec [] e))) as Hi0 by (by apply list_lookup_insert_eq).
  destruct (put_spec_ok x0 _ i (with_spec [] e) l K0 Hi0) as (x1 & E1 & K1). rewrite list_insert_insert_eq in K1.
  unfold Batch.update_req_spec_token_ids. erewrite bind_ok by reflexivity. rewrite Hid, Hindex. erewrite bind_ok by reflexivity. part E0'. rewrite <- Hl. destruct l as [|y l].
  - eexists. split; [reflexivity|]. split; [|done]. apply (update_row b rows i e (with_spec [] e) (tokens b) x0 (block_table b)); try done; [by apply drop_spec_ok, B7|by apply tables_alike with e].
  - part Eg. unfold lift_res at 1. rewrite as_int32_list by done. erewrite bind_ok by reflexivity. part Ep.
    erewrite bind_ok by (apply zoom_ok; apply (load_ok spec_token_ids _ []); [lia|rewrite Nat2Z.id; by apply (lookup_ids x0 _ i (with_spec [] e) K0 Hi0)]).
    part E1. eexists. split; [reflexivity|]. split; [|done]. apply (update_row b rows i e (with_spec (y :: l) e) t x1 (block_table b)); try done. by apply tables_alike with e.
Qed.

(** ** Moving requests *)

(** [_get_active_token_count] *)
Lemma active_count_ok b rows i e : batch_ok b rows -> rows !! i = Some (Some e) -> Batch.get_active_token_count (Z.of_nat i) b = (Ok (active_count e), b).
Proof.
  intros Hb Hi. destruct (lookup_ids _ _ _ _ (bk_ids _ _ Hb) Hi) as (_ & _ & Hs). destruct (bk_tokens _ _ Hb i e Hi) as [[T1 T1'] T2 T3 T4 T5 T6 T7 T8].
  destruct (active_length e T1 T1') as [Ha _]. unfold Batch.get_active_token_count.
  erewrite bind_ok by (apply zoom_ok; apply (load_ok (fun t => counts t num_tokens_no_spec) _ (prompt_len e + zlen (en_output e))); [lia|by rewrite Nat2Z.id]).
  erewrite bind_ok by (apply zoom_ok; apply (load_ok spec_token_ids _ (en_spec e)); [lia|by rewrite Nat2Z.id]). rewrite Ha. by destruct b.
Qed.

(** A step of [condense]. *)
Lemma slide_ok b rows last empty e : batch_ok b rows -> last ≠ empty -> rows !! last = Some (Some e) -> rows !! empty = Some None ->
  exists b', Batch.slide (Z.of_nat last) (Z.of_nat empty) b = (Ok tt, b') /\ batch_ok b' (slide_row last empty rows)
    /\ batch_update_builder b' = Builder.move {| moved_from := Z.of_nat last; moved_to := Z.of_nat empty; moved_direction := UNIDIRECTIONAL |} (batch_update_builder b).
Proof.
  intros Hb Hne Hl He. pose proof Hb as [B1 B2 B3 B4 B5 B6 B7 B8 B9 B10 B11 B12]. destruct (B12 e) as [p Hp]; [by exists last|].
  assert (last < N)%nat as HlN by (apply lookup_lt_Some in Hl; lia). assert (empty < N)%nat as HeN by (apply lookup_lt_Some in He; lia).
  destruct (slide_ids_ok (ids b) rows last empty e B5 Hne Hl He) as (x0 & x1 & E0 & S0 & E1 & K1).
  destruct (BatchTokens.slide_tokens_ok N W (tokens b) last empty e B6 HlN HeN Hne (B7 last e Hl)) as (t & E2 & K2 & R2 & O2).
  destruct (slide_tables_ok N dims (block_table b) rows last empty e B8 HlN HeN Hne Hl He) as (x3 & E3 & L3 & K3).
  destruct (slide_lora_ok N (lora b) rows last empty e B10 HeN Hne Hl He) as (x4 & E4 & K4).
  destruct (slide_sampling_ok N V (sampling b) rows last empty e p B11 HlN HeN Hne Hl Hp He) as (x5 & E5 & K5).
  assert (Batch.get_active_token_count (Z.of_nat last) (Batch.with_ids x0 b) = (Ok (active_count e), Batch.with_ids x0 b)) as Ec.
  { pose proof (active_count_ok b rows last e Hb Hl) as Ec. revert Ec. unfold Batch.get_active_token_count. unfold mbind, M_bind, Batch.on_tokens, Batch.on_ids, zoom.
    change (tokens (Batch.with_ids x0 b)) with (tokens b). destruct (Toks.get_count num_tokens_no_spec (Z.of_nat last) (tokens b)) as [[n|err] t1]; [|done].
    change (spec_token_ids (ids (Batch.with_ids x0 b))) with (spec_token_ids x0). unfold load. cbn [ids Batch.with_ids Batch.with_tokens]. rewrite S0.
    destruct (py_get (spec_token_ids (ids b)) (Z.of_nat last)) as [l|err]; [|done]. intros [= -> Hbb]. destruct b. cbn in *. by injection Hbb as ->. }
  eexists. split; [|split].
  - unfold Batch.slide. erewrite bind_ok by reflexivity. part E0. rewrite (bind_ok _ _ _ _ _ Ec). part E1. part E2. part E3. part E4. rewrite B1.
    erewrite bind_ok by (apply zoom_ok; reflexivity). apply zoom_ok. exact E5.
  - split; try done; cbn.
    + by rewrite length_slide_row.
    + intros j e'. rewrite (lookup_slide_row last empty rows e) by done. repeat case_decide; [intros [= <-]; by subst|done|]. intros Hj. apply (token_row_same W (tokens b)); [by apply O2|by apply B7].
    + by rewrite L3.
    + intros e' He'. apply B12. by apply (here_slide last empty rows e).
  - done.
Qed.

(** [swap_states] *)
Lemma swap_ok b rows i1 i2 e1 e2 : batch_ok b rows -> i1 ≠ i2 -> rows !! i1 = Some (Some e1) -> rows !! i2 = Some (Some e2) ->
  exists b', Batch.swap_states (Z.of_nat i1) (Z.of_nat i2) b = (Ok tt, b') /\ batch_ok b' (swap_rows i1 i2 rows)
    /\ batch_update_builder b' = Builder.move {| moved_from := Z.of_nat i1; moved_to := Z.of_nat i2; moved_direction := SWAP |} (batch_update_builder b).
Proof.
  intros Hb Hne H1 H2. pose proof Hb as [B1 B2 B3 B4 B5 B6 B7 B8 B9 B10 B11 B12]. destruct (B12 e1) as [p1 Hp1]; [by exists i1|]. destruct (B12 e2) as [p2 Hp2]; [by exists i2|].
  assert (i1 < N)%nat as N1 by (apply lookup_lt_Some in H1; lia). assert (i2 < N)%nat as N2 by (apply lookup_lt_Some in H2; lia).
  destruct (swap_ids_ok (ids b) rows i1 i2 e1 e2 B5 Hne H1 H2) as (x1 & E1 & K1).
  destruct (swap_tokens_ok N W (tokens b) i1 i2 e1 e2 B6 N1 N2 Hne (B7 i1 e1 H1) (B7 i2 e2 H2)) as (t & E2 & K2 & R1 & R2 & O2).
  destruct (swap_tables_ok N dims (block_table b) rows i1 i2 e1 e2 B8 N1 N2 Hne H1 H2) as (x3 & E3 & L3 & K3).
  destruct (swap_lora_ok N (lora b) rows i1 i2 e1 e2 B10 Hne H1 H2) as (x4 & E4 & K4).
  destruct (swap_sampling_ok N V (sampling b) rows i1 i2 e1 e2 p1 p2 B11 N1 N2 Hne H1 H2 Hp1 Hp2) as (x5 & E5 & K5).
  eexists. split; [|split].
  - unfold Batch.swap_states. erewrite bind_ok by reflexivity. rewrite (bind_ok _ _ _ _ _ (active_count_ok b rows i1 e1 Hb H1)), (bind_ok _ _ _ _ _ (active_count_ok b rows i2 e2 Hb H2)).
    part E1. part E2. part E3. part E4. rewrite B1. erewrite bind_ok by (apply zoom_ok; reflexivity). apply zoom_ok. exact E5.
  - split; try done; cbn.
    + by rewrite length_swap_rows.
    + intros j e'. rewrite (lookup_swap_rows i1 i2 rows _ _ j Hne H1 H2). repeat case_decide; [intros [= <-]; by subst|intros [= <-]; by subst|].
      intros Hj. apply (token_row_same W (tokens b)); [by apply O2|by apply B7].
    + by rewrite L3.
    + intros e' He'. apply B12. by apply (here_swap i1 i2 rows e1 e2).
  - done.
Qed.

(** Cutting off holes. *)
Lemma row_at_take rows n z : (forall j, (n <= j < length rows)%nat -> rows !! j = Some None) -> row_at (take n rows) z = row_at rows z.
Proof.
  intros Hh. unfold row_at. destruct (0 <=? z); [|done]. destruct (decide (Z.to_nat z < n)%nat) as [Hlt|Hge]; [by rewrite lookup_take_lt|].
  rewrite lookup_take_ge by lia. destruct (decide (Z.to_nat z < length rows)%nat); [by rewrite Hh by lia|]. by rewrite lookup_ge_None_2 by lia.
Qed.

(** The end of [condense]. *)
Lemma trim_batch_ok b rows n : batch_ok b rows -> (forall j, (n <= j < length rows)%nat -> rows !! j = Some None) ->
  batch_ok (Batch.with_ids (Ids.trim (Z.of_nat n) (ids b)) b) (take n rows).
Proof.
  intros Hb Hh. pose proof Hb as [B1 B2 B3 B4 B5 B6 B7 B8 B9 B10 B11 B12].
  assert (forall i e, take n rows !! i = Some (Some e) -> rows !! i = Some (Some e)) as Hold by (intros i e; apply lookup_take_Some).
  assert (forall e, here (take n rows) e <-> here rows e) as Hhere by (intros e; by apply here_take).
  split; try done; cbn.
  - rewrite length_take. lia.
  - by apply trim_ok.
  - by apply rowwise_take.
  - intros g t Hg. destruct (B8 g t Hg) as [T1 T2 (R & HR & Hrow)]. split; [done|done|]. exists R. split; [done|]. intros i e Hi. apply Hrow. by apply Hold.
  - destruct B10 as [L1 L2 L3 L4 L5 L6]. split; try done; [intros i e Hi; by apply L2, Hold| |intros e He; by apply L4, Hhere].
    intros L s Hs. destruct (L3 L s Hs) as (X1 & X2 & X3). split; [done|]. split; [done|]. intros id. rewrite X3. by setoid_rewrite Hhere.
  - apply (rows_sampling N V (sampling b) _ rows); try apply B11; try done.
    + intros i e p Hi Hp. split; intros c; [apply (so_floats _ _ _ _ B11 i e)|apply (so_ints _ _ _ _ B11 i e)]; (done || by apply Hold).
    + intros z. by rewrite (so_generators _ _ _ _ B11), row_at_take.
    + intros z. by rewrite (so_bad_words _ _ _ _ B11), row_at_take.
  - intros e He. by apply B12, Hhere.
Qed.

End batch.
End BatchState.
