(* ===== verification/BatchPhases.v ===== *)
(** The builder follows the batch: what it has collected leads from the layout of the last refresh
    to the present one, through removals, additions, [condense] and swaps; and [condense]
    leaves no hole. *)

From Stdlib Require Import QArith.
From stdpp Require Import gmap sorting.
From S2P Require Import Prelude Request BlockTable BatchUpdate LogitsFacts LogitsFollow InputBatch BatchRows BatchTokens BatchColumns BatchSampling BatchHoles BatchState.
Import BatchRows BatchTokens BatchColumns BatchSampling BatchHoles BatchState LogitsFacts LogitsFollow.
Local Open Scope Z_scope.

Module BatchPhases.

(** ** The requests in the rows *)

Lemma NoDup_present_entries rows : distinct rows -> NoDup (present rows).
Proof. intros Hd. eapply NoDup_fmap_1. by apply NoDup_present. Qed.

Lemma present_same rows rows' : distinct rows -> distinct rows' -> (forall e, here rows' e <-> here rows e) -> present rows' ≡ₚ present rows.
Proof.
  intros Hd Hd' Hh. apply NoDup_Permutation; [by apply NoDup_present_entries..|]. intros e. by rewrite !elem_of_present.
Qed.

Lemma present_put i e rows : distinct rows -> distinct (put_row i e rows) -> free_row i rows -> (forall e', here rows e' -> en_id e' ≠ en_id e) ->
  present (put_row i e rows) ≡ₚ e :: present rows.
Proof.
  intros Hd Hd' Hf Hfresh. apply NoDup_Permutation; [by apply NoDup_present_entries| |].
  - constructor; [|by apply NoDup_present_entries]. rewrite elem_of_present. intros He. by apply (Hfresh e).
  - intros x. rewrite elem_of_cons, !elem_of_present. by apply here_put.
Qed.

Lemma present_clear i e rows : distinct rows -> distinct (<[i := None]> rows) -> rows !! i = Some (Some e) -> present rows ≡ₚ e :: present (<[i := None]> rows).
Proof.
  intros Hd Hd' Hi. apply NoDup_Permutation; [by apply NoDup_present_entries| |].
  - constructor; [|by apply NoDup_present_entries]. rewrite elem_of_present, (here_clear i e) by done. tauto.
  - intros x. rewrite elem_of_cons, !elem_of_present, (here_clear i e) by done. split.
    + intros [j Hj]. destruct (decide (en_id x = en_id e)) as [E|E]; [|right; split; [by exists j|done]].
      left. assert (j = i) as -> by (by eapply Hd). congruence.
    + intros [->|[Hx _]]; [by exists i|done].
Qed.

(** Rows that are occupied up to [k]. *)
Lemma dense_prefix (rows : rows_of) k : (k <= length rows)%nat -> (forall j, (j < k)%nat -> rows !! j ≠ Some None) -> (forall j, (k <= j < length rows)%nat -> rows !! j = Some None) ->
  length (present rows) = k /\ take k rows = Some <$> present rows.
Proof.
  intros Hk Hlow Hhigh. assert (present rows = present (take k rows)) as ->.
  { rewrite <- (take_drop k rows) at 1. rewrite present_app, (present_none (drop k rows)), app_nil_r; [done|]. intros i e. rewrite lookup_drop.
    intros Hi. pose proof (lookup_lt_Some _ _ _ Hi). rewrite Hhigh in Hi by lia. done. }
  assert (take k rows = Some <$> present (take k rows)) as E.
  { apply dense_rows. intros i Hi. apply lookup_take_Some in Hi as [Hi Hlt]. by apply (Hlow i). }
  split; [|done]. apply (f_equal length) in E. rewrite length_fmap, length_take in E. lia.
Qed.

(** ** Layouts of the rows *)

Definition payload_at (e : entry) : option payload := p ← params_of e; Some (p, rs_prompt_token_ids (en_request e), en_ref e).
Definition lays (rows : rows_of) (L : layout) : Prop := forall z, L !! z = row_at rows z ≫= payload_at.

Lemma row_at_nil z : row_at [] z = None.
Proof. unfold row_at. by destruct (0 <=? z). Qed.

Section phases.
Context `{Float32} (N W : nat) (V : Z) (dims : list (Z * Z)).
Abbreviation batch_ok := (batch_ok N W V dims).
Abbreviation bu := batch_update_builder.

(** Min-p values that do not round to zero. *)
Definition added_fits (a : AddedRequest) : Prop := 0 <= added_index a < Z.of_nat N /\ rounds (payload_of a).
Definition move_ok (n : Z) (m : MovedRequest) : Prop :=
  0 <= moved_from m < Z.of_nat N /\ 0 <= moved_to m < Z.of_nat N /\ (moved_direction m = UNIDIRECTIONAL -> n <= moved_from m).

Record phase (b : BatchUpdateBuilder) (L0 : layout) (rows : rows_of) : Prop := {
  ph_tracks : exists L, lays rows L /\ tracks b L0 L;
  ph_sorted : sorted_flag b;
  ph_holes : forall z, z ∈ removed_ b -> hole rows z;
  ph_added : Forall added_fits (added b);
  ph_moved : Forall (move_ok (zlen (present rows))) (moved b);
}.
(** Every hole is known to the builder. *)
Definition exact (b : BatchUpdateBuilder) (rows : rows_of) : Prop := forall z, hole rows z -> z ∈ removed_ b.

Lemma exact_count b L0 rows : phase b L0 rows -> exact b rows -> length (removed_ b) = length (holes_from 0 rows).
Proof.
  intros [(L & _ & Ht) _ Hh _ _] He. apply Permutation_length. apply NoDup_Permutation; [apply Ht|apply NoDup_holes_from|].
  intros z. rewrite elem_of_holes. split; [apply Hh|apply He].
Qed.

Lemma exact_dense b L0 rows : phase b L0 rows -> exact b rows -> removed_ b = [] -> zlen (present rows) = zlen rows.
Proof. intros Hp He H0. pose proof (exact_count _ _ _ Hp He) as Hc. rewrite H0 in Hc. pose proof (present_holes rows 0). unfold zlen. cbn in Hc. lia. Qed.

(** A builder that only collects removals. *)
Definition removing (b : BatchUpdateBuilder) : Prop := is_removed_sorted b = false /\ added b = [] /\ moved b = [].

Lemma phase_start rows L0 : lays rows L0 -> phase Builder.init L0 rows.
Proof. intros HL. split; [exists L0; split; [done|apply tracks_init]|done|by intros z ?%elem_of_nil|constructor|constructor]. Qed.

Lemma remove_phase b rows e L0 : batch_ok b rows -> here rows e -> removing (bu b) -> phase (bu b) L0 rows -> exact (bu b) rows ->
  exists i b' rows', Batch.remove_request (en_id e) b = (Ok (Some (Z.of_nat i)), b') /\ batch_ok b' rows' /\ removing (bu b') /\ phase (bu b') L0 rows' /\ exact (bu b') rows'
    /\ present rows ≡ₚ e :: present rows'.
Proof.
  intros Hb He (Hs & Ha & Hm) [(L & HL & Ht) P2 P3 P4 P5] Hex. destruct (remove_ok N W V dims b rows e Hb He Hs) as (i & b' & E & Hi & Hb' & Hbu).
  pose proof (lookup_lt_Some _ _ _ Hi) as Hlt. exists i, b', (<[i := None]> rows). destruct (bk_params _ _ _ _ _ _ Hb e He) as [p Hp].
  split; [done|]. split; [done|]. rewrite Hbu. split; [done|]. split; [split; cbn [removed_ added moved]|split].
  - exists (delete (Z.of_nat i) L). split.
    + intros z. rewrite lookup_delete, row_at_clear by done. case_decide as Hz; [by rewrite Hz, decide_True|]. by rewrite decide_False.
    + apply tracks_remove; try done. rewrite HL, row_at_nat, Hi. cbn. unfold payload_at. rewrite Hp. by eexists.
  - unfold sorted_flag. cbn. by rewrite Hs.
  - intros z. rewrite elem_of_app, list_elem_of_singleton. intros [Hz| ->].
    + destruct (P3 z Hz) as [H1 H2]. split; [done|]. rewrite list_lookup_insert. by case_decide.
    + split; [lia|]. by rewrite Nat2Z.id, list_lookup_insert_eq.
  - done.
  - by rewrite Hm.
  - intros z [H1 H2]. cbn. rewrite elem_of_app, list_elem_of_singleton. destruct (decide (z = Z.of_nat i)) as [->|Hne]; [by right|]. left. apply Hex. split; [done|].
    rewrite list_lookup_insert_ne in H2 by lia. done.
  - apply present_clear; [by eapply batch_distinct|by eapply batch_distinct|done].
Qed.

(** [add_request] *)
Lemma add_phase h b rows r L0 : batch_ok b rows -> (forall e, here rows e -> en_id e ≠ rs_req_id r) -> valid W V dims (entry_of h r) ->
  (forall a, payload_at (entry_of h r) = Some a -> rounds a) -> moved (bu b) = [] -> phase (bu b) L0 rows -> exact (bu b) rows -> (length (present rows) < N)%nat ->
  exists i b' rows', Batch.add_request h r b = (Ok (Z.of_nat i), b') /\ batch_ok b' rows' /\ rows' !! i = Some (Some (entry_of h r)) /\ moved (bu b') = [] /\ phase (bu b') L0 rows' /\ exact (bu b') rows'
    /\ present rows' ≡ₚ entry_of h r :: present rows /\ exists a, payload_at (entry_of h r) = Some a /\ added (bu b') = added (bu b) ++ [added_at (Z.of_nat i) a].
Proof.
  intros Hb Hfresh Hv Hround Hm Hph Hex Hroom. pose proof Hph as [(L & HL & Ht) P2 P3 P4 P5]. destruct (va_params _ _ _ _ Hv) as (p & Hp & _). set (e := entry_of h r) in *.
  assert (exists i bu', new_row (bu b) rows i bu' /\ (i < N)%nat /\ (forall j, j ∈ removed_ bu' <-> j ∈ removed_ (bu b) /\ j ≠ Z.of_nat i) /\ NoDup (removed_ bu')
    /\ sorted_flag bu' /\ added bu' = added (bu b) /\ moved bu' = moved (bu b)) as (i & bu' & Hnew & HiN & HR & HNd & HS & HA & HM).
  { destruct (decide (removed_ (bu b) = [])) as [E|E].
    - exists (length rows), (bu b). pose proof (exact_dense _ _ _ Hph Hex E) as Hd. split; [by left|]. split; [unfold zlen in Hd; lia|]. split; [|split_and!; try done; apply Ht].
      intros j. rewrite E. split; [by intros ?%elem_of_nil|by intros [?%elem_of_nil _]].
    - destruct (lowest_ok (bu b) P2 (tr_nodup _ _ _ Ht) E) as (z & b1 & b2 & _ & _ & Epop & _ & _ & _ & _ & Hz & _ & HR & HNd & HS & _ & HA & HM).
      destruct (P3 z Hz) as [Hz0 Hzr]. exists (Z.to_nat z), b2. rewrite Z2Nat.id by done. split; [right; by rewrite Z2Nat.id by done|]. split; [|by split_and!].
      apply lookup_lt_Some in Hzr. pose proof (bk_room _ _ _ _ _ _ Hb). lia. }
  pose proof (free_new_row _ _ _ _ Hnew) as Hf.
  destruct (add_ok N W V dims h b rows r i bu' p Hb Hfresh Hv Hp Hnew) as (b' & E & Hb' & Hbu); [by apply (exact_dense _ L0)|done|].
  exists i, b', (put_row i e rows). split; [done|]. split; [done|]. split; [by rewrite lookup_put_row, decide_True|]. rewrite Hbu. split; [cbn; by rewrite HM|].
  assert (payload_at e = Some (p, rs_prompt_token_ids (en_request e), en_ref e)) as Hpay by (unfold payload_at; by rewrite Hp).
  assert (present (put_row i e rows) ≡ₚ e :: present rows) as Hpres by (apply present_put; [by eapply batch_distinct|by eapply batch_distinct|done|done]).
  split; [split; cbn [Builder.add Builder.changed removed_ added moved]|split; [|split; [done|]]].
  - exists (<[Z.of_nat i := (p, rs_prompt_token_ids (en_request e), en_ref e)]> L). split.
    + intros z. rewrite lookup_insert, row_at_put by done. case_decide as Hz; [by rewrite decide_True by done|]. rewrite decide_False by done. apply HL.
    + apply (tracks_add (bu b)); try done. cbn. by rewrite HA.
  - intros Hsorted. by apply HS.
  - intros j [Hj Hne]%HR. destruct (P3 j Hj) as [H1 H2]. split; [done|]. rewrite lookup_put_row, decide_False by (done || lia). done.
  - rewrite HA. apply Forall_app. split; [done|]. apply Forall_singleton. split; [cbn; lia|]. by apply Hround.
  - by rewrite HM, Hm.
  - intros z [H1 H2]. cbn. apply HR. rewrite lookup_put_row in H2 by done. case_decide; [done|]. split; [by apply Hex|lia].
  - exists (p, rs_prompt_token_ids (en_request e), en_ref e). split; [done|]. cbn. by rewrite HA.
Qed.

(** ** [condense] *)

(** The lowest hole is popped and the last request slides into it. *)
Lemma slide_phase b bu2 rows L0 last empty e : batch_ok b rows -> phase (bu b) L0 rows -> last ≠ empty -> rows !! last = Some (Some e) -> rows !! empty = Some None ->
  Z.of_nat empty ∈ removed_ (bu b) -> (forall j, j ∈ removed_ bu2 <-> j ∈ removed_ (bu b) /\ j ≠ Z.of_nat empty) -> NoDup (removed_ bu2) -> sorted_flag bu2 ->
  added bu2 = added (bu b) -> moved bu2 = moved (bu b) -> zlen (present rows) <= Z.of_nat last ->
  exists b', Batch.slide (Z.of_nat last) (Z.of_nat empty) (Batch.with_builder bu2 b) = (Ok tt, b') /\ batch_ok b' (slide_row last empty rows)
    /\ removed_ (bu b') = removed_ bu2 /\ phase (bu b') L0 (slide_row last empty rows) /\ present (slide_row last empty rows) ≡ₚ present rows.
Proof.
  intros Hb [(L & HL & Ht) P2 P3 P4 P5] Hne Hl He Hin HR HNd HS HA HM Hn.
  assert (batch_ok (Batch.with_builder bu2 b) rows) as Hb2 by (destruct Hb; by split).
  destruct (slide_ok N W V dims _ rows last empty e Hb2 Hne Hl He) as (b' & E & Hb' & Hbu). change (bu (Batch.with_builder bu2 b)) with bu2 in Hbu.
  destruct (bk_params _ _ _ _ _ _ Hb e) as [p Hp]; [by exists last|].
  assert (payload_at e = Some (p, rs_prompt_token_ids (en_request e), en_ref e)) as Hpay by (unfold payload_at; by rewrite Hp).
  assert (present (slide_row last empty rows) ≡ₚ present rows) as Hpres.
  { apply present_same; [by eapply batch_distinct|by eapply batch_distinct|]. intros x. by apply here_slide with e. }
  pose proof (lookup_lt_Some _ _ _ Hl) as Hllt. pose proof (lookup_lt_Some _ _ _ He) as Helt. pose proof (bk_room _ _ _ _ _ _ Hb) as Hroom.
  exists b'. split; [done|]. split; [done|]. rewrite Hbu. split; [done|]. split; [split|done].
  - exists (<[Z.of_nat empty := (p, rs_prompt_token_ids (en_request e), en_ref e)]> (delete (Z.of_nat last) L)). split.
    + intros z. rewrite lookup_insert, lookup_delete, (row_at_slide rows last empty e) by done. destruct (decide (z = Z.of_nat empty)) as [->|Hz]; [by rewrite decide_True|].
      rewrite decide_False by done. destruct (decide (z = Z.of_nat last)) as [->|Hz']; [by rewrite decide_True|]. rewrite decide_False by done. apply HL.
    + apply (tracks_move (bu b) _ L0 L {| moved_from := Z.of_nat last; moved_to := Z.of_nat empty; moved_direction := UNIDIRECTIONAL |}); try done.
      * cbn. rewrite HL, row_at_nat, Hl. exact Hpay.
      * cbn. by rewrite HM.
  - intros Hs. by apply HS.
  - intros z [Hz Hze]%HR. destruct (P3 z Hz) as [H1 H2]. split; [done|]. rewrite (lookup_slide_row last empty rows e) by done. rewrite decide_False by lia. by case_decide.
  - cbn. by rewrite HA.
  - cbn. rewrite HM. unfold zlen. rewrite Hpres. apply Forall_app. split; [done|]. apply Forall_singleton. unfold move_ok. cbn. unfold zlen in *. lia.
Qed.

(** The rows are dense up to the number of requests, and free behind. *)
Definition dense_to (rows : rows_of) : Prop :=
  let n := length (present rows) in (n <= length rows)%nat /\ take n rows = Some <$> present rows /\ forall j, (n <= j < length rows)%nat -> rows !! j = Some None.

Lemma dense_to_prefix rows k : (k <= length rows)%nat -> (forall j, (j < k)%nat -> rows !! j ≠ Some None) -> (forall j, (k <= j < length rows)%nat -> rows !! j = Some None) -> dense_to rows.
Proof. intros Hk Hl Hh. destruct (dense_prefix rows k Hk Hl Hh) as [H1 H2]. unfold dense_to. rewrite H1. by split_and!. Qed.

Lemma condense_loop_ok fuel b rows L0 (K : Z) : batch_ok b rows -> phase (bu b) L0 rows -> (length (removed_ (bu b)) <= fuel)%nat -> present rows ≠ [] ->
  -1 <= K < zlen rows -> (forall z, hole rows z -> z <= K -> z ∈ removed_ (bu b)) -> (forall j, K < Z.of_nat j -> (j < length rows)%nat -> rows !! j = Some None) ->
  exists b' rows', Batch.condense_loop fuel K b = (Ok tt, b') /\ batch_ok b' rows' /\ phase (bu b') L0 rows' /\ present rows' ≡ₚ present rows
    /\ length rows' = length rows /\ dense_to rows'.
Proof.
  revert b rows K. induction fuel as [|fuel IH]; intros b rows K Hb Hph Hfuel Hne HK Hlow Hhigh; cbn [Batch.condense_loop].
  - erewrite bind_ok by (apply zoom_ok; reflexivity). destruct (removed_ (bu b)) as [|z l] eqn:Er; [|cbn in Hfuel; lia].
    exists (Batch.with_builder (bu b) b), rows. assert (Batch.with_builder (bu b) b = b) as -> by (by destruct b). split_and!; try done.
    apply (dense_to_prefix rows (Z.to_nat (K + 1))); [unfold zlen in HK; lia| |intros j Hj; apply Hhigh; lia].
    intros j Hj Hhole. assert (Z.of_nat j ∈ []) as Hin; [|by apply elem_of_nil in Hin]. apply Hlow; [split; [lia|by rewrite Nat2Z.id]|lia].
  - erewrite bind_ok by (apply zoom_ok; reflexivity). assert (Batch.with_builder (bu b) b = b) as -> by (by destruct b).
    destruct (decide (removed_ (bu b) = [])) as [Er|Er].
    { rewrite Er. exists b, rows. split_and!; try done. apply (dense_to_prefix rows (Z.to_nat (K + 1))); [unfold zlen in HK; lia| |intros j Hj; apply Hhigh; lia].
      intros j Hj Hhole. assert (Z.of_nat j ∈ removed_ (bu b)) as Hin; [|rewrite Er in Hin; by apply elem_of_nil in Hin]. apply Hlow; [split; [lia|by rewrite Nat2Z.id]|lia]. }
    pose proof Hph as [(L & HL & Ht) P2 P3 P4 P5]. pose proof (tr_nodup _ _ _ Ht) as HN.
    destruct (find_last_ok (removed_ (bu b)) K HN) as (r & Efind & Hr & Hrb & Hbetween).
    { destruct (present rows) as [|e es] eqn:Ee; [done|]. assert (here rows e) as [j Hj] by (apply elem_of_present; rewrite Ee; by left).
      exists (Z.of_nat j). split; [|intros Hin%P3; destruct Hin as [_ Hin]; rewrite Nat2Z.id in Hin; congruence].
      split; [lia|]. destruct (decide (K < Z.of_nat j)) as [Hlt|]; [|lia]. rewrite Hhigh in Hj by (done || by eapply lookup_lt_Some). done. }
    destruct (lowest_ok (bu b) P2 HN Er) as (i & b1 & b2 & Epeek & Epop & _ & HP1 & HS1 & HA1 & HM1 & Hi & Hmin & HR & HNd & HS & Hlen & HA & HM).
    destruct (P3 i Hi) as [Hi0 Hirow]. assert (exists last, r = Z.of_nat last) as [last ->] by (exists (Z.to_nat r); lia). assert (exists empty, i = Z.of_nat empty) as [empty ->] by (exists (Z.to_nat i); lia).
    rewrite Nat2Z.id in Hirow. set (b1' := Batch.with_builder b1 b).
    assert (batch_ok b1' rows) as Hb1 by (destruct Hb; by split).
    assert (phase b1 L0 rows) as Hph1.
    { split; [|done| |by rewrite HA1|by rewrite HM1]; [|intros z Hz; apply P3; by rewrite <- HP1]. exists L. split; [done|by apply (tracks_perm (bu b))]. }
    assert (exists e, rows !! last = Some (Some e)) as [e He].
    { destruct (lookup_lt_is_Some_2 rows last) as [[e|] He]; [unfold zlen in HK; lia|by exists e|]. destruct Hr. apply Hlow; [split; [lia|by rewrite Nat2Z.id]|lia]. }
    assert (forall j, Z.of_nat last < Z.of_nat j -> (j < length rows)%nat -> rows !! j = Some None) as Habove.
    { intros j Hj Hjl. destruct (decide (K < Z.of_nat j)); [by apply Hhigh|]. destruct (P3 (Z.of_nat j)) as [_ Hh]; [apply Hbetween; lia|]. by rewrite Nat2Z.id in Hh. }
    destruct (removed_ (bu b)) as [|z0 l0] eqn:El; [done|]. rewrite <- El in *. unfold lift_res at 1. rewrite Efind. erewrite bind_ok by reflexivity.
    erewrite bind_ok by (apply zoom_ok; exact Epeek). fold b1'. destruct (decide (Z.of_nat last <= Z.of_nat empty)) as [Hle|Hgt].
    + rewrite (proj2 (Z.leb_le _ _) Hle). exists b1', rows. split; [done|]. split; [done|]. split; [done|]. split; [done|]. split; [done|].
      apply (dense_to_prefix rows (S last)); [apply lookup_lt_Some in He; lia| |intros j Hj; apply Habove; lia].
      intros j Hj Hhole. assert (Z.of_nat j ∈ removed_ (bu b)) as Hin by (apply Hlow; [split; [lia|by rewrite Nat2Z.id]|lia]). specialize (Hmin _ Hin).
      assert (j = last) as -> by lia. congruence.
    + rewrite (proj2 (Z.leb_gt (Z.of_nat last) (Z.of_nat empty))) by lia. erewrite bind_ok by (apply zoom_ok; exact Epop). assert (zlen (present rows) <= Z.of_nat last) as Hcount.
      { assert (length (present rows) <= last)%nat; [|unfold zlen; lia].
        assert (present rows = present (take (S last) rows)) as ->.
        { rewrite <- (take_drop (S last) rows) at 1. rewrite present_app, (present_none (drop (S last) rows)), app_nil_r; [done|]. intros j x. rewrite lookup_drop.
          intros Hj. pose proof (lookup_lt_Some _ _ _ Hj). rewrite Habove in Hj by lia. done. }
        pose proof (present_holes (take (S last) rows) 0) as Hc. rewrite length_take in Hc.
        assert (Z.of_nat empty ∈ holes_from 0 (take (S last) rows)) as Hin.
        { apply elem_of_holes. split; [lia|]. rewrite Nat2Z.id, lookup_take_lt by lia. done. }
        destruct (holes_from 0 (take (S last) rows)); [by apply elem_of_nil in Hin|]. rewrite length_cons in Hc. lia. }
      destruct (slide_phase b1' b2 rows L0 last empty e Hb1 Hph1) as (b3 & Eslide & Hb3 & Hrem & Hph3 & Hpres); try done; [lia|cbn; by rewrite HP1| | | |].
      * intros j. cbn. rewrite HR. by rewrite HP1.
      * cbn. by rewrite HA, HA1.
      * cbn. by rewrite HM, HM1.
      * erewrite bind_ok by exact Eslide. destruct (IH b3 (slide_row last empty rows) (Z.of_nat last - 1)) as (b4 & rows4 & E4 & Hb4 & Hph4 & Hpres4 & Hlen4 & Hd4); try done.
        -- rewrite Hrem. lia.
        -- intros E. rewrite E in Hpres. by apply Permutation_nil_l in Hpres.
        -- unfold zlen. rewrite length_slide_row. unfold zlen in HK. lia.
        -- intros z [H1 H2] Hz. rewrite Hrem, HR. rewrite (lookup_slide_row last empty rows e) in H2 by (done || lia). repeat case_decide; try done; [lia|].
           split; [apply Hlow; [by split|lia]|lia].
        -- intros j Hj Hjl. rewrite length_slide_row in Hjl. rewrite (lookup_slide_row last empty rows e) by (done || lia). rewrite decide_False by lia. case_decide; [done|]. apply Habove; [lia|done].
        -- exists b4, rows4. split; [exact E4|]. split; [done|]. split; [done|]. split; [by rewrite Hpres4|]. split; [|done]. by rewrite Hlen4, length_slide_row.
Qed.

(** After [condense] the builder may still name rows behind the last one. *)
Record settled (b : BatchUpdateBuilder) (L0 : layout) (rows : rows_of) : Prop := {
  se_tracks : exists L, lays rows L /\ tracks b L0 L;
  se_removed : Forall (fun i => 0 <= i < Z.of_nat N) (removed_ b);
  se_added : Forall added_fits (added b);
  se_moved : Forall (move_ok (zlen (present rows))) (moved b);
}.

Lemma lays_take rows n L : (forall j, (n <= j < length rows)%nat -> rows !! j = Some None) -> lays rows L -> lays (take n rows) L.
Proof. intros Hh HL z. rewrite row_at_take by done. apply HL. Qed.

Lemma settle b rows n L0 : (length rows <= N)%nat -> phase b L0 rows -> (forall j, (n <= j < length rows)%nat -> rows !! j = Some None) ->
  zlen (present (take n rows)) = zlen (present rows) -> settled b L0 (take n rows).
Proof.
  intros Hroom [(L & HL & Ht) P2 P3 P4 P5] Hh Hcount. split; try done.
  - exists L. split; [by apply lays_take|done].
  - apply Forall_forall. intros z [Hz Hzr]%P3. apply lookup_lt_Some in Hzr. lia.
  - by rewrite Hcount.
Qed.

(** [condense] *)
Lemma condense_ok b rows L0 : batch_ok b rows -> phase (bu b) L0 rows -> exact (bu b) rows ->
  exists b' es, Batch.condense b = (Ok tt, b') /\ batch_ok b' (Some <$> es) /\ settled (bu b') L0 (Some <$> es) /\ es ≡ₚ present rows.
Proof.
  intros Hb Hph Hex. pose proof Hph as [(L & HL & Ht) P2 P3 P4 P5]. destruct (ensure_sorted_ok (bu b) P2) as (b1 & E1 & HP & HS & HF & HA & HM).
  assert (Builder.removed (bu b) = (Ok (removed_ b1), b1)) as Er by (unfold Builder.removed; by rewrite (bind_ok _ _ _ _ _ E1)).
  set (b' := Batch.with_builder b1 b). assert (batch_ok b' rows) as Hb' by (destruct Hb; by split).
  assert (phase b1 L0 rows) as Hph1.
  { split; [|by intros _| |by rewrite HA|by rewrite HM]; [|intros z Hz; apply P3; by rewrite <- HP]. exists L. split; [done|by apply (tracks_perm (bu b))]. }
  assert (exact b1 rows) as Hex1 by (intros z Hz; rewrite HP; by apply Hex).
  assert (Batch.num_reqs b = zlen (present rows)) as Hn by (unfold Batch.num_reqs; by apply num_reqs_present; apply Hb).
  unfold Batch.condense. erewrite bind_ok by reflexivity. erewrite bind_ok by (apply zoom_ok; exact Er). fold b'.
  destruct (removed_ b1) as [|z0 l0] eqn:El.
  - exists b', (present rows). assert (rows = Some <$> present rows) as Hrows.
    { apply dense_rows. intros i Hi. assert (Z.of_nat i ∈ removed_ b1) as Hin by (apply Hex1; split; [lia|by rewrite Nat2Z.id]). rewrite El in Hin. by apply elem_of_nil in Hin. }
    rewrite <- Hrows. split; [done|]. split; [done|]. split; [|done]. rewrite <- (take_ge rows (length rows)) by lia. apply settle; [apply Hb|done|intros j ?; lia|by rewrite take_ge].
  - rewrite Hn. destruct (Z.eqb_spec (zlen (present rows)) 0) as [H0|H0].
    + assert (present rows = []) as Hnil by (destruct (present rows); [done|rewrite zlen_cons in H0; pose proof (zlen_nonneg l); lia]).
      assert (forall j, (0 <= j < length rows)%nat -> rows !! j = Some None) as Hh.
      { intros j Hj. destruct (lookup_lt_is_Some_2 rows j) as [[e|] He]; [lia| |done]. assert (e ∈ present rows) as Hin by (apply elem_of_present; by exists j). rewrite Hnil in Hin. by apply elem_of_nil in Hin. }
      eexists _, []. split; [apply zoom_ok; reflexivity|]. split; [exact (trim_batch_ok N W V dims b' rows 0 Hb' Hh)|]. split; [|by rewrite Hnil].
      change (Some <$> [] : rows_of) with (take 0 rows). apply settle; [apply Hb|done|done|]. cbn [take]. by rewrite Hnil.
    + assert (-1 <= zlen (present rows) + zlen (z0 :: l0) - 1 < zlen rows /\ zlen (present rows) + zlen (z0 :: l0) = zlen rows) as [HK HK'].
      { pose proof (exact_count _ _ _ Hph1 Hex1) as Hc. rewrite El in Hc. pose proof (present_holes rows 0). unfold zlen in *. rewrite Hc. lia. }
      destruct (condense_loop_ok (length (z0 :: l0)) b' rows L0 (zlen (present rows) + zlen (z0 :: l0) - 1)) as (b2 & rows2 & E2 & Hb2 & Hph2 & Hpres & Hlen & Hd1 & Hd2 & Hd3); try done.
      * change (bu b') with b1. by rewrite El.
      * intros E. by rewrite E in H0.
      * intros z Hz _. by apply Hex1.
      * intros j Hj Hjl. unfold zlen in *. lia.
      * rewrite (bind_ok _ _ _ _ _ E2). exists (Batch.with_ids (Ids.trim (Z.of_nat (length (present rows2))) (ids b2)) b2), (present rows2). split; [|split; [|split]].
        -- unfold zlen. rewrite <- Hpres. by apply zoom_ok.
        -- rewrite <- Hd2. by apply trim_batch_ok.
        -- rewrite <- Hd2. apply settle; [apply Hb2|done|done|]. rewrite Hd2. by rewrite present_dense.
        -- done.
Qed.

(** [swap_states] *)
Lemma swap_phase b es L0 (i1 i2 : nat) : batch_ok b (Some <$> es) -> settled (bu b) L0 (Some <$> es) -> i1 ≠ i2 -> (i1 < length es)%nat -> (i2 < length es)%nat ->
  exists b' es', Batch.swap_states (Z.of_nat i1) (Z.of_nat i2) b = (Ok tt, b') /\ batch_ok b' (Some <$> es') /\ settled (bu b') L0 (Some <$> es') /\ es' ≡ₚ es
    /\ (forall j, es' !! j = if decide (j = i1) then es !! i2 else if decide (j = i2) then es !! i1 else es !! j).
Proof.
  intros Hb [(L & HL & Ht) P3 P4 P5] Hne Hl1 Hl2. destruct (lookup_lt_is_Some_2 es i1 Hl1) as [e1 H1], (lookup_lt_is_Some_2 es i2 Hl2) as [e2 H2].
  set (rows := Some <$> es : rows_of) in *. assert (rows !! i1 = Some (Some e1)) as R1 by (unfold rows; by rewrite list_lookup_fmap, H1).
  assert (rows !! i2 = Some (Some e2)) as R2 by (unfold rows; by rewrite list_lookup_fmap, H2).
  destruct (swap_ok N W V dims b rows i1 i2 e1 e2 Hb Hne R1 R2) as (b' & E & Hb' & Hbu). pose proof (bk_room _ _ _ _ _ _ Hb) as Hroom. unfold rows in Hroom. rewrite length_fmap in Hroom.
  assert (swap_rows i1 i2 rows = Some <$> (<[i1 := e2]> (<[i2 := e1]> es))) as Hrows by (unfold swap_rows; rewrite R1, R2; by rewrite !list_fmap_insert).
  assert (present (swap_rows i1 i2 rows) ≡ₚ present rows) as Hpres.
  { apply present_same; [by eapply batch_distinct|by eapply batch_distinct|]. intros x. by apply here_swap with e1 e2. }
  exists b', (<[i1 := e2]> (<[i2 := e1]> es)). rewrite <- Hrows. split; [done|]. split; [done|]. split; [|split].
  - destruct (bk_params _ _ _ _ _ _ Hb e1) as [p1 Hp1]; [by exists i1|]. destruct (bk_params _ _ _ _ _ _ Hb e2) as [p2 Hp2]; [by exists i2|].
    rewrite Hbu. split; [|done|done|].
    + exists (<[Z.of_nat i1 := (p2, rs_prompt_token_ids (en_request e2), en_ref e2)]> (<[Z.of_nat i2 := (p1, rs_prompt_token_ids (en_request e1), en_ref e1)]> L)). split.
      * intros z. rewrite !lookup_insert, (row_at_swap rows i1 i2 e1 e2) by done.
        destruct (decide (z = Z.of_nat i1)) as [->|Hz]; [rewrite decide_True by done; cbn; unfold payload_at; by rewrite Hp2|]. rewrite decide_False by done.
        destruct (decide (z = Z.of_nat i2)) as [->|Hz']; [rewrite decide_True by done; cbn; unfold payload_at; by rewrite Hp1|]. rewrite decide_False by done. apply HL.
      * apply tracks_swap; [done|lia| |]; rewrite HL, row_at_nat, ?R1, ?R2; cbn; unfold payload_at; by rewrite ?Hp1, ?Hp2.
    + cbn. unfold zlen. rewrite Hpres. apply Forall_app. split; [done|]. apply Forall_singleton. unfold move_ok. cbn. split_and!; try lia. done.
  - rewrite Hrows, present_dense in Hpres. unfold rows in Hpres. by rewrite present_dense in Hpres.
  - intros j. rewrite !list_lookup_insert, length_insert. repeat case_decide; try done; naive_solver.
Qed.

(** ** Requests that change in their rows *)

Lemma present_alike rows i e e' : rows !! i = Some (Some e) -> exists l1 l2, present rows = l1 ++ e :: l2 /\ present (<[i := Some e']> rows) = l1 ++ e' :: l2.
Proof.
  intros Hi. pose proof (lookup_lt_Some _ _ _ Hi). exists (present (take i rows)), (present (drop (S i) rows)). split.
  - rewrite <- (take_drop_middle rows i (Some e) Hi) at 1. by rewrite present_app.
  - rewrite insert_take_drop by done. by rewrite present_app.
Qed.

Lemma lays_alike rows i e e' L : rows !! i = Some (Some e) -> alike e e' -> lays rows L -> lays (<[i := Some e']> rows) L.
Proof.
  intros Hi [A1 A2 A3 A4 A5 A6 A7] HL z. rewrite (row_at_alike rows i e e') by done. rewrite HL. case_decide as Hz; [|done]. rewrite Hz, row_at_nat, Hi. cbn.
  unfold payload_at. by rewrite A2, A3, A7.
Qed.

Lemma hole_alike rows i e e' z : rows !! i = Some (Some e) -> hole (<[i := Some e']> rows) z <-> hole rows z.
Proof.
  intros Hi. unfold hole. rewrite list_lookup_insert. case_decide as Hc; [|done]. destruct Hc as [<- _]. rewrite Hi. by split; intros [? ?].
Qed.

Lemma phase_alike b rows L0 i e e' : rows !! i = Some (Some e) -> alike e e' -> phase b L0 rows -> exact b rows ->
  phase b L0 (<[i := Some e']> rows) /\ exact b (<[i := Some e']> rows).
Proof.
  intros Hi Ha [(L & HL & Ht) P2 P3 P4 P5] Hex. destruct (present_alike rows i e e' Hi) as (l1 & l2 & E1 & E2). split; [split; try done|].
  - exists L. split; [by apply lays_alike with e|done].
  - intros z Hz. apply (hole_alike rows i e e'); auto.
  - rewrite E2. rewrite E1 in P5. unfold zlen in *. by rewrite length_app in *.
  - intros z Hz. apply Hex. by apply (hole_alike rows i e e').
Qed.

(** ** [refresh_metadata] *)

(** The processors show the layout of [n] rows. *)
Record procs_ok (h : heap) (p : LogitsProcs) (n : Z) (L : layout) : Prop := {
  po_min_p : min_p_ok (Z.of_nat N) (procs_min_p p) n L;
  po_bias : bias_ok (procs_bias p) L;
  po_min_tokens : min_toks_ok h (procs_min_tokens p) L;
}.

Lemma lays_dense es L z : lays (Some <$> es) L -> (forall e, e ∈ es -> is_Some (params_of e)) -> is_Some (L !! z) <-> 0 <= z < zlen es.
Proof.
  intros HL Hp. rewrite HL. unfold row_at. rewrite list_lookup_fmap. destruct (Z.leb_spec 0 z) as [H0|H0]; [|split; [by intros [? ?]|lia]].
  destruct (es !! Z.to_nat z) as [e|] eqn:E; cbn.
  - pose proof (lookup_lt_Some _ _ _ E). destruct (Hp e) as [p Hp']; [by eapply list_elem_of_lookup_2|]. unfold payload_at. rewrite Hp'. split; [unfold zlen; lia|by eexists].
  - apply lookup_ge_None_1 in E. split; [by intros [? ?]|unfold zlen; lia].
Qed.

Lemma lays_length es es' L : lays (Some <$> es) L -> lays (Some <$> es') L -> (forall e, e ∈ es -> is_Some (params_of e)) -> (forall e, e ∈ es' -> is_Some (params_of e)) -> zlen es = zlen es'.
Proof.
  intros H1 H2 P1 P2. pose proof (fun z => lays_dense es L z H1 P1) as D1. pose proof (fun z => lays_dense es' L z H2 P2) as D2.
  pose proof (D1 (zlen es)) as A. pose proof (D2 (zlen es)) as A'. pose proof (D1 (zlen es')) as B. pose proof (D2 (zlen es')) as B'.
  pose proof (zlen_nonneg es). pose proof (zlen_nonneg es'). rewrite A in A'. rewrite B in B'. lia.
Qed.

Lemma batch_dense_params b es : batch_ok b (Some <$> es) -> forall e, e ∈ es -> is_Some (params_of e).
Proof. intros Hb e He. apply (bk_params _ _ _ _ _ _ Hb). apply elem_of_present. by rewrite present_dense. Qed.

Lemma refresh_ok h0 h b es0 es L0 procs : batch_ok b (Some <$> es) -> settled (bu b) L0 (Some <$> es) ->
  lays (Some <$> es0) L0 -> (forall e, e ∈ es0 -> is_Some (params_of e)) -> procs_ok h0 procs (zlen es0) L0 -> grows h0 h ->
  exists changed b' procs' L, Batch.refresh_metadata h (b, procs) = (Ok changed, (b', procs')) /\ batch_ok b' (Some <$> es) /\ bu b' = Builder.init
    /\ lays (Some <$> es) L /\ procs_ok h procs' (zlen es) L.
Proof.
  intros Hb [(L & HL & Ht) S2 S3 S4] HL0 Hp0 [P1 P2 P3] Hg. pose proof (batch_dense_params b es Hb) as Hp. rewrite present_dense in S4.
  assert (Batch.num_reqs b = zlen es) as Hn by (unfold Batch.num_reqs; rewrite (num_reqs_present _ (Some <$> es)) by apply Hb; by rewrite present_dense).
  assert (batch_ok (Batch.with_builder Builder.init b) (Some <$> es)) as Hb' by (destruct Hb; by split).
  unfold Batch.refresh_metadata. erewrite bind_ok by reflexivity. cbn [fst]. rewrite (bk_pooling _ _ _ _ _ _ Hb).
  destruct (decide (removed_ (bu b) = [] /\ moved (bu b) = [] /\ added (bu b) = [])) as [(E1 & E2 & E3)|Hsome].
  - assert (L = L0) as ->.
    { destruct Ht as [<- _ _ _]. rewrite E1, E2, E3. done. }
    destruct (min_toks_idle h0 h (procs_min_tokens procs) L0 P3 Hg) as (mt & Emt & Hmt).
    eexists _, (Batch.with_builder Builder.init b), _, L0. split; [|split; [done|split; [done|split; [done|]]]].
    + erewrite bind_ok.
      2: { apply zoom_ok. apply zoom_ok. cbn [fst]. unfold Builder.get_and_reset. rewrite E1, E2, E3. reflexivity. }
      erewrite bind_ok.
      2: { apply zoom_ok. cbn [snd]. unfold Batch.update_processors. erewrite bind_ok by (apply zoom_ok; reflexivity). erewrite bind_ok by (apply zoom_ok; reflexivity).
           erewrite bind_ok by (apply zoom_ok; exact Emt). reflexivity. }
      reflexivity.
    + rewrite (lays_length es es0 L0 HL HL0 Hp Hp0). split; cbn; [done| |done]. by destruct P2; split.
  - set (u := {| batch_size := zlen es; upd_removed := removed_ (bu b); upd_added := added (bu b); upd_moved := moved (bu b) |}).
    assert (Builder.get_and_reset (zlen es) (bu b) = (Ok (Some u), Builder.init)) as Eget.
    { unfold Builder.get_and_reset, u. destruct (removed_ (bu b)), (moved (bu b)), (added (bu b)); try done. by destruct Hsome. }
    assert (update_ok (Z.of_nat N) u) as Hu.
    { split; cbn; [|by eapply Forall_impl; [exact S3|]; intros a [? ?]|done|].
      - pose proof (bk_room _ _ _ _ _ _ Hb) as Hroom. rewrite length_fmap in Hroom. unfold zlen. lia.
      - apply Forall_forall. intros m Hm. rewrite Forall_forall in S4. destruct (S4 m Hm) as (M1 & M2 & M3). split; [|done]. pose proof (tr_proper _ _ _ Ht) as Hpr. unfold proper_moves in Hpr. rewrite Forall_forall in Hpr. auto. }
    assert (apply_update payload_of u L0 = L) as HLu by (apply Ht).
    assert (Forall (fun a => rounds (payload_of a)) (upd_added u)) as Hround by (eapply Forall_impl; [exact S3|]; by intros a [? ?]).
    destruct (min_p_follow (Z.of_nat N) (procs_min_p procs) (zlen es0) L0 u P1 Hu Hround) as (mp & Emp & Hmp).
    destruct (bias_follow (procs_bias procs) L0 u P2 (tr_proper _ _ _ Ht)) as (bi & Ebi & Hbi).
    destruct (min_toks_follow h0 h (procs_min_tokens procs) L0 u P3 Hg (tr_proper _ _ _ Ht)) as (mt & Emt & Hmt). rewrite HLu in Hmp, Hbi, Hmt.
    eexists _, (Batch.with_builder Builder.init b), _, L. split.
    + erewrite bind_ok by (apply zoom_ok; apply zoom_ok; cbn [fst]; rewrite Hn; exact Eget). erewrite bind_ok.
      2: { apply zoom_ok. cbn [snd]. unfold Batch.update_processors. erewrite bind_ok by (apply zoom_ok; exact Emp). erewrite bind_ok by (apply zoom_ok; exact Ebi).
           erewrite bind_ok by (apply zoom_ok; exact Emt). reflexivity. }
      reflexivity.
    + split; [done|]. split; [done|]. split; [done|]. by split.
Qed.

End phases.
End BatchPhases.
