(* ===== verification/ReorderBatch.v ===== *)
(** The order of the requests in the persistent batch that some attention backends ask for:
    [reorder_batch_to_split_decodes_and_prefills] of [v1/attention/backends/utils.py].  Indices are
    natural numbers; the swaps follow the cycles of the permutation of the misplaced rows. *)

From Stdlib Require Import QArith.
From stdpp Require Import gmap sorting.
From S2P Require Import Prelude Request BlockTable BatchUpdate InputBatch.
Local Open Scope Z_scope.

Module Reorder.
Section reorder.
Context `{Float32}.

(** The categories of a request; [req_regions]. *)
Definition region (decode_threshold num_computed_tokens num_prompt_tokens num_scheduled_tokens : Z) : Z :=
  let has_context := 0 <? num_computed_tokens in
  let is_below_threshold := num_scheduled_tokens <=? decode_threshold in
  let done_prefilling := num_prompt_tokens <=? num_computed_tokens in
  let is_pure_prefill := negb has_context in
  let is_long_extend := has_context && negb is_below_threshold in
  let is_short_extend := has_context && is_below_threshold && negb done_prefilling in
  if is_pure_prefill then 3 else if is_long_extend then 2 else if is_short_extend then 1 else 0.

(** [np.argsort(keys, kind="stable")] *)
Definition key_le (a b : Z * nat) : Prop := a.1 < b.1 \/ (a.1 = b.1 /\ (a.2 <= b.2)%nat).
#[export] Instance key_le_dec : RelDecision key_le.
Proof. intros a b. unfold key_le. apply _. Defined.
Definition argsort (keys : list Z) : list nat := (merge_sort key_le (zip keys (seq 0 (length keys)))).*2.

(** [l\[mask\]] *)
Definition masked {A} (l : list A) (mask : list bool) : list A := (filter (fun p => p.2 = true) (zip l mask)).*1.

(** How many requests are in a region; [target_regions]. *)
Definition num_in (k : Z) (regions : list Z) : nat := length (filter (fun r => r = k) regions).
Definition target_regions (regions : list Z) : list Z := [0; 1; 2; 3] ≫= fun k => replicate (num_in k regions) k.
Definition needs_swap (regions : list Z) : list bool := zip_with (fun r t => negb (r =? t)) regions (target_regions regions).

Definition orig_indices (regions : list Z) : list nat := masked (seq 0 (length regions)) (needs_swap regions).
Definition src_indices (regions : list Z) : list nat :=
  (fun k => orig_indices regions !!! k) <$> argsort (masked regions (needs_swap regions)).

(** A computation with a local variable. *)
Definition with_local {L S A} (x : L) (c : M (L * S) A) : M S A := fun s => let '(r, p) := c (x, s) in (r, p.2).

(** [while src != dst] *)
Fixpoint chase (fuel : nat) (src dst : nat) : M (gmap nat nat * InputBatch) unit :=
  if decide (src = dst) then mret tt
  else match fuel with
  | O => raise Diverges
  | S fuel =>
      on_snd (Batch.swap_states (Z.of_nat src) (Z.of_nat dst)) ;;
      src_dest_map ← gets fst;
      let next_dst := default dst (src_dest_map !! dst) in
      on_fst (modify (fun m => <[dst := dst]> m)) ;;
      chase fuel src next_dst
  end.

(** [for src in src_dest_map] *)
Definition follow (fuel : nat) (keys : list nat) : M (gmap nat nat * InputBatch) unit :=
  mfor keys (fun src =>
    src_dest_map ← gets fst;
    dst ← lift_res (res_of_option KeyError (src_dest_map !! src));
    chase fuel src dst).

Definition reorder_batch_to_split_decodes_and_prefills (num_scheduled_tokens : list (string * Z)) (decode_threshold : Z) : M InputBatch bool :=
  b ← gets (fun b => b);
  scheduled ← lift_res (mapM (fun id => match id with
    | Some id => res_of_option KeyError (Dict.get id num_scheduled_tokens)
    | None => Raise KeyError
    end) (req_ids (ids b)));
  let num_reqs := zlen (req_ids (ids b)) in
  let computed := py_upto (counts (tokens b) num_computed_tokens_cpu) num_reqs in
  let prompts := py_upto (counts (tokens b) num_prompt_tokens) num_reqs in
  let regions := (fun '(c, (p, s)) => region decode_threshold c p s) <$> zip computed (zip prompts scheduled) in
  if negb (existsb id (needs_swap regions)) then mret false
  else
    let src := src_indices regions in
    let src_dest_map := list_to_map (zip src (orig_indices regions)) : gmap nat nat in
    with_local src_dest_map (follow (length (orig_indices regions)) src) ;;
    mret true.

End reorder.
End Reorder.
