(* ===== verification/ReorderFacts.v ===== *)
(** The reordering of the batch sorts it into the regions. *)

From Stdlib Require Import QArith.
From stdpp Require Import gmap sorting.
From S2P Require Import Prelude Request BlockTable BatchUpdate LogitsFacts LogitsFollow InputBatch BatchRows BatchTokens BatchColumns BatchSampling BatchHoles BatchState BatchPhases ReorderBatch.
Import BatchRows BatchTokens BatchColumns BatchSampling BatchHoles BatchState BatchPhases LogitsFacts Reorder.
Local Open Scope Z_scope.

Module ReorderFacts.

(** ** The regions *)

Definition in_regions (l : list Z) : Prop := Forall (fun r => 0 <= r <= 3) l.

Lemma num_in_cons k r l : num_in k (r :: l) = ((if decide (r = k) then 1 else 0) + num_in k l)%nat.
Proof. unfold num_in. rewrite filter_cons. by case_decide. Qed.

Lemma target_perm l : in_regions l -> target_regions l ≡ₚ l.
Proof.
  induction l as [|r l IH]; intros Hl; [done|]. apply Forall_cons in Hl as [Hr Hl]. rewrite <- (IH Hl) at 2. unfold target_regions. cbn [mbind list_bind].
  rewrite !num_in_cons, !app_nil_r. assert (r = 0 \/ r = 1 \/ r = 2 \/ r = 3) as Hcase by lia.
  destruct Hcase as [-> | [-> | [-> | ->]]]; repeat first [rewrite decide_True by done | rewrite decide_False by done]; cbn [Nat.add replicate app]; [done| | |].
  - by rewrite <- Permutation_middle.
  - by rewrite <- !Permutation_middle.
  - by rewrite <- !Permutation_middle.
Qed.

Lemma target_sorted l : StronglySorted Z.le (target_regions l).
Proof.
  unfold target_regions. cbn [mbind list_bind]. rewrite app_nil_r.
  assert (forall n k (t : list Z), StronglySorted Z.le t -> Forall (fun x => k <= x) t -> StronglySorted Z.le (replicate n k ++ t)) as H.
  { intros n k t Ht Hk. induction n as [|n IH]; cbn; [done|]. constructor; [done|]. apply Forall_app. split; [|done]. apply Forall_replicate. done. }
  assert (forall n (k j : Z), j <= k -> Forall (fun x => j <= x) (replicate n k)) as Hr by (intros; by apply Forall_replicate).
  apply H; [apply H; [apply H; [|by apply Hr]|]|].
  - rewrite <- (app_nil_r (replicate _ 3)). apply H; constructor.
  - apply Forall_app. split; by apply Hr.
  - rewrite !Forall_app. split_and!; by apply Hr.
Qed.

Lemma target_length l : in_regions l -> length (target_regions l) = length l.
Proof. intros Hl. by rewrite target_perm. Qed.

(** Two permuted lists, where they differ. *)
Section differ.
Definition differ (p : Z * Z) : Prop := p.1 ≠ p.2.
#[local] Instance differ_dec p : Decision (differ p) := _.

Lemma differ_perm (ps : list (Z * Z)) : ps.*1 ≡ₚ ps.*2 -> (filter differ ps).*1 ≡ₚ (filter differ ps).*2.
Proof.
  intros H. assert (forall f : Z * Z -> Z, f <$> ps ≡ₚ (f <$> filter differ ps) ++ (f <$> filter (fun p => ¬ differ p) ps)) as Hsplit.
  { intros f. rewrite <- fmap_app. apply fmap_Permutation. clear. induction ps as [|p ps IH]; [done|]. rewrite !filter_cons. destruct (decide (differ p)) as [Hd|Hd].
    - rewrite (decide_False (P := ¬ differ p)) by tauto. cbn. by constructor.
    - rewrite (decide_True (P := ¬ differ p)) by done. rewrite <- Permutation_middle. by constructor. }
  rewrite (Hsplit fst), (Hsplit snd) in H.
  assert ((filter (fun p => ¬ differ p) ps).*1 = (filter (fun p => ¬ differ p) ps).*2) as E.
  { clear. induction ps as [|p ps IH]; [done|]. rewrite !filter_cons. case_decide as Hd; [|done]. cbn. rewrite IH. f_equal. unfold differ in Hd. lia. }
  rewrite E in H. by apply Permutation_app_inv_r in H.
Qed.
End differ.

Lemma strongly_filter {A} (R : A -> A -> Prop) (P : A -> Prop) `{forall x, Decision (P x)} l : StronglySorted R l -> StronglySorted R (filter P l).
Proof.
  induction 1 as [|x l Hs IH Hf]; [constructor|]. rewrite filter_cons. case_decide; [|done]. constructor; [done|].
  apply Forall_forall. intros y [_ Hy]%list_elem_of_filter. rewrite Forall_forall in Hf. auto.
Qed.

Lemma zip_sorted (l l' : list Z) : StronglySorted Z.le l' -> length l' = length l -> StronglySorted (fun p q : Z * Z => p.2 <= q.2) (zip l l').
Proof.
  revert l'. induction l as [|r l IH]; intros [|t l'] Hs Hl; try done; [constructor|]. apply StronglySorted_inv in Hs as [Hs Hf]. injection Hl as Hl.
  change (zip (r :: l) (t :: l')) with ((r, t) :: zip l l'). constructor; [by apply IH|]. apply Forall_forall. intros [a b] (j & Hj)%list_elem_of_lookup.
  apply lookup_zip_with_Some in Hj as (x & y & [= <- <-] & _ & Hy). cbn. rewrite Forall_forall in Hf. apply Hf. by eapply list_elem_of_lookup_2.
Qed.

(** ** The misplaced rows *)

Section misplaced.
Context (regs : list Z) (Hregs : in_regions regs).

Definition pairs : list (Z * Z) := zip regs (target_regions regs).
Definition misplaced : list (nat * (Z * Z)) := filter (fun t => t.2.1 ≠ t.2.2) (zip (seq 0 (length regs)) pairs).

Lemma masked_differ {A} (l : list A) (a b : list Z) : length l = length a -> length a = length b ->
  masked l (zip_with (fun r t => negb (r =? t)) a b) = (filter (fun t : A * (Z * Z) => t.2.1 ≠ t.2.2) (zip l (zip a b))).*1.
Proof.
  unfold masked. revert a b. induction l as [|x l IH]; intros [|r a] [|t b] H1 H2; try done. cbn [zip_with zip]. rewrite !filter_cons. cbn [fst snd].
  injection H1 as H1. injection H2 as H2. destruct (Z.eqb_spec r t) as [->|Hne]; cbn [negb].
  - rewrite decide_False by done. rewrite (decide_False (P := t ≠ t)) by tauto. by apply IH.
  - rewrite decide_True by done. rewrite (decide_True (P := r ≠ t)) by done. cbn. f_equal. by apply IH.
Qed.

Lemma filter_second {A} (l : list A) (l' : list (Z * Z)) : length l = length l' ->
  (filter (fun t : A * (Z * Z) => t.2.1 ≠ t.2.2) (zip l l')).*2 = filter (fun q : Z * Z => q.1 ≠ q.2) l'.
Proof.
  revert l'. induction l as [|x l IH]; intros [|y l'] Hl; try done. injection Hl as Hl. cbn [zip zip_with]. rewrite !filter_cons. cbn [snd]. case_decide; cbn; by rewrite IH.
Qed.

Lemma length_pairs : length pairs = length regs.
Proof. unfold pairs. rewrite length_zip, target_length by done. lia. Qed.

Lemma misplaced_second : misplaced.*2 = filter (fun q : Z * Z => q.1 ≠ q.2) pairs.
Proof. unfold misplaced. apply filter_second. by rewrite length_seq, length_pairs. Qed.

Lemma orig_misplaced : orig_indices regs = misplaced.*1.
Proof. unfold orig_indices, needs_swap. rewrite masked_differ; [done|by rewrite length_seq|by rewrite target_length]. Qed.

Lemma keys_misplaced : masked regs (needs_swap regs) = misplaced.*2.*1.
Proof.
  rewrite misplaced_second. unfold needs_swap.
  rewrite masked_differ by (rewrite ?target_length; done). unfold pairs. generalize (target_regions regs). induction regs as [|r l IH]; intros [|t l']; try done.
  apply Forall_cons in Hregs as [_ Hl]. cbn [zip zip_with]. rewrite !filter_cons. cbn [fst snd]. case_decide; cbn; by rewrite IH.
Qed.

Lemma misplaced_at i q : (i, q) ∈ misplaced -> regs !! i = Some q.1 /\ target_regions regs !! i = Some q.2 /\ q.1 ≠ q.2.
Proof.
  intros [Hd (k & Hk)%list_elem_of_lookup]%list_elem_of_filter. apply lookup_zip_with_Some in Hk as (j & q' & [= <- <-] & Hj & Hq). apply lookup_seq in Hj as [-> _].
  unfold pairs in Hq. apply lookup_zip_with_Some in Hq as (r & t & -> & Hr & Ht). by split_and!.
Qed.

Lemma NoDup_misplaced : NoDup misplaced.*1.
Proof.
  assert (misplaced.*1 `sublist_of` (zip (seq 0 (length regs)) pairs).*1) as Hsub.
  { unfold misplaced. generalize (zip (seq 0 (length regs)) pairs). intros l. induction l as [|x l IH]; [done|]. rewrite filter_cons. case_decide; cbn; by constructor. }
  eapply sublist_NoDup; [|exact Hsub]. rewrite fst_zip by (rewrite length_seq, length_pairs; lia). apply NoDup_seq.
Qed.

#[export] Instance key_le_total : Total key_le.
Proof. intros [a i] [b j]. unfold key_le. cbn. lia. Qed.
#[export] Instance key_le_trans : Transitive key_le.
Proof. intros [a i] [b j] [c k]. unfold key_le. cbn. lia. Qed.

Lemma keyed_sorted (l : list (Z * nat)) : StronglySorted key_le l -> StronglySorted Z.le l.*1.
Proof.
  induction 1 as [|[k i] l Hs IH Hf]; cbn; constructor; [done|]. apply Forall_fmap. eapply Forall_impl; [exact Hf|]. intros [k' i']. unfold key_le. cbn. lia.
Qed.

Lemma argsort_ok (keys : list Z) : exists Q, argsort keys = Q.*2 /\ StronglySorted Z.le Q.*1 /\ Q.*1 ≡ₚ keys /\ Q.*2 ≡ₚ seq 0 (length keys) /\ forall k i, (k, i) ∈ Q -> keys !! i = Some k.
Proof.
  exists (merge_sort key_le (zip keys (seq 0 (length keys)))). pose proof (merge_sort_Permutation key_le (zip keys (seq 0 (length keys)))) as HP. split_and!; [done| | | |].
  - assert (StronglySorted key_le (merge_sort key_le (zip keys (seq 0 (length keys))))) as Hs by apply (StronglySorted_merge_sort key_le).
    by apply keyed_sorted.
  - rewrite HP, fst_zip; [done|]. by rewrite length_seq.
  - rewrite HP, snd_zip; [done|]. by rewrite length_seq.
  - intros k i. rewrite HP. intros (j & Hj)%list_elem_of_lookup. apply lookup_zip_with_Some in Hj as (x & y & [= <- <-] & Hx & Hy). by apply lookup_seq in Hy as [-> _].
Qed.

Lemma strongly_unique (l1 l2 : list Z) : StronglySorted Z.le l1 -> StronglySorted Z.le l2 -> l1 ≡ₚ l2 -> l1 = l2.
Proof. intros H1 H2. apply (StronglySorted_unique Z.le); done. Qed.

(** The requests that go to the misplaced rows have the regions wanted there. *)
Lemma src_regions : length (src_indices regs) = length (orig_indices regs) /\ src_indices regs ≡ₚ orig_indices regs
  /\ forall t s d, src_indices regs !! t = Some s -> orig_indices regs !! t = Some d -> exists r, regs !! s = Some r /\ target_regions regs !! d = Some r.
Proof.
  destruct (argsort_ok (masked regs (needs_swap regs))) as (Q & EQ & HQs & HQp & HQi & HQl). unfold src_indices. rewrite EQ. rewrite keys_misplaced in HQp, HQi, HQl.
  rewrite orig_misplaced. assert (((fun k => misplaced.*1 !!! k) <$> Q.*2) ≡ₚ misplaced.*1) as Hperm.
  { rewrite HQi, !length_fmap. rewrite <- (length_fmap fst misplaced). clear. generalize (misplaced.*1). intros l.
    assert ((fun k => l !!! k) <$> seq 0 (length l) = l) as ->; [|done]. apply list_eq. intros i. rewrite list_lookup_fmap. destruct (decide (i < length l)%nat) as [Hi|Hi].
    - rewrite lookup_seq_lt by done. cbn. symmetry. by apply list_lookup_lookup_total_lt.
    - rewrite lookup_seq_ge by lia. cbn. symmetry. apply lookup_ge_None_2. lia. }
  split; [by rewrite Hperm|]. split; [done|]. assert (Q.*1 = misplaced.*2.*2) as Heq.
  { apply strongly_unique; [done| |].
    - rewrite misplaced_second.
      assert (StronglySorted (fun p q : Z * Z => p.2 <= q.2) pairs) as Hs.
      { apply zip_sorted; [apply target_sorted|by apply target_length]. }
      apply (strongly_filter _ (fun q : Z * Z => q.1 ≠ q.2)) in Hs. revert Hs. generalize (filter (fun q : Z * Z => q.1 ≠ q.2) pairs). clear. intros l Hs.
      induction Hs as [|q l Hs IH Hf]; cbn; [constructor|]. constructor; [done|]. apply Forall_fmap. done.
    - rewrite HQp. rewrite misplaced_second.
      apply (differ_perm pairs). unfold pairs. rewrite fst_zip, snd_zip by (rewrite target_length; done). symmetry. by apply target_perm. }
  intros t s d Hs Hd. rewrite list_lookup_fmap in Hs. destruct (Q.*2 !! t) as [i|] eqn:Ei; [|done]. injection Hs as <-.
  rewrite list_lookup_fmap in Ei. destruct (Q !! t) as [[k i']|] eqn:Eq; [|done]. injection Ei as ->. pose proof (HQl k i (list_elem_of_lookup_2 _ _ _ Eq)) as Hk.
  rewrite !list_lookup_fmap in Hk. destruct (misplaced !! i) as [[x q]|] eqn:Em; [|done]. injection Hk as Hk.
  exists k. split.
  - rewrite (list_lookup_total_correct _ _ x) by (by rewrite list_lookup_fmap, Em). destruct (misplaced_at x q) as [-> _]; [by eapply list_elem_of_lookup_2|]. by rewrite Hk.
  - rewrite list_lookup_fmap in Hd. destruct (misplaced !! t) as [[y q']|] eqn:Et; [|done]. injection Hd as ->. destruct (misplaced_at d q') as (_ & -> & _); [by eapply list_elem_of_lookup_2|].
    assert (Q.*1 !! t = Some k) as H1 by (by rewrite list_lookup_fmap, Eq). rewrite Heq, !list_lookup_fmap, Et in H1. cbn in H1. congruence.
Qed.

(** The other rows are in place. *)
Lemma in_place i r : regs !! i = Some r -> i ∉ orig_indices regs -> target_regions regs !! i = Some r.
Proof.
  intros Hi Hni. destruct (lookup_lt_is_Some_2 (target_regions regs) i) as [t Ht]; [rewrite target_length by done; by eapply lookup_lt_Some|].
  destruct (decide (r = t)) as [->|Hne]; [done|]. destruct Hni. rewrite orig_misplaced. apply list_elem_of_fmap. exists (i, (r, t)). split; [done|].
  apply list_elem_of_filter. split; [done|]. apply list_elem_of_lookup. exists i. rewrite lookup_zip_with, lookup_seq_lt by (by eapply lookup_lt_Some). cbn.
  unfold pairs. by rewrite lookup_zip_with, Hi, Ht.
Qed.
End misplaced.

(** ** Following a cycle *)

Lemma filter_fewer {A} (P Q : A -> Prop) `{forall x, Decision (P x)} `{forall x, Decision (Q x)} (l : list A) x :
  (forall y, y ∈ l -> Q y -> P y) -> x ∈ l -> P x -> ~ Q x -> (length (filter Q l) < length (filter P l))%nat.
Proof.
  assert (forall l : list A, (forall y, y ∈ l -> Q y -> P y) -> (length (filter Q l) <= length (filter P l))%nat) as Hle.
  { clear l x. intros l. induction l as [|y l IH]; intros Himp; [done|]. rewrite !filter_cons. assert (length (filter Q l) <= length (filter P l))%nat by (apply IH; intros; apply Himp; [by right|done]).
    destruct (decide (Q y)) as [Hq|Hq]; [rewrite decide_True by (apply Himp; [by left|done]); cbn; lia|]. destruct (decide (P y)); cbn; lia. }
  induction l as [|y l IH]; intros Himp Hx Hp Hq; [by apply elem_of_nil in Hx|]. rewrite !filter_cons. apply elem_of_cons in Hx as [->|Hx].
  - rewrite decide_False, decide_True by done. cbn. pose proof (Hle l (fun z Hz => Himp z (list_elem_of_further _ _ _ Hz))). lia.
  - assert (length (filter Q l) < length (filter P l))%nat by (apply IH; [intros; apply Himp; [by right|done]|done..]).
    destruct (decide (Q y)) as [Hqy|Hqy]; [rewrite decide_True by (apply Himp; [by left|done]); cbn; lia|]. destruct (decide (P y)); cbn; lia.
Qed.

Section chase.
Context `{Float32} (N W : nat) (V : Z) (dims : list (Z * Z)) (L0 : layout).
Context (rows : list nat) (fin : nat -> option entry).

(** [cur k] is the row where the request in row [k] belongs; rows [done] have got theirs. *)
Record cycles (finished : list nat) (src : option nat) (D : gmap nat nat) (es : list entry) (cur : nat -> nat) : Prop := {
  cy_maps : forall k, k ∈ rows -> cur k ∈ rows;
  cy_inj : forall j k, j ∈ rows -> k ∈ rows -> cur j = cur k -> j = k;
  cy_dict : forall k, k ∈ rows -> src ≠ Some k -> D !! k = Some (cur k) \/ (k ∈ finished /\ cur k = k);
  cy_fin : forall k, es !! k = fin (if decide (k ∈ rows) then cur k else k);
  cy_range : forall k, k ∈ rows -> (k < length es)%nat;
}.
Definition astray (cur : nat -> nat) : nat := length (filter (fun k => cur k ≠ k) rows).

Lemma chase_ok fuel finished src dst D b es cur : batch_ok N W V dims b (Some <$> es) -> settled N (batch_update_builder b) L0 (Some <$> es) ->
  cycles finished (Some src) D es cur -> src ∈ rows -> dst = cur src -> (astray cur <= fuel)%nat ->
  exists D' b' es' cur', chase fuel src dst (D, b) = (Ok tt, (D', b')) /\ batch_ok N W V dims b' (Some <$> es') /\ settled N (batch_update_builder b') L0 (Some <$> es')
    /\ cycles finished (Some src) D' es' cur' /\ cur' src = src /\ (forall k, k ∈ rows -> cur k = k -> cur' k = k) /\ es' ≡ₚ es.
Proof.
  revert dst D b es cur. induction fuel as [|fuel IH]; intros dst D b es cur Hb Hs Hc Hsrc -> Hfuel; cbn [chase].
  - destruct (decide (src = cur src)) as [E|E]; [by exists D, b, es, cur|]. exfalso. unfold astray in Hfuel.
    assert (src ∈ filter (fun k => cur k ≠ k) rows) as Hin by (apply list_elem_of_filter; split; [congruence|done]). destruct (filter _ rows); [by apply elem_of_nil in Hin|cbn in Hfuel; lia].
  - destruct (decide (src = cur src)) as [E|E]; [by exists D, b, es, cur|]. pose proof Hc as [C1 C2 C3 C4 C5]. pose proof (C1 src Hsrc) as Hdst. set (dst := cur src) in *.
    assert (cur dst ≠ dst) as Hmoved by (intros E'; apply E; apply (C2 src dst Hsrc Hdst); by rewrite E').
    assert (D !! dst = Some (cur dst)) as Hnext by (destruct (C3 dst Hdst) as [Hd|[_ Hd]]; [congruence|done|done]).
    destruct (swap_phase N W V dims b es L0 src dst Hb Hs E (C5 _ Hsrc) (C5 _ Hdst)) as (b1 & es1 & E1 & Hb1 & Hs1 & Hp1 & Hl1).
    set (cur1 := fun k => if decide (k = src) then cur dst else if decide (k = dst) then dst else cur k).
    assert (cycles finished (Some src) (<[dst := dst]> D) es1 cur1) as Hc1.
    { assert (forall k, cur1 k = if decide (k = src) then cur dst else if decide (k = dst) then dst else cur k) as Hcur by done. split.
      - intros k Hk. rewrite Hcur. repeat case_decide; auto.
      - intros j k Hj Hk. rewrite !Hcur. destruct (decide (j = src)) as [->|J1], (decide (k = src)) as [->|K1]; try done.
        + destruct (decide (k = dst)) as [->|K2]; [done|]. intros Heq. by apply (C2 dst k) in Heq.
        + destruct (decide (j = dst)) as [->|J2]; [congruence|]. intros Heq. by apply (C2 j dst) in Heq.
        + destruct (decide (j = dst)) as [->|J2], (decide (k = dst)) as [->|K2]; try done; [|intros Heq; by apply (C2 j src) in Heq|by apply C2].
          intros Heq. symmetry in Heq. by apply (C2 k src) in Heq.
      - intros k Hk Hne. rewrite Hcur. destruct (decide (k = src)) as [->|K1]; [done|]. destruct (decide (k = dst)) as [->|K2]; [left; by rewrite lookup_insert_eq|].
        rewrite lookup_insert_ne by done. by apply C3.
      - intros k. rewrite Hl1, Hcur. destruct (decide (k = src)) as [->|K1]; [rewrite C4; by rewrite !decide_True by done|].
        destruct (decide (k = dst)) as [->|K2]; [rewrite C4; by rewrite !decide_True by done|]. apply C4.
      - intros k Hk. rewrite Hp1. by apply C5. }
    assert (cur1 src = cur dst) as Hcs by (unfold cur1; by rewrite decide_True).
    destruct (IH (cur dst) (<[dst := dst]> D) b1 es1 cur1 Hb1 Hs1 Hc1 Hsrc (eq_sym Hcs)) as (D' & b' & es' & cur' & E2 & Hb' & Hs' & Hc' & Hfix & Hkeep & Hp').
    { assert (astray cur1 < astray cur)%nat; [|lia]. unfold astray. apply (filter_fewer _ _ _ dst); [|done|done|].
      - intros k Hk. unfold cur1. repeat case_decide; subst; try done; try congruence.
      - unfold cur1. rewrite decide_False, decide_True by congruence. tauto. }
    assert (forall k, k ∈ rows -> cur k = k -> cur1 k = k) as Hkeep1.
    { intros k Hk Hkk. unfold cur1. destruct (decide (k = src)) as [->|K1]; [by destruct E|]. destruct (decide (k = dst)) as [->|K2]; done. }
    exists D', b', es', cur'. split; [|split_and!; try done; [auto|by rewrite Hp']].
    erewrite bind_ok by (apply zoom_ok; exact E1). erewrite bind_ok by reflexivity. cbn [fst]. rewrite Hnext. cbn [default from_option]. by erewrite bind_ok by reflexivity.
Qed.

Lemma length_filter_le {A} (P : A -> Prop) `{forall x, Decision (P x)} l : (length (filter P l) <= length l)%nat.
Proof. induction l as [|x l IH]; [done|]. rewrite filter_cons. case_decide; cbn; lia. Qed.

(** All cycles are followed. *)
Lemma follow_ok fuel keys D b es cur : (length rows <= fuel)%nat -> NoDup keys -> (forall k, k ∈ keys <-> k ∈ rows) ->
  batch_ok N W V dims b (Some <$> es) -> settled N (batch_update_builder b) L0 (Some <$> es) -> cycles [] None D es cur ->
  exists D' b' es', follow fuel keys (D, b) = (Ok tt, (D', b')) /\ batch_ok N W V dims b' (Some <$> es') /\ settled N (batch_update_builder b') L0 (Some <$> es')
    /\ (forall k, es' !! k = fin k) /\ es' ≡ₚ es.
Proof.
  intros Hfuel Hnd Hkeys Hb Hs Hc. unfold follow.
  destruct (mfor_ok (fun src => src_dest_map ← gets fst; dst ← lift_res (res_of_option KeyError (src_dest_map !! src)); chase fuel src dst)
    (fun dn s => exists es' cur', batch_ok N W V dims s.2 (Some <$> es') /\ settled N (batch_update_builder s.2) L0 (Some <$> es') /\ cycles dn None s.1 es' cur'
      /\ (forall k, k ∈ dn -> cur' k = k) /\ es' ≡ₚ es) keys) with (s := (D, b)) as ((D' & b') & E & es' & cur' & Hb' & Hs' & Hc' & Hfix & Hp).
  - intros dn src todo [D1 b1] Hsplit (es1 & cur1 & Hb1 & Hs1 & Hc1 & Hfix1 & Hp1). cbn [fst snd] in *.
    assert (src ∈ rows) as Hsrc by (apply Hkeys; rewrite Hsplit; set_solver).
    assert (src ∉ dn) as Hni by (rewrite Hsplit in Hnd; apply NoDup_app in Hnd as (_ & Hd & _); intros Hin; apply (Hd src Hin); by left).
    assert (D1 !! src = Some (cur1 src)) as HD by (by destruct (cy_dict _ _ _ _ _ Hc1 src Hsrc) as [?|[? _]]).
    destruct (chase_ok fuel dn src (cur1 src) D1 b1 es1 cur1) as (D2 & b2 & es2 & cur2 & E2 & Hb2 & Hs2 & Hc2 & Hfix2 & Hkeep2 & Hp2); try done.
    { destruct Hc1 as [C1 C2 C3 C4 C5]. split; try done. intros k Hk _. by apply C3. }
    { unfold astray. etransitivity; [apply length_filter_le|done]. }
    exists (D2, b2). split.
    { erewrite bind_ok by reflexivity. cbn [fst]. rewrite HD. by erewrite bind_ok by reflexivity. }
    exists es2, cur2. cbn [fst snd]. split; [done|]. split; [done|]. split; [|split].
    + destruct Hc2 as [C1 C2 C3 C4 C5]. split; try done. intros k Hk _. destruct (decide (k = src)) as [->|Hne].
      * right. split; [set_solver|done].
      * destruct (C3 k Hk) as [?|[? ?]]; [congruence|by left|right; split; [set_solver|done]].
    + intros k [Hk| ->%list_elem_of_singleton]%elem_of_app; [|done]. apply Hkeep2; [apply Hkeys; rewrite Hsplit; set_solver|by apply Hfix1].
    + by rewrite Hp2.
  - exists es, cur. split_and!; try done. by intros k ?%elem_of_nil.
  - exists D', b', es'. split; [exact E|]. split; [done|]. split; [done|]. split; [|done]. intros k. rewrite (cy_fin _ _ _ _ _ Hc'). case_decide as Hk; [|done].
    rewrite Hfix; [done|by apply Hkeys].
Qed.

End chase.

(** ** The reordering *)

Lemma zip_lookup (l l' : list nat) k d : length l = length l' -> NoDup l ->
  (list_to_map (zip l l') : gmap nat nat) !! k = Some d <-> exists t, l !! t = Some k /\ l' !! t = Some d.
Proof.
  intros Hl Hn. rewrite <- elem_of_list_to_map by (by rewrite fst_zip by lia). rewrite list_elem_of_lookup. setoid_rewrite lookup_zip_with_Some. split.
  - intros (t & x & y & [= <- <-] & Hx & Hy). by exists t.
  - intros (t & Hx & Hy). exists t, k, d. by split_and!.
Qed.

Section reorder.
Context `{Float32} (N W : nat) (V : Z) (dims : list (Z * Z)) (L0 : layout).
Context (sched : list (string * Z)) (threshold : Z).

Definition region_of (e : entry) : Z := region threshold (en_computed e) (prompt_len e) (default 0 (Dict.get (en_id e) sched)).

Lemma region_bounds a b c d : 0 <= region a b c d <= 3.
Proof. unfold region. repeat case_match; lia. Qed.

Lemma regions_ok b es : batch_ok N W V dims b (Some <$> es) -> (forall e, e ∈ es -> is_Some (Dict.get (en_id e) sched)) ->
  exists scheduled, mapM (fun id => match id with Some id => res_of_option KeyError (Dict.get id sched) | None => Raise KeyError end) (req_ids (ids b)) = Ok scheduled
  /\ (fun '(c, (p, s)) => region threshold c p s) <$> zip (py_upto (counts (tokens b) num_computed_tokens_cpu) (zlen (req_ids (ids b))))
       (zip (py_upto (counts (tokens b) num_prompt_tokens) (zlen (req_ids (ids b)))) scheduled) = region_of <$> es.
Proof.
  intros Hb Hs. exists ((fun e => default 0 (Dict.get (en_id e) sched)) <$> es). rewrite (io_ids _ _ (bk_ids _ _ _ _ _ _ Hb)). split.
  - clear Hb. induction es as [|e es IH]; [done|]. cbn [fmap list_fmap id_of mapM]. destruct (Hs e) as [n Hn]; [by left|]. rewrite Hn. cbn [res_of_option mbind res_bind default from_option].
    cbn [fmap list_fmap] in IH. rewrite IH by (intros e' He'; apply Hs; by right). done.
  - assert (zlen (id_of <$> (Some <$> es)) = zlen es) as -> by (unfold zlen; by rewrite !length_fmap). rewrite !py_upto_nonneg by apply zlen_nonneg.
    replace (Z.to_nat (zlen es)) with (length es) by (unfold zlen; lia). apply list_eq. intros i. rewrite !list_lookup_fmap, !lookup_zip_with.
    destruct (es !! i) as [e|] eqn:Ei; cbn.
    + assert ((Some <$> es : rows_of) !! i = Some (Some e)) as Hi by (by rewrite list_lookup_fmap, Ei). destruct (bk_tokens _ _ _ _ _ _ Hb i e Hi) as [T1 T2 T3 T4 T5 T6 T7 T8].
      pose proof (lookup_lt_Some _ _ _ Ei). rewrite !lookup_take_lt by done. rewrite T5, T4. cbn. by rewrite list_lookup_fmap, Ei.
    + apply lookup_ge_None_1 in Ei. by rewrite (lookup_take_ge (counts (tokens b) num_computed_tokens_cpu)) by done.
Qed.

Lemma reorder_ok b es : batch_ok N W V dims b (Some <$> es) -> settled N (batch_update_builder b) L0 (Some <$> es) -> (forall e, e ∈ es -> is_Some (Dict.get (en_id e) sched)) ->
  exists f b' es', reorder_batch_to_split_decodes_and_prefills sched threshold b = (Ok f, b') /\ batch_ok N W V dims b' (Some <$> es')
    /\ settled N (batch_update_builder b') L0 (Some <$> es') /\ es' ≡ₚ es /\ StronglySorted Z.le (region_of <$> es').
Proof.
  intros Hb Hs Hk. destruct (regions_ok b es Hb Hk) as (scheduled & Em & Er). set (regs := region_of <$> es) in *.
  assert (in_regions regs) as Hregs by (apply Forall_fmap, Forall_forall; intros e _; apply region_bounds).
  unfold reorder_batch_to_split_decodes_and_prefills. erewrite bind_ok by reflexivity. rewrite Em. erewrite bind_ok by reflexivity. rewrite Er.
  destruct (existsb id (needs_swap regs)) eqn:Ex; cbn [negb].
  2: { exists false, b, es. split; [done|]. split; [done|]. split; [done|]. split; [done|].
       assert (target_regions regs = regs) as Htarget; [|change (StronglySorted Z.le regs); rewrite <- Htarget; apply target_sorted].
       apply list_eq. intros i. destruct (regs !! i) as [r|] eqn:Ei.
       - apply in_place; [done|done|]. rewrite orig_misplaced by done. intros ([j q] & -> & Hin)%list_elem_of_fmap. destruct (misplaced_at regs j q Hin) as (H1 & H2 & H3).
         apply eq_true_false_abs in Ex; [done|]. apply existsb_exists. exists true. split; [|done]. apply list_elem_of_In, list_elem_of_lookup. exists j.
         unfold needs_swap. rewrite lookup_zip_with, H1, H2. cbn. f_equal. apply negb_true_iff. by apply Z.eqb_neq.
       - apply lookup_ge_None_2. rewrite target_length by done. by apply lookup_ge_None_1. }
  destruct (src_regions regs Hregs) as (Hlen & Hperm & Hsrc). set (orig := orig_indices regs) in *. set (src := src_indices regs) in *.
  assert (NoDup orig) as Hno by (unfold orig; rewrite orig_misplaced by done; by apply NoDup_misplaced). assert (NoDup src) as Hns by (by rewrite Hperm).
  set (D := list_to_map (zip src orig) : gmap nat nat). set (inv := list_to_map (zip orig src) : gmap nat nat).
  assert (forall k d, D !! k = Some d <-> exists t, src !! t = Some k /\ orig !! t = Some d) as HD by (intros; by apply zip_lookup).
  assert (forall k d, inv !! k = Some d <-> exists t, orig !! t = Some k /\ src !! t = Some d) as Hinv by (intros; by apply zip_lookup).
  set (cur := fun k => default k (D !! k)). set (fin := fun k => es !! default k (inv !! k)).
  assert (forall k, k ∈ orig -> D !! k = Some (cur k) /\ inv !! cur k = Some k) as Hcur.
  { intros k Hk'. rewrite <- Hperm in Hk'. apply list_elem_of_lookup in Hk' as [t Ht]. destruct (lookup_lt_is_Some_2 orig t) as [d Hd]; [rewrite <- Hlen; by eapply lookup_lt_Some|].
    assert (D !! k = Some d) as E by (apply HD; by exists t). assert (cur k = d) as Ec by (unfold cur; by rewrite E). rewrite Ec. split; [done|]. apply Hinv. by exists t. }
  assert (forall k, k ∈ orig -> (k < length es)%nat) as Hrange.
  { intros k. unfold orig. rewrite orig_misplaced by done. intros ([j q] & -> & Hin)%list_elem_of_fmap. destruct (misplaced_at regs j q Hin) as (H1 & _). apply lookup_lt_Some in H1. unfold regs in H1. by rewrite length_fmap in H1. }
  destruct (follow_ok N W V dims L0 orig fin (length orig) src D b es cur) as (D' & b' & es' & E & Hb' & Hs' & Hfin & Hp); try done.
  { intros k. by rewrite Hperm. }
  { split.
    - intros k Hk'. destruct (Hcur k Hk') as [H1 _]. apply HD in H1 as (t & _ & Ht). by eapply list_elem_of_lookup_2.
    - intros j k Hj Hk' Heq. destruct (Hcur j Hj) as [_ H1], (Hcur k Hk') as [_ H2]. congruence.
    - intros k Hk' _. left. by apply Hcur.
    - intros k. unfold fin. case_decide as Hk'; [by rewrite (proj2 (Hcur k Hk'))|]. destruct (inv !! k) as [d|] eqn:Ei; [|done]. apply Hinv in Ei as (t & Ht & _). destruct Hk'. by eapply list_elem_of_lookup_2.
    - done. }
  exists true, b', es'. split; [unfold with_local; cbn; by rewrite (bind_ok _ _ _ _ b') by (by rewrite E)|]. split; [done|]. split; [done|]. split; [done|].
  assert (region_of <$> es' = target_regions regs) as ->; [|apply target_sorted]. apply list_eq. intros j. rewrite list_lookup_fmap, Hfin. unfold fin.
  destruct (inv !! j) as [s|] eqn:Ei; cbn [default from_option].
  - apply Hinv in Ei as (t & Ht & Hs2). destruct (Hsrc t s j Hs2 Ht) as (r & H1 & H2). rewrite H2, <- H1. unfold regs. by rewrite list_lookup_fmap.
  - assert (j ∉ orig) as Hj. { intros Hj. apply list_elem_of_lookup in Hj as [t Ht]. destruct (lookup_lt_is_Some_2 src t) as [d Hd]; [rewrite Hlen; by eapply lookup_lt_Some|].
      assert (inv !! j = Some d) by (apply Hinv; by exists t). congruence. }
    destruct (es !! j) as [e|] eqn:Ee.
    + symmetry. change (target_regions regs !! j = Some (region_of e)). apply in_place; [done| |done]. unfold regs. by rewrite list_lookup_fmap, Ee.
    + symmetry. apply lookup_ge_None_2. apply lookup_ge_None_1 in Ee. rewrite (target_length regs Hregs). unfold regs. by rewrite length_fmap.
Qed.

End reorder.

End ReorderFacts.
