(* ===== verification/ModelRunner.v ===== *)
(** How the worker follows the scheduler: [_update_states], [_update_streaming_request],
    [_may_reorder_batch] and the caching of sampled tokens in [_bookkeeping_sync] of
    [v1/worker/gpu_model_runner.py].

    Request states are shared objects: they live in [self.requests], and the list of requests to add
    holds their ids.  Output lists and generators are references.  Left out: models with M-RoPE or
    XD-RoPE positions, pooling models, the GPU drafter, zeroing of blocks on the
    device, and late interaction. *)

From Stdlib Require Import QArith.
From stdpp Require Import gmap.
From S2P Require Import Prelude Request Scheduler BlockTable BatchUpdate InputBatch ReorderBatch.
Local Open Scope Z_scope.

(** The fields of [NewRequestData] and [SchedulerOutput] that the worker reads. *)
Record WorkerNewRequest := {
  wn_req_id : string;
  wn_prompt_token_ids : option (list Z);
  wn_prompt_embeds : option (list bytes);
  wn_sampling_params : option WorkerParams;
  wn_block_ids : list (list Z);
  wn_num_computed_tokens : Z;
  wn_lora_request : option LoRARequest;
}.
Record WorkerStep := {
  ws_finished_req_ids : gset string;
  ws_free_encoder_mm_hashes : list string;
  ws_num_scheduled_tokens : list (string * Z);
  ws_new_reqs : list WorkerNewRequest;
  ws_cached_reqs : CachedRequestData;
  ws_spec_decode_tokens : gmap string (list Z);
}.

Record RunnerConfig := {
  is_last_rank : bool;
  use_async_scheduling : bool;
  use_async_spec_decode : bool;
  reorder_batch_threshold : option Z;
  num_groups : Z;
  rc_max_model_len : Z;
}.

Record ModelRunner := {
  runner_config : RunnerConfig;
  cached_requests : gmap string CachedRequestState;
  num_prompt_logprobs : gmap string Z;
  runner_encoder_cache : gset string;
  prev_num_draft_tokens : list Z;
  input_batch : InputBatch;
  logits_procs : LogitsProcs;
  output_lists : heap;
  next_object : nat;
}.

Module Runner.
Section runner.
(** The order in which Python walks a set of strings. *)
Context `{Float32} (order : gset string -> list string).
Abbreviation RM := (M ModelRunner).

Definition with_requests m (s : ModelRunner) : ModelRunner := {| s with cached_requests := m |}.
Definition with_prompt_logprobs m (s : ModelRunner) : ModelRunner := {| s with num_prompt_logprobs := m |}.
Definition with_encoder_cache m (s : ModelRunner) : ModelRunner := {| s with runner_encoder_cache := m |}.
Definition with_drafts l (s : ModelRunner) : ModelRunner := {| s with prev_num_draft_tokens := l |}.
Definition with_batch b (s : ModelRunner) : ModelRunner := {| s with input_batch := b |}.
Definition with_procs p (s : ModelRunner) : ModelRunner := {| s with logits_procs := p |}.
Definition with_outputs h (s : ModelRunner) : ModelRunner := {| s with output_lists := h |}.
Definition with_next n (s : ModelRunner) : ModelRunner := {| s with next_object := n |}.
Definition on_batch {A} : M InputBatch A -> RM A := zoom input_batch with_batch.

Definition get_request (id : string) : RM CachedRequestState :=
  s ← gets cached_requests; lift_res (res_of_option KeyError (s !! id)).
Definition put_request (r : CachedRequestState) : RM unit := modify (fun s => with_requests (<[rs_req_id r := r]> (cached_requests s)) s).
Definition get_output (r : CachedRequestState) : RM (list Z) := gets (fun s => output_of (output_lists s) (rs_output_token_ids r)).
Definition put_output (r : CachedRequestState) (l : list Z) : RM unit :=
  modify (fun s => with_outputs (<[rs_output_token_ids r := l]> (output_lists s)) s).
Definition new_object : RM nat := n ← gets next_object; modify (with_next (S n)) ;; mret n.
(** A new list. *)
Definition new_list (l : list Z) : RM output_ref :=
  n ← new_object; modify (fun s => with_outputs (<[n := l]> (output_lists s)) s) ;; mret n.

Definition remove_from_batch (id : string) : RM unit := on_batch (Batch.remove_request id) ;; mret tt.

(** [_update_streaming_request] *)
Definition update_streaming_request (id : string) (n : WorkerNewRequest) : RM unit :=
  remove_from_batch id ;;
  r ← get_request id;
  put_request {| r with rs_prompt_token_ids := wn_prompt_token_ids n; rs_prompt_embeds := wn_prompt_embeds n; rs_sampling_params := wn_sampling_params n;
                        rs_block_ids := wn_block_ids n; rs_num_computed_tokens := wn_num_computed_tokens n |} ;;
  num_prompt ← lift_res (length_from_prompt_token_ids_or_embeds (wn_prompt_token_ids n) (wn_prompt_embeds n));
  r ← get_request id;
  put_request {| r with rs_num_prompt_tokens := num_prompt |} ;;
  put_output r [].

(** A request that is new to the worker, in [_update_states]. *)
Definition add_new (n : WorkerNewRequest) : RM string :=
  let id := wn_req_id n in
  s ← gets (fun s => s);
  if decide (is_Some (cached_requests s !! id)) then update_streaming_request id n ;; mret id
  else
    generator ← match wn_sampling_params n with
      | Some p => match sampling_type p with RANDOM_SEED => g ← new_object; mret (Some g) | _ => mret None end
      | None => mret None
      end;
    num_prompt ← lift_res (length_from_prompt_token_ids_or_embeds (wn_prompt_token_ids n) (wn_prompt_embeds n));
    output ← new_list [];
    put_request {| rs_req_id := id; rs_prompt_token_ids := wn_prompt_token_ids n; rs_prompt_embeds := wn_prompt_embeds n; rs_num_prompt_tokens := num_prompt;
                   rs_sampling_params := wn_sampling_params n; rs_generator := generator; rs_block_ids := wn_block_ids n;
                   rs_num_computed_tokens := wn_num_computed_tokens n; rs_output_token_ids := output; rs_lora_request := wn_lora_request n;
                   rs_pooling_params := None; rs_pooling_states := None; prev_num_draft_len := 0 |} ;;
    match wn_sampling_params n with
    | Some p => match wp_prompt_logprobs p with
                | Some k => modify (fun s => with_prompt_logprobs (<[id := if k =? -1 then vocab_size (input_batch s) else k]> (num_prompt_logprobs s)) s)
                | None => mret tt
                end
    | None => mret tt
    end ;;
    mret id.

(** The output tokens of a request that the last rank has not sampled itself. *)
Definition propagate_tokens (req_data : CachedRequestData) (i : Z) (r : CachedRequestState) : RM (list Z) :=
  match new_token_ids req_data with
  | [] => mret []
  | _ =>
      new ← lift_res (py_get (new_token_ids req_data) i);
      output ← get_output r;
      let num_new_tokens := rs_num_computed_tokens r + zlen new - (rs_num_prompt_tokens r + zlen output) in
      (if num_new_tokens =? 1 then t ← lift_res (py_get new (-1)); put_output r (output ++ [t])
       else if 0 <? num_new_tokens then put_output r (output ++ py_from new (- num_new_tokens)) else mret tt) ;;
      mret new
  end.

(** Discarded output tokens. *)
Definition align_output (r : CachedRequestState) (req_index : option Z) (num_output_tokens : Z) : RM unit :=
  output ← get_output r;
  if num_output_tokens <? zlen output then
    put_output r (py_upto output num_output_tokens) ;;
    match req_index with
    | None => mret tt
    | Some i =>
        n ← on_batch (Batch.on_tokens (Toks.get_count num_prompt_tokens i));
        on_batch (Batch.on_tokens (Toks.put_count num_tokens_no_spec i (n + num_output_tokens)))
    end
  else mret tt.

(** The optimistic guess that all draft tokens were accepted. *)
Definition guess_accepted (r : CachedRequestState) (req_index : option Z) : RM (CachedRequestState * option (string * Z)) :=
  cfg ← gets runner_config;
  if negb (prev_num_draft_len r =? 0) && use_async_scheduling cfg then
    match req_index with
    | None => let r := {| r with prev_num_draft_len := 0 |} in put_request r ;; mret (r, None)
    | Some _ =>
        let n := prev_num_draft_len r in
        output ← get_output r;
        put_output r (output ++ replicate (Z.to_nat n) (-1)) ;;
        b ← gets input_batch;
        match prev_req_id_to_index (sampling b) ≫= fun m => m !! rs_req_id r with
        | Some j => store prev_num_draft_tokens with_drafts j n
        | None => mret tt
        end ;;
        mret (r, Some (rs_req_id r, n))
    end
  else mret (r, None).

(** The blocks of a request: [block_ids.extend(new_ids)] for each group, or new ones. *)
Fixpoint extend_blocks (old new : list (list Z)) : list (list Z) :=
  match old, new with
  | o :: old, n :: new => (o ++ n) :: extend_blocks old new
  | _, _ => old
  end.
Definition update_blocks (r : CachedRequestState) (req_index : option Z) (new_blocks : option (list (list Z))) (resumed : bool) : RM CachedRequestState :=
  blocks ← (if resumed then
      assert_ (bool_decide (req_index = None)) ;;
      match new_blocks with Some b => mret b | None => raise AssertionError end
    else mret (match new_blocks with Some b => extend_blocks (rs_block_ids r) b | None => rs_block_ids r end));
  let r := {| r with rs_block_ids := blocks |} in
  put_request r ;; mret r.

(** [update_req_spec_token_ids] sets a field of the request. *)
Definition update_spec (id : string) (so : WorkerStep) : RM unit :=
  r ← get_request id;
  r ← on_batch (Batch.update_req_spec_token_ids r (ws_spec_decode_tokens so));
  put_request r.

(** The loop over the requests that the worker knows: the id when the request is to be added, and
    the guess to be corrected later. *)
Definition update_cached (so : WorkerStep) (i : Z) (id : string) : RM (option string * option (string * Z)) :=
  let req_data := ws_cached_reqs so in
  r ← get_request id;
  num_computed ← lift_res (py_get (cr_num_computed_tokens req_data) i);
  new_blocks ← lift_res (py_get (new_block_ids req_data) i);
  let resumed := bool_decide (id ∈ resumed_req_ids req_data) in
  num_output ← lift_res (py_get (cr_num_output_tokens req_data) i);
  b ← gets input_batch;
  cfg ← gets runner_config;
  let req_index := req_id_to_index (ids b) !! id in
  guess ← guess_accepted r req_index;
  let r := {| (guess.1) with rs_num_computed_tokens := num_computed |} in
  put_request r ;;
  new ← (if negb (is_last_rank cfg) then propagate_tokens req_data i r
         else align_output r req_index num_output ;; mret []);
  r ← update_blocks r req_index new_blocks resumed;
  match req_index with
  | None =>
      (if use_async_scheduling cfg && (0 <? num_output) then
         tokens ← lift_res (res_of_option KeyError (Dict.get id (cr_all_token_ids req_data)));
         output ← new_list (py_from tokens (- num_output));
         put_request {| r with rs_output_token_ids := output |}
       else mret tt) ;;
      mret (Some id, guess.2)
  | Some req_index =>
      on_batch (Batch.on_tokens (Toks.put_count num_computed_tokens_cpu req_index num_computed)) ;;
      match new_blocks with Some b => on_batch (Batch.on_table (Tables.append_row b req_index)) | None => mret tt end ;;
      (if negb (is_last_rank cfg) then
         values ← lift_res (Table.as_int32 false new);
         on_batch (Batch.on_tokens (Toks.put_tokens req_index num_computed (num_computed + zlen new) values)) ;;
         on_batch (Batch.on_tokens (Toks.put_count num_tokens_no_spec req_index (num_computed + zlen new)))
       else mret tt) ;;
      update_spec id so ;;
      mret (None, guess.2)
  end.

Fixpoint update_all (so : WorkerStep) (i : Z) (l : list string) : RM (list string * list (string * Z)) :=
  match l with
  | [] => mret ([], [])
  | id :: l =>
      x ← update_cached so i id;
      rest ← update_all so (i + 1) l;
      mret (match x.1 with Some id => id :: rest.1 | None => rest.1 end, match x.2 with Some g => g :: rest.2 | None => rest.2 end)
  end.

(** A request enters the persistent batch. *)
Definition add_to_batch (so : WorkerStep) (id : string) : RM unit :=
  r ← get_request id;
  h ← gets output_lists;
  on_batch (Batch.add_request h r) ;;
  update_spec id so.

(** [_may_reorder_batch] *)
Definition may_reorder_batch (so : WorkerStep) : RM unit :=
  cfg ← gets runner_config;
  if num_groups cfg =? 0 then mret tt
  else match reorder_batch_threshold cfg with
  | Some threshold => on_batch (Reorder.reorder_batch_to_split_decodes_and_prefills (ws_num_scheduled_tokens so) threshold) ;; mret tt
  | None => mret tt
  end.

Definition refresh : RM bool := fun s =>
  let '(r, (b, p)) := Batch.refresh_metadata (output_lists s) (input_batch s, logits_procs s) in (r, with_procs p (with_batch b s)).

(** The requests of the batch that are not scheduled. *)
Definition unscheduled (so : WorkerStep) (s : ModelRunner) : gset string :=
  dom (req_id_to_index (ids (input_batch s))) ∖ (list_to_set (Dict.keys (ws_num_scheduled_tokens so)) ∖ resumed_req_ids (ws_cached_reqs so)).

(** [_update_states]: the guesses that [correct_spec_decode_token_counts] is to correct. *)
Definition update_states (so : WorkerStep) : RM (list (string * Z)) :=
  let finished := order (ws_finished_req_ids so) in
  mfor finished (fun id =>
    modify (fun s => with_requests (delete id (cached_requests s)) s) ;;
    modify (fun s => with_prompt_logprobs (delete id (num_prompt_logprobs s)) s)) ;;
  mfor finished remove_from_batch ;;
  mfor (ws_free_encoder_mm_hashes so) (fun h => modify (fun s => with_encoder_cache (runner_encoder_cache s ∖ {[ h ]}) s)) ;;
  gone ← gets (unscheduled so);
  mfor (order gone) remove_from_batch ;;
  new ← mmapM (ws_new_reqs so) add_new;
  modify (fun s => if use_async_spec_decode (runner_config s) then with_drafts (replicate (length (prev_num_draft_tokens s)) 0) s else s) ;;
  known ← update_all so 0 (cr_req_ids (ws_cached_reqs so));
  mfor (new ++ known.1) (add_to_batch so) ;;
  on_batch Batch.condense ;;
  may_reorder_batch so ;;
  refresh ;;
  mret known.2.

(** [correct_spec_decode_token_counts] *)
Definition correct_spec_decode_token_counts (guesses : list (string * Z)) (valid_sampled_token_count : list Z) : RM unit :=
  b ← gets input_batch;
  match valid_sampled_token_count, default ∅ (prev_req_id_to_index (sampling b)) with
  | [], _ => mret tt
  | _, prev =>
      if decide (prev = ∅) then mret tt
      else mfor guesses (fun '(id, optimistic) =>
        match prev !! id with
        | None => mret tt
        | Some prev_req_index =>
            n ← lift_res (py_get valid_sampled_token_count prev_req_index);
            let correction := optimistic - (n - 1) in
            r ← get_request id;
            put_request {| r with rs_num_computed_tokens := rs_num_computed_tokens r - correction |} ;;
            b ← gets input_batch;
            match req_id_to_index (ids b) !! id with
            | None => mret tt
            | Some i =>
                x ← on_batch (Batch.on_tokens (Toks.get_count num_computed_tokens_cpu i));
                on_batch (Batch.on_tokens (Toks.put_count num_computed_tokens_cpu i (x - correction)))
            end
        end)
  end.

(** The tokens of row [req_idx], in [_bookkeeping_sync]. *)
Definition cache_sampled (req_idx : Z) (sampled_ids : list Z) : RM unit :=
  match sampled_ids with
  | [] => mret tt
  | _ =>
      cfg ← gets runner_config;
      start_idx ← on_batch (Batch.on_tokens (Toks.get_count num_tokens_no_spec req_idx));
      let end_idx := start_idx + zlen sampled_ids in
      assert_ (end_idx <=? rc_max_model_len cfg) ;;
      values ← lift_res (Table.as_int32 false sampled_ids);
      on_batch (Batch.on_tokens (Toks.put_tokens req_idx start_idx end_idx values)) ;;
      on_batch (Batch.on_tokens (Toks.put_flags req_idx start_idx end_idx [true])) ;;
      on_batch (Batch.on_tokens (Toks.put_count num_tokens_no_spec req_idx end_idx)) ;;
      id ← on_batch (Batch.on_ids (load req_ids req_idx));
      match id with
      | None => raise KeyError
      | Some id => r ← get_request id; output ← get_output r; put_output r (output ++ sampled_ids)
      end
  end.

(** The requests whose tokens count in asynchronous scheduling. *)
Definition valid_indices (b : InputBatch) (invalid : list Z) : gmap string Z :=
  list_to_map (omap (fun '(i, id) => match id with Some id => if bool_decide (i ∈ invalid) then None else Some (id, i) | None => None end)
                    (rev (zip (py_range 0 (zlen (req_ids (ids b)))) (req_ids (ids b))))).

(** [_bookkeeping_sync]: [valid] are the sampled tokens of the rows, without those of the rows [discard]. *)
Definition bookkeeping_sync (num_sampled_tokens : Z) (valid : list (list Z)) (discard : list Z) : RM unit :=
  cfg ← gets runner_config;
  if use_async_scheduling cfg then
    on_batch (fun b => (Ok tt, Batch.with_sampling (Sampling.set_prev (Some (valid_indices b discard)) (sampling b)) b)) ;;
    mfor (py_range 0 num_sampled_tokens) (fun i => cache_sampled i (if bool_decide (i ∈ discard) then [] else [-1]))
  else
    mfor (py_range 0 num_sampled_tokens) (fun i => sampled ← lift_res (py_get valid i); cache_sampled i sampled).

End runner.
End Runner.
