(* ===== verification/RunnerFacts.v ===== *)
(** The worker's batch after a step: exactly the scheduled requests, with what the scheduler said. *)

From Stdlib Require Import QArith.
From stdpp Require Import gmap sorting.
From S2P Require Import Prelude Request Scheduler BlockTable BlockTableFacts BatchUpdate LogitsFacts LogitsFollow InputBatch.
From S2P Require Import BatchRows BatchTokens BatchColumns BatchSampling BatchHoles BatchState BatchPhases ReorderBatch ReorderFacts ModelRunner.
Import BatchRows BatchTokens BatchColumns BatchSampling BatchHoles BatchState BatchPhases LogitsFacts LogitsFollow Runner.
Local Open Scope Z_scope.

Module RunnerFacts.

(** ** Requests and their rows *)

(** What does not change while a request is cached. *)
Definition static (r : CachedRequestState) :=
  (rs_req_id r, rs_prompt_token_ids r, rs_prompt_embeds r, rs_num_prompt_tokens r, rs_sampling_params r, rs_generator r, rs_output_token_ids r, rs_lora_request r).

Record follows (h : heap) (r : CachedRequestState) (e : entry) : Prop := {
  fo_static : static (en_request e) = static r;
  fo_output : en_output e = output_of h (rs_output_token_ids r);
  fo_computed : en_computed e = rs_num_computed_tokens r;
  fo_blocks : en_blocks e = rs_block_ids r;
}.

Lemma extend_lookup old new g o n : old !! g = Some o -> new !! g = Some n -> extend_blocks old new !! g = Some (o ++ n).
Proof.
  revert old new. induction g as [|g IH]; intros [|o' old] [|n' new]; try done; cbn; [intros [= ->] [= ->]; done|apply IH].
Qed.

Section runner.
Context `{Float32} (N W : nat) (V : Z) (dims : list (Z * Z)).

(** *** A row told of new blocks and computed tokens *)

Definition told_entry (c : Z) (bl : list (list Z)) (e : entry) : entry := {| e with en_computed := c; en_blocks := bl |}.

Lemma alike_told c bl e : alike e (told_entry c bl e).
Proof. by split. Qed.

Lemma append_tables_ok tables rows i e new c : tables_ok N dims tables rows -> (i < N)%nat -> rows !! i = Some (Some e) -> length new = length dims ->
  blocks_fit dims (extend_blocks (en_blocks e) new) ->
  exists tables', Tables.append_row new (Z.of_nat i) tables = (Ok tt, tables') /\ length tables' = length tables
    /\ tables_ok N dims tables' (<[i := Some (told_entry c (extend_blocks (en_blocks e) new) e)]> rows).
Proof.
  intros Ht HiN Hi Hlen Hfit. apply (each_ok (table_shows N dims (<[i := Some (told_entry c (extend_blocks (en_blocks e) new) e)]> rows))). intros g t Hg.
  pose proof (Ht g t Hg) as Hts. pose proof Hts as [T1 T2 (R & HR & Hrow)]. destruct (Hrow i e Hi) as (o & Ho & HRo).
  destruct (lookup_lt_is_Some_2 new g) as [n Hn]; [rewrite Hlen; by eapply lookup_lt_Some|].
  destruct (Hfit g _ T2) as (l & Hl & Hf & Hw). rewrite (extend_lookup _ _ _ _ _ Ho Hn) in Hl. injection Hl as <-. apply Forall_app in Hf as [_ Hf]. cbn in Hf, Hw.
  destruct (TableFacts.append_row_ok t R HR o n (Z.of_nat i)) as (t' & E & Hsame & Hshow); [lia|by rewrite Nat2Z.id|done|done|]. exists t'. split.
  { unfold lift_res. rewrite py_get_nonneg, Nat2Z.id, Hn by lia. by erewrite bind_ok by reflexivity. }
  eapply table_shows_next; [done|done|done|]. rewrite Nat2Z.id. intros j x Hj. pose proof (shows_length N dims g t rows Hts R HR) as HRl.
  destruct (lookup_alike rows i e _ x j Hi Hj) as [[-> ->]|[Hne Hj']].
  - exists (o ++ n). split; [by apply extend_lookup|]. apply list_lookup_insert_eq. lia.
  - rewrite list_lookup_insert_ne by done. by apply Hrow.
Qed.

Lemma told_row t i e c bl : shape N W t -> (i < N)%nat -> token_row W t i e -> Table.is_int32 c = true ->
  exists t', Toks.put_count num_computed_tokens_cpu (Z.of_nat i) c t = (Ok tt, t') /\ shape N W t' /\ token_row W t' i (told_entry c bl e)
    /\ forall j, j ≠ i -> same_row t t' j.
Proof.
  intros Hs Hi [T1 T2 T3 T4 T5 T6 T7 T8] Hc. eexists. split; [by apply (put_count_ok N W)|]. split; [by apply shape_set_count|]. split; [|intros j Hj; by apply other_count].
  split; try done. rewrite count_eq. apply list_lookup_insert_eq. by rewrite (sh_counts _ _ _ Hs).
Qed.

(** The update of a row in the loop over the known requests. *)
Lemma tell_row b rows i e c nb : batch_ok N W V dims b rows -> rows !! i = Some (Some e) -> Table.is_int32 c = true ->
  (forall new, nb = Some new -> length new = length dims /\ blocks_fit dims (extend_blocks (en_blocks e) new)) ->
  exists b1 b2, Batch.on_tokens (Toks.put_count num_computed_tokens_cpu (Z.of_nat i) c) b = (Ok tt, b1)
    /\ match nb with Some new => Batch.on_table (Tables.append_row new (Z.of_nat i)) | None => mret tt end b1 = (Ok tt, b2)
    /\ batch_ok N W V dims b2 (<[i := Some (told_entry c (match nb with Some new => extend_blocks (en_blocks e) new | None => en_blocks e end) e)]> rows)
    /\ batch_update_builder b2 = batch_update_builder b.
Proof.
  intros Hb Hi Hc Hnew. pose proof Hb as [B1 B2 B3 B4 B5 B6 B7 B8 B9 B10 B11 B12]. assert (i < N)%nat as HiN by (apply lookup_lt_Some in Hi; lia).
  set (bl := match nb with Some new => extend_blocks (en_blocks e) new | None => en_blocks e end).
  destruct (told_row (tokens b) i e c bl B6 HiN (B7 i e Hi) Hc) as (t & E1 & K1 & R1 & O1).
  assert (ids_ok (ids b) (<[i := Some (told_entry c bl e)]> rows)) as Hids by (by apply ids_alike with e).
  destruct nb as [new|].
  - destruct (Hnew new eq_refl) as [Hlen Hfit]. destruct (append_tables_ok (block_table b) rows i e new c B8 HiN Hi Hlen Hfit) as (tb & E2 & L2 & K2).
    exists (Batch.with_tokens t b), (Batch.with_table tb (Batch.with_tokens t b)). split; [by apply zoom_ok|]. split; [by apply zoom_ok|]. split; [|done].
    apply (update_row N W V dims b rows i e _ t (ids b) tb); try done. congruence.
  - exists (Batch.with_tokens t b), (Batch.with_tokens t b). split; [by apply zoom_ok|]. split; [done|]. split; [|done].
    apply (update_row N W V dims b rows i e _ t (ids b) (block_table b)); try done. by apply tables_alike with e.
Qed.

(** ** The loops of a step *)

Abbreviation batch_ok := (batch_ok N W V dims).
Abbreviation bu b := (batch_update_builder b).

Lemma with_batch_id s : with_batch (input_batch s) s = s.
Proof. by destruct s. Qed.

Lemma here_cleared b rows i e x : batch_ok b rows -> rows !! i = Some (Some e) -> here (<[i := None]> rows) x <-> here rows x /\ en_id x ≠ en_id e.
Proof. intros Hb Hi. apply here_clear; [by eapply batch_distinct|done]. Qed.

(** Requests are removed from the batch. *)
Lemma remove_loop l s rows L0 : batch_ok (input_batch s) rows -> removing (bu (input_batch s)) -> phase N (bu (input_batch s)) L0 rows -> exact (bu (input_batch s)) rows ->
  exists b' rows', mfor l remove_from_batch s = (Ok tt, with_batch b' s) /\ batch_ok b' rows' /\ removing (bu b') /\ phase N (bu b') L0 rows' /\ exact (bu b') rows'
    /\ forall e, here rows' e <-> here rows e /\ en_id e ∉ l.
Proof.
  revert s rows. induction l as [|id l IH]; intros s rows Hb Hr Hp He; cbn [mfor].
  - exists (input_batch s), rows. rewrite with_batch_id. split_and!; try done. intros e. split; [intros ?; split; [done|apply not_elem_of_nil]|by intros [? _]].
  - destruct (decide (id ∈ en_id <$> present rows)) as [(e & -> & Hin)%list_elem_of_fmap|Hno].
    + apply elem_of_present in Hin. destruct (remove_phase N W V dims (input_batch s) rows e L0 Hb Hin Hr Hp He) as (i & b1 & rows1 & E1 & Hb1 & Hr1 & Hp1 & He1 & Hperm).
      destruct (IH (with_batch b1 s) rows1 Hb1 Hr1 Hp1 He1) as (b' & rows' & E2 & H1 & H2 & H3 & H4 & H5). exists b', rows'. split; [|split_and!; try done].
      * erewrite bind_ok by (unfold remove_from_batch; erewrite bind_ok by (apply zoom_ok; exact E1); reflexivity). exact E2.
      * intros x. rewrite H5, not_elem_of_cons. assert (here rows1 x <-> here rows x /\ en_id x ≠ en_id e) as ->; [|tauto].
        rewrite <- !elem_of_present, Hperm, elem_of_cons. assert (distinct rows) as Hd by (by eapply batch_distinct). pose proof (NoDup_present rows Hd) as Hnd. rewrite Hperm in Hnd.
        cbn in Hnd. apply NoDup_cons in Hnd as [Hni _]. split.
        -- intros Hx. split; [by right|]. intros Eid. destruct Hni. rewrite <- Eid. by apply list_elem_of_fmap_2.
        -- intros [[->|Hx] Hne]; done.
    + destruct (IH s rows Hb Hr Hp He) as (b' & rows' & E2 & H1 & H2 & H3 & H4 & H5). exists b', rows'. split; [|split_and!; try done].
      * erewrite bind_ok.
        2: { unfold remove_from_batch. erewrite bind_ok; [reflexivity|]. apply zoom_ok. apply (remove_none N W V dims (input_batch s) rows); [done|].
             intros e Hin Eid. apply Hno. rewrite <- Eid. apply list_elem_of_fmap_2. by apply elem_of_present. }
        rewrite with_batch_id. exact E2.
      * intros x. rewrite H5, not_elem_of_cons. split; [|tauto]. intros [Hx Hl]. split; [done|]. split; [|done]. intros Eid. apply Hno. rewrite <- Eid. apply list_elem_of_fmap_2. by apply elem_of_present.
Qed.

(** *** Between removal and [condense] *)

Record objects_ok (s : ModelRunner) : Prop := {
  ob_named : forall id r, cached_requests s !! id = Some r -> rs_req_id r = id;
  ob_old : forall id r, cached_requests s !! id = Some r -> (rs_output_token_ids r < next_object s)%nat;
  ob_own : forall id id' r r', cached_requests s !! id = Some r -> cached_requests s !! id' = Some r' -> rs_output_token_ids r = rs_output_token_ids r' -> id = id';
  ob_new : forall n : output_ref, (next_object s <= n)%nat -> output_lists s !! n = None;
}.

Record mid (s : ModelRunner) (L0 : layout) (rows : rows_of) : Prop := {
  mi_batch : batch_ok (input_batch s) rows;
  mi_phase : phase N (bu (input_batch s)) L0 rows;
  mi_exact : exact (bu (input_batch s)) rows;
  mi_moved : moved (bu (input_batch s)) = [];
  mi_follow : forall e, here rows e -> exists r, cached_requests s !! en_id e = Some r /\ follows (output_lists s) r e;
  mi_objects : objects_ok s;
}.

(** A request that fits into the batch, with its spec tokens. *)
Definition entry_with (output : list Z) (r : CachedRequestState) : entry :=
  {| en_request := r; en_output := output; en_spec := []; en_computed := rs_num_computed_tokens r; en_blocks := rs_block_ids r; en_accepted := 1 |}.
Record request_fits (spec output : list Z) (r : CachedRequestState) : Prop := {
  rf_valid : valid W V dims (entry_with output r);
  rf_spec : forallb Table.is_int32 spec = true;
  rf_room : (length (active (with_spec spec (entry_with output r))) <= W)%nat;
  rf_round : forall a, payload_at (entry_with output r) = Some a -> rounds a;
}.

Lemma entry_with_of h r : entry_of h r = entry_with (output_of h (rs_output_token_ids r)) r.
Proof. done. Qed.

Lemma objects_put s id r r' : objects_ok s -> cached_requests s !! id = Some r -> static r' = static r -> forall b,
  objects_ok (with_requests (<[id := r']> (cached_requests s)) (with_batch b s)).
Proof.
  intros [O1 O2 O3 O4] Hr Hst b. assert (forall id2 x, <[id := r']> (cached_requests s) !! id2 = Some x -> exists y, cached_requests s !! id2 = Some y /\ rs_req_id x = rs_req_id y /\ rs_output_token_ids x = rs_output_token_ids y) as Hback.
  { intros id2 x. rewrite lookup_insert. case_decide as Hc; [intros [= <-]; subst id2; exists r; split; [done|]; by injection Hst|intros Hx; by exists x]. }
  split; cbn.
  - intros id2 x Hx. destruct (Hback id2 x Hx) as (y & Hy & -> & _). by eapply O1.
  - intros id2 x Hx. destruct (Hback id2 x Hx) as (y & Hy & _ & ->). by eapply O2.
  - intros id2 id3 x x' Hx1 Hx2 Heq. destruct (Hback id2 x Hx1) as (y & Hy & _ & Hy2), (Hback id3 x' Hx2) as (y' & Hy' & _ & Hy2'). apply (O3 id2 id3 y y' Hy Hy'). congruence.
  - done.
Qed.

(** A request and its row change together. *)
Lemma mid_update s L0 rows i e e' r r' b' : mid s L0 rows -> rows !! i = Some (Some e) -> alike e e' -> cached_requests s !! en_id e = Some r -> static r' = static r ->
  batch_ok b' (<[i := Some e']> rows) -> bu b' = bu (input_batch s) -> follows (output_lists s) r' e' ->
  mid (with_requests (<[en_id e := r']> (cached_requests s)) (with_batch b' s)) L0 (<[i := Some e']> rows).
Proof.
  intros [M1 M2 M3 M4 M6 M7] Hi Ha Hr Hst Hb' Hbu Hf. destruct (phase_alike N (bu (input_batch s)) rows L0 i e e' Hi Ha M2 M3) as [Hp Hx].
  split; cbn; rewrite ?Hbu; try done; [|by apply (objects_put s (en_id e) r)].
  intros x [j Hj]. destruct (lookup_alike rows i e _ x j Hi Hj) as [[-> ->]|[Hne Hj']].
  - exists r'. by rewrite (ak_id _ _ Ha), lookup_insert_eq.
  - assert (en_id x ≠ en_id e) as Hxe by (intros Eid; apply Hne; by eapply (batch_distinct N W V dims _ _ M1)). destruct (M6 x) as (r0 & Hr0 & Hf0); [by exists j|].
    exists r0. by rewrite lookup_insert_ne.
Qed.

(** A request that is not in the batch changes. *)
Lemma mid_cached s L0 rows id r r' : mid s L0 rows -> (forall e, here rows e -> en_id e ≠ id) -> cached_requests s !! id = Some r -> static r' = static r ->
  mid (with_requests (<[id := r']> (cached_requests s)) s) L0 rows.
Proof.
  intros [M1 M2 M3 M4 M6 M7] Hno Hr Hst. rewrite <- (with_batch_id s) at 2. split; try done; [|by apply (objects_put s id r)].
  intros e He. cbn. rewrite lookup_insert_ne by (intros E; by apply (Hno e)). by apply M6.
Qed.

(** [update_spec] on a request in the batch. *)
Lemma update_spec_runner so s L0 rows i e r spec : mid s L0 rows -> rows !! i = Some (Some e) -> cached_requests s !! en_id e = Some r ->
  spec = default [] (ws_spec_decode_tokens so !! en_id e) -> forallb Table.is_int32 spec = true -> (length (active (with_spec spec e)) <= W)%nat ->
  exists b', update_spec (en_id e) so s = (Ok tt, with_requests (<[en_id e := {| r with prev_num_draft_len := zlen spec |}]> (cached_requests s)) (with_batch b' s))
    /\ mid (with_requests (<[en_id e := {| r with prev_num_draft_len := zlen spec |}]> (cached_requests s)) (with_batch b' s)) L0 (<[i := Some (with_spec spec e)]> rows)
    /\ bu b' = bu (input_batch s).
Proof.
  intros Hm Hi Hr Hspec Hint Hroom. pose proof Hm as [M1 M2 M3 M4 M6 M7]. pose proof (ob_named _ M7 _ _ Hr) as Hid.
  destruct (update_spec_ok N W V dims (input_batch s) rows i e r (ws_spec_decode_tokens so) spec M1 Hi Hid Hspec Hint Hroom) as (b' & E & Hb' & Hbu).
  exists b'. set (r' := {| r with prev_num_draft_len := zlen spec |}) in *. split; [|split; [|done]].
  - unfold update_spec, get_request. erewrite bind_ok by (erewrite bind_ok by reflexivity; rewrite Hr; reflexivity).
    erewrite bind_ok by (apply zoom_ok; exact E). unfold put_request, modify. change (rs_req_id r') with (rs_req_id r). by rewrite Hid.
  - apply (mid_update s L0 rows i e _ r); try done. destruct (M6 e) as (r0 & Hr0 & [F1 F2 F3 F4]); [by exists i|]. rewrite Hr in Hr0. injection Hr0 as <-.
    split; [exact F1|exact F2|exact F3|exact F4].
Qed.

(** ** Requests that the worker knows *)

(** What the scheduler says of the request at position [i]. *)
Definition told (so : WorkerStep) (i : nat) (id : string) (r r' : CachedRequestState) : Prop :=
  exists c nb, cr_num_computed_tokens (ws_cached_reqs so) !! i = Some c /\ new_block_ids (ws_cached_reqs so) !! i = Some nb
    /\ static r' = static r /\ rs_num_computed_tokens r' = c
    /\ rs_block_ids r' = (if bool_decide (id ∈ resumed_req_ids (ws_cached_reqs so)) then default [] nb
                          else match nb with Some new => extend_blocks (rs_block_ids r) new | None => rs_block_ids r end).

Definition told_request (so : WorkerStep) (id : string) (c : Z) (nb : option (list (list Z))) (r : CachedRequestState) : CachedRequestState :=
  {| r with rs_num_computed_tokens := c;
            rs_block_ids := if bool_decide (id ∈ resumed_req_ids (ws_cached_reqs so)) then default [] nb
                            else match nb with Some new => extend_blocks (rs_block_ids r) new | None => rs_block_ids r end |}.
Definition spec_for (so : WorkerStep) (id : string) : list Z := default [] (ws_spec_decode_tokens so !! id).

(** The worker of one device that does not run ahead. *)
Definition plain (cfg : RunnerConfig) : Prop := is_last_rank cfg = true /\ use_async_scheduling cfg = false /\ use_async_spec_decode cfg = false.

(** A known request whose update fits. *)
Record known_fits (so : WorkerStep) (h : heap) (i : nat) (id : string) (r : CachedRequestState) (c : Z) (nb : option (list (list Z))) (n : Z) : Prop := {
  kf_computed : cr_num_computed_tokens (ws_cached_reqs so) !! i = Some c;
  kf_blocks : new_block_ids (ws_cached_reqs so) !! i = Some nb;
  kf_output : cr_num_output_tokens (ws_cached_reqs so) !! i = Some n /\ zlen (output_of h (rs_output_token_ids r)) <= n;
  kf_resumed : id ∈ resumed_req_ids (ws_cached_reqs so) -> is_Some nb;
  kf_groups : forall new, nb = Some new -> length new = length dims;
  kf_fits : request_fits (spec_for so id) (output_of h (rs_output_token_ids r)) (told_request so id c nb r);
}.

Lemma told_static so id c nb r : static (told_request so id c nb r) = static r.
Proof. done. Qed.

(** The rest of the loop's body, once the request is updated. *)
Definition after_blocks (so : WorkerStep) (id : string) (c n : Z) (nb : option (list (list Z))) (req_index : option Z) : M ModelRunner (option string) :=
  match req_index with
  | None => mret (Some id)
  | Some req_index =>
      on_batch (Batch.on_tokens (Toks.put_count num_computed_tokens_cpu req_index c)) ;;
      match nb with Some b => on_batch (Batch.on_table (Tables.append_row b req_index)) | None => mret tt end ;;
      update_spec id so ;;
      mret None
  end.

Lemma update_cached_run so s (i : nat) id r c nb n : plain (runner_config s) -> objects_ok s -> cached_requests s !! id = Some r ->
  known_fits so (output_lists s) i id r c nb n -> (id ∈ resumed_req_ids (ws_cached_reqs so) -> req_id_to_index (ids (input_batch s)) !! id = None) ->
  update_cached so (Z.of_nat i) id s = (o ← after_blocks so id c n nb (req_id_to_index (ids (input_batch s)) !! id); mret (o, None))
    (with_requests (<[id := told_request so id c nb r]> (cached_requests s)) s).
Proof.
  intros (P1 & P2 & P3) Ho Hr [K1 K2 [K3 K3'] K4 K5 K6] Hres. pose proof (ob_named _ Ho _ _ Hr) as Hid. unfold update_cached, get_request.
  erewrite bind_ok by (erewrite bind_ok by reflexivity; rewrite Hr; reflexivity). unfold lift_res. rewrite !py_get_nonneg, !Nat2Z.id, K1, K2, K3 by lia.
  erewrite bind_ok by reflexivity. erewrite bind_ok by reflexivity. erewrite bind_ok by reflexivity. erewrite bind_ok by reflexivity. erewrite bind_ok by reflexivity.
  unfold guess_accepted. erewrite bind_ok by (erewrite bind_ok by reflexivity; rewrite P2, andb_false_r; reflexivity). cbn [fst snd].
  erewrite bind_ok by reflexivity. rewrite P1. cbn [negb]. set (r1 := {| r with rs_num_computed_tokens := c |}). change (rs_req_id r1) with (rs_req_id r). rewrite Hid.
  set (s1 := with_requests (<[id := r1]> (cached_requests s)) s).
  erewrite (bind_ok _ _ _ [] s1).
  2: { erewrite bind_ok; [reflexivity|]. unfold align_output. erewrite bind_ok by reflexivity. change (rs_output_token_ids r1) with (rs_output_token_ids r).
       change (output_lists s1) with (output_lists s). by rewrite (proj2 (Z.ltb_ge _ _) K3'). }
  set (r' := told_request so id c nb r). set (s' := with_requests (<[id := r']> (cached_requests s)) s).
  erewrite (bind_ok _ _ s1 r' s').
  2: { unfold update_blocks. erewrite (bind_ok _ _ s1 (rs_block_ids r') s1).
       2: { unfold r', told_request. cbn [rs_block_ids]. case_bool_decide as Hin; [|done]. rewrite (Hres Hin), bool_decide_eq_true_2 by done. erewrite bind_ok by reflexivity. by destruct (K4 Hin) as [b ->]. }
       assert (put_request r' s1 = (Ok tt, s')) as Ep.
       { unfold put_request, modify. change (rs_req_id r') with (rs_req_id r). rewrite Hid.
         transitivity (Ok tt : res unit, with_requests (<[id := r']> (<[id := r1]> (cached_requests s))) s); [reflexivity|unfold s'; by rewrite insert_insert_eq]. }
       erewrite bind_ok by exact Ep. reflexivity. }
  unfold after_blocks. destruct (req_id_to_index (ids (input_batch s)) !! id) as [idx|].
  - unfold mbind, M_bind. destruct (on_batch (Batch.on_tokens (Toks.put_count num_computed_tokens_cpu idx c)) s') as [[[]|err] s2]; [|done].
    destruct (match nb with Some b => on_batch (Batch.on_table (Tables.append_row b idx)) | None => mret tt end s2) as [[[]|err] s3]; [|done]. cbn.
    by destruct (update_spec id so s3) as [[[]|err] s4].
  - rewrite P2. cbn [andb]. by erewrite bind_ok by reflexivity.
Qed.

Lemma active_same e e' : static (en_request e) = static (en_request e') -> en_output e = en_output e' -> en_spec e = en_spec e' -> active e = active e'.
Proof. intros Hst Ho Hs. injection Hst as _ E1 _ E2 _ _ _ _. unfold active, prompt_of, prompt_len. by rewrite Ho, Hs, E1, E2. Qed.

(** A request of the batch is told what the scheduler says. *)
Lemma tell_known so s L0 rows j e r i c nb n : mid s L0 rows -> rows !! j = Some (Some e) -> cached_requests s !! en_id e = Some r ->
  known_fits so (output_lists s) i (en_id e) r c nb n -> en_id e ∉ resumed_req_ids (ws_cached_reqs so) ->
  exists r' b' e', after_blocks so (en_id e) c n nb (Some (Z.of_nat j)) (with_requests (<[en_id e := told_request so (en_id e) c nb r]> (cached_requests s)) s)
      = (Ok None, with_requests (<[en_id e := r']> (cached_requests s)) (with_batch b' s))
    /\ mid (with_requests (<[en_id e := r']> (cached_requests s)) (with_batch b' s)) L0 (<[j := Some e']> rows)
    /\ static r' = static r /\ rs_num_computed_tokens r' = c /\ rs_block_ids r' = rs_block_ids (told_request so (en_id e) c nb r)
    /\ en_id e' = en_id e /\ en_spec e' = spec_for so (en_id e) /\ bu b' = bu (input_batch s).
Proof.
  intros Hm Hj Hr [K1 K2 [K3 K3'] K4 K5 [R1 R2 R3 R4]] Hres. pose proof Hm as [M1 M2 M3 M4 M6 M7].
  destruct (M6 e) as (r0 & Hr0 & [F1 F2 F3 F4]); [by exists j|]. rewrite Hr in Hr0. injection Hr0 as <-.
  set (r1 := told_request so (en_id e) c nb r) in *.
  assert (rs_block_ids r1 = match nb with Some new => extend_blocks (en_blocks e) new | None => en_blocks e end) as Hbl by (unfold r1, told_request; cbn; rewrite bool_decide_eq_false_2 by done; by rewrite F4).
  assert (Table.is_int32 c = true) as Hc by (apply (tf_counts _ _ (va_tokens _ _ _ _ R1))).
  destruct (tell_row (input_batch s) rows j e c nb M1 Hj Hc) as (b1 & b2 & E1 & E2 & Hb2 & Hbu2).
  { intros new Hnb. split; [by apply K5|]. pose proof (va_blocks _ _ _ _ R1) as Hfit. change (en_blocks (entry_with _ r1)) with (rs_block_ids r1) in Hfit. rewrite Hbl, Hnb in Hfit. exact Hfit. }
  rewrite <- Hbl in Hb2. set (e1 := told_entry c (rs_block_ids r1) e) in *.
  assert (mid (with_requests (<[en_id e1 := r1]> (cached_requests s)) (with_batch b2 s)) L0 (<[j := Some e1]> rows)) as Hm2.
  { by apply (mid_update s L0 rows j e e1 r). }
  set (s2 := with_requests (<[en_id e1 := r1]> (cached_requests s)) (with_batch b2 s)) in *.
  destruct (update_spec_runner so s2 L0 (<[j := Some e1]> rows) j e1 r1 (spec_for so (en_id e)) Hm2) as (b3 & E3 & Hm3 & Hbu3); try done.
  { apply list_lookup_insert_eq. by eapply lookup_lt_Some. }
  { cbn. by rewrite lookup_insert_eq. }
  { rewrite (active_same _ (with_spec (spec_for so (en_id e)) (entry_with (output_of (output_lists s) (rs_output_token_ids r)) r1))); done. }
  rewrite list_insert_insert_eq in Hm3.
  assert (forall x, with_requests (<[en_id e := x]> (cached_requests s2)) (with_batch b3 s2) = with_requests (<[en_id e := x]> (cached_requests s)) (with_batch b3 s)) as Hs3.
  { intros x. transitivity (with_requests (<[en_id e := x]> (<[en_id e := r1]> (cached_requests s))) (with_batch b3 s)); [reflexivity|by rewrite insert_insert_eq]. }
  change (en_id e1) with (en_id e) in E3, Hm3. rewrite Hs3 in E3, Hm3.
  exists {| r1 with prev_num_draft_len := zlen (spec_for so (en_id e)) |}, b3, (with_spec (spec_for so (en_id e)) e1). split; [|split; [exact Hm3|split_and!; try done]].
  - unfold after_blocks. set (s1 := with_requests (<[en_id e := r1]> (cached_requests s)) s).
    erewrite (bind_ok _ _ s1 tt (with_batch b1 s1)) by (apply zoom_ok; exact E1). erewrite (bind_ok _ _ _ tt s2).
    2: { transitivity (Ok tt : res unit, with_batch b2 (with_batch b1 s1)); [|reflexivity]. destruct nb as [new|]; [by apply zoom_ok|]. injection E2 as <-. reflexivity. }
    erewrite bind_ok by exact E3. reflexivity.
  - by rewrite Hbu3.
Qed.

Definition occupied (rows : rows_of) (id : string) : Prop := exists e, here rows e /\ en_id e = id.

Lemma index_cases b rows id : batch_ok b rows ->
  (exists j e, req_id_to_index (ids b) !! id = Some (Z.of_nat j) /\ rows !! j = Some (Some e) /\ en_id e = id) \/ (req_id_to_index (ids b) !! id = None /\ ~ occupied rows id).
Proof.
  intros Hb. destruct (req_id_to_index (ids b) !! id) as [z|] eqn:E.
  - left. pose proof E as (Hz & e & He & Hid)%(io_index _ _ (bk_ids _ _ _ _ _ _ Hb)). exists (Z.to_nat z), e. by rewrite Z2Nat.id.
  - right. split; [done|]. intros (e & He & Hid). destruct (batch_here N W V dims b rows e Hb He) as (j & Hj & _). congruence.
Qed.

(** Nothing but requests and batch changes. *)
Record same_rest (s s' : ModelRunner) : Prop := {
  sr_config : runner_config s' = runner_config s;
  sr_procs : logits_procs s' = logits_procs s;
  sr_outputs : output_lists s' = output_lists s;
  sr_next : next_object s' = next_object s;
}.
Lemma same_rest_refl s : same_rest s s.
Proof. by split. Qed.
Lemma same_rest_trans s1 s2 s3 : same_rest s1 s2 -> same_rest s2 s3 -> same_rest s1 s3.
Proof. intros [A1 A2 A3 A4] [B1 B2 B3 B4]. split; congruence. Qed.

Lemma told_of so i id r c nb n h r' : known_fits so h i id r c nb n -> static r' = static r -> rs_num_computed_tokens r' = c ->
  rs_block_ids r' = rs_block_ids (told_request so id c nb r) -> told so i id r r'.
Proof. intros [K1 K2 K3 K4 K5 K6] H1 H2 H3. exists c, nb. by split_and!. Qed.

(** One round of the loop. *)
Lemma update_cached_ok so s L0 rows i id r c nb n : plain (runner_config s) -> mid s L0 rows -> cached_requests s !! id = Some r ->
  known_fits so (output_lists s) i id r c nb n -> (id ∈ resumed_req_ids (ws_cached_reqs so) -> ~ occupied rows id) ->
  exists o s' rows' r', update_cached so (Z.of_nat i) id s = (Ok (o, None), s') /\ mid s' L0 rows' /\ same_rest s s' /\ bu (input_batch s') = bu (input_batch s)
    /\ cached_requests s' = <[id := r']> (cached_requests s) /\ told so i id r r'
    /\ (forall e, en_id e ≠ id -> here rows' e <-> here rows e) /\ (occupied rows' id <-> occupied rows id)
    /\ ((o = None /\ occupied rows id /\ forall e, here rows' e -> en_id e = id -> en_spec e = spec_for so id)
        \/ (o = Some id /\ ~ occupied rows id /\ request_fits (spec_for so id) (output_of (output_lists s') (rs_output_token_ids r')) r')).
Proof.
  intros Hpl Hm Hr Hk Hres. pose proof Hm as [M1 M2 M3 M4 M6 M7]. destruct (index_cases (input_batch s) rows id M1) as [(j & e & Hindex & Hj & <-)|[Hindex Hno]].
  - assert (occupied rows (en_id e)) as Hocc by (exists e; split; [by exists j|done]). assert (en_id e ∉ resumed_req_ids (ws_cached_reqs so)) as Hres' by (intros Hin; by apply Hres).
    destruct (tell_known so s L0 rows j e r i c nb n Hm Hj Hr Hk Hres') as (r' & b' & e' & E & Hm' & Hst & Hc & Hbl & Hid & Hsp & Hbu).
    eexists None, _, _, r'. split.
    { rewrite (update_cached_run so s i (en_id e) r c nb n) by done. rewrite Hindex. erewrite bind_ok by exact E. reflexivity. }
    split; [exact Hm'|]. split; [by split|]. split; [exact Hbu|]. split; [done|]. split; [by apply (told_of so i _ r c nb n (output_lists s))|].
    assert (forall x k, <[j := Some e']> rows !! k = Some (Some x) -> (k = j /\ x = e') \/ (k ≠ j /\ rows !! k = Some (Some x))) as Hlook by (intros x k; by apply (lookup_alike rows j e e' x k)).
    assert (here (<[j := Some e']> rows) e') as Hhere by (exists j; apply list_lookup_insert_eq; by eapply lookup_lt_Some).
    split; [|split; [|left; split; [done|split; [done|]]]].
    + intros x Hx. split; intros [k Hxk].
      * destruct (Hlook x k Hxk) as [[-> ->]|[_ Hk2]]; [congruence|by exists k].
      * exists k. rewrite list_lookup_insert_ne; [done|]. intros <-. congruence.
    + split; [done|]. intros _. by exists e'.
    + intros x [k Hxk] Hx. destruct (Hlook x k Hxk) as [[-> ->]|[Hne Hk2]]; [by rewrite Hsp|]. destruct Hne. by eapply (batch_distinct N W V dims _ _ M1).
  - assert (forall e, here rows e -> en_id e ≠ id) as Hno' by (intros e He Hid; apply Hno; by exists e).
    eexists (Some id), _, rows, (told_request so id c nb r). split.
    { rewrite (update_cached_run so s i id r c nb n) by done. rewrite Hindex. reflexivity. }
    split; [by apply (mid_cached s L0 rows id r)|]. split; [by split|]. split; [done|]. split; [done|]. split; [by apply (told_of so i _ r c nb n (output_lists s))|].
    split; [done|]. split; [done|]. right. split; [done|]. split; [done|]. apply Hk.
Qed.

(** What the loop over the requests [l] from position [k] on has done. *)
Record all_told (so : WorkerStep) (k : nat) (l : list string) (s s' : ModelRunner) (rows rows' : rows_of) (add : list string) : Prop := {
  at_others : forall id, id ∉ l -> cached_requests s' !! id = cached_requests s !! id;
  at_told : forall i id, l !! i = Some id -> exists r r', cached_requests s !! id = Some r /\ cached_requests s' !! id = Some r' /\ told so (k + i) id r r';
  at_rows : forall id, occupied rows' id <-> occupied rows id;
  at_same : forall e, en_id e ∉ l -> here rows' e <-> here rows e;
  at_spec : forall e, here rows' e -> en_id e ∈ l -> en_spec e = spec_for so (en_id e);
  at_add : forall id, id ∈ add <-> id ∈ l /\ ~ occupied rows id;
  at_once : NoDup add;
  at_fits : forall id, id ∈ add -> exists r', cached_requests s' !! id = Some r' /\ request_fits (spec_for so id) (output_of (output_lists s') (rs_output_token_ids r')) r';
}.

Lemma update_all_ok so l : forall k s L0 rows, plain (runner_config s) -> mid s L0 rows -> NoDup l ->
  (forall i id, l !! i = Some id -> exists r c nb n, cached_requests s !! id = Some r /\ known_fits so (output_lists s) (k + i) id r c nb n) ->
  (forall id, id ∈ l -> id ∈ resumed_req_ids (ws_cached_reqs so) -> ~ occupied rows id) ->
  exists add s' rows', update_all so (Z.of_nat k) l s = (Ok (add, []), s') /\ mid s' L0 rows' /\ same_rest s s' /\ bu (input_batch s') = bu (input_batch s)
    /\ all_told so k l s s' rows rows' add.
Proof.
  induction l as [|id l IH]; intros k s L0 rows Hpl Hm Hn Hk Hres; cbn [update_all].
  - exists [], s, rows. split; [done|]. split; [done|]. split; [apply same_rest_refl|]. split; [done|].
    split; [done|by intros [|i] id|done|done|by intros e _ ?%elem_of_nil|by intros id; split; [intros ?%elem_of_nil|intros [?%elem_of_nil _]]|constructor|by intros id ?%elem_of_nil].
  - apply NoDup_cons in Hn as [Hni Hn]. destruct (Hk 0%nat id eq_refl) as (r & c & nb & n & Hr & Hfit). rewrite Nat.add_0_r in Hfit.
    destruct (update_cached_ok so s L0 rows k id r c nb n Hpl Hm Hr Hfit) as (o & s1 & rows1 & r' & E1 & Hm1 & Hrest1 & Hbu1 & Hc1 & Ht1 & Hsame1 & Hocc1 & Hcase); [apply Hres; by left|].
    assert (forall x, occupied rows1 x <-> occupied rows x) as Hocc.
    { intros x. destruct (decide (x = id)) as [->|Hx]; [done|]. unfold occupied. split; intros (e & He & Hid); exists e; (split; [apply Hsame1; congruence|done]). }
    destruct (IH (S k) s1 L0 rows1) as (add & s2 & rows2 & E2 & Hm2 & Hrest2 & Hbu2 & [A1 A2 A3 A4 A5 A6 A7 A8]); [by rewrite (sr_config _ _ Hrest1)|done|done| | |].
    { intros i x Hi. destruct (Hk (S i) x Hi) as (r1 & c1 & nb1 & n1 & Hr1 & Hfit1). exists r1, c1, nb1, n1. rewrite Hc1, (sr_outputs _ _ Hrest1), lookup_insert_ne.
      - split; [done|]. by replace (S k + i)%nat with (k + S i)%nat by lia.
      - intros ->. apply Hni. by eapply list_elem_of_lookup_2. }
    { intros x Hx Hxr. rewrite Hocc. apply Hres; [by right|done]. }
    exists (match o with Some x => x :: add | None => add end), s2, rows2. split.
    { rewrite (bind_ok _ _ _ _ _ E1). cbn [fst snd]. replace (Z.of_nat k + 1) with (Z.of_nat (S k)) by lia. rewrite (bind_ok _ _ _ _ _ E2). done. }
    split; [done|]. split; [by eapply same_rest_trans|]. split; [by rewrite Hbu2|].
    assert (cached_requests s2 !! id = Some r') as Hr2 by (rewrite (A1 id Hni), Hc1; by rewrite lookup_insert_eq). split.
    + intros x [Hx Hx']%not_elem_of_cons. rewrite (A1 x Hx'), Hc1. by rewrite lookup_insert_ne.
    + intros [|i] x Hi; [injection Hi as <-; exists r, r'; by rewrite Nat.add_0_r|]. cbn in Hi. destruct (A2 i x Hi) as (r1 & r1' & H1 & H2 & H3). exists r1, r1'.
      rewrite Hc1, lookup_insert_ne in H1 by (intros ->; apply Hni; by eapply list_elem_of_lookup_2). split_and!; try done. by replace (k + S i)%nat with (S k + i)%nat by lia.
    + intros x. by rewrite A3, Hocc.
    + intros e [He He']%not_elem_of_cons. by rewrite (A4 e He'), Hsame1.
    + intros e He [Hid|Hin]%elem_of_cons; [|by apply A5]. destruct Hcase as [(_ & _ & Hsp)|(_ & Hno & _)].
      * rewrite Hid. apply Hsp; [|done]. apply A4; [by rewrite Hid|done].
      * destruct Hno. apply Hocc. apply A3. exists e. by split.
    + intros x. destruct Hcase as [(-> & Hyes & _)|(-> & Hno & _)]; rewrite ?elem_of_cons, A6, Hocc; [|naive_solver].
      split; [naive_solver|]. intros [[->|Hx] Hnx]; [done|by split].
    + destruct Hcase as [(-> & _ & _)|(-> & _ & _)]; [done|]. constructor; [|done]. rewrite A6. tauto.
    + destruct Hcase as [(-> & _ & _)|(-> & _ & Hf)]; [done|]. intros x [->|Hx]%elem_of_cons; [|by apply A8]. exists r'. split; [done|]. by rewrite (sr_outputs _ _ Hrest2).
Qed.

(** ** Requests that are new to the worker *)

Definition request_of (n : WorkerNewRequest) (k : Z) (g : option nat) (o : output_ref) : CachedRequestState :=
  {| rs_req_id := wn_req_id n; rs_prompt_token_ids := wn_prompt_token_ids n; rs_prompt_embeds := wn_prompt_embeds n; rs_num_prompt_tokens := k;
     rs_sampling_params := wn_sampling_params n; rs_generator := g; rs_block_ids := wn_block_ids n; rs_num_computed_tokens := wn_num_computed_tokens n;
     rs_output_token_ids := o; rs_lora_request := wn_lora_request n; rs_pooling_params := None; rs_pooling_states := None; prev_num_draft_len := 0 |}.

Lemma heap_lookup (h : heap) (o m : output_ref) l : (<[o := l]> h : heap) !! m = if decide (o = m) then Some l else h !! m.
Proof. unfold heap in *. apply lookup_insert. Qed.
Lemma output_of_other (h : heap) (o ref : output_ref) l : ref ≠ o -> output_of (<[o := l]> h) ref = output_of h ref.
Proof. intros Hne. unfold output_of. by rewrite heap_lookup, decide_False. Qed.
Lemma output_of_same (h : heap) (o : output_ref) l : output_of (<[o := l]> h) o = l.
Proof. unfold output_of. by rewrite heap_lookup, decide_True. Qed.

(** New objects have been made. *)
Record grown (s s' : ModelRunner) : Prop := {
  gr_config : runner_config s' = runner_config s;
  gr_procs : logits_procs s' = logits_procs s;
  gr_batch : input_batch s' = input_batch s;
  gr_old : forall o : output_ref, (o < next_object s)%nat -> output_lists s' !! o = output_lists s !! o;
  gr_next : (next_object s <= next_object s')%nat;
  gr_lists : grows (output_lists s) (output_lists s');
}.
Lemma grown_refl s : grown s s.
Proof. split; try done. intros o. lia. Qed.
Lemma grown_trans s1 s2 s3 : grown s1 s2 -> grown s2 s3 -> grown s1 s3.
Proof.
  intros [A1 A2 A3 A4 A5 A6] [B1 B2 B3 B4 B5 B6]. split; try congruence; [|lia|].
  - intros o Ho. rewrite B4 by lia. by apply A4.
  - intros o. etransitivity; [apply A6|apply B6].
Qed.

Lemma add_new_ok s L0 rows n k p : mid s L0 rows -> cached_requests s !! wn_req_id n = None -> wn_sampling_params n = Some p ->
  length_from_prompt_token_ids_or_embeds (wn_prompt_token_ids n) (wn_prompt_embeds n) = Ok k ->
  exists g o s', add_new n s = (Ok (wn_req_id n), s') /\ mid s' L0 rows /\ grown s s'
    /\ cached_requests s' = <[wn_req_id n := request_of n k g o]> (cached_requests s) /\ output_of (output_lists s') o = [].
Proof.
  intros [M1 M2 M3 M4 M6 [O1 O2 O3 O4]] Hnew Hp Hlen. set (id := wn_req_id n) in *.
  assert (exists g s1, (match wn_sampling_params n with
      | Some p => match sampling_type p with RANDOM_SEED => g ← new_object; mret (Some g) | _ => mret None end
      | None => mret None end) s = (Ok g, s1) /\ (s1 = s \/ s1 = with_next (S (next_object s)) s)) as (g & s1 & E1 & H1).
  { rewrite Hp. destruct (sampling_type p); [exists None, s; by split; [|left]|exists None, s; by split; [|left]|].
    exists (Some (next_object s)), (with_next (S (next_object s)) s). split; [done|by right]. }
  set (o := next_object s1). assert (next_object s <= o)%nat as Ho by (unfold o; destruct H1 as [->| ->]; cbn; lia).
  set (s2 := with_outputs (<[o := []]> (output_lists s)) (with_next (S o) s)).
  set (r := request_of n k g o). set (s3 := with_requests (<[id := r]> (cached_requests s)) s2).
  set (s4 := match wp_prompt_logprobs p with
             | Some k => with_prompt_logprobs (<[id := if k =? -1 then vocab_size (input_batch s3) else k]> (num_prompt_logprobs s3)) s3 | None => s3 end).
  assert (input_batch s4 = input_batch s /\ cached_requests s4 = <[id := r]> (cached_requests s) /\ output_lists s4 = <[o := []]> (output_lists s) /\ next_object s4 = S o
    /\ runner_config s4 = runner_config s /\ logits_procs s4 = logits_procs s) as (X1 & X2 & X3 & X4 & X5 & X6).
  { unfold s4. destruct (wp_prompt_logprobs p); by split_and!. }
  assert (output_lists s !! (o : output_ref) = None) as Hfree by (apply (O4 o); lia).
  exists g, o, s4. split; [|split; [|split; [|split; [done|]]]].
  - unfold add_new. erewrite bind_ok by reflexivity. fold id. rewrite decide_False by (rewrite Hnew; by intros [? ?]). rewrite (bind_ok _ _ _ _ _ E1).
    rewrite Hlen. erewrite bind_ok by reflexivity. erewrite (bind_ok _ _ s1 o s2).
    2: { unfold new_list, new_object. erewrite bind_ok by (erewrite bind_ok by reflexivity; erewrite bind_ok by reflexivity; reflexivity). erewrite bind_ok by reflexivity.
         unfold o, s2. by destruct H1 as [->| ->]. }
    erewrite (bind_ok _ _ s2 tt s3) by reflexivity. rewrite Hp. erewrite (bind_ok _ _ s3 tt s4) by (unfold s4; by destruct (wp_prompt_logprobs p)). done.
  - split; rewrite ?X1; try done.
    + intros e He. destruct (M6 e He) as (r0 & Hr0 & [F1 F2 F3 F4]). exists r0. rewrite X2, lookup_insert_ne by (intros E; rewrite <- E in Hr0; by rewrite Hnew in Hr0). split; [done|].
      split; try done. rewrite X3, output_of_other; [done|]. specialize (O2 _ _ Hr0). lia.
    + split; rewrite ?X2, ?X3, ?X4.
      * intros id' r0. rewrite lookup_insert. case_decide as Hc; [by intros [= <-]|apply O1].
      * intros id' r0. rewrite lookup_insert. case_decide as Hc; [intros [= <-]; cbn; lia|intros Hr0; specialize (O2 _ _ Hr0); lia].
      * intros id1 id2 r1 r2. rewrite !lookup_insert. destruct (decide (id = id1)) as [E1'|E1'], (decide (id = id2)) as [E2'|E2']; [congruence| | |apply O3].
        -- intros [= <-] Hr2 Heq. specialize (O2 _ _ Hr2). cbn in Heq. lia.
        -- intros Hr1 [= <-] Heq. specialize (O2 _ _ Hr1). cbn in Heq. lia.
      * intros m Hm. rewrite heap_lookup, decide_False by lia. apply O4. lia.
  - split; try done; rewrite ?X3, ?X4; [|lia|].
    + intros m Hm. by rewrite heap_lookup, decide_False by lia.
    + intros m. unfold MinToks.output_len. rewrite heap_lookup. case_decide as Hc; [|done]. rewrite <- Hc. by rewrite Hfree.
  - by rewrite X3, output_of_same.
Qed.

(** A new request whose data fit. *)
Record new_fits (so : WorkerStep) (n : WorkerNewRequest) : Prop := {
  nf_params : is_Some (wn_sampling_params n);
  nf_prompt : exists k, length_from_prompt_token_ids_or_embeds (wn_prompt_token_ids n) (wn_prompt_embeds n) = Ok k;
  nf_fits : forall k g o, length_from_prompt_token_ids_or_embeds (wn_prompt_token_ids n) (wn_prompt_embeds n) = Ok k ->
    request_fits (spec_for so (wn_req_id n)) [] (request_of n k g o);
}.

(** The worker has made the requests [l]. *)
Record all_made (l : list WorkerNewRequest) (s s' : ModelRunner) : Prop := {
  am_others : forall id, id ∉ wn_req_id <$> l -> cached_requests s' !! id = cached_requests s !! id;
  am_made : forall n, n ∈ l -> exists k g o, cached_requests s' !! wn_req_id n = Some (request_of n k g o)
    /\ length_from_prompt_token_ids_or_embeds (wn_prompt_token_ids n) (wn_prompt_embeds n) = Ok k /\ output_of (output_lists s') o = [];
}.

Lemma add_all_new so l s L0 rows : mid s L0 rows -> NoDup (wn_req_id <$> l) -> (forall n, n ∈ l -> cached_requests s !! wn_req_id n = None /\ new_fits so n) ->
  exists s', mmapM l add_new s = (Ok (wn_req_id <$> l), s') /\ mid s' L0 rows /\ grown s s' /\ all_made l s s'.
Proof.
  intros Hm Hn Hnew. destruct (mmapM_ok add_new (fun dn outs s' => outs = wn_req_id <$> dn /\ mid s' L0 rows /\ grown s s' /\ all_made dn s s') l) with (s := s) as (outs & s' & E & -> & H1 & H2 & H3).
  - intros dn outs s1 n todo Hl (-> & Hm1 & Hg1 & [A1 A2]). destruct (Hnew n) as [Hnone [[p Hp] [k Hk] _]]; [rewrite Hl; set_solver|].
    assert (wn_req_id n ∉ wn_req_id <$> dn) as Hni.
    { rewrite Hl, fmap_app, fmap_cons in Hn. apply NoDup_app in Hn as (_ & Hd & _). intros Hin. apply (Hd _ Hin). by left. }
    destruct (add_new_ok s1 L0 rows n k p) as (g & o & s2 & E2 & Hm2 & Hg2 & Hc2 & Ho2); [done|by rewrite A1|done|done|].
    exists (wn_req_id n), s2. split; [done|]. split; [by rewrite fmap_app|]. split; [done|]. split; [by eapply grown_trans|]. split.
    + intros id. rewrite fmap_app, not_elem_of_app. intros [H1 H2]. rewrite Hc2, lookup_insert_ne; [by apply A1|]. intros <-. apply H2. by left.
    + intros m [Hin| ->%list_elem_of_singleton]%elem_of_app.
      * destruct (A2 m Hin) as (k1 & g1 & o1 & B1 & B2 & B3). exists k1, g1, o1. rewrite Hc2, lookup_insert_ne.
        -- split; [done|]. split; [done|]. rewrite <- B3. unfold output_of. rewrite (gr_old _ _ Hg2 o1); [done|]. apply (ob_old _ (mi_objects _ _ _ Hm1) _ _ B1).
        -- intros Heq. apply Hni. rewrite Heq. by apply list_elem_of_fmap_2.
      * exists k, g, o. rewrite Hc2, lookup_insert_eq. by split_and!.
  - split; [done|]. split; [done|]. split; [apply grown_refl|]. split; [done|by intros n ?%elem_of_nil].
  - by exists s'.
Qed.

(** ** Requests that enter the batch *)

Lemma add_to_batch_ok so s L0 rows id r : mid s L0 rows -> ~ occupied rows id -> cached_requests s !! id = Some r ->
  request_fits (spec_for so id) (output_of (output_lists s) (rs_output_token_ids r)) r -> (length (present rows) < N)%nat ->
  exists r' b' rows', add_to_batch so id s = (Ok tt, with_requests (<[id := r']> (cached_requests s)) (with_batch b' s))
    /\ mid (with_requests (<[id := r']> (cached_requests s)) (with_batch b' s)) L0 rows'
    /\ static r' = static r /\ rs_num_computed_tokens r' = rs_num_computed_tokens r /\ rs_block_ids r' = rs_block_ids r
    /\ length (present rows') = S (length (present rows)) /\ (forall e, en_id e ≠ id -> here rows' e <-> here rows e) /\ occupied rows' id
    /\ forall e, here rows' e -> en_id e = id -> en_spec e = spec_for so id.
Proof.
  intros Hm Hno Hr [R1 R2 R3 R4] Hroom. pose proof Hm as [M1 M2 M3 M4 M6 M7]. pose proof (ob_named _ M7 _ _ Hr) as Hid.
  assert (forall e, here rows e -> en_id e ≠ rs_req_id r) as Hfresh by (intros e He E; apply Hno; exists e; split; [done|congruence]).
  destruct (add_phase N W V dims (output_lists s) (input_batch s) rows r L0 M1 Hfresh R1 R4 M4 M2 M3 Hroom) as (i & b1 & rows1 & E1 & Hb1 & Hi & Hmv & Hp1 & Hx1 & Hperm & a & Ha & Hadd).
  set (e := entry_of (output_lists s) r) in *. assert (en_id e = id) as Heid by done.
  assert (forall x, here rows1 x <-> x = e \/ here rows x) as Hhere by (intros x; rewrite <- !elem_of_present, Hperm, elem_of_cons; done).
  assert (mid (with_batch b1 s) L0 rows1) as Hm1.
  { split; cbn; try done.
    - intros x [->|Hx]%Hhere; [|by apply M6]. exists r. rewrite Heid. split; [done|]. by split.
    - by destruct M7; split. }
  destruct (update_spec_runner so (with_batch b1 s) L0 rows1 i e r (spec_for so id) Hm1 Hi) as (b2 & E2 & Hm2 & Hbu2); [by rewrite Heid|by rewrite Heid|done|done|]. rewrite Heid in E2, Hm2.
  set (r' := {| r with prev_num_draft_len := zlen (spec_for so id) |}) in *. set (rows2 := <[i := Some (with_spec (spec_for so id) e)]> rows1) in *.
  assert (forall x k, rows2 !! k = Some (Some x) -> (k = i /\ x = with_spec (spec_for so id) e) \/ (k ≠ i /\ rows1 !! k = Some (Some x))) as Hlook by (intros x k; by apply (lookup_alike rows1 i e)).
  assert (here rows2 (with_spec (spec_for so id) e)) as Hin by (exists i; apply list_lookup_insert_eq; by eapply lookup_lt_Some).
  assert (forall x k, rows1 !! k = Some (Some x) -> en_id x = id -> k = i) as Hrow by (intros x k Hk Hx; eapply (batch_distinct N W V dims _ _ Hb1); [done|exact Hi|by rewrite Heid]).
  exists r', b2, rows2. split; [|split; [exact Hm2|]].
  { unfold add_to_batch. erewrite bind_ok by (unfold get_request; erewrite bind_ok by reflexivity; rewrite Hr; reflexivity). erewrite bind_ok by reflexivity.
    erewrite bind_ok by (apply zoom_ok; exact E1). exact E2. }
  split; [done|]. split; [done|]. split; [done|]. split; [|split; [|split]].
  - destruct (present_alike rows1 i e (with_spec (spec_for so id) e) Hi) as (l1 & l2 & P1 & P2). unfold rows2. rewrite P2. apply Permutation_length in Hperm. rewrite P1 in Hperm. rewrite length_app in *. cbn in *. lia.
  - intros x Hx. split.
    + intros [k Hk]. destruct (Hlook x k Hk) as [[-> ->]|[_ Hk1]]; [done|]. assert (here rows1 x) as [->|Hx1']%Hhere by (by exists k); [done|done].
    + intros Hx'. assert (here rows1 x) as [k Hk] by (apply Hhere; by right). exists k. unfold rows2. rewrite list_lookup_insert_ne; [done|]. intros <-. congruence.
  - by exists (with_spec (spec_for so id) e).
  - intros x [k Hk] Hx. destruct (Hlook x k Hk) as [[-> ->]|[Hne Hk1]]; [done|]. destruct Hne. by apply (Hrow x).
Qed.

(** The requests [l] have entered the batch. *)
Record all_added (so : WorkerStep) (l : list string) (s s' : ModelRunner) (rows rows' : rows_of) : Prop := {
  aa_others : forall id, id ∉ l -> cached_requests s' !! id = cached_requests s !! id;
  aa_added : forall id, id ∈ l -> exists r r', cached_requests s !! id = Some r /\ cached_requests s' !! id = Some r' /\ static r' = static r
    /\ rs_num_computed_tokens r' = rs_num_computed_tokens r /\ rs_block_ids r' = rs_block_ids r;
  aa_count : length (present rows') = (length (present rows) + length l)%nat;
  aa_same : forall e, en_id e ∉ l -> here rows' e <-> here rows e;
  aa_occupied : forall id, id ∈ l -> occupied rows' id;
  aa_spec : forall e, here rows' e -> en_id e ∈ l -> en_spec e = spec_for so (en_id e);
}.

Lemma add_all so l s L0 rows : mid s L0 rows -> NoDup l -> (length (present rows) + length l <= N)%nat ->
  (forall id, id ∈ l -> ~ occupied rows id /\ exists r, cached_requests s !! id = Some r /\ request_fits (spec_for so id) (output_of (output_lists s) (rs_output_token_ids r)) r) ->
  exists s' rows', mfor l (add_to_batch so) s = (Ok tt, s') /\ mid s' L0 rows' /\ same_rest s s' /\ all_added so l s s' rows rows'.
Proof.
  intros Hm Hn Hroom Hl. destruct (mfor_ok (add_to_batch so) (fun dn s' => exists rows', mid s' L0 rows' /\ same_rest s s' /\ all_added so dn s s' rows rows') l) with (s := s)
    as (s' & E & rows' & H1 & H2 & H3); [| |by exists s', rows'].
  - intros dn id todo s1 Hsplit (rows1 & Hm1 & Hr1 & [A1 A2 A3 A4 A5 A6]). destruct (Hl id) as [Hno (r & Hr & Hfit)]; [rewrite Hsplit; set_solver|].
    assert (id ∉ dn) as Hni by (rewrite Hsplit in Hn; apply NoDup_app in Hn as (_ & Hd & _); intros Hin; apply (Hd _ Hin); by left).
    destruct (add_to_batch_ok so s1 L0 rows1 id r) as (r' & b' & rows2 & E2 & Hm2 & Hst & Hc & Hbl & Hlen & Hsame & Hocc & Hsp); [done| |by rewrite A1|by rewrite (sr_outputs _ _ Hr1)| |].
    { intros (e & He & Heid). apply Hno. exists e. split; [|done]. apply A4; [by rewrite Heid|done]. }
    { rewrite A3. rewrite Hsplit, length_app in Hroom. cbn in Hroom. lia. }
    eexists. split; [exact E2|]. exists rows2. split; [done|]. split; [eapply same_rest_trans; [exact Hr1|by split]|]. split; cbn.
    + intros x. rewrite not_elem_of_app, not_elem_of_cons. intros (H1 & H2 & _). rewrite lookup_insert_ne by done. by apply A1.
    + intros x [Hx| ->%list_elem_of_singleton]%elem_of_app.
      * destruct (A2 x Hx) as (q & q' & Q1 & Q2 & Q3). exists q, q'. rewrite lookup_insert_ne by (intros ->; done). by split.
      * exists r, r'. rewrite lookup_insert_eq. by split_and!.
    + rewrite Hlen, A3, length_app. cbn. lia.
    + intros e. rewrite not_elem_of_app, not_elem_of_cons. intros (H1 & H2 & _). rewrite Hsame by done. by apply A4.
    + intros x [Hx| ->%list_elem_of_singleton]%elem_of_app; [|done]. destruct (A5 x Hx) as (e & He & Heid). exists e. split; [|done]. apply Hsame; [|done]. rewrite Heid. intros ->. done.
    + intros e He [Hx|Hx%list_elem_of_singleton]%elem_of_app; [|rewrite Hx; by apply Hsp]. apply A6; [|done]. apply Hsame; [|done]. intros Heid. rewrite Heid in Hx. done.
  - exists rows. split; [done|]. split; [apply same_rest_refl|]. split; [done|by intros id ?%elem_of_nil|by rewrite Nat.add_0_r|done|by intros id ?%elem_of_nil|by intros e _ ?%elem_of_nil].
Qed.

End runner.
End RunnerFacts.
