(* ===== verification/RunnerStep.v ===== *)
(** A whole step of the worker: [update_states] makes the batch that the scheduler asked for, and the
    sampled tokens are cached in it. *)

From Stdlib Require Import QArith.
From stdpp Require Import gmap sorting.
From S2P Require Import Prelude Request Scheduler BlockTable BlockTableFacts BatchUpdate LogitsFacts LogitsFollow InputBatch.
From S2P Require Import BatchRows BatchTokens BatchColumns BatchSampling BatchHoles BatchState BatchPhases ReorderBatch ReorderFacts ModelRunner RunnerFacts.
Import BatchRows BatchTokens BatchColumns BatchSampling BatchHoles BatchState BatchPhases LogitsFacts LogitsFollow Runner RunnerFacts ReorderFacts.
Local Open Scope Z_scope.

Module RunnerStep.
Section step.
Context `{Float32} (order : gset string -> list string) (N W : nat) (V : Z) (dims : list (Z * Z)).
Hypothesis Horder : forall X, order X ≡ₚ elements X.
Abbreviation batch_ok := (BatchState.batch_ok N W V dims).
Abbreviation mid := (RunnerFacts.mid N W V dims).
Abbreviation bu b := (batch_update_builder b).

(** ** The worker between two steps *)

Record runner_ok (s : ModelRunner) (es : list entry) : Prop := {
  rk_batch : batch_ok (input_batch s) (Some <$> es);
  rk_builder : bu (input_batch s) = Builder.init;
  rk_follow : forall e, e ∈ es -> exists r, cached_requests s !! en_id e = Some r /\ follows (output_lists s) r e;
  rk_objects : objects_ok s;
  rk_procs : exists h0 L, lays (Some <$> es) L /\ procs_ok N h0 (logits_procs s) (zlen es) L /\ grows h0 (output_lists s);
  rk_config : plain (runner_config s);
}.

Lemma here_dense es e : here (Some <$> es) e <-> e ∈ es.
Proof. by rewrite <- elem_of_present, present_dense. Qed.

(** The regions of the attention backend, where it asks for them. *)
Definition in_order (cfg : RunnerConfig) (so : WorkerStep) (es : list entry) : Prop := forall t, num_groups cfg ≠ 0 -> reorder_batch_threshold cfg = Some t ->
  StronglySorted Z.le (region_of (ws_num_scheduled_tokens so) t <$> es).

(** *** The end of a step *)

Lemma reorder_step so s L0 es : batch_ok (input_batch s) (Some <$> es) -> settled N (bu (input_batch s)) L0 (Some <$> es) ->
  (forall e, e ∈ es -> is_Some (Dict.get (en_id e) (ws_num_scheduled_tokens so))) ->
  exists b' es', may_reorder_batch so s = (Ok tt, with_batch b' s) /\ batch_ok b' (Some <$> es') /\ settled N (bu b') L0 (Some <$> es') /\ es' ≡ₚ es
    /\ in_order (runner_config s) so es'.
Proof.
  intros Hb Hs Hk. unfold may_reorder_batch. erewrite bind_ok by reflexivity. destruct (Z.eqb_spec (num_groups (runner_config s)) 0) as [H0|H0].
  { exists (input_batch s), es. rewrite with_batch_id. split_and!; try done. by intros t Hne. }
  destruct (reorder_batch_threshold (runner_config s)) as [t|] eqn:Et.
  - destruct (reorder_ok N W V dims L0 (ws_num_scheduled_tokens so) t (input_batch s) es Hb Hs Hk) as (f & b' & es' & E & Hb' & Hs' & Hp & Hsorted).
    exists b', es'. split; [by erewrite bind_ok by (apply zoom_ok; exact E)|]. split_and!; try done. intros t' _ Ht'. rewrite Et in Ht'. by injection Ht' as <-.
  - exists (input_batch s), es. rewrite with_batch_id. split_and!; try done. intros t' _ Ht'. congruence.
Qed.

Lemma finish_step so s L0 rows es0 h0 : mid s L0 rows -> plain (runner_config s) -> lays (Some <$> es0) L0 -> (forall e, e ∈ es0 -> is_Some (params_of e)) ->
  procs_ok N h0 (logits_procs s) (zlen es0) L0 -> grows h0 (output_lists s) -> (forall id, occupied rows id -> is_Some (Dict.get id (ws_num_scheduled_tokens so))) ->
  exists s' es', (forall A (x : A), (on_batch Batch.condense ;; may_reorder_batch so ;; refresh ;; mret x) s = (Ok x, s')) /\ runner_ok s' es' /\ es' ≡ₚ present rows
    /\ in_order (runner_config s) so es' /\ cached_requests s' = cached_requests s /\ output_lists s' = output_lists s.
Proof.
  intros [M1 M2 M3 M4 M6 M7] Hpl HL0 Hp0 Hprocs Hg Hk.
  destruct (condense_ok N W V dims (input_batch s) rows L0 M1 M2 M3) as (b1 & es1 & E1 & Hb1 & Hs1 & Hp1). set (s1 := with_batch b1 s).
  destruct (reorder_step so s1 L0 es1 Hb1 Hs1) as (b2 & es2 & E2 & Hb2 & Hs2 & Hp2 & Hin).
  { intros e. rewrite Hp1, elem_of_present. intros He. apply Hk. by exists e. }
  destruct (refresh_ok N W V dims h0 (output_lists s) b2 es0 es2 L0 (logits_procs s) Hb2 Hs2 HL0 Hp0 Hprocs Hg) as (ch & b3 & procs & L & E3 & Hb3 & Hbu3 & HL & Hprocs').
  set (s3 := with_procs procs (with_batch b3 s)). exists s3, es2. split; [|split; [|split; [by rewrite Hp2|split; [exact Hin|done]]]].
  - intros A x. erewrite bind_ok by (apply zoom_ok; exact E1). erewrite bind_ok by exact E2. erewrite (bind_ok _ _ _ ch s3); [done|].
    unfold refresh. change (output_lists (with_batch b2 s1)) with (output_lists s). change (input_batch (with_batch b2 s1)) with b2. change (logits_procs (with_batch b2 s1)) with (logits_procs s).
    by rewrite E3.
  - split; try done.
    + intros e. rewrite Hp2, Hp1, elem_of_present. apply M6.
    + by destruct M7; split.
    + exists (output_lists s), L. split; [done|]. split; [done|]. by intros o.
Qed.

(** ** What the scheduler may ask for *)

Record step_fits (s : ModelRunner) (so : WorkerStep) : Prop := {
  sf_once : NoDup (Dict.keys (ws_num_scheduled_tokens so));
  sf_all : (wn_req_id <$> ws_new_reqs so) ++ cr_req_ids (ws_cached_reqs so) ≡ₚ Dict.keys (ws_num_scheduled_tokens so);
  sf_room : (length (Dict.keys (ws_num_scheduled_tokens so)) <= N)%nat;
  sf_new : forall n, n ∈ ws_new_reqs so -> (cached_requests s !! wn_req_id n = None \/ wn_req_id n ∈ ws_finished_req_ids so) /\ new_fits W V dims so n;
  sf_known : forall i id, cr_req_ids (ws_cached_reqs so) !! i = Some id -> id ∉ ws_finished_req_ids so
    /\ exists r c nb n, cached_requests s !! id = Some r /\ known_fits W V dims so (output_lists s) i id r c nb n;
}.

(** ** The beginning of a step *)

(** Everything that the proofs look at, but the requests and the batch. *)
Lemma forget_loop l s : exists s', mfor l (fun id =>
    modify (fun s => with_requests (delete id (cached_requests s)) s) ;;
    modify (fun s => with_prompt_logprobs (delete id (num_prompt_logprobs s)) s)) s = (Ok tt, s')
  /\ same_rest s s' /\ input_batch s' = input_batch s /\ forall id, cached_requests s' !! id = if decide (id ∈ l) then None else cached_requests s !! id.
Proof.
  revert s. induction l as [|id l IH]; intros s; cbn [mfor].
  - exists s. split; [done|]. split; [apply same_rest_refl|]. split; [done|]. intros x. rewrite decide_False; [done|apply not_elem_of_nil].
  - set (s1 := with_prompt_logprobs (delete id (num_prompt_logprobs s)) (with_requests (delete id (cached_requests s)) s)). destruct (IH s1) as (s' & E & H1 & H2 & H3).
    exists s'. split; [erewrite bind_ok by (erewrite bind_ok by reflexivity; reflexivity); exact E|]. split; [apply (same_rest_trans _ s1); [by split|exact H1]|]. split; [done|].
    intros x. rewrite H3. cbn. destruct (decide (x = id)) as [->|Hx].
    + rewrite lookup_delete_eq, (decide_True (P := id ∈ id :: l)) by (by left). by case_decide.
    + rewrite lookup_delete_ne by done. apply decide_ext. rewrite elem_of_cons. naive_solver.
Qed.

Lemma encoder_loop l s : exists s', mfor l (fun h => modify (fun s => with_encoder_cache (runner_encoder_cache s ∖ {[ h ]}) s)) s = (Ok tt, s')
  /\ same_rest s s' /\ input_batch s' = input_batch s /\ cached_requests s' = cached_requests s.
Proof.
  revert s. induction l as [|x l IH]; intros s; cbn [mfor]; [exists s; by split_and!; [|apply same_rest_refl| |]|].
  destruct (IH (with_encoder_cache (runner_encoder_cache s ∖ {[ x ]}) s)) as (s' & E & H1 & H2 & H3). exists s'. erewrite bind_ok by reflexivity.
  split; [exact E|]. split; [eapply same_rest_trans; [|exact H1]; by split|]. by split.
Qed.

Lemma elem_of_order X id : id ∈ order X <-> id ∈ X.
Proof. by rewrite Horder, elem_of_elements. Qed.

(** After the removals the batch holds the requests that go on. *)
Definition first_half {A} (so : WorkerStep) (rest : M ModelRunner A) : M ModelRunner A :=
  let finished := order (ws_finished_req_ids so) in
  mfor finished (fun id =>
    modify (fun s => with_requests (delete id (cached_requests s)) s) ;;
    modify (fun s => with_prompt_logprobs (delete id (num_prompt_logprobs s)) s)) ;;
  mfor finished remove_from_batch ;;
  mfor (ws_free_encoder_mm_hashes so) (fun h => modify (fun s => with_encoder_cache (runner_encoder_cache s ∖ {[ h ]}) s)) ;;
  gone ← gets (unscheduled so);
  mfor (order gone) remove_from_batch ;;
  rest.

Lemma first_half_ok so s es : runner_ok s es -> exists s' rows L0, (forall A (rest : M ModelRunner A), first_half so rest s = rest s') /\ mid s' L0 rows /\ same_rest s s'
  /\ lays (Some <$> es) L0 /\ (exists h0, procs_ok N h0 (logits_procs s) (zlen es) L0 /\ grows h0 (output_lists s))
  /\ (forall id, cached_requests s' !! id = if decide (id ∈ ws_finished_req_ids so) then None else cached_requests s !! id)
  /\ (forall id, occupied rows id -> id ∈ Dict.keys (ws_num_scheduled_tokens so) /\ id ∉ resumed_req_ids (ws_cached_reqs so) /\ id ∉ ws_finished_req_ids so
       /\ is_Some (cached_requests s !! id)).
Proof.
  intros [R1 R2 R3 R4 (h0 & L0 & R5 & R6 & R7) R8]. unfold first_half.
  destruct (forget_loop (order (ws_finished_req_ids so)) s) as (s1 & E1 & F1 & B1 & C1).
  assert (removing (bu (input_batch s1))) as Hr1 by (rewrite B1, R2; by split_and!).
  assert (phase N (bu (input_batch s1)) L0 (Some <$> es)) as Hp1 by (rewrite B1, R2; by apply phase_start).
  assert (exact (bu (input_batch s1)) (Some <$> es)) as Hx1.
  { intros z [_ Hz]. rewrite list_lookup_fmap in Hz. by destruct (es !! Z.to_nat z). }
  rewrite <- B1 in R1.
  destruct (remove_loop N W V dims (order (ws_finished_req_ids so)) s1 _ L0 R1 Hr1 Hp1 Hx1) as (b2 & rows2 & E2 & Hb2 & Hr2 & Hp2 & Hx2 & Hh2).
  destruct (encoder_loop (ws_free_encoder_mm_hashes so) (with_batch b2 s1)) as (s3 & E3 & F3 & B3 & C3). cbn in B3, C3.
  set (gone := unscheduled so s3). rewrite <- B3 in Hb2, Hr2, Hp2, Hx2.
  destruct (remove_loop N W V dims (order gone) s3 _ L0 Hb2 Hr2 Hp2 Hx2) as (b4 & rows4 & E4 & Hb4 & Hr4 & Hp4 & Hx4 & Hh4).
  assert (forall e, here rows4 e -> e ∈ es /\ en_id e ∉ ws_finished_req_ids so /\ here rows2 e /\ en_id e ∉ gone) as Hin.
  { intros e He. apply Hh4 in He as [He Hg]. pose proof He as He2. apply Hh2 in He2 as [Hes Hf]. rewrite elem_of_order in Hf, Hg. rewrite here_dense in Hes. done. }
  assert (forall id, cached_requests s3 !! id = if decide (id ∈ ws_finished_req_ids so) then None else cached_requests s !! id) as C.
  { intros id. rewrite C3, C1. apply decide_ext. by rewrite elem_of_order. }
  assert (same_rest s (with_batch b4 s3)) as Hrest.
  { eapply same_rest_trans; [exact F1|]. eapply same_rest_trans; [|by split]. destruct F3 as [G1 G2 G3 G4]. by split. }
  exists (with_batch b4 s3), rows4, L0. split; [|split; [|split; [done|split; [done|split; [by exists h0|split; [done|]]]]]].
  - intros A rest. rewrite (bind_ok _ _ _ _ _ E1), (bind_ok _ _ _ _ _ E2), (bind_ok _ _ _ _ _ E3). erewrite bind_ok by reflexivity. by rewrite (bind_ok _ _ _ _ _ E4).
  - split; try done.
    + cbn. destruct Hr4 as (_ & _ & Hm). done.
    + intros e He. destruct (Hin e He) as (Hes & Hf & _). destruct (R3 e Hes) as (r & Hr & Hfol). exists r. change (cached_requests (with_batch b4 s3)) with (cached_requests s3).
      rewrite C, decide_False by done. split; [done|]. change (output_lists (with_batch b4 s3)) with (output_lists s3). by rewrite (sr_outputs _ _ Hrest : output_lists s3 = _).
    + destruct R4 as [O1 O2 O3 O4]. destruct Hrest as [G1 G2 G3 G4].
      assert (forall id r, cached_requests (with_batch b4 s3) !! id = Some r -> cached_requests s !! id = Some r) as Hback.
      { intros id r. change (cached_requests (with_batch b4 s3)) with (cached_requests s3). rewrite C. by case_decide. }
      split; rewrite ?G3, ?G4; eauto.
  - intros id (e & He & <-). destruct (Hin e He) as (Hes & Hf & He2 & Hg).
    destruct (batch_here N W V dims (input_batch s3) rows2 e Hb2 He2) as (j & Hj & _).
    assert (en_id e ∈ list_to_set (Dict.keys (ws_num_scheduled_tokens so)) ∖ resumed_req_ids (ws_cached_reqs so)) as [Hkey Hres]%elem_of_difference.
    { destruct (decide (en_id e ∈ list_to_set (C := gset string) (Dict.keys (ws_num_scheduled_tokens so)) ∖ resumed_req_ids (ws_cached_reqs so))) as [?|Hno]; [done|].
      destruct Hg. unfold gone, unscheduled. apply elem_of_difference. split; [apply elem_of_dom; by eexists|done]. }
    apply elem_of_list_to_set in Hkey. split; [done|]. split; [done|]. split; [done|]. destruct (R3 e Hes) as (r & Hr & _). by eexists.
Qed.

(** ** The step *)

Definition second_half (so : WorkerStep) : M ModelRunner (list (string * Z)) :=
  new ← mmapM (ws_new_reqs so) add_new;
  modify (fun s => if use_async_spec_decode (runner_config s) then with_drafts (replicate (length (prev_num_draft_tokens s)) 0) s else s) ;;
  known ← update_all so 0 (cr_req_ids (ws_cached_reqs so));
  mfor (new ++ known.1) (add_to_batch so) ;;
  on_batch Batch.condense ;;
  may_reorder_batch so ;;
  refresh ;;
  mret known.2.

Lemma update_states_halves so : update_states order so = first_half so (second_half so).
Proof. reflexivity. Qed.

(** What the scheduler asked for has been done. *)
Record follows_schedule (s : ModelRunner) (so : WorkerStep) (s' : ModelRunner) (es' : list entry) : Prop := {
  fs_ids : en_id <$> es' ≡ₚ Dict.keys (ws_num_scheduled_tokens so);
  fs_spec : forall e, e ∈ es' -> en_spec e = spec_for so (en_id e);
  fs_known : forall i id, cr_req_ids (ws_cached_reqs so) !! i = Some id ->
    exists r r', cached_requests s !! id = Some r /\ cached_requests s' !! id = Some r' /\ told so i id r r';
  fs_new : forall n, n ∈ ws_new_reqs so -> exists k g o r', cached_requests s' !! wn_req_id n = Some r' /\ static r' = static (request_of n k g o)
    /\ rs_num_computed_tokens r' = wn_num_computed_tokens n /\ rs_block_ids r' = wn_block_ids n /\ output_of (output_lists s') o = [];
  fs_others : forall id, id ∉ Dict.keys (ws_num_scheduled_tokens so) ->
    cached_requests s' !! id = if decide (id ∈ ws_finished_req_ids so) then None else cached_requests s !! id;
  fs_outputs : forall id r, cached_requests s !! id = Some r -> output_of (output_lists s') (rs_output_token_ids r) = output_of (output_lists s) (rs_output_token_ids r);
  fs_order : in_order (runner_config s) so es';
}.

Lemma known_fits_outputs so h h' i id r c nb n : known_fits W V dims so h i id r c nb n -> output_of h' (rs_output_token_ids r) = output_of h (rs_output_token_ids r) ->
  known_fits W V dims so h' i id r c nb n.
Proof. intros [K1 K2 K3 K4 K5 K6] Ho. split; rewrite ?Ho; done. Qed.

Lemma update_states_ok so s es : runner_ok s es -> step_fits s so ->
  exists s' es', update_states order so s = (Ok [], s') /\ runner_ok s' es' /\ follows_schedule s so s' es'.
Proof.
  intros Hok [S1 S2 S3 S4 S5]. destruct (first_half_ok so s es Hok) as (s4 & rows4 & L0 & E1 & Hm4 & Hr4 & HL0 & (h0 & Hprocs & Hg) & HC4 & Hocc4).
  pose proof (batch_dense_params N W V dims _ es (rk_batch _ _ Hok)) as Hp0. set (keys := Dict.keys (ws_num_scheduled_tokens so)) in *.
  set (news := wn_req_id <$> ws_new_reqs so) in *. set (known := cr_req_ids (ws_cached_reqs so)) in *.
  assert (NoDup (news ++ known)) as Hnd by (by rewrite S2). apply NoDup_app in Hnd as (Hnd1 & Hdisj & Hnd2).
  assert (forall id, id ∈ keys <-> id ∈ news \/ id ∈ known) as Hkeys by (intros id; by rewrite <- S2, elem_of_app).
  assert (forall id, id ∈ news -> cached_requests s4 !! id = None) as Hnone.
  { intros id (n & -> & Hn)%list_elem_of_fmap. rewrite HC4. destruct (S4 n Hn) as [[Hc|Hc] _]; case_decide; done. }
  assert (forall id, occupied rows4 id -> id ∈ known) as Hocc_known.
  { intros id Hid. destruct (Hocc4 id Hid) as ([Hin|Hin]%Hkeys & _ & Hf & [r Hr]); [|done]. specialize (Hnone id Hin). rewrite HC4, decide_False in Hnone by done. congruence. }
  destruct (add_all_new N W V dims so (ws_new_reqs so) s4 L0 rows4 Hm4 Hnd1) as (s5 & E2 & Hm5 & Hg5 & [A1 A2]).
  { intros n Hn. split; [apply Hnone; by apply list_elem_of_fmap_2|by apply S4]. }
  assert (plain (runner_config s5)) as Hpl5 by (rewrite (gr_config _ _ Hg5), (sr_config _ _ Hr4); apply Hok).
  assert (forall id r, cached_requests s !! id = Some r -> output_of (output_lists s5) (rs_output_token_ids r) = output_of (output_lists s) (rs_output_token_ids r)) as Hout5.
  { intros id r Hr. unfold output_of. rewrite (gr_old _ _ Hg5), (sr_outputs _ _ Hr4); [done|]. rewrite (sr_next _ _ Hr4). by apply (ob_old _ (rk_objects _ _ Hok) id). }
  destruct (update_all_ok N W V dims so known 0 s5 L0 rows4 Hpl5 Hm5 Hnd2) as (add & s6 & rows6 & E3 & Hm6 & Hr6 & _ & [T1 T2 T3 T4 T5 T6 T7 T8]).
  { intros i id Hi. destruct (S5 i id Hi) as (Hf & r & c & nb & n & Hr & Hfit). exists r, c, nb, n. split.
    - rewrite A1, HC4, decide_False; [done|done|]. intros Hin. apply (Hdisj id Hin). by eapply list_elem_of_lookup_2.
    - eapply known_fits_outputs; [exact Hfit|]. by eapply Hout5. }
  { intros id _ Hres Hid. by destruct (Hocc4 id Hid) as (_ & Hnr & _). }
  assert (forall id, id ∈ news -> cached_requests s6 !! id = cached_requests s5 !! id) as Hnews6 by (intros id Hid; apply T1; by apply Hdisj).
  assert (NoDup (news ++ add)) as Hndl.
  { apply NoDup_app. split; [done|]. split; [|done]. intros id H1 [H2 _]%T6. by apply (Hdisj id). }
  assert ((en_id <$> present rows6) ++ news ++ add ≡ₚ keys) as Hcount.
  { apply NoDup_Permutation; [|done|].
    - apply NoDup_app. split; [apply NoDup_present; by eapply batch_distinct, (mi_batch _ _ _ _ _ _ _ Hm6)|]. split; [|done].
      intros id (e & -> & He)%list_elem_of_fmap. rewrite elem_of_present in He. assert (occupied rows4 (en_id e)) as Ho by (apply T3; by exists e).
      intros [Hn|[_ Hn]%T6]%elem_of_app; [|done]. by apply (Hdisj _ Hn), Hocc_known.
    - intros id. rewrite !elem_of_app, T6, Hkeys, list_elem_of_fmap. setoid_rewrite elem_of_present. split.
      + intros [(e & -> & He)|[Hn|[Hk _]]]; [right; apply Hocc_known, T3; by exists e|by left|by right].
      + intros [Hn|Hk]; [right; by left|]. destruct (index_cases N W V dims (input_batch s6) rows6 id (mi_batch _ _ _ _ _ _ _ Hm6)) as [(j & e & _ & Hj & <-)|[_ Hno]].
        * left. exists e. split; [done|by exists j].
        * right. right. split; [done|]. by rewrite <- T3. }
  destruct (add_all N W V dims so (news ++ add) s6 L0 rows6 Hm6 Hndl) as (s7 & rows7 & E4 & Hm7 & Hr7 & [D1 D2 D3 D4 D5 D6]).
  { apply Permutation_length in Hcount. rewrite length_app, length_fmap in Hcount. lia. }
  { intros id [Hn|Ha]%elem_of_app.
    - split; [intros Ho; apply T3, Hocc_known in Ho; by apply (Hdisj id)|]. pose proof Hn as (n & -> & Hn')%list_elem_of_fmap. destruct (A2 n Hn') as (k & g & o & B1 & B2 & B3).
      exists (request_of n k g o). rewrite Hnews6 by done. split; [done|]. change (rs_output_token_ids (request_of n k g o)) with o. rewrite (sr_outputs _ _ Hr6), B3.
      destruct (S4 n Hn') as [_ Hfit]. by apply Hfit.
    - split; [rewrite T3; by apply T6 in Ha as [_ ?]|]. by apply T8. }
  assert (forall id, occupied rows7 id <-> id ∈ keys) as Hocc7.
  { intros id. rewrite <- Hcount, elem_of_app, list_elem_of_fmap. setoid_rewrite elem_of_present. split.
    - intros (e & He & <-). destruct (decide (en_id e ∈ news ++ add)) as [Hin|Hin]; [by right|]. left. exists e. split; [done|]. by apply D4.
    - intros [(e & -> & He)|Hin]; [|by apply D5]. destruct (decide (en_id e ∈ news ++ add)) as [Hin|Hin]; [by apply D5|]. exists e. split; [by apply D4|done]. }
  destruct (finish_step so s7 L0 rows7 es h0 Hm7) as (s8 & es8 & E5 & Hok8 & Hp8 & Hord & HC8 & HO8); try done.
  { rewrite (sr_config _ _ Hr7), (sr_config _ _ Hr6). exact Hpl5. }
  { by rewrite (sr_procs _ _ Hr7), (sr_procs _ _ Hr6), (gr_procs _ _ Hg5), (sr_procs _ _ Hr4). }
  { rewrite (sr_outputs _ _ Hr7), (sr_outputs _ _ Hr6). intros o. etransitivity; [apply Hg|]. rewrite <- (sr_outputs _ _ Hr4). apply (gr_lists _ _ Hg5). }
  { intros id Hid. apply Hocc7 in Hid. by apply Dict.elem_keys. }
  exists s8, es8. split; [|split; [done|split]].
  - rewrite update_states_halves, E1. unfold second_half. rewrite (bind_ok _ _ _ _ _ E2). erewrite (bind_ok _ _ s5 tt s5).
    2: { unfold modify. destruct Hpl5 as (_ & _ & Hasync). by rewrite Hasync. }
    change (update_all so 0) with (update_all so (Z.of_nat 0)). rewrite (bind_ok _ _ _ _ _ E3). cbn [fst snd]. rewrite (bind_ok _ _ _ _ _ E4). apply E5.
  - rewrite Hp8. apply NoDup_Permutation; [apply NoDup_present; by eapply batch_distinct, (mi_batch _ _ _ _ _ _ _ Hm7)|done|]. intros id. fold keys. rewrite <- Hocc7, list_elem_of_fmap.
    setoid_rewrite elem_of_present. split; [intros (e & -> & He); by exists e|intros (e & He & <-); by exists e].
  - intros e. rewrite Hp8, elem_of_present. intros He. destruct (decide (en_id e ∈ news ++ add)) as [Hin|Hin]; [by apply D6|]. apply D4 in He; [|done].
    apply T5; [done|]. apply Hocc_known, T3. by exists e.
  - intros i id Hi. destruct (T2 i id Hi) as (r & r' & X1 & X2 & X3). assert (id ∈ known) as Hk by (by eapply list_elem_of_lookup_2). assert (id ∉ news) as Hn by (intros Hn; by apply (Hdisj id)).
    destruct (S5 i id Hi) as (Hf & _). rewrite A1, HC4, decide_False in X1 by done. rewrite HC8. exists r. destruct (decide (id ∈ news ++ add)) as [Hin|Hin].
    + destruct (D2 id Hin) as (r1 & r2 & Y1 & Y2 & Y3 & Y4 & Y5). rewrite X2 in Y1. injection Y1 as <-. exists r2. split; [done|]. split; [done|].
      destruct X3 as (c & nb & Z1 & Z2 & Z3 & Z4 & Z5). exists c, nb. split_and!; try done; congruence.
    + exists r'. rewrite D1 by done. by split_and!.
  - intros n Hn. destruct (A2 n Hn) as (k & g & o & B1 & B2 & B3). assert (wn_req_id n ∈ news) as Hin by (by apply list_elem_of_fmap_2).
    destruct (D2 (wn_req_id n)) as (r1 & r2 & Y1 & Y2 & Y3 & Y4 & Y5); [apply elem_of_app; by left|]. rewrite Hnews6, B1 in Y1 by done. injection Y1 as <-.
    exists k, g, o, r2. rewrite HC8, HO8. split_and!; try done. by rewrite (sr_outputs _ _ Hr7), (sr_outputs _ _ Hr6).
  - intros id Hid. assert (id ∉ news /\ id ∉ known) as [Hn Hk] by (fold keys in Hid; rewrite Hkeys in Hid; tauto). rewrite HC8, D1; [|by intros [?|[? _]%T6]%elem_of_app]. by rewrite T1, A1, HC4.
  - intros id r Hr. rewrite HO8, (sr_outputs _ _ Hr7), (sr_outputs _ _ Hr6). by eapply Hout5.
  - by rewrite (sr_config _ _ Hr7), (sr_config _ _ Hr6), (gr_config _ _ Hg5), (sr_config _ _ Hr4) in Hord.
Qed.

End step.
End RunnerStep.
