(* ===== verification/RunnerTokens.v ===== *)
(** The sampled tokens are cached in the batch and in the requests: [_bookkeeping_sync]. *)

From Stdlib Require Import QArith.
From stdpp Require Import gmap sorting.
From S2P Require Import Prelude Request Scheduler BlockTable BlockTableFacts BatchUpdate LogitsFacts LogitsFollow InputBatch.
From S2P Require Import BatchRows BatchTokens BatchColumns BatchSampling BatchHoles BatchState BatchPhases ReorderBatch ReorderFacts ModelRunner RunnerFacts RunnerStep.
Import BatchRows BatchTokens BatchColumns BatchSampling BatchHoles BatchState BatchPhases LogitsFacts LogitsFollow Runner RunnerFacts ReorderFacts RunnerStep.
Local Open Scope Z_scope.

Module RunnerTokens.

(** The row with more output tokens. *)
Definition sampled (l : list Z) (e : entry) : entry := {| e with en_output := en_output e ++ l |}.

Lemma alike_sampled l e : alike e (sampled l e).
Proof. by split. Qed.

Lemma sampled_nil e : sampled [] e = e.
Proof. unfold sampled. rewrite app_nil_r. by destruct e. Qed.

Lemma active_sampled l e : en_spec e = [] -> active (sampled l e) = active e ++ (Some <$> l).
Proof. intros H. unfold active. cbn. rewrite H, !app_nil_r, fmap_app. by rewrite app_assoc. Qed.

Lemma flags_sampled l e : flags_of (sampled l e) = flags_of e ++ replicate (length l) true.
Proof. unfold flags_of. cbn. by rewrite length_app, replicate_add, app_assoc. Qed.

(** ** A row *)

Section row.
Context (N W : nat).

Lemma sample_row t i e l : shape N W t -> (i < N)%nat -> token_row W t i e -> en_spec e = [] -> (length (active e) + length l <= W)%nat ->
  Table.is_int32 (zlen (active e) + zlen l) = true ->
  exists t1 t2 t3, Toks.get_count num_tokens_no_spec (Z.of_nat i) t = (Ok (zlen (active e)), t)
    /\ Toks.put_tokens (Z.of_nat i) (zlen (active e)) (zlen (active e) + zlen l) l t = (Ok tt, t1)
    /\ Toks.put_flags (Z.of_nat i) (zlen (active e)) (zlen (active e) + zlen l) [true] t1 = (Ok tt, t2)
    /\ Toks.put_count num_tokens_no_spec (Z.of_nat i) (zlen (active e) + zlen l) t2 = (Ok tt, t3)
    /\ shape N W t3 /\ token_row W t3 i (sampled l e) /\ forall j, j ≠ i -> same_row t t3 j.
Proof.
  intros Hs Hi [[T1 T1'] T2 T3 T4 T5 (row & Hr & Ha) (fl & Hf & Hb) T8] Hspec HW Hint. destruct (active_length e T1 T1') as [Hlen _].
  assert (zlen (active e) = prompt_len e + zlen (en_output e)) as Hn by (rewrite Hspec, Z.add_0_r in Hlen; exact Hlen).
  destruct (put_tokens_ok N W t i (zlen (active e)) (zlen (active e) + zlen l) l Hs Hi (zlen_nonneg _) eq_refl) as (row' & Hr' & Hw & E1); [unfold zlen; lia|].
  rewrite Hr in Hr'. injection Hr' as <-. set (t1 := Toks.set_tokens _ t) in E1.
  assert (shape N W t1) as Hs1 by (apply shape_set_tokens; [done|rewrite length_splice; unfold zlen; lia]).
  destruct (fill_flags_ok N W t1 i (zlen (active e)) (zlen (active e) + zlen l) true Hs1 Hi) as (fl' & Hf' & Hw' & E2); [unfold zlen; lia|unfold zlen; lia|].
  change (is_token_ids t1) with (is_token_ids t) in Hf'. rewrite Hf in Hf'. injection Hf' as <-.
  replace (zlen (active e) + zlen l - zlen (active e)) with (zlen l) in E2 by lia. set (t2 := Toks.set_flags _ t1) in E2.
  assert (shape N W t2) as Hs2 by (apply shape_set_flags; [done|rewrite length_splice; rewrite ?length_replicate; unfold zlen; lia]).
  exists t1, t2, (Toks.set_count num_tokens_no_spec (<[i := zlen (active e) + zlen l]> (counts t2 num_tokens_no_spec)) t2).
  split; [rewrite Hn; apply (load_ok (fun t => counts t num_tokens_no_spec)); [lia|by rewrite Nat2Z.id]|]. split; [exact E1|]. split; [exact E2|].
  split; [by apply (put_count_ok N W)|]. split; [by apply shape_set_count|]. split.
  - assert (i < length (token_ids_cpu t))%nat by (by eapply lookup_lt_Some). assert (i < length (is_token_ids t))%nat by (by eapply lookup_lt_Some). split.
    + done.
    + rewrite active_sampled, length_app, length_fmap by done. lia.
    + rewrite count_eq, list_lookup_insert_eq by (rewrite (sh_counts N W _ Hs2); lia). f_equal. rewrite Hn. cbn. unfold zlen. rewrite length_app.
      change (prompt_len (sampled l e)) with (prompt_len e). lia.
    + by rewrite count_ne.
    + by rewrite count_ne.
    + eexists. split; [cbn; by apply list_lookup_insert_eq|]. rewrite active_sampled by done. unfold zlen. rewrite Nat2Z.id. apply agrees_splice; [done|lia].
    + eexists. split; [cbn; by apply list_lookup_insert_eq|]. rewrite flags_sampled. unfold zlen. rewrite !Nat2Z.id.
      assert (length (active e) = length (flags_of e)) as ->.
      { unfold flags_of. rewrite length_app, !length_replicate. unfold zlen in Hn. lia. }
      apply begins_splice; [done|]. rewrite length_replicate. unfold flags_of. rewrite length_app, !length_replicate. unfold zlen in Hn. lia.
    + exact T8.
  - intros j Hj. eapply same_row_trans; [by apply (other_tokens t i)|]. eapply same_row_trans; [by apply (other_flags t1 i)|]. by apply other_count.
Qed.
End row.

(** ** The worker *)

Section runner.
Context `{Float32} (N W : nat) (V : Z) (dims : list (Z * Z)).
Abbreviation batch_ok := (BatchState.batch_ok N W V dims).
Abbreviation runner_ok := (RunnerStep.runner_ok N W V dims).

(** Tokens that a row can take. *)
Record sample_fits (cfg : RunnerConfig) (e : entry) (l : list Z) : Prop := {
  sp_no_spec : en_spec e = [];
  sp_int32 : forallb Table.is_int32 l = true;
  sp_room : (length (active e) + length l <= W)%nat;
  sp_limit : zlen (active e) + zlen l <= rc_max_model_len cfg;
  sp_count : Table.is_int32 (zlen (active e) + zlen l) = true;
}.

Lemma with_outputs_id s : with_outputs (output_lists s) s = s.
Proof. by destruct s. Qed.

Lemma cached_request_ok s s' id r : cached_requests s !! id = Some r -> cached_requests s' = cached_requests s -> get_request id s' = (Ok r, s').
Proof. intros Hr E. unfold get_request. erewrite bind_ok by reflexivity. by rewrite E, Hr. Qed.

Lemma batch_sampled b es i e l cfg : batch_ok b (Some <$> es) -> es !! i = Some e -> sample_fits cfg e l ->
  exists t1 t2 t3, Toks.get_count num_tokens_no_spec (Z.of_nat i) (tokens b) = (Ok (zlen (active e)), tokens b)
    /\ Toks.put_tokens (Z.of_nat i) (zlen (active e)) (zlen (active e) + zlen l) l (tokens b) = (Ok tt, t1)
    /\ Toks.put_flags (Z.of_nat i) (zlen (active e)) (zlen (active e) + zlen l) [true] t1 = (Ok tt, t2)
    /\ Toks.put_count num_tokens_no_spec (Z.of_nat i) (zlen (active e) + zlen l) t2 = (Ok tt, t3)
    /\ batch_ok (Batch.with_tokens t3 b) (Some <$> <[i := sampled l e]> es).
Proof.
  intros Hb Hi [S1 S2 S3 S4 S5]. pose proof Hb as [B1 B2 B3 B4 B5 B6 B7 B8 B9 B10 B11 B12].
  assert ((Some <$> es) !! i = Some (Some e)) as Hi' by (by rewrite list_lookup_fmap, Hi).
  assert (i < N)%nat as HiN by (rewrite length_fmap in B4; apply lookup_lt_Some in Hi; lia).
  destruct (sample_row N W (tokens b) i e l B6 HiN (B7 i e Hi') S1 S3 S5) as (t1 & t2 & t3 & E0 & E1 & E2 & E3 & Hs & Hr & Ho).
  exists t1, t2, t3. split_and!; try done. rewrite list_fmap_insert.
  apply (update_row N W V dims b _ i e (sampled l e) t3 (ids b) (block_table b)); try done; [by apply ids_alike with e|by apply tables_alike with e].
Qed.

(** The state after the tokens of a row are cached. *)
Definition with_sampled (b : InputBatch) (r : CachedRequestState) (l : list Z) (s : ModelRunner) : ModelRunner :=
  with_outputs (<[rs_output_token_ids r := output_of (output_lists s) (rs_output_token_ids r) ++ l]> (output_lists s)) (with_batch b s).

Lemma grows_append h (o : output_ref) l : grows h (<[o := output_of h o ++ l]> h).
Proof.
  intros m. unfold MinToks.output_len. rewrite heap_lookup. case_decide as Hm; [subst m; change (default [] (Some (output_of h o ++ l))) with (output_of h o ++ l); rewrite zlen_app; pose proof (zlen_nonneg l); unfold output_of; lia|lia].
Qed.

Lemma runner_sampled s es i e l r b : runner_ok s es -> es !! i = Some e -> cached_requests s !! en_id e = Some r ->
  batch_ok b (Some <$> <[i := sampled l e]> es) -> batch_update_builder b = batch_update_builder (input_batch s) ->
  runner_ok (with_sampled b r l s) (<[i := sampled l e]> es).
Proof.
  intros [K1 K2 K3 K4 (h0 & L & HL & Hp & Hg) K6] Hi Hr Hb Hbu. destruct K4 as [O1 O2 O3 O4].
  assert ((Some <$> es) !! i = Some (Some e)) as Hi' by (by rewrite list_lookup_fmap, Hi). split.
  - done.
  - change (input_batch (with_sampled b r l s)) with b. by rewrite Hbu.
  - intros x (j & Hj)%list_elem_of_lookup. change (cached_requests (with_sampled b r l s)) with (cached_requests s).
    change (output_lists (with_sampled b r l s)) with (<[rs_output_token_ids r := output_of (output_lists s) (rs_output_token_ids r) ++ l]> (output_lists s)).
    destruct (decide (j = i)) as [->|Hne].
    + rewrite list_lookup_insert_eq in Hj by (by eapply lookup_lt_Some). injection Hj as <-. exists r. split; [done|].
      destruct (K3 e) as (r' & Hr' & [F1 F2 F3 F4]); [by eapply list_elem_of_lookup_2|]. rewrite Hr in Hr'. injection Hr' as <-. split; try done.
      rewrite output_of_same. cbn. by rewrite F2.
    + rewrite list_lookup_insert_ne in Hj by done. destruct (K3 x) as (r' & Hr' & [F1 F2 F3 F4]); [by eapply list_elem_of_lookup_2|]. exists r'. split; [done|].
      split; try done. rewrite output_of_other; [done|]. intros Heq. apply Hne.
      apply (batch_distinct N W V dims _ _ K1 j i x e); [by rewrite list_lookup_fmap, Hj|done|]. by apply (O3 _ _ _ _ Hr' Hr).
  - split; try done. intros n Hn. change (next_object (with_sampled b r l s)) with (next_object s) in Hn.
    change (output_lists (with_sampled b r l s)) with (<[rs_output_token_ids r := output_of (output_lists s) (rs_output_token_ids r) ++ l]> (output_lists s)).
    rewrite heap_lookup, decide_False; [by apply O4|]. pose proof (O2 _ _ Hr). lia.
  - exists h0, L. rewrite list_fmap_insert. split; [by apply lays_alike with e|]. split.
    + unfold zlen. rewrite length_insert. exact Hp.
    + intros o. etransitivity; [apply Hg|]. apply grows_append.
  - done.
Qed.

Lemma cache_sampled_ok s es i e l : runner_ok s es -> es !! i = Some e -> sample_fits (runner_config s) e l ->
  exists s' r, cache_sampled (Z.of_nat i) l s = (Ok tt, s') /\ runner_ok s' (<[i := sampled l e]> es) /\ cached_requests s' = cached_requests s
    /\ runner_config s' = runner_config s /\ cached_requests s !! en_id e = Some r
    /\ forall o : output_ref, output_of (output_lists s') o = output_of (output_lists s) o ++ if decide (o = rs_output_token_ids r) then l else [].
Proof.
  intros Hok Hi Hfit. destruct (rk_follow _ _ _ _ _ _ Hok e) as (r & Hr & Hf); [by eapply list_elem_of_lookup_2|].
  destruct (decide (l = [])) as [->|Hl].
  { exists s, r. split; [done|]. rewrite sampled_nil, list_insert_id by done. split_and!; try done. intros o. case_decide; by rewrite app_nil_r. }
  destruct (batch_sampled (input_batch s) es i e l (runner_config s) (rk_batch _ _ _ _ _ _ Hok) Hi Hfit) as (t1 & t2 & t3 & E0 & E1 & E2 & E3 & Hb).
  set (b := Batch.with_tokens t3 (input_batch s)). exists (with_sampled b r l s), r.
  split; [|split; [by apply (runner_sampled s es i e l r b)|split_and!; try done]].
  - destruct Hfit as [S1 S2 S3 S4 S5]. destruct (lookup_ids (ids (input_batch s)) (Some <$> es) i e) as (Hid & _ & _); [apply Hok|by rewrite list_lookup_fmap, Hi|].
    unfold cache_sampled. destruct l as [|x l]; [done|]. erewrite bind_ok by reflexivity.
    erewrite bind_ok by (apply zoom_ok; apply zoom_ok; exact E0). rewrite (proj2 (Z.leb_le _ _) S4). erewrite bind_ok by reflexivity.
    unfold lift_res at 1. rewrite as_int32_list by done. erewrite bind_ok by reflexivity.
    erewrite bind_ok by (apply zoom_ok; apply zoom_ok; exact E1). erewrite bind_ok by (apply zoom_ok; apply zoom_ok; exact E2).
    erewrite bind_ok by (apply zoom_ok; apply zoom_ok; exact E3).
    erewrite bind_ok by (apply zoom_ok; apply zoom_ok; apply (load_ok req_ids _ (Some (en_id e))); [lia|by rewrite Nat2Z.id]).
    cbv match beta. erewrite bind_ok by (by apply (cached_request_ok s)). reflexivity.
  - intros o. change (output_lists (with_sampled b r l s)) with (<[rs_output_token_ids r := output_of (output_lists s) (rs_output_token_ids r) ++ l]> (output_lists s)).
    destruct (decide (o = rs_output_token_ids r)) as [->|Hne]; [by rewrite output_of_same|]. by rewrite output_of_other, app_nil_r.
Qed.

(** *** All rows *)

Definition all_sampled (valid : list (list Z)) (es : list entry) : list entry := zip_with sampled valid es.

(** Outputs of requests that have no row. *)
Definition others_keep (s s' : ModelRunner) (es : list entry) : Prop := forall id r, cached_requests s !! id = Some r -> id ∉ en_id <$> es ->
  output_of (output_lists s') (rs_output_token_ids r) = output_of (output_lists s) (rs_output_token_ids r).

Lemma sample_loop valid m : forall k s es, length es = (k + m)%nat -> length valid = length es -> runner_ok s es ->
  (forall i e l, es !! i = Some e -> valid !! i = Some l -> (k <= i)%nat -> sample_fits (runner_config s) e l) ->
  exists s', mfor (py_range (Z.of_nat k) (zlen es)) (fun i => l ← lift_res (py_get valid i); cache_sampled i l) s = (Ok tt, s')
    /\ runner_ok s' (take k es ++ all_sampled (drop k valid) (drop k es)) /\ cached_requests s' = cached_requests s /\ others_keep s s' es.
Proof.
  induction m as [|m IH]; intros k s es Hm Hv Hok Hfit.
  - exists s. rewrite py_range_nil by (unfold zlen; lia). split; [done|]. rewrite !drop_ge, take_ge by lia. cbn. rewrite app_nil_r. by split_and!.
  - destruct (lookup_lt_is_Some_2 es k) as [e He]; [lia|]. destruct (lookup_lt_is_Some_2 valid k) as [l Hl]; [lia|].
    destruct (cache_sampled_ok s es k e l Hok He) as (s1 & r & E & Hok1 & C1 & G1 & Hr & Ho1); [by apply (Hfit k)|].
    destruct (IH (S k) s1 (<[k := sampled l e]> es)) as (s' & E' & Hok' & C' & Ho').
    + rewrite length_insert. lia.
    + by rewrite length_insert.
    + done.
    + rewrite G1. intros i x l' Hi Hl' Hk. rewrite list_lookup_insert_ne in Hi by lia. apply (Hfit i); [done|done|lia].
    + exists s'. rewrite py_range_cons by (unfold zlen; lia). split; [|split; [|split]].
      * cbn [mfor]. erewrite bind_ok; [replace (Z.of_nat k + 1) with (Z.of_nat (S k)) by lia; unfold zlen in *; rewrite length_insert in E'; exact E'|].
        unfold lift_res. rewrite py_get_nonneg, Nat2Z.id, Hl by lia. by erewrite bind_ok by reflexivity.
      * rewrite drop_insert_lt, (take_S_r _ _ (sampled l e)), take_insert_ge, <- app_assoc in Hok' by first [lia|by apply list_lookup_insert_eq; lia].
        by rewrite (drop_S es e), (drop_S valid l) by done.
      * congruence.
      * intros id x Hx Hid. rewrite (Ho' id x).
        -- rewrite Ho1, decide_False, app_nil_r; [done|]. intros Heq. apply Hid. destruct (rk_objects _ _ _ _ _ _ Hok) as [_ _ Hown _].
           rewrite (Hown id (en_id e) x r Hx Hr Heq). apply list_elem_of_fmap_2. by eapply list_elem_of_lookup_2.
        -- by rewrite C1.
        -- rewrite list_fmap_insert, list_insert_id; [done|]. by rewrite list_lookup_fmap, He.
Qed.

(** [_bookkeeping_sync]: every row and every request gets the tokens sampled for it. *)
Lemma bookkeeping_ok s es valid discard : runner_ok s es -> length valid = length es ->
  (forall i e l, es !! i = Some e -> valid !! i = Some l -> sample_fits (runner_config s) e l) ->
  exists s', bookkeeping_sync (zlen es) valid discard s = (Ok tt, s') /\ runner_ok s' (all_sampled valid es) /\ cached_requests s' = cached_requests s /\ others_keep s s' es.
Proof.
  intros Hok Hv Hfit. destruct (sample_loop valid (length es) 0 s es eq_refl Hv Hok) as (s' & E & Hok' & C & Ho); [intros i e l Hi Hl _; by apply (Hfit i)|].
  exists s'. split; [|done]. unfold bookkeeping_sync. erewrite bind_ok by reflexivity. destruct (rk_config _ _ _ _ _ _ Hok) as (_ & -> & _). exact E.
Qed.

End runner.
End RunnerTokens.
