(* ===== verification/RunnerSound.v ===== *)
(** What the worker's state promises over its life, from an empty batch on. *)

From Stdlib Require Import QArith.
From stdpp Require Import gmap sorting.
From S2P Require Import Prelude Request Scheduler BlockTable BlockTableFacts BatchUpdate LogitsFacts LogitsFollow InputBatch.
From S2P Require Import BatchRows BatchTokens BatchColumns BatchSampling BatchHoles BatchState BatchPhases ReorderBatch ReorderFacts ModelRunner RunnerFacts RunnerStep RunnerTokens.
Import BatchRows BatchTokens BatchColumns BatchSampling BatchHoles BatchState BatchPhases LogitsFacts LogitsFollow Runner RunnerFacts ReorderFacts RunnerStep RunnerTokens.
Local Open Scope Z_scope.

Module RunnerSound.

(** ** The worker before the first step *)

(** The batch, the processors and the other state that [GPUModelRunner.__init__] makes. *)
Definition runner_init `{Float32} (cfg : RunnerConfig) (max_num_reqs max_model_len vocab : Z) (double : bool) (tables : list BlockTable) (thinking : ThinkingTokenBudget) : ModelRunner :=
  {| runner_config := cfg; cached_requests := ∅; num_prompt_logprobs := ∅; runner_encoder_cache := ∅; prev_num_draft_tokens := [];
     input_batch := Batch.init false max_num_reqs max_model_len vocab tables;
     logits_procs := {| procs_min_p := MinPs.init max_num_reqs double; procs_bias := Bias.init; procs_min_tokens := MinToks.init; procs_thinking := thinking |};
     output_lists := ∅; next_object := 0 |}.

Section init.
Context `{Float32} (N W : nat) (V : Z) (dims : list (Z * Z)).

(** A table that has just been made. *)
Definition fresh_table (d : Z * Z) (t : BlockTable) : Prop := exists cp kv w mt ks il, 1 <= kv /\ 1 <= ks /\ kv mod ks = 0
  /\ Table.init cp kv (Z.of_nat N) w mt ks il = Ok t /\ d = (blocks_per_kv_block t, max_num_blocks_per_req t).

Lemma fresh_tables_ok tables : Forall2 fresh_table dims tables -> tables_ok N dims tables [].
Proof.
  intros Hd g t Hg. apply Forall2_flip in Hd. destruct (Forall2_lookup_l _ _ _ _ _ Hd Hg) as (d & Hdg & cp & kv & w & mt & ks & il & H1 & H2 & H3 & E & ->).
  destruct (TableFacts.init_shows cp kv (Z.of_nat N) w mt ks il H1 H2 H3) as (t' & E' & Hs & Hn & _). rewrite E in E'. injection E' as <-.
  split; [done|done|]. eexists. split; [exact Hs|]. intros i e Hi. by rewrite lookup_nil in Hi.
Qed.

Lemma nobody e : ~ here [] e.
Proof. intros [i Hi]. by rewrite lookup_nil in Hi. Qed.

Lemma batch_init_ok tables : Forall2 fresh_table dims tables -> batch_ok N W V dims (Batch.init false (Z.of_nat N) (Z.of_nat W) V tables) [].
Proof.
  intros Hd. split; cbn; rewrite ?Nat2Z.id; try done; try lia.
  - split; cbn; try done; rewrite ?length_replicate; try lia.
    + intros id i. rewrite lookup_empty. split; [done|]. intros (_ & e & He & _). by rewrite lookup_nil in He.
    + intros i l Hl. apply lookup_replicate in Hl as [-> _]. by rewrite lookup_nil.
  - split; cbn; intros; rewrite ?length_replicate; try done.
    + by apply lookup_replicate in H0 as [-> _]; rewrite length_replicate.
    + by apply lookup_replicate in H0 as [-> _]; rewrite length_replicate.
  - by apply fresh_tables_ok.
  - symmetry. by eapply Forall2_length.
  - split; cbn; rewrite ?length_replicate; try done.
    + intros e He. by destruct (nobody e).
    + intros L. rewrite !lookup_empty. done.
  - assert (forall z : Z, row_at [] z = None) as Hrow by (intros z; unfold row_at; by case_match). split; cbn; intros; rewrite ?Hrow; try done.
    + by rewrite length_replicate.
    + by rewrite length_replicate.
    + split; [set_solver|]. intros (e & p & He & _). by destruct (nobody e).
    + rewrite lookup_empty. split; [done|]. intros (e & He & _). by destruct (nobody e).
    + rewrite lookup_empty. split; [done|]. intros (e & He & _). by destruct (nobody e).
  - intros e He. by destruct (nobody e).
Qed.

Lemma trues_zeros n : trues (replicate n 0%Q) = 0.
Proof. unfold trues. induction n as [|n IH]; [done|]. cbn [replicate]. by rewrite filter_cons_False. Qed.

Lemma min_p_init_ok double : min_p_ok (Z.of_nat N) (MinPs.init (Z.of_nat N) double) 0 ∅.
Proof.
  split; cbn; rewrite ?Nat2Z.id; [|unfold zlen; by rewrite length_replicate|done]. split; cbn; rewrite ?Nat2Z.id.
  - unfold zlen. by rewrite length_replicate.
  - intros i x _ Hx. apply lookup_replicate in Hx as [-> _]. unfold cell. by rewrite lookup_empty.
  - by rewrite trues_zeros.
Qed.

Lemma runner_init_ok cfg double tables thinking : plain cfg -> Forall2 fresh_table dims tables ->
  runner_ok N W V dims (runner_init cfg (Z.of_nat N) (Z.of_nat W) V double tables thinking) [].
Proof.
  intros Hcfg Hd. split.
  - by apply batch_init_ok.
  - done.
  - intros e He. by apply elem_of_nil in He.
  - split; cbn; intros *; rewrite ?lookup_empty; done.
  - exists ∅, ∅. split; [|split; [|by intros r]].
    + intros z. unfold row_at. rewrite lookup_empty. cbn. by case_match.
    + split; [apply min_p_init_ok|apply bias_init|apply min_toks_init].
  - done.
Qed.
End init.

(** ** The worker over its life *)

Section life.
Context `{Float32} (order : gset string -> list string) (N W : nat) (V : Z) (dims : list (Z * Z)).
Hypothesis Horder : forall X, order X ≡ₚ elements X.
Abbreviation runner_ok := (RunnerStep.runner_ok N W V dims).

(** Tokens sampled for the row [i], which has no draft tokens behind its own, fit into it. *)
Definition sample_fits_row (s : ModelRunner) (i : nat) (l : list Z) : Prop :=
  spec_token_ids (ids (input_batch s)) !! i = Some [] /\ forallb Table.is_int32 l = true
  /\ exists n, counts (tokens (input_batch s)) num_tokens_no_spec !! i = Some n /\ n + zlen l <= Z.of_nat W
     /\ n + zlen l <= rc_max_model_len (runner_config s) /\ Table.is_int32 (n + zlen l) = true.

(** One list of sampled tokens for each row. *)
Definition samples_fit (s : ModelRunner) (valid : list (list Z)) : Prop :=
  zlen valid = Batch.num_reqs (input_batch s) /\ forall i l, valid !! i = Some l -> sample_fits_row s i l.

Lemma num_reqs_dense b es : BatchState.batch_ok N W V dims b (Some <$> es) -> Batch.num_reqs b = zlen es.
Proof. intros Hb. unfold Batch.num_reqs. rewrite (num_reqs_present _ (Some <$> es)) by apply Hb. by rewrite present_dense. Qed.

Lemma samples_fit_rows s es valid : runner_ok s es -> samples_fit s valid ->
  length valid = length es /\ forall i e l, es !! i = Some e -> valid !! i = Some l -> sample_fits W (runner_config s) e l.
Proof.
  intros Hok [Hn Hfit]. pose proof (rk_batch _ _ _ _ _ _ Hok) as Hb. rewrite (num_reqs_dense _ es Hb) in Hn. split; [unfold zlen in Hn; lia|].
  intros i e l He Hl. destruct (Hfit i l Hl) as (Hs & H1 & n & Hc & H2 & H3 & H4).
  assert ((Some <$> es) !! i = Some (Some e)) as Hr by (by rewrite list_lookup_fmap, He).
  destruct (lookup_ids (ids (input_batch s)) _ i e (bk_ids _ _ _ _ _ _ Hb) Hr) as (_ & _ & Hs'). rewrite Hs in Hs'. injection Hs' as Hspec. symmetry in Hspec.
  destruct (bk_tokens _ _ _ _ _ _ Hb i e Hr) as [[T1 T1'] T2 T3 _ _ _ _ _]. rewrite T3 in Hc. injection Hc as <-. destruct (active_length e T1 T1') as [Ha _].
  unfold active_count in Ha. rewrite Hspec in Ha. change (zlen []) with 0 in Ha. rewrite Z.add_0_r in Ha. rewrite <- Ha in H2, H3, H4. split; try done. unfold zlen in *. lia.
Qed.

(** The states that the worker reaches, with whatever the calls answer. *)
Inductive reachable : ModelRunner -> Prop :=
| reach_init cfg double tables thinking : plain cfg -> Forall2 (fresh_table N) dims tables ->
    reachable (runner_init cfg (Z.of_nat N) (Z.of_nat W) V double tables thinking)
| reach_schedule s so : reachable s -> step_fits N W V dims s so -> reachable (update_states order so s).2
| reach_sample s valid discard : reachable s -> samples_fit s valid -> reachable (bookkeeping_sync (zlen valid) valid discard s).2.

Lemma reachable_ok s : reachable s -> exists es, runner_ok s es.
Proof.
  induction 1 as [cfg double tables thinking Hc Ht|s so _ [es Hok] Hf|s valid discard _ [es Hok] Hs].
  - exists []. by apply runner_init_ok.
  - destruct (update_states_ok order N W V dims Horder so s es Hok Hf) as (s' & es' & -> & Hok' & _). by exists es'.
  - destruct (samples_fit_rows s es valid Hok Hs) as [Hl Hf]. destruct (bookkeeping_ok N W V dims s es valid discard Hok Hl Hf) as (s' & E & Hok' & _). exists (all_sampled valid es).
    unfold zlen in *. by rewrite Hl, E.
Qed.

(** ** Properties *)

Lemma dense_exact bu es : exact bu (Some <$> es).
Proof. intros z [_ Hz]. rewrite list_lookup_fmap in Hz. by destruct (es !! Z.to_nat z). Qed.

(** C8: In every state that the worker reaches from an empty batch, by steps that the scheduler may ask for and by caching sampled tokens, the persistent
    batch has one row for each of some requests and no row between them is empty; each row shows its request's tokens, counts, blocks, LoRA and sampling
    parameters in every array (the mask of allowed tokens apart), the requests' states agree with the rows, no set or dictionary names a request that has
    gone, and the logits processors for logit bias, minimum tokens and min-p show the rows. *)
Theorem worker_keeps_batch s : reachable s -> exists es, runner_ok s es.
Proof. apply reachable_ok. Qed.

(** C7: [_update_states] never fails on a step that fits: it ends with a batch of exactly the scheduled requests, each with the draft tokens, the blocks and
    the computed tokens that the scheduler gave it; requests that are not scheduled are as before or, when they finished, forgotten; and where the
    attention backend asks for it, the batch is ordered by regions. *)
Theorem worker_follows_schedule s so : reachable s -> step_fits N W V dims s so ->
  exists s' es', update_states order so s = (Ok [], s') /\ runner_ok s' es' /\ follows_schedule s so s' es'.
Proof. intros [es Hok]%reachable_ok Hf. by apply (update_states_ok order N W V dims Horder so s es). Qed.

(** C12: [_bookkeeping_sync] appends to each row, and to the output tokens of its request, exactly the tokens sampled for that row; requests without a row
    keep theirs. *)
Theorem worker_caches_samples s es valid discard : runner_ok s es -> samples_fit s valid ->
  exists s', bookkeeping_sync (zlen valid) valid discard s = (Ok tt, s') /\ runner_ok s' (zip_with sampled valid es)
    /\ cached_requests s' = cached_requests s /\ others_keep s s' es.
Proof.
  intros Hok Hs. destruct (samples_fit_rows s es valid Hok Hs) as [Hl Hf]. destruct (bookkeeping_ok N W V dims s es valid discard Hok Hl Hf) as (s' & E & Hok' & C & Ho).
  exists s'. unfold zlen in *. rewrite Hl. split; [exact E|]. by split.
Qed.

(** C13: Whatever requests are removed from the batch, in whatever order, [condense] moves the others together: afterwards the batch has exactly the other
    requests, without empty rows, and once the logits processors have followed the changes they show the new rows. *)
Theorem condense_closes_gaps s es l : runner_ok s es ->
  exists changed s' es', (mfor l remove_from_batch ;; on_batch Batch.condense ;; refresh) s = (Ok changed, s')
    /\ BatchState.batch_ok N W V dims (input_batch s') (Some <$> es') /\ es' ≡ₚ filter (fun e => en_id e ∉ l) es
    /\ exists L, lays (Some <$> es') L /\ procs_ok N (output_lists s) (logits_procs s') (zlen es') L.
Proof.
  intros [K1 K2 _ _ (h0 & L & HL & Hp & Hg) _].
  destruct (remove_loop N W V dims l s (Some <$> es) L K1) as (b1 & rows & E1 & Hb1 & _ & Hp1 & He1 & Hh); [by rewrite K2|rewrite K2; by apply phase_start|by apply dense_exact|].
  destruct (condense_ok N W V dims b1 rows L Hb1 Hp1 He1) as (b2 & es' & E2 & Hb2 & Hs2 & Hperm).
  destruct (refresh_ok N W V dims h0 (output_lists s) b2 es es' L (logits_procs s) Hb2 Hs2 HL (batch_dense_params N W V dims _ es K1) Hp Hg) as (ch & b3 & procs & L' & E3 & Hb3 & _ & HL' & Hp').
  exists ch, (with_procs procs (with_batch b3 (with_batch b2 (with_batch b1 s)))), es'. split; [|split; [exact Hb3|split; [|by exists L']]].
  - erewrite bind_ok by exact E1. erewrite bind_ok by (apply zoom_ok; exact E2). unfold refresh.
    change (output_lists (with_batch b2 (with_batch b1 s))) with (output_lists s). change (input_batch (with_batch b2 (with_batch b1 s))) with b2.
    change (logits_procs (with_batch b2 (with_batch b1 s))) with (logits_procs s). by rewrite E3.
  - rewrite Hperm. apply NoDup_Permutation.
    + apply NoDup_fmap_1 with en_id. by eapply NoDup_present, batch_distinct.
    + apply NoDup_filter. apply NoDup_fmap_1 with en_id. rewrite <- (present_dense es). by eapply NoDup_present, batch_distinct.
    + intros e. rewrite elem_of_present, Hh, list_elem_of_filter, <- elem_of_present, present_dense. tauto.
Qed.

(** C14: [reorder_batch_to_split_decodes_and_prefills] ends and permutes the rows of the batch so that decodes come first, then requests that extend a context,
    then prefills; every row still shows its request. *)
Theorem reorder_splits_batch s es sched threshold : runner_ok s es -> (forall e, e ∈ es -> is_Some (Dict.get (en_id e) sched)) ->
  exists modified b' es', Reorder.reorder_batch_to_split_decodes_and_prefills sched threshold (input_batch s) = (Ok modified, b')
    /\ BatchState.batch_ok N W V dims b' (Some <$> es') /\ es' ≡ₚ es /\ StronglySorted Z.le (region_of sched threshold <$> es').
Proof.
  intros [K1 K2 _ _ (h0 & L & HL & _) _] Hk. destruct (reorder_ok N W V dims L sched threshold (input_batch s) es K1) as (f & b' & es' & E & Hb & _ & Hp & Hs); [|done|by exists f, b', es'].
  rewrite K2. split; [by exists L; split; [|apply tracks_init]|constructor..].
Qed.
End life.
End RunnerSound.
