(* ===== verification/RunnerDemo.v ===== *)
(** A small worker: the witnesses of the properties of [RunnerSound]. *)

From Stdlib Require Import QArith.
From stdpp Require Import gmap sorting.
From S2P Require Import Prelude Request Scheduler BlockTable BlockTableFacts BatchUpdate LogitsFacts LogitsFollow InputBatch.
From S2P Require Import BatchRows BatchTokens BatchColumns BatchSampling BatchHoles BatchState BatchPhases ReorderBatch ReorderFacts ModelRunner RunnerFacts RunnerStep RunnerTokens RunnerSound.
Import BatchRows BatchTokens BatchColumns BatchSampling BatchHoles BatchState BatchPhases LogitsFacts LogitsFollow Runner RunnerFacts ReorderFacts RunnerStep RunnerTokens RunnerSound.
Local Open Scope Z_scope.

Module RunnerDemo.

#[export] Instance exact_floats : Float32 := fun q => q.

(** Four rows of eight tokens, sixteen token ids, one table of four blocks a row. *)
Definition N : nat := 4.
Definition W : nat := 8.
Definition V : Z := 16.
Definition demo_dims : list (Z * Z) := [(1, 4)].
Definition demo_cfg : RunnerConfig :=
  {| is_last_rank := true; use_async_scheduling := false; use_async_spec_decode := false; reorder_batch_threshold := Some 1; num_groups := 1; rc_max_model_len := 8 |}.
Definition demo_tables : list BlockTable :=
  match Table.init {| pcp_world_size := 1; pcp_rank := 0; dcp_world_size := 1; dcp_rank := 0 |} 2 (Z.of_nat N) 4 8 2 1 with Ok t => [t] | Raise _ => [] end.
Definition demo_start : ModelRunner :=
  runner_init demo_cfg (Z.of_nat N) (Z.of_nat W) V false demo_tables {| is_enabled := false; reasoning_start_token_ids := []; reasoning_end_token_ids := []; think_states := [] |}.

Definition demo_params : WorkerParams :=
  {| temperature := 1; seed := None; top_p := 1 # 2; top_k := 4; frequency_penalty := 0; presence_penalty := 0; repetition_penalty := 1; logprobs := None;
     logprob_token_ids := None; allowed_token_ids := Some [3; 5]; bad_words_token_ids := None; min_p := 1 # 4; logit_bias := Some [(3, 1%Q)]; wp_min_tokens := 2;
     all_stop_token_ids := [9]; thinking_token_budget := None; wp_prompt_logprobs := None |}.
Definition demo_request (id : string) (prompt : list Z) (blocks : list Z) (computed : Z) : WorkerNewRequest :=
  {| wn_req_id := id; wn_prompt_token_ids := Some prompt; wn_prompt_embeds := None; wn_sampling_params := Some demo_params; wn_block_ids := [blocks];
     wn_num_computed_tokens := computed; wn_lora_request := None |}.
Definition demo_data (ids : list string) (computed : list Z) (blocks : list (option (list (list Z)))) (outputs : list Z) : CachedRequestData :=
  {| cr_req_ids := ids; resumed_req_ids := ∅; new_token_ids := []; cr_all_token_ids := []; new_block_ids := blocks;
     cr_num_computed_tokens := computed; cr_num_output_tokens := outputs |}.

(** The first step: [a] is a prefill; the other one has all but one of its tokens cached already, and a draft. *)
Definition demo_step1 : WorkerStep :=
  {| ws_finished_req_ids := ∅; ws_free_encoder_mm_hashes := []; ws_num_scheduled_tokens := [("a", 3); ("b", 1)];
     ws_new_reqs := [demo_request "a" [1; 2; 3] [1; 2] 0; demo_request "b" [4; 5] [3] 1];
     ws_cached_reqs := demo_data [] [] [] []; ws_spec_decode_tokens := ∅ |}.
Definition demo1 : ModelRunner := (update_states elements demo_step1 demo_start).2.
Definition demo_samples : list (list Z) := [[7]; [8]].
Definition demo2 : ModelRunner := (bookkeeping_sync (zlen demo_samples) demo_samples [] demo1).2.

(** The second step: [b] has finished, [a] goes on with a draft and a block more, and a request comes. *)
Definition demo_step2 : WorkerStep :=
  {| ws_finished_req_ids := {[ "b" ]}; ws_free_encoder_mm_hashes := []; ws_num_scheduled_tokens := [("c", 2); ("a", 2)];
     ws_new_reqs := [demo_request "c" [6; 6] [5] 0];
     ws_cached_reqs := demo_data ["a"] [3] [Some [[4]]] [1]; ws_spec_decode_tokens := {[ "a" := [11] ]} |}.
Definition demo3 : ModelRunner := (update_states elements demo_step2 demo2).2.

Example demo_order1 : req_ids (ids (input_batch demo1)) = [Some "b"; Some "a"].
Proof. vm_compute. reflexivity. Qed.
Example demo_order3 : req_ids (ids (input_batch demo3)) = [Some "a"; Some "c"] /\ take 2 (spec_token_ids (ids (input_batch demo3))) = [[11]; []].
Proof. vm_compute. done. Qed.
Example demo_rows3 : take 2 (token_ids_cpu (tokens (input_batch demo3))) = [[1; 2; 3; 8; 11; 0; 0; 0]; [6; 6; 7; 0; 0; 0; 0; 0]].
Proof. vm_compute. reflexivity. Qed.

(** ** The steps fit *)

Lemma demo_params_fit : params_fit V demo_params.
Proof. split; [done|]. split; [done|]. intros l [= <-]. repeat constructor; done. Qed.

(** A request of this demo, whatever its generator and its output list. *)
Lemma demo_fits spec output (r : CachedRequestState) prompt blocks : rs_prompt_token_ids r = Some prompt -> rs_prompt_embeds r = None ->
  rs_num_prompt_tokens r = zlen prompt -> rs_sampling_params r = Some demo_params -> rs_lora_request r = None -> rs_block_ids r = [blocks] ->
  forallb Table.is_int32 (prompt ++ output ++ spec) = true -> Table.is_int32 (rs_num_computed_tokens r) = true ->
  forallb (fun b => (0 <=? b) && (b <? 100)) blocks = true -> (length blocks <= 4)%nat -> (length (prompt ++ output ++ spec) <= W)%nat ->
  request_fits W V demo_dims spec output r.
Proof.
  intros H1 H2 H3 H4 H5 H6 Hint Hc Hb Hn HW. rewrite !forallb_app, !andb_true_iff in Hint. destruct Hint as (I1 & I2 & I3). rewrite !length_app in HW.
  assert (length (active (with_spec spec (entry_with output r))) = length (prompt ++ output ++ spec)) as Ha.
  { unfold active, prompt_of. cbn. rewrite H1. rewrite !length_app, !length_fmap, !length_app. lia. }
  assert (length (active (entry_with output r)) = length (prompt ++ output)) as Ha0.
  { unfold active, prompt_of. cbn. rewrite H1. rewrite !length_app, !length_fmap, !length_app. cbn. lia. }
  split; [split| | |].
  - split; cbn; unfold prompt_len; cbn.
    + rewrite H1, H2, H3. done.
    + rewrite Ha0, length_app. lia.
    + rewrite H1. by intros l [= <-].
    + done.
    + split; [|done]. unfold Table.is_int32. rewrite H3. unfold zlen. unfold W in HW. rewrite andb_true_iff, Z.leb_le, Z.ltb_lt. lia.
  - intros g d Hg. destruct g as [|g]; [|done]. injection Hg as <-. exists blocks. cbn. rewrite H6. split; [done|]. split; [|unfold zlen; lia].
    apply Forall_forall. intros b Hin. rewrite forallb_forall in Hb. specialize (Hb b). rewrite <- list_elem_of_In, andb_true_iff, Z.leb_le, Z.ltb_lt in Hb.
    specialize (Hb Hin). split; cbn; lia.
  - intros l. cbn. rewrite H5. done.
  - exists demo_params. split; [done|apply demo_params_fit].
  - done.
  - rewrite Ha, !length_app. lia.
  - intros a. unfold payload_at, params_of. cbn. rewrite H4. intros [= <-]. done.
Qed.

Ltac demo_row := eapply demo_fits; first [reflexivity | vm_compute; repeat constructor].

Lemma demo_fits1 : step_fits N W V demo_dims demo_start demo_step1.
Proof.
  split.
  - by apply (bool_decide_unpack (NoDup _)).
  - done.
  - cbn. unfold N. lia.
  - intros n Hn. split; [by left|]. apply elem_of_cons in Hn as [->|[->|[]%elem_of_nil]%elem_of_cons]; (split; [by eexists|by eexists|]); intros k g o [= <-]; demo_row.
  - intros i id Hi. done.
Qed.

Lemma demo_start_reachable : reachable elements N W V demo_dims demo_start.
Proof.
  apply reach_init; [done|]. unfold demo_tables. constructor; [|constructor].
  eexists {| pcp_world_size := 1; pcp_rank := 0; dcp_world_size := 1; dcp_rank := 0 |}, 2, 4, 8, 2, 1. by split_and!.
Qed.

Lemma demo_reachable1 : reachable elements N W V demo_dims demo1.
Proof. apply reach_schedule; [apply demo_start_reachable|apply demo_fits1]. Qed.

Lemma demo_samples_fit : samples_fit W demo1 demo_samples.
Proof.
  split; [by vm_compute|]. intros [|[|i]] l Hl; [injection Hl as <-; split; [by vm_compute|split; [done|]]..|done].
  - exists 2. split; [by vm_compute|]. by vm_compute.
  - exists 3. split; [by vm_compute|]. by vm_compute.
Qed.

Lemma demo_reachable2 : reachable elements N W V demo_dims demo2.
Proof. apply reach_sample; [apply demo_reachable1|apply demo_samples_fit]. Qed.

Lemma demo_fits2 : step_fits N W V demo_dims demo2 demo_step2.
Proof.
  split.
  - by apply (bool_decide_unpack (NoDup _)).
  - apply Permutation_refl.
  - cbn. unfold N. lia.
  - intros n [->|[]%elem_of_nil]%elem_of_cons. split; [left; by vm_compute|]. split; [by eexists|by eexists|]. intros k g o [= <-]. demo_row.
  - intros [|i] id Hi; [|done]. injection Hi as <-. split; [by vm_compute|].
    assert (is_Some (cached_requests demo2 !! "a")) as [r Hr] by (vm_compute; by eexists).
    exists r, 3, (Some [[4]]), 1. split; [done|]. vm_compute in Hr. injection Hr as <-. split; try done.
    + intros new [= <-]. done.
    + demo_row.
Qed.

(** ** Witnesses *)

Lemma elements_order (X : gset string) : elements X ≡ₚ elements X.
Proof. done. Qed.

Lemma demo_ids s es l : runner_ok N W V demo_dims s es -> req_ids (ids (input_batch s)) = Some <$> l -> en_id <$> es = l.
Proof.
  intros Hok Hl. rewrite (io_ids _ _ (bk_ids _ _ _ _ _ _ (rk_batch _ _ _ _ _ _ Hok))), <- !list_fmap_compose in Hl.
  revert l Hl. clear. induction es as [|e es IH]; intros [|x l] Hl; try done. injection Hl as H1 H2. cbn. f_equal; [done|by apply IH].
Qed.

Lemma worker_keeps_batch_witness : exists es, runner_ok N W V demo_dims demo2 es.
Proof. apply (worker_keeps_batch elements N W V demo_dims elements_order demo2). apply demo_reachable2. Defined.

Lemma worker_follows_schedule_witness : exists s' es', update_states elements demo_step2 demo2 = (Ok [], s') /\ runner_ok N W V demo_dims s' es'
  /\ follows_schedule demo2 demo_step2 s' es'.
Proof. apply (worker_follows_schedule elements N W V demo_dims elements_order demo2 demo_step2); [apply demo_reachable2|apply demo_fits2]. Defined.

Lemma worker_caches_samples_witness : exists es s', runner_ok N W V demo_dims demo1 es /\ bookkeeping_sync 2 demo_samples [] demo1 = (Ok tt, s')
  /\ runner_ok N W V demo_dims s' (zip_with sampled demo_samples es).
Proof.
  destruct (reachable_ok elements N W V demo_dims elements_order demo1 demo_reachable1) as [es Hok].
  destruct (worker_caches_samples N W V demo_dims demo1 es demo_samples [] Hok demo_samples_fit) as (s' & E & Hok' & _). exists es, s'. split; [exact Hok|split; [exact E|exact Hok']].
Defined.

Lemma condense_closes_gaps_witness : exists changed s' es, (mfor ["b"] remove_from_batch ;; on_batch Batch.condense ;; refresh) demo2 = (Ok changed, s')
  /\ BatchState.batch_ok N W V demo_dims (input_batch s') (Some <$> es).
Proof.
  destruct (reachable_ok elements N W V demo_dims elements_order demo2 demo_reachable2) as [es Hok].
  destruct (condense_closes_gaps N W V demo_dims demo2 es ["b"] Hok) as (ch & s' & es' & E & Hb & _). exists ch, s', es'. split; [exact E|exact Hb].
Defined.

Lemma reorder_splits_batch_witness : exists modified b' es, Reorder.reorder_batch_to_split_decodes_and_prefills [("a", 1); ("b", 2)] 1 (input_batch demo2) = (Ok modified, b')
  /\ BatchState.batch_ok N W V demo_dims b' (Some <$> es).
Proof.
  destruct (reachable_ok elements N W V demo_dims elements_order demo2 demo_reachable2) as [es Hok].
  destruct (reorder_splits_batch N W V demo_dims demo2 es [("a", 1); ("b", 2)] 1 Hok) as (f & b' & es' & E & Hb & _).
  - intros e He. assert (en_id <$> es = ["b"; "a"]) as Hids by (apply (demo_ids demo2 es _ Hok); vm_compute; reflexivity).
    assert (en_id e ∈ ["b"; "a"]) as Hin by (rewrite <- Hids; by apply list_elem_of_fmap_2).
    apply elem_of_cons in Hin as [->|Hin]; [by eexists|]. apply list_elem_of_singleton in Hin as ->. by eexists.
  - exists f, b', es'. split; [exact E|exact Hb].
Defined.

End RunnerDemo.
