(* ===== verification/BatchFindings.v ===== *)
(** Runs of the persistent batch in which it does not do what it means to: masks of allowed token
    ids that are exchanged through views or left behind, and a thinking budget that the
    wrong request inherits. *)

From Stdlib Require Import QArith.
From stdpp Require Import gmap.
From S2P Require Import Prelude Request BlockTable BatchUpdate InputBatch.
From S2P Require Import BatchRows BatchTokens BatchColumns BatchSampling BatchHoles BatchState BatchPhases LogitsFacts LogitsFollow ReorderBatch ReorderFacts ModelRunner RunnerFacts RunnerStep RunnerTokens RunnerSound RunnerDemo.
Local Open Scope Z_scope.

Module BatchFindings.

#[export] Instance plain_floats : Float32 := fun q => q.

(** A request whose output may use only the tokens [allowed] of four, with a thinking budget. *)
Definition params (allowed : option (list Z)) (budget : option Z) : WorkerParams :=
  {| temperature := 1; seed := None; top_p := 1; top_k := 0; frequency_penalty := 0; presence_penalty := 0; repetition_penalty := 1; logprobs := None;
     logprob_token_ids := None; allowed_token_ids := allowed; bad_words_token_ids := None; min_p := 0; logit_bias := None; wp_min_tokens := 0;
     all_stop_token_ids := []; thinking_token_budget := budget; wp_prompt_logprobs := None |}.
Definition request (id : string) (output : output_ref) (allowed : option (list Z)) (budget : option Z) : CachedRequestState :=
  {| rs_req_id := id; rs_prompt_token_ids := Some [1; 2]; rs_prompt_embeds := None; rs_num_prompt_tokens := 2; rs_sampling_params := Some (params allowed budget);
     rs_generator := None; rs_block_ids := [[1]]; rs_num_computed_tokens := 0; rs_output_token_ids := output; rs_lora_request := None;
     rs_pooling_params := None; rs_pooling_states := None; prev_num_draft_len := 0 |}.

Definition batch : InputBatch := Batch.init false 4 8 4 RunnerDemo.demo_tables.
Definition add (r : CachedRequestState) : M InputBatch unit := Batch.add_request ∅ r ;; mret tt.
Definition mask_of (b : InputBatch) (i : nat) : option (list bool) := allowed_token_ids_mask (sampling b) ≫= fun m => m !! i.

(** [swap_states]: both rows end with the mask of the second; the request with token 0 may then only use token 1. *)
Definition swapped := (add (request "a" 0%nat (Some [0]) None) ;; add (request "b" 1%nat (Some [1]) None) ;; Batch.swap_states 0 1) batch.
Lemma swap_states_loses_mask : swapped.1 = Ok tt /\ req_ids (ids swapped.2) = [Some "b"; Some "a"]
  /\ mask_of swapped.2 0 = Some [true; false; true; true] /\ mask_of swapped.2 1 = Some [true; false; true; true].
Proof. vm_compute. done. Qed.

(** [condense]: [c], which may use every token, gets the mask that [b] has left behind in its row. *)
Definition left_behind :=
  (add (request "a" 0%nat None None) ;; add (request "b" 1%nat (Some [1]) None) ;; Batch.remove_request "a" ;; Batch.condense ;;
   Batch.on_builder (modify (fun _ => Builder.init)) ;; add (request "c" 2%nat None None)) batch.
Lemma condense_leaves_mask : left_behind.1 = Ok tt /\ req_ids (ids left_behind.2) = [Some "b"; Some "c"]
  /\ Batch.no_allowed_token_ids left_behind.2 = false /\ mask_of left_behind.2 1 = Some [true; false; true; true].
Proof. vm_compute. done. Qed.

(** [ThinkingTokenBudgetLogitsProcessor.update_state]: [a] thinks with a budget of no tokens and has to end; it goes, and [b],
    which has no budget, moves to its row: there it is forced to the tokens that end thinking. *)
Definition thinker : ThinkingTokenBudget := {| is_enabled := true; reasoning_start_token_ids := [1]; reasoning_end_token_ids := [3]; think_states := [] |}.
Definition follow (u : res (option BatchUpdate)) (p : ThinkingTokenBudget) : ThinkingTokenBudget :=
  match u with Ok u => Thinking.update_state ∅ u p | Raise _ => p end.
Definition tell : M InputBatch (option BatchUpdate) := b ← gets (fun b => b); Batch.on_builder (Builder.get_and_reset (Batch.num_reqs b)).
Definition first_update : res (option BatchUpdate) := ((add (request "a" 0%nat None (Some 0)) ;; add (request "b" 1%nat None None) ;; tell) batch).1.
Definition second : res (option BatchUpdate) * InputBatch :=
  (Batch.remove_request "a" ;; Batch.condense ;; tell) ((add (request "a" 0%nat None (Some 0)) ;; add (request "b" 1%nat None None) ;; tell) batch).2.
Lemma moved_request_inherits_budget :
  Thinking.forced (follow first_update thinker) 2 = Ok [Some 3; None]
  /\ req_ids (ids second.2) = [Some "b"] /\ Thinking.forced (follow second.1 (follow first_update thinker)) 1 = Ok [Some 3].
Proof. vm_compute. done. Qed.

End BatchFindings.
